(* ===== verification/_CoqProject ===== *)
-Q . S2P
Prelude.v
DList.v
DListOps.v
DListSpec.v
Bitmap.v
Vaddr.v
Palloc.v
Kernel.v
Thread.v
Synch.v
Boot.v
KInv.v
KLogic.v
KSched.v
KSynch.v
KCreate.v
KTimer.v
KMain.v
KClient.v
KProps.v
Bytes.v
StrLib.v
StrSpec.v
Arith.v
FsBase.v
Inode.v
Directory.v
FsData.v
FsInv.v
FsWp.v
FsHandle.v
FsFile.v
FsDir.v
FsTop.v
FsInit.v
FsSim.v
FsProps.v
CStdlib.v
Stdio.v
StdioSpec.v
StdioProps.v
Hash.v
HashSpec.v
HashProps.v
Malloc.v
MallocInv.v
MallocProps.v
PageDir.v
PageDirSpec.v
PageDirOps.v
PageDirProps.v
Random.v
Gdt.v
FileService.v
FsService.v
Process.v
ProcessOps.v
ProcessProps.v
Idt.v
DevBase.v
PcHardware.v
Serial.v
SerialOps.v
Kbd.v
DevMachine.v
Vga.v
VgaProps.v
Console.v
AtaHardware.v
Disk.v
DiskSpec.v
DiskInit.v
DiskProps.v
TimerCal.v
Fsutil.v
CmdLine.v
Syscalls.v
