(* ===== verification/Prelude.v ===== *)
(** * Pintos (2019-spring-cs330): a verification development

    This library models the Pintos teaching kernel under pintos/src, file by
    file, as executable definitions, and proves that its parts do what their
    comments and their callers expect.  This file is its prelude.

    ** The program and its parts

    Pintos is a kernel for 32-bit PCs.  [threads/] has the scheduler, the
    synchronisation primitives, the page and block allocators, interrupts and
    start-up; [devices/] the drivers of the timer, the keyboard, the serial
    port, the display and the ATA disks; [filesys/] a file system with one
    directory and files of fixed size; [userprog/] page directories, segments,
    and the loading of user programs; [lib/] the C library, of which
    [lib/kernel/] adds lists, bitmaps, hash tables and the console, and
    [lib/user/] system calls and output for user programs.  The scheduler uses
    the lists, locks the scheduler, the allocators lists, bitmaps and locks;
    the file system uses bitmaps and the disk driver, the loader the file
    system, page directories and the page allocator; the console uses locks,
    the serial port, the display and formatted output; start-up uses them all.

    ** How code is modelled

    - A function is a definition with the name it has in the source, in the
      failing state monad [M] below: a result and a new state, or an error.
      An ASSERT or PANIC that fires is [AssertFail], an access to memory where
      there is no object [BadAccess].  The weakest precondition [wp] is total:
      [wp m Q s] says that [m] returns, without an error, in [Q].
    - A loop is [iterate n] with a bound [n] that is computed from its
      arguments (one more than the number of elements, bytes, pages or digits
      it handles), or a constant where the code has one: 33 for the bits of an
      integer, 66 for the 65 entries of argv, 257 for a permutation of 256
      bytes.  Running into the bound is the error [OutOfFuel]; since [wp] is
      total, every theorem on a loop shows that this does not happen.
    - Integers are [Z] with the wrap-around of their width written out
      ([u8], [u16], [u32], [u64], [i32], [i64]).
    - Pointers are integers.  Memory is a finite map, of list elements for the
      list code ([DList]), of bytes for the string code ([Bytes]), of pages of
      words for page tables ([PageDir]); kernel objects are records.
    - Code of threads that may be preempted or block is a sequence of atomic
      steps ([Kernel], [DevBase]); the machine that runs threads and takes
      interrupts between any two steps with interrupts on is a step relation
      ([Boot], [DevMachine]).
    - What the kernel relies on outside the source is a type class with the
      documented behaviour as its laws, and an instance that shows that the
      laws can hold: I/O ports, UART, keyboard controller and display
      ([PcHardware]), ATA channels ([AtaHardware]), the speed of the processor
      ([TimerCal]), the kernel as seen by a user program ([Syscalls]), and
      where the compiler and linker put things ([Image], [Stubs], [Literals]).

    ** Files, by component

    - lib/kernel/list.c: [DList] (the functions), [DListOps], [DListSpec].
    - lib/kernel/bitmap.c: [Bitmap].  threads/vaddr.h, threads/pte.h: [Vaddr].
    - threads/palloc.c: [Palloc].
    - threads/thread.c, switch.S, synch.c, devices/timer.c, and the part of
      threads/interrupt.c and init.c that they need: [Kernel] (state and
      preemptible code), [Thread], [Synch], [Boot] (the code and the machine);
      [KInv] (the invariant), [KLogic] (a program logic for preemptible code),
      [KSched], [KSynch], [KCreate], [KTimer] (the code keeps the invariant),
      [KMain], [KClient] (every run of every disciplined program), [KProps].
    - lib/string.c: [Bytes], [StrLib], [StrSpec].  lib/arithmetic.c: [Arith].
      lib/stdlib.c, lib/ctype.h: [CStdlib].  lib/random.c: [Random].
    - lib/stdio.c: [Stdio] (the functions), [StdioSpec] (what a format means),
      [StdioProps].
    - filesys/: [FsBase] (state), [Inode] (inode.c, file.c, free-map.c),
      [Directory] (directory.c, filesys.c), [FsData], [FsInv] (the invariant),
      [FsWp], [FsHandle], [FsFile], [FsDir], [FsTop], [FsInit] (the code keeps
      it), [FsSim] (the abstract file system and the simulation), [FsProps];
      [Fsutil] (fsutil.c).  [FileService] is the interface that clients of the
      file system are verified against, [FsService] its implementation.
    - lib/kernel/hash.c: [Hash], [HashSpec], [HashProps].
    - threads/malloc.c: [Malloc], [MallocInv], [MallocProps].
    - userprog/pagedir.c and paging_init() of threads/init.c: [PageDir],
      [PageDirSpec], [PageDirOps], [PageDirProps].
    - userprog/gdt.c, tss.c: [Gdt].  userprog/process.c: [Process],
      [ProcessOps], [ProcessProps].
    - threads/interrupt.c, userprog/exception.c, syscall.c: [Idt].
    - devices/intq.c, input.c, serial.c: [DevBase], [PcHardware], [Serial],
      [SerialOps]; kbd.c: [Kbd]; runs with these devices: [DevMachine];
      vga.c: [Vga], [VgaProps]; lib/kernel/console.c: [Console].
    - devices/disk.c: [AtaHardware], [Disk], [DiskSpec], [DiskInit],
      [DiskProps].  Calibration and delays of devices/timer.c: [TimerCal].
    - The command line in threads/init.c: [CmdLine].
    - lib/user/syscall.c, lib/user/console.c: [Syscalls].

    ** What the theorems show

    - Refinement: the file system implements names, byte sequences and open
      files, across restarts (C1, C8, C18 to C20, C26); the disk driver the disk
      that this relies on (C14, C22); page directories address spaces, with no
      stale translation (C4, C29); the loader the address space of an ELF
      executable (C5, C13, C21); hash tables sets (C6); the block allocator a
      heap (C7); interrupt queues queues (C25); the display a window on paper
      (C15).
    - Safety of concurrency: in every reachable state of every disciplined
      program, for all timings of interrupts, no assertion fails and the
      scheduler and the locks are consistent (C2, C3, C11); sleepers and
      yielding threads are scheduled as promised (C17, C30).  Two races are
      shown by runs that fail (C38, C40).
    - Functional correctness: sorting, searching and division (C9, C34, C35),
      formatted output for all formats (C10, C36), the page allocator (C12),
      interrupts and segments (C31, C32), timer calibration and delays with
      their error (C33, C39).
    - Round trips and liveness: text gets to the serial line and the display
      (C16, C23, C37), keys to the input buffer (C24), files from the scratch
      disk and back (C27), the command line to options and actions (C28).

    A theorem with hypotheses is followed by a witness that applies it to a
    concrete state.

    ** Not modelled

    - Assembly: the boot loader and start.S (16-bit code and BIOS calls), the
      entry stubs of interrupts.  The models start at main(), with what the
      loader leaves in memory as a hypothesis, and at intr_handler().
    - Functions that only print (statistics, dumps, usage()), debug_panic()
      and backtraces, power_off(), and sema_self_test(), which nothing calls.
      Messages of modelled functions are recorded by what they say, or left
      out where the comment of the definition says so.
    - hex_dump() of lib/stdio.c; vprintf() of the kernel's console, which is
      the composition of [Stdio]'s formatting and [Console]'s output.
    - process_execute(), which puts together palloc_get_page(), strlcpy() and
      thread_create(): each is modelled, on states that are modelled apart.
    - ram_init(), which clears memory that the linker script lays out.
    - User programs in examples/, which need system calls that this kernel does
      not have, the tests, and the tools that run on the host. *)

From stdpp Require Import base gmap list sets numbers.
From Stdlib Require Import ZArith Lia.

Open Scope Z_scope.

(** ** Outcomes of kernel code *)

(** Why a piece of kernel code does not return: an [ASSERT] or [PANIC] that
    fires, an access through a pointer at which no object lives, or (in the
    model only) a loop that has not finished within its bound. *)
Inductive err := AssertFail | BadAccess | OutOfFuel.

Inductive outcome (A : Type) := Ok (a : A) | Err (e : err).
Arguments Ok {A} a.
Arguments Err {A} e.

#[global] Instance err_eq_dec : EqDecision err.
Proof. solve_decision. Defined.

(** Code that reads and writes a state [S] and may fail. *)
Definition M (S A : Type) : Type := S -> outcome (A * S).

Definition ret {S A} (a : A) : M S A := fun s => Ok (a, s).

Definition bind {S A B} (m : M S A) (k : A -> M S B) : M S B :=
  fun s => match m s with Ok (a, s') => k a s' | Err e => Err e end.

Definition fail {S A} (e : err) : M S A := fun _ => Err e.

Definition get {S} : M S S := fun s => Ok (s, s).

Definition gets {S A} (f : S -> A) : M S A := fun s => Ok (f s, s).

Definition put {S} (s : S) : M S unit := fun _ => Ok (tt, s).

Definition modify {S} (f : S -> S) : M S unit := fun s => Ok (tt, f s).

(** [ASSERT (b)]. *)
Definition assertb {S} (b : bool) : M S unit :=
  if b then ret tt else fail AssertFail.

(** A value that must exist. *)
Definition of_option {S A} (e : err) (o : option A) : M S A :=
  match o with Some a => ret a | None => fail e end.

Definition when {S} (b : bool) (m : M S unit) : M S unit :=
  if b then m else ret tt.

Declare Scope kcode_scope.
Delimit Scope kcode_scope with kcode.

Notation "x ← m ; k" := (bind m (fun x => k))
  (at level 20, m at level 100, k at level 200) : kcode_scope.
Notation "' x ← m ; k" := (bind m (fun x => k))
  (at level 20, x pattern, m at level 100, k at level 200) : kcode_scope.
Notation "m ;; k" := (bind m (fun _ => k))
  (at level 100, k at level 200) : kcode_scope.

(** [ASSERT (b)] as a statement, and a statement run only under a condition. *)
Notation "'ASSERT' b" := (assertb b) (at level 10, b at next level) : kcode_scope.
Notation "'WHEN' b 'DO' m" := (when b m)
  (at level 10, b at next level, m at next level) : kcode_scope.
Open Scope kcode_scope.

(** [iterate fuel body a] runs [body] from [a]: [inl] continues the loop with
    a new loop state, [inr] leaves it. *)
Fixpoint iterate {S A B} (fuel : nat) (body : A -> M S (A + B)) (a : A) : M S B :=
  match fuel with
  | O => fail OutOfFuel
  | Datatypes.S n =>
      r ← body a;
      match r with inl a' => iterate n body a' | inr b => ret b end
  end.

(** [for (i = ..; n rounds; i++) body], and the same with an early exit. *)
Fixpoint for_from {S} (n : nat) (i : Z) (body : Z -> M S unit) : M S unit :=
  match n with
  | O => ret tt
  | Datatypes.S n => body i;; for_from n (i + 1) body
  end.

Fixpoint find_from {S R} (n : nat) (i : Z) (body : Z -> M S (option R)) : M S (option R) :=
  match n with
  | O => ret None
  | Datatypes.S n => r ← body i;
      match r with Some x => ret (Some x) | None => find_from n (i + 1) body end
  end.

(** Running code of one component on its part of a larger state. *)
Definition zoom {S T A} (getT : S -> T) (setT : T -> S -> S) (m : M T A) : M S A :=
  fun s => match m (getT s) with
           | Ok (a, t) => Ok (a, setT t s)
           | Err e => Err e
           end.

(** ** Total-correctness reasoning *)

(** [wp m Q s]: from [s], [m] returns, and [Q] holds of its result and of the
    state it leaves. *)
Definition wp {S A} (m : M S A) (Q : A -> S -> Prop) (s : S) : Prop :=
  match m s with Ok (a, s') => Q a s' | Err _ => False end.

Lemma wp_bind {S A B} (m : M S A) (k : A -> M S B) Q s :
  wp m (fun a => wp (k a) Q) s -> wp (bind m k) Q s.
Proof. unfold wp, bind. destruct (m s) as [[a s']|e]; auto. Qed.

Lemma wp_bind_iff {S A B} (m : M S A) (k : A -> M S B) Q s :
  wp (bind m k) Q s <-> wp m (fun a => wp (k a) Q) s.
Proof. unfold wp, bind. destruct (m s) as [[a s']|e]; tauto. Qed.

Lemma wp_ret {S A} (a : A) (Q : A -> S -> Prop) s : Q a s -> wp (ret a) Q s.
Proof. auto. Qed.

Lemma wp_mono {S A} (m : M S A) (P Q : A -> S -> Prop) s :
  wp m P s -> (forall a s', P a s' -> Q a s') -> wp m Q s.
Proof. unfold wp. destruct (m s) as [[a s']|e]; auto. Qed.

Lemma wp_assertb {S} (b : bool) (Q : unit -> S -> Prop) s :
  b = true -> Q tt s -> wp (assertb b) Q s.
Proof. intros ->. auto. Qed.

Lemma wp_ok {S A} (m : M S A) (Q : A -> S -> Prop) s :
  wp m Q s <-> exists a s', m s = Ok (a, s') /\ Q a s'.
Proof.
  unfold wp. destruct (m s) as [[a s']|e]; split.
  - intros H. eauto.
  - intros (? & ? & [= <- <-] & H). exact H.
  - intros [].
  - intros (? & ? & H & _). discriminate.
Qed.

Lemma wp_eq {S A} (m : M S A) (Q : A -> S -> Prop) s a s' :
  m s = Ok (a, s') -> Q a s' -> wp m Q s.
Proof. unfold wp. intros ->. auto. Qed.

(** The loop rule: an invariant [I n] on the loop state, where [n] bounds the
    rounds still to run; a round that continues re-establishes it at a smaller
    bound. *)
Lemma wp_iterate {S A B} (I : nat -> A -> S -> Prop) (body : A -> M S (A + B)) Q :
  (forall n a s, I n a s ->
     wp (body a) (fun r s' =>
       match r with
       | inl a' => exists n', (n' < n)%nat /\ I n' a' s'
       | inr b => Q b s'
       end) s) ->
  forall fuel n a s, I n a s -> (n < fuel)%nat -> wp (iterate fuel body a) Q s.
Proof.
  intros Hbody fuel. induction fuel as [|m IH]; intros n a s HI Hn; [lia|].
  cbn [iterate]. apply wp_bind. eapply wp_mono; [exact (Hbody n a s HI)|].
  intros [a'|b] s'; cbn beta iota.
  - intros (n' & Hlt & HI'). apply (IH n'); [exact HI'|lia].
  - intros HQ. exact HQ.
Qed.

Lemma wp_for_from {S} (I : Z -> S -> Prop) (body : Z -> M S unit) n : forall i s,
  I i s ->
  (forall j t, i <= j < i + Z.of_nat n -> I j t -> wp (body j) (fun _ t' => I (j + 1) t') t) ->
  wp (for_from n i body) (fun _ t => I (i + Z.of_nat n) t) s.
Proof.
  induction n as [|n IH]; intros i s HI Hb; cbn [for_from].
  - apply wp_ret. by rewrite Z.add_0_r.
  - apply wp_bind. eapply wp_mono; [apply Hb; [lia|done]|]. intros [] t Ht.
    replace (i + Z.of_nat (Datatypes.S n)) with (i + 1 + Z.of_nat n) by lia.
    apply IH; [done|]. intros j t' Hj. apply Hb. lia.
Qed.

(** Searching a range without changing the state. *)
Lemma find_from_pure {S R} (body : Z -> M S (option R)) (f : Z -> option R) s n : forall i,
  (forall j, i <= j < i + Z.of_nat n -> body j s = Ok (f j, s)) ->
  (exists j r, i <= j < i + Z.of_nat n /\ f j = Some r /\
     (forall k, i <= k < j -> f k = None) /\ find_from n i body s = Ok (Some r, s)) \/
  ((forall k, i <= k < i + Z.of_nat n -> f k = None) /\ find_from n i body s = Ok (None, s)).
Proof.
  induction n as [|n IH]; intros i Hb; cbn [find_from].
  - right. split; [lia|done].
  - unfold bind. rewrite Hb by lia. destruct (f i) as [r|] eqn:E.
    + left. exists i, r. split_and!; [lia..|done|lia|done].
    + destruct (IH (i + 1)) as [(j & r & Hj & Hf & Hk & Hr) | [Hk Hr]].
      * intros j Hj. apply Hb. lia.
      * left. exists j, r. split_and!; try done; try lia. intros k Hk'.
        destruct (decide (k = i)) as [->|]; [done|]. apply Hk. lia.
      * right. split; [|done]. intros k Hk'.
        destruct (decide (k = i)) as [->|]; [done|]. apply Hk. lia.
Qed.

Lemma wp_zoom {S T A} (getT : S -> T) (setT : T -> S -> S) (m : M T A) Q s :
  wp m (fun a t => Q a (setT t s)) (getT s) -> wp (zoom getT setT m) Q s.
Proof. unfold wp, zoom. destruct (m (getT s)) as [[a t]|e]; auto. Qed.

(** ** Hints and tactics *)

Create HintDb kcode discriminated.
#[export] Hint Resolve wp_ret wp_assertb : kcode.

(** One step of symbolic execution of monadic code. *)
Ltac wp_step :=
  lazymatch goal with
  | |- wp (bind _ _) _ _ => apply wp_bind
  | |- wp (ret _) _ _ => apply wp_ret
  | |- wp (assertb _) _ _ => apply wp_assertb
  | |- wp get _ _ => red; cbn
  | |- wp (gets _) _ _ => red; cbn
  | |- wp (put _) _ _ => red; cbn
  | |- wp (modify _) _ _ => red; cbn
  end; cbn beta iota.

(** Decide a closed, decidable proposition by evaluation. *)
Ltac decide_closed := apply (bool_decide_unpack _); vm_compute; exact I.

Lemma list_filter_all {A} (P : A -> Prop) `{!forall x, Decision (P x)} (l : list A) :
  Forall P l -> filter P l = l.
Proof. induction 1; [done|]. rewrite filter_cons_True by done. by f_equal. Qed.

(** ** Machine integers *)

(** Unsigned and two's-complement readings of the low [w] bits. *)
Definition uwrap (w x : Z) : Z := x mod 2 ^ w.
Definition swrap (w x : Z) : Z := (x + 2 ^ (w - 1)) mod 2 ^ w - 2 ^ (w - 1).

Abbreviation u8 := (uwrap 8).
Abbreviation u16 := (uwrap 16).
Abbreviation u32 := (uwrap 32).
Abbreviation u64 := (uwrap 64).
Abbreviation i32 := (swrap 32).
Abbreviation i64 := (swrap 64).

Definition in_u (w x : Z) : Prop := 0 <= x < 2 ^ w.
Definition in_s (w x : Z) : Prop := - 2 ^ (w - 1) <= x < 2 ^ (w - 1).

Lemma uwrap_small w x : in_u w x -> uwrap w x = x.
Proof. intros H. apply Z.mod_small. exact H. Qed.

Lemma uwrap_range w x : 0 <= w -> in_u w (uwrap w x).
Proof. intros H. apply Z.mod_pos_bound. apply Z.pow_pos_nonneg; lia. Qed.

Lemma swrap_small w x : 0 < w -> in_s w x -> swrap w x = x.
Proof.
  unfold swrap, in_s. intros Hw H.
  assert (E : 2 ^ w = 2 * 2 ^ (w - 1)).
  { rewrite <- Z.pow_succ_r by lia. f_equal. lia. }
  rewrite Z.mod_small by lia. lia.
Qed.

Lemma swrap_range w x : 0 < w -> in_s w (swrap w x).
Proof.
  unfold swrap, in_s. intros Hw.
  assert (E : 2 ^ w = 2 * 2 ^ (w - 1)).
  { rewrite <- Z.pow_succ_r by lia. f_equal. lia. }
  pose proof (Z.mod_pos_bound (x + 2 ^ (w - 1)) (2 ^ w)).
  assert (0 < 2 ^ (w - 1)) by (apply Z.pow_pos_nonneg; lia). lia.
Qed.

Lemma land_pow2 v n : 0 <= n -> (Z.land v (2 ^ n) =? 0) = negb (Z.testbit v n).
Proof.
  intros Hn. destruct (Z.testbit v n) eqn:E; cbn.
  - apply Z.eqb_neq. intros Ez. apply (f_equal (fun x => Z.testbit x n)) in Ez.
    by rewrite Z.land_spec, Z.pow2_bits_true, E, Z.bits_0 in Ez by lia.
  - apply Z.eqb_eq, Z.bits_inj'. intros m Hm. rewrite Z.land_spec, Z.bits_0.
    destruct (decide (m = n)) as [->|Hne]; [by rewrite E|].
    by rewrite Z.pow2_bits_false, andb_false_r by lia.
Qed.

Lemma i64_succ a b : i64 (i64 a + b) = i64 (a + b).
Proof.
  unfold swrap. f_equal.
  replace ((a + 2 ^ (64 - 1)) mod 2 ^ 64 - 2 ^ (64 - 1) + b + 2 ^ (64 - 1)) with ((a + 2 ^ (64 - 1)) mod 2 ^ 64 + b) by lia.
  rewrite Z.add_mod_idemp_l by lia. f_equal. lia.
Qed.

#[export] Hint Resolve uwrap_range swrap_range : kcode.
Create Rewrite HintDb wrap.
#[export] Hint Rewrite uwrap_small swrap_small using (assumption || lia) : wrap.

(** [ROUND_UP], [DIV_ROUND_UP] and [ROUND_DOWN] of lib/round.h, at [size_t]:
    the sum wraps at 32 bits. *)
Definition ROUND_UP (x step : Z) : Z := u32 (u32 (x + step - 1) / step * step).
Definition DIV_ROUND_UP (x step : Z) : Z := u32 (x + step - 1) / step.
Definition ROUND_DOWN (x step : Z) : Z := x / step * step.

(** The null pointer. *)
Definition NULL : Z := 0.
