(* ===== verification/DList.v ===== *)
(** * lib/kernel/list.c: doubly linked lists

    The pointer-level model of the kernel's intrusive doubly linked lists and
    the proof that every operation of list.c refines the corresponding
    operation on sequences of element addresses.  Memory is a finite map from
    addresses to [struct list_elem]; a [struct list] at address [l] is its head
    at [l] and its tail at [l + 8].  Loops carry the number of live list
    elements as their bound: the theorems show that it is never reached on a
    well-formed list. *)

From stdpp Require Import base gmap list sets numbers sorting.
From Stdlib Require Import ZArith Lia.
From S2P Require Import Prelude.

Open Scope Z_scope.

(** ** Data *)

Record list_elem := mk_elem { prev : Z; next : Z }.

#[global] Instance list_elem_eq_dec : EqDecision list_elem.
Proof. solve_decision. Defined.

Abbreviation mem := (gmap Z list_elem).

(** The head and the tail of the [struct list] at [l]. *)
Definition head (l : Z) : Z := l.
Definition tail (l : Z) : Z := l + 8.

(** Field accesses [p->prev], [p->next] and their assignments. *)
Definition load (p : Z) : M mem list_elem :=
  if p =? NULL then fail BadAccess
  else h ← get; of_option BadAccess (h !! p).
Definition load_prev (p : Z) : M mem Z := e ← load p; ret (prev e).
Definition load_next (p : Z) : M mem Z := e ← load p; ret (next e).
Definition set_prev (p v : Z) : M mem unit :=
  e ← load p; modify <[p := mk_elem v (next e)]>.
Definition set_next (p v : Z) : M mem unit :=
  e ← load p; modify <[p := mk_elem (prev e) v]>.

(** A loop whose bound is the number of list elements in memory. *)
Definition mloop {A B} (body : A -> M mem (A + B)) (a : A) : M mem B :=
  h ← get; iterate (S (S (size h))) body a.

(** ** Predicates on elements *)

Definition is_head (elem : Z) : M mem bool :=
  if elem =? NULL then ret false
  else e ← load elem; ret ((prev e =? NULL) && negb (next e =? NULL)).

Definition is_interior (elem : Z) : M mem bool :=
  if elem =? NULL then ret false
  else e ← load elem; ret (negb (prev e =? NULL) && negb (next e =? NULL)).

Definition is_tail (elem : Z) : M mem bool :=
  if elem =? NULL then ret false
  else e ← load elem; ret (negb (prev e =? NULL) && (next e =? NULL)).

(** [ASSERT (f (e) || g (e))], with the short circuit of [||]. *)
Definition assert_or (f g : M mem bool) : M mem unit :=
  b ← f; if b then ret tt else c ← g; assertb c.

(** ** Initialisation and traversal *)

Definition list_init (l : Z) : M mem unit :=
  ASSERT (negb (l =? NULL));;
  set_prev (head l) NULL;;
  set_next (head l) (tail l);;
  set_prev (tail l) (head l);;
  set_next (tail l) NULL.

Definition list_begin (l : Z) : M mem Z :=
  ASSERT (negb (l =? NULL));; load_next (head l).

Definition list_next (elem : Z) : M mem Z :=
  assert_or (is_head elem) (is_interior elem);; load_next elem.

Definition list_end (l : Z) : M mem Z :=
  ASSERT (negb (l =? NULL));; ret (tail l).

Definition list_rbegin (l : Z) : M mem Z :=
  ASSERT (negb (l =? NULL));; load_prev (tail l).

Definition list_prev (elem : Z) : M mem Z :=
  assert_or (is_interior elem) (is_tail elem);; load_prev elem.

Definition list_rend (l : Z) : M mem Z :=
  ASSERT (negb (l =? NULL));; ret (head l).

Definition list_head (l : Z) : M mem Z :=
  ASSERT (negb (l =? NULL));; ret (head l).

Definition list_tail (l : Z) : M mem Z :=
  ASSERT (negb (l =? NULL));; ret (tail l).

(** ** Insertion and removal *)

Definition list_insert (before elem : Z) : M mem unit :=
  assert_or (is_interior before) (is_tail before);;
  ASSERT (negb (elem =? NULL));;
  p ← load_prev before;
  set_prev elem p;;
  set_next elem before;;
  p' ← load_prev before;
  set_next p' elem;;
  set_prev before elem.

Definition list_splice (before first last : Z) : M mem unit :=
  assert_or (is_interior before) (is_tail before);;
  if first =? last then ret tt else
  last ← list_prev last;
  b1 ← is_interior first; assertb b1;;
  b2 ← is_interior last; assertb b2;;
  (* Cleanly remove FIRST...LAST from its current list. *)
  fp ← load_prev first; ln ← load_next last;
  set_next fp ln;;
  ln' ← load_next last; fp' ← load_prev first;
  set_prev ln' fp';;
  (* Splice FIRST...LAST into new list. *)
  bp ← load_prev before;
  set_prev first bp;;
  set_next last before;;
  bp' ← load_prev before;
  set_next bp' first;;
  set_prev before last.

Definition list_push_front (l elem : Z) : M mem unit :=
  b ← list_begin l; list_insert b elem.

Definition list_push_back (l elem : Z) : M mem unit :=
  e ← list_end l; list_insert e elem.

Definition list_remove (elem : Z) : M mem Z :=
  b ← is_interior elem; assertb b;;
  p ← load_prev elem; n ← load_next elem;
  set_next p n;;
  n' ← load_next elem; p' ← load_prev elem;
  set_prev n' p';;
  load_next elem.

Definition list_empty (l : Z) : M mem bool :=
  b ← list_begin l; e ← list_end l; ret (b =? e).

Definition list_front (l : Z) : M mem Z :=
  b ← list_empty l; assertb (negb b);; load_next (head l).

Definition list_back (l : Z) : M mem Z :=
  b ← list_empty l; assertb (negb b);; load_prev (tail l).

Definition list_pop_front (l : Z) : M mem Z :=
  front ← list_front l; list_remove front;; ret front.

Definition list_pop_back (l : Z) : M mem Z :=
  back ← list_back l; list_remove back;; ret back.

(** ** Size and reversal *)

Definition list_size (l : Z) : M mem Z :=
  e ← list_begin l;
  mloop (fun '(e, cnt) =>
    end_ ← list_end l;
    if e =? end_ then ret (inr cnt)
    else e' ← list_next e; ret (inl (e', u32 (cnt + 1)))) (e, 0).

(** [swap (&p->prev, &p->next)]. *)
Definition swap_links (p : Z) : M mem unit :=
  t ← load_prev p; n ← load_next p; set_prev p n;; set_next p t.

Definition list_reverse (l : Z) : M mem unit :=
  em ← list_empty l;
  if em then ret tt else
  e ← list_begin l;
  mloop (fun e =>
    end_ ← list_end l;
    if e =? end_ then ret (inr tt)
    else swap_links e;; e' ← load_prev e; ret (inl e')) e;;
  (* swap (&list->head.next, &list->tail.prev) *)
  t ← load_next (head l); p ← load_prev (tail l);
  set_next (head l) p;; set_prev (tail l) t;;
  (* swap (&list->head.next->prev, &list->tail.prev->next) *)
  f ← load_next (head l); b ← load_prev (tail l);
  t' ← load_prev f; n' ← load_next b;
  set_prev f n';; set_next b t'.

(** ** Ordered operations *)

Section ordered.
(** The comparison callback with its auxiliary data: it reads client memory,
    which list operations do not change. *)
Context (less : Z -> Z -> bool).

Definition is_sorted (a b : Z) : M mem bool :=
  if a =? b then ret true
  else mloop (fun a =>
    a' ← list_next a;
    if a' =? b then ret (inr true)
    else p ← list_prev a';
         if less a' p then ret (inr false) else ret (inl a')) a.

Definition find_end_of_run (a b : Z) : M mem Z :=
  ASSERT (negb (a =? NULL));;
  ASSERT (negb (b =? NULL));;
  ASSERT (negb (a =? b));;
  mloop (fun a =>
    a' ← list_next a;
    if a' =? b then ret (inr a')
    else p ← list_prev a';
         if less a' p then ret (inr a') else ret (inl a')) a.

Definition inplace_merge (a0 a1b0 b1 : Z) : M mem unit :=
  ASSERT (negb (a0 =? NULL));;
  ASSERT (negb (a1b0 =? NULL));;
  ASSERT (negb (b1 =? NULL));;
  s1 ← is_sorted a0 a1b0; assertb s1;;
  s2 ← is_sorted a1b0 b1; assertb s2;;
  mloop (fun '(a0, a1b0) =>
    if (a0 =? a1b0) || (a1b0 =? b1) then ret (inr tt)
    else if negb (less a1b0 a0) then
      a0' ← list_next a0; ret (inl (a0', a1b0))
    else
      a1b0' ← list_next a1b0;
      p ← list_prev a1b0';
      list_splice a0 p a1b0';;
      ret (inl (a0, a1b0'))) (a0, a1b0).

(** One pass of the outer loop of [list_sort]: the number of runs output. *)
Definition sort_pass (l : Z) : M mem Z :=
  a0 ← list_begin l;
  mloop (fun '(a0, output_run_cnt) =>
    end_ ← list_end l;
    if a0 =? end_ then ret (inr output_run_cnt)
    else
      let output_run_cnt := u32 (output_run_cnt + 1) in
      a1b0 ← find_end_of_run a0 end_;
      if a1b0 =? end_ then ret (inr output_run_cnt)
      else
        b1 ← find_end_of_run a1b0 end_;
        inplace_merge a0 a1b0 b1;;
        ret (inl (b1, output_run_cnt))) (a0, 0).

Definition list_sort (l : Z) : M mem unit :=
  ASSERT (negb (l =? NULL));;
  mloop (fun _ : unit =>
    output_run_cnt ← sort_pass l;
    if 1 <? output_run_cnt then ret (inl tt) else ret (inr tt)) tt;;
  b ← list_begin l; e ← list_end l;
  s ← is_sorted b e; assertb s.

Definition list_insert_ordered (l elem : Z) : M mem unit :=
  ASSERT (negb (l =? NULL));;
  ASSERT (negb (elem =? NULL));;
  b ← list_begin l;
  e ← mloop (fun e =>
    end_ ← list_end l;
    if e =? end_ then ret (inr e)
    else if less elem e then ret (inr e)
    else e' ← list_next e; ret (inl e')) b;
  list_insert e elem.

Definition list_unique (l duplicates : Z) : M mem unit :=
  ASSERT (negb (l =? NULL));;
  em ← list_empty l;
  if em then ret tt else
  b ← list_begin l;
  mloop (fun elem =>
    nx ← list_next elem;
    end_ ← list_end l;
    if nx =? end_ then ret (inr tt)
    else if negb (less elem nx) && negb (less nx elem) then
      list_remove nx;;
      (if negb (duplicates =? NULL) then list_push_back duplicates nx else ret tt);;
      ret (inl elem)
    else ret (inl nx)) b.

Definition list_max (l : Z) : M mem Z :=
  max ← list_begin l;
  end_ ← list_end l;
  if max =? end_ then ret max else
  e ← list_next max;
  mloop (fun '(e, max) =>
    end_ ← list_end l;
    if e =? end_ then ret (inr max)
    else e' ← list_next e; ret (inl (e', if less max e then e else max))) (e, max).

Definition list_min (l : Z) : M mem Z :=
  min ← list_begin l;
  end_ ← list_end l;
  if min =? end_ then ret min else
  e ← list_next min;
  mloop (fun '(e, min) =>
    end_ ← list_end l;
    if e =? end_ then ret (inr min)
    else e' ← list_next e; ret (inl (e', if less e min then e else min))) (e, min).

End ordered.

(** ** Well-formed lists *)

(** The links read off a memory. *)
Definition nx (h : mem) (a : Z) : option Z := next <$> h !! a.
Definition pv (h : mem) (a : Z) : option Z := prev <$> h !! a.

Definition linked (h : mem) (a b : Z) : Prop := nx h a = Some b /\ pv h b = Some a.

(** Every two consecutive addresses of the sequence point at each other. *)
Fixpoint chain (h : mem) (xs : list Z) : Prop :=
  match xs with
  | a :: ((b :: _) as r) => linked h a b /\ chain h r
  | _ => True
  end.

(** The addresses of the list at [l] with interior elements [xs]. *)
Definition nodes (l : Z) (xs : list Z) : list Z := head l :: xs ++ [tail l].

(** The abstraction relation: memory [h] holds, at [l], a list whose interior
    elements are [xs], in that order. *)
Record dll (h : mem) (l : Z) (xs : list Z) : Prop := {
  dll_chain : chain h (nodes l xs);
  dll_head : pv h (head l) = Some NULL;
  dll_tail : nx h (tail l) = Some NULL;
  dll_nodup : NoDup (nodes l xs);
  dll_null : NULL ∉ nodes l xs }.

#[global] Instance linked_dec h a b : Decision (linked h a b).
Proof. unfold linked. apply _. Defined.

#[global] Instance chain_dec h xs : Decision (chain h xs).
Proof. induction xs as [|a [|b xs] IH]; cbn; apply _. Defined.

Lemma dll_spec h l xs :
  dll h l xs <-> chain h (nodes l xs) /\ pv h (head l) = Some NULL /\
    nx h (tail l) = Some NULL /\ NoDup (nodes l xs) /\ NULL ∉ nodes l xs.
Proof. split; [intros []; tauto|intros (? & ? & ? & ? & ?); by split]. Qed.

#[global] Instance dll_dec h l xs : Decision (dll h l xs).
Proof.
  destruct (decide (chain h (nodes l xs) /\ pv h (head l) = Some NULL /\
    nx h (tail l) = Some NULL /\ NoDup (nodes l xs) /\ NULL ∉ nodes l xs)) as [H|H].
  - left. by apply dll_spec.
  - right. by rewrite dll_spec.
Defined.

(** [h'] differs from [h] at most at the addresses [ns]. *)
Definition frame (ns : list Z) (h h' : mem) : Prop :=
  dom h' = dom h /\ forall a, a ∉ ns -> h' !! a = h !! a.

(** The element after the first part of a list, and the one before its rest. *)
Definition first (l : Z) (xs : list Z) : Z := match xs with [] => tail l | x :: _ => x end.
Definition lst (l : Z) (xs : list Z) : Z := default (head l) (last xs).

(** *** Chains *)

Lemma chain_app h xs a ys :
  chain h (xs ++ a :: ys) <-> chain h (xs ++ [a]) /\ chain h (a :: ys).
Proof.
  induction xs as [|x [|y xs] IH]; cbn in *.
  - destruct ys; tauto.
  - destruct ys; tauto.
  - rewrite IH. destruct ys; tauto.
Qed.

Lemma chain_snoc2 h xs a b : chain h (xs ++ [a; b]) <-> chain h (xs ++ [a]) /\ linked h a b.
Proof. rewrite chain_app. cbn. tauto. Qed.

(** A chain only depends on the [next] links of all but its last element and
    on the [prev] links of all but its first. *)
Lemma chain_frame h h' xs :
  (forall a, a ∈ removelast xs -> nx h' a = nx h a) ->
  (forall a, a ∈ List.tl xs -> pv h' a = pv h a) ->
  chain h xs -> chain h' xs.
Proof.
  induction xs as [|a [|b xs] IH]; intros Hn Hp; cbn; [tauto..|].
  intros [[Hab Hba] Hc]. split; [split|].
  - rewrite Hn; [exact Hab|]. cbn. set_solver.
  - rewrite Hp; [exact Hba|]. cbn. set_solver.
  - apply IH; [| |exact Hc].
    + intros c Hc'. apply Hn. cbn. set_solver.
    + intros c Hc'. apply Hp. cbn in *. set_solver.
Qed.

Lemma chain_agree h h' xs :
  (forall a, a ∈ xs -> h' !! a = h !! a) -> chain h xs -> chain h' xs.
Proof.
  induction xs as [|a [|b xs] IH]; intros Hag; cbn; [tauto..|].
  intros [[Hab Hba] Hc]. split; [split|].
  - unfold nx. rewrite Hag; [exact Hab|set_solver].
  - unfold pv. rewrite Hag; [exact Hba|set_solver].
  - apply IH; [|exact Hc]. intros c Hc'. apply Hag. set_solver.
Qed.

(** *** Field updates *)

Definition upd_next (a v : Z) (h : mem) : mem := alter (fun e => mk_elem (prev e) v) a h.
Definition upd_prev (a v : Z) (h : mem) : mem := alter (fun e => mk_elem v (next e)) a h.

Lemma nx_upd_next a v h x :
  nx (upd_next a v h) x = if decide (x = a) then (fun _ => v) <$> nx h a else nx h x.
Proof.
  unfold nx, upd_next. case_decide as E; [subst|].
  - rewrite lookup_alter_eq. by destruct (h !! a).
  - by rewrite lookup_alter_ne.
Qed.

Lemma pv_upd_next a v h x : pv (upd_next a v h) x = pv h x.
Proof.
  unfold pv, upd_next. destruct (decide (x = a)) as [->|E].
  - rewrite lookup_alter_eq. by destruct (h !! a).
  - by rewrite lookup_alter_ne.
Qed.

Lemma pv_upd_prev a v h x :
  pv (upd_prev a v h) x = if decide (x = a) then (fun _ => v) <$> pv h a else pv h x.
Proof.
  unfold pv, upd_prev. case_decide as E; [subst|].
  - rewrite lookup_alter_eq. by destruct (h !! a).
  - by rewrite lookup_alter_ne.
Qed.

Lemma nx_upd_prev a v h x : nx (upd_prev a v h) x = nx h x.
Proof.
  unfold nx, upd_prev. destruct (decide (x = a)) as [->|E].
  - rewrite lookup_alter_eq. by destruct (h !! a).
  - by rewrite lookup_alter_ne.
Qed.

Lemma dom_upd_next a v h : dom (upd_next a v h) = dom h.
Proof. unfold upd_next. by rewrite dom_alter_L. Qed.
Lemma dom_upd_prev a v h : dom (upd_prev a v h) = dom h.
Proof. unfold upd_prev. by rewrite dom_alter_L. Qed.

Lemma lookup_upd_next_ne a v h x : x <> a -> upd_next a v h !! x = h !! x.
Proof. intros. unfold upd_next. by rewrite lookup_alter_ne. Qed.
Lemma lookup_upd_prev_ne a v h x : x <> a -> upd_prev a v h !! x = h !! x.
Proof. intros. unfold upd_prev. by rewrite lookup_alter_ne. Qed.

Lemma pv_dom h a b : pv h a = Some b -> a ∈ dom h.
Proof. unfold pv. intros H. apply elem_of_dom. destruct (h !! a); naive_solver. Qed.
Lemma nx_dom h a b : nx h a = Some b -> a ∈ dom h.
Proof. unfold nx. intros H. apply elem_of_dom. destruct (h !! a); naive_solver. Qed.

Create Rewrite HintDb links.
#[export] Hint Rewrite nx_upd_next pv_upd_next nx_upd_prev pv_upd_prev
  dom_upd_next dom_upd_prev : links.

Lemma load_ok (h : mem) a e : a <> NULL -> h !! a = Some e -> load a h = Ok (e, h).
Proof.
  intros Ha He. unfold load. rewrite (proj2 (Z.eqb_neq _ _) Ha).
  unfold bind, get, of_option. by rewrite He.
Qed.

Lemma wp_load (h : mem) a e Q : a <> NULL -> h !! a = Some e -> Q e h -> wp (load a) Q h.
Proof. intros Ha He HQ. by eapply wp_eq; [apply load_ok|]. Qed.

Lemma wp_load_next a b Q h : a <> NULL -> nx h a = Some b -> Q b h -> wp (load_next a) Q h.
Proof.
  unfold nx. intros Ha [e [He ->]]%fmap_Some HQ. unfold load_next.
  apply wp_bind, (wp_load _ _ _ _ Ha He), wp_ret, HQ.
Qed.

Lemma wp_load_prev a b Q h : a <> NULL -> pv h a = Some b -> Q b h -> wp (load_prev a) Q h.
Proof.
  unfold pv. intros Ha [e [He ->]]%fmap_Some HQ. unfold load_prev.
  apply wp_bind, (wp_load _ _ _ _ Ha He), wp_ret, HQ.
Qed.

Lemma alter_as_insert (f : list_elem -> list_elem) (h : mem) a e :
  h !! a = Some e -> alter f a h = <[a := f e]> h.
Proof.
  intros He. apply map_eq. intros x. rewrite lookup_alter, lookup_insert.
  case_decide; subst; [by rewrite He|done].
Qed.

Lemma wp_set_next a v Q h : a <> NULL -> a ∈ dom h -> Q tt (upd_next a v h) -> wp (set_next a v) Q h.
Proof.
  intros Ha [e He]%elem_of_dom HQ. unfold set_next.
  apply wp_bind, (wp_load _ _ _ _ Ha He). unfold upd_next in HQ.
  by rewrite (alter_as_insert _ _ _ _ He) in HQ.
Qed.

Lemma wp_set_prev a v Q h : a <> NULL -> a ∈ dom h -> Q tt (upd_prev a v h) -> wp (set_prev a v) Q h.
Proof.
  intros Ha [e He]%elem_of_dom HQ. unfold set_prev.
  apply wp_bind, (wp_load _ _ _ _ Ha He). unfold upd_prev in HQ.
  by rewrite (alter_as_insert _ _ _ _ He) in HQ.
Qed.

(** *** Positions in a list *)

Lemma lst_snoc l xs x : lst l (xs ++ [x]) = x.
Proof. unfold lst. by rewrite last_snoc. Qed.

Lemma pre_split l xs1 : exists P, head l :: xs1 = P ++ [lst l xs1].
Proof.
  destruct xs1 as [|x xs1 _] using rev_ind; [by exists []|].
  exists (head l :: xs1). by rewrite lst_snoc.
Qed.

Lemma post_split l xs2 : exists Q, xs2 ++ [tail l] = first l xs2 :: Q.
Proof. destruct xs2; cbn; eauto. Qed.

Lemma nodes_app l xs1 xs2 : nodes l (xs1 ++ xs2) = (head l :: xs1) ++ xs2 ++ [tail l].
Proof. unfold nodes. by rewrite <- app_assoc. Qed.

Lemma lst_in l xs : lst l xs ∈ head l :: xs.
Proof. destruct (pre_split l xs) as [P ->]. set_solver. Qed.

Lemma first_in l xs : first l xs ∈ xs ++ [tail l].
Proof. destruct (post_split l xs) as [Q ->]. set_solver. Qed.

Lemma elem_of_nodes l xs a : a ∈ nodes l xs <-> a = head l \/ a ∈ xs \/ a = tail l.
Proof. unfold nodes. set_solver. Qed.

Lemma elem_of_pre l xs P y : head l :: xs = P ++ [y] -> forall a, a ∈ P -> a = head l \/ a ∈ xs.
Proof. intros E a Ha. assert (a ∈ head l :: xs) by (rewrite E; set_solver). set_solver. Qed.

Lemma elem_of_post l xs y Q : xs ++ [tail l] = y :: Q -> forall a, a ∈ Q -> a ∈ xs \/ a = tail l.
Proof. intros E a Ha. assert (a ∈ xs ++ [tail l]) by (rewrite E; set_solver). set_solver. Qed.

Lemma nodes_perm_mid l xs1 ms xs2 : nodes l (xs1 ++ ms ++ xs2) ≡ₚ ms ++ nodes l (xs1 ++ xs2).
Proof.
  rewrite !nodes_app, <- app_assoc, (app_assoc _ ms), (app_assoc ms). f_equiv.
  apply Permutation_app_comm.
Qed.

Lemma nodes_mid l xs1 ms xs2 a : a ∈ ms -> a ∈ nodes l (xs1 ++ ms ++ xs2).
Proof. rewrite elem_of_nodes. set_solver. Qed.

Lemma nodes_lst l xs1 xs2 : lst l xs1 ∈ nodes l (xs1 ++ xs2).
Proof. rewrite nodes_app. apply elem_of_app. left. apply lst_in. Qed.

Lemma nodes_first l xs1 xs2 : first l xs2 ∈ nodes l (xs1 ++ xs2).
Proof. rewrite nodes_app. apply elem_of_app. right. apply first_in. Qed.

(** The two elements around any position of a list point at each other. *)
Lemma dll_gap h l xs1 xs2 : dll h l (xs1 ++ xs2) -> linked h (lst l xs1) (first l xs2).
Proof.
  intros [Hc _ _ _ _]. rewrite nodes_app in Hc.
  destruct (pre_split l xs1) as [P EP], (post_split l xs2) as [Q EQ].
  rewrite EP, EQ, <- app_assoc in Hc. cbn in Hc.
  apply chain_app in Hc as [_ Hc]. by destruct Hc.
Qed.

Lemma elem_of_removelast {A} (a : A) xs : a ∈ removelast xs -> a ∈ xs.
Proof.
  destruct xs as [|x xs _] using rev_ind; [done|]. rewrite removelast_last. set_solver.
Qed.

Lemma elem_of_tl {A} (a : A) xs : a ∈ List.tl xs -> a ∈ xs.
Proof. destruct xs; cbn; set_solver. Qed.

Lemma dll_null_lst h l xs1 xs2 : dll h l (xs1 ++ xs2) -> lst l xs1 <> NULL.
Proof.
  intros H E. apply (dll_null _ _ _ H). rewrite nodes_app, <- E.
  apply elem_of_app. left. apply lst_in.
Qed.

Lemma dll_null_first h l xs1 xs2 : dll h l (xs1 ++ xs2) -> first l xs2 <> NULL.
Proof.
  intros H E. apply (dll_null _ _ _ H). rewrite nodes_app, <- E.
  apply elem_of_app. right. apply first_in.
Qed.

Lemma dll_not_null h l xs a : dll h l xs -> a ∈ nodes l xs -> a <> NULL.
Proof. intros H Ha ->. by apply (dll_null _ _ _ H). Qed.

Lemma dll_nx h l xs1 x xs2 : dll h l (xs1 ++ x :: xs2) -> nx h x = Some (first l xs2).
Proof.
  intros H. rewrite cons_middle, app_assoc in H. apply dll_gap in H as [H _].
  by rewrite lst_snoc in H.
Qed.

Lemma dll_pv h l xs1 x xs2 : dll h l (xs1 ++ x :: xs2) -> pv h x = Some (lst l xs1).
Proof. intros H. by apply dll_gap in H as [_ H]. Qed.

(** Every address of a list is a live list element. *)
Lemma dll_dom h l xs a : dll h l xs -> a ∈ nodes l xs -> a ∈ dom h.
Proof.
  intros H [-> | [Ha | ->]]%elem_of_nodes.
  - eapply pv_dom, dll_head, H.
  - apply list_elem_of_split in Ha as (xs1 & xs2 & ->).
    eapply nx_dom, dll_nx, H.
  - eapply nx_dom, dll_tail, H.
Qed.

(** A list only depends on its own elements. *)
Lemma dll_agree h h' l xs :
  dll h l xs -> (forall a, a ∈ nodes l xs -> h' !! a = h !! a) -> dll h' l xs.
Proof.
  intros [Hc Hh Ht Hnd Hnull] Hag. split; try done.
  - by apply (chain_agree h).
  - unfold pv. rewrite Hag; [done|]. apply elem_of_nodes. auto.
  - unfold nx. rewrite Hag; [done|]. apply elem_of_nodes. auto.
Qed.

Lemma frame_refl ns h : frame ns h h.
Proof. by split. Qed.

Lemma frame_trans ns h1 h2 h3 : frame ns h1 h2 -> frame ns h2 h3 -> frame ns h1 h3.
Proof.
  intros [D1 F1] [D2 F2]. split; [congruence|].
  intros a Ha. by rewrite F2, F1.
Qed.

Lemma frame_weaken ns ns' h h' : (forall a, a ∈ ns -> a ∈ ns') -> frame ns h h' -> frame ns' h h'.
Proof. intros Hs [D F]. split; [done|]. intros a Ha. apply F. naive_solver. Qed.

(** A list disjoint from what changed is untouched. *)
Lemma dll_frame ns h h' l xs :
  frame ns h h' -> (forall a, a ∈ nodes l xs -> a ∉ ns) -> dll h l xs -> dll h' l xs.
Proof. intros [_ F] Hd H. eapply dll_agree; [exact H|]. auto. Qed.

Lemma frame_upd_next ns a v h : a ∈ ns -> frame ns h (upd_next a v h).
Proof.
  intros Ha. split; [apply dom_upd_next|].
  intros b Hb. apply lookup_upd_next_ne. intros ->. done.
Qed.

Lemma frame_upd_prev ns a v h : a ∈ ns -> frame ns h (upd_prev a v h).
Proof.
  intros Ha. split; [apply dom_upd_prev|].
  intros b Hb. apply lookup_upd_prev_ne. intros ->. done.
Qed.

Create HintDb dlist discriminated.
#[export] Hint Resolve frame_refl frame_upd_next frame_upd_prev : dlist.

Lemma nodup_parts {A} (P : list A) a k b Q :
  NoDup (P ++ a :: k ++ b :: Q) ->
  (forall x, x ∈ P -> x <> a /\ (x ∉ k) /\ x <> b /\ x ∉ Q) /\
  ((a ∉ k) /\ a <> b /\ a ∉ Q) /\ (b ∉ k) /\ (forall x, x ∈ Q -> (x ∉ k) /\ x <> b).
Proof.
  rewrite NoDup_app, NoDup_cons, NoDup_app, NoDup_cons.
  intros (_ & HP & Ha & _ & Hk & Hb & _). split_and!; [|set_solver..].
  intros x Hx. specialize (HP x Hx). set_solver.
Qed.

(** Replacing the middle part of a list: only links inside the old and new
    middle parts and at their two borders may change. *)
Lemma dll_replace h h' l xs1 ms ms' xs2 :
  dll h l (xs1 ++ ms ++ xs2) ->
  NoDup (nodes l (xs1 ++ ms' ++ xs2)) -> NULL ∉ ms' ->
  (forall a, a <> lst l xs1 -> a ∉ ms -> a ∉ ms' -> nx h' a = nx h a) ->
  (forall a, a <> first l xs2 -> a ∉ ms -> a ∉ ms' -> pv h' a = pv h a) ->
  chain h' (lst l xs1 :: ms' ++ [first l xs2]) ->
  dll h' l (xs1 ++ ms' ++ xs2).
Proof.
  intros [Hc Hh Ht Hnd Hnull] Hnd' Hnull' Hnx Hpv Hmid.
  destruct (pre_split l xs1) as [P EP], (post_split l xs2) as [Q EQ].
  assert (E : forall k, nodes l (xs1 ++ k ++ xs2) = P ++ lst l xs1 :: k ++ first l xs2 :: Q).
  { intros k. rewrite nodes_app, <- app_assoc, EQ, EP, <- app_assoc. done. }
  rewrite E in Hc, Hnd, Hnd', Hnull.
  assert (HlstP : head l ∈ P ++ [lst l xs1]) by (rewrite <- EP; set_solver).
  assert (HtlQ : tail l ∈ first l xs2 :: Q) by (rewrite <- EQ; set_solver).
  apply chain_app in Hc as [HcP Hc]. rewrite app_comm_cons in Hc.
  apply chain_app in Hc as [_ HcQ].
  apply nodup_parts in Hnd as (NP & (Na1 & Na2 & Na3) & Nb & NQ).
  pose proof (nodup_parts _ _ _ _ _ Hnd') as (NP' & (Na1' & _ & _) & Nb' & NQ').
  assert (FP : forall a, a ∈ P -> nx h' a = nx h a /\ pv h' a = pv h a).
  { intros a Ha. specialize (NP a Ha). specialize (NP' a Ha).
    split; [apply Hnx|apply Hpv]; tauto. }
  assert (FQ : forall a, a ∈ Q -> nx h' a = nx h a /\ pv h' a = pv h a).
  { intros a Ha. specialize (NQ a Ha). specialize (NQ' a Ha).
    split; [apply Hnx|apply Hpv]; try tauto. intros ->. done. }
  assert (Fa : pv h' (lst l xs1) = pv h (lst l xs1)) by (by apply Hpv).
  assert (Fb : nx h' (first l xs2) = nx h (first l xs2)) by (by apply Hnx).
  split; rewrite ?E; try done.
  - apply chain_app. rewrite app_comm_cons. rewrite (chain_app _ (_ :: _)).
    split_and!; [|exact Hmid|].
    + eapply chain_frame, HcP.
      * intros a. rewrite removelast_last. apply FP.
      * intros a [Ha | ->%list_elem_of_singleton]%elem_of_tl%elem_of_app; [by apply FP|done].
    + eapply chain_frame, HcQ.
      * intros a [-> | Ha]%elem_of_removelast%elem_of_cons; [done|by apply FQ].
      * intros a Ha. by apply FQ.
  - apply elem_of_app in HlstP as [Ha | Ha%list_elem_of_singleton];
      [destruct (FP _ Ha)|rewrite Ha in Hh |- *]; congruence.
  - apply elem_of_cons in HtlQ as [Ha | Ha];
      [rewrite Ha in Ht |- *|destruct (FQ _ Ha)]; congruence.
  - clear -Hnull Hnull'. set_solver.
Qed.

(** *** Traversal *)

Lemma eqb_ne a b : a <> b -> (a =? b) = false.
Proof. apply Z.eqb_neq. Qed.

Section traversal.
Context (h : mem) (l : Z).

Lemma wp_assert_l (f g : M mem bool) Q :
  wp f (fun b h' => b = true /\ h' = h) h -> Q tt h -> wp (assert_or f g) Q h.
Proof.
  intros Hf HQ. unfold assert_or. apply wp_bind. eapply wp_mono; [exact Hf|].
  by intros b h' [-> ->].
Qed.

Lemma wp_assert_r (f g : M mem bool) Q :
  wp f (fun _ h' => h' = h) h -> wp g (fun b h' => b = true /\ h' = h) h ->
  Q tt h -> wp (assert_or f g) Q h.
Proof.
  intros Hf Hg HQ. unfold assert_or. apply wp_bind. eapply wp_mono; [exact Hf|].
  intros [] h' ->; [done|]. apply wp_bind. eapply wp_mono; [exact Hg|].
  by intros b h' [-> ->].
Qed.

(** Evaluating one of the [is_] predicates on a live element. *)
Lemma wp_class (k : list_elem -> bool) a e Q :
  a <> NULL -> h !! a = Some e -> Q (k e) h ->
  wp (if a =? NULL then ret false else e ← load a; ret (k e)) Q h.
Proof.
  intros Ha He HQ. rewrite eqb_ne by done.
  apply wp_bind, (wp_load _ _ _ _ Ha He), wp_ret, HQ.
Qed.

Lemma elem_links a p n : pv h a = Some p -> nx h a = Some n -> h !! a = Some (mk_elem p n).
Proof. unfold pv, nx. destruct (h !! a) as [[? ?]|]; naive_solver. Qed.

Lemma dll_elem xs1 x xs2 : dll h l (xs1 ++ x :: xs2) ->
  x <> NULL /\ h !! x = Some (mk_elem (lst l xs1) (first l xs2)) /\
  lst l xs1 <> NULL /\ first l xs2 <> NULL.
Proof.
  intros H. split_and!.
  - eapply dll_not_null; [exact H|]. apply elem_of_nodes. set_solver.
  - eapply elem_links; [eapply dll_pv|eapply dll_nx]; eauto.
  - by eapply dll_null_lst.
  - rewrite cons_middle, app_assoc in H. by eapply dll_null_first.
Qed.

Lemma dll_elem_tail xs : dll h l xs ->
  tail l <> NULL /\ h !! tail l = Some (mk_elem (lst l xs) NULL) /\ lst l xs <> NULL.
Proof.
  intros H. rewrite <- (app_nil_r xs) in H. split_and!.
  - by apply (dll_null_first _ _ _ _ H).
  - apply elem_links; [|by eapply dll_tail]. by apply dll_gap in H as [_ H].
  - by eapply dll_null_lst.
Qed.

Lemma dll_elem_head xs : dll h l xs ->
  head l <> NULL /\ h !! head l = Some (mk_elem NULL (first l xs)) /\ first l xs <> NULL.
Proof.
  intros H. split_and!.
  - by apply (dll_null_lst _ _ [] xs H).
  - apply elem_links; [by eapply dll_head|]. by apply (dll_gap _ _ [] xs) in H as [H _].
  - by apply (dll_null_first _ _ [] xs H).
Qed.

Lemma wp_is_interior xs1 x xs2 Q :
  dll h l (xs1 ++ x :: xs2) -> Q true h -> wp (is_interior x) Q h.
Proof.
  intros (? & ? & ? & ?)%dll_elem HQ. eapply wp_class; [done..|].
  cbn. by rewrite !eqb_ne.
Qed.

(** The assertion of [list_insert], [list_splice] and [list_prev]. *)
Lemma wp_assert_pos xs1 xs2 Q :
  dll h l (xs1 ++ xs2) -> Q tt h ->
  wp (assert_or (is_interior (first l xs2)) (is_tail (first l xs2))) Q h.
Proof.
  intros H HQ. destruct xs2 as [|x xs2]; cbn [first].
  - rewrite app_nil_r in H. apply dll_elem_tail in H as (? & ? & ?).
    apply wp_assert_r; [| |done]; eapply wp_class; try done.
    cbn. by rewrite eqb_ne.
  - apply wp_assert_l; [|done]. by eapply wp_is_interior.
Qed.

Lemma wp_list_prev xs1 xs2 Q :
  dll h l (xs1 ++ xs2) -> Q (lst l xs1) h -> wp (list_prev (first l xs2)) Q h.
Proof.
  intros H HQ. unfold list_prev. apply wp_bind, (wp_assert_pos _ _ _ H).
  eapply wp_load_prev; [by eapply dll_null_first|by apply dll_gap in H as [_ H]|done].
Qed.

Lemma wp_list_next xs1 x xs2 Q :
  dll h l (xs1 ++ x :: xs2) -> Q (first l xs2) h -> wp (list_next x) Q h.
Proof.
  intros H HQ. unfold list_next. apply wp_bind.
  destruct (dll_elem _ _ _ H) as (? & E & ? & ?). apply wp_assert_r.
  - by eapply wp_class.
  - by eapply wp_is_interior.
  - eapply wp_load_next; [done| |done]. unfold nx. by rewrite E.
Qed.

Lemma wp_list_next_head xs Q :
  dll h l xs -> Q (first l xs) h -> wp (list_next (head l)) Q h.
Proof.
  intros H HQ. unfold list_next. apply wp_bind.
  destruct (dll_elem_head _ H) as (? & E & ?). apply wp_assert_l.
  - eapply wp_class; [done..|]. cbn. by rewrite eqb_ne.
  - eapply wp_load_next; [done| |done]. unfold nx. by rewrite E.
Qed.

Lemma wp_list_begin xs Q : dll h l xs -> Q (first l xs) h -> wp (list_begin l) Q h.
Proof.
  intros H HQ. destruct (dll_elem_head _ H) as (? & E & ?). unfold list_begin.
  apply wp_bind, wp_assertb; [by rewrite (eqb_ne l)|].
  eapply wp_load_next; [done| |done]. unfold nx. by rewrite E.
Qed.

Lemma wp_list_end xs Q : dll h l xs -> Q (tail l) h -> wp (list_end l) Q h.
Proof.
  intros H HQ. destruct (dll_elem_head _ H) as (? & E & ?). unfold list_end.
  apply wp_bind, wp_assertb; [by rewrite (eqb_ne l)|done].
Qed.

Lemma wp_list_rbegin xs Q : dll h l xs -> Q (lst l xs) h -> wp (list_rbegin l) Q h.
Proof.
  intros H HQ. destruct (dll_elem_head _ H) as (? & _ & _).
  destruct (dll_elem_tail _ H) as (? & E & ?). unfold list_rbegin.
  apply wp_bind, wp_assertb; [by rewrite (eqb_ne l)|].
  eapply wp_load_prev; [done| |done]. unfold pv. by rewrite E.
Qed.

(** Comparing positions. *)
Lemma first_eqb xs B C : dll h l (xs ++ B ++ C) ->
  (first l (B ++ C) =? first l C) = bool_decide (B = []).
Proof.
  intros [_ _ _ Hnd _]. destruct B as [|b B]; cbn [app first].
  { rewrite Z.eqb_refl. done. }
  apply eqb_ne. intros ->. rewrite nodes_app in Hnd.
  apply NoDup_app in Hnd as (_ & _ & Hnd). cbn in Hnd.
  apply NoDup_cons in Hnd as [Hnd _]. apply Hnd. rewrite <- app_assoc.
  apply elem_of_app. right. apply first_in.
Qed.

Lemma first_tail_eqb xs B : dll h l (xs ++ B) ->
  (first l B =? tail l) = bool_decide (B = []).
Proof.
  intros H. pose proof (first_eqb xs B []) as E. rewrite app_nil_r in E. by apply E.
Qed.

Lemma wp_list_empty xs Q :
  dll h l xs -> Q (bool_decide (xs = [])) h -> wp (list_empty l) Q h.
Proof.
  intros H HQ. unfold list_empty. apply wp_bind, (wp_list_begin _ _ H), wp_bind,
    (wp_list_end _ _ H), wp_ret. by rewrite (first_tail_eqb [] xs).
Qed.

(** The bound of a loop exceeds the length of any list in memory. *)
Lemma dll_fuel xs : dll h l xs -> (length xs + 2 <= size h)%nat.
Proof.
  intros H. pose proof (dll_nodup _ _ _ H) as Hnd.
  assert (Hsub : (list_to_set (nodes l xs) : gset Z) ⊆ dom h).
  { intros a Ha%elem_of_list_to_set. by eapply dll_dom. }
  apply subseteq_size in Hsub. rewrite size_list_to_set, size_dom in Hsub by done.
  unfold nodes in Hsub. cbn in Hsub. rewrite length_app in Hsub. cbn in Hsub. lia.
Qed.

End traversal.

(** *** Updates *)

(** Read or write a field of an element known to be live. *)
Ltac load_links :=
  lazymatch goal with
  | |- wp (load_prev _) _ _ => eapply wp_load_prev
  | |- wp (load_next _) _ _ => eapply wp_load_next
  | |- wp (set_prev _ _) _ _ => apply wp_set_prev
  | |- wp (set_next _ _) _ _ => apply wp_set_next
  end.

(** Links of an updated memory: decide which address is read. *)
Ltac links :=
  autorewrite with links;
  repeat (case_decide; try (exfalso; congruence); try congruence).

(** A sequence of field updates stays within its frame. *)
Ltac frames :=
  repeat (eapply frame_trans; [|first [apply frame_upd_next|apply frame_upd_prev]; by auto]);
  apply frame_refl.

Lemma nodup_insert l xs1 xs2 e :
  NoDup (nodes l (xs1 ++ e :: xs2)) <-> (e ∉ nodes l (xs1 ++ xs2)) /\ NoDup (nodes l (xs1 ++ xs2)).
Proof.
  rewrite !nodes_app.
  assert (E : (head l :: xs1) ++ (e :: xs2) ++ [tail l] ≡ₚ e :: (head l :: xs1) ++ xs2 ++ [tail l]).
  { symmetry. apply (Permutation_middle (head l :: xs1)). }
  rewrite E. apply NoDup_cons.
Qed.

Lemma dll_border h l xs1 xs2 : dll h l (xs1 ++ xs2) ->
  lst l xs1 ∈ nodes l (xs1 ++ xs2) /\ first l xs2 ∈ nodes l (xs1 ++ xs2) /\
  lst l xs1 <> first l xs2.
Proof.
  intros H. pose proof (dll_nodup _ _ _ H) as Hnd. rewrite nodes_app in *.
  pose proof (lst_in l xs1). pose proof (first_in l xs2).
  split_and!; [apply elem_of_app; auto..|].
  apply NoDup_app in Hnd as (_ & Hd & _). intros E. eapply Hd; [done|]. by rewrite E.
Qed.

(** Linking a nonempty chain [ms] of detached elements into a list, the way
    list_insert() and list_splice() do, and unlinking one, the way
    list_remove() and list_splice() do. *)
Definition link (p b f z : Z) (h : mem) : mem :=
  upd_prev b z (upd_next p f (upd_next z b (upd_prev f p h))).
Definition unlink (p b : Z) (h : mem) : mem := upd_prev b p (upd_next p b h).

Lemma ends l ms : ms <> [] ->
  exists ms1 ms2, ms = first l ms :: ms1 /\ ms = ms2 ++ [lst l ms].
Proof.
  destruct ms as [|z ms _] using rev_ind; [done|]. intros _. rewrite lst_snoc.
  destruct ms as [|f ms]; [by exists [], []|]. by exists (ms ++ [z]), (f :: ms).
Qed.

Lemma dll_link h l xs1 ms xs2 :
  dll h l (xs1 ++ xs2) -> chain h ms -> ms <> [] ->
  (forall a, a ∈ ms -> a ∈ dom h) -> NULL ∉ ms ->
  NoDup (nodes l (xs1 ++ ms ++ xs2)) ->
  dll (link (lst l xs1) (first l xs2) (first l ms) (lst l ms) h) l (xs1 ++ ms ++ xs2).
Proof.
  intros H Hc Hne Hdom Hnull Hnd.
  destruct (ends l _ Hne) as (ms1 & ms2 & E1 & E2).
  destruct (dll_gap _ _ _ _ H) as [Hn Hv].
  destruct (dll_border _ _ _ _ H) as (Hp & Hb & Hpb).
  set (p := lst l xs1) in *. set (b := first l xs2) in *.
  set (f := first l ms) in *. set (z := lst l ms) in *.
  assert (Hf : f ∈ ms) by (rewrite E1; left).
  assert (Hz : z ∈ ms) by (rewrite E2; set_solver).
  assert (Hms : NoDup ms /\ forall a, a ∈ ms -> a ∉ nodes l (xs1 ++ xs2)).
  { rewrite nodes_perm_mid in Hnd. apply NoDup_app in Hnd. tauto. }
  destruct Hms as [Hmnd Hmout].
  assert (forall a, a ∈ ms -> a <> p /\ a <> b).
  { intros a Ha. split; intros ->; eapply Hmout; eauto. }
  pose proof (Hdom _ Hf) as [[fp fn] Hfe]%elem_of_dom.
  pose proof (Hdom _ Hz) as [[zp zn] Hze]%elem_of_dom.
  apply (dll_replace h _ l xs1 [] ms xs2); [done..| | |].
  - intros a Ha _ Ham. unfold link. assert (a <> z) by congruence. by links.
  - intros a Ha _ Ham. unfold link. assert (a <> f) by congruence. by links.
  - destruct (H0 _ Hf) as [Hfp Hfb], (H0 _ Hz) as [Hzp Hzb].
    assert (Hc' : chain (link p b f z h) ms).
    { eapply chain_frame, Hc.
      - intros a Ha. rewrite E2, removelast_last in Ha.
        assert (a ∈ ms) by (rewrite E2; set_solver).
        assert (a <> z).
        { rewrite E2 in Hmnd. apply NoDup_app in Hmnd as (_ & Hd & _).
          intros ->. eapply Hd; [done|]. set_solver. }
        destruct (H0 a) as [? ?]; [done|]. unfold link. by links.
      - intros a Ha. rewrite E1 in Ha. cbn in Ha.
        assert (a ∈ ms) by (rewrite E1; set_solver).
        assert (a <> f).
        { rewrite E1 in Hmnd. apply NoDup_cons in Hmnd as [Hd _]. by intros ->. }
        destruct (H0 a) as [? ?]; [done|]. unfold link. by links. }
    assert (Hpf : linked (link p b f z h) p f).
    { unfold linked, link. links. rewrite Hn. unfold pv. by rewrite Hfe. }
    assert (Hzb' : linked (link p b f z h) z b).
    { unfold linked, link. links. rewrite Hv. unfold nx. by rewrite Hze. }
    assert (G : chain (link p b f z h) (p :: ms)) by (rewrite E1; split; [|rewrite <- E1]; done).
    fold p b. replace (p :: ms ++ [b]) with ((p :: ms2) ++ [z; b]).
    { apply chain_snoc2. split; [|done]. cbn [app]. by rewrite <- E2. }
    rewrite E2. cbn. by rewrite <- app_assoc.
Qed.

Lemma dll_unlink h l xs1 ms xs2 :
  dll h l (xs1 ++ ms ++ xs2) ->
  dll (unlink (lst l xs1) (first l xs2) h) l (xs1 ++ xs2) /\
  (forall a, a ∈ ms -> unlink (lst l xs1) (first l xs2) h !! a = h !! a).
Proof.
  intros H.
  assert (Hp : lst l xs1 ∈ nodes l (xs1 ++ ms ++ xs2)).
  { rewrite nodes_app. apply elem_of_app. left. apply lst_in. }
  assert (Hb : first l xs2 ∈ nodes l (xs1 ++ ms ++ xs2)).
  { rewrite app_assoc, nodes_app. apply elem_of_app. right. apply first_in. }
  pose proof (dll_dom _ _ _ _ H Hp) as [[pp pn] Hpe]%elem_of_dom.
  pose proof (dll_dom _ _ _ _ H Hb) as [[bp bn] Hbe]%elem_of_dom.
  pose proof (dll_nodup _ _ _ H) as Hnd.
  destruct (pre_split l xs1) as [P EP], (post_split l xs2) as [Q EQ].
  assert (E : forall k, nodes l (xs1 ++ k ++ xs2) = P ++ lst l xs1 :: k ++ first l xs2 :: Q).
  { intros k. rewrite nodes_app, <- app_assoc, EQ, EP, <- app_assoc. done. }
  rewrite E in Hnd. pose proof (nodup_parts _ _ _ _ _ Hnd) as (_ & (Hpm & Hpb & _) & Hbm & _).
  assert (Hout : forall a, a ∈ ms -> a <> lst l xs1 /\ a <> first l xs2).
  { intros a Ha. split; intros ->; done. }
  split.
  - apply (dll_replace h _ l xs1 ms [] xs2); [done| |set_solver| | |].
    + rewrite (E []). cbn. eapply sublist_NoDup; [exact Hnd|].
      apply sublist_app; [done|]. apply sublist_skip. by apply sublist_inserts_l.
    + intros a Ha Ham _. unfold unlink. by links.
    + intros a Ha Ham _. unfold unlink. by links.
    + cbn. unfold linked, unlink. links. unfold nx, pv. by rewrite Hpe, Hbe.
  - intros a Ha. destruct (Hout a Ha). unfold unlink.
    by rewrite lookup_upd_prev_ne, lookup_upd_next_ne.
Qed.

Lemma frame_link ns p b f z h :
  p ∈ ns -> b ∈ ns -> f ∈ ns -> z ∈ ns -> frame ns h (link p b f z h).
Proof. intros. unfold link. frames. Qed.

Lemma frame_unlink ns p b h : p ∈ ns -> b ∈ ns -> frame ns h (unlink p b h).
Proof. intros. unfold unlink. frames. Qed.

Lemma nodes_incl l xs1 ms xs2 a :
  a ∈ nodes l (xs1 ++ xs2) -> a ∈ nodes l (xs1 ++ ms ++ xs2).
Proof. rewrite !elem_of_nodes. set_solver. Qed.

Lemma wp_list_insert h l xs1 xs2 elem Q :
  dll h l (xs1 ++ xs2) -> elem ∈ dom h -> elem <> NULL -> elem ∉ nodes l (xs1 ++ xs2) ->
  (forall h', dll h' l (xs1 ++ elem :: xs2) ->
     frame (nodes l (xs1 ++ elem :: xs2)) h h' -> Q tt h') ->
  wp (list_insert (first l xs2) elem) Q h.
Proof.
  intros H Hdom Hnull Hnew HQ.
  destruct (dll_border _ _ _ _ H) as (Hp & Hb & Hpb).
  destruct (dll_gap _ _ _ _ H) as [Hn Hv].
  assert (elem <> first l xs2) by congruence.
  pose proof (dll_not_null _ _ _ _ H Hp). pose proof (dll_not_null _ _ _ _ H Hb).
  pose proof (dll_dom _ _ _ _ H Hp). pose proof (dll_dom _ _ _ _ H Hb).
  unfold list_insert. apply wp_bind, (wp_assert_pos _ _ _ _ _ H), wp_bind, wp_assertb.
  { by rewrite eqb_ne. }
  apply wp_bind. load_links; [done..|].
  apply wp_bind. load_links; [done..|].
  apply wp_bind. load_links; [done|by autorewrite with links|].
  apply wp_bind. load_links; [done|by links|].
  apply wp_bind. load_links; [done|by autorewrite with links|].
  load_links; [done|by autorewrite with links|].
  apply HQ.
  - apply (dll_link h l xs1 [elem] xs2); [done..|set_solver|set_solver|].
    apply nodup_insert. split; [done|]. by eapply dll_nodup.
  - apply (nodes_incl l xs1 [elem]) in Hp, Hb. apply frame_link; try done;
      apply elem_of_nodes; set_solver.
Qed.

Lemma wp_list_remove h l xs1 x xs2 Q :
  dll h l (xs1 ++ x :: xs2) ->
  (forall h', dll h' l (xs1 ++ xs2) -> frame (nodes l (xs1 ++ xs2)) h h' ->
     h' !! x = h !! x -> Q (first l xs2) h') ->
  wp (list_remove x) Q h.
Proof.
  intros H HQ. destruct (dll_elem _ _ _ _ _ H) as (Hx & E & Hp & Hn).
  destruct (dll_unlink h l xs1 [x] xs2 H) as [H' Hsame].
  destruct (dll_border _ _ _ _ H') as (Hpn & Hnn & Hpne).
  assert (HxN : x ∉ nodes l (xs1 ++ xs2)).
  { pose proof (dll_nodup _ _ _ H) as [? _]%nodup_insert. done. }
  pose proof (dll_dom _ _ _ _ H (nodes_incl l xs1 [x] xs2 _ Hpn)).
  pose proof (dll_dom _ _ _ _ H (nodes_incl l xs1 [x] xs2 _ Hnn)).
  assert (Epv : pv h x = Some (lst l xs1)) by (unfold pv; by rewrite E).
  assert (Enx : nx h x = Some (first l xs2)) by (unfold nx; by rewrite E).
  unfold list_remove. apply wp_bind, (wp_is_interior _ _ _ _ _ _ H), wp_bind, wp_assertb; [done|].
  apply wp_bind. load_links; [done..|].
  apply wp_bind. load_links; [done..|].
  apply wp_bind. load_links; [done..|].
  assert (x <> lst l xs1) by congruence. assert (x <> first l xs2) by congruence.
  apply wp_bind. load_links; [done|by links|].
  apply wp_bind. load_links; [done|by links|].
  apply wp_bind. load_links; [done|by autorewrite with links|].
  load_links; [done|by links|].
  apply HQ; [exact H'|by apply frame_unlink|apply Hsame; set_solver].
Qed.

Lemma wp_list_push_back h l xs e Q :
  dll h l xs -> e ∈ dom h -> e <> NULL -> e ∉ nodes l xs ->
  (forall h', dll h' l (xs ++ [e]) -> frame (nodes l (xs ++ [e])) h h' -> Q tt h') ->
  wp (list_push_back l e) Q h.
Proof.
  intros H Hd Hn Hnew HQ. unfold list_push_back. apply wp_bind, (wp_list_end _ _ _ _ H).
  rewrite <- (app_nil_r xs) in H, Hnew.
  by apply (wp_list_insert _ _ xs [] _ _ H Hd Hn Hnew).
Qed.

Lemma wp_list_push_front h l xs e Q :
  dll h l xs -> e ∈ dom h -> e <> NULL -> e ∉ nodes l xs ->
  (forall h', dll h' l (e :: xs) -> frame (nodes l (e :: xs)) h h' -> Q tt h') ->
  wp (list_push_front l e) Q h.
Proof.
  intros H Hd Hn Hnew HQ. unfold list_push_front. apply wp_bind, (wp_list_begin _ _ _ _ H).
  by apply (wp_list_insert _ _ [] xs _ _ H Hd Hn Hnew).
Qed.

Lemma wp_list_front h l x xs Q : dll h l (x :: xs) -> Q x h -> wp (list_front l) Q h.
Proof.
  intros H HQ. unfold list_front. apply wp_bind, (wp_list_empty _ _ _ _ H), wp_bind, wp_assertb.
  { done. }
  destruct (dll_elem_head _ _ _ H) as (? & E & ?).
  load_links; [done| |exact HQ]. unfold nx. by rewrite E.
Qed.

Lemma wp_list_back h l x xs Q : dll h l (xs ++ [x]) -> Q x h -> wp (list_back l) Q h.
Proof.
  intros H HQ. unfold list_back. apply wp_bind, (wp_list_empty _ _ _ _ H), wp_bind, wp_assertb.
  { destruct xs; done. }
  destruct (dll_elem_tail _ _ _ H) as (? & E & ?). rewrite lst_snoc in E.
  load_links; [done| |exact HQ]. unfold pv. by rewrite E.
Qed.

Lemma wp_list_pop_front h l x xs Q :
  dll h l (x :: xs) ->
  (forall h', dll h' l xs -> frame (nodes l xs) h h' -> h' !! x = h !! x -> Q x h') ->
  wp (list_pop_front l) Q h.
Proof.
  intros H HQ. unfold list_pop_front. apply wp_bind, (wp_list_front _ _ _ _ _ H), wp_bind.
  apply (wp_list_remove _ _ [] x xs _ H). intros h' H' HF HE. apply wp_ret. by apply HQ.
Qed.

Lemma wp_list_pop_back h l x xs Q :
  dll h l (xs ++ [x]) ->
  (forall h', dll h' l xs -> frame (nodes l xs) h h' -> h' !! x = h !! x -> Q x h') ->
  wp (list_pop_back l) Q h.
Proof.
  intros H HQ. unfold list_pop_back. apply wp_bind, (wp_list_back _ _ _ _ _ H), wp_bind.
  apply (wp_list_remove _ _ xs x [] _ H). rewrite app_nil_r.
  intros h' H' HF HE. apply wp_ret. by apply HQ.
Qed.

Lemma wp_list_init h l Q :
  head l ∈ dom h -> tail l ∈ dom h -> head l <> NULL -> tail l <> NULL ->
  (forall h', dll h' l [] -> frame (nodes l []) h h' -> Q tt h') ->
  wp (list_init l) Q h.
Proof.
  intros Hh Ht Hhn Htn HQ. unfold list_init.
  assert (head l <> tail l) by (unfold head, tail; lia).
  apply wp_bind, wp_assertb; [by rewrite (eqb_ne l)|].
  apply wp_bind. load_links; [done..|].
  apply wp_bind. load_links; [done|by autorewrite with links|].
  apply wp_bind. load_links; [done|by autorewrite with links|].
  load_links; [done|by autorewrite with links|].
  apply elem_of_dom in Hh as [[hp hn] Ehd], Ht as [[tp tn] Etl].
  apply HQ.
  - split.
    + cbn. unfold linked. links. unfold nx, pv. by rewrite Ehd, Etl.
    + links. unfold pv. by rewrite Ehd.
    + links. unfold nx. by rewrite Etl.
    + unfold nodes. cbn. apply NoDup_cons. split; [set_solver|]. apply NoDup_singleton.
    + unfold nodes. set_solver.
  - assert (head l ∈ nodes l []) by (apply elem_of_nodes; auto).
    assert (tail l ∈ nodes l []) by (apply elem_of_nodes; auto). frames.
Qed.

(** Loops over a memory that holds a list of a given length. *)
Lemma wp_mloop {A B} (I : nat -> A -> mem -> Prop) (body : A -> M mem (A + B)) Q n a h :
  (forall n a s, I n a s ->
     wp (body a) (fun r s' =>
       match r with
       | inl a' => exists n', (n' < n)%nat /\ I n' a' s'
       | inr b => Q b s'
       end) s) ->
  I n a h -> (n <= size h)%nat -> wp (mloop body a) Q h.
Proof.
  intros Hb HI Hn. unfold mloop. apply wp_bind. red; cbn -[iterate].
  eapply wp_iterate; [exact Hb|exact HI|lia].
Qed.
