(* ===== verification/DListOps.v ===== *)
(** * lib/kernel/list.c: splicing, reversal and the ordered operations

    Total-correctness specifications, over the abstraction relation [dll] of
    DList, of list_splice(), list_size(), list_reverse(),
    list_insert_ordered(), list_unique(), list_max() and list_min(). *)

From stdpp Require Import base gmap list sets numbers sorting.
From Stdlib Require Import ZArith Lia.
From S2P Require Import Prelude DList.

Open Scope Z_scope.

(** ** Splicing *)

Lemma first_app_ne l k ms ys : ms <> [] -> first k (ms ++ ys) = first l ms.
Proof. by destruct ms. Qed.

Lemma lst_app_ne l k ys ms : ms <> [] -> lst k (ys ++ ms) = lst l ms.
Proof.
  destruct ms as [|z ms _] using rev_ind; [done|]. intros _.
  by rewrite app_assoc, !lst_snoc.
Qed.

(** The body of list_splice() once its range is known to be nonempty. *)
Lemma wp_splice_core h l k xs1 xs2 ys1 ms ys2 X1 X2 Q :
  dll h k (ys1 ++ ms ++ ys2) -> ms <> [] ->
  dll h l (X1 ++ X2) -> first l X2 = first l xs2 ->
  dll (unlink (lst k ys1) (first k ys2) h) l (xs1 ++ xs2) ->
  NoDup (nodes l (xs1 ++ ms ++ xs2)) ->
  (dll (link (lst l xs1) (first l xs2) (first l ms) (lst l ms)
          (unlink (lst k ys1) (first k ys2) h)) l (xs1 ++ ms ++ xs2) ->
   Q tt (link (lst l xs1) (first l xs2) (first l ms) (lst l ms)
          (unlink (lst k ys1) (first k ys2) h))) ->
  wp (list_splice (first l xs2) (first k (ms ++ ys2)) (first k ys2)) Q h.
Proof.
  intros Hk Hne Hl Hbef H1 Hnd HQ.
  destruct (dll_unlink _ _ _ _ _ Hk) as [_ Hsame].
  destruct (ends l _ Hne) as (ms1 & ms2 & E1 & E2).
  rewrite (first_app_ne l k _ _ Hne) by done.
  assert (Elast : lst k (ys1 ++ ms) = lst l ms) by (by apply lst_app_ne).
  remember (first l ms) as f eqn:Ef0. remember (lst l ms) as z eqn:Ez0.
  assert (Hf : f ∈ ms) by (rewrite E1; left).
  assert (Hz : z ∈ ms) by (rewrite E2; apply elem_of_app; right; left).
  assert (Hkf : dll h k (ys1 ++ f :: ms1 ++ ys2)) by (by rewrite app_comm_cons, <- E1).
  assert (Hkz : dll h k ((ys1 ++ ms2) ++ z :: ys2)).
  { rewrite cons_middle, <- app_assoc, (app_assoc ms2), <- E2. done. }
  destruct (dll_elem _ _ _ _ _ Hkf) as (Hfn & Ef & Hpn & _).
  destruct (dll_elem _ _ _ _ _ Hkz) as (Hzn & Ez & _ & Hnn).
  assert (Hms : forall a, a ∈ ms -> a <> lst k ys1 /\ a <> first k ys2).
  { intros a Ha. pose proof (dll_nodup _ _ _ Hk) as N.
    rewrite nodes_app, <- app_assoc in N.
    apply NoDup_app in N as (_ & N1 & N2). apply NoDup_app in N2 as (_ & N2 & _).
    pose proof (lst_in k ys1) as L. pose proof (first_in k ys2) as F. split; intros ->.
    - apply (N1 _ L). apply elem_of_app. by left.
    - by apply (N2 _ Ha). }
  destruct (Hms _ Hf) as [Hf1 Hf2], (Hms _ Hz) as [Hz1 Hz2].
  destruct (dll_border _ _ _ _ H1) as (Hpl & Hbl & Hplbl).
  destruct (dll_gap _ _ _ _ H1) as [Hgn Hgp].
  pose proof (dll_not_null _ _ _ _ H1 Hpl). pose proof (dll_not_null _ _ _ _ H1 Hbl).
  pose proof (dll_dom _ _ _ _ H1 Hpl) as Dp. pose proof (dll_dom _ _ _ _ H1 Hbl) as Db.
  assert (Hout : f <> first l xs2).
  { intros ->. rewrite E1 in Hnd. cbn in Hnd. apply nodup_insert in Hnd as [Hnd _].
    by apply Hnd, nodes_incl. }
  assert (Hdom : forall a, a ∈ ms -> a ∈ dom h).
  { intros a Ha. eapply dll_dom; [exact Hk|]. by apply nodes_mid. }
  assert (Dp' : lst k ys1 ∈ dom h).
  { eapply dll_dom; [exact Hk|]. apply nodes_lst. }
  assert (Dn' : first k ys2 ∈ dom h).
  { eapply dll_dom; [exact Hk|]. rewrite app_assoc. apply nodes_first. }
  assert (Epf : pv h f = Some (lst k ys1)) by (unfold pv; by rewrite Ef).
  assert (Enz : nx h z = Some (first k ys2)) by (unfold nx; by rewrite Ez).
  unfold unlink in *. autorewrite with links in Dp, Db.
  unfold list_splice. rewrite <- Hbef.
  apply wp_bind, (wp_assert_pos _ _ _ _ _ Hl). rewrite Hbef.
  rewrite (eqb_ne f) by done.
  rewrite app_assoc in Hk. apply wp_bind, (wp_list_prev _ _ _ _ _ Hk). rewrite Elast.
  apply wp_bind, (wp_is_interior _ _ _ _ _ _ Hkf), wp_bind, wp_assertb; [done|].
  apply wp_bind, (wp_is_interior _ _ _ _ _ _ Hkz), wp_bind, wp_assertb; [done|].
  apply wp_bind. load_links; [done..|].
  apply wp_bind. load_links; [done..|].
  apply wp_bind. load_links; [done..|].
  apply wp_bind. load_links; [done|by links|].
  apply wp_bind. load_links; [done|by links|].
  apply wp_bind. load_links; [done|by autorewrite with links|].
  apply wp_bind. load_links; [done|exact Hgp|].
  apply wp_bind. load_links; [done|autorewrite with links; by auto|].
  apply wp_bind. load_links; [done|autorewrite with links; by auto|].
  apply wp_bind. load_links; [done| |].
  { rewrite pv_upd_next, pv_upd_prev, decide_False by done. exact Hgp. }
  apply wp_bind. load_links; [done|autorewrite with links; by auto|].
  load_links; [done|autorewrite with links; by auto|].
  apply HQ. rewrite Ef0, Ez0. apply dll_link; try done.
  - eapply chain_agree; [exact Hsame|].
    pose proof (dll_chain _ _ _ Hk) as C. rewrite <- app_assoc, nodes_app, <- app_assoc in C.
    rewrite E1 in C |- *. cbn [app] in C. apply (chain_app _ (_ :: _)) in C as [_ C].
    destruct (post_split k ys2) as [R ER]. rewrite ER in C. 
    rewrite app_comm_cons, chain_app in C. destruct C as [C _].
    rewrite <- E1, E2 in C |- *. rewrite <- app_assoc in C. by apply chain_snoc2 in C as [C _].
  - intros a Ha. autorewrite with links. by apply Hdom.
  - intros Hn. apply (dll_null _ _ _ Hk). rewrite <- app_assoc. by apply nodes_mid.
Qed.

Lemma nodup_swap_mid l xs1 A B xs2 :
  NoDup (nodes l (xs1 ++ A ++ B ++ xs2)) -> NoDup (nodes l (xs1 ++ B ++ A ++ xs2)).
Proof.
  rewrite (nodes_perm_mid _ _ A), (nodes_perm_mid _ _ B), (nodes_perm_mid _ _ B).
  by rewrite (nodes_perm_mid _ _ A), !app_assoc, (Permutation_app_comm A).
Qed.

Lemma unlink_link_frame ns p b f z p' b' h :
  p ∈ ns -> b ∈ ns -> f ∈ ns -> z ∈ ns -> p' ∈ ns -> b' ∈ ns ->
  frame ns h (link p b f z (unlink p' b' h)).
Proof.
  intros. eapply frame_trans; [apply (frame_unlink _ p' b')|apply frame_link]; done.
Qed.

(** Splicing a range of the list at [k] into the list at [l]. *)
Lemma wp_list_splice h l k xs1 xs2 ys1 ms ys2 Q :
  dll h l (xs1 ++ xs2) -> dll h k (ys1 ++ ms ++ ys2) ->
  (forall a, a ∈ nodes l (xs1 ++ xs2) -> a ∉ nodes k (ys1 ++ ms ++ ys2)) ->
  (forall h', dll h' l (xs1 ++ ms ++ xs2) -> dll h' k (ys1 ++ ys2) ->
     frame (nodes l (xs1 ++ ms ++ xs2) ++ nodes k (ys1 ++ ys2)) h h' -> Q tt h') ->
  wp (list_splice (first l xs2) (first k (ms ++ ys2)) (first k ys2)) Q h.
Proof.
  intros Hl Hk Hd HQ. destruct (decide (ms = [])) as [->|Hne].
  { cbn [app] in *. unfold list_splice.
    apply wp_bind, (wp_assert_pos _ _ _ _ _ Hl). rewrite Z.eqb_refl. apply wp_ret.
    apply HQ; [done..|]. apply frame_refl. }
  pose proof (dll_unlink _ _ _ _ _ Hk) as [Hk1 Hsame].
  assert (Hp : lst k ys1 ∈ nodes k (ys1 ++ ys2)) by apply nodes_lst.
  assert (Hb : first k ys2 ∈ nodes k (ys1 ++ ys2)) by apply nodes_first.
  assert (Hl1 : dll (unlink (lst k ys1) (first k ys2) h) l (xs1 ++ xs2)).
  { eapply dll_frame; [by apply (frame_unlink (nodes k (ys1 ++ ys2)))| |exact Hl].
    intros a Ha Ha'. apply (Hd _ Ha). by apply nodes_incl. }
  assert (Hnd : NoDup (nodes l (xs1 ++ ms ++ xs2))).
  { rewrite nodes_perm_mid. apply NoDup_app. split_and!.
    - pose proof (dll_nodup _ _ _ Hk) as N. rewrite nodes_app, <- app_assoc in N.
      apply NoDup_app in N as (_ & _ & N). by apply NoDup_app in N as (N & _).
    - intros a Ha Ha'. apply (Hd _ Ha'). by apply nodes_mid.
    - by eapply dll_nodup. }
  eapply (wp_splice_core h l k xs1 xs2 ys1 ms ys2 xs1 xs2); try done.
  intros H'. assert (Hms : forall a, a ∈ ms -> a ∈ nodes l (xs1 ++ ms ++ xs2)).
  { intros a. apply nodes_mid. }
  destruct (ends l _ Hne) as (ms1 & ms2 & E1 & E2).
  assert (Hf : first l ms ∈ ms) by (rewrite E1 at 2; left).
  assert (Hz : lst l ms ∈ ms) by (rewrite E2 at 2; apply elem_of_app; right; left).
  apply HQ; [done| |].
  - eapply dll_frame; [apply (frame_link (nodes l (xs1 ++ ms ++ xs2)))| |exact Hk1]; auto.
    + apply nodes_lst.
    + rewrite app_assoc. apply nodes_first.
    + intros a Ha [-> | [Ha' | ->]]%elem_of_nodes.
      * apply (Hd (head l)); [apply elem_of_nodes; auto|by apply nodes_incl].
      * apply elem_of_app in Ha' as [Ha'|Ha']; [|apply elem_of_app in Ha' as [Ha'|Ha']].
        -- apply (Hd a); [apply elem_of_nodes; set_solver|by apply nodes_incl].
        -- pose proof (dll_nodup _ _ _ Hk) as N.
           rewrite nodes_perm_mid in N. apply NoDup_app in N as (_ & N & _). by apply (N a).
        -- apply (Hd a); [apply elem_of_nodes; set_solver|by apply nodes_incl].
      * apply (Hd (tail l)); [apply elem_of_nodes; auto|by apply nodes_incl].
  - assert (lst l xs1 ∈ nodes l (xs1 ++ ms ++ xs2)) by apply nodes_lst.
    assert (first l xs2 ∈ nodes l (xs1 ++ ms ++ xs2)) by (rewrite app_assoc; apply nodes_first).
    apply unlink_link_frame; apply elem_of_app; auto.
Qed.

(** Moving a range of one list before a nonempty stretch that precedes it. *)
Lemma wp_list_splice_back h l xs1 A ms xs2 Q :
  dll h l (xs1 ++ A ++ ms ++ xs2) -> A <> [] ->
  (forall h', dll h' l (xs1 ++ ms ++ A ++ xs2) ->
     frame (nodes l (xs1 ++ ms ++ A ++ xs2)) h h' -> Q tt h') ->
  wp (list_splice (first l (A ++ xs2)) (first l (ms ++ xs2)) (first l xs2)) Q h.
Proof.
  intros H HA HQ.
  assert (EA : forall r, first l (A ++ r) = first l A) by (intros r; by apply first_app_ne).
  destruct (decide (ms = [])) as [->|Hne].
  { unfold list_splice. apply wp_bind. rewrite EA, <- (EA ([] ++ xs2)).
    apply (wp_assert_pos _ _ _ _ _ H). rewrite Z.eqb_refl. apply wp_ret.
    apply HQ; [done|]. apply frame_refl. }
  pose proof (nodup_swap_mid _ _ _ _ _ (dll_nodup _ _ _ H)) as Hnd.
  pose proof H as H0. rewrite app_assoc in H0.
  pose proof (dll_unlink _ _ _ _ _ H0) as [H1 _]. rewrite <- app_assoc in H1.
  assert (Hms : forall a, a ∈ ms -> a ∈ nodes l (xs1 ++ ms ++ A ++ xs2)).
  { intros a. apply nodes_mid. }
  destruct (ends l _ Hne) as (ms1 & ms2 & E1 & E2).
  assert (Hf : first l ms ∈ ms) by (rewrite E1 at 2; left).
  assert (Hz : lst l ms ∈ ms) by (rewrite E2 at 2; apply elem_of_app; right; left).
  eapply (wp_splice_core h l l xs1 (A ++ xs2) (xs1 ++ A) ms xs2 xs1 (A ++ ms ++ xs2)); try done.
  { by rewrite !EA. }
  intros H'. apply HQ; [done|]. apply unlink_link_frame; auto.
  - apply nodes_lst.
  - rewrite app_assoc. apply nodes_first.
  - apply (nodes_incl l xs1 ms). rewrite app_assoc. apply nodes_lst.
  - rewrite 2!app_assoc. apply nodes_first.
Qed.

(** ** Traversals *)

Lemma wp_list_size h l xs Q :
  dll h l xs -> Q (u32 (Z.of_nat (length xs))) h -> wp (list_size l) Q h.
Proof.
  intros H HQ. unfold list_size. apply wp_bind, (wp_list_begin _ _ _ _ H).
  eapply (wp_mloop (fun n '(e, cnt) h' => h' = h /\ exists xs1 xs2,
    xs = xs1 ++ xs2 /\ n = length xs2 /\ e = first l xs2 /\ cnt = u32 (Z.of_nat (length xs1))))
    with (n := length xs).
  - intros n [e cnt] h' (-> & xs1 & xs2 & -> & -> & -> & ->).
    apply wp_bind, (wp_list_end _ _ _ _ H). rewrite (first_tail_eqb _ _ _ _ H).
    destruct xs2 as [|x xs2]; cbn.
    + rewrite app_nil_r in HQ. by apply wp_ret.
    + apply wp_bind, (wp_list_next _ _ _ _ _ _ H), wp_ret.
      exists (length xs2). split; [lia|]. split; [done|].
      exists (xs1 ++ [x]), xs2. rewrite <- app_assoc, length_app. split_and!; try done.
      unfold uwrap. rewrite Z.add_mod_idemp_l by done. f_equal. cbn. lia.
  - split; [done|]. by exists [], xs.
  - pose proof (dll_fuel _ _ _ H). lia.
Qed.

Section ordered.
Context (less : Z -> Z -> bool).

(** The sequence operations that the ordered list functions implement. *)
Fixpoint insert_ordered (e : Z) (xs : list Z) : list Z :=
  match xs with
  | [] => [e]
  | x :: r => if less e x then e :: xs else x :: insert_ordered e r
  end.

(** [unique_from x r]: what remains of [x :: r] after [x], and the elements
    dropped, in order. *)
Fixpoint unique_from (x : Z) (r : list Z) : list Z * list Z :=
  match r with
  | [] => ([], [])
  | y :: r =>
      if negb (less x y) && negb (less y x)
      then let '(k, d) := unique_from x r in (k, y :: d)
      else let '(k, d) := unique_from y r in (y :: k, d)
  end.

Definition max_of (x : Z) (xs : list Z) : Z :=
  foldl (fun m e => if less m e then e else m) x xs.
Definition min_of (x : Z) (xs : list Z) : Z :=
  foldl (fun m e => if less e m then e else m) x xs.

Lemma wp_list_insert_ordered h l xs e Q :
  dll h l xs -> e ∈ dom h -> e <> NULL -> e ∉ nodes l xs ->
  (forall h', dll h' l (insert_ordered e xs) ->
     frame (nodes l (insert_ordered e xs)) h h' -> Q tt h') ->
  wp (list_insert_ordered less l e) Q h.
Proof.
  intros H Hd Hn Hnew HQ. unfold list_insert_ordered.
  destruct (dll_elem_head _ _ _ H) as (Hl & _ & _).
  apply wp_bind, wp_assertb; [by rewrite (eqb_ne l)|].
  apply wp_bind, wp_assertb; [by rewrite eqb_ne|].
  apply wp_bind, (wp_list_begin _ _ _ _ H), wp_bind.
  eapply (wp_mloop (fun n p h' => h' = h /\ exists xs1 xs2,
    xs = xs1 ++ xs2 /\ n = length xs2 /\ p = first l xs2 /\
    insert_ordered e xs = xs1 ++ insert_ordered e xs2)) with (n := length xs).
  - intros n p h' (-> & xs1 & xs2 & Exs & -> & -> & E). rewrite Exs in *.
    apply wp_bind, (wp_list_end _ _ _ _ H). rewrite (first_tail_eqb _ _ _ _ H).
    destruct xs2 as [|x xs2]; cbn.
    + apply wp_ret. apply (wp_list_insert h l xs1 []); [done..|].
      by rewrite E in HQ.
    + cbn in E. destruct (less e x).
      * apply wp_ret. apply (wp_list_insert h l xs1 (x :: xs2)); [done..|].
        by rewrite E in HQ.
      * apply wp_bind, (wp_list_next _ _ _ _ _ _ H), wp_ret.
        exists (length xs2). split; [lia|]. split; [done|].
        exists (xs1 ++ [x]), xs2. by rewrite <- !app_assoc.
  - split; [done|]. by exists [], xs.
  - pose proof (dll_fuel _ _ _ H). lia.
Qed.

(** Both list_max() and list_min() fold a choice over the elements. *)
Lemma wp_select_loop (pick : Z -> Z -> Z) h l x xs Q :
  dll h l (x :: xs) -> Q (foldl pick x xs) h ->
  wp (mloop (fun '(e, m) =>
        end_ ← list_end l;
        if e =? end_ then ret (inr m)
        else e' ← list_next e; ret (inl (e', pick m e))) (first l xs, x)) Q h.
Proof.
  intros H HQ.
  eapply (wp_mloop (fun n '(e, m) h' => h' = h /\ exists xs1 xs2,
    xs = xs1 ++ xs2 /\ n = length xs2 /\ e = first l xs2 /\ m = foldl pick x xs1))
    with (n := length xs).
  - intros n [e m] h' (-> & xs1 & xs2 & Exs & -> & -> & ->). rewrite Exs in *.
    rewrite app_comm_cons in H.
    apply wp_bind, (wp_list_end _ _ _ _ H). rewrite (first_tail_eqb _ _ _ _ H).
    destruct xs2 as [|y xs2]; cbn.
    + rewrite app_nil_r in HQ. by apply wp_ret.
    + apply wp_bind, (wp_list_next _ _ _ _ _ _ H), wp_ret.
      exists (length xs2). split; [lia|]. split; [done|].
      exists (xs1 ++ [y]), xs2. by rewrite <- app_assoc, foldl_snoc.
  - split; [done|]. by exists [], xs.
  - pose proof (dll_fuel _ _ _ H) as Hf. cbn in Hf. lia.
Qed.

Lemma wp_list_max h l xs Q :
  dll h l xs -> Q (match xs with [] => tail l | x :: r => max_of x r end) h ->
  wp (list_max less l) Q h.
Proof.
  intros H HQ. unfold list_max. apply wp_bind, (wp_list_begin _ _ _ _ H), wp_bind,
    (wp_list_end _ _ _ _ H). rewrite (first_tail_eqb _ _ [] _ H).
  destruct xs as [|x xs]; cbn.
  - by apply wp_ret.
  - apply wp_bind, (wp_list_next _ _ [] _ _ _ H).
    by apply (wp_select_loop (fun m e => if less m e then e else m)).
Qed.

Lemma wp_list_min h l xs Q :
  dll h l xs -> Q (match xs with [] => tail l | x :: r => min_of x r end) h ->
  wp (list_min less l) Q h.
Proof.
  intros H HQ. unfold list_min. apply wp_bind, (wp_list_begin _ _ _ _ H), wp_bind,
    (wp_list_end _ _ _ _ H). rewrite (first_tail_eqb _ _ [] _ H).
  destruct xs as [|x xs]; cbn.
  - by apply wp_ret.
  - apply wp_bind, (wp_list_next _ _ [] _ _ _ H).
    by apply (wp_select_loop (fun m e => if less e m then e else m)).
Qed.

(** Appending a dropped element to the list of duplicates, if there is one. *)
Lemma wp_push_dup h l k xs1 x xs2 y ys ds Q :
  dll h l (xs1 ++ x :: xs2) -> y ∈ dom h -> y <> NULL -> y ∉ nodes l (xs1 ++ x :: xs2) ->
  (k <> NULL -> dll h k (ys ++ ds) /\ (y ∉ nodes k (ys ++ ds)) /\
     forall a, a ∈ nodes l (xs1 ++ x :: xs2) -> a ∉ nodes k (ys ++ ds)) ->
  (forall h', dll h' l (xs1 ++ x :: xs2) ->
     (k <> NULL -> dll h' k (ys ++ ds ++ [y]) /\
        forall a, a ∈ nodes l (xs1 ++ x :: xs2) -> a ∉ nodes k (ys ++ ds ++ [y])) ->
     frame (y :: nodes k (ys ++ ds)) h h' -> Q tt h') ->
  wp (if negb (k =? NULL) then list_push_back k y else ret tt) Q h.
Proof.
  intros H Hd Hn Hy Hk HQ. destruct (Z.eqb_spec k NULL) as [->|Hkn]; cbn [negb].
  { apply wp_ret, HQ; [done| |apply frame_refl]. by intros []. }
  destruct (Hk Hkn) as (Hdk & Hyk & Hdis).
  apply (wp_list_push_back _ _ _ _ _ Hdk); [done..|]. rewrite <- app_assoc. intros h' Hk' Hf.
  assert (Hin : forall a, a ∈ nodes k (ys ++ ds ++ [y]) -> a ∈ y :: nodes k (ys ++ ds)).
  { intros a. rewrite elem_of_cons, !elem_of_nodes. clear. set_solver. }
  assert (Hdis' : forall a, a ∈ nodes l (xs1 ++ x :: xs2) -> a ∉ nodes k (ys ++ ds ++ [y])).
  { intros a Ha [-> | Ha']%Hin%elem_of_cons; [done|]. by apply (Hdis a). }
  apply HQ.
  - eapply dll_frame; [exact Hf| |exact H]. intros a Ha Ha'. by apply (Hdis' a).
  - done.
  - eapply frame_weaken; [exact Hin|exact Hf].
Qed.

Lemma wp_list_unique h l k x xs ys Q :
  dll h l (x :: xs) ->
  (k <> NULL -> dll h k ys /\ forall a, a ∈ nodes l (x :: xs) -> a ∉ nodes k ys) ->
  (forall h', dll h' l (x :: (unique_from x xs).1) ->
     (k <> NULL -> dll h' k (ys ++ (unique_from x xs).2)) ->
     frame (nodes l (x :: xs) ++ nodes k ys) h h' -> Q tt h') ->
  wp (list_unique less l k) Q h.
Proof.
  intros H Hk HQ. unfold list_unique.
  destruct (dll_elem_head _ _ _ H) as (Hl & _ & _).
  apply wp_bind, wp_assertb; [by rewrite (eqb_ne l)|].
  apply wp_bind, (wp_list_empty _ _ _ _ H). cbn.
  apply wp_bind, (wp_list_begin _ _ _ _ H).
  remember (nodes l (x :: xs) ++ nodes k ys) as N eqn:EN.
  eapply (wp_mloop (fun n e h' => exists xs1 xs2 ds,
    n = length xs2 /\ dll h' l (xs1 ++ e :: xs2) /\
    (k <> NULL -> dll h' k (ys ++ ds) /\
       forall a, a ∈ nodes l (xs1 ++ e :: xs2) -> a ∉ nodes k (ys ++ ds)) /\
    x :: (unique_from x xs).1 = xs1 ++ e :: (unique_from e xs2).1 /\
    (unique_from x xs).2 = ds ++ (unique_from e xs2).2 /\
    (forall a, a ∈ nodes l (xs1 ++ e :: xs2) \/ a ∈ nodes k (ys ++ ds) ->
       a ∈ N) /\
    frame N h h')) with (n := length xs).
  - intros n e h' (xs1 & xs2 & ds & -> & H' & Hk' & E1 & E2 & Hin & Hf).
    apply wp_bind, (wp_list_next _ _ _ _ _ _ H'), wp_bind, (wp_list_end _ _ _ _ H').
    pose proof H' as H2. rewrite cons_middle, app_assoc in H2.
    rewrite (first_tail_eqb _ _ _ _ H2).
    destruct xs2 as [|y xs2]; cbn in *.
    { apply wp_ret, HQ; [by rewrite E1|rewrite E2, app_nil_r; by apply Hk'|done]. }
    destruct (dll_elem _ _ _ _ _ H2) as (Hyn & Ey & _ & _).
    destruct (negb (less e y) && negb (less y e)) eqn:Eq.
    + destruct (unique_from e xs2) as [kp dp] eqn:Eu. cbn in *.
      apply wp_bind, (wp_list_remove _ _ _ _ _ _ H2). rewrite <- app_assoc. cbn.
      intros h2 H3 Hf2 Hy2.
      assert (Hyl : y ∉ nodes l (xs1 ++ e :: xs2)).
      { pose proof (dll_nodup _ _ _ H2) as [Nd _]%nodup_insert. by rewrite <- app_assoc in Nd. }
      assert (Hyin : y ∈ nodes l (xs1 ++ e :: y :: xs2)).
      { rewrite (cons_middle e), app_assoc. apply (nodes_mid _ _ [y]). left. }
      assert (Hsub : forall a, a ∈ nodes l (xs1 ++ e :: xs2) -> a ∈ nodes l (xs1 ++ e :: y :: xs2)).
      { intros a. rewrite (cons_middle e _ (y :: _)), app_assoc, (cons_middle e), (app_assoc xs1).
        apply (nodes_incl _ _ [y]). }
      apply wp_bind. eapply (wp_push_dup h2 l k xs1 e xs2 y ys ds); try done.
      { apply elem_of_dom. rewrite Hy2, Ey. done. }
      { intros Hkn. destruct (Hk' Hkn) as [Hd1 Hd2]. split_and!.
        - eapply dll_frame; [exact Hf2| |exact Hd1]. intros a Ha Ha'. apply (Hd2 a); [|done].
          by apply Hsub.
        - by apply Hd2.
        - intros a Ha. apply Hd2. by apply Hsub. }
      intros h3 H4 Hk4 Hf4. apply wp_ret. exists (length xs2). split; [lia|].
      exists xs1, xs2, (ds ++ [y]). rewrite <- !app_assoc, Eu. cbn. split_and!; try done.
      * intros a [Ha | Ha]; [apply Hin; left; by apply Hsub|].
        assert (a = y \/ a ∈ nodes k (ys ++ ds)) as [-> | ?]
          by (revert Ha; rewrite !elem_of_nodes; clear; set_solver); apply Hin; auto.
      * eapply frame_trans; [exact Hf|]. eapply frame_trans.
        -- eapply frame_weaken; [|exact Hf2]. intros a Ha.
           apply Hin. left. by apply Hsub.
        -- eapply frame_weaken; [|exact Hf4]. intros a [-> | Ha]%elem_of_cons; apply Hin; auto.
    + destruct (unique_from y xs2) as [kp dp] eqn:Eu. cbn in *.
      exists (length xs2). split; [lia|].
      exists (xs1 ++ [e]), xs2, ds. rewrite <- !app_assoc, Eu. cbn. done.
  - exists [], xs, []. cbn. rewrite app_nil_r. split_and!; try done.
    intros a Ha. rewrite EN. by apply elem_of_app.
  - pose proof (dll_fuel _ _ _ H) as Hfu. cbn in Hfu. lia.
Qed.

End ordered.

(** ** Reversal *)

(** The state of the loop of list_reverse(): the links of [xs1] are swapped. *)
Definition swapped (h h' : mem) (xs1 : list Z) : Prop :=
  dom h' = dom h /\
  (forall a, a ∈ xs1 -> nx h' a = pv h a /\ pv h' a = nx h a) /\
  (forall a, a ∉ xs1 -> h' !! a = h !! a).

Lemma wp_swap_links h p a b Q :
  p <> NULL -> pv h p = Some a -> nx h p = Some b ->
  Q tt (upd_next p a (upd_prev p b h)) -> wp (swap_links p) Q h.
Proof.
  intros Hp Ha Hb HQ. pose proof (pv_dom _ _ _ Ha). unfold swap_links.
  apply wp_bind. load_links; [done..|]. apply wp_bind. load_links; [done..|].
  apply wp_bind. load_links; [done..|]. load_links; [done|by autorewrite with links|done].
Qed.

Lemma swapped_step h h' xs1 p a b :
  swapped h h' xs1 -> p ∉ xs1 -> pv h p = Some a -> nx h p = Some b ->
  swapped h (upd_next p a (upd_prev p b h')) (xs1 ++ [p]).
Proof.
  intros (Hd & Hin & Hout) Hp Ha Hb. split_and!.
  - by autorewrite with links.
  - intros c [Hc | ->%list_elem_of_singleton]%elem_of_app.
    + destruct (Hin c Hc). assert (c <> p) by congruence. split; by links.
    + assert (nx h' p = nx h p) by (unfold nx; by rewrite Hout).
      assert (pv h' p = pv h p) by (unfold pv; by rewrite Hout).
      split; links; rewrite H, Hb || rewrite H0, Ha; by rewrite ?Ha, ?Hb.
  - intros c [Hc Hcp]%not_elem_of_app. assert (c <> p) by set_solver.
    rewrite lookup_upd_next_ne, lookup_upd_prev_ne by done. by apply Hout.
Qed.

(** Swapping all links of a chain reverses it. *)
Lemma chain_rev h h' xs :
  chain h xs ->
  (forall a, a ∈ List.tl xs -> nx h' a = pv h a) ->
  (forall a, a ∈ removelast xs -> pv h' a = nx h a) ->
  chain h' (rev xs).
Proof.
  induction xs as [|a [|b xs] IH]; intros Hc Hn Hp; [done..|].
  destruct Hc as [[Hab Hba] Hc]. cbn [rev]. rewrite <- app_assoc. cbn [app].
  apply chain_snoc2. split.
  - apply IH; [done| |].
    + intros c Hcc. apply Hn. cbn in *. by right.
    + intros c Hcc. apply Hp. cbn. by right.
  - split; [rewrite Hn|rewrite Hp]; try done; cbn; left.
Qed.

Lemma swapped_nil h : swapped h h [].
Proof. split_and!; try done. intros a Ha. by apply elem_of_nil in Ha. Qed.

(** The memory after the last two swaps of list_reverse(). *)
Definition close_ends (l f z : Z) (h : mem) : mem :=
  upd_next f (tail l) (upd_prev z (head l) (upd_prev (tail l) f (upd_next (head l) z h))).

Lemma ends_facts h l xs :
  dll h l xs -> xs <> [] ->
  (exists r, xs = first l xs :: r /\ first l xs ∉ r) /\
  (exists r, xs = r ++ [lst l xs] /\ lst l xs ∉ r) /\
  (first l xs ∈ xs) /\ (lst l xs ∈ xs) /\ (head l ∉ xs) /\ (tail l ∉ xs) /\ head l <> tail l.
Proof.
  intros H Hne. destruct (ends l _ Hne) as (r1 & r2 & E1 & E2).
  remember (first l xs) as f eqn:Ef. remember (lst l xs) as z eqn:Ez.
  pose proof (dll_nodup _ _ _ H) as N. unfold nodes in N.
  apply NoDup_cons in N as [N1 N2]. apply NoDup_app in N2 as (N2 & N3 & _).
  split_and!.
  - exists r1. split; [done|]. rewrite E1 in N2. by apply NoDup_cons in N2 as [? _].
  - exists r2. split; [done|]. rewrite E2 in N2. apply NoDup_app in N2 as (_ & N2 & _).
    intros Hz. apply (N2 _ Hz). left.
  - rewrite E1. left.
  - rewrite E2. apply elem_of_app. right. left.
  - intros Hh. apply N1, elem_of_app. by left.
  - intros Ht. apply (N3 _ Ht). left.
  - intros Hh. apply N1, elem_of_app. right. rewrite Hh. left.
Qed.

Lemma dll_close_ends h h' l xs :
  dll h l xs -> xs <> [] -> swapped h h' xs ->
  dll (close_ends l (first l xs) (lst l xs) h') l (rev xs).
Proof.
  intros H Hne (Hd & Hin & Hout).
  destruct (ends_facts _ _ _ H Hne) as ((r1 & E1 & Hf1) & (r2 & E2 & Hz2) & Hf & Hz & Hh & Ht & Hht).
  pose proof (dll_gap _ _ [] _ H) as [G1 G2]. cbn in G1, G2.
  assert (G34 : linked h (lst l xs) (tail l)).
  { rewrite <- (app_nil_r xs) in H. by apply (dll_gap _ _ _ []) in H. }
  destruct G34 as [G3 G4].
  remember (first l xs) as f eqn:Ef. remember (lst l xs) as z eqn:Ez.
  assert (Hnx : forall a, a ∉ xs -> nx h' a = nx h a) by (intros a Ha; unfold nx; by rewrite Hout).
  assert (Hpv : forall a, a ∉ xs -> pv h' a = pv h a) by (intros a Ha; unfold pv; by rewrite Hout).
  assert (forall a, a ∈ xs -> a <> head l /\ a <> tail l) as Hne'.
  { intros a Ha. split; congruence. }
  destruct (Hne' _ Hf), (Hne' _ Hz).
  replace (rev xs) with ([] ++ rev xs ++ []) by apply app_nil_r.
  apply (dll_replace h _ l [] xs (rev xs) []); [by rewrite app_nil_r| | | | |].
  - cbn. rewrite app_nil_r. pose proof (dll_nodup _ _ _ H) as N. unfold nodes in *.
    by rewrite (Permutation_rev xs) in N at 1.
  - intros Hn. apply (dll_null _ _ _ H), elem_of_nodes. right. left.
    by rewrite (Permutation_rev xs).
  - intros a Ha Hax _. cbn in Ha. assert (a <> f) by congruence. unfold close_ends.
    links. by apply Hnx.
  - intros a Ha Hax _. cbn in Ha. assert (a <> z) by congruence. unfold close_ends.
    links. by apply Hpv.
  - cbn [app lst first last default].
    assert (C : chain (close_ends l f z h') (rev xs)).
    { apply (chain_rev h).
      - pose proof (dll_chain _ _ _ H) as C. unfold nodes in C.
        rewrite E2, <- app_assoc in C. apply (chain_app _ (_ :: _)) in C as [C _].
        rewrite E2. destruct r2; cbn in C |- *; tauto.
      - intros a Ha. rewrite E1 in Ha. cbn in Ha.
        assert (a <> f) by congruence. assert (Hax : a ∈ xs) by (rewrite E1; by right).
        destruct (Hne' _ Hax). unfold close_ends. links. by apply Hin.
      - intros a Ha. rewrite E2, removelast_last in Ha.
        assert (a <> z) by congruence. assert (Hax : a ∈ xs) by (rewrite E2; apply elem_of_app; by left).
        destruct (Hne' _ Hax). unfold close_ends. links. by apply Hin. }
    assert (L1 : linked (close_ends l f z h') (head l) z).
    { unfold linked, close_ends. links; rewrite ?Hnx, ?G1 by done;
        destruct (Hin _ Hz) as [? ->]; by rewrite G3. }
    assert (L2 : linked (close_ends l f z h') f (tail l)).
    { unfold linked, close_ends. links; rewrite ?Hpv, ?G4 by done;
        destruct (Hin _ Hf) as [-> ?]; by rewrite G2. }
    assert (R1 : rev xs = rev r1 ++ [f]) by (rewrite E1; done).
    assert (R2 : rev xs = z :: rev r2) by (rewrite E2, rev_app_distr; done).
    replace (head l :: rev xs ++ [tail l]) with ((head l :: rev r1) ++ [f; tail l]).
    2:{ rewrite R1. cbn. by rewrite <- app_assoc. }
    apply chain_snoc2. split; [|done]. cbn [app]. rewrite <- R1, R2. split; [done|].
    by rewrite <- R2.
Qed.

Lemma wp_list_reverse h l xs Q :
  dll h l xs ->
  (forall h', dll h' l (rev xs) -> frame (nodes l xs) h h' -> Q tt h') ->
  wp (list_reverse l) Q h.
Proof.
  intros H HQ. unfold list_reverse. apply wp_bind, (wp_list_empty _ _ _ _ H).
  destruct (decide (xs = [])) as [->|Hne].
  { apply wp_ret, HQ; [done|apply frame_refl]. }
  rewrite bool_decide_eq_false_2 by done.
  apply wp_bind, (wp_list_begin _ _ _ _ H), wp_bind.
  eapply (wp_mloop (fun n e h' => exists xs1 xs2,
    xs = xs1 ++ xs2 /\ n = length xs2 /\ e = first l xs2 /\ swapped h h' xs1)) with (n := length xs).
  2:{ exists [], xs. split_and!; try done. apply swapped_nil. }
  2:{ pose proof (dll_fuel _ _ _ H). lia. }
  intros n e h' (xs1 & xs2 & -> & -> & -> & Hs).
  assert (Hl : l <> NULL) by apply (dll_elem_head _ _ _ H).
  unfold list_end. apply wp_bind, wp_bind, wp_assertb; [by rewrite eqb_ne|]. apply wp_ret.
  rewrite (first_tail_eqb _ _ _ _ H).
  destruct xs2 as [|x xs2]; cbn [length].
  - apply wp_ret. rewrite app_nil_r in *.
    destruct (ends_facts _ _ _ H Hne) as (_ & _ & Hf & Hz & Hh & Ht & Hht).
    pose proof (dll_close_ends _ _ _ _ H Hne Hs) as H'.
    destruct Hs as (Hd & Hin & Hout).
    pose proof (dll_elem_head _ _ _ H) as (Hhn & Eh & Hfn).
    pose proof (dll_elem_tail _ _ _ H) as (Htn & Et & Hzn).
    assert (Dom : forall a, a ∈ nodes l xs1 -> a ∈ dom h').
    { intros a Ha. rewrite Hd. by eapply dll_dom. }
    assert (head l ∈ nodes l xs1 /\ tail l ∈ nodes l xs1) as [Nh Nt] by (rewrite !elem_of_nodes; tauto).
    assert (first l xs1 ∈ nodes l xs1 /\ lst l xs1 ∈ nodes l xs1) as [Nf Nz] by (rewrite !elem_of_nodes; tauto).
    pose proof (dll_gap _ _ [] _ H) as [_ G2]. cbn in G2.
    assert (G3 : nx h (lst l xs1) = Some (tail l)).
    { rewrite <- (app_nil_r xs1) in H. by apply (dll_gap _ _ _ []) in H as [? _]. }
    assert (first l xs1 <> head l /\ first l xs1 <> tail l) as [? ?] by (split; congruence).
    assert (lst l xs1 <> head l /\ lst l xs1 <> tail l) as [? ?] by (split; congruence).
    assert (Eh' : nx h' (head l) = Some (first l xs1)) by (unfold nx; by rewrite Hout, Eh).
    assert (Et' : pv h' (tail l) = Some (lst l xs1)) by (unfold pv; by rewrite Hout, Et).
    apply wp_bind. load_links; [done..|].
    apply wp_bind. load_links; [done..|].
    apply wp_bind. load_links; [done|by apply Dom|].
    apply wp_bind. load_links; [done|autorewrite with links; by apply Dom|].
    apply wp_bind. load_links; [done|links; by rewrite Eh'|].
    apply wp_bind. load_links; [done|links; by rewrite Et'|].
    apply wp_bind. load_links; [done|links; destruct (Hin _ Hz) as [_ ->]; exact G3|].
    apply wp_bind. load_links; [done|links; destruct (Hin _ Hf) as [-> _]; exact G2|].
    apply wp_bind. load_links; [done|autorewrite with links; by apply Dom|].
    load_links; [done|autorewrite with links; by apply Dom|].
    apply HQ; [exact H'|]. eapply frame_trans; [|frames].
    split; [done|]. intros a Ha. apply Hout. intros Hax. apply Ha, elem_of_nodes. auto.
  - rewrite bool_decide_eq_false_2 by done. cbn [first].
    destruct (dll_elem _ _ _ _ _ H) as (Hx & Ex & _ & _).
    assert (Hx1 : x ∉ xs1).
    { pose proof (dll_nodup _ _ _ H) as [N _]%nodup_insert. intros Hi. apply N, elem_of_nodes. set_solver. }
    assert (E' : h' !! x = Some (mk_elem (lst l xs1) (first l xs2))).
    { destruct Hs as (_ & _ & Hout). by rewrite Hout. }
    apply wp_bind. eapply wp_swap_links; [done|unfold pv; by rewrite E'|unfold nx; by rewrite E'|].
    apply wp_bind. load_links; [done| |].
    { links. unfold pv. by rewrite E'. }
    apply wp_ret. exists (length xs2). split; [lia|].
    exists (xs1 ++ [x]), xs2. rewrite <- app_assoc. split_and!; try done.
    apply swapped_step; try done; [unfold pv|unfold nx]; by rewrite Ex.
Qed.
