(* ===== verification/DListSpec.v ===== *)
(** * lib/kernel/list.c: sorting, and what the list functions promise

    Total correctness of list_sort(), and then the theorems on the list
    functions that other components rely on. *)

From stdpp Require Import base gmap list sets numbers sorting.
From Stdlib Require Import ZArith Lia.
From S2P Require Import Prelude DList DListOps.

Open Scope Z_scope.

(** * lib/kernel/list.c: the merge sort

    Total correctness of list_sort(): on a well-formed list and an asymmetric
    comparison it returns, and the list is then a permutation of what it was,
    with no element less than its predecessor.  The bounds of its five nested
    loops are never reached. *)

Section sort.
Context (less : Z -> Z -> bool).

(** ** Sequences: runs and merging *)

(** No element is less than the one before it. *)
Fixpoint sortedb (xs : list Z) : bool :=
  match xs with
  | a :: ((b :: _) as r) => negb (less b a) && sortedb r
  | _ => true
  end.

(** The rest of the run that [x] starts, and what follows the run. *)
Fixpoint split_run (x : Z) (r : list Z) : list Z * list Z :=
  match r with
  | [] => ([], [])
  | y :: r' => if less y x then ([], r) else let '(a, b) := split_run y r' in (y :: a, b)
  end.

Fixpoint nruns (xs : list Z) : nat :=
  match xs with
  | [] => 0
  | x :: r => match r with
              | [] => 1
              | y :: _ => if less y x then S (nruns r) else nruns r
              end
  end.

Fixpoint merge (A : list Z) : list Z -> list Z :=
  fix merge_A (B : list Z) : list Z :=
    match A, B with
    | [], _ => B
    | _, [] => A
    | a :: A', b :: B' => if less b a then b :: merge_A B' else a :: merge A' B
    end.

Lemma merge_nil_l B : merge [] B = B.
Proof. by destruct B. Qed.
Lemma merge_nil_r A : merge A [] = A.
Proof. by destruct A. Qed.
Lemma merge_cons a A b B :
  merge (a :: A) (b :: B) =
  if less b a then b :: merge (a :: A) B else a :: merge A (b :: B).
Proof. done. Qed.

Lemma merge_perm A B : merge A B ≡ₚ A ++ B.
Proof.
  revert B. induction A as [|a A IHA]; intros B; [by rewrite merge_nil_l|].
  induction B as [|b B IHB]; [by rewrite merge_nil_r, app_nil_r|].
  rewrite merge_cons. destruct (less b a).
  - by rewrite IHB, Permutation_middle.
  - by rewrite IHA.
Qed.

Lemma sortedb_cons2 a b r : sortedb (a :: b :: r) = negb (less b a) && sortedb (b :: r).
Proof. done. Qed.

Lemma sortedb_tl a r : sortedb (a :: r) = true -> sortedb r = true.
Proof. destruct r as [|b r]; [done|]. rewrite sortedb_cons2. by intros [_ ?]%andb_true_iff. Qed.

(** What may stand in front of a merge. *)
Lemma merge_front c A B :
  sortedb (c :: A) = true -> sortedb (c :: B) = true ->
  sortedb (merge A B) = true -> sortedb (c :: merge A B) = true.
Proof.
  destruct A as [|a A]; [by rewrite merge_nil_l|].
  destruct B as [|b B]; [by rewrite merge_nil_r|].
  rewrite merge_cons. intros [H1 _]%andb_true_iff [H2 _]%andb_true_iff.
  destruct (less b a); rewrite sortedb_cons2; intros ->; by rewrite ?H1, ?H2.
Qed.

Lemma split_run_app x r : r = (split_run x r).1 ++ (split_run x r).2.
Proof.
  revert x. induction r as [|y r IH]; intros x; [done|]. cbn.
  destruct (less y x); [done|]. specialize (IH y).
  destruct (split_run y r) as [a b]. cbn in *. by f_equal.
Qed.

Lemma split_run_sorted x r : sortedb (x :: (split_run x r).1) = true.
Proof.
  revert x. induction r as [|y r IH]; intros x; [done|]. cbn [split_run].
  destruct (less y x) eqn:E; [done|]. specialize (IH y).
  destruct (split_run y r) as [a b]. cbn [fst] in *. rewrite sortedb_cons2, E. done.
Qed.

Lemma split_run_nruns x r : nruns (x :: r) = S (nruns (split_run x r).2).
Proof.
  revert x. induction r as [|y r IH]; intros x; [done|]. cbn [split_run].
  cbn [nruns]. destruct (less y x) eqn:E; [done|].
  change (nruns (y :: r) = S (nruns (let '(a, b) := split_run y r in (y :: a, b)).2)).
  rewrite IH. by destruct (split_run y r).
Qed.

Lemma nruns_app xs ys : (nruns (xs ++ ys) <= nruns xs + nruns ys)%nat.
Proof.
  induction xs as [|a [|b xs] IH]; cbn [app].
  - done.
  - destruct ys as [|c ys]; [done|]. change (nruns [a]) with 1%nat.
    change (nruns (a :: c :: ys)) with (if less c a then S (nruns (c :: ys)) else nruns (c :: ys)).
    destruct (less c a); lia.
  - cbn [app] in IH. cbn [nruns]. cbn [nruns] in IH. destruct (less b a); lia.
Qed.

Lemma nruns_length xs : (nruns xs <= length xs)%nat.
Proof.
  induction xs as [|a [|b xs] IH]; [done..|]. cbn [nruns length]. cbn [nruns length] in IH.
  destruct (less b a); lia.
Qed.

Lemma sortedb_nruns xs : sortedb xs = true <-> (nruns xs <= 1)%nat.
Proof.
  induction xs as [|a [|b xs] IH]; [cbn; split; [lia|done]..|].
  rewrite sortedb_cons2.
  change (nruns (a :: b :: xs)) with (if less b a then S (nruns (b :: xs)) else nruns (b :: xs)).
  assert (1 <= nruns (b :: xs))%nat by (rewrite split_run_nruns; lia).
  destruct (less b a); cbn [negb andb]; [|done]. split; [done|lia].
Qed.

Lemma sortedb_snoc_skip xs a b r :
  sortedb (xs ++ [a]) = true -> sortedb (xs ++ a :: b :: r) = negb (less b a) && sortedb (b :: r).
Proof.
  induction xs as [|x [|y xs] IH]; cbn [app]; intros H.
  - done.
  - rewrite sortedb_cons2 in H |- *. apply andb_true_iff in H as [-> _]. done.
  - rewrite sortedb_cons2 in H |- *. apply andb_true_iff in H as [-> H]. cbn [andb].
    by apply IH.
Qed.

Section asym.
Hypothesis less_asym : forall a b, less a b = true -> less b a = false.

Lemma merge_sorted A B : sortedb A = true -> sortedb B = true -> sortedb (merge A B) = true.
Proof.
  revert B. induction A as [|a A IHA]; intros B HA HB; [by rewrite merge_nil_l|].
  induction B as [|b B IHB]; [by rewrite merge_nil_r|].
  rewrite merge_cons. destruct (less b a) eqn:E.
  - apply merge_front; [|done|].
    + rewrite sortedb_cons2, (less_asym _ _ E). done.
    + apply IHB. by eapply sortedb_tl.
  - apply merge_front; [done| |].
    + rewrite sortedb_cons2, E. done.
    + apply IHA; [|done]. by eapply sortedb_tl.
Qed.

(** ** The pointer-level routines *)

Lemma wp_is_sorted h l pre A post Q :
  dll h l (pre ++ A ++ post) -> Q (sortedb A) h ->
  wp (is_sorted less (first l (A ++ post)) (first l post)) Q h.
Proof.
  intros H HQ. unfold is_sorted. rewrite (first_eqb _ _ _ _ _ H).
  destruct A as [|x A]; [by apply wp_ret|].
  rewrite bool_decide_eq_false_2 by done. cbn [app first].
  eapply (wp_mloop (fun n e h' => h' = h /\ exists A1 A2,
    x :: A = A1 ++ e :: A2 /\ n = length A2 /\ sortedb (x :: A) = sortedb (e :: A2) /\
    sortedb (A1 ++ [e]) = true)) with (n := length A).
  - intros n e h' (-> & A1 & A2 & E & -> & Es & Ep).
    rewrite E, <- app_assoc, app_assoc in H. cbn [app] in H.
    apply wp_bind, (wp_list_next _ _ _ _ _ _ H).
    rewrite cons_middle, app_assoc in H. rewrite (first_eqb _ _ _ _ _ H).
    destruct A2 as [|y A2].
    + rewrite bool_decide_eq_true_2 by done. apply wp_ret. by rewrite Es in HQ.
    + rewrite bool_decide_eq_false_2 by done.
      apply wp_bind, (wp_list_prev _ _ _ _ _ H). rewrite lst_snoc. cbn [app first].
      rewrite sortedb_cons2 in Es. destruct (less y e) eqn:Ey; apply wp_ret.
      * by rewrite Es in HQ.
      * exists (length A2). split; [cbn; lia|]. split; [done|].
        exists (A1 ++ [e]), A2. rewrite E, <- !app_assoc. split_and!; try done.
        -- by rewrite <- E.
        -- cbn [app]. rewrite sortedb_snoc_skip by done. by rewrite Ey.
  - split; [done|]. by exists [], A.
  - pose proof (dll_fuel _ _ _ H) as Hf. rewrite !length_app in Hf. cbn in Hf. lia.
Qed.

Lemma wp_find_end_of_run h l pre x r Q :
  dll h l (pre ++ x :: r) -> Q (first l (split_run x r).2) h ->
  wp (find_end_of_run less x (tail l)) Q h.
Proof.
  intros H HQ. unfold find_end_of_run.
  destruct (dll_elem _ _ _ _ _ H) as (Hx & _ & _ & _).
  destruct (dll_elem_tail _ _ _ H) as (Ht & _ & _).
  pose proof (first_tail_eqb _ _ _ _ H) as Ext. cbn [first] in Ext.
  apply wp_bind, wp_assertb; [by rewrite eqb_ne|].
  apply wp_bind, wp_assertb; [by rewrite eqb_ne|].
  apply wp_bind, wp_assertb; [by rewrite Ext, bool_decide_eq_false_2|].
  eapply (wp_mloop (fun n e h' => h' = h /\ exists r1 r2,
    x :: r = r1 ++ e :: r2 /\ n = length r2 /\ (split_run x r).2 = (split_run e r2).2))
    with (n := length r).
  - intros n e h' (-> & r1 & r2 & E & -> & Es).
    rewrite E, app_assoc in H. apply wp_bind, (wp_list_next _ _ _ _ _ _ H).
    rewrite cons_middle, app_assoc in H. rewrite (first_tail_eqb _ _ _ _ H).
    destruct r2 as [|y r2].
    + rewrite bool_decide_eq_true_2 by done. apply wp_ret. by rewrite Es in HQ.
    + rewrite bool_decide_eq_false_2 by done.
      apply wp_bind, (wp_list_prev _ _ _ _ _ H). rewrite lst_snoc. cbn [first].
      cbn [split_run] in Es. destruct (less y e); apply wp_ret.
      * by rewrite Es in HQ.
      * exists (length r2). split; [cbn; lia|]. split; [done|].
        exists (r1 ++ [e]), r2. rewrite E, Es, <- app_assoc.
        by destruct (split_run y r2).
  - split; [done|]. by exists [], r.
  - pose proof (dll_fuel _ _ _ H) as Hf. rewrite !length_app in Hf. cbn in Hf. lia.
Qed.

Lemma wp_inplace_merge h l pre A B post Q :
  dll h l (pre ++ A ++ B ++ post) -> sortedb A = true -> sortedb B = true ->
  (forall h', dll h' l (pre ++ merge A B ++ post) ->
     frame (nodes l (pre ++ A ++ B ++ post)) h h' -> Q tt h') ->
  wp (inplace_merge less (first l (A ++ B ++ post)) (first l (B ++ post)) (first l post)) Q h.
Proof.
  intros H HA HB HQ. unfold inplace_merge.
  assert (H1 : dll h l ((pre ++ A) ++ B ++ post)) by (by rewrite <- app_assoc).
  assert (H2 : dll h l ((pre ++ A ++ B) ++ post)) by (by rewrite <- !app_assoc).
  apply wp_bind, wp_assertb; [by rewrite eqb_ne by (by eapply dll_null_first)|].
  apply wp_bind, wp_assertb; [by rewrite eqb_ne by (by eapply dll_null_first)|].
  apply wp_bind, wp_assertb; [by rewrite eqb_ne by (by eapply dll_null_first)|].
  apply wp_bind, (wp_is_sorted _ _ _ _ _ _ H), wp_bind, wp_assertb; [done|].
  apply wp_bind, (wp_is_sorted _ _ _ _ _ _ H1), wp_bind, wp_assertb; [done|].
  clear H1 H2 HA HB. remember (nodes l (pre ++ A ++ B ++ post)) as N eqn:EN.
  eapply (wp_mloop (fun n '(a0, a1b0) h' => exists pre' A' B',
    n = (length A' + length B')%nat /\ a0 = first l (A' ++ B' ++ post) /\
    a1b0 = first l (B' ++ post) /\ dll h' l (pre' ++ A' ++ B' ++ post) /\
    pre ++ merge A B = pre' ++ merge A' B' /\
    frame N h h' /\ nodes l (pre' ++ A' ++ B' ++ post) ≡ₚ N)) with (n := (length A + length B)%nat).
  - intros n [a0 a1b0] h' (pre' & A' & B' & -> & -> & -> & H' & E & Hf & HN).
    assert (H1 : dll h' l ((pre' ++ A') ++ B' ++ post)) by (by rewrite <- app_assoc).
    rewrite (first_eqb _ _ _ _ _ H'), (first_eqb _ _ _ _ _ H1).
    destruct A' as [|a A'].
    { apply wp_ret, HQ; [|done]. by rewrite app_assoc, E, merge_nil_l, <- app_assoc. }
    destruct B' as [|b B'].
    { apply wp_ret, HQ; [|done]. by rewrite app_assoc, E, merge_nil_r, <- app_assoc. }
    rewrite !bool_decide_eq_false_2 by done. cbn [orb app first] in *.
    rewrite merge_cons in E. destruct (less b a) eqn:Eba; cbn [negb].
    + apply wp_bind, (wp_list_next _ _ _ _ _ _ H1).
      assert (H2 : dll h' l ((pre' ++ (a :: A') ++ [b]) ++ B' ++ post)).
      { by rewrite <- !app_assoc in *. }
      apply wp_bind, (wp_list_prev _ _ _ _ _ H2).
      rewrite app_assoc, lst_snoc. apply wp_bind.
      apply (wp_list_splice_back h' l pre' (a :: A') [b] (B' ++ post)); [done..|].
      intros h2 H3 Hf2. apply wp_ret.
      exists (length (a :: A') + length B')%nat. split; [cbn; lia|].
      exists (pre' ++ [b]), (a :: A'), B'. rewrite <- !app_assoc. cbn [app].
      assert (HN' : nodes l (pre' ++ b :: a :: A' ++ B' ++ post) ≡ₚ N).
      { rewrite <- HN. rewrite (nodes_perm_mid l pre' [b] (a :: A' ++ B' ++ post)).
        rewrite (nodes_perm_mid l pre' (a :: A') (b :: B' ++ post)).
        rewrite (nodes_perm_mid l pre' (a :: A') (B' ++ post)).
        rewrite (nodes_perm_mid l pre' [b] (B' ++ post)).
        rewrite !app_assoc. by rewrite (Permutation_app_comm [b]). }
      split_and!; try done. eapply frame_trans; [exact Hf|].
      eapply frame_weaken; [|exact Hf2]. intros c Hc. by rewrite <- HN'.
    + apply wp_bind, (wp_list_next _ _ _ _ _ _ H'), wp_ret.
      exists (length A' + length (b :: B'))%nat. split; [cbn; lia|].
      exists (pre' ++ [a]), A', (b :: B'). rewrite <- !app_assoc. done.
  - exists pre, A, B. split_and!; try done. by rewrite EN.
  - pose proof (dll_fuel _ _ _ H) as Hfu. rewrite !length_app in Hfu. lia.
Qed.

(** One pass merges the runs of the list pairwise: it outputs half as many runs
    as there were, rounded up, and leaves at most that many. *)
Lemma wp_sort_pass h l xs Q :
  dll h l xs -> Z.of_nat (length xs) < 2 ^ 32 ->
  (forall h' ys cnt, dll h' l ys -> ys ≡ₚ xs -> frame (nodes l xs) h h' ->
     (nruns ys <= cnt)%nat -> (2 * cnt <= nruns xs + 1)%nat -> Q (Z.of_nat cnt) h') ->
  wp (sort_pass less l) Q h.
Proof.
  intros H Hlen HQ. unfold sort_pass. apply wp_bind, (wp_list_begin _ _ _ _ H).
  eapply (wp_mloop (fun n '(a0, c) h' => exists dn rest cnt,
    n = length rest /\ a0 = first l rest /\ c = Z.of_nat cnt /\
    dll h' l (dn ++ rest) /\ dn ++ rest ≡ₚ xs /\ frame (nodes l xs) h h' /\
    (nruns dn <= cnt)%nat /\ (2 * cnt + nruns rest <= nruns xs)%nat)) with (n := length xs).
  - intros n [a0 c] h' (dn & rest & cnt & -> & -> & -> & H' & HP & Hf & Hc1 & Hc2).
    pose proof (nruns_length xs) as Hnl.
    apply wp_bind, (wp_list_end _ _ _ _ H'). rewrite (first_tail_eqb _ _ _ _ H').
    destruct rest as [|x r].
    { rewrite bool_decide_eq_true_2 by done. apply wp_ret.
      rewrite app_nil_r in *. cbn in Hc2. eapply HQ; try done; lia. }
    rewrite bool_decide_eq_false_2 by done. cbn [first]. rewrite split_run_nruns in Hc2.
    rewrite uwrap_small by (unfold in_u; lia). replace (Z.of_nat cnt + 1) with (Z.of_nat (S cnt)) by lia.
    apply wp_bind, (wp_find_end_of_run _ _ _ _ _ _ H').
    pose proof (split_run_app x r) as Er. pose proof (split_run_sorted x r) as Sr.
    destruct (split_run x r) as [a rest2]. cbn [fst snd] in *.
    assert (H2 : dll h' l (dn ++ (x :: a) ++ rest2)) by (by rewrite <- app_comm_cons, <- Er).
    pose proof H2 as H3. rewrite app_assoc in H3. rewrite (first_tail_eqb _ _ _ _ H3).
    destruct rest2 as [|y r2].
    { rewrite bool_decide_eq_true_2 by done. apply wp_ret. cbn in Hc2.
      apply sortedb_nruns in Sr. rewrite app_nil_r in *. subst a. eapply HQ; try done; [|lia].
      pose proof (nruns_app dn (x :: r)). lia. }
    rewrite bool_decide_eq_false_2 by done. cbn [first].
    rewrite split_run_nruns in Hc2.
    apply wp_bind, (wp_find_end_of_run _ _ _ _ _ _ H3).
    pose proof (split_run_app y r2) as Er2. pose proof (split_run_sorted y r2) as Sr2.
    destruct (split_run y r2) as [b rest3]. cbn [fst snd] in *.
    assert (H4 : dll h' l (dn ++ (x :: a) ++ (y :: b) ++ rest3)) by (by rewrite Er2 in H2).
    apply wp_bind. apply (wp_inplace_merge h' l dn (x :: a) (y :: b) rest3); [done..|].
    intros h2 H5 Hf2. apply wp_ret.
    exists (length rest3). split; [rewrite Er, Er2; cbn; rewrite !length_app; cbn; rewrite length_app; lia|].
    exists (dn ++ merge (x :: a) (y :: b)), rest3, (S cnt).
    assert (EP : dn ++ merge (x :: a) (y :: b) ++ rest3 ≡ₚ xs).
    { rewrite <- HP, Er, Er2, merge_perm, <- !app_assoc. done. }
    split_and!; try done.
    + by rewrite <- app_assoc.
    + by rewrite <- app_assoc.
    + eapply frame_trans; [exact Hf|]. eapply frame_weaken; [|exact Hf2].
      intros c. rewrite Er, Er2 in HP. unfold nodes. by rewrite <- HP.
    + pose proof (merge_sorted _ _ Sr Sr2) as Sm. apply sortedb_nruns in Sm.
      pose proof (nruns_app dn (merge (x :: a) (y :: b))). lia.
    + lia.
  - exists [], xs, O. split_and!; try done; cbn; lia.
  - pose proof (dll_fuel _ _ _ H) as Hfu. lia.
Qed.

Lemma wp_list_sort h l xs Q :
  dll h l xs -> Z.of_nat (length xs) < 2 ^ 32 ->
  (forall h' ys, dll h' l ys -> ys ≡ₚ xs -> frame (nodes l xs) h h' ->
     sortedb ys = true -> Q tt h') ->
  wp (list_sort less l) Q h.
Proof.
  intros H Hlen HQ. unfold list_sort.
  destruct (dll_elem_head _ _ _ H) as (Hl & _ & _).
  apply wp_bind, wp_assertb; [by rewrite (eqb_ne l)|]. apply wp_bind.
  eapply (wp_mloop (fun n _ h' => exists ys,
    n = nruns ys /\ dll h' l ys /\ ys ≡ₚ xs /\ frame (nodes l xs) h h')) with (n := nruns xs).
  - intros n [] h' (ys & -> & H' & HP & Hf). apply wp_bind.
    apply (wp_sort_pass _ _ _ _ H'); [by rewrite HP|].
    intros h2 zs cnt H2 HP2 Hf2 Hc1 Hc2.
    assert (Hf3 : frame (nodes l xs) h h2).
    { eapply frame_trans; [exact Hf|]. eapply frame_weaken; [|exact Hf2].
      intros a. unfold nodes. by rewrite HP. }
    assert (HP3 : zs ≡ₚ xs) by (by rewrite HP2).
    destruct (Z.ltb_spec 1 (Z.of_nat cnt)) as [Hlt|Hle]; apply wp_ret.
    + exists (nruns zs). split; [lia|]. eauto.
    + assert (Hs : sortedb zs = true) by (apply sortedb_nruns; lia).
      apply wp_bind, (wp_list_begin _ _ _ _ H2), wp_bind, (wp_list_end _ _ _ _ H2), wp_bind.
      pose proof (wp_is_sorted h2 l [] zs []) as W. rewrite !app_nil_r in W. cbn [app first] in W.
      apply W; [done|]. apply wp_assertb; [done|]. by eapply HQ.
  - exists xs. done.
  - pose proof (dll_fuel _ _ _ H). pose proof (nruns_length xs). lia.
Qed.

End asym.
End sort.

(** * lib/kernel/list.c: what the list functions promise

    The functional contracts of list.c, stated on memories: each function
    returns (no assertion fires, no bound is reached) and what it leaves is a
    well-formed list of the expected elements, with every other list element
    of memory untouched. *)

(** A comparison callback in the sense of list.h: a strict weak ordering. *)
Class LessOrder (less : Z -> Z -> bool) : Prop := {
  less_asym : forall a b, less a b = true -> less b a = false;
  less_negtrans : forall a b c, less b a = false -> less c b = false -> less c a = false }.

#[global] Instance ltb_order : LessOrder Z.ltb.
Proof. split; intros; lia. Qed.

(** A memory that holds exactly the list at [l] with interior elements [xs]. *)
Fixpoint layout_from (p : Z) (ns : list Z) : mem :=
  match ns with
  | [] => ∅
  | a :: r => <[a := mk_elem p (match r with [] => NULL | b :: _ => b end)]> (layout_from a r)
  end.
Definition layout (l : Z) (xs : list Z) : mem := layout_from NULL (nodes l xs).

(** ** Facts on the sequence operations *)

Section order.
Context (less : Z -> Z -> bool) `{!LessOrder less}.

(** [a] may stand anywhere before [b]. *)
Definition le_of (a b : Z) : Prop := less b a = false.

Lemma sortedb_strongly xs : sortedb less xs = true -> StronglySorted le_of xs.
Proof.
  induction xs as [|a xs IH]; intros H; [constructor|].
  assert (Hs : StronglySorted le_of xs).
  { apply IH. by eapply sortedb_tl. }
  constructor; [done|]. destruct xs as [|b xs]; [constructor|].
  rewrite sortedb_cons2 in H. apply andb_true_iff in H as [Hb%negb_true_iff _].
  constructor; [done|]. apply StronglySorted_inv in Hs as [_ Hs].
  eapply Forall_impl; [exact Hs|]. intros c Hc. by eapply less_negtrans.
Qed.

Lemma insert_ordered_split e xs : exists xs1 xs2,
  xs = xs1 ++ xs2 /\ insert_ordered less e xs = xs1 ++ e :: xs2 /\
  (forall y, y ∈ xs1 -> less e y = false) /\ (forall y, xs2 !! 0%nat = Some y -> less e y = true).
Proof.
  induction xs as [|x xs (xs1 & xs2 & -> & E & H1 & H2)].
  - exists [], []. split_and!; try done. intros y Hy. by apply elem_of_nil in Hy.
  - cbn. destruct (less e x) eqn:Ex.
    + exists [], (x :: xs1 ++ xs2). split_and!; try done.
      * intros y Hy. by apply elem_of_nil in Hy.
      * by intros y [= <-].
    + exists (x :: xs1), xs2. split_and!; try done.
      * cbn. by f_equal.
      * intros y [-> | Hy]%elem_of_cons; auto.
Qed.
Lemma insert_ordered_perm e xs : insert_ordered less e xs ≡ₚ e :: xs.
Proof.
  destruct (insert_ordered_split e xs) as (xs1 & xs2 & -> & -> & _).
  by rewrite Permutation_middle.
Qed.

Lemma insert_ordered_sorted e xs :
  StronglySorted le_of xs -> StronglySorted le_of (insert_ordered less e xs).
Proof.
  induction 1 as [|x xs Hs IH Hx]; cbn; [by repeat constructor|].
  destruct (less e x) eqn:Ex.
  - constructor; [by constructor|]. constructor; [by apply less_asym|].
    eapply Forall_impl; [exact Hx|]. intros y Hy.
    eapply less_negtrans; [|exact Hy]. by apply less_asym.
  - constructor; [done|]. rewrite insert_ordered_perm. by constructor.
Qed.

(** The element that list_max() keeps: a maximum, and the first of them. *)
Lemma max_of_spec x xs : exists l1 l2,
  x :: xs = l1 ++ max_of less x xs :: l2 /\
  Forall (fun y => less y (max_of less x xs) = true) l1 /\
  Forall (fun y => less (max_of less x xs) y = false) l2.
Proof.
  induction xs as [|y xs (l1 & l2 & E & H1 & H2)] using rev_ind.
  { exists [], []. by repeat constructor. }
  unfold max_of in *. rewrite foldl_snoc.
  set (m := foldl _ _ _) in *.
  destruct (less m y) eqn:Em.
  - exists (x :: xs), []. split_and!; [done| |constructor].
    rewrite E. apply Forall_app. split; [|constructor; [done|]].
    + eapply Forall_impl; [exact H1|]. intros z Hz. cbn in Hz |- *.
      destruct (less z y) eqn:Ezy; [done|].
      (* m < y and not z < y give not z < m *)
      exfalso. assert (less z m = false); [|congruence].
      apply (less_negtrans m y z); [|done]. by apply less_asym.
    + eapply Forall_impl; [exact H2|]. intros z Hz. cbn in Hz |- *.
      destruct (less z y) eqn:Ezy; [done|].
      exfalso. assert (less m y = false); [|congruence].
      by apply (less_negtrans y z m).
  - exists l1, (l2 ++ [y]). split_and!; [|done|].
    + by rewrite app_comm_cons, E, <- app_assoc.
    + apply Forall_app. split; [done|]. by constructor.
Qed.

(** What list_unique() keeps has no two adjacent equal elements. *)
Definition equal_by (a b : Z) : bool := negb (less a b) && negb (less b a).

Fixpoint no_adjacent_equal (xs : list Z) : Prop :=
  match xs with
  | a :: ((b :: _) as r) => equal_by a b = false /\ no_adjacent_equal r
  | _ => True
  end.

Lemma unique_from_spec x r :
  no_adjacent_equal (x :: (unique_from less x r).1) /\
  (unique_from less x r).1 ++ (unique_from less x r).2 ≡ₚ r /\
  Forall (fun y => exists z, z ∈ x :: (unique_from less x r).1 /\ equal_by z y = true)
    (unique_from less x r).2.
Proof.
  revert x. induction r as [|y r IH]; intros x; [by repeat constructor|].
  cbn [unique_from]. destruct (negb (less x y) && negb (less y x)) eqn:E.
  - destruct (IH x) as (H1 & H2 & H3). destruct (unique_from less x r) as [k d]. cbn in *.
    split_and!; [done|by rewrite <- Permutation_middle, H2|].
    constructor; [|done]. exists x. split; [left|done].
  - destruct (IH y) as (H1 & H2 & H3). destruct (unique_from less y r) as [k d]. cbn in *.
    split_and!; [done|done|by rewrite H2|].
    eapply Forall_impl; [exact H3|]. intros z (w & Hw & Ew). exists w. split; [|done].
    by right.
Qed.

End order.

(** ** Properties *)

(** C9: list_sort() on a well-formed list and a strict weak ordering returns
    (its assertions hold and its loops terminate); the list is then a
    permutation of the original one in which no later element is less than an
    earlier one, and no list element outside the list has changed. *)
Theorem list_sort_correct (less : Z -> Z -> bool) (h : mem) (l : Z) (xs : list Z) :
  LessOrder less -> dll h l xs -> Z.of_nat (length xs) < 2 ^ 32 ->
  exists h' ys, list_sort less l h = Ok (tt, h') /\ dll h' l ys /\ ys ≡ₚ xs /\
    StronglySorted (le_of less) ys /\ frame (nodes l xs) h h'.
Proof.
  intros HL H Hlen.
  assert (W : wp (list_sort less l) (fun _ h' => exists ys, dll h' l ys /\ ys ≡ₚ xs /\
    StronglySorted (le_of less) ys /\ frame (nodes l xs) h h') h).
  { apply (wp_list_sort less less_asym _ _ _ _ H Hlen).
    intros h' ys H' HP Hf Hs. exists ys. split_and!; try done. by apply sortedb_strongly. }
  apply wp_ok in W as ([] & h' & E & ys & W). eauto.
Qed.

Lemma list_sort_correct_witness :
  exists h' ys, list_sort Z.ltb 100 (layout 100 [30; 20; 40; 10]) = Ok (tt, h') /\
    dll h' 100 ys /\ ys ≡ₚ [30; 20; 40; 10] /\ StronglySorted (le_of Z.ltb) ys /\
    frame (nodes 100 [30; 20; 40; 10]) (layout 100 [30; 20; 40; 10]) h'.
Proof. apply list_sort_correct; [apply _|decide_closed|cbn; lia]. Defined.

(** list_insert() before any position of a well-formed list (an interior
    element or the tail) links a detached element in exactly there, and
    list_remove() of that element restores the sequence and returns the
    element that follows; neither touches elements outside the list. *)
Theorem list_insert_remove_correct (h : mem) (l : Z) (xs1 xs2 : list Z) (e : Z) :
  dll h l (xs1 ++ xs2) -> e ∈ dom h -> e <> NULL -> e ∉ nodes l (xs1 ++ xs2) ->
  exists h1 h2,
    list_insert (first l xs2) e h = Ok (tt, h1) /\ dll h1 l (xs1 ++ e :: xs2) /\
    list_remove e h1 = Ok (first l xs2, h2) /\ dll h2 l (xs1 ++ xs2) /\
    frame (nodes l (xs1 ++ e :: xs2)) h h1 /\ frame (nodes l (xs1 ++ xs2)) h1 h2.
Proof.
  intros H Hd Hn Hnew.
  assert (W : wp (list_insert (first l xs2) e) (fun _ h1 => dll h1 l (xs1 ++ e :: xs2) /\
    frame (nodes l (xs1 ++ e :: xs2)) h h1) h) by (by apply (wp_list_insert h l xs1 xs2)).
  apply wp_ok in W as ([] & h1 & E1 & H1 & F1).
  assert (W : wp (list_remove e) (fun r h2 => r = first l xs2 /\ dll h2 l (xs1 ++ xs2) /\
    frame (nodes l (xs1 ++ xs2)) h1 h2) h1) by (by apply (wp_list_remove h1 l xs1 e xs2)).
  apply wp_ok in W as (r & h2 & E2 & -> & H2 & F2). exists h1, h2. by split_and!.
Qed.

Lemma list_insert_remove_correct_witness :
  exists h1 h2,
    list_insert (first 100 [40; 10]) 7 (<[7 := mk_elem 0 0]> (layout 100 [30; 20; 40; 10])) = Ok (tt, h1) /\
    dll h1 100 ([30; 20] ++ 7 :: [40; 10]) /\
    list_remove 7 h1 = Ok (first 100 [40; 10], h2) /\ dll h2 100 ([30; 20] ++ [40; 10]) /\
    frame (nodes 100 ([30; 20] ++ 7 :: [40; 10])) (<[7 := mk_elem 0 0]> (layout 100 [30; 20; 40; 10])) h1 /\
    frame (nodes 100 ([30; 20] ++ [40; 10])) h1 h2.
Proof. apply list_insert_remove_correct; [decide_closed|decide_closed|done|decide_closed]. Defined.

(** list_splice() moves a range of one list before a position of another:
    the target gains the range there, in order, and the source loses it. *)
Theorem list_splice_correct (h : mem) (l k : Z) (xs1 xs2 ys1 ms ys2 : list Z) :
  dll h l (xs1 ++ xs2) -> dll h k (ys1 ++ ms ++ ys2) ->
  (forall a, a ∈ nodes l (xs1 ++ xs2) -> a ∉ nodes k (ys1 ++ ms ++ ys2)) ->
  exists h', list_splice (first l xs2) (first k (ms ++ ys2)) (first k ys2) h = Ok (tt, h') /\
    dll h' l (xs1 ++ ms ++ xs2) /\ dll h' k (ys1 ++ ys2) /\
    frame (nodes l (xs1 ++ ms ++ xs2) ++ nodes k (ys1 ++ ys2)) h h'.
Proof.
  intros Hl Hk Hd.
  assert (W : wp (list_splice (first l xs2) (first k (ms ++ ys2)) (first k ys2))
    (fun _ h' => dll h' l (xs1 ++ ms ++ xs2) /\ dll h' k (ys1 ++ ys2) /\
       frame (nodes l (xs1 ++ ms ++ xs2) ++ nodes k (ys1 ++ ys2)) h h') h)
    by (by apply (wp_list_splice h l k xs1 xs2 ys1 ms ys2)).
  apply wp_ok in W as ([] & h' & E & W). eauto.
Qed.

Lemma list_splice_correct_witness :
  exists h', list_splice (first 100 [20]) (first 200 ([2; 3] ++ [4])) (first 200 [4])
      (layout 100 [10; 20] ∪ layout 200 [1; 2; 3; 4]) = Ok (tt, h') /\
    dll h' 100 ([10] ++ [2; 3] ++ [20]) /\ dll h' 200 ([1] ++ [4]) /\
    frame (nodes 100 ([10] ++ [2; 3] ++ [20]) ++ nodes 200 ([1] ++ [4]))
      (layout 100 [10; 20] ∪ layout 200 [1; 2; 3; 4]) h'.
Proof.
  apply list_splice_correct; [decide_closed..|].
  intros a Ha%list_elem_of_In. cbn in Ha.
  repeat destruct Ha as [<- | Ha]; try decide_closed. destruct Ha.
Defined.

(** list_reverse() leaves exactly the reversed list. *)
Theorem list_reverse_correct (h : mem) (l : Z) (xs : list Z) :
  dll h l xs ->
  exists h', list_reverse l h = Ok (tt, h') /\ dll h' l (rev xs) /\ frame (nodes l xs) h h'.
Proof.
  intros H.
  assert (W : wp (list_reverse l) (fun _ h' => dll h' l (rev xs) /\ frame (nodes l xs) h h') h)
    by (by apply (wp_list_reverse _ _ _ _ H)).
  apply wp_ok in W as ([] & h' & E & W). eauto.
Qed.

Lemma list_reverse_correct_witness :
  exists h', list_reverse 100 (layout 100 [1; 2; 3]) = Ok (tt, h') /\ dll h' 100 (rev [1; 2; 3]) /\
    frame (nodes 100 [1; 2; 3]) (layout 100 [1; 2; 3]) h'.
Proof. apply list_reverse_correct. decide_closed. Defined.

(** list_insert_ordered() on a sorted list keeps it sorted and puts the
    new element after every element it is not less than. *)
Theorem list_insert_ordered_correct (less : Z -> Z -> bool) (h : mem) (l : Z) (xs : list Z) (e : Z) :
  LessOrder less -> dll h l xs -> e ∈ dom h -> e <> NULL -> e ∉ nodes l xs ->
  StronglySorted (le_of less) xs ->
  exists h' xs1 xs2, list_insert_ordered less l e h = Ok (tt, h') /\
    dll h' l (xs1 ++ e :: xs2) /\ xs = xs1 ++ xs2 /\
    StronglySorted (le_of less) (xs1 ++ e :: xs2) /\
    (forall y, y ∈ xs1 -> less e y = false) /\ (forall y, xs2 !! 0%nat = Some y -> less e y = true) /\
    frame (nodes l (xs1 ++ e :: xs2)) h h'.
Proof.
  intros HL H Hd Hn Hnew Hs.
  assert (W : wp (list_insert_ordered less l e) (fun _ h' => dll h' l (insert_ordered less e xs) /\
    frame (nodes l (insert_ordered less e xs)) h h') h) by (by apply (wp_list_insert_ordered less h l xs)).
  apply wp_ok in W as ([] & h' & E & H' & F).
  pose proof (insert_ordered_sorted less e xs Hs) as Hs'.
  destruct (insert_ordered_split less e xs) as (xs1 & xs2 & -> & Ei & H1 & H2).
  rewrite Ei in *. exists h', xs1, xs2. by split_and!.
Qed.

Lemma list_insert_ordered_correct_witness :
  exists h' xs1 xs2,
    list_insert_ordered Z.ltb 100 7 (<[7 := mk_elem 0 0]> (layout 100 [3; 5; 9])) = Ok (tt, h') /\
    dll h' 100 (xs1 ++ 7 :: xs2) /\ [3; 5; 9] = xs1 ++ xs2 /\
    StronglySorted (le_of Z.ltb) (xs1 ++ 7 :: xs2) /\
    (forall y, y ∈ xs1 -> (7 <? y) = false) /\ (forall y, xs2 !! 0%nat = Some y -> (7 <? y) = true) /\
    frame (nodes 100 (xs1 ++ 7 :: xs2)) (<[7 := mk_elem 0 0]> (layout 100 [3; 5; 9])) h'.
Proof.
  apply list_insert_ordered_correct; [apply _|decide_closed|decide_closed|done|decide_closed|].
  repeat constructor.
Defined.

(** list_unique() leaves a list without adjacent equal elements; what it
    drops, in order, is appended to DUPLICATES, each dropped element is equal
    to a kept one, and nothing is lost. *)
Theorem list_unique_correct (less : Z -> Z -> bool) (h : mem) (l k : Z) (x : Z) (xs ys : list Z) :
  dll h l (x :: xs) -> dll h k ys -> k <> NULL ->
  (forall a, a ∈ nodes l (x :: xs) -> a ∉ nodes k ys) ->
  exists h' kept dropped, list_unique less l k h = Ok (tt, h') /\
    dll h' l (x :: kept) /\ dll h' k (ys ++ dropped) /\ kept ++ dropped ≡ₚ xs /\
    no_adjacent_equal less (x :: kept) /\
    Forall (fun y => exists z, z ∈ x :: kept /\ equal_by less z y = true) dropped.
Proof.
  intros H Hk Hkn Hd.
  assert (W : wp (list_unique less l k) (fun _ h' => dll h' l (x :: (unique_from less x xs).1) /\
    dll h' k (ys ++ (unique_from less x xs).2)) h).
  { apply (wp_list_unique less h l k x xs ys); [done..|]. intros h' H1 H2 _. auto. }
  apply wp_ok in W as ([] & h' & E & H1 & H2).
  destruct (unique_from_spec less x xs) as (? & ? & ?).
  exists h', (unique_from less x xs).1, (unique_from less x xs).2. by split_and!.
Qed.

Lemma list_unique_correct_witness :
  exists h' kept dropped,
    list_unique (fun a b => a / 10 <? b / 10) 100 200 (layout 100 [11; 12; 25; 13] ∪ layout 200 [1]) = Ok (tt, h') /\
    dll h' 100 (11 :: kept) /\ dll h' 200 ([1] ++ dropped) /\ kept ++ dropped ≡ₚ [12; 25; 13] /\
    no_adjacent_equal (fun a b => a / 10 <? b / 10) (11 :: kept) /\
    Forall (fun y => exists z, z ∈ 11 :: kept /\ equal_by (fun a b => a / 10 <? b / 10) z y = true) dropped.
Proof.
  apply list_unique_correct; [decide_closed..|done|].
  intros a Ha%list_elem_of_In. cbn in Ha.
  repeat destruct Ha as [<- | Ha]; try decide_closed. destruct Ha.
Defined.

(** list_max() returns the first of the largest elements of the list (the
    tail when the list is empty) and changes nothing. *)
Theorem list_max_correct (less : Z -> Z -> bool) (h : mem) (l : Z) (xs : list Z) :
  LessOrder less -> dll h l xs ->
  (xs = [] /\ list_max less l h = Ok (tail l, h)) \/
  (exists l1 m l2, xs = l1 ++ m :: l2 /\ list_max less l h = Ok (m, h) /\
     Forall (fun y => less y m = true) l1 /\ Forall (fun y => less m y = false) l2).
Proof.
  intros HL H.
  assert (W : wp (list_max less l) (fun r h' => h' = h /\
    r = match xs with [] => tail l | x :: r => max_of less x r end) h) by (by eapply wp_list_max).
  apply wp_ok in W as (r & h' & E & -> & ->). destruct xs as [|x xs]; [by left|right].
  destruct (max_of_spec less x xs) as (l1 & l2 & Ex & H1 & H2).
  exists l1, (max_of less x xs), l2. by split_and!.
Qed.

Lemma list_max_correct_witness :
  ([3; 9; 5] = [] /\ list_max Z.ltb 100 (layout 100 [3; 9; 5]) = Ok (tail 100, layout 100 [3; 9; 5])) \/
  (exists l1 m l2, [3; 9; 5] = l1 ++ m :: l2 /\
     list_max Z.ltb 100 (layout 100 [3; 9; 5]) = Ok (m, layout 100 [3; 9; 5]) /\
     Forall (fun y => (y <? m) = true) l1 /\ Forall (fun y => (m <? y) = false) l2).
Proof. apply list_max_correct; [apply _|decide_closed]. Defined.
