(* ===== verification/Bitmap.v ===== *)
(** * lib/kernel/bitmap.c: bitmaps

    A bitmap is a bit count and an array of 32-bit elements; the operations
    are those of bitmap.c, with [size_t] arithmetic wrapping at 32 bits, the
    assertions of the source, and accesses outside the array failing.  The
    theorems relate them to the bitmap seen as a sequence of booleans.  File
    input and output (bitmap_read(), bitmap_write()) are in Inode. *)

From stdpp Require Import base list numbers.
From Stdlib Require Import ZArith Lia.
From S2P Require Import Prelude.

Open Scope Z_scope.

(** ** Data *)

Definition ELEM_BITS : Z := 32.
Definition BITMAP_ERROR : Z := 2 ^ 32 - 1.

Record bitmap := mk_bitmap { bit_cnt : Z; bits : list Z }.

Definition elem_idx (bit_idx : Z) : Z := bit_idx / ELEM_BITS.
Definition bit_mask (bit_idx : Z) : Z := u32 (Z.shiftl 1 (bit_idx mod ELEM_BITS)).
Definition elem_cnt (bit_cnt : Z) : Z := DIV_ROUND_UP bit_cnt ELEM_BITS.
Definition byte_cnt (bit_cnt : Z) : Z := u32 (4 * elem_cnt bit_cnt).
Definition last_mask (b : bitmap) : Z :=
  let last_bits := bit_cnt b mod ELEM_BITS in
  if last_bits =? 0 then u32 (-1) else u32 (u32 (Z.shiftl 1 last_bits) - 1).

(** [b->bits[idx]] and [b->bits[idx] op= mask]. *)
Definition read_elem (idx : Z) : M bitmap Z :=
  b ← get; of_option BadAccess (bits b !! Z.to_nat idx).
Definition update_elem (f : Z -> Z) (idx : Z) : M bitmap unit :=
  b ← get;
  e ← of_option BadAccess (bits b !! Z.to_nat idx);
  put (mk_bitmap (bit_cnt b) (<[Z.to_nat idx := u32 (f e)]> (bits b))).

(** ** Single bits *)

Definition bitmap_size : M bitmap Z := gets bit_cnt.

Definition bitmap_mark (bit_idx : Z) : M bitmap unit :=
  update_elem (fun e => Z.lor e (bit_mask bit_idx)) (elem_idx bit_idx).

Definition bitmap_reset (bit_idx : Z) : M bitmap unit :=
  update_elem (fun e => Z.land e (u32 (Z.lnot (bit_mask bit_idx)))) (elem_idx bit_idx).

Definition bitmap_flip (bit_idx : Z) : M bitmap unit :=
  update_elem (fun e => Z.lxor e (bit_mask bit_idx)) (elem_idx bit_idx).

Definition bitmap_set (idx : Z) (value : bool) : M bitmap unit :=
  cnt ← gets bit_cnt;
  ASSERT (idx <? cnt);;
  if value then bitmap_mark idx else bitmap_reset idx.

Definition bitmap_test (idx : Z) : M bitmap bool :=
  cnt ← gets bit_cnt;
  ASSERT (idx <? cnt);;
  e ← read_elem (elem_idx idx);
  ret (negb (Z.land e (bit_mask idx) =? 0)).

(** ** Multiple bits *)

(** [ASSERT (start <= b->bit_cnt); ASSERT (start + cnt <= b->bit_cnt);] *)
Definition assert_range (start cnt : Z) : M bitmap unit :=
  n ← gets bit_cnt;
  ASSERT (start <=? n);;
  ASSERT (u32 (start + cnt) <=? n).

Definition bitmap_set_multiple (start cnt : Z) (value : bool) : M bitmap unit :=
  assert_range start cnt;;
  for_from (Z.to_nat cnt) 0 (fun i => bitmap_set (u32 (start + i)) value).

Definition bitmap_set_all (value : bool) : M bitmap unit :=
  n ← bitmap_size; bitmap_set_multiple 0 n value.

Fixpoint count_from (n : nat) (start i : Z) (value : bool) (value_cnt : Z) : M bitmap Z :=
  match n with
  | O => ret value_cnt
  | S n =>
      t ← bitmap_test (u32 (start + i));
      count_from n start (i + 1) value (if eqb t value then u32 (value_cnt + 1) else value_cnt)
  end.

Definition bitmap_count (start cnt : Z) (value : bool) : M bitmap Z :=
  assert_range start cnt;;
  count_from (Z.to_nat cnt) start 0 value 0.

Definition bitmap_contains (start cnt : Z) (value : bool) : M bitmap bool :=
  assert_range start cnt;;
  r ← find_from (Z.to_nat cnt) 0 (fun i =>
        t ← bitmap_test (u32 (start + i));
        ret (if eqb t value then Some tt else None));
  ret (match r with Some _ => true | None => false end).

Definition bitmap_any (start cnt : Z) : M bitmap bool := bitmap_contains start cnt true.

Definition bitmap_none (start cnt : Z) : M bitmap bool :=
  r ← bitmap_contains start cnt true; ret (negb r).

Definition bitmap_all (start cnt : Z) : M bitmap bool :=
  r ← bitmap_contains start cnt false; ret (negb r).

(** ** Finding bits *)

Definition bitmap_scan (start cnt : Z) (value : bool) : M bitmap Z :=
  n ← gets bit_cnt;
  ASSERT (start <=? n);;
  if cnt <=? n then
    let last := n - cnt in
    r ← find_from (Z.to_nat (last - start + 1)) start (fun i =>
          c ← bitmap_contains i cnt (negb value);
          ret (if c then None else Some i));
    ret (default BITMAP_ERROR r)
  else ret BITMAP_ERROR.

Definition bitmap_scan_and_flip (start cnt : Z) (value : bool) : M bitmap Z :=
  idx ← bitmap_scan start cnt value;
  (if negb (idx =? BITMAP_ERROR) then bitmap_set_multiple idx cnt (negb value) else ret tt);;
  ret idx.

(** ** Creation *)

Definition run_on (m : M bitmap unit) (b : bitmap) : outcome bitmap :=
  match m b with Ok (_, b') => Ok b' | Err e => Err e end.

(** [malloc size] is the content, in 32-bit words, of the block that malloc()
    returns, [None] for a null pointer. *)
Definition bitmap_create (malloc : Z -> option (list Z)) (n : Z) : outcome (option bitmap) :=
  match malloc 8 with
  | None => Ok None
  | Some _ =>
      let blk := malloc (byte_cnt n) in
      if bool_decide (is_Some blk) || (n =? 0) then
        match run_on (bitmap_set_all false) (mk_bitmap n (default [] blk)) with
        | Ok b => Ok (Some b)
        | Err e => Err e
        end
      else Ok None
  end.

Definition bitmap_buf_size (n : Z) : Z := u32 (8 + byte_cnt n).

(** The bitmap's header takes the first two words of [block]. *)
Definition bitmap_create_in_buf (n : Z) (block : list Z) (block_size : Z) : outcome bitmap :=
  if bitmap_buf_size n <=? block_size
  then run_on (bitmap_set_all false) (mk_bitmap n (drop 2 block))
  else Err AssertFail.

Definition bitmap_file_size (b : bitmap) : Z := byte_cnt (bit_cnt b).

(** ** The bitmap as a sequence of booleans *)

(** The bit numbered [i]. *)
Definition bit (b : bitmap) (i : Z) : bool :=
  Z.testbit (default 0 (bits b !! Z.to_nat (i / 32))) (i mod 32).

Record wf (b : bitmap) : Prop := {
  wf_cnt : 0 <= bit_cnt b <= 2 ^ 32 - 32;
  wf_len : elem_cnt (bit_cnt b) <= Z.of_nat (length (bits b));
  wf_word : Forall (in_u 32) (bits b) }.

#[global] Instance in_u_dec w x : Decision (in_u w x).
Proof. unfold in_u. apply _. Defined.

(** [b'] agrees with [b] except that bit [i] of [b'] is given by [f]. *)
Definition updated (b b' : bitmap) (f : Z -> bool) : Prop :=
  wf b' /\ bit_cnt b' = bit_cnt b /\ length (bits b') = length (bits b) /\
  forall i, 0 <= i -> bit b' i = f i.

Lemma elem_cnt_ok n : 0 <= n <= 2 ^ 32 - 32 -> elem_cnt n = (n + 31) / 32.
Proof.
  intros H. unfold elem_cnt, DIV_ROUND_UP, ELEM_BITS.
  rewrite uwrap_small by (unfold in_u; lia). f_equal. lia.
Qed.

Lemma wf_index b i : wf b -> 0 <= i < bit_cnt b -> (Z.to_nat (i / 32) < length (bits b))%nat.
Proof.
  intros [Hc Hl _] Hi. rewrite elem_cnt_ok in Hl by done.
  assert (0 <= i / 32 < (bit_cnt b + 31) / 32); [|lia].
  Z.div_mod_to_equations. lia.
Qed.

Lemma bit_mask_pow k : bit_mask k = 2 ^ (k mod 32).
Proof.
  unfold bit_mask, ELEM_BITS. rewrite Z.shiftl_1_l. apply uwrap_small. unfold in_u.
  pose proof (Z.mod_pos_bound k 32). split; [apply Z.pow_nonneg; lia|].
  apply Z.pow_lt_mono_r; lia.
Qed.

Lemma mask_testbit k j : 0 <= j -> Z.testbit (bit_mask k) j = (j =? k mod 32).
Proof.
  intros Hj. rewrite bit_mask_pow, Z.pow2_bits_eqb by (apply Z.mod_pos_bound; lia).
  apply Z.eqb_sym.
Qed.

Lemma u32_testbit x j : 0 <= j < 32 -> Z.testbit (u32 x) j = Z.testbit x j.
Proof. intros Hj. unfold uwrap. apply Z.mod_pow2_bits_low. lia. Qed.

Lemma same_bit i k : (i =? k) = (i / 32 =? k / 32) && (i mod 32 =? k mod 32).
Proof.
  pose proof (Z.div_mod i 32). pose proof (Z.div_mod k 32).
  destruct (Z.eqb_spec i k) as [->|Hne]; [by rewrite !Z.eqb_refl|].
  symmetry. apply andb_false_iff. rewrite !Z.eqb_neq. lia.
Qed.

(** Updating the element that holds bit [k], in a way that affects bit [k]
    only. *)
Lemma update_elem_bit b k f (g : bool -> bool) :
  wf b -> 0 <= k -> (Z.to_nat (k / 32) < length (bits b))%nat ->
  (forall e j, 0 <= j < 32 ->
     Z.testbit (f e) j = if j =? k mod 32 then g (Z.testbit e j) else Z.testbit e j) ->
  exists b', update_elem f (elem_idx k) b = Ok (tt, b') /\
    updated b b' (fun i => if i =? k then g (bit b i) else bit b i).
Proof.
  intros [Hc Hl Hw] Hk Hlt Hf. unfold update_elem, elem_idx, ELEM_BITS.
  destruct (lookup_lt_is_Some_2 _ _ Hlt) as [e He].
  unfold bind, get, of_option. rewrite He. cbn [ret put].
  eexists. split; [done|]. split_and!; [split| | |]; cbn [bit_cnt bits].
  - done.
  - by rewrite length_insert.
  - apply Forall_insert; [done|]. apply uwrap_range. lia.
  - done.
  - by rewrite length_insert.
  - intros i Hi. unfold bit. cbn [bits]. rewrite same_bit.
    destruct (Z.eqb_spec (i / 32) (k / 32)) as [E|E]; cbn [andb].
    + rewrite E, list_lookup_insert_eq, He by done. cbn.
      pose proof (Z.mod_pos_bound i 32). rewrite u32_testbit, Hf by lia. done.
    + rewrite list_lookup_insert_ne; [done|].
      assert (0 <= i / 32) by (apply Z.div_pos; lia). assert (0 <= k / 32) by (apply Z.div_pos; lia). lia.
Qed.

Section single.
Context (b : bitmap) (Hwf : wf b).

Lemma bitmap_mark_ok k : 0 <= k -> (Z.to_nat (k / 32) < length (bits b))%nat ->
  exists b', bitmap_mark k b = Ok (tt, b') /\
    updated b b' (fun i => if i =? k then true else bit b i).
Proof.
  intros Hk Hlt. apply (update_elem_bit b k _ (fun _ => true)); [done..|].
  intros e j Hj. rewrite Z.lor_spec, mask_testbit by lia.
  destruct (j =? k mod 32); by rewrite ?orb_true_r, ?orb_false_r.
Qed.

Lemma bitmap_reset_ok k : 0 <= k -> (Z.to_nat (k / 32) < length (bits b))%nat ->
  exists b', bitmap_reset k b = Ok (tt, b') /\
    updated b b' (fun i => if i =? k then false else bit b i).
Proof.
  intros Hk Hlt. apply (update_elem_bit b k _ (fun _ => false)); [done..|].
  intros e j Hj. rewrite Z.land_spec, u32_testbit, Z.lnot_spec, mask_testbit by lia.
  destruct (j =? k mod 32); by rewrite ?andb_false_r, ?andb_true_r.
Qed.

Lemma bitmap_flip_ok k : 0 <= k -> (Z.to_nat (k / 32) < length (bits b))%nat ->
  exists b', bitmap_flip k b = Ok (tt, b') /\
    updated b b' (fun i => if i =? k then negb (bit b i) else bit b i).
Proof.
  intros Hk Hlt. apply (update_elem_bit b k _ negb); [done..|].
  intros e j Hj. rewrite Z.lxor_spec, mask_testbit by lia.
  destruct (j =? k mod 32); by rewrite ?xorb_true_r, ?xorb_false_r.
Qed.

Lemma bitmap_set_ok k v : 0 <= k < bit_cnt b ->
  exists b', bitmap_set k v b = Ok (tt, b') /\
    updated b b' (fun i => if i =? k then v else bit b i).
Proof.
  intros Hk. pose proof (wf_index b k Hwf Hk) as Hlt. unfold bitmap_set, bind, gets.
  rewrite (proj2 (Z.ltb_lt _ _)) by lia. cbn [assertb ret].
  destruct v; [apply bitmap_mark_ok|apply bitmap_reset_ok]; lia || done.
Qed.

Lemma land_mask_testbit e k :
  negb (Z.land e (bit_mask k) =? 0) = Z.testbit e (k mod 32).
Proof.
  pose proof (Z.mod_pos_bound k 32).
  destruct (Z.testbit e (k mod 32)) eqn:E.
  - apply negb_true_iff, Z.eqb_neq. intros H0.
    apply (f_equal (fun z => Z.testbit z (k mod 32))) in H0.
    rewrite Z.land_spec, mask_testbit, E, Z.eqb_refl, Z.bits_0 in H0 by lia. done.
  - apply negb_false_iff, Z.eqb_eq, Z.bits_inj'. intros j Hj.
    rewrite Z.land_spec, mask_testbit, Z.bits_0 by lia.
    destruct (Z.eqb_spec j (k mod 32)) as [->|]; by rewrite ?E, ?andb_false_r.
Qed.

Lemma bitmap_test_ok k : 0 <= k < bit_cnt b -> bitmap_test k b = Ok (bit b k, b).
Proof.
  intros Hk. pose proof (wf_index b k Hwf Hk) as Hlt.
  destruct (lookup_lt_is_Some_2 _ _ Hlt) as [e He].
  unfold bitmap_test, read_elem, bind, gets, get, elem_idx, ELEM_BITS, of_option, bit.
  rewrite (proj2 (Z.ltb_lt _ _)) by lia. cbn [assertb ret].
  rewrite He. cbn [ret default]. by rewrite land_mask_testbit.
Qed.

Lemma assert_range_ok start cnt :
  0 <= start -> 0 <= cnt -> start + cnt <= bit_cnt b -> assert_range start cnt b = Ok (tt, b).
Proof.
  intros Hs Hc Hr. destruct (wf_cnt _ Hwf).
  unfold assert_range, bind, gets. rewrite uwrap_small by (unfold in_u; lia).
  rewrite !(proj2 (Z.leb_le _ _)) by lia. done.
Qed.

End single.

Section multiple.
Context (b : bitmap) (Hwf : wf b).

(** Every bit of the [cnt] bits from [start] on has the value [v]. *)
Definition group (b : bitmap) (start cnt : Z) (v : bool) : Prop :=
  forall i, start <= i < start + cnt -> bit b i = v.

Lemma not_group_exists start cnt : ~ group b start cnt false ->
  exists i, start <= i < start + cnt /\ bit b i = true.
Proof.
  intros Hn. destruct (decide (Exists (fun i => bit b i = true) (seqZ start cnt))) as [He|He].
  - apply list.Exists_exists in He as (i & Hi%elem_of_seqZ & ?). eauto.
  - destruct Hn. intros i Hi. destruct (bit b i) eqn:E; [|done]. destruct He.
    apply list.Exists_exists. exists i. by rewrite elem_of_seqZ.
Qed.

Definition in_range (start cnt i : Z) : bool := (start <=? i) && (i <? start + cnt).

Lemma updated_refl f : (forall i, 0 <= i -> f i = bit b i) -> updated b b f.
Proof. intros Hf. split_and!; try done. intros i Hi. by rewrite Hf. Qed.

Lemma bitmap_set_multiple_ok start cnt v :
  0 <= start -> 0 <= cnt -> start + cnt <= bit_cnt b ->
  exists b', bitmap_set_multiple start cnt v b = Ok (tt, b') /\
    updated b b' (fun i => if in_range start cnt i then v else bit b i).
Proof.
  intros Hs Hc Hr. destruct (wf_cnt _ Hwf) as [? Hmax].
  unfold bitmap_set_multiple, bind. rewrite (assert_range_ok b Hwf) by done.
  pose proof (wp_for_from
    (fun j t => updated b t (fun i => if in_range start j i then v else bit b i))
    (fun i => bitmap_set (u32 (start + i)) v) (Z.to_nat cnt) 0 b) as W.
  rewrite Z2Nat.id, Z.add_0_l in W by done.
  apply wp_ok in W as ([] & b' & E & W); [eauto| |].
  - apply updated_refl. intros i Hi. unfold in_range.
    destruct (Z.leb_spec start i), (Z.ltb_spec i (start + 0)); cbn; lia || done.
  - intros j t Hj (Hwt & Ht1 & Ht2 & Ht). rewrite uwrap_small by (unfold in_u; lia).
    destruct (bitmap_set_ok t Hwt (start + j) v) as (t' & E & Hwt' & Ht1' & Ht2' & Ht').
    { lia. }
    apply (wp_eq _ _ _ _ _ E). split_and!; [done|congruence|congruence|].
    intros i Hi. rewrite Ht', Ht by done. unfold in_range.
    destruct (Z.eqb_spec i (start + j)), (Z.leb_spec start i), (Z.ltb_spec i (start + j)),
      (Z.ltb_spec i (start + (j + 1))); cbn; lia || done.
Qed.

Lemma bitmap_contains_ok start cnt v :
  0 <= start -> 0 <= cnt -> start + cnt <= bit_cnt b ->
  exists c, bitmap_contains start cnt v b = Ok (c, b) /\ (c = false <-> group b start cnt (negb v)).
Proof.
  intros Hs Hc Hr. destruct (wf_cnt _ Hwf) as [? Hmax].
  unfold bitmap_contains, bind at 1. rewrite (assert_range_ok b Hwf) by done.
  destruct (find_from_pure
    (fun i => t ← bitmap_test (u32 (start + i)); ret (if eqb t v then Some tt else None))
    (fun i => if eqb (bit b (start + i)) v then Some tt else None) b (Z.to_nat cnt) 0)
    as [(j & r & Hj & Hf & _ & E) | [Hn E]]; rewrite ?Z2Nat.id, ?Z.add_0_l in * by done.
  - intros j Hj. rewrite uwrap_small by (unfold in_u; lia).
    unfold bind. by rewrite (bitmap_test_ok b Hwf) by lia.
  - exists true. unfold bind at 1. rewrite E. split; [done|]. split; [done|].
    intros Hg. specialize (Hg (start + j)). destruct (eqb_spec (bit b (start + j)) v); [|done].
    rewrite Hg in e by lia. by destruct v.
  - exists false. unfold bind at 1. rewrite E. split; [done|]. split; [|done]. intros _ i Hi.
    specialize (Hn (i - start)). replace (start + (i - start)) with i in Hn by lia.
    destruct (eqb_spec (bit b i) v) as [|Hne]; [exfalso; by discriminate Hn; lia|].
    destruct (bit b i), v; done.
Qed.

Lemma bitmap_count_ok start cnt v :
  0 <= start -> 0 <= cnt -> start + cnt <= bit_cnt b ->
  bitmap_count start cnt v b =
    Ok (Z.of_nat (length (filter (fun i => bit b i = v) (seqZ start cnt))), b).
Proof.
  intros Hs Hc Hr. destruct (wf_cnt _ Hwf) as [? Hmax].
  unfold bitmap_count, bind. rewrite (assert_range_ok b Hwf) by done.
  assert (G : forall n i acc, 0 <= i -> 0 <= acc -> i + Z.of_nat n = cnt -> acc + Z.of_nat n < 2 ^ 32 ->
    count_from n start i v acc b =
    Ok (acc + Z.of_nat (length (filter (fun i => bit b i = v) (seqZ (start + i) (Z.of_nat n)))), b)).
  { induction n as [|n IH]; intros i acc Hi Ha Hn Hb; cbn [count_from].
    - unfold ret. by rewrite Z.add_0_r.
    - unfold bind. rewrite uwrap_small by (unfold in_u; lia).
      rewrite (bitmap_test_ok b Hwf) by lia.
      rewrite (seqZ_cons (start + i)) by lia.
      replace (Z.pred (Z.of_nat (S n))) with (Z.of_nat n) by lia.
      replace (Z.succ (start + i)) with (start + (i + 1)) by lia.
      rewrite filter_cons. destruct (eqb_spec (bit b (start + i)) v).
      + rewrite uwrap_small by (unfold in_u; lia). rewrite IH by lia.
        rewrite decide_True by done. cbn [length]. do 2 f_equal. lia.
      + rewrite IH by lia. by rewrite decide_False. }
  rewrite G by lia. rewrite Z.add_0_r, Z2Nat.id by done. done.
Qed.

(** Scanning finds the first group. *)
Definition scan_result (start cnt : Z) (v : bool) (r : Z) : Prop :=
  (start <= r /\ r + cnt <= bit_cnt b /\ group b r cnt v /\
     forall k, start <= k < r -> ~ group b k cnt v) \/
  (r = BITMAP_ERROR /\ forall k, start <= k -> k + cnt <= bit_cnt b -> ~ group b k cnt v).

Lemma bitmap_scan_ok start cnt v :
  0 <= start <= bit_cnt b -> 0 <= cnt ->
  exists r, bitmap_scan start cnt v b = Ok (r, b) /\ scan_result start cnt v r.
Proof.
  intros Hs Hc. destruct (wf_cnt _ Hwf) as [? Hmax]. unfold bitmap_scan, bind at 1, gets.
  unfold bind at 1. rewrite (proj2 (Z.leb_le _ _)) by lia. cbn [assertb ret].
  destruct (Z.leb_spec cnt (bit_cnt b)) as [Hle|Hgt].
  2:{ exists BITMAP_ERROR. split; [done|]. right. split; [done|]. intros k Hk Hk'. lia. }
  set (f := fun i => match bitmap_contains i cnt (negb v) b with
                     | Ok (false, _) => Some i | _ => None end).
  destruct (find_from_pure
    (fun i => c ← bitmap_contains i cnt (negb v); ret (if c then None else Some i))
    f b (Z.to_nat (bit_cnt b - cnt - start + 1)) start)
    as [(j & r & Hj & Hf & Hk & E) | [Hn E]].
  - intros j Hj. unfold bind, f.
    destruct (bitmap_contains_ok j cnt (negb v)) as (c & Ec & _); [lia..|].
    rewrite Ec. by destruct c.
  - destruct (bitmap_contains_ok j cnt (negb v)) as (c & Ec & Hg); [lia..|].
    rewrite negb_involutive in Hg. unfold f in Hf. rewrite Ec in Hf. destruct c; [done|].
    injection Hf as <-. exists j. unfold bind at 1. rewrite E. split; [done|]. left.
    split_and!; [lia..|by apply Hg|]. intros k Hk' Hgk. specialize (Hk k Hk'). unfold f in Hk.
    destruct (bitmap_contains_ok k cnt (negb v)) as (c & Ec' & Hg'); [lia..|].
    rewrite negb_involutive in Hg'. rewrite Ec' in Hk. destruct c; [|done].
    apply Hg' in Hgk. done.
  - exists BITMAP_ERROR. unfold bind at 1. rewrite E. split; [done|]. right. split; [done|].
    intros k Hk Hk' Hgk. specialize (Hn k). unfold f in Hn.
    destruct (bitmap_contains_ok k cnt (negb v)) as (c & Ec' & Hg'); [lia..|].
    rewrite negb_involutive in Hg'. rewrite Ec' in Hn. apply Hg' in Hgk as ->.
    discriminate Hn. lia.
Qed.

End multiple.

Lemma wf_spec b : wf b <-> (0 <= bit_cnt b <= 2 ^ 32 - 32) /\
  elem_cnt (bit_cnt b) <= Z.of_nat (length (bits b)) /\ Forall (in_u 32) (bits b).
Proof. split; [intros []; tauto|intros (? & ? & ?); by split]. Qed.

#[global] Instance wf_dec b : Decision (wf b).
Proof.
  destruct (decide ((0 <= bit_cnt b <= 2 ^ 32 - 32) /\
    elem_cnt (bit_cnt b) <= Z.of_nat (length (bits b)) /\ Forall (in_u 32) (bits b))) as [H|H].
  - left. by apply wf_spec.
  - right. by rewrite wf_spec.
Defined.

Lemma byte_cnt_ok n : 0 <= n <= 2 ^ 32 - 32 -> byte_cnt n = 4 * elem_cnt n.
Proof.
  intros H. unfold byte_cnt. apply uwrap_small. rewrite elem_cnt_ok by done. unfold in_u.
  Z.div_mod_to_equations. lia.
Qed.

(** What the number of true bits of a range says about the range. *)
Lemma count_none b start cnt :
  length (filter (fun i => bit b i = true) (seqZ start cnt)) = 0%nat <-> group b start cnt false.
Proof.
  split.
  - intros H%nil_length_inv i Hi. destruct (bit b i) eqn:E; [|done].
    destruct (filter_nil_not_elem_of _ _ i H E). apply elem_of_seqZ. lia.
  - intros Hg. destruct (filter _ _) as [|i F] eqn:E; [done|].
    assert (Hi : i ∈ filter (fun i => bit b i = true) (seqZ start cnt)) by (rewrite E; left).
    apply list_elem_of_filter in Hi as [Ht Hi%elem_of_seqZ]. rewrite Hg in Ht by lia. done.
Qed.

Lemma count_full b start cnt : 0 <= cnt ->
  Z.of_nat (length (filter (fun i => bit b i = true) (seqZ start cnt))) = cnt <-> group b start cnt true.
Proof.
  intros Hc. assert (HL : length (seqZ start cnt) = Z.to_nat cnt) by apply length_seqZ. split.
  - intros H i Hi. destruct (bit b i) eqn:E; [done|].
    pose proof (length_filter_lt (fun i => bit b i = true) (seqZ start cnt) i) as Hlt.
    rewrite HL in Hlt. exfalso. assert (Z.of_nat (Z.to_nat cnt) = cnt) by lia.
    enough (bit b i <> true /\ i ∈ seqZ start cnt) as [? ?] by (specialize (Hlt ltac:(done) ltac:(done)); lia).
    split; [by rewrite E|]. apply elem_of_seqZ. lia.
  - intros Hg. rewrite list_filter_all, HL; [lia|].
    apply list.Forall_forall. intros i Hi%elem_of_seqZ. apply Hg. lia.
Qed.

(** ** Properties *)

(** bitmap_set() succeeds on every index of the bitmap and changes that
    bit only: bitmap_test() of any bit then returns the new value there and
    the old value elsewhere. *)
Theorem bitmap_set_test_correct (b : bitmap) (k j : Z) (v : bool) :
  wf b -> 0 <= k < bit_cnt b -> 0 <= j < bit_cnt b ->
  exists b', bitmap_set k v b = Ok (tt, b') /\ wf b' /\ bit_cnt b' = bit_cnt b /\
    bitmap_test j b = Ok (bit b j, b) /\
    bitmap_test j b' = Ok (if j =? k then v else bit b j, b').
Proof.
  intros Hwf Hk Hj. destruct (bitmap_set_ok b Hwf k v Hk) as (b' & E & Hw & Hc & _ & Hb).
  exists b'. split_and!; try done; [by apply bitmap_test_ok|].
  rewrite bitmap_test_ok by (done || congruence). by rewrite Hb by lia.
Qed.

Lemma bitmap_set_test_correct_witness :
  exists b', bitmap_set 33 true (mk_bitmap 40 [5; 0]) = Ok (tt, b') /\ wf b' /\
    bit_cnt b' = bit_cnt (mk_bitmap 40 [5; 0]) /\
    bitmap_test 2 (mk_bitmap 40 [5; 0]) = Ok (bit (mk_bitmap 40 [5; 0]) 2, mk_bitmap 40 [5; 0]) /\
    bitmap_test 2 b' = Ok (if 2 =? 33 then true else bit (mk_bitmap 40 [5; 0]) 2, b').
Proof. apply bitmap_set_test_correct; [decide_closed|cbn; lia..]. Defined.

(** The outcomes of bitmap_scan_and_flip(). *)
Lemma scan_and_flip_ok (b : bitmap) (start cnt : Z) (v : bool) :
  wf b -> 0 <= start <= bit_cnt b -> 0 <= cnt ->
  exists r b', bitmap_scan_and_flip start cnt v b = Ok (r, b') /\
    ((r <> BITMAP_ERROR /\ start <= r /\ r + cnt <= bit_cnt b /\ group b r cnt v /\
        (forall k, start <= k < r -> ~ group b k cnt v) /\
        updated b b' (fun i => if in_range r cnt i then negb v else bit b i)) \/
     (r = BITMAP_ERROR /\ b' = b /\
        forall k, start <= k -> k + cnt <= bit_cnt b -> ~ group b k cnt v)).
Proof.
  intros Hwf Hs Hc. destruct (wf_cnt _ Hwf) as [? Hmax].
  destruct (bitmap_scan_ok b Hwf start cnt v Hs Hc) as (r & E & [(H1 & H2 & H3 & H4) | [-> H1]]).
  - assert (r <> BITMAP_ERROR) by (unfold BITMAP_ERROR; lia).
    destruct (bitmap_set_multiple_ok b Hwf r cnt (negb v)) as (b' & E' & Hu); [lia..|].
    exists r, b'. unfold bitmap_scan_and_flip, bind. rewrite E, (proj2 (Z.eqb_neq _ _)) by done.
    cbn [negb]. rewrite E'. split; [done|]. left. by split_and!.
  - exists BITMAP_ERROR, b. unfold bitmap_scan_and_flip, bind. rewrite E, Z.eqb_refl. auto.
Qed.

(** bitmap_scan_and_flip() finds the first group of CNT bits equal to
    VALUE at or after START, flips exactly that group and returns its index;
    when there is no such group it returns BITMAP_ERROR and changes nothing. *)
Theorem bitmap_scan_and_flip_correct (b : bitmap) (start cnt : Z) (v : bool) :
  wf b -> 0 <= start <= bit_cnt b -> 0 <= cnt ->
  exists r b', bitmap_scan_and_flip start cnt v b = Ok (r, b') /\
    ((r <> BITMAP_ERROR /\ start <= r /\ r + cnt <= bit_cnt b /\ group b r cnt v /\
        (forall k, start <= k < r -> ~ group b k cnt v) /\
        updated b b' (fun i => if in_range r cnt i then negb v else bit b i)) \/
     (r = BITMAP_ERROR /\ b' = b /\
        forall k, start <= k -> k + cnt <= bit_cnt b -> ~ group b k cnt v)).
Proof. apply scan_and_flip_ok. Qed.

Lemma bitmap_scan_and_flip_correct_witness :
  exists r b', bitmap_scan_and_flip 1 3 false (mk_bitmap 40 [21; 0]) = Ok (r, b') /\
    ((r <> BITMAP_ERROR /\ 1 <= r /\ r + 3 <= bit_cnt (mk_bitmap 40 [21; 0]) /\
        group (mk_bitmap 40 [21; 0]) r 3 false /\
        (forall k, 1 <= k < r -> ~ group (mk_bitmap 40 [21; 0]) k 3 false) /\
        updated (mk_bitmap 40 [21; 0]) b'
          (fun i => if in_range r 3 i then negb false else bit (mk_bitmap 40 [21; 0]) i)) \/
     (r = BITMAP_ERROR /\ b' = mk_bitmap 40 [21; 0] /\
        forall k, 1 <= k -> k + 3 <= bit_cnt (mk_bitmap 40 [21; 0]) ->
          ~ group (mk_bitmap 40 [21; 0]) k 3 false)).
Proof. apply bitmap_scan_and_flip_correct; [decide_closed|cbn; lia..]. Defined.

(** bitmap_count() returns the number of bits of the range that have the
    given value; bitmap_all(), bitmap_any() and bitmap_none() decide whether
    that number is the whole range, positive or zero. *)
Theorem bitmap_count_correct (b : bitmap) (start cnt : Z) :
  wf b -> 0 <= start -> 0 <= cnt -> start + cnt <= bit_cnt b ->
  exists n, bitmap_count start cnt true b = Ok (n, b) /\
    n = Z.of_nat (length (filter (fun i => bit b i = true) (seqZ start cnt))) /\
    bitmap_all start cnt b = Ok (n =? cnt, b) /\
    bitmap_any start cnt b = Ok (0 <? n, b) /\ bitmap_none start cnt b = Ok (n =? 0, b).
Proof.
  intros Hwf Hs Hc Hr. eexists. split; [by apply bitmap_count_ok|]. split; [done|].
  unfold bitmap_all, bitmap_any, bitmap_none, bind.
  destruct (bitmap_contains_ok b Hwf start cnt false) as (c1 & E1 & G1); [done..|].
  destruct (bitmap_contains_ok b Hwf start cnt true) as (c2 & E2 & G2); [done..|].
  rewrite E1, E2. unfold ret. cbn [negb] in *.
  rewrite <- count_full in G1 by done. rewrite <- count_none in G2.
  set (n := length _) in *.
  destruct c1, c2, (Z.eqb_spec (Z.of_nat n) cnt), (Z.eqb_spec (Z.of_nat n) 0),
    (Z.ltb_spec 0 (Z.of_nat n)); try done; exfalso; intuition (discriminate || lia).
Qed.

Lemma bitmap_count_correct_witness :
  exists n, bitmap_count 1 6 true (mk_bitmap 40 [21; 0]) = Ok (n, mk_bitmap 40 [21; 0]) /\
    n = Z.of_nat (length (filter (fun i => bit (mk_bitmap 40 [21; 0]) i = true) (seqZ 1 6))) /\
    bitmap_all 1 6 (mk_bitmap 40 [21; 0]) = Ok (n =? 6, mk_bitmap 40 [21; 0]) /\
    bitmap_any 1 6 (mk_bitmap 40 [21; 0]) = Ok (0 <? n, mk_bitmap 40 [21; 0]) /\
    bitmap_none 1 6 (mk_bitmap 40 [21; 0]) = Ok (n =? 0, mk_bitmap 40 [21; 0]).
Proof. apply bitmap_count_correct; [decide_closed|cbn; lia..]. Defined.

(** The outcomes of bitmap_create(). *)
Lemma bitmap_create_ok (malloc : Z -> option (list Z)) (n : Z) :
  0 < n <= 2 ^ 32 - 32 ->
  (forall size blk, malloc size = Some blk ->
     size <= 4 * Z.of_nat (length blk) /\ Forall (in_u 32) blk) ->
  (exists b, bitmap_create malloc n = Ok (Some b) /\ wf b /\ bit_cnt b = n /\ group b 0 n false /\
     is_Some (malloc 8) /\ is_Some (malloc (byte_cnt n))) \/
  (bitmap_create malloc n = Ok None /\ (malloc 8 = None \/ malloc (byte_cnt n) = None)).
Proof.
  intros Hn Hm. unfold bitmap_create. destruct (malloc 8) as [hdr|] eqn:E8; [|by auto].
  destruct (malloc (byte_cnt n)) as [blk|] eqn:E.
  2:{ rewrite bool_decide_eq_false_2 by (by intros [? ?]).
      rewrite (proj2 (Z.eqb_neq n 0)) by lia. auto. }
  rewrite bool_decide_eq_true_2 by (by eexists). cbn [orb from_option]. unfold id.
  destruct (Hm _ _ E) as [Hsz Hw]. left.
  assert (Hwf : wf (mk_bitmap n blk)).
  { split; cbn [bit_cnt bits]; [lia| |done]. rewrite byte_cnt_ok in Hsz by lia. lia. }
  unfold run_on, bitmap_set_all, bitmap_size, bind, gets. cbn [bit_cnt].
  destruct (bitmap_set_multiple_ok _ Hwf 0 n false) as (b' & E' & Hw' & Hc & _ & Hb);
    [cbn [bit_cnt]; lia..|].
  rewrite E'. exists b'. split_and!; try done; [|by eexists..].
  intros i Hi. rewrite Hb by lia. unfold in_range.
  by rewrite (proj2 (Z.leb_le _ _)), (proj2 (Z.ltb_lt _ _)) by lia.
Qed.

(** bitmap_create() returns a well-formed bitmap of BIT_CNT bits, all
    false, whenever malloc() gives it memory for the structure and for
    BIT_CNT bits, whatever that memory holds; and a null pointer, without any
    assertion failing, when either allocation fails. *)
Theorem bitmap_create_correct (malloc : Z -> option (list Z)) (n : Z) :
  0 < n <= 2 ^ 32 - 32 ->
  (forall size blk, malloc size = Some blk ->
     size <= 4 * Z.of_nat (length blk) /\ Forall (in_u 32) blk) ->
  (exists b, bitmap_create malloc n = Ok (Some b) /\ wf b /\ bit_cnt b = n /\ group b 0 n false /\
     is_Some (malloc 8) /\ is_Some (malloc (byte_cnt n))) \/
  (bitmap_create malloc n = Ok None /\ (malloc 8 = None \/ malloc (byte_cnt n) = None)).
Proof. apply bitmap_create_ok. Qed.

(** A malloc() that hands out blocks of words that are all ones. *)
Definition ones_malloc (size : Z) : option (list Z) :=
  Some (replicate (Z.to_nat ((size + 3) / 4)) (2 ^ 32 - 1)).

Lemma bitmap_create_correct_witness :
  (exists b, bitmap_create ones_malloc 40 = Ok (Some b) /\ wf b /\ bit_cnt b = 40 /\
     group b 0 40 false /\ is_Some (ones_malloc 8) /\ is_Some (ones_malloc (byte_cnt 40))) \/
  (bitmap_create ones_malloc 40 = Ok None /\
     (ones_malloc 8 = None \/ ones_malloc (byte_cnt 40) = None)).
Proof.
  apply bitmap_create_correct; [lia|]. intros size blk [= <-]. split.
  - rewrite length_replicate. pose proof (Z.div_mod (size + 3) 4). pose proof (Z.mod_pos_bound (size + 3) 4). lia.
  - apply Forall_replicate. unfold in_u. lia.
Defined.
