(* ===== verification/Vaddr.v ===== *)
(** * threads/vaddr.h, threads/pte.h: virtual addresses and page table entries

    Addresses are 32-bit values; the accessors are the bit operations of the
    headers.  The lemmas give their arithmetic reading, which the page
    allocator and the page directory code rely on. *)

From Stdlib Require Import ZArith Lia.
From stdpp Require Import base numbers.
From S2P Require Import Prelude.

Open Scope Z_scope.

(** ** vaddr.h *)

Definition BITMASK (shift cnt : Z) : Z := u32 (Z.shiftl (u32 (Z.shiftl 1 cnt) - 1) shift).

Definition PGSHIFT : Z := 0.
Definition PGBITS : Z := 12.
Definition PGSIZE : Z := Z.shiftl 1 PGBITS.
Definition PGMASK : Z := BITMASK PGSHIFT PGBITS.

Definition pg_ofs (va : Z) : Z := Z.land va PGMASK.
Definition pg_no (va : Z) : Z := Z.shiftr va PGBITS.
Definition pg_round_up (va : Z) : Z := Z.land (u32 (va + PGSIZE - 1)) (u32 (Z.lnot PGMASK)).
Definition pg_round_down (va : Z) : Z := Z.land va (u32 (Z.lnot PGMASK)).

Definition LOADER_PHYS_BASE : Z := 0xc0000000.
Definition PHYS_BASE : Z := LOADER_PHYS_BASE.

Definition is_user_vaddr (vaddr : Z) : bool := vaddr <? PHYS_BASE.
Definition is_kernel_vaddr (vaddr : Z) : bool := PHYS_BASE <=? vaddr.

Definition ptov {S} (paddr : Z) : M S Z :=
  ASSERT (paddr <? PHYS_BASE);; ret (u32 (paddr + PHYS_BASE)).
Definition vtop {S} (vaddr : Z) : M S Z :=
  ASSERT (is_kernel_vaddr vaddr);; ret (u32 (vaddr - PHYS_BASE)).

(** ** pte.h *)

Definition PTSHIFT : Z := PGBITS.
Definition PTBITS : Z := 10.
Definition PTMASK : Z := BITMASK PTSHIFT PTBITS.
Definition PDSHIFT : Z := PTSHIFT + PTBITS.

Definition pt_no (va : Z) : Z := Z.shiftr (Z.land va PTMASK) PTSHIFT.
Definition pd_no (va : Z) : Z := Z.shiftr va PDSHIFT.

Definition PTE_FLAGS : Z := 0x00000fff.
Definition PTE_ADDR : Z := 0xfffff000.
Definition PTE_P : Z := 0x1.
Definition PTE_W : Z := 0x2.
Definition PTE_U : Z := 0x4.
Definition PTE_A : Z := 0x20.
Definition PTE_D : Z := 0x40.

Definition pde_create {S} (pt : Z) : M S Z :=
  ASSERT (pg_ofs pt =? 0);;
  p ← vtop pt;
  ret (Z.lor (Z.lor (Z.lor p PTE_U) PTE_P) PTE_W).

Definition pde_get_pt {S} (pde : Z) : M S Z :=
  ASSERT (negb (Z.land pde PTE_P =? 0));; ptov (Z.land pde PTE_ADDR).

Definition pte_create_kernel {S} (page : Z) (writable : bool) : M S Z :=
  ASSERT (pg_ofs page =? 0);;
  p ← vtop page;
  ret (Z.lor (Z.lor p PTE_P) (if writable then PTE_W else 0)).

Definition pte_create_user {S} (page : Z) (writable : bool) : M S Z :=
  p ← pte_create_kernel page writable; ret (Z.lor p PTE_U).

Definition pte_get_page {S} (pte : Z) : M S Z := ptov (Z.land pte PTE_ADDR).

(** ** Arithmetic readings *)

Lemma PGMASK_ones : PGMASK = Z.ones 12.
Proof. reflexivity. Qed.

Lemma pg_ofs_mod va : pg_ofs va = va mod 4096.
Proof. unfold pg_ofs. rewrite PGMASK_ones. by apply Z.land_ones. Qed.

Lemma pg_no_div va : pg_no va = va / 4096.
Proof. unfold pg_no. rewrite Z.shiftr_div_pow2; done. Qed.

(** Clearing the low bits of a 32-bit value. *)
Lemma land_not_mask va : in_u 32 va -> Z.land va (u32 (Z.lnot PGMASK)) = va / 4096 * 4096.
Proof.
  intros H. change (u32 (Z.lnot PGMASK)) with (Z.shiftl (Z.ones 20) 12).
  change 4096 with (2 ^ 12). rewrite <- Z.shiftr_div_pow2, <- Z.shiftl_mul_pow2 by lia.
  apply Z.bits_inj'. intros k Hk. rewrite Z.land_spec, !Z.shiftl_spec by lia.
  destruct (Z.ltb_spec k 12).
  { rewrite !(Z.testbit_neg_r _ (k - 12)) by lia. by rewrite andb_false_r. }
  rewrite Z.shiftr_spec by lia. replace (k - 12 + 12) with k by lia.
  destruct (Z.ltb_spec k 32).
  - rewrite Z.ones_spec_low by lia. by rewrite andb_true_r.
  - rewrite Z.ones_spec_high by lia. rewrite andb_false_r. symmetry.
    rewrite <- (uwrap_small 32 va) by done. unfold uwrap. apply Z.mod_pow2_bits_high. lia.
Qed.

Lemma pg_round_down_ok va : in_u 32 va -> pg_round_down va = va / 4096 * 4096.
Proof. apply land_not_mask. Qed.

Lemma pg_round_up_ok va : 0 <= va <= 2 ^ 32 - 4096 ->
  pg_round_up va = (va + 4095) / 4096 * 4096.
Proof.
  intros H. unfold pg_round_up. change PGSIZE with 4096.
  rewrite land_not_mask by (apply uwrap_range; lia).
  rewrite uwrap_small by (unfold in_u; lia). do 2 f_equal. lia.
Qed.
