(* ===== verification/Palloc.v ===== *)
(** * threads/palloc.c: the page allocator

    A pool is its base address and its bitmap of used pages.  This file holds
    what the allocator does to the pools; taking the pool's lock around an
    allocation is in Kernel, where threads are.  The theorems show that
    allocation hands out free, page-aligned pages inside the pool, that
    freeing undoes it, and that palloc_init() makes two disjoint pools. *)

From Stdlib Require Import ZArith Lia.
From stdpp Require Import base numbers list.
From S2P Require Import Prelude Bitmap Vaddr.

Open Scope Z_scope.

(** ** Data *)

Record pool := mk_pool { base : Z; used_map : bitmap }.
Record pools := mk_pools { kernel_pool : pool; user_pool : pool }.

Definition PAL_ASSERT : Z := 1.
Definition PAL_ZERO : Z := 2.
Definition PAL_USER : Z := 4.

Definition on_map {A} (m : M bitmap A) : M pool A :=
  zoom used_map (fun b p => mk_pool (base p) b) m.
Definition on_kernel {A} (m : M pool A) : M pools A :=
  zoom kernel_pool (fun p ps => mk_pools p (user_pool ps)) m.
Definition on_user {A} (m : M pool A) : M pools A :=
  zoom user_pool (fun p ps => mk_pools (kernel_pool ps) p) m.

(** [flags & PAL_USER ? &user_pool : &kernel_pool]. *)
Definition on_pool {A} (flags : Z) (m : M pool A) : M pools A :=
  if Z.land flags PAL_USER =? 0 then on_kernel m else on_user m.

(** ** Allocation and release *)

(** The address of the pages that palloc_get_multiple() takes from a pool
    while it holds the pool's lock, null if there are too few. *)
Definition pool_get (page_cnt : Z) : M pool Z :=
  page_idx ← on_map (bitmap_scan_and_flip 0 page_cnt false);
  b ← gets base;
  ret (if negb (page_idx =? BITMAP_ERROR) then u32 (b + PGSIZE * page_idx) else NULL).

Definition page_from_pool (p : pool) (page : Z) : bool :=
  let page_no := pg_no page in
  let start_page := pg_no (base p) in
  let end_page := u32 (start_page + bit_cnt (used_map p)) in
  (start_page <=? page_no) && (page_no <? end_page).

(** What palloc_free_multiple() does to the pool the pages are from. *)
Definition pool_free (pages page_cnt : Z) : M pool unit :=
  b ← gets base;
  let page_idx := u32 (pg_no pages - pg_no b) in
  all ← on_map (bitmap_all page_idx page_cnt);
  ASSERT all;;
  on_map (bitmap_set_multiple page_idx page_cnt false).

Definition palloc_free_multiple (pages page_cnt : Z) : M pools unit :=
  ASSERT (pg_ofs pages =? 0);;
  if (pages =? NULL) || (page_cnt =? 0) then ret tt else
  ps ← get;
  if page_from_pool (kernel_pool ps) pages then on_kernel (pool_free pages page_cnt)
  else if page_from_pool (user_pool ps) pages then on_user (pool_free pages page_cnt)
  else fail AssertFail.

Definition palloc_free_page (page : Z) : M pools unit := palloc_free_multiple page 1.

(** ** Initialisation *)

(** [block] is the content of memory, in 32-bit words, from [base0] on. *)
Definition init_pool (base0 page_cnt : Z) (block : list Z) : outcome pool :=
  let bm_pages := DIV_ROUND_UP (bitmap_buf_size page_cnt) PGSIZE in
  if page_cnt <? bm_pages then Err AssertFail else
  match bitmap_create_in_buf (u32 (page_cnt - bm_pages)) block (u32 (bm_pages * PGSIZE)) with
  | Ok b => Ok (mk_pool (u32 (base0 + bm_pages * PGSIZE)) b)
  | Err e => Err e
  end.

Definition palloc_init (ram_pages kernel_end user_page_limit : Z) (memory : Z -> list Z) :
  outcome pools :=
  let free_start := pg_round_up kernel_end in
  match ptov (u32 (ram_pages * PGSIZE)) tt with
  | Err e => Err e
  | Ok (free_end, _) =>
    let free_pages := u32 (Z.quot (i32 (free_end - free_start)) PGSIZE) in
    let half := free_pages / 2 in
    let user_pages := if user_page_limit <? half then user_page_limit else half in
    let kernel_pages := u32 (free_pages - user_pages) in
    match init_pool free_start kernel_pages (memory free_start) with
    | Err e => Err e
    | Ok kp =>
      let user_start := u32 (free_start + kernel_pages * PGSIZE) in
      match init_pool user_start user_pages (memory user_start) with
      | Err e => Err e
      | Ok up => Ok (mk_pools kp up)
      end
    end
  end.

(** ** Well-formed pools *)

(** The pages of a pool lie in the address space, from an aligned base on. *)
Record pool_wf (p : pool) : Prop := {
  pool_map : wf (used_map p);
  pool_aligned : base p mod 4096 = 0;
  pool_pos : 0 < base p;
  pool_fits : base p + 4096 * bit_cnt (used_map p) <= 2 ^ 32 }.

#[global] Instance pool_wf_dec p : Decision (pool_wf p).
Proof.
  destruct (decide (wf (used_map p) /\ base p mod 4096 = 0 /\ 0 < base p /\
    base p + 4096 * bit_cnt (used_map p) <= 2 ^ 32)) as [(? & ? & ? & ?)|Hn].
  - by left.
  - right. intros []. by apply Hn.
Defined.

(** The address of page [i], and whether it is in use. *)
Definition page (p : pool) (i : Z) : Z := base p + 4096 * i.
Definition used (p : pool) (i : Z) : bool := bit (used_map p) i.

(** [p'] is [p] with the pages given by [f] in use. *)
Definition pool_updated (p p' : pool) (f : Z -> bool) : Prop :=
  base p' = base p /\ updated (used_map p) (used_map p') f.

Lemma pool_updated_wf p p' f : pool_wf p -> pool_updated p p' f -> pool_wf p'.
Proof. intros [] (Eb & Hw & Ec & _). split; rewrite ?Eb, ?Ec; done. Qed.

Lemma page_no p i : pool_wf p -> pg_no (page p i) = pg_no (base p) + i.
Proof.
  intros [_ Ha _ _]. rewrite !pg_no_div. unfold page.
  rewrite (Z.mul_comm 4096), Z.div_add by lia. done.
Qed.

Lemma page_aligned p i : pool_wf p -> page p i mod 4096 = 0.
Proof. intros [_ Ha _ _]. unfold page. by rewrite Z.mul_comm, Z.mod_add by lia. Qed.

Lemma page_range p i : pool_wf p -> 0 <= i < bit_cnt (used_map p) ->
  0 < page p i /\ page p i + 4096 <= 2 ^ 32.
Proof. intros [_ _ Hp Hf] Hi. unfold page. lia. Qed.

Lemma base_no p : pool_wf p -> pg_no (base p) * 4096 = base p.
Proof.
  intros [_ Ha _ _]. rewrite pg_no_div. pose proof (Z.div_mod (base p) 4096). lia.
Qed.

Lemma page_from_pool_ok p i : pool_wf p -> 0 <= i < bit_cnt (used_map p) ->
  page_from_pool p (page p i) = true.
Proof.
  intros Hp Hi. unfold page_from_pool. rewrite page_no by done.
  pose proof (base_no p Hp). destruct Hp as [_ _ Hpos Hf].
  rewrite uwrap_small by (unfold in_u; lia).
  by rewrite (proj2 (Z.leb_le _ _)), (proj2 (Z.ltb_lt _ _)) by lia.
Qed.

Lemma on_map_ok {A} (m : M bitmap A) p a b' :
  m (used_map p) = Ok (a, b') -> on_map m p = Ok (a, mk_pool (base p) b').
Proof. unfold on_map, zoom. by intros ->. Qed.

(** Allocation: the first group of free pages, or null when there is none. *)
Lemma pool_get_ok p cnt : pool_wf p -> 0 < cnt ->
  (exists i p', pool_get cnt p = Ok (page p i, p') /\
     0 <= i /\ i + cnt <= bit_cnt (used_map p) /\
     (forall j, i <= j < i + cnt -> used p j = false) /\
     pool_updated p p' (fun j => if in_range i cnt j then true else used p j)) \/
  (pool_get cnt p = Ok (NULL, p) /\
     forall i, 0 <= i -> i + cnt <= bit_cnt (used_map p) ->
       ~ group (used_map p) i cnt false).
Proof.
  intros Hp Hc. pose proof (pool_map p Hp) as Hw. destruct (wf_cnt _ Hw) as [H0 Hmax].
  destruct (bitmap_scan_ok _ Hw 0 cnt false) as (r & E & [(H1 & H2 & H3 & H4) | [-> H1]]); [lia..| |].
  - left. destruct (bitmap_set_multiple_ok _ Hw r cnt true) as (b' & E' & Hu); [lia..|].
    exists r, (mk_pool (base p) b'). split; [|by split_and!].
    unfold pool_get, bind at 1. erewrite on_map_ok.
    2:{ unfold bitmap_scan_and_flip, bind. rewrite E.
        rewrite (proj2 (Z.eqb_neq r BITMAP_ERROR)) by (unfold BITMAP_ERROR; lia).
        cbn [negb]. rewrite E'. done. }
    unfold bind, gets, ret. rewrite (proj2 (Z.eqb_neq r BITMAP_ERROR)) by (unfold BITMAP_ERROR; lia).
    cbn [negb base]. change PGSIZE with 4096. destruct Hp as [_ _ Hpos Hf].
    rewrite uwrap_small by (unfold in_u; lia). done.
  - right. split; [|intros i Hi Hn; by apply H1].
    unfold pool_get, bind at 1. erewrite on_map_ok.
    2:{ unfold bitmap_scan_and_flip, bind. rewrite E, Z.eqb_refl. done. }
    unfold bind, gets, ret. rewrite Z.eqb_refl. by destruct p.
Qed.

(** Release of a group of used pages. *)
Lemma pool_free_ok p i cnt : pool_wf p -> 0 <= i -> 0 < cnt -> i + cnt <= bit_cnt (used_map p) ->
  (forall j, i <= j < i + cnt -> used p j = true) ->
  exists p', pool_free (page p i) cnt p = Ok (tt, p') /\
    pool_updated p p' (fun j => if in_range i cnt j then false else used p j).
Proof.
  intros Hp Hi Hc Hr Hu. pose proof (pool_map p Hp) as Hw. destruct (wf_cnt _ Hw) as [H0 Hmax].
  destruct (bitmap_contains_ok _ Hw i cnt false) as (c & E & Hg); [lia..|].
  rewrite (proj2 Hg) in E by exact Hu.
  destruct (bitmap_set_multiple_ok _ Hw i cnt false) as (b' & E' & Hupd); [lia..|].
  exists (mk_pool (base p) b'). split; [|by split].
  unfold pool_free, bind at 1, gets. rewrite page_no by done.
  replace (pg_no (base p) + i - pg_no (base p)) with i by lia.
  rewrite uwrap_small by (unfold in_u; lia).
  unfold bind at 1. erewrite on_map_ok by (unfold bitmap_all, bind; rewrite E; done).
  cbn [negb]. unfold bind, assertb, ret. destruct p. by apply on_map_ok.
Qed.

(** Two pools whose pages do not overlap. *)
Definition pools_wf (ps : pools) : Prop :=
  pool_wf (kernel_pool ps) /\ pool_wf (user_pool ps) /\
  base (kernel_pool ps) + 4096 * bit_cnt (used_map (kernel_pool ps)) <= base (user_pool ps).

#[global] Instance pools_wf_dec ps : Decision (pools_wf ps).
Proof. unfold pools_wf. apply _. Defined.

Lemma user_page_not_kernel ps i : pools_wf ps -> 0 <= i < bit_cnt (used_map (user_pool ps)) ->
  page_from_pool (kernel_pool ps) (page (user_pool ps) i) = false.
Proof.
  intros (Hk & Hu & Hd) Hi. unfold page_from_pool. rewrite page_no by done.
  pose proof (base_no _ Hk). pose proof (base_no _ Hu). destruct Hk as [Hkm _ Hkp Hkf].
  destruct (wf_cnt _ Hkm). rewrite uwrap_small by (unfold in_u; lia).
  apply andb_false_iff. right. apply Z.ltb_ge. lia.
Qed.

Lemma palloc_free_kernel ps i cnt : pools_wf ps ->
  0 <= i -> 0 < cnt -> i + cnt <= bit_cnt (used_map (kernel_pool ps)) ->
  (forall j, i <= j < i + cnt -> used (kernel_pool ps) j = true) ->
  exists p', palloc_free_multiple (page (kernel_pool ps) i) cnt ps = Ok (tt, mk_pools p' (user_pool ps)) /\
    pool_updated (kernel_pool ps) p'
      (fun j => if in_range i cnt j then false else used (kernel_pool ps) j).
Proof.
  intros Hps Hi Hc Hr Hu. pose proof (proj1 Hps) as Hk.
  destruct (pool_free_ok _ i cnt Hk Hi Hc Hr Hu) as (p' & E & Hupd). exists p'. split; [|done].
  unfold palloc_free_multiple. rewrite pg_ofs_mod, page_aligned by done.
  unfold bind at 1. cbn [Z.eqb assertb ret].
  rewrite (proj2 (Z.eqb_neq _ NULL)) by (unfold NULL; pose proof (page_range _ i Hk); lia).
  rewrite (proj2 (Z.eqb_neq cnt 0)) by lia. cbn [orb]. unfold bind, get.
  rewrite page_from_pool_ok by (done || lia). unfold on_kernel, zoom. by rewrite E.
Qed.

Lemma palloc_free_user ps i cnt : pools_wf ps ->
  0 <= i -> 0 < cnt -> i + cnt <= bit_cnt (used_map (user_pool ps)) ->
  (forall j, i <= j < i + cnt -> used (user_pool ps) j = true) ->
  exists p', palloc_free_multiple (page (user_pool ps) i) cnt ps = Ok (tt, mk_pools (kernel_pool ps) p') /\
    pool_updated (user_pool ps) p'
      (fun j => if in_range i cnt j then false else used (user_pool ps) j).
Proof.
  intros Hps Hi Hc Hr Hu. pose proof (proj1 (proj2 Hps)) as Hk.
  destruct (pool_free_ok _ i cnt Hk Hi Hc Hr Hu) as (p' & E & Hupd). exists p'. split; [|done].
  unfold palloc_free_multiple. rewrite pg_ofs_mod, page_aligned by done.
  unfold bind at 1. cbn [Z.eqb assertb ret].
  rewrite (proj2 (Z.eqb_neq _ NULL)) by (unfold NULL; pose proof (page_range _ i Hk); lia).
  rewrite (proj2 (Z.eqb_neq cnt 0)) by lia. cbn [orb]. unfold bind, get.
  rewrite user_page_not_kernel, page_from_pool_ok by (done || lia). unfold on_user, zoom. by rewrite E.
Qed.

(** ** Correctness *)

(** The pool that [flags] asks for, and the other one. *)
Definition pool_of (flags : Z) (ps : pools) : pool :=
  if Z.land flags PAL_USER =? 0 then kernel_pool ps else user_pool ps.

(** The same pages in use. *)
Definition same_pool (p p' : pool) : Prop :=
  base p' = base p /\ bit_cnt (used_map p') = bit_cnt (used_map p) /\
  forall i, 0 <= i < bit_cnt (used_map p) -> used p' i = used p i.

Lemma same_pool_refl p : same_pool p p.
Proof. done. Qed.

(** Taking a group of free pages and giving it back. *)
Lemma same_pool_undone p p1 p2 i cnt :
  pool_updated p p1 (fun j => if in_range i cnt j then true else used p j) ->
  pool_updated p1 p2 (fun j => if in_range i cnt j then false else used p1 j) ->
  (forall j, i <= j < i + cnt -> used p j = false) -> same_pool p p2.
Proof.
  intros (B1 & W1 & C1 & _ & U1) (B2 & W2 & C2 & _ & U2) Hf.
  split; [congruence|]. split; [congruence|]. intros j Hj. unfold used in *. rewrite U2, U1 by lia.
  pose proof (Hf j) as Hfj. unfold in_range. destruct (Z.leb_spec i j), (Z.ltb_spec j (i + cnt)); cbn; auto.
  symmetry. apply Hfj. lia.
Qed.

(** C12: allocating a group of pages from either pool yields aligned, non-null
    pages that were free and are no longer, and palloc_free_multiple() on them
    succeeds and restores both pools; when the result is null nothing
    changed and the pool has no group of that many free pages. *)
Theorem palloc_round_trip (ps : pools) (flags cnt : Z) : pools_wf ps -> 0 < cnt ->
  (exists i ps1 ps2, on_pool flags (pool_get cnt) ps = Ok (page (pool_of flags ps) i, ps1) /\
     page (pool_of flags ps) i <> NULL /\ pg_ofs (page (pool_of flags ps) i) = 0 /\
     (forall j, i <= j < i + cnt ->
        used (pool_of flags ps) j = false /\ used (pool_of flags ps1) j = true) /\
     pools_wf ps1 /\
     palloc_free_multiple (page (pool_of flags ps) i) cnt ps1 = Ok (tt, ps2) /\
     same_pool (kernel_pool ps) (kernel_pool ps2) /\ same_pool (user_pool ps) (user_pool ps2)) \/
  (on_pool flags (pool_get cnt) ps = Ok (NULL, ps) /\
     forall i, 0 <= i -> i + cnt <= bit_cnt (used_map (pool_of flags ps)) ->
       exists j, i <= j < i + cnt /\ used (pool_of flags ps) j = true).
Proof.
  intros Hps Hc. pose proof Hps as (Hk & Hu & Hd).
  assert (Hp : pool_wf (pool_of flags ps)) by (unfold pool_of; by destruct (_ =? _)).
  destruct (pool_get_ok _ cnt Hp Hc) as [(i & p1 & E & H0 & H1 & Hf & Hupd) | [E Hn]].
  - left. exists i. pose proof (page_range _ i Hp ltac:(lia)).
    assert (Hus : forall j, i <= j < i + cnt -> used p1 j = true).
    { intros j Hj. destruct Hupd as (_ & _ & _ & _ & U). unfold used. rewrite U by lia. unfold in_range.
      by rewrite (proj2 (Z.leb_le _ _)), (proj2 (Z.ltb_lt _ _)) by lia. }
    pose proof (pool_updated_wf _ _ _ Hp Hupd) as Hp1. pose proof Hupd as (Eb & _ & Ec & _).
    assert (Epg : page p1 i = page (pool_of flags ps) i) by (unfold page; by rewrite Eb).
    pose proof (page_aligned _ i Hp) as Hal. rewrite <- pg_ofs_mod in Hal.
    unfold pool_of, on_pool in *. destruct (Z.land flags PAL_USER =? 0).
    + assert (Hps1 : pools_wf (mk_pools p1 (user_pool ps))).
      { split_and!; cbn [kernel_pool user_pool]; [done|done|]. by rewrite Eb, Ec. }
      destruct (palloc_free_kernel _ i cnt Hps1 H0 Hc) as (p2 & E2 & Hupd2); [cbn; lia|done|].
      cbn [kernel_pool user_pool] in *. rewrite Epg in E2.
      exists (mk_pools p1 (user_pool ps)), (mk_pools p2 (user_pool ps)).
      split; [unfold on_kernel, zoom; by rewrite E|]. split; [unfold NULL; lia|].
      split; [done|]. split; [auto|]. split; [done|]. split; [done|].
      split; [by apply (same_pool_undone _ p1 _ i cnt)|done].
    + assert (Hps1 : pools_wf (mk_pools (kernel_pool ps) p1)).
      { split_and!; cbn [kernel_pool user_pool]; [done|done|]. by rewrite Eb. }
      destruct (palloc_free_user _ i cnt Hps1 H0 Hc) as (p2 & E2 & Hupd2); [cbn; lia|done|].
      cbn [kernel_pool user_pool] in *. rewrite Epg in E2.
      exists (mk_pools (kernel_pool ps) p1), (mk_pools (kernel_pool ps) p2).
      split; [unfold on_user, zoom; by rewrite E|]. split; [unfold NULL; lia|].
      split; [done|]. split; [auto|]. split; [done|]. split; [done|].
      split; [done|by apply (same_pool_undone _ p1 _ i cnt)].
  - right. split.
    + unfold pool_of, on_pool in *. destruct ps, (Z.land flags PAL_USER =? 0); unfold on_kernel, on_user, zoom; by rewrite E.
    + intros i Hi Hr. by apply not_group_exists, Hn.
Qed.

Lemma palloc_round_trip_witness :
  let ps := mk_pools (mk_pool 0xc0022000 (mk_bitmap 7 [5])) (mk_pool 0xc0030000 (mk_bitmap 3 [0])) in
  exists ps1 ps2, on_pool PAL_ZERO (pool_get 2) ps = Ok (0xc0025000, ps1) /\
    palloc_free_multiple 0xc0025000 2 ps1 = Ok (tt, ps2) /\
    same_pool (kernel_pool ps) (kernel_pool ps2).
Proof.
  intros ps.
  assert (Hp : exists ps1, on_pool PAL_ZERO (pool_get 2) ps = Ok (0xc0025000, ps1))
    by (eexists; vm_compute; reflexivity).
  destruct Hp as [ps1' Hp].
  destruct (palloc_round_trip ps PAL_ZERO 2 ltac:(decide_closed) ltac:(lia))
    as [(i & ps1 & ps2 & E & _ & _ & _ & _ & E2 & Hk & _) | [E _]]; rewrite Hp in E.
  - injection E as Ei Ep. rewrite <- Ei in E2. exists ps1, ps2.
    split; [rewrite <- Ep; exact Hp|]. split; [exact E2|exact Hk].
  - discriminate.
Defined.

(** *** Initialisation *)

(** The pages that the bitmap of a pool of [n] pages takes. *)
Definition map_pages (n : Z) : Z := (8 + 4 * ((n + 31) / 32) + 4095) / 4096.

Lemma map_pages_ok n : 0 <= n <= 2 ^ 18 ->
  DIV_ROUND_UP (bitmap_buf_size n) PGSIZE = map_pages n /\ bitmap_buf_size n <= 4096 * map_pages n.
Proof.
  intros H. pose proof (Z.div_le_mono (n + 31) (2 ^ 18 + 31) 32 ltac:(lia) ltac:(lia)) as Hb.
  pose proof (Z.div_pos (n + 31) 32 ltac:(lia) ltac:(lia)).
  change ((2 ^ 18 + 31) / 32) with 8192 in Hb.
  assert (E : bitmap_buf_size n = 8 + 4 * ((n + 31) / 32)).
  { unfold bitmap_buf_size. rewrite byte_cnt_ok, elem_cnt_ok by lia. apply uwrap_small. unfold in_u. lia. }
  rewrite E. unfold DIV_ROUND_UP, map_pages. change PGSIZE with 4096.
  rewrite uwrap_small by (unfold in_u; lia). split; [f_equal; lia|].
  pose proof (Z.div_mod (8 + 4 * ((n + 31) / 32) + 4095) 4096 ltac:(lia)).
  pose proof (Z.mod_pos_bound (8 + 4 * ((n + 31) / 32) + 4095) 4096 ltac:(lia)). lia.
Qed.

Lemma map_pages_bound n : 1 <= n <= 2 ^ 18 -> 1 <= map_pages n <= n /\ map_pages n <= 9.
Proof.
  intros H. unfold map_pages. Z.to_euclidean_division_equations. lia.
Qed.

(** The whole pool is free. *)
Definition all_free (p : pool) : Prop :=
  forall i, 0 <= i < bit_cnt (used_map p) -> used p i = false.

(** A pool of [n] pages from [base0] on, minus those of its bitmap; [block]
    reaches over nine pages at least, all that a bitmap can take. *)
Lemma init_pool_ok base0 n block : 1 <= n <= 2 ^ 18 -> 0 < base0 -> base0 mod 4096 = 0 ->
  base0 + 4096 * n <= 2 ^ 32 - 4096 -> 9 * 1024 <= Z.of_nat (length block) -> Forall (in_u 32) block ->
  exists p, init_pool base0 n block = Ok p /\ pool_wf p /\ all_free p /\
    base p = base0 + 4096 * map_pages n /\ bit_cnt (used_map p) = n - map_pages n.
Proof.
  intros Hn Hpos Hal Hfit Hlen Hbl. destruct (map_pages_ok n ltac:(lia)) as [Edr Hbuf].
  destruct (map_pages_bound n Hn) as [[Hm1 Hmn] Hm9]. unfold init_pool. rewrite Edr.
  rewrite (proj2 (Z.ltb_ge _ _)) by lia. change PGSIZE with 4096.
  rewrite !uwrap_small by (unfold in_u; lia). unfold bitmap_create_in_buf.
  set (k := n - map_pages n). assert (Hk : 0 <= k < n) by (unfold k; lia).
  destruct (map_pages_ok k ltac:(lia)) as [_ Hbk].
  assert (Hmono : map_pages k <= map_pages n).
  { unfold map_pages. apply Z.div_le_mono; [lia|]. pose proof (Z.div_le_mono (k + 31) (n + 31) 32). lia. }
  rewrite (proj2 (Z.leb_le _ _)) by lia.
  assert (Hwf : wf (mk_bitmap k (drop 2 block))).
  { split; cbn [bit_cnt bits]; [lia| |by apply Forall_drop]. rewrite elem_cnt_ok, length_drop by lia.
    pose proof (Z.div_le_mono (k + 31) (2 ^ 18 + 31) 32 ltac:(lia) ltac:(lia)) as Hb.
    change ((2 ^ 18 + 31) / 32) with 8192 in Hb. lia. }
  unfold run_on, bitmap_set_all, bitmap_size, bind, gets. cbn [bit_cnt].
  destruct (bitmap_set_multiple_ok _ Hwf 0 k false) as (b' & E' & Hw' & Hc & _ & Hb);
    [cbn [bit_cnt]; lia..|]. rewrite E'. cbn [bit_cnt] in Hc. eexists. split; [done|].
  split; [split|split; [|split]]; cbn [base used_map]; rewrite ?Hc; try done; try lia.
  - by rewrite Z.mod_add by lia.
  - intros i Hi. cbn [used_map] in Hi. rewrite Hc in Hi. unfold used. cbn [used_map]. rewrite Hb by lia.
    unfold in_range. by rewrite (proj2 (Z.leb_le _ _)), (proj2 (Z.ltb_lt _ _)) by lia.
Qed.

(** palloc_init() divides the memory between the end of the kernel and the
    end of RAM into two pools that are well-formed, do not overlap, lie inside
    that memory and are free throughout, the user pool having at most
    [user_page_limit] pages. *)
Theorem palloc_init_correct (ram_pages kernel_end user_page_limit : Z) (memory : Z -> list Z) :
  PHYS_BASE <= kernel_end -> kernel_end + 3 * 4096 <= PHYS_BASE + 4096 * ram_pages ->
  PHYS_BASE + 4096 * ram_pages <= 2 ^ 32 - 4096 -> 1 <= user_page_limit ->
  (forall a, 9 * 1024 <= Z.of_nat (length (memory a)) /\ Forall (in_u 32) (memory a)) ->
  exists ps, palloc_init ram_pages kernel_end user_page_limit memory = Ok ps /\
    pools_wf ps /\ all_free (kernel_pool ps) /\ all_free (user_pool ps) /\
    kernel_end <= base (kernel_pool ps) /\
    base (user_pool ps) + 4096 * bit_cnt (used_map (user_pool ps)) <= PHYS_BASE + 4096 * ram_pages /\
    bit_cnt (used_map (user_pool ps)) <= user_page_limit.
Proof.
  intros Hke Hram Hmax Hlim Hmem. unfold PHYS_BASE, LOADER_PHYS_BASE in *. unfold palloc_init.
  rewrite pg_round_up_ok by lia. set (fs := (kernel_end + 4095) / 4096 * 4096).
  assert (Hfs : kernel_end <= fs < kernel_end + 4096).
  { unfold fs. Z.to_euclidean_division_equations. lia. }
  assert (Hal : fs mod 4096 = 0) by (apply Z.mod_mul; lia).
  change PGSIZE with 4096. rewrite (uwrap_small 32 (ram_pages * 4096)) by (unfold in_u; lia).
  unfold ptov, bind, assertb, ret. unfold PHYS_BASE, LOADER_PHYS_BASE.
  rewrite (proj2 (Z.ltb_lt _ _)) by lia. rewrite (uwrap_small 32 (_ + 0xc0000000)) by (unfold in_u; lia).
  set (fe := ram_pages * 4096 + 0xc0000000). assert (Hfe : fe mod 4096 = 0).
  { unfold fe. change 0xc0000000 with (786432 * 4096). rewrite <- Z.mul_add_distr_r. apply Z.mod_mul. lia. }
  assert (Hq : exists n, fe - fs = n * 4096 /\ 2 <= n <= 2 ^ 18 - 1).
  { exists ((fe - fs) / 4096). unfold fe in *. Z.to_euclidean_division_equations. lia. }
  destruct Hq as (n & Hn & Hnr). rewrite Hn. rewrite (swrap_small 32 (n * 4096)) by (unfold in_s; lia).
  rewrite Z.quot_mul by lia. rewrite (uwrap_small 32 n) by (unfold in_u; lia).
  set (up := if _ <? _ then _ else _).
  assert (Hup : 1 <= up <= n / 2 /\ up <= user_page_limit).
  { pose proof (Z.div_le_mono 2 n 2 ltac:(lia) ltac:(lia)). change (2 / 2) with 1 in *.
    unfold up. destruct (Z.ltb_spec user_page_limit (n / 2)); lia. }
  assert (Hhalf : 2 * (n / 2) <= n) by (apply Z.mul_div_le; lia).
  rewrite (uwrap_small 32 (n - up)) by (unfold in_u; lia).
  rewrite (uwrap_small 32 (fs + (n - up) * 4096)) by (unfold in_u; unfold fe in *; lia).
  destruct (init_pool_ok fs (n - up) (memory fs)) as (kp & -> & Hkw & Hkf & Hkb & Hkc);
    [lia|lia|done|unfold fe in *; lia|apply Hmem..|].
  destruct (init_pool_ok (fs + (n - up) * 4096) up (memory (fs + (n - up) * 4096)))
    as (p & -> & Huw & Huf & Hub & Huc); [lia|lia|by rewrite Z.mod_add by lia|unfold fe in *; lia|apply Hmem..|].
  destruct (map_pages_bound (n - up) ltac:(lia)), (map_pages_bound up ltac:(lia)).
  eexists. split; [done|]. unfold pools_wf. cbn [kernel_pool user_pool]. rewrite Hkb, Hkc, Hub, Huc.
  unfold fe in *. split_and!; done || lia.
Qed.

Lemma palloc_init_correct_witness :
  exists ps, palloc_init 1024 0xc0028123 100 (fun _ => replicate (Z.to_nat 9216) 0xcccccccc) = Ok ps /\
    pools_wf ps /\ all_free (kernel_pool ps).
Proof.
  destruct (palloc_init_correct 1024 0xc0028123 100 (fun _ => replicate (Z.to_nat 9216) 0xcccccccc))
    as (ps & E & Hw & Hf & _).
  - vm_compute. discriminate.
  - vm_compute. discriminate.
  - vm_compute. discriminate.
  - lia.
  - intros a. split; [rewrite length_replicate; lia|]. apply Forall_replicate. unfold in_u. lia.
  - exists ps. split; [exact E|]. split; [exact Hw|exact Hf].
Defined.
