(* ===== verification/Kernel.v ===== *)
(** * The state of the kernel

    Families of disjoint lists in one memory, and then the state that the files
    of threads/ share and code that may be preempted. *)

From Stdlib Require Import ZArith Lia.
From stdpp Require Import base numbers gmap list.
From S2P Require Import Prelude DList Bitmap Vaddr Palloc.

Open Scope Z_scope.

(** * Families of disjoint lists

    The lists of the kernel share one memory of list elements.  [lists_ok h L]
    says that every list of the family [L], which maps the address of a
    [struct list] to its elements, is well-formed in [h] and that no two of
    them share an element; the list operations preserve it. *)

Record lists_ok (h : mem) (L : gmap Z (list Z)) : Prop := {
  lists_dll : forall l xs, L !! l = Some xs -> dll h l xs;
  lists_disj : forall l1 l2 xs1 xs2 a, L !! l1 = Some xs1 -> L !! l2 = Some xs2 ->
    a ∈ nodes l1 xs1 -> a ∈ nodes l2 xs2 -> l1 = l2 }.

(** [e] is in no list of the family. *)
Definition unlinked (e : Z) (L : gmap Z (list Z)) : Prop :=
  forall l xs, L !! l = Some xs -> e ∉ nodes l xs.

Lemma elem_nodes l xs e : e ∈ xs -> e ∈ nodes l xs.
Proof. intros He. apply elem_of_nodes. auto. Qed.

(** A change to one list of the family, inside [nodes l xs']. *)
Lemma lists_ok_change h h' L l xs xs' :
  lists_ok h L -> L !! l = Some xs -> dll h' l xs' -> frame (nodes l xs') h h' ->
  (forall l2 xs2 a, L !! l2 = Some xs2 -> l2 <> l -> a ∈ nodes l2 xs2 -> a ∉ nodes l xs') ->
  lists_ok h' (<[l := xs']> L).
Proof.
  intros [Hd Hdj] El Hl HF Hout. split.
  - intros l2 xs2. destruct (decide (l2 = l)) as [->|Hne].
    + rewrite lookup_insert_eq. by intros [= <-].
    + rewrite lookup_insert_ne by done. intros E2. eapply dll_frame; [done| |by apply Hd].
      intros a Ha. by eapply Hout.
  - intros l1 l2 xs1 xs2 a. rewrite !lookup_insert_Some.
    intros [[<- <-] | [H1 E1]] [[<- <-] | [H2 E2]] Ha1 Ha2; [done| | |by eapply Hdj].
    + by destruct (Hout l2 xs2 a E2 ltac:(done) Ha2).
    + by destruct (Hout l1 xs1 a E1 ltac:(done) Ha1).
Qed.

Section ops.
Context (h : mem) (L : gmap Z (list Z)) (HL : lists_ok h L).

Lemma lists_other l xs l2 xs2 a :
  L !! l = Some xs -> L !! l2 = Some xs2 -> l2 <> l -> a ∈ nodes l2 xs2 -> a ∉ nodes l xs.
Proof. intros E E2 Hne Ha Ha'. by apply Hne, (lists_disj _ _ HL l2 l xs2 xs a). Qed.

Lemma wp_lists_push_back l xs e (Q : unit -> mem -> Prop) :
  L !! l = Some xs -> e ∈ dom h -> e <> NULL -> unlinked e L ->
  (forall h', lists_ok h' (<[l := xs ++ [e]]> L) -> dom h' = dom h -> Q tt h') ->
  wp (list_push_back l e) Q h.
Proof.
  intros El He Hnull Hun HQ. pose proof (lists_dll _ _ HL _ _ El) as Hd.
  apply (wp_list_push_back h l xs e); [done..|by apply Hun|].
  intros h' Hd' HF. apply HQ; [|apply HF].
  eapply lists_ok_change; [done..|]. intros l2 xs2 a E2 Hne Ha.
  intros Ha'. apply elem_of_nodes in Ha' as [-> | [Ha' | ->]].
  - eapply (lists_other l xs l2 xs2); [done..|]. apply elem_of_nodes. auto.
  - apply elem_of_app in Ha' as [Ha' | ->%list_elem_of_singleton].
    + eapply (lists_other l xs l2 xs2); [done..|]. by apply elem_nodes.
    + by destruct (Hun _ _ E2).
  - eapply (lists_other l xs l2 xs2); [done..|]. apply elem_of_nodes. auto.
Qed.

(** Taking one element out of the list at [l]. *)
Lemma lists_ok_remove h' l xs1 x xs2 :
  L !! l = Some (xs1 ++ x :: xs2) -> dll h' l (xs1 ++ xs2) -> frame (nodes l (xs1 ++ xs2)) h h' ->
  lists_ok h' (<[l := xs1 ++ xs2]> L).
Proof.
  intros El Hd' HF. eapply lists_ok_change; [done..|]. intros l2 ys a E2 Hne Ha Ha'.
  eapply (lists_other l _ l2); [exact El|done..|].
  rewrite (cons_middle x xs1 xs2). by apply nodes_incl.
Qed.

Lemma wp_lists_remove l xs1 x xs2 (Q : Z -> mem -> Prop) :
  L !! l = Some (xs1 ++ x :: xs2) ->
  (forall h', lists_ok h' (<[l := xs1 ++ xs2]> L) -> dom h' = dom h -> Q (first l xs2) h') ->
  wp (list_remove x) Q h.
Proof.
  intros El HQ. apply (wp_list_remove h l xs1 x xs2); [by apply (lists_dll _ _ HL)|].
  intros h' Hd' HF _. apply HQ; [|apply HF]. by eapply lists_ok_remove.
Qed.

Lemma wp_lists_pop_front l x xs (Q : Z -> mem -> Prop) :
  L !! l = Some (x :: xs) ->
  (forall h', lists_ok h' (<[l := xs]> L) -> dom h' = dom h -> Q x h') ->
  wp (list_pop_front l) Q h.
Proof.
  intros El HQ. apply (wp_list_pop_front h l x xs); [by apply (lists_dll _ _ HL)|].
  intros h' Hd' HF _. apply HQ; [|apply HF].
  by apply (lists_ok_remove h' l [] x xs).
Qed.

Lemma wp_lists_empty l xs (Q : bool -> mem -> Prop) :
  L !! l = Some xs -> Q (bool_decide (xs = [])) h -> wp (list_empty l) Q h.
Proof. intros El HQ. eapply wp_list_empty; [by apply (lists_dll _ _ HL)|done]. Qed.

(** New and dead list elements. *)
Lemma lists_ok_new a e : a ∉ dom h -> lists_ok (<[a := e]> h) L.
Proof.
  intros Ha. split; [|apply HL]. intros l xs El.
  pose proof (lists_dll _ _ HL _ _ El) as Hd. eapply dll_agree; [done|].
  intros b Hb. apply lookup_insert_ne. intros ->. apply Ha. by eapply dll_dom.
Qed.

Lemma lists_ok_filter (P : Z * list_elem -> Prop) `{!forall x, Decision (P x)} :
  (forall l xs a e, L !! l = Some xs -> a ∈ nodes l xs -> P (a, e)) ->
  lists_ok (filter P h) L.
Proof.
  intros HP. split; [|apply HL]. intros l xs El.
  eapply dll_agree; [by apply (lists_dll _ _ HL)|]. intros a Ha.
  apply option_eq. intros e. rewrite map_lookup_filter_Some.
  split; [by intros []|]. intros E. split; [done|]. by eapply HP.
Qed.

(** The elements of a list are not repeated, and are in no other list. *)
Lemma lists_elem_unique l1 l2 xs1 xs2 e :
  L !! l1 = Some xs1 -> L !! l2 = Some xs2 -> e ∈ xs1 -> e ∈ xs2 -> l1 = l2.
Proof. intros. eapply (lists_disj _ _ HL); [done..| |]; by apply elem_nodes. Qed.

Lemma lists_nodup l xs : L !! l = Some xs -> NoDup xs.
Proof.
  intros El. pose proof (dll_nodup _ _ _ (lists_dll _ _ HL _ _ El)) as Hn.
  unfold nodes in Hn. apply NoDup_cons in Hn as [_ Hn]. by apply NoDup_app in Hn as [].
Qed.

End ops.

(** * threads/*.c: the state of the kernel and code that may be preempted

    The data that thread.c, synch.c, interrupt.c, palloc.c and timer.c share,
    the representation of kernel code that can be interrupted or switched
    away from, and the functions of interrupt.c.

    The kernel is the one built for threads without user programs.  On the
    single processor, code that runs with interrupts off is atomic; it is an
    [M kstate] computation.  Code that may lose the processor is a [comp]: a
    sequence of such computations, loops and calls of switch_threads(). *)

(** ** Data *)

Inductive thread_status := THREAD_RUNNING | THREAD_READY | THREAD_BLOCKED | THREAD_DYING.
Inductive intr_level := INTR_OFF | INTR_ON.

#[global] Instance thread_status_eq_dec : EqDecision thread_status.
Proof. solve_decision. Defined.
#[global] Instance intr_level_eq_dec : EqDecision intr_level.
Proof. solve_decision. Defined.

(** What the kernel puts on a thread's stack for switch_threads() and the
    code it returns to: the frames of thread_create(), whose code addresses
    are names here. *)
Inductive code_addr := switch_entry | kernel_thread_entry | in_schedule.
Inductive stack_frame :=
  | switch_threads_frame (eip : code_addr)
  | switch_entry_frame (eip : code_addr)
  | kernel_thread_frame (eip function aux : Z).

#[global] Instance code_addr_eq_dec : EqDecision code_addr.
Proof. solve_decision. Defined.
#[global] Instance stack_frame_eq_dec : EqDecision stack_frame.
Proof. solve_decision. Defined.

(** [struct thread], with the stack that shares its page. *)
Record thread := mk_thread {
  tid : Z;
  status : thread_status;
  name : list Z;
  stack : Z;
  priority : Z;
  block_end_tick : Z;
  magic : Z;
  frames : gmap Z stack_frame }.

(** The offset of [elem] in [struct thread], and list_entry() for it. *)
Definition elem_ofs : Z := 40.
Definition elem_of_thread (t : Z) : Z := t + elem_ofs.
Definition thread_of_elem (e : Z) : Z := e - elem_ofs.

(** [struct semaphore]: the value, then the list of waiters.
    [struct lock]: the holder, then a semaphore. *)
Definition waiters (sema : Z) : Z := sema + 4.
Definition lock_semaphore (lock : Z) : Z := lock + 4.

Record kstate := mk_kstate {
  lmem : mem;                       (* every list and list element *)
  threads : gmap Z thread;          (* by page address *)
  semas : gmap Z Z;                 (* value, by address *)
  locks : gmap Z Z;                 (* holder, by address *)
  cur : Z;                          (* the page the stack pointer is in *)
  intr : intr_level;                (* the interrupt flag *)
  in_external_intr : bool;
  yield_on_return : bool;
  idle_thread : Z;
  initial_thread : Z;
  next_tid : Z;
  idle_ticks : Z;
  kernel_ticks : Z;
  thread_ticks : Z;
  ticks : Z;
  memory : pools }.

Definition set_lmem v s := mk_kstate v (threads s) (semas s) (locks s) (cur s) (intr s)
  (in_external_intr s) (yield_on_return s) (idle_thread s) (initial_thread s) (next_tid s)
  (idle_ticks s) (kernel_ticks s) (thread_ticks s) (ticks s) (memory s).
Definition set_threads v s := mk_kstate (lmem s) v (semas s) (locks s) (cur s) (intr s)
  (in_external_intr s) (yield_on_return s) (idle_thread s) (initial_thread s) (next_tid s)
  (idle_ticks s) (kernel_ticks s) (thread_ticks s) (ticks s) (memory s).
Definition set_semas v s := mk_kstate (lmem s) (threads s) v (locks s) (cur s) (intr s)
  (in_external_intr s) (yield_on_return s) (idle_thread s) (initial_thread s) (next_tid s)
  (idle_ticks s) (kernel_ticks s) (thread_ticks s) (ticks s) (memory s).
Definition set_locks v s := mk_kstate (lmem s) (threads s) (semas s) v (cur s) (intr s)
  (in_external_intr s) (yield_on_return s) (idle_thread s) (initial_thread s) (next_tid s)
  (idle_ticks s) (kernel_ticks s) (thread_ticks s) (ticks s) (memory s).
Definition set_cur v s := mk_kstate (lmem s) (threads s) (semas s) (locks s) v (intr s)
  (in_external_intr s) (yield_on_return s) (idle_thread s) (initial_thread s) (next_tid s)
  (idle_ticks s) (kernel_ticks s) (thread_ticks s) (ticks s) (memory s).
Definition set_intr v s := mk_kstate (lmem s) (threads s) (semas s) (locks s) (cur s) v
  (in_external_intr s) (yield_on_return s) (idle_thread s) (initial_thread s) (next_tid s)
  (idle_ticks s) (kernel_ticks s) (thread_ticks s) (ticks s) (memory s).
Definition set_in_external_intr v s := mk_kstate (lmem s) (threads s) (semas s) (locks s) (cur s)
  (intr s) v (yield_on_return s) (idle_thread s) (initial_thread s) (next_tid s)
  (idle_ticks s) (kernel_ticks s) (thread_ticks s) (ticks s) (memory s).
Definition set_yield_on_return v s := mk_kstate (lmem s) (threads s) (semas s) (locks s) (cur s)
  (intr s) (in_external_intr s) v (idle_thread s) (initial_thread s) (next_tid s)
  (idle_ticks s) (kernel_ticks s) (thread_ticks s) (ticks s) (memory s).
Definition set_idle_thread v s := mk_kstate (lmem s) (threads s) (semas s) (locks s) (cur s)
  (intr s) (in_external_intr s) (yield_on_return s) v (initial_thread s) (next_tid s)
  (idle_ticks s) (kernel_ticks s) (thread_ticks s) (ticks s) (memory s).
Definition set_initial_thread v s := mk_kstate (lmem s) (threads s) (semas s) (locks s) (cur s)
  (intr s) (in_external_intr s) (yield_on_return s) (idle_thread s) v (next_tid s)
  (idle_ticks s) (kernel_ticks s) (thread_ticks s) (ticks s) (memory s).
Definition set_next_tid v s := mk_kstate (lmem s) (threads s) (semas s) (locks s) (cur s)
  (intr s) (in_external_intr s) (yield_on_return s) (idle_thread s) (initial_thread s) v
  (idle_ticks s) (kernel_ticks s) (thread_ticks s) (ticks s) (memory s).
Definition set_stats (idle kernel slice : Z) s := mk_kstate (lmem s) (threads s) (semas s)
  (locks s) (cur s) (intr s) (in_external_intr s) (yield_on_return s) (idle_thread s)
  (initial_thread s) (next_tid s) idle kernel slice (ticks s) (memory s).
Definition set_ticks v s := mk_kstate (lmem s) (threads s) (semas s) (locks s) (cur s)
  (intr s) (in_external_intr s) (yield_on_return s) (idle_thread s) (initial_thread s)
  (next_tid s) (idle_ticks s) (kernel_ticks s) (thread_ticks s) v (memory s).
Definition set_memory v s := mk_kstate (lmem s) (threads s) (semas s) (locks s) (cur s)
  (intr s) (in_external_intr s) (yield_on_return s) (idle_thread s) (initial_thread s)
  (next_tid s) (idle_ticks s) (kernel_ticks s) (thread_ticks s) (ticks s) v.

(** Where the linker puts the static objects of the kernel, and the semaphores
    and locks that the rest of the program has. *)
Class Image := {
  ready_list : Z;
  block_list : Z;
  tid_lock : Z;
  kernel_pool_lock : Z;
  user_pool_lock : Z;
  idle_function : Z;
  program_semas : gset Z;
  program_locks : gset Z }.

(** List operations on the kernel's lists, allocation on its pools. *)
Definition on_lists {A} (m : M mem A) : M kstate A := zoom lmem set_lmem m.
Definition on_pools {A} (m : M pools A) : M kstate A := zoom memory set_memory m.

(** Accesses to [struct thread]. *)
Definition get_thread (t : Z) : M kstate thread :=
  if t =? NULL then fail BadAccess else s ← get; of_option BadAccess (threads s !! t).
Definition put_thread (t : Z) (th : thread) : M kstate unit :=
  modify (fun s => set_threads (<[t := th]> (threads s)) s).
Definition update_thread (t : Z) (f : thread -> thread) : M kstate unit :=
  th ← get_thread t; put_thread t (f th).

Definition with_tid v th := mk_thread v (status th) (name th) (stack th) (priority th)
  (block_end_tick th) (magic th) (frames th).
Definition with_status v th := mk_thread (tid th) v (name th) (stack th) (priority th)
  (block_end_tick th) (magic th) (frames th).
Definition with_priority v th := mk_thread (tid th) (status th) (name th) (stack th) v
  (block_end_tick th) (magic th) (frames th).
Definition with_block_end_tick v th := mk_thread (tid th) (status th) (name th) (stack th)
  (priority th) v (magic th) (frames th).
Definition with_stack v fs th := mk_thread (tid th) (status th) (name th) v (priority th)
  (block_end_tick th) (magic th) fs.

(** ** Preemptible code *)

Inductive comp (A : Type) : Type :=
  | Ret (a : A)
  | Prim {X : Set} (m : M kstate X) (k : X -> comp A)
  | While (test : M kstate bool) (body : comp unit) (k : comp A)
  | Switch (next : Z) (k : Z -> comp A).
Arguments Ret {A} a.
Arguments Prim {A X} m k.
Arguments While {A} test body k.
Arguments Switch {A} next k.

Fixpoint cbind {A B} (c : comp A) (f : A -> comp B) : comp B :=
  match c with
  | Ret a => f a
  | Prim m k => Prim m (fun x => cbind (k x) f)
  | While test body k => While test body (cbind k f)
  | Switch next k => Switch next (fun prev => cbind (k prev) f)
  end.

Definition prim {X : Set} (m : M kstate X) : comp X := Prim m Ret.

Notation "x ⇐ c ; k" := (cbind c (fun x => k))
  (at level 20, c at level 100, k at level 200) : kcode_scope.
Notation "c ⨾ k" := (cbind c (fun _ => k))
  (at level 100, k at level 200, right associativity) : kcode_scope.

(** ** interrupt.c: the interrupt flag *)

Definition intr_context : M kstate bool := gets in_external_intr.
Definition intr_get_level : M kstate intr_level := gets intr.

Definition intr_enable : M kstate intr_level :=
  old_level ← intr_get_level;
  c ← intr_context;
  ASSERT (negb c);;
  modify (set_intr INTR_ON);;
  ret old_level.

Definition intr_disable : M kstate intr_level :=
  old_level ← intr_get_level;
  modify (set_intr INTR_OFF);;
  ret old_level.

Definition intr_set_level (level : intr_level) : M kstate intr_level :=
  match level with INTR_ON => intr_enable | INTR_OFF => intr_disable end.

Definition intr_yield_on_return : M kstate unit :=
  c ← intr_context;
  ASSERT c;;
  modify (set_yield_on_return true).
