(* ===== verification/Thread.v ===== *)
(** * threads/thread.c: scheduling

    The functions of thread.c that the synchronisation primitives build on:
    the running thread, blocking, unblocking, yielding, exiting and the
    context switch.  Creating threads needs locks and is in Boot. *)

From Stdlib Require Import ZArith Lia.
From stdpp Require Import base numbers gmap list.
From S2P Require Import Prelude DList Bitmap Vaddr Palloc Kernel.

Open Scope Z_scope.

Definition THREAD_MAGIC : Z := 0xcd6abf4b.
Definition TIME_SLICE : Z := 4.
Definition PRI_MIN : Z := 0.
Definition PRI_DEFAULT : Z := 31.
Definition PRI_MAX : Z := 63.
Definition TID_ERROR : Z := -1.

Section thread.
Context `{Image}.

(** [pg_round_down (esp)]. *)
Definition running_thread : M kstate Z := gets cur.

Definition is_thread (t : Z) : M kstate bool :=
  if t =? NULL then ret false
  else th ← get_thread t; ret (magic th =? THREAD_MAGIC).

Definition thread_current : M kstate Z :=
  t ← running_thread;
  b ← is_thread t; ASSERT b;;
  th ← get_thread t;
  ASSERT (bool_decide (status th = THREAD_RUNNING));;
  ret t.

Definition thread_tid : M kstate Z :=
  t ← thread_current; th ← get_thread t; ret (tid th).

Definition thread_name : M kstate (list Z) :=
  t ← thread_current; th ← get_thread t; ret (name th).

Definition thread_set_priority (new_priority : Z) : M kstate unit :=
  t ← thread_current; update_thread t (with_priority new_priority).

Definition thread_get_priority : M kstate Z :=
  t ← thread_current; th ← get_thread t; ret (priority th).

Definition thread_unblock (t : Z) : M kstate unit :=
  b ← is_thread t; ASSERT b;;
  old_level ← intr_disable;
  th ← get_thread t;
  ASSERT (bool_decide (status th = THREAD_BLOCKED));;
  on_lists (list_push_back ready_list (elem_of_thread t));;
  update_thread t (with_status THREAD_READY);;
  intr_set_level old_level;;
  ret tt.

Definition next_thread_to_run : M kstate Z :=
  empty ← on_lists (list_empty ready_list);
  if empty then gets idle_thread
  else e ← on_lists (list_pop_front ready_list); ret (thread_of_elem e).

(** The objects in the page at [p] are overwritten: [memset (p, 0xcc, PGSIZE)]. *)
Definition in_page (p a : Z) : bool := (p <=? a) && (a <? p + PGSIZE).
Definition clobber (p : Z) (s : kstate) : kstate :=
  set_lmem (filter (fun kv => in_page p kv.1 = false) (lmem s))
  (set_semas (filter (fun kv => in_page p kv.1 = false) (semas s))
  (set_locks (filter (fun kv => in_page p kv.1 = false) (locks s))
  (set_threads (delete p (threads s)) s))).

Definition free_page (p : Z) : M kstate unit :=
  on_pools (palloc_free_page p);; modify (clobber p).

Definition schedule_tail (prev : Z) : M kstate unit :=
  curr ← running_thread;
  level ← intr_get_level;
  ASSERT (bool_decide (level = INTR_OFF));;
  update_thread curr (with_status THREAD_RUNNING);;
  s ← get;
  put (set_stats (idle_ticks s) (kernel_ticks s) 0 s);;
  if prev =? NULL then ret tt else
  th ← get_thread prev;
  if bool_decide (status th = THREAD_DYING) && negb (prev =? initial_thread s) then
    ASSERT (negb (prev =? curr));;
    free_page prev
  else ret tt.

(** The part of schedule() before the switch. *)
Definition schedule_next : M kstate (Z * Z) :=
  curr ← running_thread;
  next ← next_thread_to_run;
  level ← intr_get_level;
  ASSERT (bool_decide (level = INTR_OFF));;
  th ← get_thread curr;
  ASSERT (negb (bool_decide (status th = THREAD_RUNNING)));;
  b ← is_thread next; ASSERT b;;
  ret (curr, next).

Definition schedule : comp unit :=
  p ⇐ prim schedule_next;
  prev ⇐ (if p.1 =? p.2 then Ret NULL else Switch p.2 Ret);
  prim (schedule_tail prev).

Definition thread_block : comp unit :=
  prim (c ← intr_context;
        ASSERT (negb c);;
        level ← intr_get_level;
        ASSERT (bool_decide (level = INTR_OFF));;
        t ← thread_current;
        update_thread t (with_status THREAD_BLOCKED)) ⨾
  schedule.

Definition thread_exit : comp unit :=
  prim (c ← intr_context;
        ASSERT (negb c);;
        intr_disable;;
        t ← thread_current;
        update_thread t (with_status THREAD_DYING)) ⨾
  schedule ⨾
  prim (fail AssertFail).

Definition thread_yield : comp unit :=
  old_level ⇐ prim (
    curr ← thread_current;
    c ← intr_context;
    ASSERT (negb c);;
    old_level ← intr_disable;
    idle ← gets idle_thread;
    (if negb (curr =? idle) then on_lists (list_push_back ready_list (elem_of_thread curr))
     else ret tt);;
    update_thread curr (with_status THREAD_READY);;
    ret old_level);
  schedule ⨾
  prim (intr_set_level old_level;; ret tt).

Definition thread_tick : M kstate unit :=
  t ← thread_current;
  s ← get;
  (if t =? idle_thread s
   then put (set_stats (i64 (idle_ticks s + 1)) (kernel_ticks s) (thread_ticks s) s)
   else put (set_stats (idle_ticks s) (i64 (kernel_ticks s + 1)) (thread_ticks s) s));;
  s ← get;
  put (set_stats (idle_ticks s) (kernel_ticks s) (u32 (thread_ticks s + 1)) s);;
  s ← get;
  if TIME_SLICE <=? thread_ticks s then intr_yield_on_return else ret tt.

(** [name] is a string, so never null. *)
Definition init_thread (t : Z) (nm : list Z) (prio : Z) : M kstate unit :=
  ASSERT (negb (t =? NULL));;
  ASSERT ((PRI_MIN <=? prio) && (prio <=? PRI_MAX));;
  s ← get;
  put_thread t (mk_thread 0 THREAD_BLOCKED (take 15 nm) (u32 (t + PGSIZE)) prio 0 THREAD_MAGIC
    (default ∅ (frames <$> threads s !! t)));;
  modify (fun s => set_lmem (<[elem_of_thread t := mk_elem NULL NULL]> (lmem s)) s).

Definition alloc_frame (t size : Z) : M kstate Z :=
  b ← is_thread t; ASSERT b;;
  ASSERT (size mod 4 =? 0);;
  th ← get_thread t;
  let sp := u32 (stack th - size) in
  put_thread t (with_stack sp (frames th) th);;
  ret sp.

(** Filling in a frame of thread [t]'s stack. *)
Definition set_frame (t sp : Z) (f : stack_frame) : M kstate unit :=
  update_thread t (fun th => with_stack (stack th) (<[sp := f]> (frames th)) th).

End thread.
