(* ===== verification/Synch.v ===== *)
(** * threads/synch.c: semaphores, locks and condition variables *)

From Stdlib Require Import ZArith Lia.
From stdpp Require Import base numbers gmap list.
From S2P Require Import Prelude DList Bitmap Vaddr Palloc Kernel Thread.

Open Scope Z_scope.

Section synch.
Context `{Image}.

(** [sema->value] and [lock->holder]. *)
Definition get_value (sema : Z) : M kstate Z :=
  s ← get; of_option BadAccess (semas s !! sema).
Definition set_value (sema v : Z) : M kstate unit :=
  get_value sema;; modify (fun s => set_semas (<[sema := u32 v]> (semas s)) s).
Definition get_holder (lock : Z) : M kstate Z :=
  s ← get; of_option BadAccess (locks s !! lock).
Definition set_holder (lock t : Z) : M kstate unit :=
  get_holder lock;; modify (fun s => set_locks (<[lock := t]> (locks s)) s).

(** ** Semaphores *)

Definition sema_init (sema value : Z) : M kstate unit :=
  ASSERT (negb (sema =? NULL));;
  modify (fun s => set_semas (<[sema := value]> (semas s)) s);;
  on_lists (list_init (waiters sema)).

Definition sema_down (sema : Z) : comp unit :=
  old_level ⇐ prim (
    ASSERT (negb (sema =? NULL));;
    c ← intr_context; ASSERT (negb c);;
    intr_disable);
  While (v ← get_value sema; ret (v =? 0))
    (prim (t ← thread_current;
           on_lists (list_push_back (waiters sema) (elem_of_thread t))) ⨾
     thread_block)
  (prim (v ← get_value sema; set_value sema (v - 1);;
         intr_set_level old_level;; ret tt)).

Definition sema_try_down (sema : Z) : M kstate bool :=
  ASSERT (negb (sema =? NULL));;
  old_level ← intr_disable;
  v ← get_value sema;
  success ← (if 0 <? v then set_value sema (v - 1);; ret true else ret false);
  intr_set_level old_level;;
  ret success.

Definition sema_up (sema : Z) : M kstate unit :=
  ASSERT (negb (sema =? NULL));;
  old_level ← intr_disable;
  empty ← on_lists (list_empty (waiters sema));
  (if negb empty then
     e ← on_lists (list_pop_front (waiters sema));
     thread_unblock (thread_of_elem e)
   else ret tt);;
  v ← get_value sema;
  set_value sema (v + 1);;
  intr_set_level old_level;;
  ret tt.

(** ** Locks *)

Definition lock_init (lock : Z) : M kstate unit :=
  ASSERT (negb (lock =? NULL));;
  modify (fun s => set_locks (<[lock := NULL]> (locks s)) s);;
  sema_init (lock_semaphore lock) 1.

Definition lock_held_by_current_thread (lock : Z) : M kstate bool :=
  ASSERT (negb (lock =? NULL));;
  h ← get_holder lock;
  t ← thread_current;
  ret (h =? t).

Definition lock_acquire (lock : Z) : comp unit :=
  prim (ASSERT (negb (lock =? NULL));;
        c ← intr_context; ASSERT (negb c);;
        b ← lock_held_by_current_thread lock; ASSERT (negb b)) ⨾
  sema_down (lock_semaphore lock) ⨾
  prim (t ← thread_current; set_holder lock t).

Definition lock_try_acquire (lock : Z) : comp bool :=
  prim (ASSERT (negb (lock =? NULL));;
        b ← lock_held_by_current_thread lock; ASSERT (negb b)) ⨾
  success ⇐ prim (sema_try_down (lock_semaphore lock));
  prim (if success then t ← thread_current; set_holder lock t else ret tt) ⨾
  Ret success.

Definition lock_release (lock : Z) : comp unit :=
  prim (ASSERT (negb (lock =? NULL));;
        b ← lock_held_by_current_thread lock; ASSERT b) ⨾
  prim (set_holder lock NULL) ⨾
  prim (sema_up (lock_semaphore lock)).

(** ** Condition variables *)

(** [struct semaphore_elem]: a list element, then a semaphore. *)
Definition elem_semaphore (waiter : Z) : Z := waiter + 8.

(** The local variable [waiter] comes into being, with any content. *)
Definition declare_waiter (waiter : Z) : M kstate unit :=
  modify (fun s => set_lmem
    (<[waiter := mk_elem NULL NULL]>
    (<[waiters (elem_semaphore waiter) := mk_elem NULL NULL]>
    (<[tail (waiters (elem_semaphore waiter)) := mk_elem NULL NULL]> (lmem s)))) s).

Definition cond_init (cond : Z) : M kstate unit :=
  ASSERT (negb (cond =? NULL));;
  on_lists (list_init cond).

(** [waiter] is the address of the local variable of that name. *)
Definition cond_wait (waiter cond lock : Z) : comp unit :=
  prim (declare_waiter waiter;;
        ASSERT (negb (cond =? NULL));;
        ASSERT (negb (lock =? NULL));;
        c ← intr_context; ASSERT (negb c);;
        b ← lock_held_by_current_thread lock; ASSERT b) ⨾
  prim (sema_init (elem_semaphore waiter) 0) ⨾
  prim (on_lists (list_push_back cond waiter)) ⨾
  lock_release lock ⨾
  sema_down (elem_semaphore waiter) ⨾
  lock_acquire lock.

Definition cond_signal (cond lock : Z) : comp unit :=
  prim (ASSERT (negb (cond =? NULL));;
        ASSERT (negb (lock =? NULL));;
        c ← intr_context; ASSERT (negb c);;
        b ← lock_held_by_current_thread lock; ASSERT b) ⨾
  empty ⇐ prim (on_lists (list_empty cond));
  if negb empty : bool then
    waiter ⇐ prim (on_lists (list_pop_front cond));
    prim (sema_up (elem_semaphore waiter))
  else Ret tt.

Definition cond_broadcast (cond lock : Z) : comp unit :=
  prim (ASSERT (negb (cond =? NULL));;
        ASSERT (negb (lock =? NULL))) ⨾
  While (empty ← on_lists (list_empty cond); ret (negb empty))
    (cond_signal cond lock)
  (Ret tt).

End synch.
