(* ===== verification/Boot.v ===== *)
(** * Creating threads, the timer, interrupts, and the machine they run on

    The rest of threads/thread.c (creating threads, the idle thread, start-up),
    palloc_get_multiple(), devices/timer.c, the interrupt handler of
    threads/interrupt.c, and a step relation for the processor: it runs the
    current thread, delivers an interrupt whenever interrupts are on, and
    switches stacks as threads/switch.S does. *)

From Stdlib Require Import ZArith Lia.
From stdpp Require Import base numbers gmap list.
From S2P Require Import Prelude DList Bitmap Vaddr Palloc Kernel Thread Synch.

Open Scope Z_scope.

(** The code of the functions that threads are created with, by address. *)
Class Program := { func : Z -> Z -> comp unit }.

Section boot.
Context `{Image} `{Program}.

(** ** palloc.c *)

Definition pool_lock (flags : Z) : Z :=
  if Z.land flags PAL_USER =? 0 then kernel_pool_lock else user_pool_lock.

(** [memset (pages, 0, PGSIZE * page_cnt)]. *)
Definition zero_pages (pages page_cnt : Z) : M kstate unit :=
  for_from (Z.to_nat page_cnt) 0 (fun i => modify (clobber (pages + PGSIZE * i))).

Definition palloc_get_multiple (flags page_cnt : Z) : comp Z :=
  if page_cnt =? 0 then Ret NULL else
  lock_acquire (pool_lock flags) ⨾
  pages ⇐ prim (on_pools (on_pool flags (pool_get page_cnt)));
  lock_release (pool_lock flags) ⨾
  prim (if negb (pages =? NULL) then
          if negb (Z.land flags PAL_ZERO =? 0) then zero_pages pages page_cnt else ret tt
        else
          ASSERT (Z.land flags PAL_ASSERT =? 0)) ⨾
  Ret pages.

Definition palloc_get_page (flags : Z) : comp Z := palloc_get_multiple flags 1.

(** ** thread.c: creating threads *)

Definition allocate_tid : comp Z :=
  lock_acquire tid_lock ⨾
  tid ⇐ prim (s ← get; put (set_next_tid (i32 (next_tid s + 1)) s);; ret (next_tid s));
  lock_release tid_lock ⨾
  Ret tid.

(** The three frames on the new thread's stack. *)
Definition push_frames (t function aux : Z) : M kstate unit :=
  kf ← alloc_frame t 12;
  set_frame t kf (kernel_thread_frame NULL function aux);;
  ef ← alloc_frame t 4;
  set_frame t ef (switch_entry_frame kernel_thread_entry);;
  sf ← alloc_frame t 28;
  set_frame t sf (switch_threads_frame switch_entry).

Definition thread_create (nm : list Z) (prio function aux : Z) : comp Z :=
  prim (ASSERT (negb (function =? NULL))) ⨾
  t ⇐ palloc_get_page PAL_ZERO;
  if t =? NULL then Ret TID_ERROR else
  prim (init_thread t nm prio) ⨾
  tid ⇐ allocate_tid;
  prim (update_thread t (with_tid tid)) ⨾
  prim (push_frames t function aux) ⨾
  prim (thread_unblock t) ⨾
  Ret tid.

(** "main" and "idle". *)
Definition main_name : list Z := [109; 97; 105; 110].
Definition idle_name : list Z := [105; 100; 108; 101].

Definition thread_init : comp unit :=
  prim (level ← intr_get_level;
        ASSERT (bool_decide (level = INTR_OFF));;
        lock_init tid_lock;;
        on_lists (list_init ready_list);;
        t ← running_thread;
        modify (set_initial_thread t);;
        init_thread t main_name PRI_DEFAULT;;
        update_thread t (with_status THREAD_RUNNING)) ⨾
  tid ⇐ allocate_tid;
  prim (t ← gets initial_thread; update_thread t (with_tid tid)).

(** The local semaphore at [idle_started] comes into being. *)
Definition declare_semaphore (sema : Z) : M kstate unit :=
  modify (fun s => set_lmem (<[waiters sema := mk_elem NULL NULL]>
    (<[tail (waiters sema) := mk_elem NULL NULL]> (lmem s))) s).

Definition thread_start (idle_started : Z) : comp unit :=
  prim (declare_semaphore idle_started;; sema_init idle_started 0) ⨾
  thread_create idle_name PRI_MIN idle_function idle_started ⨾
  prim (intr_enable;; ret tt) ⨾
  sema_down idle_started.

Definition idle (idle_started : Z) : comp unit :=
  prim (t ← thread_current; modify (set_idle_thread t)) ⨾
  prim (sema_up idle_started) ⨾
  While (ret true)
    (prim (intr_disable;; ret tt) ⨾
     thread_block ⨾
     (* sti; hlt *)
     prim (modify (set_intr INTR_ON)))
  (Ret tt).

Definition kernel_thread (function aux : Z) : comp unit :=
  prim (ASSERT (negb (function =? NULL))) ⨾
  prim (intr_enable;; ret tt) ⨾
  (if function =? idle_function then idle aux else func function aux) ⨾
  thread_exit.

(** ** devices/timer.c *)

Definition TIMER_FREQ : Z := 100.

Definition timer_ticks : M kstate Z :=
  old_level ← intr_disable;
  t ← gets ticks;
  intr_set_level old_level;;
  ret t.

Definition timer_elapsed (then_ : Z) : M kstate Z :=
  t ← timer_ticks; ret (i64 (t - then_)).

(** On list elements of threads. *)
Definition compare_priority (ths : gmap Z thread) (a b : Z) : bool :=
  match ths !! thread_of_elem a, ths !! thread_of_elem b with
  | Some A, Some B => priority B <? priority A
  | _, _ => false
  end.

Definition timer_sleep (n : Z) : comp unit :=
  start ⇐ prim timer_ticks;
  t ⇐ prim (level ← intr_get_level;
            ASSERT (bool_decide (level = INTR_ON));;
            thread_current);
  prim (update_thread t (with_block_end_tick (i64 (start + n)))) ⨾
  prim (s ← get;
        on_lists (list_insert_ordered (compare_priority (threads s)) block_list
          (elem_of_thread t))) ⨾
  old_level ⇐ prim intr_disable;
  thread_block ⨾
  prim (intr_set_level old_level;; ret tt).

(** Loops over lists inside the timer interrupt handler. *)
Definition kloop {A B} (body : A -> M kstate (A + B)) (a : A) : M kstate B :=
  s ← get; iterate (S (S (size (lmem s)))) body a.

(** [for (e = list_begin (&block_list)->next; ...)]: a sleeper of lower
    priority than the one before it is moved to ten ticks after it. *)
Definition delay_low_priority : M kstate unit :=
  b ← on_lists (list_begin block_list);
  e ← on_lists (load_next b);
  kloop (fun e =>
    end_ ← on_lists (list_end block_list);
    if e =? end_ then ret (inr tt) else
    let t := thread_of_elem e in
    p ← on_lists (load_prev e);
    let before := thread_of_elem p in
    bth ← get_thread before;
    th ← get_thread t;
    (if priority th <? priority bth
     then update_thread t (with_block_end_tick (i64 (block_end_tick bth + 10)))
     else ret tt);;
    e' ← on_lists (load_next e);
    ret (inl e')) e.

(** The second loop: sleepers whose time has come are unblocked. *)
Definition wake_sleepers : M kstate unit :=
  e ← on_lists (list_begin block_list);
  kloop (fun e =>
    end_ ← on_lists (list_end block_list);
    if e =? end_ then ret (inr tt) else
    let t := thread_of_elem e in
    th ← get_thread t;
    now ← gets ticks;
    if block_end_tick th <=? now then
      e' ← on_lists (list_remove e);
      thread_unblock t;;
      ret (inl e')
    else
      e' ← on_lists (load_next e);
      ret (inl e')) e.

(** [t] is the value that the uninitialised local variable of that name
    happens to have; [idle_thread] is timer.c's own copy of the static
    variable that thread.h defines, which nothing assigns. *)
Definition timer_interrupt (t : Z) : M kstate unit :=
  modify (fun s => set_ticks (i64 (ticks s + 1)) s);;
  old_level ← intr_disable;
  empty ← on_lists (list_empty block_list);
  (if negb empty && (t =? NULL) then delay_low_priority;; wake_sleepers else ret tt);;
  intr_set_level old_level;;
  thread_tick.

(** ** interrupt.c: external interrupts *)

(** The end-of-interrupt commands go to the interrupt controllers only. *)
Definition pic_end_of_interrupt (irq : Z) : M kstate unit :=
  ASSERT ((0x20 <=? irq) && (irq <? 0x30)).

Definition intr_handler (handlers : Z -> option (comp unit)) (vec_no : Z) : comp unit :=
  let external := (0x20 <=? vec_no) && (vec_no <? 0x30) in
  prim (if external then
          level ← intr_get_level;
          ASSERT (bool_decide (level = INTR_OFF));;
          c ← intr_context; ASSERT (negb c);;
          modify (set_in_external_intr true);;
          modify (set_yield_on_return false)
        else ret tt) ⨾
  match handlers vec_no with
  | Some handler => handler
  | None => if (vec_no =? 0x27) || (vec_no =? 0x2f) then Ret tt
            else prim (fail AssertFail)
  end ⨾
  if external then
    yield ⇐ prim (level ← intr_get_level;
                  ASSERT (bool_decide (level = INTR_OFF));;
                  c ← intr_context; ASSERT c;;
                  modify (set_in_external_intr false);;
                  pic_end_of_interrupt vec_no;;
                  gets yield_on_return);
    if yield : bool then thread_yield else Ret tt
  else Ret tt.

(** The handlers registered: the timer's. *)
Definition handlers (garbage vec_no : Z) : option (comp unit) :=
  if vec_no =? 0x20 then Some (prim (timer_interrupt garbage)) else None.

(** The vectors of the interrupts that can arrive: the timer's and the two
    spurious ones. *)
Definition vectors : list Z := [0x20; 0x27; 0x2f].

(** ** The machine *)

(** The kernel state, the code the current thread still has to run, and, for
    each thread that has called switch_threads(), the code it goes on with
    when that returns. *)
Record machine := mk_machine {
  ks : kstate;
  run : comp unit;
  suspended : gmap Z (Z -> comp unit) }.

(** switch.S saves the stack pointer, here [sp], in the thread it leaves. *)
Definition save_context (sp : Z) (s : kstate) : option kstate :=
  match threads s !! cur s with
  | Some th => Some (set_threads (<[cur s := with_stack sp
      (<[sp := switch_threads_frame in_schedule]> (frames th)) th]> (threads s)) s)
  | None => None
  end.

(** What runs when switch_threads() returns on the stack of [next]. *)
Definition resume (s : kstate) (susp : gmap Z (Z -> comp unit)) (next : Z) :
  option (Z -> comp unit) :=
  match threads s !! next with
  | None => None
  | Some th =>
    match frames th !! stack th with
    | Some (switch_threads_frame switch_entry) =>
        match frames th !! (stack th + 28), frames th !! (stack th + 32) with
        | Some (switch_entry_frame kernel_thread_entry), Some (kernel_thread_frame _ f aux) =>
            Some (fun prev => prim (schedule_tail prev) ⨾ kernel_thread f aux)
        | _, _ => None
        end
    | Some (switch_threads_frame in_schedule) => susp !! next
    | _ => None
    end
  end.

Inductive step : machine -> machine -> Prop :=
  | step_prim (X : Set) (m : M kstate X) k s s' x susp :
      m s = Ok (x, s') ->
      step (mk_machine s (Prim m k) susp) (mk_machine s' (k x) susp)
  | step_while test body k s s' b susp :
      test s = Ok (b, s') ->
      step (mk_machine s (While test body k) susp)
        (mk_machine s' (if b then body ⨾ While test body k else k) susp)
  | step_switch next k s s1 sp susp k' :
      save_context sp s = Some s1 ->
      resume s1 (<[cur s := k]> susp) next = Some k' ->
      step (mk_machine s (Switch next k) susp)
        (mk_machine (set_cur next s1) (k' (cur s)) (<[cur s := k]> susp))
  | step_interrupt vec garbage s c susp :
      intr s = INTR_ON -> vec ∈ vectors ->
      step (mk_machine s c susp)
        (mk_machine (set_intr INTR_OFF s)
           (intr_handler (handlers garbage) vec ⨾ prim (modify (set_intr INTR_ON)) ⨾ c) susp).

(** The running code fails: an assertion fires, memory is accessed where
    there is no object, a switch goes to something that is no thread, or the
    thread's function returns into nowhere. *)
Definition fails (m : machine) : Prop :=
  match run m with
  | Ret _ => True
  | Prim p _ => exists e, p (ks m) = Err e
  | While test _ _ => exists e, test (ks m) = Err e
  | Switch next k => forall m', ~ step m m'
  end.

End boot.
