(* ===== verification/KInv.v ===== *)
(** * The invariant of the threads package

    The invariant, and then how the changes that the code makes preserve it. *)

From Stdlib Require Import ZArith Lia.
From stdpp Require Import base numbers gmap list.
From S2P Require Import Prelude DList Bitmap Vaddr Palloc Kernel Thread.

Open Scope Z_scope.

(** * The invariant

    [kbase] is the invariant that holds of the kernel's data whenever its
    lists, its threads and its locks are consistent; [kinv] is what holds
    whenever interrupts are on.  The ghost state names the content of every
    list, the thread that has downed each lock's semaphore, and the pages that
    a thread has allocated and not yet published.  [mine] is what a thread can
    rely on while others run. *)

Record ghost := mk_ghost {
  lists : gmap Z (list Z);
  owner : gmap Z Z;
  private : gmap Z Z }.

Definition set_lists v g := mk_ghost v (owner g) (private g).
Definition set_owner v g := mk_ghost (lists g) v (private g).
Definition set_private v g := mk_ghost (lists g) (owner g) v.

(** Page [i] of the kernel pool is at [p] and in use. *)
Definition kernel_page (s : kstate) (p : Z) : Prop :=
  exists i, 0 <= i < bit_cnt (used_map (kernel_pool (memory s))) /\
    p = page (kernel_pool (memory s)) i /\ used (kernel_pool (memory s)) i = true.

(** The addresses inside the kernel pool. *)
Definition in_pool (s : kstate) (a : Z) : Prop :=
  base (kernel_pool (memory s)) <= a <
  base (kernel_pool (memory s)) + 4096 * bit_cnt (used_map (kernel_pool (memory s))).

#[global] Instance in_pool_dec s a : Decision (in_pool s a).
Proof. unfold in_pool. apply _. Defined.

(** The state of a lock: its holder field, its semaphore's value, and the
    thread that has downed the semaphore. *)
Definition lock_state (h v : Z) (o : option Z) : Prop :=
  match o with
  | None => v = 1 /\ h = NULL
  | Some t => v = 0 /\ (h = NULL \/ h = t)
  end.

Section kinv.
Context `{Image} (fn_ok : Z -> Prop).

(** A stack that switch_threads() can return on: that of a thread inside
    schedule(), or the one thread_create() lays out. *)
Definition suspended_stack (th : thread) : Prop :=
  frames th !! stack th = Some (switch_threads_frame in_schedule).
Definition fresh_stack (th : thread) : Prop :=
  exists e f aux,
    frames th !! stack th = Some (switch_threads_frame switch_entry) /\
    frames th !! (stack th + 28) = Some (switch_entry_frame kernel_thread_entry) /\
    frames th !! (stack th + 32) = Some (kernel_thread_frame e f aux) /\
    f <> NULL /\ f <> idle_function /\ fn_ok f.

(** Where a thread that does not run is, by its status. *)
Definition placed (s : kstate) (g : ghost) (t : Z) (st : thread_status) : Prop :=
  match st with
  | THREAD_READY => t = idle_thread s \/
      exists rl, lists g !! ready_list = Some rl /\ elem_of_thread t ∈ rl
  | THREAD_BLOCKED => t = idle_thread s \/ is_Some (private g !! t) \/
      exists l xs, lists g !! l = Some xs /\ l <> ready_list /\ elem_of_thread t ∈ xs
  | THREAD_DYING => t = initial_thread s
  | THREAD_RUNNING => False
  end.

(** The status of a thread in a list. *)
Definition list_status (l : Z) : thread_status :=
  if decide (l = ready_list) then THREAD_READY else THREAD_BLOCKED.

(** A semaphore that is not part of a lock. *)
Definition plain (s : kstate) (sa : Z) : Prop :=
  is_Some (semas s !! sa) /\ forall l, lock_semaphore l = sa -> locks s !! l = None.

(** The semaphores and locks that always exist. *)
Definition static (s : kstate) : Prop :=
  is_Some (locks s !! tid_lock) /\ is_Some (locks s !! kernel_pool_lock) /\
  (forall sa, sa ∈ program_semas -> plain s sa) /\
  (forall l, l ∈ program_locks -> is_Some (locks s !! l)).

(** [c] is the thread that runs, if any, and [d] one that is dying. *)
Record kbase (c d : option Z) (s : kstate) (g : ghost) : Prop := {
  kb_lists : lists_ok (lmem s) (lists g);
  kb_ready : is_Some (lists g !! ready_list);
  kb_block : is_Some (lists g !! block_list) /\ block_list <> ready_list;
  kb_sema : forall sa v, semas s !! sa = Some v ->
    sa <> NULL /\ in_u 32 v /\ is_Some (lists g !! waiters sa) /\ waiters sa <> ready_list;
  kb_elems : forall l xs e, lists g !! l = Some xs -> e ∈ xs ->
    exists t th, e = elem_of_thread t /\ threads s !! t = Some th /\
      c <> Some t /\ d <> Some t /\ t <> idle_thread s /\ private g !! t = None /\
      status th = list_status l;
  kb_thread : forall t th, threads s !! t = Some th ->
    0 < t /\ t mod 4096 = 0 /\ magic th = THREAD_MAGIC /\ elem_of_thread t ∈ dom (lmem s);
  kb_heads : forall l xs t, lists g !! l = Some xs -> is_Some (threads s !! t) ->
    elem_of_thread t <> head l /\ elem_of_thread t <> tail l;
  kb_status : forall t th, threads s !! t = Some th -> c <> Some t -> d <> Some t ->
    placed s g t (status th);
  kb_stack : forall t th, threads s !! t = Some th -> t <> cur s -> private g !! t = None ->
    suspended_stack th \/ fresh_stack th;
  kb_cur : is_Some (threads s !! cur s) /\ private g !! cur s = None;
  kb_running : forall t, c = Some t -> private g !! t = None /\
    exists th, threads s !! t = Some th /\ status th <> THREAD_DYING;
  kb_dying : forall t, d = Some t -> c <> Some t /\ t <> initial_thread s /\
    t <> idle_thread s /\ private g !! t = None /\
    exists th, threads s !! t = Some th /\ status th = THREAD_DYING;
  kb_idle : private g !! idle_thread s = None /\ idle_thread s <> initial_thread s /\
    exists th, threads s !! idle_thread s = Some th /\
      (idle_thread s = cur s \/ suspended_stack th);
  kb_lock : forall l h, locks s !! l = Some h -> l <> NULL /\
    exists v, semas s !! lock_semaphore l = Some v /\ lock_state h v (owner g !! l);
  kb_owner : forall l t, owner g !! l = Some t -> d <> Some t /\
    exists th, threads s !! t = Some th /\ (t = cur s \/ suspended_stack th);
  kb_static : static s;
  kb_pools : pools_wf (memory s);
  kb_page : forall t, is_Some (threads s !! t) -> t <> initial_thread s -> kernel_page s t;
  kb_private : forall p t, private g !! p = Some t -> kernel_page s p;
  kb_pool : forall a, in_pool s a ->
    (a ∈ dom (lmem s) -> exists t, is_Some (threads s !! t) /\ a = elem_of_thread t) /\
    semas s !! a = None /\ locks s !! a = None;
  kb_initial : ~ in_pool s (initial_thread s) }.

Lemma dom_is_Some {A} (m m' : gmap Z A) k :
  dom m' = dom m -> (is_Some (m' !! k) <-> is_Some (m !! k)).
Proof. intros E. by rewrite <- !elem_of_dom, E. Qed.

Lemma plain_dom s s' sa : dom (semas s') = dom (semas s) -> dom (locks s') = dom (locks s) ->
  plain s sa -> plain s' sa.
Proof.
  intros Ds Dl [Hs Hl]. split; [by apply (dom_is_Some (semas s))|].
  intros l El. specialize (Hl l El). apply eq_None_not_Some. intros Hi.
  apply (dom_is_Some (locks s)) in Hi; [|done]. rewrite Hl in Hi. by destruct Hi.
Qed.

Lemma static_dom s s' : dom (semas s') = dom (semas s) -> dom (locks s') = dom (locks s) ->
  static s -> static s'.
Proof.
  intros Ds Dl (? & ? & ? & ?). split_and!; try (by apply (dom_is_Some (locks s))).
  - intros sa Hs. apply (plain_dom s); auto.
  - intros l Hl. apply (dom_is_Some (locks s)); auto.
Qed.

(** What holds whenever interrupts are on. *)
Definition kinv (s : kstate) (g : ghost) : Prop :=
  kbase (Some (cur s)) None s g /\ in_external_intr s = false /\
  exists th, threads s !! cur s = Some th /\ status th = THREAD_RUNNING.

(** What holds when switch_threads() has just returned, [prev] being the
    thread it switched from. *)
Definition swinv (prev : Z) (s : kstate) (g : ghost) : Prop :=
  intr s = INTR_OFF /\ in_external_intr s = false /\ prev <> NULL /\ prev <> cur s /\
  private g !! prev = None /\
  (forall th, threads s !! cur s = Some th -> suspended_stack th \/
     fresh_stack th /\ cur s <> idle_thread s /\ forall l, owner g !! l <> Some (cur s)) /\
  exists d th, kbase (Some (cur s)) d s g /\ (forall t, d = Some t -> t = prev) /\
    threads s !! prev = Some th /\
    (status th = THREAD_DYING -> prev <> initial_thread s -> d = Some prev).

(** ** What a thread relies on *)

(** The locks [t] owns, among those in [FL], the pages private to it, among
    those in [FP], and its own attributes are as they were. *)
Record mine_at (FL FP : Z -> Prop) (t : Z) (s : kstate) (g : ghost) (s' : kstate) (g' : ghost) :
  Prop := {
  mine_owner : forall l, FL l -> (owner g !! l = Some t <-> owner g' !! l = Some t);
  mine_locks : forall l, FL l -> owner g !! l = Some t -> locks s' !! l = locks s !! l;
  mine_pages : forall p, FP p -> private g !! p = Some t ->
    private g' !! p = Some t /\ threads s' !! p = threads s !! p;
  mine_semas : dom (semas s') = dom (semas s);
  mine_dlocks : dom (locks s') = dom (locks s);
  mine_idle : idle_thread s' = idle_thread s;
  mine_initial : initial_thread s' = initial_thread s;
  mine_self : forall th, threads s !! t = Some th -> exists th', threads s' !! t = Some th' /\
    tid th' = tid th /\ name th' = name th /\ priority th' = priority th /\
    (status th = THREAD_DYING -> status th' = THREAD_DYING) }.

Definition mine : Z -> kstate -> ghost -> kstate -> ghost -> Prop :=
  mine_at (fun _ => True) (fun _ => True).

Lemma mine_at_refl FL FP t s g : mine_at FL FP t s g s g.
Proof. split; try done. intros th E. by exists th. Qed.

Lemma mine_at_trans FL FP t s1 g1 s2 g2 s3 g3 :
  mine_at FL FP t s1 g1 s2 g2 -> mine_at FL FP t s2 g2 s3 g3 -> mine_at FL FP t s1 g1 s3 g3.
Proof.
  intros A B. split; try (destruct A, B; congruence).
  - intros l Hl. by rewrite (mine_owner _ _ _ _ _ _ _ A), (mine_owner _ _ _ _ _ _ _ B).
  - intros l Hl E. rewrite (mine_locks _ _ _ _ _ _ _ B) by (done || by apply (mine_owner _ _ _ _ _ _ _ A)).
    by apply (mine_locks _ _ _ _ _ _ _ A).
  - intros p Hp E. destruct (mine_pages _ _ _ _ _ _ _ A p Hp E) as [E1 <-].
    by apply (mine_pages _ _ _ _ _ _ _ B).
  - intros th E. destruct (mine_self _ _ _ _ _ _ _ A th E) as (th2 & E2 & <- & <- & <- & Hd2).
    destruct (mine_self _ _ _ _ _ _ _ B th2 E2) as (th3 & E3 & <- & <- & <- & Hd3).
    exists th3. auto 10.
Qed.

Lemma mine_at_weaken (FL FP FL' FP' : Z -> Prop) t s g s' g' :
  (forall l, FL' l -> FL l) -> (forall p, FP' p -> FP p) ->
  mine_at FL FP t s g s' g' -> mine_at FL' FP' t s g s' g'.
Proof. intros HL HP []. split; eauto. Qed.

(** ** What a thread guarantees *)

(** A step of the current thread leaves alone what suspended threads rely on. *)
Definition guar (s : kstate) (g : ghost) (s' : kstate) (g' : ghost) : Prop :=
  cur s' = cur s /\
  forall t th', t <> cur s -> threads s' !! t = Some th' -> suspended_stack th' ->
    status th' <> THREAD_DYING ->
    mine t s g s' g' /\
    exists th, threads s !! t = Some th /\ suspended_stack th /\ status th <> THREAD_DYING.

(** What other threads do while the current one is interrupted. *)
Definition rely (s : kstate) (g : ghost) (s' : kstate) (g' : ghost) : Prop :=
  kinv s' g' /\ cur s' = cur s /\ intr s' = INTR_ON /\ mine (cur s) s g s' g'.

End kinv.

(** * How the invariant is preserved

    Lemmas that re-establish [kbase] after each kind of change: a thread that
    changes place, a semaphore's value, a lock's holder, a thread that dies,
    is freed or is created. *)

(** The parts of the state that placing threads does not change. *)
Definition rest_eq (s s' : kstate) : Prop :=
  semas s' = semas s /\ locks s' = locks s /\ cur s' = cur s /\
  idle_thread s' = idle_thread s /\ initial_thread s' = initial_thread s /\ memory s' = memory s.

Lemma elem_of_thread_inj t t' : elem_of_thread t = elem_of_thread t' -> t = t'.
Proof. unfold elem_of_thread. lia. Qed.

(** The same stack, and a thread all the same. *)
Definition same_stack (th th' : thread) : Prop :=
  magic th' = magic th /\ stack th' = stack th /\ frames th' = frames th.

Section move.
Context `{Image} (fn_ok : Z -> Prop).

Lemma same_stack_ok th th' : same_stack th th' ->
  (suspended_stack th -> suspended_stack th') /\ (fresh_stack fn_ok th -> fresh_stack fn_ok th').
Proof.
  intros (_ & Es & Ef). unfold suspended_stack, fresh_stack. rewrite Es, Ef. done.
Qed.

(** Only the fields that it mentions matter to the invariant. *)
Lemma kbase_ext c d s s' g :
  kbase fn_ok c d s g -> rest_eq s s' -> lmem s' = lmem s -> threads s' = threads s ->
  kbase fn_ok c d s' g.
Proof.
  intros [] (E1 & E2 & E3 & E4 & E5 & E6) E7 E8.
  unfold placed, kernel_page, in_pool in *.
  split; unfold placed, kernel_page, in_pool, static, plain; rewrite ?E1, ?E2, ?E3, ?E4, ?E5, ?E6, ?E7, ?E8; done.
Qed.

Section one_thread.
Context (c d c' d' : option Z) (s s' : kstate) (g g' : ghost) (t : Z) (th th' : thread).
Context (B : kbase fn_ok c d s g) (R : rest_eq s s').
Context (Et : threads s !! t = Some th) (Et' : threads s' = <[t := th']> (threads s)).
Context (Hth : same_stack th th').

Lemma move_lookup u uh : threads s' !! u = Some uh ->
  exists uh0, threads s !! u = Some uh0 /\ same_stack uh0 uh /\ (u <> t -> uh = uh0) /\
    (u = t -> uh = th').
Proof.
  rewrite Et'. destruct (decide (u = t)) as [->|Hne].
  - rewrite lookup_insert_eq. intros [= <-]. exists th. done.
  - rewrite lookup_insert_ne by done. intros E. by exists uh.
Qed.

Lemma move_is_Some u : is_Some (threads s' !! u) <-> is_Some (threads s !! u).
Proof.
  rewrite Et'. destruct (decide (u = t)) as [->|Hne].
  - rewrite lookup_insert_eq, Et. split; eauto.
  - by rewrite lookup_insert_ne.
Qed.

Lemma move_lookup_ne u : u <> t -> threads s' !! u = threads s !! u.
Proof. intros. by rewrite Et', lookup_insert_ne. Qed.

Lemma move_lookup_eq : threads s' !! t = Some th'.
Proof. by rewrite Et', lookup_insert_eq. Qed.

(** Thread [t] changes its status or its place. *)
Lemma kbase_move :
  lists_ok (lmem s') (lists g') -> dom (lmem s') = dom (lmem s) ->
  owner g' = owner g ->
  (forall p, p <> t -> private g' !! p = private g !! p) ->
  (private g' !! t = private g !! t \/ private g' !! t = None /\ fresh_stack fn_ok th) ->
  (forall l, is_Some (lists g' !! l) <-> is_Some (lists g !! l)) ->
  (forall l xs' e, lists g' !! l = Some xs' -> e ∈ xs' ->
     e = elem_of_thread t /\ status th' = list_status l /\ c' <> Some t /\ d' <> Some t /\
       t <> idle_thread s /\ private g' !! t = None \/
     exists xs, lists g !! l = Some xs /\ e ∈ xs /\ e <> elem_of_thread t) ->
  (forall l xs e, lists g !! l = Some xs -> e ∈ xs -> e <> elem_of_thread t ->
     exists xs', lists g' !! l = Some xs' /\ e ∈ xs') ->
  (forall u, u <> t -> (c' = Some u <-> c = Some u)) ->
  (forall u, u <> t -> (d' = Some u <-> d = Some u)) ->
  (c' <> Some t -> d' <> Some t -> placed s' g' t (status th')) ->
  (c' = Some t -> private g' !! t = None /\ status th' <> THREAD_DYING) ->
  (d' = Some t -> c' <> Some t /\ t <> initial_thread s /\ t <> idle_thread s /\
     private g' !! t = None /\ status th' = THREAD_DYING /\ forall l, owner g !! l <> Some t) ->
  kbase fn_ok c' d' s' g'.
Proof.
  intros HL Hdom Ho Hp Hpt Hd Hin Hout Hc Hdt Hpl Hrun Hdie.
  destruct R as (E1 & E2 & E3 & E4 & E5 & E6). pose proof B as [Klists Kready Kblock Ksema Kelems Kthread Kheads Kstatus Kstack Kcur Krunning
    Kdying Kidle Klock Kowner Kstatic Kpools Kpage Kprivate Kpool Kinitial].
  assert (Hpn : forall u, private g !! u = None -> private g' !! u = None).
  { intros u Hu. destruct (decide (u = t)) as [->|Hne]; [|by rewrite Hp].
    destruct Hpt as [->|[-> _]]; done. }
  assert (Hps : forall u v, private g' !! u = Some v -> private g !! u = Some v).
  { intros u v Hu. destruct (decide (u = t)) as [->|Hne]; [|by rewrite <- Hp].
    destruct Hpt as [<-|[Hn _]]; congruence. }
  split; unfold static, plain; rewrite ?E1, ?E2, ?E3, ?E4, ?E5, ?E6, ?Ho, ?Hdom; try done.
  - by apply Hd.
  - rewrite Hd. done.
  - intros sa v Ev. destruct (Ksema sa v Ev) as (? & ? & ? & ?). rewrite Hd. done.
  - intros l xs e El He. destruct (Hin l xs e El He) as [(-> & Hs & Hc' & Hd' & Hi & Hpr) | (xs0 & El0 & He0 & Hne)].
    + exists t, th'. split_and!; try done. apply move_lookup_eq.
    + destruct (Kelems l xs0 e El0 He0) as (u & uh & -> & Eu & Hcu & Hdu & Hiu & Hpu & Hsu).
      assert (Hut : u <> t) by (by intros ->). exists u, uh.
      rewrite move_lookup_ne, Hc, Hdt by done. split_and!; try done. by apply Hpn.
  - intros u uh (uh0 & E0 & (Hm & _) & _)%move_lookup. rewrite Hm. by apply Kthread in E0.
  - intros l xs u El Hu%move_is_Some.
    assert (Hl0 : is_Some (lists g !! l)) by (apply Hd; eauto). destruct Hl0 as [xs0 El0].
    by eapply Kheads.
  - intros u uh (uh0 & E0 & Hss & Hne & Heq)%move_lookup Hcu Hdu.
    destruct (decide (u = t)) as [->|Hut]; [rewrite Heq by done; by apply Hpl|].
    rewrite Hne by done. assert (Hcu' : c <> Some u) by (by rewrite <- Hc).
    assert (Hdu' : d <> Some u) by (by rewrite <- Hdt).
    pose proof (Kstatus u uh0 E0 Hcu' Hdu') as P. unfold placed in *. rewrite E4, E5.
    assert (Hel : elem_of_thread u <> elem_of_thread t) by (by intros ?%elem_of_thread_inj).
    destruct (status uh0); [done| | |done].
    + destruct P as [->|(rl & Erl & Hrl)]; [by left|]. right. by eapply Hout.
    + destruct P as [->|[[v Hv]|(l & xs & El & Hl & He)]]; [by left| |].
      * right; left. rewrite Hp by done. eauto.
      * right; right. destruct (Hout l xs _ El He Hel) as (xs' & ? & ?). eauto 6.
  - intros u uh (uh0 & E0 & Hss & Hne & Heq)%move_lookup Hcu Hpu.
    destruct (same_stack_ok _ _ Hss) as [S1 S2]. destruct (decide (u = t)) as [->|Hut].
    + rewrite Et in E0. injection E0 as <-.
      destruct Hpt as [Hpt|[_ Hfr]]; [|by auto]. rewrite Hpt in Hpu.
      destruct (Kstack t th Et Hcu Hpu); auto.
    + rewrite Hp in Hpu by done. destruct (Kstack u uh0 E0 Hcu Hpu); auto.
  - rewrite move_is_Some. destruct Kcur. eauto.
  - intros u Hu. destruct (decide (u = t)) as [->|Hut].
    + destruct (Hrun Hu). rewrite move_lookup_eq. eauto.
    + apply Hc in Hu; [|done]. rewrite Hp, move_lookup_ne by done. by apply Krunning.
  - intros u Hu. destruct (decide (u = t)) as [->|Hut].
    + destruct (Hdie Hu) as (? & ? & ? & ? & ? & ?). split_and!; try done.
      exists th'. by rewrite move_lookup_eq.
    + rewrite Hdt in Hu by done. destruct (Kdying u Hu) as (Hcu & ? & ? & ? & ?).
      rewrite Hp, move_lookup_ne, Hc by done. done.
  - destruct Kidle as (? & ? & uh & Eu & Hu). split_and!; [by apply Hpn|done|].
    destruct (decide (idle_thread s = t)) as [Ei|Hne].
    + rewrite Ei, move_lookup_eq. exists th'. split; [done|]. rewrite Ei, Et in Eu.
      injection Eu as <-. destruct (same_stack_ok _ _ Hth). rewrite <- Ei. destruct Hu; auto.
    + rewrite move_lookup_ne by done. eauto.
  - intros l u Eu. destruct (Kowner l u Eu) as (Hdu & uh & Euh & Hu). split.
    { destruct (decide (u = t)) as [->|Hne]; [|by rewrite Hdt].
      intros Hd'. destruct (Hdie Hd') as (_ & _ & _ & _ & _ & Hno). by apply (Hno l). }
    destruct (decide (u = t)) as [->|Hne].
    + rewrite move_lookup_eq. exists th'. split; [done|]. rewrite Et in Euh. injection Euh as <-.
      destruct (same_stack_ok _ _ Hth). destruct Hu; auto.
    + rewrite move_lookup_ne by done. eauto.
  - intros u Hu%move_is_Some. unfold kernel_page. rewrite E6. by apply Kpage.
  - intros p v Hv%Hps. unfold kernel_page. rewrite E6. by eapply Kprivate.
  - intros a Ha. unfold in_pool in Ha. rewrite E6 in Ha. destruct (Kpool a Ha) as (Ha1 & ? & ?).
    split_and!; try done. intros Hin'. destruct (Ha1 Hin') as (u & Hu & ->).
    exists u. by rewrite move_is_Some.
  - unfold in_pool. by rewrite E6.
Qed.
End one_thread.

(** Semaphores' values, locks' holders and owners change. *)
Lemma kbase_locks c d s s' g O' :
  kbase fn_ok c d s g -> lmem s' = lmem s -> threads s' = threads s -> cur s' = cur s ->
  idle_thread s' = idle_thread s -> initial_thread s' = initial_thread s -> memory s' = memory s ->
  dom (semas s') = dom (semas s) -> dom (locks s') = dom (locks s) ->
  (forall sa v, semas s' !! sa = Some v -> in_u 32 v) ->
  (forall l h, locks s' !! l = Some h ->
     exists v, semas s' !! lock_semaphore l = Some v /\ lock_state h v (O' !! l)) ->
  (forall l t, O' !! l = Some t -> owner g !! l = Some t \/ t = cur s /\ d <> Some t) ->
  kbase fn_ok c d s' (set_owner O' g).
Proof.
  intros [Klists Kready Kblock Ksema Kelems Kthread Kheads Kstatus Kstack Kcur Krunning
    Kdying Kidle Klock Kowner Kstatic Kpools Kpage Kprivate Kpool Kinitial]
    E1 E2 E3 E4 E5 E6 Ds Dl Hv Hl Ho.
  assert (Hs : forall sa, is_Some (semas s' !! sa) <-> is_Some (semas s !! sa)).
  { intros sa. by rewrite <- !elem_of_dom, Ds. }
  assert (Hk : forall l, is_Some (locks s' !! l) <-> is_Some (locks s !! l)).
  { intros l. by rewrite <- !elem_of_dom, Dl. }
  split; unfold placed, kernel_page, in_pool, static, plain; rewrite ?E1, ?E2, ?E3, ?E4, ?E5, ?E6;
    cbn [lists owner private set_owner]; try done.
  - intros sa v Ev. destruct (proj1 (Hs sa)) as [v0 Ev0]; [by eauto|].
    destruct (Ksema sa v0 Ev0) as (? & _ & ? & ?). split_and!; try done. by eapply Hv.
  - intros l h Eh. destruct (proj1 (Hk l)) as [h0 Eh0]; [by eauto|].
    destruct (Klock l h0 Eh0) as [? _]. split; [done|]. by apply Hl.
  - intros l t Et. destruct (Ho l t Et) as [Eo | [-> Hd]]; [by apply (Kowner l)|].
    destruct Kcur as [[th Eth] _]. eauto 6.
  - by apply (static_dom s).
  - intros a Ha. destruct (Kpool a Ha) as (? & Hsn & Hln). split_and!; try done.
    + apply eq_None_not_Some. rewrite Hs, Hsn. by intros [].
    + apply eq_None_not_Some. rewrite Hk, Hln. by intros [].
Qed.

(** The context switch from [cur s] to [next]. *)
Lemma kbase_switch d s s' g next sp th :
  kbase fn_ok (Some next) d s g -> threads s !! cur s = Some th -> next <> cur s ->
  lmem s' = lmem s -> semas s' = semas s -> locks s' = locks s -> cur s' = next ->
  idle_thread s' = idle_thread s -> initial_thread s' = initial_thread s -> memory s' = memory s ->
  threads s' = <[cur s := with_stack sp
    (<[sp := switch_threads_frame in_schedule]> (frames th)) th]> (threads s) ->
  kbase fn_ok (Some next) d s' g.
Proof.
  intros [Klists Kready Kblock Ksema Kelems Kthread Kheads Kstatus Kstack Kcur Krunning
    Kdying Kidle Klock Kowner Kstatic Kpools Kpage Kprivate Kpool Kinitial]
    Eth Hne E1 E2 E3 E4 E5 E6 E7 Ets.
  set (th1 := with_stack _ _ _) in Ets.
  assert (Hcur : threads s' !! cur s = Some th1) by (by rewrite Ets, lookup_insert_eq).
  assert (Hoth : forall u, u <> cur s -> threads s' !! u = threads s !! u).
  { intros u Hu. by rewrite Ets, lookup_insert_ne. }
  assert (Hsus : suspended_stack th1).
  { unfold suspended_stack, th1. cbn. by rewrite lookup_insert_eq. }
  assert (His : forall u, is_Some (threads s' !! u) <-> is_Some (threads s !! u)).
  { intros u. destruct (decide (u = cur s)) as [->|Hu]; [|by rewrite Hoth].
    rewrite Hcur, Eth. split; eauto. }
  assert (Hlk : forall u uh, threads s' !! u = Some uh -> exists uh0, threads s !! u = Some uh0 /\
    status uh = status uh0 /\ magic uh = magic uh0 /\ (u <> cur s -> uh = uh0)).
  { intros u uh. destruct (decide (u = cur s)) as [->|Hu].
    - rewrite Hcur. intros [= <-]. exists th. done.
    - rewrite Hoth by done. intros E. by exists uh. }
  assert (Hlk' : forall u uh0, threads s !! u = Some uh0 -> exists uh, threads s' !! u = Some uh /\
    status uh = status uh0 /\ (u = cur s \/ suspended_stack uh0 -> suspended_stack uh)).
  { intros u uh0 E. destruct (decide (u = cur s)) as [->|Hu].
    - exists th1. rewrite Eth in E. injection E as <-. done.
    - exists uh0. rewrite Hoth by done. tauto. }
  split; unfold placed, kernel_page, in_pool, static, plain; rewrite ?E1, ?E2, ?E3, ?E4, ?E5, ?E6, ?E7; try done.
  - intros l xs e El He. destruct (Kelems l xs e El He) as (u & uh0 & -> & Eu & Hr).
    destruct (Hlk' u uh0 Eu) as (uh & Euh & Hst & _). exists u, uh. rewrite Hst. done.
  - intros u uh (uh0 & E0 & _ & -> & _)%Hlk. by apply Kthread in E0.
  - intros l xs u El Hu%His. by eapply Kheads.
  - intros u uh (uh0 & E0 & -> & _)%Hlk. by apply Kstatus.
  - intros u uh Eu Hu Hp. destruct (decide (u = cur s)) as [->|Hn].
    + left. congruence.
    + rewrite Hoth in Eu by done. by eapply Kstack.
  - rewrite His. destruct (Krunning next eq_refl) as (? & uh & ? & ?). eauto.
  - intros u [= <-]. destruct (Krunning next eq_refl) as (? & uh & ? & ?).
    rewrite Hoth by done. eauto.
  - intros u Hu. destruct (Kdying u Hu) as (? & ? & ? & ? & uh0 & E0 & Hd).
    destruct (Hlk' u uh0 E0) as (uh & Euh & Hst & _). split_and!; try done. exists uh. by rewrite Hst.
  - destruct Kidle as (? & ? & uh0 & E0 & Hi). split_and!; try done.
    destruct (Hlk' _ uh0 E0) as (uh & Euh & _ & Hs). eauto.
  - intros l u Eu. destruct (Kowner l u Eu) as (? & uh0 & E0 & Hi). split; [done|].
    destruct (Hlk' _ uh0 E0) as (uh & Euh & _ & Hs). eauto.
  - intros u Hu%His. by apply Kpage.
  - intros a Ha. destruct (Kpool a Ha) as (Hl & ? & ?). split_and!; try done.
    intros Hd. destruct (Hl Hd) as (u & Hu & ->). exists u. by rewrite His.
Qed.

(** ** Pages *)

Lemma in_page_elem p u : p mod 4096 = 0 -> u mod 4096 = 0 ->
  in_page p (elem_of_thread u) = bool_decide (u = p).
Proof.
  intros Hp Hu. unfold in_page, elem_of_thread, elem_ofs. change PGSIZE with 4096.
  pose proof (Z.div_mod p 4096). pose proof (Z.div_mod u 4096).
  destruct (bool_decide_reflect (u = p)) as [->|Hne].
  - by rewrite (proj2 (Z.leb_le _ _)), (proj2 (Z.ltb_lt _ _)) by lia.
  - apply andb_false_iff. rewrite Z.leb_gt, Z.ltb_ge. lia.
Qed.

Lemma in_page_self p : in_page p p = true.
Proof.
  unfold in_page. change PGSIZE with 4096.
  by rewrite (proj2 (Z.leb_le _ _)), (proj2 (Z.ltb_lt _ _)) by lia.
Qed.

Lemma page_inj p i j : page p i = page p j -> i = j.
Proof. unfold page. lia. Qed.

Section pages.
Context (c d : option Z) (s : kstate) (g : ghost) (B : kbase fn_ok c d s g).

Abbreviation kp := (kernel_pool (memory s)).

Lemma pool_page_facts i : 0 <= i < bit_cnt (used_map kp) ->
  0 < page kp i /\ page kp i mod 4096 = 0 /\
  forall a, in_page (page kp i) a = true -> in_pool s a.
Proof.
  intros Hi. pose proof (kb_pools _ _ _ _ _ B) as (Hk & _). split_and!.
  - by apply page_range.
  - by apply page_aligned.
  - intros a [Ha1%Z.leb_le Ha2%Z.ltb_lt]%andb_true_iff. change PGSIZE with 4096 in Ha2.
    unfold in_pool, page in *. lia.
Qed.

(** A free page is not a thread, and no list element is in it. *)
Lemma free_page_fresh i : 0 <= i < bit_cnt (used_map kp) -> used kp i = false ->
  threads s !! page kp i = None /\ private g !! page kp i = None.
Proof.
  intros Hi Hu. destruct (pool_page_facts i Hi) as (Hpos & Hal & Hin). split.
  - apply eq_None_not_Some. intros Ht. destruct (decide (page kp i = initial_thread s)) as [E|Hne].
    + apply (kb_initial _ _ _ _ _ B). rewrite <- E. apply Hin, in_page_self.
    + destruct (kb_page _ _ _ _ _ B _ Ht Hne) as (j & Hj & E%page_inj & Hu'). congruence.
  - destruct (private g !! page kp i) as [v|] eqn:E; [|done].
    destruct (kb_private _ _ _ _ _ B _ _ E) as (j & Hj & E'%page_inj & Hu'). congruence.
Qed.

Lemma elem_not_in_memory p : kernel_page s p -> threads s !! p = None ->
  elem_of_thread p ∉ dom (lmem s).
Proof.
  intros (i & Hi & -> & _) Hn Hd. destruct (pool_page_facts i Hi) as (_ & Hal & Hin).
  destruct (kb_pool _ _ _ _ _ B (elem_of_thread (page kp i))) as (Hex & _).
  { apply Hin. by rewrite in_page_elem, bool_decide_eq_true_2. }
  destruct (Hex Hd) as (u & [th Hu] & <-%elem_of_thread_inj). congruence.
Qed.

(** Allocation of a page, which becomes private to [t]. *)
Lemma kbase_alloc s' kp' i t :
  0 <= i < bit_cnt (used_map kp) -> used kp i = false ->
  pool_updated kp kp' (fun j => if in_range i 1 j then true else used kp j) ->
  rest_eq (set_memory (mk_pools kp' (user_pool (memory s))) s) s' ->
  lmem s' = lmem s -> threads s' = threads s ->
  kbase fn_ok c d s' (set_private (<[page kp i := t]> (private g)) g).
Proof.
  intros Hi Hu Hupd (E1 & E2 & E3 & E4 & E5 & E6) E7 E8. cbn in *.
  destruct (free_page_fresh i Hi Hu) as [Hnt Hnp].
  pose proof Hupd as (Eb & Hw & Ec & _ & Hbit).
  destruct B as [Klists Kready Kblock Ksema Kelems Kthread Kheads Kstatus Kstack Kcur Krunning
    Kdying Kidle Klock Kowner Kstatic Kpools Kpage Kprivate Kpool Kinitial].
  assert (Hpn : forall u, is_Some (threads s !! u) -> <[page kp i := t]> (private g) !! u = private g !! u).
  { intros u [th Eu]. rewrite lookup_insert_ne; [done|]. congruence. }
  assert (Hkp : forall p, kernel_page s p -> kernel_page s' p).
  { intros p (j & Hj & -> & Hju). exists j. rewrite E6. cbn. rewrite Ec. unfold page, used in *.
    rewrite Eb, Hbit by lia. split; [done|]. split; [done|]. by destruct (in_range i 1 j). }
  assert (Hip : forall a, in_pool s' a <-> in_pool s a).
  { intros a. unfold in_pool. rewrite E6. cbn. by rewrite Eb, Ec. }
  split; unfold static, plain; rewrite ?E1, ?E2, ?E3, ?E4, ?E5, ?E7, ?E8; cbn [lists owner private set_private]; try done.
  - intros l xs e El He. destruct (Kelems l xs e El He) as (u & uh & ? & Eu & ? & ? & ? & ? & ?).
    exists u, uh. rewrite Hpn by eauto. done.
  - intros u uh Eu Hc Hd. pose proof (Kstatus u uh Eu Hc Hd) as P. unfold placed in *.
    rewrite E4, E5. cbn. rewrite Hpn by eauto. done.
  - intros u uh Eu Hc. rewrite Hpn by eauto. by apply Kstack.
  - destruct Kcur. by rewrite Hpn.
  - intros u Hc. destruct (Krunning u Hc) as (? & uh & Eu & ?). rewrite Hpn by eauto. eauto.
  - intros u Hd. destruct (Kdying u Hd) as (? & ? & ? & ? & uh & Eu & ?).
    rewrite Hpn by eauto. split_and!; eauto.
  - destruct Kidle as (? & ? & uh & Eu & ?). rewrite Hpn by eauto. eauto.
  - destruct Kpools as (Hk & Hus & Hdj). rewrite E6. split_and!; cbn; [|done|by rewrite Eb, Ec].
    exact (pool_updated_wf _ _ _ Hk Hupd).
  - intros u Hs Hne. by apply Hkp, Kpage.
  - intros p v. rewrite lookup_insert_Some. intros [[<- <-] | [_ Ev]]; [|by eapply Hkp, Kprivate].
    exists i. rewrite E6. cbn. rewrite Ec. unfold page, used. rewrite Eb, Hbit by lia.
    split_and!; try done; try lia. unfold in_range. by rewrite Z.leb_refl, (proj2 (Z.ltb_lt _ _)) by lia.
  - intros a Ha%Hip. by apply Kpool.
  - by rewrite Hip.
Qed.

(** A new thread in a private page. *)
Lemma kbase_new s' p t th :
  private g !! p = Some t -> threads s !! p = None ->
  status th = THREAD_BLOCKED -> magic th = THREAD_MAGIC ->
  rest_eq s s' -> threads s' = <[p := th]> (threads s) ->
  (exists e, lmem s' = <[elem_of_thread p := e]> (lmem s)) ->
  kbase fn_ok c d s' g.
Proof.
  intros Hp Hn Hst Hmg (E1 & E2 & E3 & E4 & E5 & E6) E8 (el & E7).
  pose proof (kb_private _ _ _ _ _ B _ _ Hp) as Hkp.
  pose proof (elem_not_in_memory p Hkp Hn) as Hel.
  destruct Hkp as (i & Hi & Ep & Hui). destruct (pool_page_facts i Hi) as (Hpos & Hal & Hin).
  rewrite <- Ep in Hpos, Hal.
  destruct B as [Klists Kready Kblock Ksema Kelems Kthread Kheads Kstatus Kstack Kcur Krunning
    Kdying Kidle Klock Kowner Kstatic Kpools Kpage Kprivate Kpool Kinitial].
  assert (Hoth : forall u uh, threads s !! u = Some uh -> threads s' !! u = Some uh).
  { intros u uh Eu. rewrite E8, lookup_insert_ne; [done|]. congruence. }
  assert (Hinv : forall u uh, threads s' !! u = Some uh -> threads s !! u = Some uh \/ u = p /\ uh = th).
  { intros u uh. rewrite E8, lookup_insert_Some. intros [[-> ->] | [_ ?]]; auto. }
  assert (Hdom : dom (lmem s') = {[elem_of_thread p]} ∪ dom (lmem s)) by (by rewrite E7, dom_insert_L).
  split; unfold placed, kernel_page, in_pool, static, plain in *;
    rewrite ?E1, ?E2, ?E3, ?E4, ?E5, ?E6, ?Hdom; try done.
  - rewrite E7. by apply lists_ok_new.
  - intros l xs e El He. destruct (Kelems l xs e El He) as (u & uh & ? & Eu & ?). eauto 10.
  - intros u uh [Eu | [-> ->]]%Hinv.
    + destruct (Kthread u uh Eu) as (? & ? & ? & ?). split_and!; set_solver.
    + split_and!; set_solver.
  - intros l xs u El [uh [Eu | [-> ->]]%Hinv]; [by eapply Kheads|].
    pose proof (lists_dll _ _ Klists _ _ El) as Hdl.
    split; intros E; apply Hel; rewrite E; eapply dll_dom; try done; apply elem_of_nodes; auto.
  - intros u uh [Eu | [-> ->]]%Hinv Hcu Hdu; [by apply Kstatus|]. rewrite Hst. eauto.
  - intros u uh [Eu | [-> ->]]%Hinv Hcu Hpu; [by eapply Kstack|]. congruence.
  - destruct Kcur as [[uh Eu] ?]. eauto.
  - intros u Hu. destruct (Krunning u Hu) as (? & uh & Eu & ?). eauto.
  - intros u Hu. destruct (Kdying u Hu) as (? & ? & ? & ? & uh & Eu & ?). split_and!; eauto.
  - destruct Kidle as (? & ? & uh & Eu & ?). split_and!; eauto.
  - intros l u Eo. destruct (Kowner l u Eo) as (? & uh & Eu & ?). eauto.
  - intros u [uh [Eu | [-> ->]]%Hinv] Hne; [by eauto|]. by exists i.
  - intros a Ha. destruct (Kpool a Ha) as (Hl & ? & ?). split_and!; try done.
    intros [->%elem_of_singleton | Hd]%elem_of_union.
    + exists p. rewrite E8, lookup_insert_eq. eauto.
    + destruct (Hl Hd) as (u & [uh Eu] & ->). eauto.
Qed.

(** The thread of a private page is filled in. *)
Lemma kbase_private s' p t th th' :
  private g !! p = Some t -> threads s !! p = Some th -> ~ suspended_stack th ->
  status th' = THREAD_BLOCKED -> magic th' = THREAD_MAGIC ->
  rest_eq s s' -> lmem s' = lmem s -> threads s' = <[p := th']> (threads s) ->
  kbase fn_ok c d s' g.
Proof.
  intros Hp Ep Hns Hst Hmg (E1 & E2 & E3 & E4 & E5 & E6) E7 E8.
  destruct B as [Klists Kready Kblock Ksema Kelems Kthread Kheads Kstatus Kstack Kcur Krunning
    Kdying Kidle Klock Kowner Kstatic Kpools Kpage Kprivate Kpool Kinitial].
  assert (Hoth : forall u uh, threads s !! u = Some uh -> private g !! u = None \/ suspended_stack uh ->
    threads s' !! u = Some uh).
  { intros u uh Eu Hu. rewrite E8, lookup_insert_ne; [done|]. intros ->.
    destruct Hu as [Hu|Hu]; congruence. }
  assert (His : forall u, is_Some (threads s' !! u) <-> is_Some (threads s !! u)).
  { intros u. rewrite E8. destruct (decide (u = p)) as [->|Hne].
    - rewrite lookup_insert_eq, Ep. split; eauto.
    - by rewrite lookup_insert_ne. }
  assert (Hinv : forall u uh, threads s' !! u = Some uh -> threads s !! u = Some uh \/ u = p /\ uh = th').
  { intros u uh. rewrite E8, lookup_insert_Some. intros [[-> ->] | [_ ?]]; auto. }
  split; unfold placed, kernel_page, in_pool, static, plain in *;
    rewrite ?E1, ?E2, ?E3, ?E4, ?E5, ?E6, ?E7, ?His; try done.
  - intros l xs e El He. destruct (Kelems l xs e El He) as (u & uh & ? & Eu & ? & ? & ? & ? & ?).
    exists u, uh. auto 10.
  - intros u uh [Eu | [-> ->]]%Hinv; [by apply Kthread|].
    destruct (Kthread p th Ep) as (? & ? & ? & ?). done.
  - intros l xs u El Hu%His. by eapply Kheads.
  - intros u uh [Eu | [-> ->]]%Hinv Hcu Hdu; [by apply Kstatus|]. rewrite Hst. eauto.
  - intros u uh [Eu | [-> ->]]%Hinv Hcu Hpu; [by eapply Kstack|]. congruence.
  - intros u Hu. destruct (Krunning u Hu) as (? & uh & Eu & ?). eauto 6.
  - intros u Hu. destruct (Kdying u Hu) as (? & ? & ? & ? & uh & Eu & ?). split_and!; eauto 6.
  - destruct Kidle as (? & ? & uh & Eu & ?). split_and!; eauto 6.
  - intros l u Eo. destruct (Kowner l u Eo) as (? & uh & Eu & Hu). split; [done|]. exists uh.
    split; [|done]. apply Hoth; [done|]. destruct Hu as [->|Hu]; [left; apply Kcur|auto].
  - intros u Hu%His Hne. by apply Kpage.
  - intros a Ha. destruct (Kpool a Ha) as (Hl & ? & ?). split_and!; try done.
    intros Hd. destruct (Hl Hd) as (u & Hu & ->). exists u. by rewrite His.
Qed.
End pages.

(** The page of a dead thread is freed. *)
Section free.
Context (c : option Z) (s : kstate) (g : ghost) (p i : Z) (kp' : pool).
Context (B : kbase fn_ok c (Some p) s g) (Hpc : p <> cur s).
Context (Hi : 0 <= i < bit_cnt (used_map (kernel_pool (memory s)))).
Context (Ep : p = page (kernel_pool (memory s)) i).
Context (Hupd : pool_updated (kernel_pool (memory s)) kp'
  (fun j => if in_range i 1 j then false else used (kernel_pool (memory s)) j)).

Lemma dead_page_aligned : p mod 4096 = 0.
Proof. rewrite Ep. by eapply pool_page_facts. Qed.

Lemma dead_page_pool a : in_page p a = true -> in_pool s a.
Proof. rewrite Ep. by eapply pool_page_facts. Qed.

Lemma thread_elem_page u : is_Some (threads s !! u) ->
  in_page p (elem_of_thread u) = bool_decide (u = p).
Proof.
  intros [uh Eu]. apply in_page_elem; [apply dead_page_aligned|].
  by destruct (kb_thread _ _ _ _ _ B u uh Eu) as (_ & ? & _).
Qed.

(** No list reaches into the page. *)
Lemma dead_page_unlinked l xs a : lists g !! l = Some xs -> a ∈ nodes l xs -> in_page p a = false.
Proof.
  intros El Ha. destruct (in_page p a) eqn:E; [|done]. exfalso.
  pose proof (lists_dll _ _ (kb_lists _ _ _ _ _ B) _ _ El) as Hd.
  destruct (kb_pool _ _ _ _ _ B a (dead_page_pool _ E)) as (Hex & _).
  destruct (Hex (dll_dom _ _ _ _ Hd Ha)) as (u & Hu & ->).
  rewrite thread_elem_page in E by done. apply bool_decide_eq_true in E as ->.
  destruct (kb_heads _ _ _ _ _ B l xs p El Hu) as [Hh Ht].
  apply elem_of_nodes in Ha as [Ha | [Ha | Ha]]; [done| |done].
  destruct (kb_elems _ _ _ _ _ B l xs _ El Ha) as (u & uh & ->%elem_of_thread_inj & _ & _ & Hdu & _).
  done.
Qed.

Lemma dead_page_semas : filter (fun kv : Z * Z => in_page p kv.1 = false) (semas s) = semas s.
Proof.
  apply map_filter_id. intros a v Ea. cbn. destruct (in_page p a) eqn:E; [|done].
  destruct (kb_pool _ _ _ _ _ B a (dead_page_pool _ E)) as (_ & Hn & _). congruence.
Qed.

Lemma dead_page_locks : filter (fun kv : Z * Z => in_page p kv.1 = false) (locks s) = locks s.
Proof.
  apply map_filter_id. intros a v Ea. cbn. destruct (in_page p a) eqn:E; [|done].
  destruct (kb_pool _ _ _ _ _ B a (dead_page_pool _ E)) as (_ & _ & Hn). congruence.
Qed.

Lemma kbase_free :
  kbase fn_ok c None (clobber p (set_memory (mk_pools kp' (user_pool (memory s))) s)) g.
Proof.
  pose proof dead_page_semas as Es. pose proof dead_page_locks as El.
  pose proof thread_elem_page as Hel. pose proof dead_page_unlinked as Hun.
  pose proof Hupd as (Eb & Hw & Ec & _ & Hbit).
  destruct B as [Klists Kready Kblock Ksema Kelems Kthread Kheads Kstatus Kstack Kcur Krunning
    Kdying Kidle Klock Kowner Kstatic Kpools Kpage Kprivate Kpool Kinitial].
  destruct (Kdying p eq_refl) as (Hcp & Hip & Hidp & Hprp & thp & Ethp & Hdp).
  assert (Hoth : forall u uh, delete p (threads s) !! u = Some uh <-> threads s !! u = Some uh /\ u <> p).
  { intros u uh. rewrite lookup_delete_Some. naive_solver. }
  assert (His : forall u, is_Some (delete p (threads s) !! u) <-> is_Some (threads s !! u) /\ u <> p).
  { intros u. split; [intros [uh [? ?]%Hoth]; eauto|]. intros [[uh ?] ?]. exists uh. by apply Hoth. }
  assert (Hkp : forall q, q <> p -> kernel_page s q -> exists j,
    0 <= j < bit_cnt (used_map kp') /\ q = page kp' j /\ used kp' j = true).
  { intros q Hq (j & Hj & -> & Hju). exists j. unfold used, page in *. rewrite Ec, Eb, Hbit by lia.
    split; [done|]. split; [done|]. unfold in_range.
    destruct (Z.leb_spec i j), (Z.ltb_spec j (i + 1)); cbn; try done. destruct Hq. rewrite Ep. f_equal. lia. }
  unfold clobber, set_memory. cbn. rewrite Es, El.
  split; unfold placed, kernel_page, in_pool, static, plain in *; cbn; try done.
  - apply lists_ok_filter; [done|]. intros l xs a e. apply Hun.
  - intros l xs e Ell He. destruct (Kelems l xs e Ell He) as (u & uh & ? & Eu & ? & ? & ? & ? & ?).
    exists u, uh. rewrite Hoth. split_and!; try done. congruence.
  - intros u uh [Eu Hu]%Hoth. destruct (Kthread u uh Eu) as (? & ? & ? & Hd). split_and!; try done.
    apply elem_of_dom in Hd as [e He]. apply elem_of_dom. exists e.
    apply map_lookup_filter_Some. cbn. rewrite Hel by eauto. by rewrite bool_decide_eq_false_2.
  - intros l xs u Ell [Hu ?]%His. by eapply Kheads.
  - intros u uh [Eu Hu]%Hoth Hc _. apply Kstatus; congruence.
  - intros u uh [Eu Hu]%Hoth. by apply Kstack.
  - rewrite His. destruct Kcur. done.
  - intros u Hu. destruct (Krunning u Hu) as (? & uh & Eu & ?). split; [done|]. exists uh.
    rewrite Hoth. split_and!; congruence.
  - destruct Kidle as (? & ? & uh & Eu & ?). split_and!; try done. exists uh. by rewrite Hoth.
  - intros l u Eo. destruct (Kowner l u Eo) as (Hdu & uh & Eu & ?). split; [done|]. exists uh.
    rewrite Hoth. split_and!; congruence.
  - destruct Kpools as (Hk & Hus & Hdj). split_and!; cbn; [|done|by rewrite Eb, Ec].
    exact (pool_updated_wf _ _ _ Hk Hupd).
  - intros u [Hu Hne]%His Hin. by apply Hkp; [|apply Kpage].
  - intros q v Hq. apply Hkp; [congruence|]. by eapply Kprivate.
  - intros a Ha. rewrite Eb, Ec in Ha. destruct (Kpool a Ha) as (Hl & ? & ?). split_and!; try done.
    intros [e [He Hf]%map_lookup_filter_Some]%elem_of_dom. cbn in Hf.
    destruct (Hl (elem_of_dom_2 _ _ _ He)) as (u & Hu & ->). exists u. rewrite His.
    rewrite Hel in Hf by done. apply bool_decide_eq_false in Hf. done.
  - by rewrite Eb, Ec.
Qed.
End free.
End move.
