(* ===== verification/KLogic.v ===== *)
(** * A program logic for preemptible kernel code

    [wpc n c Q s g]: for [n] steps, the code [c] of the current thread runs
    from state [s] and ghost state [g] without failing, keeps [kinv] whenever
    interrupts are on, leaves alone what other threads rely on, hands over the
    processor only in states in which that is allowed, and if it returns, [Q]
    holds then.  It is sound for the machine of Boot: [config_ok_step]. *)

From Stdlib Require Import ZArith Lia.
From stdpp Require Import base numbers gmap list.
From S2P Require Import Prelude DList Bitmap Vaddr Palloc Kernel Thread Synch Boot KInv.

Open Scope Z_scope.

Section logic.
Context `{Image} `{Program} (fn_ok : Z -> Prop).

Abbreviation post A := (A -> kstate -> ghost -> Prop).

(** The state of a thread that waits in switch_threads(), having called it in
    state [s]. *)
Definition resumes (s : kstate) (g : ghost) (prev : Z) (s' : kstate) (g' : ghost) : Prop :=
  swinv fn_ok prev s' g' /\ cur s' = cur s /\ mine (cur s) s g s' g'.

(** The states after leaving [s] for [next]: the stack pointer is saved. *)
Definition left_for (next : Z) (s s' : kstate) : Prop :=
  exists sp s1, save_context sp s = Some s1 /\ s' = set_cur next s1.

(** One atomic step, after which [K] holds; while interrupts are on, other
    threads may run before it. *)
Definition atomically {X} (m : M kstate X) (K : post X) (s : kstate) (g : ghost) : Prop :=
  let go s g := wp m (fun x s' => exists g', guar s g s' g' /\ K x s' g') s in
  match intr s with
  | INTR_OFF => go s g
  | INTR_ON => kinv fn_ok s g /\ forall s1 g1, rely fn_ok s g s1 g1 -> go s1 g1
  end.

Lemma atomically_mono {X} (m : M kstate X) (K K' : post X) s g :
  (forall x s g, K x s g -> K' x s g) -> atomically m K s g -> atomically m K' s g.
Proof.
  intros HK. unfold atomically. destruct (intr s).
  - intros W. eapply wp_mono; [exact W|]. intros x s' (g' & Hg & W'). eauto.
  - intros [Hk W]. split; [done|]. intros s1 g1 Hr. eapply wp_mono; [by apply W|].
    intros x s' (g' & Hg & W'). eauto.
Qed.

Fixpoint wpc (n : nat) {A : Set} (c : comp A) (Q : post A) (s : kstate) (g : ghost) : Prop :=
  match n with
  | O => True
  | S n =>
    match c with
    | Ret a => Q a s g
    | Prim m k => atomically m (fun x => wpc n (k x) Q) s g
    | While test body k =>
        atomically test (fun (b : bool) =>
          if b then wpc n body (fun _ => wpc n (While test body k) Q) else wpc n k Q) s g
    | Switch next k =>
        intr s = INTR_OFF /\ next <> cur s /\ is_Some (threads s !! cur s) /\
        (forall s', left_for next s s' -> swinv fn_ok (cur s) s' g) /\
        (forall prev s' g', resumes s g prev s' g' -> wpc n (k prev) Q s' g')
    end
  end.

Lemma wpc_eq n (A : Set) (c : comp A) (Q : post A) s g :
  wpc (S n) c Q s g =
    match c with
    | Ret a => Q a s g
    | Prim m k => atomically m (fun x => wpc n (k x) Q) s g
    | While test body k =>
        atomically test (fun (b : bool) =>
          if b then wpc n body (fun _ => wpc n (While test body k) Q) else wpc n k Q) s g
    | Switch next k =>
        intr s = INTR_OFF /\ next <> cur s /\ is_Some (threads s !! cur s) /\
        (forall s', left_for next s s' -> swinv fn_ok (cur s) s' g) /\
        (forall prev s' g', resumes s g prev s' g' -> wpc n (k prev) Q s' g')
    end.
Proof. reflexivity. Qed.

Lemma wpc_mono n : forall (A : Set) (c : comp A) (Q Q' : post A) s g,
  (forall a s g, Q a s g -> Q' a s g) -> wpc n c Q s g -> wpc n c Q' s g.
Proof.
  induction n as [|n IH]; [done|]. intros A c Q Q' s g HQ.
  rewrite !wpc_eq. destruct c as [a|X m k|test body k|next k].
  - apply HQ.
  - apply atomically_mono. eauto.
  - apply atomically_mono. intros [] s' g' W; [|by eapply IH].
    eapply IH; [|exact W]. intros a2 s2 g2 W2. by eapply IH.
  - intros (? & ? & ? & ? & W). split_and!; eauto.
Qed.

Lemma wpc_S n : forall (A : Set) (c : comp A) (Q : post A) s g, wpc (S n) c Q s g -> wpc n c Q s g.
Proof.
  induction n as [|n IH]; [done|]. intros A c Q s g W.
  rewrite wpc_eq in W |- *. destruct c as [a|X m k|test body k|next k]; [done|..].
  - eapply atomically_mono; [|exact W]. intros x. apply IH.
  - eapply atomically_mono; [|exact W]. intros [] s' g' W'; [|by apply IH].
    apply IH in W'. eapply wpc_mono; [|exact W']. intros ? ? ?. apply IH.
  - destruct W as (? & ? & ? & ? & W). split_and!; eauto.
Qed.

Lemma wpc_le n m (A : Set) (c : comp A) (Q : post A) s g :
  (m <= n)%nat -> wpc n c Q s g -> wpc m c Q s g.
Proof. induction 1; [done|]. intros W%wpc_S. auto. Qed.

(** ** Rules *)

Lemma wpc_ret n (A : Set) (a : A) (Q : post A) s g : Q a s g -> wpc n (Ret a) Q s g.
Proof. by destruct n. Qed.

Lemma wpc_bind n : forall (A B : Set) (c : comp A) (f : A -> comp B) (Q : post B) s g,
  wpc n c (fun a => wpc n (f a) Q) s g -> wpc n (cbind c f) Q s g.
Proof.
  induction n as [|n IH]; [done|]. intros A B c f Q s g.
  assert (Hmono : forall (c' : comp A) s' g', wpc n c' (fun a => wpc (S n) (f a) Q) s' g' ->
    wpc n (cbind c' f) Q s' g').
  { intros c' s' g' W. apply IH. eapply wpc_mono; [|exact W]. intros ? ? ?. apply wpc_S. }
  rewrite wpc_eq. destruct c as [a|X m k|test body k|next k]; cbn [cbind]; [done|..]; rewrite wpc_eq.
  - apply atomically_mono. intros x. apply Hmono.
  - apply atomically_mono. intros [] s' g' W; [|by apply Hmono].
    eapply wpc_mono; [|exact W]. intros ? ? ?. apply (Hmono (While test body k)).
  - intros (? & ? & ? & ? & W). split_and!; eauto.
Qed.

(** An atomic step with interrupts off, and one with interrupts on. *)
Lemma wpc_prim_off n (A : Set) (X : Set) (m : M kstate X) (k : X -> comp A) (Q : post A) s g :
  intr s = INTR_OFF ->
  wp m (fun x s' => exists g', guar s g s' g' /\ wpc n (k x) Q s' g') s ->
  wpc n (Prim m k) Q s g.
Proof.
  intros Hi W. destruct n; [done|]. rewrite wpc_eq. unfold atomically. rewrite Hi.
  eapply wp_mono; [exact W|]. intros x s' (g' & Hg & W'). eauto using wpc_S.
Qed.

Lemma wpc_prim_on n (A : Set) (X : Set) (m : M kstate X) (k : X -> comp A) (Q : post A) s g :
  intr s = INTR_ON -> kinv fn_ok s g ->
  (forall s1 g1, rely fn_ok s g s1 g1 ->
     wp m (fun x s' => exists g', guar s1 g1 s' g' /\ wpc n (k x) Q s' g') s1) ->
  wpc n (Prim m k) Q s g.
Proof.
  intros Hi Hk W. destruct n; [done|]. rewrite wpc_eq. unfold atomically. rewrite Hi. split; [done|].
  intros s1 g1 Hr. eapply wp_mono; [by apply W|]. intros x s' (g' & Hg & W'). eauto using wpc_S.
Qed.

(** The loop rule, with interrupts off at every test. *)
Lemma wpc_while_off n (A : Set) (I : kstate -> ghost -> Prop) test body (k : comp A) (Q : post A) s g :
  I s g ->
  (forall m s g, (m < n)%nat -> I s g -> intr s = INTR_OFF /\
     wp test (fun b s' => exists g', guar s g s' g' /\
       if b : bool then wpc m body (fun _ => I) s' g' else wpc m k Q s' g') s) ->
  wpc n (While test body k) Q s g.
Proof.
  revert s g. induction n as [|n IH]; [done|]. intros s g HI Hb.
  destruct (Hb n s g ltac:(lia) HI) as [Hi W]. rewrite wpc_eq. unfold atomically. rewrite Hi.
  eapply wp_mono; [exact W|]. intros [] s' (g' & Hg & W'); exists g'; (split; [done|]); [|done].
  eapply wpc_mono; [|exact W']. intros a2 s2 g2 HI2. apply IH; [done|].
  intros m s3 g3 Hm. apply Hb. lia.
Qed.

Lemma wpc_switch n (A : Set) next (k : Z -> comp A) (Q : post A) s g :
  intr s = INTR_OFF -> next <> cur s -> is_Some (threads s !! cur s) ->
  (forall s', left_for next s s' -> swinv fn_ok (cur s) s' g) ->
  (forall prev s' g', resumes s g prev s' g' -> wpc n (k prev) Q s' g') ->
  wpc n (Switch next k) Q s g.
Proof. intros. destruct n; [done|]. rewrite wpc_eq. split_and!; eauto using wpc_S. Qed.

(** ** Soundness *)

Definition no_return : post unit := fun _ _ _ => False.

(** [k] is good to go on with when [t] gets the processor back. *)
Definition waiting_ok (n : nat) (k : Z -> comp unit) (t : Z) (s : kstate) (g : ghost) : Prop :=
  exists s0 g0, cur s0 = t /\ mine t s0 g0 s g /\
    forall prev s' g', resumes s0 g0 prev s' g' -> wpc n (k prev) no_return s' g'.

Definition susp_ok (n : nat) (susp : gmap Z (Z -> comp unit)) (s : kstate) (g : ghost) : Prop :=
  forall t th, t <> cur s -> threads s !! t = Some th -> suspended_stack th ->
    status th <> THREAD_DYING -> exists k, susp !! t = Some k /\ waiting_ok n k t s g.

Definition config_ok (n : nat) (m : machine) : Prop :=
  exists g, wpc n (run m) no_return (ks m) g /\ susp_ok n (suspended m) (ks m) g.

(** The code that every new thread starts with, and the handling of an
    interrupt. *)
Definition entry_ok (n : nat) : Prop := forall prev s g f aux,
  swinv fn_ok prev s g -> f <> NULL -> f <> idle_function -> fn_ok f ->
  (forall l, owner g !! l <> Some (cur s)) -> cur s <> idle_thread s ->
  wpc n (prim (schedule_tail prev) ⨾ kernel_thread f aux) no_return s g.

Definition handler_ok (n : nat) : Prop := forall vec garbage s g,
  vec ∈ vectors -> kinv fn_ok s g ->
  wpc n (intr_handler (handlers garbage) vec)
    (fun _ s' g' => kinv fn_ok s' g' /\ intr s' = INTR_OFF /\ cur s' = cur s /\
       mine (cur s) s g s' g') (set_intr INTR_OFF s) g.

Lemma kbase_set_intr c d v s g : kbase fn_ok c d s g -> kbase fn_ok c d (set_intr v s) g.
Proof. intros []. by split. Qed.

Lemma kinv_set_intr v s g : kinv fn_ok s g -> kinv fn_ok (set_intr v s) g.
Proof. intros (? & ? & ?). split_and!; [by apply kbase_set_intr|done..]. Qed.

Lemma rely_trans s1 g1 s2 g2 s3 g3 :
  rely fn_ok s1 g1 s2 g2 -> rely fn_ok s2 g2 s3 g3 -> rely fn_ok s1 g1 s3 g3.
Proof.
  intros (_ & E1 & _ & M1) (K & E2 & I & M2). split_and!; [done|congruence|done|].
  rewrite E1 in M2. by eapply mine_at_trans.
Qed.

Lemma atomically_rely {X} (m : M kstate X) (K : post X) s g s' g' :
  intr s = INTR_ON -> rely fn_ok s g s' g' -> atomically m K s g -> atomically m K s' g'.
Proof.
  unfold atomically. intros -> Hr [_ W]. pose proof Hr as (Hk & _ & -> & _).
  split; [done|]. intros s1 g1 Hr1. apply W. by eapply rely_trans.
Qed.

Lemma atomically_now {X} (m : M kstate X) (K : post X) s g :
  atomically m K s g -> wp m (fun x s' => exists g', guar s g s' g' /\ K x s' g') s.
Proof.
  unfold atomically. destruct (intr s) eqn:Hi; [done|]. intros [Hk W]. apply W.
  split_and!; [done..|]. apply mine_at_refl.
Qed.

(** Interference does not hurt verified code. *)
Lemma wpc_rely n (A : Set) (c : comp A) (Q : post A) s g s' g' :
  (forall a, c <> Ret a) -> intr s = INTR_ON -> rely fn_ok s g s' g' ->
  wpc n c Q s g -> wpc n c Q s' g'.
Proof.
  intros Hc Hi Hr. destruct n; [done|]. rewrite !wpc_eq.
  destruct c as [a|X m k|test body k|next k].
  - by destruct (Hc a).
  - by apply atomically_rely.
  - by apply atomically_rely.
  - intros (Ho & _). congruence.
Qed.

Lemma guar_refl_intr s g v : guar s g (set_intr v s) g.
Proof.
  split; [done|]. intros t th' Ht E Hs Hd. split; [|by exists th'].
  split; try done. intros th Eth. by exists th.
Qed.

Lemma interrupt_ok n c s g vec garbage : (forall m, handler_ok m) ->
  wpc (S n) c no_return s g -> intr s = INTR_ON -> vec ∈ vectors ->
  wpc n (intr_handler (handlers garbage) vec ⨾ prim (modify (set_intr INTR_ON)) ⨾ c) no_return
    (set_intr INTR_OFF s) g.
Proof.
  intros Hh W Hi Hv.
  assert (Hc : forall a, c <> Ret a) by (intros a ->; done).
  assert (Hk : kinv fn_ok s g).
  { rewrite wpc_eq in W. unfold atomically in W. rewrite Hi in W.
    destruct c; [done|apply W|apply W|]. by destruct W. }
  apply wpc_bind. eapply wpc_mono; [|by apply (Hh n vec garbage s g)].
  intros _ s' g' (Hk' & Hi' & Hc' & Hm). unfold prim. cbn [cbind].
  apply wpc_prim_off; [done|]. red. cbn. exists g'. split; [apply guar_refl_intr|].
  eapply wpc_rely; [done|exact Hi| |by apply wpc_S].
  split_and!; [by apply kinv_set_intr|done|done|].
  destruct Hm. by split.
Qed.

Lemma waiting_ok_S n k t s g : waiting_ok (S n) k t s g -> waiting_ok n k t s g.
Proof.
  intros (s0 & g0 & Hc & Hm & W). exists s0, g0. split_and!; [done..|].
  intros. by apply wpc_S, W.
Qed.

Lemma waiting_ok_mine n k t s g s' g' :
  waiting_ok n k t s g -> mine t s g s' g' -> waiting_ok n k t s' g'.
Proof.
  intros (s0 & g0 & Hc & Hm & W) Hm'. exists s0, g0. split_and!; [done| |done].
  by eapply mine_at_trans.
Qed.

Lemma susp_ok_S n susp s g : susp_ok (S n) susp s g -> susp_ok n susp s g.
Proof. intros Hs t th ? ? ? ?. destruct (Hs t th) as (k & E & W); eauto using waiting_ok_S. Qed.

Lemma susp_ok_guar n susp s g s' g' :
  susp_ok n susp s g -> guar s g s' g' -> susp_ok n susp s' g'.
Proof.
  intros Hs [Hc Hg] t th' Ht E' Hst Hd. rewrite Hc in Ht.
  destruct (Hg t th' Ht E' Hst Hd) as (Hm & th & E & Hst' & Hd').
  destruct (Hs t th Ht E Hst' Hd') as (k & Ek & W). exists k. eauto using waiting_ok_mine.
Qed.

(** Leaving a thread touches its saved stack only. *)
Lemma left_for_facts next s s' : left_for next s s' ->
  exists sp th, threads s !! cur s = Some th /\ cur s' = next /\
    threads s' = <[cur s := with_stack sp
      (<[sp := switch_threads_frame in_schedule]> (frames th)) th]> (threads s) /\
    forall t g, private g !! cur s = None -> mine t s g s' g.
Proof.
  intros (sp & s1 & E & ->). unfold save_context in E.
  destruct (threads s !! cur s) as [th|] eqn:Eth; [|done]. injection E as <-.
  exists sp, th. split_and!; [done..|]. intros t g Hp. split; try done.
  - intros p _ Ep. split; [done|]. cbn. rewrite lookup_insert_ne; [done|]. congruence.
  - intros th0 E0. cbn. destruct (decide (t = cur s)) as [->|Hne].
    + rewrite lookup_insert_eq. eexists. split; [done|]. cbn. split_and!; congruence.
    + rewrite lookup_insert_ne by done. by exists th0.
Qed.

Lemma switch_susp_ok n next k susp s s' g :
  susp_ok (S n) susp s g -> left_for next s s' -> next <> cur s -> private g !! cur s = None ->
  (forall prev s2 g2, resumes s g prev s2 g2 -> wpc n (k prev) no_return s2 g2) ->
  susp_ok n (<[cur s := k]> susp) s' g.
Proof.
  intros Hs Hl Hne Hp Hk. destruct (left_for_facts _ _ _ Hl) as (sp & th0 & E0 & Ec & Et & Hm).
  intros t th Ht E Hst Hd. rewrite Et in E. destruct (decide (t = cur s)) as [->|Htc].
  - exists k. rewrite lookup_insert_eq. split; [done|].
    exists s, g. split_and!; [done|by apply Hm|done].
  - rewrite lookup_insert_ne in E by done. rewrite lookup_insert_ne by done.
    destruct (Hs t th Htc E Hst Hd) as (k' & Ek & W). exists k'. split; [done|].
    apply waiting_ok_S in W. eapply waiting_ok_mine; [done|]. by apply Hm.
Qed.

(** What runs after the switch is verified. *)
Lemma resume_ok n next k susp s s' g k' : entry_ok n ->
  susp_ok (S n) susp s g -> left_for next s s' -> next <> cur s ->
  swinv fn_ok (cur s) s' g -> resume s' (<[cur s := k]> susp) next = Some k' ->
  wpc n (k' (cur s)) no_return s' g.
Proof.
  intros He Hs Hl Hne Hsw Hres.
  destruct (left_for_facts _ _ _ Hl) as (sp & th0 & E0 & Ec & Et & Hm).
  pose proof Hsw as (Hi & Hx & Hpn & Hpc & Hpp & Hss & d & thp & Hb & _).
  destruct (kb_running _ _ _ _ _ Hb _ eq_refl) as (Hpr & thn & En & Hd). rewrite Ec in *.
  unfold resume in Hres. rewrite En in Hres.
  assert (En' : threads s !! next = Some thn) by (rewrite Et, lookup_insert_ne in En; done).
  destruct (frames thn !! stack thn) as [[[| |]| |]|] eqn:Ef; try done.
  - destruct (Hss _ En) as [Hsu | ((e & f & aux & _ & E1 & E2 & Hf1 & Hf2 & Hf3) & Hid & Hown)].
    { unfold suspended_stack in Hsu. congruence. }
    rewrite E1, E2 in Hres. injection Hres as <-. apply He; rewrite ?Ec; done.
  - rewrite lookup_insert_ne in Hres by done.
    destruct (Hs next thn Hne En' Ef Hd) as (k2 & Ek & s0 & g0 & Ec0 & Hm0 & W).
    rewrite Hres in Ek. injection Ek as <-. apply wpc_S, W. split_and!; [done|congruence|].
    eapply mine_at_trans; [rewrite Ec0; exact Hm0|]. by apply Hm.
Qed.

Lemma switch_ok n next k susp s g s' k' : entry_ok n ->
  wpc (S n) (Switch next k) no_return s g -> susp_ok (S n) susp s g ->
  left_for next s s' -> resume s' (<[cur s := k]> susp) next = Some k' ->
  config_ok n (mk_machine s' (k' (cur s)) (<[cur s := k]> susp)).
Proof.
  rewrite wpc_eq. intros He (Hi & Hne & _ & Hl & Hk) Hs Hlf Hres. exists g.
  pose proof (Hl s' Hlf) as Hsw. split; cbn.
  - by eapply resume_ok.
  - eapply switch_susp_ok; [done..| |done]. apply Hsw.
Qed.

Lemma resume_set_cur s v susp t : resume (set_cur v s) susp t = resume s susp t.
Proof. done. Qed.

(** Every step of a good configuration leads to a good one. *)
Theorem config_ok_step n m m' : (forall n, entry_ok n) -> (forall n, handler_ok n) ->
  config_ok (S n) m -> step m m' -> config_ok n m'.
Proof.
  intros He Hh (g & W & Hs) Hstep.
  destruct Hstep as [X p k s s' x susp E|test body k s s' b susp E
    |next k s s1 sp susp k' Esp Eres|vec garbage s c susp Hi Hv]; cbn [ks run suspended] in W, Hs.
  - rewrite wpc_eq in W. apply atomically_now in W. unfold wp in W. rewrite E in W.
    destruct W as (g' & Hg & W). exists g'. split; [done|]. eauto using susp_ok_guar, susp_ok_S.
  - rewrite wpc_eq in W. apply atomically_now in W. unfold wp in W. rewrite E in W.
    destruct W as (g' & Hg & W). exists g'. split; [|by eauto using susp_ok_guar, susp_ok_S].
    destruct b; [|done]. by apply wpc_bind.
  - eapply switch_ok; eauto. exists sp, s1. done.
  - exists g. split; cbn; [by apply interrupt_ok|]. apply susp_ok_S.
    eapply susp_ok_guar; [done|]. apply guar_refl_intr.
Qed.

(** A good configuration does not fail. *)
Theorem config_ok_safe n m : config_ok (S n) m -> ~ fails m.
Proof.
  intros (g & W & Hs). destruct m as [s c susp]. unfold fails. cbn [ks run suspended] in *.
  rewrite wpc_eq in W. destruct c as [a|X p k|test body k|next k].
  - done.
  - apply atomically_now in W. intros [e E]. unfold wp in W. by rewrite E in W.
  - apply atomically_now in W. intros [e E]. unfold wp in W. by rewrite E in W.
  - destruct W as (Hi & Hne & [th Eth] & Hl & _). intros Hstuck.
    assert (Hlf : exists s1, save_context 0 s = Some s1).
    { unfold save_context. rewrite Eth. eauto. }
    destruct Hlf as [s1 Es1].
    assert (Hlf : left_for next s (set_cur next s1)) by (by exists 0, s1).
    destruct (left_for_facts _ _ _ Hlf) as (sp & th0 & E0 & Ec & Et & Hm).
    pose proof (Hl _ Hlf) as (_ & _ & _ & _ & _ & Hss & d & thp & Hb & _).
    destruct (kb_running _ _ _ _ _ Hb _ eq_refl) as (Hpr & thn & En & Hd). rewrite Ec in *.
    assert (Hr : exists k', resume (set_cur next s1) (<[cur s := k]> susp) next = Some k').
    { unfold resume. rewrite En.
      destruct (Hss _ En) as [Hsu | ((e & f & aux & -> & -> & -> & _) & _)]; [|by eauto].
      rewrite Hsu, lookup_insert_ne by done.
      assert (En' : threads s !! next = Some thn) by (rewrite Et, lookup_insert_ne in En; done).
      destruct (Hs next thn Hne En' Hsu Hd) as (k' & -> & _). eauto. }
    destruct Hr as [k' Ek']. eapply Hstuck, step_switch; [done|]. exact Ek'.
Qed.

(** The invariant holds in it whenever interrupts are on. *)
Theorem config_ok_kinv n m : config_ok (S n) m -> intr (ks m) = INTR_ON ->
  exists g, kinv fn_ok (ks m) g.
Proof.
  intros (g & W & _) Hi. exists g. rewrite wpc_eq in W. unfold atomically in W.
  rewrite Hi in W. destruct (run m); [done|apply W..|]. by destruct W.
Qed.

Lemma config_ok_steps m m' : (forall n, entry_ok n) -> (forall n, handler_ok n) ->
  (forall n, config_ok n m) -> rtc step m m' -> forall n, config_ok n m'.
Proof.
  intros He Hh Hm Hst. induction Hst as [|m1 m2 m3 Hst _ IH]; [done|].
  apply IH. intros n. by apply (config_ok_step n m1).
Qed.

End logic.
