(* ===== verification/KSched.v ===== *)
(** * The scheduler keeps the invariant

    Specifications, in the logic of KLogic, of the functions of thread.c that
    block, unblock, yield and exit. *)

From Stdlib Require Import ZArith Lia.
From stdpp Require Import base numbers gmap list.
From S2P Require Import Prelude DList Bitmap Vaddr Palloc Kernel Thread Synch Boot KInv KLogic.

Open Scope Z_scope.

(** ** Steps that leave threads' attributes alone *)

Definition similar (th th' : thread) : Prop :=
  tid th' = tid th /\ name th' = name th /\ priority th' = priority th /\
  stack th' = stack th /\ frames th' = frames th /\
  (status th' = THREAD_DYING <-> status th = THREAD_DYING).

Lemma similar_refl th : similar th th.
Proof. done. Qed.

Lemma similar_status st th :
  st <> THREAD_DYING -> status th <> THREAD_DYING -> similar th (with_status st th).
Proof. done. Qed.

(** Nothing that other threads rely on changes; [F] says which threads keep
    their attributes. *)
Record quiet (F : Z -> Prop) (s : kstate) (g : ghost) (s' : kstate) (g' : ghost) : Prop := {
  quiet_cur : cur s' = cur s;
  quiet_owner : owner g' = owner g;
  quiet_private : private g' = private g;
  quiet_locks : locks s' = locks s;
  quiet_semas : dom (semas s') = dom (semas s);
  quiet_idle : idle_thread s' = idle_thread s;
  quiet_initial : initial_thread s' = initial_thread s;
  quiet_same : forall u, is_Some (private g !! u) -> threads s' !! u = threads s !! u;
  quiet_threads : forall u, F u -> option_Forall2 similar (threads s !! u) (threads s' !! u) }.

Lemma quiet_refl F s g : quiet F s g s g.
Proof. split; try done. intros u _. destruct (threads s !! u); by constructor. Qed.

Lemma quiet_trans F s1 g1 s2 g2 s3 g3 :
  quiet F s1 g1 s2 g2 -> quiet F s2 g2 s3 g3 -> quiet F s1 g1 s3 g3.
Proof.
  intros A B. split; try (destruct A, B; congruence).
  - intros u Hu. rewrite (quiet_same _ _ _ _ _ B), (quiet_same _ _ _ _ _ A); [done..|].
    by rewrite (quiet_private _ _ _ _ _ A).
  - intros u Hu. pose proof (quiet_threads _ _ _ _ _ A u Hu) as A1.
    pose proof (quiet_threads _ _ _ _ _ B u Hu) as B1.
    inversion A1 as [th1 th2 S1 E1 E2|E1 E2]; rewrite <- E2 in B1; inversion B1 as [? th3 S2|]; subst.
    + constructor. unfold similar in *. intuition congruence.
    + constructor.
Qed.

Lemma quiet_mine F s g s' g' t : quiet F s g s' g' -> F t -> mine t s g s' g'.
Proof.
  intros [] Ht. split; try done.
  - intros l _. by rewrite quiet_owner0.
  - intros l _ _. by rewrite quiet_locks0.
  - intros p _ E. rewrite quiet_private0, quiet_same0 by eauto. done.
  - by rewrite quiet_locks0.
  - intros th E. pose proof (quiet_threads0 t Ht) as Q. rewrite E in Q.
    inversion Q as [? th' (? & ? & ? & ? & ? & ?)|]; subst. exists th'. tauto.
Qed.

Lemma quiet_guar (F : Z -> Prop) s g s' g' :
  quiet F s g s' g' -> (forall u, u <> cur s -> F u) -> guar s g s' g'.
Proof.
  intros Q HF. split; [apply Q|]. intros t th' Ht E' Hs Hd.
  split; [by apply (quiet_mine F), HF|].
  pose proof (quiet_threads _ _ _ _ _ Q t (HF t Ht)) as T. rewrite E' in T.
  inversion T as [th ? (E1 & E2 & E3 & E4 & E5 & E6)|]; subst. exists th. split; [done|].
  unfold suspended_stack in *. rewrite <- E4, <- E5. tauto.
Qed.

Lemma guar_refl s g : guar s g s g.
Proof. apply (quiet_guar (fun _ => True)); [apply quiet_refl|done]. Qed.

Lemma quiet_lists s g h L : quiet (fun _ => True) s g (set_lmem h s) (set_lists L g).
Proof. split; try done. intros u _. cbn. destruct (threads s !! u); by constructor. Qed.

Lemma quiet_update (F : Z -> Prop) s g L t th th' :
  threads s !! t = Some th -> private g !! t = None -> (F t -> similar th th') ->
  forall s', rest_eq s s' -> threads s' = <[t := th']> (threads s) ->
  quiet F s g s' (set_lists L g).
Proof.
  intros E Hp Hs s' (E1 & E2 & E3 & E4 & E5 & E6) Et. split; try done; try (by rewrite E1).
  - intros u [v Hu]. rewrite Et, lookup_insert_ne; [done|]. congruence.
  - intros u Hu. rewrite Et. destruct (decide (u = t)) as [->|Hne].
    + rewrite lookup_insert_eq, E. constructor. auto.
    + rewrite lookup_insert_ne by done. destruct (threads s !! u); by constructor.
Qed.

(** ** Elementary steps *)

Section wps.
Context `{Image}.

Lemma wp_on_lists {A} (m : M mem A) (Q : A -> kstate -> Prop) s :
  wp m (fun a h => Q a (set_lmem h s)) (lmem s) -> wp (on_lists m) Q s.
Proof. apply wp_zoom. Qed.

Lemma wp_get_thread t th (Q : thread -> kstate -> Prop) s :
  threads s !! t = Some th -> 0 < t -> Q th s -> wp (get_thread t) Q s.
Proof.
  intros E Ht HQ. unfold get_thread. rewrite (proj2 (Z.eqb_neq t NULL)) by (unfold NULL; lia).
  unfold wp, bind, get. rewrite E. done.
Qed.

Lemma wp_update_thread t th f (Q : unit -> kstate -> Prop) s :
  threads s !! t = Some th -> 0 < t ->
  Q tt (set_threads (<[t := f th]> (threads s)) s) -> wp (update_thread t f) Q s.
Proof. intros E Ht HQ. unfold update_thread. apply wp_bind. by eapply wp_get_thread. Qed.

Lemma wp_is_thread t th (Q : bool -> kstate -> Prop) s :
  threads s !! t = Some th -> 0 < t -> magic th = THREAD_MAGIC -> Q true s -> wp (is_thread t) Q s.
Proof.
  intros E Ht Hm HQ. unfold is_thread. rewrite (proj2 (Z.eqb_neq t NULL)) by (unfold NULL; lia).
  apply wp_bind. eapply wp_get_thread; [done..|]. apply wp_ret. rewrite Hm, Z.eqb_refl. done.
Qed.

Lemma wp_thread_current th (Q : Z -> kstate -> Prop) s :
  threads s !! cur s = Some th -> 0 < cur s -> magic th = THREAD_MAGIC ->
  status th = THREAD_RUNNING -> Q (cur s) s -> wp thread_current Q s.
Proof.
  intros E Ht Hm Hs HQ. unfold thread_current. apply wp_bind. red. cbn.
  apply wp_bind. eapply wp_is_thread; [done..|]. apply wp_bind, wp_assertb; [done|].
  apply wp_bind. eapply wp_get_thread; [done..|]. apply wp_bind, wp_assertb; [|by apply wp_ret].
  by apply bool_decide_eq_true.
Qed.

Lemma wp_intr_set_level lvl (Q : intr_level -> kstate -> Prop) s :
  (lvl = INTR_ON -> in_external_intr s = false) -> Q (intr s) (set_intr lvl s) ->
  wp (intr_set_level lvl) Q s.
Proof. intros Hx HQ. destruct lvl; red; cbn; [done|]. rewrite Hx by done. done. Qed.

Lemma wp_thread_unblock t th rl L (Q : unit -> kstate -> Prop) s :
  threads s !! t = Some th -> 0 < t -> magic th = THREAD_MAGIC -> status th = THREAD_BLOCKED ->
  lists_ok (lmem s) L -> L !! ready_list = Some rl ->
  elem_of_thread t ∈ dom (lmem s) -> unlinked (elem_of_thread t) L ->
  (intr s = INTR_ON -> in_external_intr s = false) ->
  (forall h, lists_ok h (<[ready_list := rl ++ [elem_of_thread t]]> L) -> dom h = dom (lmem s) ->
     Q tt (set_threads (<[t := with_status THREAD_READY th]> (threads s)) (set_lmem h s))) ->
  wp (thread_unblock t) Q s.
Proof.
  intros E Ht Hm Hs HL Erl Hd Hu Hx HQ. unfold thread_unblock.
  apply wp_bind. eapply wp_is_thread; [done..|]. apply wp_bind, wp_assertb; [done|].
  apply wp_bind. red. cbn [intr_disable bind intr_get_level gets modify ret].
  apply wp_bind. eapply wp_get_thread; [done..|].
  apply wp_bind, wp_assertb; [by apply bool_decide_eq_true|].
  apply wp_bind, wp_on_lists. eapply wp_lists_push_back; [exact HL|done..| |done|].
  { unfold elem_of_thread, elem_ofs, NULL. lia. }
  intros h Hh Hdom. apply wp_bind. eapply wp_update_thread; [done..|].
  apply wp_bind, wp_intr_set_level; [done|]. apply wp_ret. by apply HQ.
Qed.

End wps.

(** ** Threads changing place *)

Section place.
Context `{Image} (fn_ok : Z -> Prop).

Lemma thread_unlinked c d s g t :
  kbase fn_ok c d s g -> is_Some (threads s !! t) ->
  c = Some t \/ d = Some t \/ t = idle_thread s \/ is_Some (private g !! t) ->
  unlinked (elem_of_thread t) (lists g).
Proof.
  intros B Ht Hc l xs El [E | [E | E]]%elem_of_nodes.
  - by destruct (kb_heads _ _ _ _ _ B l xs t El Ht) as [? _].
  - destruct (kb_elems _ _ _ _ _ B l xs _ El E) as (u & uh & ->%elem_of_thread_inj & _ & ? & ? & ? & Hp & _).
    rewrite Hp in Hc. destruct Hc as [? | [? | [? | [? ?]]]]; done.
  - by destruct (kb_heads _ _ _ _ _ B l xs t El Ht) as [_ ?].
Qed.

Lemma list_status_not_dying l : list_status l <> THREAD_DYING.
Proof. unfold list_status. by destruct (decide _). Qed.

(** The running thread [t] goes to the end of a list. *)
Lemma kbase_enqueue d s s' g t th l xs :
  kbase fn_ok (Some t) d s g -> threads s !! t = Some th -> t <> idle_thread s -> d <> Some t ->
  lists g !! l = Some xs -> rest_eq s s' ->
  threads s' = <[t := with_status (list_status l) th]> (threads s) ->
  lists_ok (lmem s') (<[l := xs ++ [elem_of_thread t]]> (lists g)) -> dom (lmem s') = dom (lmem s) ->
  kbase fn_ok None d s' (set_lists (<[l := xs ++ [elem_of_thread t]]> (lists g)) g).
Proof.
  intros B Et Hid Hdt El R Et' HL Hdom.
  pose proof (kb_running _ _ _ _ _ B t eq_refl) as [Hp _].
  pose proof (thread_unlinked _ _ _ _ t B ltac:(eauto) ltac:(auto)) as Hun.
  eapply kbase_move; try done; cbn [lists owner private set_lists]; auto.
  - intros l'. rewrite lookup_insert_is_Some'. split; [|by auto]. intros [<- | ?]; eauto.
  - intros l' xs' e. rewrite lookup_insert_Some. intros [[<- <-] | [Hne El']] He.
    + apply elem_of_app in He as [He | ->%list_elem_of_singleton]; [|by left].
      right. exists xs. split_and!; [done..|]. intros ->. by apply (Hun _ _ El), elem_nodes.
    + right. exists xs'. split_and!; [done..|]. intros ->. by apply (Hun _ _ El'), elem_nodes.
  - intros l' xs' e El' He _. destruct (decide (l' = l)) as [->|Hne].
    + rewrite lookup_insert_eq. eexists. split; [done|]. rewrite El in El'. injection El' as <-.
      apply elem_of_app. auto.
    + rewrite lookup_insert_ne by done. eauto.
  - intros u Hu. split; congruence.
  - intros _ _. unfold placed, list_status. cbn. destruct R as (_ & _ & _ & -> & -> & _).
    destruct (decide (l = ready_list)) as [->|Hl]; cbn.
    + right. rewrite lookup_insert_eq. eexists. split; [done|]. apply elem_of_app. right. left.
    + right; right. exists l. rewrite lookup_insert_eq. eexists. split_and!; [done..|].
      apply elem_of_app. right. left.
Qed.

(** The thread at the front of the ready list becomes the running one. *)
Lemma kbase_dequeue d s g t rl h :
  kbase fn_ok None d s g -> lists g !! ready_list = Some (elem_of_thread t :: rl) ->
  lists_ok h (<[ready_list := rl]> (lists g)) -> dom h = dom (lmem s) ->
  kbase fn_ok (Some t) d (set_lmem h s) (set_lists (<[ready_list := rl]> (lists g)) g).
Proof.
  intros B Erl HL Hdom.
  destruct (kb_elems _ _ _ _ _ B _ _ _ Erl ltac:(left)) as (u & th & ->%elem_of_thread_inj & Et & _ & Hd & Hid & Hp & Hst).
  assert (Hfr : elem_of_thread u ∉ rl).
  { pose proof (lists_nodup _ _ (kb_lists _ _ _ _ _ B) _ _ Erl) as Hn. by apply NoDup_cons in Hn as []. }
  eapply (kbase_move fn_ok None d (Some u) d s _ g _ u th th); try done; cbn [lists owner private set_lists]; auto.
  - cbn. by rewrite insert_id.
  - intros l'. rewrite lookup_insert_is_Some'. split; [|by auto]. intros [<- | ?]; eauto.
  - intros l' xs' e. rewrite lookup_insert_Some. intros [[<- <-] | [Hne El']] He.
    + right. eexists. split_and!; [done|by right|]. by intros ->.
    + right. exists xs'. split_and!; [done..|]. intros ->. apply Hne.
      eapply (lists_elem_unique _ _ (kb_lists _ _ _ _ _ B)); [done..|left|done].
  - intros l' xs' e El' He Hne. destruct (decide (l' = ready_list)) as [->|Hl].
    + rewrite lookup_insert_eq. eexists. split; [done|]. rewrite Erl in El'. injection El' as <-.
      by apply elem_of_cons in He as [-> | ?].
    + rewrite lookup_insert_ne by done. eauto.
  - intros v Hv. split; congruence.
  - intros _. rewrite Hst. split; [done|]. apply list_status_not_dying.
Qed.

(** With nobody ready, the idle thread becomes the running one. *)
Lemma kbase_idle d s g : kbase fn_ok None d s g -> kbase fn_ok (Some (idle_thread s)) d s g.
Proof.
  intros B. destruct (kb_idle _ _ _ _ _ B) as (Hp & Hin & th & Et & Hs).
  assert (Hdi : d <> Some (idle_thread s)).
  { intros Hd. by destruct (kb_dying _ _ _ _ _ B _ Hd) as (_ & _ & ? & _). }
  eapply (kbase_move fn_ok None d (Some (idle_thread s)) d s s g g _ th th); try done; auto.
  - by rewrite insert_id.
  - apply B.
  - intros l xs e El He. right. exists xs. split_and!; [done..|]. intros ->.
    eapply (thread_unlinked _ _ _ _ _ B); eauto using elem_nodes.
  - eauto.
  - intros v Hv. split; congruence.
  - intros _. split; [done|]. intros Hdy.
    pose proof (kb_status _ _ _ _ _ B _ _ Et ltac:(done) Hdi) as P. rewrite Hdy in P. done.
Qed.

(** The running thread changes, but not its stack. *)
Lemma kbase_running d s s' g t th th' :
  kbase fn_ok (Some t) d s g -> threads s !! t = Some th -> same_stack th th' ->
  status th' <> THREAD_DYING ->
  rest_eq s s' -> lmem s' = lmem s -> threads s' = <[t := th']> (threads s) ->
  kbase fn_ok (Some t) d s' g.
Proof.
  intros B Et Hth Hst R El Et'. destruct (kb_running _ _ _ _ _ B t eq_refl) as (Hp & _).
  assert (Hdt : d <> Some t).
  { intros Hd. by destruct (kb_dying _ _ _ _ _ B _ Hd) as (? & _). }
  eapply kbase_move; try done; eauto.
  - rewrite El. apply B.
  - by rewrite El.
  - intros l xs e El' He. right. exists xs. split_and!; [done..|]. intros ->.
    eapply (thread_unlinked _ _ _ _ t B); eauto using elem_nodes.
Qed.

(** The status of the running thread is set. *)
Lemma kbase_status d s s' g t th st :
  kbase fn_ok (Some t) d s g -> threads s !! t = Some th -> st <> THREAD_DYING ->
  rest_eq s s' -> lmem s' = lmem s -> threads s' = <[t := with_status st th]> (threads s) ->
  kbase fn_ok (Some t) d s' g.
Proof. intros. by eapply (kbase_running d s s' g t th (with_status st th)). Qed.

(** A blocked thread goes from list [l] to the end of the ready list. *)
Lemma kbase_wake c d s s' g t th l xs1 xs2 rl :
  kbase fn_ok c d s g -> lists g !! l = Some (xs1 ++ elem_of_thread t :: xs2) -> l <> ready_list ->
  lists g !! ready_list = Some rl -> threads s !! t = Some th -> rest_eq s s' ->
  threads s' = <[t := with_status THREAD_READY th]> (threads s) ->
  lists_ok (lmem s') (<[ready_list := rl ++ [elem_of_thread t]]> (<[l := xs1 ++ xs2]> (lists g))) ->
  dom (lmem s') = dom (lmem s) ->
  kbase fn_ok c d s' (set_lists
    (<[ready_list := rl ++ [elem_of_thread t]]> (<[l := xs1 ++ xs2]> (lists g))) g).
Proof.
  intros B El Hl Erl Et R Et' HL Hdom.
  assert (Hin : elem_of_thread t ∈ xs1 ++ elem_of_thread t :: xs2).
  { apply elem_of_app. right. left. }
  destruct (kb_elems _ _ _ _ _ B _ _ _ El Hin) as (u & uh & ->%elem_of_thread_inj & Eu & Hc & Hd & Hid & Hp & Hst).
  rewrite Et in Eu. injection Eu as <-.
  pose proof (lists_nodup _ _ (kb_lists _ _ _ _ _ B) _ _ El) as Hn.
  assert (Hfr : elem_of_thread u ∉ xs1 ++ xs2).
  { apply NoDup_app in Hn as (_ & Hd1 & Hn2%NoDup_cons). intros [He | He]%elem_of_app.
    - apply (Hd1 _ He). left.
    - by apply Hn2. }
  assert (Huniq : forall l' xs', lists g !! l' = Some xs' -> elem_of_thread u ∈ xs' -> l' = l).
  { intros l' xs' El' He. by eapply (lists_elem_unique _ _ (kb_lists _ _ _ _ _ B)). }
  eapply kbase_move; try done; cbn [lists owner private set_lists]; auto.
  - intros l'. rewrite !lookup_insert_is_Some'. split; [|by auto]. intros [<- | [<- | ?]]; eauto.
  - intros l' xs' e. rewrite lookup_insert_Some. intros [[<- <-] | [Hne El']] He.
    + apply elem_of_app in He as [He | ->%list_elem_of_singleton].
      * right. exists rl. split_and!; [done..|]. intros ->. by apply Hl; symmetry; eapply Huniq.
      * left. split_and!; try done. unfold list_status. by rewrite decide_True.
    + apply lookup_insert_Some in El' as [[<- <-] | [Hne' El']].
      * right. eexists. split_and!; [done| |by intros ->]. set_solver.
      * right. exists xs'. split_and!; [done..|]. intros ->. apply Hne'. symmetry. by eapply Huniq.
  - intros l' xs' e El' He Hne. destruct (decide (l' = ready_list)) as [->|Hr].
    + rewrite lookup_insert_eq. eexists. split; [done|]. rewrite Erl in El'. injection El' as <-.
      apply elem_of_app. auto.
    + rewrite lookup_insert_ne by done. destruct (decide (l' = l)) as [->|Hr'].
      * rewrite lookup_insert_eq. eexists. split; [done|]. rewrite El in El'. injection El' as <-.
        set_solver.
      * rewrite lookup_insert_ne by done. eauto.
  - intros _ _. unfold placed. cbn. right. rewrite lookup_insert_eq. eexists. split; [done|].
    apply elem_of_app. right. left.
Qed.
End place.

(** ** schedule() *)

Section schedule.
Context `{Image} `{Program} (fn_ok : Z -> Prop).

Abbreviation all := (fun _ : Z => True).

Lemma thread_facts c d s g t th : kbase fn_ok c d s g -> threads s !! t = Some th ->
  0 < t /\ magic th = THREAD_MAGIC /\ elem_of_thread t ∈ dom (lmem s).
Proof. intros B E. destruct (kb_thread _ _ _ _ _ B t th E) as (? & _ & ? & ?). done. Qed.

Lemma rest_eq_refl s : rest_eq s s.
Proof. done. Qed.

(** [t] is the first thread of the ready list, and taken off it, or the idle
    thread when there is none. *)
Definition picked (s : kstate) (g : ghost) (t : Z) (g' : ghost) : Prop :=
  match lists g !! ready_list with
  | Some (e :: rl) => t = thread_of_elem e /\ lists g' = <[ready_list := rl]> (lists g)
  | _ => t = idle_thread s /\ lists g' = lists g
  end.

Lemma wp_next_thread_to_run d s g (Q : Z -> kstate -> Prop) :
  kbase fn_ok None d s g ->
  (forall t s' g', picked s g t g' -> kbase fn_ok (Some t) d s' g' -> quiet all s g s' g' -> rest_eq s s' ->
     threads s' = threads s -> intr s' = intr s -> in_external_intr s' = in_external_intr s ->
     Q t s') ->
  wp next_thread_to_run Q s.
Proof.
  intros B HQ. unfold next_thread_to_run. destruct (kb_ready _ _ _ _ _ B) as [rl Erl].
  apply wp_bind, wp_on_lists. eapply wp_lists_empty; [apply B|done|].
  destruct rl as [|e rl].
  - rewrite bool_decide_eq_true_2 by done. red. cbn. apply (HQ _ _ g); try done.
    + unfold picked. by rewrite Erl.
    + apply (kbase_ext _ _ _ s); [by apply kbase_idle|done..].
    + destruct s. apply quiet_refl.
  - rewrite bool_decide_eq_false_2 by done. apply wp_bind, wp_on_lists. eapply wp_lists_pop_front; [apply B|done|].
    intros h Hh Hd. apply wp_ret. cbn.
    destruct (kb_elems _ _ _ _ _ B _ _ _ Erl ltac:(left)) as (t & th & -> & _).
    replace (thread_of_elem (elem_of_thread t)) with t by (unfold thread_of_elem, elem_of_thread; lia).
    apply (HQ t (set_lmem h s) (set_lists (<[ready_list := rl]> (lists g)) g)); try done.
    + unfold picked. rewrite Erl. split; [|done]. unfold thread_of_elem, elem_of_thread. lia.
    + by apply kbase_dequeue.
    + apply quiet_lists.
Qed.

Lemma wp_schedule_next d s g th (Q : Z * Z -> kstate -> Prop) :
  kbase fn_ok None d s g -> intr s = INTR_OFF ->
  threads s !! cur s = Some th -> status th <> THREAD_RUNNING ->
  (forall t s' g', picked s g t g' -> kbase fn_ok (Some t) d s' g' -> quiet all s g s' g' -> rest_eq s s' ->
     threads s' = threads s -> intr s' = INTR_OFF -> in_external_intr s' = in_external_intr s ->
     Q (cur s, t) s') ->
  wp schedule_next Q s.
Proof.
  intros B Hi Et Hst HQ. unfold schedule_next. apply wp_bind. red. cbn.
  apply wp_bind. eapply wp_next_thread_to_run; [done|].
  intros t s' g' Hpk B' Q' R Ets Hi' Hx'. apply wp_bind. red. cbn.
  apply wp_bind, wp_assertb; [apply bool_decide_eq_true; congruence|].
  destruct (thread_facts _ _ _ _ _ _ B Et) as (Hpos & _).
  apply wp_bind. eapply wp_get_thread; [by rewrite Ets|done|].
  apply wp_bind, wp_assertb; [by rewrite bool_decide_eq_false_2|].
  destruct (kb_running _ _ _ _ _ B' t eq_refl) as (_ & tn & Etn & _).
  destruct (thread_facts _ _ _ _ _ _ B' Etn) as (Hpos' & Hm & _).
  apply wp_bind. eapply wp_is_thread; [done..|]. apply wp_bind, wp_assertb; [done|].
  apply wp_ret. apply (HQ _ _ g'); congruence || done.
Qed.

(** The states in which schedule() hands over the processor are those that
    the other side expects. *)
Lemma swinv_left d next s s' g th :
  kbase fn_ok (Some next) d s g -> next <> cur s -> intr s = INTR_OFF -> in_external_intr s = false ->
  threads s !! cur s = Some th -> (forall t, d = Some t -> t = cur s) ->
  (status th = THREAD_DYING -> cur s <> initial_thread s -> d = Some (cur s)) ->
  left_for next s s' -> swinv fn_ok (cur s) s' g.
Proof.
  intros B Hne Hi Hx Et Hd Hdy (sp & s1 & Es1 & ->). unfold save_context in Es1. rewrite Et in Es1.
  injection Es1 as <-. destruct (thread_facts _ _ _ _ _ _ B Et) as (Hpos & _).
  destruct (kb_running _ _ _ _ _ B next eq_refl) as (Hpn & thn & Etn & _).
  split_and!; try done.
  - unfold NULL. lia.
  - apply B.
  - intros th0. cbn. rewrite lookup_insert_ne, Etn by done. intros [= <-].
    destruct (kb_stack _ _ _ _ _ B next thn Etn Hne Hpn) as [Hs|Hf]; [by left|].
    assert (Hns : ~ suspended_stack thn).
    { destruct Hf as (e & f & aux & E1 & _). unfold suspended_stack. congruence. }
    right. split_and!; [done| |].
    + intros E. destruct (kb_idle _ _ _ _ _ B) as (_ & _ & ti & Eti & [Ei|Ei]); congruence.
    + intros l El. destruct (kb_owner _ _ _ _ _ B l next El) as (_ & ti & Eti & [Ei|Ei]); congruence.
  - exists d. eexists. split_and!; [|done|cbn; by rewrite lookup_insert_eq|done].
    by eapply kbase_switch.
Qed.

(** ** schedule_tail() *)

(** The first part of it: the current thread is marked as running. *)
Definition marked (s : kstate) (th : thread) : kstate :=
  let s1 := set_threads (<[cur s := with_status THREAD_RUNNING th]> (threads s)) s in
  set_stats (idle_ticks s1) (kernel_ticks s1) 0 s1.

Lemma marked_base d s g th : kbase fn_ok (Some (cur s)) d s g -> threads s !! cur s = Some th ->
  kbase fn_ok (Some (cur s)) d (marked s th) g.
Proof. intros B Et. by apply (kbase_status fn_ok d s _ g (cur s) th THREAD_RUNNING). Qed.

Lemma marked_quiet s g th : threads s !! cur s = Some th -> private g !! cur s = None ->
  status th <> THREAD_DYING -> quiet all s g (marked s th) g.
Proof.
  intros Et Hp Hd. assert (E : g = set_lists (lists g) g) by (by destruct g). rewrite E at 2.
  eapply (quiet_update _ s g _ (cur s) th (with_status THREAD_RUNNING th)); done.
Qed.

Lemma wp_schedule_tail_null d s g th (Q : unit -> kstate -> Prop) :
  kbase fn_ok (Some (cur s)) d s g -> threads s !! cur s = Some th -> intr s = INTR_OFF ->
  Q tt (marked s th) -> wp (schedule_tail NULL) Q s.
Proof.
  intros B Et Hi HQ. destruct (thread_facts _ _ _ _ _ _ B Et) as (Hpos & _).
  unfold schedule_tail. apply wp_bind. red. cbn [gets running_thread].
  apply wp_bind. red. cbn [gets intr_get_level].
  apply wp_bind, wp_assertb; [by apply bool_decide_eq_true|].
  apply wp_bind. eapply wp_update_thread; [done..|]. exact HQ.
Qed.

(** What freeing a dead thread's page leaves alone. *)
Lemma freed_guar s g p ps t :
  private g !! p = None ->
  filter (fun kv : Z * Z => in_page p kv.1 = false) (semas s) = semas s ->
  filter (fun kv : Z * Z => in_page p kv.1 = false) (locks s) = locks s -> t <> p ->
  mine t s g (clobber p (set_memory ps s)) g.
Proof.
  intros Hp Es El Ht. split; try done; unfold clobber, set_memory; cbn; rewrite ?Es, ?El; try done.
  - intros q _ Hq. rewrite lookup_delete_ne; [done|]. congruence.
  - intros th Et. rewrite lookup_delete_ne by done. by exists th.
Qed.

(** The states in which schedule_tail() ends. *)
Definition tail_post (s : kstate) (g : ghost) (s' : kstate) : Prop :=
  kinv fn_ok s' g /\ intr s' = INTR_OFF /\ guar s g s' g /\ mine (cur s) s g s' g.

Lemma tail_post_marked s g th : kbase fn_ok (Some (cur s)) None s g ->
  threads s !! cur s = Some th -> in_external_intr s = false -> intr s = INTR_OFF ->
  tail_post s g (marked s th).
Proof.
  intros B Et Hx Hi. destruct (kb_running _ _ _ _ _ B _ eq_refl) as (Hp & th0 & Et0 & Hd).
  rewrite Et in Et0. injection Et0 as <-. pose proof (marked_quiet s g th Et Hp Hd) as Q.
  split_and!; [| |by eapply quiet_guar|by eapply quiet_mine].
  - split_and!; [exact (marked_base None s g th B Et)|done|]. exists (with_status THREAD_RUNNING th).
    cbn. by rewrite lookup_insert_eq.
  - done.
Qed.

Lemma guar_trans s1 g1 s2 g2 s3 g3 : guar s1 g1 s2 g2 -> guar s2 g2 s3 g3 -> guar s1 g1 s3 g3.
Proof.
  intros [E1 G1] [E2 G2]. split; [congruence|]. intros t th3 Ht Et3 Hs3 Hd3.
  destruct (G2 t th3) as (M2 & th2 & Et2 & Hs2 & Hd2); [congruence|done..|].
  destruct (G1 t th2) as (M1 & th1 & ?); [congruence|done..|].
  split; [by eapply mine_at_trans|eauto].
Qed.

Lemma wp_free_page c s g p (Q : unit -> kstate -> Prop) :
  kbase fn_ok c (Some p) s g -> p <> cur s ->
  (forall ps, kbase fn_ok c None (clobber p (set_memory ps s)) g ->
     (forall t, t <> p -> mine t s g (clobber p (set_memory ps s)) g) ->
     Q tt (clobber p (set_memory ps s))) ->
  wp (free_page p) Q s.
Proof.
  intros B Hpc HQ. destruct (kb_dying _ _ _ _ _ B p eq_refl) as (Hcp & Hin & _ & Hp & th & Et & _).
  destruct (kb_page _ _ _ _ _ B p ltac:(eauto) Hin) as (i & Hi & Ep & Hu).
  destruct (palloc_free_kernel (memory s) i 1) as (kp' & E & Hupd); [apply B|lia..| |].
  { intros j Hj. by replace j with i by lia. }
  unfold free_page. apply wp_bind, wp_zoom. unfold palloc_free_page. rewrite Ep.
  apply (wp_eq _ _ _ _ _ E). red. cbn [modify]. rewrite <- Ep. apply HQ.
  - by eapply kbase_free.
  - intros t Ht. apply freed_guar; [done|eapply dead_page_semas; done|eapply dead_page_locks; done|done].
Qed.

Lemma wp_schedule_tail prev s g (Q : unit -> kstate -> Prop) :
  swinv fn_ok prev s g -> (forall s', tail_post s g s' -> Q tt s') -> wp (schedule_tail prev) Q s.
Proof.
  intros (Hi & Hx & Hn & Hpc & Hpp & _ & d & thp & B & Hd & Ethp & Hdy) HQ.
  destruct (kb_running _ _ _ _ _ B _ eq_refl) as (Hp & th & Et & Hnd).
  destruct (thread_facts _ _ _ _ _ _ B Et) as (Hpos & _).
  destruct (thread_facts _ _ _ _ _ _ B Ethp) as (Hposp & _).
  unfold schedule_tail. apply wp_bind. red. cbn [gets running_thread].
  apply wp_bind. red. cbn [gets intr_get_level].
  apply wp_bind, wp_assertb; [by apply bool_decide_eq_true|].
  apply wp_bind. eapply wp_update_thread; [done..|].
  apply wp_bind. red. cbn [get]. apply wp_bind. red. cbn [put]. fold (marked s th).
  rewrite (proj2 (Z.eqb_neq prev NULL)) by done.
  assert (Ethp' : threads (marked s th) !! prev = Some thp) by (cbn; by rewrite lookup_insert_ne).
  apply wp_bind. eapply wp_get_thread; [done..|].
  pose proof (marked_quiet s g th Et Hp Hnd) as Qm. pose proof (marked_base d s g th B Et) as Bm.
  destruct (bool_decide_reflect (status thp = THREAD_DYING)) as [Hdyp|Hdyp]; cbn [andb].
  2:{ apply wp_ret, HQ. apply tail_post_marked; try done. destruct d as [u|]; [|done].
      pose proof (Hd u eq_refl) as ->. by destruct (kb_dying _ _ _ _ _ B _ eq_refl) as (_ & _ & _ & _ & ? & ? & ?); simplify_eq. }
  destruct (Z.eqb_spec prev (initial_thread s)) as [Hpi|Hpi]; cbn [initial_thread set_threads negb].
  { rewrite (proj2 (Z.eqb_eq _ _)) by done. apply wp_ret, HQ, tail_post_marked; try done.
    destruct d as [u|]; [|done]. pose proof (Hd u eq_refl) as ->.
    by destruct (kb_dying _ _ _ _ _ B _ eq_refl) as (_ & ? & _). }
  rewrite (proj2 (Z.eqb_neq prev (initial_thread s))) by done. cbn [negb].
  rewrite (Hdy Hdyp Hpi) in Bm. apply wp_bind, wp_assertb; [by rewrite (proj2 (Z.eqb_neq _ _))|].
  eapply wp_free_page; [exact Bm|done|]. intros ps Bf Hm. apply HQ.
  assert (Gm : guar s g (marked s th) g) by (by eapply quiet_guar).
  assert (Mm : mine (cur s) s g (marked s th) g) by (by eapply quiet_mine).
  split_and!; [|done| |].
  - split_and!; [done|done|]. exists (with_status THREAD_RUNNING th). cbn.
    by rewrite lookup_delete_ne, lookup_insert_eq.
  - eapply guar_trans; [exact Gm|]. split; [done|]. intros t tht Ht Ett Hst Hdt. cbn in Ett.
    apply lookup_delete_Some in Ett as [Htp Ett]. split; [apply Hm; congruence|]. exists tht. done.
  - eapply mine_at_trans; [exact Mm|]. by apply Hm.
Qed.

(** ** schedule() and its callers *)

Lemma kinv_of_tail s g s' : tail_post s g s' -> kinv fn_ok s' g.
Proof. by intros []. Qed.

(** schedule() as seen by its caller: it is resumed in a state in which the
    invariant holds again. *)
Lemma wpc_schedule n d s g th (Q : unit -> kstate -> ghost -> Prop) :
  kbase fn_ok None d s g -> intr s = INTR_OFF -> in_external_intr s = false ->
  threads s !! cur s = Some th -> status th <> THREAD_RUNNING ->
  (forall t, d = Some t -> t = cur s) ->
  (status th = THREAD_DYING -> cur s <> initial_thread s -> d = Some (cur s)) ->
  (forall s' g', status th <> THREAD_DYING -> kinv fn_ok s' g' -> intr s' = INTR_OFF ->
     cur s' = cur s -> mine (cur s) s g s' g' -> Q tt s' g') ->
  wpc fn_ok n schedule Q s g.
Proof.
  intros B Hi Hx Et Hst Hd Hdy HQ. unfold schedule, prim. cbn [cbind].
  apply wpc_prim_off; [done|]. eapply wp_schedule_next; [done..|].
  intros next s1 g1 _ B1 Q1 R1 Et1 Hi1 Hx1. exists g1. split; [by eapply quiet_guar|].
  pose proof R1 as (_ & _ & Ec & _ & Ein & _). cbn [fst snd].
  assert (Et' : threads s1 !! cur s1 = Some th) by (by rewrite Ec, Et1).
  destruct (Z.eqb_spec (cur s) next) as [<-|Hne]; cbn [cbind].
  - assert (Hnd : status th <> THREAD_DYING).
    { destruct (kb_running _ _ _ _ _ B1 _ eq_refl) as (_ & th' & Eth' & ?). rewrite <- Ec in *. congruence. }
    assert (d = None) as ->.
    { destruct d as [u|]; [|done]. pose proof (Hd u eq_refl) as ->.
      by destruct (kb_dying _ _ _ _ _ B1 _ eq_refl) as (? & _). }
    rewrite <- Ec in B1. apply wpc_prim_off; [done|]. eapply wp_schedule_tail_null; [done..|].
    destruct (tail_post_marked s1 g1 th B1 Et') as (K & Hi2 & G & Mi); [congruence|done|].
    exists g1. split; [done|]. apply wpc_ret, HQ; [done..|exact Ec|].
    eapply mine_at_trans; [by eapply quiet_mine|]. by rewrite <- Ec.
  - rewrite <- Ec in Hne. apply wpc_switch; [done|congruence|eauto| |].
    + intros s' Hl. eapply swinv_left; [done|congruence|done|congruence|done| | |done].
      * intros t Ht. rewrite Ec. by apply Hd.
      * rewrite Ec, Ein. done.
    + intros prev s' g' (Hsw & Ecs & Hm). apply wpc_prim_off; [apply Hsw|].
      eapply wp_schedule_tail; [done|]. intros s2 (K & Hi2 & G & Mi).
      exists g'. split; [done|]. assert (Ecur : cur s2 = cur s) by (destruct G; congruence).
      assert (Hm' : mine (cur s) s g s2 g').
      { eapply mine_at_trans; [by eapply quiet_mine|]. rewrite <- Ec.
        eapply mine_at_trans; [exact Hm|]. by rewrite <- Ecs. }
      apply wpc_ret, HQ; try done.
      intros Hdd. destruct (mine_self _ _ _ _ _ _ _ Hm' th Et) as (th2 & Et2 & _ & _ & _ & Hd2).
      destruct K as (_ & _ & th3 & Et3 & Hr). rewrite Ecur in Et3.
      rewrite Et2 in Et3. injection Et3 as <-. rewrite Hd2 in Hr; done.
Qed.

(** A step from a state in which the invariant holds, with interrupts on or
    off. *)
Lemma wpc_prim_kinv n (A X : Set) (m : M kstate X) (k : X -> comp A) (Q : A -> kstate -> ghost -> Prop) s g :
  kinv fn_ok s g ->
  (forall s1 g1, kinv fn_ok s1 g1 -> cur s1 = cur s -> intr s1 = intr s ->
     mine (cur s) s g s1 g1 ->
     wp m (fun x s' => exists g', guar s1 g1 s' g' /\ wpc fn_ok n (k x) Q s' g') s1) ->
  wpc fn_ok n (Prim m k) Q s g.
Proof.
  intros Hk W. destruct (intr s) eqn:Hi.
  - apply wpc_prim_off; [done|]. apply W; try done. apply mine_at_refl.
  - apply wpc_prim_on; [done..|]. intros s1 g1 (K1 & E1 & I1 & M1). by apply W.
Qed.

Lemma wpc_thread_block n s g th (Q : unit -> kstate -> ghost -> Prop) :
  kbase fn_ok None None (set_threads (<[cur s := with_status THREAD_BLOCKED th]> (threads s)) s) g ->
  intr s = INTR_OFF -> in_external_intr s = false ->
  threads s !! cur s = Some th -> magic th = THREAD_MAGIC -> status th = THREAD_RUNNING -> 0 < cur s ->
  (forall s' g', kinv fn_ok s' g' -> intr s' = INTR_OFF -> cur s' = cur s ->
     mine (cur s) s g s' g' -> Q tt s' g') ->
  wpc fn_ok n thread_block Q s g.
Proof.
  intros B Hi Hx Et Hm Hst Hpos HQ. unfold thread_block, prim. cbn [cbind].
  apply wpc_prim_off; [done|].
  apply wp_bind. red. cbn [intr_context gets]. apply wp_bind, wp_assertb; [by rewrite Hx|].
  apply wp_bind. red. cbn [intr_get_level gets]. apply wp_bind, wp_assertb; [by apply bool_decide_eq_true|].
  apply wp_bind. eapply wp_thread_current; [done..|]. eapply wp_update_thread; [done..|].
  set (s1 := set_threads _ s) in *.
  assert (Hp : private g !! cur s = None) by (apply (kb_cur _ _ _ _ _ B)).
  assert (Qt : quiet all s g s1 g).
  { assert (E : g = set_lists (lists g) g) by (by destruct g). rewrite E at 2.
    eapply (quiet_update _ s g _ (cur s) th (with_status THREAD_BLOCKED th)); try done.
    intros _. apply similar_status; [done|]. by rewrite Hst. }
  exists g. split; [by eapply quiet_guar|].
  eapply (wpc_schedule n None s1 g (with_status THREAD_BLOCKED th)); try done.
  - cbn. by rewrite lookup_insert_eq.
  - intros s' g' _ K I C Mi. apply HQ; try done. eapply mine_at_trans; [by eapply quiet_mine|done].
Qed.

(** The idle thread gives up the processor without going to any list. *)
Lemma kbase_idle_off d s s' g th st :
  kbase fn_ok (Some (idle_thread s)) d s g -> threads s !! idle_thread s = Some th ->
  st = THREAD_READY \/ st = THREAD_BLOCKED ->
  rest_eq s s' -> lmem s' = lmem s ->
  threads s' = <[idle_thread s := with_status st th]> (threads s) ->
  kbase fn_ok None d s' g.
Proof.
  intros B Et Hst R El Et'. pose proof R as (_ & _ & _ & Ei & _).
  assert (Hdi : d <> Some (idle_thread s)).
  { intros Hd. by destruct (kb_dying _ _ _ _ _ B _ Hd) as (? & _). }
  eapply kbase_move; try done; eauto.
  - rewrite El. apply B.
  - by rewrite El.
  - intros l xs e El' He. right. exists xs. split_and!; [done..|]. intros ->.
    eapply (thread_unlinked _ _ _ _ _ _ B); eauto using elem_nodes.
  - intros u Hu. split; congruence.
  - intros _ _. unfold placed. cbn. rewrite Ei. destruct Hst as [-> | ->]; by left.
Qed.

(** Facts on the running thread when the invariant holds. *)
Lemma kinv_facts s g : kinv fn_ok s g ->
  exists th, threads s !! cur s = Some th /\ status th = THREAD_RUNNING /\ 0 < cur s /\
    magic th = THREAD_MAGIC /\ elem_of_thread (cur s) ∈ dom (lmem s) /\
    unlinked (elem_of_thread (cur s)) (lists g) /\ private g !! cur s = None.
Proof.
  intros (B & Hx & th & Et & Hst). destruct (thread_facts _ _ _ _ _ _ B Et) as (? & ? & ?).
  exists th. split_and!; try done; [|apply B]. eapply (thread_unlinked fn_ok); eauto.
Qed.

Lemma wp_thread_current_kinv s g (Q : Z -> kstate -> Prop) :
  kinv fn_ok s g -> Q (cur s) s -> wp thread_current Q s.
Proof. intros K HQ. destruct (kinv_facts _ _ K) as (th & ? & ? & ? & ? & _). by eapply wp_thread_current. Qed.

(** The running thread puts itself at the end of list [l] and takes status
    [list_status l]: the state, and that nothing others rely on changes. *)
Definition parked (s : kstate) (th : thread) (l : Z) (h : mem) (lvl : intr_level) : kstate :=
  set_intr lvl (set_threads (<[cur s := with_status (list_status l) th]> (threads s)) (set_lmem h s)).

Lemma parked_ok s g th l xs h lvl :
  kinv fn_ok s g -> threads s !! cur s = Some th -> cur s <> idle_thread s ->
  lists g !! l = Some xs ->
  lists_ok h (<[l := xs ++ [elem_of_thread (cur s)]]> (lists g)) -> dom h = dom (lmem s) ->
  let g' := set_lists (<[l := xs ++ [elem_of_thread (cur s)]]> (lists g)) g in
  kbase fn_ok None None (parked s th l h lvl) g' /\ quiet all s g (parked s th l h lvl) g'.
Proof.
  intros (B & Hx & th0 & Et0 & Hst) Et Hid El Hh Hd g'. rewrite Et in Et0. injection Et0 as <-. split.
  - by eapply kbase_enqueue.
  - eapply quiet_update; [done|apply B| |done|done]. intros _.
    apply similar_status; [apply list_status_not_dying|by rewrite Hst].
Qed.

Lemma list_status_ready : list_status ready_list = THREAD_READY.
Proof. unfold list_status. by rewrite decide_True. Qed.

(** The first half of thread_yield(). *)
(** The ready list after the running thread has put itself back. *)
Definition requeued (s : kstate) (g g' : ghost) : Prop :=
  if cur s =? idle_thread s then lists g' = lists g
  else exists rl, lists g !! ready_list = Some rl /\
    lists g' = <[ready_list := rl ++ [elem_of_thread (cur s)]]> (lists g).

Lemma wp_yield_start s g (Q : intr_level -> kstate -> Prop) :
  kinv fn_ok s g ->
  (forall s' g' th', requeued s g g' -> kbase fn_ok None None s' g' -> quiet all s g s' g' -> intr s' = INTR_OFF ->
     in_external_intr s' = false -> threads s' !! cur s' = Some th' -> status th' = THREAD_READY ->
     Q (intr s) s') ->
  wp (curr ← thread_current;
      c ← intr_context;
      ASSERT (negb c);;
      old_level ← intr_disable;
      idle ← gets idle_thread;
      (if negb (curr =? idle) then on_lists (list_push_back ready_list (elem_of_thread curr))
       else ret tt);;
      update_thread curr (with_status THREAD_READY);;
      ret old_level) Q s.
Proof.
  intros K HQ. pose proof K as (B & Hx & _).
  destruct (kinv_facts _ _ K) as (th & Et & Hst & Hpos & Hm & Hd & Hu & Hp).
  apply wp_bind. eapply wp_thread_current_kinv; [done|].
  apply wp_bind. red. cbn [intr_context gets]. rewrite Hx. apply wp_bind, wp_assertb; [done|].
  apply wp_bind. red. cbn [intr_disable bind intr_get_level gets modify ret].
  apply wp_bind. red. cbn [gets]. destruct (kb_ready _ _ _ _ _ B) as [rl Erl].
  destruct (Z.eqb_spec (cur s) (idle_thread s)) as [Ei|Hne].
  - rewrite (proj2 (Z.eqb_eq _ _)) by done. cbn [negb]. apply wp_bind, wp_ret.
    apply wp_bind. eapply wp_update_thread; [done..|]. apply wp_ret.
    eapply (HQ _ g); try done.
    + unfold requeued. by rewrite (proj2 (Z.eqb_eq _ _)).
    + eapply (kbase_idle_off None s _ g th THREAD_READY); try done; try (rewrite <- Ei; done). auto.
    + assert (E : g = set_lists (lists g) g) by (by destruct g). rewrite E at 2.
      eapply (quiet_update _ s g _ (cur s) th (with_status THREAD_READY th)); try done.
      intros _. apply similar_status; [done|]. by rewrite Hst.
    + cbn. by rewrite lookup_insert_eq.
    + done.
  - rewrite (proj2 (Z.eqb_neq _ _)) by done. cbn [negb]. apply wp_bind, wp_on_lists.
    eapply wp_lists_push_back; [apply B|done|done| |done|].
    { unfold elem_of_thread, elem_ofs, NULL. lia. }
    intros h Hh Hdh. apply wp_bind. eapply wp_update_thread; [done..|]. apply wp_ret.
    destruct (parked_ok s g th ready_list rl h INTR_OFF) as [B' Q']; try done.
    unfold parked in *. rewrite list_status_ready in *.
    eapply HQ; try done; cbn; rewrite ?lookup_insert_eq; try done.
    unfold requeued. rewrite (proj2 (Z.eqb_neq _ _)) by done. eauto.
Qed.

Lemma wpc_thread_yield n s g (Q : unit -> kstate -> ghost -> Prop) :
  kinv fn_ok s g ->
  (forall s' g', kinv fn_ok s' g' -> intr s' = intr s -> cur s' = cur s ->
     mine (cur s) s g s' g' -> Q tt s' g') ->
  wpc fn_ok n thread_yield Q s g.
Proof.
  intros K HQ. unfold thread_yield, prim. cbn [cbind]. apply wpc_prim_kinv; [done|].
  intros s1 g1 K1 C1 I1 M1. eapply wp_yield_start; [done|].
  intros s2 g2 th2 _ B2 Q2 I2 X2 Et2 Hs2. exists g2. split; [by eapply quiet_guar|].
  assert (C2 : cur s2 = cur s) by (rewrite (quiet_cur _ _ _ _ _ Q2); done).
  apply wpc_bind. eapply wpc_schedule; try done; try (rewrite Hs2; done).
  intros s3 g3 _ K3 I3 C3 M3. apply wpc_prim_off; [done|].
  apply wp_bind, wp_intr_set_level; [intros _; apply K3|]. apply wp_ret. exists g3.
  split; [apply guar_refl_intr|]. apply wpc_ret, HQ; cbn; [by apply kinv_set_intr|congruence|congruence|].
  assert (M : mine (cur s) s g s3 g3).
  { eapply mine_at_trans; [exact M1|]. eapply mine_at_trans; [by eapply quiet_mine|].
    by rewrite <- C2. }
  destruct M. by split.
Qed.

Lemma mine_no_locks s g s' g' t : mine t s g s' g' ->
  (forall l, owner g !! l <> Some t) -> forall l, owner g' !! l <> Some t.
Proof. intros M Hn l E. apply (Hn l). by apply (mine_owner _ _ _ _ _ _ _ M). Qed.

(** The running thread dies. *)
Lemma kbase_die s s' g th :
  kbase fn_ok (Some (cur s)) None s g -> threads s !! cur s = Some th -> cur s <> idle_thread s ->
  (forall l, owner g !! l <> Some (cur s)) -> rest_eq s s' -> lmem s' = lmem s ->
  threads s' = <[cur s := with_status THREAD_DYING th]> (threads s) ->
  kbase fn_ok None (if decide (cur s = initial_thread s) then None else Some (cur s)) s' g.
Proof.
  intros B Et Hid Hown R El Et'. pose proof R as (_ & _ & _ & _ & Ei & _).
  eapply kbase_move; try done; eauto.
  - rewrite El. apply B.
  - by rewrite El.
  - intros l xs e El' He. right. exists xs. split_and!; [done..|]. intros ->.
    eapply (thread_unlinked _ _ _ _ _ _ B); eauto using elem_nodes.
  - intros u Hu. split; congruence.
  - intros u Hu. destruct (decide _); split; congruence.
  - intros _ Hd. cbn. destruct (decide (cur s = initial_thread s)); [congruence|done].
  - intros Hd. destruct (decide (cur s = initial_thread s)); [done|]. split_and!; try done. apply B.
Qed.

Lemma wpc_thread_exit n s g (Q : unit -> kstate -> ghost -> Prop) :
  kinv fn_ok s g -> cur s <> idle_thread s -> (forall l, owner g !! l <> Some (cur s)) ->
  wpc fn_ok n thread_exit Q s g.
Proof.
  intros K Hid Hown. unfold thread_exit, prim. cbn [cbind]. apply wpc_prim_kinv; [done|].
  intros s1 g1 K1 C1 I1 M1. pose proof K1 as (B1 & X1 & _).
  destruct (kinv_facts _ _ K1) as (th & Et & Hst & Hpos & Hm & _ & _ & Hp).
  rewrite <- C1 in Hid. rewrite <- (mine_idle _ _ _ _ _ _ _ M1) in Hid.
  pose proof (mine_no_locks _ _ _ _ _ M1 Hown) as Hown1. rewrite <- C1 in Hown1.
  apply wp_bind. red. cbn [intr_context gets]. rewrite X1. apply wp_bind, wp_assertb; [done|].
  apply wp_bind. red. cbn [intr_disable bind intr_get_level gets modify ret].
  apply wp_bind. eapply wp_thread_current; [done..|]. eapply wp_update_thread; [done..|].
  cbn [cur set_intr]. set (s2 := set_threads _ _).
  pose proof (kbase_die s1 s2 g1 th B1 Et Hid Hown1) as B2.
  exists g1. split.
  { eapply (quiet_guar (fun u => u <> cur s1)); [|done].
    assert (E : g1 = set_lists (lists g1) g1) by (by destruct g1). rewrite E at 2.
    eapply (quiet_update _ s1 g1 _ (cur s1) th (with_status THREAD_DYING th)); done. }
  apply wpc_bind. eapply (wpc_schedule n (if decide (cur s1 = initial_thread s1) then None else Some (cur s1)) s2 g1
    (with_status THREAD_DYING th)); try done.
  - by apply B2.
  - cbn. by rewrite lookup_insert_eq.
  - intros t. destruct (decide _); [done|]. by intros [= <-].
  - intros _ Hne. cbn in Hne. by rewrite decide_False.
Qed.
End schedule.
