(* ===== verification/KSynch.v ===== *)
(** * Semaphores and locks keep the invariant *)

From Stdlib Require Import ZArith Lia.
From stdpp Require Import base numbers gmap list.
From S2P Require Import Prelude DList Bitmap Vaddr Palloc Kernel Thread Synch Boot KInv KLogic KSched.

Open Scope Z_scope.

Section synch.
Context `{Image} `{Program} (fn_ok : Z -> Prop).

Abbreviation all := (fun _ : Z => True).

Lemma wp_get_value sa v (Q : Z -> kstate -> Prop) s :
  semas s !! sa = Some v -> Q v s -> wp (get_value sa) Q s.
Proof. intros E HQ. unfold get_value, wp, bind, get. by rewrite E. Qed.

Lemma wp_set_value sa v w (Q : unit -> kstate -> Prop) s :
  semas s !! sa = Some v -> Q tt (set_semas (<[sa := u32 w]> (semas s)) s) ->
  wp (set_value sa w) Q s.
Proof. intros E HQ. unfold set_value. apply wp_bind. by eapply wp_get_value. Qed.

(** ** sema_up() *)

Lemma thread_of_elem_of t : thread_of_elem (elem_of_thread t) = t.
Proof. unfold thread_of_elem, elem_of_thread. lia. Qed.

(** Waking a thread that waits in list [l]. *)
Lemma wake_ok c d s g l xs1 t xs2 (Q : unit -> kstate -> Prop) h :
  kbase fn_ok c d s g -> lists g !! l = Some (xs1 ++ elem_of_thread t :: xs2) -> l <> ready_list ->
  lists_ok h (<[l := xs1 ++ xs2]> (lists g)) -> dom h = dom (lmem s) ->
  (intr s = INTR_ON -> in_external_intr s = false) ->
  (forall s1 g1 th rl, lists g !! ready_list = Some rl -> threads s !! t = Some th ->
     kbase fn_ok c d s1 g1 -> quiet all s g s1 g1 -> rest_eq s s1 ->
     g1 = set_lists (<[ready_list := rl ++ [elem_of_thread t]]> (<[l := xs1 ++ xs2]> (lists g))) g ->
     (exists h', s1 = set_threads (<[t := with_status THREAD_READY th]> (threads s)) (set_lmem h' s) /\
        dom h' = dom (lmem s)) ->
     c <> Some t -> Q tt s1) ->
  wp (thread_unblock t) Q (set_lmem h s).
Proof.
  intros B El Hl Hh Hd Hx HQ. destruct (kb_ready _ _ _ _ _ B) as [rl Erl].
  assert (Hin : elem_of_thread t ∈ xs1 ++ elem_of_thread t :: xs2) by (apply elem_of_app; right; left).
  destruct (kb_elems _ _ _ _ _ B _ _ _ El Hin) as (u & th & ->%elem_of_thread_inj & Et & Hc & _ & Hid & Hp & Hst).
  destruct (thread_facts _ _ _ _ _ _ _ B Et) as (Hpos & Hm & Hdom).
  unfold list_status in Hst. rewrite decide_False in Hst by done.
  eapply (wp_thread_unblock u th rl (<[l := xs1 ++ xs2]> (lists g))); try done.
  - by rewrite lookup_insert_ne.
  - cbn. by rewrite Hd.
  - pose proof (lists_nodup _ _ (kb_lists _ _ _ _ _ B) _ _ El) as Hn.
    pose proof (kb_heads _ _ _ _ _ B) as Hhd.
    intros l' xs' [[<- <-] | [Hne El']]%lookup_insert_Some [E | [E | E]]%elem_of_nodes.
    + by destruct (Hhd l _ u El ltac:(eauto)).
    + apply NoDup_app in Hn as (_ & Hd1 & [Hn2 _]%NoDup_cons).
      apply elem_of_app in E as [E|E]; [by apply (Hd1 _ E); left|done].
    + by destruct (Hhd l _ u El ltac:(eauto)).
    + by destruct (Hhd l' _ u El' ltac:(eauto)).
    + apply Hne. by eapply (lists_elem_unique _ _ (kb_lists _ _ _ _ _ B)).
    + by destruct (Hhd l' _ u El' ltac:(eauto)).
  - intros h' Hh' Hd'.
    apply (HQ _ (set_lists (<[ready_list := rl ++ [elem_of_thread u]]> (<[l := xs1 ++ xs2]> (lists g))) g)
      th rl); try done.
    + eapply kbase_wake; try done. cbn. by rewrite Hd', <- Hd.
    + eapply (quiet_update _ s g _ u th (with_status THREAD_READY th)); try done.
      intros _. apply similar_status; [done|by rewrite Hst].
    + exists h'. split; [done|]. by rewrite Hd', <- Hd.
Qed.

Lemma wp_sema_up c d s g sa v (Q : unit -> kstate -> Prop) :
  kbase fn_ok c d s g -> semas s !! sa = Some v ->
  (intr s = INTR_ON -> in_external_intr s = false) ->
  (forall s1 g1, kbase fn_ok c d s1 g1 -> quiet all s g s1 g1 -> rest_eq s s1 ->
     intr s1 = intr s -> in_external_intr s1 = in_external_intr s ->
     (forall u, c = Some u -> threads s1 !! u = threads s !! u) ->
     Q tt (set_semas (<[sa := u32 (v + 1)]> (semas s)) s1)) ->
  wp (sema_up sa) Q s.
Proof.
  intros B Ev Hx HQ. destruct (kb_sema _ _ _ _ _ B sa v Ev) as (Hn & _ & [ws Ews] & Hnr).
  unfold sema_up. apply wp_bind, wp_assertb; [by rewrite (proj2 (Z.eqb_neq _ _))|].
  apply wp_bind. red. cbn [intr_disable bind intr_get_level gets modify ret].
  apply wp_bind, wp_on_lists. eapply wp_lists_empty; [apply B|done|].
  destruct ws as [|e ws].
  - rewrite bool_decide_eq_true_2 by done. cbn [negb]. apply wp_bind, wp_ret.
    apply wp_bind. eapply wp_get_value; [done|]. apply wp_bind. eapply wp_set_value; [done|].
    apply wp_bind, wp_intr_set_level; [done|]. apply wp_ret.
    apply (HQ s g); try done. apply quiet_refl.
  - rewrite bool_decide_eq_false_2 by done. cbn [negb]. apply wp_bind.
    destruct (kb_elems _ _ _ _ _ B _ _ _ Ews ltac:(left)) as (t & th & -> & _).
    apply wp_bind, wp_on_lists. eapply wp_lists_pop_front; [apply B|done|].
    intros h Hh Hd. cbn [lmem set_lmem set_intr]. rewrite thread_of_elem_of.
    assert (B0 : kbase fn_ok c d (set_intr INTR_OFF s) g) by (by apply kbase_set_intr).
    eapply (wake_ok c d (set_intr INTR_OFF s) g (waiters sa) [] t ws); try done.
    intros s1 g1 th1 rl Erl Et B1 Q1 R1 Eg1 (h' & Es1 & Hd') Hct.
    apply wp_bind. eapply wp_get_value; [by rewrite (proj1 R1)|].
    apply wp_bind. eapply wp_set_value; [by rewrite (proj1 R1)|].
    apply wp_bind, wp_intr_set_level; [by subst s1|]. apply wp_ret.
    subst s1. apply (HQ (set_threads (<[t := with_status THREAD_READY th1]> (threads s)) (set_lmem h' s)) g1);
      try done.
    + by eapply kbase_ext.
    + destruct Q1. by split.
    + intros u ->. cbn. rewrite lookup_insert_ne; [done|]. congruence.
Qed.

(** ** Semaphores that belong to no lock *)

Lemma mine_plain FL FP t s g s' g' sa : mine_at FL FP t s g s' g' -> plain s sa -> plain s' sa.
Proof.
  intros M. apply plain_dom; apply M.
Qed.

Lemma set_owner_id g : set_owner (owner g) g = g.
Proof. by destruct g. Qed.

(** The value of such a semaphore can change freely. *)
Lemma kbase_value c d s g sa w : kbase fn_ok c d s g -> plain s sa -> in_u 32 w ->
  kbase fn_ok c d (set_semas (<[sa := w]> (semas s)) s) g.
Proof.
  intros B [[v Ev] Hl] Hw. rewrite <- (set_owner_id g).
  apply (kbase_locks fn_ok c d s); try done; cbn.
  - apply dom_insert_lookup_L. eauto.
  - intros sa' v'. rewrite lookup_insert_Some. intros [[<- <-] | [_ E]]; [done|].
    by destruct (kb_sema _ _ _ _ _ B sa' v' E) as (_ & ? & _).
  - intros l h Eh. rewrite lookup_insert_ne by (intros ->; by rewrite Hl in Eh).
    by destruct (kb_lock _ _ _ _ _ B l h Eh) as [_ ?].
  - auto.
Qed.

Lemma quiet_value s g sa w : is_Some (semas s !! sa) ->
  quiet all s g (set_semas (<[sa := w]> (semas s)) s) g.
Proof.
  intros Hs. split; try done; cbn.
  - by apply dom_insert_lookup_L.
  - intros u _. destruct (threads s !! u); by constructor.
Qed.

Lemma u32_in_u x : in_u 32 (u32 x).
Proof. apply uwrap_range. lia. Qed.

(** From one state with the invariant to another, for the current thread. *)
Definition kept (FL FP : Z -> Prop) (s : kstate) (g : ghost) (s' : kstate) (g' : ghost) : Prop :=
  kinv fn_ok s' g' /\ intr s' = intr s /\ cur s' = cur s /\ mine_at FL FP (cur s) s g s' g'.

Lemma kept_refl FL FP s g : kinv fn_ok s g -> kept FL FP s g s g.
Proof. intros K. split_and!; try done. apply mine_at_refl. Qed.

Lemma kept_trans FL FP s1 g1 s2 g2 s3 g3 :
  kept FL FP s1 g1 s2 g2 -> kept FL FP s2 g2 s3 g3 -> kept FL FP s1 g1 s3 g3.
Proof.
  intros (K1 & I1 & C1 & M1) (K2 & I2 & C2 & M2). split_and!; [done|congruence..|].
  rewrite C1 in M2. by eapply mine_at_trans.
Qed.

Lemma kept_weaken (FL FP FL' FP' : Z -> Prop) s g s' g' :
  (forall l, FL' l -> FL l) -> (forall p, FP' p -> FP p) ->
  kept FL FP s g s' g' -> kept FL' FP' s g s' g'.
Proof. intros HL HP (? & ? & ? & ?). split_and!; eauto using mine_at_weaken. Qed.

(** The invariant after a quiet step, when the base is known to hold. *)
Lemma quiet_kept s g s' g' : kinv fn_ok s g -> kbase fn_ok (Some (cur s)) None s' g' ->
  quiet all s g s' g' -> intr s' = intr s -> in_external_intr s' = false ->
  (forall th', threads s' !! cur s = Some th' -> status th' = THREAD_RUNNING) ->
  kept all all s g s' g'.
Proof.
  intros K B Q Hi Hx Hr. pose proof (quiet_cur _ _ _ _ _ Q) as Ec.
  split_and!; [|done|done|by eapply quiet_mine].
  destruct (kb_running _ _ _ _ _ B _ eq_refl) as (_ & th & Et & _).
  split_and!; [by rewrite Ec|done|]. rewrite Ec. eauto.
Qed.

Lemma wp_sema_up_plain s g sa (Q : unit -> kstate -> Prop) :
  kinv fn_ok s g -> plain s sa ->
  (forall s' g', guar s g s' g' -> kept all all s g s' g' -> Q tt s') -> wp (sema_up sa) Q s.
Proof.
  intros K Hp HQ. pose proof K as (B & Hx & th & Et & Hst). pose proof Hp as [[v Ev] _].
  eapply wp_sema_up; [done..|]. intros s1 g1 B1 Q1 R1 I1 X1 T1.
  pose proof (quiet_mine _ _ _ _ _ 0 Q1 I) as M1. pose proof (mine_plain _ _ _ _ _ _ _ _ M1 Hp) as Hp1.
  pose proof (quiet_trans _ _ _ _ _ _ _ Q1 (quiet_value s1 g1 sa (u32 (v + 1)) (proj1 Hp1))) as Q2.
  rewrite (proj1 R1) in Q2. apply (HQ _ g1); [by eapply quiet_guar|].
  apply quiet_kept; try done; cbn.
  - pose proof (kbase_value _ _ _ _ sa (u32 (v + 1)) B1 Hp1 (u32_in_u _)) as B2.
    by rewrite (proj1 R1) in B2.
  - congruence.
  - intros th'. rewrite T1, Et by done. by intros [= <-].
Qed.

(** ** sema_down() *)

(** The current thread puts itself on the waiting list of [sa] and blocks. *)
Lemma wpc_wait n s g sa v (Q : unit -> kstate -> ghost -> Prop) :
  kinv fn_ok s g -> intr s = INTR_OFF -> semas s !! sa = Some v -> cur s <> idle_thread s ->
  (forall s' g', kept all all s g s' g' -> Q tt s' g') ->
  wpc fn_ok n (prim (t ← thread_current;
                     on_lists (list_push_back (waiters sa) (elem_of_thread t))) ⨾
               thread_block) Q s g.
Proof.
  intros K Hi Ev Hid HQ. pose proof K as (B & Hx & _).
  destruct (kinv_facts _ _ _ K) as (th & Et & Hst & Hpos & Hm & Hd & Hu & Hp).
  destruct (kb_sema _ _ _ _ _ B sa v Ev) as (_ & _ & [ws Ews] & Hnr).
  unfold prim. cbn [cbind]. apply wpc_prim_off; [done|].
  apply wp_bind. eapply wp_thread_current_kinv; [done|]. apply wp_on_lists.
  eapply wp_lists_push_back; [apply B|done|done| |done|].
  { unfold elem_of_thread, elem_ofs, NULL. lia. }
  intros h Hh Hdh.
  destruct (parked_ok fn_ok s g th (waiters sa) ws h INTR_OFF) as [B' Q']; try done.
  set (g' := set_lists _ g) in *. exists g'. split.
  { eapply quiet_guar; [apply quiet_lists|done]. }
  unfold parked, list_status in B'. rewrite decide_False in B' by done.
  eapply (wpc_thread_block _ _ _ _ th); try done.
  - eapply kbase_ext; [exact B'|done..].
  - intros s' g2 K' I' C' M'. apply HQ. split_and!; [done|congruence|done|].
    eapply mine_at_trans; [|exact M']. eapply quiet_mine; [apply quiet_lists|done].
Qed.

Lemma wpc_sema_down n s g sa (Q : unit -> kstate -> ghost -> Prop) :
  kinv fn_ok s g -> is_Some (semas s !! sa) -> cur s <> idle_thread s ->
  (forall s1 g1 v, kept all all s g (set_intr (intr s) s1) g1 -> kinv fn_ok s1 g1 ->
     semas s1 !! sa = Some v -> 0 < v ->
     let s2 := set_semas (<[sa := v - 1]> (semas s1)) (set_intr (intr s) s1) in
     exists g2, guar s1 g1 s2 g2 /\ Q tt s2 g2) ->
  wpc fn_ok n (sema_down sa) Q s g.
Proof.
  intros K Hs Hid HQ. pose proof K as (B & Hx & _). destruct Hs as [v0 Ev0].
  destruct (kb_sema _ _ _ _ _ B sa v0 Ev0) as (Hn & _).
  unfold sema_down, prim. cbn [cbind]. apply wpc_prim_kinv; [done|].
  intros s1 g1 K1 C1 I1 M1. pose proof K1 as (_ & Hx1 & _).
  apply wp_bind, wp_assertb; [by rewrite (proj2 (Z.eqb_neq _ _))|].
  apply wp_bind. red. cbn [intr_context gets]. rewrite Hx1. apply wp_bind, wp_assertb; [done|].
  red. cbn [intr_disable bind intr_get_level gets modify ret].
  exists g1. split; [apply guar_refl_intr|]. rewrite I1.
  eapply (wpc_while_off _ _ _ (fun s' g' => kinv fn_ok s' g' /\ intr s' = INTR_OFF /\
    cur s' = cur s /\ mine (cur s) s g s' g')).
  { split_and!; [by apply kinv_set_intr|done|done|]. destruct M1. by split. }
  intros m s2 g2 _ (K2 & I2 & C2 & M2). split; [done|].
  assert (Hs2 : is_Some (semas s2 !! sa)).
  { apply (dom_is_Some (semas s)); [apply M2|eauto]. }
  destruct Hs2 as [v2 Ev2]. pose proof K2 as (B2 & Hx2 & _).
  destruct (kb_sema _ _ _ _ _ B2 sa v2 Ev2) as (_ & Hr2 & _).
  apply wp_bind. eapply wp_get_value; [done|]. apply wp_ret.
  exists g2. split; [apply guar_refl|].
  destruct (Z.eqb_spec v2 0) as [->|Hv2].
  - eapply wpc_wait; [done..| |].
    { rewrite C2, (mine_idle _ _ _ _ _ _ _ M2). done. }
    intros s3 g3 (K3 & I3 & C3 & M3). rewrite C2 in M3.
    split_and!; [done|congruence..|by eapply mine_at_trans].
  - apply wpc_prim_off; [done|]. apply wp_bind. eapply wp_get_value; [done|].
    apply wp_bind. eapply wp_set_value; [done|]. apply wp_bind, wp_intr_set_level; [done|].
    apply wp_ret. unfold in_u in Hr2. rewrite uwrap_small by (unfold in_u; lia).
    destruct (HQ s2 g2 v2) as (g3 & G3 & HQ3); [|done|done|lia|].
    { split_and!; [by apply kinv_set_intr|done|done|]. destruct M2. by split. }
    exists g3. split; [done|]. by apply wpc_ret.
Qed.

Lemma wpc_sema_down_plain n s g sa (Q : unit -> kstate -> ghost -> Prop) :
  kinv fn_ok s g -> plain s sa -> cur s <> idle_thread s ->
  (forall s' g', kept all all s g s' g' -> Q tt s' g') ->
  wpc fn_ok n (sema_down sa) Q s g.
Proof.
  intros K Hp Hid HQ. eapply wpc_sema_down; [done|apply Hp|done|].
  intros s1 g1 v (K1 & I1 & C1 & M1) K0 Ev Hv s2.
  assert (Hp1 : plain (set_intr (intr s) s1) sa) by (by eapply mine_plain).
  pose proof K1 as (B1 & Hx1 & Hst1). destruct (kb_sema _ _ _ _ _ B1 sa v Ev) as (_ & Hr & _).
  pose proof (quiet_value (set_intr (intr s) s1) g1 sa (v - 1) (proj1 Hp1)) as Q2.
  exists g1. split.
  - eapply guar_trans; [apply guar_refl_intr|]. by eapply quiet_guar.
  - apply HQ. split_and!; [|done|done|].
    + split_and!; [|done|done].
      refine (kbase_value _ _ (set_intr (intr s) s1) _ sa (v - 1) B1 Hp1 _). unfold in_u in *. lia.
    + eapply mine_at_trans; [exact M1|]. by eapply quiet_mine.
Qed.

Lemma wp_sema_try_down_plain s g sa (Q : bool -> kstate -> Prop) :
  kinv fn_ok s g -> plain s sa ->
  (forall b s' g', guar s g s' g' -> kept all all s g s' g' -> Q b s') ->
  wp (sema_try_down sa) Q s.
Proof.
  intros K Hp HQ. pose proof K as (B & Hx & Hst). pose proof Hp as [[v Ev] _].
  destruct (kb_sema _ _ _ _ _ B sa v Ev) as (Hn & Hr & _). unfold sema_try_down.
  apply wp_bind, wp_assertb; [by rewrite (proj2 (Z.eqb_neq _ _))|].
  apply wp_bind. red. cbn [intr_disable bind intr_get_level gets modify ret].
  apply wp_bind. eapply wp_get_value; [done|]. apply wp_bind.
  pose proof (quiet_value s g sa (v - 1) (proj1 Hp)) as Q2.
  destruct (Z.ltb_spec 0 v) as [Hv|Hv].
  - apply wp_bind. eapply wp_set_value; [done|]. apply wp_ret.
    apply wp_bind, wp_intr_set_level; [done|]. apply wp_ret.
    unfold in_u in Hr. rewrite uwrap_small by (unfold in_u; lia).
    apply (HQ true (set_semas (<[sa := v - 1]> (semas s)) s) g); [by eapply quiet_guar|].
    split_and!; [|done|done|by eapply quiet_mine].
    split_and!; [|done|done].
    refine (kbase_value _ _ s _ sa (v - 1) B Hp _). unfold in_u in *. lia.
  - apply wp_ret. apply wp_bind, wp_intr_set_level; [done|]. apply wp_ret.
    assert (E : set_intr (intr s) (set_intr INTR_OFF s) = s) by (by destruct s). rewrite E.
    apply (HQ false s g); [apply guar_refl|by apply kept_refl].
Qed.

(** ** Locks *)

(** A step on lock [l], by its owner or when it has none. *)
Definition free_or_mine (s : kstate) (o : option Z) : Prop := o = None \/ o = Some (cur s).

Lemma lock_step s g s' O' l :
  threads s' = threads s -> cur s' = cur s -> idle_thread s' = idle_thread s ->
  initial_thread s' = initial_thread s ->
  dom (semas s') = dom (semas s) -> dom (locks s') = dom (locks s) ->
  (forall l', l' <> l -> O' !! l' = owner g !! l' /\ locks s' !! l' = locks s !! l') ->
  free_or_mine s (owner g !! l) -> free_or_mine s (O' !! l) ->
  guar s g s' (set_owner O' g) /\
  mine_at (fun l' => l' <> l) all (cur s) s g s' (set_owner O' g).
Proof.
  intros E1 E2 E3 E4 D1 D2 Hl Ho Ho'. split.
  - split; [done|]. intros t th' Ht Et Hs Hd. rewrite E1 in Et. split; [|eauto].
    split; try done; cbn; rewrite ?E1; try done.
    + intros l' _. destruct (decide (l' = l)) as [->|Hne]; [|by rewrite (proj1 (Hl l' Hne))].
      destruct Ho as [-> | ->], Ho' as [-> | ->]; split; congruence.
    + intros l' _ El. destruct (decide (l' = l)) as [->|Hne]; [|by apply Hl].
      destruct Ho as [Ho|Ho]; congruence.
    + eauto 10.
  - split; try done; cbn; rewrite ?E1; try done.
    + intros l' Hne. by rewrite (proj1 (Hl l' Hne)).
    + intros l' Hne _. by apply Hl.
    + eauto 10.
Qed.

(** The base invariant after such a step. *)
Lemma kbase_lock c s g l h v v' h' o' :
  kbase fn_ok c None s g -> locks s !! l = Some h -> semas s !! lock_semaphore l = Some v ->
  lock_state h' v' o' -> in_u 32 v' -> free_or_mine s o' ->
  kbase fn_ok c None (set_locks (<[l := h']> (locks s))
    (set_semas (<[lock_semaphore l := v']> (semas s)) s))
    (set_owner (partial_alter (fun _ => o') l (owner g)) g).
Proof.
  intros B El Ev Hst Hv Ho. apply (kbase_locks fn_ok c None s); try done; cbn.
  - apply dom_insert_lookup_L. eauto.
  - apply dom_insert_lookup_L. eauto.
  - intros sa w. rewrite lookup_insert_Some. intros [[<- <-] | [_ E]]; [done|].
    by destruct (kb_sema _ _ _ _ _ B sa w E) as (_ & ? & _).
  - intros l' k. rewrite lookup_insert_Some. intros [[<- <-] | [Hne E]].
    + exists v'. by rewrite lookup_insert_eq, lookup_partial_alter_eq.
    + destruct (kb_lock _ _ _ _ _ B l' k E) as (_ & w & Ew & Hw). exists w.
      rewrite lookup_insert_ne, lookup_partial_alter_ne by (done || unfold lock_semaphore; lia). done.
  - intros l' t. destruct (decide (l' = l)) as [->|Hne].
    + rewrite lookup_partial_alter_eq. destruct Ho as [-> | ->]; [done|]. intros [= <-]. auto.
    + rewrite lookup_partial_alter_ne by done. auto.
Qed.

Lemma wp_get_holder l h (Q : Z -> kstate -> Prop) s :
  locks s !! l = Some h -> Q h s -> wp (get_holder l) Q s.
Proof. intros E HQ. unfold get_holder, wp, bind, get. by rewrite E. Qed.

Lemma wp_set_holder l h t (Q : unit -> kstate -> Prop) s :
  locks s !! l = Some h -> Q tt (set_locks (<[l := t]> (locks s)) s) -> wp (set_holder l t) Q s.
Proof. intros E HQ. unfold set_holder. apply wp_bind. by eapply wp_get_holder. Qed.

Lemma wp_lock_held s g l h (Q : bool -> kstate -> Prop) :
  kinv fn_ok s g -> locks s !! l = Some h -> Q (h =? cur s) s ->
  wp (lock_held_by_current_thread l) Q s.
Proof.
  intros K El HQ. pose proof K as (B & _). destruct (kb_lock _ _ _ _ _ B l h El) as (Hn & _).
  unfold lock_held_by_current_thread. apply wp_bind, wp_assertb; [by rewrite (proj2 (Z.eqb_neq _ _))|].
  apply wp_bind. eapply wp_get_holder; [done|]. apply wp_bind.
  eapply wp_thread_current_kinv; [done|]. by apply wp_ret.
Qed.

(** The holder recorded in a lock is its owner. *)
Lemma not_holder s g l h : kinv fn_ok s g -> locks s !! l = Some h ->
  owner g !! l <> Some (cur s) -> h <> cur s.
Proof.
  intros K El Ho. destruct (kinv_facts _ _ _ K) as (_ & _ & _ & Hpos & _). pose proof K as (B & _).
  destruct (kb_lock _ _ _ _ _ B l h El) as (_ & v & _ & Hl). unfold lock_state in Hl.
  destruct (owner g !! l) as [t|].
  - destruct Hl as [_ [-> | ->]]; [unfold NULL; lia|congruence].
  - destruct Hl as [_ ->]. unfold NULL. lia.
Qed.

Lemma mine_lock_dom FL FP t s g s' g' l :
  mine_at FL FP t s g s' g' -> is_Some (locks s !! l) -> is_Some (locks s' !! l).
Proof. intros M Hs. apply (dom_is_Some (locks s)); [apply M|done]. Qed.

(** What lock_acquire() achieves. *)
Definition acquired (l : Z) (s : kstate) (g : ghost) (s' : kstate) (g' : ghost) : Prop :=
  kept (fun l' => l' <> l) all s g s' g' /\
  owner g' !! l = Some (cur s) /\ locks s' !! l = Some (cur s).

(** Downing the lock's semaphore makes the current thread its owner. *)
Lemma wpc_lock_down n s g l (Q : unit -> kstate -> ghost -> Prop) :
  kinv fn_ok s g -> is_Some (locks s !! l) -> cur s <> idle_thread s ->
  (forall s' g', kept (fun l' => l' <> l) all s g s' g' -> owner g' !! l = Some (cur s) ->
     locks s' !! l = Some NULL -> Q tt s' g') ->
  wpc fn_ok n (sema_down (lock_semaphore l)) Q s g.
Proof.
  intros K Hl Hid HQ. pose proof K as (B & _).
  eapply wpc_sema_down; [done| |done|].
  { destruct Hl as [h Eh]. destruct (kb_lock _ _ _ _ _ B l h Eh) as (_ & v & Ev & _). eauto. }
  intros s1 g1 v (K1 & I1 & C1 & M1) K0 Ev Hv. set (si := set_intr (intr s) s1) in *.
  pose proof K1 as (B1 & Hx1 & Hst1).
  destruct (mine_lock_dom _ _ _ _ _ _ _ _ M1 Hl) as [h1 Eh1].
  destruct (kb_lock _ _ _ _ _ B1 l h1 Eh1) as (_ & v1 & Ev1 & Hls).
  assert (v1 = v) as -> by (cbn in Ev1; congruence).
  unfold lock_state in Hls. destruct (owner g1 !! l) as [t|] eqn:Eo; [lia|]. destruct Hls as [-> ->].
  set (O' := partial_alter (fun _ => Some (cur si)) l (owner g1)).
  assert (El : <[l := NULL]> (locks si) = locks si) by (by apply insert_id).
  pose proof (kbase_lock _ si g1 l NULL 1 0 NULL (Some (cur si)) B1 Eh1 Ev1
    ltac:(cbn; auto) ltac:(unfold in_u; lia) ltac:(right; done)) as B2. rewrite El in B2.
  destruct (lock_step si g1 (set_semas (<[lock_semaphore l := 0]> (semas si)) si) O' l)
    as [G2 M2]; try done; cbn.
  { apply dom_insert_lookup_L. eauto. }
  { intros l' Hne. split; [|done]. unfold O'. by rewrite lookup_partial_alter_ne. }
  { left. done. }
  { right. unfold O'. by rewrite lookup_partial_alter_eq. }
  exists (set_owner O' g1). split; [eapply guar_trans; [apply guar_refl_intr|exact G2]|].
  apply HQ; [|cbn; unfold O'; by rewrite lookup_partial_alter_eq, <- C1|done].
  split_and!; [|done|done|].
  - split_and!; [exact B2|done|done].
  - eapply mine_at_trans; [eapply mine_at_weaken; [..|exact M1]; done|]. by rewrite <- C1.
Qed.

(** A step on the holder and the value of a lock that the current thread
    owns or nobody does. *)
Lemma lock_update s g l h v v' h' o' :
  kinv fn_ok s g -> locks s !! l = Some h -> semas s !! lock_semaphore l = Some v ->
  lock_state h' v' o' -> in_u 32 v' -> free_or_mine s (owner g !! l) -> free_or_mine s o' ->
  let s' := set_locks (<[l := h']> (locks s)) (set_semas (<[lock_semaphore l := v']> (semas s)) s) in
  let g' := set_owner (partial_alter (fun _ => o') l (owner g)) g in
  guar s g s' g' /\ kept (fun l' => l' <> l) all s g s' g' /\ owner g' !! l = o' /\
  locks s' !! l = Some h'.
Proof.
  intros (B & Hx & Hst) El Ev Hls Hv Ho Ho' s' g'.
  destruct (lock_step s g s' (partial_alter (fun _ => o') l (owner g)) l) as [G M]; try done; cbn.
  - apply dom_insert_lookup_L. eauto.
  - apply dom_insert_lookup_L. eauto.
  - intros l' Hne. by rewrite lookup_partial_alter_ne, lookup_insert_ne.
  - by rewrite lookup_partial_alter_eq.
  - split_and!; try done; [|by rewrite lookup_partial_alter_eq|by rewrite lookup_insert_eq].
    split_and!; try done. split_and!; try done.
    exact (kbase_lock _ s g l h v v' h' o' B El Ev Hls Hv Ho').
Qed.

(** The new owner records itself as the holder. *)
Lemma wp_record_holder s g l :
  kinv fn_ok s g -> owner g !! l = Some (cur s) -> locks s !! l = Some NULL ->
  wp (t ← thread_current; set_holder l t)
    (fun _ s' => exists g', guar s g s' g' /\ acquired l s g s' g') s.
Proof.
  intros K Ho El. pose proof K as (B & _). apply wp_bind. eapply wp_thread_current_kinv; [done|].
  eapply wp_set_holder; [done|].
  destruct (kb_lock _ _ _ _ _ B l _ El) as (_ & v & Ev & Hl). rewrite Ho in Hl. destruct Hl as [-> _].
  destruct (lock_update s g l NULL 0 0 (cur s) (Some (cur s))) as (G & Kp & Hog & Elg); try done.
  { cbn. auto. }
  { by right. }
  { by right. }
  rewrite (insert_id (semas s)) in G, Kp, Elg by done. eexists. split; [exact G|]. by split_and!.
Qed.

Lemma acquired_after l s g s1 g1 s2 g2 : kept (fun l' => l' <> l) all s g s1 g1 ->
  acquired l s1 g1 s2 g2 -> acquired l s g s2 g2.
Proof.
  intros Kp (Kp2 & Ho & El). pose proof Kp as (_ & _ & C & _). rewrite C in *.
  split; [by eapply kept_trans|]. done.
Qed.

Lemma wpc_lock_acquire n s g l (Q : unit -> kstate -> ghost -> Prop) :
  kinv fn_ok s g -> is_Some (locks s !! l) -> cur s <> idle_thread s ->
  owner g !! l <> Some (cur s) ->
  (forall s' g', acquired l s g s' g' -> Q tt s' g') ->
  wpc fn_ok n (lock_acquire l) Q s g.
Proof.
  intros K Hl Hid Ho HQ. unfold lock_acquire, prim. cbn [cbind]. apply wpc_prim_kinv; [done|].
  intros s1 g1 K1 C1 I1 M1. pose proof K1 as (B1 & Hx1 & _).
  destruct (mine_lock_dom _ _ _ _ _ _ _ _ M1 Hl) as [h1 Eh1].
  assert (Ho1 : owner g1 !! l <> Some (cur s1)).
  { rewrite C1. intros E. apply Ho. by apply (mine_owner _ _ _ _ _ _ _ M1). }
  destruct (kb_lock _ _ _ _ _ B1 l h1 Eh1) as (Hn & _).
  pose proof (not_holder _ _ _ _ K1 Eh1 Ho1) as Hh.
  apply wp_bind, wp_assertb; [by rewrite (proj2 (Z.eqb_neq _ _))|].
  apply wp_bind. red. cbn [intr_context gets]. rewrite Hx1. apply wp_bind, wp_assertb; [done|].
  apply wp_bind. eapply wp_lock_held; [done..|]. apply wp_assertb; [by rewrite (proj2 (Z.eqb_neq _ _))|].
  exists g1. split; [apply guar_refl|]. apply wpc_bind.
  eapply wpc_lock_down; [done|eauto| |].
  { rewrite C1, (mine_idle _ _ _ _ _ _ _ M1). done. }
  intros s2 g2 Kp2 Ho2 Eh2. pose proof Kp2 as (K2 & _ & C2 & _). apply wpc_prim_kinv; [done|].
  intros s3 g3 K3 C3 I3 M3. rewrite C1 in *. rewrite <- C2 in Ho2.
  eapply wp_mono; [apply (wp_record_holder s3 g3 l); [done|..]|].
  { rewrite C3. by apply (mine_owner _ _ _ _ _ _ _ M3). }
  { by rewrite (mine_locks _ _ _ _ _ _ _ M3). }
  intros [] s4 (g4 & G4 & A4). exists g4. split; [done|]. apply wpc_ret, HQ.
  eapply acquired_after; [|exact A4].
  eapply kept_trans; [eapply (kept_weaken all all _ _ s g s1 g1); [done|done|by split_and!]|].
  eapply kept_trans; [exact Kp2|]. by apply (kept_weaken all all); [done|done|split_and!].
Qed.

(** sema_try_down() on a lock's semaphore. *)
Lemma wp_lock_try_down s g l : kinv fn_ok s g -> is_Some (locks s !! l) ->
  wp (sema_try_down (lock_semaphore l)) (fun b s' => exists g', guar s g s' g' /\
    if b : bool then kept (fun l' => l' <> l) all s g s' g' /\ owner g' !! l = Some (cur s) /\
      locks s' !! l = Some NULL
    else kept all all s g s' g') s.
Proof.
  intros K [h El]. pose proof K as (B & Hx & Hst).
  destruct (kb_lock _ _ _ _ _ B l _ El) as (Hn & v & Ev & Hl).
  destruct (kb_sema _ _ _ _ _ B _ v Ev) as (Hn' & Hr & _). unfold sema_try_down.
  apply wp_bind, wp_assertb; [by rewrite (proj2 (Z.eqb_neq _ _))|].
  apply wp_bind. red. cbn [intr_disable bind intr_get_level gets modify ret].
  apply wp_bind. eapply wp_get_value; [done|]. apply wp_bind.
  unfold lock_state in Hl. destruct (Z.ltb_spec 0 v) as [Hv|Hv].
  - destruct (owner g !! l) eqn:Eo; [lia|]. destruct Hl as [-> ->].
    apply wp_bind. eapply wp_set_value; [done|]. apply wp_ret.
    apply wp_bind, wp_intr_set_level; [done|]. apply wp_ret. change (u32 (1 - 1)) with 0.
    destruct (lock_update s g l NULL 1 0 NULL (Some (cur s))) as (G & Kp & Ho' & El'); try done.
    { cbn. auto. }
    { by left. }
    { by right. }
    rewrite (insert_id (locks s)) in G, Kp by done. eexists. split; [exact G|]. done.
  - apply wp_ret. apply wp_bind, wp_intr_set_level; [done|]. apply wp_ret.
    assert (E : set_intr (intr s) (set_intr INTR_OFF s) = s) by (by destruct s). rewrite E.
    exists g. split; [apply guar_refl|by apply kept_refl].
Qed.

(** What lock_release() achieves. *)
Definition released (l : Z) (s : kstate) (g : ghost) (s' : kstate) (g' : ghost) : Prop :=
  kept (fun l' => l' <> l) all s g s' g' /\ owner g' !! l <> Some (cur s).

Lemma wp_clear_holder s g l :
  kinv fn_ok s g -> owner g !! l = Some (cur s) -> locks s !! l = Some (cur s) ->
  wp (set_holder l NULL) (fun _ s' => exists g', guar s g s' g' /\
    kept (fun l' => l' <> l) all s g s' g' /\ owner g' !! l = Some (cur s) /\
    locks s' !! l = Some NULL) s.
Proof.
  intros K Ho El. pose proof K as (B & _). destruct (kb_lock _ _ _ _ _ B l _ El) as (_ & v & Ev & Hl).
  rewrite Ho in Hl. destruct Hl as [-> _]. eapply wp_set_holder; [done|].
  destruct (lock_update s g l (cur s) 0 0 NULL (Some (cur s))) as (G & Kp & Ho' & El'); try done.
  { cbn. auto. }
  { by right. }
  { by right. }
  rewrite (insert_id (semas s)) in G, Kp, El' by done. eexists. split; [exact G|]. done.
Qed.

Lemma wp_lock_up s g l :
  kinv fn_ok s g -> owner g !! l = Some (cur s) -> locks s !! l = Some NULL ->
  wp (sema_up (lock_semaphore l))
    (fun _ s' => exists g', guar s g s' g' /\ released l s g s' g') s.
Proof.
  intros K Ho El. pose proof K as (B & Hx & th & Et & Hs).
  destruct (kb_lock _ _ _ _ _ B l _ El) as (_ & v & Ev & Hl). rewrite Ho in Hl. destruct Hl as [-> _].
  eapply wp_sema_up; [done..|]. intros s5 g5 B5 Q5 R5 I5 X5 T5. pose proof R5 as (Es5 & El5 & Ec5 & _).
  assert (K5 : kinv fn_ok s5 g5).
  { split_and!; [by rewrite Ec5|congruence|]. exists th. rewrite Ec5, T5 by done. done. }
  destruct (lock_update s5 g5 l NULL 0 1 NULL None) as (G6 & Kp6 & Ho6 & El6); try done.
  { by rewrite El5. }
  { by rewrite Es5. }
  { right. rewrite (quiet_owner _ _ _ _ _ Q5), Ec5. done. }
  { by left. }
  rewrite (insert_id (locks s5)) in G6, Kp6 by (by rewrite El5). rewrite Es5 in G6, Kp6.
  eexists. split; [eapply guar_trans; [by eapply quiet_guar|exact G6]|].
  split; [|rewrite Ho6; done].
  eapply kept_trans; [eapply (kept_weaken all all _ _ s g s5 g5); [done|done|]|exact Kp6].
  split_and!; [done|done|done|by eapply quiet_mine].
Qed.

Lemma wpc_lock_release n s g l (Q : unit -> kstate -> ghost -> Prop) :
  kinv fn_ok s g -> owner g !! l = Some (cur s) -> locks s !! l = Some (cur s) ->
  (forall s' g', released l s g s' g' -> Q tt s' g') ->
  wpc fn_ok n (lock_release l) Q s g.
Proof.
  intros K Ho El HQ. unfold lock_release, prim. cbn [cbind]. apply wpc_prim_kinv; [done|].
  intros s1 g1 K1 C1 I1 M1. pose proof K1 as (B1 & Hx1 & _).
  assert (Ho1 : owner g1 !! l = Some (cur s)) by (by apply (mine_owner _ _ _ _ _ _ _ M1)).
  assert (El1 : locks s1 !! l = Some (cur s)) by (by rewrite (mine_locks _ _ _ _ _ _ _ M1)).
  destruct (kb_lock _ _ _ _ _ B1 l _ El1) as (Hn & _).
  apply wp_bind, wp_assertb; [by rewrite (proj2 (Z.eqb_neq _ _))|].
  apply wp_bind. eapply wp_lock_held; [done..|]. apply wp_assertb; [by rewrite C1, Z.eqb_refl|].
  exists g1. split; [apply guar_refl|]. apply wpc_prim_kinv; [done|].
  intros s2 g2 K2 C2 I2 M2. rewrite C1 in *.
  eapply wp_mono; [apply (wp_clear_holder s2 g2 l); [done|..]|].
  { rewrite C2. by apply (mine_owner _ _ _ _ _ _ _ M2). }
  { rewrite C2. by rewrite (mine_locks _ _ _ _ _ _ _ M2). }
  intros [] s3 (g3 & G3 & Kp3 & Ho3 & El3). exists g3. split; [done|]. pose proof Kp3 as (K3 & _ & C3 & _).
  apply wpc_prim_kinv; [done|]. intros s4 g4 K4 C4 I4 M4. rewrite <- C3 in Ho3.
  eapply wp_mono; [apply (wp_lock_up s4 g4 l); [done|..]|].
  { rewrite C4. by apply (mine_owner _ _ _ _ _ _ _ M4). }
  { by rewrite (mine_locks _ _ _ _ _ _ _ M4). }
  intros [] s5 (g5 & G5 & Kp5 & Ho5). exists g5. split; [done|]. apply wpc_ret, HQ.
  split; [|by rewrite <- C2, <- C3, <- C4].
  eapply kept_trans; [eapply (kept_weaken all all _ _ s g s1 g1); [done|done|by split_and!]|].
  eapply kept_trans; [eapply (kept_weaken all all _ _ s1 g1 s2 g2); [done|done|]|].
  { split_and!; [done|done|congruence|by rewrite C1]. }
  eapply kept_trans; [exact Kp3|]. eapply kept_trans; [|exact Kp5].
  by apply (kept_weaken all all); [done|done|split_and!].
Qed.

(** lock_try_acquire(): the current thread has the lock, or nothing changed. *)
Lemma wpc_lock_try_acquire n s g l (Q : bool -> kstate -> ghost -> Prop) :
  kinv fn_ok s g -> is_Some (locks s !! l) -> owner g !! l <> Some (cur s) ->
  (forall s' g', acquired l s g s' g' -> Q true s' g') ->
  (forall s' g', kept all all s g s' g' -> Q false s' g') ->
  wpc fn_ok n (lock_try_acquire l) Q s g.
Proof.
  intros K Hl Ho HQt HQf. unfold lock_try_acquire, prim. cbn [cbind]. apply wpc_prim_kinv; [done|].
  intros s1 g1 K1 C1 I1 M1. pose proof K1 as (B1 & Hx1 & _).
  destruct (mine_lock_dom _ _ _ _ _ _ _ _ M1 Hl) as [h1 Eh1].
  assert (Ho1 : owner g1 !! l <> Some (cur s1)).
  { rewrite C1. intros E. apply Ho. by apply (mine_owner _ _ _ _ _ _ _ M1). }
  destruct (kb_lock _ _ _ _ _ B1 l h1 Eh1) as (Hn & _).
  pose proof (not_holder _ _ _ _ K1 Eh1 Ho1) as Hh.
  apply wp_bind, wp_assertb; [by rewrite (proj2 (Z.eqb_neq _ _))|].
  apply wp_bind. eapply wp_lock_held; [done..|]. apply wp_assertb; [by rewrite (proj2 (Z.eqb_neq _ _))|].
  exists g1. split; [apply guar_refl|]. apply wpc_prim_kinv; [done|].
  intros s2 g2 K2 C2 I2 M2. rewrite C1 in *.
  assert (Kp2 : kept all all s g s2 g2).
  { eapply kept_trans; [split_and!; [exact K1|done|done|done]|]. split_and!; [done|done|congruence|by rewrite C1]. }
  eapply wp_mono; [apply (wp_lock_try_down s2 g2 l); [done|by eapply mine_lock_dom]|].
  intros [] s3 (g3 & G3 & H3); exists g3; (split; [done|]).
  - destruct H3 as (Kp3 & Ho3 & El3). pose proof Kp3 as (K3 & _ & C3 & _). rewrite <- C3 in Ho3.
    apply wpc_prim_kinv; [done|]. intros s4 g4 K4 C4 I4 M4.
    eapply wp_mono; [apply (wp_record_holder s4 g4 l); [done|..]|].
    { rewrite C4. by apply (mine_owner _ _ _ _ _ _ _ M4). }
    { by rewrite (mine_locks _ _ _ _ _ _ _ M4). }
    intros [] s5 (g5 & G5 & A5). exists g5. split; [done|]. apply wpc_ret, HQt.
    eapply acquired_after; [|exact A5].
    eapply kept_trans; [by eapply (kept_weaken all all _ _ s g s2 g2)|].
    eapply kept_trans; [exact Kp3|]. by apply (kept_weaken all all); [done|done|split_and!].
  - pose proof H3 as (K3 & _ & C3 & _). apply wpc_prim_kinv; [done|]. intros s4 g4 K4 C4 I4 M4.
    apply wp_ret. exists g4. split; [apply guar_refl|]. apply wpc_ret, HQf.
    eapply kept_trans; [exact Kp2|]. eapply kept_trans; [exact H3|]. by split_and!.
Qed.
End synch.
