(* ===== verification/KCreate.v ===== *)
(** * Creating threads keeps the invariant *)

From Stdlib Require Import ZArith Lia.
From stdpp Require Import base numbers gmap list.
From S2P Require Import Prelude DList Bitmap Vaddr Palloc Kernel Thread Synch Boot KInv KLogic KSched KSynch.

Open Scope Z_scope.

Section create.
Context `{Image} `{Program} (fn_ok : Z -> Prop).

Abbreviation all := (fun _ : Z => True).
Abbreviation kept := (kept fn_ok).

(** Once a lock is released again, the locks owned are those owned before. *)
Lemma kept_unlocked FP l s g s' g' :
  kept (fun l' => l' <> l) FP s g s' g' ->
  owner g !! l <> Some (cur s) -> owner g' !! l <> Some (cur s) -> kept all FP s g s' g'.
Proof.
  intros (K & I & C & M) Ho Ho'. split_and!; try done. destruct M. split; try done.
  - intros l' _. destruct (decide (l' = l)) as [->|Hne]; [|by apply mine_owner].
    by split; intros ?.
  - intros l' _ E. apply mine_locks; [|done]. by intros ->.
Qed.

(** ** palloc_get_page() *)

(** A page private to the current thread that is not a thread yet. *)
Definition new_page (s : kstate) (g : ghost) (p : Z) : Prop :=
  private g !! p = Some (cur s) /\ threads s !! p = None.

Lemma alloc_guar s s' g p :
  private g !! p = None -> threads s' = threads s -> rest_eq (set_memory (memory s') s) s' ->
  guar s g s' (set_private (<[p := cur s]> (private g)) g) /\
  forall t, mine t s g s' (set_private (<[p := cur s]> (private g)) g).
Proof.
  intros Hp Et (E1 & E2 & E3 & E4 & E5 & _). cbn in *.
  assert (M : forall t, mine t s g s' (set_private (<[p := cur s]> (private g)) g)).
  { intros t. split; try done; cbn; rewrite ?E1, ?E2, ?Et; try done.
    - intros q _ Hq. rewrite lookup_insert_ne; [done|]. congruence.
    - eauto 10. }
  split; [|done]. split; [done|]. intros t th' Ht Eth Hs Hd. rewrite Et in Eth. eauto.
Qed.

Lemma clobber_id c d s g p : kbase fn_ok c d s g -> kernel_page s p -> threads s !! p = None ->
  clobber p s = s.
Proof.
  intros B (i & Hi & Ep & _) Hn. destruct (pool_page_facts _ _ _ _ _ B i Hi) as (_ & Hal & Hin).
  rewrite <- Ep in *. unfold clobber.
  rewrite delete_id, !map_filter_id; [by destruct s|..| |done]; intros a v Ea; cbn;
    destruct (in_page p a) eqn:E; try done; destruct (kb_pool _ _ _ _ _ B a (Hin a E)) as (Hl & Hs & Hk);
    cbn in *; try congruence.
  destruct (Hl (elem_of_dom_2 _ _ _ Ea)) as (u & [uh Eu] & ->).
  destruct (kb_thread _ _ _ _ _ B u uh Eu) as (_ & Hau & _).
  rewrite in_page_elem in E by done. apply bool_decide_eq_true in E. congruence.
Qed.

Lemma wp_pool_get s g (Q : Z -> kstate -> Prop) :
  kinv fn_ok s g ->
  (forall p s' g', guar s g s' g' -> kept all all s g s' g' ->
     p = NULL \/ new_page s' g' p /\ private g !! p = None -> Q p s') ->
  wp (on_pools (on_pool PAL_ZERO (pool_get 1))) Q s.
Proof.
  intros K HQ. pose proof K as (B & Hx & Hst). pose proof (kb_pools _ _ _ _ _ B) as (Hk & _).
  apply wp_zoom. change (on_pool PAL_ZERO (pool_get 1)) with (on_kernel (pool_get 1)).
  apply wp_zoom.
  destruct (pool_get_ok _ 1 Hk ltac:(lia)) as [(i & kp' & E & Hi & Hb & Hu & Hupd) | [E _]];
    apply (wp_eq _ _ _ _ _ E).
  - destruct (free_page_fresh _ _ _ _ _ B i ltac:(lia) (Hu i ltac:(lia))) as [Hnt Hnp].
    set (s' := set_memory (mk_pools kp' (user_pool (memory s))) s).
    destruct (alloc_guar s s' g _ Hnp) as [G M]; try done.
    set (g' := set_private _ g) in *. apply (HQ _ s' g'); [exact G| |].
    + split_and!; [|done|done|apply M]. split_and!; [|done|done].
      apply (kbase_alloc fn_ok _ _ s g B s' kp' i (cur s)); try done; [lia|]. apply Hu. lia.
    + right. split; [|done]. split; [|done]. cbn. by rewrite lookup_insert_eq.
  - destruct (memory s) as [kp up] eqn:Em.
    assert (Es : set_memory (mk_pools kp up) s = s) by (rewrite <- Em; by destruct s).
    cbn [kernel_pool user_pool]. rewrite Es.
    apply (HQ NULL s g); [apply guar_refl|by apply kept_refl|by left].
Qed.

Lemma zero_page_ok p s : zero_pages p 1 s = Ok (tt, clobber p s).
Proof.
  unfold zero_pages. change (Z.to_nat 1) with 1%nat. cbn [for_from].
  unfold bind, modify, ret. by replace (p + PGSIZE * 0) with p by lia.
Qed.

Lemma new_page_kept FL s g s' g' p :
  new_page s g p -> kept FL all s g s' g' -> new_page s' g' p.
Proof.
  intros [Hp Hn] (_ & _ & C & M). unfold new_page. rewrite C.
  destruct (mine_pages _ _ _ _ _ _ _ M p I Hp) as [-> ->]. done.
Qed.

Lemma kept_idle FL FP s g s' g' : kept FL FP s g s' g' -> cur s <> idle_thread s ->
  cur s' <> idle_thread s'.
Proof. intros (_ & _ & -> & M). by rewrite (mine_idle _ _ _ _ _ _ _ M). Qed.

Lemma kept_kinv FL FP s g s' g' : kept FL FP s g s' g' -> kinv fn_ok s' g'.
Proof. by intros (? & _). Qed.

Lemma kept_lock_dom FL FP s g s' g' l :
  kept FL FP s g s' g' -> is_Some (locks s !! l) -> is_Some (locks s' !! l).
Proof. intros (_ & _ & _ & M). by apply (mine_lock_dom _ _ _ _ _ _ _ _ M). Qed.

Lemma kept_cur FL FP s g s' g' : kept FL FP s g s' g' -> cur s' = cur s.
Proof. by intros (_ & _ & ? & _). Qed.

Lemma wpc_palloc_get_page n s g (Q : Z -> kstate -> ghost -> Prop) :
  kinv fn_ok s g -> cur s <> idle_thread s -> owner g !! kernel_pool_lock <> Some (cur s) ->
  (forall p s' g', kept all all s g s' g' ->
     p = NULL \/ new_page s' g' p /\ private g !! p <> Some (cur s) -> Q p s' g') ->
  wpc fn_ok n (palloc_get_page PAL_ZERO) Q s g.
Proof.
  intros K Hid Ho HQ. pose proof K as (B & _).
  unfold palloc_get_page, palloc_get_multiple. cbn [Z.eqb].
  change (pool_lock PAL_ZERO) with kernel_pool_lock. apply wpc_bind.
  eapply wpc_lock_acquire; [done|by destruct (kb_static _ _ _ _ _ B) as (_ & ? & _)|done|done|].
  intros s1 g1 (Kp1 & Ho1 & El1). apply wpc_bind. unfold prim. apply wpc_prim_kinv; [apply Kp1|].
  intros s2 g2 K2 C2 I2 M2. eapply wp_pool_get; [done|]. intros p s3 g3 G3 Kp3 Hp.
  exists g3. split; [done|]. apply wpc_ret.
  assert (Kp2 : kept all all s1 g1 s2 g2) by (by split_and!).
  pose proof (kept_trans _ _ _ _ _ _ _ _ _ Kp2 Kp3) as Kp13.
  pose proof (kept_cur _ _ _ _ _ _ Kp1) as C1. pose proof (kept_cur _ _ _ _ _ _ Kp13) as C13.
  assert (Ho3 : owner g3 !! kernel_pool_lock = Some (cur s)).
  { destruct Kp13 as (_ & _ & _ & M). rewrite C1 in M. by apply (mine_owner _ _ _ _ _ _ _ M). }
  assert (El3 : locks s3 !! kernel_pool_lock = Some (cur s)).
  { destruct Kp13 as (_ & _ & _ & M). rewrite C1 in M. by rewrite (mine_locks _ _ _ _ _ _ _ M). }
  apply wpc_bind. eapply wpc_lock_release; [apply Kp13|congruence..|].
  intros s4 g4 [Kp4 Ho4].
  assert (Kp04 : kept all all s g s4 g4).
  { eapply (kept_unlocked _ kernel_pool_lock); [|done|congruence].
    eapply kept_trans; [exact Kp1|]. eapply kept_trans; [|exact Kp4].
    eapply kept_weaken; [..|exact Kp13]; done. }
  apply wpc_bind. apply wpc_prim_kinv; [apply Kp04|].
  intros s5 g5 K5 C5 I5 M5. assert (Kp5 : kept all all s4 g4 s5 g5) by (by split_and!).
  pose proof (kept_trans _ _ _ _ _ _ _ _ _ Kp04 Kp5) as Kp05.
  destruct Hp as [-> | [Hnew Hfr]].
  - apply wp_assertb; [done|]. exists g5. split; [apply guar_refl|].
    apply wpc_ret, wpc_ret, HQ; auto.
  - pose proof (new_page_kept _ _ _ _ _ _ (new_page_kept _ _ _ _ _ _ Hnew Kp4) Kp5) as Hnew5.
    pose proof K5 as (B5 & _). pose proof (kb_private _ _ _ _ _ B5 _ _ (proj1 Hnew5)) as Hkp.
    pose proof Hkp as (i & Hi & Ep & _).
    destruct (pool_page_facts _ _ _ _ _ B5 i Hi) as (Hpos & _). rewrite <- Ep in Hpos.
    rewrite (proj2 (Z.eqb_neq p NULL)) by (unfold NULL; lia). cbn [negb Z.land PAL_ZERO Pos.land Z.eqb].
    apply (wp_eq _ _ _ _ _ (zero_page_ok p s5)). rewrite (clobber_id _ _ _ _ _ B5 Hkp (proj2 Hnew5)).
    exists g5. split; [apply guar_refl|]. apply wpc_ret, wpc_ret, HQ; [done|]. right.
    split; [done|]. intros E. assert (Kp02 : kept (fun l' => l' <> kernel_pool_lock) all s g s2 g2).
    { eapply kept_trans; [exact Kp1|]. eapply kept_weaken; [..|exact Kp2]; done. }
    destruct Kp02 as (_ & _ & _ & M02). destruct (mine_pages _ _ _ _ _ _ _ M02 p I E). congruence.
Qed.

(** ** allocate_tid() *)

Lemma acquired_mine l s g s1 g1 s2 g2 : acquired fn_ok l s g s1 g1 -> kept all all s1 g1 s2 g2 ->
  owner g2 !! l = Some (cur s2) /\ locks s2 !! l = Some (cur s2) /\
  kept (fun l' => l' <> l) all s g s2 g2.
Proof.
  intros (Kp1 & Ho & El) Kp2. pose proof (kept_cur _ _ _ _ _ _ Kp1) as C1.
  pose proof (kept_cur _ _ _ _ _ _ Kp2) as C2. pose proof Kp2 as (_ & _ & _ & M).
  rewrite C2, C1 in *. split_and!.
  - by apply (mine_owner _ _ _ _ _ _ _ M).
  - by rewrite (mine_locks _ _ _ _ _ _ _ M).
  - eapply kept_trans; [exact Kp1|]. eapply kept_weaken; [..|exact Kp2]; done.
Qed.

Lemma wpc_allocate_tid n s g (Q : Z -> kstate -> ghost -> Prop) :
  kinv fn_ok s g -> cur s <> idle_thread s -> owner g !! tid_lock <> Some (cur s) ->
  (forall tid s' g', kept all all s g s' g' -> Q tid s' g') ->
  wpc fn_ok n allocate_tid Q s g.
Proof.
  intros K Hid Ho HQ. pose proof K as (B & _). unfold allocate_tid. apply wpc_bind.
  eapply wpc_lock_acquire; [done|by destruct (kb_static _ _ _ _ _ B) as (? & _)|done|done|]. intros s1 g1 A1.
  apply wpc_bind. unfold prim. apply wpc_prim_kinv; [apply A1|]. intros s2 g2 K2 C2 I2 M2.
  set (s3 := set_next_tid (i32 (next_tid s2 + 1)) s2).
  apply wp_bind. red. cbn [get]. apply wp_bind. red. cbn [put]. apply wp_ret.
  assert (Kp3 : kept all all s2 g2 s3 g2).
  { destruct K2 as (B2 & X2 & T2). split_and!; [|done..|].
    - split_and!; [|done..]. by apply (kbase_ext fn_ok _ _ s2).
    - split; try done. eauto 10. }
  assert (G3 : guar s2 g2 s3 g2).
  { split; [done|]. intros t th Ht Et Hs Hd. split; [|eauto]. split; try done. eauto 10. }
  exists g2. split; [exact G3|]. apply wpc_ret.
  assert (Kp13 : kept all all s1 g1 s3 g2) by (eapply kept_trans; [by split_and!|exact Kp3]).
  destruct (acquired_mine _ _ _ _ _ _ _ A1 Kp13) as (Ho3 & El3 & Kp03).
  apply wpc_bind. eapply wpc_lock_release; [apply Kp13|done..|]. intros s4 g4 [Kp4 Ho4].
  apply wpc_ret, HQ. eapply (kept_unlocked _ tid_lock); [by eapply kept_trans|done|].
  by rewrite <- (kept_cur _ _ _ _ _ _ Kp03).
Qed.

(** ** thread_create() *)

(** The thread in the page at [p] is being set up by the current one. *)
Definition draft (s : kstate) (g : ghost) (p : Z) (th : thread) : Prop :=
  private g !! p = Some (cur s) /\ threads s !! p = Some th /\
  status th = THREAD_BLOCKED /\ magic th = THREAD_MAGIC.

Lemma draft_kept FL s g s' g' p th :
  draft s g p th -> kept FL all s g s' g' -> draft s' g' p th.
Proof.
  intros (Hp & Et & ?) (_ & _ & C & M). unfold draft. rewrite C.
  destruct (mine_pages _ _ _ _ _ _ _ M p I Hp) as [-> ->]. done.
Qed.

Abbreviation but p := (fun q : Z => q <> p).

(** A step that changes the thread being set up only. *)
Lemma draft_step s g s' p th' :
  kinv fn_ok s g -> private g !! p = Some (cur s) ->
  kbase fn_ok (Some (cur s)) None s' g -> rest_eq s s' ->
  threads s' = <[p := th']> (threads s) -> ~ suspended_stack th' ->
  intr s' = intr s -> in_external_intr s' = in_external_intr s ->
  guar s g s' g /\ kept all (but p) s g s' g.
Proof.
  intros K Hp B' R Et Hns Hi Hx. pose proof K as (B & Hxx & th0 & Et0 & Hst0).
  pose proof R as (E1 & E2 & E3 & E4 & E5 & E6).
  assert (Hcp : cur s <> p) by (intros E; destruct (kb_cur _ _ _ _ _ B); congruence).
  assert (Hne : forall q, q <> p -> threads s' !! q = threads s !! q).
  { intros q Hq. by rewrite Et, lookup_insert_ne. }
  split.
  - split; [done|]. intros t tht Ht Ett Hs Hd.
    assert (Htp : t <> p) by (intros ->; rewrite Et, lookup_insert_eq in Ett; congruence).
    rewrite Hne in Ett by done. split; [|eauto]. split; try done; rewrite ?E1, ?E2; try done.
    + intros q _ Hq. split; [done|]. apply Hne. congruence.
    + intros th Eth. rewrite Hne by done. eauto 10.
  - split_and!; try done.
    + split_and!; [by rewrite E3|congruence|]. exists th0. rewrite E3, Hne by done. done.
    + split; try done; rewrite ?E1, ?E2; try done.
      * intros q Hq Hqp. split; [done|]. by apply Hne.
      * intros th Eth. rewrite Hne by done. eauto 10.
Qed.

Lemma kept_step s g s' g' p : kept all all s g s' g' -> kept all (but p) s g s' g'.
Proof. by apply kept_weaken. Qed.

Lemma draft_page s g p th : kinv fn_ok s g -> draft s g p th -> 0 < p /\ p + 4096 <= 2 ^ 32.
Proof.
  intros (B & _) (Hp & _). destruct (kb_private _ _ _ _ _ B _ _ Hp) as (i & Hi & -> & _).
  apply page_range; [apply B|done].
Qed.

(** The new thread's structure. *)
Definition new_thread (p : Z) (nm : list Z) (prio : Z) : thread :=
  mk_thread 0 THREAD_BLOCKED (take 15 nm) (u32 (p + PGSIZE)) prio 0 THREAD_MAGIC ∅.

Lemma wp_init_thread s g p nm prio (Q : unit -> kstate -> Prop) :
  kinv fn_ok s g -> new_page s g p -> PRI_MIN <= prio <= PRI_MAX ->
  (forall s', guar s g s' g -> kept all (but p) s g s' g -> draft s' g p (new_thread p nm prio) ->
     Q tt s') ->
  wp (init_thread p nm prio) Q s.
Proof.
  intros K [Hp Hn] Hpr HQ. pose proof K as (B & _).
  destruct (kb_private _ _ _ _ _ B _ _ Hp) as (i & Hi & Ep & _).
  destruct (pool_page_facts _ _ _ _ _ B i Hi) as (Hpos & _). rewrite <- Ep in Hpos.
  unfold init_thread. apply wp_bind, wp_assertb; [by rewrite (proj2 (Z.eqb_neq p NULL)) by (unfold NULL; lia)|].
  apply wp_bind, wp_assertb; [by rewrite !(proj2 (Z.leb_le _ _)) by lia|].
  apply wp_bind. red. cbn [get]. rewrite Hn. cbn [fmap option_fmap option_map default from_option].
  fold (new_thread p nm prio). apply wp_bind. red. cbn [put_thread modify]. red. cbn [modify].
  set (s' := set_lmem _ _).
  destruct (draft_step s g s' p (new_thread p nm prio) K Hp) as [G Kp]; try done.
  - eapply (kbase_new fn_ok _ _ s g B s' p (cur s) (new_thread p nm prio)); try done. eauto.
  - apply HQ; [exact G|exact Kp|]. split_and!; try done. cbn. by rewrite lookup_insert_eq.
Qed.

(** The frames that thread_create() pushes. *)
Definition pushed (f aux : Z) (th : thread) : thread :=
  let kf := u32 (stack th - 12) in
  let ef := u32 (kf - 4) in
  let sf := u32 (ef - 28) in
  with_stack sf
    (<[sf := switch_threads_frame switch_entry]>
    (<[ef := switch_entry_frame kernel_thread_entry]>
    (<[kf := kernel_thread_frame NULL f aux]> (frames th)))) th.

Lemma wp_alloc_frame p th size (Q : Z -> kstate -> Prop) s :
  threads s !! p = Some th -> 0 < p -> magic th = THREAD_MAGIC -> size mod 4 = 0 ->
  Q (u32 (stack th - size))
    (set_threads (<[p := with_stack (u32 (stack th - size)) (frames th) th]> (threads s)) s) ->
  wp (alloc_frame p size) Q s.
Proof.
  intros E Hp Hm Hs HQ. unfold alloc_frame. apply wp_bind. eapply wp_is_thread; [done..|].
  apply wp_bind, wp_assertb; [done|]. apply wp_bind, wp_assertb; [by rewrite Hs|].
  apply wp_bind. eapply wp_get_thread; [done..|]. apply wp_bind. red. cbn [put_thread modify].
  by apply wp_ret.
Qed.

(** Successive changes to one thread. *)
Lemma wp_update_again p th f (Q : unit -> kstate -> Prop) T s : 0 < p ->
  Q tt (set_threads (<[p := f th]> T) s) -> wp (update_thread p f) Q (set_threads (<[p := th]> T) s).
Proof.
  intros Hp HQ. eapply wp_update_thread; [cbn; apply lookup_insert_eq|done|].
  cbn [threads set_threads]. rewrite insert_insert_eq. exact HQ.
Qed.

Lemma wp_alloc_again p th size (Q : Z -> kstate -> Prop) T s :
  0 < p -> magic th = THREAD_MAGIC -> size mod 4 = 0 ->
  Q (u32 (stack th - size))
    (set_threads (<[p := with_stack (u32 (stack th - size)) (frames th) th]> T) s) ->
  wp (alloc_frame p size) Q (set_threads (<[p := th]> T) s).
Proof.
  intros Hp Hm Hs HQ. eapply wp_alloc_frame; [cbn; apply lookup_insert_eq|done..|].
  cbn [threads set_threads]. rewrite insert_insert_eq. exact HQ.
Qed.

Lemma wp_push_frames p th f aux (Q : unit -> kstate -> Prop) s :
  threads s !! p = Some th -> 0 < p -> magic th = THREAD_MAGIC ->
  Q tt (set_threads (<[p := pushed f aux th]> (threads s)) s) ->
  wp (push_frames p f aux) Q s.
Proof.
  intros E Hp Hm HQ. unfold push_frames.
  apply wp_bind. eapply wp_alloc_frame; [done..|].
  apply wp_bind, wp_update_again; [done|].
  apply wp_bind, wp_alloc_again; [done..|].
  apply wp_bind, wp_update_again; [done|].
  apply wp_bind, wp_alloc_again; [done..|].
  by apply wp_update_again.
Qed.

Lemma pushed_fresh f aux th p : 0 < p -> p + 4096 <= 2 ^ 32 -> stack th = u32 (p + PGSIZE) ->
  f <> NULL -> f <> idle_function -> fn_ok f -> fresh_stack fn_ok (pushed f aux th).
Proof.
  intros Hp1 Hp2 Hs Hf1 Hf2 Hf3. exists NULL, f, aux. unfold pushed. cbn. rewrite Hs.
  change PGSIZE with 4096.
  assert (E : u32 (u32 (u32 (u32 (p + 4096) - 12) - 4) - 28) = p + 4096 - 44 /\
    u32 (u32 (u32 (p + 4096) - 12) - 4) = p + 4096 - 16 /\ u32 (u32 (p + 4096) - 12) = p + 4096 - 12).
  { unfold uwrap. destruct (decide (p + 4096 = 2 ^ 32)) as [Ew|Hne].
    - rewrite Ew. replace p with (2 ^ 32 - 4096) by lia. by vm_compute.
    - rewrite (Z.mod_small (p + 4096)) by lia. rewrite (Z.mod_small (p + 4096 - 12)) by lia.
      rewrite (Z.mod_small (p + 4096 - 12 - 4)) by lia.
      rewrite (Z.mod_small (p + 4096 - 12 - 4 - 28)) by lia. lia. }
  destruct E as (-> & -> & ->). split_and!; try done.
  - by rewrite lookup_insert_eq.
  - replace (p + 4096 - 44 + 28) with (p + 4096 - 16) by lia.
    rewrite lookup_insert_ne, lookup_insert_eq by lia. done.
  - replace (p + 4096 - 44 + 32) with (p + 4096 - 12) by lia.
    rewrite !lookup_insert_ne, lookup_insert_eq by lia. done.
Qed.

Lemma draft_update s g p th th' :
  kinv fn_ok s g -> draft s g p th -> ~ suspended_stack th -> ~ suspended_stack th' ->
  status th' = THREAD_BLOCKED -> magic th' = THREAD_MAGIC ->
  let s' := set_threads (<[p := th']> (threads s)) s in
  guar s g s' g /\ kept all (but p) s g s' g /\ draft s' g p th'.
Proof.
  intros K (Hp & Et & _) Hn Hn' Hs Hm s'. pose proof K as (B & _).
  destruct (draft_step s g s' p th' K Hp) as [G Kp]; try done.
  - by eapply (kbase_private fn_ok _ _ s g B s' p (cur s) th th').
  - split; [exact G|]. split; [exact Kp|]. split_and!; [done| |done|done].
    unfold s'. cbn. by rewrite lookup_insert_eq.
Qed.

(** The new thread is handed to the scheduler. *)
Lemma wp_publish s g p th (Q : unit -> kstate -> Prop) :
  kinv fn_ok s g -> draft s g p th -> fresh_stack fn_ok th ->
  (forall s' g', guar s g s' g' -> kept all (but p) s g s' g' -> Q tt s') ->
  wp (thread_unblock p) Q s.
Proof.
  intros K D Hf HQ. pose proof K as (B & Hx & th0 & Et0 & Hst0). pose proof D as (Hp & Et & Hst & Hm).
  destruct (draft_page _ _ _ _ K D) as [Hpos _]. destruct (kb_ready _ _ _ _ _ B) as [rl Erl].
  destruct (thread_facts _ _ _ _ _ _ _ B Et) as (_ & _ & Hd).
  pose proof (thread_unlinked fn_ok _ _ s g p B ltac:(eauto) ltac:(eauto)) as Hun.
  assert (Hcp : cur s <> p) by (intros E; destruct (kb_cur _ _ _ _ _ B); congruence).
  eapply (wp_thread_unblock p th rl (lists g)); try done; [apply B|].
  intros h Hh Hdh. set (s' := set_threads _ _).
  set (g' := mk_ghost (<[ready_list := rl ++ [elem_of_thread p]]> (lists g)) (owner g) (delete p (private g))).
  assert (Hne : forall q, q <> p -> threads s' !! q = threads s !! q).
  { intros q Hq. unfold s'. cbn. by rewrite lookup_insert_ne. }
  assert (Hidle : p <> idle_thread s).
  { intros ->. destruct (kb_idle _ _ _ _ _ B). congruence. }
  assert (Hns : ~ suspended_stack (with_status THREAD_READY th)).
  { destruct Hf as (e & f & aux & E1 & _). unfold suspended_stack. cbn. congruence. }
  assert (B' : kbase fn_ok (Some (cur s)) None s' g').
  { eapply (kbase_move fn_ok (Some (cur s)) None (Some (cur s)) None s s' g g' p th
      (with_status THREAD_READY th)); try done; unfold g'; cbn [lists owner private]; auto.
    - intros q Hq. by rewrite lookup_delete_ne.
    - right. by rewrite lookup_delete_eq.
    - intros l. rewrite lookup_insert_is_Some'. split; [|by auto]. intros [<- | ?]; eauto.
    - intros l xs' e. rewrite lookup_insert_Some. intros [[<- <-] | [Hnl El]] He.
      + apply elem_of_app in He as [He | ->%list_elem_of_singleton].
        * right. exists rl. split_and!; [done..|]. intros ->. by apply (Hun _ _ Erl), elem_nodes.
        * left. rewrite lookup_delete_eq. split_and!; try done; [by rewrite list_status_ready|congruence].
      + right. exists xs'. split_and!; [done..|]. intros ->. by apply (Hun _ _ El), elem_nodes.
    - intros l xs e El He _. destruct (decide (l = ready_list)) as [->|Hnl].
      + rewrite lookup_insert_eq. eexists. split; [done|]. rewrite Erl in El. injection El as <-.
        apply elem_of_app. auto.
      + rewrite lookup_insert_ne by done. eauto.
    - intros _ _. right. cbn. rewrite lookup_insert_eq. eexists. split; [done|].
      apply elem_of_app. right. left.
    - intros [= E]. done. }
  apply (HQ s' g').
  - split; [done|]. intros t tht Ht Ett Hs Hdt.
    assert (Htp : t <> p).
    { intros ->. unfold s' in Ett. cbn in Ett. rewrite lookup_insert_eq in Ett. congruence. }
    rewrite Hne in Ett by done. split; [|eauto]. split; try done.
    + intros q _ Hq. unfold g'. cbn [private]. rewrite lookup_delete_ne, Hne by congruence. done.
    + intros th1 Et1. rewrite Hne by done. eauto 10.
  - split_and!; try done.
    + split_and!; [exact B'|done|]. exists th0. change (cur s') with (cur s). by rewrite Hne.
    + split; try done.
      * intros q Hq Hqp. unfold g'. cbn [private]. rewrite lookup_delete_ne, Hne by done. done.
      * intros th1 Et1. rewrite Hne by done. eauto 10.
Qed.

(** What a caller of thread_create() needs to ensure. *)
Definition may_create (s : kstate) (g : ghost) : Prop :=
  cur s <> idle_thread s /\ owner g !! kernel_pool_lock <> Some (cur s) /\
  owner g !! tid_lock <> Some (cur s).

Lemma kept_not_owner FP s g s' g' l : kept all FP s g s' g' ->
  owner g !! l <> Some (cur s) -> owner g' !! l <> Some (cur s').
Proof.
  intros (_ & _ & -> & M) Ho E. apply Ho. by apply (mine_owner _ _ _ _ _ _ _ M).
Qed.

Lemma stack_not_suspended th : frames th !! stack th <> Some (switch_threads_frame in_schedule) ->
  ~ suspended_stack th.
Proof. done. Qed.

Lemma wpc_prim_kept n (A X : Set) (m : M kstate X) (k : X -> comp A) Q s g :
  kinv fn_ok s g ->
  (forall s1 g1, kept all all s g s1 g1 ->
     wp m (fun x s' => exists g', guar s1 g1 s' g' /\ wpc fn_ok n (k x) Q s' g') s1) ->
  wpc fn_ok n (Prim m k) Q s g.
Proof. intros K W. apply wpc_prim_kinv; [done|]. intros s1 g1 K1 C1 I1 M1. apply W. by split_and!. Qed.

(** The part of thread_create() after the page is allocated. *)
Lemma wpc_create_rest n s g p nm prio f aux (Q : Z -> kstate -> ghost -> Prop) :
  kinv fn_ok s g -> new_page s g p -> may_create s g -> PRI_MIN <= prio <= PRI_MAX ->
  f <> NULL -> f <> idle_function -> fn_ok f ->
  (forall tid s' g', kept all (but p) s g s' g' -> Q tid s' g') ->
  wpc fn_ok n (prim (init_thread p nm prio) ⨾
    tid ⇐ allocate_tid;
    prim (update_thread p (with_tid tid)) ⨾
    prim (push_frames p f aux) ⨾
    prim (thread_unblock p) ⨾
    Ret tid) Q s g.
Proof.
  intros K Hn (Hid & Ho1 & Ho2) Hpr Hf1 Hf2 Hf3 HQ. unfold prim. cbn [cbind].
  apply wpc_prim_kept; [done|]. intros s1 g1 Kp1.
  eapply wp_init_thread; [apply Kp1|by eapply new_page_kept|done|]. intros s2 G2 Kp2 D2.
  exists g1. split; [done|]. pose proof (kept_trans _ _ _ _ _ _ _ _ _ (kept_step _ _ _ _ p Kp1) Kp2) as Kp02.
  apply wpc_bind. eapply wpc_allocate_tid; [apply Kp2|by eapply kept_idle|by eapply kept_not_owner|].
  intros tid s3 g3 Kp3. pose proof (draft_kept _ _ _ _ _ _ _ D2 Kp3) as D3.
  apply wpc_prim_kept; [apply Kp3|]. intros s4 g4 Kp4. pose proof (draft_kept _ _ _ _ _ _ _ D3 Kp4) as D4.
  destruct (draft_page _ _ _ _ (kept_kinv _ _ _ _ _ _ Kp4) D4) as [Hpos Hfit].
  eapply wp_update_thread; [apply D4|done|].
  destruct (draft_update s4 g4 p _ (with_tid tid (new_thread p nm prio)) (kept_kinv _ _ _ _ _ _ Kp4) D4)
    as (G5 & Kp5 & D5); try done.
  exists g4. split; [done|]. set (s5 := set_threads _ s4) in *.
  apply wpc_prim_kept; [apply Kp5|]. intros s6 g6 Kp6. pose proof (draft_kept _ _ _ _ _ _ _ D5 Kp6) as D6.
  eapply wp_push_frames; [apply D6|done|done|].
  assert (Hfr : fresh_stack fn_ok (pushed f aux (with_tid tid (new_thread p nm prio)))) by (by eapply pushed_fresh).
  assert (Hns : ~ suspended_stack (pushed f aux (with_tid tid (new_thread p nm prio)))).
  { destruct Hfr as (? & ? & ? & E & _). unfold suspended_stack. congruence. }
  destruct (draft_update s6 g6 p _ (pushed f aux (with_tid tid (new_thread p nm prio)))
    (kept_kinv _ _ _ _ _ _ Kp6) D6) as (G7 & Kp7 & D7); try done.
  exists g6. split; [done|]. set (s7 := set_threads _ s6) in *.
  apply wpc_prim_kept; [apply Kp7|]. intros s8 g8 Kp8. pose proof (draft_kept _ _ _ _ _ _ _ D7 Kp8) as D8.
  eapply wp_publish; [apply Kp8|done|done|]. intros s9 g9 G9 Kp9. exists g9. split; [done|].
  apply wpc_ret, HQ. eapply kept_trans; [exact Kp02|].
  do 2 (eapply kept_trans; [eapply kept_step; eassumption|]).
  eapply kept_trans; [exact Kp5|]. eapply kept_trans; [eapply kept_step; exact Kp6|].
  eapply kept_trans; [exact Kp7|]. eapply kept_trans; [eapply kept_step; exact Kp8|exact Kp9].
Qed.

Lemma wpc_thread_create n s g nm prio f aux (Q : Z -> kstate -> ghost -> Prop) :
  kinv fn_ok s g -> may_create s g -> PRI_MIN <= prio <= PRI_MAX ->
  f <> NULL -> f <> idle_function -> fn_ok f ->
  (forall tid s' g', kept all all s g s' g' -> Q tid s' g') ->
  wpc fn_ok n (thread_create nm prio f aux) Q s g.
Proof.
  intros K Hm Hpr Hf1 Hf2 Hf3 HQ. unfold thread_create, prim at 1. cbn [cbind].
  apply wpc_prim_kept; [done|]. intros s1 g1 Kp1.
  apply wp_assertb; [by rewrite (proj2 (Z.eqb_neq _ _))|]. exists g1. split; [apply guar_refl|].
  assert (Hm1 : may_create s1 g1).
  { destruct Hm as (? & ? & ?). split_and!; eauto using kept_idle, kept_not_owner. }
  apply wpc_bind. eapply wpc_palloc_get_page; [apply Kp1|apply Hm1|apply Hm1|].
  intros p s2 g2 Kp2 [-> | [Hn Hfr]].
  - cbn [Z.eqb NULL]. apply wpc_ret, HQ. by eapply kept_trans.
  - pose proof (kept_kinv _ _ _ _ _ _ Kp2) as K2. pose proof K2 as (B2 & _).
    destruct (kb_private _ _ _ _ _ B2 _ _ (proj1 Hn)) as (i & Hi & Ep & _).
    destruct (pool_page_facts _ _ _ _ _ B2 i Hi) as (Hpos & _). rewrite <- Ep in Hpos.
    rewrite (proj2 (Z.eqb_neq p NULL)) by (unfold NULL; lia).
    eapply wpc_create_rest; [done|done| |done..|].
    { destruct Hm1 as (? & ? & ?). split_and!; eauto using kept_idle, kept_not_owner. }
    intros tid s3 g3 Kp3. apply HQ. eapply kept_trans; [exact Kp1|].
    pose proof (kept_trans _ _ _ _ _ _ _ _ _ (kept_step _ _ _ _ p Kp2) Kp3) as (K3 & I3 & C3 & M3).
    split_and!; try done. destruct M3. split; try done.
    intros q _ Hq. apply mine_pages; [|done]. by intros ->.
Qed.
End create.
