(* ===== verification/KTimer.v ===== *)
(** * The timer interrupt

    What the two loops of timer_interrupt() do to the sleeping threads, and
    that they keep the invariant. *)

From Stdlib Require Import ZArith Lia.
From stdpp Require Import base numbers gmap list.
From S2P Require Import Prelude DList Bitmap Vaddr Palloc Kernel Thread Synch Boot KInv KLogic KSched KSynch.

Open Scope Z_scope.

(** ** The loops as functions *)

(** One round of the first loop. *)
Definition delay_one (ths : gmap Z thread) (before t : Z) : gmap Z thread :=
  match ths !! before, ths !! t with
  | Some bth, Some th =>
      if priority th <? priority bth
      then <[t := with_block_end_tick (i64 (block_end_tick bth + 10)) th]> ths
      else ths
  | _, _ => ths
  end.

(** The first loop: [before] is the thread before the elements [es]. *)
Fixpoint delayed (ths : gmap Z thread) (before : Z) (es : list Z) : gmap Z thread :=
  match es with
  | [] => ths
  | e :: es => delayed (delay_one ths before (thread_of_elem e)) (thread_of_elem e) es
  end.

(** The thread of element [e] is due at time [now]. *)
Definition due (ths : gmap Z thread) (now e : Z) : bool :=
  match ths !! thread_of_elem e with
  | Some th => block_end_tick th <=? now
  | None => false
  end.

(** Threads that differ in their wake-up time at most. *)
Definition same_but_tick (th th' : thread) : Prop :=
  exists v, th' = with_block_end_tick v th.

Lemma same_but_tick_refl th : same_but_tick th th.
Proof. exists (block_end_tick th). by destruct th. Qed.

Lemma same_but_tick_trans th1 th2 th3 :
  same_but_tick th1 th2 -> same_but_tick th2 th3 -> same_but_tick th1 th3.
Proof. intros [v ->] [w ->]. by exists w. Qed.

Definition ticks_only (ths ths' : gmap Z thread) : Prop :=
  forall u, option_Forall2 same_but_tick (ths !! u) (ths' !! u).

Lemma ticks_only_refl ths : ticks_only ths ths.
Proof. intros u. destruct (ths !! u); constructor. apply same_but_tick_refl. Qed.

Lemma ticks_only_trans a b c : ticks_only a b -> ticks_only b c -> ticks_only a c.
Proof.
  intros A B u. specialize (A u). specialize (B u). destruct A as [? ? S|].
  - inversion B; subst. constructor. by eapply same_but_tick_trans.
  - inversion B; subst. constructor.
Qed.

Lemma ticks_only_delay ths before t : ticks_only ths (delay_one ths before t).
Proof.
  unfold delay_one. destruct (ths !! before) as [bth|]; [|apply ticks_only_refl].
  destruct (ths !! t) as [th|] eqn:Et; [|apply ticks_only_refl].
  destruct (priority th <? priority bth); [|apply ticks_only_refl].
  intros u. destruct (decide (u = t)) as [->|Hne].
  - rewrite lookup_insert_eq, Et. constructor. by eexists.
  - rewrite lookup_insert_ne by done. apply ticks_only_refl.
Qed.

Lemma ticks_only_delayed es : forall ths before, ticks_only ths (delayed ths before es).
Proof.
  induction es as [|e es IH]; intros ths before; cbn; [apply ticks_only_refl|].
  eapply ticks_only_trans; [apply ticks_only_delay|apply IH].
Qed.

(** Only the threads of the list are touched. *)
Lemma delayed_other es u : forall ths before,
  (forall e, e ∈ es -> u <> thread_of_elem e) -> delayed ths before es !! u = ths !! u.
Proof.
  induction es as [|e es IH]; intros ths before Hu; cbn; [done|].
  rewrite IH by (intros; apply Hu; by right). unfold delay_one.
  destruct (ths !! before); [|done]. destruct (ths !! thread_of_elem e); [|done].
  destruct (_ <? _); [|done]. apply lookup_insert_ne. intros E. eapply (Hu e); [left|done].
Qed.

Section timer.
Context `{Image} `{Program} (fn_ok : Z -> Prop).

Abbreviation all := (fun _ : Z => True).

Lemma ticks_lookup ths ths' u th : ticks_only ths ths' -> ths !! u = Some th ->
  exists th', ths' !! u = Some th' /\ same_but_tick th th'.
Proof. intros T E. specialize (T u). rewrite E in T. inversion T; subst. eauto. Qed.

Lemma ticks_lookup' ths ths' u th' : ticks_only ths ths' -> ths' !! u = Some th' ->
  exists th, ths !! u = Some th /\ same_but_tick th th'.
Proof. intros T E. specialize (T u). rewrite E in T. inversion T; subst. eauto. Qed.

Lemma ticks_is_Some ths ths' u : ticks_only ths ths' -> (is_Some (ths' !! u) <-> is_Some (ths !! u)).
Proof.
  intros T. split; intros [th E].
  - destruct (ticks_lookup' _ _ _ _ T E) as (? & ? & _). eauto.
  - destruct (ticks_lookup _ _ _ _ T E) as (? & ? & _). eauto.
Qed.

(** The invariant does not depend on the wake-up times. *)
Lemma kbase_ticks c d s s' g : kbase fn_ok c d s g -> rest_eq s s' -> lmem s' = lmem s ->
  ticks_only (threads s) (threads s') -> kbase fn_ok c d s' g.
Proof.
  intros [Klists Kready Kblock Ksema Kelems Kthread Kheads Kstatus Kstack Kcur Krunning
    Kdying Kidle Klock Kowner Kstatic Kpools Kpage Kprivate Kpool Kinitial]
    (E1 & E2 & E3 & E4 & E5 & E6) E7 T.
  split; unfold placed, kernel_page, in_pool, static, plain in *;
    rewrite ?E1, ?E2, ?E3, ?E4, ?E5, ?E6, ?E7, ?(ticks_is_Some _ _ _ T); try done.
  - intros l xs e El He. destruct (Kelems l xs e El He) as (u & uh & ? & Eu & Hr).
    destruct (ticks_lookup _ _ _ _ T Eu) as (uh' & Eu' & v & ->). eauto 10.
  - intros u uh' Eu'. destruct (ticks_lookup' _ _ _ _ T Eu') as (uh & Eu & v & ->). by apply Kthread in Eu.
  - intros l xs u El. rewrite (ticks_is_Some _ _ _ T). eauto.
  - intros u uh' Eu'. destruct (ticks_lookup' _ _ _ _ T Eu') as (uh & Eu & v & ->). exact (Kstatus u uh Eu).
  - intros u uh' Eu'. destruct (ticks_lookup' _ _ _ _ T Eu') as (uh & Eu & v & ->). exact (Kstack u uh Eu).
  - intros u Hu. destruct (Krunning u Hu) as (? & uh & Eu & ?).
    destruct (ticks_lookup _ _ _ _ T Eu) as (uh' & Eu' & v & ->). eauto.
  - intros u Hu. destruct (Kdying u Hu) as (? & ? & ? & ? & uh & Eu & ?).
    destruct (ticks_lookup _ _ _ _ T Eu) as (uh' & Eu' & v & ->). split_and!; eauto.
  - destruct Kidle as (? & ? & uh & Eu & ?).
    destruct (ticks_lookup _ _ _ _ T Eu) as (uh' & Eu' & v & ->). split_and!; eauto.
  - intros l u Eo. destruct (Kowner l u Eo) as (? & uh & Eu & ?).
    destruct (ticks_lookup _ _ _ _ T Eu) as (uh' & Eu' & v & ->). split_and!; eauto.
  - intros u. rewrite (ticks_is_Some _ _ _ T). eauto.
  - intros a Ha. destruct (Kpool a Ha) as (Hl & ? & ?). split_and!; try done.
    intros Hd. destruct (Hl Hd) as (u & Hu & ->). exists u. by rewrite (ticks_is_Some _ _ _ T).
Qed.

Lemma wp_kloop {A B} (I : nat -> A -> kstate -> Prop) (body : A -> M kstate (A + B)) Q n a s :
  (forall n a s, I n a s ->
     wp (body a) (fun r s' =>
       match r with
       | inl a' => exists n', (n' < n)%nat /\ I n' a' s'
       | inr b => Q b s'
       end) s) ->
  I n a s -> (n <= size (lmem s))%nat -> wp (kloop body a) Q s.
Proof.
  intros Hb HI Hn. unfold kloop. apply wp_bind. red. cbn [get].
  eapply wp_iterate; [exact Hb|exact HI|lia].
Qed.

Lemma block_elem c d s g xs e : kbase fn_ok c d s g -> lists g !! block_list = Some xs -> e ∈ xs ->
  exists t th, e = elem_of_thread t /\ thread_of_elem e = t /\ 0 < t /\ threads s !! t = Some th /\
    private g !! t = None.
Proof.
  intros B El He. destruct (kb_elems _ _ _ _ _ B _ _ _ El He) as (t & th & -> & Et & _ & _ & _ & Hp & _).
  destruct (thread_facts _ _ _ _ _ _ _ B Et) as (Hpos & _). exists t, th. by rewrite thread_of_elem_of.
Qed.

(** The first loop computes [delayed]. *)
Lemma wp_delay c d s g x ys (Q : unit -> kstate -> Prop) :
  kbase fn_ok c d s g -> lists g !! block_list = Some (x :: ys) ->
  Q tt (set_threads (delayed (threads s) (thread_of_elem x) ys) s) ->
  wp delay_low_priority Q s.
Proof.
  intros B El HQ. pose proof (lists_dll _ _ (kb_lists _ _ _ _ _ B) _ _ El) as Hdl.
  pose proof (dll_fuel _ _ _ Hdl) as Hfuel. cbn [length] in Hfuel.
  unfold delay_low_priority. apply wp_bind, wp_on_lists. eapply wp_list_begin; [done|].
  apply wp_bind, wp_on_lists. cbn [first lmem set_lmem].
  destruct (dll_elem _ _ [] x ys Hdl) as (Hxn & _).
  eapply wp_load_next; [done|exact (dll_nx _ _ [] x ys Hdl)|].
  assert (Es : set_lmem (lmem s) (set_lmem (lmem s) s) = s) by (by destruct s).
  cbn [lmem set_lmem]. change (lmem (set_lmem (lmem s) s)) with (lmem s). rewrite Es.
  eapply (wp_kloop (fun n e s' => exists pre b rest ths,
    x :: ys = pre ++ b :: rest /\ e = first block_list rest /\ n = length rest /\
    s' = set_threads ths s /\ ticks_only (threads s) ths /\
    delayed (threads s) (thread_of_elem x) ys = delayed ths (thread_of_elem b) rest)).
  2:{ exists [], x, ys, (threads s). split_and!; try done; try apply ticks_only_refl; by destruct s. }
  2:{ cbn. lia. }
  intros n e s' (pre & b & rest & ths & Exs & -> & -> & -> & T & Ed).
  rewrite Exs, cons_middle, app_assoc in Hdl.
  apply wp_bind, wp_on_lists. eapply wp_list_end; [exact Hdl|]. cbn [lmem set_threads].
  rewrite (first_tail_eqb _ _ _ _ Hdl).
  destruct rest as [|e rest]; [rewrite bool_decide_eq_true_2 by done|rewrite bool_decide_eq_false_2 by done].
  { apply wp_ret. cbn in Ed. rewrite Ed in HQ. exact HQ. }
  cbn [first]. destruct (dll_elem _ _ _ _ _ Hdl) as (Hen & Eh & _ & _).
  apply wp_bind, wp_on_lists. cbn [lmem set_lmem set_threads].
  eapply wp_load_prev; [done|by eapply dll_pv|]. rewrite lst_snoc.
  destruct (block_elem _ _ _ _ _ b B El) as (tb & thb & -> & Etb & Hpb & Eb & _).
  { rewrite Exs. apply elem_of_app. right. left. }
  destruct (block_elem _ _ _ _ _ e B El) as (te & the & -> & Ete & Hpe & Ee & _).
  { rewrite Exs. apply elem_of_app. right. right. left. }
  destruct (ticks_lookup _ _ _ _ T Eb) as (thb' & Eb' & _).
  destruct (ticks_lookup _ _ _ _ T Ee) as (the' & Ee' & _). rewrite !thread_of_elem_of.
  apply wp_bind. eapply wp_get_thread; [exact Eb'|done|].
  apply wp_bind. eapply wp_get_thread; [exact Ee'|done|].
  apply wp_bind. rewrite thread_of_elem_of in Ed.
  assert (Hnext : forall ths', ths' = delay_one ths tb te ->
    wp (e' ← on_lists (load_next (elem_of_thread te)); ret (inl e'))
      (fun r s' => match r with
        | inl a' => exists n', (n' < length (elem_of_thread te :: rest))%nat /\
            exists pre0 b0 rest0 ths0, x :: ys = pre0 ++ b0 :: rest0 /\ a' = first block_list rest0 /\
              n' = length rest0 /\ s' = set_threads ths0 s /\ ticks_only (threads s) ths0 /\
              delayed (threads s) (thread_of_elem x) ys = delayed ths0 (thread_of_elem b0) rest0
        | inr b0 => Q b0 s' end) (set_threads ths' s)).
  { intros ths' ->. apply wp_bind, wp_on_lists. cbn [lmem set_threads].
    eapply wp_load_next; [done|by eapply dll_nx|]. apply wp_ret.
    exists (length rest). split; [cbn; lia|].
    exists (pre ++ [elem_of_thread tb]), (elem_of_thread te), rest, (delay_one ths tb te).
    split_and!; try done; [by rewrite Exs, <- app_assoc| |].
    - eapply ticks_only_trans; [exact T|apply ticks_only_delay].
    - rewrite thread_of_elem_of. rewrite Ed. cbn [delayed]. by rewrite thread_of_elem_of. }
  unfold delay_one in Hnext. rewrite Eb', Ee' in Hnext.
  destruct (priority the' <? priority thb').
  - eapply wp_update_thread; [exact Ee'|done|]. exact (Hnext _ eq_refl).
  - apply wp_ret. exact (Hnext _ eq_refl).
Qed.

(** The part of the state that waking threads leaves alone. *)
Definition same_cpu (s s' : kstate) : Prop :=
  intr s' = intr s /\ in_external_intr s' = in_external_intr s /\ ticks s' = ticks s.

(** Between rounds of the second loop: [ds] are the elements already seen and
    [rest] those still to come. *)
Record waking (c d : option Z) (s : kstate) (g : ghost) (rl ds rest : list Z) (s' : kstate) (g' : ghost) :
  Prop := {
  wk_base : kbase fn_ok c d s' g';
  wk_quiet : quiet all s g s' g';
  wk_rest : rest_eq s s';
  wk_cpu : same_cpu s s';
  wk_block : lists g' !! block_list = Some (filter (fun e => due (threads s) (ticks s) e = false) ds ++ rest);
  wk_ready : lists g' !! ready_list = Some (rl ++ filter (fun e => due (threads s) (ticks s) e = true) ds);
  wk_lists : forall l, l <> block_list -> l <> ready_list -> lists g' !! l = lists g !! l;
  wk_dom : dom (lmem s') = dom (lmem s);
  wk_ticks : forall u, block_end_tick <$> threads s' !! u = block_end_tick <$> threads s !! u;
  wk_cur : forall u, c = Some u -> threads s' !! u = threads s !! u }.

Lemma due_ticks ths ths' now e :
  (forall u, block_end_tick <$> ths' !! u = block_end_tick <$> ths !! u) ->
  due ths' now e = due ths now e.
Proof.
  intros Hu. specialize (Hu (thread_of_elem e)). unfold due.
  destruct (ths' !! thread_of_elem e), (ths !! thread_of_elem e); cbn in Hu; congruence.
Qed.

Lemma filter_snoc {A} (P : A -> Prop) `{!forall x, Decision (P x)} xs x :
  filter P (xs ++ [x]) = filter P xs ++ (if decide (P x) then [x] else []).
Proof. rewrite filter_app. by destruct (decide (P x)); [rewrite filter_cons_True|rewrite filter_cons_False]. Qed.

(** A sleeper that is not due stays. *)
Lemma waking_stay c d s g rl ds e rest s' g' :
  waking c d s g rl ds (e :: rest) s' g' -> due (threads s) (ticks s) e = false ->
  waking c d s g rl (ds ++ [e]) rest s' g'.
Proof.
  intros [] Hd. split; try done; rewrite !filter_snoc, Hd.
  - by rewrite decide_True, <- app_assoc.
  - by rewrite decide_False, app_nil_r.
Qed.

Lemma wp_wake_one c d s g rl ds e rest s' g' (Q : Z -> kstate -> Prop) :
  waking c d s g rl ds (e :: rest) s' g' -> intr s = INTR_OFF -> due (threads s) (ticks s) e = true ->
  (forall s2 g2, waking c d s g rl (ds ++ [e]) rest s2 g2 -> Q (first block_list rest) s2) ->
  wp (e' ← on_lists (list_remove e); thread_unblock (thread_of_elem e);; ret e') Q s'.
Proof.
  intros W Hi Hd HQ. pose proof W as [WB WQ WR (WI & WX & WT) Wb Wr Wl Wd Wt Wc].
  destruct (kb_block _ _ _ _ _ WB) as [_ Hbr].
  assert (Hin : e ∈ filter (fun e => due (threads s) (ticks s) e = false) ds ++ e :: rest).
  { apply elem_of_app. right. left. }
  destruct (block_elem _ _ _ _ _ e WB Wb Hin) as (t & th & -> & _ & Hpos & Et & Hp).
  apply wp_bind, wp_on_lists. eapply wp_lists_remove; [apply WB|exact Wb|].
  intros h Hh Hdh. rewrite thread_of_elem_of. apply wp_bind.
  eapply (wake_ok fn_ok c d s' g' block_list); [done|exact Wb|done|exact Hh|done| |].
  { rewrite WI, Hi. done. }
  intros s2 g2 th2 rl2 Erl2 Et2 B2 Q2 R2 Eg2 (h' & Es2 & Hd2) Hc2. apply wp_ret.
  rewrite Et in Et2. injection Et2 as <-. rewrite Wr in Erl2. injection Erl2 as <-.
  assert (Hne : forall u, u <> t -> threads s2 !! u = threads s' !! u).
  { intros u Hu. rewrite Es2. cbn. by rewrite lookup_insert_ne. }
  apply (HQ s2 g2). split.
  - done.
  - by eapply quiet_trans.
  - destruct WR as (? & ? & ? & ? & ? & ?), R2 as (? & ? & ? & ? & ? & ?). split_and!; congruence.
  - rewrite Es2. by split_and!.
  - rewrite Eg2. cbn. rewrite lookup_insert_ne, lookup_insert_eq by done.
    by rewrite filter_snoc, decide_False, app_nil_r by (by rewrite Hd).
  - rewrite Eg2. cbn. rewrite lookup_insert_eq, filter_snoc, decide_True by done. by rewrite app_assoc.
  - intros l H1 H2. rewrite Eg2. cbn. rewrite !lookup_insert_ne by done. by apply Wl.
  - rewrite Es2. cbn. congruence.
  - intros u. rewrite <- Wt. destruct (decide (u = t)) as [->|Hu]; [|by rewrite Hne].
    rewrite Es2. cbn. by rewrite lookup_insert_eq, Et.
  - intros u Hu. rewrite Hne, Wc by congruence. done.
Qed.

(** The second loop: the sleepers that are due go to the ready list, in order. *)
Lemma wp_wake c d s g xs rl (Q : unit -> kstate -> Prop) :
  kbase fn_ok c d s g -> intr s = INTR_OFF ->
  lists g !! block_list = Some xs -> lists g !! ready_list = Some rl ->
  (forall s' g', waking c d s g rl xs [] s' g' -> Q tt s') -> wp wake_sleepers Q s.
Proof.
  intros B Hi El Er HQ. pose proof (lists_dll _ _ (kb_lists _ _ _ _ _ B) _ _ El) as Hdl.
  pose proof (dll_fuel _ _ _ Hdl) as Hfuel. unfold wake_sleepers.
  apply wp_bind, wp_on_lists. eapply wp_list_begin; [done|].
  assert (Es : set_lmem (lmem s) s = s) by (by destruct s). rewrite Es.
  eapply (wp_kloop (fun n e s' => exists ds rest g', xs = ds ++ rest /\ e = first block_list rest /\
    n = length rest /\ waking c d s g rl ds rest s' g')).
  2:{ exists [], xs, g. split_and!; try done. split; try done; [apply quiet_refl|]. by rewrite app_nil_r. }
  2:{ lia. }
  intros n e s' (ds & rest & g' & -> & -> & -> & W). pose proof W as [WB WQ WR (WI & WX & WT) Wb Wr Wl Wd Wt Wc].
  pose proof (lists_dll _ _ (kb_lists _ _ _ _ _ WB) _ _ Wb) as Hdl'.
  apply wp_bind, wp_on_lists. eapply wp_list_end; [done|].
  assert (Es' : set_lmem (lmem s') s' = s') by (by destruct s'). rewrite Es'.
  rewrite (first_tail_eqb _ _ _ _ Hdl').
  destruct rest as [|e rest]; [rewrite bool_decide_eq_true_2 by done|rewrite bool_decide_eq_false_2 by done].
  { apply wp_ret. rewrite app_nil_r in HQ. by eapply HQ. }
  cbn [first]. destruct (block_elem _ _ _ _ _ e WB Wb) as (t & th & Ee & Ete & Hpos & Et & Hp).
  { apply elem_of_app. right. left. }
  apply wp_bind. eapply wp_get_thread; [by rewrite Ete|lia|]. apply wp_bind. red. cbn [gets].
  assert (Hdue : due (threads s) (ticks s) e = (block_end_tick th <=? ticks s')).
  { rewrite <- (due_ticks _ _ _ _ Wt), <- WT. unfold due. by rewrite Ete, Et. }
  rewrite <- Hdue. destruct (due (threads s) (ticks s) e) eqn:Ed.
  - assert (Hw : wp (e' ← on_lists (list_remove e); thread_unblock (thread_of_elem e);; ret e')
      (fun e' s2 => exists g2, waking c d s g rl (ds ++ [e]) rest s2 g2 /\ e' = first block_list rest) s').
    { eapply wp_wake_one; [done..|]. eauto. }
    apply wp_bind_iff in Hw. apply wp_bind. eapply wp_mono; [exact Hw|]. intros e' s2 Hw'. cbn beta in *.
    apply wp_bind_iff in Hw'. apply wp_bind. eapply wp_mono; [exact Hw'|].
    intros [] s3 (g3 & W3 & ->). apply wp_ret. exists (length rest). split; [cbn; lia|].
    exists (ds ++ [e]), rest, g3. split_and!; try done. by rewrite <- app_assoc.
  - apply wp_bind, wp_on_lists. destruct (dll_elem _ _ _ _ _ Hdl') as (Hen & _).
    eapply wp_load_next; [done|by eapply dll_nx|]. rewrite Es'. apply wp_ret.
    exists (length rest). split; [cbn; lia|]. exists (ds ++ [e]), rest, g'.
    split_and!; try done; [by rewrite <- app_assoc|by apply waking_stay].
Qed.
End timer.
