(* ===== verification/KMain.v ===== *)
(** * Interrupts, new threads and clients: the machine is safe

    The interrupt handler, the idle thread and the code every new thread
    starts with keep the invariant; so do client threads that use the kernel's
    interface as its documentation asks. *)

From Stdlib Require Import ZArith Lia.
From stdpp Require Import base numbers gmap list.
From S2P Require Import Prelude DList Bitmap Vaddr Palloc Kernel Thread Synch Boot KInv KLogic KSched KSynch KCreate KTimer.

Open Scope Z_scope.

Section main.
Context `{Image} `{Program} (fn_ok : Z -> Prop).

Abbreviation all := (fun _ : Z => True).
Abbreviation kept := (kept fn_ok).

(** ** The timer interrupt *)

Lemma quiet_ext s s' g : rest_eq s s' -> threads s' = threads s -> quiet all s g s' g.
Proof.
  intros (E1 & E2 & E3 & E4 & E5 & E6) Et. split; try done; rewrite ?E1, ?Et; try done.
  intros u _. destruct (threads s !! u); by constructor.
Qed.

(** The state inside an external interrupt handler. *)
Record hinv (s : kstate) (g : ghost) : Prop := {
  hi_base : kbase fn_ok (Some (cur s)) None s g;
  hi_off : intr s = INTR_OFF;
  hi_ext : in_external_intr s = true;
  hi_running : exists th, threads s !! cur s = Some th /\ status th = THREAD_RUNNING }.

Lemma hinv_ext s s' g : hinv s g -> rest_eq s s' -> threads s' = threads s -> lmem s' = lmem s ->
  intr s' = intr s -> in_external_intr s' = in_external_intr s -> hinv s' g.
Proof.
  intros [] R Et El Hi Hx. pose proof R as (_ & _ & Ec & _). split; [|congruence..|by rewrite Et, Ec].
  rewrite Ec. by eapply kbase_ext.
Qed.

Lemma wp_thread_tick s g (Q : unit -> kstate -> Prop) :
  hinv s g -> (forall s', hinv s' g -> quiet all s g s' g -> Q tt s') -> wp thread_tick Q s.
Proof.
  intros Hh HQ. pose proof Hh as [B Hi Hx (th & Et & Hst)].
  destruct (thread_facts _ _ _ _ _ _ _ B Et) as (Hpos & Hm & _). unfold thread_tick.
  apply wp_bind. eapply wp_thread_current; [done..|]. apply wp_bind. red. cbn [get].
  apply wp_bind. destruct (cur s =? idle_thread s); red; cbn [put];
    (apply wp_bind; red; cbn [get]; apply wp_bind; red; cbn [put]; apply wp_bind; red; cbn [get];
     destruct (TIME_SLICE <=? _);
     [unfold intr_yield_on_return; apply wp_bind; red; cbn [intr_context gets];
      apply wp_bind, wp_assertb; [done|]; red; cbn [modify]|apply wp_ret]);
    (apply HQ; [by eapply hinv_ext|by apply quiet_ext]).
Qed.

Lemma quiet_ticks s s' g : rest_eq s s' -> ticks_only (threads s) (threads s') ->
  (forall u, is_Some (private g !! u) -> threads s' !! u = threads s !! u) -> quiet all s g s' g.
Proof.
  intros (E1 & E2 & E3 & E4 & E5 & E6) T Hp. split; try done; rewrite ?E1; try done.
  intros u _. destruct (T u) as [? ? [v ->]|]; by constructor.
Qed.

Lemma delayed_quiet c d s g x ys : kbase fn_ok c d s g -> lists g !! block_list = Some (x :: ys) ->
  let s' := set_threads (delayed (threads s) (thread_of_elem x) ys) s in
  kbase fn_ok c d s' g /\ quiet all s g s' g /\ (forall u, c = Some u -> threads s' !! u = threads s !! u).
Proof.
  intros B El s'. assert (T : ticks_only (threads s) (threads s')) by apply ticks_only_delayed.
  assert (Hel : forall e, e ∈ ys -> exists t, e = elem_of_thread t /\ c <> Some t /\ private g !! t = None).
  { intros e He. destruct (kb_elems _ _ _ _ _ B _ _ e El ltac:(by right)) as (t & th & -> & ? & ? & ? & ? & ? & ?).
    eauto. }
  split_and!; [by eapply kbase_ticks| |].
  - apply quiet_ticks; try done. intros u [v Hu]. apply delayed_other. intros e He ->.
    destruct (Hel e He) as (t & -> & _ & Hn). rewrite thread_of_elem_of in Hu. congruence.
  - intros u Hu. apply delayed_other. intros e He ->. destruct (Hel e He) as (t & -> & Hn & _).
    by rewrite thread_of_elem_of in Hu.
Qed.

Lemma wp_timer_interrupt garbage s g (Q : unit -> kstate -> Prop) :
  hinv s g -> (forall s' g', hinv s' g' -> quiet all s g s' g' -> Q tt s') ->
  wp (timer_interrupt garbage) Q s.
Proof.
  intros Hh HQ. unfold timer_interrupt. apply wp_bind. red. cbn [modify].
  set (s1 := set_ticks _ s). assert (H1 : hinv s1 g) by (by eapply hinv_ext).
  assert (Q1 : quiet all s g s1 g) by (by apply quiet_ext).
  apply wp_bind. red. cbn [intr_disable bind intr_get_level gets modify ret].
  set (s2 := set_intr INTR_OFF s1).
  assert (H2 : hinv s2 g) by (eapply hinv_ext; try done; by rewrite (hi_off _ _ H1)).
  assert (Q2 : quiet all s g s2 g) by (eapply quiet_trans; [exact Q1|by apply quiet_ext]).
  pose proof (hi_base _ _ H2) as B2. destruct (kb_block _ _ _ _ _ B2) as [[xs El] Hbr].
  destruct (kb_ready _ _ _ _ _ B2) as [rl Er].
  apply wp_bind, wp_on_lists. eapply wp_lists_empty; [apply B2|done|].
  assert (Es2 : set_lmem (lmem s2) s2 = s2) by done. rewrite Es2.
  assert (Hend : forall s' g', hinv s' g' -> quiet all s g s' g' ->
    wp (intr_set_level (intr s1);; thread_tick) Q s').
  { intros s' g' H' Q'. rewrite (hi_off _ _ H1). apply wp_bind, wp_intr_set_level; [done|].
    eapply (wp_thread_tick _ g'); [eapply hinv_ext; try done; by rewrite (hi_off _ _ H')|].
    intros s3 H3 Q3. eapply HQ; [done|]. eapply quiet_trans; [exact Q'|].
    eapply quiet_trans; [|exact Q3]. by apply quiet_ext. }
  apply wp_bind. destruct (negb (bool_decide (xs = [])) && (garbage =? NULL)) eqn:Eb.
  2:{ apply wp_ret. by eapply Hend. }
  destruct xs as [|x ys]; [done|]. apply wp_bind. eapply wp_delay; [done..|].
  destruct (delayed_quiet _ _ _ _ _ _ B2 El) as (B3 & Q3 & C3). set (s3 := set_threads _ s2) in *.
  eapply (wp_wake fn_ok _ _ s3 g); [exact B3|done|exact El|exact Er|].
  intros s4 g4 [WB WQ (_ & _ & Ec4 & _) (WI & WX & _) _ _ _ _ _ Wc]. eapply (Hend s4 g4).
  - destruct H2 as [_ Hi2 Hx2 (th & Et & Hst)].
    split; [by rewrite Ec4|by rewrite WI|by rewrite WX|]. exists th.
    change (cur s3) with (cur s2) in Ec4. rewrite Ec4, (Wc _ eq_refl), (C3 _ eq_refl). done.
  - eapply quiet_trans; [exact Q2|]. by eapply quiet_trans.
Qed.

(** ** intr_handler() *)

Lemma quiet_guar_all s g s' g' : quiet all s g s' g' -> guar s g s' g'.
Proof. intros Q. by eapply quiet_guar. Qed.

(** The end of an external interrupt: the handler has run in state [s']. *)
Lemma wpc_intr_end n vec s g s' g' (Q : unit -> kstate -> ghost -> Prop) :
  vec ∈ vectors -> hinv s' g' -> quiet all s g s' g' ->
  (forall s2 g2, kinv fn_ok s2 g2 -> intr s2 = INTR_OFF -> cur s2 = cur s -> mine (cur s) s g s2 g2 ->
     Q tt s2 g2) ->
  wpc fn_ok n
    (yield ⇐ prim (level ← intr_get_level;
                  ASSERT (bool_decide (level = INTR_OFF));;
                  c ← intr_context; ASSERT c;;
                  modify (set_in_external_intr false);;
                  pic_end_of_interrupt vec;;
                  gets yield_on_return);
     if yield : bool then thread_yield else Ret tt) Q s' g'.
Proof.
  intros Hv Hh Qt HQ. pose proof Hh as [B Hi Hx Hr]. unfold prim. cbn [cbind].
  apply wpc_prim_off; [done|]. apply wp_bind. red. cbn [intr_get_level gets].
  apply wp_bind, wp_assertb; [by apply bool_decide_eq_true|].
  apply wp_bind. red. cbn [intr_context gets]. apply wp_bind, wp_assertb; [done|].
  apply wp_bind. red. cbn [modify]. apply wp_bind. unfold pic_end_of_interrupt.
  apply wp_assertb. { unfold vectors in Hv. by repeat (apply elem_of_cons in Hv as [-> | Hv]); [..|set_solver]. }
  red. cbn [gets]. set (s2 := set_in_external_intr false s').
  assert (K2 : kinv fn_ok s2 g').
  { split_and!; [|done|done]. by apply (kbase_ext fn_ok _ _ s'). }
  assert (Q2 : quiet all s g s2 g') by (eapply quiet_trans; [exact Qt|by apply quiet_ext]).
  assert (C2 : cur s2 = cur s) by (apply (quiet_cur _ _ _ _ _ Qt)).
  exists g'. split; [apply quiet_guar_all, quiet_ext; done|].
  change (yield_on_return s2) with (yield_on_return s'). destruct (yield_on_return s').
  - eapply wpc_thread_yield; [done|]. intros s3 g3 K3 I3 C3 M3.
    apply HQ; [done|by rewrite I3|congruence|].
    eapply mine_at_trans; [by eapply quiet_mine|]. by rewrite <- C2.
  - apply wpc_ret, HQ; [done..|]. by eapply quiet_mine.
Qed.

Theorem handler_sound n : handler_ok fn_ok n.
Proof.
  intros vec garbage s g Hv K. pose proof K as (B & Hx & Hr). unfold intr_handler.
  assert (Hext : (32 <=? vec) && (vec <? 48) = true).
  { unfold vectors in Hv. by repeat (apply elem_of_cons in Hv as [-> | Hv]); [..|set_solver]. }
  rewrite Hext. unfold prim at 1. cbn [cbind]. apply wpc_prim_off; [done|].
  apply wp_bind. red. cbn [intr_get_level gets]. apply wp_bind, wp_assertb; [done|].
  apply wp_bind. red. cbn [intr_context gets]. cbn [in_external_intr set_intr]. rewrite Hx.
  apply wp_bind, wp_assertb; [done|]. apply wp_bind. red. cbn [modify]. red. cbn [modify].
  set (s1 := set_yield_on_return _ _).
  assert (H1 : hinv s1 g).
  { split; try done. by apply (kbase_ext fn_ok _ _ s). }
  assert (Q1 : quiet all s g s1 g) by (by apply quiet_ext).
  exists g. split; [apply quiet_guar_all, quiet_ext; done|].
  assert (Hend : forall s2 g2, hinv s2 g2 -> quiet all s g s2 g2 -> wpc fn_ok n
    (yield ⇐ prim (level ← intr_get_level;
                  ASSERT (bool_decide (level = INTR_OFF));;
                  c ← intr_context; ASSERT c;;
                  modify (set_in_external_intr false);;
                  pic_end_of_interrupt vec;;
                  gets yield_on_return);
     if yield : bool then thread_yield else Ret tt)
    (fun _ s' g' => kinv fn_ok s' g' /\ intr s' = INTR_OFF /\ cur s' = cur s /\ mine (cur s) s g s' g') s2 g2).
  { intros s2 g2 H2 Q2. eapply wpc_intr_end; [done..|]. auto. }
  apply wpc_bind. unfold vectors in Hv. apply elem_of_cons in Hv as [-> | Hv].
  - cbn [handlers Z.eqb Pos.eqb]. unfold prim. apply wpc_prim_off; [done|].
    eapply wp_timer_interrupt; [exact H1|]. intros s2 g2 H2 Q2. exists g2.
    split; [by apply quiet_guar_all|]. apply wpc_ret. apply Hend; [done|]. by eapply quiet_trans.
  - repeat (apply elem_of_cons in Hv as [-> | Hv]); [..|set_solver];
      cbn [handlers Z.eqb Pos.eqb orb]; apply wpc_ret; by apply Hend.
Qed.

(** ** The idle thread *)

Lemma wpc_while_kinv n (A : Set) (I : kstate -> ghost -> Prop) test body (k : comp A) Q s g :
  I s g ->
  (forall m s g, (m < n)%nat -> I s g -> kinv fn_ok s g /\
     forall s1 g1, kept all all s g s1 g1 ->
       wp test (fun b s' => exists g', guar s1 g1 s' g' /\
         if b : bool then wpc fn_ok m body (fun _ => I) s' g' else wpc fn_ok m k Q s' g') s1) ->
  wpc fn_ok n (While test body k) Q s g.
Proof.
  revert s g. induction n as [|n IH]; [done|]. intros s g HI Hb.
  destruct (Hb n s g ltac:(lia) HI) as [K W]. rewrite wpc_eq.
  assert (Hgo : forall s1 g1, kept all all s g s1 g1 ->
    wp test (fun b s' => exists g', guar s1 g1 s' g' /\
      (if b : bool then wpc fn_ok n body (fun _ => wpc fn_ok n (While test body k) Q) else wpc fn_ok n k Q) s' g') s1).
  { intros s1 g1 Kp. eapply wp_mono; [by apply W|]. intros [] s' (g' & Hg & W'); exists g'; (split; [done|]); [|done].
    eapply wpc_mono; [|exact W']. intros a2 s2 g2 HI2. apply IH; [done|].
    intros m s3 g3 Hm. apply Hb. lia. }
  unfold atomically. destruct (intr s) eqn:Hi.
  - apply Hgo. by apply kept_refl.
  - split; [done|]. intros s1 g1 (K1 & C1 & I1 & M1). apply Hgo. split_and!; congruence || done.
Qed.

(** The loop of idle(), and the code that follows it. *)
Definition idle_loop : comp unit :=
  While (ret true)
    (prim (intr_disable;; ret tt) ⨾
     thread_block ⨾
     prim (modify (set_intr INTR_ON)))
  (Ret tt) ⨾ thread_exit.

(** What the idle thread goes on with when it is resumed inside its loop. *)
Definition idle_resume (prev : Z) : comp unit :=
  prim (schedule_tail prev) ⨾ prim (modify (set_intr INTR_ON)) ⨾ idle_loop.

Lemma wpc_idle_loop n s g : kinv fn_ok s g -> cur s = idle_thread s ->
  wpc fn_ok n idle_loop no_return s g.
Proof.
  intros K Hid. unfold idle_loop. cbn [cbind].
  eapply (wpc_while_kinv n _ (fun s g => kinv fn_ok s g /\ cur s = idle_thread s)); [done|].
  clear. intros m s g _ [K Hid]. split; [done|]. intros s1 g1 (K1 & I1 & C1 & M1).
  apply wp_ret. exists g1. split; [apply guar_refl|].
  assert (Hid1 : cur s1 = idle_thread s1) by (by rewrite C1, (mine_idle _ _ _ _ _ _ _ M1)).
  unfold prim. cbn [cbind]. apply wpc_prim_kept; [done|]. intros s2 g2 (K2 & I2 & C2 & M2).
  apply wp_bind. red. cbn [intr_disable bind intr_get_level gets modify ret]. apply wp_ret.
  exists g2. split; [apply guar_refl_intr|]. set (s3 := set_intr INTR_OFF s2).
  assert (Hid2 : cur s2 = idle_thread s2) by (by rewrite C2, (mine_idle _ _ _ _ _ _ _ M2)).
  pose proof (kinv_set_intr fn_ok INTR_OFF _ _ K2) as K3. pose proof K3 as (B3 & X3 & _).
  destruct (kinv_facts _ _ _ K3) as (th & Et & Hst & Hpos & Hm & _ & _ & Hp).
  apply wpc_bind. eapply (wpc_thread_block fn_ok m s3 g2 th); try done.
  - eapply (kbase_idle_off fn_ok None s3 _ g2 th THREAD_BLOCKED); try done; auto.
    + by change (idle_thread s3) with (idle_thread s2); rewrite <- Hid2.
    + by change (idle_thread s3) with (idle_thread s2); rewrite <- Hid2.
    + cbn. by rewrite Hid2.
  - intros s4 g4 K4 I4 C4 M4. apply wpc_prim_off; [done|]. red. cbn [modify]. exists g4.
    split; [apply guar_refl_intr|]. apply wpc_ret. split; [by apply kinv_set_intr|].
    cbn. rewrite C4, (mine_idle _ _ _ _ _ _ _ M4). done.
Qed.

Lemma wpc_idle_resume n prev s g : swinv fn_ok prev s g -> cur s = idle_thread s ->
  wpc fn_ok n (idle_resume prev) no_return s g.
Proof.
  intros Hsw Hid. unfold idle_resume, prim. cbn [cbind]. apply wpc_prim_off; [apply Hsw|].
  eapply wp_schedule_tail; [done|]. intros s1 (K1 & I1 & G1 & M1). exists g. split; [done|].
  apply wpc_prim_off; [done|]. red. cbn [modify]. exists g. split; [apply guar_refl_intr|].
  apply wpc_idle_loop; [by apply kinv_set_intr|]. cbn.
  destruct G1 as [-> _]. by rewrite (mine_idle _ _ _ _ _ _ _ M1).
Qed.

(** ** New threads *)

(** A thread function may be run by any thread but the idle one, and has
    released its locks when it returns. *)
Definition unencumbered (s : kstate) (g : ghost) : Prop :=
  kinv fn_ok s g /\ cur s <> idle_thread s /\ forall l, owner g !! l <> Some (cur s).

Definition fun_spec (f : Z) : Prop := forall n aux s g, unencumbered s g ->
  wpc fn_ok n (func f aux) (fun _ => unencumbered) s g.

Theorem entry_sound n : (forall f, fn_ok f -> fun_spec f) -> entry_ok fn_ok n.
Proof.
  intros Hf prev s g f aux Hsw Hf1 Hf2 Hf3 Hown Hid. unfold kernel_thread, prim. cbn [cbind].
  apply wpc_prim_off; [apply Hsw|]. eapply wp_schedule_tail; [done|].
  intros s1 (K1 & I1 & G1 & M1). exists g. split; [done|].
  apply wpc_prim_off; [done|]. apply wp_assertb; [by rewrite (proj2 (Z.eqb_neq _ _))|].
  exists g. split; [apply guar_refl|]. apply wpc_prim_off; [done|].
  apply wp_bind. pose proof K1 as (_ & X1 & _).
  apply (wp_intr_set_level INTR_ON); [done|]. apply wp_ret. exists g. split; [apply guar_refl_intr|].
  rewrite (proj2 (Z.eqb_neq _ _)) by done. destruct G1 as [C1 _].
  apply wpc_bind. eapply wpc_mono; [|apply (Hf f Hf3 n aux)].
  - intros [] s2 g2 (K2 & Hid2 & Ho2). by apply wpc_thread_exit.
  - split_and!; [by apply kinv_set_intr|..]; cbn; rewrite C1; [|done].
    by rewrite (mine_idle _ _ _ _ _ _ _ M1).
Qed.
End main.
