(* ===== verification/KClient.v ===== *)
(** * Programs on the threads package

    Arbitrary programs that use threads, semaphores, locks and the timer, and
    then the safety of every run of them. *)

From Stdlib Require Import ZArith Lia.
From stdpp Require Import base numbers gmap list relations.
From S2P Require Import Prelude DList Bitmap Vaddr Palloc Kernel Thread Synch Boot KInv KLogic KSched KSynch KCreate KTimer KMain.

Open Scope Z_scope.

(** * Programs

    A client program is a sequence of calls to the threads package, each of
    which may depend on the results of those before it.  [good] is the
    discipline that the comments of threads/synch.c and threads/thread.c ask
    of callers: a lock is acquired by a thread that does not hold it, released
    by the thread that does, and a thread has released its locks when it ends.
    Threads that follow it never make an assertion of the kernel fail,
    whatever the timer interrupts do. *)

Inductive call :=
  | Yield
  | Get_tid
  | Get_priority
  | Set_priority (new_priority : Z)
  | Ticks
  | Sema_down (sema : Z)
  | Sema_try_down (sema : Z)
  | Sema_up (sema : Z)
  | Lock_acquire (lock : Z)
  | Lock_try_acquire (lock : Z)
  | Lock_release (lock : Z)
  | Lock_held (lock : Z)
  | Create (nm : list Z) (prio function aux : Z).

Inductive prog :=
  | Done
  | Call (c : call) (k : Z -> prog).

(** Booleans as the callers see them. *)
Definition Z_of_bool (b : bool) : Z := if b then 1 else 0.

Section client.
Context `{Image}.

(** What follows the call [c] in a program that has the locks [held], [X]
    being the discipline that the rest follows. *)
Definition good_call (good_fn : Z -> Prop) (c : call) (held : gset Z)
  (X : Z -> gset Z -> Prop) : Prop :=
  match c with
  | Yield | Get_tid | Get_priority | Set_priority _ | Ticks => forall r, X r held
  | Sema_down sa | Sema_try_down sa | Sema_up sa => sa ∈ program_semas /\ forall r, X r held
  | Lock_acquire l => l ∈ program_locks /\ (l ∉ held) /\ forall r, X r (({[l]} : gset Z) ∪ held)
  | Lock_try_acquire l => l ∈ program_locks /\ (l ∉ held) /\ X 1 ({[l]} ∪ held) /\ X 0 held
  | Lock_release l => l ∈ held /\ forall r, X r (held ∖ {[l]})
  | Lock_held l => l ∈ program_locks /\ X (Z_of_bool (bool_decide (l ∈ held))) held
  | Create _ prio f _ => PRI_MIN <= prio <= PRI_MAX /\ f <> NULL /\ f <> idle_function /\
      good_fn f /\ forall r, X r held
  end.

Fixpoint good (good_fn : Z -> Prop) (p : prog) (held : gset Z) : Prop :=
  match p with
  | Done => held = ∅
  | Call c k => good_call good_fn c held (fun r => good good_fn (k r))
  end.
End client.

Section exec.
Context `{Image} `{Program}.

Definition exec (c : call) : comp Z :=
  match c with
  | Yield => thread_yield ⨾ Ret 0
  | Get_tid => prim thread_tid
  | Get_priority => prim thread_get_priority
  | Set_priority p => prim (thread_set_priority p) ⨾ Ret 0
  | Ticks => prim timer_ticks
  | Sema_down sa => sema_down sa ⨾ Ret 0
  | Sema_try_down sa => b ⇐ prim (sema_try_down sa); Ret (Z_of_bool b)
  | Sema_up sa => prim (sema_up sa) ⨾ Ret 0
  | Lock_acquire l => lock_acquire l ⨾ Ret 0
  | Lock_try_acquire l => b ⇐ lock_try_acquire l; Ret (Z_of_bool b)
  | Lock_release l => lock_release l ⨾ Ret 0
  | Lock_held l => b ⇐ prim (lock_held_by_current_thread l); Ret (Z_of_bool b)
  | Create nm prio f aux => thread_create nm prio f aux
  end.

Fixpoint interp (p : prog) : comp unit :=
  match p with
  | Done => Ret tt
  | Call c k => r ⇐ exec c; interp (k r)
  end.
End exec.

(** ** Soundness *)

Section sound.
Context `{Image} `{Program} (fn_ok : Z -> Prop).
Context (Hpl : (tid_lock ∉ program_locks) /\ kernel_pool_lock ∉ program_locks).

Local Abbreviation kept := (kept fn_ok).
Local Abbreviation all := (fun _ : Z => True).

(** The running thread owns exactly the locks [held]. *)
Definition holds (held : gset Z) (s : kstate) (g : ghost) : Prop :=
  kinv fn_ok s g /\ cur s <> idle_thread s /\
  (forall l, owner g !! l = Some (cur s) <-> l ∈ held) /\
  (forall l, l ∈ held -> locks s !! l = Some (cur s) /\ l ∈ program_locks).

Lemma holds_kept held s g s' g' : kept all all s g s' g' -> holds held s g -> holds held s' g'.
Proof.
  intros Kp (K & Hid & Ho & Hl). pose proof Kp as (K' & _ & C & M).
  split_and!; [done|by eapply kept_idle|..]; rewrite C.
  - intros l. rewrite <- (mine_owner _ _ _ _ _ _ _ M) by done. apply Ho.
  - intros l Hh. rewrite (mine_locks _ _ _ _ _ _ _ M) by (done || by apply Ho). auto.
Qed.

Lemma holds_acquired held l s g s' g' : acquired fn_ok l s g s' g' -> l ∈ program_locks ->
  holds held s g -> holds ({[l]} ∪ held) s' g'.
Proof.
  intros (Kp & Ho' & El') Hlp (K & Hid & Ho & Hl). pose proof Kp as (K' & _ & C & M).
  split_and!; [done|by eapply kept_idle|..]; rewrite C; intros l'.
  - destruct (decide (l' = l)) as [->|Hne]; [set_solver|].
    rewrite <- (mine_owner _ _ _ _ _ _ _ M) by done. rewrite Ho. set_solver.
  - intros [->%elem_of_singleton | Hh]%elem_of_union; [done|].
    destruct (decide (l' = l)) as [->|Hne]; [done|].
    rewrite (mine_locks _ _ _ _ _ _ _ M) by (done || by apply Ho). auto.
Qed.

Lemma holds_released held l s g s' g' : released fn_ok l s g s' g' ->
  holds held s g -> holds (held ∖ {[l]}) s' g'.
Proof.
  intros (Kp & Ho') (K & Hid & Ho & Hl). pose proof Kp as (K' & _ & C & M).
  split_and!; [done|by eapply kept_idle|..]; rewrite C; intros l'.
  - destruct (decide (l' = l)) as [->|Hne]; [set_solver|].
    rewrite <- (mine_owner _ _ _ _ _ _ _ M) by done. rewrite Ho. set_solver.
  - intros [Hh Hne]%elem_of_difference. rewrite not_elem_of_singleton in Hne.
    rewrite (mine_locks _ _ _ _ _ _ _ M) by (done || by apply Ho). auto.
Qed.

Lemma holds_plain held s g sa : holds held s g -> sa ∈ program_semas -> plain s sa.
Proof. intros ((B & _) & _) Hs. by apply (kb_static _ _ _ _ _ B). Qed.

Lemma holds_lock held s g l : holds held s g -> l ∈ program_locks -> is_Some (locks s !! l).
Proof. intros ((B & _) & _) Hs. by apply (kb_static _ _ _ _ _ B). Qed.

Lemma holds_create held s g : holds held s g -> may_create s g.
Proof.
  intros (K & Hid & Ho & Hl). destruct Hpl. split_and!; [done|..]; intros Hi%Ho;
    by destruct (Hl _ Hi).
Qed.

(** A step that leaves what the thread relies on alone. *)
Lemma wpc_prim_holds n (A X : Set) (m : M kstate X) (k : X -> comp A) Q held s g :
  holds held s g ->
  (forall s1 g1, holds held s1 g1 ->
     wp m (fun x s' => exists g', guar s1 g1 s' g' /\ wpc fn_ok n (k x) Q s' g') s1) ->
  wpc fn_ok n (Prim m k) Q s g.
Proof.
  intros Hh W. apply wpc_prim_kept; [apply Hh|]. intros s1 g1 Kp. apply W. by eapply holds_kept.
Qed.

(** A step that reads the running thread. *)
Lemma wpc_own_thread n (f : thread -> Z) held s g (Q : Z -> kstate -> ghost -> Prop) :
  holds held s g -> (forall r s' g', holds held s' g' -> Q r s' g') ->
  wpc fn_ok n (prim (t ← thread_current; th ← get_thread t; ret (f th))) Q s g.
Proof.
  intros Hh HQ. eapply wpc_prim_holds; [done|]. intros s1 g1 H1. pose proof H1 as (K1 & _).
  destruct (kinv_facts _ _ _ K1) as (th & Et & Hst & Hpos & Hm & _ & _ & Hp).
  apply wp_bind. eapply wp_thread_current_kinv; [done|]. apply wp_bind.
  eapply wp_get_thread; [done..|]. apply wp_ret. exists g1. split; [apply guar_refl|].
  apply wpc_ret. by apply HQ.
Qed.

Lemma wpc_set_priority n p held s g (Q : Z -> kstate -> ghost -> Prop) :
  holds held s g -> (forall r s' g', holds held s' g' -> Q r s' g') ->
  wpc fn_ok n (prim (thread_set_priority p) ⨾ Ret 0) Q s g.
Proof.
  intros Hh HQ. unfold prim. cbn [cbind]. eapply wpc_prim_holds; [done|].
  intros s1 g1 H1. pose proof H1 as (K1 & Hid1 & Ho1 & Hl1). pose proof K1 as (B1 & X1 & _).
  destruct (kinv_facts _ _ _ K1) as (th & Et & Hst & Hpos & Hm & _ & _ & Hp).
  apply wp_bind. eapply wp_thread_current_kinv; [done|]. eapply wp_update_thread; [done..|].
  set (s2 := set_threads _ s1). exists g1. split.
  - assert (Q2 : quiet (fun u => u <> cur s1) s1 g1 s2 (set_lists (lists g1) g1)) by (by eapply quiet_update).
    rewrite (ltac:(by destruct g1) : set_lists (lists g1) g1 = g1) in Q2. by eapply quiet_guar.
  - apply wpc_ret, HQ. split_and!; try done. split_and!; [|done|].
    + eapply (kbase_running fn_ok None s1 s2 g1 (cur s1) th (with_priority p th)); try done. cbn. congruence.
    + exists (with_priority p th). split; [apply lookup_insert_eq|done].
Qed.

Lemma wpc_ticks n held s g (Q : Z -> kstate -> ghost -> Prop) :
  holds held s g -> (forall r s' g', holds held s' g' -> Q r s' g') ->
  wpc fn_ok n (prim timer_ticks) Q s g.
Proof.
  intros Hh HQ. unfold prim. eapply wpc_prim_holds; [done|]. intros s1 g1 H1. pose proof H1 as ((_ & X1 & _) & _).
  unfold timer_ticks. apply wp_bind. red. cbn [intr_disable bind intr_get_level gets modify ret].
  apply wp_bind. red. cbn [gets]. apply wp_bind, wp_intr_set_level; [done|]. apply wp_ret.
  assert (E : set_intr (intr s1) (set_intr INTR_OFF s1) = s1) by (by destruct s1). rewrite E.
  exists g1. split; [apply guar_refl|]. apply wpc_ret. by apply HQ.
Qed.

(** Every call that follows the discipline is safe. *)
Lemma wpc_exec n c held X s g (Q : Z -> kstate -> ghost -> Prop) :
  holds held s g -> good_call fn_ok c held X ->
  (forall r held' s' g', holds held' s' g' -> X r held' -> Q r s' g') ->
  wpc fn_ok n (exec c) Q s g.
Proof.
  intros Hh Hg HQ. pose proof Hh as (K & Hid & Ho & Hl). destruct c; cbn [good_call] in Hg; cbn [exec].
  - apply wpc_bind. apply wpc_thread_yield; [done|]. intros s1 g1 K1 I1 C1 M1.
    apply wpc_ret. eapply HQ; [|done]. eapply holds_kept; [by split_and!|done].
  - eapply wpc_own_thread; eauto.
  - eapply wpc_own_thread; eauto.
  - eapply wpc_set_priority; eauto.
  - eapply wpc_ticks; eauto.
  - destruct Hg as [Hs Hg]. apply wpc_bind. apply wpc_sema_down_plain; [done|by eapply holds_plain|done|].
    intros s1 g1 Kp. apply wpc_ret. eapply HQ; [by eapply holds_kept|done].
  - destruct Hg as [Hs Hg]. unfold prim. cbn [cbind]. eapply wpc_prim_holds; [done|]. intros s1 g1 H1.
    eapply wp_sema_try_down_plain; [apply H1|by eapply holds_plain|]. intros b s2 g2 G2 Kp2.
    exists g2. split; [done|]. apply wpc_ret. eapply HQ; [by eapply holds_kept|done].
  - destruct Hg as [Hs Hg]. unfold prim. cbn [cbind]. eapply wpc_prim_holds; [done|]. intros s1 g1 H1.
    eapply wp_sema_up_plain; [apply H1|by eapply holds_plain|]. intros s2 g2 G2 Kp2.
    exists g2. split; [done|]. apply wpc_ret. eapply HQ; [by eapply holds_kept|done].
  - destruct Hg as (Hlp & Hn & Hg). apply wpc_bind.
    apply wpc_lock_acquire; [done|by eapply holds_lock|done|by rewrite Ho|].
    intros s1 g1 A. apply wpc_ret. eapply HQ; [by eapply holds_acquired|done].
  - destruct Hg as (Hlp & Hn & Hg1 & Hg0). apply wpc_bind.
    apply wpc_lock_try_acquire; [done|by eapply holds_lock|by rewrite Ho|..].
    + intros s1 g1 A. apply wpc_ret. eapply HQ; [by eapply holds_acquired|done].
    + intros s1 g1 Kp. apply wpc_ret. eapply HQ; [by eapply holds_kept|done].
  - destruct Hg as (Hlh & Hg). apply wpc_bind.
    apply wpc_lock_release; [done|by apply Ho|by apply Hl|].
    intros s1 g1 A. apply wpc_ret. eapply HQ; [by eapply holds_released|done].
  - destruct Hg as (Hlp & Hg). unfold prim. cbn [cbind]. eapply wpc_prim_holds; [done|].
    intros s1 g1 H1. pose proof H1 as (K1 & _ & Ho1 & Hl1).
    destruct (holds_lock _ _ _ _ H1 Hlp) as [h Eh]. eapply wp_lock_held; [done..|].
    exists g1. split; [apply guar_refl|]. apply wpc_ret. eapply HQ; [done|].
    destruct (decide (lock ∈ held)) as [Hin|Hin].
    + rewrite bool_decide_eq_true_2 in Hg by done. destruct (Hl1 _ Hin) as [E _].
      rewrite E in Eh. injection Eh as <-. by rewrite Z.eqb_refl.
    + rewrite bool_decide_eq_false_2 in Hg by done.
      rewrite (proj2 (Z.eqb_neq _ _)); [done|]. eapply not_holder; [done..|]. by rewrite Ho1.
  - destruct Hg as (Hpr & Hf1 & Hf2 & Hf3 & Hg). apply wpc_thread_create; [done|by eapply holds_create|done..|].
    intros tid s1 g1 Kp. eapply HQ; [by eapply holds_kept|done].
Qed.

Lemma wpc_interp n p held s g : holds held s g -> good fn_ok p held ->
  wpc fn_ok n (interp p) (fun _ => unencumbered fn_ok) s g.
Proof.
  revert held s g. induction p as [|c k IH]; intros held s g Hh Hg; cbn [interp good] in *.
  - apply wpc_ret. destruct Hh as (K & Hid & Ho & _). split_and!; try done.
    intros l Hl%Ho. set_solver.
  - apply wpc_bind. eapply wpc_exec; [done..|]. intros r held' s' g' Hh' Hg'. by eapply IH.
Qed.

Lemma unencumbered_holds s g : unencumbered fn_ok s g -> holds ∅ s g.
Proof.
  intros (K & Hid & Ho). split_and!; [done|done| |set_solver].
  intros l. split; [intros E; by destruct (Ho l)|set_solver].
Qed.
End sound.

(** * Safety of the threads package

    Starting from the state that boot leaves behind, whatever the client
    programs do within the discipline of KClient, and whenever timer
    interrupts come, no assertion of the kernel fails and no context switch
    goes wrong, the scheduler's lists stay consistent with the threads'
    status, and locks exclude. *)

(** ** Consistent states *)

Section consistent.
Context `{Image}.

(** The ready list is a well-formed list of exactly the ready threads, the
    idle thread apart, each once; the running thread is the current one. *)
Definition scheduler_consistent (s : kstate) : Prop :=
  (forall t th, threads s !! t = Some th ->
     (status th = THREAD_RUNNING <-> t = cur s) /\ magic th = THREAD_MAGIC /\ t mod 4096 = 0) /\
  is_Some (threads s !! cur s) /\
  exists rl, dll (lmem s) ready_list rl /\ NoDup rl /\
    (forall e, e ∈ rl <-> exists t th, e = elem_of_thread t /\ threads s !! t = Some th /\
       t <> idle_thread s /\ status th = THREAD_READY).

(** A lock's semaphore is 0 or 1; when it is 1 the lock has no holder, and a
    holder is a thread. *)
Definition locks_consistent (s : kstate) : Prop :=
  forall l h, locks s !! l = Some h ->
    exists v, semas s !! lock_semaphore l = Some v /\ 0 <= v <= 1 /\
      (v = 1 -> h = NULL) /\ (h <> NULL -> v = 0 /\ is_Some (threads s !! h)).

(** The page of every thread but the first is allocated, and not shared. *)
Definition pages_consistent (s : kstate) : Prop :=
  forall t, is_Some (threads s !! t) -> t <> initial_thread s -> kernel_page s t.

Context (fn_ok : Z -> Prop).

Lemma kinv_scheduler s g : kinv fn_ok s g -> scheduler_consistent s.
Proof.
  intros (B & _ & thc & Ec & Hrun). split_and!.
  - intros t th E. destruct (kb_thread _ _ _ _ _ B t th E) as (? & ? & ? & _). split_and!; try done.
    split; [|by intros ->; congruence]. intros Hr. destruct (decide (t = cur s)) as [->|Hne]; [done|].
    pose proof (kb_status _ _ _ _ _ B t th E ltac:(congruence) ltac:(done)) as P. by rewrite Hr in P.
  - eauto.
  - destruct (kb_ready _ _ _ _ _ B) as [rl Erl]. exists rl. split_and!.
    + apply (lists_dll _ _ (kb_lists _ _ _ _ _ B) _ _ Erl).
    + apply (lists_nodup _ _ (kb_lists _ _ _ _ _ B) _ _ Erl).
    + intros e. split.
      * intros He. destruct (kb_elems _ _ _ _ _ B _ _ _ Erl He) as (t & th & -> & Et & _ & _ & Hid & _ & Hst).
        exists t, th. split_and!; try done. rewrite Hst. unfold list_status. by rewrite decide_True.
      * intros (t & th & -> & Et & Hid & Hst).
        assert (Hne : Some (cur s) <> Some t) by (intros [= <-]; congruence).
        pose proof (kb_status _ _ _ _ _ B t th Et Hne ltac:(done)) as P. rewrite Hst in P.
        destruct P as [?|(rl' & Erl' & He)]; congruence.
Qed.

Lemma kinv_locks s g : kinv fn_ok s g -> locks_consistent s.
Proof.
  intros (B & _) l h E. destruct (kb_lock _ _ _ _ _ B l h E) as (_ & v & Ev & Hl). exists v.
  split; [done|]. unfold lock_state in Hl. destruct (owner g !! l) as [t|] eqn:Eo.
  - destruct Hl as [-> Hh]. split_and!; try lia. intros Hn. split; [done|].
    destruct (kb_owner _ _ _ _ _ B l t Eo) as (_ & th & Et & _). destruct Hh as [->| ->]; [done|eauto].
  - destruct Hl as [-> ->]. split_and!; lia || done.
Qed.

Lemma kinv_pages s g : kinv fn_ok s g -> pages_consistent s.
Proof. intros (B & _) t. apply (kb_page _ _ _ _ _ B). Qed.
End consistent.

(** ** Reachable machines *)

Section safe.
Context `{Image} (code : Z -> Z -> prog) (good_fn : Z -> Prop).

(** Threads run programs. *)
#[local] Instance program : Program := {| func := fun f aux => interp (code f aux) |}.

(** Every program follows the discipline. *)
Definition disciplined : Prop :=
  ((tid_lock ∉ program_locks) /\ (kernel_pool_lock ∉ program_locks)) /\
  forall f aux, good_fn f -> good good_fn (code f aux) ∅.

(** The machine when thread_start() has returned: the idle thread waits in
    its loop, and the first thread goes on with the program [p]. *)
Record booted (p : prog) (g : ghost) (m : machine) : Prop := {
  booted_inv : kinv good_fn (ks m) g;
  booted_owner : owner g = ∅;
  booted_cur : cur (ks m) <> idle_thread (ks m);
  booted_run : run m = (interp p ⨾ thread_exit);
  booted_idle : forall t th, threads (ks m) !! t = Some th -> t <> cur (ks m) ->
    suspended_stack th -> t = idle_thread (ks m) /\ suspended m !! t = Some idle_resume }.

Lemma entry_program n : disciplined -> entry_ok good_fn n.
Proof.
  intros [Hl Hd]. refine (entry_sound good_fn n _). intros f Hf m aux s g Hu.
  eapply (wpc_interp good_fn Hl); [by apply unencumbered_holds|by apply Hd].
Qed.

Lemma booted_ok p g m n : disciplined -> good good_fn p ∅ -> booted p g m -> config_ok good_fn n m.
Proof.
  intros [Hl Hd] Hp Hb. exists g. split.
  - rewrite (booted_run _ _ _ Hb). apply wpc_bind.
    assert (Hu : unencumbered good_fn (ks m) g).
    { split; [apply (booted_inv _ _ _ Hb)|]. split; [apply (booted_cur _ _ _ Hb)|]. intros l. by rewrite (booted_owner _ _ _ Hb), lookup_empty. }
    eapply wpc_mono; [|eapply (wpc_interp good_fn Hl); [by apply unencumbered_holds|done]].
    intros [] s' g' (K & Hid & Ho). by apply wpc_thread_exit.
  - intros t th Hne Et Hs Hdy. destruct (booted_idle _ _ _ Hb t th Et Hne Hs) as [-> ->].
    eexists. split; [done|]. exists (set_cur (idle_thread (ks m)) (ks m)), g. split_and!; [done|..].
    + destruct (mine_at_refl (fun _ => True) (fun _ => True) (idle_thread (ks m)) (ks m) g). by split.
    + intros prev s' g' (Hsw & Hc & Hm). apply wpc_idle_resume; [done|].
      rewrite Hc, (mine_idle _ _ _ _ _ _ _ Hm). done.
Qed.

Lemma reachable_ok p g m m' n : disciplined -> good good_fn p ∅ -> booted p g m ->
  rtc step m m' -> config_ok good_fn n m'.
Proof.
  intros Hd Hp Hb Hr. eapply config_ok_steps; [| |by intros; eapply booted_ok|done].
  - intros. by apply entry_program.
  - intros. apply handler_sound.
Qed.
End safe.
