(* ===== verification/KProps.v ===== *)
(** * The threads package: theorems

    Executed runs of a machine that boots, for witnesses, and then the theorems
    on the scheduler, the locks and the timer. *)

From Stdlib Require Import ZArith Lia.
From stdpp Require Import base numbers gmap list relations.
From S2P Require Import Prelude DList Bitmap Vaddr Palloc Kernel Thread Synch Boot KInv KLogic KSched KTimer KMain KClient.

Open Scope Z_scope.

(** * Booting, executed

    The part of main() in threads/init.c that brings up the threads package,
    and an executable version of the machine's steps with which it is run.
    The state it ends in, for a concrete image, is the one the theorems on
    reachable machines start from. *)

(** ** The start of main() *)

Section boot.
Context `{Image} `{Program}.

(** palloc_init(), with the locks that init_pool() initialises. *)
Definition init_memory (ram_pages kernel_end user_page_limit : Z) (block : Z -> list Z) :
  M kstate unit :=
  match palloc_init ram_pages kernel_end user_page_limit block with
  | Ok ps => lock_init kernel_pool_lock;; lock_init user_pool_lock;; modify (set_memory ps)
  | Err e => fail e
  end.

(** What timer_init() does besides programming the timer chip. *)
Definition timer_init : M kstate unit := on_lists (list_init block_list).

(** [init_program] initialises the semaphores and locks of the program. *)
Definition start_kernel (ram_pages kernel_end user_page_limit : Z) (block : Z -> list Z)
  (init_program : M kstate unit) (idle_started : Z) : comp unit :=
  thread_init ⨾
  prim (init_memory ram_pages kernel_end user_page_limit block) ⨾
  prim timer_init ⨾
  prim init_program ⨾
  thread_start idle_started.

(** ** Executing the machine *)

(** The next step of the running code; switch_threads() saves the stack
    pointer [sp]. *)
Definition advance (sp : Z) (m : machine) : option machine :=
  let s := ks m in
  match run m with
  | Ret _ => None
  | Prim p k =>
      match p s with Ok (x, s') => Some (mk_machine s' (k x) (suspended m)) | Err _ => None end
  | While test body k =>
      match test s with
      | Ok (b, s') => Some (mk_machine s' (if b : bool then body ⨾ While test body k else k) (suspended m))
      | Err _ => None
      end
  | Switch next k =>
      match save_context sp s with
      | Some s1 =>
          match resume s1 (<[cur s := k]> (suspended m)) next with
          | Some k' => Some (mk_machine (set_cur next s1) (k' (cur s)) (<[cur s := k]> (suspended m)))
          | None => None
          end
      | None => None
      end
  end.

(** An interrupt arrives. *)
Definition interrupt (vec garbage : Z) (m : machine) : option machine :=
  if bool_decide (intr (ks m) = INTR_ON) && bool_decide (vec ∈ vectors) then
    Some (mk_machine (set_intr INTR_OFF (ks m))
      (intr_handler (handlers garbage) vec ⨾ prim (modify (set_intr INTR_ON)) ⨾ run m) (suspended m))
  else None.

(** [n] steps, with the stack pointer near the top of the thread's page. *)
Fixpoint advance_n (n : nat) (m : machine) : option machine :=
  match n with
  | O => Some m
  | S n => match advance (cur (ks m) + 3840) m with Some m' => advance_n n m' | None => None end
  end.

(** A run: a number of steps, or an interrupt with its vector and the value
    that the handler finds in its uninitialised variable. *)
Inductive event := Steps (n : nat) | Irq (vec garbage : Z).

Fixpoint play (es : list event) (m : machine) : option machine :=
  match es with
  | [] => Some m
  | Steps n :: es => match advance_n n m with Some m' => play es m' | None => None end
  | Irq vec garbage :: es =>
      match interrupt vec garbage m with Some m' => play es m' | None => None end
  end.

Lemma advance_step sp m m' : advance sp m = Some m' -> step m m'.
Proof.
  destruct m as [s c susp]. unfold advance. cbn [run ks suspended].
  destruct c as [a|X p k|test body k|next k]; [done|..].
  - destruct (p s) as [[x s']|e] eqn:E; [|done]. intros [= <-]. by apply step_prim.
  - destruct (test s) as [[b s']|e] eqn:E; [|done]. intros [= <-]. by apply step_while.
  - destruct (save_context sp s) as [s1|] eqn:E; [|done].
    destruct (resume s1 _ next) as [k'|] eqn:E2; [|done]. intros [= <-]. by eapply step_switch.
Qed.

Lemma interrupt_step vec garbage m m' : interrupt vec garbage m = Some m' -> step m m'.
Proof.
  destruct m as [s c susp]. unfold interrupt. cbn [run ks suspended].
  destruct (bool_decide_reflect (intr s = INTR_ON)); [|done].
  destruct (bool_decide_reflect (vec ∈ vectors)); [|done]. intros [= <-]. by apply step_interrupt.
Qed.

Lemma advance_n_steps n m m' : advance_n n m = Some m' -> rtc step m m'.
Proof.
  revert m. induction n as [|n IH]; intros m; cbn; [by intros [= ->]|].
  destruct (advance _ m) as [m1|] eqn:E; [|done]. intros E1.
  eapply rtc_l; [by eapply advance_step|by apply IH].
Qed.

Lemma play_steps es m m' : play es m = Some m' -> rtc step m m'.
Proof.
  revert m. induction es as [|[n|vec garbage] es IH]; intros m; cbn; [by intros [= ->]|..].
  - destruct (advance_n n m) as [m1|] eqn:E; [|done]. intros E1.
    etrans; [by eapply advance_n_steps|by apply IH].
  - destruct (interrupt vec garbage m) as [m1|] eqn:E; [|done]. intros E1.
    eapply rtc_l; [by eapply interrupt_step|by apply IH].
Qed.

(** Whether the running code is about to fail. *)
Definition failing (m : machine) : bool :=
  match run m with
  | Ret _ => true
  | Prim p _ => match p (ks m) with Ok _ => false | Err _ => true end
  | While test _ _ => match test (ks m) with Ok _ => false | Err _ => true end
  | Switch _ _ => false
  end.

Lemma failing_fails m : failing m = true -> fails m.
Proof.
  unfold failing, fails. destruct (run m) as [a|X p k|test body k|next k]; try done.
  - destruct (p (ks m)) as [|e]; [done|]. eauto.
  - destruct (test (ks m)) as [|e]; [done|]. eauto.
Qed.

(** The machine a run ends in, known to be reached by evaluation. *)
Definition played (es : list event) (m : machine) : machine := default m (play es m).

Lemma played_steps es m : match play es m with Some _ => true | None => false end = true ->
  rtc step m (played es m).
Proof. unfold played. destruct (play es m) eqn:E; [|done]. intros _. by apply (play_steps es). Qed.
End boot.

(** ** The invariant, checked by evaluation *)

(** A decidable form of the invariant, for states in which no lock is taken
    and every thread but the current one is inside schedule(). *)
Section settled.
Context `{Image}.

Definition kernel_page_check (s : kstate) (p : Z) : bool :=
  let kp := kernel_pool (memory s) in
  let j := (p - base kp) / 4096 in
  (0 <=? j) && (j <? bit_cnt (used_map kp)) && (p =? page kp j) && used kp j.

Lemma kernel_page_check_ok s p : kernel_page_check s p = true -> kernel_page s p.
Proof.
  unfold kernel_page_check. intros [[[Hl Hu]%andb_true_iff Hp]%andb_true_iff Hus]%andb_true_iff.
  eexists. split; [|split; [by apply Z.eqb_eq|done]]. lia.
Qed.

(** Where a thread that is not the current one is. *)
Definition placed_check (s : kstate) (L : gmap Z (list Z)) (t : Z) (st : thread_status) : Prop :=
  match st with
  | THREAD_READY => t = idle_thread s \/ elem_of_thread t ∈ default [] (L !! ready_list)
  | THREAD_BLOCKED => t = idle_thread s \/
      Exists (fun lx => lx.1 <> ready_list /\ elem_of_thread t ∈ lx.2) (map_to_list L)
  | THREAD_DYING => t = initial_thread s
  | THREAD_RUNNING => False
  end.

#[global] Instance placed_check_dec s L t st : Decision (placed_check s L t st).
Proof. destruct st; cbn; apply _. Defined.

Lemma placed_check_ok s L o pr t st : placed_check s L t st -> placed s (mk_ghost L o pr) t st.
Proof.
  destruct st; cbn; try done.
  - intros [->|He]; [by left|]. right. destruct (L !! ready_list) as [rl|]; [eauto|]. by apply not_elem_of_nil in He.
  - intros [->|He]; [by left|]. right; right. apply Exists_exists in He as ([l xs] & Hin & ? & ?).
    apply elem_of_map_to_list in Hin. eauto.
Qed.

Definition elem_check (s : kstate) (l e : Z) : Prop :=
  thread_of_elem e <> cur s /\ thread_of_elem e <> idle_thread s /\
  status <$> threads s !! thread_of_elem e = Some (list_status l).

Record settled (s : kstate) (L : gmap Z (list Z)) : Prop := {
  set_threads_ok : map_Forall (fun t th =>
    (0 < t /\ t mod 4096 = 0 /\ magic th = THREAD_MAGIC /\ elem_of_thread t ∈ dom (lmem s)) /\
    map_Forall (fun l _ => elem_of_thread t <> head l /\ elem_of_thread t <> tail l) L /\
    (t = cur s \/ placed_check s L t (status th) /\
       frames th !! stack th = Some (switch_threads_frame in_schedule)) /\
    (t = initial_thread s \/ kernel_page_check s t = true)) (threads s);
  set_current : status <$> threads s !! cur s = Some THREAD_RUNNING;
  set_idle : idle_thread s ∈ dom (threads s) /\ idle_thread s <> initial_thread s;
  set_external : in_external_intr s = false;
  set_lists_ok : map_Forall (fun l xs => dll (lmem s) l xs /\ Forall (elem_check s l) xs /\
    map_Forall (fun l' xs' => l = l' \/ Forall (fun a => a ∉ nodes l' xs') (nodes l xs)) L) L;
  set_queues : is_Some (L !! ready_list) /\ is_Some (L !! block_list) /\ block_list <> ready_list;
  set_semas_ok : map_Forall (fun sa v => sa <> NULL /\ (0 <= v < 2 ^ 32) /\
    is_Some (L !! waiters sa) /\ waiters sa <> ready_list) (semas s);
  set_locks_ok : map_Forall (fun l h => l <> NULL /\ h = NULL /\
    semas s !! lock_semaphore l = Some 1) (locks s);
  set_static : is_Some (locks s !! tid_lock) /\ is_Some (locks s !! kernel_pool_lock) /\
    set_Forall (fun sa => is_Some (semas s !! sa) /\ locks s !! (sa - 4) = None) program_semas /\
    set_Forall (fun l => is_Some (locks s !! l)) program_locks;
  set_pools : pools_wf (memory s);
  set_pool : map_Forall (fun a _ => ~ in_pool s a \/ thread_of_elem a ∈ dom (threads s)) (lmem s) /\
    map_Forall (fun a _ => ~ in_pool s a) (semas s) /\
    map_Forall (fun a _ => ~ in_pool s a) (locks s) /\ ~ in_pool s (initial_thread s) }.

Lemma settled_lists s L : settled s L -> lists_ok (lmem s) L.
Proof.
  intros R. split.
  - intros l xs E. by destruct (set_lists_ok _ _ R l xs E) as (? & _).
  - intros l1 l2 xs1 xs2 a E1 E2 H1 H2. destruct (set_lists_ok _ _ R l1 xs1 E1) as (_ & _ & Hd).
    destruct (Hd l2 xs2 E2) as [?|Hf]; [done|]. rewrite Forall_forall in Hf. by destruct (Hf a H1).
Qed.

Lemma elem_thread_of_elem e : e = elem_of_thread (thread_of_elem e).
Proof. unfold elem_of_thread, thread_of_elem. lia. Qed.

Lemma kinv_settled fn_ok s L : settled s L -> kinv fn_ok s (mk_ghost L ∅ ∅).
Proof.
  intros R. pose proof (set_current _ _ R) as Hcur.
  destruct (threads s !! cur s) as [thc|] eqn:Ec; [|done]. injection Hcur as Hcur.
  split_and!; [|apply R|by exists thc].
  split; cbn [lists owner private]; rewrite ?lookup_empty; try done.
  - by apply settled_lists.
  - apply R.
  - split; apply (set_queues _ _ R).
  - apply R.
  - intros l xs e E He. destruct (set_lists_ok _ _ R l xs E) as (_ & Hf & _).
    rewrite Forall_forall in Hf. destruct (Hf e He) as (? & ? & Hst).
    destruct (threads s !! thread_of_elem e) as [th|] eqn:Et; [|done]. injection Hst as Hst.
    exists (thread_of_elem e), th. rewrite lookup_empty. split_and!; try done; [apply elem_thread_of_elem|congruence].
  - intros t th E. by destruct (set_threads_ok _ _ R t th E) as (? & _).
  - intros l xs t E [th Et]. destruct (set_threads_ok _ _ R t th Et) as (_ & Hh & _). by eapply Hh.
  - intros t th E Hc _. destruct (set_threads_ok _ _ R t th E) as (_ & _ & [->|[? _]] & _); [done|].
    by apply placed_check_ok.
  - intros t th E Hc _. destruct (set_threads_ok _ _ R t th E) as (_ & _ & [->|[_ ?]] & _); [done|]. by left.
  - intros t [= <-]. split; [done|]. exists thc. by rewrite Hcur.
  - destruct (set_idle _ _ R) as [[thi Ei]%elem_of_dom Hni]. split_and!; [done|done|]. exists thi. split; [done|].
    destruct (set_threads_ok _ _ R _ thi Ei) as (_ & _ & [?|[_ ?]] & _); auto.
  - intros l h E. destruct (set_locks_ok _ _ R l h E) as (? & -> & ?). split; [done|]. exists 1. by rewrite lookup_empty.
  - destruct (set_static _ _ R) as (? & ? & Hs & Hl). split_and!; try done.
    intros sa Hsa. destruct (Hs sa Hsa) as [? Hn]. split; [done|]. intros l <-.
    replace (lock_semaphore l - 4) with l in Hn by (unfold lock_semaphore; lia). done.
  - apply R.
  - intros t [th E] Hn. destruct (set_threads_ok _ _ R t th E) as (_ & _ & _ & [?|?]); [done|].
    by apply kernel_page_check_ok.
  - intros a Ha. destruct (set_pool _ _ R) as (Hp & Hps & Hpl & _). split_and!.
    + intros [e He]%elem_of_dom. destruct (Hp a e He) as [?|Hd]; [done|].
      exists (thread_of_elem a). split; [by apply elem_of_dom|apply elem_thread_of_elem].
    + apply eq_None_not_Some. intros [v Hv]. by apply (Hps a v).
    + apply eq_None_not_Some. intros [v Hv]. by apply (Hpl a v).
  - apply (set_pool _ _ R).
Qed.

(** Right after boot only the first thread and the idle thread exist. *)
Lemma booted_settled fn_ok p mc L : settled (ks mc) L ->
  dom (threads (ks mc)) = {[cur (ks mc); idle_thread (ks mc)]} ->
  cur (ks mc) <> idle_thread (ks mc) ->
  run mc = (interp p ⨾ thread_exit) ->
  suspended mc !! idle_thread (ks mc) = Some idle_resume ->
  booted fn_ok p (mk_ghost L ∅ ∅) mc.
Proof.
  intros R Hdom Hne Hrun Hs. split; [by apply kinv_settled|done|done|done|].
  intros t th E%elem_of_dom_2 Hc _. rewrite Hdom in E.
  apply elem_of_union in E as [->%elem_of_singleton | ->%elem_of_singleton]; done.
Qed.
End settled.

(** ** An image, its programs and their boot *)

Module Demo.

#[global] Instance image : Image := {|
  ready_list := 0xc0020000;
  block_list := 0xc0020020;
  tid_lock := 0xc0020040;
  kernel_pool_lock := 0xc0020060;
  user_pool_lock := 0xc0020080;
  idle_function := 0xc0008000;
  program_semas := {[ 0xc00200a0 ]};
  program_locks := {[ 0xc00200c0 ]} |}.

Definition done : Z := 0xc00200a0.
Definition lock : Z := 0xc00200c0.
Definition worker_function : Z := 0xc0009000.

(** A worker enters a critical section, yields inside it, leaves it, and
    reports that it is done; it tries the lock before it waits for it. *)
Definition worker : prog :=
  Call (Lock_try_acquire lock) (fun r =>
  let rest := Call Yield (fun _ => Call (Lock_release lock) (fun _ =>
    Call (Sema_up done) (fun _ => Done))) in
  if r =? 1 then rest else Call (Lock_acquire lock) (fun _ => rest)).

Definition code (f aux : Z) : prog := worker.
Definition good_fn (f : Z) : Prop := f = worker_function.

(** The first thread starts two workers and waits for both. *)
Definition main : prog :=
  Call (Create [119; 49] 40 worker_function 1) (fun t1 =>
  Call (Create [119; 50] 20 worker_function 2) (fun t2 =>
  Call (Set_priority 10) (fun _ =>
  Call (Sema_down done) (fun _ =>
  Call (Sema_down done) (fun _ => Done))))).

#[global] Instance program : Program := KClient.program code.

(** The static lists are there, with any content; the boot stack is in the
    page at 0xc000e000. *)
Definition statics : list Z :=
  [ready_list; block_list; waiters (lock_semaphore tid_lock);
   waiters (lock_semaphore kernel_pool_lock); waiters (lock_semaphore user_pool_lock);
   waiters done; waiters (lock_semaphore lock)].

Definition loaded : kstate := mk_kstate
  (list_to_map (concat (map (fun l => [(head l, mk_elem 0 0); (tail l, mk_elem 0 0)]) statics)))
  ∅ ∅ ∅ 0xc000e000 INTR_OFF false false 0 0 1 0 0 0 0
  (mk_pools (mk_pool 0 (mk_bitmap 0 [])) (mk_pool 0 (mk_bitmap 0 []))).

Definition entry : comp unit :=
  start_kernel 48 0xc0020400 1000 (fun _ => replicate 1024 0)
    (sema_init done 0;; lock_init lock) 0xc000ef00 ⨾
  interp main ⨾ thread_exit.

(** The machine after boot, when no interrupt comes. *)
Definition boot_steps : nat := 59.
Definition power_on : machine := mk_machine loaded entry ∅.

Definition after_boot : machine := default power_on (advance_n boot_steps power_on).

Definition no_waiters : gmap Z (list Z) :=
  list_to_map (map (fun l => (l, [])) (waiters 0xc000ef00 :: statics)).

Lemma boot_runs : advance_n boot_steps power_on = Some after_boot.
Proof.
  unfold after_boot. destruct (advance_n boot_steps power_on) eqn:E; [done|].
  exfalso. assert (Hs : bool_decide (is_Some (advance_n boot_steps power_on)) = true) by (by vm_compute).
  rewrite E in Hs. done.
Qed.

Lemma boot_settled : settled (ks after_boot) no_waiters.
Proof. split; decide_closed. Qed.

Lemma boot_run : run after_boot = (interp main ⨾ thread_exit).
Proof. reflexivity. Qed.

Lemma boot_suspended : suspended after_boot !! idle_thread (ks after_boot) = Some idle_resume.
Proof. reflexivity. Qed.

Lemma boot_two : dom (threads (ks after_boot)) =
    {[cur (ks after_boot); idle_thread (ks after_boot)]} /\
  cur (ks after_boot) <> idle_thread (ks after_boot).
Proof. decide_closed. Qed.

Lemma demo_booted : booted good_fn main (mk_ghost no_waiters ∅ ∅) after_boot.
Proof.
  exact (booted_settled good_fn main _ _ boot_settled (proj1 boot_two) (proj2 boot_two)
    boot_run boot_suspended).
Qed.

(** The discipline is a conjunction of closed facts about sets of locks. *)
Ltac good_steps := repeat first
  [ progress cbn [good good_call Z.eqb Pos.eqb]
  | match goal with |- forall _ : Z, _ => intros _ end
  | match goal with |- good_fn _ => reflexivity end
  | match goal with |- _ /\ _ => split end
  | decide_closed ].

Lemma worker_good : good good_fn worker ∅.
Proof. unfold worker. good_steps. Qed.

Lemma demo_disciplined : disciplined code good_fn.
Proof. split; [split; decide_closed|]. intros f aux _. apply worker_good. Qed.

Lemma main_good : good good_fn main ∅.
Proof. unfold main. good_steps. Qed.
End Demo.

(** * Theorems on the threads package *)

(** ** Safety, for every interleaving *)

(** C2: when every thread keeps to the locking discipline, no machine
    reachable after boot, whenever timer interrupts come and whatever stack
    pointers are saved, is about to fail: no assertion of thread.c, synch.c,
    palloc.c, interrupt.c, timer.c, list.c or bitmap.c fires, memory is
    accessed only where there is an object, and every context switch goes to a
    thread that can be resumed. *)
Theorem no_assertion_fails `{Image} code good_fn p g (m m' : machine) :
  disciplined code good_fn -> good good_fn p ∅ -> booted good_fn p g m ->
  rtc (@step _ (program code)) m m' -> ~ @fails _ (program code) m'.
Proof.
  intros Hd Hp Hb Hr. apply (config_ok_safe good_fn 0).
  exact (reachable_ok code good_fn p g m m' 1 Hd Hp Hb Hr).
Qed.


(** C11: in every such machine, whenever interrupts are on, the semaphore of a
    lock is 0 or 1, a lock whose semaphore is 1 has no holder, and the holder
    of a lock is a thread: with lock_release()'s assertion, which C12 shows
    never fails, no other thread has taken a lock before its holder
    releases it. *)
Theorem locks_stay_consistent `{Image} code good_fn p g (m m' : machine) :
  disciplined code good_fn -> good good_fn p ∅ -> booted good_fn p g m ->
  rtc (@step _ (program code)) m m' -> intr (ks m') = INTR_ON ->
  locks_consistent (ks m').
Proof.
  intros Hd Hp Hb Hr Hi.
  destruct (config_ok_kinv good_fn 0 m') as [g' K]; [|done|].
  { exact (reachable_ok code good_fn p g m m' 1 Hd Hp Hb Hr). }
  by eapply kinv_locks.
Qed.

(** The demonstration image some steps, a timer interrupt and a spurious one
    after boot: one worker runs in its critical section, the other waits for
    the lock. *)
Definition busy : machine :=
  played [Steps 40; Irq 0x20 0; Steps 10; Irq 0x27 0; Steps 36] Demo.after_boot.

Lemma busy_reached : rtc (@step _ (program Demo.code)) Demo.after_boot busy.
Proof. apply played_steps. vm_compute. reflexivity. Qed.

Lemma busy_on : intr (ks busy) = INTR_ON.
Proof. vm_compute. reflexivity. Qed.

Lemma no_assertion_fails_witness : ~ @fails _ (program Demo.code) busy.
Proof.
  exact (no_assertion_fails Demo.code Demo.good_fn Demo.main _ Demo.after_boot busy
    Demo.demo_disciplined Demo.main_good Demo.demo_booted busy_reached).
Defined.


Lemma locks_stay_consistent_witness :
  locks_consistent (ks busy) /\ locks (ks busy) !! Demo.lock = Some 0xc0023000.
Proof.
  split; [|vm_compute; reflexivity].
  exact (locks_stay_consistent Demo.code Demo.good_fn Demo.main _ Demo.after_boot busy
    Demo.demo_disciplined Demo.main_good Demo.demo_booted busy_reached busy_on).
Defined.

(** ** Round robin *)

(** The thread that the running code is about to switch to. *)
Definition switch_target (m : machine) : option Z :=
  match run m with Switch next _ => Some next | _ => None end.

(** One step of code whose behaviour [Q] describes. *)
Lemma advance_prim `{Image} `{Program} (X : Set) (p : M kstate X) (k : X -> comp unit) s susp sp Q :
  wp p Q s -> exists x s', advance sp (mk_machine s (Prim p k) susp) =
    Some (mk_machine s' (k x) susp) /\ Q x s'.
Proof.
  intros (x & s' & E & HQ)%wp_ok. exists x, s'. split; [|done]. unfold advance. cbn [run ks suspended].
  by rewrite E.
Qed.

(** What schedule_next() does after the running thread has been requeued. *)
Lemma wp_requeued_next `{Image} fn_ok s1 g1 th1 t rl (Q : Z * Z -> kstate -> Prop) :
  kbase fn_ok None None s1 g1 -> intr s1 = INTR_OFF -> threads s1 !! cur s1 = Some th1 ->
  status th1 = THREAD_READY -> lists g1 !! ready_list = Some (elem_of_thread t :: rl) ->
  (forall s2, dll (lmem s2) ready_list rl -> threads s2 = threads s1 -> intr s2 = INTR_OFF ->
     Q (cur s1, t) s2) -> wp schedule_next Q s1.
Proof.
  intros B I Et Hst Er HQ. eapply wp_schedule_next; [done..|by rewrite Hst|].
  intros next s2 g2 Hp B2 _ _ Et2 I2 _. unfold picked in Hp. rewrite Er in Hp. destruct Hp as [-> HL].
  replace (thread_of_elem (elem_of_thread t)) with t by (unfold thread_of_elem, elem_of_thread; lia).
  apply HQ; try done. eapply lists_dll; [apply (kb_lists _ _ _ _ _ B2)|]. by rewrite HL, lookup_insert_eq.
Qed.


(** ** The timer *)


(** Threads that sleep: [aux] is the number of ticks. *)
Definition sleepy : Program := {| func := fun _ aux => timer_sleep aux |}.

Definition start_demo (c : comp unit) : machine := mk_machine Demo.loaded
  (start_kernel 48 0xc0020400 1000 (fun _ => replicate 1024 0)
    (sema_init Demo.done 0;; lock_init Demo.lock) 0xc000ef00 ⨾ c) ∅.

(** A thread of priority 40 goes to sleep for 30 ticks, one of priority 20
    for 3, while the first thread spins. *)
Definition two_sleepers : machine := start_demo (
  thread_create [97] 40 Demo.worker_function 30 ⨾
  thread_create [98] 20 Demo.worker_function 3 ⨾
  thread_yield ⨾
  While (ret true) (prim (ret tt)) (Ret tt)).

Definition high_sleeper : Z := 0xc0023000.
Definition low_sleeper : Z := 0xc0024000.

(** Their state at tick 5, in the handler of the timer interrupt. *)
Definition at_tick_5 : kstate :=
  set_ticks 5 (set_intr INTR_OFF (ks (@played _ sleepy [Steps 140] two_sleepers))).


(** The status and the wake-up time of a thread. *)
Definition sleep_state (s : kstate) (t : Z) : option (thread_status * Z) :=
  (fun th => (status th, block_end_tick th)) <$> threads s !! t.

Definition asleep : machine := @played _ sleepy [Steps 140] two_sleepers.
Definition five_ticks : list event :=
  [Irq 0x20 0; Steps 4; Irq 0x20 0; Steps 4; Irq 0x20 0; Steps 4; Irq 0x20 0; Steps 12;
   Irq 0x20 0; Steps 4].
Definition overslept : machine := @played _ sleepy five_ticks asleep.

Lemma asleep_reached : rtc (@step _ sleepy) two_sleepers asleep.
Proof. apply played_steps. vm_compute. reflexivity. Qed.

Lemma overslept_reached : rtc (@step _ sleepy) asleep overslept.
Proof. apply played_steps. vm_compute. reflexivity. Qed.

(** a thread can sleep much longer than it asked for: here one that calls
    timer_sleep (3) at tick 0 still sleeps at tick 5, and will until tick 40,
    because a thread of higher priority sleeps until tick 30. *)
Theorem timer_oversleeps : exists m m',
  rtc (@step _ sleepy) two_sleepers m /\ rtc (@step _ sleepy) m m' /\
  ticks (ks m) = 0 /\ sleep_state (ks m) low_sleeper = Some (THREAD_BLOCKED, 3) /\
  ticks (ks m') = 5 /\ sleep_state (ks m') low_sleeper = Some (THREAD_BLOCKED, 40).
Proof.
  exists asleep, overslept. split; [exact asleep_reached|]. split; [exact overslept_reached|].
  decide_closed.
Qed.

Definition racing : machine := start_demo (timer_sleep 10 ⨾ thread_exit).
Definition raced : machine := @played _ sleepy
  [Steps 63; Irq 0x20 0; Steps 4; Irq 0x20 0; Steps 4; Irq 0x20 0; Steps 4;
   Irq 0x20 0; Steps 8; Steps 6; Irq 0x20 0; Steps 1] racing.

Lemma raced_reached : rtc (@step _ sleepy) racing raced.
Proof. apply played_steps. vm_compute. reflexivity. Qed.


(** The same threads when the one that was due is ready. *)
Definition one_ready : kstate :=
  match wake_sleepers at_tick_5 with Ok (_, s) => s | Err _ => at_tick_5 end.

