(* ===== verification/Bytes.v ===== *)
(** * Memory as bytes

    A memory maps addresses to bytes, [unsigned char] values; addresses that
    hold no object are not in its domain, and an access to one fails.  Blocks,
    null-terminated strings, and the loops that walk over them. *)

From Stdlib Require Import ZArith Lia.
From stdpp Require Import base numbers gmap list.
From S2P Require Import Prelude.

Open Scope Z_scope.

Abbreviation bytes := (gmap Z Z).

Definition load8 (p : Z) : M bytes Z := b ← get; of_option BadAccess (b !! p).
Definition store8 (p v : Z) : M bytes unit := load8 p;; modify (fun b => <[p := u8 v]> b).

(** A loop whose every round looks at another byte of a string. *)
Definition sloop {A B} (body : A -> M bytes (A + B)) (a : A) : M bytes B :=
  b ← get; iterate (S (S (size b))) body a.

(** ** Blocks and strings *)

Fixpoint block (b : bytes) (p : Z) (bs : list Z) : Prop :=
  match bs with
  | [] => True
  | x :: bs => b !! p = Some x /\ block b (p + 1) bs
  end.

#[global] Instance block_dec b p bs : Decision (block b p bs).
Proof. revert p. induction bs; intros p; cbn; apply _. Defined.

(** A null-terminated string. *)
Definition cstr (b : bytes) (p : Z) (cs : list Z) : Prop :=
  block b p (cs ++ [0]) /\ Forall (fun c => 0 < c < 256) cs /\ 0 < p.

#[global] Instance cstr_dec b p cs : Decision (cstr b p cs).
Proof. unfold cstr. apply _. Defined.

(** Storing a list of bytes. *)
Fixpoint write (b : bytes) (p : Z) (bs : list Z) : bytes :=
  match bs with
  | [] => b
  | x :: bs => <[p := x]> (write b (p + 1) bs)
  end.

(** The addresses [p .. p + n - 1] hold bytes. *)
Definition mapped (b : bytes) (p : Z) (n : nat) : Prop :=
  forall i, 0 <= i < Z.of_nat n -> is_Some (b !! (p + i)).

(** ** Lemmas *)

Lemma block_lookup b p bs :
  block b p bs <-> forall i x, bs !! i = Some x -> b !! (p + Z.of_nat i) = Some x.
Proof.
  revert p. induction bs as [|y bs IH]; intros p; cbn [block].
  - split; [|done]. intros _ i x. by rewrite lookup_nil.
  - rewrite IH. split.
    + intros [E Hr] [|i] x; cbn; [intros [= <-]; by rewrite Z.add_0_r|].
      intros Hx. rewrite <- (Hr i x Hx). f_equal. lia.
    + intros Hall. split; [rewrite <- (Hall 0%nat y) by done; f_equal; lia|].
      intros i x Hx. rewrite <- (Hall (S i) x) by done. f_equal. lia.
Qed.

Lemma block_app b p bs1 bs2 :
  block b p (bs1 ++ bs2) <-> block b p bs1 /\ block b (p + Z.of_nat (length bs1)) bs2.
Proof.
  revert p. induction bs1 as [|x bs1 IH]; intros p; cbn [block app length].
  - rewrite Z.add_0_r. tauto.
  - rewrite IH. replace (p + 1 + Z.of_nat (length bs1)) with (p + Z.of_nat (S (length bs1))) by lia. tauto.
Qed.

Lemma block_mapped b p bs : block b p bs -> mapped b p (length bs).
Proof.
  intros Hb i Hi. destruct (lookup_lt_is_Some_2 bs (Z.to_nat i)) as [x Hx]; [lia|].
  exists x. rewrite <- (proj1 (block_lookup b p bs) Hb _ _ Hx). f_equal. lia.
Qed.

(** Memories that agree on a range. *)
Lemma block_agree b b' p bs :
  (forall i, 0 <= i < Z.of_nat (length bs) -> b' !! (p + i) = b !! (p + i)) ->
  block b p bs -> block b' p bs.
Proof.
  intros Ha. rewrite !block_lookup. intros Hb i x Hx.
  rewrite Ha; [by apply Hb|]. apply lookup_lt_Some in Hx. lia.
Qed.

Lemma lookup_write b p bs a : write b p bs !! a =
  if decide (p <= a < p + Z.of_nat (length bs)) then bs !! Z.to_nat (a - p) else b !! a.
Proof.
  revert p. induction bs as [|x bs IH]; intros p; cbn [write length].
  - rewrite decide_False by lia. done.
  - destruct (decide (a = p)) as [->|Hne].
    + rewrite lookup_insert_eq, decide_True by lia. by rewrite Z.sub_diag.
    + rewrite lookup_insert_ne, IH by done.
      destruct (decide (p + 1 <= a < p + 1 + Z.of_nat (length bs))).
      * rewrite decide_True by lia. replace (Z.to_nat (a - p)) with (S (Z.to_nat (a - (p + 1)))) by lia. done.
      * by rewrite decide_False by lia.
Qed.

Lemma block_write b p bs : block (write b p bs) p bs.
Proof.
  apply block_lookup. intros i x Hx. pose proof (lookup_lt_Some _ _ _ Hx).
  rewrite lookup_write, decide_True by lia. rewrite <- Hx. f_equal. lia.
Qed.

Lemma write_app b p bs1 bs2 :
  write b p (bs1 ++ bs2) = write (write b (p + Z.of_nat (length bs1)) bs2) p bs1.
Proof.
  revert p. induction bs1 as [|x bs1 IH]; intros p; cbn [write app length].
  - by rewrite Z.add_0_r.
  - rewrite IH. do 3 f_equal. lia.
Qed.

(** One more byte at the end of what has been written. *)
Lemma write_snoc b p bs x : write b p (bs ++ [x]) = <[p + Z.of_nat (length bs) := x]> (write b p bs).
Proof.
  apply map_eq. intros a. rewrite lookup_write, length_app. cbn [length].
  destruct (decide (a = p + Z.of_nat (length bs))) as [->|Hne].
  - rewrite lookup_insert_eq, decide_True by lia. rewrite lookup_app_r by lia.
    by replace (Z.to_nat (p + Z.of_nat (length bs) - p) - length bs)%nat with 0%nat by lia.
  - rewrite lookup_insert_ne, lookup_write by done.
    destruct (decide (p <= a < p + Z.of_nat (length bs))).
    + rewrite decide_True by lia. by rewrite lookup_app_l by lia.
    + by rewrite decide_False by lia.
Qed.

(** Bytes that are there already. *)
Lemma write_block b p bs : block b p bs -> write b p bs = b.
Proof.
  revert p. induction bs as [|x bs IH]; intros p; cbn [block write]; [done|].
  intros [E Hb]. rewrite IH by done. by apply insert_id.
Qed.

(** A block takes that many addresses of the memory. *)
Lemma block_size b p bs : block b p bs -> (length bs <= size b)%nat.
Proof.
  revert b p. induction bs as [|x bs IH]; intros b p; cbn [block length]; [lia|].
  intros [E Hb]. rewrite <- (insert_delete_id b p x E), map_size_insert_None by apply lookup_delete_eq.
  apply le_n_S, (IH _ (p + 1)). eapply block_agree; [|exact Hb]. intros i Hi.
  rewrite lookup_delete_ne by lia. done.
Qed.

Lemma wp_load8 b p x (Q : Z -> bytes -> Prop) : b !! p = Some x -> Q x b -> wp (load8 p) Q b.
Proof. intros E HQ. unfold load8, wp, bind, get. by rewrite E. Qed.

Lemma wp_store8 b p v (Q : unit -> bytes -> Prop) :
  is_Some (b !! p) -> Q tt (<[p := u8 v]> b) -> wp (store8 p v) Q b.
Proof. intros [x E] HQ. unfold store8. apply wp_bind. by eapply wp_load8. Qed.

(** ** Strings *)

Lemma cstr_lookup b p cs i c : cstr b p cs -> (cs ++ [0]) !! i = Some c -> b !! (p + Z.of_nat i) = Some c.
Proof. intros [Hb _]. by apply block_lookup. Qed.

Lemma cstr_zero cs i c : Forall (fun c => 0 < c < 256) cs -> (cs ++ [0]) !! i = Some c ->
  (c = 0 <-> i = length cs).
Proof.
  intros Hnz Hc. rewrite Forall_lookup in Hnz. destruct (decide (i < length cs)%nat) as [Hi|Hi].
  - rewrite lookup_app_l in Hc by done. specialize (Hnz i c Hc). lia.
  - pose proof (lookup_lt_Some _ _ _ Hc) as Hl. rewrite length_app in Hl. cbn in Hl.
    rewrite lookup_app_r in Hc by lia. replace (i - length cs)%nat with 0%nat in Hc by lia.
    injection Hc as <-. lia.
Qed.

Lemma cstr_agree b b' p cs :
  (forall i, 0 <= i <= Z.of_nat (length cs) -> b' !! (p + i) = b !! (p + i)) ->
  cstr b p cs -> cstr b' p cs.
Proof.
  intros Ha (Hb & Hn & Hp). split_and!; [|done|done]. eapply block_agree; [|exact Hb].
  rewrite length_app. cbn. intros i Hi. apply Ha. lia.
Qed.

Lemma cstr_byte cs i c : Forall (fun c => 0 < c < 256) cs -> (cs ++ [0]) !! i = Some c -> in_u 8 c.
Proof.
  intros Hn Hc. unfold in_u. destruct (decide (i < length cs)%nat) as [Hi|Hi].
  - rewrite lookup_app_l in Hc by done. rewrite Forall_lookup in Hn. pose proof (Hn i c Hc). lia.
  - pose proof (lookup_lt_Some _ _ _ Hc) as Hl. rewrite length_app in Hl. cbn in Hl.
    rewrite (proj2 (cstr_zero cs i c Hn Hc)) by lia. lia.
Qed.

(** The suffix of a string is a string. *)
Lemma cstr_drop b p cs k : cstr b p cs -> (k <= length cs)%nat ->
  cstr b (p + Z.of_nat k) (drop k cs).
Proof.
  intros (Hb & Hn & Hp) Hk. split_and!; [|by apply Forall_drop|lia].
  rewrite <- (take_drop k cs), <- app_assoc, block_app in Hb. destruct Hb as [_ Hb].
  rewrite length_take in Hb. by replace (k `min` length cs)%nat with k in Hb by lia.
Qed.

(** A walk along a string: [body] is entered at index [i] after all earlier
    indices have been passed, and either goes on to the next one, which it
    never does at the terminator, or leaves the loop. *)
Lemma wp_walk {B} b p cs (I : nat -> Prop) (body : Z -> M bytes (Z + B)) (Q : B -> bytes -> Prop) :
  cstr b p cs -> I 0%nat ->
  (forall i c, (cs ++ [0]) !! i = Some c -> b !! (p + Z.of_nat i) = Some c -> (c = 0 <-> i = length cs) -> I i ->
     wp (body (Z.of_nat i)) (fun r b' => match r with
       | inl j => b' = b /\ j = Z.of_nat i + 1 /\ c <> 0 /\ I (S i)
       | inr x => Q x b' end) b) ->
  wp (sloop body 0) Q b.
Proof.
  intros Hc H0 Hb. unfold sloop. apply wp_bind. red. cbn [get].
  pose proof Hc as (Hbl & Hnz & _). apply block_size in Hbl as Hsz. rewrite length_app in Hsz. cbn in Hsz.
  unshelve eapply (wp_iterate (fun n a b' => b' = b /\ exists i, a = Z.of_nat i /\ I i /\ (n + i = length cs)%nat)
    body Q _ _ (length cs)); [| |lia].
  2:{ split; [done|]. exists 0%nat. split_and!; [done|done|lia]. }
  intros n a b' (-> & i & -> & Hi & Hn).
  destruct (lookup_lt_is_Some_2 (cs ++ [0]) i) as [c Ec]; [rewrite length_app; cbn; lia|].
  eapply wp_mono; [eapply Hb; [done|by eapply cstr_lookup|by apply cstr_zero|done]|].
  intros [j|x] b2; [|done]. intros (-> & -> & Hne & HI).
  assert (i <> length cs) by (intros ->; apply Hne; by apply (cstr_zero cs (length cs))).
  exists (n - 1)%nat. split; [lia|]. split; [done|]. exists (S i). split_and!; [lia|done|lia].
Qed.
