(* ===== verification/StrLib.v ===== *)
(** * lib/string.c: blocks and strings

    The functions of lib/string.c on the byte memory of Bytes.  Characters are
    bytes; a [char] converted from [int] is its low byte.  The theorems relate
    each function to the plain operation on lists that its comment describes. *)

From Stdlib Require Import ZArith Lia.
From stdpp Require Import base numbers gmap list.
From S2P Require Import Prelude Bytes.

Open Scope Z_scope.

(** ** The functions *)

(** [ASSERT (p != NULL || size == 0)]. *)
Definition block_arg (p size : Z) : M bytes unit := ASSERT (negb (p =? NULL) || (size =? 0)).

Definition memcpy (dst src size : Z) : M bytes Z :=
  block_arg dst size;;
  block_arg src size;;
  for_from (Z.to_nat size) 0 (fun i => c ← load8 (src + i); store8 (dst + i) c);;
  ret dst.

(** The result is the variable that the loop has advanced. *)
Definition memmove (dst src size : Z) : M bytes Z :=
  block_arg dst size;;
  block_arg src size;;
  if dst <? src then
    for_from (Z.to_nat size) 0 (fun i => c ← load8 (src + i); store8 (dst + i) c);;
    ret (dst + size)
  else
    for_from (Z.to_nat size) 0 (fun i =>
      c ← load8 (src + size - 1 - i); store8 (dst + size - 1 - i) c);;
    ret dst.

Definition memcmp (a b size : Z) : M bytes Z :=
  block_arg a size;;
  block_arg b size;;
  r ← find_from (Z.to_nat size) 0 (fun i =>
    x ← load8 (a + i);
    y ← load8 (b + i);
    ret (if x =? y then None else Some (if y <? x then 1 else -1)));
  ret (default 0 r).

Definition strcmp (a b : Z) : M bytes Z :=
  ASSERT (negb (a =? NULL));;
  ASSERT (negb (b =? NULL));;
  i ← sloop (fun i =>
    x ← load8 (a + i);
    if x =? 0 then ret (inr i) else
    y ← load8 (b + i);
    ret (if x =? y then inl (i + 1) else inr i)) 0;
  x ← load8 (a + i);
  y ← load8 (b + i);
  ret (if x <? y then -1 else if y <? x then 1 else 0).

Definition memchr (block ch size : Z) : M bytes Z :=
  block_arg block size;;
  r ← find_from (Z.to_nat size) 0 (fun i =>
    x ← load8 (block + i); ret (if x =? u8 ch then Some (block + i) else None));
  ret (default NULL r).

Definition strchr (string c : Z) : M bytes Z :=
  ASSERT (negb (string =? NULL));;
  sloop (fun i =>
    x ← load8 (string + i);
    ret (if x =? u8 c then inr (string + i)
         else if x =? 0 then inr NULL
         else inl (i + 1))) 0.

Definition strcspn (string stop : Z) : M bytes Z :=
  sloop (fun length =>
    x ← load8 (string + length);
    if x =? 0 then ret (inr length) else
    p ← strchr stop x;
    ret (if negb (p =? NULL) then inr length else inl (length + 1))) 0.

Definition strpbrk (string stop : Z) : M bytes Z :=
  sloop (fun i =>
    x ← load8 (string + i);
    if x =? 0 then ret (inr NULL) else
    p ← strchr stop x;
    ret (if negb (p =? NULL) then inr (string + i) else inl (i + 1))) 0.

(** The loop state is the index and the pointer found so far. *)
Definition strrchr (string c : Z) : M bytes Z :=
  sloop (fun ip =>
    let '(i, p) := ip in
    x ← load8 (string + i);
    ret (if x =? 0 then inr p
         else inl (i + 1, if x =? u8 c then string + i else p))) (0, NULL).

Definition strspn (string skip : Z) : M bytes Z :=
  sloop (fun length =>
    x ← load8 (string + length);
    if x =? 0 then ret (inr length) else
    p ← strchr skip x;
    ret (if p =? NULL then inr length else inl (length + 1))) 0.

Definition strlen (string : Z) : M bytes Z :=
  ASSERT (negb (string =? NULL));;
  sloop (fun i => x ← load8 (string + i); ret (if x =? 0 then inr i else inl (i + 1))) 0.

Definition strstr (haystack needle : Z) : M bytes Z :=
  haystack_len ← strlen haystack;
  needle_len ← strlen needle;
  if needle_len <=? haystack_len then
    r ← find_from (Z.to_nat (haystack_len - needle_len + 1)) 0 (fun i =>
      d ← memcmp (haystack + i) needle needle_len;
      ret (if d =? 0 then Some (haystack + i) else None));
    ret (default NULL r)
  else ret NULL.

(** [save] is the content of [*save_ptr]; the result is the token and the new
    content. *)
Definition strtok_r (s delimiters save : Z) : M bytes (Z * Z) :=
  ASSERT (negb (delimiters =? NULL));;
  let s := if s =? NULL then save else s in
  ASSERT (negb (s =? NULL));;
  skipped ← sloop (fun i =>
    x ← load8 (s + i);
    p ← strchr delimiters x;
    ret (if p =? NULL then inr (s + i, true)
         else if x =? 0 then inr (s + i, false)
         else inl (i + 1))) 0;
  if negb skipped.2 then ret (NULL, skipped.1) else
  let token := skipped.1 in
  e ← sloop (fun i =>
    x ← load8 (token + i);
    p ← strchr delimiters x;
    ret (if p =? NULL then inl (i + 1) else inr (token + i))) 0;
  x ← load8 e;
  if negb (x =? 0) then store8 e 0;; ret (token, e + 1) else ret (token, e).

Definition memset (dst value size : Z) : M bytes Z :=
  block_arg dst size;;
  for_from (Z.to_nat size) 0 (fun i => store8 (dst + i) value);;
  ret dst.

Definition strnlen (string maxlen : Z) : M bytes Z :=
  sloop (fun length =>
    x ← load8 (string + length);
    ret (if negb (x =? 0) && (length <? maxlen) then inl (length + 1) else inr length)) 0.

Definition strlcpy (dst src size : Z) : M bytes Z :=
  ASSERT (negb (dst =? NULL));;
  ASSERT (negb (src =? NULL));;
  src_len ← strlen src;
  (if 0 <? size then
     let dst_len := if src_len <? size - 1 then src_len else size - 1 in
     memcpy dst src dst_len;;
     store8 (dst + dst_len) 0
   else ret tt);;
  ret src_len.

Definition strlcat (dst src size : Z) : M bytes Z :=
  ASSERT (negb (dst =? NULL));;
  ASSERT (negb (src =? NULL));;
  src_len ← strlen src;
  dst_len ← strlen dst;
  (if (0 <? size) && (dst_len <? size) then
     let copy_cnt := if src_len <? size - dst_len - 1 then src_len else size - dst_len - 1 in
     memcpy (dst + dst_len) src copy_cnt;;
     store8 (dst + (dst_len + copy_cnt)) 0
   else ret tt);;
  ret (u32 (src_len + dst_len)).

(** ** What the searches find *)

Lemma nonnull p : 0 < p -> negb (p =? NULL) = true.
Proof. intros H. apply negb_true_iff, Z.eqb_neq. unfold NULL. lia. Qed.

Lemma wp_strlen b p cs (Q : Z -> bytes -> Prop) :
  cstr b p cs -> Q (Z.of_nat (length cs)) b -> wp (strlen p) Q b.
Proof.
  intros Hc HQ. unfold strlen. apply wp_bind, wp_assertb; [apply nonnull, Hc|].
  eapply (wp_walk b p cs (fun _ => True)); [done..|]. intros i c Ec Hl Hz _.
  apply wp_bind. eapply wp_load8; [done|]. apply wp_ret. destruct (Z.eqb_spec c 0) as [E|E].
  - rewrite (proj1 Hz E). done.
  - done.
Qed.

(** The first index of a list at which [f] holds. *)
Fixpoint index (f : Z -> bool) (l : list Z) : option nat :=
  match l with
  | [] => None
  | x :: l => if f x then Some 0%nat else S <$> index f l
  end.

Lemma index_Some f l i : index f l = Some i <->
  (exists x, l !! i = Some x /\ f x = true) /\ forall j y, (j < i)%nat -> l !! j = Some y -> f y = false.
Proof.
  revert i. induction l as [|x l IH]; intros i; cbn [index].
  - split; [done|]. intros [(x & Hx & _) _]. by rewrite lookup_nil in Hx.
  - destruct (f x) eqn:Ef.
    + split.
      * intros [= <-]. split; [eauto|lia].
      * intros [_ Hj]. destruct i as [|i]; [done|]. rewrite (Hj 0%nat x) in Ef by (done || lia). done.
    + rewrite fmap_Some. split.
      * intros (k & [(y & Hy & Hfy) Hj]%IH & ->). split; [eauto|].
        intros [|j] z Hlt Hz; [by injection Hz as <-|]. eapply Hj; [|exact Hz]. lia.
      * intros [(y & Hy & Hfy) Hj]. destruct i as [|i]; [cbn in Hy; congruence|]. exists i. split; [|done].
        apply IH. split; [eauto|]. intros j z Hlt Hz. apply (Hj (S j) z); [lia|done].
Qed.

Lemma index_None f l : index f l = None <-> forall x, x ∈ l -> f x = false.
Proof.
  induction l as [|x l IH]; cbn [index]; [set_solver|]. destruct (f x) eqn:Ef.
  - split; [done|]. intros Hall. rewrite Hall in Ef by left. done.
  - rewrite fmap_None, IH. split; intros Hall y Hy.
    + apply elem_of_cons in Hy as [->|?]; auto.
    + apply Hall. by right.
Qed.

(** The pointer to the element of a string with the index [o]. *)
Definition at_index (p : Z) (o : option nat) : Z :=
  match o with Some i => p + Z.of_nat i | None => NULL end.

Lemma wp_strchr b p cs c (Q : Z -> bytes -> Prop) :
  cstr b p cs -> Q (at_index p (index (Z.eqb (u8 c)) (cs ++ [0]))) b -> wp (strchr p c) Q b.
Proof.
  intros Hc HQ. unfold strchr. apply wp_bind, wp_assertb; [apply nonnull, Hc|].
  eapply (wp_walk b p cs (fun i => forall j y, (j < i)%nat -> (cs ++ [0]) !! j = Some y -> (u8 c =? y) = false));
    [done|lia|]. intros i x Ex Hl Hz HI.
  apply wp_bind. eapply wp_load8; [done|]. apply wp_ret. rewrite (Z.eqb_sym x (u8 c)).
  destruct (u8 c =? x) eqn:E.
  - assert (Ei : index (Z.eqb (u8 c)) (cs ++ [0]) = Some i) by (apply index_Some; eauto).
    by rewrite Ei in HQ.
  - destruct (Z.eqb_spec x 0) as [E0|E0].
    + assert (Ei : index (Z.eqb (u8 c)) (cs ++ [0]) = None).
      { apply index_None. intros y [j Hj]%list_elem_of_lookup. pose proof (lookup_lt_Some _ _ _ Hj) as Hlt.
        rewrite length_app in Hlt. cbn in Hlt. pose proof (proj1 Hz E0).
        destruct (decide (j = i)) as [->|]; [congruence|]. apply (HI j); [lia|done]. }
      by rewrite Ei in HQ.
    + split_and!; try done. intros j y Hj Hy. destruct (decide (j = i)) as [->|]; [congruence|].
      apply (HI j); [lia|done].
Qed.

(** A character of the string [ds], or its terminator. *)
Definition is_delim (ds : list Z) (c : Z) : bool := bool_decide (c ∈ ds ++ [0]).

Lemma wp_strchr_mem b d ds x (Q : Z -> bytes -> Prop) : cstr b d ds -> in_u 8 x ->
  (forall p, (p =? NULL) = negb (is_delim ds x) -> Q p b) -> wp (strchr d x) Q b.
Proof.
  intros Hd Hx HQ. apply (wp_strchr b d ds); [done|]. apply HQ. rewrite uwrap_small by done.
  unfold is_delim. destruct (index (Z.eqb x) (ds ++ [0])) as [i|] eqn:E; cbn [at_index].
  - apply index_Some in E as [(y & Hy & ->%Z.eqb_eq) _]. rewrite bool_decide_eq_true_2 by (by eapply list_elem_of_lookup_2).
    apply Z.eqb_neq. destruct Hd as (_ & _ & Hp). unfold NULL. lia.
  - rewrite bool_decide_eq_false_2; [done|]. intros Hin.
    pose proof (proj1 (index_None _ _) E x Hin) as Hf. rewrite Z.eqb_refl in Hf. done.
Qed.

(** ** Tokens *)

(** The substrings between delimiters, and those of them that are not empty. *)
Fixpoint fields (ds cs : list Z) : list (list Z) :=
  match cs with
  | [] => [[]]
  | c :: cs => if is_delim ds c then [] :: fields ds cs
               else match fields ds cs with f :: fs => (c :: f) :: fs | [] => [[c]] end
  end.

Definition tokens (ds cs : list Z) : list (list Z) := filter (fun f => f <> []) (fields ds cs).

(** The loop that the comment of strtok_r() gives, with the tokens it meets. *)
Fixpoint strtok_all (fuel : nat) (s delimiters save : Z) : M bytes (list Z) :=
  match fuel with
  | O => fail OutOfFuel
  | S n =>
      r ← strtok_r s delimiters save;
      if r.1 =? NULL then ret [] else
      ts ← strtok_all n NULL delimiters r.2;
      ret (r.1 :: ts)
  end.

Lemma fields_plain ds tok : Forall (fun c => is_delim ds c = false) tok -> fields ds tok = [tok].
Proof. induction 1 as [|c tok Hc _ IH]; cbn [fields]; [done|]. by rewrite Hc, IH. Qed.

Lemma fields_delim ds tok c cs : Forall (fun c => is_delim ds c = false) tok -> is_delim ds c = true ->
  fields ds (tok ++ c :: cs) = tok :: fields ds cs.
Proof.
  intros Ht Hc. induction Ht as [|x tok Hx _ IH]; cbn [fields app]; [by rewrite Hc|].
  by rewrite Hx, IH.
Qed.

Lemma tokens_skip ds pre cs : Forall (fun c => is_delim ds c = true) pre ->
  tokens ds (pre ++ cs) = tokens ds cs.
Proof.
  intros Hp. induction Hp as [|c pre Hc _ IH]; cbn [app]; [done|].
  unfold tokens in *. cbn [fields]. rewrite Hc. by rewrite filter_cons_False by (by intros []).
Qed.

Lemma index_split f l i : index f l = Some i ->
  exists x, l = take i l ++ x :: drop (S i) l /\ l !! i = Some x /\ f x = true /\
    Forall (fun y => f y = false) (take i l).
Proof.
  intros [(x & Hx & Hf) Hj]%index_Some. exists x. split_and!; [by rewrite take_drop_middle|done|done|].
  apply Forall_lookup. intros j y [Hy Hlt]%lookup_take_Some. by eapply Hj.
Qed.

(** One call of strtok_r(): the string is [pre ++ tok ++ rest], delimiters,
    then the token, then a delimiter or nothing. *)
Lemma wp_strtok_skip b s cs d ds (Q : Z * bool -> bytes -> Prop) :
  cstr b s cs -> cstr b d ds ->
  Q (match index (fun c => negb (is_delim ds c)) cs with
     | Some k => (s + Z.of_nat k, true)
     | None => (s + Z.of_nat (length cs), false) end) b ->
  wp (sloop (fun i =>
    x ← load8 (s + i);
    p ← strchr d x;
    ret (if p =? NULL then inr (s + i, true)
         else if x =? 0 then inr (s + i, false)
         else inl (i + 1))) 0) Q b.
Proof.
  intros Hs Hd HQ. set (f := fun c => negb (is_delim ds c)) in *. pose proof Hs as (_ & Hn & _).
  eapply (wp_walk b s cs (fun i => forall j y, (j < i)%nat -> cs !! j = Some y -> f y = false)); [done|lia|].
  intros i x Ex Hl Hz HI. apply wp_bind. eapply wp_load8; [done|]. apply wp_bind.
  apply (wp_strchr_mem b d ds); [done|by eapply cstr_byte|]. intros p Hp. apply wp_ret. rewrite Hp.
  change (negb (is_delim ds x)) with (f x). destruct (f x) eqn:Ef.
  - assert (Hi : cs !! i = Some x).
    { destruct (decide (i = length cs)) as [Ei|Ei].
      - rewrite (proj2 Hz Ei) in Ef. unfold f, is_delim in Ef. rewrite bool_decide_eq_true_2 in Ef; [done|].
        apply elem_of_app. right. left.
      - pose proof (lookup_lt_Some _ _ _ Ex) as Hlt. rewrite length_app in Hlt. cbn in Hlt.
        by rewrite lookup_app_l in Ex by lia. }
    assert (Eix : index f cs = Some i) by (apply index_Some; eauto). by rewrite Eix in HQ.
  - destruct (Z.eqb_spec x 0) as [E0|E0].
    + pose proof (proj1 Hz E0) as ->.
      assert (Eix : index f cs = None).
      { apply index_None. intros y [j Hj]%list_elem_of_lookup. apply (HI j); [by eapply lookup_lt_Some|done]. }
      by rewrite Eix in HQ.
    + split_and!; try done. intros j y Hj Hy. destruct (decide (j = i)) as [->|]; [|apply (HI j); [lia|done]].
      rewrite (lookup_app_l_Some _ _ _ _ Hy) in Ex. congruence.
Qed.

Lemma wp_strtok_end b t cs d ds (Q : Z -> bytes -> Prop) : cstr b t cs -> cstr b d ds ->
  (forall k, index (is_delim ds) (cs ++ [0]) = Some k -> Q (t + Z.of_nat k) b) ->
  wp (sloop (fun i =>
    x ← load8 (t + i);
    p ← strchr d x;
    ret (if p =? NULL then inl (i + 1) else inr (t + i))) 0) Q b.
Proof.
  intros Hs Hd HQ. pose proof Hs as (_ & Hn & _).
  eapply (wp_walk b t cs (fun i => forall j y, (j < i)%nat -> (cs ++ [0]) !! j = Some y -> is_delim ds y = false));
    [done|lia|].
  intros i x Ex Hl Hz HI. apply wp_bind. eapply wp_load8; [done|]. apply wp_bind.
  apply (wp_strchr_mem b d ds); [done|by eapply cstr_byte|]. intros p Hp. apply wp_ret. rewrite Hp.
  destruct (is_delim ds x) eqn:Ed; cbn [negb].
  - apply HQ, index_Some. eauto.
  - split_and!; try done.
    + intros ->. unfold is_delim in Ed. apply bool_decide_eq_false in Ed. apply Ed, elem_of_app. right. left.
    + intros j y Hj Hy. destruct (decide (j = i)) as [->|]; [congruence|]. apply (HI j); [lia|done].
Qed.

(** The delimiter string lies outside the string that is broken up. *)
Definition apart (s : Z) (cs : list Z) (d : Z) (ds : list Z) : Prop :=
  d + Z.of_nat (length ds) < s \/ s + Z.of_nat (length cs) < d.

Lemma is_delim_zero ds : is_delim ds 0 = true.
Proof. unfold is_delim. apply bool_decide_eq_true_2, elem_of_app. right. left. Qed.

(** A call that finds a token [tok] at [t]. *)
Record found (b : bytes) (s : Z) (cs ds : list Z) (t save : Z) (b' : bytes) (tok rest : list Z) : Prop := {
  found_tok : cstr b' t tok;
  found_rest : cstr b' save rest;
  found_tokens : tokens ds cs = tok :: tokens ds rest;
  found_len : (length rest < length cs)%nat;
  found_range : s <= t /\ (rest = [] /\ save = t + Z.of_nat (length tok) \/ t + Z.of_nat (length tok) < save) /\
    save + Z.of_nat (length rest) = s + Z.of_nat (length cs);
  found_frame : forall a, ~ (s <= a < s + Z.of_nat (length cs)) -> b' !! a = b !! a }.

Lemma wp_strtok_r b s0 save0 s cs d ds (Q : Z * Z -> bytes -> Prop) :
  s = (if s0 =? NULL then save0 else s0) -> cstr b s cs -> cstr b d ds ->
  (tokens ds cs = [] -> Q (NULL, s + Z.of_nat (length cs)) b) ->
  (forall t save b' tok rest, found b s cs ds t save b' tok rest -> Q (t, save) b') ->
  wp (strtok_r s0 d save0) Q b.
Proof.
  intros Es Hs Hd HQ0 HQ1. unfold strtok_r. rewrite <- Es.
  apply wp_bind, wp_assertb; [apply nonnull, Hd|]. apply wp_bind, wp_assertb; [apply nonnull, Hs|].
  apply wp_bind. apply (wp_strtok_skip b s cs d ds); [done..|].
  destruct (index _ cs) as [k|] eqn:Ek; cbn [fst snd negb].
  2:{ apply wp_ret, HQ0. rewrite <- (app_nil_r cs). rewrite tokens_skip; [done|].
      apply Forall_forall. intros x Hx. apply negb_false_iff. revert x Hx. by apply index_None. }
  apply index_split in Ek as (x & Ecs & _ & Hx & Hpre). set (pre := take k cs) in *.
  set (cs' := x :: drop (S k) cs) in *. apply negb_true_iff in Hx.
  assert (Hk : length pre = k /\ (k < length cs)%nat).
  { assert (length cs = (length pre + length cs')%nat) by (rewrite Ecs at 1; apply length_app).
    unfold pre in *. rewrite length_take in *. cbn in *. lia. }
  assert (Htk : tokens ds cs = tokens ds cs').
  { rewrite Ecs. apply tokens_skip. eapply Forall_impl; [exact Hpre|]. intros y. apply negb_false_iff. }
  assert (Hcs' : cstr b (s + Z.of_nat k) cs').
  { assert (E : cs' = drop k cs) by (rewrite Ecs, drop_app_length' by (symmetry; apply Hk); done).
    rewrite E. apply cstr_drop; [done|lia]. }
  assert (Hlen : length cs = (k + length cs')%nat) by (rewrite Ecs at 1; rewrite length_app; lia).
  set (t := s + Z.of_nat k) in *.
  apply wp_bind. apply (wp_strtok_end b t cs' d ds); [done..|]. intros j Hj.
  apply index_split in Hj as (y & _ & Hjn & Hy & Htok). pose proof Hcs' as (Hbl & Hnz & Htp).
  pose proof (proj1 (block_lookup _ _ _) Hbl _ _ Hjn) as Hld.
  apply wp_bind. eapply wp_load8; [done|]. pose proof (cstr_zero _ _ _ Hnz Hjn) as Hz.
  pose proof (lookup_lt_Some _ _ _ Hjn) as Hjl. rewrite length_app in Hjl. change (length [0]) with 1%nat in Hjl.
  rewrite take_app_le in Htok by lia.
  assert (Hj0 : (0 < j)%nat).
  { destruct j; [|lia]. unfold cs' in Hjn. cbn in Hjn. injection Hjn as <-. congruence. }
  assert (Hne : take j cs' <> []) by (by destruct j; [lia|]).
  destruct (Z.eqb_spec y 0) as [Ey0|Ey0]; cbn [negb].
  - pose proof (proj1 Hz Ey0) as ->. apply wp_ret, (HQ1 _ _ _ cs' []). rewrite take_ge in Htok by lia. split.
    + done.
    + replace (@nil Z) with (drop (length cs') cs') by (by rewrite drop_ge). by apply cstr_drop.
    + rewrite Htk. unfold tokens. rewrite (fields_plain ds cs') by done. by rewrite filter_cons_True by done.
    + cbn. lia.
    + cbn [length]. unfold t. split_and!; [lia|by left|lia].
    + done.
  - assert (Hjc : (j < length cs')%nat) by (destruct (decide (j = length cs')); [by apply Hz in e|lia]).
    apply wp_bind. apply wp_store8; [eauto|]. apply wp_ret. apply (HQ1 _ _ _ (take j cs') (drop (S j) cs')).
    change (u8 0) with 0. rewrite lookup_app_l in Hjn by done. split.
    + split_and!; [|by apply Forall_take|done]. apply block_app. rewrite length_take.
      replace (j `min` length cs')%nat with j by lia. split.
      * eapply block_agree; [|apply block_app in Hbl as [Hbl _]; rewrite <- (take_drop j cs') in Hbl;
          apply block_app in Hbl as [Hbl _]; exact Hbl].
        intros i. rewrite length_take. intros Hi. apply lookup_insert_ne. lia.
      * cbn. by rewrite lookup_insert_eq.
    + replace (t + Z.of_nat j + 1) with (t + Z.of_nat (S j)) by lia.
      eapply cstr_agree; [|apply (cstr_drop b t cs' (S j)); [done|lia]].
      intros i Hi. apply lookup_insert_ne. lia.
    + rewrite Htk. assert (Ecs' : cs' = take j cs' ++ y :: drop (S j) cs') by (by rewrite take_drop_middle).
      unfold tokens. rewrite Ecs' at 1. rewrite fields_delim by done. by rewrite filter_cons_True by done.
    + rewrite length_drop. lia.
    + rewrite length_take, length_drop. unfold t. split_and!; [lia|right; lia|lia].
    + intros a Ha. apply lookup_insert_ne. unfold t in *. lia.
Qed.

Lemma wp_strtok_all ds d fuel : forall b s0 save0 s cs,
  s = (if s0 =? NULL then save0 else s0) -> cstr b s cs -> cstr b d ds -> apart s cs d ds ->
  (length cs < fuel)%nat ->
  wp (strtok_all fuel s0 d save0) (fun ps b' =>
    Forall2 (cstr b') ps (tokens ds cs) /\ Forall (fun p => s <= p) ps /\
    forall a, ~ (s <= a < s + Z.of_nat (length cs)) -> b' !! a = b !! a) b.
Proof.
  induction fuel as [|fuel IH]; intros b s0 save0 s cs Es Hs Hd Hap Hfuel; [lia|]. cbn [strtok_all].
  apply wp_bind. eapply wp_strtok_r; [done..| |].
  - intros Htk. apply wp_ret. rewrite Htk. auto.
  - intros t save b' tok rest F. cbn [fst snd].
    destruct (found_range _ _ _ _ _ _ _ _ _ F) as (Hst & Hsv & Hend).
    pose proof (found_tok _ _ _ _ _ _ _ _ _ F) as Htok. pose proof Htok as (_ & _ & Htp).
    pose proof (found_rest _ _ _ _ _ _ _ _ _ F) as Hrest. pose proof (found_frame _ _ _ _ _ _ _ _ _ F) as Hfr.
    rewrite (proj2 (Z.eqb_neq t NULL)) by (unfold NULL; lia). apply wp_bind.
    unfold apart in Hap. eapply wp_mono; [apply (IH b' NULL save save rest); [done|done| | |]|].
    + eapply cstr_agree; [|exact Hd]. intros i Hi. apply Hfr. lia.
    + unfold apart. destruct Hsv as [[-> ->] | Hsv]; cbn [length] in *; lia.
    + pose proof (found_len _ _ _ _ _ _ _ _ _ F). lia.
    + intros ps b2 (Hps & Hge & Hfr2). apply wp_ret. rewrite (found_tokens _ _ _ _ _ _ _ _ _ F). split_and!.
      * constructor; [|done]. eapply cstr_agree; [|exact Htok]. intros i Hi. apply Hfr2.
        destruct Hsv as [[-> ->] | Hsv]; cbn [length]; lia.
      * constructor; [done|]. eapply Forall_impl; [exact Hge|]. cbn. destruct Hsv as [[-> ->] | Hsv]; lia.
      * intros a Ha. rewrite Hfr2, Hfr; [done|lia|]. destruct Hsv as [[-> ->] | Hsv]; cbn [length] in *; lia.
Qed.

(** ** Copying *)

Lemma block_args p n b (Q : unit -> bytes -> Prop) : 0 < p \/ n = 0 -> Q tt b -> wp (block_arg p n) Q b.
Proof.
  intros H HQ. apply wp_assertb; [|done]. apply orb_true_iff. destruct H as [H|H].
  - left. by apply nonnull.
  - right. lia.
Qed.

Lemma mapped_write b p bs q n : mapped b q n -> mapped (write b p bs) q n.
Proof.
  intros Hm i Hi. rewrite lookup_write. destruct (decide _) as [Hd|_]; [|by apply Hm].
  apply lookup_lt_is_Some_2. lia.
Qed.

(** The upward loop, when what it reads has not been overwritten before. *)
Lemma wp_copy_up b dst src bs : block b src bs -> Forall (in_u 8) bs -> mapped b dst (length bs) ->
  dst <= src \/ src + Z.of_nat (length bs) <= dst ->
  wp (for_from (length bs) 0 (fun i => c ← load8 (src + i); store8 (dst + i) c))
    (fun _ b' => b' = write b dst bs) b.
Proof.
  intros Hb Hr Hm Hd. eapply wp_mono; [apply (wp_for_from (fun i b' => 0 <= i <= Z.of_nat (length bs) /\
    b' = write b dst (take (Z.to_nat i) bs)))|].
  - split; [lia|done].
  - intros j b' Hj [_ ->]. destruct (lookup_lt_is_Some_2 bs (Z.to_nat j)) as [x Hx]; [lia|].
    apply wp_bind. eapply wp_load8.
    { rewrite lookup_write, decide_False by (rewrite length_take; lia).
      rewrite <- (proj1 (block_lookup _ _ _) Hb _ _ Hx). f_equal. lia. }
    apply wp_store8; [apply (mapped_write _ _ _ _ _ Hm); lia|]. split; [lia|].
    rewrite uwrap_small by (by eapply Forall_lookup_1).
    replace (Z.to_nat (j + 1)) with (S (Z.to_nat j)) by lia. rewrite (take_S_r _ _ x) by done.
    rewrite write_snoc, length_take. f_equal. lia.
  - intros [] b' [_ ->]. rewrite Z.add_0_l, Nat2Z.id, firstn_all. done.
Qed.

(** The downward loop. *)
Lemma wp_copy_down b dst src bs : block b src bs -> Forall (in_u 8) bs -> mapped b dst (length bs) ->
  src <= dst ->
  wp (for_from (length bs) 0 (fun i =>
      c ← load8 (src + Z.of_nat (length bs) - 1 - i); store8 (dst + Z.of_nat (length bs) - 1 - i) c))
    (fun _ b' => b' = write b dst bs) b.
Proof.
  intros Hb Hr Hm Hd. set (n := length bs) in *.
  eapply wp_mono; [apply (wp_for_from (fun i b' => 0 <= i <= Z.of_nat n /\
    b' = write b (dst + Z.of_nat n - i) (drop (n - Z.to_nat i) bs)))|].
  - split; [lia|]. rewrite drop_ge by (unfold n; lia). done.
  - intros j b' Hj [_ ->]. destruct (lookup_lt_is_Some_2 bs (n - 1 - Z.to_nat j)) as [x Hx]; [unfold n in *; lia|].
    apply wp_bind. eapply wp_load8.
    { rewrite lookup_write, decide_False by (rewrite length_drop; unfold n in *; lia).
      rewrite <- (proj1 (block_lookup _ _ _) Hb _ _ Hx). f_equal. lia. }
    replace (dst + Z.of_nat n - 1 - j) with (dst + (Z.of_nat n - 1 - j)) by lia.
    apply wp_store8; [apply (mapped_write _ _ _ _ _ Hm); lia|]. split; [lia|].
    rewrite uwrap_small by (by eapply Forall_lookup_1).
    replace (n - Z.to_nat (j + 1))%nat with (n - 1 - Z.to_nat j)%nat by lia.
    rewrite (drop_S bs x (n - 1 - Z.to_nat j)) by done. cbn [write].
    replace (S (n - 1 - Z.to_nat j)) with (n - Z.to_nat j)%nat by lia. f_equal; [lia|]. f_equal. lia.
  - intros [] b' [_ ->]. rewrite Z.add_0_l, Nat2Z.id, Nat.sub_diag. f_equal. lia.
Qed.

Lemma wp_memcpy b dst src bs (Q : Z -> bytes -> Prop) :
  block b src bs -> Forall (in_u 8) bs -> mapped b dst (length bs) -> 0 < dst -> 0 < src ->
  dst <= src \/ src + Z.of_nat (length bs) <= dst ->
  Q dst (write b dst bs) -> wp (memcpy dst src (Z.of_nat (length bs))) Q b.
Proof.
  intros Hb Hr Hm H1 H2 Hd HQ. unfold memcpy. apply wp_bind, block_args; [by left|].
  apply wp_bind, block_args; [by left|]. apply wp_bind. rewrite Nat2Z.id.
  eapply wp_mono; [by apply wp_copy_up|]. intros [] b' ->. by apply wp_ret.
Qed.
