(* ===== verification/StrSpec.v ===== *)
(** * Theorems on lib/string.c *)

From Stdlib Require Import ZArith Lia.
From stdpp Require Import base numbers gmap list.
From S2P Require Import Prelude Bytes StrLib.

Open Scope Z_scope.

(** ** Comparison *)

(** Lexicographic comparison of lists of bytes. *)
Fixpoint lex (xs ys : list Z) : Z :=
  match xs, ys with
  | [], [] => 0
  | [], _ :: _ => -1
  | _ :: _, [] => 1
  | x :: xs, y :: ys => if x =? y then lex xs ys else if x <? y then -1 else 1
  end.

Lemma lex_drop i : forall xs ys, take i xs = take i ys -> lex xs ys = lex (drop i xs) (drop i ys).
Proof.
  induction i as [|i IH]; intros xs ys E; [done|].
  destruct xs as [|x xs], ys as [|y ys]; cbn in *; try done.
  injection E as -> E. rewrite Z.eqb_refl. by apply IH.
Qed.

Lemma lex_refl xs : lex xs xs = 0.
Proof. induction xs as [|x xs IH]; cbn [lex]; [done|]. by rewrite Z.eqb_refl. Qed.

(** The element of a string at [i], and what is left of it from there on. *)
Lemma cstr_tail cs i c : Forall (fun c => 0 < c < 256) cs -> (cs ++ [0]) !! i = Some c ->
  c = 0 /\ drop i cs = [] \/ 0 < c < 256 /\ drop i cs = c :: drop (S i) cs.
Proof.
  intros Hn Hc. pose proof (cstr_zero _ _ _ Hn Hc) as Hz. pose proof (lookup_lt_Some _ _ _ Hc) as Hl.
  rewrite length_app in Hl. cbn in Hl. destruct (decide (i = length cs)) as [E|E].
  - left. split; [tauto|]. apply drop_ge. lia.
  - right. rewrite lookup_app_l in Hc by lia. split; [exact (Forall_lookup_1 _ _ _ _ Hn Hc)|by apply drop_S].
Qed.

Lemma wp_strcmp b p q xs ys (Q : Z -> bytes -> Prop) : cstr b p xs -> cstr b q ys ->
  Q (lex xs ys) b -> wp (strcmp p q) Q b.
Proof.
  intros Hp Hq HQ. pose proof Hp as (_ & Hnx & _). pose proof Hq as (_ & Hny & _). unfold strcmp.
  apply wp_bind, wp_assertb; [apply nonnull, Hp|]. apply wp_bind, wp_assertb; [apply nonnull, Hq|].
  apply wp_bind. eapply (wp_walk b p xs (fun i => (i <= length ys)%nat /\ take i xs = take i ys)); [done|split; [lia|done]|].
  intros i x Ex Hlx Hzx [Hi Ht].
  destruct (lookup_lt_is_Some_2 (ys ++ [0]) i) as [y Ey]; [rewrite length_app; cbn; lia|].
  pose proof (cstr_lookup _ _ _ _ _ Hq Ey) as Hly. rewrite (lex_drop i) in HQ by done.
  destruct (cstr_tail _ _ _ Hnx Ex) as [[Ex0 Dx] | [Hx Dx]], (cstr_tail _ _ _ Hny Ey) as [[Ey0 Dy] | [Hy Dy]];
    rewrite Dx, Dy in HQ; cbn [lex] in HQ; (apply wp_bind; eapply wp_load8; [done|]).
  - subst x y. apply wp_ret. do 2 (apply wp_bind; eapply wp_load8; [done|]). by apply wp_ret.
  - subst x. apply wp_ret. do 2 (apply wp_bind; eapply wp_load8; [done|]). apply wp_ret.
    by rewrite (proj2 (Z.ltb_lt _ _)) by lia.
  - subst y. rewrite (proj2 (Z.eqb_neq x 0)) by lia. apply wp_bind. eapply wp_load8; [done|].
    rewrite (proj2 (Z.eqb_neq x 0)) by lia. apply wp_ret. do 2 (apply wp_bind; eapply wp_load8; [done|]). apply wp_ret.
    by rewrite (proj2 (Z.ltb_ge _ _)), (proj2 (Z.ltb_lt _ _)) by lia.
  - rewrite (proj2 (Z.eqb_neq x 0)) by lia. apply wp_bind. eapply wp_load8; [done|]. apply wp_ret.
    destruct (Z.eqb_spec x y) as [Exy|Hne].
    + subst y. split_and!; [done|done|lia|..].
      * pose proof (f_equal length Dy) as HL. rewrite length_drop in HL. cbn in HL. lia.
      * assert (Lx : xs !! i = Some x).
        { rewrite <- (Nat.add_0_r i), <- lookup_drop, Dx. done. }
        assert (Ly : ys !! i = Some x).
        { rewrite <- (Nat.add_0_r i), <- lookup_drop, Dy. done. }
        by rewrite (take_S_r _ _ x), (take_S_r ys _ x), Ht.
    + do 2 (apply wp_bind; eapply wp_load8; [done|]). apply wp_ret.
      destruct (Z.ltb_spec x y); [done|]. by rewrite (proj2 (Z.ltb_lt _ _)) by lia.
Qed.

Lemma wp_memcmp b p q xs ys (Q : Z -> bytes -> Prop) : block b p xs -> block b q ys ->
  length xs = length ys -> 0 < p -> 0 < q -> Q (lex xs ys) b ->
  wp (memcmp p q (Z.of_nat (length xs))) Q b.
Proof.
  intros Hx Hy Hl Hp Hq HQ. unfold memcmp. apply wp_bind, block_args; [by left|].
  apply wp_bind, block_args; [by left|]. rewrite Nat2Z.id.
  set (f := fun j => match xs !! Z.to_nat j, ys !! Z.to_nat j with
    | Some x, Some y => if x =? y then None else Some (if y <? x then 1 else -1) | _, _ => None end).
  set (body := fun i => x ← load8 (p + i); y ← load8 (q + i);
     ret (if x =? y then None else Some (if y <? x then 1 else -1))).
  assert (Hbody : forall j, 0 <= j < 0 + Z.of_nat (length xs) -> body j b = Ok (f j, b)).
  { intros j Hj. unfold body. destruct (lookup_lt_is_Some_2 xs (Z.to_nat j)) as [x Ex]; [lia|].
    destruct (lookup_lt_is_Some_2 ys (Z.to_nat j)) as [y Ey]; [lia|].
    pose proof (proj1 (block_lookup _ _ _) Hx _ _ Ex) as Lx. pose proof (proj1 (block_lookup _ _ _) Hy _ _ Ey) as Ly.
    rewrite Z2Nat.id in Lx, Ly by lia. unfold f. rewrite Ex, Ey. unfold load8, bind, get. rewrite Lx. cbn. by rewrite Ly. }
  assert (Heq : forall i, (i <= length xs)%nat -> (forall k, 0 <= k < Z.of_nat i -> f k = None) -> take i xs = take i ys).
  { intros i Hi Hf. apply list_eq. intros k. destruct (decide (k < i)%nat) as [Hk|Hk].
    2:{ rewrite !lookup_take_ge by lia. done. }
    rewrite !lookup_take_lt by done. specialize (Hf (Z.of_nat k) ltac:(lia)). unfold f in Hf. rewrite Nat2Z.id in Hf.
    destruct (lookup_lt_is_Some_2 xs k) as [x Ex]; [lia|]. destruct (lookup_lt_is_Some_2 ys k) as [y Ey]; [lia|].
    rewrite Ex, Ey in Hf |- *. by destruct (Z.eqb_spec x y) as [->|]. }
  apply wp_bind. destruct (find_from_pure body f b (length xs) 0 Hbody) as [(j & r & Hj & Hr & Hk & E) | [Hk E]];
    (eapply wp_eq; [exact E|]); apply wp_ret; cbn [default].
  - rewrite (lex_drop (Z.to_nat j)) in HQ by (apply Heq; [lia|intros; apply Hk; lia]).
    unfold f in Hr. destruct (xs !! Z.to_nat j) as [x|] eqn:Ex; [|done].
    destruct (ys !! Z.to_nat j) as [y|] eqn:Ey; [|done].
    rewrite (drop_S _ _ _ Ex), (drop_S _ _ _ Ey) in HQ. cbn [lex] in HQ.
    destruct (Z.eqb_spec x y) as [|Hne]; [done|]. injection Hr as <-.
    destruct (Z.ltb_spec x y), (Z.ltb_spec y x); lia || done.
  - assert (E2 : xs = ys); [|by rewrite E2, lex_refl in HQ].
    rewrite <- (firstn_all xs), (Heq (length xs)), Hl, firstn_all; [done|lia|]. intros. apply Hk. lia.
Qed.

Lemma lex_zero xs : forall ys, lex xs ys = 0 <-> xs = ys.
Proof.
  induction xs as [|x xs IH]; intros [|y ys]; cbn [lex]; try done.
  destruct (Z.eqb_spec x y) as [->|Hne].
  - rewrite IH. split; congruence.
  - split; [destruct (x <? y); lia|congruence].
Qed.

(** strcmp() is lexicographic comparison of the two strings as unsigned
    characters, and memcmp() of two blocks; they return 0 exactly for equal
    contents and do not change the memory. *)
Theorem comparison_correct (b : bytes) (p q : Z) (xs ys us vs : list Z) (u v : Z) :
  cstr b p xs -> cstr b q ys -> block b u us -> block b v vs -> length us = length vs -> 0 < u -> 0 < v ->
  strcmp p q b = Ok (lex xs ys, b) /\ (lex xs ys = 0 <-> xs = ys) /\
  memcmp u v (Z.of_nat (length us)) b = Ok (lex us vs, b) /\ (lex us vs = 0 <-> us = vs).
Proof.
  intros Hp Hq Hu Hv Hl Hu0 Hv0. split_and!; [|apply lex_zero| |apply lex_zero].
  - destruct (proj1 (wp_ok (strcmp p q) (fun r b' => r = lex xs ys /\ b' = b) b)) as (r & b' & E & -> & ->);
      [by eapply wp_strcmp|done].
  - destruct (proj1 (wp_ok (memcmp u v (Z.of_nat (length us))) (fun r b' => r = lex us vs /\ b' = b) b))
      as (r & b' & E & -> & ->); [by eapply wp_memcmp|done].
Qed.

(** "abc" at 16, "abd" at 32. *)
Definition demo_strings : bytes := write (write ∅ 16 [97; 98; 99; 0]) 32 [97; 98; 100; 0].

Lemma comparison_correct_witness :
  strcmp 16 32 demo_strings = Ok (-1, demo_strings) /\
  memcmp 16 32 2 demo_strings = Ok (0, demo_strings).
Proof.
  destruct (comparison_correct demo_strings 16 32 [97; 98; 99] [97; 98; 100] [97; 98] [97; 98] 16 32)
    as (E1 & _ & E2 & _); try decide_closed.
  split; [exact E1|exact E2].
Defined.

(** ** Copying *)

Lemma wp_memmove (b : bytes) (dst src : Z) (bs : list Z) :
  block b src bs -> Forall (in_u 8) bs -> mapped b dst (length bs) -> 0 < dst -> 0 < src ->
  wp (memmove dst src (Z.of_nat (length bs))) (fun r b' =>
    r = (if dst <? src then dst + Z.of_nat (length bs) else dst) /\ b' = write b dst bs) b.
Proof.
  intros Hb Hr Hm Hd Hs. unfold memmove. apply wp_bind, block_args; [by left|]. apply wp_bind, block_args; [by left|].
  rewrite Nat2Z.id. destruct (Z.ltb_spec dst src) as [Hlt|Hge].
  - apply wp_bind. eapply wp_mono; [apply wp_copy_up; (done || lia)|]. intros [] b' ->. by apply wp_ret.
  - apply wp_bind. eapply wp_mono; [by apply wp_copy_down|]. intros [] b' ->. by apply wp_ret.
Qed.

(** memmove() copies also between overlapping blocks: afterwards the
    destination holds the bytes that the source held before, and no other
    byte has changed.  The pointer returned is the destination only when it
    is not below the source. *)
Theorem memmove_correct (b : bytes) (dst src : Z) (bs : list Z) :
  block b src bs -> Forall (in_u 8) bs -> mapped b dst (length bs) -> 0 < dst -> 0 < src ->
  exists b', memmove dst src (Z.of_nat (length bs)) b =
      Ok (if dst <? src then dst + Z.of_nat (length bs) else dst, b') /\
    block b' dst bs /\
    forall a, ~ (dst <= a < dst + Z.of_nat (length bs)) -> b' !! a = b !! a.
Proof.
  intros Hb Hr Hm Hd Hs. exists (write b dst bs). split_and!.
  - destruct (proj1 (wp_ok _ _ _) (wp_memmove b dst src bs Hb Hr Hm Hd Hs)) as (r & b' & E & -> & ->). done.
  - apply block_write.
  - intros a Ha. by rewrite lookup_write, decide_False.
Qed.

Lemma memmove_correct_witness : exists b',
  memmove 17 16 3 demo_strings = Ok (17, b') /\ block b' 17 [97; 98; 99].
Proof.
  destruct (memmove_correct demo_strings 17 16 [97; 98; 99]) as (b' & E & Hb & _).
  - decide_closed.
  - repeat constructor; lia.
  - intros i Hi. assert (i = 0 \/ i = 1 \/ i = 2) as [-> | [-> | ->]] by (cbn in Hi; lia); eexists; vm_compute; reflexivity.
  - lia.
  - lia.
  - exists b'. split; [exact E|exact Hb].
Defined.

(** *** strlcpy() and strlcat() *)

Lemma cstr_take b p cs n : block b p (take n cs ++ [0]) -> Forall (fun c => 0 < c < 256) cs -> 0 < p ->
  cstr b p (take n cs).
Proof. intros. split_and!; [done|by apply Forall_take|done]. Qed.

Lemma cs_bytes cs : Forall (fun c => 0 < c < 256) cs -> Forall (in_u 8) cs.
Proof. intros H. eapply Forall_impl; [exact H|]. unfold in_u. cbn. lia. Qed.

(** Copying the first [n] characters and terminating them. *)
Lemma wp_copy_str b dst src cs n : cstr b src cs -> (n <= length cs)%nat -> mapped b dst (S n) -> 0 < dst ->
  dst + Z.of_nat n < src \/ src + Z.of_nat (length cs) < dst ->
  wp (memcpy dst src (Z.of_nat n);; store8 (dst + Z.of_nat n) 0)
    (fun _ b' => b' = write b dst (take n cs ++ [0])) b.
Proof.
  intros Hs Hn Hm Hd Hap. pose proof Hs as (Hb & Hnz & Hp).
  assert (Hl : length (take n cs) = n) by (rewrite length_take; lia).
  assert (Hbt : block b src (take n cs)).
  { apply block_app in Hb as [Hb _]. rewrite <- (take_drop n cs) in Hb. by apply block_app in Hb as [Hb _]. }
  apply wp_bind. rewrite <- Hl at 1. apply (wp_memcpy b dst src (take n cs)).
  - done.
  - by apply Forall_take, cs_bytes.
  - intros i Hi. apply Hm. lia.
  - done.
  - done.
  - lia.
  - apply wp_store8; [apply (mapped_write _ _ _ _ _ Hm); lia|]. change (u8 0) with 0.
    by rewrite write_snoc, Hl.
Qed.

Lemma wp_strlcpy b dst src cs size : cstr b src cs -> 0 < size -> 0 < dst ->
  let n := Nat.min (length cs) (Z.to_nat (size - 1)) in
  mapped b dst (S n) -> dst + Z.of_nat n < src \/ src + Z.of_nat (length cs) < dst ->
  wp (strlcpy dst src size) (fun r b' => r = Z.of_nat (length cs) /\ b' = write b dst (take n cs ++ [0])) b.
Proof.
  intros Hs Hsz Hd n Hm Hap. unfold strlcpy. apply wp_bind, wp_assertb; [by apply nonnull|].
  apply wp_bind, wp_assertb; [apply nonnull, Hs|]. apply wp_bind. eapply wp_strlen; [done|].
  rewrite (proj2 (Z.ltb_lt 0 size)) by done. apply wp_bind.
  replace (if Z.of_nat (length cs) <? size - 1 then Z.of_nat (length cs) else size - 1) with (Z.of_nat n).
  - eapply wp_mono; [apply (wp_copy_str b dst src cs n); (done || lia)|]. intros [] b' ->. by apply wp_ret.
  - unfold n. destruct (Z.ltb_spec (Z.of_nat (length cs)) (size - 1)); lia.
Qed.

Lemma wp_strlcat b dst src ds cs size : cstr b src cs -> cstr b dst ds -> Z.of_nat (length ds) < size ->
  let n := Nat.min (length cs) (Z.to_nat (size - 1 - Z.of_nat (length ds))) in
  let e := dst + Z.of_nat (length ds) in
  mapped b e (S n) -> e + Z.of_nat n < src \/ src + Z.of_nat (length cs) < e ->
  wp (strlcat dst src size) (fun r b' => r = u32 (Z.of_nat (length cs + length ds)) /\
    b' = write b e (take n cs ++ [0])) b.
Proof.
  intros Hs Hd Hsz n e Hm Hap. pose proof Hd as (_ & _ & Hdp). unfold strlcat.
  apply wp_bind, wp_assertb; [apply nonnull, Hd|]. apply wp_bind, wp_assertb; [apply nonnull, Hs|].
  apply wp_bind. eapply wp_strlen; [done|]. apply wp_bind. eapply wp_strlen; [done|].
  rewrite (proj2 (Z.ltb_lt 0 size)), (proj2 (Z.ltb_lt _ size)) by lia. cbn [andb]. apply wp_bind.
  replace (if Z.of_nat (length cs) <? size - Z.of_nat (length ds) - 1 then Z.of_nat (length cs)
    else size - Z.of_nat (length ds) - 1) with (Z.of_nat n).
  - rewrite Z.add_assoc. eapply wp_mono; [apply (wp_copy_str b e src cs n); (done || unfold e; lia)|].
    intros [] b' ->. apply wp_ret. split; [f_equal; lia|done].
  - unfold n. destruct (Z.ltb_spec (Z.of_nat (length cs)) (size - Z.of_nat (length ds) - 1)); lia.
Qed.

(** A string that lies outside the [size] bytes at [dst]. *)
Definition outside (dst size p : Z) (cs : list Z) : Prop :=
  dst + size <= p \/ p + Z.of_nat (length cs) < dst.

Lemma mapped_sub b p n q k : mapped b p n -> p <= q -> q + Z.of_nat k <= p + Z.of_nat n -> mapped b q k.
Proof. intros Hm H1 H2 i Hi. replace (q + i) with (p + (q - p + i)) by lia. apply Hm. lia. Qed.

(** in a buffer of [size] bytes, strlcpy() followed by strlcat() leaves
    the concatenation of the two strings, cut to [size - 1] characters and
    terminated; the results are the lengths before cutting, by which callers
    recognise truncation, and no byte outside the buffer changes. *)
Theorem strlcpy_strlcat_correct (b : bytes) (dst size p q : Z) (cs ds : list Z) :
  cstr b p cs -> cstr b q ds -> 0 < size -> 0 < dst -> mapped b dst (Z.to_nat size) ->
  outside dst size p cs -> outside dst size q ds ->
  exists b1 b2, strlcpy dst p size b = Ok (Z.of_nat (length cs), b1) /\
    cstr b1 dst (take (Z.to_nat (size - 1)) cs) /\
    strlcat dst q size b1 = Ok (u32 (Z.of_nat (length ds + Nat.min (length cs) (Z.to_nat (size - 1)))), b2) /\
    cstr b2 dst (take (Z.to_nat (size - 1)) (cs ++ ds)) /\
    forall a, ~ (dst <= a < dst + size) -> b2 !! a = b !! a.
Proof.
  intros Hp Hq Hsz Hd Hm Ho1 Ho2. unfold outside in *. set (k := Z.to_nat (size - 1)).
  pose proof Hp as (_ & Hnp & _). pose proof Hq as (_ & Hnq & _).
  set (n := Nat.min (length cs) k).
  assert (Htk : take n cs = take k cs).
  { unfold n. destruct (Nat.le_ge_cases (length cs) k); [rewrite Nat.min_l by done|by rewrite Nat.min_r by done].
    by rewrite !take_ge by lia. }
  destruct (proj1 (wp_ok _ _ _) (wp_strlcpy b dst p cs size Hp Hsz Hd
    ltac:(eapply mapped_sub; [exact Hm|lia|lia]) ltac:(lia))) as (r & b1 & E1 & -> & Eb1).
  fold k n in Eb1. rewrite Htk in Eb1.
  assert (H1 : cstr b1 dst (take k cs)) by (rewrite Eb1; apply cstr_take; [apply block_write|done..]).
  assert (Hln : length (take k cs) = n) by (rewrite length_take; unfold n; lia).
  assert (Hq1 : cstr b1 q ds).
  { eapply cstr_agree; [|exact Hq]. intros i Hi. rewrite Eb1, lookup_write, decide_False; [done|].
    rewrite length_app, Hln. cbn. lia. }
  set (n2 := Nat.min (length ds) (k - n)).
  destruct (proj1 (wp_ok _ _ _) (wp_strlcat b1 dst q (take k cs) ds size Hq1 H1 ltac:(lia)
    ltac:(rewrite Eb1; apply mapped_write; eapply mapped_sub; [exact Hm|lia|lia]) ltac:(lia)))
    as (r & b2 & E2 & -> & Eb2). rewrite Hln in E2, Eb2.
  exists b1, b2. split_and!; [done|done|done| |].
  - rewrite take_app. assert (Htd : take (k - length cs) ds = take n2 ds).
    { destruct (decide (k <= length cs)%nat) as [Hk|Hk].
      - unfold n2, n. replace (k - length cs)%nat with 0%nat by lia. by replace (Nat.min _ _) with 0%nat by lia.
      - unfold n2, n. rewrite (Nat.min_l (length cs)) by lia. destruct (Nat.le_ge_cases (length ds) (k - length cs)).
        + rewrite !take_ge by lia. done.
        + by rewrite Nat.min_r by lia. }
    rewrite Htd. assert (Eb2' : b2 = write b1 dst (take k cs ++ take n2 ds ++ [0])).
    { rewrite Eb2. replace (Nat.min (length ds) (Z.to_nat (size - 1 - Z.of_nat n))) with n2 by (unfold n2; lia).
      rewrite (write_app b1 dst (take k cs)), Hln. symmetry. apply write_block.
      destruct H1 as (H1 & _). apply block_app in H1 as [H1 _].
      eapply block_agree; [|exact H1]. intros i Hi. rewrite lookup_write, decide_False; [done|]. lia. }
    rewrite Eb2'. split_and!; [rewrite <- app_assoc; apply block_write| |done].
    apply Forall_app. split; by apply Forall_take.
  - intros a Ha. rewrite Eb2, lookup_write, decide_False; [rewrite Eb1, lookup_write, decide_False; [done|]|];
      rewrite length_app; cbn; rewrite ?Hln, ?length_take; lia.
Qed.

Lemma strlcpy_strlcat_correct_witness :
  let b := write demo_strings 64 [1; 2; 3; 4; 5] in
  exists b1 b2, strlcpy 64 16 5 b = Ok (3, b1) /\ strlcat 64 32 5 b1 = Ok (6, b2) /\
    cstr b2 64 [97; 98; 99; 97].
Proof.
  intros b. destruct (strlcpy_strlcat_correct b 64 5 16 32 [97; 98; 99] [97; 98; 100])
    as (b1 & b2 & E1 & _ & E2 & Hc & _); try decide_closed.
  - apply (block_mapped _ _ [1; 2; 3; 4; 5]). decide_closed.
  - exists b1, b2. split; [exact E1|]. split; [exact E2|exact Hc].
Defined.

(** ** Searching *)

(** [needle] occurs in [hay] at [i]. *)
Definition occurs (needle hay : list Z) (i : nat) : Prop :=
  (i + length needle <= length hay)%nat /\ take (length needle) (drop i hay) = needle.

Lemma strlen_ok b p cs : cstr b p cs -> strlen p b = Ok (Z.of_nat (length cs), b).
Proof.
  intros Hc. destruct (proj1 (wp_ok (strlen p) (fun r b' => r = Z.of_nat (length cs) /\ b' = b) b)) as (r & b' & E & -> & ->);
    [|done]. eapply wp_strlen; [exact Hc|done].
Qed.

(** strstr() returns the address of the first occurrence of NEEDLE in
    HAYSTACK, and a null pointer exactly when there is none. *)
Theorem strstr_correct (b : bytes) (h n : Z) (hay needle : list Z) :
  cstr b h hay -> cstr b n needle ->
  (exists i, strstr h n b = Ok (h + Z.of_nat i, b) /\ occurs needle hay i /\
     forall j, (j < i)%nat -> ~ occurs needle hay j) \/
  (strstr h n b = Ok (NULL, b) /\ forall i, ~ occurs needle hay i).
Proof.
  intros Hh Hn.
  set (out := strstr h n b). assert (Eout : out = strstr h n b) by done. clearbody out. revert Eout.
  unfold strstr, bind at 1. rewrite (strlen_ok _ _ _ Hh). unfold bind at 1. rewrite (strlen_ok _ _ _ Hn).
  destruct (Z.leb_spec (Z.of_nat (length needle)) (Z.of_nat (length hay))) as [Hle|Hgt].
  2:{ intros ->. right. split; [done|]. intros i [Hi _]. lia. }
  set (cnt := Z.to_nat _).
  set (f := fun j => if decide (occurs needle hay (Z.to_nat j)) then Some (h + j) else None).
  set (body := fun i => d ← memcmp (h + i) n (Z.of_nat (length needle));
    ret (if d =? 0 then Some (h + i) else None)).
  destruct Hh as (Hbh & _ & Hh0), Hn as (Hbn & _ & Hn0). apply block_app in Hbh as [Hbh _], Hbn as [Hbn _].
  assert (Hbody : forall j, 0 <= j < 0 + Z.of_nat cnt -> body j b = Ok (f j, b)).
  { intros j Hj. unfold cnt in Hj. unfold body, bind. set (us := take (length needle) (drop (Z.to_nat j) hay)).
    assert (Hlu : length us = length needle) by (unfold us; rewrite length_take, length_drop; lia).
    assert (Hbu : block b (h + j) us).
    { rewrite <- (take_drop (Z.to_nat j) hay) in Hbh. apply block_app in Hbh as [_ Hbh].
      rewrite length_take in Hbh. replace (Z.of_nat (Z.to_nat j `min` length hay)) with j in Hbh by lia.
      unfold us. rewrite <- (take_drop (length needle) (drop _ _)) in Hbh. by apply block_app in Hbh as [Hbh _]. }
    destruct (proj1 (wp_ok (memcmp (h + j) n (Z.of_nat (length us))) (fun r b' => r = lex us needle /\ b' = b) b))
      as (r & b' & E & -> & ->); [eapply wp_memcmp; (done || lia)|]. rewrite <- Hlu, E. unfold ret, f.
    destruct (decide (occurs needle hay (Z.to_nat j))) as [[_ Ho]|Ho].
    - fold us in Ho. by rewrite Ho, lex_refl.
    - rewrite (proj2 (Z.eqb_neq _ _)); [done|]. intros E0%lex_zero. apply Ho. split; [lia|done]. }
  unfold bind at 1. fold body.
  destruct (find_from_pure body f b cnt 0 Hbody) as [(j & r & Hj & Hr & Hk & ->) | [Hk ->]]; intros ->; cbn [default ret].
  - left. unfold f in Hr. destruct (decide _) as [Ho|]; [|done]. injection Hr as <-. exists (Z.to_nat j).
    split_and!; [by rewrite Z2Nat.id by lia|done|]. intros i Hi Hoc. specialize (Hk (Z.of_nat i) ltac:(lia)).
    unfold f in Hk. rewrite Nat2Z.id, decide_True in Hk; done.
  - right. split; [done|]. intros i Hoc. pose proof Hoc as [Hi _]. specialize (Hk (Z.of_nat i) ltac:(unfold cnt; lia)).
    unfold f in Hk. rewrite Nat2Z.id, decide_True in Hk; done.
Qed.

Lemma strstr_correct_witness : strstr 16 33 (write (write ∅ 16 [97; 98; 99; 98; 99; 0]) 33 [98; 99; 0]) =
  Ok (17, write (write ∅ 16 [97; 98; 99; 98; 99; 0]) 33 [98; 99; 0]).
Proof.
  destruct (strstr_correct (write (write ∅ 16 [97; 98; 99; 98; 99; 0]) 33 [98; 99; 0]) 16 33
    [97; 98; 99; 98; 99] [98; 99]) as [(i & E & Ho & Hmin) | [E Hn]]; try decide_closed.
  - destruct i as [|[|i]]; [by destruct Ho as [_ ?]|exact E|].
    destruct (Hmin 1%nat); [lia|split; [cbn; lia|reflexivity]].
  - destruct (Hn 1%nat). split; [cbn; lia|reflexivity].
Defined.

(** the loop that the comment of strtok_r() shows breaks a string into
    exactly its tokens, the non-empty substrings between delimiters, in order:
    when it ends, the pointers it was given still point to the tokens, each a
    string of its own, and nothing outside the string has changed. *)
Theorem strtok_r_correct (b : bytes) (s d : Z) (cs ds : list Z) :
  cstr b s cs -> cstr b d ds -> apart s cs d ds ->
  exists ps b', strtok_all (S (length cs)) s d NULL b = Ok (ps, b') /\
    Forall2 (cstr b') ps (tokens ds cs) /\
    forall a, ~ (s <= a < s + Z.of_nat (length cs)) -> b' !! a = b !! a.
Proof.
  intros Hs Hd Hap. pose proof Hs as (_ & _ & Hp).
  destruct (proj1 (wp_ok _ _ _) (wp_strtok_all ds d (S (length cs)) b s NULL s cs
    ltac:(rewrite (proj2 (Z.eqb_neq s NULL)); [done|unfold NULL; lia]) Hs Hd Hap ltac:(lia)))
    as (ps & b' & E & HF & _ & Hfr). by exists ps, b'.
Qed.

(** "  String to  tokenize. " and " ", as in the comment. *)
Definition tok_example : list Z :=
  [32; 32; 83; 116; 114; 105; 110; 103; 32; 116; 111; 32; 32; 116; 111; 107; 101; 110; 105; 122; 101; 46; 32].
Definition tok_memory : bytes := write (write ∅ 100 (tok_example ++ [0])) 200 [32; 0].

Lemma strtok_r_correct_witness : exists ps b',
  strtok_all 24 100 200 NULL tok_memory = Ok (ps, b') /\
  Forall2 (cstr b') ps [[83; 116; 114; 105; 110; 103]; [116; 111]; [116; 111; 107; 101; 110; 105; 122; 101; 46]].
Proof.
  destruct (strtok_r_correct tok_memory 100 200 tok_example [32]) as (ps & b' & E & HF & _).
  - decide_closed.
  - decide_closed.
  - right. vm_compute. reflexivity.
  - exists ps, b'. split; [exact E|exact HF].
Defined.

(** A loop that leaves at the first character with [f], or at the end. *)
Lemma wp_scan {B} b s cs (f : Z -> bool) (stop fin : Z -> B) (body : Z -> M bytes (Z + B)) (Q : B -> bytes -> Prop) :
  cstr b s cs ->
  (forall i c (R : Z + B -> bytes -> Prop), b !! (s + i) = Some c -> in_u 8 c ->
     R (if c =? 0 then inr (fin i) else if f c then inr (stop i) else inl (i + 1)) b -> wp (body i) R b) ->
  Q (match index f cs with Some i => stop (Z.of_nat i) | None => fin (Z.of_nat (length cs)) end) b ->
  wp (sloop body 0) Q b.
Proof.
  intros Hs Hb HQ. pose proof Hs as (_ & Hnz & _).
  eapply (wp_walk b s cs (fun i => forall j y, (j < i)%nat -> cs !! j = Some y -> f y = false)); [done|lia|].
  intros i c Ec El Hz HI. eapply Hb; [done|by eapply cstr_byte|]. destruct (Z.eqb_spec c 0) as [E|E].
  - apply Hz in E as ->. assert (En : index f cs = None).
    { apply index_None. intros y [j Hj]%list_elem_of_lookup. eapply HI; [|done]. by eapply lookup_lt_Some. }
    by rewrite En in HQ.
  - assert (Hi : cs !! i = Some c).
    { rewrite lookup_app_l in Ec; [done|]. pose proof (lookup_lt_Some _ _ _ Ec) as Hl. rewrite length_app in Hl.
      cbn in Hl. assert (i <> length cs) by (intros ->; apply E; by apply Hz). lia. }
    destruct (f c) eqn:Ef.
    + assert (Ei : index f cs = Some i) by (apply index_Some; eauto). by rewrite Ei in HQ.
    + split_and!; try done. intros j y Hj Hy. destruct (decide (j = i)) as [->|]; [congruence|]. apply (HI j); [lia|done].
Qed.

(** Membership in the string [ds]. *)
Definition among (ds : list Z) (c : Z) : bool := bool_decide (c ∈ ds).

Lemma wp_strchr_among b d ds x (Q : Z -> bytes -> Prop) : cstr b d ds -> in_u 8 x -> x <> 0 ->
  (forall p, (p =? NULL) = negb (among ds x) -> Q p b) -> wp (strchr d x) Q b.
Proof.
  intros Hd Hx Hnz HQ. eapply wp_strchr_mem; [done..|]. intros p Hp. apply HQ. rewrite Hp. f_equal.
  unfold is_delim, among. apply bool_decide_ext. rewrite elem_of_app, list_elem_of_singleton. tauto.
Qed.

(** One round of strcspn(), strpbrk() and strspn(). *)
Lemma wp_scan_round {B} b s d ds i c (t f : bool -> bool) (stop fin : B) (R : Z + B -> bytes -> Prop) :
  (forall a, t (negb a) = f a) -> cstr b d ds -> b !! (s + i) = Some c -> in_u 8 c ->
  R (if c =? 0 then inr fin else if f (among ds c) then inr stop else inl (i + 1)) b ->
  wp (x ← load8 (s + i); if x =? 0 then ret (inr fin) else
      p ← strchr d x; ret (if t (p =? NULL) then inr stop else inl (i + 1))) R b.
Proof.
  intros Ht Hd Hc Hx HR. apply wp_bind. eapply wp_load8; [done|]. destruct (Z.eqb_spec c 0) as [E|E]; [done|].
  apply wp_bind. eapply wp_strchr_among; [done..|]. intros p ->. apply wp_ret. by rewrite Ht.
Qed.

(** strcspn() and strspn() return the length of the longest prefix with no
    character, or only characters, of the second string, strpbrk() the address
    of the first character of the first string that is in the second, and
    strchr() the first occurrence of a character, the terminator included. *)
Theorem searches_correct (b : bytes) (s d c : Z) (cs ds : list Z) :
  cstr b s cs -> cstr b d ds ->
  strcspn s d b = Ok (Z.of_nat (default (length cs) (index (among ds) cs)), b) /\
  strspn s d b = Ok (Z.of_nat (default (length cs) (index (fun x => negb (among ds x)) cs)), b) /\
  strpbrk s d b = Ok (at_index s (index (among ds) cs), b) /\
  strchr s c b = Ok (at_index s (index (Z.eqb (u8 c)) (cs ++ [0])), b).
Proof.
  intros Hs Hd.
  assert (Hget : forall (m : M bytes Z) v, wp m (fun r b' => r = v /\ b' = b) b -> m b = Ok (v, b)).
  { intros m v (r & b' & E & -> & ->)%wp_ok. exact E. }
  split_and!; apply Hget.
  - unfold strcspn. eapply (wp_scan b s cs (among ds) (fun i => i) (fun i => i)); [done| |by destruct (index _ cs)].
    intros i x R. by apply (wp_scan_round b s d ds i x negb (fun t => t)); [by intros []|].
  - unfold strspn. eapply (wp_scan b s cs (fun x => negb (among ds x)) (fun i => i) (fun i => i));
      [done| |by destruct (index _ cs)]. intros i x R.
    by apply (wp_scan_round b s d ds i x (fun t => t) negb); [by intros []|].
  - unfold strpbrk. eapply (wp_scan b s cs (among ds) (fun i => s + i) (fun _ => NULL)); [done| |by destruct (index _ cs)].
    intros i x R. by apply (wp_scan_round b s d ds i x negb (fun t => t)); [by intros []|].
  - by eapply wp_strchr.
Qed.

Lemma searches_correct_witness :
  strcspn 100 200 tok_memory = Ok (0, tok_memory) /\ strspn 100 200 tok_memory = Ok (2, tok_memory).
Proof.
  destruct (searches_correct tok_memory 100 200 0 tok_example [32]) as (E1 & E2 & _); [decide_closed..|].
  split; [exact E1|exact E2].
Defined.
