(* ===== verification/Arith.v ===== *)
(** * lib/arithmetic.c: 64-bit division

    The division routines that GCC calls on the x86, on integers kept at their
    width.  A division whose divisor is zero, or whose quotient does not fit
    in 32 bits, raises a divide error: [None].  The theorems show that the
    quotients are those of the mathematical division, that a divide error only
    comes from a zero divisor, and what is left of a remainder once it has
    passed through the 32-bit results of umod64() and smod64(). *)

From Stdlib Require Import ZArith Lia.
From stdpp Require Import base numbers option.
From S2P Require Import Prelude.

Open Scope Z_scope.
#[local] Close Scope kcode_scope.

(** ** The routines *)

(** The DIVL instruction on EDX:EAX. *)
Definition divl (n d : Z) : option Z :=
  let n1 := u32 (n ≫ 32) in
  let n0 := u32 n in
  let q := (n1 * 2 ^ 32 + n0) / d in
  if (d =? 0) || (2 ^ 32 <=? q) then None else Some q.

Definition nlz (x : Z) : Z :=
  let n := 0 in
  let '(n, x) := if x <=? 0x0000FFFF then (n + 16, u32 (x ≪ 16)) else (n, x) in
  let '(n, x) := if x <=? 0x00FFFFFF then (n + 8, u32 (x ≪ 8)) else (n, x) in
  let '(n, x) := if x <=? 0x0FFFFFFF then (n + 4, u32 (x ≪ 4)) else (n, x) in
  let '(n, x) := if x <=? 0x3FFFFFFF then (n + 2, u32 (x ≪ 2)) else (n, x) in
  if x <=? 0x7FFFFFFF then n + 1 else n.

(** The operators [/] and [%] on [uint32_t] operands. *)
Definition div32 (n d : Z) : option Z := if d =? 0 then None else Some (n / d).
Definition mod32 (n d : Z) : option Z := if d =? 0 then None else Some (n mod d).

Definition udiv64 (n d : Z) : option Z :=
  if d ≫ 32 =? 0 then
    let b := 1 ≪ 32 in
    let n1 := u32 (n ≫ 32) in
    let n0 := u32 n in
    let d0 := u32 d in
    rem ← mod32 n1 d0;
    quo ← div32 n1 d0;
    low ← divl (u64 (u64 (b * rem) + n0)) d0;
    Some (u64 (low + u64 (b * quo)))
  else if n <? d then Some 0
  else
    let d1 := u32 (d ≫ 32) in
    let s := nlz d1 in
    top ← divl (n ≫ 1) (u32 (u64 (d ≪ s) ≫ 32));
    let q := top ≫ (31 - s) in
    Some (if u64 (n - u64 (u64 (q - 1) * d)) <? d then u64 (q - 1) else q).

Definition umod64 (n d : Z) : option Z :=
  q ← udiv64 n d; Some (u32 (u64 (n - u64 (d * q)))).

Definition sdiv64 (n d : Z) : option Z :=
  let n_abs := if 0 <=? n then u64 n else u64 (- u64 n) in
  let d_abs := if 0 <=? d then u64 d else u64 (- u64 d) in
  q_abs ← udiv64 n_abs d_abs;
  Some (if Bool.eqb (n <? 0) (d <? 0) then i64 q_abs else i64 (- i64 q_abs)).

Definition smod64 (n d : Z) : option Z :=
  q ← sdiv64 n d; Some (i32 (i64 (n - i64 (d * q)))).

Definition __divdi3 (n d : Z) : option Z := sdiv64 n d.
Definition __moddi3 (n d : Z) : option Z := r ← smod64 n d; Some (i64 r).
Definition __udivdi3 (n d : Z) : option Z := udiv64 n d.
Definition __umoddi3 (n d : Z) : option Z := r ← umod64 n d; Some (u64 r).

(** ** The steps of the algorithm *)

Lemma divl_correct n d : in_u 64 n -> 0 < d -> n < d * 2 ^ 32 -> divl n d = Some (n / d).
Proof.
  unfold in_u. intros Hn Hd Hq. unfold divl. rewrite Z.shiftr_div_pow2 by lia.
  rewrite (uwrap_small 32 (n / 2 ^ 32)) by (split; [apply Z.div_pos|apply Z.div_lt_upper_bound]; lia).
  unfold uwrap. replace (n / 2 ^ 32 * 2 ^ 32 + n mod 2 ^ 32) with n by (pose proof (Z.div_mod n (2 ^ 32)); lia).
  rewrite (proj2 (Z.eqb_neq d 0)) by lia.
  assert (n / d < 2 ^ 32) by (apply Z.div_lt_upper_bound; lia).
  by rewrite (proj2 (Z.leb_gt _ _)).
Qed.

Lemma nlz_correct x : 0 < x < 2 ^ 32 -> 0 <= nlz x <= 31 /\ 2 ^ 31 <= x * 2 ^ nlz x < 2 ^ 32.
Proof.
  intros Hx. unfold nlz. rewrite !Z.shiftl_mul_pow2 by lia.
  repeat match goal with
  | |- context [?a <=? ?b] => destruct (Z.leb_spec a b); rewrite ?Z.shiftl_mul_pow2 by lia; rewrite ?uwrap_small by (unfold in_u; lia)
  end; cbn [Z.add Z.pow]; lia.
Qed.

(** Cutting the low [k] bits off a divisor that keeps at least 31 of them makes
    a 64-bit quotient too large by at most one. *)
Lemma truncated_divisor n d k : 0 <= n < 2 ^ 64 -> 1 <= k -> 2 ^ 31 <= d / 2 ^ k ->
  n / d <= n / (d / 2 ^ k * 2 ^ k) <= n / d + 1.
Proof.
  intros Hn Hk Hv. set (v := d / 2 ^ k) in *. set (x := 2 ^ (k - 1)).
  assert (Hx : 0 < x) by (apply Z.pow_pos_nonneg; lia).
  assert (Ek : 2 ^ k = 2 * x) by (unfold x; rewrite <- Z.pow_succ_r by lia; f_equal; lia).
  assert (Hd : d = v * 2 ^ k + d mod 2 ^ k) by (unfold v; pose proof (Z.div_mod d (2 ^ k)); lia).
  pose proof (Z.mod_pos_bound d (2 ^ k) ltac:(lia)) as Hm. set (e := d mod 2 ^ k) in *. rewrite Ek in *.
  set (D := v * (2 * x)) in *. assert (HD : 2 ^ 32 * x <= D) by (unfold D; nia).
  split; [apply Z.div_le_compat_l; lia|].
  assert (Hcut : n * e < D * d).
  { assert (n * e <= (2 ^ 64 - 1) * (2 * x - 1)) by nia.
    assert (2 ^ 64 * (x * x) <= D * d) by nia.
    assert (0 <= (x - 1) * (x - 1)) by nia. nia. }
  assert (n / D < n / d + 2); [|lia]. apply Z.div_lt_upper_bound; [lia|].
  pose proof (Z.div_mod n d ltac:(lia)). pose proof (Z.mod_pos_bound n d ltac:(lia)).
  assert (n < d * (n / d + 1)) by lia.
  assert (n * d < D * (n / d + 2) * d); [|nia].
  assert (n * D < D * d * (n / d + 1)) by nia. nia.
Qed.

Lemma udiv64_narrow n d : in_u 64 n -> 0 < d < 2 ^ 32 -> udiv64 n d = Some (n / d).
Proof.
  unfold in_u. intros Hn Hd. unfold udiv64. rewrite !Z.shiftr_div_pow2, (Z.div_small d) by lia. cbn [Z.eqb].
  set (n1 := n / 2 ^ 32). set (n0 := n mod 2 ^ 32).
  assert (En : n = 2 ^ 32 * n1 + n0) by (unfold n1, n0; apply Z.div_mod; lia).
  pose proof (Z.mod_pos_bound n (2 ^ 32) ltac:(lia)) as H0. fold n0 in H0.
  rewrite (uwrap_small 32 n1), (uwrap_small 32 d) by (unfold in_u; lia).
  change (u32 n) with n0. unfold mod32, div32. rewrite (proj2 (Z.eqb_neq d 0)) by lia. cbn [mbind option_bind].
  change (1 ≪ 32) with (2 ^ 32). pose proof (Z.mod_pos_bound n1 d ltac:(lia)) as Hr.
  pose proof (Z.div_mod n1 d ltac:(lia)) as E1. set (r := n1 mod d) in *. set (q := n1 / d) in *.
  assert (Hq : 0 <= q) by (unfold q; apply Z.div_pos; lia).
  assert (q <= n1) by nia.
  rewrite (uwrap_small 64 (2 ^ 32 * r)), (uwrap_small 64 (2 ^ 32 * q)) by (unfold in_u; lia).
  rewrite (uwrap_small 64 (2 ^ 32 * r + n0)) by (unfold in_u; lia).
  rewrite divl_correct by (unfold in_u; nia). cbn [mbind option_bind].
  assert (E : (2 ^ 32 * r + n0) / d + 2 ^ 32 * q = n / d).
  { rewrite <- Z.div_add by lia. f_equal. rewrite En, E1. ring. }
  rewrite E, uwrap_small; [done|]. unfold in_u. split; [apply Z.div_pos; lia|]. apply Z.div_lt_upper_bound; nia.
Qed.

(** Shifting the leading bit of a wide divisor to the top: its upper half is the
    divisor without its low bits. *)
Lemma normalised_divisor d : 2 ^ 32 <= d < 2 ^ 64 ->
  let s := nlz (u32 (d ≫ 32)) in
  0 <= s <= 31 /\ u32 (u64 (d ≪ s) ≫ 32) = d / 2 ^ (32 - s) /\ 2 ^ 31 <= d / 2 ^ (32 - s) < 2 ^ 32.
Proof.
  intros Hd. rewrite Z.shiftr_div_pow2 by lia.
  assert (H1 : 1 <= d / 2 ^ 32 < 2 ^ 32).
  { split; [apply Z.div_le_lower_bound; lia|apply Z.div_lt_upper_bound; lia]. }
  rewrite uwrap_small by (unfold in_u; lia). intros s.
  destruct (nlz_correct (d / 2 ^ 32)) as [Hs Hns]; [lia|]. fold s in Hs, Hns.
  rewrite Z.shiftl_mul_pow2, Z.shiftr_div_pow2 by lia.
  assert (Hp : 0 < 2 ^ s) by (apply Z.pow_pos_nonneg; lia).
  assert (Eps : 2 ^ (32 - s) * 2 ^ s = 2 ^ 32) by (rewrite <- Z.pow_add_r by lia; f_equal; lia).
  pose proof (Z.div_mod d (2 ^ 32) ltac:(lia)). pose proof (Z.mod_pos_bound d (2 ^ 32) ltac:(lia)).
  assert (Hds : 2 ^ 63 <= d * 2 ^ s < 2 ^ 64).
  { split; [nia|]. assert (d / 2 ^ 32 < 2 ^ (32 - s)) by nia.
    assert ((d / 2 ^ 32 + 1) * 2 ^ s <= 2 ^ 32) by nia. nia. }
  assert (Ev : d * 2 ^ s / 2 ^ 32 = d / 2 ^ (32 - s)).
  { rewrite <- Eps. apply Z.div_mul_cancel_r; nia. }
  rewrite (uwrap_small 64), Ev by (unfold in_u; lia).
  assert (Hv : 2 ^ 31 <= d / 2 ^ (32 - s) < 2 ^ 32).
  { rewrite <- Ev. split; [apply Z.div_le_lower_bound|apply Z.div_lt_upper_bound]; lia. }
  rewrite uwrap_small by (unfold in_u; lia). done.
Qed.

(** The correction of an estimate that may be one too large. *)
Lemma corrected_quotient n d q : 0 < d <= n -> n < 2 ^ 64 -> n / d <= q <= n / d + 1 ->
  (if u64 (n - u64 (u64 (q - 1) * d)) <? d then u64 (q - 1) else q) = n / d.
Proof.
  intros Hd Hn Hq. pose proof (Z.div_mod n d ltac:(lia)). pose proof (Z.mod_pos_bound n d ltac:(lia)).
  assert (1 <= n / d) by (apply Z.div_le_lower_bound; lia).
  assert (n / d <= n) by (apply Z.div_le_upper_bound; nia).
  rewrite (uwrap_small 64 (q - 1)) by (unfold in_u; lia).
  rewrite (uwrap_small 64 ((q - 1) * d)) by (unfold in_u; nia).
  rewrite uwrap_small by (unfold in_u; nia).
  destruct (Z.ltb_spec (n - (q - 1) * d) d); nia.
Qed.

Lemma udiv64_wide n d : in_u 64 n -> in_u 64 d -> 2 ^ 32 <= d -> udiv64 n d = Some (n / d).
Proof.
  unfold in_u. intros Hn Hd Hw. unfold udiv64.
  destruct (normalised_divisor d ltac:(lia)) as (Hs & Ev & Hv).
  set (s := nlz (u32 (d ≫ 32))) in *. rewrite Ev, !Z.shiftr_div_pow2 by lia.
  assert (1 <= d / 2 ^ 32) by (apply Z.div_le_lower_bound; lia). rewrite (proj2 (Z.eqb_neq _ 0)) by lia.
  destruct (Z.ltb_spec n d) as [Hlt|Hge]; [by rewrite Z.div_small by lia|].
  destruct (truncated_divisor n d (32 - s)) as [Hlo Hhi]; [lia..|].
  set (v := d / 2 ^ (32 - s)) in *. change (2 ^ 1) with 2.
  assert (H2 : 0 <= n / 2 < 2 ^ 63) by (split; [apply Z.div_pos|apply Z.div_lt_upper_bound]; lia).
  rewrite divl_correct by (unfold in_u; lia). cbn [mbind option_bind]. rewrite Z.shiftr_div_pow2 by lia.
  assert (Hp : 0 < 2 ^ (31 - s)) by (apply Z.pow_pos_nonneg; lia).
  assert (E31 : 2 ^ (32 - s) = 2 * 2 ^ (31 - s)) by (rewrite <- Z.pow_succ_r by lia; f_equal; lia).
  assert (Eq : n / 2 / v / 2 ^ (31 - s) = n / (v * 2 ^ (32 - s))).
  { rewrite !Z.div_div by lia. f_equal. rewrite E31. ring. }
  rewrite Eq, corrected_quotient; [done|lia|lia|done].
Qed.

Lemma udiv64_ok n d : in_u 64 n -> in_u 64 d -> udiv64 n d = if d =? 0 then None else Some (n / d).
Proof.
  intros Hn Hd. destruct (Z.eqb_spec d 0) as [->|Hz]; [done|]. unfold in_u in *.
  destruct (Z.lt_ge_cases d (2 ^ 32)); [apply udiv64_narrow|apply udiv64_wide]; unfold in_u; lia.
Qed.

(** ** Signed division *)

Lemma swrap_mod x y : x mod 2 ^ 64 = y mod 2 ^ 64 -> i64 x = i64 y.
Proof. intros E. unfold swrap. by rewrite <- (Zplus_mod_idemp_l x), <- (Zplus_mod_idemp_l y), E. Qed.

Lemma i64_mod x : i64 x mod 2 ^ 64 = x mod 2 ^ 64.
Proof.
  unfold swrap. rewrite Zminus_mod_idemp_l. f_equal. lia.
Qed.

Lemma u64_mod x : u64 x mod 2 ^ 64 = x mod 2 ^ 64.
Proof. unfold uwrap. apply Z.mod_mod. lia. Qed.

Lemma i64_opp x : i64 (- i64 x) = i64 (- x).
Proof. apply swrap_mod. rewrite <- !Z.sub_0_l, <- Zminus_mod_idemp_r, i64_mod, Zminus_mod_idemp_r. done. Qed.

Lemma i64_mul_r x y : i64 (x * i64 y) = i64 (x * y).
Proof. apply swrap_mod. by rewrite <- Zmult_mod_idemp_r, i64_mod, Zmult_mod_idemp_r. Qed.

Lemma i64_sub_r x y : i64 (x - i64 y) = i64 (x - y).
Proof. apply swrap_mod. by rewrite <- Zminus_mod_idemp_r, i64_mod, Zminus_mod_idemp_r. Qed.

Lemma abs_64 n : in_s 64 n -> (if 0 <=? n then u64 n else u64 (- u64 n)) = Z.abs n.
Proof.
  unfold in_s. intros Hn. destruct (Z.leb_spec 0 n) as [H|H].
  - rewrite uwrap_small by (unfold in_u; lia). lia.
  - unfold uwrap. rewrite <- (Z.sub_0_l (n mod _)), Zminus_mod_idemp_r, Z.mod_small by lia. lia.
Qed.

Lemma sdiv64_ok n d : in_s 64 n -> in_s 64 d ->
  sdiv64 n d = if d =? 0 then None else Some (i64 (Z.quot n d)).
Proof.
  intros Hn Hd. unfold sdiv64. rewrite !abs_64 by done.
  rewrite udiv64_ok by (unfold in_s, in_u in *; lia).
  destruct (Z.eqb_spec d 0) as [->|Hz]; [done|]. rewrite (proj2 (Z.eqb_neq (Z.abs d) 0)) by lia.
  cbn [mbind option_bind]. f_equal. rewrite i64_opp. rewrite (Z.quot_div n d) by done.
  destruct (Z.ltb_spec n 0), (Z.ltb_spec d 0); cbn [Bool.eqb]; f_equal; destruct n, d; try lia; cbn; try done.
Qed.

(** C35: [/] on [long long] and [unsigned long long] operands: the quotient of
    any two 64-bit integers, truncated toward zero and wrapped to 64 bits, and
    a divide error exactly when the divisor is zero; the DIVL instructions
    inside never trap. *)
Theorem division_correct (n d : Z) :
  (in_u 64 n -> in_u 64 d -> __udivdi3 n d = if d =? 0 then None else Some (n / d)) /\
  (in_s 64 n -> in_s 64 d -> __divdi3 n d = if d =? 0 then None else Some (i64 (Z.quot n d))).
Proof. split; [apply udiv64_ok|apply sdiv64_ok]. Qed.

Lemma division_correct_witness :
  __udivdi3 (2 ^ 64 - 1) (2 ^ 32 + 1) = Some (2 ^ 32 - 1) /\ __divdi3 (- 2 ^ 63) (-1) = Some (- 2 ^ 63).
Proof.
  split.
  - apply (proj1 (division_correct (2 ^ 64 - 1) (2 ^ 32 + 1))); unfold in_u; lia.
  - apply (proj2 (division_correct (- 2 ^ 63) (-1))); unfold in_s; lia.
Defined.

(** [%] on 64-bit operands passes through a 32-bit result: it returns the
    low 32 bits of the remainder, zero- or sign-extended.  So it is exact for
    divisors up to 2^32 (2^31 when signed), and not beyond. *)
Theorem remainder_correct (n d : Z) :
  (in_u 64 n -> in_u 64 d ->
     __umoddi3 n d = (if d =? 0 then None else Some (u32 (n mod d))) /\
     (0 < d <= 2 ^ 32 -> __umoddi3 n d = Some (n mod d))) /\
  (in_s 64 n -> in_s 64 d ->
     __moddi3 n d = (if d =? 0 then None else Some (i32 (Z.rem n d))) /\
     (0 < Z.abs d <= 2 ^ 31 -> __moddi3 n d = Some (Z.rem n d))) /\
  __umoddi3 (2 ^ 32) (2 ^ 33) = Some 0.
Proof.
  split_and!; [intros Hn Hd..|reflexivity].
  - assert (E : __umoddi3 n d = if d =? 0 then None else Some (u32 (n mod d))).
    { unfold __umoddi3, umod64. rewrite udiv64_ok by done. destruct (Z.eqb_spec d 0) as [|Hz]; [done|].
      unfold in_u in *. cbn [mbind option_bind]. pose proof (Z.div_mod n d ltac:(lia)).
      pose proof (Z.mod_pos_bound n d ltac:(lia)). assert (0 <= n / d) by (apply Z.div_pos; lia).
      rewrite (uwrap_small 64 (d * (n / d))) by (unfold in_u; nia).
      rewrite (uwrap_small 64 (n - d * (n / d))) by (unfold in_u; lia). rewrite uwrap_small.
      - do 2 f_equal. lia.
      - pose proof (uwrap_range 32 (n - d * (n / d)) ltac:(lia)). unfold in_u in *. lia. }
    split; [done|]. intros Hs. rewrite E, (proj2 (Z.eqb_neq d 0)), uwrap_small; [done| |lia].
    pose proof (Z.mod_pos_bound n d). unfold in_u. lia.
  - assert (E : __moddi3 n d = if d =? 0 then None else Some (i32 (Z.rem n d))).
    { unfold __moddi3, smod64. rewrite sdiv64_ok by done. destruct (Z.eqb_spec d 0) as [|Hz]; [done|].
      cbn [mbind option_bind]. rewrite i64_mul_r, i64_sub_r.
      replace (n - d * Z.quot n d) with (Z.rem n d) by (pose proof (Z.quot_rem' n d); lia).
      pose proof (Z.rem_bound_abs n d Hz). rewrite (swrap_small 64 (Z.rem n d)) by (unfold in_s in *; lia).
      rewrite swrap_small; [done|lia|]. pose proof (swrap_range 32 (Z.rem n d) ltac:(lia)). unfold in_s in *. lia. }
    split; [done|]. intros Hs. rewrite E, (proj2 (Z.eqb_neq d 0)), swrap_small; [done|lia| |lia].
    pose proof (Z.rem_bound_abs n d). unfold in_s. lia.
Qed.

Lemma remainder_correct_witness : __umoddi3 (2 ^ 40 + 7) 10 = Some 3 /\ __moddi3 (- 7) 3 = Some (-1).
Proof.
  split.
  - apply (proj1 (remainder_correct (2 ^ 40 + 7) 10)); unfold in_u; lia.
  - apply (proj1 (proj2 (remainder_correct (-7) 3))); unfold in_s; lia.
Defined.
