(* ===== verification/FsBase.v ===== *)
(** * The state of the file system

    The file system disk, the objects that the file system allocates, and the
    static variables of filesys/.  The disk is an array of sectors of
    [DISK_SECTOR_SIZE] bytes; the driver's transfer of a sector is one step.
    malloc() is an interface: the block it returns for a request, if any, is
    not one that is in use.  The layouts of the structures that are stored on
    disk are given byte by byte. *)

From Stdlib Require Import ZArith Lia.
From stdpp Require Import base numbers gmap list.
From S2P Require Import Prelude Bitmap.

Open Scope Z_scope.

Definition DISK_SECTOR_SIZE : Z := 512.
Definition FREE_MAP_SECTOR : Z := 0.
Definition ROOT_DIR_SECTOR : Z := 1.
Definition INODE_MAGIC : Z := 0x494e4f44.
Definition NAME_MAX : Z := 14.

(** ** Structures *)

(** [struct inode_disk], without the words that are not used. *)
Record inode_disk := mk_inode_disk { start : Z; file_size : Z; magic : Z }.

(** [struct inode]; its list element is represented in [open_inodes]. *)
Record inode := mk_inode {
  sector : Z; open_cnt : Z; removed : bool; deny_write_cnt : Z; data : inode_disk }.

Record file := mk_file { file_inode : Z; pos : Z; deny_write : bool }.
Record dir := mk_dir { dir_inode : Z; dir_pos : Z }.

(** What a block of memory holds. *)
Inductive object :=
  | Block                     (** raw memory: buffers, bitmaps *)
  | Inode (i : inode)
  | File (f : file)
  | Dir (d : dir).

Record fs := mk_fs {
  is_ata : bool;              (** hd0:1 is a disk *)
  capacity : Z;               (** its sectors *)
  disk : gmap Z (list Z);
  heap : gmap Z object;
  requests : nat;             (** calls of malloc() and calloc() so far *)
  open_inodes : list Z;       (** the list of open inodes, front first *)
  free_map : bitmap;
  free_map_file : Z }.

(** ** Updates of the state *)

Definition set_disk (d : gmap Z (list Z)) (s : fs) : fs :=
  mk_fs (is_ata s) (capacity s) d (heap s) (requests s) (open_inodes s) (free_map s) (free_map_file s).
Definition set_heap (h : gmap Z object) (s : fs) : fs :=
  mk_fs (is_ata s) (capacity s) (disk s) h (requests s) (open_inodes s) (free_map s) (free_map_file s).
Definition set_requests (n : nat) (s : fs) : fs :=
  mk_fs (is_ata s) (capacity s) (disk s) (heap s) n (open_inodes s) (free_map s) (free_map_file s).
Definition set_open_inodes (l : list Z) (s : fs) : fs :=
  mk_fs (is_ata s) (capacity s) (disk s) (heap s) (requests s) l (free_map s) (free_map_file s).
Definition set_free_map (b : bitmap) (s : fs) : fs :=
  mk_fs (is_ata s) (capacity s) (disk s) (heap s) (requests s) (open_inodes s) b (free_map_file s).
Definition set_free_map_file (p : Z) (s : fs) : fs :=
  mk_fs (is_ata s) (capacity s) (disk s) (heap s) (requests s) (open_inodes s) (free_map s) p.

(** ** Memory *)

(** malloc(): which block the [n]th request is given while [live] blocks are in
    use, and what words a fresh block of a size holds. *)
Class Memory := {
  place : nat -> gset Z -> option Z;
  garbage : Z -> list Z;
  place_fresh : forall n live p, place n live = Some p -> 0 < p /\ p ∉ live;
  garbage_size : forall size, size <= 4 * Z.of_nat (length (garbage size));
  garbage_words : forall size, Forall (in_u 32) (garbage size) }.

Definition PANIC {A} : M fs A := fail AssertFail.

Section Memory.
Context `{!Memory}.

Definition malloc (o : object) : M fs Z :=
  s ← get;
  put (set_requests (S (requests s)) s);;
  match place (requests s) (dom (heap s)) with
  | Some p => modify (fun s => set_heap (<[p := o]> (heap s)) s);; ret p
  | None => ret NULL
  end.

Definition free (p : Z) : M fs unit :=
  if p =? NULL then ret tt else
  s ← get;
  of_option BadAccess (heap s !! p);;
  put (set_heap (delete p (heap s)) s).

End Memory.

Definition load (p : Z) : M fs object := s ← get; of_option BadAccess (heap s !! p).
Definition store (p : Z) (o : object) : M fs unit :=
  load p;; modify (fun s => set_heap (<[p := o]> (heap s)) s).

Definition get_inode (p : Z) : M fs inode :=
  o ← load p; match o with Inode i => ret i | _ => fail BadAccess end.
Definition get_file (p : Z) : M fs file :=
  o ← load p; match o with File f => ret f | _ => fail BadAccess end.
Definition get_dir (p : Z) : M fs dir :=
  o ← load p; match o with Dir d => ret d | _ => fail BadAccess end.

(** ** The disk *)

(** The assertions are those of select_sector(). *)
Definition disk_read (sec_no : Z) : M fs (list Z) :=
  s ← get;
  ASSERT (sec_no <? capacity s);;
  ASSERT (sec_no <? 2 ^ 28);;
  of_option BadAccess (disk s !! sec_no).

Definition disk_write (sec_no : Z) (bs : list Z) : M fs unit :=
  s ← get;
  ASSERT (sec_no <? capacity s);;
  ASSERT (sec_no <? 2 ^ 28);;
  put (set_disk (<[sec_no := bs]> (disk s)) s).

(** ** Layouts *)

(** A 32-bit word as bytes, and the word that the first four bytes hold. *)
Definition le32 (x : Z) : list Z :=
  [u8 x; u8 (x ≫ 8); u8 (x ≫ 16); u8 (x ≫ 24)].
Definition word (bs : list Z) : Z :=
  match bs with
  | a :: b :: c :: d :: _ => a + b * 2 ^ 8 + c * 2 ^ 16 + d * 2 ^ 24
  | _ => 0
  end.

Fixpoint words (n : nat) (bs : list Z) : list Z :=
  match n with
  | O => []
  | S n => word bs :: words n (drop 4 bs)
  end.
Definition le32s (ws : list Z) : list Z := mjoin (le32 <$> ws).

Definition encode_inode (d : inode_disk) : list Z :=
  le32 (start d) ++ le32 (file_size d) ++ le32 (magic d) ++ replicate 500 0.
Definition decode_inode (bs : list Z) : inode_disk :=
  mk_inode_disk (word bs) (i32 (word (drop 4 bs))) (word (drop 8 bs)).

(** [struct dir_entry]: a sector number, a name and a flag. *)
Definition sizeof_entry : Z := 20.
Definition entry_sector (e : list Z) : Z := word e.
Definition entry_name (e : list Z) : list Z := take 15 (drop 4 e).
Definition in_use (e : list Z) : bool := negb (default 0 (e !! 19%nat) =? 0).

(** Replacing the bytes from index [i] on by [new]; reading a part of a
    buffer. *)
Definition splice (bs : list Z) (i : nat) (new : list Z) : list Z :=
  take i bs ++ new ++ drop (i + length new) bs.
Definition part (bs : list Z) (i n : Z) : M fs (list Z) :=
  if (0 <=? i) && (i + n <=? Z.of_nat (length bs)) then ret (take (Z.to_nat n) (drop (Z.to_nat i) bs))
  else fail BadAccess.
