(* ===== verification/Inode.v ===== *)
(** * filesys/inode.c, filesys/file.c, filesys/free-map.c: files

    The functions of the three files, in the order in which they call each
    other: inode_create() and inode_close() use the free map, which is itself
    stored in a file.  A buffer that a function fills is its result; a buffer
    that it reads is a list of bytes.  A pointer is an address, null if the
    code would get a null pointer. *)

From Stdlib Require Import ZArith Lia.
From stdpp Require Import base numbers gmap list.
From S2P Require Import Prelude Bitmap FsBase.

Open Scope Z_scope.

Section Inode.
Context `{!Memory}.

(** ** inode.c: data *)

(** [DIV_ROUND_UP] on [off_t] operands, converted to [size_t]. *)
Definition bytes_to_sectors (size : Z) : Z :=
  u32 (Z.quot (i32 (size + DISK_SECTOR_SIZE - 1)) DISK_SECTOR_SIZE).

Definition byte_to_sector (inode : Z) (pos : Z) : M fs Z :=
  ASSERT (negb (inode =? NULL));;
  i ← get_inode inode;
  ret (if pos <? file_size (data i) then u32 (start (data i) + Z.quot pos DISK_SECTOR_SIZE) else u32 (-1)).

Definition inode_length (inode : Z) : M fs Z := i ← get_inode inode; ret (file_size (data i)).

Definition inode_get_inumber (inode : Z) : M fs Z := i ← get_inode inode; ret (sector i).

(** [sector_idx], [sector_ofs], [sector_left] and [chunk_size] of a round of
    inode_read_at() and inode_write_at(). *)
Definition next_chunk (inode size offset : Z) : M fs (Z * Z * Z * Z) :=
  sector_idx ← byte_to_sector inode offset;
  let sector_ofs := Z.rem offset DISK_SECTOR_SIZE in
  len ← inode_length inode;
  let inode_left := i32 (len - offset) in
  let sector_left := DISK_SECTOR_SIZE - sector_ofs in
  let min_left := if inode_left <? sector_left then inode_left else sector_left in
  ret (sector_idx, sector_ofs, sector_left, if size <? min_left then size else min_left).

(** [if (bounce == NULL) bounce = malloc (DISK_SECTOR_SIZE);] *)
Definition bounce_buffer (bounce : Z) : M fs Z := if bounce =? NULL then malloc Block else ret bounce.

(** The variables of the loop are [size], [offset], the bytes read and
    [bounce]. *)
Definition read_round (inode : Z) (st : Z * Z * list Z * Z) : M fs (Z * Z * list Z * Z + list Z * Z) :=
  let '(size, offset, bytes_read, bounce) := st in
  if negb (0 <? size) then ret (inr (bytes_read, bounce)) else
  c ← next_chunk inode size offset;
  let '(sector_idx, sector_ofs, sector_left, chunk_size) := c in
  if chunk_size <=? 0 then ret (inr (bytes_read, bounce)) else
  if (sector_ofs =? 0) && (chunk_size =? DISK_SECTOR_SIZE) then
    bs ← disk_read sector_idx;
    ret (inl (size - chunk_size, offset + chunk_size, bytes_read ++ bs, bounce))
  else
    bounce ← bounce_buffer bounce;
    if bounce =? NULL then ret (inr (bytes_read, bounce)) else
    bs ← disk_read sector_idx;
    chunk ← part bs sector_ofs chunk_size;
    ret (inl (size - chunk_size, offset + chunk_size, bytes_read ++ chunk, bounce)).

Definition inode_read_at (inode size offset : Z) : M fs (list Z) :=
  r ← iterate (S (Z.to_nat size)) (read_round inode) (size, offset, [], NULL);
  free r.2;;
  ret r.1.

(** The variables of the loop are [size], [offset], [bytes_written] and
    [bounce]. *)
Definition write_round (inode : Z) (buffer : list Z) (st : Z * Z * Z * Z) : M fs (Z * Z * Z * Z + Z * Z) :=
  let '(size, offset, bytes_written, bounce) := st in
  if negb (0 <? size) then ret (inr (bytes_written, bounce)) else
  c ← next_chunk inode size offset;
  let '(sector_idx, sector_ofs, sector_left, chunk_size) := c in
  if chunk_size <=? 0 then ret (inr (bytes_written, bounce)) else
  if (sector_ofs =? 0) && (chunk_size =? DISK_SECTOR_SIZE) then
    chunk ← part buffer bytes_written chunk_size;
    disk_write sector_idx chunk;;
    ret (inl (size - chunk_size, offset + chunk_size, bytes_written + chunk_size, bounce))
  else
    bounce ← bounce_buffer bounce;
    if bounce =? NULL then ret (inr (bytes_written, bounce)) else
    bs ← (if (0 <? sector_ofs) || (chunk_size <? sector_left) then disk_read sector_idx
          else ret (replicate 512 0));
    chunk ← part buffer bytes_written chunk_size;
    disk_write sector_idx (splice bs (Z.to_nat sector_ofs) chunk);;
    ret (inl (size - chunk_size, offset + chunk_size, bytes_written + chunk_size, bounce)).

Definition inode_write_at (inode : Z) (buffer : list Z) (size offset : Z) : M fs Z :=
  i ← get_inode inode;
  if negb (deny_write_cnt i =? 0) then ret 0 else
  r ← iterate (S (Z.to_nat size)) (write_round inode buffer) (size, offset, 0, NULL);
  free r.2;;
  ret r.1.

(** ** inode.c: open inodes *)

Definition inode_init : M fs unit := modify (set_open_inodes []).

Definition set_open_cnt (n : Z) (i : inode) : inode := mk_inode (sector i) n (removed i) (deny_write_cnt i) (data i).
Definition set_deny_write_cnt (n : Z) (i : inode) : inode := mk_inode (sector i) (open_cnt i) (removed i) n (data i).

Definition inode_reopen (inode : Z) : M fs Z :=
  (if negb (inode =? NULL) then
     i ← get_inode inode; store inode (Inode (set_open_cnt (open_cnt i + 1) i))
   else ret tt);;
  ret inode.

(** The loop over [open_inodes]. *)
Fixpoint find_open (sec : Z) (l : list Z) : M fs (option Z) :=
  match l with
  | [] => ret None
  | p :: l => i ← get_inode p; if sector i =? sec then ret (Some p) else find_open sec l
  end.

Definition inode_open (sec : Z) : M fs Z :=
  s ← get;
  found ← find_open sec (open_inodes s);
  match found with
  | Some p => inode_reopen p
  | None =>
      inode ← malloc Block;
      if inode =? NULL then ret NULL else
      modify (fun s => set_open_inodes (inode :: open_inodes s) s);;
      bs ← disk_read sec;
      store inode (Inode (mk_inode sec 1 false 0 (decode_inode bs)));;
      ret inode
  end.

Definition inode_remove (inode : Z) : M fs unit :=
  ASSERT (negb (inode =? NULL));;
  i ← get_inode inode;
  store inode (Inode (mk_inode (sector i) (open_cnt i) true (deny_write_cnt i) (data i))).

Definition inode_deny_write (inode : Z) : M fs unit :=
  i ← get_inode inode;
  store inode (Inode (set_deny_write_cnt (deny_write_cnt i + 1) i));;
  ASSERT (deny_write_cnt i + 1 <=? open_cnt i).

Definition inode_allow_write (inode : Z) : M fs unit :=
  i ← get_inode inode;
  ASSERT (0 <? deny_write_cnt i);;
  ASSERT (deny_write_cnt i <=? open_cnt i);;
  store inode (Inode (set_deny_write_cnt (deny_write_cnt i - 1) i)).

(** ** file.c: reading and writing *)

Definition set_pos (n : Z) (f : file) : file := mk_file (file_inode f) n (deny_write f).
Definition set_deny_write (b : bool) (f : file) : file := mk_file (file_inode f) (pos f) b.

Definition file_get_inode (file : Z) : M fs Z := f ← get_file file; ret (file_inode f).

Definition file_read_at (file size file_ofs : Z) : M fs (list Z) :=
  f ← get_file file; inode_read_at (file_inode f) size file_ofs.

Definition file_write_at (file : Z) (buffer : list Z) (size file_ofs : Z) : M fs Z :=
  f ← get_file file; inode_write_at (file_inode f) buffer size file_ofs.

Definition file_read (file size : Z) : M fs (list Z) :=
  f ← get_file file;
  bytes_read ← inode_read_at (file_inode f) size (pos f);
  store file (File (set_pos (pos f + Z.of_nat (length bytes_read)) f));;
  ret bytes_read.

Definition file_write (file : Z) (buffer : list Z) (size : Z) : M fs Z :=
  f ← get_file file;
  bytes_written ← inode_write_at (file_inode f) buffer size (pos f);
  store file (File (set_pos (pos f + bytes_written) f));;
  ret bytes_written.

Definition file_deny_write (file : Z) : M fs unit :=
  ASSERT (negb (file =? NULL));;
  f ← get_file file;
  if negb (deny_write f) then
    store file (File (set_deny_write true f));; inode_deny_write (file_inode f)
  else ret tt.

Definition file_allow_write (file : Z) : M fs unit :=
  ASSERT (negb (file =? NULL));;
  f ← get_file file;
  if deny_write f then
    store file (File (set_deny_write false f));; inode_allow_write (file_inode f)
  else ret tt.

Definition file_length (file : Z) : M fs Z :=
  ASSERT (negb (file =? NULL));;
  f ← get_file file; inode_length (file_inode f).

Definition file_seek (file new_pos : Z) : M fs unit :=
  ASSERT (negb (file =? NULL));;
  ASSERT (0 <=? new_pos);;
  f ← get_file file; store file (File (set_pos new_pos f)).

Definition file_tell (file : Z) : M fs Z :=
  ASSERT (negb (file =? NULL));;
  f ← get_file file; ret (pos f).

(** ** free-map.c: allocation *)

Definition on_map {A} (m : M bitmap A) : M fs A := zoom free_map set_free_map m.

Definition bitmap_write (b : bitmap) (file : Z) : M fs bool :=
  let size := byte_cnt (bit_cnt b) in
  n ← file_write_at file (le32s (bits b)) size 0;
  ret (n =? size).

(** The bytes read replace the first bytes of the array. *)
Definition bitmap_read (file : Z) : M fs bool :=
  b ← gets free_map;
  if 0 <? bit_cnt b then
    let size := byte_cnt (bit_cnt b) in
    bs ← file_read_at file size 0;
    let raw := splice (le32s (bits b)) 0 bs in
    modify (set_free_map (mk_bitmap (bit_cnt b) (words (length (bits b)) raw)));;
    on_map (update_elem (fun e => Z.land e (last_mask b)) (elem_cnt (bit_cnt b) - 1));;
    ret (Z.of_nat (length bs) =? size)
  else ret true.

(** The result is [*sectorp], if it is set. *)
Definition free_map_allocate (cnt : Z) : M fs (option Z) :=
  sector ← on_map (bitmap_scan_and_flip 0 cnt false);
  s ← get;
  sector ← (if negb (sector =? BITMAP_ERROR) && negb (free_map_file s =? NULL) then
    ok ← bitmap_write (free_map s) (free_map_file s);
    if negb ok then on_map (bitmap_set_multiple sector cnt false);; ret BITMAP_ERROR
    else ret sector
   else ret sector);
  ret (if negb (sector =? BITMAP_ERROR) then Some sector else None).

Definition free_map_release (sector cnt : Z) : M fs unit :=
  all ← on_map (bitmap_all sector cnt);
  ASSERT all;;
  on_map (bitmap_set_multiple sector cnt false);;
  s ← get;
  bitmap_write (free_map s) (free_map_file s);;
  ret tt.

(** ** inode.c: creating and closing *)

Definition zeros : list Z := replicate 512 0.

Definition inode_create (sec length : Z) : M fs bool :=
  ASSERT (0 <=? length);;
  disk_inode ← malloc Block;
  if disk_inode =? NULL then ret false else
  let sectors := bytes_to_sectors length in
  r ← free_map_allocate sectors;
  success ← (match r with
    | Some first =>
        disk_write sec (encode_inode (mk_inode_disk first length INODE_MAGIC));;
        (if 0 <? sectors then for_from (Z.to_nat sectors) 0 (fun i => disk_write (u32 (first + i)) zeros)
         else ret tt);;
        ret true
    | None => ret false
    end);
  free disk_inode;;
  ret success.

Definition inode_close (inode : Z) : M fs unit :=
  if inode =? NULL then ret tt else
  i ← get_inode inode;
  store inode (Inode (set_open_cnt (open_cnt i - 1) i));;
  if open_cnt i - 1 =? 0 then
    modify (fun s => set_open_inodes (filter (fun p => p <> inode) (open_inodes s)) s);;
    (if removed i then
       free_map_release (sector i) 1;;
       free_map_release (start (data i)) (bytes_to_sectors (file_size (data i)))
     else ret tt);;
    free inode
  else ret tt.

(** ** file.c: opening and closing *)

Definition file_open (inode : Z) : M fs Z :=
  file ← malloc Block;
  if negb (inode =? NULL) && negb (file =? NULL) then
    store file (File (mk_file inode 0 false));; ret file
  else
    inode_close inode;;
    free file;;
    ret NULL.

Definition file_reopen (file : Z) : M fs Z :=
  f ← get_file file;
  p ← inode_reopen (file_inode f);
  file_open p.

Definition file_close (file : Z) : M fs unit :=
  if negb (file =? NULL) then
    file_allow_write file;;
    f ← get_file file;
    inode_close (file_inode f);;
    free file
  else ret tt.

(** ** free-map.c: the free map file *)

(** The bitmap and its array are two blocks; a null pointer for either makes
    bitmap_create() return a null pointer. *)
Definition free_map_init : M fs unit :=
  s ← get;
  b ← malloc Block;
  w ← malloc Block;
  match bitmap_create (fun size => if (b =? NULL) || (w =? NULL) then None else Some (garbage size)) (capacity s) with
  | Ok (Some map) =>
      modify (set_free_map map);;
      on_map (bitmap_mark FREE_MAP_SECTOR);;
      on_map (bitmap_mark ROOT_DIR_SECTOR)
  | Ok None => PANIC
  | Err e => fail e
  end.

Definition free_map_open : M fs unit :=
  p ← inode_open FREE_MAP_SECTOR;
  file ← file_open p;
  modify (set_free_map_file file);;
  if file =? NULL then PANIC else
  ok ← bitmap_read file;
  if negb ok then PANIC else ret tt.

Definition free_map_close : M fs unit := s ← get; file_close (free_map_file s).

Definition free_map_create : M fs unit :=
  b ← gets free_map;
  created ← inode_create FREE_MAP_SECTOR (bitmap_file_size b);
  if negb created then PANIC else
  p ← inode_open FREE_MAP_SECTOR;
  file ← file_open p;
  modify (set_free_map_file file);;
  if file =? NULL then PANIC else
  s ← get;
  ok ← bitmap_write (free_map s) file;
  if negb ok then PANIC else ret tt.

End Inode.
