(* ===== verification/Directory.v ===== *)
(** * filesys/directory.c and filesys/filesys.c: names

    Directories and the operations of the file system by name.  A name is the
    list of its characters; a directory entry is the 20 bytes of a
    [struct dir_entry].  The local variable [e] of dir_add() is not
    initialised: its first content is an argument. *)

From Stdlib Require Import ZArith Lia.
From stdpp Require Import base numbers gmap list.
From S2P Require Import Prelude Bitmap FsBase Inode.

Open Scope Z_scope.

Section Directory.
Context `{!Memory}.

(** ** directory.c *)

Definition dir_create (sec entry_cnt : Z) : M fs bool := inode_create sec (i32 (entry_cnt * sizeof_entry)).

Definition dir_open (inode : Z) : M fs Z :=
  dir ← malloc Block;
  if negb (inode =? NULL) && negb (dir =? NULL) then
    store dir (Dir (mk_dir inode 0));; ret dir
  else
    inode_close inode;;
    free dir;;
    ret NULL.

Definition dir_open_root : M fs Z := p ← inode_open ROOT_DIR_SECTOR; dir_open p.

Definition dir_reopen (dir : Z) : M fs Z :=
  d ← get_dir dir;
  p ← inode_reopen (dir_inode d);
  dir_open p.

Definition dir_close (dir : Z) : M fs unit :=
  if negb (dir =? NULL) then
    d ← get_dir dir;
    inode_close (dir_inode d);;
    free dir
  else ret tt.

Definition dir_get_inode (dir : Z) : M fs Z := d ← get_dir dir; ret (dir_inode d).

(** [!strcmp (name, e.name)]: the array holds the name and its terminator. *)
Definition same_name (name e : list Z) : bool :=
  bool_decide (take (length name + 1) (entry_name e) = name ++ [0]).

(** A read of an entry into [e]: the bytes read replace the first bytes of
    [e], and the flag says whether there were enough of them. *)
Definition read_entry (inode ofs : Z) (e : list Z) : M fs (bool * list Z) :=
  bs ← inode_read_at inode sizeof_entry ofs;
  ret (Z.of_nat (length bs) =? sizeof_entry, splice e 0 bs).

(** A loop over the entries of an inode: it reads entries at growing offsets,
    until one satisfies [stop] or the file ends.  The result is the last
    offset, the last content of [e], and whether an entry was found. *)
Definition scan_entries (inode : Z) (stop : list Z -> bool) (ofs : Z) (e : list Z) : M fs (Z * list Z * bool) :=
  len ← inode_length inode;
  iterate (S (S (Z.to_nat len))) (fun st : Z * list Z =>
    r ← read_entry inode st.1 st.2;
    ret (if negb r.1 then inr (st.1, r.2, false)
         else if stop r.2 then inr (st.1, r.2, true)
         else inl (st.1 + sizeof_entry, r.2))) (ofs, e).

(** The result is [*ep] and [*ofsp]. *)
Definition lookup (dir : Z) (name e : list Z) : M fs (option (list Z * Z)) :=
  ASSERT (negb (dir =? NULL));;
  d ← get_dir dir;
  r ← scan_entries (dir_inode d) (fun e => in_use e && same_name name e) 0 e;
  ret (if r.2 then Some (r.1.2, r.1.1) else None).

(** The result is [*inode]; dir_lookup() returns whether it is not null. *)
Definition dir_lookup (dir : Z) (name e : list Z) : M fs Z :=
  ASSERT (negb (dir =? NULL));;
  r ← lookup dir name e;
  match r with
  | Some (e, _) => inode_open (entry_sector e)
  | None => ret NULL
  end.

(** [e] with its three members assigned; strlcpy() leaves the bytes after the
    terminator as they were. *)
Definition fill_entry (sec : Z) (name e : list Z) : list Z :=
  le32 sec ++ splice (entry_name e) 0 (take 14 name ++ [0]) ++ [1].

Definition dir_add (dir : Z) (name : list Z) (inode_sector : Z) (e : list Z) : M fs bool :=
  ASSERT (negb (dir =? NULL));;
  if (Z.of_nat (length name) =? 0) || (NAME_MAX <? Z.of_nat (length name)) then ret false else
  found ← lookup dir name e;
  if bool_decide (is_Some found) then ret false else
  d ← get_dir dir;
  r ← scan_entries (dir_inode d) (fun e => negb (in_use e)) 0 e;
  let '(ofs, e, _) := r in
  n ← inode_write_at (dir_inode d) (fill_entry inode_sector name e) sizeof_entry ofs;
  ret (n =? sizeof_entry).

Definition dir_remove (dir : Z) (name e : list Z) : M fs bool :=
  ASSERT (negb (dir =? NULL));;
  found ← lookup dir name e;
  match found with
  | None => inode_close NULL;; ret false
  | Some (e, ofs) =>
      inode ← inode_open (entry_sector e);
      if inode =? NULL then inode_close inode;; ret false else
      d ← get_dir dir;
      n ← inode_write_at (dir_inode d) (splice e 19 [0]) sizeof_entry ofs;
      if negb (n =? sizeof_entry) then inode_close inode;; ret false else
      inode_remove inode;;
      inode_close inode;;
      ret true
  end.

(** The string in an array of characters. *)
Fixpoint until_zero (bs : list Z) : list Z :=
  match bs with
  | [] => []
  | x :: bs => if x =? 0 then [] else x :: until_zero bs
  end.

(** The result is the name that strlcpy() stores, if any. *)
Definition dir_readdir (dir : Z) (e : list Z) : M fs (option (list Z)) :=
  d ← get_dir dir;
  r ← scan_entries (dir_inode d) in_use (dir_pos d) e;
  let '(ofs, e, found) := r in
  store dir (Dir (mk_dir (dir_inode d) (if found : bool then ofs + sizeof_entry else ofs)));;
  ret (if found then Some (take 14 (until_zero (entry_name e))) else None).

(** ** filesys.c *)

Definition do_format : M fs unit :=
  free_map_create;;
  ok ← dir_create ROOT_DIR_SECTOR 16;
  if negb ok then PANIC else free_map_close.

Definition filesys_init (format : bool) : M fs unit :=
  s ← get;
  if negb (is_ata s) then PANIC else
  inode_init;;
  free_map_init;;
  (if format then do_format else ret tt);;
  free_map_open.

Definition filesys_done : M fs unit := free_map_close.

(** [inode_sector] is 0 until free_map_allocate() sets it. *)
Definition filesys_create (name : list Z) (initial_size : Z) (e : list Z) : M fs bool :=
  dir ← dir_open_root;
  r ← (if negb (dir =? NULL) then
         a ← free_map_allocate 1;
         match a with
         | None => ret (false, 0)
         | Some inode_sector =>
             created ← inode_create inode_sector initial_size;
             if negb created then ret (false, inode_sector) else
             added ← dir_add dir name inode_sector e;
             ret (added, inode_sector)
         end
       else ret (false, 0));
  let '(success, inode_sector) := r in
  (if negb success && negb (inode_sector =? 0) then free_map_release inode_sector 1 else ret tt);;
  dir_close dir;;
  ret success.

Definition filesys_open (name e : list Z) : M fs Z :=
  dir ← dir_open_root;
  inode ← (if negb (dir =? NULL) then dir_lookup dir name e else ret NULL);
  dir_close dir;;
  file_open inode.

Definition filesys_remove (name e : list Z) : M fs bool :=
  dir ← dir_open_root;
  success ← (if negb (dir =? NULL) then dir_remove dir name e else ret false);
  dir_close dir;;
  ret success.

End Directory.

