(* ===== verification/FsData.v ===== *)
(** * The contents of a file

    The bytes of a file as the sectors of its extent hold them, and what
    inode_read_at() and inode_write_at() do to them, whether or not there is
    memory for a bounce buffer. *)

From Stdlib Require Import ZArith Lia.
From stdpp Require Import base numbers gmap list.
From S2P Require Import Prelude Bitmap FsBase Inode.

Open Scope Z_scope.

(** ** Parts of lists *)

Lemma splice_lookup l i a j : (i + length a <= length l)%nat ->
  splice l i a !! j = if decide (i <= j < i + length a)%nat then a !! (j - i)%nat else l !! j.
Proof.
  intros Hl. unfold splice. case_decide as Hj.
  - rewrite lookup_app_r, length_take, lookup_app_l by (rewrite ?length_take; lia). f_equal. lia.
  - destruct (decide (j < i)%nat) as [Hlt|Hge].
    + rewrite lookup_app_l by (rewrite length_take; lia). by rewrite lookup_take_lt by done.
    + rewrite lookup_app_r, length_take, lookup_app_r, lookup_drop by (rewrite ?length_take; lia). f_equal. lia.
Qed.

Lemma length_splice l i a : (i + length a <= length l)%nat -> length (splice l i a) = length l.
Proof. intros Hl. unfold splice. rewrite !length_app, length_take, length_drop. lia. Qed.

Lemma splice_nil l i : splice l i [] = l.
Proof. unfold splice. cbn. by rewrite Nat.add_0_r, take_drop. Qed.

Lemma splice_splice l i a b : (i + length a + length b <= length l)%nat ->
  splice (splice l i a) (i + length a) b = splice l i (a ++ b).
Proof.
  intros Hl. apply list_eq. intros j. rewrite !splice_lookup; rewrite ?length_app, ?length_splice by lia; try lia.
  repeat case_decide; try lia; try done.
  - rewrite lookup_app_r by lia. f_equal. lia.
  - rewrite lookup_app_l by lia. done.
Qed.

Lemma lookup_part (l : list Z) i n j : (take n (drop i l)) !! j = if decide (j < n)%nat then l !! (i + j)%nat else None.
Proof. case_decide; [by rewrite lookup_take_lt, lookup_drop|by rewrite lookup_take_ge by lia]. Qed.

Lemma splice_part l i a : (i + length a <= length l)%nat -> take (length a) (drop i (splice l i a)) = a.
Proof.
  intros Hl. apply list_eq. intros j. rewrite lookup_part, splice_lookup by done. case_decide as Hj.
  - rewrite decide_True by lia. f_equal. lia.
  - symmetry. apply lookup_ge_None. lia.
Qed.

Lemma take_part {A} (l : list A) i n m : take m (drop (i + n) l) = drop n (take (n + m) (drop i l)).
Proof. rewrite <- drop_drop, take_drop_commute. do 2 f_equal. Qed.

(** ** Files *)

(** The sectors that [size] bytes take. *)
Definition sectors_of (size : Z) : Z := (size + 511) / 512.

Lemma bytes_to_sectors_ok size : 0 <= size <= 2 ^ 31 - 512 -> bytes_to_sectors size = sectors_of size.
Proof.
  intros H. unfold bytes_to_sectors, sectors_of, DISK_SECTOR_SIZE.
  rewrite swrap_small by (unfold in_s; lia). replace (size + 512 - 1) with (size + 511) by lia.
  rewrite Z.quot_div_nonneg by lia. apply uwrap_small. unfold in_u.
  assert (0 <= (size + 511) / 512 < 2 ^ 32); [|done]. split; [apply Z.div_pos; lia|apply Z.div_lt_upper_bound; lia].
Qed.

(** Byte [i] of the file [d] on the disk [D], and the whole file. *)
Definition byte_at (D : gmap Z (list Z)) (d : inode_disk) (i : Z) : Z :=
  default 0 (default [] (D !! (start d + i / 512)) !! Z.to_nat (i mod 512)).
Definition contents (D : gmap Z (list Z)) (d : inode_disk) : list Z := byte_at D d <$> seqZ 0 (file_size d).

Lemma length_contents D d : length (contents D d) = Z.to_nat (file_size d).
Proof. unfold contents. by rewrite length_fmap, length_seqZ. Qed.

Lemma lookup_contents D d j : (j < Z.to_nat (file_size d))%nat ->
  contents D d !! j = Some (byte_at D d (Z.of_nat j)).
Proof. intros Hj. unfold contents. rewrite list_lookup_fmap, lookup_seqZ_lt by lia. cbn. f_equal. Qed.

(** Sectors with their full size, and a file that lies on them. *)
Definition sectors_ok (cap : Z) (D : gmap Z (list Z)) : Prop :=
  forall k, 0 <= k < cap -> exists bs, D !! k = Some bs /\ length bs = 512%nat.

Record extent_ok (cap : Z) (d : inode_disk) : Prop := {
  ext_start : 0 <= start d;
  ext_size : 0 <= file_size d <= 2 ^ 31 - 512;
  ext_end : start d + sectors_of (file_size d) <= cap }.

(** [k] is a data sector of [d]. *)
Definition data_sector (d : inode_disk) (k : Z) : Prop := start d <= k < start d + sectors_of (file_size d).

Lemma contents_agree D D' d : (forall k, data_sector d k -> D' !! k = D !! k) -> contents D' d = contents D d.
Proof.
  intros Ha. apply list_fmap_ext. intros j x Hx%lookup_seqZ. unfold byte_at. rewrite Ha; [done|].
  unfold data_sector, sectors_of. destruct Hx as [-> Hx]. Z.div_mod_to_equations. lia.
Qed.

(** The part of a sector that holds a part of a file. *)
Lemma contents_part D d off c bs : 0 <= off -> 0 <= c -> c <= 512 - off mod 512 -> off + c <= file_size d ->
  D !! (start d + off / 512) = Some bs -> length bs = 512%nat ->
  take (Z.to_nat c) (drop (Z.to_nat (off mod 512)) bs) = take (Z.to_nat c) (drop (Z.to_nat off) (contents D d)).
Proof.
  intros Ho Hc Hs Hf Hb Hl. apply list_eq. intros j. rewrite !lookup_part. case_decide as Hj; [|done].
  pose proof (Z.mod_pos_bound off 512). rewrite lookup_contents by lia. unfold byte_at.
  assert (E : (Z.of_nat (Z.to_nat off + j) / 512 = off / 512 /\ Z.of_nat (Z.to_nat off + j) mod 512 = off mod 512 + Z.of_nat j)).
  { Z.div_mod_to_equations. lia. }
  destruct E as [-> ->]. rewrite Hb. cbn [default id].
  replace (Z.to_nat (off mod 512 + Z.of_nat j)) with (Z.to_nat (off mod 512) + j)%nat by lia.
  destruct (lookup_lt_is_Some_2 bs (Z.to_nat (off mod 512) + j)) as [x Hx]; [lia|].
  by rewrite Hx.
Qed.

Lemma contents_write D d off chunk bs : 0 <= off -> Z.of_nat (length chunk) <= 512 - off mod 512 ->
  off + Z.of_nat (length chunk) <= file_size d ->
  D !! (start d + off / 512) = Some bs -> length bs = 512%nat ->
  contents (<[start d + off / 512 := splice bs (Z.to_nat (off mod 512)) chunk]> D) d =
  splice (contents D d) (Z.to_nat off) chunk.
Proof.
  intros Ho Hs Hf Hb Hl. pose proof (Z.mod_pos_bound off 512). apply list_eq. intros j.
  destruct (decide (j < Z.to_nat (file_size d))%nat) as [Hj|Hj].
  2:{ rewrite !(proj2 (lookup_ge_None _ _)); [done| |rewrite length_contents; lia].
      rewrite length_splice; rewrite length_contents; lia. }
  rewrite lookup_contents, splice_lookup by (rewrite ?length_contents; lia). rewrite lookup_contents by done.
  unfold byte_at. set (i := Z.of_nat j). destruct (decide (i / 512 = off / 512)) as [E|E].
  - rewrite E, lookup_insert_eq, Hb. cbn [default id]. rewrite splice_lookup by lia.
    repeat case_decide; try (exfalso; revert H0 H1 E; unfold i; Z.div_mod_to_equations; lia).
    + destruct (lookup_lt_is_Some_2 chunk (j - Z.to_nat off)) as [x Hx]; [lia|]. rewrite Hx.
      replace (Z.to_nat (i mod 512) - Z.to_nat (off mod 512))%nat with (j - Z.to_nat off)%nat; [by rewrite Hx|].
      revert E. unfold i. Z.div_mod_to_equations. lia.
    + done.
  - rewrite lookup_insert_ne by lia. case_decide as Hin; [|done].
    exfalso. apply E. revert Hin. unfold i. Z.div_mod_to_equations. lia.
Qed.

(** ** Primitive steps *)

Lemma wp_fs_load s p o (Q : object -> fs -> Prop) : heap s !! p = Some o -> Q o s -> wp (load p) Q s.
Proof. intros H HQ. unfold load, wp, bind, get, of_option. by rewrite H. Qed.

Lemma wp_store s p o o' (Q : unit -> fs -> Prop) : heap s !! p = Some o ->
  Q tt (set_heap (<[p := o']> (heap s)) s) -> wp (store p o') Q s.
Proof. intros H HQ. unfold store. apply wp_bind. by eapply wp_fs_load. Qed.

Lemma wp_get_inode s p i (Q : inode -> fs -> Prop) : heap s !! p = Some (Inode i) -> Q i s -> wp (get_inode p) Q s.
Proof. intros H HQ. unfold get_inode. apply wp_bind. by eapply wp_fs_load. Qed.

Lemma wp_get_file s p f (Q : file -> fs -> Prop) : heap s !! p = Some (File f) -> Q f s -> wp (get_file p) Q s.
Proof. intros H HQ. unfold get_file. apply wp_bind. by eapply wp_fs_load. Qed.

Lemma wp_get_dir s p d (Q : dir -> fs -> Prop) : heap s !! p = Some (Dir d) -> Q d s -> wp (get_dir p) Q s.
Proof. intros H HQ. unfold get_dir. apply wp_bind. by eapply wp_fs_load. Qed.

Lemma wp_get {S} (s : S) (Q : S -> S -> Prop) : Q s s -> wp get Q s.
Proof. done. Qed.

Lemma wp_gets {S A} (f : S -> A) (s : S) (Q : A -> S -> Prop) : Q (f s) s -> wp (gets f) Q s.
Proof. done. Qed.

Lemma wp_modify {S} (f : S -> S) (s : S) (Q : unit -> S -> Prop) : Q tt (f s) -> wp (modify f) Q s.
Proof. done. Qed.

Lemma wp_put {S} (s s' : S) (Q : unit -> S -> Prop) : Q tt s' -> wp (put s') Q s.
Proof. done. Qed.

Lemma wp_disk_read s k bs (Q : list Z -> fs -> Prop) : k < capacity s <= 2 ^ 28 -> disk s !! k = Some bs ->
  Q bs s -> wp (disk_read k) Q s.
Proof.
  intros Hk Hb HQ. unfold disk_read. apply wp_bind, wp_get. apply wp_bind, wp_assertb; [apply Z.ltb_lt; lia|].
  apply wp_bind, wp_assertb; [apply Z.ltb_lt; lia|]. unfold of_option. by rewrite Hb.
Qed.

Lemma wp_disk_write s k bs (Q : unit -> fs -> Prop) : k < capacity s <= 2 ^ 28 ->
  Q tt (set_disk (<[k := bs]> (disk s)) s) -> wp (disk_write k bs) Q s.
Proof.
  intros Hk HQ. unfold disk_write. apply wp_bind, wp_get. apply wp_bind, wp_assertb; [apply Z.ltb_lt; lia|].
  apply wp_bind, wp_assertb; [apply Z.ltb_lt; lia|]. done.
Qed.

Lemma wp_part bs i n (Q : list Z -> fs -> Prop) s : 0 <= i -> i + n <= Z.of_nat (length bs) ->
  Q (take (Z.to_nat n) (drop (Z.to_nat i) bs)) s -> wp (part bs i n) Q s.
Proof.
  intros Hi Hn HQ. unfold part. rewrite (proj2 (Z.leb_le 0 i)), (proj2 (Z.leb_le _ _)) by lia. done.
Qed.

Section Data.
Context `{!Memory}.

(** A state in which the bounce buffer of [s], if any, is allocated; and the
    states in which [s] is left, with one more request counted or not. *)
Definition borrowed (s : fs) (bounce : Z) (t : fs) : Prop :=
  (bounce = NULL /\ t = s) \/
  (place (requests s) (dom (heap s)) = Some bounce /\
   t = set_heap (<[bounce := Block]> (heap s)) (set_requests (S (requests s)) s)).
Definition aged (s t : fs) : Prop := t = s \/ t = set_requests (S (requests s)) s.

(** There is no memory for the next request. *)
Definition exhausted (s : fs) : Prop := place (requests s) (dom (heap s)) = None.

Lemma wp_malloc s o (Q : Z -> fs -> Prop) :
  (forall p, place (requests s) (dom (heap s)) = Some p -> 0 < p -> heap s !! p = None ->
     Q p (set_heap (<[p := o]> (heap s)) (set_requests (S (requests s)) s))) ->
  (exhausted s -> Q NULL (set_requests (S (requests s)) s)) -> wp (malloc o) Q s.
Proof.
  intros H1 H2. unfold malloc. apply wp_bind, wp_get. apply wp_bind, wp_put.
  destruct (place (requests s) (dom (heap s))) as [p|] eqn:E.
  - pose proof (place_fresh _ _ _ E) as [Hp Hf]. apply wp_bind, wp_modify, wp_ret. apply H1; [done..|].
    by apply not_elem_of_dom in Hf.
  - apply wp_ret, H2, E.
Qed.

Lemma wp_free s p o (Q : unit -> fs -> Prop) : 0 < p -> heap s !! p = Some o ->
  Q tt (set_heap (delete p (heap s)) s) -> wp (free p) Q s.
Proof.
  intros Hp Ho HQ. unfold free. rewrite (proj2 (Z.eqb_neq p NULL)) by (unfold NULL; lia).
  apply wp_bind, wp_get, wp_bind. unfold of_option. by rewrite Ho.
Qed.

Lemma set_heap_id s : set_heap (heap s) s = s.
Proof. by destruct s. Qed.

Lemma wp_bounce s b t (Q : Z -> fs -> Prop) : borrowed s b t ->
  (forall b' t', 0 < b' -> borrowed s b' t' -> Q b' t') ->
  (exhausted s -> Q NULL (set_requests (S (requests s)) s)) -> wp (bounce_buffer b) Q t.
Proof.
  intros [[-> ->]|[Hp ->]] H1 H2; unfold bounce_buffer.
  - rewrite Z.eqb_refl. apply wp_malloc; [|done]. intros p E Hp _. apply H1; [done|by right].
  - pose proof (place_fresh _ _ _ Hp) as [H0 _]. rewrite (proj2 (Z.eqb_neq b NULL)) by (unfold NULL; lia).
    apply wp_ret, H1; [done|by right].
Qed.

(** The loop has ended, with a bounce buffer to free or not. *)
Definition returned (s : fs) (b : Z) (t : fs) : Prop := borrowed s b t \/ (b = NULL /\ aged s t).

Lemma wp_free_bounce s b t (Q : unit -> fs -> Prop) : returned s b t ->
  (forall t', aged s t' -> Q tt t') -> wp (free b) Q t.
Proof.
  intros [[[-> ->]|[Hp ->]]|[-> Ha]] HQ; [apply wp_ret, HQ; by left| |apply wp_ret; auto].
  pose proof (place_fresh _ _ _ Hp) as [H0 Hf%not_elem_of_dom].
  apply (wp_free _ _ Block); [done|by cbn; rewrite lookup_insert_eq|]. apply HQ. right. cbn.
  rewrite delete_insert_id by done. by destruct s.
Qed.

Lemma borrowed_frame s b t : borrowed s b t -> capacity t = capacity s /\ disk t = disk s /\
  forall p o, heap s !! p = Some o -> heap t !! p = Some o.
Proof.
  intros [[-> ->]|[Hp ->]]; [done|]. cbn. split_and!; try done. intros p o Ho.
  pose proof (place_fresh _ _ _ Hp) as [_ Hf%not_elem_of_dom]. by rewrite lookup_insert_ne by congruence.
Qed.

Lemma wp_next_chunk s p i size off (Q : Z * Z * Z * Z -> fs -> Prop) : 0 < p -> heap s !! p = Some (Inode i) ->
  extent_ok (capacity s) (data i) -> capacity s <= 2 ^ 28 -> 0 <= off < 2 ^ 31 ->
  (forall k, (off < file_size (data i) -> k = start (data i) + off / 512 /\ 0 <= k < capacity s) ->
     Q (k, off mod 512, 512 - off mod 512,
        Z.min size (Z.min (file_size (data i) - off) (512 - off mod 512))) s) ->
  wp (next_chunk p size off) Q s.
Proof.
  intros Hp Hh [H0 Hf He] Hcap Ho HQ. unfold next_chunk, byte_to_sector. apply wp_bind, wp_bind, wp_assertb.
  { apply negb_true_iff, Z.eqb_neq. unfold NULL. lia. }
  apply wp_bind. eapply wp_get_inode; [done|]. apply wp_ret, wp_bind. unfold inode_length. apply wp_bind.
  eapply wp_get_inode; [done|]. apply wp_ret. unfold DISK_SECTOR_SIZE. rewrite Z.rem_mod_nonneg, Z.quot_div_nonneg by lia.
  rewrite swrap_small by (unfold in_s; lia). apply wp_ret.
  replace (if size <? _ then size else _) with
    (Z.min size (Z.min (file_size (data i) - off) (512 - off mod 512))).
  2:{ destruct (Z.ltb_spec (file_size (data i) - off) (512 - off mod 512));
      match goal with |- context [if ?a <? ?b then _ else _] => destruct (Z.ltb_spec a b) end; lia. }
  apply HQ. intros Hlt. rewrite (proj2 (Z.ltb_lt _ _)) by done. unfold sectors_of in He.
  assert (0 <= off / 512 < (file_size (data i) + 511) / 512) by (Z.div_mod_to_equations; lia).
  rewrite uwrap_small by (unfold in_u; lia). lia.
Qed.

(** ** Reading *)

(** An open inode whose file lies on the disk. *)
Record readable (s : fs) (p : Z) (i : inode) : Prop := {
  rd_ptr : 0 < p;
  rd_heap : heap s !! p = Some (Inode i);
  rd_ext : extent_ok (capacity s) (data i);
  rd_cap : capacity s <= 2 ^ 28;
  rd_disk : sectors_ok (capacity s) (disk s) }.

Lemma readable_borrowed s p i b t : readable s p i -> borrowed s b t -> readable t p i.
Proof.
  intros [Hp Hh He Hc Hd] (Ec & Ed & Eh)%borrowed_frame.
  split; rewrite ?Ec, ?Ed; auto.
Qed.

(** The variables of the loop after [m] bytes have been read. *)
Definition read_upto (s : fs) (d : inode_disk) (size off m : Z) (st : Z * Z * list Z * Z) : Prop :=
  let '(sz, o, acc, b) := st in
  0 <= m <= size /\ sz = size - m /\ o = off + m /\ (m = 0 \/ off + m <= file_size d) /\
  acc = take (Z.to_nat m) (drop (Z.to_nat off) (contents (disk s) d)).

Lemma read_upto_step s d size off m sz o acc b b' c bs : 0 <= off ->
  read_upto s d size off m (sz, o, acc, b) -> 0 < c -> c <= sz -> c <= 512 - o mod 512 -> o + c <= file_size d ->
  disk s !! (start d + o / 512) = Some bs -> length bs = 512%nat ->
  read_upto s d size off (m + c)
    (sz - c, o + c, acc ++ take (Z.to_nat c) (drop (Z.to_nat (o mod 512)) bs), b').
Proof.
  intros Ho (Hm & -> & -> & Hl & ->) Hc Hsz Hcs Hf Hb Hbl. split_and!; try lia.
  rewrite (contents_part (disk s) d) by (done || lia).
  rewrite (Z2Nat.inj_add off m), <- drop_drop, take_take_drop by lia. f_equal. lia.
Qed.

(** At the end of the file nothing is missing. *)
Lemma read_upto_end s d size off m sz o acc b : 0 <= off -> 0 <= file_size d ->
  read_upto s d size off m (sz, o, acc, b) -> sz <= 0 \/ file_size d <= o ->
  acc = take (Z.to_nat size) (drop (Z.to_nat off) (contents (disk s) d)).
Proof.
  intros Ho Hfs (Hm & -> & -> & Hl & ->) Hend. destruct (decide (m = size)) as [->|Hne]; [done|].
  rewrite !take_ge; [done|rewrite length_drop, length_contents; lia..].
Qed.

(** [r] is what a read of [size] bytes at [off] returns: everything there is,
    or less if there is no memory. *)
Definition read_result (s : fs) (d : inode_disk) (size off : Z) (r : list Z) : Prop :=
  exists k, r = take k (drop (Z.to_nat off) (contents (disk s) d)) /\
    (k = Z.to_nat size \/ (exhausted s /\ (k <= Z.to_nat size)%nat)).

Lemma wp_read_round s p i size off : readable s p i -> 0 <= off < 2 ^ 31 ->
  forall n st t m, n = Z.to_nat st.1.1.1 -> borrowed s st.2 t -> read_upto s (data i) size off m st ->
  wp (read_round p st) (fun r t' => match r with
    | inl st' => exists n', (n' < n)%nat /\ n' = Z.to_nat st'.1.1.1 /\ borrowed s st'.2 t' /\
        exists m, read_upto s (data i) size off m st'
    | inr (acc, b) => read_result s (data i) size off acc /\ returned s b t' end) t.
Proof.
  intros Hr Ho n [[[sz o] acc] b] t m Hn Hb Hu. cbn [fst snd] in *.
  pose proof (readable_borrowed _ _ _ _ _ Hr Hb) as Ht. destruct (borrowed_frame _ _ _ Hb) as (Ec & Ed & _).
  pose proof (ext_size _ _ (rd_ext _ _ _ Hr)) as Hfs.
  assert (Hend : sz <= 0 \/ file_size (data i) <= o ->
    read_result s (data i) size off acc /\ returned s b t).
  { intros He. split; [exists (Z.to_nat size); split; [eapply read_upto_end; [| |exact Hu|done]; lia|by left]|by left]. }
  unfold read_round. destruct (Z.ltb_spec 0 sz) as [Hsz|Hsz]; cbn [negb]; [|apply wp_ret, Hend; lia].
  pose proof Hu as (Hm & Esz & Eo & Hl & Eacc). apply wp_bind. destruct Ht as [Hp Hh He Hc Hd].
  eapply wp_next_chunk; [done..|lia|]. intros k Hk. set (c := Z.min sz _).
  destruct (Z.leb_spec c 0) as [Hc0|Hc0].
  { apply wp_ret, Hend. pose proof (Z.mod_pos_bound o 512). lia. }
  destruct Hk as [-> Hk]; [lia|]. destruct (Hd _ Hk) as (bs & Ebs & Hbl). pose proof (Z.mod_pos_bound o 512) as Hmod.
  assert (Hstep : forall b', read_upto s (data i) size off (m + c) (sz - c, o + c,
    acc ++ take (Z.to_nat c) (drop (Z.to_nat (o mod 512)) bs), b')).
  { intros b'. eapply read_upto_step; [lia|exact Hu|lia..| |done]. by rewrite <- Ed. }
  destruct ((o mod 512 =? 0) && (c =? DISK_SECTOR_SIZE)) eqn:Efull.
  - apply andb_true_iff in Efull as [E1%Z.eqb_eq E2%Z.eqb_eq]. apply wp_bind.
    eapply wp_disk_read; [lia|done|]. apply wp_ret. exists (Z.to_nat (sz - c)). split_and!; [lia|done|done|].
    exists (m + c). specialize (Hstep b). rewrite E1, E2, drop_0, take_ge in Hstep by (unfold DISK_SECTOR_SIZE; lia). by rewrite E2.
  - apply wp_bind. eapply wp_bounce; [done| |].
    + intros b' t' Hb' Hbt. rewrite (proj2 (Z.eqb_neq b' NULL)) by (unfold NULL; lia).
      destruct (borrowed_frame _ _ _ Hbt) as (Ec' & Ed' & _).
      apply wp_bind. eapply wp_disk_read; [rewrite Ec', <- Ec; lia|by rewrite Ed', <- Ed|].
      apply wp_bind, wp_part; [lia..|]. apply wp_ret. exists (Z.to_nat (sz - c)). split_and!; [lia|done|done|eauto].
    + intros Hx. rewrite Z.eqb_refl. apply wp_ret. split; [|right; split; [done|by right]].
      exists (Z.to_nat m). split; [done|]. right. split; [done|lia].
Qed.

Lemma wp_inode_read_at s p i size off (Q : list Z -> fs -> Prop) : readable s p i -> 0 <= off < 2 ^ 31 -> 0 <= size ->
  (forall r t, aged s t -> read_result s (data i) size off r -> Q r t) ->
  wp (inode_read_at p size off) Q s.
Proof.
  intros Hr Ho Hs HQ. unfold inode_read_at. apply wp_bind.
  unshelve eapply (wp_iterate (fun n st t => n = Z.to_nat st.1.1.1 /\ borrowed s st.2 t /\
    exists m, read_upto s (data i) size off m st) _ _ _ _ (Z.to_nat size)); [| |lia].
  - intros n st t (Hn & Hb & m & Hu). eapply wp_mono; [by eapply wp_read_round|].
    intros [st'|[acc b]] t'.
    + intros (n' & Hlt & Hn' & Hb' & Hu'). exists n'. auto.
    + intros [Hres Hb']. apply wp_bind. eapply wp_free_bounce; [exact Hb'|].
      intros t2 Ht2. apply wp_ret. by apply HQ.
  - split_and!; [done|by left|]. exists 0. split_and!; [lia..|by left|done].
Qed.

(** ** Writing *)

(** The disk after [m] bytes of [buf] have been written to [d] at [off]. *)
Record written (s : fs) (d : inode_disk) (off : Z) (buf : list Z) (m : Z) (D : gmap Z (list Z)) : Prop := {
  wr_disk : sectors_ok (capacity s) D;
  wr_frame : forall k, ~ data_sector d k -> D !! k = disk s !! k;
  wr_data : contents D d = splice (contents (disk s) d) (Z.to_nat off) (take (Z.to_nat m) buf) }.

Lemma written_step s d off buf m D bs c : written s d off buf m D -> 0 <= off -> 0 <= m -> 0 < c ->
  c <= 512 - (off + m) mod 512 -> off + m + c <= file_size d -> m + c <= Z.of_nat (length buf) ->
  D !! (start d + (off + m) / 512) = Some bs -> length bs = 512%nat ->
  written s d off buf (m + c) (<[start d + (off + m) / 512 :=
    splice bs (Z.to_nat ((off + m) mod 512)) (take (Z.to_nat c) (drop (Z.to_nat m) buf))]> D).
Proof.
  intros [Hd Hf Hw] Ho Hm Hc Hcs Hfs Hbuf Hbs Hl. pose proof (Z.mod_pos_bound (off + m) 512).
  assert (Hlc : length (take (Z.to_nat c) (drop (Z.to_nat m) buf)) = Z.to_nat c)
    by (rewrite length_take, length_drop; lia). split.
  - intros k Hk. destruct (decide (k = start d + (off + m) / 512)) as [->|Hne].
    + rewrite lookup_insert_eq. eexists. split; [done|]. rewrite length_splice; lia.
    + rewrite lookup_insert_ne by done. auto.
  - intros k Hk. rewrite lookup_insert_ne; [by apply Hf|]. intros <-. apply Hk.
    unfold data_sector, sectors_of. Z.div_mod_to_equations. lia.
  - rewrite contents_write, Hw by (done || lia).
    rewrite (Z2Nat.inj_add off m), (Z2Nat.inj_add m c) by lia.
    replace (Z.to_nat m) with (length (take (Z.to_nat m) buf)) at 2 by (rewrite length_take; lia).
    rewrite splice_splice by (rewrite length_contents, Hlc, length_take; lia).
    by rewrite take_take_drop.
Qed.

Definition write_upto (s : fs) (d : inode_disk) (size off m : Z) (st : Z * Z * Z * Z) : Prop :=
  let '(sz, o, w, b) := st in
  0 <= m <= size /\ sz = size - m /\ o = off + m /\ (m = 0 \/ off + m <= file_size d) /\ w = m.

(** [m] bytes are written: everything that fits, or less if there is no
    memory. *)
Definition write_count (s : fs) (d : inode_disk) (size off m : Z) : Prop :=
  let full := Z.max 0 (Z.min size (file_size d - off)) in
  m = full \/ (exhausted s /\ 0 <= m <= full).

Lemma borrowed_write s b t X : borrowed s b t -> borrowed (set_disk X s) b (set_disk X t).
Proof. intros [[-> ->]|[Hp ->]]; [by left|right]. done. Qed.

Lemma wp_write_round s p i buf size off : readable s p i -> 0 <= off < 2 ^ 31 -> 0 <= size <= Z.of_nat (length buf) ->
  forall n st t m D, n = Z.to_nat st.1.1.1 -> borrowed (set_disk D s) st.2 t ->
  written s (data i) off buf m D -> write_upto s (data i) size off m st ->
  wp (write_round p buf st) (fun r t' => match r with
    | inl st' => exists n', (n' < n)%nat /\ n' = Z.to_nat st'.1.1.1 /\ exists m D,
        borrowed (set_disk D s) st'.2 t' /\ written s (data i) off buf m D /\ write_upto s (data i) size off m st'
    | inr (w, b) => write_count s (data i) size off w /\ exists D,
        written s (data i) off buf w D /\ returned (set_disk D s) b t' end) t.
Proof.
  intros Hr Ho Hsize n [[[sz o] w] b] t m D Hn Hb Hw Hu. cbn [fst snd] in *.
  assert (Ht : readable t p i).
  { eapply readable_borrowed; [|done]. destruct Hr. destruct Hw. by split. }
  destruct (borrowed_frame _ _ _ Hb) as (Ec & Ed & _). cbn [disk set_disk capacity] in Ec, Ed.
  pose proof (ext_size _ _ (rd_ext _ _ _ Hr)) as Hfs. pose proof Hu as (Hm & Esz & Eo & Hl & ->).
  assert (Hend : sz <= 0 \/ file_size (data i) <= o -> write_count s (data i) size off m /\
    exists D, written s (data i) off buf m D /\ returned (set_disk D s) b t).
  { intros He. split; [left; lia|]. exists D. split; [done|by left]. }
  unfold write_round. destruct (Z.ltb_spec 0 sz) as [Hsz|Hsz]; cbn [negb]; [|apply wp_ret, Hend; lia].
  apply wp_bind. destruct Ht as [Hp Hh He Hc Hd].
  eapply wp_next_chunk; [done..|lia|]. intros k Hk. set (c := Z.min sz _).
  destruct (Z.leb_spec c 0) as [Hc0|Hc0].
  { apply wp_ret, Hend. pose proof (Z.mod_pos_bound o 512). lia. }
  destruct Hk as [-> Hk]; [lia|]. destruct (Hd _ Hk) as (bs & Ebs & Hbl). pose proof (Z.mod_pos_bound o 512) as Hmod.
  rewrite Ed in Ebs. subst o.
  pose proof (written_step s (data i) off buf m D bs c Hw ltac:(lia) ltac:(lia) ltac:(lia) ltac:(lia) ltac:(lia)
    ltac:(lia) Ebs Hbl) as Hstep. set (k := start (data i) + (off + m) / 512) in *.
  set (chunk := take (Z.to_nat c) (drop (Z.to_nat m) buf)) in *.
  assert (Hnext : write_upto s (data i) size off (m + c) (sz - c, off + m + c, m + c, b)) by (split_and!; lia).
  destruct (((off + m) mod 512 =? 0) && (c =? DISK_SECTOR_SIZE)) eqn:Efull.
  - apply andb_true_iff in Efull as [E1%Z.eqb_eq E2%Z.eqb_eq]. apply wp_bind, wp_part; [lia..|]. fold chunk.
    assert (Echunk : splice bs (Z.to_nat ((off + m) mod 512)) chunk = chunk).
    { rewrite E1. unfold splice. cbn [Z.to_nat take app Nat.add]. rewrite drop_ge, app_nil_r; [done|].
      unfold chunk, DISK_SECTOR_SIZE in *. rewrite length_take, length_drop, E2. lia. }
    rewrite Echunk in Hstep. apply wp_bind, wp_disk_write; [lia|]. apply wp_ret. exists (Z.to_nat (sz - c)).
    split_and!; [lia|done|]. exists (m + c), (<[k := chunk]> D). split_and!; [|done|done].
    rewrite Ed. cbn [snd]. apply (borrowed_write _ _ _ (<[k := chunk]> D)) in Hb. exact Hb.
  - apply wp_bind. eapply wp_bounce; [done| |].
    + intros b' t' Hb' Hbt. rewrite (proj2 (Z.eqb_neq b' NULL)) by (unfold NULL; lia).
      destruct (borrowed_frame _ _ _ Hbt) as (Ec' & Ed' & _). cbn [disk set_disk capacity] in Ec', Ed'.
      assert (Epart : (0 <? (off + m) mod 512) || (c <? 512 - (off + m) mod 512) = true).
      { unfold DISK_SECTOR_SIZE in Efull. apply orb_true_iff. rewrite !Z.ltb_lt.
        apply andb_false_iff in Efull. rewrite !Z.eqb_neq in Efull. lia. }
      rewrite Epart. apply wp_bind. eapply wp_disk_read; [rewrite Ec', <- Ec; lia|by rewrite Ed'|].
      apply wp_bind, wp_part; [lia..|]. fold chunk. apply wp_bind, wp_disk_write; [rewrite Ec', <- Ec; lia|].
      apply wp_ret. exists (Z.to_nat (sz - c)). split_and!; [lia|done|]. do 2 eexists. split_and!; [|exact Hstep|split_and!; lia].
      rewrite Ed'. cbn [snd]. apply (borrowed_write _ _ _ (<[k := splice bs (Z.to_nat ((off + m) mod 512)) chunk]> D)) in Hbt.
      exact Hbt.
    + intros Hx. rewrite Z.eqb_refl. apply wp_ret. split; [right; split; [exact Hx|lia]|]. exists D. split; [done|].
      right. split; [done|]. by right.
Qed.

Lemma wp_inode_write_at s p i buf size off (Q : Z -> fs -> Prop) : readable s p i -> 0 <= off < 2 ^ 31 ->
  0 <= size <= Z.of_nat (length buf) ->
  (deny_write_cnt i <> 0 -> Q 0 s) ->
  (forall m D t, deny_write_cnt i = 0 -> aged (set_disk D s) t -> written s (data i) off buf m D ->
     write_count s (data i) size off m -> Q m t) ->
  wp (inode_write_at p buf size off) Q s.
Proof.
  intros Hr Ho Hs HQ0 HQ. unfold inode_write_at. apply wp_bind. eapply wp_get_inode; [apply Hr|].
  destruct (Z.eqb_spec (deny_write_cnt i) 0) as [Ez|Ez]; cbn [negb]; [|by apply wp_ret, HQ0]. apply wp_bind.
  unshelve eapply (wp_iterate (fun n st t => n = Z.to_nat st.1.1.1 /\ exists m D, borrowed (set_disk D s) st.2 t /\
    written s (data i) off buf m D /\ write_upto s (data i) size off m st) _ _ _ _ (Z.to_nat size)); [| |lia].
  - intros n st t (Hn & m & D & Hb & Hw & Hu). eapply wp_mono; [by eapply wp_write_round|].
    intros [st'|[w b]] t'.
    + intros (n' & Hlt & Hn' & m' & D' & Hb'). exists n'. eauto.
    + intros (Hres & D' & Hw' & Hb'). apply wp_bind. eapply wp_free_bounce; [exact Hb'|].
      intros t2 Ht2. apply wp_ret. by eapply HQ.
  - split; [done|]. exists 0, (disk s). split_and!; [left; split; [done|by destruct s]| |split_and!; lia].
    split; [apply Hr|done|]. cbn [Z.to_nat take]. by rewrite splice_nil.
Qed.
End Data.
