(* ===== verification/FsInv.v ===== *)
(** * The invariant of the file system

    The invariant, and then the free map as a part of it. *)

From Stdlib Require Import ZArith Lia.
From stdpp Require Import base numbers gmap list.
From S2P Require Import Prelude Bitmap FsBase Inode FsData.

Open Scope Z_scope.

(** * The invariant

    Which sectors belong to which inode, which inodes are open, and how many
    references to an open inode there are: from open files and directories in
    memory, and from the local variables of the code that is running. *)

(** ** References *)

(** The object is an open file or directory of the inode at [p]; it is one that
    denies writes. *)
Definition refers (p : Z) (o : object) : bool :=
  match o with File f => file_inode f =? p | Dir d => dir_inode d =? p | _ => false end.
Definition denies (p : Z) (o : object) : bool :=
  match o with File f => (file_inode f =? p) && deny_write f | _ => false end.

Definition count (P : object -> bool) (h : gmap Z object) : nat := size (filter (fun kv => P kv.2 = true) h).
Definition one (b : bool) : nat := if b then 1%nat else 0%nat.

Lemma count_new P h k o : h !! k = None -> count P (<[k := o]> h) = (one (P o) + count P h)%nat.
Proof.
  intros Hk. unfold count. destruct (P o) eqn:E; cbn [one].
  - rewrite map_filter_insert_True by done. rewrite map_size_insert_None; [done|].
    apply map_lookup_filter_None. by left.
  - rewrite map_filter_insert_False by (cbn; congruence). by rewrite delete_id.
Qed.

Lemma count_delete P h k o : h !! k = Some o -> count P h = (one (P o) + count P (delete k h))%nat.
Proof. intros Hk. rewrite <- (insert_delete_id h k o Hk) at 1. apply count_new, lookup_delete_eq. Qed.

Lemma count_update P h k o o' : h !! k = Some o ->
  (count P (<[k := o']> h) + one (P o) = count P h + one (P o'))%nat.
Proof.
  intros Hk. rewrite <- insert_delete_eq, count_new, (count_delete P h k o Hk) by apply lookup_delete_eq. lia.
Qed.

Lemma count_same P h k o o' : h !! k = Some o -> P o = P o' -> count P (<[k := o']> h) = count P h.
Proof. intros Hk E. pose proof (count_update P h k o o' Hk). rewrite E in *. lia. Qed.

(** How often [p] is among the references [X] held by local variables. *)
Definition pending (p : Z) (X : list Z) : nat := length (filter (fun x => x = p) X).

Lemma pending_cons p q X : pending p (q :: X) = (one (bool_decide (q = p)) + pending p X)%nat.
Proof. unfold pending. rewrite filter_cons. repeat case_decide; case_bool_decide; done. Qed.

(** ** The invariant *)

(** The sectors of the inode at [k]. *)
Definition owns (k : Z) (d : inode_disk) (j : Z) : Prop := j = k \/ data_sector d j.

(** [I] are the inodes on disk. *)
Record disk_inv (s : fs) (I : gmap Z inode_disk) : Prop := {
  inv_cap : 2 <= capacity s <= 2 ^ 28;
  inv_sectors : sectors_ok (capacity s) (disk s);
  inv_map : wf (free_map s);
  inv_map_cnt : bit_cnt (free_map s) = capacity s;
  inv_inode : forall k d, I !! k = Some d ->
    0 <= k < capacity s /\ extent_ok (capacity s) d /\ disk s !! k = Some (encode_inode d);
  inv_mark : forall k d j, I !! k = Some d -> owns k d j -> bit (free_map s) j = true;
  inv_apart : forall k k' d d' j, I !! k = Some d -> I !! k' = Some d' -> owns k d j -> owns k' d' j -> k = k';
  inv_self : forall k d, I !! k = Some d -> ~ data_sector d k;
  inv_magic : forall k d, I !! k = Some d -> magic d = INODE_MAGIC }.

(** [X] are the references to open inodes that local variables hold. *)
Record heap_inv (s : fs) (I : gmap Z inode_disk) (X : list Z) : Prop := {
  inv_list : NoDup (open_inodes s);
  inv_open : forall p, p ∈ open_inodes s <-> exists i, heap s !! p = Some (Inode i);
  inv_ptr : forall p o, heap s !! p = Some o -> 0 < p;
  inv_data : forall p i, heap s !! p = Some (Inode i) -> I !! sector i = Some (data i);
  inv_cnt : forall p i, heap s !! p = Some (Inode i) ->
    open_cnt i = Z.of_nat (count (refers p) (heap s) + pending p X);
  inv_pos : forall p i, heap s !! p = Some (Inode i) -> 0 < open_cnt i;
  inv_deny : forall p i, heap s !! p = Some (Inode i) -> deny_write_cnt i = Z.of_nat (count (denies p) (heap s));
  inv_uniq : forall p q i j, heap s !! p = Some (Inode i) -> heap s !! q = Some (Inode j) -> sector i = sector j -> p = q;
  inv_ref : forall q o p, heap s !! q = Some o -> refers p o = true -> exists i, heap s !! p = Some (Inode i);
  inv_pend : forall p, p ∈ X -> exists i, heap s !! p = Some (Inode i) }.

(** The free map's file, [d0], is open and can be written. *)
Definition map_ready (d0 : inode_disk) (s : fs) : Prop :=
  0 < free_map_file s /\ exists f i, heap s !! free_map_file s = Some (File f) /\ deny_write f = false /\
    0 < file_inode f /\ heap s !! file_inode f = Some (Inode i) /\ sector i = FREE_MAP_SECTOR /\ removed i = false /\
    deny_write_cnt i = 0 /\ data i = d0 /\ file_size d0 = byte_cnt (capacity s).

Lemma inv_readable s I X p i : disk_inv s I -> heap_inv s I X -> heap s !! p = Some (Inode i) -> readable s p i.
Proof.
  intros Hd Hh Hp. destruct (inv_inode _ _ Hd _ _ (inv_data _ _ _ Hh _ _ Hp)) as (_ & He & _).
  split; [by eapply inv_ptr|done|done|apply Hd|apply Hd].
Qed.

(** ** Changes that leave the invariant alone *)

(** Writing inside a file. *)
Lemma disk_inv_write s I k d D off buf m : disk_inv s I -> I !! k = Some d -> written s d off buf m D ->
  disk_inv (set_disk D s) I.
Proof.
  intros [Hc Hs Hm Hb Hi Hk Ha Hself Hmg] Hd [Hs' Hf _]. split; try done.
  intros k' d' Hk'. cbn [disk set_disk capacity]. destruct (Hi _ _ Hk') as (? & ? & E). split; [done|]. split; [done|].
  rewrite Hf; [done|]. intros Hds. assert (k = k') as <- by (eapply Ha; [done..|by right|by left]).
  assert (d = d') as <- by congruence. by apply (Hself k d).
Qed.

(** ... leaves the contents of other files as they are. *)
Lemma written_other s I k d D off buf m k' d' : disk_inv s I -> I !! k = Some d -> I !! k' = Some d' -> k <> k' ->
  written s d off buf m D -> contents D d' = contents (disk s) d'.
Proof.
  intros Hi Hd Hd' Hne [_ Hf _]. apply contents_agree. intros j Hj. apply Hf. intros Hj'.
  apply Hne. eapply (inv_apart _ _ Hi); [done..|by right|by right].
Qed.

Lemma heap_inv_disk s I X D : heap_inv s I X -> heap_inv (set_disk D s) I X.
Proof. intros []. by split. Qed.
Lemma heap_inv_map s I X b : heap_inv s I X -> heap_inv (set_free_map b s) I X.
Proof. intros []. by split. Qed.

(** What only looks at the number of requests. *)
Lemma heap_inv_aged s t I X : aged s t -> heap_inv s I X -> heap_inv t I X.
Proof. intros [->| ->] []; by split. Qed.
Lemma disk_inv_aged s t I : aged s t -> disk_inv s I -> disk_inv t I.
Proof. intros [->| ->] []; by split. Qed.

(** * filesys/free-map.c: the free map

    Allocation and release change exactly the bits they are asked to, keep the
    free map's own file up to date if there is memory for it, and touch no
    other sector of the disk. *)

(** ** Words and bytes *)

Lemma le32_length x : length (le32 x) = 4%nat.
Proof. done. Qed.

Lemma le32s_cons w ws : le32s (w :: ws) = le32 w ++ le32s ws.
Proof. done. Qed.

Lemma length_le32s ws : length (le32s ws) = (4 * length ws)%nat.
Proof. induction ws as [|w ws IH]; [done|]. rewrite le32s_cons, length_app, IH, le32_length. cbn. lia. Qed.

Lemma word_le32 x rest : word (le32 x ++ rest) = u32 x.
Proof.
  cbn [le32 app word]. rewrite !Z.shiftr_div_pow2 by lia. unfold uwrap.
  Z.div_mod_to_equations. lia.
Qed.

Lemma words_le32s ws rest : Forall (in_u 32) ws -> words (length ws) (le32s ws ++ rest) = ws.
Proof.
  induction 1 as [|w ws Hw _ IH]; [done|]. cbn [length words].
  rewrite le32s_cons, <- app_assoc, word_le32, uwrap_small by done. f_equal. exact IH.
Qed.

(** ** Changes of the free map *)

(** [t] is [s] with the free map changed to [f], and its file, [d0], possibly
    rewritten. *)
Record remapped (d0 : inode_disk) (s t : fs) (f : Z -> bool) : Prop := {
  rm_disk : sectors_ok (capacity s) (disk t);
  rm_frame : forall k, ~ data_sector d0 k -> disk t !! k = disk s !! k;
  rm_map : updated (free_map s) (free_map t) f;
  rm_rest : exists n, t = set_requests n (set_disk (disk t) (set_free_map (free_map t) s)) }.

(** The file holds the free map. *)
Definition saved (d0 : inode_disk) (s : fs) : Prop :=
  contents (disk s) d0 = take (Z.to_nat (byte_cnt (capacity s))) (le32s (bits (free_map s))).

(** The file holds the bits of the free map, up to the bits behind its end. *)
Definition recorded (d0 : inode_disk) (s : fs) : Prop :=
  exists b, wf b /\ bit_cnt b = capacity s /\ (forall j, 0 <= j < capacity s -> bit b j = bit (free_map s) j) /\
    saved d0 (set_free_map b s).

Lemma recorded_saved d0 s : wf (free_map s) -> bit_cnt (free_map s) = capacity s -> saved d0 s -> recorded d0 s.
Proof. intros Hw Hc Hs. exists (free_map s). by destruct s. Qed.

Lemma recorded_contents d0 s t : contents (disk t) d0 = contents (disk s) d0 -> free_map t = free_map s ->
  capacity t = capacity s -> recorded d0 s -> recorded d0 t.
Proof.
  intros E1 E2 E3 (b & Hw & Hc & Hb & Hs). exists b. rewrite E2, E3. split_and!; try done.
  unfold saved in *. cbn in *. by rewrite E1, E3.
Qed.

Lemma recorded_same d0 s t : disk t = disk s -> free_map t = free_map s -> capacity t = capacity s ->
  recorded d0 s -> recorded d0 t.
Proof. intros E. apply recorded_contents. by rewrite E. Qed.

Section Remapped.
Context {s t : fs} {d0 : inode_disk} {f : Z -> bool} {I : gmap Z inode_disk} {X : list Z}.
Context (Hd : disk_inv s I) (H0 : I !! FREE_MAP_SECTOR = Some d0) (Hr : remapped d0 s t f).

Lemma remapped_heap : heap_inv s I X -> heap_inv t I X.
Proof using Hr. destruct Hr as [_ _ _ [n ->]]. intros []. by split. Qed.

Lemma remapped_disk : (forall k d j, I !! k = Some d -> owns k d j -> f j = true) -> disk_inv t I.
Proof using Hd H0 Hr.
  intros Hf. destruct Hr as [Hs Hfr (Hw & Hc & _ & Hb) [n E]], Hd as [Hcap _ Hm Hmc Hi Hk Ha Hself Hmg].
  assert (Ecap : capacity t = capacity s) by by rewrite E. split; rewrite ?Ecap; try done; [lia| |].
  - intros k d Hkd. destruct (Hi k d Hkd) as (? & ? & Ed). split; [done|]. split; [done|]. rewrite Hfr; [done|].
    intros Hds. assert (FREE_MAP_SECTOR = k) as <- by (eapply Ha; [done..|by right|by left]).
    apply (Hself FREE_MAP_SECTOR d0 H0 Hds).
  - intros k d j Hkd Ho. rewrite Hb; [by eapply Hf|]. destruct (Hi k d Hkd) as (? & [? ? ?] & _).
    destruct Ho as [->|[? ?]]; lia.
Qed.

Lemma remapped_contents k d : I !! k = Some d -> k <> FREE_MAP_SECTOR -> contents (disk t) d = contents (disk s) d.
Proof using Hd H0 Hr.
  intros Hk Hne. apply contents_agree. intros j Hj. apply (rm_frame _ _ _ _ Hr). intros Hj'. apply Hne.
  eapply (inv_apart _ _ Hd); [done..|by right|by right].
Qed.

Lemma remapped_ready : map_ready d0 s -> map_ready d0 t.
Proof using Hr. destruct Hr as [_ _ _ [n ->]]. done. Qed.

Lemma remapped_same : heap t = heap s /\ open_inodes t = open_inodes s /\ capacity t = capacity s /\
  free_map_file t = free_map_file s.
Proof using Hr. destruct Hr as [_ _ _ [n ->]]. done. Qed.

End Remapped.

Lemma remapped_trans d0 s t u f g : remapped d0 s t f -> remapped d0 t u g -> remapped d0 s u g.
Proof.
  intros [H1 H2 (_ & Ec & El & _) [n ->]] [H5 H6 (Hw & Ec' & El' & Hg) [m E]]. cbn in *. split.
  - exact H5.
  - intros k Hk. rewrite H6, H2 by done. done.
  - split_and!; [done|congruence|congruence|done].
  - exists m. rewrite E at 1. by destruct u.
Qed.

Lemma byte_cnt_bits b : wf b -> byte_cnt (bit_cnt b) <= Z.of_nat (length (le32s (bits b))).
Proof. intros [Hc Hl _]. rewrite byte_cnt_ok by done. rewrite length_le32s. lia. Qed.

Lemma byte_cnt_range n : 0 <= n <= 2 ^ 28 -> 0 <= byte_cnt n <= 2 ^ 26 /\ (0 < n -> 0 < byte_cnt n).
Proof.
  intros Hn. rewrite byte_cnt_ok, elem_cnt_ok by lia. split; [Z.div_mod_to_equations; lia|].
  intros. Z.div_mod_to_equations. lia.
Qed.

(** Overwriting all of a list. *)
Lemma splice_all l a : length a = length l -> splice l 0 a = a.
Proof. intros E. unfold splice. cbn. rewrite drop_ge by lia. apply app_nil_r. Qed.

Section FreeMap.
Context `{!Memory}.

Section Op.
Context (I : gmap Z inode_disk) (d0 : inode_disk).
Context (H0 : I !! FREE_MAP_SECTOR = Some d0).

Lemma wp_bitmap_write s (Q : bool -> fs -> Prop) : disk_inv s I -> map_ready d0 s ->
  (forall ok t, remapped d0 s t (bit (free_map s)) -> free_map t = free_map s ->
     (if ok : bool then saved d0 t else exhausted s) -> Q ok t) ->
  wp (bitmap_write (free_map s) (free_map_file s)) Q s.
Proof.
  intros Hd (Hp & f & i & Hf & _ & Hpi & Hi & _ & _ & Hdn & Ed & Hsz) HQ. unfold bitmap_write, file_write_at.
  apply wp_bind, wp_bind. eapply wp_get_file; [done|]. rewrite (inv_map_cnt _ _ Hd).
  destruct (inv_inode _ _ Hd _ _ H0) as (_ & He & _).
  pose proof (inv_cap _ _ Hd) as Hcap. pose proof (byte_cnt_range (capacity s) ltac:(lia)) as [Hbc _].
  pose proof (byte_cnt_bits _ (inv_map _ _ Hd)) as Hlen. rewrite (inv_map_cnt _ _ Hd) in Hlen.
  set (size := byte_cnt (capacity s)) in *. set (buf := le32s (bits (free_map s))) in *.
  eapply wp_inode_write_at; [split; rewrite ?Ed; done || apply Hd|lia|lia|done|]. intros m D t _ Hag Hw Hm. apply wp_ret.
  rewrite Ed in *.
  assert (Hrm : remapped d0 s t (bit (free_map s)) /\ free_map t = free_map s /\ disk t = D /\ capacity t = capacity s).
  { destruct Hw as [Hwd Hwf Hwc]. destruct Hag as [->| ->]; (split; [|done]); split; try done;
    try (split_and!; done || apply Hd); [exists (requests s)|exists (S (requests s))]; by destruct s. }
  destruct Hrm as (Hrm & Emap & ED & EC). apply HQ; [done|done|]. destruct (Z.eqb_spec m size) as [->|Hne].
  - unfold saved. rewrite ED, EC, Emap, (wr_data _ _ _ _ _ _ Hw). fold buf size. apply splice_all.
    rewrite length_take, length_contents. lia.
  - unfold write_count in Hm. destruct Hm as [Hm|[Hx _]]; [lia|exact Hx].
Qed.

Lemma wp_on_map {A} s (m : M bitmap A) (Q : A -> fs -> Prop) r b : m (free_map s) = Ok (r, b) ->
  Q r (set_free_map b s) -> wp (on_map m) Q s.
Proof. intros E HQ. unfold on_map. apply wp_zoom. unfold wp. by rewrite E. Qed.

(** Changing the bitmap in memory. *)
Lemma remapped_set s b f : disk_inv s I -> updated (free_map s) b f -> remapped d0 s (set_free_map b s) f.
Proof. intros Hd Hu. split; [apply Hd|done|done|]. exists (requests s). by destruct s. Qed.

(** All bits stay as they are. *)
Lemma remapped_ext s t f g : remapped d0 s t f -> (forall i, 0 <= i -> f i = g i) -> remapped d0 s t g.
Proof.
  intros [? ? (? & ? & ? & Hb) ?] E. split; [done..| |done]. split_and!; try done. intros i Hi. rewrite Hb by done. auto.
Qed.

(** What free_map_allocate() does: it marks sectors that were free, or fails
    and leaves the map as it is. *)
Definition marked (b : bitmap) (first cnt i : Z) : bool := if in_range first cnt i then true else bit b i.
Definition cleared (b : bitmap) (first cnt i : Z) : bool := if in_range first cnt i then false else bit b i.

Lemma wp_free_map_allocate s cnt (Q : option Z -> fs -> Prop) : 0 <= cnt ->
  disk_inv s I -> map_ready d0 s ->
  (forall first t, 0 <= first -> first + cnt <= capacity s -> group (free_map s) first cnt false ->
     (forall k, 0 <= k < first -> ~ group (free_map s) k cnt false) -> remapped d0 s t (marked (free_map s) first cnt) -> saved d0 t -> Q (Some first) t) ->
  (forall t, remapped d0 s t (bit (free_map s)) ->
     (exhausted s \/ (disk t = disk s /\ free_map t = free_map s /\
        forall k, 0 <= k -> k + cnt <= capacity s -> ~ group (free_map s) k cnt false)) -> Q None t) ->
  wp (free_map_allocate cnt) Q s.
Proof.
  intros Hc Hd Ho H1 H2. pose proof (inv_cap _ _ Hd) as Hcap. pose proof (inv_map_cnt _ _ Hd) as Hbc.
  unfold free_map_allocate. apply wp_bind.
  destruct (scan_and_flip_ok (free_map s) 0 cnt false (inv_map _ _ Hd)) as (r & b & E & Hres); [lia..|].
  eapply wp_on_map; [exact E|]. apply wp_bind, wp_get. cbn [negb] in *.
  destruct Hres as [(Hne & Hr0 & Hr1 & Hg & Hmin & Hu)|(-> & -> & Hnone)].
  2:{ rewrite Z.eqb_refl. cbn [negb andb]. apply wp_bind, wp_ret, wp_ret. rewrite Z.eqb_refl.
      apply H2; [|right; split; [done|]; split; [done|]; intros k; rewrite <- Hbc; apply Hnone]. apply remapped_set; [done|]. apply updated_refl; [apply Hd|done]. }
  fold (marked (free_map s) r cnt) in Hu. pose proof (remapped_set _ _ _ Hd Hu) as Hr.
  assert (Hmono : forall k d j, I !! k = Some d -> owns k d j -> marked (free_map s) r cnt j = true).
  { intros k d j Hk Hj. unfold marked. destruct (in_range r cnt j); [done|]. by eapply inv_mark. }
  pose proof (remapped_disk Hd H0 Hr Hmono) as Hd1. pose proof (remapped_ready Hr Ho) as Ho1.
  assert (Hfp : (free_map_file (set_free_map b s) =? NULL) = false).
  { apply Z.eqb_neq. destruct Ho1 as [? _]. unfold NULL. lia. }
  rewrite (proj2 (Z.eqb_neq r BITMAP_ERROR)) by done. rewrite Hfp. cbn [negb andb].
  apply wp_bind, wp_bind. apply wp_bitmap_write; [done..|].
  intros ok t Hrt Emap Hsaved. pose proof (remapped_trans _ _ _ _ _ _ Hr Hrt) as Hst.
  assert (Hbit : forall j, 0 <= j -> bit (free_map (set_free_map b s)) j = marked (free_map s) r cnt j) by apply Hu.
  pose proof (remapped_ext _ _ _ _ Hst Hbit) as Hst'.
  destruct ok; cbn [negb].
  - apply wp_ret, wp_ret. rewrite (proj2 (Z.eqb_neq r BITMAP_ERROR)) by done. cbn [negb].
    apply H1; [done|by rewrite <- Hbc|done|done|done|done].
  - pose proof Hst' as [_ _ (Hwt & Hct & _) _].
    destruct (bitmap_set_multiple_ok (free_map t) Hwt r cnt false) as (b' & E' & Hu'); [lia..|].
    apply wp_bind. eapply wp_on_map; [exact E'|]. apply wp_ret, wp_ret. rewrite Z.eqb_refl.
    apply H2; [|by left]. assert (Hdt : disk_inv t I) by (by apply (remapped_disk Hd H0 Hst')).
    eapply remapped_ext; [eapply remapped_trans; [exact Hst'|by apply remapped_set]|].
    intros j Hj. cbn. destruct (in_range r cnt j) eqn:Ej; [symmetry; apply Hg; unfold in_range in Ej; lia|].
    destruct Hst' as [_ _ (_ & _ & _ & Hb) _]. rewrite Hb by done. unfold marked. by rewrite Ej.
Qed.

Lemma wp_free_map_release s first cnt (Q : unit -> fs -> Prop) : 0 <= first -> 0 <= cnt -> first + cnt <= capacity s ->
  group (free_map s) first cnt true -> disk_inv s I ->
  (forall k d j, I !! k = Some d -> owns k d j -> in_range first cnt j = false) -> map_ready d0 s ->
  (forall t, remapped d0 s t (cleared (free_map s) first cnt) -> saved d0 t \/ exhausted s -> Q tt t) ->
  wp (free_map_release first cnt) Q s.
Proof.
  intros Hf Hc Hle Hg Hd Hout Ho HQ. pose proof (inv_map_cnt _ _ Hd) as Hbc. unfold free_map_release.
  apply wp_bind. destruct (bitmap_contains_ok (free_map s) (inv_map _ _ Hd) first cnt false) as (c & E & Hcg); [lia..|].
  rewrite (proj2 Hcg Hg) in E. eapply (wp_on_map _ _ _ true (free_map s)).
  { unfold bitmap_all, bind. by rewrite E. }
  apply wp_bind, wp_assertb; [done|]. apply wp_bind. cbn [free_map set_free_map].
  destruct (bitmap_set_multiple_ok (free_map s) (inv_map _ _ Hd) first cnt false) as (b & Eb & Hu); [lia..|].
  eapply wp_on_map; [exact Eb|]. apply wp_bind, wp_get. fold (cleared (free_map s) first cnt) in Hu.
  pose proof (remapped_set _ _ _ Hd Hu) as Hr.
  replace (set_free_map b (set_free_map (free_map s) s)) with (set_free_map b s) by done.
  assert (Hd1 : disk_inv (set_free_map b s) I).
  { apply (remapped_disk Hd H0 Hr). intros k d j Hk Hj. unfold cleared. rewrite (Hout k d j Hk Hj). by eapply inv_mark. }
  apply wp_bind. apply wp_bitmap_write; [done|done|]. intros ok t Hrt Emap Hs.
  apply wp_ret, HQ.
  - eapply remapped_ext; [by eapply remapped_trans|]. apply Hu.
  - destruct ok; auto.
Qed.
End Op.
End FreeMap.
