(* ===== verification/FsWp.v ===== *)
(** * The file system: opening and closing inodes

    What the functions do, and then that they keep the invariant. *)

From Stdlib Require Import ZArith Lia.
From stdpp Require Import base numbers gmap list.
From S2P Require Import Prelude Bitmap FsBase Inode Directory FsData FsInv.

Open Scope Z_scope.

(** * Opening and closing

    Reference counts of open inodes: every function that opens, closes or
    reopens an inode, a file or a directory keeps the invariant, with the
    references that its result or its argument holds accounted for. *)

(** ** One object changes *)

Definition is_inode (o : object) : bool := match o with Inode _ => true | _ => false end.

Lemma pending_elem p X : p ∈ X <-> (0 < pending p X)%nat.
Proof.
  induction X as [|x X IH]; [split; [by intros ?%elem_of_nil|cbn; lia]|].
  rewrite elem_of_cons, IH, pending_cons. case_bool_decide as E; cbn [one]; [lia|].
  split; [intros [->|?]; [done|lia]|auto].
Qed.

Lemma refers_inode p i : refers p (Inode i) = false.
Proof. done. Qed.

Lemma heap_inv_obj s I X X' p o o' : heap s !! p = Some o -> is_inode o = false -> is_inode o' = false ->
  (forall q, one (refers q o) + pending q X = one (refers q o') + pending q X')%nat ->
  (forall q, denies q o = denies q o') ->
  heap_inv s I X -> heap_inv (set_heap (<[p := o']> (heap s)) s) I X'.
Proof.
  intros Hp Hno Hno' Hcnt Hden [Hl Ho Hptr Hdata Hc Hpos Hdn Hu Href Hpend].
  assert (Hin : forall q i, <[p := o']> (heap s) !! q = Some (Inode i) <-> heap s !! q = Some (Inode i)).
  { intros q i. destruct (decide (q = p)) as [->|]; [|by rewrite lookup_insert_ne].
    rewrite lookup_insert_eq, Hp. split; intros [= ->]; done. }
  assert (Hsome : forall q, (0 < one (refers q o') + pending q X')%nat -> exists i, heap s !! q = Some (Inode i)).
  { intros q Hq. rewrite <- Hcnt in Hq. destruct (refers q o) eqn:E; [eauto|]. apply Hpend, pending_elem. cbn in Hq. lia. }
  split; cbn [heap open_inodes set_heap]; try done.
  - intros q. rewrite Ho. by setoid_rewrite Hin.
  - intros q x. destruct (decide (q = p)) as [->|]; [intros _; by eapply Hptr|rewrite lookup_insert_ne by done; apply Hptr].
  - intros q i. rewrite Hin. apply Hdata.
  - intros q i. rewrite Hin. intros Hq. rewrite (Hc q i Hq). pose proof (count_update (refers q) _ _ _ o' Hp). specialize (Hcnt q). lia.
  - intros q i. rewrite Hin. apply Hpos.
  - intros q i. rewrite Hin. intros Hq. rewrite (Hdn q i Hq). by rewrite (count_same _ _ _ _ _ Hp (Hden q)).
  - intros q q' i j. rewrite !Hin. apply Hu.
  - intros q x r Hq Hr. setoid_rewrite Hin. destruct (decide (q = p)) as [->|].
    + rewrite lookup_insert_eq in Hq. injection Hq as <-. apply Hsome. rewrite Hr. cbn. lia.
    + rewrite lookup_insert_ne in Hq by done. by eapply Href.
  - intros q Hq%pending_elem. setoid_rewrite Hin. apply Hsome. lia.
Qed.

Lemma heap_inv_ino s I X X' p i i' : heap s !! p = Some (Inode i) ->
  sector i' = sector i -> data i' = data i -> deny_write_cnt i' = deny_write_cnt i -> 0 < open_cnt i' ->
  open_cnt i' + Z.of_nat (pending p X) = open_cnt i + Z.of_nat (pending p X') ->
  (forall q, q <> p -> pending q X' = pending q X) ->
  heap_inv s I X -> heap_inv (set_heap (<[p := Inode i']> (heap s)) s) I X'.
Proof.
  intros Hp Es Ed En Hpos' Hcnt Hq [Hl Ho Hptr Hdata Hc Hpos Hdn Hu Href Hpend].
  assert (Hcount : forall P, P (Inode i) = P (Inode i') -> count P (<[p := Inode i']> (heap s)) = count P (heap s))
    by (intros P E; by eapply count_same).
  assert (Hin : forall q j, <[p := Inode i']> (heap s) !! q = Some (Inode j) ->
    exists j0, heap s !! q = Some (Inode j0) /\ sector j = sector j0 /\ data j = data j0).
  { intros q j. destruct (decide (q = p)) as [->|]; [rewrite lookup_insert_eq; intros [= <-]; eauto|].
    rewrite lookup_insert_ne by done. eauto. }
  assert (Hex : forall q, (exists j, heap s !! q = Some (Inode j)) -> exists j, <[p := Inode i']> (heap s) !! q = Some (Inode j)).
  { intros q [j Hj]. destruct (decide (q = p)) as [->|]; [rewrite lookup_insert_eq; eauto|rewrite lookup_insert_ne by done; eauto]. }
  split; cbn [heap open_inodes set_heap]; try done.
  - intros q. rewrite Ho. split; [apply Hex|]. intros [j Hj]. destruct (Hin _ _ Hj) as (j0 & ? & _). eauto.
  - intros q x. destruct (decide (q = p)) as [->|]; [intros _; by eapply Hptr|rewrite lookup_insert_ne by done; apply Hptr].
  - intros q j Hj. destruct (Hin _ _ Hj) as (j0 & Hj0 & -> & ->). eauto.
  - intros q j Hj. rewrite Hcount by done. destruct (decide (q = p)) as [->|Hne].
    + rewrite lookup_insert_eq in Hj. injection Hj as <-. pose proof (Hc p i Hp). lia.
    + rewrite lookup_insert_ne in Hj by done. rewrite (Hc q j Hj), (Hq q) by done. done.
  - intros q j Hj. destruct (decide (q = p)) as [->|Hne]; [rewrite lookup_insert_eq in Hj; by injection Hj as <-|].
    rewrite lookup_insert_ne in Hj by done. eauto.
  - intros q j Hj. rewrite Hcount by done. destruct (decide (q = p)) as [->|Hne].
    + rewrite lookup_insert_eq in Hj. injection Hj as <-. rewrite En. eauto.
    + rewrite lookup_insert_ne in Hj by done. eauto.
  - intros q q' j j' (k & Hk & Ek & _)%Hin (k' & Hk' & Ek' & _)%Hin E. eapply Hu; [done..|congruence].
  - intros q x r Hx Hr. apply Hex. destruct (decide (q = p)) as [->|].
    + rewrite lookup_insert_eq in Hx. by injection Hx as <-.
    + rewrite lookup_insert_ne in Hx by done. by eapply Href.
  - intros q Hqx. apply Hex. destruct (decide (q = p)) as [->|Hne]; [eauto|]. apply Hpend, pending_elem.
    rewrite <- Hq by done. by apply pending_elem.
Qed.

(** ** Blocks come and go *)

Lemma count_zero P h : (forall k o, h !! k = Some o -> P o = false) -> count P h = 0%nat.
Proof.
  intros H. unfold count. apply map_size_empty_iff, map_empty. intros k.
  apply map_lookup_filter_None. right. intros o Ho. cbn. by rewrite (H k o).
Qed.

Lemma heap_inv_raw s I X h n : (forall q o, o <> Block -> h !! q = Some o <-> heap s !! q = Some o) ->
  (forall q o, h !! q = Some o -> 0 < q) -> (forall P, P Block = false -> count P h = count P (heap s)) ->
  heap_inv s I X -> heap_inv (set_heap h (set_requests n s)) I X.
Proof.
  intros Hh Hp Hc [Hl Ho Hptr Hdata Hcnt Hpos Hdn Hu Href Hpend].
  assert (Hin : forall q i, h !! q = Some (Inode i) <-> heap s !! q = Some (Inode i)) by (intros; by apply Hh).
  split; cbn [heap open_inodes set_heap set_requests]; try done.
  - intros q. rewrite Ho. by setoid_rewrite Hin.
  - intros q i. rewrite Hin. apply Hdata.
  - intros q i. rewrite Hin, Hc by done. apply Hcnt.
  - intros q i. rewrite Hin. apply Hpos.
  - intros q i. rewrite Hin, Hc by done. apply Hdn.
  - intros q q' i j. rewrite !Hin. apply Hu.
  - intros q o p Hq Hr. setoid_rewrite Hin. apply (Href q o); [|done]. apply Hh; [by intros ->|done].
  - intros p Hx. setoid_rewrite Hin. by apply Hpend.
Qed.

Lemma heap_inv_alloc s I X p n : 0 < p -> heap s !! p = None -> heap_inv s I X ->
  heap_inv (set_heap (<[p := Block]> (heap s)) (set_requests n s)) I X.
Proof.
  intros H0 Hp Hi. apply heap_inv_raw; [| | |done].
  - intros q o Ho. destruct (decide (q = p)) as [->|]; [|by rewrite lookup_insert_ne].
    rewrite lookup_insert_eq, Hp. split; congruence.
  - intros q o. destruct (decide (q = p)) as [->|]; [done|]. rewrite lookup_insert_ne by done. apply Hi.
  - intros P HP. rewrite count_new by done. by rewrite HP.
Qed.

Lemma heap_inv_free s I X p : heap s !! p = Some Block -> heap_inv s I X ->
  heap_inv (set_heap (delete p (heap s)) s) I X.
Proof.
  intros Hp Hi. replace s with (set_requests (requests s) s) at 2 by (by destruct s).
  apply heap_inv_raw; [| | |done].
  - intros q o Ho. destruct (decide (q = p)) as [->|]; [|by rewrite lookup_delete_ne].
    rewrite lookup_delete_eq, Hp. split; congruence.
  - intros q o [_ Hq]%lookup_delete_Some. by eapply inv_ptr.
  - intros P HP. rewrite (count_delete P _ _ _ Hp), HP. done.
Qed.

(** A new inode, with one reference. *)
Lemma heap_inv_new s I X p i : heap s !! p = Some Block -> I !! sector i = Some (data i) ->
  open_cnt i = 1 -> deny_write_cnt i = 0 ->
  (forall q j, heap s !! q = Some (Inode j) -> sector j <> sector i) -> heap_inv s I X ->
  heap_inv (set_open_inodes (p :: open_inodes s) (set_heap (<[p := Inode i]> (heap s)) s)) I (p :: X).
Proof.
  intros Hp HI Hc1 Hd0 Hfresh [Hl Ho Hptr Hdata Hc Hpos Hdn Hu Href Hpend].
  assert (Hnp : ~ exists i, heap s !! p = Some (Inode i)) by (intros [? ?]; congruence).
  assert (Hcount : forall P, P Block = P (Inode i) -> count P (<[p := Inode i]> (heap s)) = count P (heap s))
    by (intros P E; by eapply count_same).
  assert (Hz : forall P, (forall o, P o = true -> refers p o = true) -> count P (heap s) = 0%nat).
  { intros P HP. apply count_zero. intros k o Hk. apply not_true_is_false. intros E. apply Hnp. eapply Href; [done|]. auto. }
  assert (Hin : forall q j, <[p := Inode i]> (heap s) !! q = Some (Inode j) ->
    (q = p /\ j = i) \/ (q <> p /\ heap s !! q = Some (Inode j))).
  { intros q j. destruct (decide (q = p)) as [->|]; [rewrite lookup_insert_eq; intros [= <-]; auto|].
    rewrite lookup_insert_ne by done. auto. }
  assert (Hex : forall q, (exists j, heap s !! q = Some (Inode j)) -> exists j, <[p := Inode i]> (heap s) !! q = Some (Inode j)).
  { intros q [j Hj]. exists j. rewrite lookup_insert_ne by congruence. done. }
  split; cbn [heap open_inodes set_heap set_open_inodes].
  - apply NoDup_cons. split; [|done]. by rewrite Ho.
  - intros q. rewrite elem_of_cons, Ho. split.
    + intros [->|H]; [rewrite lookup_insert_eq; eauto|by apply Hex].
    + intros [j [[-> _]|[_ Hj]]%Hin]; eauto.
  - intros q o. destruct (decide (q = p)) as [->|]; [intros _; by eapply Hptr|rewrite lookup_insert_ne by done; apply Hptr].
  - intros q j [[-> ->]|[_ Hj]]%Hin; eauto.
  - intros q j [[-> ->]|[Hne Hj]]%Hin; rewrite Hcount, pending_cons by done.
    + rewrite Hz, bool_decide_eq_true_2 by done. cbn [one].
      assert (pending p X = 0%nat); [|lia]. destruct (pending p X) eqn:E; [done|].
      destruct Hnp. apply Hpend, pending_elem. lia.
    + rewrite bool_decide_eq_false_2 by done. by apply Hc.
  - intros q j [[-> ->]|[_ Hj]]%Hin; [lia|eauto].
  - intros q j [[-> ->]|[_ Hj]]%Hin; rewrite Hcount by done; [|eauto].
    rewrite Hz; [done|]. intros [| |f|d]; cbn; try done. by intros [? _]%andb_true_iff.
  - intros q q' j j' [[-> ->]|[_ Hj]]%Hin [[-> ->]|[_ Hj']]%Hin E; try done.
    + by destruct (Hfresh q' j' Hj').
    + by destruct (Hfresh q j Hj).
    + by eapply Hu.
  - intros q o r Hq Hr. apply Hex. destruct (decide (q = p)) as [->|].
    + rewrite lookup_insert_eq in Hq. by injection Hq as <-.
    + rewrite lookup_insert_ne in Hq by done. by eapply Href.
  - intros q [->|Hq]%elem_of_cons; [rewrite lookup_insert_eq; eauto|]. by apply Hex, Hpend.
Qed.

(** The last reference goes. *)
Lemma heap_inv_last s I X p i : heap s !! p = Some (Inode i) -> open_cnt i = 1 -> heap_inv s I (p :: X) ->
  heap_inv (set_open_inodes (filter (fun q => q <> p) (open_inodes s)) (set_heap (delete p (heap s)) s)) I X.
Proof.
  intros Hp Hc1 [Hl Ho Hptr Hdata Hc Hpos Hdn Hu Href Hpend].
  assert (Hz : count (refers p) (heap s) = 0%nat /\ pending p X = 0%nat).
  { pose proof (Hc p i Hp) as E. rewrite pending_cons, bool_decide_eq_true_2 in E by done. cbn [one] in E. lia. }
  destruct Hz as [Hz1 Hz2].
  assert (Hcount : forall P, P (Inode i) = false -> count P (delete p (heap s)) = count P (heap s)).
  { intros P E. rewrite (count_delete P _ _ _ Hp), E. done. }
  assert (Hin : forall q o, delete p (heap s) !! q = Some o -> q <> p /\ heap s !! q = Some o).
  { intros q o [? ?]%lookup_delete_Some. auto. }
  assert (Hex : forall q, q <> p -> (exists j, heap s !! q = Some (Inode j)) -> exists j, delete p (heap s) !! q = Some (Inode j)).
  { intros q Hne [j Hj]. exists j. by rewrite lookup_delete_ne. }
  split; cbn [heap open_inodes set_heap set_open_inodes].
  - by apply NoDup_filter.
  - intros q. rewrite list_elem_of_filter, Ho. split; [intros [? ?]; by apply Hex|]. intros [j [? ?]%Hin]. eauto.
  - intros q o [_ Hq]%Hin. eauto.
  - intros q j [_ Hq]%Hin. eauto.
  - intros q j [Hne Hq]%Hin. rewrite Hcount by done. rewrite (Hc q j Hq), pending_cons, bool_decide_eq_false_2 by done. done.
  - intros q j [_ Hq]%Hin. eauto.
  - intros q j [_ Hq]%Hin. rewrite Hcount by done. eauto.
  - intros q q' j j' [_ Hq]%Hin [_ Hq']%Hin. eauto.
  - intros q o r [_ Hq]%Hin Hr. apply Hex; [|by eapply Href]. intros ->.
    pose proof (count_delete (refers p) _ _ _ Hq) as E. rewrite Hr in E. cbn in E. lia.
  - intros q Hq. apply Hex; [intros ->; apply pending_elem in Hq; lia|]. apply Hpend. by right.
Qed.

(** * Opening and closing, with the invariant

    Rules for the functions that open and close inodes, files and directories:
    what they return, and what they leave alone. *)

(** ** What a caller sees *)

(** An open file or directory, with the sector of its inode. *)
Definition view (s : fs) (h : Z) : option (object * Z) :=
  match heap s !! h with
  | Some (File f) =>
      match heap s !! file_inode f with Some (Inode i) => Some (File f, sector i) | _ => None end
  | Some (Dir d) =>
      match heap s !! dir_inode d with Some (Inode i) => Some (Dir d, sector i) | _ => None end
  | _ => None
  end.

(** An open inode that has been removed. *)
Definition removed_sector (s : fs) (k : Z) : Prop :=
  exists p i, heap s !! p = Some (Inode i) /\ removed i = true /\ sector i = k.

Record fs_inv (s : fs) (I : gmap Z inode_disk) (X : list Z) : Prop := {
  fi_disk : disk_inv s I;
  fi_heap : heap_inv s I X;
  fi_map : exists d0, I !! FREE_MAP_SECTOR = Some d0 /\ map_ready d0 s;
  fi_removed : forall k, removed_sector s k -> 2 <= k }.

Section Wp.
Context `{!Memory}.

(** Some request for memory fails. *)
Definition no_memory : Prop := exists n live, place n live = None.

Lemma exhausted_no_memory s : exhausted s -> no_memory.
Proof. intros Hx. by exists (requests s), (dom (heap s)). Qed.

(** A removed file of [I] is still open, so that it will be deleted, and the
    free map's file is as up to date as it was. *)
Record steady (I : gmap Z inode_disk) (s t : fs) : Prop := {
  st_still : forall k, removed_sector s k -> is_Some (I !! k) -> removed_sector t k;
  st_recorded : forall d0, I !! FREE_MAP_SECTOR = Some d0 -> recorded d0 s -> recorded d0 t \/ no_memory }.

Lemma steady_same I s t : heap t = heap s -> disk t = disk s -> free_map t = free_map s -> capacity t = capacity s ->
  steady I s t.
Proof.
  intros E1 E2 E3 E4. split.
  - intros k (p & i & Hp & Hr) _. exists p, i. by rewrite E1.
  - intros d0 _ Hr. left. by eapply recorded_same.
Qed.

Lemma steady_refl I s : steady I s s.
Proof. by apply steady_same. Qed.

Lemma steady_trans I I' s t u : steady I s t -> steady I' t u -> I' ⊆ I -> steady I' s u.
Proof.
  intros [Hs Hr] [Hs' Hr'] Hsub. split.
  - intros k Hk [d Hd]. apply Hs'; [|by eauto]. apply Hs; [done|]. exists d. by eapply lookup_weaken.
  - intros d0 H0 Hrec. destruct (Hr d0) as [H1|?]; [by eapply lookup_weaken|done|by apply Hr'|by right].
Qed.

Lemma steady_weaken I I' s t : steady I s t -> I' ⊆ I -> steady I' s t.
Proof. intros H1 H2. eapply steady_trans; [done|apply steady_refl|done]. Qed.

(** The part of the state that callers see is the same in [t] as in [s]: the
    files of [I], open files and directories.  Sectors may have been freed. *)
Record frame (I : gmap Z inode_disk) (s t : fs) : Prop := {
  fr_cap : capacity t = capacity s;
  fr_file : free_map_file t = free_map_file s;
  fr_data : forall k d, I !! k = Some d -> k <> FREE_MAP_SECTOR -> contents (disk t) d = contents (disk s) d;
  fr_view : forall h, view t h = view s h;
  fr_removed : forall k, removed_sector t k -> removed_sector s k;
  fr_bits : forall j, 0 <= j -> bit (free_map t) j = true -> bit (free_map s) j = true;
  fr_steady : steady I s t }.

Lemma fs_frame_refl I s : frame I s s.
Proof. split; try done. apply steady_refl. Qed.

Lemma fs_frame_trans I I' s t u : frame I s t -> frame I' t u -> I' ⊆ I -> frame I' s u.
Proof.
  intros [? ? Hd ? ? ? ?] [? ? Hd' ? ? ? ?] Hs. split; try congruence; auto.
  - intros k d Hk Hne. rewrite (Hd' k d Hk Hne). apply (Hd k d); [by eapply lookup_weaken|done].
  - by eapply steady_trans.
Qed.

(** ** Only the heap changes *)

(** [h] is the heap [s] with other blocks, and open inodes counted anew. *)
Record same_objects (s : fs) (h : gmap Z object) : Prop := {
  so_handle : forall q o, is_inode o = false -> o <> Block -> h !! q = Some o <-> heap s !! q = Some o;
  so_inode : forall q i, heap s !! q = Some (Inode i) ->
    exists i', h !! q = Some (Inode i') /\ sector i' = sector i /\ removed i' = removed i /\
      deny_write_cnt i' = deny_write_cnt i /\ data i' = data i;
  so_new : forall q i', h !! q = Some (Inode i') -> removed i' = true -> exists i, heap s !! q = Some (Inode i) /\
      removed i = true /\ sector i' = sector i }.

(** States that agree but for the heap, the list of open inodes and the number
    of requests. *)
Definition with_heap (s : fs) (h : gmap Z object) (l : list Z) (n : nat) : fs :=
  set_open_inodes l (set_heap h (set_requests n s)).

Lemma view_same s h l n : same_objects s h -> (forall q o p, heap s !! q = Some o -> refers p o = true ->
  exists i, heap s !! p = Some (Inode i)) -> forall q, view (with_heap s h l n) q = view s q.
Proof.
  intros [Hh Hi _] Href q. unfold view. cbn [heap with_heap set_open_inodes set_heap set_requests].
  assert (Hino : forall p, (exists i, heap s !! p = Some (Inode i)) -> exists i i', heap s !! p = Some (Inode i) /\
    h !! p = Some (Inode i') /\ sector i' = sector i).
  { intros p [i Hp]. destruct (Hi p i Hp) as (i' & ? & ? & _). eauto 10. }
  destruct (heap s !! q) as [[|i|f|d]|] eqn:E.
  - destruct (h !! q) as [[]|] eqn:E'; try done; apply Hh in E'; done || congruence.
  - destruct (Hi q i E) as (i' & -> & _). done.
  - rewrite (proj2 (Hh q (File f) eq_refl ltac:(done)) E).
    destruct (Hino (file_inode f)) as (i & i' & -> & -> & ->); [|done]. eapply Href; [done|]. cbn. apply Z.eqb_refl.
  - rewrite (proj2 (Hh q (Dir d) eq_refl ltac:(done)) E).
    destruct (Hino (dir_inode d)) as (i & i' & -> & -> & ->); [|done]. eapply Href; [done|]. cbn. apply Z.eqb_refl.
  - destruct (h !! q) as [[]|] eqn:E'; try done; apply Hh in E'; done || congruence.
Qed.

Lemma frame_heap s I I' X h l n : same_objects s h -> heap_inv s I X -> frame I' s (with_heap s h l n).
Proof.
  intros Hso Hh. split; try done.
  - apply view_same; [done|]. apply Hh.
  - intros k (p & i & Hp & Hr & Hk). destruct (so_new _ _ Hso p i Hp Hr) as (i0 & ? & ? & ?).
    exists p, i0. split_and!; congruence.
  - split; [|intros d0 _ Hr; left; by eapply recorded_same].
    intros k (p & i & Hp & Hr & Hk) _. destruct (so_inode _ _ Hso p i Hp) as (i' & Hi' & ? & ? & _).
    exists p, i'. split_and!; [done|congruence..].
Qed.

Lemma inv_heap s I X X' h l n : same_objects s h -> fs_inv s I X -> heap_inv (with_heap s h l n) I X' ->
  fs_inv (with_heap s h l n) I X'.
Proof.
  intros Hso [Hd Hh (d0 & H0 & Hf & f & i & Hff & Hdf & Hp & Hi & Hs & Hr & Hdn & Hdata & Hsz) Hrem] Hh'. split.
  - destruct Hd. by split.
  - done.
  - exists d0. split; [done|]. split; [done|].
    destruct (so_inode _ _ Hso _ _ Hi) as (i' & Hi' & Es' & Er' & En' & Ed'). exists f, i'.
    rewrite Es', Er', En', Ed'. split_and!; try done. by apply (so_handle _ _ Hso).
  - intros k (p & i1 & Hp1 & Hr1 & Hk). apply Hrem. destruct (so_new _ _ Hso p i1 Hp1 Hr1) as (i0 & ? & ? & ?).
    exists p, i0. split_and!; congruence.
Qed.

Lemma so_update s p i i' : heap s !! p = Some (Inode i) -> sector i' = sector i -> removed i' = removed i ->
  deny_write_cnt i' = deny_write_cnt i -> data i' = data i -> same_objects s (<[p := Inode i']> (heap s)).
Proof.
  intros Hp Es Er En Ed. split.
  - intros q o Ho Hb. destruct (decide (q = p)) as [->|]; [|by rewrite lookup_insert_ne].
    rewrite lookup_insert_eq, Hp. split; intros [= <-]; done.
  - intros q j Hq. destruct (decide (q = p)) as [->|]; [|rewrite lookup_insert_ne by done; eauto 10].
    assert (j = i) as -> by congruence. rewrite lookup_insert_eq. eauto 10.
  - intros q j Hq Hr. destruct (decide (q = p)) as [->|]; [|rewrite lookup_insert_ne in Hq by done; eauto].
    rewrite lookup_insert_eq in Hq. injection Hq as <-. exists i. rewrite <- Er. auto.
Qed.

(** A block, or a new inode, at a place where there was none. *)
Lemma so_new_object s p o : heap s !! p = None \/ heap s !! p = Some Block ->
  o = Block \/ (exists i, o = Inode i /\ removed i = false) -> same_objects s (<[p := o]> (heap s)).
Proof.
  intros Hp Ho. split.
  - intros q x Hx Hb. destruct (decide (q = p)) as [->|]; [|by rewrite lookup_insert_ne].
    rewrite lookup_insert_eq. destruct Hp as [-> | ->], Ho as [-> |(i & -> & _)]; split; try done; intros [= <-]; done.
  - intros q i Hq. rewrite lookup_insert_ne; [eauto 10|]. intros ->. destruct Hp; congruence.
  - intros q i Hq Hr. destruct (decide (q = p)) as [->|]; [|rewrite lookup_insert_ne in Hq by done; eauto].
    rewrite lookup_insert_eq in Hq. destruct Ho as [-> |(j & -> & Hj)]; [done|]. injection Hq as ->. congruence.
Qed.

Lemma so_free s p : heap s !! p = Some Block -> same_objects s (delete p (heap s)).
Proof.
  intros Hp. split.
  - intros q x Hx Hb. destruct (decide (q = p)) as [->|]; [|by rewrite lookup_delete_ne].
    rewrite lookup_delete_eq, Hp. split; [done|congruence].
  - intros q i Hq. rewrite lookup_delete_ne by congruence. eauto 10.
  - intros q i [_ Hq]%lookup_delete_Some Hr. eauto.
Qed.


Lemma wp_inode_reopen s I X p i (Q : Z -> fs -> Prop) : heap s !! p = Some (Inode i) -> fs_inv s I X ->
  (forall t i', fs_inv t I (p :: X) -> frame I s t -> heap t !! p = Some (Inode i') -> sector i' = sector i -> Q p t) ->
  wp (inode_reopen p) Q s.
Proof.
  intros Hp Hi HQ. unfold inode_reopen. pose proof (inv_ptr _ _ _ (fi_heap _ _ _ Hi) _ _ Hp) as H0.
  rewrite (proj2 (Z.eqb_neq p NULL)) by (unfold NULL; lia). cbn [negb].
  apply wp_bind, wp_bind. eapply wp_get_inode; [done|]. eapply wp_store; [done|]. apply wp_ret.
  assert (Hso : same_objects s (<[p := Inode (set_open_cnt (open_cnt i + 1) i)]> (heap s))) by (by apply (so_update s p i)).
  assert (Hh : heap_inv (set_heap (<[p := Inode (set_open_cnt (open_cnt i + 1) i)]> (heap s)) s) I (p :: X)).
  { pose proof (inv_pos _ _ _ (fi_heap _ _ _ Hi) _ _ Hp). eapply (heap_inv_ino s I X _ p i); try done; [cbn; lia| | |apply Hi].
    - rewrite pending_cons, bool_decide_eq_true_2 by done. cbn [one set_open_cnt open_cnt]. lia.
    - intros q Hq. rewrite pending_cons, bool_decide_eq_false_2 by done. done. }
  eapply HQ.
  - exact (inv_heap s I X _ _ (open_inodes s) (requests s) Hso Hi Hh).
  - exact (frame_heap s I I X _ (open_inodes s) (requests s) Hso (fi_heap _ _ _ Hi)).
  - cbn. by rewrite lookup_insert_eq.
  - done.
Qed.

Lemma wp_find_open s sec l (Q : option Z -> fs -> Prop) :
  (forall p, p ∈ l -> exists i, heap s !! p = Some (Inode i)) ->
  (forall p i, p ∈ l -> heap s !! p = Some (Inode i) -> sector i = sec -> Q (Some p) s) ->
  ((forall p i, p ∈ l -> heap s !! p = Some (Inode i) -> sector i <> sec) -> Q None s) ->
  wp (find_open sec l) Q s.
Proof.
  induction l as [|p l IH]; intros Hl H1 H2; cbn [find_open].
  - apply wp_ret, H2. by intros ? ? ?%elem_of_nil.
  - destruct (Hl p) as [i Hi]; [left|]. apply wp_bind. eapply wp_get_inode; [done|].
    destruct (Z.eqb_spec (sector i) sec) as [E|E]; [apply wp_ret; eapply H1; [left|done|done]|].
    apply IH.
    + intros q Hq. apply Hl. by right.
    + intros q j Hq. apply H1. by right.
    + intros Hn. apply H2. intros q j [->|Hq]%elem_of_cons Hj; [congruence|eauto].
Qed.

Lemma word_encode a b c rest : word (le32 a ++ rest) = u32 a /\ word (drop 4 (le32 b ++ le32 a ++ rest)) = u32 a /\
  word (drop 8 (le32 b ++ le32 c ++ le32 a ++ rest)) = u32 a.
Proof. split_and!; apply word_le32. Qed.

(** A structure read back from disk is the one that was written. *)
Lemma decode_encode d : in_u 32 (start d) -> in_s 32 (file_size d) -> in_u 32 (magic d) -> decode_inode (encode_inode d) = d.
Proof.
  intros H1 H2 H3. unfold decode_inode, encode_inode.
  rewrite (proj1 (word_encode (start d) 0 0 _)), (proj1 (proj2 (word_encode (file_size d) (start d) 0 _))),
    (proj2 (proj2 (word_encode (magic d) (start d) (file_size d) _))).
  rewrite (uwrap_small 32 (start d)), (uwrap_small 32 (magic d)) by done. destruct d as [a b c]. cbn in *. f_equal.
  unfold swrap, uwrap. rewrite Zplus_mod_idemp_l. fold (swrap 32 b). apply swrap_small; [lia|done].
Qed.

Lemma wp_inode_open s I X sec d (Q : Z -> fs -> Prop) : fs_inv s I X -> I !! sec = Some d ->
  (forall p i t, heap t !! p = Some (Inode i) -> sector i = sec -> 0 < p -> fs_inv t I (p :: X) -> frame I s t -> Q p t) ->
  (exhausted s -> forall t, fs_inv t I X -> frame I s t -> Q NULL t) ->
  wp (inode_open sec) Q s.
Proof.
  intros Hi Hsec H1 H2. pose proof (inv_magic _ _ (fi_disk _ _ _ Hi) _ _ Hsec) as Hmag. pose proof (fi_heap _ _ _ Hi) as Hh. unfold inode_open. apply wp_bind, wp_get, wp_bind.
  destruct (inv_inode _ _ (fi_disk _ _ _ Hi) _ _ Hsec) as (Hk & [He1 He2 He3] & Hsd).
  pose proof (inv_cap _ _ (fi_disk _ _ _ Hi)) as Hcap.
  apply wp_find_open; [intros p; apply Hh| |].
  - intros p i _ Hp Es. eapply wp_inode_reopen; [done..|]. intros t i' Ht Hf Hp' Es'.
    eapply H1; [done|congruence| |done|done]. eapply inv_ptr; [apply Ht|done].
  - intros Hnone. apply wp_bind. apply wp_malloc.
    2:{ intros Hx. rewrite Z.eqb_refl. apply wp_ret, H2; [done| |].
        - destruct Hi as [[] [] ? ?]. split; [by split|by split|done|done].
        - split; try done. by apply steady_same. }
    intros p _ Hp0 Hpn. rewrite (proj2 (Z.eqb_neq p NULL)) by (unfold NULL; lia). apply wp_bind, wp_modify.
    apply wp_bind. eapply wp_disk_read; [cbn; lia|exact Hsd|]. apply wp_bind.
    eapply wp_store; [cbn; apply lookup_insert_eq|]. apply wp_ret.
    rewrite decode_encode.
    2:{ assert (0 <= sectors_of (file_size d)) by (apply Z.div_pos; lia). unfold in_u. lia. }
    2:{ unfold in_s. lia. }
    2:{ rewrite Hmag. unfold in_u, INODE_MAGIC. lia. }
    set (i := mk_inode sec 1 false 0 d). set (n := S (requests s)).
    set (h1 := <[p := Block]> (heap s)).
    assert (Hs1 : same_objects s h1) by (apply so_new_object; auto).
    assert (Hh1 : heap_inv (set_heap h1 (set_requests n s)) I X) by (by apply heap_inv_alloc).
    assert (Hi1 : fs_inv (with_heap s h1 (open_inodes s) n) I X) by (eapply inv_heap; done).
    set (s1 := with_heap s h1 (open_inodes s) n) in *.
    assert (Hp1 : heap s1 !! p = Some Block) by apply lookup_insert_eq.
    assert (Hs2 : same_objects s1 (<[p := Inode i]> (heap s1))).
    { apply so_new_object; [by right|right; by exists i]. }
    assert (Hh2 : heap_inv (with_heap s1 (<[p := Inode i]> (heap s1)) (p :: open_inodes s1) (requests s1)) I (p :: X)).
    { apply heap_inv_new; try done. intros q j Hq. change (heap s1 !! q = Some (Inode j)) in Hq.
      assert (Hne : q <> p) by congruence. cbn in Hq. unfold h1 in Hq. rewrite lookup_insert_ne in Hq by done.
      apply (Hnone q); [apply Hh; eauto|done]. }
    eapply (H1 p i); [cbn; apply lookup_insert_eq|done|done| |].
    + exact (inv_heap s1 I X _ _ _ _ Hs2 Hi1 Hh2).
    + eapply fs_frame_trans; [exact (frame_heap s I I X _ (open_inodes s) n Hs1 Hh)| |done].
      exact (frame_heap s1 I I X _ (p :: open_inodes s1) (requests s1) Hs2 (fi_heap _ _ _ Hi1)).
Qed.

(** ** Closing *)

Lemma disk_inv_sub s I I' : I' ⊆ I -> disk_inv s I -> disk_inv s I'.
Proof.
  intros Hs [? ? ? ? Hi Hm Ha Hself Hmg].
  assert (Hw : forall k d, I' !! k = Some d -> I !! k = Some d) by (intros; by eapply lookup_weaken).
  split; eauto.
Qed.

Lemma heap_inv_sub s I I' X : (forall p i, heap s !! p = Some (Inode i) -> I' !! sector i = Some (data i)) ->
  heap_inv s I X -> heap_inv s I' X.
Proof. intros Hnew []. by split. Qed.

(** An inode to which nothing refers is taken out. *)
Lemma frame_last s I I' X p i : heap s !! p = Some (Inode i) -> open_cnt i = 1 -> heap_inv s I (p :: X) ->
  (removed i = true -> I' !! sector i = None) ->
  frame I' s (with_heap s (delete p (heap s)) (filter (fun q => q <> p) (open_inodes s)) (requests s)).
Proof.
  intros Hp Hc Hh Hgone.
  assert (Hz : count (refers p) (heap s) = 0%nat).
  { pose proof (inv_cnt _ _ _ Hh p i Hp) as E. rewrite pending_cons, bool_decide_eq_true_2 in E by done. cbn [one] in E. lia. }
  assert (Hnr : forall q o, heap s !! q = Some o -> refers p o = false).
  { intros q o Hq. pose proof (count_delete (refers p) _ _ _ Hq) as E. destruct (refers p o); [cbn in E; lia|done]. }
  split; try done.
  - intros q. unfold view. cbn [heap with_heap set_open_inodes set_heap set_requests].
    destruct (decide (q = p)) as [->|Hne]; [by rewrite lookup_delete_eq, Hp|]. rewrite lookup_delete_ne by done.
    destruct (heap s !! q) as [[|j|f|d]|] eqn:E; try done; apply Hnr in E; cbn in E; apply Z.eqb_neq in E;
      by rewrite lookup_delete_ne.
  - intros k (q & j & Hq & ?). cbn in Hq. apply lookup_delete_Some in Hq as [_ Hq]. by exists q, j.
  - split; [|intros d0 _ Hr; left; by eapply recorded_same].
    intros k (q & j & Hq & Hr & <-) [d Hd]. exists q, j. cbn. rewrite lookup_delete_ne; [done|]. intros <-.
    assert (j = i) as -> by congruence. by rewrite Hgone in Hd.
Qed.

Lemma view_heap s t : heap t = heap s -> forall q, view t q = view s q.
Proof. intros E q. unfold view. by rewrite E. Qed.

Lemma removed_heap s t k : heap t = heap s -> removed_sector t k -> removed_sector s k.
Proof. unfold removed_sector. by intros ->. Qed.

Lemma frame_remapped s I I' t d0 f : disk_inv s I -> I !! FREE_MAP_SECTOR = Some d0 -> I' ⊆ I -> remapped d0 s t f ->
  (forall j, 0 <= j -> f j = true -> bit (free_map s) j = true) ->
  (recorded d0 s -> recorded d0 t \/ no_memory) -> frame I' s t.
Proof.
  intros Hd H0 Hs Hr Hf Hrec. destruct (remapped_same Hr) as (E1 & E2 & E3 & E4). split; try done.
  - intros k d Hk Hne. eapply remapped_contents; [done..| |done]. by eapply lookup_weaken.
  - by apply view_heap.
  - intros k. by apply removed_heap.
  - intros j Hj. destruct Hr as [_ _ (_ & _ & _ & Hb) _]. rewrite Hb by done. auto.
  - split; [intros k (q & j & Hq & Hj) _; exists q, j; by rewrite E1|]. intros d0' H0'.
    assert (d0' = d0) as -> by (apply (lookup_weaken _ _ _ _ H0') in Hs; congruence). done.
Qed.

(** Releasing the sectors of an inode that is not among the others. *)
Lemma wp_release_inode s I k d d0 (Q : unit -> fs -> Prop) : disk_inv s I -> I !! k = Some d -> k <> FREE_MAP_SECTOR ->
  I !! FREE_MAP_SECTOR = Some d0 -> map_ready d0 s ->
  (forall t f, remapped d0 s t f -> (forall j, 0 <= j -> f j = true -> bit (free_map s) j = true) ->
     disk_inv t (delete k I) -> recorded d0 t \/ no_memory -> Q tt t) ->
  wp (free_map_release k 1;; free_map_release (start d) (bytes_to_sectors (file_size d))) Q s.
Proof.
  intros Hd Hk Hk0 H0 Hr HQ. set (I' := delete k I). assert (Hsub : I' ⊆ I) by apply delete_subseteq.
  assert (H0' : I' !! FREE_MAP_SECTOR = Some d0) by (unfold I'; by rewrite lookup_delete_ne).
  assert (Hout : forall k' d' j, I' !! k' = Some d' -> owns k' d' j -> ~ owns k d j).
  { intros k' d' j [Hne Hk']%lookup_delete_Some Ho Ho'. apply Hne. by eapply (inv_apart _ _ Hd). }
  destruct (inv_inode _ _ Hd _ _ Hk) as (Hkr & [Hs0 Hsz Hse] & _).
  assert (Hn : 0 <= sectors_of (file_size d)) by (apply Z.div_pos; lia).
  rewrite bytes_to_sectors_ok by done. pose proof (inv_self _ _ Hd _ _ Hk) as Hself.
  pose proof (disk_inv_sub _ _ _ Hsub Hd) as Hd'.
  apply wp_bind. eapply (wp_free_map_release I' d0 H0' s); [lia|lia|lia| |done| |done|].
  - intros j Hj. eapply (inv_mark _ _ Hd); [exact Hk|]. left. lia.
  - intros k' d' j Hk' Ho. apply not_true_is_false. intros E. apply (Hout _ _ _ Hk' Ho). left. unfold in_range in E. lia.
  - intros t Hrt _. destruct (remapped_same Hrt) as (_ & _ & Ecap & _).
    assert (Hdt : disk_inv t I').
    { apply (remapped_disk Hd' H0' Hrt). intros k' d' j Hk' Ho. unfold cleared.
      destruct (in_range k 1 j) eqn:E; [|by eapply (inv_mark _ _ Hd')].
      destruct (Hout _ _ _ Hk' Ho). left. unfold in_range in E. lia. }
    pose proof Hrt as [_ _ (_ & _ & _ & Hb) _].
    eapply (wp_free_map_release I' d0 H0' t); [lia|lia|lia| |done| |by eapply remapped_ready|].
    + intros j Hj. rewrite Hb by lia. unfold cleared. destruct (in_range k 1 j) eqn:E.
      * destruct Hself. unfold in_range in E. unfold data_sector. lia.
      * eapply (inv_mark _ _ Hd); [exact Hk|]. right. exact Hj.
    + intros k' d' j Hk' Ho. apply not_true_is_false. intros E. apply (Hout _ _ _ Hk' Ho). right.
      unfold in_range in E. unfold data_sector. lia.
    + intros u Hru Hsv.
      assert (Hdu : disk_inv u I').
      { apply (remapped_disk Hdt H0' Hru). intros k' d' j Hk' Ho. unfold cleared.
        destruct (in_range _ _ j) eqn:E; [|by eapply (inv_mark _ _ Hdt)].
        destruct (Hout _ _ _ Hk' Ho). right. unfold in_range in E. unfold data_sector. lia. }
      eapply HQ; [by eapply remapped_trans| |done|].
      * intros j Hj. unfold cleared. destruct (in_range _ _ j); [done|]. rewrite Hb by done. unfold cleared.
        by destruct (in_range _ _ j).
      * destruct Hsv as [Hsv|Hx]; [left; apply recorded_saved; [apply Hdu|apply Hdu|done]|right; by eapply exhausted_no_memory].
Qed.

Lemma heap_inv_fields s t I X : heap t = heap s -> open_inodes t = open_inodes s -> heap_inv s I X -> heap_inv t I X.
Proof. intros E1 E2 []. split; rewrite ?E1, ?E2; done. Qed.

Lemma map_ready_last s I X p i d0 l n : heap s !! p = Some (Inode i) -> open_cnt i = 1 -> heap_inv s I (p :: X) ->
  map_ready d0 s -> map_ready d0 (with_heap s (delete p (heap s)) l n) /\
  forall o, map_ready d0 (with_heap s (<[p := o]> (heap s)) l n).
Proof.
  intros Hp Hc Hh (H0 & f & j & Hf & Hrest).
  assert (Hz : count (refers p) (heap s) = 0%nat).
  { pose proof (inv_cnt _ _ _ Hh p i Hp) as E. rewrite pending_cons, bool_decide_eq_true_2 in E by done. cbn [one] in E. lia. }
  assert (Hne : file_inode f <> p /\ free_map_file s <> p).
  { split; [|congruence]. pose proof (count_delete (refers p) _ _ _ Hf) as E. cbn in E.
    destruct (Z.eqb_spec (file_inode f) p); [cbn in E; lia|done]. }
  split; [|intros o]; (split; [done|]); exists f, j; cbn [heap with_heap set_open_inodes set_heap set_requests free_map_file];
    rewrite ?lookup_delete_ne, ?lookup_insert_ne by naive_solver; done.
Qed.

(** [I'] is [I], but that the inode in sector [k] may be gone. *)
Definition without (I I' : gmap Z inode_disk) (k : Z) (r : bool) : Prop := I' = I \/ (r = true /\ I' = delete k I).

(** file_close() and dir_close() close the inode of an object before they free
    the object.  In [cover c s] the objects [c], which do not count any more,
    still stand where [s] has raw blocks. *)
Definition cover (c : gmap Z object) (s : fs) : fs := set_heap (c ∪ heap s) s.
Definition covers (c : gmap Z object) (h : gmap Z object) : Prop :=
  forall k o, c !! k = Some o -> h !! k = Some Block.

Lemma cover_empty s : cover ∅ s = s.
Proof. unfold cover. rewrite (left_id_L ∅ (∪)). by destruct s. Qed.

Section Cover.
Context {c : gmap Z object} {h : gmap Z object} (Hc : covers c h).

Lemma cover_none p o : h !! p = Some o -> o <> Block -> c !! p = None.
Proof using Hc. intros Hp Ho. destruct (c !! p) as [x|] eqn:E; [|done]. apply Hc in E. congruence. Qed.

Lemma cover_lookup p o : h !! p = Some o -> o <> Block -> (c ∪ h) !! p = Some o.
Proof using Hc. intros Hp Ho. rewrite lookup_union_r; [done|]. by eapply cover_none. Qed.

Lemma cover_insert p o o' : h !! p = Some o -> o <> Block -> <[p := o']> (c ∪ h) = c ∪ <[p := o']> h.
Proof using Hc. intros Hp Ho. apply insert_union_r. by eapply cover_none. Qed.

Lemma cover_delete p o : h !! p = Some o -> o <> Block -> delete p (c ∪ h) = c ∪ delete p h.
Proof using Hc. intros Hp Ho. rewrite delete_union, (delete_id c); [done|]. by eapply cover_none. Qed.

Lemma covers_insert p o o' : h !! p = Some o -> o <> Block -> covers c (<[p := o']> h).
Proof using Hc.
  intros Hp Ho k x Hk. rewrite lookup_insert_ne; [by eapply Hc|]. intros <-. apply Hc in Hk. congruence.
Qed.

Lemma covers_delete p o : h !! p = Some o -> o <> Block -> covers c (delete p h).
Proof using Hc.
  intros Hp Ho k x Hk. rewrite lookup_delete_ne; [by eapply Hc|]. intros <-. apply Hc in Hk. congruence.
Qed.
End Cover.

Lemma map_ready_cover c s d0 : covers c (heap s) -> map_ready d0 s -> map_ready d0 (cover c s).
Proof.
  intros Hc (H0 & f & i & Hf & Hd & Hp & Hi & Hr). split; [done|]. exists f, i.
  cbn [heap cover set_heap free_map_file]. rewrite (cover_lookup Hc _ _ Hf), (cover_lookup Hc _ _ Hi) by done. done.
Qed.

(** The inodes that the references [X] are to stay open. *)
Definition stable (X : list Z) (s t : fs) : Prop := forall q i, q ∈ X -> heap s !! q = Some (Inode i) ->
  exists i', heap t !! q = Some (Inode i') /\ sector i' = sector i.

Lemma stable_last s I X p i t : heap s !! p = Some (Inode i) -> open_cnt i = 1 -> heap_inv s I (p :: X) ->
  heap t = delete p (heap s) -> stable X s t.
Proof.
  intros Hp Hc Hh E q j Hq Hj. exists j. rewrite E, lookup_delete_ne; [done|]. intros <-.
  pose proof (inv_cnt _ _ _ Hh p i Hp) as Ec. rewrite pending_cons, bool_decide_eq_true_2 in Ec by done.
  apply pending_elem in Hq. cbn [one] in Ec. lia.
Qed.

Lemma wp_inode_close_covered c s I X p i (Q : unit -> fs -> Prop) : fs_inv s I (p :: X) ->
  heap s !! p = Some (Inode i) -> covers c (heap s) ->
  (forall I' t, without I I' (sector i) (removed i) -> fs_inv t I' X -> frame I' s t -> stable X s t ->
     covers c (heap t) -> Q tt (cover c t)) ->
  wp (inode_close p) Q (cover c s).
Proof.
  intros Hi Hp Hcov HQ. pose proof (fi_heap _ _ _ Hi) as Hh. pose proof (inv_ptr _ _ _ Hh _ _ Hp) as H0.
  pose proof (inv_pos _ _ _ Hh _ _ Hp) as Hpos. pose proof (cover_lookup Hcov _ _ Hp ltac:(done)) as Hpc. unfold inode_close.
  rewrite (proj2 (Z.eqb_neq p NULL)) by (unfold NULL; lia). apply wp_bind. eapply wp_get_inode; [exact Hpc|].
  apply wp_bind. eapply wp_store; [exact Hpc|]. set (i0 := set_open_cnt (open_cnt i - 1) i).
  cbn [heap cover set_heap]. rewrite (cover_insert Hcov _ _ _ Hp) by done. set (h2 := <[p := Inode i0]> (heap s)).
  assert (Hcov2 : covers c h2) by (by eapply covers_insert).
  destruct (Z.eqb_spec (open_cnt i - 1) 0) as [E1|E1].
  2:{ apply wp_ret.
      assert (Hso : same_objects s h2) by (by apply (so_update s p i)).
      assert (Hh' : heap_inv (set_heap h2 s) I X).
      { eapply (heap_inv_ino s I (p :: X) X p i); try done; [cbn; lia| |].
        - rewrite pending_cons, bool_decide_eq_true_2 by done. cbn [one i0 set_open_cnt open_cnt]. lia.
        - intros q Hq. by rewrite pending_cons, bool_decide_eq_false_2. }
      apply (HQ I (set_heap h2 s)); [by left| | | |exact Hcov2].
      - exact (inv_heap s I (p :: X) _ _ (open_inodes s) (requests s) Hso Hi Hh').
      - exact (frame_heap s I I (p :: X) _ (open_inodes s) (requests s) Hso Hh).
      - intros q j _ Hj. destruct (so_inode _ _ Hso q j Hj) as (j' & ? & ? & _). by exists j'. }
  assert (Hc1 : open_cnt i = 1) by lia. apply wp_bind, wp_modify.
  set (l := filter (fun q => q <> p) (open_inodes s)). set (s2 := with_heap s h2 l (requests s)).
  change (set_open_inodes _ _) with (cover c s2).
  set (w := with_heap s (delete p (heap s)) l (requests s)).
  assert (Hhw : heap_inv w I X) by (by apply (heap_inv_last s I X p i)).
  assert (Hfw : frame (if removed i then delete (sector i) I else I) s w).
  { apply (frame_last s I _ X p i Hp Hc1 Hh). intros ->. apply lookup_delete_eq. }
  destruct (fi_map _ _ _ Hi) as (d0 & Hd0 & Hmr).
  destruct (map_ready_last s I X p i d0 l (requests s) Hp Hc1 Hh Hmr) as [Hmw Hm2]. fold w in Hmw.
  assert (Hp2 : h2 !! p = Some (Inode i0)) by apply lookup_insert_eq.
  assert (Hp2c : heap (cover c s2) !! p = Some (Inode i0)) by (by apply (cover_lookup Hcov2)).
  assert (Hdel : delete p (heap (cover c s2)) = c ∪ delete p (heap s)).
  { change (heap (cover c s2)) with (c ∪ h2). rewrite (cover_delete Hcov2 _ _ Hp2) by done. f_equal. apply delete_insert_eq. }
  assert (Hcovw : covers c (delete p (heap s))) by (by eapply covers_delete).
  apply wp_bind. destruct (removed i) eqn:Er.
  2:{ apply wp_ret. eapply wp_free; [done|exact Hp2c|]. rewrite Hdel.
      apply (HQ I w); [by left| |exact Hfw|by eapply stable_last|exact Hcovw]. split; [|exact Hhw|by exists d0|].
      - destruct (fi_disk _ _ _ Hi). by split.
      - intros k Hk. apply (fi_removed _ _ _ Hi). by apply (fr_removed _ _ _ Hfw). }
  assert (Hk2 : 2 <= sector i) by (apply (fi_removed _ _ _ Hi); by exists p, i).
  pose proof (inv_data _ _ _ Hh _ _ Hp) as Hdata.
  assert (Hd2 : disk_inv (cover c s2) I) by (destruct (fi_disk _ _ _ Hi); by split).
  eapply (wp_release_inode (cover c s2) I (sector i) (data i) d0);
    [done|done|unfold FREE_MAP_SECTOR; lia|done|apply map_ready_cover; [done|by apply Hm2]|].
  intros t f Hr Hf Hdt Hrec. destruct (remapped_same Hr) as (Eh & El & Ec & Eff). eapply wp_free; [done|by rewrite Eh|].
  set (I' := delete (sector i) I) in *. rewrite Eh, Hdel.
  set (u := set_heap (delete p (heap s)) t).
  assert (Hvu : forall q, view u q = view w q) by (by apply view_heap).
  assert (Hru : forall k, removed_sector u k -> removed_sector w k) by (intros k; by apply removed_heap).
  apply (HQ I' u); [by right| | |by eapply stable_last|exact Hcovw].
  - split.
    + destruct Hdt. by split.
    + apply (heap_inv_fields w); [done|by change (open_inodes u) with (open_inodes t); rewrite El|].
      eapply heap_inv_sub; [|exact Hhw]. intros q j Hq. unfold I'. rewrite lookup_delete_ne; [by eapply (inv_data _ _ _ Hhw)|].
      cbn in Hq. apply lookup_delete_Some in Hq as [Hne Hq]. intros Es. apply Hne. by eapply (inv_uniq _ _ _ Hh).
    + exists d0. unfold I'. rewrite lookup_delete_ne by (unfold FREE_MAP_SECTOR; lia). split; [done|].
      destruct Hmw as (Hw0 & fw & iw & Hw). split; [by change (0 < free_map_file t); rewrite Eff|]. exists fw, iw.
      cbn [heap u set_heap free_map_file capacity]. rewrite Eff, Ec. exact Hw.
    + intros k Hk. apply (fi_removed _ _ _ Hi), (fr_removed _ _ _ Hfw), Hru, Hk.
  - split.
    + exact Ec.
    + exact Eff.
    + intros k d Hk Hne. change (contents (disk t) d = contents (disk (cover c s2)) d).
      eapply (remapped_contents Hd2 Hd0 Hr); [|done]. by apply lookup_delete_Some in Hk as [_ Hk].
    + intros q. rewrite Hvu. apply Hfw.
    + intros k Hk. by apply (fr_removed _ _ _ Hfw), Hru.
    + intros j Hj. destruct Hr as [_ _ (_ & _ & _ & Hb) _]. change (bit (free_map t) j = true -> bit (free_map s) j = true).
      rewrite Hb by done. by apply Hf.
    + split; [intros k Hk Hin; apply (removed_heap u w); [done|]; by apply (st_still _ _ _ (fr_steady _ _ _ Hfw))|].
      intros e He _. assert (e = d0) as -> by (unfold I' in He; apply lookup_delete_Some in He as [_ ?]; congruence).
      destruct Hrec as [Hrec|?]; [left|by right]. by apply (recorded_same d0 t u).
Qed.

Lemma wp_inode_close s I X p i (Q : unit -> fs -> Prop) : fs_inv s I (p :: X) -> heap s !! p = Some (Inode i) ->
  (forall I' t, without I I' (sector i) (removed i) -> fs_inv t I' X -> frame I' s t -> stable X s t -> Q tt t) ->
  wp (inode_close p) Q s.
Proof.
  intros Hi Hp HQ. rewrite <- (cover_empty s). eapply wp_inode_close_covered; [done|done|by intros ? ?|].
  intros I' t H1 H2 H3 H4 _. rewrite cover_empty. by eapply HQ.
Qed.
End Wp.
