(* ===== verification/FsHandle.v ===== *)
(** * Open files and directories

    Rules for opening, closing and using files and directories. *)

From Stdlib Require Import ZArith Lia.
From stdpp Require Import base numbers gmap list.
From S2P Require Import Prelude Bitmap FsBase Inode Directory FsData FsInv FsWp.

Open Scope Z_scope.

Section Handle.
Context `{!Memory}.

(** As [frame], but for the open file or directory at [h]. *)
Record frame_at (I : gmap Z inode_disk) (h : Z) (s t : fs) : Prop := {
  fa_cap : capacity t = capacity s;
  fa_file : free_map_file t = free_map_file s;
  fa_data : forall k d, I !! k = Some d -> k <> FREE_MAP_SECTOR -> contents (disk t) d = contents (disk s) d;
  fa_view : forall q, q <> h -> view t q = view s q;
  fa_removed : forall k, removed_sector t k -> removed_sector s k;
  fa_bits : forall j, 0 <= j -> bit (free_map t) j = true -> bit (free_map s) j = true;
  fa_steady : steady I s t }.

Lemma frame_frame_at I h s t : frame I s t -> frame_at I h s t.
Proof. intros []. split; auto. Qed.

Lemma frame_at_trans I I' h s t u : frame_at I h s t -> frame_at I' h t u -> I' ⊆ I -> frame_at I' h s u.
Proof.
  intros [? ? Hd Hv ? ? ?] [? ? Hd' Hv' ? ? ?] Hs. split; try congruence; auto.
  - intros k d Hk Hne. rewrite (Hd' k d Hk Hne). apply (Hd k d); [by eapply lookup_weaken|done].
  - intros q Hq. rewrite Hv', Hv by done. done.
  - by eapply steady_trans.
Qed.

(** If the object at [h] is also the same, nothing has changed. *)
Lemma frame_at_frame I h s t : frame_at I h s t -> view t h = view s h -> frame I s t.
Proof. intros [] E. split; auto. intros q. destruct (decide (q = h)) as [->|]; auto. Qed.

(** ** One object changes *)

(** The state after the object at [f], which is not an inode, becomes [o]. *)
Lemma frame_at_obj s I I' X f o n : (forall i, heap s !! f <> Some (Inode i)) -> is_inode o = false -> heap_inv s I X ->
  frame_at I' f s (with_heap s (<[f := o]> (heap s)) (open_inodes s) n).
Proof.
  intros Hf Ho Hh. split; try done.
  - intros q Hq. unfold view. cbn [heap with_heap set_open_inodes set_heap set_requests].
    rewrite lookup_insert_ne by done.
    assert (Hin : forall p, (exists i, heap s !! p = Some (Inode i)) -> <[f := o]> (heap s) !! p = heap s !! p).
    { intros p [i Hp]. rewrite lookup_insert_ne; [done|]. intros ->. by destruct (Hf i). }
    destruct (heap s !! q) as [[|j|fl|d]|] eqn:E; try done; rewrite Hin; try done;
      (eapply (inv_ref _ _ _ Hh); [done|]; cbn; apply Z.eqb_refl).
  - intros k (p & i & Hp & Hr). cbn in Hp. destruct (decide (p = f)) as [->|].
    + rewrite lookup_insert_eq in Hp. injection Hp as ->. done.
    + rewrite lookup_insert_ne in Hp by done. by exists p, i.
  - split; [|intros d0 _ Hr; left; by eapply recorded_same]. intros k (p & i & Hp & Hr) _. exists p, i.
    cbn. rewrite lookup_insert_ne; [done|]. intros ->. by destruct (Hf i).
Qed.

Lemma inv_obj s I X X' f o n : (forall i, heap s !! f <> Some (Inode i)) -> is_inode o = false ->
  (f = free_map_file s -> exists fl fl', heap s !! f = Some (File fl) /\ o = File fl' /\
     file_inode fl' = file_inode fl /\ deny_write fl' = deny_write fl) ->
  fs_inv s I X -> heap_inv (with_heap s (<[f := o]> (heap s)) (open_inodes s) n) I X' ->
  fs_inv (with_heap s (<[f := o]> (heap s)) (open_inodes s) n) I X'.
Proof.
  intros Hf Ho Hfm [Hd Hh (d0 & H0 & Hp0 & fl & i & Hfl & Hdf & Hpi & Hi & Hrest) Hrem] Hh'.
  pose proof (frame_at_obj s I I X f o n Hf Ho Hh) as Hfr. split.
  - destruct Hd. by split.
  - done.
  - exists d0. split; [done|]. split; [done|]. cbn [heap with_heap set_open_inodes set_heap set_requests free_map_file].
    assert (Hne : file_inode fl <> f) by (intros <-; by destruct (Hf i)).
    destruct (decide (f = free_map_file s)) as [E|E].
    + destruct (Hfm E) as (fl0 & fl' & Hfl0 & -> & Ei & Ed). assert (fl0 = fl) as -> by congruence. exists fl', i.
      rewrite E, lookup_insert_eq, Ei, <- E, lookup_insert_ne by done. split_and!; try done; [congruence|..]; apply Hrest.
    + exists fl, i. rewrite !lookup_insert_ne by done. done.
  - intros k Hk. by apply Hrem, (fa_removed _ _ _ _ Hfr).
Qed.

(** ** Handles *)

(** [o] is an open file or directory of the inode at [p] that lets others
    write. *)
Definition handle (p : Z) (o : object) : Prop := o = File (mk_file p 0 false) \/ o = Dir (mk_dir p 0).

Lemma handle_view s f o p i : handle p o -> heap s !! f = Some o -> heap s !! p = Some (Inode i) ->
  view s f = Some (o, sector i).
Proof. intros [-> | ->] Hf Hp; unfold view; rewrite Hf; cbn; by rewrite Hp. Qed.

Lemma fs_inv_requests s I X n : fs_inv s I X -> fs_inv (set_requests n s) I X.
Proof. intros [[] [] ? ?]. split; [by split|by split|done|done]. Qed.

Lemma frame_requests I s n : frame I s (set_requests n s).
Proof. split; try done. by apply steady_same. Qed.

(** A block that was allocated and not used is freed. *)
Lemma unused_block s f n : heap s !! f = None ->
  set_heap (delete f (heap (set_heap (<[f := Block]> (heap s)) (set_requests n s))))
    (set_heap (<[f := Block]> (heap s)) (set_requests n s)) = set_requests n s.
Proof. intros Hf. cbn [heap set_heap]. rewrite delete_insert_id by done. by destruct s. Qed.

Lemma wp_file_open_null s I X (Q : Z -> fs -> Prop) : fs_inv s I X ->
  (forall t, fs_inv t I X -> frame I s t -> Q NULL t) -> wp (file_open NULL) Q s.
Proof.
  intros Hi HQ. pose proof (HQ _ (fs_inv_requests _ _ _ (S (requests s)) Hi) (frame_requests _ _ _)) as HQ'.
  unfold file_open, inode_close. apply wp_bind, wp_malloc.
  - intros f _ Hf0 Hfn. rewrite Z.eqb_refl. cbn [negb andb]. apply wp_bind, wp_ret, wp_bind.
    eapply wp_free; [done|cbn; apply lookup_insert_eq|]. rewrite unused_block by done. by apply wp_ret.
  - intros _. by rewrite Z.eqb_refl.
Qed.

(** A new handle takes over the reference that its argument was. *)
Lemma handle_open s I X p i f o n : 0 < f -> heap s !! f = None -> handle p o -> heap s !! p = Some (Inode i) ->
  fs_inv s I (p :: X) ->
  let t := with_heap s (<[f := o]> (heap s)) (open_inodes s) n in
  fs_inv t I X /\ frame_at I f s t /\ view s f = None /\ view t f = Some (o, sector i).
Proof.
  intros Hf0 Hf Ho Hp Hi t. pose proof (fi_heap _ _ _ Hi) as Hh.
  assert (Hni : is_inode o = false) by (by destruct Ho as [-> | ->]).
  assert (Hnf : forall i, heap s !! f <> Some (Inode i)) by (intros j; by rewrite Hf).
  split_and!.
  - apply (inv_obj _ _ (p :: X)); [done|done| |done|].
    { intros ->. destruct (fi_map _ _ _ Hi) as (? & _ & _ & ? & ? & E & _). congruence. }
    pose proof (heap_inv_alloc s I (p :: X) f n Hf0 Hf Hh) as H1.
    set (s1 := set_heap (<[f := Block]> (heap s)) (set_requests n s)) in *.
    assert (Hf1 : heap s1 !! f = Some Block) by apply lookup_insert_eq.
    assert (H2 : heap_inv (set_heap (<[f := o]> (heap s1)) s1) I X).
    { eapply (heap_inv_obj s1 I (p :: X) X f Block o); try done.
      - intros q. rewrite pending_cons. destruct Ho as [-> | ->]; cbn [refers file_inode dir_inode one];
        case_bool_decide as E; destruct (Z.eqb_spec p q); try done.
      - intros q. destruct Ho as [-> | ->]; cbn; [by rewrite andb_false_r|done]. }
    assert (E : <[f := o]> (heap s1) = <[f := o]> (heap s)) by apply insert_insert_eq.
    rewrite E in H2. exact H2.
  - by apply (frame_at_obj s I I (p :: X)).
  - unfold view. by rewrite Hf.
  - apply (handle_view t f o p i Ho); cbn; [apply lookup_insert_eq|]. rewrite lookup_insert_ne; [done|congruence].
Qed.

Lemma wp_file_open s I X p i (Q : Z -> fs -> Prop) : fs_inv s I (p :: X) -> heap s !! p = Some (Inode i) ->
  (forall f t, 0 < f -> view s f = None -> view t f = Some (File (mk_file p 0 false), sector i) ->
     fs_inv t I X -> frame_at I f s t -> Q f t) ->
  (exhausted s -> forall I' t, without I I' (sector i) (removed i) -> fs_inv t I' X -> frame I' s t -> Q NULL t) ->
  wp (file_open p) Q s.
Proof.
  intros Hi Hp H1 H2. pose proof (inv_ptr _ _ _ (fi_heap _ _ _ Hi) _ _ Hp) as H0. unfold file_open.
  assert (Hpn : (p =? NULL) = false) by (apply Z.eqb_neq; unfold NULL; lia). rewrite Hpn. apply wp_bind, wp_malloc.
  - intros f _ Hf0 Hfn. rewrite (proj2 (Z.eqb_neq f NULL)) by (unfold NULL; lia). cbn [negb andb]. apply wp_bind.
    eapply wp_store; [cbn; apply lookup_insert_eq|]. apply wp_ret. cbn [heap set_heap]. rewrite insert_insert_eq.
    destruct (handle_open s I X p i f (File (mk_file p 0 false)) (S (requests s))) as (Ht & Hfr & Hv & Hv');
      [done..|by left|done|done|]. by apply H1.
  - intros Hx. rewrite Z.eqb_refl. cbn [negb andb]. apply wp_bind.
    eapply (wp_inode_close (set_requests (S (requests s)) s)); [by apply fs_inv_requests|done|].
    intros I' t HI Ht Hfr _. apply wp_bind, wp_ret, wp_ret. apply (H2 Hx I'); [done|done|].
    eapply fs_frame_trans; [apply (frame_requests I)|done|]. destruct HI as [->|[_ ->]]; [done|apply delete_subseteq].
Qed.

Lemma wp_dir_open s I X p i (Q : Z -> fs -> Prop) : fs_inv s I (p :: X) -> heap s !! p = Some (Inode i) ->
  (forall f t, 0 < f -> view s f = None -> view t f = Some (Dir (mk_dir p 0), sector i) ->
     fs_inv t I X -> frame_at I f s t -> Q f t) ->
  (exhausted s -> forall I' t, without I I' (sector i) (removed i) -> fs_inv t I' X -> frame I' s t -> Q NULL t) ->
  wp (dir_open p) Q s.
Proof.
  intros Hi Hp H1 H2. pose proof (inv_ptr _ _ _ (fi_heap _ _ _ Hi) _ _ Hp) as H0. unfold dir_open.
  assert (Hpn : (p =? NULL) = false) by (apply Z.eqb_neq; unfold NULL; lia). rewrite Hpn. apply wp_bind, wp_malloc.
  - intros f _ Hf0 Hfn. rewrite (proj2 (Z.eqb_neq f NULL)) by (unfold NULL; lia). cbn [negb andb]. apply wp_bind.
    eapply wp_store; [cbn; apply lookup_insert_eq|]. apply wp_ret. cbn [heap set_heap]. rewrite insert_insert_eq.
    destruct (handle_open s I X p i f (Dir (mk_dir p 0)) (S (requests s))) as (Ht & Hfr & Hv & Hv');
      [done..|by right|done|done|]. by apply H1.
  - intros Hx. rewrite Z.eqb_refl. cbn [negb andb]. apply wp_bind.
    eapply (wp_inode_close (set_requests (S (requests s)) s)); [by apply fs_inv_requests|done|].
    intros I' t HI Ht Hfr _. apply wp_bind, wp_ret, wp_ret. apply (H2 Hx I'); [done|done|].
    eapply fs_frame_trans; [apply (frame_requests I)|done|]. destruct HI as [->|[_ ->]]; [done|apply delete_subseteq].
Qed.

(** [o] refers to [p] and does not deny writes. *)
Definition only_refers (p : Z) (o : object) : Prop :=
  (forall q, refers q o = (p =? q)) /\ (forall q, denies q o = false) /\ is_inode o = false /\ o <> Block.

(** [inode_close (p); free (f);] for the object at [f]. *)
Lemma wp_close_handle s I X f o p i (Q : unit -> fs -> Prop) : heap s !! f = Some o -> only_refers p o ->
  f <> free_map_file s -> heap s !! p = Some (Inode i) -> fs_inv s I X ->
  (forall I' t, without I I' (sector i) (removed i) -> fs_inv t I' X -> frame_at I' f s t -> stable X s t ->
     view t f = None -> Q tt t) ->
  wp (inode_close p;; free f) Q s.
Proof.
  intros Hf (Hr & Hd & Hni & Hnb) Hfm Hp Hi HQ. pose proof (fi_heap _ _ _ Hi) as Hh.
  pose proof (inv_ptr _ _ _ Hh _ _ Hf) as Hf0.
  assert (Hnf : forall j, heap s !! f <> Some (Inode j)) by (intros j E; rewrite Hf in E; injection E as ->; done).
  set (s' := with_heap s (<[f := Block]> (heap s)) (open_inodes s) (requests s)).
  assert (Hi' : fs_inv s' I (p :: X)).
  { apply (inv_obj _ _ X); [done|done|done|done|]. eapply (heap_inv_obj s I X (p :: X) f o Block); try done.
    intros q. rewrite Hr, pending_cons. cbn [refers one]. case_bool_decide; destruct (Z.eqb_spec p q); done. }
  assert (Hfr : frame_at I f s s') by (by apply (frame_at_obj s I I X)).
  assert (Ecov : cover {[f := o]} s' = s).
  { unfold cover. change (heap s') with (<[f := Block]> (heap s)).
    rewrite <- insert_union_singleton_l, insert_insert_eq, insert_id by done. by destruct s. }
  rewrite <- Ecov. apply wp_bind.
  assert (Hp' : heap s' !! p = Some (Inode i)) by (cbn; rewrite lookup_insert_ne; [done|congruence]).
  eapply wp_inode_close_covered; [exact Hi'|exact Hp'| |].
  { intros k x [<- <-]%lookup_singleton_Some. apply lookup_insert_eq. }
  intros I' t HI Ht Hft Hst Hcov. assert (Htf : heap t !! f = Some Block) by (eapply Hcov, lookup_singleton_eq).
  eapply wp_free; [done|cbn; apply lookup_union_Some_l, lookup_singleton_eq|].
  cbn [heap cover set_heap]. rewrite <- insert_union_singleton_l, delete_insert_eq.
  pose proof (so_free t f Htf) as Hso.
  assert (Hsub : I' ⊆ I) by (destruct HI as [->|[_ ->]]; [done|apply delete_subseteq]).
  change (set_heap (delete f (heap t)) (cover {[f := o]} t)) with (with_heap t (delete f (heap t)) (open_inodes t) (requests t)).
  apply (HQ I'); [done| | | |].
  - apply (inv_heap t I' X); [done|done|]. exact (heap_inv_free t I' X f Htf (fi_heap _ _ _ Ht)).
  - eapply frame_at_trans; [exact Hfr| |exact Hsub].
    eapply frame_at_trans; [apply frame_frame_at, Hft|apply frame_frame_at, (frame_heap t I' I' X); [done|apply Ht]|done].
  - intros q j Hq Hj. destruct (Hst q j Hq) as (j' & Hj' & Ej); [cbn; rewrite lookup_insert_ne; [done|congruence]|].
    exists j'. cbn. rewrite lookup_delete_ne by congruence. done.
  - unfold view. cbn. by rewrite lookup_delete_eq.
Qed.

Lemma only_refers_file p n : only_refers p (File (mk_file p n false)).
Proof. split_and!; try done. intros q. cbn. apply andb_false_r. Qed.

Lemma only_refers_dir p n : only_refers p (Dir (mk_dir p n)).
Proof. by split_and!. Qed.

Lemma wp_dir_close s I X f d i (Q : unit -> fs -> Prop) : heap s !! f = Some (Dir d) ->
  heap s !! dir_inode d = Some (Inode i) -> fs_inv s I X ->
  (forall I' t, without I I' (sector i) (removed i) -> fs_inv t I' X -> frame_at I' f s t -> stable X s t ->
     view t f = None -> Q tt t) ->
  wp (dir_close f) Q s.
Proof.
  intros Hf Hp Hi HQ. unfold dir_close. pose proof (inv_ptr _ _ _ (fi_heap _ _ _ Hi) _ _ Hf) as H0.
  rewrite (proj2 (Z.eqb_neq f NULL)) by (unfold NULL; lia). cbn [negb]. apply wp_bind. eapply wp_get_dir; [done|].
  eapply wp_close_handle; [exact Hf| | |exact Hp|exact Hi|done].
  - destruct d. apply only_refers_dir.
  - intros ->. destruct (fi_map _ _ _ Hi) as (? & _ & _ & ? & ? & E & _). congruence.
Qed.

(** ** Denying writes *)

Lemma count_mono (P P' : object -> bool) h : (forall o, P o = true -> P' o = true) -> (count P h <= count P' h)%nat.
Proof.
  intros Himp. unfold count. apply map_subseteq_size, map_filter_subseteq_ext. intros k o _. cbn. apply Himp.
Qed.

Lemma denies_refers p o : denies p o = true -> refers p o = true.
Proof. destruct o; cbn; try done. by intros [? _]%andb_true_iff. Qed.

(** The flag of a file and the count of its inode change together. *)
Lemma heap_inv_deny s I X f fl i b : heap s !! f = Some (File fl) -> heap s !! file_inode fl = Some (Inode i) ->
  deny_write fl = negb b -> heap_inv s I X ->
  heap_inv (set_heap (<[file_inode fl := Inode (set_deny_write_cnt (deny_write_cnt i + if b then 1 else -1) i)]>
    (<[f := File (set_deny_write b fl)]> (heap s))) s) I X.
Proof.
  intros Hf Hp Hb [Hl Ho Hptr Hdata Hc Hpos Hdn Hu Href Hpend]. set (p := file_inode fl) in *.
  set (h1 := <[f := File (set_deny_write b fl)]> (heap s)). set (i' := set_deny_write_cnt _ i).
  assert (Hne : p <> f) by congruence. assert (Hp1 : h1 !! p = Some (Inode i)) by (unfold h1; by rewrite lookup_insert_ne).
  set (h2 := <[p := Inode i']> h1).
  assert (Hrefs : forall q, count (refers q) h2 = count (refers q) (heap s)).
  { intros q. unfold h2. rewrite (count_same _ _ _ _ _ Hp1) by done. unfold h1. by rewrite (count_same _ _ _ _ _ Hf). }
  assert (Hdens : forall q, Z.of_nat (count (denies q) h2) = Z.of_nat (count (denies q) (heap s)) + if decide (q = p) then (if b then 1 else -1) else 0).
  { intros q. unfold h2. rewrite (count_same _ _ _ _ _ Hp1) by done. unfold h1.
    pose proof (count_update (denies q) _ _ _ (File (set_deny_write b fl)) Hf) as E. cbn [denies set_deny_write file_inode deny_write] in E.
    fold p in E. rewrite Hb in E. destruct (Z.eqb_spec p q) as [->|Hq], b; cbn in E; case_decide; subst; try done; lia. }
  assert (Hin : forall q j, h2 !! q = Some (Inode j) -> exists j0, heap s !! q = Some (Inode j0) /\ sector j = sector j0 /\
    data j = data j0 /\ open_cnt j = open_cnt j0 /\ deny_write_cnt j = deny_write_cnt j0 + if decide (q = p) then (if b then 1 else -1) else 0).
  { intros q j Hj. unfold h2 in Hj. destruct (decide (q = p)) as [->|Hq].
    - rewrite lookup_insert_eq in Hj. injection Hj as <-. exists i. split_and!; done.
    - rewrite lookup_insert_ne in Hj by done. unfold h1 in Hj. destruct (decide (q = f)) as [->|]; [by rewrite lookup_insert_eq in Hj|].
      rewrite lookup_insert_ne in Hj by done. exists j. split_and!; try done. lia. }
  assert (Hex : forall q, (exists j, heap s !! q = Some (Inode j)) -> exists j, h2 !! q = Some (Inode j)).
  { intros q [j Hj]. unfold h2. destruct (decide (q = p)) as [->|]; [rewrite lookup_insert_eq; eauto|].
    rewrite lookup_insert_ne by done. unfold h1. rewrite lookup_insert_ne by congruence. eauto. }
  split; cbn [heap open_inodes set_heap]; try done.
  - intros q. rewrite Ho. split; [apply Hex|]. intros [j (j0 & ? & _)%Hin]. eauto.
  - intros q o Hq. destruct (decide (q = p)) as [->|]; [by eapply Hptr|]. unfold h2 in Hq. rewrite lookup_insert_ne in Hq by done.
    unfold h1 in Hq. destruct (decide (q = f)) as [->|]; [by eapply Hptr|]. rewrite lookup_insert_ne in Hq by done. eauto.
  - intros q j (j0 & Hj & -> & -> & _)%Hin. eauto.
  - intros q j (j0 & Hj & _ & _ & -> & _)%Hin. rewrite Hrefs. eauto.
  - intros q j (j0 & Hj & _ & _ & -> & _)%Hin. eauto.
  - intros q j (j0 & Hj & _ & _ & _ & ->)%Hin. rewrite Hdens, (Hdn q j0 Hj). done.
  - intros q q' j j' (k & Hk & Ek & _)%Hin (k' & Hk' & Ek' & _)%Hin E. eapply Hu; [done..|congruence].
  - intros q o r Hq Hr. apply Hex. unfold h2 in Hq. destruct (decide (q = p)) as [->|].
    + rewrite lookup_insert_eq in Hq. by injection Hq as <-.
    + rewrite lookup_insert_ne in Hq by done. unfold h1 in Hq. destruct (decide (q = f)) as [->|].
      * rewrite lookup_insert_eq in Hq. injection Hq as <-. eapply (Href f (File fl)); [done|exact Hr].
      * rewrite lookup_insert_ne in Hq by done. by eapply Href.
  - intros q Hq. by apply Hex, Hpend.
Qed.

(** The state after a file and its inode have changed. *)
Lemma fs_inv_deny s I X f fl i b : heap s !! f = Some (File fl) -> heap s !! file_inode fl = Some (Inode i) ->
  deny_write fl = negb b -> f <> free_map_file s -> sector i <> FREE_MAP_SECTOR -> fs_inv s I X ->
  let i' := set_deny_write_cnt (deny_write_cnt i + if b then 1 else -1) i in
  let t := set_heap (<[file_inode fl := Inode i']> (<[f := File (set_deny_write b fl)]> (heap s))) s in
  fs_inv t I X /\ frame_at I f s t.
Proof.
  intros Hf Hp Hb Hfm Hsec Hi i' t. pose proof (fi_heap _ _ _ Hi) as Hh.
  assert (Hne : file_inode fl <> f) by congruence.
  assert (Hq : forall q, q <> f -> q <> file_inode fl -> heap t !! q = heap s !! q).
  { intros q H1 H2. cbn. by rewrite !lookup_insert_ne by done. }
  assert (Hpt : heap t !! file_inode fl = Some (Inode i')) by apply lookup_insert_eq.
  assert (Hft : frame_at I f s t).
  { split; try done.
    - intros q Hqf. unfold view. destruct (decide (q = file_inode fl)) as [->|Hqp]; [by rewrite Hpt, Hp|].
      rewrite Hq by done.
      assert (Hino : forall r, (exists j, heap s !! r = Some (Inode j)) -> exists j j', heap s !! r = Some (Inode j) /\
        heap t !! r = Some (Inode j') /\ sector j' = sector j).
      { intros r [j Hj]. destruct (decide (r = file_inode fl)) as [->|]; [exists i, i'; by split_and!|].
        exists j, j. rewrite Hq; [done|congruence|done]. }
      destruct (heap s !! q) as [[|j|fl'|d]|] eqn:E; try done;
        (match goal with |- context [heap t !! ?r] => destruct (Hino r) as (j & j' & -> & -> & ->) end; [|done]);
        (eapply (inv_ref _ _ _ Hh); [done|]; cbn; apply Z.eqb_refl).
    - intros k (q & j & Hj & Hr & Hk). destruct (decide (q = file_inode fl)) as [->|].
      + rewrite Hpt in Hj. injection Hj as <-. by exists (file_inode fl), i.
      + destruct (decide (q = f)) as [->|]; [cbn in Hj; rewrite lookup_insert_ne, lookup_insert_eq in Hj by done; done|].
        rewrite Hq in Hj by done. by exists q, j.
    - split; [|intros d0 _ Hr; left; by eapply recorded_same]. intros k (q & j & Hj & Hr & Hk) _.
      destruct (decide (q = file_inode fl)) as [->|]; [exists (file_inode fl), i'; split_and!; [done|..]; cbn; congruence|].
      exists q, j. rewrite Hq; [done|congruence|done]. }
  split; [|done]. split.
  - destruct (fi_disk _ _ _ Hi). by split.
  - by apply heap_inv_deny.
  - destruct (fi_map _ _ _ Hi) as (d0 & H0 & Hp0 & f0 & i0 & Hf0 & Hdf & Hpi & Hi0 & Hs0 & Hrest). exists d0. split; [done|].
    split; [done|]. exists f0, i0. change (free_map_file t) with (free_map_file s).
    rewrite !Hq; [done| | | |]; try done; congruence.
  - intros k Hk. by apply (fi_removed _ _ _ Hi), (fa_removed _ _ _ _ Hft).
Qed.

(** What a caller holds: an open file that is not the free map's. *)
Record user_file (s : fs) (f : Z) (fl : file) (i : inode) : Prop := {
  uf_ptr : 0 < f;
  uf_file : heap s !! f = Some (File fl);
  uf_inode : heap s !! file_inode fl = Some (Inode i);
  uf_sector : 2 <= sector i }.

Lemma user_file_view s I X f fl k : fs_inv s I X -> view s f = Some (File fl, k) -> 2 <= k ->
  exists i, user_file s f fl i /\ sector i = k.
Proof.
  intros Hi Hv Hk. unfold view in Hv. destruct (heap s !! f) as [[|j|fl'|d]|] eqn:E; try done.
  - destruct (heap s !! file_inode fl') as [[|i| |]|] eqn:E'; try done. injection Hv as -> <-. exists i. split; [|done].
    split; try done. by eapply inv_ptr; [apply Hi|].
  - destruct (heap s !! dir_inode d) as [[]|]; done.
Qed.

Lemma view_user_file s f fl i : user_file s f fl i -> view s f = Some (File fl, sector i).
Proof. intros [_ Hf Hp _]. unfold view. by rewrite Hf, Hp. Qed.

Lemma user_not_map s I X f fl i : fs_inv s I X -> user_file s f fl i -> f <> free_map_file s.
Proof.
  intros Hi [_ Hf Hp Hs] ->. destruct (fi_map _ _ _ Hi) as (? & _ & _ & ? & ? & E & _ & _ & E' & E'' & _).
  rewrite Hf in E. injection E as <-. rewrite Hp in E'. injection E' as <-. rewrite E'' in Hs. by unfold FREE_MAP_SECTOR in Hs.
Qed.

Lemma wp_file_deny_write s I X f fl i (Q : unit -> fs -> Prop) : fs_inv s I X -> user_file s f fl i ->
  (forall t, fs_inv t I X -> frame_at I f s t -> view t f = Some (File (set_deny_write true fl), sector i) -> Q tt t) ->
  wp (file_deny_write f) Q s.
Proof.
  intros Hi Hu HQ. pose proof Hu as [H0 Hf Hp Hs]. unfold file_deny_write.
  apply wp_bind, wp_assertb; [apply negb_true_iff, Z.eqb_neq; unfold NULL; lia|]. apply wp_bind. eapply wp_get_file; [done|].
  destruct (deny_write fl) eqn:Ed; cbn [negb].
  - apply wp_ret, HQ; [done|apply frame_frame_at, fs_frame_refl|]. rewrite (view_user_file _ _ _ _ Hu).
    destruct fl as [a b c]. cbn in Ed. by subst c.
  - apply wp_bind. eapply wp_store; [done|]. unfold inode_deny_write. apply wp_bind.
    assert (Hne : file_inode fl <> f) by congruence.
    eapply wp_get_inode; [cbn; by rewrite lookup_insert_ne|]. apply wp_bind.
    eapply wp_store; [cbn; by rewrite lookup_insert_ne|]. cbn [heap set_heap].
    destruct (fs_inv_deny s I X f fl i true Hf Hp ltac:(by rewrite Ed)) as [Ht Hfr];
      [by eapply user_not_map|unfold FREE_MAP_SECTOR; lia|done|].
    set (i' := set_deny_write_cnt (deny_write_cnt i + 1) i) in *. set (t := set_heap _ s) in Ht, Hfr.
    assert (Hpt : heap t !! file_inode fl = Some (Inode i')) by apply lookup_insert_eq.
    apply wp_assertb.
    + apply Z.leb_le. pose proof (inv_cnt _ _ _ (fi_heap _ _ _ Ht) _ _ Hpt) as E1.
      pose proof (inv_deny _ _ _ (fi_heap _ _ _ Ht) _ _ Hpt) as E2. cbn [i' set_deny_write_cnt open_cnt deny_write_cnt] in E1, E2.
      pose proof (count_mono _ _ (heap t) (denies_refers (file_inode fl))). lia.
    + apply HQ; [done|done|]. unfold view. cbn. rewrite lookup_insert_ne, lookup_insert_eq by done. cbn.
      by rewrite lookup_insert_eq.
Qed.

Lemma wp_file_allow_write s I X f fl i (Q : unit -> fs -> Prop) : fs_inv s I X -> user_file s f fl i ->
  (forall t i', fs_inv t I X -> frame_at I f s t -> user_file t f (set_deny_write false fl) i' -> sector i' = sector i ->
     removed i' = removed i -> Q tt t) ->
  wp (file_allow_write f) Q s.
Proof.
  intros Hi Hu HQ. pose proof Hu as [H0 Hf Hp Hs]. unfold file_allow_write.
  apply wp_bind, wp_assertb; [apply negb_true_iff, Z.eqb_neq; unfold NULL; lia|]. apply wp_bind. eapply wp_get_file; [done|].
  destruct (deny_write fl) eqn:Ed.
  - apply wp_bind. eapply wp_store; [done|]. unfold inode_allow_write. apply wp_bind.
    assert (Hne : file_inode fl <> f) by congruence.
    eapply wp_get_inode; [cbn; by rewrite lookup_insert_ne|].
    pose proof (inv_cnt _ _ _ (fi_heap _ _ _ Hi) _ _ Hp) as E1. pose proof (inv_deny _ _ _ (fi_heap _ _ _ Hi) _ _ Hp) as E2.
    pose proof (count_mono _ _ (heap s) (denies_refers (file_inode fl))).
    pose proof (count_delete (denies (file_inode fl)) _ _ _ Hf) as E3. cbn [denies] in E3. rewrite Ed, Z.eqb_refl in E3.
    cbn [andb one] in E3. apply wp_bind, wp_assertb; [apply Z.ltb_lt; lia|]. apply wp_bind, wp_assertb; [apply Z.leb_le; lia|].
    eapply wp_store; [cbn; by rewrite lookup_insert_ne|]. cbn [heap set_heap].
    destruct (fs_inv_deny s I X f fl i false Hf Hp ltac:(by rewrite Ed)) as [Ht Hfr];
      [by eapply user_not_map|unfold FREE_MAP_SECTOR; lia|done|].
    eapply (HQ _ (set_deny_write_cnt (deny_write_cnt i - 1) i)); [exact Ht|exact Hfr| |done|done]. split; [done|cbn; by rewrite lookup_insert_ne, lookup_insert_eq by done| |done].
    cbn. apply lookup_insert_eq.
  - apply wp_ret. eapply HQ; [done|apply frame_frame_at, fs_frame_refl| |done|done].
    destruct fl as [a b c]. cbn in Ed. by subst c.
Qed.

Lemma wp_file_close s I X f fl i (Q : unit -> fs -> Prop) : fs_inv s I X -> user_file s f fl i ->
  (forall I' t, without I I' (sector i) (removed i) -> fs_inv t I' X -> frame_at I' f s t -> view t f = None -> Q tt t) ->
  wp (file_close f) Q s.
Proof.
  intros Hi Hu HQ. unfold file_close. rewrite (proj2 (Z.eqb_neq f NULL)) by (destruct Hu; unfold NULL; lia). cbn [negb].
  apply wp_bind. eapply wp_file_allow_write; [done..|]. intros t i' Ht Hfr Hut Es Er. pose proof Hut as [_ Hf Hp _].
  apply wp_bind. eapply wp_get_file; [done|].
  eapply wp_close_handle; [exact Hf| |by eapply user_not_map|exact Hp|exact Ht|].
  - destruct fl. apply only_refers_file.
  - rewrite Es, Er. intros I' u HI Hiu Hfu _ Hv. eapply HQ; [exact HI|exact Hiu| |exact Hv].
    eapply frame_at_trans; [exact Hfr|exact Hfu|]. destruct HI as [->|[_ ->]]; [done|apply delete_subseteq].
Qed.
End Handle.
