(* ===== verification/FsFile.v ===== *)
(** * Reading and writing files

    inode_read_at(), inode_write_at() and the functions of file.c on top of
    them, with the invariant; and the creation of an inode. *)

From Stdlib Require Import ZArith Lia.
From stdpp Require Import base numbers gmap list.
From S2P Require Import Prelude Bitmap FsBase Inode Directory FsData FsInv FsWp FsHandle.

Open Scope Z_scope.

(** ** Changes to one file *)

(** [t] is [s] with the contents of the file in sector [k] changed to [cs]. *)
Record rewritten (I : gmap Z inode_disk) (k : Z) (cs : list Z) (s t : fs) : Prop := {
  rw_cap : capacity t = capacity s;
  rw_file : free_map_file t = free_map_file s;
  rw_other : forall k' d, I !! k' = Some d -> k' <> k -> contents (disk t) d = contents (disk s) d;
  rw_data : forall d, I !! k = Some d -> contents (disk t) d = cs;
  rw_heap : heap t = heap s;
  rw_bits : free_map t = free_map s }.

Section File.
Context `{!Memory}.

Lemma fs_inv_aged s t I X : aged s t -> fs_inv s I X -> fs_inv t I X.
Proof. intros [-> | ->]; [done|]. apply fs_inv_requests. Qed.

Lemma frame_aged s t I : aged s t -> frame I s t.
Proof. intros [-> | ->]; [apply fs_frame_refl|apply frame_requests]. Qed.

Lemma rewritten_steady I k cs s t : rewritten I k cs s t -> k <> FREE_MAP_SECTOR -> steady I s t.
Proof.
  intros [E1 _ E3 _ E5 E6] Hk. split.
  - intros j (p & i & Hp & Hr) _. exists p, i. by rewrite E5.
  - intros d0 H0 Hr. left. eapply recorded_contents; [|done|done|done]. by apply (E3 FREE_MAP_SECTOR).
Qed.

Lemma wp_inode_read_inv s I X p i size off (Q : list Z -> fs -> Prop) : fs_inv s I X -> heap s !! p = Some (Inode i) ->
  0 <= off < 2 ^ 31 -> 0 <= size ->
  (forall r t, aged s t -> fs_inv t I X -> frame I s t -> read_result s (data i) size off r -> Q r t) ->
  wp (inode_read_at p size off) Q s.
Proof.
  intros Hi Hp Ho Hs HQ. eapply wp_inode_read_at; [eapply inv_readable; [apply Hi|apply Hi|done]|done|done|].
  intros r t Ha Hr. eapply HQ; [done|by eapply fs_inv_aged|by eapply frame_aged|done].
Qed.

Lemma wp_inode_write_inv s I X p i buf size off (Q : Z -> fs -> Prop) : fs_inv s I X -> heap s !! p = Some (Inode i) ->
  0 <= off < 2 ^ 31 -> 0 <= size <= Z.of_nat (length buf) ->
  (forall m t, (if deny_write_cnt i =? 0 then write_count s (data i) size off m else m = 0) ->
     fs_inv t I X ->
     rewritten I (sector i) (splice (contents (disk s) (data i)) (Z.to_nat off) (take (Z.to_nat m) buf)) s t -> Q m t) ->
  wp (inode_write_at p buf size off) Q s.
Proof.
  intros Hi Hp Ho Hs HQ. pose proof (inv_data _ _ _ (fi_heap _ _ _ Hi) _ _ Hp) as HI.
  eapply wp_inode_write_at; [eapply inv_readable; [apply Hi|apply Hi|done]|done|done| |].
  - intros Hd. rewrite (proj2 (Z.eqb_neq _ _) Hd) in HQ. apply HQ; [done|done|].
    cbn [Z.to_nat take]. rewrite splice_nil. split; try done. intros d Hd'. by replace d with (data i) by congruence.
  - intros m D t Hd Ha Hw Hm. rewrite (proj2 (Z.eqb_eq _ _) Hd) in HQ. apply HQ; [done| |].
    + eapply fs_inv_aged; [exact Ha|]. split; [|apply heap_inv_disk, Hi|apply Hi|apply Hi].
      by eapply disk_inv_write; [apply Hi| |].
    + assert (Ed : disk t = D) by (by destruct Ha as [-> | ->]). split; try (by destruct Ha as [-> | ->]); rewrite Ed.
      * intros k' d Hk' Hne. by eapply (written_other s I (sector i)); [apply Hi| | | |].
      * intros d Hd'. replace d with (data i) by congruence. apply Hw.
Qed.

(** ** file.c *)

(** Moving the position of a file. *)
Lemma inv_set_pos s I X f fl i n : fs_inv s I X -> user_file s f fl i ->
  let t := set_heap (<[f := File (set_pos n fl)]> (heap s)) s in
  fs_inv t I X /\ frame_at I f s t /\ view t f = Some (File (set_pos n fl), sector i).
Proof.
  intros Hi Hu t. pose proof Hu as [H0 Hf Hp Hs].
  assert (Hnf : forall j, heap s !! f <> Some (Inode j)) by (intros j; by rewrite Hf). split_and!.
  - apply (inv_obj s I X X f _ (requests s)); [done|done| |done|].
    + intros E. by destruct (user_not_map _ _ _ _ _ _ Hi Hu).
    + by eapply (heap_inv_obj s I X X f (File fl)); [done..|apply Hi].
  - by apply (frame_at_obj s I I X f _ (requests s)); [done|done|apply Hi].
  - unfold view, t. cbn [heap set_heap]. rewrite lookup_insert_eq. cbn [file_inode set_pos].
    rewrite lookup_insert_ne by congruence. by rewrite Hp.
Qed.

Lemma wp_file_read s I X f fl i size (Q : list Z -> fs -> Prop) : fs_inv s I X -> user_file s f fl i ->
  0 <= pos fl < 2 ^ 31 -> 0 <= size ->
  (forall r t, read_result s (data i) size (pos fl) r -> fs_inv t I X -> frame_at I f s t ->
     view t f = Some (File (set_pos (pos fl + Z.of_nat (length r)) fl), sector i) -> Q r t) ->
  wp (file_read f size) Q s.
Proof.
  intros Hi Hu Hpos Hsize HQ. pose proof Hu as [H0 Hf Hp Hs]. unfold file_read. apply wp_bind. eapply wp_get_file; [done|].
  apply wp_bind. eapply wp_inode_read_inv; [done..|]. intros r t Ha Ht Hfr Hr.
  assert (Eh : heap t = heap s) by (by destruct Ha as [-> | ->]).
  assert (Hut : user_file t f fl i) by (split; by rewrite ?Eh).
  apply wp_bind. eapply wp_store; [by rewrite Eh|]. apply wp_ret.
  destruct (inv_set_pos t I X f fl i (pos fl + Z.of_nat (length r)) Ht Hut) as (H1 & H2 & H3).
  apply HQ; [done|done| |done]. eapply frame_at_trans; [by apply frame_frame_at|exact H2|done].
Qed.

Lemma wp_file_seek s I X f fl i n (Q : unit -> fs -> Prop) : fs_inv s I X -> user_file s f fl i -> 0 <= n ->
  (forall t, fs_inv t I X -> frame_at I f s t -> view t f = Some (File (set_pos n fl), sector i) -> Q tt t) ->
  wp (file_seek f n) Q s.
Proof.
  intros Hi Hu Hn HQ. pose proof Hu as [H0 Hf Hp Hs]. unfold file_seek.
  apply wp_bind, wp_assertb; [apply negb_true_iff, Z.eqb_neq; unfold NULL; lia|].
  apply wp_bind, wp_assertb; [by apply Z.leb_le|]. apply wp_bind. eapply wp_get_file; [done|].
  eapply wp_store; [done|]. destruct (inv_set_pos s I X f fl i n Hi Hu) as (H1 & H2 & H3). by apply HQ.
Qed.

(** As [frame_at], but for the contents of the file in sector [k], now [cs]. *)
Record file_changed (I : gmap Z inode_disk) (h k : Z) (cs : list Z) (s t : fs) : Prop := {
  fc_cap : capacity t = capacity s;
  fc_file : free_map_file t = free_map_file s;
  fc_other : forall k' d, I !! k' = Some d -> k' <> k -> contents (disk t) d = contents (disk s) d;
  fc_data : forall d, I !! k = Some d -> contents (disk t) d = cs;
  fc_view : forall q, q <> h -> view t q = view s q;
  fc_removed : forall k, removed_sector t k -> removed_sector s k;
  fc_bits : forall j, 0 <= j -> bit (free_map t) j = true -> bit (free_map s) j = true;
  fc_steady : steady I s t }.

Lemma wp_file_write s I X f fl i buf size (Q : Z -> fs -> Prop) : fs_inv s I X -> user_file s f fl i ->
  0 <= pos fl < 2 ^ 31 -> 0 <= size <= Z.of_nat (length buf) ->
  (forall m t, (if deny_write_cnt i =? 0 then write_count s (data i) size (pos fl) m else m = 0) -> fs_inv t I X ->
     file_changed I f (sector i) (splice (contents (disk s) (data i)) (Z.to_nat (pos fl)) (take (Z.to_nat m) buf)) s t ->
     view t f = Some (File (set_pos (pos fl + m) fl), sector i) -> Q m t) ->
  wp (file_write f buf size) Q s.
Proof.
  intros Hi Hu Hpos Hsize HQ. pose proof Hu as [H0 Hf Hp Hs]. unfold file_write. apply wp_bind. eapply wp_get_file; [done|].
  apply wp_bind. eapply wp_inode_write_inv; [done..|]. intros m t Hm Ht Hr.
  assert (Eh : heap t = heap s) by apply Hr.
  assert (Hut : user_file t f fl i) by (split; by rewrite ?Eh).
  apply wp_bind. eapply wp_store; [by rewrite Eh|]. apply wp_ret.
  destruct (inv_set_pos t I X f fl i (pos fl + m) Ht Hut) as (H1 & [E1 E2 E3 E4 E5 E6 E7] & H3).
  assert (Hst : steady I s t) by (eapply rewritten_steady; [done|unfold FREE_MAP_SECTOR; lia]).
  apply HQ; [done|done| |done]. destruct Hr as [R1 R2 R3 R4 R5 R6]. split; try congruence.
  - intros k' d Hk Hne. by eapply R3.
  - intros d Hd. by apply R4.
  - intros q Hq. rewrite E4 by done. by apply view_heap.
  - intros k Hk. apply E5 in Hk. by eapply removed_heap.
  - intros j Hj. cbn [free_map set_heap]. by rewrite R6.
  - by eapply steady_trans.
Qed.

(** ** Creating an inode *)

(** A size that is too large for the conversion asks for more sectors than any
    disk has. *)
Lemma bytes_to_sectors_large size : 2 ^ 31 - 512 < size < 2 ^ 31 -> 2 ^ 28 < bytes_to_sectors size.
Proof.
  intros H1. unfold bytes_to_sectors, DISK_SECTOR_SIZE.
  assert (E : i32 (size + 512 - 1) = size + 511 - 2 ^ 32).
  { unfold swrap. replace (size + 512 - 1 + 2 ^ (32 - 1)) with (size + 511 - 2 ^ 31 + 1 * 2 ^ 32) by lia.
    rewrite Z.mod_add, Z.mod_small by lia. lia. }
  rewrite E. assert (Hq : - 4194304 <= Z.quot (size + 511 - 2 ^ 32) 512 < 0).
  { rewrite Z.quot_div by lia. rewrite (Z.sgn_neg (size + 511 - 2 ^ 32)), (Z.abs_neq (size + 511 - 2 ^ 32)) by lia.
    cbn [Z.sgn Z.abs]. Z.div_mod_to_equations. lia. }
  unfold uwrap. rewrite <- (Z.mod_add _ 1), Z.mod_small by lia. lia.
Qed.

Lemma bytes_to_sectors_nonneg size : 0 <= bytes_to_sectors size.
Proof. apply (uwrap_range 32). lia. Qed.

(** [D] with [bs] in sector [sec] and zeros in [n] sectors from [first] on. *)
Definition filled (D : gmap Z (list Z)) (sec : Z) (bs : list Z) (first n : Z) (D' : gmap Z (list Z)) : Prop :=
  forall k, D' !! k = if decide (k = sec) then Some bs else if decide (first <= k < first + n) then Some zeros else D !! k.

Lemma wp_fill s D sec bs first n (Q : unit -> fs -> Prop) : 0 <= first -> 0 <= n -> first + n <= capacity s <= 2 ^ 28 ->
  ~ (first <= sec < first + n) -> filled D sec bs first 0 (disk s) ->
  (forall D', filled D sec bs first n D' -> Q tt (set_disk D' s)) ->
  wp (if 0 <? n then for_from (Z.to_nat n) 0 (fun i => disk_write (u32 (first + i)) zeros) else ret tt) Q s.
Proof.
  intros H0 Hn Hc Hsec Hf HQ. assert (Hid : set_disk (disk s) s = s) by (by destruct s).
  destruct (Z.ltb_spec 0 n) as [Hp|Hp].
  2:{ apply wp_ret. rewrite <- Hid. apply HQ. by replace n with 0 by lia. }
  eapply wp_mono; [apply (wp_for_from (fun i t => exists D', t = set_disk D' s /\ filled D sec bs first i D'))|].
  - exists (disk s). done.
  - intros j t Hj (D' & -> & HD). apply wp_disk_write; [rewrite uwrap_small by (unfold in_u; lia); cbn; lia|].
    eexists. split; [reflexivity|]. cbn [disk set_disk]. rewrite uwrap_small by (unfold in_u; lia).
    intros k. destruct (decide (k = first + j)) as [->|Hne].
    + rewrite lookup_insert_eq, decide_False, decide_True by lia. done.
    + rewrite lookup_insert_ne, HD by done. repeat case_decide; try done; lia.
  - intros [] t (D' & -> & HD). apply HQ. by replace n with (0 + Z.of_nat (Z.to_nat n)) by lia.
Qed.

(** The invariant with one more inode. *)
Lemma disk_inv_create s I sec d D : disk_inv s I -> 0 <= sec < capacity s -> extent_ok (capacity s) d ->
  magic d = INODE_MAGIC -> (forall j, owns sec d j -> bit (free_map s) j = true) -> ~ data_sector d sec ->
  (forall k d' j, I !! k = Some d' -> owns k d' j -> ~ owns sec d j) ->
  filled (disk s) sec (encode_inode d) (start d) (sectors_of (file_size d)) D ->
  disk_inv (set_disk D s) (<[sec := d]> I).
Proof.
  intros [Hc Hs Hm Hb Hi Hk Ha Hself Hmg] Hsec He Hmd Hmark Hds Hout HD.
  assert (Hin : forall k d', <[sec := d]> I !! k = Some d' -> (k = sec /\ d' = d) \/ (k <> sec /\ I !! k = Some d')).
  { intros k d'. destruct (decide (k = sec)) as [->|]; [rewrite lookup_insert_eq; intros [= <-]; auto|].
    rewrite lookup_insert_ne by done. auto. }
  split; try done.
  - intros k Hk'. cbn [disk set_disk]. rewrite HD. repeat case_decide; [eexists; done|eexists; done|by apply Hs].
  - intros k d' [[-> ->]|[Hne Hk']]%Hin; (split; [|split]); cbn [disk set_disk capacity]; try done.
    + rewrite HD. by rewrite decide_True.
    + by apply (Hi k d').
    + by apply (Hi k d').
    + rewrite HD, decide_False by done. rewrite decide_False; [by apply (Hi k d')|].
      intros Hr. apply (Hout k d' k Hk'); [by left|by right].
  - intros k d' j [[-> ->]|[Hne Hk']]%Hin Ho; [by apply Hmark|by eapply Hk].
  - intros k k' d1 d2 j [[-> ->]|[Hne H1]]%Hin [[-> ->]|[Hne' H2]]%Hin Ho Ho'; try done.
    + by destruct (Hout k' d2 j H2 Ho').
    + by destruct (Hout k d1 j H1 Ho).
    + by eapply Ha.
  - intros k d' [[-> ->]|[Hne Hk']]%Hin; eauto.
  - intros k d' [[-> ->]|[Hne Hk']]%Hin; eauto.
Qed.

Lemma contents_zeros D d : 0 <= file_size d -> (forall k, data_sector d k -> D !! k = Some zeros) ->
  contents D d = replicate (Z.to_nat (file_size d)) 0.
Proof.
  intros Hs Hz. apply list_eq. intros j. destruct (decide (j < Z.to_nat (file_size d))%nat) as [Hj|Hj].
  - rewrite lookup_contents, lookup_replicate_2 by done. f_equal. unfold byte_at.
    rewrite Hz by (unfold data_sector, sectors_of; Z.div_mod_to_equations; lia). cbn [default id].
    unfold zeros. pose proof (Z.mod_pos_bound (Z.of_nat j) 512). rewrite lookup_replicate_2 by lia. done.
  - rewrite !(proj2 (lookup_ge_None _ _)); [done|rewrite length_replicate; lia|rewrite length_contents; lia].
Qed.

(** [frame] for code that allocates sectors. *)
Record kept (I : gmap Z inode_disk) (s t : fs) : Prop := {
  kp_cap : capacity t = capacity s;
  kp_file : free_map_file t = free_map_file s;
  kp_data : forall k d, I !! k = Some d -> k <> FREE_MAP_SECTOR -> contents (disk t) d = contents (disk s) d;
  kp_view : forall h, view t h = view s h;
  kp_removed : forall k, removed_sector t k -> removed_sector s k;
  kp_steady : steady I s t }.

Lemma frame_kept I s t : frame I s t -> kept I s t.
Proof. intros []. by split. Qed.

Lemma fs_kept_trans I I' s t u : kept I s t -> kept I' t u -> I' ⊆ I -> kept I' s u.
Proof.
  intros [? ? Hd ? ? ?] [? ? Hd' ? ? ?] Hs. split; try congruence; auto.
  - intros k d Hk Hne. rewrite (Hd' k d Hk Hne). apply (Hd k d); [by eapply lookup_weaken|done].
  - by eapply steady_trans.
Qed.

Lemma kept_remapped s I t d0 f : disk_inv s I -> I !! FREE_MAP_SECTOR = Some d0 -> remapped d0 s t f ->
  (recorded d0 s -> recorded d0 t \/ no_memory) -> kept I s t.
Proof.
  intros Hd H0 Hr Hrec. destruct (remapped_same Hr) as (E1 & E2 & E3 & E4). split; try done.
  - intros k d Hk Hne. by eapply remapped_contents.
  - by apply view_heap.
  - intros k. by apply removed_heap.
  - split; [intros k (q & j & Hq & Hj) _; exists q, j; by rewrite E1|]. intros d0' H0'.
    by assert (d0' = d0) as -> by congruence.
Qed.

Lemma fs_inv_remapped s I X t d0 f : fs_inv s I X -> I !! FREE_MAP_SECTOR = Some d0 -> remapped d0 s t f ->
  (forall k d j, I !! k = Some d -> owns k d j -> f j = true) -> fs_inv t I X.
Proof.
  intros [Hd Hh (d & Hd0 & Hm) Hr] H0 Hrm Hf. assert (d = d0) as -> by congruence. split.
  - by apply (remapped_disk Hd H0 Hrm).
  - by apply (remapped_heap Hrm).
  - exists d0. split; [done|]. by apply (remapped_ready Hrm).
  - intros k Hk. apply Hr. eapply removed_heap; [|done]. apply (remapped_same Hrm).
Qed.

(** No sector has been released. *)
Definition no_release (s t : fs) : Prop :=
  forall j, 0 <= j -> bit (free_map s) j = true -> bit (free_map t) j = true.

(** There is no room. *)
Definition no_room (s : fs) (cnt : Z) : Prop :=
  forall k, 0 <= k -> k + cnt <= capacity s -> ~ group (free_map s) k cnt false.

Lemma wp_allocate s I X cnt (Q : option Z -> fs -> Prop) : 0 <= cnt -> fs_inv s I X ->
  (forall first t, 0 <= first -> first + cnt <= capacity s -> group (free_map s) first cnt false ->
     (forall k, 0 <= k < first -> ~ group (free_map s) k cnt false) -> fs_inv t I X ->
     heap t = heap s -> kept I s t -> wf (free_map t) -> (forall d0, I !! FREE_MAP_SECTOR = Some d0 -> saved d0 t) ->
     (forall j, 0 <= j -> bit (free_map t) j = marked (free_map s) first cnt j) -> Q (Some first) t) ->
  (forall t, no_memory \/ no_room s cnt -> fs_inv t I X -> heap t = heap s -> frame I s t -> no_release s t -> Q None t) ->
  wp (free_map_allocate cnt) Q s.
Proof.
  intros Hc Hi H1 H2. destruct (fi_map _ _ _ Hi) as (d0 & H0 & Hm). pose proof (fi_disk _ _ _ Hi) as Hd.
  eapply (wp_free_map_allocate I d0); [done..| |].
  - intros first t Hf Hle Hg Hmin Hr Hsv. pose proof Hr as [_ _ (Hw & _ & _ & Hb) _].
    assert (Ht : fs_inv t I X).
    { eapply fs_inv_remapped; [done..|]. intros k d j Hk Ho. unfold marked. destruct (in_range _ _ _); [done|].
      by eapply (inv_mark _ _ Hd). }
    eapply H1; try done; [apply (remapped_same Hr)| |by intros d0' E; replace d0' with d0 by congruence].
    eapply kept_remapped; [done..|]. intros _. left. apply recorded_saved; [done|apply Ht|done].
  - intros t Hr Hwhy. eapply H2; [| |apply (remapped_same Hr)|eapply frame_remapped; [done..|]|].
    + destruct Hwhy as [Hx|(_ & _ & Hn)]; [left; by eapply exhausted_no_memory|by right].
    + eapply fs_inv_remapped; [done..|]. intros k d j Hk Ho. by eapply (inv_mark _ _ Hd).
    + destruct Hwhy as [Hx|(E1 & E2 & _)]; [right; by eapply exhausted_no_memory|left].
      eapply recorded_same; [done|done|apply (remapped_same Hr)|done].
    + intros j Hj. destruct Hr as [_ _ (_ & _ & _ & Hb) _]. by rewrite Hb.
Qed.

(** What inode_create() leaves when it succeeds. *)
Record created (s t : fs) (I : gmap Z inode_disk) (sec len : Z) (d : inode_disk) : Prop := {
  cr_size : file_size d = len;
  cr_kept : kept I s t;
  cr_heap : heap t = heap s;
  cr_bits : no_release s t;
  cr_saved : forall d0, I !! FREE_MAP_SECTOR = Some d0 -> saved d0 t;
  cr_data : contents (disk t) d = replicate (Z.to_nat len) 0 }.

Lemma wp_inode_create s I X sec len (Q : bool -> fs -> Prop) : fs_inv s I X -> 0 <= len < 2 ^ 31 ->
  0 <= sec < capacity s -> bit (free_map s) sec = true -> (forall k d, I !! k = Some d -> ~ owns k d sec) ->
  (forall d t, fs_inv t (<[sec := d]> I) X -> created s t I sec len d -> Q true t) ->
  (forall t, no_memory \/ no_room s (bytes_to_sectors len) -> fs_inv t I X -> heap t = heap s -> frame I s t ->
     no_release s t -> Q false t) ->
  wp (inode_create sec len) Q s.
Proof.
  intros Hi Hlen Hsec Hbit Hfree H1 H2. unfold inode_create. apply wp_bind, wp_assertb; [apply Z.leb_le; lia|].
  apply wp_bind, wp_malloc.
  2:{ intros Hx. rewrite Z.eqb_refl. apply wp_ret, H2; [left; by eapply exhausted_no_memory|by apply fs_inv_requests|done|apply frame_requests|by intros ? ?]. }
  intros p _ Hp0 Hpn. rewrite (proj2 (Z.eqb_neq p NULL)) by (unfold NULL; lia).
  set (s1 := set_heap _ _). assert (Hso : same_objects s (<[p := Block]> (heap s))) by (apply so_new_object; auto).
  pose proof (frame_heap s I I X _ (open_inodes s) (S (requests s)) Hso (fi_heap _ _ _ Hi)) as Hf1.
  assert (Hi1 : fs_inv s1 I X).
  { apply (inv_heap s I X X _ (open_inodes s) (S (requests s)) Hso Hi). apply heap_inv_alloc; [done|done|apply Hi]. }
  change (with_heap _ _ _ _) with s1 in Hf1.
  assert (Hblk : forall t J, heap t = heap s1 -> fs_inv t J X ->
    let u := set_heap (delete p (heap t)) t in heap t !! p = Some Block /\ fs_inv u J X /\ frame J t u /\ heap u = heap s).
  { intros t J Eh Ht u. assert (Ehu : heap u = heap s) by (cbn; rewrite Eh; by apply delete_insert_id). assert (Hb : heap t !! p = Some Block) by (rewrite Eh; apply lookup_insert_eq).
    pose proof (so_free t p Hb) as Hsf. split; [done|]. split.
    - exact (inv_heap t J X X _ (open_inodes t) (requests t) Hsf Ht (heap_inv_free t J X p Hb (fi_heap _ _ _ Ht))).
    - split; [|done]. exact (frame_heap t J J X _ (open_inodes t) (requests t) Hsf (fi_heap _ _ _ Ht)). }
  apply wp_bind. eapply wp_allocate; [apply bytes_to_sectors_nonneg|exact Hi1| |].
  2:{ intros t Hwhy Ht Eh Hft Hnr. apply wp_bind, wp_ret, wp_bind. destruct (Hblk t I Eh Ht) as (Hb & Hu & Hfu & Ehu).
      eapply wp_free; [done|exact Hb|]. apply wp_ret, H2; [exact Hwhy|exact Hu|exact Ehu| |exact Hnr].
      eapply fs_frame_trans; [|exact Hfu|done]. eapply fs_frame_trans; [exact Hf1|exact Hft|done]. }
  intros first t Hf0 Hfle Hg _ Ht Eh Hkt Hwt Hsv Hbt. change (capacity s1) with (capacity s) in *. change (free_map s1) with (free_map s) in *.
  pose proof (inv_cap _ _ (fi_disk _ _ _ Hi)) as Hcap.
  assert (Hlen' : len <= 2 ^ 31 - 512) by (destruct (Z.le_gt_cases len (2 ^ 31 - 512)); [done|]; pose proof (bytes_to_sectors_large len); lia).
  rewrite bytes_to_sectors_ok in * by lia. set (n := sectors_of len) in *.
  set (d := mk_inode_disk first len INODE_MAGIC).
  assert (Hn : 0 <= n) by (apply Z.div_pos; lia).
  assert (Hsr : ~ (first <= sec < first + n)) by (intros Hr; rewrite Hg in Hbit by done; done).
  assert (Ecap : capacity t = capacity s) by apply (kp_cap _ _ _ Hkt).
  apply wp_bind, wp_bind, wp_disk_write; [rewrite Ecap; lia|]. apply wp_bind.
  eapply (wp_fill _ (disk t) sec (encode_inode d)); [done|done|cbn; rewrite Ecap; lia|done| |].
  { intros k. cbn [disk set_disk]. destruct (decide (k = sec)) as [->|]; [by rewrite lookup_insert_eq|].
    rewrite lookup_insert_ne, decide_False by lia. done. }
  intros D HD. apply wp_ret, wp_bind. change (set_disk D (set_disk _ t)) with (set_disk D t).
  assert (Hout : forall k d' j, I !! k = Some d' -> owns k d' j -> ~ owns sec d j).
  { intros k d' j Hk Ho [->|Hj]; [by apply (Hfree k d')|]. pose proof (inv_mark _ _ (fi_disk _ _ _ Hi) _ _ _ Hk Ho) as E.
    rewrite Hg in E by exact Hj. done. }
  assert (Hi2 : fs_inv (set_disk D t) (<[sec := d]> I) X).
  { assert (Hnew : forall k d', I !! k = Some d' -> <[sec := d]> I !! k = Some d').
    { intros k d' Hk. rewrite lookup_insert_ne; [done|]. intros ->. apply (Hfree _ _ Hk). by left. }
    split.
    - apply (disk_inv_create t I sec d D); [apply Ht|lia| |done| |done|done|exact HD].
      { split; cbn [start file_size d]; [done|lia|rewrite Ecap; exact Hfle]. }
      intros j Hj. assert (0 <= j) by (destruct Hj as [->|[? _]]; cbn in *; lia). rewrite Hbt by done. unfold marked.
      destruct (in_range first n j) eqn:E; [done|]. destruct Hj as [->|[Hj1 Hj2]]; [done|].
      unfold in_range in E. cbn in Hj1, Hj2. fold n in Hj2. lia.
    - eapply heap_inv_sub; [|apply heap_inv_disk, Ht]. intros q j Hq. eapply Hnew, (inv_data _ _ _ (fi_heap _ _ _ Ht)). exact Hq.
    - destruct (fi_map _ _ _ Ht) as (d0 & H0 & Hm). exists d0. split; [by apply Hnew|exact Hm].
    - apply Ht. }
  destruct (Hblk (set_disk D t) _ Eh Hi2) as (Hb & Hu & Hfu & Ehu).
  assert (Hd0 : forall d0, I !! FREE_MAP_SECTOR = Some d0 -> contents D d0 = contents (disk t) d0).
  { intros d0 H0. apply contents_agree. intros j Hj.
    rewrite HD, !decide_False; [done| |]; intros E; apply (Hout FREE_MAP_SECTOR d0 j H0 (or_intror Hj)); [by right|by left]. }
  eapply wp_free; [done|exact Hb|]. apply wp_ret, (H1 d); [exact Hu|].
  split; [done| |exact Ehu| | |].
  - eapply (fs_kept_trans I I _ s1); [by apply frame_kept| |done]. eapply (fs_kept_trans I I _ t); [exact Hkt| |done].
    split; try done.
    + intros k d' Hk Hne. apply contents_agree. intros j Hj. cbn [disk set_heap set_disk]. rewrite HD.
      rewrite !decide_False; [done| |]; intros E; apply (Hout k d' j Hk (or_intror Hj)); [by right|by left].
    + intros h. apply (fr_view _ _ _ Hfu).
    + intros k Hk. apply (fr_removed _ _ _ Hfu) in Hk. exact Hk.
    + split.
      * intros k Hk [e He]. apply (st_still _ _ _ (fr_steady _ _ _ Hfu) k Hk). rewrite lookup_insert_is_Some'. by right; eauto.
      * intros d0 H0 Hr. left. eapply (recorded_contents d0 t); [by apply Hd0|done|done|done].
  - intros j Hj E. change (bit (free_map t) j = true). rewrite Hbt by done. unfold marked. by destruct (in_range _ _ j).
  - intros d0 H0. unfold saved. rewrite <- (Hsv d0 H0). by apply Hd0.
  - apply (contents_zeros D d); [cbn; lia|]. intros k Hk. rewrite HD, decide_False, decide_True; [done|exact Hk|].
    intros ->. by apply Hsr.
Qed.
End File.
