(* ===== verification/FsDir.v ===== *)
(** * Directories

    A directory as a sequence of entries, the name it gives to a sector, and
    what the functions of directory.c do to it when memory does not run out. *)

From Stdlib Require Import ZArith Lia.
From stdpp Require Import base numbers gmap list.
From S2P Require Import Prelude Bitmap FsBase Inode Directory FsData FsInv FsWp FsHandle FsFile.

Open Scope Z_scope.

(** ** Entries *)

(** Entry [j] of the directory with the contents [C]. *)
Definition entry (C : list Z) (j : nat) : list Z := take 20 (drop (20 * j) C).

(** The entry is in use and has the name [nm]. *)
Definition named (nm e : list Z) : bool := in_use e && same_name nm e.

(** The first entry of [n] that satisfies [f]. *)
Fixpoint find_entry (f : list Z -> bool) (C : list Z) (n : nat) : option nat :=
  match n with
  | O => None
  | S n => match find_entry f C n with
           | Some j => Some j
           | None => if f (entry C n) then Some n else None
           end
  end.

Lemma find_entry_Some f C n j : find_entry f C n = Some j ->
  (j < n)%nat /\ f (entry C j) = true /\ forall k, (k < j)%nat -> f (entry C k) = false.
Proof.
  revert j. induction n as [|n IH]; intros j; cbn [find_entry]; [done|].
  destruct (find_entry f C n) as [j'|] eqn:E.
  - intros [= <-]. destruct (IH j' eq_refl) as (? & ? & ?). split_and!; [lia|done|done].
  - destruct (f (entry C n)) eqn:Ef; [|done]. intros [= <-]. split_and!; [lia|done|].
    clear - E. induction n as [|n IH]; [lia|]. cbn [find_entry] in E.
    destruct (find_entry f C n); [done|]. destruct (f (entry C n)) eqn:Ef; [done|].
    intros k Hk. destruct (decide (k = n)) as [->|]; [done|]. apply IH; [done|lia].
Qed.

Lemma find_entry_None f C n : find_entry f C n = None -> forall k, (k < n)%nat -> f (entry C k) = false.
Proof.
  induction n as [|n IH]; [lia|]. cbn [find_entry]. destruct (find_entry f C n); [done|].
  destruct (f (entry C n)) eqn:Ef; [done|]. intros _ k Hk. destruct (decide (k = n)) as [->|]; [done|]. apply IH; [done|lia].
Qed.

Lemma find_entry_ext f C g C' n : (forall k, (k < n)%nat -> f (entry C k) = g (entry C' k)) -> find_entry f C n = find_entry g C' n.
Proof.
  induction n as [|n IH]; intros H; [done|]. cbn [find_entry]. rewrite IH by (intros; apply H; lia).
  rewrite (H n) by lia. done.
Qed.

Lemma find_entry_unique f C n j : (j < n)%nat -> f (entry C j) = true ->
  (forall k, (k < n)%nat -> f (entry C k) = true -> k = j) -> find_entry f C n = Some j.
Proof.
  intros Hj Hf Hu. destruct (find_entry f C n) as [k|] eqn:E.
  - apply find_entry_Some in E as (Hk & Hfk & _). f_equal. auto.
  - pose proof (find_entry_None _ _ _ E j Hj). congruence.
Qed.

Lemma length_entry C n j : length C = (20 * n)%nat -> (j < n)%nat -> length (entry C j) = 20%nat.
Proof. intros HC Hj. unfold entry. rewrite length_take, length_drop. lia. Qed.

Lemma entry_splice C n j e k : length C = (20 * n)%nat -> (j < n)%nat -> (k < n)%nat -> length e = 20%nat ->
  entry (splice C (20 * j) e) k = if decide (k = j) then e else entry C k.
Proof.
  intros HC Hj Hk He. case_decide as E.
  - subst k. unfold entry. rewrite <- He. apply splice_part. lia.
  - apply list_eq. intros x. unfold entry. rewrite !lookup_part. case_decide; [|done].
    rewrite splice_lookup by lia. rewrite decide_False by lia. done.
Qed.

(** ** Names *)

(** The characters of a string are not null. *)
Definition zero_free (nm : list Z) : Prop := Forall (fun c => c <> 0) nm.

Lemma prefix_terminated nm nm' l : zero_free nm -> zero_free nm' ->
  take (length nm + 1) l = nm ++ [0] -> take (length nm' + 1) l = nm' ++ [0] -> nm = nm'.
Proof.
  revert nm' l. induction nm as [|c nm IH]; intros nm' l Hn Hn' E E'; destruct l as [|x l]; try done.
  - destruct nm' as [|c' nm']; [done|]. cbn in E, E'. injection E as ->. injection E' as <- _.
    apply Forall_cons in Hn' as [? _]. done.
  - destruct nm' as [|c' nm']; cbn in E, E'.
    + injection E as <- _. injection E' as ->. apply Forall_cons in Hn as [? _]. done.
    + injection E as -> E. injection E' as -> E'. f_equal. apply Forall_cons in Hn as [_ ?], Hn' as [_ ?]. by eapply IH.
Qed.

Lemma same_name_unique nm nm' e : zero_free nm -> zero_free nm' -> same_name nm e = true -> same_name nm' e = true -> nm = nm'.
Proof. intros Hn Hn' E%bool_decide_eq_true E'%bool_decide_eq_true. by eapply prefix_terminated. Qed.

Lemma entry_name_fill sec nm e : length e = 20%nat -> (length nm <= 14)%nat ->
  entry_name (fill_entry sec nm e) = nm ++ [0] ++ drop (length nm + 1) (entry_name e).
Proof.
  intros He Hn. unfold fill_entry, entry_name at 1. rewrite drop_app_length' by done.
  assert (Hl : length (entry_name e) = 15%nat) by (unfold entry_name; rewrite length_take, length_drop; lia).
  rewrite (take_ge nm) by lia. rewrite take_app_length'.
  - unfold splice. cbn [take app Nat.add]. rewrite <- app_assoc, length_app. done.
  - rewrite length_splice; rewrite ?length_app; cbn [length]; lia.
Qed.

Lemma length_fill sec nm e : length e = 20%nat -> (length nm <= 14)%nat -> length (fill_entry sec nm e) = 20%nat.
Proof.
  intros He Hn. unfold fill_entry. rewrite !length_app, le32_length. cbn [length].
  assert (Hl : length (entry_name e) = 15%nat) by (unfold entry_name; rewrite length_take, length_drop; lia).
  rewrite length_splice; rewrite ?length_app, ?length_take; cbn [length]; lia.
Qed.

Lemma fill_in_use sec nm e : length e = 20%nat -> (length nm <= 14)%nat -> in_use (fill_entry sec nm e) = true.
Proof.
  intros He Hn. unfold in_use, fill_entry.
  assert (Hl : length (entry_name e) = 15%nat) by (unfold entry_name; rewrite length_take, length_drop; lia).
  assert (Hs : length (splice (entry_name e) 0 (take 14 nm ++ [0])) = 15%nat).
  { rewrite length_splice; rewrite ?length_app, ?length_take; cbn [length]; lia. }
  rewrite lookup_app_r, lookup_app_r by (rewrite ?le32_length; lia). rewrite le32_length, Hs. done.
Qed.

Lemma fill_named sec nm nm' e : length e = 20%nat -> (length nm <= 14)%nat -> zero_free nm -> zero_free nm' ->
  named nm' (fill_entry sec nm e) = bool_decide (nm' = nm).
Proof.
  intros He Hn Hz Hz'. unfold named. rewrite fill_in_use by done. cbn [andb].
  assert (Hsame : same_name nm (fill_entry sec nm e) = true).
  { apply bool_decide_eq_true. rewrite entry_name_fill by done. rewrite app_assoc.
    rewrite take_app_length'; [done|]. rewrite length_app. cbn. lia. }
  destruct (same_name nm' (fill_entry sec nm e)) eqn:E; symmetry.
  - apply bool_decide_eq_true. by eapply same_name_unique.
  - apply bool_decide_eq_false. intros ->. congruence.
Qed.

Lemma fill_sector sec nm e : in_u 32 sec -> entry_sector (fill_entry sec nm e) = sec.
Proof. intros Hs. unfold entry_sector, fill_entry. rewrite word_le32. by apply uwrap_small. Qed.

(** ** Scanning *)

Definition later (s t : fs) : Prop := exists n, t = set_requests n s.

Lemma later_refl s : later s s.
Proof. exists (requests s). by destruct s. Qed.

Section Dir.
Context `{!Memory} (Plenty : forall n live, is_Some (place n live)).

Lemma not_exhausted s : ~ exhausted s.
Proof using Plenty. intros Hx. destruct (Plenty (requests s) (dom (heap s))) as [p Hp]. unfold exhausted in Hx. congruence. Qed.

Lemma later_aged s t u : later s t -> aged t u -> later s u.
Proof. intros [n ->] [-> | ->]; [by exists n|eexists; reflexivity]. Qed.

Lemma later_inv s t I X : later s t -> fs_inv s I X -> fs_inv t I X.
Proof. intros [n ->]. apply fs_inv_requests. Qed.

Lemma later_frame s t I : later s t -> frame I s t.
Proof. intros [n ->]. apply frame_requests. Qed.

(** Reading entry [j] of [n]. *)
Lemma wp_read_entry s I X p i n j e (Q : bool * list Z -> fs -> Prop) : fs_inv s I X -> heap s !! p = Some (Inode i) ->
  file_size (data i) = Z.of_nat (20 * n) -> (j <= n)%nat -> length e = 20%nat ->
  (forall t, aged s t -> (j < n)%nat -> Q (true, entry (contents (disk s) (data i)) j) t) ->
  (forall t, aged s t -> j = n -> Q (false, e) t) ->
  wp (read_entry p (Z.of_nat (20 * j)) e) Q s.
Proof using Plenty.
  intros Hi Hp Hn Hj He H1 H2. unfold read_entry.
  pose proof (inv_data _ _ _ (fi_heap _ _ _ Hi) _ _ Hp) as HI.
  destruct (inv_inode _ _ (fi_disk _ _ _ Hi) _ _ HI) as (_ & [_ Hsz _] & _).
  pose proof (length_contents (disk s) (data i)) as HC. rewrite Hn in HC. rewrite Nat2Z.id in HC.
  apply wp_bind. eapply wp_inode_read_inv; [done..|lia|unfold sizeof_entry; lia|].
  intros r t Ha Ht Hfr (k & -> & [->|[Hx _]]); [|by destruct (not_exhausted s)]. apply wp_ret.
  change (Z.to_nat sizeof_entry) with 20%nat. rewrite Nat2Z.id.
  destruct (decide (j = n)) as [->|Hne].
  - rewrite drop_ge by lia. cbn [take length]. rewrite splice_nil. by apply H2.
  - fold (entry (contents (disk s) (data i)) j). pose proof (length_entry _ n j HC ltac:(lia)) as El. rewrite El, splice_all by lia.
    apply H1; [done|lia].
Qed.

Lemma wp_scan_entries s I X p i stop n j e (Q : Z * list Z * bool -> fs -> Prop) : fs_inv s I X ->
  heap s !! p = Some (Inode i) -> file_size (data i) = Z.of_nat (20 * n) -> (j <= n)%nat -> length e = 20%nat ->
  let C := contents (disk s) (data i) in
  (forall k t, later s t -> (j <= k < n)%nat -> stop (entry C k) = true ->
     (forall k', (j <= k' < k)%nat -> stop (entry C k') = false) -> Q (Z.of_nat (20 * k), entry C k, true) t) ->
  (forall e' t, later s t -> length e' = 20%nat -> (forall k, (j <= k < n)%nat -> stop (entry C k) = false) ->
     Q (Z.of_nat (20 * n), e', false) t) ->
  wp (scan_entries p stop (Z.of_nat (20 * j)) e) Q s.
Proof using Plenty.
  intros Hi Hp Hn Hj He C H1 H2. unfold scan_entries, inode_length. apply wp_bind, wp_bind. eapply wp_get_inode; [done|].
  apply wp_ret. rewrite Hn, Nat2Z.id.
  pose proof (length_contents (disk s) (data i)) as HC. rewrite Hn in HC. rewrite Nat2Z.id in HC.
  unshelve eapply (wp_iterate (fun m st t => later s t /\ exists k, (j <= k <= n)%nat /\ (m = n - k)%nat /\
    st.1 = Z.of_nat (20 * k) /\ length st.2 = 20%nat /\ forall k', (j <= k' < k)%nat -> stop (entry C k') = false)
    _ _ _ _ (n - j)); [| |lia].
  - intros m [ofs e1] t (Hl & k & Hk & -> & -> & He1 & Hno). cbn [fst snd] in *.
    assert (Hht : heap t = heap s /\ disk t = disk s) by (destruct Hl as [? ->]; done). destruct Hht as [Eh Ed].
    apply wp_bind. eapply (wp_read_entry t I X p i n k); [by eapply later_inv|by rewrite Eh|done|lia|done| |].
    + intros u Hu Hlt. apply wp_ret. rewrite Ed. fold C. cbn [fst snd negb]. destruct (stop (entry C k)) eqn:Es.
      * apply H1; [by eapply later_aged|lia|done|done].
      * exists (n - S k)%nat. split; [lia|]. split; [by eapply later_aged|]. exists (S k). split_and!; try lia.
        -- unfold sizeof_entry. cbn [fst]. lia.
        -- by eapply length_entry.
        -- intros k' Hk'. destruct (decide (k' = k)) as [->|]; [done|]. apply Hno. lia.
    + intros u Hu ->. apply wp_ret. cbn [fst snd negb]. apply H2; [by eapply later_aged|done|]. intros k' Hk'. apply Hno. lia.
  - split; [apply later_refl|]. exists j. split_and!; try lia; try done.
Qed.

(** [p] is an open inode whose file is a directory of [n] entries. *)
Definition open_dir (s : fs) (h : Z) (d : dir) (i : inode) (n : nat) : Prop :=
  0 < h /\ heap s !! h = Some (Dir d) /\ heap s !! dir_inode d = Some (Inode i) /\ file_size (data i) = Z.of_nat (20 * n).

Lemma wp_lookup s I X h d i n nm e (Q : option (list Z * Z) -> fs -> Prop) : fs_inv s I X -> open_dir s h d i n ->
  length e = 20%nat ->
  (forall t, later s t -> let C := contents (disk s) (data i) in
     Q ((fun j => (entry C j, Z.of_nat (20 * j))) <$> find_entry (named nm) C n) t) ->
  wp (lookup h nm e) Q s.
Proof using Plenty.
  intros Hi (H0 & Hh & Hp & Hn) He HQ. unfold lookup.
  apply wp_bind, wp_assertb; [apply negb_true_iff, Z.eqb_neq; unfold NULL; lia|].
  apply wp_bind. eapply wp_get_dir; [done|]. apply wp_bind.
  eapply (wp_scan_entries s I X _ i _ n 0); [done..|lia|done| |].
  - intros k t Hl Hk Hs Hno. apply wp_ret. specialize (HQ t Hl). cbn zeta in HQ. cbn [fst snd].
    set (C := contents (disk s) (data i)) in *. fold (named nm) in *.
    destruct (find_entry (named nm) C n) as [k'|] eqn:E.
    + apply find_entry_Some in E as (Hk' & Hf & Hlt). assert (k' = k) as ->; [|done].
      destruct (Nat.lt_trichotomy k' k) as [Hc|[->|Hc]]; [|done|]; [specialize (Hno k' ltac:(lia))|specialize (Hlt k Hc)];
        unfold named in *; congruence.
    + pose proof (find_entry_None _ _ _ E k ltac:(lia)). unfold named in *. congruence.
  - intros e' t Hl _ Hno. apply wp_ret. specialize (HQ t Hl). cbn zeta in HQ. cbn [fst snd].
    set (C := contents (disk s) (data i)) in *.
    destruct (find_entry (named nm) C n) as [k'|] eqn:E; [|done].
    apply find_entry_Some in E as (Hk' & Hf & _). specialize (Hno k' ltac:(lia)). unfold named in *. congruence.
Qed.

(** ** The root directory *)

Record dir_inv (s : fs) (I : gmap Z inode_disk) (dr : inode_disk) : Prop := {
  di_root : I !! ROOT_DIR_SECTOR = Some dr;
  di_size : file_size dr = Z.of_nat (20 * 16);
  di_uniq : forall j j' nm, (j < 16)%nat -> (j' < 16)%nat -> zero_free nm ->
    named nm (entry (contents (disk s) dr) j) = true -> named nm (entry (contents (disk s) dr) j') = true -> j = j';
  di_sector : forall j, (j < 16)%nat -> in_use (entry (contents (disk s) dr) j) = true ->
    let k := entry_sector (entry (contents (disk s) dr) j) in
    2 <= k /\ is_Some (I !! k) /\ ~ removed_sector s k;
  di_inj : forall j j', (j < 16)%nat -> (j' < 16)%nat ->
    in_use (entry (contents (disk s) dr) j) = true -> in_use (entry (contents (disk s) dr) j') = true ->
    entry_sector (entry (contents (disk s) dr) j) = entry_sector (entry (contents (disk s) dr) j') -> j = j';
  di_files : forall h fl, view s h <> Some (File fl, ROOT_DIR_SECTOR) }.

(** The sector of the file with a name. *)
Definition sector_of (C nm : list Z) : option Z := (fun j => entry_sector (entry C j)) <$> find_entry (named nm) C 16.

(** Nothing that the directory depends on has changed. *)
Lemma dir_inv_same s t I I' dr : dir_inv s I dr -> contents (disk t) dr = contents (disk s) dr ->
  (forall k, removed_sector t k -> removed_sector s k) ->
  (forall h fl, view t h = Some (File fl, ROOT_DIR_SECTOR) -> exists h' fl', view s h' = Some (File fl', ROOT_DIR_SECTOR)) ->
  I' !! ROOT_DIR_SECTOR = Some dr ->
  (forall k, 2 <= k -> ~ removed_sector s k -> is_Some (I !! k) -> is_Some (I' !! k)) -> dir_inv t I' dr.
Proof.
  intros [Hr Hs Hu Hk Hj Hf] Ec Hrem Hv HI' HI. split; rewrite ?Ec; try done.
  - intros j Hlt Hin. destruct (Hk j Hlt Hin) as (H2 & Hsome & Hn). split_and!; [done|by apply HI|].
    intros Hr'. by apply Hn, Hrem.
  - intros h fl E. destruct (Hv _ _ E) as (h' & fl' & E'). by destruct (Hf h' fl').
Qed.

Lemma dir_inv_frame s t I dr : dir_inv s I dr -> frame I s t -> dir_inv t I dr.
Proof.
  intros Hd [_ _ Hc Hv Hr _ _]. eapply (dir_inv_same s t I I); [done| |done| |apply Hd|done].
  - apply (Hc ROOT_DIR_SECTOR); [apply Hd|done].
  - intros h fl. rewrite Hv. eauto.
Qed.

(** The inode of the root directory lets everybody write. *)
Lemma root_writable s I X dr p i : fs_inv s I X -> dir_inv s I dr -> heap s !! p = Some (Inode i) ->
  sector i = ROOT_DIR_SECTOR -> data i = dr /\ deny_write_cnt i = 0 /\ removed i = false.
Proof.
  intros Hi Hd Hp Hs. split_and!.
  - pose proof (inv_data _ _ _ (fi_heap _ _ _ Hi) _ _ Hp) as E. rewrite Hs, (di_root _ _ _ Hd) in E. congruence.
  - rewrite (inv_deny _ _ _ (fi_heap _ _ _ Hi) _ _ Hp), count_zero; [done|]. intros q o Hq.
    destruct o as [|j|fl|d]; try done. cbn. destruct (Z.eqb_spec (file_inode fl) p) as [E|]; [|done].
    destruct (di_files _ _ _ Hd q fl). unfold view. by rewrite Hq, E, Hp, Hs.
  - apply not_true_is_false. intros Hr. pose proof (fi_removed _ _ _ Hi (sector i)) as H2.
    assert (2 <= sector i) by (apply H2; by exists p, i). rewrite Hs in *. by unfold ROOT_DIR_SECTOR in *.
Qed.

Lemma rewritten_frame I k cs s t : rewritten I k cs s t -> (forall d, I !! k = Some d -> contents (disk s) d = cs) -> frame I s t.
Proof.
  intros [E1 E2 Ho Hd Eh Eb] Hsame. split; try done.
  - intros k' d Hk' Hne. destruct (decide (k' = k)) as [->|]; [|by eapply Ho]. rewrite (Hd d), (Hsame d) by done. done.
  - by apply view_heap.
  - intros k'. by apply removed_heap.
  - by rewrite Eb.
  - split; [intros k' (q & j & Hq & Hj) _; exists q, j; by rewrite Eh|]. intros d0 H0 Hr. left.
    eapply recorded_contents; [|done|done|done]. destruct (decide (FREE_MAP_SECTOR = k)) as [<-|Hne]; [|by apply (Ho FREE_MAP_SECTOR)].
    by rewrite (Hd d0), (Hsame d0).
Qed.

(** Writing an entry of the root directory. *)
Lemma wp_write_entry s I X dr p i j e (Q : Z -> fs -> Prop) : fs_inv s I X -> dir_inv s I dr ->
  heap s !! p = Some (Inode i) -> sector i = ROOT_DIR_SECTOR -> (j < 16)%nat -> length e = 20%nat ->
  (forall t, fs_inv t I X -> rewritten I ROOT_DIR_SECTOR (splice (contents (disk s) dr) (20 * j) e) s t -> Q sizeof_entry t) ->
  wp (inode_write_at p e sizeof_entry (Z.of_nat (20 * j))) Q s.
Proof using Plenty.
  intros Hi Hd Hp Hs Hj He HQ. destruct (root_writable _ _ _ _ _ _ Hi Hd Hp Hs) as (Ed & Hdn & _).
  eapply wp_inode_write_inv; [done..|lia|unfold sizeof_entry; lia|]. intros m t Hm Ht Hr. rewrite Hdn, Z.eqb_refl, Ed in Hm.
  unfold write_count in Hm. rewrite (di_size _ _ _ Hd) in Hm.
  assert (Em : m = sizeof_entry).
  { destruct Hm as [->|[Hx _]]; [|by destruct (not_exhausted s)]. unfold sizeof_entry. lia. }
  rewrite Em in *. apply HQ; [done|]. rewrite Nat2Z.id, Ed, Hs in Hr. rewrite take_ge in Hr; [done|]. rewrite He. done.
Qed.

Lemma wp_dir_add s I X dr h d i nm sec e (Q : bool -> fs -> Prop) : fs_inv s I X -> dir_inv s I dr ->
  open_dir s h d i 16 -> sector i = ROOT_DIR_SECTOR -> length e = 20%nat ->
  let C := contents (disk s) dr in
  (forall t, fs_inv t I X -> frame I s t -> heap t = heap s -> free_map t = free_map s ->
     nm = [] \/ (14 < length nm)%nat \/ is_Some (sector_of C nm) \/ find_entry (fun e => negb (in_use e)) C 16 = None -> Q false t) ->
  (forall t j e', fs_inv t I X -> nm <> [] -> (length nm <= 14)%nat -> sector_of C nm = None -> (j < 16)%nat ->
     in_use (entry C j) = false -> length e' = 20%nat ->
     rewritten I ROOT_DIR_SECTOR (splice C (20 * j) (fill_entry sec nm e')) s t -> Q true t) ->
  wp (dir_add h nm sec e) Q s.
Proof using Plenty.
  intros Hi Hd Ho Hs He C H1 H2. pose proof Ho as (H0 & Hh & Hp & Hn). unfold dir_add.
  destruct (root_writable _ _ _ _ _ _ Hi Hd Hp Hs) as (Ed & _ & _).
  apply wp_bind, wp_assertb; [apply negb_true_iff, Z.eqb_neq; unfold NULL; lia|].
  destruct (_ || _) eqn:Ev.
  { apply wp_ret, H1; [done|apply fs_frame_refl|done|done|]. apply orb_true_iff in Ev as [E%Z.eqb_eq|E%Z.ltb_lt].
    - left. apply nil_length_inv. lia.
    - right. left. unfold NAME_MAX in E. lia. }
  apply orb_false_iff in Ev as [Ev1%Z.eqb_neq Ev2%Z.ltb_ge]. unfold NAME_MAX in Ev2.
  apply wp_bind. eapply wp_lookup; [done|exact Ho|done|]. intros t Hl. cbn zeta. rewrite Ed. fold C.
  destruct (find_entry (named nm) C 16) as [j|] eqn:Ef; cbn [fmap option_fmap option_map].
  { rewrite bool_decide_eq_true_2 by eauto. apply wp_ret, H1; [by eapply later_inv|by apply later_frame|by destruct Hl as [? ->]..|].
    right. right. left. unfold sector_of. rewrite Ef. eauto. }
  rewrite bool_decide_eq_false_2 by (by intros []).
  assert (Eh : heap t = heap s /\ disk t = disk s) by (destruct Hl as [? ->]; done). destruct Eh as [Eh Edk].
  assert (Hit : fs_inv t I X) by (by eapply later_inv).
  apply wp_bind. eapply wp_get_dir; [by rewrite Eh|]. apply wp_bind.
  eapply (wp_scan_entries t I X _ i _ 16 0); [done|by rewrite Eh|done|lia|done| |]; rewrite Ed, Edk; fold C.
  - intros k u Hu Hk Hsk _. apply wp_bind.
    assert (Ehu : heap u = heap s /\ disk u = disk s) by (destruct Hu as [? ->]; cbn; auto). destruct Ehu as [Ehu Edu].
    assert (Hfu : frame I s u).
    { eapply fs_frame_trans; [by apply later_frame|by apply later_frame|done]. }
    assert (Hle : length (entry C k) = 20%nat).
    { eapply (length_entry _ 16); [|lia]. unfold C. rewrite length_contents, (di_size _ _ _ Hd). lia. }
    eapply (wp_write_entry u I X dr); [by eapply later_inv|by eapply dir_inv_frame|by rewrite Ehu|done|lia| |].
    + apply length_fill; [done|lia].
    + rewrite Edu. fold C. intros v Hv Hr. apply wp_ret. rewrite Z.eqb_refl. eapply (H2 v k (entry C k)); try done; try lia.
      * intros ->. cbn in Ev1. lia.
      * unfold sector_of. by rewrite Ef.
      * by apply negb_true_iff.
      * destruct Hu as [nu ->], Hl as [nl ->]. destruct Hr as [? ? ? ? ? ?]. by split.
  - intros e' u Hu He' Hno. apply wp_bind.
    assert (Ehu : heap u = heap s /\ disk u = disk s) by (destruct Hu as [? ->]; cbn; auto). destruct Ehu as [Ehu Edu].
    assert (Hlu : later s u) by (destruct Hu as [nu ->], Hl as [nl ->]; by exists nu).
    eapply wp_inode_write_inv; [by eapply later_inv|by rewrite Ehu|lia| |].
    { rewrite length_fill by (done || lia). unfold sizeof_entry. lia. }
    intros m v Hm Hv Hr. apply wp_ret.
    assert (Em : m = 0).
    { rewrite Ed in Hm. destruct (deny_write_cnt i =? 0); [|done]. unfold write_count in Hm. rewrite (di_size _ _ _ Hd) in Hm. lia. }
    rewrite Em in *. cbn [Z.to_nat take] in Hr. rewrite splice_nil in Hr. apply H1; [done| |..].
    + eapply fs_frame_trans; [by apply later_frame| |done]. eapply rewritten_frame; [exact Hr|].
      intros d' Hd'. rewrite Hs, (di_root _ _ _ Hd) in Hd'. by replace d' with (data i) by congruence.
    + by rewrite (rw_heap _ _ _ _ _ Hr).
    + rewrite (rw_bits _ _ _ _ _ Hr). by destruct Hlu as [? ->].
    + right. right. right. destruct (find_entry _ C 16) as [k|] eqn:E; [|done].
      apply find_entry_Some in E as (Hk & Hfk & _). rewrite Hno in Hfk by lia. done.
Qed.

(** ** Adding and removing names *)

(** At most one entry has a name. *)
Definition unique_names (C : list Z) : Prop := forall j j' nm, (j < 16)%nat -> (j' < 16)%nat -> zero_free nm ->
  named nm (entry C j) = true -> named nm (entry C j') = true -> j = j'.

Lemma sector_of_Some C nm k : unique_names C -> zero_free nm ->
  sector_of C nm = Some k <-> exists j, (j < 16)%nat /\ named nm (entry C j) = true /\ entry_sector (entry C j) = k.
Proof.
  intros Hu Hz. unfold sector_of. rewrite fmap_Some. split.
  - intros (j & E & ->). apply find_entry_Some in E as (? & ? & _). eauto.
  - intros (j & Hj & Hn & <-). exists j. split; [|done]. apply find_entry_unique; [done|done|]. intros k' Hk Hk'. by eapply Hu.
Qed.

Lemma sector_of_None C nm : sector_of C nm = None <-> forall j, (j < 16)%nat -> named nm (entry C j) = false.
Proof.
  unfold sector_of. rewrite fmap_None. split; [apply find_entry_None|]. intros H1.
  destruct (find_entry _ C 16) as [j|] eqn:E; [|done]. apply find_entry_Some in E as (Hj & Hn & _). rewrite H1 in Hn by done. done.
Qed.

Section Slot.
Context (C : list Z) (HC : length C = (20 * 16)%nat) (Huq : unique_names C) (j : nat) (Hj : (j < 16)%nat).

(** A free entry gets a name. *)
Section Add.
Context (nm e : list Z) (sec : Z) (He : length e = 20%nat) (Hnm : (length nm <= 14)%nat) (Hz : zero_free nm).
Context (Hfree : in_use (entry C j) = false) (Hnew : sector_of C nm = None) (Hsec : in_u 32 sec).
Let C' := splice C (20 * j) (fill_entry sec nm e).

Lemma add_entry k : (k < 16)%nat -> entry C' k = if decide (k = j) then fill_entry sec nm e else entry C k.
Proof using HC Hj He Hnm. intros Hk. apply (entry_splice C 16); [done..|by apply length_fill]. Qed.

Lemma add_named k nm' : (k < 16)%nat -> zero_free nm' ->
  named nm' (entry C' k) = if decide (k = j) then bool_decide (nm' = nm) else named nm' (entry C k).
Proof using HC Hj He Hnm Hz. intros Hk Hz'. rewrite add_entry by done. case_decide; [by apply fill_named|done]. Qed.

Lemma add_unique : unique_names C'.
Proof using HC Hj He Hnm Hz Hnew Huq.
  intros k k' nm' Hk Hk' Hz'. rewrite !add_named by done.
  destruct (decide (k = j)), (decide (k' = j)); [congruence|..].
  - intros E1%bool_decide_eq_true E. rewrite E1, (proj1 (sector_of_None _ _) Hnew) in E by done. done.
  - intros E E1%bool_decide_eq_true. rewrite E1, (proj1 (sector_of_None _ _) Hnew) in E by done. done.
  - by apply Huq.
Qed.

Lemma add_sector_of nm' : zero_free nm' -> sector_of C' nm' = if decide (nm' = nm) then Some sec else sector_of C nm'.
Proof using HC Huq Hj He Hnm Hz Hfree Hnew Hsec.
  intros Hz'. case_decide as E.
  - subst nm'. apply sector_of_Some; [apply add_unique|done|]. exists j. rewrite add_named, add_entry by done.
    destruct (decide (j = j)); [|done]. rewrite bool_decide_eq_true_2 by done. by rewrite fill_sector.
  - destruct (sector_of C nm') as [k|] eqn:Ek.
    + apply sector_of_Some in Ek as (j' & Hj' & Hn & Hk); [|done..]. apply sector_of_Some; [apply add_unique|done|].
      exists j'. assert (j' <> j) by (intros ->; unfold named in Hn; by rewrite Hfree in Hn).
      rewrite add_named, add_entry, !decide_False by done. done.
    + apply sector_of_None. intros k Hk. rewrite add_named by done. case_decide; [by rewrite bool_decide_eq_false_2|].
      by apply (proj1 (sector_of_None _ _) Ek).
Qed.
End Add.

(** An entry is given up. *)
Section Remove.
Context (nm : list Z) (Hz : zero_free nm) (Hnamed : named nm (entry C j) = true).
Let C' := splice C (20 * j) (splice (entry C j) 19 [0]).

Lemma remove_length : length (splice (entry C j) 19 [0]) = 20%nat.
Proof using HC Hj. pose proof (length_entry C 16 j HC Hj) as E. rewrite length_splice; rewrite E; cbn; lia. Qed.

Lemma remove_entry k : (k < 16)%nat -> entry C' k = if decide (k = j) then splice (entry C j) 19 [0] else entry C k.
Proof using HC Hj. intros Hk. apply (entry_splice C 16); [done..|apply remove_length]. Qed.

Lemma remove_in_use k : (k < 16)%nat -> in_use (entry C' k) = if decide (k = j) then false else in_use (entry C k).
Proof using HC Hj.
  intros Hk. rewrite remove_entry by done. case_decide; [|done]. unfold in_use.
  rewrite splice_lookup by (rewrite (length_entry C 16 j HC Hj); cbn; lia). done.
Qed.

Lemma remove_named k nm' : (k < 16)%nat -> named nm' (entry C' k) = if decide (k = j) then false else named nm' (entry C k).
Proof using HC Hj.
  intros Hk. unfold named. rewrite remove_in_use by done. case_decide as E; [done|]. by rewrite remove_entry, decide_False.
Qed.

Lemma remove_unique : unique_names C'.
Proof using HC Hj Huq.
  intros k k' nm' Hk Hk' Hz'. rewrite !remove_named by done. repeat case_decide; try done. by apply Huq.
Qed.

Lemma remove_sector_of nm' : zero_free nm' -> sector_of C' nm' = if decide (nm' = nm) then None else sector_of C nm'.
Proof using HC Huq Hj Hz Hnamed.
  intros Hz'. case_decide as E.
  - subst nm'. apply sector_of_None. intros k Hk. rewrite remove_named by done. case_decide as Ek; [done|].
    destruct (named nm (entry C k)) eqn:En; [|done]. destruct Ek. by eapply Huq.
  - destruct (sector_of C nm') as [k|] eqn:Ek.
    + apply sector_of_Some in Ek as (j' & Hj' & Hn & Hk); [|done..]. apply sector_of_Some; [apply remove_unique|done|].
      exists j'. assert (j' <> j).
      { intros ->. apply E. apply andb_true_iff in Hn as [_ Hn], Hnamed as [_ Hnm]. by eapply same_name_unique. }
      rewrite remove_named, remove_entry, !decide_False by done. done.
    + apply sector_of_None. intros k Hk. rewrite remove_named by done. case_decide; [done|].
      by apply (proj1 (sector_of_None _ _) Ek).
Qed.
End Remove.
End Slot.
End Dir.
