(* ===== verification/FsTop.v ===== *)
(** * filesys/filesys.c: files by name

    Creating, opening and removing files by name, when memory does not run
    out. *)

From Stdlib Require Import ZArith Lia.
From stdpp Require Import base numbers gmap list.
From S2P Require Import Prelude Bitmap FsBase Inode Directory FsData FsInv FsWp FsHandle FsFile FsDir.

Open Scope Z_scope.

Section Top.
Context `{!Memory} (Plenty : forall n live, is_Some (place n live)).

(** ** The root directory, opened and closed *)

(** The root directory is open at [h]. *)
Definition root_open (s : fs) (h : Z) : Prop := exists d, view s h = Some (Dir d, ROOT_DIR_SECTOR).

Lemma root_open_dir s I X dr h : fs_inv s I X -> dir_inv s I dr -> root_open s h ->
  exists d i, open_dir s h d i 16 /\ sector i = ROOT_DIR_SECTOR /\ data i = dr /\ removed i = false.
Proof.
  intros Hi Hd [d Hv]. unfold view in Hv. destruct (heap s !! h) as [[|j|fl|d']|] eqn:E; try done.
  - by destruct (heap s !! file_inode fl) as [[]|].
  - destruct (heap s !! dir_inode d') as [[|i| |]|] eqn:Ei; try done. injection Hv as -> Hs.
    destruct (root_writable _ _ _ _ _ _ Hi Hd Ei Hs) as (Ed & _ & Hr). exists d, i.
    assert (0 < h) by (eapply inv_ptr; [apply Hi|done]).
    split; [|done]. unfold open_dir. rewrite Ed, (di_size _ _ _ Hd). done.
Qed.

Lemma dir_inv_frame_at s t I dr h : dir_inv s I dr -> frame_at I h s t -> (forall fl, view t h <> Some (File fl, ROOT_DIR_SECTOR)) ->
  dir_inv t I dr.
Proof.
  intros Hd [_ _ Hc Hv Hr _] Hh. eapply (dir_inv_same s t I I); [done| |done| |apply Hd|done].
  - apply (Hc ROOT_DIR_SECTOR); [apply Hd|done].
  - intros q fl E. destruct (decide (q = h)) as [->|]; [by destruct (Hh fl)|]. rewrite Hv in E by done. eauto.
Qed.

Lemma without_kept (I I' : gmap Z inode_disk) k : without I I' k false -> I' = I.
Proof. intros [->|[? _]]; done. Qed.

Lemma wp_dir_open_root s I X dr (Q : Z -> fs -> Prop) : fs_inv s I X -> dir_inv s I dr ->
  (forall h t, 0 < h -> root_open t h -> view s h = None -> fs_inv t I X -> dir_inv t I dr -> frame_at I h s t -> Q h t) ->
  wp dir_open_root Q s.
Proof using Plenty.
  intros Hi Hd HQ. unfold dir_open_root. apply wp_bind.
  eapply wp_inode_open; [done|apply Hd| |intros Hx; by destruct (not_exhausted Plenty s)].
  intros p i t Hp Hs Hp0 Ht Hf. eapply wp_dir_open; [exact Ht|done| |intros Hx; by destruct (not_exhausted Plenty t)].
  intros h u Hh Hv Hvu Hu Hfu. rewrite Hs in Hvu.
  assert (Hfr : frame_at I h s u) by (eapply frame_at_trans; [apply frame_frame_at, Hf|exact Hfu|done]).
  apply HQ; try done; [by eexists|by rewrite <- (fr_view _ _ _ Hf)|].
  eapply dir_inv_frame_at; [done..|]. intros fl. by rewrite Hvu.
Qed.

Lemma wp_dir_close_root s I X dr h (Q : unit -> fs -> Prop) : fs_inv s I X -> dir_inv s I dr -> root_open s h ->
  (forall t, view t h = None -> fs_inv t I X -> dir_inv t I dr -> frame_at I h s t -> stable X s t -> Q tt t) ->
  wp (dir_close h) Q s.
Proof.
  intros Hi Hd Ho HQ. destruct (root_open_dir _ _ _ _ _ Hi Hd Ho) as (d & i & (H0 & Hh & Hp & _) & Hs & _ & Hr).
  eapply wp_dir_close; [exact Hh|exact Hp|exact Hi|]. rewrite Hr. intros I' t ->%without_kept Ht Hf Hst Hv.
  apply HQ; try done. eapply dir_inv_frame_at; [done..|]. intros fl. by rewrite Hv.
Qed.

(** ** Opening *)

Lemma sector_of_file s I dr nm k : dir_inv s I dr -> sector_of (contents (disk s) dr) nm = Some k ->
  2 <= k /\ is_Some (I !! k) /\ ~ removed_sector s k.
Proof.
  intros Hd. unfold sector_of. rewrite fmap_Some. intros (j & E & ->). apply find_entry_Some in E as (Hj & Hn & _).
  apply andb_true_iff in Hn as [Hu _]. by apply (di_sector _ _ _ Hd).
Qed.

Lemma wp_dir_lookup s I X dr h nm e (Q : Z -> fs -> Prop) : fs_inv s I X -> dir_inv s I dr -> root_open s h ->
  length e = 20%nat ->
  (forall k p i t, sector_of (contents (disk s) dr) nm = Some k -> heap t !! p = Some (Inode i) -> sector i = k -> 0 < p ->
     fs_inv t I (p :: X) -> frame I s t -> Q p t) ->
  (forall t, sector_of (contents (disk s) dr) nm = None -> fs_inv t I X -> frame I s t -> Q NULL t) ->
  wp (dir_lookup h nm e) Q s.
Proof using Plenty.
  intros Hi Hd Ho He H1 H2. destruct (root_open_dir _ _ _ _ _ Hi Hd Ho) as (d & i & Hod & Hs & Ed & Hr).
  unfold dir_lookup. apply wp_bind, wp_assertb; [destruct Hod as [? _]; apply negb_true_iff, Z.eqb_neq; unfold NULL; lia|].
  apply wp_bind. eapply wp_lookup; [done|done|exact Hod|done|]. intros t Hl. cbn zeta. rewrite Ed.
  set (C := contents (disk s) dr) in *. unfold sector_of in H1, H2.
  pose proof (later_frame s t I Hl) as Hf. pose proof (later_inv _ _ _ _ Hl Hi) as Ht.
  destruct (find_entry (named nm) C 16) as [j|] eqn:E; cbn [fmap option_fmap option_map] in *; [|by apply wp_ret, H2].
  apply find_entry_Some in E as (Hj & Hn & _). apply andb_true_iff in Hn as [Hu _].
  destruct (di_sector _ _ _ Hd j Hj Hu) as (_ & [dk Hk] & _).
  eapply wp_inode_open; [exact Ht|exact Hk| |intros Hx; by destruct (not_exhausted Plenty t)].
  intros p i' u Hp Hsk Hp0 Hiu Hfu. eapply H1; [done|done|done|done|done|]. by eapply fs_frame_trans.
Qed.

(** The outcome of filesys_open(). *)
Definition opened (I : gmap Z inode_disk) (f k : Z) (s t : fs) : Prop :=
  0 < f /\ view s f = None /\ (exists p, view t f = Some (File (mk_file p 0 false), k)) /\ frame_at I f s t.

Lemma wp_filesys_open s I dr nm e (Q : Z -> fs -> Prop) : fs_inv s I [] -> dir_inv s I dr -> length e = 20%nat ->
  (forall k f t, sector_of (contents (disk s) dr) nm = Some k -> fs_inv t I [] -> dir_inv t I dr -> opened I f k s t -> Q f t) ->
  (forall t, sector_of (contents (disk s) dr) nm = None -> fs_inv t I [] -> dir_inv t I dr -> frame I s t -> Q NULL t) ->
  wp (filesys_open nm e) Q s.
Proof using Plenty.
  intros Hi Hd He H1 H2. unfold filesys_open. apply wp_bind. eapply wp_dir_open_root; [done|done|].
  intros h t Hh Ho Hv Ht Hdt Hft. rewrite (proj2 (Z.eqb_neq h NULL)) by (unfold NULL; lia). cbn [negb].
  assert (EC : contents (disk t) dr = contents (disk s) dr) by (apply (fa_data _ _ _ _ Hft ROOT_DIR_SECTOR); [apply Hd|done]).
  apply wp_bind. eapply wp_dir_lookup; [exact Ht|exact Hdt|exact Ho|done| |]; rewrite EC.
  - intros k p i u Hk Hp Hs Hp0 Hu Hfu. apply wp_bind.
    assert (Hou : root_open u h) by (destruct Ho as [d E]; exists d; by rewrite (fr_view _ _ _ Hfu)).
    eapply wp_dir_close_root; [exact Hu|by eapply dir_inv_frame|exact Hou|]. intros v Hvv Hiv Hdv Hfv Hst.
    assert (Hpv : exists i', heap v !! p = Some (Inode i') /\ sector i' = k).
    { destruct (Hst p i) as (i' & ? & ?); [left|done|]. exists i'. split; [done|congruence]. }
    destruct Hpv as (i' & Hpv & Hsv).
    assert (Hfsv : frame I s v).
    { eapply frame_at_frame; [eapply frame_at_trans; [exact Hft|eapply frame_at_trans; [apply frame_frame_at, Hfu|exact Hfv|done]|done]|].
      by rewrite Hvv. }
    eapply wp_file_open; [exact Hiv|exact Hpv| |intros Hx; by destruct (not_exhausted Plenty v)].
    intros f w Hf0 Hvf Hwf Hw Hfw. apply (H1 k); [done|done| |].
    + eapply dir_inv_frame_at; [exact Hdv|exact Hfw|]. intros fl. rewrite Hwf, Hsv. intros [= _ E].
      destruct (sector_of_file _ _ _ _ _ Hd Hk) as [H2k _]. rewrite E in H2k. by unfold ROOT_DIR_SECTOR in H2k.
    + split_and!; [done|by rewrite <- (fr_view _ _ _ Hfsv)|exists p; by rewrite Hwf, Hsv|].
      eapply frame_at_trans; [apply frame_frame_at, Hfsv|exact Hfw|done].
  - intros u Hk Hu Hfu. apply wp_bind.
    assert (Hou : root_open u h) by (destruct Ho as [d E]; exists d; by rewrite (fr_view _ _ _ Hfu)).
    eapply wp_dir_close_root; [exact Hu|by eapply dir_inv_frame|exact Hou|]. intros v Hvv Hiv Hdv Hfv _.
    assert (Hfsv : frame I s v).
    { eapply frame_at_frame; [eapply frame_at_trans; [exact Hft|eapply frame_at_trans; [apply frame_frame_at, Hfu|exact Hfv|done]|done]|].
      by rewrite Hvv. }
    eapply wp_file_open_null; [exact Hiv|]. intros w Hw Hfw. apply H2; [done|done|by eapply dir_inv_frame|by eapply fs_frame_trans].
Qed.

(** ** Removing *)

(** The contents of all files but the free map and the root directory, and all
    open files and directories, are as before. *)
Record files_kept (I : gmap Z inode_disk) (s t : fs) : Prop := {
  fk_cap : capacity t = capacity s;
  fk_data : forall k d, I !! k = Some d -> 2 <= k -> contents (disk t) d = contents (disk s) d;
  fk_view : forall h, view t h = view s h;
  fk_steady : steady I s t }.

Lemma frame_files_kept I s t : frame I s t -> files_kept I s t.
Proof. intros [? ? Hd ? ? ? ?]. split; try done. intros k d Hk H2. apply (Hd k); [done|unfold FREE_MAP_SECTOR; lia]. Qed.

Definition mark_removed (i : inode) : inode := mk_inode (sector i) (open_cnt i) true (deny_write_cnt i) (data i).

(** inode_remove() on an open inode. *)
Lemma inode_removed s I X p i : fs_inv s I X -> heap s !! p = Some (Inode i) -> 2 <= sector i ->
  let t := set_heap (<[p := Inode (mark_removed i)]> (heap s)) s in
  fs_inv t I X /\ (forall h, view t h = view s h) /\
  (forall k, removed_sector t k -> removed_sector s k \/ k = sector i) /\ removed_sector t (sector i) /\ steady I s t.
Proof.
  intros Hi Hp H2 t.
  assert (Hq : forall q, q <> p -> heap t !! q = heap s !! q) by (intros q Hq; cbn; by rewrite lookup_insert_ne).
  assert (Hpt : heap t !! p = Some (Inode (mark_removed i))) by apply lookup_insert_eq.
  assert (Hrem : forall k, removed_sector t k -> removed_sector s k \/ k = sector i).
  { intros k (q & j & Hj & Hr & <-). destruct (decide (q = p)) as [->|Hne].
    - rewrite Hpt in Hj. injection Hj as <-. by right.
    - rewrite Hq in Hj by done. left. by exists q, j. }
  split_and!; [|intros h|done|by exists p, (mark_removed i)|].
  - destruct Hi as [Hd Hh (d0 & H0 & Hm0 & f & j & Hf & Hdf & Hpj & Hj & Hsj & Hrest) Hr]. split.
    + destruct Hd. by split.
    + eapply (heap_inv_ino s I X X p i); try done. exact (inv_pos _ _ _ Hh p i Hp).
    + exists d0. split; [done|]. split; [done|]. exists f, j. change (free_map_file t) with (free_map_file s).
      rewrite (Hq (free_map_file s)) by congruence. rewrite (Hq (file_inode f)); [done|].
      intros E. rewrite E, Hp in Hj. injection Hj as <-. rewrite Hsj in H2. by unfold FREE_MAP_SECTOR in H2.
    + intros k [Hk | ->]%Hrem; auto.
  - unfold view. destruct (decide (h = p)) as [->|Hne]; [by rewrite Hpt, Hp|]. rewrite Hq by done.
    destruct (heap s !! h) as [[|j|fl|d]|]; try done.
    + destruct (decide (file_inode fl = p)) as [->|]; [by rewrite Hpt, Hp|by rewrite Hq].
    + destruct (decide (dir_inode d = p)) as [->|]; [by rewrite Hpt, Hp|by rewrite Hq].
  - split; [|intros d0 _ Hr; left; by eapply recorded_same]. intros k (q & j & Hj & Hr & <-) _.
    destruct (decide (q = p)) as [->|Hne]; [|exists q, j; by rewrite Hq].
    exists p, (mark_removed i). by assert (j = i) as -> by congruence.
Qed.

(** Giving up entry [j], whose inode has been removed. *)
Lemma dir_inv_remove s t I dr j nm : dir_inv s I dr -> (j < 16)%nat -> zero_free nm ->
  let C := contents (disk s) dr in
  named nm (entry C j) = true -> contents (disk t) dr = splice C (20 * j) (splice (entry C j) 19 [0]) ->
  (forall h, view t h = view s h) ->
  (forall k, removed_sector t k -> removed_sector s k \/ k = entry_sector (entry C j)) ->
  dir_inv t I dr /\
  forall nm', zero_free nm' -> sector_of (contents (disk t) dr) nm' = if decide (nm' = nm) then None else sector_of C nm'.
Proof.
  intros [Hr Hs Hu Hk Hj Hf] Hlt Hz C Hn EC Hv Hrem.
  assert (HC : length C = (20 * 16)%nat) by (unfold C; rewrite length_contents, Hs; lia).
  assert (Huq : unique_names C) by exact Hu. apply andb_true_iff in Hn as Hn'. destruct Hn' as [Huse _].
  rewrite EC. split; [|by apply (remove_sector_of C HC Huq j Hlt nm Hz Hn)].
  assert (Hin : forall k, (k < 16)%nat -> in_use (entry (splice C (20 * j) (splice (entry C j) 19 [0])) k) = true ->
    k <> j /\ in_use (entry C k) = true /\ entry (splice C (20 * j) (splice (entry C j) 19 [0])) k = entry C k).
  { intros k Hk'. rewrite (remove_in_use C HC j Hlt k Hk'), (remove_entry C HC j Hlt k Hk'). by case_decide. }
  split; rewrite ?EC; try done.
  - exact (remove_unique C HC Huq j Hlt).
  - intros k Hk' (Hne & Hu' & ->)%Hin; [|done]. destruct (Hk k Hk' Hu') as (H2 & Hs' & Hnr). split_and!; [done|done|].
    intros [Hrs|E]%Hrem; [done|]. apply Hne. by apply Hj.
  - intros k k' Hk1 Hk2 (_ & Hu1 & ->)%Hin (_ & Hu2 & ->)%Hin; try done. by apply Hj.
  - intros h fl. rewrite Hv. apply Hf.
Qed.

(** What filesys_remove() leaves when it succeeds. *)
Record unlinked (s t : fs) (I I' : gmap Z inode_disk) (dr : inode_disk) (nm : list Z) (k : Z) : Prop := {
  ul_sector : sector_of (contents (disk s) dr) nm = Some k;
  ul_inodes : without I I' k true;
  ul_open : is_Some (I' !! k) -> removed_sector t k;
  ul_names : forall nm', zero_free nm' -> sector_of (contents (disk t) dr) nm' =
    if decide (nm' = nm) then None else sector_of (contents (disk s) dr) nm';
  ul_files : files_kept I' s t }.

Lemma wp_dir_remove s I dr h nm e (Q : bool -> fs -> Prop) : fs_inv s I [] -> dir_inv s I dr -> root_open s h ->
  length e = 20%nat -> zero_free nm ->
  (forall t, sector_of (contents (disk s) dr) nm = None -> fs_inv t I [] -> frame I s t -> Q false t) ->
  (forall k I' t, unlinked s t I I' dr nm k -> fs_inv t I' [] -> dir_inv t I' dr -> Q true t) ->
  wp (dir_remove h nm e) Q s.
Proof using Plenty.
  intros Hi Hd Ho He Hz H1 H2. destruct (root_open_dir _ _ _ _ _ Hi Hd Ho) as (d & i & Hod & Hs & Ed & Hr).
  unfold dir_remove. apply wp_bind, wp_assertb; [destruct Hod as [? _]; apply negb_true_iff, Z.eqb_neq; unfold NULL; lia|].
  apply wp_bind. eapply wp_lookup; [done|done|exact Hod|done|]. intros t Hl. cbn zeta. rewrite Ed.
  set (C := contents (disk s) dr) in *.
  pose proof (later_frame s t I Hl) as Hf. pose proof (later_inv _ _ _ _ Hl Hi) as Ht.
  destruct (find_entry (named nm) C 16) as [j|] eqn:E; cbn [fmap option_fmap option_map].
  2:{ apply wp_bind, wp_ret, wp_ret, H1; [unfold sector_of; by rewrite E|done|done]. }
  assert (Hk : sector_of C nm = Some (entry_sector (entry C j))) by (unfold sector_of; by rewrite E).
  apply find_entry_Some in E as (Hj & Hn & _). destruct (sector_of_file _ _ _ _ _ Hd Hk) as (H2k & [dk Hdk] & _).
  set (k := entry_sector (entry C j)) in *.
  apply wp_bind. eapply wp_inode_open; [exact Ht|exact Hdk| |intros Hx; by destruct (not_exhausted Plenty t)].
  intros p ip u Hp Hsp Hp0 Hu Hfu. rewrite (proj2 (Z.eqb_neq p NULL)) by (unfold NULL; lia).
  assert (Hfsu : frame I s u) by (by eapply fs_frame_trans). pose proof (dir_inv_frame _ _ _ _ Hd Hfsu) as Hdu.
  assert (Hou : root_open u h) by (destruct Ho as [d' Hv]; exists d'; by rewrite (fr_view _ _ _ Hfsu)).
  destruct (root_open_dir _ _ _ _ _ Hu Hdu Hou) as (du & iu & (_ & Hhu & Hpu & _) & Hsu & _).
  assert (EC : contents (disk u) dr = C) by (apply (fr_data _ _ _ Hfsu ROOT_DIR_SECTOR); [apply Hd|done]).
  assert (HC : length C = (20 * 16)%nat) by (unfold C; rewrite length_contents, (di_size _ _ _ Hd); lia).
  apply wp_bind. eapply wp_get_dir; [exact Hhu|]. apply wp_bind.
  eapply (wp_write_entry Plenty u I [p] dr); [exact Hu|exact Hdu|exact Hpu|exact Hsu|done|by apply remove_length|].
  rewrite EC. intros v Hv Hrw. rewrite Z.eqb_refl. cbn [negb]. apply wp_bind.
  assert (Ehv : heap v = heap u) by apply Hrw.
  unfold inode_remove. apply wp_bind, wp_assertb; [apply negb_true_iff, Z.eqb_neq; unfold NULL; lia|].
  apply wp_bind. eapply wp_get_inode; [by rewrite Ehv|]. eapply wp_store; [by rewrite Ehv|].
  destruct (inode_removed v I [p] p ip Hv) as (Hw & Hvw & Hrw1 & Hrw2 & Hstw); [by rewrite Ehv|lia|].
  set (w := set_heap _ v) in *. change (Inode _) with (Inode (mark_removed ip)) in w.
  assert (Hpw : heap w !! p = Some (Inode (mark_removed ip))) by apply lookup_insert_eq.
  destruct (dir_inv_remove u w I dr j nm Hdu Hj Hz) as [Hdw Hnames].
  { by rewrite EC. }
  { rewrite EC. by apply (rw_data _ _ _ _ _ Hrw), Hd. }
  { intros q. rewrite Hvw. by apply view_heap. }
  { rewrite EC. intros k' [Hk'|Ek']%Hrw1; [left; by eapply removed_heap|right]. by rewrite Ek', Hsp. }
  apply wp_bind. eapply wp_inode_close; [exact Hw|exact Hpw|]. cbn [removed mark_removed sector]. rewrite Hsp.
  intros I' x HI Hx Hfx _. assert (Hsub : I' ⊆ I) by (destruct HI as [->|[_ ->]]; [done|apply delete_subseteq]).
  assert (HIr : I' !! ROOT_DIR_SECTOR = Some dr).
  { destruct HI as [->|[_ ->]]; [apply Hd|]. rewrite lookup_delete_ne; [apply Hd|]. unfold ROOT_DIR_SECTOR. lia. }
  assert (ECx : contents (disk x) dr = contents (disk w) dr) by (by apply (fr_data _ _ _ Hfx ROOT_DIR_SECTOR)).
  apply wp_ret, (H2 k I').
  - split; [done|done| | |].
    + apply (st_still _ _ _ (fr_steady _ _ _ Hfx)). by rewrite <- Hsp.
    + intros nm' Hz'. rewrite ECx, Hnames, EC by done. done.
    + split; [by rewrite (fr_cap _ _ _ Hfx), <- (fr_cap _ _ _ Hfsu), <- (rw_cap _ _ _ _ _ Hrw)| | |].
      * intros k' d' Hk' H2k'. assert (HkI : I !! k' = Some d') by (by eapply lookup_weaken).
        rewrite (fr_data _ _ _ Hfx k') by (done || unfold FREE_MAP_SECTOR; lia).
        change (disk w) with (disk v). rewrite (rw_other _ _ _ _ _ Hrw k') by (done || unfold ROOT_DIR_SECTOR; lia).
        apply (fr_data _ _ _ Hfsu k'); [done|unfold FREE_MAP_SECTOR; lia].
      * intros q. rewrite (fr_view _ _ _ Hfx), Hvw, (view_heap u v Ehv). apply Hfsu.
      * eapply steady_trans; [apply (fr_steady _ _ _ Hfsu)|eapply steady_trans; [by eapply rewritten_steady| |exact Hsub]|exact Hsub].
        eapply steady_trans; [exact Hstw|apply Hfx|exact Hsub].
  - exact Hx.
  - eapply (dir_inv_same w x I I'); [exact Hdw|done|apply Hfx| |done|].
    + intros q fl. rewrite (fr_view _ _ _ Hfx). eauto.
    + intros k' H2k' Hnr Hsome. destruct HI as [->|[_ ->]]; [done|]. rewrite lookup_delete_ne; [done|].
      intros <-. apply Hnr. by rewrite <- Hsp.
Qed.

(** The directory handle is gone again. *)
Lemma files_kept_handle I I' s t u v h : frame_at I h s t -> files_kept I' t u -> frame_at I' h u v -> view s h = None ->
  view v h = None -> I' ⊆ I -> files_kept I' s v.
Proof.
  intros [? _ Hd1 Hv1 _ _ ?] [? Hd2 Hv2 ?] [? _ Hd3 Hv3 _ _ ?] Hs Hv Hsub. split; [congruence| | |].
  - intros k d Hk H2. assert (Hne : k <> FREE_MAP_SECTOR) by (unfold FREE_MAP_SECTOR; lia).
    rewrite (Hd3 k d Hk Hne), (Hd2 k d Hk H2), (Hd1 k d); [done|by eapply lookup_weaken|done].
  - intros q. destruct (decide (q = h)) as [->|Hne]; [congruence|]. rewrite Hv3, Hv2, Hv1 by done. done.
  - eapply steady_trans; [done|by eapply steady_trans|done].
Qed.

Lemma wp_filesys_remove s I dr nm e (Q : bool -> fs -> Prop) : fs_inv s I [] -> dir_inv s I dr -> length e = 20%nat ->
  zero_free nm ->
  (forall t, sector_of (contents (disk s) dr) nm = None -> fs_inv t I [] -> dir_inv t I dr -> frame I s t -> Q false t) ->
  (forall k I' t, unlinked s t I I' dr nm k -> fs_inv t I' [] -> dir_inv t I' dr -> Q true t) ->
  wp (filesys_remove nm e) Q s.
Proof using Plenty.
  intros Hi Hd He Hz H1 H2. unfold filesys_remove. apply wp_bind. eapply wp_dir_open_root; [done|done|].
  intros h t Hh Ho Hv Ht Hdt Hft. rewrite (proj2 (Z.eqb_neq h NULL)) by (unfold NULL; lia). cbn [negb].
  assert (EC : contents (disk t) dr = contents (disk s) dr) by (apply (fa_data _ _ _ _ Hft ROOT_DIR_SECTOR); [apply Hd|done]).
  apply wp_bind. eapply wp_dir_remove; [exact Ht|exact Hdt|exact Ho|done|done| |].
  - rewrite EC. intros u Hk Hu Hfu. apply wp_bind.
    assert (Hou : root_open u h) by (destruct Ho as [d E]; exists d; by rewrite (fr_view _ _ _ Hfu)).
    eapply wp_dir_close_root; [exact Hu|by eapply dir_inv_frame|exact Hou|]. intros v Hvv Hiv Hdv Hfv _. apply wp_ret.
    apply H1; [done|done|done|].
    eapply frame_at_frame; [eapply frame_at_trans; [exact Hft|eapply frame_at_trans; [apply frame_frame_at, Hfu|exact Hfv|done]|done]|].
    by rewrite Hvv.
  - intros k I' u [Hs HI Hop Hn Hfk] Hu Hdu. rewrite EC in Hs, Hn. apply wp_bind.
    assert (Hou : root_open u h) by (destruct Ho as [d E]; exists d; by rewrite (fk_view _ _ _ Hfk)).
    eapply wp_dir_close_root; [exact Hu|exact Hdu|exact Hou|]. intros v Hvv Hiv Hdv Hfv _. apply wp_ret.
    apply (H2 k I'); [|done|done]. split; [done|done| | |].
    + intros Hk. apply (st_still _ _ _ (fa_steady _ _ _ _ Hfv)); auto.
    + intros nm' Hz'. rewrite (fa_data _ _ _ _ Hfv ROOT_DIR_SECTOR) by (done || apply Hdu). by apply Hn.
    + eapply files_kept_handle; [exact Hft|exact Hfk|exact Hfv|done|done|].
      destruct HI as [->|[_ ->]]; [done|apply delete_subseteq].
Qed.

(** ** Creating *)

(** A free entry gets the name of a new file. *)
Lemma dir_inv_add s t I dr j nm sec e : dir_inv s I dr -> (j < 16)%nat -> zero_free nm -> (length nm <= 14)%nat ->
  let C := contents (disk s) dr in
  in_use (entry C j) = false -> sector_of C nm = None -> length e = 20%nat -> 2 <= sec < 2 ^ 32 -> is_Some (I !! sec) ->
  ~ removed_sector s sec -> (forall k, (k < 16)%nat -> in_use (entry C k) = true -> entry_sector (entry C k) <> sec) ->
  rewritten I ROOT_DIR_SECTOR (splice C (20 * j) (fill_entry sec nm e)) s t ->
  dir_inv t I dr /\ forall nm', zero_free nm' ->
    sector_of (contents (disk t) dr) nm' = if decide (nm' = nm) then Some sec else sector_of C nm'.
Proof.
  intros [Hr Hs Hu Hk Hj Hf] Hlt Hz Hnm C Hfree Hnew He Hsec HI Hnr Hfresh Hrw.
  assert (HC : length C = (20 * 16)%nat) by (unfold C; rewrite length_contents, Hs; lia).
  assert (Huq : unique_names C) by exact Hu. assert (Hsec' : in_u 32 sec) by (unfold in_u; lia).
  assert (EC : contents (disk t) dr = splice C (20 * j) (fill_entry sec nm e)) by (by apply (rw_data _ _ _ _ _ Hrw)).
  pose proof (rw_heap _ _ _ _ _ Hrw) as Eh. rewrite EC.
  split; [|by apply (add_sector_of C HC Huq j Hlt nm e sec He Hnm Hz Hfree Hnew Hsec')].
  assert (Hent : forall k, (k < 16)%nat -> (k = j /\ entry (splice C (20 * j) (fill_entry sec nm e)) k = fill_entry sec nm e) \/
    (k <> j /\ entry (splice C (20 * j) (fill_entry sec nm e)) k = entry C k)).
  { intros k Hk'. rewrite (add_entry C HC j Hlt nm e sec He Hnm k Hk'). case_decide; auto. }
  split; rewrite ?EC; try done.
  - exact (add_unique C HC Huq j Hlt nm e sec He Hnm Hz Hnew).
  - intros k Hk' Huse. cbn zeta. destruct (Hent k Hk') as [[-> E]|[Hne E]]; rewrite E in *.
    + rewrite fill_sector by done. split_and!; [lia|done|]. intros Hrm. apply Hnr. by eapply removed_heap.
    + destruct (Hk k Hk' Huse) as (? & ? & Hn). split_and!; try done. intros Hrm. apply Hn. by eapply removed_heap.
  - intros k k' Hk1 Hk2 Hu1 Hu2 E. destruct (decide (k = k')) as [|Hkk]; [done|].
    destruct (Hent k Hk1) as [[-> E1]|[Hne E1]], (Hent k' Hk2) as [[-> E2]|[Hne' E2]]; try done;
      rewrite E1 in Hu1, E; rewrite E2 in Hu2, E; rewrite ?fill_sector in E by done.
    + by destruct (Hfresh k').
    + by destruct (Hfresh k).
    + by apply Hj.
  - intros h fl. rewrite (view_heap s t Eh). apply Hf.
Qed.

(** What filesys_create() leaves when it succeeds. *)
Record linked (s t : fs) (I I' : gmap Z inode_disk) (dr : inode_disk) (nm : list Z) (size sec : Z) : Prop := {
  ln_name : nm <> [] /\ (length nm <= 14)%nat /\ sector_of (contents (disk s) dr) nm = None;
  ln_sector : I !! sec = None /\ 2 <= sec;
  ln_inode : exists d, I' = <[sec := d]> I /\ file_size d = size /\ contents (disk t) d = replicate (Z.to_nat size) 0;
  ln_names : forall nm', zero_free nm' -> sector_of (contents (disk t) dr) nm' =
    if decide (nm' = nm) then Some sec else sector_of (contents (disk s) dr) nm';
  ln_files : files_kept I s t }.

(** Why filesys_create() may fail. *)
Definition cannot_create (s : fs) (dr : inode_disk) (nm : list Z) (size : Z) : Prop :=
  nm = [] \/ (14 < length nm)%nat \/ is_Some (sector_of (contents (disk s) dr) nm) \/
  find_entry (fun e => negb (in_use e)) (contents (disk s) dr) 16 = None \/ no_room s (1 + bytes_to_sectors size).

(** A group of free sectors stays one if no other sectors are allocated. *)
Lemma group_mono s t k n : 0 <= k -> (forall j, 0 <= j -> bit (free_map t) j = true -> bit (free_map s) j = true) ->
  group (free_map s) k n false -> group (free_map t) k n false.
Proof. intros Hk Hb Hg j Hj. apply not_true_is_false. intros E. apply Hb in E; [|lia]. by rewrite (Hg j Hj) in E. Qed.

(** After the first free sector is taken, there is room in what follows. *)
Lemma no_room_after s t first n : 0 <= n -> 0 <= first ->
  (forall k, 0 <= k < first -> ~ group (free_map s) k 1 false) ->
  (forall j, 0 <= j -> bit (free_map t) j = marked (free_map s) first 1 j) -> capacity t = capacity s ->
  no_room t n -> no_room s (1 + n).
Proof.
  intros Hn Hf Hmin Hb Ec Hno k Hk Hle Hg.
  assert (first <= k).
  { destruct (Z.le_gt_cases first k); [done|]. destruct (Hmin k); [lia|]. intros j Hj. apply Hg. lia. }
  apply (Hno (k + 1)); [lia|lia|]. intros j Hj. rewrite Hb by lia. unfold marked.
  assert (E : in_range first 1 j = false) by (unfold in_range; lia). rewrite E. apply Hg. lia.
Qed.

(** The sector of an inode that could not be used goes back. *)
Lemma wp_give_back s I X sec (Q : unit -> fs -> Prop) : fs_inv s I X -> 0 <= sec < capacity s ->
  bit (free_map s) sec = true -> (forall k d, I !! k = Some d -> ~ owns k d sec) ->
  (forall t, fs_inv t I X -> heap t = heap s -> frame I s t -> Q tt t) -> wp (free_map_release sec 1) Q s.
Proof.
  intros Hi Hs Hb Hout HQ. destruct (fi_map _ _ _ Hi) as (d0 & H0 & Hm).
  assert (Hnr : forall k d j, I !! k = Some d -> owns k d j -> in_range sec 1 j = false).
  { intros k d j Hk Ho. apply not_true_is_false. intros E. apply (Hout k d Hk). unfold in_range in E.
    by replace sec with j by lia. }
  eapply (wp_free_map_release I d0 H0 s); [lia|lia|lia| |apply Hi|done|done|].
  - intros j Hj. by replace j with sec by lia.
  - intros t Hr Hsv. assert (Hcl : forall j, 0 <= j -> cleared (free_map s) sec 1 j = true -> bit (free_map s) j = true).
    { intros j _. unfold cleared. by destruct (in_range _ _ j). }
    assert (Ht : fs_inv t I X).
    { eapply fs_inv_remapped; [done..|]. intros k d j Hk Ho. unfold cleared. rewrite (Hnr k d j Hk Ho).
      by eapply (inv_mark _ _ (fi_disk _ _ _ Hi)). }
    apply HQ; [done|apply (remapped_same Hr)|]. eapply frame_remapped; [apply Hi|done..|]. intros _.
    destruct Hsv as [Hsv|Hx]; [left; apply recorded_saved; [apply Ht|apply Ht|done]|right; by eapply exhausted_no_memory].
Qed.

Lemma plenty_memory : ~ no_memory.
Proof using Plenty. intros (n & live & E). destruct (Plenty n live). congruence. Qed.

Lemma kept_handle I s t u v h : frame_at I h s t -> kept I t u -> frame_at I h u v -> view s h = None ->
  view v h = None -> kept I s v.
Proof.
  intros [? ? Hd1 Hv1 Hr1 _ ?] [? ? Hd2 Hv2 Hr2 ?] [? ? Hd3 Hv3 Hr3 _ ?] Hs Hv. split; try congruence; auto.
  - intros k d Hk Hne. rewrite (Hd3 k d Hk Hne), (Hd2 k d Hk Hne), (Hd1 k d Hk Hne). done.
  - intros q. destruct (decide (q = h)) as [->|Hne]; [congruence|]. rewrite Hv3, Hv2, Hv1 by done. done.
  - eapply steady_trans; [done|by eapply steady_trans|done].
Qed.

Lemma dir_inv_kept s t I I' dr : dir_inv s I dr -> kept I s t -> I ⊆ I' -> dir_inv t I' dr.
Proof.
  intros Hd [_ _ Hc Hv Hr _] Hs. eapply (dir_inv_same s t I I'); [done| |done| | |].
  - apply (Hc ROOT_DIR_SECTOR); [apply Hd|done].
  - intros h fl. rewrite Hv. eauto.
  - eapply lookup_weaken; [apply Hd|done].
  - intros k _ _ [d Hk]. exists d. by eapply lookup_weaken.
Qed.

Lemma fs_inv_drop s I X sec d : fs_inv s (<[sec := d]> I) X -> I !! sec = None -> sec <> FREE_MAP_SECTOR ->
  (forall p i, heap s !! p = Some (Inode i) -> sector i <> sec) -> fs_inv s I X.
Proof.
  intros [Hd Hh (d0 & H0 & Hm) Hr] Hn Hne Hopen. split.
  - eapply disk_inv_sub; [|exact Hd]. by apply insert_subseteq.
  - eapply heap_inv_sub; [|exact Hh]. intros p i Hp. pose proof (inv_data _ _ _ Hh _ _ Hp) as E.
    rewrite lookup_insert_ne in E; [done|]. by apply not_eq_sym, (Hopen p i).
  - exists d0. split; [|done]. by rewrite lookup_insert_ne in H0.
  - done.
Qed.

(** The rest of filesys_create() once it has failed. *)
Lemma wp_create_failed s t u I dr h (Q : bool -> fs -> Prop) : frame_at I h s t -> kept I t u -> view s h = None ->
  root_open t h -> fs_inv u I [] -> dir_inv u I dr ->
  (forall v, fs_inv v I [] -> dir_inv v I dr -> kept I s v -> Q false v) ->
  wp (dir_close h;; ret false) Q u.
Proof.
  intros Hft Hku Hv Ho Hu Hdu HQ. apply wp_bind.
  assert (Hou : root_open u h) by (destruct Ho as [d E]; exists d; by rewrite (kp_view _ _ _ Hku)).
  eapply wp_dir_close_root; [exact Hu|exact Hdu|exact Hou|]. intros v Hvv Hiv Hdv Hfv _. apply wp_ret, HQ; [done|done|].
  by eapply kept_handle.
Qed.

(** The rest of filesys_create() once it has written the entry. *)
Lemma wp_create_done s t v w I dr h d sec nm size j e (Q : bool -> fs -> Prop) :
  let C := contents (disk s) dr in let I' := <[sec := d]> I in
  dir_inv s I dr -> frame_at I h s t -> kept I t v -> view s h = None -> root_open t h -> I !! sec = None ->
  2 <= sec < 2 ^ 32 -> file_size d = size -> contents (disk v) d = replicate (Z.to_nat size) 0 ->
  dir_inv v I' dr -> contents (disk v) dr = C ->
  nm <> [] -> (length nm <= 14)%nat -> zero_free nm -> sector_of C nm = None -> (j < 16)%nat ->
  in_use (entry C j) = false -> length e = 20%nat -> fs_inv w I' [] ->
  (forall k, (k < 16)%nat -> in_use (entry C k) = true -> entry_sector (entry C k) <> sec) -> ~ removed_sector v sec ->
  rewritten I' ROOT_DIR_SECTOR (splice C (20 * j) (fill_entry sec nm e)) v w ->
  (forall I' sec t, linked s t I I' dr nm size sec -> fs_inv t I' [] -> dir_inv t I' dr -> Q true t) ->
  wp ((if negb true && negb (sec =? 0) then free_map_release sec 1 else ret tt);; dir_close h;; ret true) Q w.
Proof.
  intros C I' Hd Hft Hkv Hv Ho Hnone Hsec Esz Hzero Hdv ECv Hne Hlen Hz Hnew Hj Hfree He Hw Hfresh Hnr Hrw HQ.
  cbn [negb andb]. apply wp_bind, wp_ret, wp_bind. pose proof (rw_heap _ _ _ _ _ Hrw) as Ehw.
  destruct (dir_inv_add v w I' dr j nm sec e Hdv) as [Hdw Hnames]; rewrite ?ECv; try done.
  { exists d. apply lookup_insert_eq. }
  assert (Hvw : forall q, view w q = view v q) by (by apply view_heap).
  assert (How : root_open w h) by (destruct Ho as [d' E]; exists d'; by rewrite Hvw, (kp_view _ _ _ Hkv)).
  eapply wp_dir_close_root; [exact Hw|exact Hdw|exact How|]. intros x Hvx Hix Hdx Hfx _. apply wp_ret.
  assert (Hd2 : contents (disk x) d = contents (disk v) d).
  { rewrite (fa_data _ _ _ _ Hfx sec) by (apply lookup_insert_eq || unfold FREE_MAP_SECTOR; lia).
    apply (rw_other _ _ _ _ _ Hrw sec); [apply lookup_insert_eq|unfold ROOT_DIR_SECTOR; lia]. }
  apply (HQ I' sec); [|done|done]. split.
  - done.
  - split; [done|lia].
  - exists d. by rewrite Hd2.
  - intros nm' Hz'. rewrite (fa_data _ _ _ _ Hfx ROOT_DIR_SECTOR) by (apply Hdw || done). rewrite Hnames, ECv by done. done.
  - assert (Hlk : forall k dk, I !! k = Some dk -> I' !! k = Some dk).
    { intros k dk Hk. unfold I'. rewrite lookup_insert_ne by congruence. done. }
    split.
    + by rewrite (fa_cap _ _ _ _ Hfx), (rw_cap _ _ _ _ _ Hrw), (kp_cap _ _ _ Hkv), (fa_cap _ _ _ _ Hft).
    + intros k dk Hk H2. rewrite (fa_data _ _ _ _ Hfx k) by (auto || unfold FREE_MAP_SECTOR; lia).
      rewrite (rw_other _ _ _ _ _ Hrw k) by (auto || unfold ROOT_DIR_SECTOR; lia).
      rewrite (kp_data _ _ _ Hkv k) by (auto || unfold FREE_MAP_SECTOR; lia).
      apply (fa_data _ _ _ _ Hft k); [done|unfold FREE_MAP_SECTOR; lia].
    + intros q. destruct (decide (q = h)) as [->|Hqh]; [congruence|].
      by rewrite (fa_view _ _ _ _ Hfx), Hvw, (kp_view _ _ _ Hkv), (fa_view _ _ _ _ Hft).
    + assert (Hsub : I ⊆ I') by (by apply map_subseteq_spec).
      eapply (steady_trans I I _ t); [apply Hft| |done]. eapply (steady_trans I I _ v); [apply Hkv| |done].
      eapply (steady_trans I' I _ w); [by eapply rewritten_steady| |done]. eapply steady_weaken; [apply Hfx|done].
Qed.

(** No entry is for a sector that holds no inode. *)
Lemma dir_fresh s I dr sec : dir_inv s I dr -> I !! sec = None ->
  forall k, (k < 16)%nat -> in_use (entry (contents (disk s) dr) k) = true -> entry_sector (entry (contents (disk s) dr) k) <> sec.
Proof. intros Hd Hn k Hk Hu <-. destruct (di_sector _ _ _ Hd k Hk Hu) as (_ & [? E] & _). congruence. Qed.

Lemma wp_filesys_create s I dr nm size e (Q : bool -> fs -> Prop) : fs_inv s I [] -> dir_inv s I dr -> length e = 20%nat ->
  zero_free nm -> 0 <= size < 2 ^ 31 ->
  (forall t, cannot_create s dr nm size -> fs_inv t I [] -> dir_inv t I dr -> kept I s t -> Q false t) ->
  (forall I' sec t, linked s t I I' dr nm size sec -> fs_inv t I' [] -> dir_inv t I' dr -> Q true t) ->
  wp (filesys_create nm size e) Q s.
Proof using Plenty.
  intros Hi Hd He Hz Hsize H1 H2. unfold filesys_create. apply wp_bind. eapply wp_dir_open_root; [done|done|].
  intros h t Hh Ho Hv Ht Hdt Hft. rewrite (proj2 (Z.eqb_neq h NULL)) by (unfold NULL; lia). cbn [negb].
  assert (EC : contents (disk t) dr = contents (disk s) dr) by (apply (fa_data _ _ _ _ Hft ROOT_DIR_SECTOR); [apply Hd|done]).
  pose proof (fa_cap _ _ _ _ Hft) as Ecap. pose proof (bytes_to_sectors_nonneg size) as Hn0.
  assert (Hfail : forall u, cannot_create s dr nm size -> fs_inv u I [] -> kept I t u -> wp (dir_close h;; ret false) Q u).
  { intros u Hwhy Hu Hku. eapply (wp_create_failed s t u I dr h); try done; [by eapply dir_inv_kept|]. intros; by apply H1. }
  apply wp_bind, wp_bind. eapply wp_allocate; [lia|exact Ht| |].
  2:{ intros u Hwhy Hu _ Hfu _. apply wp_ret. cbn [negb andb Z.eqb]. apply wp_bind, wp_ret, Hfail; [|done|by apply frame_kept].
      do 4 right. destruct Hwhy as [Hm|Hno]; [by destruct plenty_memory|]. intros k Hk Hle Hg. apply (Hno k); [done|lia|].
      intros j Hj. eapply (group_mono s t); [exact Hk|apply (fa_bits _ _ _ _ Hft)|exact Hg|lia]. }
  intros sec u Hsec0 Hsecle Hg Hmin Hu Ehu Hku Hwu _ Hbu.
  assert (Hbs : bit (free_map t) sec = false) by (apply Hg; lia).
  assert (Hout : forall k d, I !! k = Some d -> ~ owns k d sec).
  { intros k d Hk Hown. rewrite (inv_mark _ _ (fi_disk _ _ _ Ht) _ _ _ Hk Hown) in Hbs. done. }
  assert (Hnone : I !! sec = None).
  { destruct (I !! sec) as [d|] eqn:E; [|done]. destruct (Hout _ _ E). by left. }
  assert (Hsec2 : 2 <= sec).
  { destruct (fi_map _ _ _ Ht) as (d0 & H0 & _). pose proof (di_root _ _ _ Hdt) as Hroot.
    assert (sec <> FREE_MAP_SECTOR) by congruence. assert (sec <> ROOT_DIR_SECTOR) by congruence.
    unfold FREE_MAP_SECTOR, ROOT_DIR_SECTOR in *. lia. }
  pose proof (kp_cap _ _ _ Hku) as Ecu. pose proof (inv_cap _ _ (fi_disk _ _ _ Ht)) as Hcap.
  assert (Hbsu : bit (free_map u) sec = true).
  { rewrite Hbu by lia. unfold marked, in_range. replace ((sec <=? sec) && (sec <? sec + 1)) with true by lia. done. }
  assert (Hopen : forall p i, heap u !! p = Some (Inode i) -> sector i <> sec).
  { intros p i Hp E. pose proof (inv_data _ _ _ (fi_heap _ _ _ Hu) _ _ Hp). congruence. }
  (* failure after the sector is allocated *)
  assert (Hback : forall v, cannot_create s dr nm size -> fs_inv v I [] -> kept I t v -> bit (free_map v) sec = true ->
    wp ((if negb false && negb (sec =? 0) then free_map_release sec 1 else ret tt);; dir_close h;; ret false) Q v).
  { intros v Hwhy Hvi Hkv Hbv. rewrite (proj2 (Z.eqb_neq sec 0)) by lia. cbn [negb andb]. apply wp_bind.
    eapply wp_give_back; [exact Hvi|rewrite (kp_cap _ _ _ Hkv); lia|exact Hbv|exact Hout|]. intros w Hw _ Hfw.
    apply Hfail; [done|done|]. eapply fs_kept_trans; [exact Hkv|by apply frame_kept|done]. }
  apply wp_bind. eapply wp_inode_create; [exact Hu|lia|rewrite Ecu; lia|exact Hbsu|exact Hout| |].
  2:{ intros v Hwhy Hvi _ Hfv Hnr. apply wp_ret, Hback; [|done|eapply fs_kept_trans; [exact Hku|by apply frame_kept|done]|].
      - do 4 right. destruct Hwhy as [Hm|Hno]; [by destruct plenty_memory|].
        assert (Hnt : no_room t (1 + bytes_to_sectors size)) by (by eapply no_room_after).
        intros k Hk Hle Hgk. apply (Hnt k); [done|lia|]. eapply group_mono; [done|apply (fa_bits _ _ _ _ Hft)|done].
      - apply Hnr; [lia|done]. }
  intros d v Hvi [Esz Hkv Ehv Hnr _ Hz0]. set (I' := <[sec := d]> I) in *.
  assert (Hsub : I ⊆ I') by (by apply insert_subseteq).
  assert (Hdv : dir_inv v I' dr).
  { eapply (dir_inv_kept u v I I'); [|done|done]. by eapply dir_inv_kept. }
  assert (Hktv : kept I t v) by (by eapply fs_kept_trans).
  assert (ECv : contents (disk v) dr = contents (disk s) dr).
  { rewrite (kp_data _ _ _ Hktv ROOT_DIR_SECTOR), EC by (done || apply Hd). done. }
  assert (Hov : root_open v h) by (destruct Ho as [d' E]; exists d'; by rewrite (kp_view _ _ _ Hktv)).
  destruct (root_open_dir _ _ _ _ _ Hvi Hdv Hov) as (dv & iv & Hodv & Hsv & _).
  cbn [negb]. apply wp_bind. eapply (wp_dir_add Plenty v I' [] dr); [exact Hvi|exact Hdv|exact Hodv|exact Hsv|done| |]; rewrite ECv.
  - intros w Hw Hfw Ehw Emw Hwhy. apply wp_ret, Hback.
    + destruct Hwhy as [?|[?|[?|?]]]; [by left|right; by left|right; right; by left|do 3 right; by left].
    + eapply fs_inv_drop; [exact Hw|done|unfold FREE_MAP_SECTOR; lia|]. intros p i Hp. rewrite Ehw, Ehv in Hp. by eapply Hopen.
    + eapply fs_kept_trans; [exact Hktv| |done]. destruct Hfw as [? ? Hdw ? ? ? ?]. split; try done.
      * intros k d' Hk Hne. apply (Hdw k); [by eapply lookup_weaken|done].
      * by eapply steady_weaken.
    + rewrite Emw. apply Hnr; [lia|done].
  - intros w j e' Hw Hne Hlen Hnew Hj Hfree He' Hrw. apply wp_ret.
    eapply (wp_create_done s t v w I dr h d sec nm size j e'); try done; try lia.
    + by eapply dir_fresh.
    + intros (p & i & Hp & _ & E). rewrite Ehv in Hp. by apply (Hopen p i).
Qed.
End Top.
