(* ===== verification/FsInit.v ===== *)
(** * Formatting and mounting

    filesys_init(): the free map's file is opened, and its contents are the
    free map; a formatted file system has an empty root directory. *)

From Stdlib Require Import ZArith Lia.
From stdpp Require Import base numbers gmap list.
From S2P Require Import Prelude Bitmap FsBase Inode Directory FsData FsInv FsWp FsHandle FsFile FsDir FsTop.

Open Scope Z_scope.

Section Init.
Context `{!Memory} (Plenty : forall n live, is_Some (place n live)).

(** ** Opening the free map's file *)

(** No inode is open. *)
Definition none_open (s : fs) : Prop :=
  open_inodes s = [] /\ forall p o, heap s !! p = Some o -> o = Block /\ 0 < p.

Lemma none_open_view s h : none_open s -> view s h = None.
Proof.
  intros [_ Hno]. unfold view. destruct (heap s !! h) as [o|] eqn:E; [|done]. by apply Hno in E as [-> _].
Qed.

Lemma none_open_heap s I : none_open s -> heap_inv s I [].
Proof.
  intros [Hl Hh].
  assert (Hno : forall p i, heap s !! p <> Some (Inode i)) by (intros p i E; destruct (Hh _ _ E); done).
  split; rewrite ?Hl.
  - apply NoDup_nil_2.
  - intros p. rewrite elem_of_nil. split; [done|]. intros [i E]. by destruct (Hno p i).
  - intros p o E. by apply (Hh p o).
  - intros p i E. by destruct (Hno p i).
  - intros p i E. by destruct (Hno p i).
  - intros p i E. by destruct (Hno p i).
  - intros p i E. by destruct (Hno p i).
  - intros p q i j E. by destruct (Hno p i).
  - intros q o p E Hr. destruct (Hh _ _ E) as [-> _]. done.
  - intros p Hp. by apply elem_of_nil in Hp.
Qed.

(** [file_open (inode_open (FREE_MAP_SECTOR))], assigned to [free_map_file].
    [b0] is the free map that the disk agrees with. *)
Lemma wp_open_map s b0 I d0 {A} (k : Z -> M fs A) (Q : A -> fs -> Prop) : disk_inv (set_free_map b0 s) I -> none_open s ->
  I !! FREE_MAP_SECTOR = Some d0 -> file_size d0 = byte_cnt (capacity s) ->
  (forall f t, fs_inv (set_free_map b0 t) I [] -> 0 < f -> free_map_file t = f -> disk t = disk s -> free_map t = free_map s ->
     capacity t = capacity s -> (forall h o, view t h = Some o -> h = f /\ o.2 = FREE_MAP_SECTOR) ->
     (forall k, ~ removed_sector t k) -> wp (k f) Q t) ->
  wp (p ← inode_open FREE_MAP_SECTOR; file ← file_open p; modify (set_free_map_file file);; k file) Q s.
Proof using Plenty.
  intros Hd Hn H0 Hsz HQ. pose proof (none_open_heap s I Hn) as Hh. destruct Hn as [Hl Hb].
  destruct (inv_inode _ _ Hd _ _ H0) as (Hk & [He1 He2 He3] & Hsd). pose proof (inv_cap _ _ Hd) as Hcap.
  cbn [capacity disk set_free_map] in *.
  pose proof (inv_magic _ _ Hd _ _ H0) as Hmag.
  apply wp_bind. unfold inode_open. apply wp_bind, wp_get, wp_bind. rewrite Hl. cbn [find_open]. apply wp_ret.
  apply wp_bind, wp_malloc; [|intros Hx; by destruct (not_exhausted Plenty s)].
  intros p _ Hp0 Hpn. rewrite (proj2 (Z.eqb_neq p NULL)) by (unfold NULL; lia). apply wp_bind, wp_modify, wp_bind.
  eapply wp_disk_read; [cbn; lia|exact Hsd|]. apply wp_bind. eapply wp_store; [cbn; apply lookup_insert_eq|]. apply wp_ret.
  assert (Edec : decode_inode (encode_inode d0) = d0).
  { apply decode_encode; [|unfold in_s; lia|rewrite Hmag; unfold in_u, INODE_MAGIC; lia].
    assert (0 <= sectors_of (file_size d0)) by (apply Z.div_pos; lia). unfold in_u. lia. }
  rewrite Edec. set (i := mk_inode FREE_MAP_SECTOR 1 false 0 d0).
  set (s1 := set_heap (<[p := Block]> (heap s)) (set_requests (S (requests s)) s)).
  assert (Hh1 : heap_inv s1 I []) by (by apply heap_inv_alloc).
  assert (Hp1 : heap s1 !! p = Some Block) by apply lookup_insert_eq.
  set (s2 := set_open_inodes (p :: open_inodes s1) (set_heap (<[p := Inode i]> (heap s1)) s1)).
  assert (Hh2 : heap_inv s2 I [p]).
  { apply heap_inv_new; try done. intros q j Hq. cbn in Hq.
    destruct (decide (q = p)) as [->|]; [by rewrite lookup_insert_eq in Hq|]. rewrite lookup_insert_ne in Hq by done.
    by destruct (Hb _ _ Hq). }
  change (set_heap _ (set_open_inodes _ _)) with s2.
  assert (Hp2 : heap s2 !! p = Some (Inode i)) by apply lookup_insert_eq.
  apply wp_bind. unfold file_open. apply wp_bind, wp_malloc; [|intros Hx; by destruct (not_exhausted Plenty s2)].
  intros f _ Hf0 Hfn. rewrite (proj2 (Z.eqb_neq p NULL)), (proj2 (Z.eqb_neq f NULL)) by (unfold NULL; lia). cbn [negb andb].
  apply wp_bind. eapply wp_store; [cbn; apply lookup_insert_eq|]. apply wp_ret, wp_bind, wp_modify.
  set (s3 := set_heap (<[f := Block]> (heap s2)) (set_requests (S (requests s2)) s2)).
  assert (Hh3 : heap_inv s3 I [p]) by (by apply heap_inv_alloc).
  assert (Hf3 : heap s3 !! f = Some Block) by apply lookup_insert_eq.
  set (o := File (mk_file p 0 false)).
  assert (Hh4 : heap_inv (set_heap (<[f := o]> (heap s3)) s3) I []).
  { eapply (heap_inv_obj s3 I [p] [] f Block o); try done.
    - intros q. rewrite pending_cons. cbn. case_bool_decide; destruct (Z.eqb_spec p q); done.
    - intros q. cbn. by rewrite andb_false_r. }
  set (t := set_free_map_file f (set_heap (<[f := o]> (heap s3)) s3)).
  assert (Hft : heap t !! f = Some o) by apply lookup_insert_eq.
  assert (Hnef : p <> f) by congruence.
  assert (Hpt : heap t !! p = Some (Inode i)).
  { cbn [heap t set_free_map_file set_heap s3 set_requests]. by rewrite !lookup_insert_ne. }
  assert (Hrest : forall q o', heap t !! q = Some o' -> q <> p -> q <> f -> o' = Block).
  { intros q o' Hq Hqp Hqf. cbn [heap t set_free_map_file set_heap s3 s2 s1 set_open_inodes set_requests] in Hq.
    rewrite !lookup_insert_ne in Hq by done. by destruct (Hb _ _ Hq). }
  assert (Hrem : forall k', ~ removed_sector t k').
  { intros k' (q & j & Hq & Hr & _). destruct (decide (q = p)) as [->|]; [rewrite Hpt in Hq; by injection Hq as <-|].
    destruct (decide (q = f)) as [->|]; [by rewrite Hft in Hq|].
    pose proof (Hrest q _ Hq ltac:(done) ltac:(done)). done. }
  change (set_free_map_file f _) with t. apply HQ; try done.
  - split; [destruct Hd; by split|eapply heap_inv_fields; [| |exact Hh4]; done| |].
    + exists d0. split; [done|]. split; [done|]. exists (mk_file p 0 false), i. split_and!; try done.
    + intros k' Hr. by destruct (Hrem k').
  - intros h v Hv. unfold view in Hv. destruct (decide (h = f)) as [->|Hhf].
    + rewrite Hft in Hv. unfold o in Hv. cbn [file_inode] in Hv. rewrite Hpt in Hv. by injection Hv as <-.
    + destruct (decide (h = p)) as [->|]; [by rewrite Hpt in Hv|].
      destruct (heap t !! h) as [[]|] eqn:E; try done; by pose proof (Hrest h _ E ltac:(done) ltac:(done)).
Qed.

(** ** Reading the free map *)

Lemma le32s_app ws ws' : le32s (ws ++ ws') = le32s ws ++ le32s ws'.
Proof. unfold le32s. by rewrite fmap_app, join_app. Qed.

Lemma take_le32s n ws : take (4 * n) (le32s ws) = le32s (take n ws).
Proof.
  rewrite <- (take_drop n ws) at 1. rewrite le32s_app. destruct (decide (n <= length ws)%nat) as [Hn|Hn].
  - rewrite take_app_length'; [done|]. rewrite length_le32s, length_take. lia.
  - rewrite drop_ge by lia. rewrite app_nil_r, take_ge; [done|]. rewrite length_le32s, length_take. lia.
Qed.

Lemma drop_le32s n ws : drop (4 * n) (le32s ws) = le32s (drop n ws).
Proof.
  rewrite <- (take_drop n ws) at 1. rewrite le32s_app. destruct (decide (n <= length ws)%nat) as [Hn|Hn].
  - rewrite drop_app_length'; [done|]. rewrite length_le32s, length_take. lia.
  - rewrite (drop_ge ws) by lia. rewrite app_nil_r, drop_ge; [done|]. rewrite length_le32s, length_take. lia.
Qed.

(** The words of an array whose first words are replaced by those of another. *)
Lemma words_splice ws ws' n : Forall (in_u 32) ws -> Forall (in_u 32) ws' -> (n <= length ws)%nat -> (n <= length ws')%nat ->
  words (length ws') (splice (le32s ws') 0 (take (4 * n) (le32s ws))) = take n ws ++ drop n ws'.
Proof.
  intros Hw Hw' Hn Hn'. rewrite take_le32s. unfold splice. rewrite take_0, app_nil_l, Nat.add_0_l.
  rewrite length_le32s, length_take, Nat.min_l, drop_le32s by done. rewrite <- le32s_app.
  rewrite <- (app_nil_r (le32s (_ ++ _))). replace (length ws') with (length (take n ws ++ drop n ws')).
  - apply words_le32s. apply Forall_app. split; [by apply Forall_take|by apply Forall_drop].
  - rewrite length_app, length_take, length_drop. lia.
Qed.

Lemma last_mask_bit b i : wf b -> 0 <= i < bit_cnt b -> i / 32 = elem_cnt (bit_cnt b) - 1 ->
  Z.testbit (last_mask b) (i mod 32) = true.
Proof.
  intros [Hc _ _] Hi E. rewrite elem_cnt_ok in E by done. unfold last_mask, ELEM_BITS.
  pose proof (Z.mod_pos_bound i 32). destruct (Z.eqb_spec (bit_cnt b mod 32) 0) as [E0|E0].
  - change (u32 (-1)) with (Z.ones 32). rewrite Z.ones_spec_low by lia. done.
  - pose proof (Z.mod_pos_bound (bit_cnt b) 32 ltac:(lia)) as Hm. rewrite Z.shiftl_1_l.
    assert (Hp : 0 < 2 ^ (bit_cnt b mod 32) < 2 ^ 32) by (split; [apply Z.pow_pos_nonneg; lia|apply Z.pow_lt_mono_r; lia]).
    rewrite (uwrap_small 32 (2 ^ _)), uwrap_small by (unfold in_u; lia).
    replace (2 ^ (bit_cnt b mod 32) - 1) with (Z.ones (bit_cnt b mod 32)) by (rewrite Z.ones_equiv; lia).
    rewrite Z.ones_spec_low; [done|]. split; [lia|]. revert E. Z.div_mod_to_equations. lia.
Qed.

(** The bitmap after it has been read from a file that holds [b0]. *)
Lemma read_map b b0 : wf b -> wf b0 -> bit_cnt b0 = bit_cnt b -> 0 < bit_cnt b ->
  let b1 := mk_bitmap (bit_cnt b) (words (length (bits b))
    (splice (le32s (bits b)) 0 (take (Z.to_nat (byte_cnt (bit_cnt b))) (le32s (bits b0))))) in
  exists b', update_elem (fun e => Z.land e (last_mask b)) (elem_cnt (bit_cnt b) - 1) b1 = Ok (tt, b') /\
    wf b' /\ bit_cnt b' = bit_cnt b /\ forall i, 0 <= i < bit_cnt b -> bit b' i = bit b0 i.
Proof.
  intros Hw Hw0 Ec Hpos b1. pose proof Hw as [Hc Hl Hwd]. pose proof Hw0 as [_ Hl0 Hwd0]. rewrite Ec in Hl0.
  set (E := elem_cnt (bit_cnt b)) in *.
  assert (HE : 0 < E) by (unfold E; rewrite elem_cnt_ok by done; Z.div_mod_to_equations; lia).
  assert (Eb : Z.to_nat (byte_cnt (bit_cnt b)) = (4 * Z.to_nat E)%nat) by (rewrite byte_cnt_ok by done; fold E; lia).
  assert (E1 : bits b1 = take (Z.to_nat E) (bits b0) ++ drop (Z.to_nat E) (bits b)).
  { unfold b1. cbn [bits]. rewrite Eb. apply words_splice; try done; lia. }
  assert (Hlen : length (bits b1) = length (bits b)) by (rewrite E1, length_app, length_take, length_drop; lia).
  assert (Hlk : forall k, (k < Z.to_nat E)%nat -> bits b1 !! k = bits b0 !! k).
  { intros k Hk. rewrite E1, lookup_app_l by (rewrite length_take; lia). by apply lookup_take_lt. }
  destruct (lookup_lt_is_Some_2 (bits b0) (Z.to_nat (E - 1))) as [x Hx]; [lia|].
  unfold update_elem, bind, get, of_option. rewrite (Hlk (Z.to_nat (E - 1))), Hx by lia. cbn [ret put].
  eexists. split; [done|]. split_and!; cbn [bit_cnt bits].
  - split; cbn [bit_cnt bits]; [done|rewrite length_insert, Hlen; done|]. apply Forall_insert; [|apply uwrap_range; lia].
    rewrite E1. apply Forall_app. split; [by apply Forall_take|by apply Forall_drop].
  - done.
  - intros i Hi. unfold bit. cbn [bits].
    assert (Hd : 0 <= i / 32 < E) by (unfold E; rewrite elem_cnt_ok by done; revert Hi; Z.div_mod_to_equations; lia).
    destruct (decide (i / 32 = E - 1)) as [Ei|Ei].
    + rewrite Ei, list_lookup_insert_eq, Hx by lia. cbn [default id]. pose proof (Z.mod_pos_bound i 32).
      rewrite u32_testbit, Z.land_spec, last_mask_bit by (done || lia). apply andb_true_r.
    + rewrite list_lookup_insert_ne, Hlk by lia. done.
Qed.

(** The free map may change where no file lies. *)
Lemma fs_inv_map s b b' I X : fs_inv (set_free_map b s) I X -> wf b' -> bit_cnt b' = capacity s ->
  (forall j, 0 <= j < capacity s -> bit b' j = bit b j) -> fs_inv (set_free_map b' s) I X.
Proof.
  intros [[Hc Hs Hm Hb Hi Hk Ha Hself Hmg] [] Hmr Hr] Hw Ec Hbits.
  split; [|by split|done|done]. split; try done. intros k d j Hkd Ho. cbn [free_map set_free_map]. rewrite Hbits.
  - by eapply Hk.
  - destruct (Hi k d Hkd) as (Hkr & [? Hsz ?] & _). cbn in *. destruct Ho as [->|[? ?]]; lia.
Qed.

Lemma wp_bitmap_read t b0 I d0 f (Q : bool -> fs -> Prop) : fs_inv (set_free_map b0 t) I [] -> I !! FREE_MAP_SECTOR = Some d0 ->
  free_map_file t = f -> saved d0 (set_free_map b0 t) -> wf (free_map t) -> bit_cnt (free_map t) = capacity t ->
  (forall b' n, wf b' -> bit_cnt b' = capacity t -> (forall j, 0 <= j < capacity t -> bit b' j = bit b0 j) ->
     Q true (set_free_map b' (set_requests n t))) ->
  wp (bitmap_read f) Q t.
Proof using Plenty.
  intros Hi H0 <- Hs Hw Hbc HQ. pose proof (inv_map _ _ (fi_disk _ _ _ Hi)) as Hw0. pose proof (inv_map_cnt _ _ (fi_disk _ _ _ Hi)) as Hbc0.
  pose proof (inv_cap _ _ (fi_disk _ _ _ Hi)) as Hcap. cbn [free_map set_free_map capacity] in Hw0, Hbc0, Hcap.
  destruct (fi_map _ _ _ Hi) as (d & H0' & Hp0 & fl & i & Hf & _ & Hp & Hpi & _ & _ & _ & Ed & Hsz).
  assert (d = d0) as -> by congruence. cbn [heap set_free_map free_map_file capacity] in *.
  pose proof (inv_readable _ _ _ _ _ (fi_disk _ _ _ Hi) (fi_heap _ _ _ Hi) Hpi) as [R1 R2 R3 R4 R5].
  unfold bitmap_read. apply wp_bind, wp_gets. rewrite Hbc, (proj2 (Z.ltb_lt 0 (capacity t))) by lia.
  unfold file_read_at. apply wp_bind, wp_bind. eapply wp_get_file; [exact Hf|].
  pose proof (byte_cnt_range (capacity t) ltac:(lia)) as [Hbr _].
  eapply (wp_inode_read_at t); [split; done|lia|lia|]. intros r u Ha (k & -> & [->|[Hx _]]); [|by destruct (not_exhausted Plenty t)].
  rewrite Ed. change (Z.to_nat 0) with 0%nat. rewrite drop_0, take_ge by (rewrite length_contents; lia).
  unfold saved in Hs. cbn [disk set_free_map capacity free_map] in Hs. rewrite Hs.
  assert (Hlen : length (take (Z.to_nat (byte_cnt (capacity t))) (le32s (bits b0))) = Z.to_nat (byte_cnt (capacity t))).
  { pose proof (byte_cnt_bits b0 Hw0). rewrite Hbc0 in *. rewrite length_take. lia. }
  apply wp_bind, wp_modify, wp_bind.
  destruct (read_map (free_map t) b0) as (b' & E & Hw' & Hc' & Hb'); [done|done|congruence|lia|]. rewrite Hbc in E, Hc', Hb'.
  eapply wp_on_map; [exact E|]. apply wp_ret. rewrite Hlen, Z2Nat.id, Z.eqb_refl by lia.
  assert (exists n, u = set_requests n t) as [n ->] by (destruct Ha as [-> | ->]; [exists (requests t); by destruct t|by eexists]).
  by apply HQ.
Qed.

(** What is known once the file system is mounted. *)
Record mounted (s t : fs) (b0 : bitmap) (I : gmap Z inode_disk) : Prop := {
  mt_inv : fs_inv t I [];
  mt_disk : disk t = disk s;
  mt_cap : capacity t = capacity s;
  mt_bits : forall j, 0 <= j < capacity s -> bit (free_map t) j = bit b0 j;
  mt_view : forall h o, view t h = Some o -> h = free_map_file t /\ o.2 = FREE_MAP_SECTOR;
  mt_removed : forall k, ~ removed_sector t k;
  mt_recorded : forall d0, I !! FREE_MAP_SECTOR = Some d0 -> recorded d0 t }.

Lemma wp_free_map_open s b0 I d0 (Q : unit -> fs -> Prop) : disk_inv (set_free_map b0 s) I -> none_open s ->
  I !! FREE_MAP_SECTOR = Some d0 -> file_size d0 = byte_cnt (capacity s) -> saved d0 (set_free_map b0 s) ->
  wf (free_map s) -> bit_cnt (free_map s) = capacity s ->
  (forall t, mounted s t b0 I -> Q tt t) -> wp free_map_open Q s.
Proof using Plenty.
  intros Hd Hn H0 Hsz Hs Hw Hbc HQ. unfold free_map_open. eapply wp_open_map; [done..|].
  intros f t Hi Hf Ef Edk Em Ec Hv Hr. rewrite (proj2 (Z.eqb_neq f NULL)) by (unfold NULL; lia). apply wp_bind.
  eapply (wp_bitmap_read t b0 I d0); [done|done|done| |by rewrite Em|by rewrite Em, Ec|].
  { unfold saved in *. cbn [disk set_free_map capacity free_map] in *. by rewrite Edk, Ec. }
  intros b' n Hw' Hc' Hb'. cbn [negb]. apply wp_ret, HQ. split; cbn [disk capacity set_free_map set_requests]; try done.
  - apply (fs_inv_map (set_requests n t) b0 b'); [|done|done|done].
    apply (fs_inv_requests (set_free_map b0 t)). done.
  - intros j Hj. apply Hb'. lia.
  - intros h o Ho. change (h = free_map_file t /\ o.2 = FREE_MAP_SECTOR). rewrite Ef. by apply Hv.
  - intros e He. assert (e = d0) as -> by congruence. exists b0. cbn [capacity set_free_map set_requests free_map].
    assert (Hd0 : wf b0 /\ bit_cnt b0 = capacity s) by (split; apply Hd). rewrite Ec. split; [apply Hd0|]. split; [apply Hd0|].
    split; [|unfold saved in *; cbn [disk capacity free_map set_free_map set_requests] in *; by rewrite Edk, Ec].
    intros j Hj. symmetry. apply Hb'. lia.
Qed.

(** ** The free map in memory *)

(** Blocks that are allocated and kept, or freed again. *)
Lemma none_open_alloc s p n : none_open s -> 0 < p -> none_open (set_heap (<[p := Block]> (heap s)) (set_requests n s)).
Proof.
  intros [Hl Hh] Hp. split; [done|]. intros q o. cbn. destruct (decide (q = p)) as [->|].
  - rewrite lookup_insert_eq. by intros [= <-].
  - rewrite lookup_insert_ne by done. apply Hh.
Qed.

(** Only the sectors of the two inodes are marked. *)
Definition initial_map (cap : Z) (b : bitmap) : Prop :=
  wf b /\ bit_cnt b = cap /\ forall j, 0 <= j < cap -> bit b j = (j <? 2).

Lemma wp_free_map_init s (Q : unit -> fs -> Prop) : none_open s -> 2 <= capacity s <= 2 ^ 28 ->
  (forall t, none_open t -> initial_map (capacity s) (free_map t) -> disk t = disk s -> capacity t = capacity s ->
     free_map_file t = free_map_file s -> Q tt t) ->
  wp free_map_init Q s.
Proof using Plenty.
  intros Hn Hcap HQ. unfold free_map_init. apply wp_bind, wp_get. apply wp_bind, wp_malloc.
  2:{ intros Hx. by destruct (not_exhausted Plenty s). }
  intros p _ Hp _. apply wp_bind, wp_malloc.
  2:{ intros Hx. by destruct (not_exhausted Plenty (set_heap (<[p := Block]> (heap s)) (set_requests (S (requests s)) s))). }
  intros q _ Hq _. rewrite (proj2 (Z.eqb_neq p NULL)), (proj2 (Z.eqb_neq q NULL)) by (unfold NULL; lia). cbn [orb].
  set (s2 := set_heap _ (set_requests _ (set_heap _ _))).
  assert (Hn2 : none_open s2) by (apply none_open_alloc; [by apply none_open_alloc|done]).
  destruct (bitmap_create_ok (fun size => Some (garbage size)) (capacity s)) as [(b & E & Hw & Hc & Hg & _)|[_ [?|?]]]; try done.
  - lia.
  - intros size blk [= <-]. split; [apply garbage_size|apply garbage_words].
  - rewrite E. apply wp_bind, wp_modify.
    destruct (bitmap_mark_ok b Hw 0) as (b1 & E1 & Hw1 & Hc1 & _ & Hb1); [lia|apply wf_index; [done|lia]|].
    destruct (bitmap_mark_ok b1 Hw1 1) as (b2 & E2 & Hw2 & Hc2 & _ & Hb2); [lia|apply wf_index; [done|lia]|].
    apply wp_bind. eapply wp_on_map; [exact E1|]. eapply wp_on_map; [exact E2|]. apply HQ; try done.
    split_and!; [done|cbn; congruence|]. intros j Hj. cbn [free_map set_free_map]. rewrite Hb2, Hb1, Hg by lia.
    destruct (Z.eqb_spec j 1), (Z.eqb_spec j 0), (Z.ltb_spec j 2); try done; lia.
Qed.

(** ** The first inode *)

Lemma disk_inv_empty s : 2 <= capacity s <= 2 ^ 28 -> sectors_ok (capacity s) (disk s) -> wf (free_map s) ->
  bit_cnt (free_map s) = capacity s -> disk_inv s ∅.
Proof. intros. split; try done; intros *; by rewrite lookup_empty. Qed.

(** inode_create() for the free map's own file, which is not open yet. *)
Lemma wp_create_first s len (Q : bool -> fs -> Prop) : none_open s -> 2 <= capacity s <= 2 ^ 28 ->
  sectors_ok (capacity s) (disk s) -> initial_map (capacity s) (free_map s) -> free_map_file s = NULL ->
  0 < len <= 2 ^ 31 - 512 -> 2 + sectors_of len <= capacity s ->
  (forall first t, let d := mk_inode_disk first len INODE_MAGIC in
     none_open t -> disk_inv t {[ FREE_MAP_SECTOR := d ]} -> capacity t = capacity s -> free_map_file t = NULL ->
     2 <= first -> (forall j, 0 <= j < capacity s -> bit (free_map t) j = (j <? 2) || in_range first (sectors_of len) j) ->
     Q true t) ->
  wp (inode_create FREE_MAP_SECTOR len) Q s.
Proof using Plenty.
  intros Hn Hcap Hs (Hw & Hc & Hb) Hf Hlen Hroom HQ. unfold inode_create. apply wp_bind, wp_assertb; [apply Z.leb_le; lia|].
  apply wp_bind, wp_malloc; [|intros Hx; by destruct (not_exhausted Plenty s)].
  intros p _ Hp Hpn. rewrite (proj2 (Z.eqb_neq p NULL)) by (unfold NULL; lia). rewrite bytes_to_sectors_ok by lia.
  set (n := sectors_of len) in *. assert (Hn1 : 1 <= n) by (unfold n, sectors_of; Z.div_mod_to_equations; lia).
  apply wp_bind. unfold free_map_allocate. apply wp_bind.
  destruct (scan_and_flip_ok (free_map s) 0 n false Hw) as (r & b & E & [(Hne & Hr0 & Hr1 & Hg & _ & Hwb & Hcb & _ & Hbb)|(_ & _ & Hnone)]); [lia|lia| |].
  2:{ destruct (Hnone 2); [lia|lia|]. intros j Hj. rewrite Hb by lia. apply Z.ltb_ge. lia. }
  cbn [negb] in Hbb. assert (Hr2 : 2 <= r).
  { destruct (Z.le_gt_cases 2 r); [done|]. assert (bit (free_map s) r = false) as Ef by (apply Hg; lia).
    rewrite Hb in Ef by lia. apply Z.ltb_ge in Ef. lia. }
  eapply wp_on_map; [exact E|]. apply wp_bind, wp_get. cbn [free_map_file set_free_map set_heap set_requests]. rewrite Hf, Z.eqb_refl.
  cbn [negb]. rewrite andb_false_r. apply wp_bind, wp_ret, wp_ret. rewrite (proj2 (Z.eqb_neq r BITMAP_ERROR)) by done. cbn [negb].
  set (d := mk_inode_disk r len INODE_MAGIC). apply wp_bind, wp_bind, wp_disk_write; [cbn; unfold FREE_MAP_SECTOR; lia|].
  apply wp_bind. cbn [disk set_free_map set_heap set_requests].
  eapply (wp_fill _ (disk s) FREE_MAP_SECTOR (encode_inode d)); [lia|lia|cbn; lia|unfold FREE_MAP_SECTOR; lia| |].
  { intros k. cbn [disk set_disk]. destruct (decide (k = FREE_MAP_SECTOR)) as [->|]; [by rewrite lookup_insert_eq|].
    rewrite lookup_insert_ne, decide_False by lia. done. }
  intros D HD. apply wp_ret, wp_bind. eapply wp_free; [done|cbn; apply lookup_insert_eq|]. apply wp_ret.
  cbn [heap set_disk set_free_map set_heap set_requests]. rewrite delete_insert_id by done.
  set (s1 := set_free_map b s). set (m := S (requests s)).
  assert (Hbits : forall j, 0 <= j < capacity s -> bit b j = (j <? 2) || in_range r n j).
  { intros j Hj. rewrite Hbb by lia. destruct (in_range r n j) eqn:Ei; [by rewrite orb_true_r|]. by rewrite orb_false_r, Hb. }
  assert (Hd1 : disk_inv (set_disk D s1) (<[FREE_MAP_SECTOR := d]> ∅)).
  { apply disk_inv_create; try done; [by apply disk_inv_empty; cbn; try congruence|unfold FREE_MAP_SECTOR; cbn; lia|..].
    - split; cbn [start file_size d]; [lia|lia|fold n; cbn; lia].
    - intros j Hj. cbn [free_map s1 set_free_map]. destruct Hj as [->|[Hj1 Hj2]].
      + rewrite Hbits by (unfold FREE_MAP_SECTOR; lia). done.
      + cbn in Hj1, Hj2. fold n in Hj2. rewrite Hbits by lia. unfold in_range. lia.
    - unfold data_sector, FREE_MAP_SECTOR. cbn. lia. }
  apply (HQ r (set_heap (heap s) (set_disk D (set_requests m s1)))); try done.
  destruct Hd1. by split.
Qed.

(** ** Formatting *)

(** free_map_create() during formatting. *)
Lemma wp_free_map_create s (Q : unit -> fs -> Prop) : none_open s -> 2 <= capacity s <= 2 ^ 28 ->
  sectors_ok (capacity s) (disk s) -> initial_map (capacity s) (free_map s) -> free_map_file s = NULL ->
  2 + sectors_of (byte_cnt (capacity s)) <= capacity s ->
  (forall first t, let len := byte_cnt (capacity s) in let d := mk_inode_disk first len INODE_MAGIC in
     fs_inv t {[ FREE_MAP_SECTOR := d ]} [] -> capacity t = capacity s -> 2 <= first ->
     (forall h o, view t h = Some o -> h = free_map_file t /\ o.2 = FREE_MAP_SECTOR) -> (forall k, ~ removed_sector t k) ->
     (forall j, 0 <= j < capacity s -> bit (free_map t) j = (j <? 2) || in_range first (sectors_of len) j) -> Q tt t) ->
  wp free_map_create Q s.
Proof using Plenty.
  intros Hn Hcap Hs Hm Hf Hroom HQ. pose proof (byte_cnt_range (capacity s) ltac:(lia)) as [Hbc Hbp].
  unfold free_map_create. apply wp_bind, wp_gets, wp_bind. unfold bitmap_file_size. destruct Hm as (Hw & Hc & Hb). rewrite Hc.
  eapply wp_create_first; [done|done|done|done|done|lia|done|].
  cbn zeta. intros first t Hnt Hd Ecap _ Hfirst Hbits. cbn [negb]. set (d := mk_inode_disk first _ _) in *.
  assert (Et : set_free_map (free_map t) t = t) by by destruct t.
  eapply (wp_open_map t (free_map t)); [by rewrite Et|done|apply lookup_singleton_eq|cbn; by rewrite Ecap|].
  intros f u Hi Hf0 Ef Edk Em Ec Hv Hr. assert (Eu : set_free_map (free_map t) u = u) by (rewrite <- Em; by destruct u).
  rewrite Eu in Hi. rewrite (proj2 (Z.eqb_neq f NULL)) by (unfold NULL; lia). apply wp_bind, wp_get, wp_bind.
  rewrite <- Ef. destruct (fi_map _ _ _ Hi) as (d0 & H0 & Hm). pose proof H0 as H0'. rewrite lookup_singleton_eq in H0'. injection H0' as <-.
  eapply (wp_bitmap_write {[ FREE_MAP_SECTOR := d ]} d); [done|apply Hi|done|]. intros ok v Hrm Ebm Hok.
  destruct ok; [|by destruct (not_exhausted Plenty u)]. cbn [negb]. apply wp_ret.
  assert (Evv : forall h, view v h = view u h) by (intros h; destruct (rm_rest _ _ _ _ Hrm) as [n ->]; done).
  destruct (remapped_same Hrm) as (Eh & _ & Ecv & Efv). eapply (HQ first v).
  - split; [eapply remapped_disk; [apply Hi|done|done|]|eapply remapped_heap; [done|apply Hi]|exists d; split; [done|eapply remapped_ready; done]|].
    + intros k e j Hk Ho. eapply (inv_mark _ _ (fi_disk _ _ _ Hi)); done.
    + intros k Hk. destruct (Hr k). destruct (rm_rest _ _ _ _ Hrm) as [n E]. rewrite E in Hk. done.
  - congruence.
  - done.
  - intros h o. rewrite Evv, Efv, Ef. apply Hv.
  - intros k Hk. destruct (Hr k). destruct (rm_rest _ _ _ _ Hrm) as [n E]. rewrite E in Hk. done.
  - rewrite Ebm, Em. done.
Qed.

(** free_map_close() when the free map's file is the only open one. *)
Lemma wp_free_map_close s I (Q : unit -> fs -> Prop) : fs_inv s I [] ->
  (forall h o, view s h = Some o -> h = free_map_file s) ->
  (forall h, let t := set_heap h (set_open_inodes [] s) in none_open t -> Q tt t) ->
  wp free_map_close Q s.
Proof.
  intros Hi Hv HQ. destruct (fi_map _ _ _ Hi) as (d0 & H0 & Hp & f & i & Hf & Hdn & Hp' & Hii & Hsec & Hrm & _).
  pose proof (fi_heap _ _ _ Hi) as Hh. set (p := file_inode f) in *. set (m := free_map_file s) in *.
  assert (Hview : forall q o r, heap s !! q = Some o -> refers r o = true -> q = m).
  { intros q o r Hq Hr. destruct (inv_ref _ _ _ Hh _ _ _ Hq Hr) as [j Hj].
    destruct o; try done; cbn in Hr; apply Z.eqb_eq in Hr; subst r; eapply Hv; unfold view; by rewrite Hq, Hj. }
  assert (Hin : forall q j, heap s !! q = Some (Inode j) -> q = p).
  { intros q j Hq. destruct (decide (q = p)) as [|Hne]; [done|]. pose proof (inv_pos _ _ _ Hh _ _ Hq) as Hpos.
    rewrite (inv_cnt _ _ _ Hh _ _ Hq), count_zero in Hpos; [cbn in Hpos; lia|]. intros r o Hr. apply not_true_is_false. intros E.
    pose proof (Hview _ _ _ Hr E) as ->. rewrite Hf in Hr. injection Hr as <-. cbn in E. by apply Z.eqb_eq in E. }
  assert (Hc1 : open_cnt i = 1).
  { rewrite (inv_cnt _ _ _ Hh _ _ Hii), (count_delete _ _ _ _ Hf), count_zero; cbn; rewrite ?Z.eqb_refl; [done|].
    intros r o [Hne Hr]%lookup_delete_Some. apply not_true_is_false. intros E. destruct Hne. symmetry. by eapply Hview. }
  assert (Hpm : p <> m) by congruence.
  unfold free_map_close. apply wp_bind, wp_get. fold m. unfold file_close. rewrite (proj2 (Z.eqb_neq m NULL)) by (unfold NULL; lia).
  cbn [negb]. apply wp_bind. unfold file_allow_write. apply wp_bind, wp_assertb; [by rewrite (proj2 (Z.eqb_neq m NULL)) by (unfold NULL; lia)|].
  apply wp_bind. eapply wp_get_file; [done|]. rewrite Hdn. apply wp_ret, wp_bind. eapply wp_get_file; [done|]. apply wp_bind.
  unfold inode_close. fold p. rewrite (proj2 (Z.eqb_neq p NULL)) by (unfold NULL; lia). apply wp_bind. eapply wp_get_inode; [done|].
  apply wp_bind. eapply wp_store; [done|]. rewrite Hc1. cbn [Z.eqb Z.sub Z.add Z.opp Z.pos_sub Pos.pred_double]. apply wp_bind, wp_modify. rewrite Hrm.
  apply wp_bind, wp_ret. eapply wp_free; [done|cbn; apply lookup_insert_eq|]. eapply wp_free; [done| |].
  { cbn [heap set_heap set_open_inodes]. rewrite lookup_delete_ne, lookup_insert_ne by done. done. }
  cbn [heap set_heap set_open_inodes open_inodes]. rewrite delete_insert_eq.
  assert (filter (fun q => q <> p) (open_inodes s) = []) as ->.
  { apply elem_of_nil_inv. intros q [Hq1 Hq2]%list_elem_of_filter. apply (inv_open _ _ _ Hh) in Hq2 as [j Hj]. by apply Hin in Hj. }
  apply HQ. split; [done|]. intros q o. cbn [heap set_heap]. intros [Hqm [Hqp Hq]%lookup_delete_Some]%lookup_delete_Some.
  split; [|by eapply inv_ptr]. destruct o as [|j|g|d]; [done|by apply Hin in Hq|..]; destruct Hqm; symmetry.
  - apply (Hview q (File g) (file_inode g)); [done|apply Z.eqb_refl].
  - apply (Hview q (Dir d) (dir_inode d)); [done|apply Z.eqb_refl].
Qed.

(** A directory of zero bytes is an empty one. *)
Lemma entry_zeros n j : (20 * j + 20 <= n)%nat -> in_use (entry (replicate n 0) j) = false.
Proof.
  intros Hj. unfold entry. rewrite drop_replicate, take_replicate. rewrite Nat.min_l by lia. done.
Qed.

(** A freshly formatted disk: the two inodes, an empty root directory, every
    other sector free apart from the free map's file. *)
Record formatted (t : fs) (I : gmap Z inode_disk) (d0 dr : inode_disk) : Prop := {
  fm_map : I !! FREE_MAP_SECTOR = Some d0;
  fm_only : forall k, is_Some (I !! k) -> k = FREE_MAP_SECTOR \/ k = ROOT_DIR_SECTOR;
  fm_dir : dir_inv t I dr;
  fm_empty : contents (disk t) dr = replicate 320 0;
  fm_size : file_size d0 = byte_cnt (capacity t);
  fm_view : forall h o, view t h = Some o -> h = free_map_file t /\ o.2 = FREE_MAP_SECTOR;
  fm_recorded : recorded d0 t }.

Lemma formatted_dir t I dr : I !! ROOT_DIR_SECTOR = Some dr -> file_size dr = 320 ->
  contents (disk t) dr = replicate 320 0 -> (forall h o, view t h = Some o -> o.2 = FREE_MAP_SECTOR) ->
  dir_inv t I dr.
Proof.
  intros HI Hsz E Hv. assert (Hz : forall j, (j < 16)%nat -> in_use (entry (contents (disk t) dr) j) = false).
  { intros j Hj. rewrite E. apply entry_zeros. lia. }
  split; [done|done|..].
  - intros j j' nm Hj _ _ E1. unfold named in E1. by rewrite Hz in E1.
  - intros j Hj E1. by rewrite Hz in E1.
  - intros j j' Hj _ E1. by rewrite Hz in E1.
  - intros h fl Hh. by apply Hv in Hh.
Qed.

(** The disk is big enough: the boot sectors, the free map and one sector for
    the root directory. *)
Definition big_enough (cap : Z) : Prop := 3 + sectors_of (byte_cnt cap) <= cap <= 2 ^ 28.

Lemma wp_do_format s (Q : unit -> fs -> Prop) : none_open s -> big_enough (capacity s) -> 2 <= capacity s ->
  sectors_ok (capacity s) (disk s) -> initial_map (capacity s) (free_map s) -> free_map_file s = NULL ->
  (forall t I d0 dr, none_open t -> disk_inv t I -> formatted t I d0 dr -> saved d0 t -> capacity t = capacity s -> Q tt t) ->
  wp do_format Q s.
Proof using Plenty.
  intros Hn Hbig Hcap Hs Hm Hf HQ. unfold big_enough in Hbig. pose proof (byte_cnt_range (capacity s) ltac:(lia)) as [Hbc Hbp].
  assert (Hn0 : 1 <= sectors_of (byte_cnt (capacity s))) by (unfold sectors_of; Z.div_mod_to_equations; lia).
  unfold do_format. apply wp_bind. apply wp_free_map_create; [done|lia|done|done|done|lia|].
  cbn zeta. intros first t Hi Ec Hfirst Hv Hr Hb. set (d := mk_inode_disk first _ _) in *. set (I0 := {[ _ := d ]}) in *.
  assert (Hd1 : ~ data_sector d ROOT_DIR_SECTOR) by (unfold data_sector, ROOT_DIR_SECTOR; cbn; lia).
  apply wp_bind. change (dir_create ROOT_DIR_SECTOR 16) with (inode_create ROOT_DIR_SECTOR 320).
  eapply (wp_inode_create t I0 []); [done|lia|unfold ROOT_DIR_SECTOR; lia| | | |].
  - rewrite Hb by (unfold ROOT_DIR_SECTOR; lia). done.
  - intros k e [<- <-]%lookup_singleton_Some [?|?]; [done|]. done.
  - intros dr u Hiu [Hsz Hk Eh _ Hsv Hdat]. cbn [negb].
    assert (Hvu : forall h o, view u h = Some o -> h = free_map_file u /\ o.2 = FREE_MAP_SECTOR).
    { intros h o. rewrite (kp_view _ _ _ Hk), (kp_file _ _ _ Hk). apply Hv. }
    eapply wp_free_map_close; [done|intros h o Ho; by apply (Hvu h o)|]. cbn zeta. intros hp Hno.
    assert (Hcu : capacity u = capacity s) by (rewrite (kp_cap _ _ _ Hk); done).
    eapply (HQ _ (<[ROOT_DIR_SECTOR := dr]> I0) d dr); [done| |split|apply (Hsv d), lookup_singleton_eq|done].
    + destruct (fi_disk _ _ _ Hiu). by split.
    + rewrite lookup_insert_ne by done. apply lookup_singleton_eq.
    + intros k [e He]. apply lookup_insert_Some in He as [[<- _]|[_ He]]; [by right|]. apply lookup_singleton_Some in He as [<- _]. by left.
    + apply formatted_dir; [apply lookup_insert_eq|done|done|]. intros h o. by rewrite none_open_view.
    + done.
    + cbn. by rewrite Hcu.
    + intros h o. by rewrite none_open_view.
    + apply recorded_saved; [apply Hiu|apply Hiu|apply (Hsv d), lookup_singleton_eq].
  - intros u [[n [live Hx]]|Hx] _ _ _ _; exfalso; [destruct (Plenty n live); congruence|].
    change (bytes_to_sectors 320) with 1 in Hx. unfold no_room in Hx. rewrite Ec in Hx.
    destruct (decide (first = 2)) as [->|Hne].
    + destruct (Hx (2 + sectors_of (byte_cnt (capacity s)))); [lia|lia|]. intros j Hj. rewrite Hb by lia. unfold in_range. lia.
    + destruct (Hx 2); [lia|lia|]. intros j Hj. rewrite Hb by lia. unfold in_range. lia.
Qed.

(** filesys_init (true): an empty file system, ready for use. *)
Lemma wp_filesys_format s (Q : unit -> fs -> Prop) : is_ata s = true -> none_open s -> big_enough (capacity s) ->
  2 <= capacity s -> sectors_ok (capacity s) (disk s) -> free_map_file s = NULL ->
  (forall t I d0 dr, fs_inv t I [] -> formatted t I d0 dr -> capacity t = capacity s -> Q tt t) ->
  wp (filesys_init true) Q s.
Proof using Plenty.
  intros Hata Hn Hbig Hcap Hs Hf HQ. unfold filesys_init. apply wp_bind, wp_get. rewrite Hata. cbn [negb].
  unfold big_enough in Hbig. apply wp_bind, wp_modify, wp_bind. apply wp_free_map_init; [by destruct Hn|cbn; lia|].
  cbn [capacity set_open_inodes disk free_map_file]. intros s1 Hn1 Hm1 Ed1 Ec1 Ef1. apply wp_bind.
  eapply wp_do_format; [done|by rewrite Ec1|lia|by rewrite Ec1, Ed1|by rewrite Ec1|by rewrite Ef1|].
  intros t I d0 dr Hnt Hdt [Hmap Honly Hdir Hem Hsz _ _] Hsv Ect.
  assert (Et : set_free_map (free_map t) t = t) by by destruct t.
  eapply (wp_free_map_open t (free_map t)); [by rewrite Et|done|done|done|by rewrite Et|apply Hdt|apply Hdt|].
  intros u [Hiu Edu Ecu Hbu Hvu Hru Hrec]. apply (HQ u I d0 dr); [done| |congruence].
  split; [done|done| |by rewrite Edu|by rewrite Ecu|done|by apply Hrec].
  apply formatted_dir; [by destruct Hdir|by destruct Hdir|by rewrite Edu|]. intros h o Ho. by apply (Hvu h o).
Qed.

(** filesys_init (false) on a disk whose free map is [b0]. *)
Lemma wp_filesys_mount s b0 I d0 (Q : unit -> fs -> Prop) : is_ata s = true -> none_open s ->
  disk_inv (set_free_map b0 s) I -> I !! FREE_MAP_SECTOR = Some d0 -> file_size d0 = byte_cnt (capacity s) ->
  saved d0 (set_free_map b0 s) -> (forall t, mounted s t b0 I -> Q tt t) -> wp (filesys_init false) Q s.
Proof using Plenty.
  intros Hata Hn Hd H0 Hsz Hsv HQ. unfold filesys_init. apply wp_bind, wp_get. rewrite Hata. cbn [negb].
  pose proof (inv_cap _ _ Hd) as Hcap. cbn in Hcap.
  apply wp_bind, wp_modify, wp_bind. apply wp_free_map_init; [by destruct Hn|cbn; lia|].
  cbn [capacity set_open_inodes disk free_map_file]. intros s1 Hn1 (Hw1 & Hc1 & _) Ed1 Ec1 Ef1. apply wp_bind, wp_ret.
  eapply (wp_free_map_open s1 b0 I d0); [|done|done|by rewrite Ec1| |done|congruence|].
  - destruct Hd. cbn in *. split; cbn; rewrite ?Ed1, ?Ec1; done.
  - unfold saved in *. cbn [disk free_map capacity set_free_map] in *. by rewrite Ed1, Ec1.
  - intros t [H1 H2 H3 H4 H5 H6 H7]. apply HQ. split; try done; [congruence|congruence|]. intros j Hj. apply H4. lia.
Qed.
End Init.
