(* ===== verification/FsSim.v ===== *)
(** * The file system implements its specification

    The abstract file system, and then the simulation of every operation. *)

From Stdlib Require Import ZArith Lia.
From stdpp Require Import base numbers gmap list.
From S2P Require Import Prelude Bitmap FsBase Inode Directory FsData FsInv FsWp FsHandle FsFile FsDir FsTop FsInit.

Open Scope Z_scope.

(** * What the file system promises

    An abstract file system: a directory of names, files that are sequences of
    bytes, and open files with a position.  [abs] relates it to the state of
    filesys/: the directory's entries, inodes and sectors of the disk, and the
    objects in memory. *)

(** ** The specification *)

Record open_file : Set := mk_open { of_file : Z; at_pos : Z; denying : bool }.

Record afs : Set := mk_afs { names : gmap (list Z) Z; files : gmap Z (list Z); handles : gmap Z open_file }.

Definition empty_fs : afs := mk_afs ∅ ∅ ∅.
Definition set_names n a := mk_afs n (files a) (handles a).
Definition set_files f a := mk_afs (names a) f (handles a).
Definition set_handles h a := mk_afs (names a) (files a) h.

(** A file lives as long as it has a name or is open. *)
Definition has_name (k : Z) (a : afs) : Prop := map_Exists (fun _ k' => k' = k) (names a).
Definition is_open (k : Z) (a : afs) : Prop := map_Exists (fun _ x => of_file x = k) (handles a).
#[export] Instance has_name_dec k a : Decision (has_name k a).
Proof. unfold has_name. apply _. Defined.
#[export] Instance is_open_dec k a : Decision (is_open k a).
Proof. unfold is_open. apply _. Defined.

Definition collect (k : Z) (a : afs) : afs :=
  if decide (has_name k a \/ is_open k a) then a else set_files (delete k (files a)) a.

Definition write_denied (k : Z) (a : afs) : Prop := map_Exists (fun _ x => of_file x = k /\ denying x = true) (handles a).
#[export] Instance write_denied_dec k a : Decision (write_denied k a).
Proof. unfold write_denied. apply _. Defined.

(** The calls of filesys.h and file.h. *)
Inductive call : Set :=
  | Create (nm : list Z) (size : Z)
  | Open (nm : list Z)
  | Remove (nm : list Z)
  | Close (h : Z)
  | Read (h size : Z)
  | Write (h : Z) (buf : list Z)
  | Seek (h n : Z)
  | Tell (h : Z)
  | Length (h : Z)
  | Deny (h : Z)
  | Allow (h : Z).

Inductive result : Set := RUnit | RBool (b : bool) | RPtr (p : Z) | RBytes (l : list Z) | RInt (n : Z).

(** Where the caller may make the call. *)
Definition valid (a : afs) (c : call) : Prop :=
  match c with
  | Create nm size => zero_free nm /\ 0 <= size < 2 ^ 31
  | Open nm | Remove nm => zero_free nm
  | Read h size => is_Some (handles a !! h) /\ 0 <= size < 2 ^ 31
  | Write h buf => is_Some (handles a !! h) /\ Z.of_nat (length buf) < 2 ^ 31
  | Seek h n => is_Some (handles a !! h) /\ 0 <= n < 2 ^ 31
  | Close h | Tell h | Length h | Deny h | Allow h => is_Some (handles a !! h)
  end.

Definition moved (n : Z) (x : open_file) : open_file := mk_open (of_file x) n (denying x).
Definition denied (b : bool) (x : open_file) : open_file := mk_open (of_file x) (at_pos x) b.
Definition with_handle (h : Z) (x : open_file) (a : afs) : afs := set_handles (<[h := x]> (handles a)) a.

(** The bytes that a write changes: files do not grow. *)
Definition write_size (a : afs) (x : open_file) (cs buf : list Z) : nat :=
  if decide (write_denied (of_file x) a) then 0%nat else Nat.min (length buf) (length cs - Z.to_nat (at_pos x)).

(** What a call may return and leave. *)
Inductive spec (a : afs) : call -> result -> afs -> Prop :=
  | SpecCreate nm size k : nm <> [] -> (length nm <= 14)%nat -> names a !! nm = None -> files a !! k = None ->
      spec a (Create nm size) (RBool true)
        (set_names (<[nm := k]> (names a)) (set_files (<[k := replicate (Z.to_nat size) 0]> (files a)) a))
  | SpecNoCreate nm size : spec a (Create nm size) (RBool false) a
  | SpecOpen nm k h : names a !! nm = Some k -> 0 < h -> handles a !! h = None ->
      spec a (Open nm) (RPtr h) (with_handle h (mk_open k 0 false) a)
  | SpecNoOpen nm : names a !! nm = None -> spec a (Open nm) (RPtr NULL) a
  | SpecRemove nm k : names a !! nm = Some k ->
      spec a (Remove nm) (RBool true) (collect k (set_names (delete nm (names a)) a))
  | SpecNoRemove nm : names a !! nm = None -> spec a (Remove nm) (RBool false) a
  | SpecClose h x : handles a !! h = Some x ->
      spec a (Close h) RUnit (collect (of_file x) (set_handles (delete h (handles a)) a))
  | SpecRead h size x cs : handles a !! h = Some x -> files a !! of_file x = Some cs ->
      let r := take (Z.to_nat size) (drop (Z.to_nat (at_pos x)) cs) in
      spec a (Read h size) (RBytes r) (with_handle h (moved (at_pos x + Z.of_nat (length r)) x) a)
  | SpecWrite h buf x cs : handles a !! h = Some x -> files a !! of_file x = Some cs ->
      let m := write_size a x cs buf in
      spec a (Write h buf) (RInt (Z.of_nat m))
        (with_handle h (moved (at_pos x + Z.of_nat m) x)
          (set_files (<[of_file x := splice cs (Z.to_nat (at_pos x)) (take m buf)]> (files a)) a))
  | SpecSeek h n x : handles a !! h = Some x -> spec a (Seek h n) RUnit (with_handle h (moved n x) a)
  | SpecTell h x : handles a !! h = Some x -> spec a (Tell h) (RInt (at_pos x)) a
  | SpecLength h x cs : handles a !! h = Some x -> files a !! of_file x = Some cs ->
      spec a (Length h) (RInt (Z.of_nat (length cs))) a
  | SpecDeny h x : handles a !! h = Some x -> spec a (Deny h) RUnit (with_handle h (denied true x) a)
  | SpecAllow h x : handles a !! h = Some x -> spec a (Allow h) RUnit (with_handle h (denied false x) a).

(** A restart of the machine: open files are gone, and with them the files
    that had no name. *)
Definition after_restart (a : afs) : afs :=
  mk_afs (names a) (filter (fun kv => has_name kv.1 a) (files a)) ∅.

(** ** The implementation *)

(** The open file at [h]; the free map's file is not one of the caller's. *)
Definition handle_of (s : fs) (h : Z) : option open_file :=
  match view s h with
  | Some (File f, k) => if decide (2 <= k) then Some (mk_open k (pos f) (deny_write f)) else None
  | _ => None
  end.

Record abs_at (s : fs) (a : afs) (I : gmap Z inode_disk) (dr : inode_disk) : Prop := {
  ab_inv : fs_inv s I [];
  ab_dir : dir_inv s I dr;
  ab_names : forall nm, zero_free nm -> names a !! nm = sector_of (contents (disk s) dr) nm;
  ab_zero : forall nm k, names a !! nm = Some k -> zero_free nm;
  ab_files : forall k, files a !! k = if decide (2 <= k) then contents (disk s) <$> I !! k else None;
  ab_handles : forall h, handles a !! h = handle_of s h;
  ab_dirs : forall h d k, view s h <> Some (Dir d, k);
  ab_pos : forall h x, handles a !! h = Some x -> 0 <= at_pos x < 2 ^ 31;
  ab_live : forall k, 2 <= k -> is_Some (I !! k) -> has_name k a \/ removed_sector s k;
  ab_recorded : forall d0, I !! FREE_MAP_SECTOR = Some d0 -> recorded d0 s }.

Definition abs (s : fs) (a : afs) : Prop := exists I dr, abs_at s a I dr.

(** The machine restarts with the same disk; what was in memory is lost. *)
Definition restart (s : fs) : fs := mk_fs true (capacity s) (disk s) ∅ O [] (free_map s) NULL.

Section Perform.
Context `{!Memory}.

(** [e] is what the local variables hold that the code does not initialise. *)
Definition perform (e : list Z) (c : call) : M fs result :=
  match c with
  | Create nm size => b ← filesys_create nm size e; ret (RBool b)
  | Open nm => p ← filesys_open nm e; ret (RPtr p)
  | Remove nm => b ← filesys_remove nm e; ret (RBool b)
  | Close h => file_close h;; ret RUnit
  | Read h size => l ← file_read h size; ret (RBytes l)
  | Write h buf => n ← file_write h buf (Z.of_nat (length buf)); ret (RInt n)
  | Seek h n => file_seek h n;; ret RUnit
  | Tell h => n ← file_tell h; ret (RInt n)
  | Length h => n ← file_length h; ret (RInt n)
  | Deny h => file_deny_write h;; ret RUnit
  | Allow h => file_allow_write h;; ret RUnit
  end.
End Perform.

(** * The file system implements its specification

    The steps of a forward simulation: for every call, the state that the code
    leaves corresponds to what the specification allows. *)

Section Sim.
Context `{!Memory} (Plenty : forall n live, is_Some (place n live)).

(** ** Reading the correspondence *)

Lemma handle_of_Some s I X h x : fs_inv s I X -> handle_of s h = Some x ->
  exists fl i, user_file s h fl i /\ of_file x = sector i /\ at_pos x = pos fl /\ denying x = deny_write fl.
Proof.
  intros Hi Hh. unfold handle_of in Hh. destruct (view s h) as [[[|j|fl|d] k]|] eqn:E; try done.
  case_decide as Hk; [|done]. injection Hh as <-. destruct (user_file_view _ _ _ _ _ _ Hi E Hk) as (i & Hu & <-). by exists fl, i.
Qed.

Lemma handle_of_user s h fl i : user_file s h fl i -> handle_of s h = Some (mk_open (sector i) (pos fl) (deny_write fl)).
Proof. intros Hu. unfold handle_of. rewrite (view_user_file _ _ _ _ Hu). by rewrite decide_True by apply Hu. Qed.

Lemma handle_of_view s h fl k : view s h = Some (File fl, k) -> 2 <= k -> handle_of s h = Some (mk_open k (pos fl) (deny_write fl)).
Proof. intros E Hk. unfold handle_of. by rewrite E, decide_True. Qed.

(** A removed inode has an open file. *)
Lemma removed_open s I k : fs_inv s I [] -> removed_sector s k -> (forall h d k, view s h <> Some (Dir d, k)) ->
  exists h x, handle_of s h = Some x /\ of_file x = k.
Proof.
  intros Hi Hr Hnd. pose proof (fi_removed _ _ _ Hi _ Hr) as H2. destruct Hr as (p & i & Hp & _ & <-).
  pose proof (fi_heap _ _ _ Hi) as Hh. pose proof (inv_pos _ _ _ Hh _ _ Hp) as Hpos. rewrite (inv_cnt _ _ _ Hh _ _ Hp) in Hpos.
  assert (Hex : exists q o, heap s !! q = Some o /\ refers p o = true).
  { destruct (decide (map_Exists (fun _ o => refers p o = true) (heap s))) as [(q & o & ? & ?)|Hn]; [by exists q, o|].
    rewrite count_zero in Hpos; [cbn in Hpos; lia|]. intros q o Hq. apply not_true_is_false. intros E. apply Hn. by exists q, o. }
  destruct Hex as (q & o & Hq & Ho). destruct o as [|j|fl|d]; try done; cbn in Ho; apply Z.eqb_eq in Ho; subst p.
  - exists q. eexists. split; [apply (handle_of_view s q fl (sector i)); [|done]|done]. unfold view. by rewrite Hq, Hp.
  - destruct (Hnd q d (sector i)). unfold view. by rewrite Hq, Hp.
Qed.

Section At.
Context {s : fs} {a : afs} {I : gmap Z inode_disk} {dr : inode_disk} (Ha : abs_at s a I dr).

Lemma abs_handle h x : handles a !! h = Some x ->
  exists fl i, user_file s h fl i /\ x = mk_open (sector i) (pos fl) (deny_write fl) /\ I !! sector i = Some (data i) /\
    files a !! sector i = Some (contents (disk s) (data i)).
Proof using Ha.
  intros Hh. pose proof (ab_inv _ _ _ _ Ha) as Hi. rewrite (ab_handles _ _ _ _ Ha) in Hh.
  destruct (handle_of_Some _ _ _ _ _ Hi Hh) as (fl & i & Hu & E1 & E2 & E3).
  assert (HI : I !! sector i = Some (data i)) by (eapply inv_data; [apply Hi|apply Hu]).
  exists fl, i. split_and!; [done|destruct x; cbn in *; congruence|done|].
  rewrite (ab_files _ _ _ _ Ha), decide_True by apply Hu. by rewrite HI.
Qed.

Lemma abs_name nm k : names a !! nm = Some k -> 2 <= k /\ is_Some (I !! k).
Proof using Ha.
  intros Hn. pose proof (ab_zero _ _ _ _ Ha _ _ Hn) as Hz. rewrite (ab_names _ _ _ _ Ha) in Hn by done.
  destruct (sector_of_file _ _ _ _ _ (ab_dir _ _ _ _ Ha) Hn) as (? & ? & _). done.
Qed.
End At.

(** The inodes of the files are those with a name or an open file. *)
Lemma live_inodes s a I k : fs_inv s I [] -> (forall h, handles a !! h = handle_of s h) ->
  (forall h d k, view s h <> Some (Dir d, k)) -> (has_name k a -> is_Some (I !! k)) ->
  (is_Some (I !! k) -> has_name k a \/ removed_sector s k) -> is_Some (I !! k) <-> has_name k a \/ is_open k a.
Proof.
  intros Hi Hh Hnd Hname Hlive. split.
  - intros [Hn|Hr]%Hlive; [by left|right]. destruct (removed_open _ _ _ Hi Hr Hnd) as (h & x & Hx & E).
    exists h, x. by rewrite Hh.
  - intros [Hn|(h & x & Hx & E)]; [auto|]. rewrite Hh in Hx. destruct (handle_of_Some _ _ _ _ _ Hi Hx) as (fl & i & Hu & E1 & _).
    exists (data i). subst k. rewrite E1. eapply inv_data; [apply Hi|apply Hu].
Qed.

Lemma handles_collect k a : handles (collect k a) = handles a.
Proof. unfold collect. by case_decide. Qed.
Lemma names_collect k a : names (collect k a) = names a.
Proof. unfold collect. by case_decide. Qed.

(** The files after [k] may have been deleted. *)
Lemma files_collect a (I I' : gmap Z inode_disk) (D D' : gmap Z (list Z)) k r : without I I' k r ->
  (is_Some (I' !! k) <-> has_name k a \/ is_open k a) ->
  (forall j, files a !! j = if decide (2 <= j) then contents D <$> I !! j else None) ->
  (forall j d, 2 <= j -> I' !! j = Some d -> contents D' d = contents D d) ->
  forall j, files (collect k a) !! j = if decide (2 <= j) then contents D' <$> I' !! j else None.
Proof.
  intros Hw Hlive Hf Hd j. assert (Hold : forall j, files a !! j = if decide (2 <= j) then contents D <$> I !! j else None) by done.
  assert (Hj : (if decide (2 <= j) then contents D' <$> I' !! j else None) = if decide (2 <= j) then contents D <$> I' !! j else None).
  { case_decide as H2; [|done]. destruct (I' !! j) as [d|] eqn:E; [|done]. cbn. by rewrite (Hd j d H2 E). }
  rewrite Hj. unfold collect. destruct (decide (has_name k a \/ is_open k a)) as [Hl|Hl].
  - rewrite Hf. destruct Hw as [->|[_ ->]]; [done|]. apply Hlive in Hl as [d Hl]. by rewrite lookup_delete_eq in Hl.
  - assert (Hn : I' !! k = None) by (apply eq_None_not_Some; by rewrite Hlive). cbn [files set_files].
    destruct (decide (j = k)) as [->|Hne].
    + rewrite lookup_delete_eq, Hn. by case_decide.
    + rewrite lookup_delete_ne, Hf by done. destruct Hw as [->|[_ ->]]; [done|]. by rewrite lookup_delete_ne.
Qed.

Lemma steady_recorded s t I d0 : steady I s t -> I !! FREE_MAP_SECTOR = Some d0 -> recorded d0 s -> recorded d0 t.
Proof using Plenty. intros [_ H2] H0 Hr. destruct (H2 d0 H0 Hr) as [?|Hm]; [done|]. by destruct (plenty_memory Plenty). Qed.

(** ** Steps that keep the directory *)

Lemma handle_view_file s h x : handle_of s h = Some x ->
  exists fl, view s h = Some (File fl, of_file x) /\ 2 <= of_file x.
Proof.
  unfold handle_of. destruct (view s h) as [[[] k]|] eqn:E; try done. case_decide; [|done]. intros [= <-]. cbn. eauto.
Qed.

Lemma handle_of_same s t h : view t h = view s h -> handle_of t h = handle_of s h.
Proof. unfold handle_of. by intros ->. Qed.

(** The files of the specification are the same if the contents are. *)
Lemma files_same (I : gmap Z inode_disk) D D' k : (forall d, I !! k = Some d -> 2 <= k -> contents D' d = contents D d) ->
  (if decide (2 <= k) then contents D' <$> I !! k else None) = (if decide (2 <= k) then contents D <$> I !! k else None).
Proof. intros H1. case_decide; [|done]. destruct (I !! k) as [d|] eqn:E; [|done]. cbn. by rewrite (H1 d). Qed.

Lemma abs_kept s a I dr t : abs_at s a I dr -> fs_inv t I [] -> dir_inv t I dr -> kept I s t -> abs_at t a I dr.
Proof using Plenty.
  intros Ha Ht Hdt [Ec Ef Hd Hv Hr Hst]. pose proof Ha as [Hi Hdir Hn Hz Hfl Hh Hnd Hp Hl Hrec].
  assert (EC : contents (disk t) dr = contents (disk s) dr) by (apply (Hd ROOT_DIR_SECTOR); [apply Hdir|done]).
  split; try done.
  - intros nm Hnm. by rewrite EC, Hn.
  - intros k. rewrite Hfl. symmetry. apply files_same. intros d Hk H2. apply (Hd k); [done|unfold FREE_MAP_SECTOR; lia].
  - intros h. rewrite Hh. symmetry. by apply handle_of_same.
  - intros h d k. rewrite Hv. apply Hnd.
  - intros k H2 Hk. destruct (Hl k H2 Hk) as [?|Hrm]; [by left|right]. by apply (st_still _ _ _ Hst).
  - intros d0 H0. eapply steady_recorded; [done..|by apply Hrec].
Qed.

Lemma abs_frame_at s a I dr t h x : abs_at s a I dr -> fs_inv t I [] -> frame_at I h s t -> handle_of t h = Some x ->
  0 <= at_pos x < 2 ^ 31 -> abs_at t (with_handle h x a) I dr.
Proof using Plenty.
  intros Ha Ht Hf Hx Hpos. pose proof Ha as [Hi Hdir Hn Hz Hfl Hh Hnd Hp Hl Hrec].
  destruct (handle_view_file _ _ _ Hx) as (fl & Hvx & H2x).
  assert (Hdt : dir_inv t I dr).
  { eapply dir_inv_frame_at; [done|done|]. intros fl' E. rewrite Hvx in E. injection E as _ E. unfold ROOT_DIR_SECTOR in E. lia. }
  destruct Hf as [Ec Ef Hd Hv Hr _ Hst].
  assert (EC : contents (disk t) dr = contents (disk s) dr) by (apply (Hd ROOT_DIR_SECTOR); [apply Hdir|done]).
  split; cbn [names files handles with_handle set_handles]; try done.
  - intros nm Hnm. by rewrite EC, Hn.
  - intros k. rewrite Hfl. symmetry. apply files_same. intros d Hk H2. apply (Hd k); [done|unfold FREE_MAP_SECTOR; lia].
  - intros q. destruct (decide (q = h)) as [->|Hne]; [by rewrite lookup_insert_eq|].
    rewrite lookup_insert_ne, Hh by done. symmetry. apply handle_of_same. by apply Hv.
  - intros q d k. destruct (decide (q = h)) as [->|Hne]; [by rewrite Hvx|]. rewrite Hv by done. apply Hnd.
  - intros q y. destruct (decide (q = h)) as [->|Hne]; [rewrite lookup_insert_eq; by intros [= <-]|].
    rewrite lookup_insert_ne by done. apply Hp.
  - intros k H2 Hk. destruct (Hl k H2 Hk) as [?|Hrm]; [by left|right]. by apply (st_still _ _ _ Hst).
  - intros d0 H0. eapply steady_recorded; [done..|by apply Hrec].
Qed.

(** ** Calls *)

(** The goal of every step. *)
Definition simulates (a : afs) (c : call) (r : result) (t : fs) : Prop := exists a', spec a c r a' /\ abs t a'.

Lemma sim_seek s a e h n : abs s a -> valid a (Seek h n) -> wp (perform e (Seek h n)) (simulates a (Seek h n)) s.
Proof using Plenty.
  intros (I & dr & Ha) [[x Hx] Hn]. destruct (abs_handle Ha _ _ Hx) as (fl & i & Hu & -> & _).
  apply wp_bind. eapply wp_file_seek; [apply Ha|done|lia|]. intros t Ht Hf Hv. apply wp_ret.
  eexists. split; [by eapply SpecSeek|]. exists I, dr. eapply abs_frame_at; [done..| |done].
  by apply (handle_of_view _ _ _ _ Hv), Hu.
Qed.

Lemma sim_tell s a e h : abs s a -> valid a (Tell h) -> wp (perform e (Tell h)) (simulates a (Tell h)) s.
Proof using Type.
  intros (I & dr & Ha) [x Hx]. destruct (abs_handle Ha _ _ Hx) as (fl & i & Hu & -> & _). pose proof Hu as [H0 Hf _ _].
  apply wp_bind. unfold file_tell. apply wp_bind, wp_assertb; [apply negb_true_iff, Z.eqb_neq; unfold NULL; lia|].
  apply wp_bind. eapply wp_get_file; [done|]. apply wp_ret, wp_ret.
  exists a. split; [by apply (SpecTell a h _ Hx)|by exists I, dr].
Qed.

Lemma sim_length s a e h : abs s a -> valid a (Length h) -> wp (perform e (Length h)) (simulates a (Length h)) s.
Proof using Type.
  intros (I & dr & Ha) [x Hx]. destruct (abs_handle Ha _ _ Hx) as (fl & i & Hu & -> & HI & Hfl). pose proof Hu as [H0 Hf Hp _].
  apply wp_bind. unfold file_length. apply wp_bind, wp_assertb; [apply negb_true_iff, Z.eqb_neq; unfold NULL; lia|].
  apply wp_bind. eapply wp_get_file; [done|]. unfold inode_length. apply wp_bind. eapply wp_get_inode; [done|]. apply wp_ret, wp_ret.
  destruct (inv_inode _ _ (fi_disk _ _ _ (ab_inv _ _ _ _ Ha)) _ _ HI) as (_ & [_ Hsz _] & _).
  exists a. split; [|by exists I, dr]. pose proof (SpecLength a h _ _ Hx Hfl) as Hs. rewrite length_contents, Z2Nat.id in Hs by lia. done.
Qed.

Lemma sim_deny s a e h : abs s a -> valid a (Deny h) -> wp (perform e (Deny h)) (simulates a (Deny h)) s.
Proof using Plenty.
  intros (I & dr & Ha) [x Hx]. destruct (abs_handle Ha _ _ Hx) as (fl & i & Hu & -> & _).
  pose proof (ab_pos _ _ _ _ Ha _ _ Hx) as Hpos.
  apply wp_bind. eapply wp_file_deny_write; [apply Ha|done|]. intros t Ht Hf Hv. apply wp_ret.
  eexists. split; [by eapply SpecDeny|]. exists I, dr. eapply abs_frame_at; [done..| |done].
  by apply (handle_of_view _ _ _ _ Hv), Hu.
Qed.

Lemma sim_allow s a e h : abs s a -> valid a (Allow h) -> wp (perform e (Allow h)) (simulates a (Allow h)) s.
Proof using Plenty.
  intros (I & dr & Ha) [x Hx]. destruct (abs_handle Ha _ _ Hx) as (fl & i & Hu & -> & _).
  pose proof (ab_pos _ _ _ _ Ha _ _ Hx) as Hpos.
  apply wp_bind. eapply wp_file_allow_write; [apply Ha|done|]. intros t i' Ht Hf Hu' Es _. apply wp_ret.
  eexists. split; [by eapply SpecAllow|]. exists I, dr. eapply abs_frame_at; [done..| |done].
  rewrite (handle_of_user _ _ _ _ Hu'). by rewrite Es.
Qed.

Lemma sim_read s a e h n : abs s a -> valid a (Read h n) -> wp (perform e (Read h n)) (simulates a (Read h n)) s.
Proof using Plenty.
  intros (I & dr & Ha) [[x Hx] Hn]. destruct (abs_handle Ha _ _ Hx) as (fl & i & Hu & -> & HI & Hfl).
  pose proof (ab_pos _ _ _ _ Ha _ _ Hx) as Hpos. cbn [at_pos] in Hpos.
  destruct (inv_inode _ _ (fi_disk _ _ _ (ab_inv _ _ _ _ Ha)) _ _ HI) as (_ & [_ Hsz _] & _).
  apply wp_bind. eapply wp_file_read; [apply Ha|done|done|lia|]. intros r t (k & -> & Hk) Ht Hf Hv. apply wp_ret.
  destruct Hk as [->|[Hx' _]]; [|by destruct (not_exhausted Plenty s)].
  eexists. split; [exact (SpecRead a h n _ _ Hx Hfl)|]. exists I, dr. eapply abs_frame_at; [done..| |].
  - by apply (handle_of_view _ _ _ _ Hv), Hu.
  - cbn. rewrite length_take, length_drop, length_contents. lia.
Qed.

(** Writing is denied iff an open file denies it. *)
Lemma deny_count s a I dr fl i h : abs_at s a I dr -> user_file s h fl i ->
  (deny_write_cnt i =? 0) = negb (bool_decide (write_denied (sector i) a)).
Proof.
  intros Ha [_ Hf Hp Hs]. pose proof (fi_heap _ _ _ (ab_inv _ _ _ _ Ha)) as Hh.
  rewrite (inv_deny _ _ _ Hh _ _ Hp). case_bool_decide as Hd.
  - destruct Hd as (q & x & Hq & E & Hden). destruct (abs_handle Ha _ _ Hq) as (fq & iq & [_ Hfq Hpq _] & -> & _).
    cbn in E, Hden. pose proof (inv_uniq _ _ _ Hh _ _ _ _ Hpq Hp E) as Ep.
    rewrite (count_delete _ _ _ _ Hfq). cbn. rewrite Ep, Z.eqb_refl, Hden. cbn. apply Z.eqb_neq. lia.
  - rewrite count_zero; [done|]. intros q o Hq. apply not_true_is_false. intros E. apply Hd.
    destruct o as [|j|fq|d]; try done. cbn in E. apply andb_true_iff in E as [E1%Z.eqb_eq E2].
    exists q, (mk_open (sector i) (pos fq) (deny_write fq)). split; [|done]. rewrite (ab_handles _ _ _ _ Ha).
    apply handle_of_view; [|done]. unfold view. by rewrite Hq, E1, Hp.
Qed.

Lemma abs_changed s a I dr t h k cs x : abs_at s a I dr -> fs_inv t I [] -> file_changed I h k cs s t -> 2 <= k ->
  is_Some (I !! k) -> handle_of t h = Some x -> 0 <= at_pos x < 2 ^ 31 ->
  abs_at t (with_handle h x (set_files (<[k := cs]> (files a)) a)) I dr.
Proof using Plenty.
  intros Ha Ht [Ec Ef Hd1 Hd2 Hv Hr _ Hst] H2k Hk Hx Hpos. pose proof Ha as [Hi Hdir Hn Hz Hfl Hh Hnd Hp Hl Hrec].
  destruct (handle_view_file _ _ _ Hx) as (fl & Hvx & H2x).
  assert (EC : contents (disk t) dr = contents (disk s) dr).
  { apply (Hd1 ROOT_DIR_SECTOR); [apply Hdir|unfold ROOT_DIR_SECTOR; lia]. }
  assert (Hdt : dir_inv t I dr).
  { eapply (dir_inv_same s t I I); [done|done|done| |apply Hdir|done]. intros q fq Hq.
    destruct (decide (q = h)) as [->|Hne]; [|rewrite Hv in Hq by done; eauto].
    rewrite Hvx in Hq. injection Hq as _ E. unfold ROOT_DIR_SECTOR in E. lia. }
  split; cbn [names files handles with_handle set_handles set_files]; try done.
  - intros nm Hnm. by rewrite EC, Hn.
  - intros j. destruct (decide (j = k)) as [->|Hne].
    + rewrite lookup_insert_eq, decide_True by done. destruct Hk as [d Hk]. rewrite Hk. cbn. by rewrite Hd2.
    + rewrite lookup_insert_ne, Hfl by done. symmetry. apply files_same. intros d Hj _. by apply (Hd1 j).
  - intros q. destruct (decide (q = h)) as [->|Hne]; [by rewrite lookup_insert_eq|].
    rewrite lookup_insert_ne, Hh by done. symmetry. apply handle_of_same. by apply Hv.
  - intros q d j. destruct (decide (q = h)) as [->|Hne]; [by rewrite Hvx|]. rewrite Hv by done. apply Hnd.
  - intros q y. destruct (decide (q = h)) as [->|Hne]; [rewrite lookup_insert_eq; by intros [= <-]|].
    rewrite lookup_insert_ne by done. apply Hp.
  - intros j H2 Hj. destruct (Hl j H2 Hj) as [?|Hrm]; [by left|right]. by apply (st_still _ _ _ Hst).
  - intros d0 H0. eapply steady_recorded; [done..|by apply Hrec].
Qed.

Lemma sim_write s a e h buf : abs s a -> valid a (Write h buf) -> wp (perform e (Write h buf)) (simulates a (Write h buf)) s.
Proof using Plenty.
  intros (I & dr & Ha) [[x Hx] Hn]. destruct (abs_handle Ha _ _ Hx) as (fl & i & Hu & -> & HI & Hfl).
  pose proof (ab_pos _ _ _ _ Ha _ _ Hx) as Hpos. cbn [at_pos] in Hpos.
  destruct (inv_inode _ _ (fi_disk _ _ _ (ab_inv _ _ _ _ Ha)) _ _ HI) as (_ & [_ Hsz _] & _).
  apply wp_bind. eapply wp_file_write; [apply Ha|done|done|lia|]. intros m t Hm Ht Hf Hv. apply wp_ret.
  rewrite (deny_count _ _ _ _ _ _ _ Ha Hu) in Hm. pose proof (SpecWrite a h buf _ _ Hx Hfl) as Hs. cbn zeta in Hs.
  assert (Em : Z.of_nat (write_size a (mk_open (sector i) (pos fl) (deny_write fl)) (contents (disk s) (data i)) buf) = m).
  { unfold write_size. cbn [of_file at_pos]. rewrite length_contents.
    destruct (decide (write_denied (sector i) a)) as [Hd|Hd].
    - rewrite bool_decide_eq_true_2 in Hm by done. by rewrite Hm.
    - rewrite bool_decide_eq_false_2 in Hm by done. destruct Hm as [->|[Hxx _]]; [lia|by destruct (not_exhausted Plenty s)]. }
  assert (Hm1 : 0 <= m /\ (0 < m -> pos fl + m <= file_size (data i))).
  { rewrite <- Em. unfold write_size. case_decide; cbn [at_pos]; rewrite ?length_contents; lia. }
  rewrite Em in Hs. eexists. split; [exact Hs|]. exists I, dr.
  replace (write_size _ _ _ _) with (Z.to_nat m) by lia. eapply abs_changed; [done|done|exact Hf|apply Hu|eauto| |cbn; lia].
  by apply (handle_of_view _ _ _ _ Hv), Hu.
Qed.

Lemma sim_open s a e nm : length e = 20%nat -> abs s a -> valid a (Open nm) -> wp (perform e (Open nm)) (simulates a (Open nm)) s.
Proof using Plenty.
  intros He (I & dr & Ha) Hz. cbn in Hz. apply wp_bind. eapply (wp_filesys_open Plenty); [apply Ha|apply Ha|done| |];
    rewrite <- (ab_names _ _ _ _ Ha) by done.
  - intros k f t Hk Ht Hdt (Hf0 & Hvs & [p Hvt] & Hfr). apply wp_ret. destruct (abs_name Ha _ _ Hk) as [H2 _].
    eexists. split; [eapply (SpecOpen a nm k f); [done|done|]|].
    + rewrite (ab_handles _ _ _ _ Ha). unfold handle_of. by rewrite Hvs.
    + exists I, dr. eapply abs_frame_at; [done..| |cbn; lia]. by apply (handle_of_view _ _ _ _ Hvt).
  - intros t Hk Ht Hdt Hfr. apply wp_ret. exists a. split; [by apply SpecNoOpen|]. exists I, dr.
    eapply abs_kept; [done..|]. by apply frame_kept.
Qed.

(** ** Calls that change the directory *)

Lemma has_name_insert k nm sec a : names a !! nm = None -> has_name k a ->
  map_Exists (fun _ k' => k' = k) (<[nm := sec]> (names a)).
Proof. intros Hn (nm' & k' & Hk & ->). exists nm', k. split; [|done]. rewrite lookup_insert_ne by congruence. done. Qed.

Lemma abs_linked s a I dr t I' nm size sec : abs_at s a I dr -> linked s t I I' dr nm size sec -> zero_free nm ->
  fs_inv t I' [] -> dir_inv t I' dr ->
  abs_at t (set_names (<[nm := sec]> (names a)) (set_files (<[sec := replicate (Z.to_nat size) 0]> (files a)) a)) I' dr.
Proof using Plenty.
  intros Ha [(_ & _ & Hnew) [Hsec H2] (d & -> & Hsz & Hcs) Hnames [Ec Hd Hv Hst]] Hzn Ht Hdt.
  pose proof Ha as [Hi Hdir Hn Hz Hfl Hh Hnd Hp Hl Hrec].
  split; cbn [names files handles set_names set_files]; try done.
  - intros nm' Hz'. rewrite Hnames by done. destruct (decide (nm' = nm)) as [->|Hne]; [by rewrite lookup_insert_eq|].
    rewrite lookup_insert_ne by done. by apply Hn.
  - intros nm' k. destruct (decide (nm' = nm)) as [->|Hne]; [done|]. rewrite lookup_insert_ne by done. apply Hz.
  - intros k. destruct (decide (k = sec)) as [->|Hne].
    + rewrite !lookup_insert_eq, decide_True by done. cbn. by rewrite Hcs.
    + rewrite !lookup_insert_ne, Hfl by done. symmetry. apply files_same. intros d' Hk H2k. by apply (Hd k).
  - intros h. rewrite Hh. symmetry. by apply handle_of_same.
  - intros h d' k. rewrite Hv. apply Hnd.
  - intros k H2k Hk. destruct (decide (k = sec)) as [->|Hne]; [left; exists nm, sec; cbn; by rewrite lookup_insert_eq|].
    rewrite lookup_insert_ne in Hk by done. destruct (Hl k H2k Hk) as [Hna|Hrm].
    + left. apply has_name_insert; [by rewrite Hn|done].
    + right. by apply (st_still _ _ _ Hst).
  - intros d0 H0. rewrite lookup_insert_ne in H0 by (unfold FREE_MAP_SECTOR; lia). eapply steady_recorded; [done..|by apply Hrec].
Qed.

Lemma sim_create s a e nm size : length e = 20%nat -> abs s a -> valid a (Create nm size) ->
  wp (perform e (Create nm size)) (simulates a (Create nm size)) s.
Proof using Plenty.
  intros He (I & dr & Ha) [Hz Hsize]. apply wp_bind. eapply (wp_filesys_create Plenty s I dr); [apply Ha|apply Ha|done|done|done| |].
  - intros t _ Ht Hdt Hk. apply wp_ret. exists a. split; [apply SpecNoCreate|]. exists I, dr. by eapply abs_kept.
  - intros I' sec t Hln Ht Hdt. apply wp_ret. eexists. split; [|exists I', dr; by eapply abs_linked].
    destruct Hln as [(Hne & Hle & Hnew) [Hsec H2] _ _ _]. apply SpecCreate; [done|done|by rewrite (ab_names _ _ _ _ Ha)|].
    rewrite (ab_files _ _ _ _ Ha), Hsec. by case_decide.
Qed.

Lemma abs_unlinked s a I dr t I' nm k : abs_at s a I dr -> unlinked s t I I' dr nm k -> zero_free nm ->
  fs_inv t I' [] -> dir_inv t I' dr -> abs_at t (collect k (set_names (delete nm (names a)) a)) I' dr.
Proof using Plenty.
  intros Ha [Hk Hw Hop Hnames [Ec Hd Hv Hst]] Hzn Ht Hdt. pose proof Ha as [Hi Hdir Hn Hz Hfl Hh Hnd Hp Hl Hrec].
  set (a1 := set_names _ a). rewrite <- Hn in Hk by done.
  assert (Hsub : I' ⊆ I) by (destruct Hw as [->|[_ ->]]; [done|apply delete_subseteq]).
  assert (Hh1 : forall h, handles a1 !! h = handle_of t h) by (intros h; cbn; rewrite Hh; symmetry; by apply handle_of_same).
  assert (Hn1 : forall nm', zero_free nm' -> names a1 !! nm' = sector_of (contents (disk t) dr) nm').
  { intros nm' Hz'. rewrite Hnames by done. cbn. destruct (decide (nm' = nm)) as [->|]; [by rewrite lookup_delete_eq|].
    rewrite lookup_delete_ne by done. by apply Hn. }
  assert (Hz1 : forall nm' k', names a1 !! nm' = Some k' -> zero_free nm').
  { intros nm' k' Hk'. cbn in Hk'. apply lookup_delete_Some in Hk' as [_ ?]. by eapply Hz. }
  assert (Hndt : forall h d k, view t h <> Some (Dir d, k)) by (intros h d j; rewrite Hv; apply Hnd).
  assert (Hl1 : forall j, 2 <= j -> is_Some (I' !! j) -> has_name j a1 \/ removed_sector t j).
  { intros j H2 Hj. destruct (decide (j = k)) as [->|Hne]; [right; by apply Hop|].
    destruct (Hl j H2) as [(nm' & k' & Hk' & ->)|Hrm]; [by destruct Hj as [d Hj]; exists d; eapply lookup_weaken| |].
    - left. exists nm', j. split; [|done]. cbn. rewrite lookup_delete_ne; [done|congruence].
    - right. by apply (st_still _ _ _ Hst). }
  destruct (abs_name Ha _ _ Hk) as [H2k _].
  assert (Hlive : is_Some (I' !! k) <-> has_name k a1 \/ is_open k a1).
  { apply (live_inodes t); try done; [|by apply Hl1]. intros (nm' & k' & Hk' & ->). rewrite Hn1 in Hk' by (by eapply Hz1).
    by destruct (sector_of_file _ _ _ _ _ Hdt Hk') as (_ & ? & _). }
  assert (Hnc : forall j, has_name j (collect k a1) <-> has_name j a1) by (intros j; unfold has_name; by rewrite names_collect).
  split; rewrite ?names_collect, ?handles_collect; try done.
  - eapply (files_collect a1 I I' (disk s)); [exact Hw|done|done|]. intros j d H2 Hj. by apply (Hd j).
  - intros j H2 Hj. rewrite Hnc. by apply Hl1.
  - intros d0 H0. eapply steady_recorded; [done..|]. apply Hrec. by eapply lookup_weaken.
Qed.

Lemma sim_remove s a e nm : length e = 20%nat -> abs s a -> valid a (Remove nm) ->
  wp (perform e (Remove nm)) (simulates a (Remove nm)) s.
Proof using Plenty.
  intros He (I & dr & Ha) Hz. cbn in Hz. apply wp_bind. eapply (wp_filesys_remove Plenty s I dr); [apply Ha|apply Ha|done|done| |].
  - rewrite <- (ab_names _ _ _ _ Ha) by done. intros t Hk Ht Hdt Hf. apply wp_ret. exists a. split; [by apply SpecNoRemove|].
    exists I, dr. eapply abs_kept; [done..|]. by apply frame_kept.
  - intros k I' t Hun Ht Hdt. apply wp_ret. exists (collect k (set_names (delete nm (names a)) a)).
    split; [|exists I', dr; by eapply abs_unlinked]. apply SpecRemove. rewrite (ab_names _ _ _ _ Ha) by done. apply Hun.
Qed.

Lemma abs_closed s a I dr t I' h k r : abs_at s a I dr -> without I I' k r -> (r = true -> removed_sector s k) ->
  fs_inv t I' [] -> frame_at I' h s t -> view t h = None -> 2 <= k ->
  abs_at t (collect k (set_handles (delete h (handles a)) a)) I' dr.
Proof using Plenty.
  intros Ha Hw Hrk Ht [Ec Ef Hd Hv Hr _ Hst] Hvh H2k. pose proof Ha as [Hi Hdir Hn Hz Hfl Hh Hnd Hp Hl Hrec].
  set (a1 := set_handles _ a).
  assert (Hsub : I' ⊆ I) by (destruct Hw as [->|[_ ->]]; [done|apply delete_subseteq]).
  assert (Hroot : I' !! ROOT_DIR_SECTOR = Some dr).
  { destruct Hw as [->|[_ ->]]; [apply Hdir|]. rewrite lookup_delete_ne; [apply Hdir|unfold ROOT_DIR_SECTOR; lia]. }
  assert (EC : contents (disk t) dr = contents (disk s) dr) by (by apply (Hd ROOT_DIR_SECTOR)).
  assert (Hdt : dir_inv t I' dr).
  { eapply (dir_inv_same s t I I'); [done|done|done| |done|].
    - intros q fl. destruct (decide (q = h)) as [->|Hne]; [by rewrite Hvh|]. rewrite Hv by done. eauto.
    - intros j _ Hnr Hj. destruct Hw as [->|[-> ->]]; [done|]. rewrite lookup_delete_ne; [done|]. intros <-. by apply Hnr, Hrk. }
  assert (Hh1 : forall q, handles a1 !! q = handle_of t q).
  { intros q. cbn. destruct (decide (q = h)) as [->|Hne]; [rewrite lookup_delete_eq; unfold handle_of; by rewrite Hvh|].
    rewrite lookup_delete_ne, Hh by done. symmetry. apply handle_of_same. by apply Hv. }
  assert (Hndt : forall q d k, view t q <> Some (Dir d, k)).
  { intros q d j. destruct (decide (q = h)) as [->|Hne]; [by rewrite Hvh|]. rewrite Hv by done. apply Hnd. }
  assert (Hl1 : forall j, 2 <= j -> is_Some (I' !! j) -> has_name j a1 \/ removed_sector t j).
  { intros j H2 Hj. destruct (Hl j H2) as [?|Hrm]; [by destruct Hj as [d Hj]; exists d; eapply lookup_weaken|by left|].
    right. by apply (st_still _ _ _ Hst). }
  assert (Hlive : is_Some (I' !! k) <-> has_name k a1 \/ is_open k a1).
  { apply (live_inodes t); try done; [|by apply Hl1]. intros (nm' & k' & Hk' & ->). cbn in Hk'.
    rewrite Hn, <- EC in Hk' by (by eapply Hz). by destruct (sector_of_file _ _ _ _ _ Hdt Hk') as (_ & ? & _). }
  split; rewrite ?names_collect, ?handles_collect; try done.
  - intros nm Hnm. rewrite EC. by apply Hn.
  - eapply (files_collect a1 I I' (disk s)); [exact Hw|done|done|]. intros j d H2 Hj. apply (Hd j); [done|unfold FREE_MAP_SECTOR; lia].
  - intros q x Hq. cbn in Hq. apply lookup_delete_Some in Hq as [_ Hq]. by apply (Hp q).
  - intros j H2 Hj. unfold has_name. rewrite names_collect. by apply Hl1.
  - intros d0 H0. eapply steady_recorded; [done..|]. apply Hrec. by eapply lookup_weaken.
Qed.

Lemma sim_close s a e h : abs s a -> valid a (Close h) -> wp (perform e (Close h)) (simulates a (Close h)) s.
Proof using Plenty.
  intros (I & dr & Ha) [x Hx]. destruct (abs_handle Ha _ _ Hx) as (fl & i & Hu & -> & _).
  apply wp_bind. eapply wp_file_close; [apply Ha|done|]. intros I' t Hw Ht Hf Hv. apply wp_ret.
  eexists. split; [exact (SpecClose a h _ Hx)|]. exists I', dr. eapply abs_closed; [done|exact Hw| |done|done|done|apply Hu].
  intros Hr. exists (file_inode fl), i. split; [apply Hu|done].
Qed.

(** ** All calls *)

Lemma sim_call s a e c : length e = 20%nat -> abs s a -> valid a c -> wp (perform e c) (simulates a c) s.
Proof using Plenty.
  intros He Ha Hv. destruct c; [by apply sim_create|by apply sim_open|by apply sim_remove|by apply sim_close|by apply sim_read
    |by apply sim_write|by apply sim_seek|by apply sim_tell|by apply sim_length|by apply sim_deny|by apply sim_allow].
Qed.

(** ** Formatting and restarting *)

(** Only the free map's file is open. *)
Definition only_map (t : fs) : Prop := forall h o, view t h = Some o -> h = free_map_file t /\ o.2 = FREE_MAP_SECTOR.

Lemma only_map_handles t I : fs_inv t I [] -> only_map t ->
  (forall h, handle_of t h = None) /\ (forall h d k, view t h <> Some (Dir d, k)).
Proof.
  intros Ht Ho. split.
  - intros h. unfold handle_of. destruct (view t h) as [[[] k]|] eqn:E; try done.
    rewrite decide_False; [done|]. apply Ho in E as [_ E]. cbn in E. rewrite E. unfold FREE_MAP_SECTOR. lia.
  - intros h d k E. destruct (Ho _ _ E) as [-> _]. destruct (fi_map _ _ _ Ht) as (d0 & _ & _ & f & i & Hf & _).
    unfold view in E. rewrite Hf in E. destruct (heap t !! file_inode f) as [[]|]; done.
Qed.

Lemma sim_format s : is_ata s = true -> none_open s -> big_enough (capacity s) -> 2 <= capacity s ->
  sectors_ok (capacity s) (disk s) -> free_map_file s = NULL ->
  wp (filesys_init true) (fun _ t => abs t empty_fs) s.
Proof using Plenty.
  intros H1 H2 H3 H4 H5 H6. eapply (wp_filesys_format Plenty); [done..|].
  intros t I d0 dr Ht [Hmap Honly Hdir Hem Hsz Hv Hrec] Ec. exists I, dr.
  assert (Hno : forall k, 2 <= k -> I !! k = None).
  { intros k Hk. apply eq_None_not_Some. intros Hs. destruct (Honly k Hs) as [-> | ->]; unfold FREE_MAP_SECTOR, ROOT_DIR_SECTOR in Hk; lia. }
  destruct (only_map_handles _ _ Ht Hv) as [Hh Hnd]. split; cbn [names files handles empty_fs]; try done.
  - intros nm _. rewrite lookup_empty. symmetry. unfold sector_of. apply fmap_None.
    destruct (find_entry _ _ _) as [j|] eqn:E; [|done]. apply find_entry_Some in E as (Hj & Hn & _).
    unfold named in Hn. rewrite Hem, entry_zeros in Hn by lia. done.
  - intros k. rewrite lookup_empty. case_decide; [|done]. by rewrite Hno.
  - intros k Hk [d Hs]. by rewrite Hno in Hs.
  - intros e He. by assert (e = d0) as -> by congruence.
Qed.

(** A disk stays as it is when other sectors are marked in the same way. *)
Lemma disk_inv_remap s I b : disk_inv s I -> wf b -> bit_cnt b = capacity s ->
  (forall j, 0 <= j < capacity s -> bit b j = bit (free_map s) j) -> disk_inv (set_free_map b s) I.
Proof.
  intros [Hcap Hs Hm Hc Hi Hk Hap Hse Hmg] Hw Hbc Hb. split; cbn; try done. intros k d j Hd Ho. rewrite Hb; [by eapply Hk|].
  destruct (Hi k d Hd) as (Hkr & [He1 He2 He3] & _). destruct Ho as [->|[Ho1 Ho2]]; [done|]. lia.
Qed.

Lemma sim_restart s a : abs s a -> wp (filesys_init false) (fun _ t => abs t (after_restart a)) (restart s).
Proof using Plenty.
  intros (I & dr & Ha). pose proof Ha as [Hi Hdir Hn Hz Hfl Hh Hnd Hp Hl Hrec].
  destruct (fi_map _ _ _ Hi) as (d0 & H0 & _ & _ & _ & _ & _ & _ & _ & _ & _ & _ & _ & Hsz).
  destruct (Hrec d0 H0) as (b & Hw & Hbc & Hb & Hsv).
  set (I' := filter (fun kv => kv.1 < 2 \/ has_name kv.1 a) I).
  assert (Hsub : I' ⊆ I) by apply map_filter_subseteq.
  assert (HI' : forall k, k < 2 \/ has_name k a -> I' !! k = I !! k).
  { intros k Hk. unfold I'. destruct (I !! k) as [d|] eqn:E; [by apply map_lookup_filter_Some|].
    apply map_lookup_filter_None. by left. }
  assert (H0' : I' !! FREE_MAP_SECTOR = Some d0) by (rewrite HI'; [done|left; done]).
  assert (Hd : disk_inv (set_free_map b (restart s)) I').
  { eapply disk_inv_sub; [exact Hsub|]. pose proof (disk_inv_remap s I b (fi_disk _ _ _ Hi) Hw Hbc Hb) as []. by split. }
  eapply (wp_filesys_mount Plenty (restart s) b I' d0); [done|by split|done|done|done|exact Hsv|].
  intros t [Ht Edk Ec Hbits Hv Hr Hrc]. cbn in Edk, Ec. exists I', dr.
  destruct (only_map_handles _ _ Ht Hv) as [Hho Hdo].
  assert (Hname : forall nm k, names a !! nm = Some k -> I' !! k = I !! k).
  { intros nm k Hk. apply HI'. right. by exists nm, k. }
  split; cbn [names files handles after_restart]; rewrite ?Edk; try done.
  - eapply (dir_inv_same s t I I' dr); [done|by rewrite Edk|intros k Hk; by destruct (Hr k)| | |].
    + intros h fl E. by destruct (Hv _ _ E) as [_ ?].
    + rewrite HI'; [apply Hdir|left; done].
    + intros k H2 Hnr Hk. destruct (Hl k H2 Hk) as [Hk'|?]; [|done]. by rewrite HI' by (by right).
  - intros k. rewrite map_lookup_filter, Hfl. destruct (decide (2 <= k)) as [H2|H2]; [|done].
    unfold I'. rewrite map_lookup_filter. destruct (I !! k) as [d|]; [|done]. cbn.
    destruct (decide (has_name k a)) as [Hk|Hk].
    + rewrite !option_guard_True; [done|by right|done].
    + rewrite !option_guard_False; [done|intros [?|?]; [lia|done]|done].
  - intros k Hk [d Hs]. left. unfold I' in Hs. apply map_lookup_filter_Some in Hs as [_ [Hs|Hs]]; [cbn in Hs; lia|done].
Qed.
End Sim.
