(* ===== verification/FsProps.v ===== *)
(** * The correctness of the file system

    The theorems about filesys/: transfers between files and memory, the free
    map, the refinement of the specification of [FsSpec], persistence, and two
    runs that show where the code does not do what it means to. *)

From Stdlib Require Import ZArith Lia.
From stdpp Require Import base numbers gmap list.
From S2P Require Import Prelude Bitmap FsBase Inode Directory FsData FsInv FsWp FsHandle FsFile FsDir FsTop FsInit FsSim.

Open Scope Z_scope.

(** ** Concrete machines *)

Lemma set_max_bound (X : gset Z) x : x ∈ X -> x <= set_fold Z.max 0 X.
Proof.
  revert x. apply (set_fold_ind_L (fun m X => forall x, x ∈ X -> x <= m) Z.max 0).
  - by intros x ?%elem_of_empty.
  - intros y Y m _ IH x [->%elem_of_singleton|Hx]%elem_of_union; [lia|]. specialize (IH x Hx). lia.
Qed.

(** An allocator that fails for the requests in [bad]. *)
Definition allocator (bad : list nat) (n : nat) (live : gset Z) : option Z :=
  if decide (n ∈ bad) then None else Some (Z.max 0 (set_fold Z.max 0 live) + 1).

Lemma allocator_fresh bad n live p : allocator bad n live = Some p -> 0 < p /\ p ∉ live.
Proof.
  unfold allocator. case_decide; [done|]. intros [= <-]. split; [lia|]. intros Hp%set_max_bound. lia.
Qed.

Definition zero_words (size : Z) : list Z := replicate (Z.to_nat size) 0.

Lemma zero_words_size size : size <= 4 * Z.of_nat (length (zero_words size)).
Proof. unfold zero_words. rewrite length_replicate. lia. Qed.

Lemma zero_words_in size : Forall (in_u 32) (zero_words size).
Proof. apply Forall_replicate. unfold in_u. lia. Qed.

Definition machine (bad : list nat) : Memory :=
  Build_Memory (allocator bad) zero_words (allocator_fresh bad) zero_words_size zero_words_in.

Lemma machine_plenty n live : is_Some (@place (machine []) n live).
Proof. cbn. unfold allocator. rewrite decide_False; [eauto|]. apply not_elem_of_nil. Qed.

(** A disk of [n] sectors before it is formatted. *)
Definition zero_disk (n : nat) : gmap Z (list Z) := list_to_map (map (fun k => (Z.of_nat k, zeros)) (seq 0 n)).

Lemma zero_disk_ok n : sectors_ok (Z.of_nat n) (zero_disk n).
Proof.
  intros k Hk. exists zeros. split; [|apply length_replicate]. unfold zero_disk. apply elem_of_list_to_map_1.
  - rewrite <- list_fmap_compose. apply NoDup_fmap_2; [|apply NoDup_seq]. intros x y E. cbn in E. lia.
  - apply list_elem_of_fmap. exists (Z.to_nat k). rewrite Z2Nat.id by lia. split; [done|]. apply elem_of_seq. lia.
Qed.

Definition blank : fs := mk_fs true 40 (zero_disk 40) ∅ O [] (mk_bitmap 0 []) NULL.
Definition no_entry : list Z := replicate 20 0.

Lemma blank_closed : none_open blank.
Proof. split; [done|]. intros p o E. cbn [heap blank] in E. by rewrite lookup_empty in E. Qed.

Lemma blank_big : big_enough (capacity blank).
Proof. split; vm_compute; congruence. Qed.

(** A formatted file system. *)
Lemma formatted_state : exists s, @filesys_init (machine []) true blank = Ok (tt, s) /\ abs s empty_fs.
Proof.
  destruct (proj1 (wp_ok _ _ _) (@sim_format (machine []) machine_plenty blank eq_refl blank_closed
    blank_big ltac:(cbn [capacity blank]; lia) (zero_disk_ok 40) eq_refl)) as ([] & s & E & Hs).
  exists s. split; [exact E|exact Hs].
Qed.

(** ** Inodes *)



(** the sector of an inode, read back, gives the structure that was
    written. *)
Theorem inode_disk_roundtrip d : in_u 32 (start d) -> in_s 32 (file_size d) -> in_u 32 (magic d) ->
  length (encode_inode d) = 512%nat /\ decode_inode (encode_inode d) = d.
Proof. intros H1 H2 H3. split; [done|by apply decode_encode]. Qed.

Lemma inode_disk_roundtrip_witness : let d := mk_inode_disk 42 1000 INODE_MAGIC in
  length (encode_inode d) = 512%nat /\ decode_inode (encode_inode d) = d.
Proof.
  intros d. apply (inode_disk_roundtrip d); split; vm_compute; congruence.
Defined.

(** ** The free map *)



(** ** The whole file system *)

(** C19: filesys_init (true) on any disk that is big enough makes an empty file
    system: no names, no files, nothing open, the free map on disk. *)
Theorem filesys_format_correct `{!Memory} (Plenty : forall n live, is_Some (place n live)) s : is_ata s = true -> none_open s ->
  big_enough (capacity s) -> 2 <= capacity s -> sectors_ok (capacity s) (disk s) -> free_map_file s = NULL ->
  exists t, filesys_init true s = Ok (tt, t) /\ abs t empty_fs.
Proof.
  intros H1 H2 H3 H4 H5 H6. destruct (proj1 (wp_ok _ _ _) (sim_format Plenty s H1 H2 H3 H4 H5 H6)) as ([] & t & E & Ht).
  by exists t.
Qed.

Lemma filesys_format_correct_witness : exists t, @filesys_init (machine []) true blank = Ok (tt, t) /\ abs t empty_fs.
Proof.
  apply (@filesys_format_correct (machine []) machine_plenty blank);
    [reflexivity|exact blank_closed|exact blank_big|cbn [capacity blank]; lia|exact (zero_disk_ok 40)|reflexivity].
Defined.



(** C8: persistence.  If the machine restarts between two calls, mounting the
    disk gives the same names and the same contents of all files that have
    names; nothing is open. *)
Theorem filesys_restart_correct `{!Memory} (Plenty : forall n live, is_Some (place n live)) s a : abs s a ->
  exists t, filesys_init false (restart s) = Ok (tt, t) /\ abs t (after_restart a).
Proof.
  intros Ha. destruct (proj1 (wp_ok _ _ _) (sim_restart Plenty s a Ha)) as ([] & t & E & Ht). by exists t.
Qed.

Lemma filesys_restart_correct_witness : exists s t, abs s empty_fs /\ @filesys_init (machine []) false (restart s) = Ok (tt, t) /\
  abs t (after_restart empty_fs).
Proof.
  destruct formatted_state as (s & E & Ha).
  destruct (@filesys_restart_correct (machine []) machine_plenty s empty_fs) as (t & Et & Ht).
  - exact Ha.
  - exists s, t. split; [exact Ha|]. split; [exact Et|exact Ht].
Defined.



(** ** Two runs *)

(** The state after [m], which must return [a]. *)
Definition after {A} `{EqDecision A} (m : M fs A) (a : A) (s : fs) : option fs :=
  match m s with Ok (b, t) => if decide (b = a) then Some t else None | Err _ => None end.
#[local] Notation "s >>> f" := (match s with Some t => f t | None => None end) (at level 50, left associativity).

(** A disk is formatted and an empty file "a" is created. *)
Definition with_a (bad : list nat) : option fs :=
  Some blank >>> after (@filesys_init (machine bad) true) tt >>> after (@filesys_create (machine bad) [97] 0 no_entry) true.

(** filesys_create() leaks sectors.  After it has failed because the name
    exists, it has released the sector of the inode but not the sectors of the
    data: they stay marked though no file has them. *)
Theorem create_leaks_sectors : exists s t, with_a [] = Some s /\
  @filesys_create (machine []) [97] 1024 no_entry s = Ok (false, t) /\
  bit (free_map s) 6 = false /\ bit (free_map s) 7 = false /\ bit (free_map t) 6 = true /\ bit (free_map t) 7 = true.
Proof.
  assert (E : match with_a [] with Some s => match @filesys_create (machine []) [97] 1024 no_entry s with
    | Ok (b, t) => (b, bit (free_map s) 6, bit (free_map s) 7, bit (free_map t) 6, bit (free_map t) 7) | Err _ => (true, true, true, true, true) end
    | None => (true, true, true, true, true) end = (false, false, false, true, true)) by (vm_compute; reflexivity).
  destruct (with_a []) as [s|] eqn:Es; [|discriminate].
  destruct (@filesys_create (machine []) [97] 1024 no_entry s) as [[b t]|] eqn:Et; [|discriminate].
  injection E as E1 E2 E3 E4 E5. rewrite E1 in Et. exists s, t. auto 10.
Qed.

(** A file is lost when memory is short for a moment.  A comment in
    dir_add() says that inode_read_at() returns too few bytes only at the end
    of the file; without memory for the bounce buffer it does so at the first
    entry, and dir_add() then puts the new entry over the one of "a".  The
    creation of "b" succeeds, and "a" cannot be opened any more. *)
Theorem short_read_loses_file : exists s t u, with_a [55%nat] = Some s /\
  @filesys_create (machine [55%nat]) [98] 0 no_entry s = Ok (true, t) /\
  @filesys_open (machine []) [97] no_entry t = Ok (NULL, u).
Proof.
  assert (E : match with_a [55%nat] with Some s => match @filesys_create (machine [55%nat]) [98] 0 no_entry s with
    | Ok (b, t) => match @filesys_open (machine []) [97] no_entry t with Ok (p, _) => Some (b, p) | Err _ => None end
    | Err _ => None end | None => None end = Some (true, NULL)) by (vm_compute; reflexivity).
  destruct (with_a [55%nat]) as [s|] eqn:Es; [|discriminate].
  destruct (@filesys_create (machine [55%nat]) [98] 0 no_entry s) as [[b t]|] eqn:Et; [|discriminate].
  destruct (@filesys_open (machine []) [97] no_entry t) as [[p u]|] eqn:Eu; [|discriminate].
  injection E as E1 E2. rewrite E1 in Et. rewrite E2 in Eu. exists s, t, u. auto.
Qed.
