(* ===== verification/CStdlib.v ===== *)
(** * lib/stdlib.c and lib/ctype.h

    The functions, and then the correctness of sorting, searching and atoi(). *)

From Stdlib Require Import ZArith Lia.
From stdpp Require Import base numbers gmap list sorting.
From S2P Require Import Prelude Bytes.

Open Scope Z_scope.

(** * The code

    Character classes, atoi(), and sorting and searching of arrays in a memory
    of bytes.  The comparison function that the caller passes is a parameter:
    a computation that looks at two elements and leaves the memory alone. *)

(** ** ctype.h *)

Definition islower (c : Z) : bool := (97 <=? c) && (c <=? 122).
Definition isupper (c : Z) : bool := (65 <=? c) && (c <=? 90).
Definition isalpha (c : Z) : bool := islower c || isupper c.
Definition isdigit (c : Z) : bool := (48 <=? c) && (c <=? 57).
Definition isalnum (c : Z) : bool := isalpha c || isdigit c.
Definition isxdigit (c : Z) : bool := isdigit c || ((97 <=? c) && (c <=? 102)) || ((65 <=? c) && (c <=? 70)).
Definition isspace (c : Z) : bool := (c =? 32) || (c =? 12) || (c =? 10) || (c =? 13) || (c =? 9) || (c =? 11).
Definition isblank (c : Z) : bool := (c =? 32) || (c =? 9).
Definition isgraph (c : Z) : bool := (32 <? c) && (c <? 127).
Definition isprint (c : Z) : bool := (32 <=? c) && (c <? 127).
Definition iscntrl (c : Z) : bool := ((0 <=? c) && (c <? 32)) || (c =? 127).
Definition isascii (c : Z) : bool := (0 <=? c) && (c <? 128).
Definition ispunct (c : Z) : bool := isprint c && negb (isalnum c) && negb (isspace c).
Definition tolower (c : Z) : Z := if isupper c then c - 65 + 97 else c.
Definition toupper (c : Z) : Z := if islower c then c - 97 + 65 else c.

(** ** atoi *)

(** [char] is signed. *)
Definition i8 (x : Z) : Z := swrap 8 x.

Definition atoi (s : Z) : M bytes Z :=
  ASSERT (negb (s =? NULL));;
  ws ← sloop (fun i => c ← load8 (s + i); ret (if isspace c then inl (i + 1) else inr i)) 0;
  let s := s + ws in
  c ← load8 s;
  let negative := i8 c =? 45 in
  let s := if (i8 c =? 43) || (i8 c =? 45) then s + 1 else s in
  value ← sloop (fun '(i, value) =>
    c ← load8 (s + i);
    ret (if isdigit (i8 c) then inl (i + 1, i32 (value * 10 - (i8 c - 48))) else inr value)) (0, 0);
  ret (if negative then value else i32 (- value)).

(** ** Sorting and searching *)

Section Array.
Context (size : Z) (compare : Z -> Z -> M bytes Z).

(** Elements have indices from 1 on. *)
Definition do_swap (array a_idx b_idx : Z) : M bytes unit :=
  let a := array + u32 ((a_idx - 1) * size) in
  let b := array + u32 ((b_idx - 1) * size) in
  for_from (Z.to_nat size) 0 (fun i =>
    t ← load8 (a + i);
    u ← load8 (b + i);
    store8 (a + i) u;;
    store8 (b + i) t).

Definition do_compare (array a_idx b_idx : Z) : M bytes Z :=
  compare (array + u32 ((a_idx - 1) * size)) (array + u32 ((b_idx - 1) * size)).

(** The element moves down at most [cnt] times. *)
Definition heapify (array i cnt : Z) : M bytes unit :=
  iterate (S (Z.to_nat cnt)) (fun i =>
    let left := u32 (2 * i) in
    let right := u32 (2 * i + 1) in
    max ← (if left <=? cnt then
             c ← do_compare array left i;
             ret (if 0 <? c then left else i)
           else ret i);
    max ← (if right <=? cnt then
             c ← do_compare array right max;
             ret (if 0 <? c then right else max)
           else ret max);
    if max =? i then ret (inr tt) else
    do_swap array i max;;
    ret (inl max)) i.

Definition sort (array cnt : Z) : M bytes unit :=
  ASSERT (negb (array =? NULL) || (cnt =? 0));;
  ASSERT (0 <? size);;
  for_from (Z.to_nat (cnt / 2)) 0 (fun k => heapify array (cnt / 2 - k) cnt);;
  for_from (Z.to_nat (cnt - 1)) 0 (fun k =>
    let i := cnt - k in
    do_swap array 1 i;;
    heapify array 1 (i - 1)).

Definition binary_search (key array cnt : Z) : M bytes Z :=
  iterate (S (Z.to_nat cnt)) (fun '(first, last) =>
    if negb (first <? last) then ret (inr NULL) else
    let range := (last - first) / size in
    let middle := first + range / 2 * size in
    cmp ← compare key middle;
    ret (if cmp <? 0 then inl (first, middle)
         else if 0 <? cmp then inl (middle + size, last)
         else inr middle)) (array, array + size * cnt).
End Array.

(** The function that the caller passes to qsort() and bsearch() has no
    auxiliary argument; compare_thunk() passes the others on. *)
Definition compare_thunk (compare : Z -> Z -> M bytes Z) (a b : Z) : M bytes Z := compare a b.
Definition qsort (array cnt size : Z) (compare : Z -> Z -> M bytes Z) : M bytes unit :=
  sort size (compare_thunk compare) array cnt.
Definition bsearch (key array cnt size : Z) (compare : Z -> Z -> M bytes Z) : M bytes Z :=
  binary_search size (compare_thunk compare) key array cnt.

(** * Sorting and searching are correct

    sort() is a heap sort: the array is first made a heap, then its largest
    element goes to the end of what is left.  The proofs are on the sequence of
    elements; [arr] says that the memory holds it. *)

(** ** Sequences *)

(** The element with index [k], from 1 on. *)
Definition el {A} (xs : list A) (k : Z) : option A := if k <? 1 then None else xs !! Z.to_nat (k - 1).

Definition swapped {A} (i j : Z) (xs : list A) : list A :=
  match el xs i, el xs j with
  | Some x, Some y => <[Z.to_nat (i - 1) := y]> (<[Z.to_nat (j - 1) := x]> xs)
  | _, _ => xs
  end.

Section Seq.
Context {A : Type}.
Implicit Types xs : list A.

Lemma el_Some xs k x : el xs k = Some x -> 1 <= k <= Z.of_nat (length xs).
Proof. unfold el. destruct (Z.ltb_spec k 1); [done|]. intros E%lookup_lt_Some. lia. Qed.

Lemma el_is_Some xs k : 1 <= k <= Z.of_nat (length xs) -> exists x, el xs k = Some x.
Proof.
  intros Hk. unfold el. rewrite (proj2 (Z.ltb_ge k 1)) by lia. apply lookup_lt_is_Some_2. lia.
Qed.

Lemma length_swapped i j xs : length (swapped i j xs) = length xs.
Proof. unfold swapped. destruct (el xs i), (el xs j); rewrite ?length_insert; done. Qed.

Lemma el_swapped i j xs k : 1 <= i <= Z.of_nat (length xs) -> 1 <= j <= Z.of_nat (length xs) ->
  el (swapped i j xs) k = if decide (k = i) then el xs j else if decide (k = j) then el xs i else el xs k.
Proof.
  intros Hi Hj. unfold swapped. destruct (el_is_Some xs i Hi) as [x Ex], (el_is_Some xs j Hj) as [y Ey]. rewrite Ex, Ey.
  unfold el at 1. destruct (Z.ltb_spec k 1) as [Hk|Hk].
  - rewrite !decide_False by lia. unfold el. rewrite (proj2 (Z.ltb_lt k 1)) by lia. done.
  - destruct (decide (k = i)) as [->|Hne]; [rewrite list_lookup_insert_eq; [done|rewrite length_insert; lia]|].
    rewrite list_lookup_insert_ne by lia.
    destruct (decide (k = j)) as [->|Hne']; [rewrite list_lookup_insert_eq; [done|lia]|].
    rewrite list_lookup_insert_ne by lia. unfold el. by rewrite (proj2 (Z.ltb_ge k 1)) by lia.
Qed.

Lemma swapped_perm i j xs : swapped i j xs ≡ₚ xs.
Proof.
  unfold swapped. destruct (el xs i) as [x|] eqn:Ei; [|done]. destruct (el xs j) as [y|] eqn:Ej; [|done].
  pose proof (el_Some _ _ _ Ei) as Hi. pose proof (el_Some _ _ _ Ej) as Hj. unfold el in Ei, Ej.
  rewrite (proj2 (Z.ltb_ge i 1)) in Ei by lia. rewrite (proj2 (Z.ltb_ge j 1)) in Ej by lia.
  set (a := Z.to_nat (i - 1)) in *. set (b := Z.to_nat (j - 1)) in *.
  apply Permutation_inj. split; [by rewrite !length_insert|].
  exists (fun k => if decide (k = a) then b else if decide (k = b) then a else k). split.
  - intros k k' E. repeat case_decide; congruence.
  - intros k. destruct (decide (k = a)) as [->|].
    + rewrite list_lookup_insert_eq; [done|rewrite length_insert; lia].
    + rewrite list_lookup_insert_ne by done. destruct (decide (k = b)) as [->|].
      * rewrite list_lookup_insert_eq; [done|lia].
      * by rewrite list_lookup_insert_ne.
Qed.

(** The first element and the last one change places. *)
Lemma swapped_ends (x : A) mid (y : A) : swapped 1 (Z.of_nat (length (x :: mid ++ [y]))) (x :: mid ++ [y]) = y :: mid ++ [x].
Proof.
  apply list_eq. intros k.
  assert (E : forall zs : list A, zs !! k = el zs (Z.of_nat k + 1)).
  { intros zs. unfold el. rewrite (proj2 (Z.ltb_ge _ 1)) by lia. f_equal. lia. }
  rewrite !E, el_swapped; [|cbn [length]; lia|cbn [length]; lia].
  assert (El : forall z w : A, el (z :: mid ++ [w]) (Z.of_nat (length (x :: mid ++ [y]))) = Some w).
  { intros z w. unfold el. rewrite (proj2 (Z.ltb_ge _ 1)) by (cbn [length]; lia). cbn [length]. rewrite length_app.
    replace (Z.to_nat _) with (S (length mid)) by (cbn [length]; lia). change ((mid ++ [w]) !! length mid = Some w).
    rewrite lookup_app_r by lia. by rewrite Nat.sub_diag. }
  destruct (decide (Z.of_nat k + 1 = 1)) as [Ek|Hk]; [rewrite El, Ek; done|].
  destruct (decide (Z.of_nat k + 1 = Z.of_nat (length (x :: mid ++ [y])))) as [Ek|Hk']; [rewrite Ek, El; done|].
  unfold el. destruct (Z.of_nat k + 1 <? 1); [done|]. replace (Z.to_nat (Z.of_nat k + 1 - 1)) with k by lia.
  destruct k as [|k]; [lia|]. change ((mid ++ [y]) !! k = (mid ++ [x]) !! k). cbn [length] in Hk'. rewrite length_app in Hk'. cbn in Hk'.
  destruct (decide (k < length mid)%nat); [by rewrite !lookup_app_l|]. rewrite !lookup_ge_None_2; [done|..]; rewrite length_app; cbn; lia.
Qed.
End Seq.

(** ** Heaps *)

Section Heap.
Context {A : Type} (cmp : A -> A -> Z).
Context (cmp_sym : forall x y, 0 < cmp x y <-> cmp y x < 0).
Context (cmp_trans : forall x y z, cmp x y <= 0 -> cmp y z <= 0 -> cmp x z <= 0).
Implicit Types xs : list A.

Lemma cmp_refl x : cmp x x <= 0.
Proof using cmp_sym. pose proof (cmp_sym x x). lia. Qed.

Lemma cmp_total x y : 0 < cmp x y -> cmp y x <= 0.
Proof using cmp_sym. rewrite cmp_sym. lia. Qed.

(** The element at [c], if any, is at most the one at [j]. *)
Definition below xs (c j : Z) : Prop := forall x y, el xs c = Some x -> el xs j = Some y -> cmp x y <= 0.
Definition child (j c : Z) : Prop := c = 2 * j \/ c = 2 * j + 1.

(** From index [i0] on, no element is larger than its parent; in [heap_but] the
    children of [i] need only be at most the parent of [i]. *)
Definition heap xs (i0 : Z) : Prop := forall j c, i0 <= j -> child j c -> below xs c j.
Definition heap_but xs (i0 i : Z) : Prop :=
  (forall j c, i0 <= j -> j <> i -> child j c -> below xs c j) /\
  (forall j c, i0 <= j -> child j i -> child i c -> below xs c j).

(** [m] is the index of the largest element among [i] and its children. *)
Definition largest xs (i m : Z) : Prop :=
  (m = i \/ child i m) /\ exists v, el xs m = Some v /\
  forall c x, c = i \/ child i c -> el xs c = Some x -> cmp x v <= 0.

Lemma heap_done xs i0 i : heap_but xs i0 i -> largest xs i i -> heap xs i0.
Proof using Type.
  intros [H1 _] (_ & v & Ev & Hv) j c Hj Hc. destruct (decide (j = i)) as [->|]; [|by apply H1].
  intros x y Ex Ey. assert (y = v) as -> by congruence. apply (Hv c); [by right|done].
Qed.

Lemma heap_step xs i0 i m : 1 <= i0 <= i -> heap_but xs i0 i -> largest xs i m -> m <> i ->
  1 <= i <= Z.of_nat (length xs) -> heap_but (swapped i m xs) i0 m.
Proof using Type.
  intros Hi0 [H1 H2] (Hm & v & Ev & Hv) Hne Hi. destruct Hm as [->|Hm]; [done|].
  pose proof (el_Some _ _ _ Ev) as Hml. assert (Hmi : i < m) by (destruct Hm; lia).
  assert (Hel : forall k, el (swapped i m xs) k = if decide (k = i) then Some v else if decide (k = m) then el xs i else el xs k).
  { intros k. rewrite el_swapped by lia. by rewrite Ev. }
  split.
  - intros j c Hj Hjm Hc x y. rewrite !Hel. rewrite (decide_False (P := j = m)) by done.
    destruct (decide (j = i)) as [->|Hji].
    + intros Ex [= <-]. destruct (decide (c = i)) as [->|Hci]; [destruct Hc; lia|].
      destruct (decide (c = m)) as [->|Hcm]; [apply (Hv i); auto|apply (Hv c); auto].
    + destruct (decide (c = i)) as [->|Hci].
      * intros [= <-] Ey. apply (H2 j m); auto.
      * destruct (decide (c = m)) as [->|Hcm]; [destruct Hm, Hc; lia|]. by apply H1.
  - intros j c Hj Hjm Hc x y. rewrite !Hel.
    assert (j = i) as -> by (destruct Hm, Hjm; lia). rewrite (decide_True (P := i = i)) by done.
    rewrite !decide_False by (destruct Hc, Hm; lia). intros Ex [= <-]. apply (H1 m c); [lia|done|done|done|done].
Qed.

(** The first element of a heap is its largest one. *)
Lemma heap_max xs x k y : heap xs 1 -> el xs 1 = Some x -> el xs k = Some y -> cmp y x <= 0.
Proof using cmp_sym cmp_trans.
  intros Hh Hx. revert y. assert (Hk : 1 <= k \/ k < 1) by lia.
  destruct Hk as [Hk|Hk]; [|intros y Hy%el_Some; lia].
  assert (Hk0 : 0 <= k) by lia. revert Hk. pattern k. apply Z_lt_induction; [|exact Hk0]. clear k Hk0. intros k IH Hk y Hy.
  destruct (decide (k = 1)) as [->|Hne]; [assert (y = x) as -> by congruence; apply cmp_refl|].
  pose proof (el_Some _ _ _ Hy). assert (Hp : 1 <= k / 2 < k) by (Z.div_mod_to_equations; lia).
  destruct (el_is_Some xs (k / 2)) as [z Hz]; [lia|]. apply (cmp_trans _ z).
  - apply (Hh (k / 2) k); [lia|unfold child; Z.div_mod_to_equations; lia|done|done].
  - apply (IH (k / 2)); [lia|lia|done].
Qed.

Lemma el_app_l xs ys k x : el xs k = Some x -> el (xs ++ ys) k = Some x.
Proof using Type. unfold el. destruct (k <? 1); [done|]. apply lookup_app_l_Some. Qed.

(** A heap without its first element, which is replaced, and its last one. *)
Lemma heap_replace x mid y : heap (x :: mid ++ [y]) 1 -> heap (y :: mid) 2.
Proof using Type.
  intros Hh j c Hj Hc a b Ea Eb. assert (Hel : forall k z, 2 <= k -> el (y :: mid) k = Some z -> el (x :: mid ++ [y]) k = Some z).
  { intros k z Hk. unfold el. rewrite (proj2 (Z.ltb_ge k 1)) by lia. replace (Z.to_nat (k - 1)) with (S (Z.to_nat (k - 2))) by lia.
    cbn. apply lookup_app_l_Some. }
  apply (Hh j c); [lia|done|apply Hel; [destruct Hc; lia|done]|by apply Hel].
Qed.

Lemma heap_leaves xs i0 : Z.of_nat (length xs) < 2 * i0 -> heap xs i0.
Proof using Type. intros Hl j c Hj Hc x y Hx%el_Some. destruct Hc; lia. Qed.

Lemma heap_heap_but xs i : 1 <= i -> heap xs (i + 1) -> heap_but xs i i.
Proof using Type.
  intros Hi Hh. split.
  - intros j c Hj Hne. apply Hh. lia.
  - intros j c Hj [?|?]; lia.
Qed.

(** ** Sorted sequences *)

Definition sorted xs : Prop := forall i j x y, (i <= j)%nat -> xs !! i = Some x -> xs !! j = Some y -> cmp x y <= 0.

Lemma sorted_cons x xs : sorted xs -> (forall y, y ∈ xs -> cmp x y <= 0) -> sorted (x :: xs).
Proof using cmp_sym.
  intros Hs Hx [|i] [|j] a b Hij Ha Hb; cbn in *; [|..|lia|].
  - assert (a = b) as -> by congruence. apply cmp_refl.
  - injection Ha as ->. apply Hx. by eapply list_elem_of_lookup_2.
  - apply (Hs i j); [lia|done|done].
Qed.
End Heap.

(** ** Arrays *)

(** The memory holds the elements [xs], of [size] bytes each, from [p] on. *)
Definition arr (size : Z) (b : bytes) (p : Z) (xs : list (list Z)) : Prop :=
  block b p (concat xs) /\ Forall (fun x => Z.of_nat (length x) = size /\ Forall (in_u 8) x) xs.

(** Memories that differ in [n] bytes from [p] on at most. *)
Definition same_but (p n : Z) (b b' : bytes) : Prop := forall a, ~ (p <= a < p + n) -> b' !! a = b !! a.

Section Arr.
Context (size : Z) (Hsize : 0 < size).

Lemma arr_iff b p xs : arr size b p xs <->
  (forall k x, el xs k = Some x -> block b (p + (k - 1) * size) x) /\
  Forall (fun x => Z.of_nat (length x) = size /\ Forall (in_u 8) x) xs.
Proof using Type.
  unfold arr. split; intros [Hb Hw]; (split; [|done]); revert p Hb; induction Hw as [|x xs [Hx _] Hw IH]; intros p Hb.
  - intros k x. unfold el. destruct (k <? 1); done.
  - cbn [concat] in Hb. apply block_app in Hb as [Hb1 Hb2]. rewrite Hx in Hb2. intros k y Hk. pose proof (el_Some _ _ _ Hk).
    destruct (decide (k = 1)) as [->|Hne]; [injection Hk as <-; by replace (p + (1 - 1) * size) with p by lia|].
    replace (p + (k - 1) * size) with (p + size + (k - 1 - 1) * size) by lia. apply (IH _ Hb2).
    unfold el in *. destruct (Z.ltb_spec k 1); [done|]. rewrite (proj2 (Z.ltb_ge (k - 1) 1)) by lia.
    replace (Z.to_nat (k - 1)) with (S (Z.to_nat (k - 1 - 1))) in Hk by lia. done.
  - done.
  - cbn [concat]. apply block_app. rewrite Hx. split.
    + replace p with (p + (1 - 1) * size) by lia. by apply Hb.
    + apply IH. intros k y Hk. replace (p + size + (k - 1) * size) with (p + (k + 1 - 1) * size) by lia. apply Hb.
      pose proof (el_Some _ _ _ Hk). unfold el in *. rewrite (proj2 (Z.ltb_ge (k + 1) 1)) by lia. rewrite (proj2 (Z.ltb_ge k 1)) in Hk by lia.
      replace (Z.to_nat (k + 1 - 1)) with (S (Z.to_nat (k - 1))) by lia. done.
Qed.

Lemma arr_el b p xs k x : arr size b p xs -> el xs k = Some x -> block b (p + (k - 1) * size) x /\ Z.of_nat (length x) = size /\ Forall (in_u 8) x.
Proof using Type.
  intros Ha Hk. apply arr_iff in Ha as [Hb Hw]. split; [by apply Hb|]. rewrite Forall_lookup in Hw.
  unfold el in Hk. destruct (k <? 1); [done|]. by apply (Hw _ _ Hk).
Qed.

Lemma arr_app b p xs ys : arr size b p (xs ++ ys) <-> arr size b p xs /\ arr size b (p + size * Z.of_nat (length xs)) ys.
Proof using Type.
  unfold arr. rewrite concat_app, Forall_app, block_app.
  assert (E : Forall (fun x => Z.of_nat (length x) = size /\ Forall (in_u 8) x) xs -> Z.of_nat (length (concat xs)) = size * Z.of_nat (length xs)).
  { induction 1 as [|x xs [Hx _] _ IH]; cbn [concat length]; [lia|]. rewrite length_app. lia. }
  split.
  - intros [[H1 H2] [H3 H4]]. rewrite E in H2 by done. done.
  - intros [[H1 H3] [H2 H4]]. rewrite E by done. done.
Qed.

Lemma arr_agree b b' p xs : (forall a, p <= a < p + size * Z.of_nat (length xs) -> b' !! a = b !! a) -> arr size b p xs -> arr size b' p xs.
Proof using Hsize.
  intros Hag Ha. apply arr_iff. pose proof Ha as [_ Hw]. split; [|done]. intros k x Hk.
  destruct (arr_el _ _ _ _ _ Ha Hk) as (Hb & Hl & _). eapply block_agree; [|exact Hb]. intros i Hi. apply Hag.
  pose proof (el_Some _ _ _ Hk). nia.
Qed.

(** An array lies inside the address space. *)
Definition fits (p n : Z) : Prop := 0 < p /\ p + size * n <= 2 ^ 32.

Lemma elem_address p n k : fits p n -> 1 <= k <= n -> u32 ((k - 1) * size) = (k - 1) * size.
Proof using Hsize. intros [H1 H2] Hk. apply uwrap_small. unfold in_u. nia. Qed.

(** Swapping two blocks byte by byte. *)
Lemma wp_swap_bytes b a c x y (Q : unit -> bytes -> Prop) : block b a x -> block b c y ->
  Z.of_nat (length x) = size -> Z.of_nat (length y) = size -> Forall (in_u 8) x -> Forall (in_u 8) y ->
  a + size <= c \/ c + size <= a ->
  (forall b', block b' a y -> block b' c x -> (forall p, ~ (a <= p < a + size) -> ~ (c <= p < c + size) -> b' !! p = b !! p) -> Q tt b') ->
  wp (for_from (Z.to_nat size) 0 (fun i => t ← load8 (a + i); u ← load8 (c + i); store8 (a + i) u;; store8 (c + i) t)) Q b.
Proof using Hsize.
  intros Hx Hy Lx Ly Ux Uy Hd HQ. rewrite Forall_lookup in Ux, Uy.
  assert (Hel : forall i, 0 <= i < size -> exists u v, x !! Z.to_nat i = Some u /\ y !! Z.to_nat i = Some v /\ b !! (a + i) = Some u /\
    b !! (c + i) = Some v /\ u8 u = u /\ u8 v = v).
  { intros i Hi. destruct (lookup_lt_is_Some_2 x (Z.to_nat i)) as [u Hu]; [lia|]. destruct (lookup_lt_is_Some_2 y (Z.to_nat i)) as [v Hv]; [lia|].
    exists u, v. pose proof (proj1 (block_lookup _ _ _) Hx _ _ Hu) as E1. pose proof (proj1 (block_lookup _ _ _) Hy _ _ Hv) as E2.
    rewrite Z2Nat.id in E1, E2 by lia. split_and!; try done; apply uwrap_small; eauto. }
  set (at_ k p := if decide (a <= p < a + k) then b !! (c + (p - a)) else if decide (c <= p < c + k) then b !! (a + (p - c)) else b !! p).
  eapply wp_mono; [apply (wp_for_from (fun k t => forall p, t !! p = at_ k p))|].
  - intros p. unfold at_. by rewrite !decide_False by lia.
  - intros k t Hk Ht. destruct (Hel k) as (u & v & _ & _ & E1 & E2 & Eu & Ev); [lia|].
    assert (T1 : t !! (a + k) = Some u) by (rewrite Ht; unfold at_; rewrite !decide_False by lia; done).
    assert (T2 : t !! (c + k) = Some v) by (rewrite Ht; unfold at_; rewrite !decide_False by lia; done).
    apply wp_bind. eapply wp_load8; [exact T1|]. apply wp_bind. eapply wp_load8; [exact T2|]. apply wp_bind.
    apply wp_store8; [by rewrite T1|]. apply wp_store8; [rewrite lookup_insert_ne by lia; by rewrite T2|].
    intros p. rewrite Eu, Ev. destruct (decide (p = c + k)) as [->|H1].
    + rewrite lookup_insert_eq. unfold at_. rewrite decide_False, decide_True by lia. rewrite <- E1. f_equal. lia.
    + rewrite lookup_insert_ne by done. destruct (decide (p = a + k)) as [->|H2].
      * rewrite lookup_insert_eq. unfold at_. rewrite decide_True by lia. rewrite <- E2. f_equal. lia.
      * rewrite lookup_insert_ne, Ht by done. unfold at_. destruct (decide (a <= p < a + k)) as [H3|H3].
        { by rewrite decide_True by lia. }
        rewrite (decide_False (P := a <= p < a + (k + 1))) by lia. destruct (decide (c <= p < c + k)) as [H4|H4].
        { by rewrite decide_True by lia. }
        by rewrite (decide_False (P := c <= p < c + (k + 1))) by lia.
  - intros [] b' Hb'. rewrite Z.add_0_l, Z2Nat.id in Hb' by lia. apply HQ.
    + apply block_lookup. intros i v Hv. pose proof (lookup_lt_Some _ _ _ Hv). rewrite Hb'. unfold at_. rewrite decide_True by lia.
      rewrite <- (proj1 (block_lookup _ _ _) Hy _ _ Hv). f_equal. lia.
    + apply block_lookup. intros i v Hv. pose proof (lookup_lt_Some _ _ _ Hv). rewrite Hb'. unfold at_.
      rewrite decide_False, decide_True by lia. rewrite <- (proj1 (block_lookup _ _ _) Hx _ _ Hv). f_equal. lia.
    + intros p H1 H2. rewrite Hb'. unfold at_. by rewrite !decide_False by lia.
Qed.

Lemma wp_do_swap b p xs i j (Q : unit -> bytes -> Prop) : arr size b p xs -> fits p (Z.of_nat (length xs)) ->
  1 <= i <= Z.of_nat (length xs) -> 1 <= j <= Z.of_nat (length xs) -> i <> j ->
  (forall b', arr size b' p (swapped i j xs) -> same_but p (size * Z.of_nat (length xs)) b b' -> Q tt b') ->
  wp (do_swap size p i j) Q b.
Proof using Hsize.
  intros Ha Hf Hi Hj Hne HQ. unfold do_swap. rewrite !(elem_address p _ _ Hf) by done.
  destruct (el_is_Some xs i Hi) as [x Ex], (el_is_Some xs j Hj) as [y Ey].
  destruct (arr_el _ _ _ _ _ Ha Ex) as (Bx & Lx & Ux), (arr_el _ _ _ _ _ Ha Ey) as (By & Ly & Uy).
  eapply wp_swap_bytes; try done; [nia|]. intros b' B1 B2 Hs. apply HQ.
  - apply arr_iff. split.
    + intros k z. rewrite el_swapped by done. destruct (decide (k = i)) as [->|Hki].
      { rewrite Ey. by intros [= <-]. }
      destruct (decide (k = j)) as [->|Hkj]; [rewrite Ex; by intros [= <-]|]. intros Hz.
      destruct (arr_el _ _ _ _ _ Ha Hz) as (Bz & Lz & _). eapply block_agree; [|exact Bz]. intros a Ha'. apply Hs; nia.
    + rewrite swapped_perm. apply Ha.
  - intros a Ha'. apply Hs; nia.
Qed.
End Arr.

(** ** Sorting *)

(** What a comparison function promises: it looks at two elements, changes
    nothing, and its results are those of an order. *)
Record comparison (size : Z) (compare : Z -> Z -> M bytes Z) (cmp : list Z -> list Z -> Z) : Prop := {
  cmp_result : forall b p q x y, block b p x -> block b q y -> Z.of_nat (length x) = size -> Z.of_nat (length y) = size ->
    compare p q b = Ok (cmp x y, b);
  cmp_flip : forall x y, 0 < cmp x y <-> cmp y x < 0;
  cmp_chain : forall x y z, cmp x y <= 0 -> cmp y z <= 0 -> cmp x z <= 0 }.

Section Sort.
Context (size : Z) (Hsize : 0 < size) (compare : Z -> Z -> M bytes Z) (cmp : list Z -> list Z -> Z).
Context (Hc : comparison size compare cmp).

Lemma wp_do_compare b p xs i j x y (Q : Z -> bytes -> Prop) : arr size b p xs -> fits size p (Z.of_nat (length xs)) ->
  el xs i = Some x -> el xs j = Some y -> Q (cmp x y) b -> wp (do_compare size compare p i j) Q b.
Proof using Hsize Hc.
  intros Ha Hf Hi Hj HQ. unfold do_compare. rewrite !(elem_address size Hsize p _ _ Hf) by (by eapply el_Some).
  destruct (arr_el _ _ _ _ _ _ Ha Hi) as (Bx & Lx & _), (arr_el _ _ _ _ _ _ Ha Hj) as (By & Ly & _).
  eapply wp_eq; [|exact HQ]. by apply (cmp_result _ _ _ Hc).
Qed.

(** One comparison of the search for the largest child. *)
Lemma wp_max b p xs c m v (Q : Z -> bytes -> Prop) : arr size b p xs -> fits size p (Z.of_nat (length xs)) ->
  el xs m = Some v -> 1 <= c ->
  (forall m' v', m' = m \/ m' = c -> el xs m' = Some v' -> cmp v v' <= 0 ->
     (forall x, el xs c = Some x -> cmp x v' <= 0) -> Q m' b) ->
  wp (if c <=? Z.of_nat (length xs) then r ← do_compare size compare p c m; ret (if 0 <? r then c else m) else ret m) Q b.
Proof using Hsize Hc.
  intros Ha Hf Hm H1 HQ. destruct (Z.leb_spec c (Z.of_nat (length xs))) as [Hl|Hl].
  - destruct (el_is_Some xs c) as [x Hx]; [lia|]. apply wp_bind. eapply wp_do_compare; [done|done|exact Hx|exact Hm|]. apply wp_ret.
    destruct (Z.ltb_spec 0 (cmp x v)) as [Hlt|Hge].
    + apply (HQ c x); auto; [by apply (cmp_total cmp (cmp_flip _ _ _ Hc))|].
      intros x' Hx'. assert (x' = x) as -> by congruence. apply (cmp_refl cmp (cmp_flip _ _ _ Hc)).
    + apply (HQ m v); auto; [apply (cmp_refl cmp (cmp_flip _ _ _ Hc))|]. intros x' Hx'. by assert (x' = x) as -> by congruence.
  - apply wp_ret, (HQ m v); auto; [apply (cmp_refl cmp (cmp_flip _ _ _ Hc))|]. intros x Hx%el_Some. lia.
Qed.

Lemma wp_heapify b p xs i (Q : unit -> bytes -> Prop) : arr size b p xs -> fits size p (Z.of_nat (length xs)) ->
  Z.of_nat (length xs) < 2 ^ 31 -> 1 <= i <= Z.of_nat (length xs) -> heap cmp xs (i + 1) ->
  (forall b' ys, arr size b' p ys -> ys ≡ₚ xs -> heap cmp ys i -> same_but p (size * Z.of_nat (length xs)) b b' -> Q tt b') ->
  wp (heapify size compare p i (Z.of_nat (length xs))) Q b.
Proof using Hsize Hc.
  intros Ha Hf Hn Hi Hh HQ. unfold heapify. set (n := Z.of_nat (length xs)) in *.
  unshelve eapply (wp_iterate (fun k j b' => k = Z.to_nat (n - j) /\ i <= j <= n /\ exists ys, arr size b' p ys /\ ys ≡ₚ xs /\
    heap_but cmp ys i j /\ same_but p (size * n) b b') _ _ _ _ (Z.to_nat (n - i))); [| |lia].
  2:{ split; [done|]. split; [lia|]. exists xs. split; [done|]. split; [done|]. split; [apply heap_heap_but; [lia|done]|done]. }
  intros k j b' (-> & Hj & ys & Hy & Hp & Hb & Hs). pose proof (Permutation_length Hp) as Hl. assert (En : n = Z.of_nat (length ys)) by lia.
  destruct (el_is_Some ys j) as [v Hv]; [lia|]. cbn beta zeta. rewrite !uwrap_small by (unfold in_u; lia). rewrite En in Hf |- *.
  apply wp_bind. eapply (wp_max b' p ys (2 * j) j v); [done|done|done|lia|]. intros m1 v1 Hm1 Hv1 Hle1 Hc1.
  apply wp_bind. eapply (wp_max b' p ys (2 * j + 1) m1 v1); [done|done|done|lia|]. intros m2 v2 Hm2 Hv2 Hle2 Hc2.
  assert (Hlg : largest cmp ys j m2).
  { split; [unfold child; destruct Hm1, Hm2; subst; auto|]. exists v2. split; [done|]. intros c x Hx Hcx.
    destruct Hx as [->|[->| ->]]; [|eapply (cmp_chain _ _ _ Hc); [by apply Hc1|done]|by apply Hc2].
    assert (x = v) as -> by congruence. by eapply (cmp_chain _ _ _ Hc). }
  destruct (Z.eqb_spec m2 j) as [->|Hne].
  - apply wp_ret. apply (HQ b' ys); [done|done|by eapply heap_done|done].
  - pose proof (el_Some _ _ _ Hv2) as Hm2l. apply wp_bind. eapply (wp_do_swap size Hsize b' p ys); [done|done|lia|lia|done|].
    intros b2 Ha2 Hs2. apply wp_ret. assert (j < m2) by (destruct Hlg as [[?|[?|?]] _]; lia).
    exists (Z.to_nat (n - m2)). split; [lia|]. split; [lia|]. split; [lia|]. exists (swapped j m2 ys). split; [done|].
    split; [by rewrite swapped_perm|]. split; [eapply heap_step; [lia|done|done|done|lia]|].
    intros a Hna. rewrite Hs2, Hs; [done|by rewrite En|done].
Qed.

(** The first phase: building the heap. *)
Lemma wp_build b p xs (Q : unit -> bytes -> Prop) : arr size b p xs -> fits size p (Z.of_nat (length xs)) -> Z.of_nat (length xs) < 2 ^ 31 ->
  (forall b' ys, arr size b' p ys -> ys ≡ₚ xs -> heap cmp ys 1 -> same_but p (size * Z.of_nat (length xs)) b b' -> Q tt b') ->
  wp (for_from (Z.to_nat (Z.of_nat (length xs) / 2)) 0 (fun k =>
    heapify size compare p (Z.of_nat (length xs) / 2 - k) (Z.of_nat (length xs)))) Q b.
Proof using Hsize Hc.
  intros Ha Hf Hn HQ. set (n := Z.of_nat (length xs)) in *.
  eapply wp_mono; [apply (wp_for_from (fun k b' => exists ys, arr size b' p ys /\ ys ≡ₚ xs /\ heap cmp ys (n / 2 - k + 1) /\
    same_but p (size * n) b b'))|].
  - exists xs. split; [done|]. split; [done|]. split; [|done]. apply heap_leaves. unfold n. Z.div_mod_to_equations. lia.
  - intros k b' Hk (ys & Hy & Hp & Hh & Hs). pose proof (Permutation_length Hp) as Hl. assert (En : n = Z.of_nat (length ys)) by lia.
    assert (n / 2 <= n) by (Z.div_mod_to_equations; lia). rewrite En at 2.
    eapply wp_heapify; [done|by rewrite <- En|lia|lia|done|]. intros b2 zs Hz Hpz Hhz Hsz.
    exists zs. split; [done|]. split; [by rewrite Hpz|]. split; [by replace (n / 2 - (k + 1) + 1) with (n / 2 - k) by lia|].
    intros a Hna. rewrite Hsz, Hs; [done|done|by rewrite <- En].
  - intros [] b' (ys & Hy & Hp & Hh & Hs). apply (HQ b' ys); [done|done| |done].
    replace (n / 2 - (0 + Z.of_nat (Z.to_nat (n / 2))) + 1) with 1 in Hh; [done|]. assert (0 <= n / 2) by (apply Z.div_pos; lia). lia.
Qed.

(** The second phase: the first element goes to the end of the heap. *)
Lemma wp_take_max b p zs ss (Q : unit -> bytes -> Prop) : arr size b p (zs ++ ss) -> fits size p (Z.of_nat (length zs)) ->
  2 <= Z.of_nat (length zs) < 2 ^ 31 -> heap cmp zs 1 ->
  (forall b' x zs', arr size b' p (zs' ++ x :: ss) -> zs ≡ₚ x :: zs' -> S (length zs') = length zs ->
     heap cmp zs' 1 -> (forall z, z ∈ zs' -> cmp z x <= 0) -> same_but p (size * Z.of_nat (length zs)) b b' -> Q tt b') ->
  wp (do_swap size p 1 (Z.of_nat (length zs));; heapify size compare p 1 (Z.of_nat (length zs) - 1)) Q b.
Proof using Hsize Hc.
  intros Ha Hf Hn Hh HQ. apply arr_app in Ha as [Hz Hs]. apply wp_bind.
  eapply (wp_do_swap size Hsize b p zs); [done|done|lia|lia|lia|]. intros b1 Hz1 Hs1.
  destruct zs as [|x zs]; [cbn in Hn; lia|]. destruct zs as [|y mid _] using rev_ind; [cbn in Hn; lia|].
  rewrite swapped_ends in Hz1. change (y :: mid ++ [x]) with ((y :: mid) ++ [x]) in Hz1. apply arr_app in Hz1 as [Hm Hx].
  assert (El : Z.of_nat (length (x :: mid ++ [y])) - 1 = Z.of_nat (length (y :: mid))) by (cbn; rewrite length_app; cbn; lia).
  rewrite El. eapply wp_heapify; [exact Hm| |lia|cbn; lia|by apply (heap_replace cmp x)|].
  { destruct Hf. split; [done|]. rewrite <- El. nia. }
  intros b2 zs' Hz' Hp' Hh' Hs2. pose proof (Permutation_length Hp') as Hl'.
  assert (Hother : forall a, p + size * Z.of_nat (length (y :: mid)) <= a -> b2 !! a = b1 !! a) by (intros a Hna; apply Hs2; lia).
  apply (HQ b2 x zs').
  - apply arr_app. split; [done|]. rewrite Hl'. change (x :: ss) with ([x] ++ ss). apply arr_app. split.
    + eapply arr_agree; [exact Hsize| |exact Hx]. intros a Ha. apply Hother. lia.
    + assert (E : p + size * Z.of_nat (length (y :: mid)) + size * Z.of_nat (length [x]) = p + size * Z.of_nat (length (x :: mid ++ [y]))).
      { rewrite <- El. change (length [x]) with 1%nat. lia. }
      rewrite E. eapply arr_agree; [exact Hsize| |exact Hs]. intros a Ha. rewrite Hother by nia. apply Hs1. lia.
  - rewrite Hp'. by rewrite Permutation_app_comm.
  - rewrite Hl'. cbn. rewrite length_app. cbn. lia.
  - done.
  - intros z Hz0. rewrite Hp' in Hz0. assert (Hin : z ∈ x :: mid ++ [y]) by set_solver. apply list_elem_of_lookup in Hin as [k Hk].
    apply (heap_max cmp (cmp_flip _ _ _ Hc) (cmp_chain _ _ _ Hc) (x :: mid ++ [y]) x (Z.of_nat k + 1) z); [done|done|].
    unfold el. rewrite (proj2 (Z.ltb_ge _ 1)) by lia. by replace (Z.to_nat (Z.of_nat k + 1 - 1)) with k by lia.
  - intros a Hna. rewrite Hs2; [by apply Hs1|]. rewrite <- El. nia.
Qed.

Lemma wp_sort b p xs (Q : unit -> bytes -> Prop) : arr size b p xs -> fits size p (Z.of_nat (length xs)) -> Z.of_nat (length xs) < 2 ^ 31 ->
  (forall b' ys, arr size b' p ys -> ys ≡ₚ xs -> sorted cmp ys -> same_but p (size * Z.of_nat (length xs)) b b' -> Q tt b') ->
  wp (sort size compare p (Z.of_nat (length xs))) Q b.
Proof using Hsize Hc.
  intros Ha Hf Hn HQ. set (n := Z.of_nat (length xs)) in *. unfold sort.
  apply wp_bind, wp_assertb; [destruct Hf; rewrite (proj2 (Z.eqb_neq p NULL)) by (unfold NULL; lia); done|].
  apply wp_bind, wp_assertb; [by apply Z.ltb_lt|]. apply wp_bind. apply wp_build; [done..|]. intros b1 ys Hy Hp Hh Hs.
  pose proof (Permutation_length Hp) as Hl.
  eapply wp_mono; [apply (wp_for_from (fun k b' => exists zs ss, arr size b' p (zs ++ ss) /\ zs ++ ss ≡ₚ xs /\
    Z.of_nat (length zs) = n - k /\ heap cmp zs 1 /\ sorted cmp ss /\ (forall z s, z ∈ zs -> s ∈ ss -> cmp z s <= 0) /\
    same_but p (size * n) b b'))|].
  - exists ys, []. rewrite app_nil_r. split; [done|]. split; [done|]. split; [lia|]. split; [done|].
    split; [intros i j x y _ E; by rewrite lookup_nil in E|]. split; [by intros z s _ ?%elem_of_nil|done].
  - intros k b' Hk (zs & ss & Hzs & Hpm & Hlz & Hhz & Hss & Hle & Hsb). cbn zeta. rewrite <- Hlz.
    eapply wp_take_max; [exact Hzs|destruct Hf; split; [done|nia]|lia|done|]. intros b2 x zs' Hz' Hpz Hlz' Hhz' Hmx Hsb'.
    exists zs', (x :: ss). split_and!; try done.
    + rewrite <- Hpm, Hpz. symmetry. apply Permutation_middle.
    + lia.
    + apply sorted_cons; [apply (cmp_flip _ _ _ Hc)|done|]. intros y Hy'. apply Hle; [|done]. rewrite Hpz. left.
    + intros z s Hz Hs'. apply elem_of_cons in Hs' as [->|Hs']; [by apply Hmx|]. apply Hle; [|done]. rewrite Hpz. by right.
    + intros a Hna. rewrite Hsb', Hsb; [done|done|nia].
  - intros [] b' (zs & ss & Hzs & Hpm & Hlz & _ & Hss & Hle & Hsb). apply (HQ b' (zs ++ ss)); [done|done| |done].
    destruct zs as [|z [|z' zs]]; cbn in Hlz |- *; [done| |lia]. apply sorted_cons; [apply (cmp_flip _ _ _ Hc)|done|].
    intros y Hy'. apply Hle; [left|done].
Qed.

(** ** Searching *)

Lemma wp_binary_search b key kx p xs (Q : Z -> bytes -> Prop) : arr size b p xs -> fits size p (Z.of_nat (length xs)) -> sorted cmp xs ->
  block b key kx -> Z.of_nat (length kx) = size ->
  (forall i x, xs !! i = Some x -> cmp kx x = 0 -> Q (p + Z.of_nat i * size) b) ->
  ((forall x, x ∈ xs -> cmp kx x <> 0) -> Q NULL b) ->
  wp (binary_search size compare key p (Z.of_nat (length xs))) Q b.
Proof using Hsize Hc.
  intros Ha Hf Hs Hk Hkl H1 H0. unfold binary_search. set (n := Z.of_nat (length xs)) in *.
  assert (Hflip : forall x y, cmp x y < 0 <-> 0 < cmp y x) by (intros x y; by rewrite (cmp_flip _ _ _ Hc)).
  unshelve eapply (wp_iterate (fun m '(first, last) b' => b' = b /\ exists lo hi : Z, 0 <= lo <= hi /\ hi <= n /\ m = Z.to_nat (hi - lo) /\
    first = p + lo * size /\ last = p + hi * size /\
    (forall i x, Z.of_nat i < lo -> xs !! i = Some x -> 0 < cmp kx x) /\
    (forall i x, hi <= Z.of_nat i -> xs !! i = Some x -> cmp kx x < 0)) _ _ _ _ (Z.to_nat n)); [| |lia].
  2:{ split; [done|]. exists 0, n. split_and!; try lia. intros i x Hi E%lookup_lt_Some. lia. }
  intros m [first last] b' (-> & lo & hi & Hlo & Hhi & -> & -> & -> & Hbelow & Habove).
  destruct (Z.ltb_spec (p + lo * size) (p + hi * size)) as [Hlt|Hge]; cbn [negb].
  2:{ apply wp_ret, H0. intros x [i Hx]%list_elem_of_lookup E. assert (lo = hi) as -> by nia.
      destruct (Z.lt_ge_cases (Z.of_nat i) hi) as [Hi|Hi]; [pose proof (Hbelow _ _ Hi Hx)|pose proof (Habove _ _ Hi Hx)]; lia. }
  assert (Hlh : lo < hi) by nia. replace (p + hi * size - (p + lo * size)) with ((hi - lo) * size) by lia. rewrite Z.div_mul by lia.
  set (h := (hi - lo) / 2). assert (Hh : 0 <= h < hi - lo) by (unfold h; Z.div_mod_to_equations; lia).
  destruct (lookup_lt_is_Some_2 xs (Z.to_nat (lo + h))) as [x Hx]; [lia|].
  assert (Hel : el xs (lo + h + 1) = Some x).
  { unfold el. rewrite (proj2 (Z.ltb_ge _ 1)) by lia. by replace (Z.to_nat (lo + h + 1 - 1)) with (Z.to_nat (lo + h)) by lia. }
  destruct (arr_el _ _ _ _ _ _ Ha Hel) as (Bx & Lx & _).
  replace (p + (lo + h + 1 - 1) * size) with (p + lo * size + h * size) in Bx by lia.
  apply wp_bind. eapply wp_eq; [by apply (cmp_result _ _ _ Hc)|]. apply wp_ret.
  destruct (Z.ltb_spec (cmp kx x) 0) as [Hneg|Hnn]; [|destruct (Z.ltb_spec 0 (cmp kx x)) as [Hpos|Hnp]].
  - exists (Z.to_nat h). split; [lia|]. split; [done|]. exists lo, (lo + h). split_and!; try lia; [done|].
    intros i y Hi Hy. destruct (Z.lt_ge_cases (cmp kx y) 0) as [|Hge]; [done|].
    assert (cmp x y <= 0) by (apply (Hs (Z.to_nat (lo + h)) i); [lia|done|done]).
    assert (cmp y kx <= 0) by (pose proof (Hflip kx y); lia). pose proof (cmp_chain _ _ _ Hc x y kx). pose proof (Hflip kx x). lia.
  - exists (Z.to_nat (hi - (lo + h + 1))). split; [lia|]. split; [done|]. exists (lo + h + 1), hi. split_and!; try lia; [|done].
    intros i y Hi Hy. destruct (Z.lt_ge_cases 0 (cmp kx y)) as [|Hge]; [done|].
    assert (cmp y x <= 0) by (apply (Hs i (Z.to_nat (lo + h))); [lia|done|done]). pose proof (cmp_chain _ _ _ Hc kx y x). lia.
  - replace (p + lo * size + h * size) with (p + Z.of_nat (Z.to_nat (lo + h)) * size) by nia. apply (H1 _ x); [done|lia].
Qed.
End Sort.

(** C34: qsort() leaves a sorted permutation of the array, for any number of
    elements of any size and any order, touching nothing outside the array; and
    bsearch() then finds an element equal to the key if and only if there is
    one. *)
Theorem qsort_bsearch_correct size compare cmp b p xs key kx : 0 < size -> comparison size compare cmp -> arr size b p xs ->
  fits size p (Z.of_nat (length xs)) -> Z.of_nat (length xs) < 2 ^ 31 ->
  block b key kx -> Z.of_nat (length kx) = size -> key + size <= p \/ p + size * Z.of_nat (length xs) <= key ->
  exists b' ys, qsort p (Z.of_nat (length xs)) size compare b = Ok (tt, b') /\ arr size b' p ys /\ ys ≡ₚ xs /\ sorted cmp ys /\
    same_but p (size * Z.of_nat (length xs)) b b' /\
    exists r, bsearch key p (Z.of_nat (length xs)) size compare b' = Ok (r, b') /\
      ((r = NULL /\ forall x, x ∈ xs -> cmp kx x <> 0) \/
       (exists i x, ys !! i = Some x /\ cmp kx x = 0 /\ r = p + Z.of_nat i * size)).
Proof.
  intros Hs Hc Ha Hf Hn Hk Hkl Hd.
  destruct (proj1 (wp_ok _ (fun _ b' => exists ys, arr size b' p ys /\ ys ≡ₚ xs /\ sorted cmp ys /\
    same_but p (size * Z.of_nat (length xs)) b b') b) (wp_sort size Hs compare cmp Hc b p xs _ Ha Hf Hn
    (fun b' ys H1 H2 H3 H4 => ex_intro _ ys (conj H1 (conj H2 (conj H3 H4)))))) as ([] & b' & E & ys & Hy & Hp & Hso & Hsb).
  exists b', ys. split; [exact E|]. split; [done|]. split; [done|]. split; [done|]. split; [done|].
  pose proof (Permutation_length Hp) as Hl. rewrite <- Hl in Hf |- *.
  assert (Hk' : block b' key kx) by (eapply block_agree; [|exact Hk]; intros i Hi; apply Hsb; lia).
  set (R r (t : bytes) := t = b' /\ ((r = NULL /\ forall x, x ∈ xs -> cmp kx x <> 0) \/
       (exists i x, ys !! i = Some x /\ cmp kx x = 0 /\ r = p + Z.of_nat i * size))).
  destruct (proj1 (wp_ok (bsearch key p (Z.of_nat (length ys)) size compare) R b')) as (r & t & Er & -> & Hr); [|by exists r].
  eapply (wp_binary_search size Hs compare cmp Hc b' key kx p ys); try done.
  - intros i x Hx Hz. split; [done|]. right. eauto.
  - intros Hno. split; [done|]. left. split; [done|]. intros x Hx. apply Hno. by rewrite Hp.
Qed.

(** Bytes in their own order. *)
Definition compare_bytes (p q : Z) : M bytes Z := x ← load8 p; y ← load8 q; ret (x - y).
Definition byte_order (x y : list Z) : Z := default 0 (head x) - default 0 (head y).

Lemma compare_bytes_ok : comparison 1 compare_bytes byte_order.
Proof.
  split; unfold byte_order; [|intros; lia|intros; lia].
  intros b p q [|x xs] [|y ys] Hx Hy Lx Ly; try (cbn in *; lia). destruct Hx as [Hx _], Hy as [Hy _]. unfold compare_bytes, load8, bind, get, of_option.
  rewrite Hx. cbn. by rewrite Hy.
Qed.

Definition sample : bytes := write (write ∅ 100 [3; 1; 2; 1]) 200 [2].

Lemma qsort_bsearch_correct_witness : exists b' ys, qsort 100 4 1 compare_bytes sample = Ok (tt, b') /\ arr 1 b' 100 ys /\
  ys ≡ₚ [[3]; [1]; [2]; [1]] /\ sorted byte_order ys /\ same_but 100 (1 * 4) sample b' /\
  exists r, bsearch 200 100 4 1 compare_bytes b' = Ok (r, b') /\
    ((r = NULL /\ forall x, x ∈ [[3]; [1]; [2]; [1]] -> byte_order [2] x <> 0) \/
     (exists i x, ys !! i = Some x /\ byte_order [2] x = 0 /\ r = 100 + Z.of_nat i * 1)).
Proof.
  apply (qsort_bsearch_correct 1 compare_bytes byte_order sample 100 [[3]; [1]; [2]; [1]] 200 [2]).
  - lia.
  - exact compare_bytes_ok.
  - split; [decide_closed|]. repeat constructor; unfold in_u; lia.
  - split; cbn; lia.
  - cbn; lia.
  - decide_closed.
  - reflexivity.
  - right. cbn. lia.
Defined.

(** ** atoi *)

Fixpoint leading (f : Z -> bool) (cs : list Z) : list Z :=
  match cs with [] => [] | c :: cs => if f c then c :: leading f cs else [] end.

(** The value of a sequence of decimal digits. *)
Definition decimal (ds : list Z) : Z := fold_left (fun v d => v * 10 + (d - 48)) ds 0.

(** White space, an optional sign, digits, and anything. *)
Definition number (cs : list Z) : bool * list Z :=
  let cs := drop (length (leading isspace cs)) cs in
  match cs with
  | c :: cs' => if c =? 43 then (false, leading isdigit cs') else if c =? 45 then (true, leading isdigit cs')
                else (false, leading isdigit cs)
  | [] => (false, [])
  end.

Lemma leading_length f cs i : (i <= length cs)%nat -> (forall j c, (j < i)%nat -> cs !! j = Some c -> f c = true) ->
  (forall c, cs !! i = Some c -> f c = false) -> leading f cs = take i cs.
Proof.
  revert i. induction cs as [|c cs IH]; intros i Hi H1 H2; [by destruct i|]. cbn [leading]. destruct i as [|i].
  - by rewrite (H2 c).
  - rewrite (H1 0%nat c) by (done || lia). cbn [take]. f_equal. apply IH.
    + cbn in Hi. lia.
    + intros j d Hj Hd. apply (H1 (S j)); [lia|done].
    + intros d Hd. by apply H2.
Qed.

Lemma decimal_snoc ds d : decimal (ds ++ [d]) = decimal ds * 10 + (d - 48).
Proof. unfold decimal. by rewrite fold_left_app. Qed.

Lemma leading_forall f cs : Forall (fun c => f c = true) (leading f cs).
Proof. induction cs as [|c cs IH]; cbn [leading]; [done|]. destruct (f c) eqn:E; [by constructor|done]. Qed.

Lemma leading_take f cs i : (i <= length (leading f cs))%nat -> take i (leading f cs) = take i cs.
Proof.
  revert i. induction cs as [|c cs IH]; intros i; cbn [leading]; [done|]. destruct (f c); cbn [length]; [|by destruct i; [|lia]].
  destruct i as [|i]; [done|]. intros Hi. cbn [take]. f_equal. apply IH. lia.
Qed.

Lemma leading_prefix f cs i : (i <= length cs)%nat -> (forall j c, (j < i)%nat -> cs !! j = Some c -> f c = true) ->
  (i <= length (leading f cs))%nat.
Proof.
  revert i. induction cs as [|c cs IH]; intros i Hi Hf; [done|]. destruct i as [|i]; [lia|]. cbn [leading].
  rewrite (Hf 0%nat c) by (done || lia). cbn. apply le_n_S, IH; [cbn in Hi; lia|]. intros j d Hj. apply (Hf (S j)). lia.
Qed.

Lemma decimal_mono ds i : Forall (fun d => isdigit d = true) ds -> 0 <= decimal (take i ds) <= decimal ds.
Proof.
  intros Hd. assert (Hpos : forall l, Forall (fun d => isdigit d = true) l -> 0 <= decimal l).
  { intros l. induction l as [|d l IH] using rev_ind; [done|]. intros [Hl [Hd' _]%Forall_cons]%Forall_app. rewrite decimal_snoc.
    apply IH in Hl. unfold isdigit in Hd'. lia. }
  split; [by apply Hpos, Forall_take|]. induction ds as [|d ds IH] using rev_ind; [by rewrite take_nil|].
  apply Forall_app in Hd as [Hds [Hd _]%Forall_cons]. rewrite decimal_snoc. unfold isdigit in Hd.
  destruct (decide (i <= length ds)%nat) as [Hi|Hi].
  - rewrite take_app_le by done. specialize (IH Hds). specialize (Hpos _ Hds). lia.
  - rewrite take_ge by (rewrite length_app; cbn; lia). rewrite decimal_snoc. lia.
Qed.

Lemma char_digit c : in_u 8 c -> isdigit (i8 c) = isdigit c /\ (isdigit c = true -> i8 c = c) /\
  (i8 c =? 43) = (c =? 43) /\ (i8 c =? 45) = (c =? 45).
Proof.
  unfold in_u. intros Hc. assert (E : i8 c = if c <? 128 then c else c - 256).
  { destruct (Z.ltb_spec c 128); [apply swrap_small; [lia|unfold in_s; lia]|].
    unfold i8, swrap. replace (c + 2 ^ (8 - 1)) with (c - 128 + 1 * 2 ^ 8) by lia. rewrite Z.mod_add, Z.mod_small by lia. lia. }
  rewrite E. unfold isdigit. destruct (Z.ltb_spec c 128); split_and!; lia.
Qed.

(** The loop over the digits. *)
Lemma wp_digits b p cs (Q : Z -> bytes -> Prop) : cstr b p cs -> decimal (leading isdigit cs) <= 2 ^ 31 ->
  Q (- decimal (leading isdigit cs)) b ->
  wp (sloop (fun '(i, value) => c ← load8 (p + i);
    ret (if isdigit (i8 c) then inl (i + 1, i32 (value * 10 - (i8 c - 48))) else inr value)) (0, 0)) Q b.
Proof.
  intros Hc Hv HQ. unfold sloop. apply wp_bind. red. cbn [get]. pose proof Hc as (Hbl & Hnz & _).
  apply block_size in Hbl as Hsz. rewrite length_app in Hsz. cbn in Hsz.
  unshelve eapply (wp_iterate (fun n '(i, value) b' => b' = b /\ exists k, i = Z.of_nat k /\ (n + k = length cs)%nat /\
    (forall j c, (j < k)%nat -> cs !! j = Some c -> isdigit c = true) /\ value = - decimal (take k cs)) _ _ _ _ (length cs)); [| |lia].
  2:{ split; [done|]. exists 0%nat. split_and!; [done|lia|intros j c Hj; lia|done]. }
  intros n [i value] b' (-> & k & -> & Hn & Hpre & ->).
  destruct (lookup_lt_is_Some_2 (cs ++ [0]) k) as [c Ec]; [rewrite length_app; cbn; lia|].
  apply wp_bind. eapply wp_load8; [by eapply cstr_lookup|]. apply wp_ret.
  destruct (char_digit c) as (-> & Hi8 & _); [by eapply cstr_byte|]. destruct (isdigit c) eqn:Ed.
  - assert (Hk : k <> length cs) by (intros Ek; rewrite (proj2 (cstr_zero cs k c Hnz Ec) Ek) in Ed; done).
    rewrite lookup_app_l in Ec by lia. rewrite Hi8 by done.
    assert (Hpre' : forall j d, (j < S k)%nat -> cs !! j = Some d -> isdigit d = true).
    { intros j d Hj Hd. destruct (decide (j = k)) as [->|]; [congruence|]. apply (Hpre j); [lia|done]. }
    assert (Et : take (S k) cs = take k cs ++ [c]) by (by apply take_S_r).
    assert (Hbd : 0 <= decimal (take (S k) cs) <= 2 ^ 31).
    { assert (Hle : (S k <= length (leading isdigit cs))%nat) by (apply leading_prefix; [lia|done]).
      rewrite <- (leading_take isdigit) by done. pose proof (decimal_mono (leading isdigit cs) (S k) (leading_forall _ _)). lia. }
    exists (n - 1)%nat. split; [lia|]. split; [done|]. exists (S k). split; [lia|]. split; [lia|]. split; [done|].
    rewrite Et, decimal_snoc in *. rewrite swrap_small; [lia|lia|unfold in_s; lia].
  - rewrite (leading_length isdigit cs k) in HQ; [done|lia|done|]. intros d Hd. rewrite lookup_app_l in Ec by (by eapply lookup_lt_Some). congruence.
Qed.

(** atoi() skips white space and returns the value of the digits that
    follow an optional sign, up to the first character that is not a digit.
    Every number that an int can hold is converted, the smallest one included. *)
Theorem atoi_correct b p cs : cstr b p cs ->
  let '(negative, ds) := number cs in
  (if negative then decimal ds <= 2 ^ 31 else decimal ds < 2 ^ 31) ->
  atoi p b = Ok (if negative then - decimal ds else decimal ds, b).
Proof.
  intros Hc. destruct (number cs) as [negative ds] eqn:En. intros Hv.
  set (R v (t : bytes) := v = (if negative then - decimal ds else decimal ds) /\ t = b).
  cut (wp (atoi p) R b); [intros (v & t & E & -> & ->)%wp_ok; done|].
  unfold atoi. pose proof Hc as (Hbl & Hnz & Hp). apply wp_bind, wp_assertb; [apply negb_true_iff, Z.eqb_neq; unfold NULL; lia|].
  apply wp_bind. eapply (wp_walk b p cs (fun i => forall j c, (j < i)%nat -> cs !! j = Some c -> isspace c = true)); [done|intros j c Hj; lia|].
  intros i c Ec Hl Hz Hpre. apply wp_bind. eapply wp_load8; [done|]. apply wp_ret. destruct (isspace c) eqn:Es.
  { split; [done|]. split; [done|]. split; [by intros ->|]. intros j d Hj Hd. destruct (decide (j = i)) as [->|]; [|apply (Hpre j); [lia|done]].
    rewrite lookup_app_l in Ec by (by eapply lookup_lt_Some). congruence. }
  assert (Hi : (i <= length cs)%nat) by (apply lookup_lt_Some in Ec; rewrite length_app in Ec; cbn in Ec; lia).
  assert (Elead : leading isspace cs = take i cs).
  { apply leading_length; [done|done|]. intros d Hd. rewrite lookup_app_l in Ec by (by eapply lookup_lt_Some). congruence. }
  unfold number in En. rewrite Elead, length_take_le in En by done. cbn zeta.
  pose proof (cstr_drop b p cs i Hc Hi) as Hc1. set (cs1 := drop i cs) in *.
  assert (Ec1 : (cs1 ++ [0]) !! 0%nat = Some c).
  { unfold cs1. rewrite <- drop_app_le, lookup_drop, Nat.add_0_r by done. exact Ec. }
  apply wp_bind. eapply wp_load8; [exact Hl|]. destruct (char_digit c) as (Edc & _ & -> & ->); [by eapply cstr_byte|].
  assert (Hfin : forall q cs2, cstr b q cs2 -> ds = leading isdigit cs2 -> negative = (c =? 45) ->
    wp (value ← sloop (fun '(i, value) => c ← load8 (q + i);
      ret (if isdigit (i8 c) then inl (i + 1, i32 (value * 10 - (i8 c - 48))) else inr value)) (0, 0);
      ret (if c =? 45 then value else i32 (- value))) R b).
  { intros q cs2 Hc2 -> <-. apply wp_bind. apply (wp_digits b q cs2); [done|destruct negative; lia|]. apply wp_ret.
    pose proof (decimal_mono (leading isdigit cs2) 0 (leading_forall _ _)) as [_ H0]. change (0 <= decimal (leading isdigit cs2)) in H0.
    split; [|done]. destruct negative; [done|]. rewrite Z.opp_involutive. apply swrap_small; [lia|unfold in_s; lia]. }
  destruct cs1 as [|c1 cs2]; cbn in Ec1; injection Ec1 as E1.
  - injection En as <- <-. subst c. cbn [Z.eqb orb]. by apply (Hfin _ []).
  - subst c1. pose proof (cstr_drop b _ _ 1 Hc1 ltac:(cbn; lia)) as Hc2. cbn [drop] in Hc2. rewrite drop_0 in Hc2.
    change (Z.of_nat 1) with 1 in Hc2.
    destruct (Z.eqb_spec c 43) as [E43|H43]; [|destruct (Z.eqb_spec c 45) as [E45|H45]]; injection En as <- <-; cbn [orb].
    + apply (Hfin _ cs2); [done|done|]. by rewrite E43.
    + apply (Hfin _ cs2); [done|done|]. done.
    + apply (Hfin _ (c :: cs2)); [done|done|]. done.
Qed.

Lemma atoi_correct_witness : atoi 16 (write ∅ 16 [32; 45; 49; 50; 120; 0]) = Ok (-12, write ∅ 16 [32; 45; 49; 50; 120; 0]).
Proof.
  apply (atoi_correct (write ∅ 16 [32; 45; 49; 50; 120; 0]) 16 [32; 45; 49; 50; 120]); [decide_closed|vm_compute; congruence].
Defined.
