(* ===== verification/Stdio.v ===== *)
(** * lib/stdio.c: formatted output

    A format is the list of its characters; reading past its end is an error.
    The arguments are the list of what va_arg() returns, 32-bit words and
    64-bit integers; strings are in a memory of bytes.  [output] is the
    caller's function, [aux] its data. *)

From Stdlib Require Import ZArith Lia.
From stdpp Require Import base numbers gmap list.
From S2P Require Import Prelude Bytes StrLib CStdlib.

Open Scope Z_scope.

(** ** Data *)

Inductive arg : Set := W32 (v : Z) | W64 (v : Z).

(** [va_arg (args, int)] and the like. *)
Definition arg32 (args : list arg) : M bytes (Z * list arg) :=
  match args with W32 v :: args => ret (v, args) | _ => fail BadAccess end.
Definition arg64 (args : list arg) : M bytes (Z * list arg) :=
  match args with W64 v :: args => ret (v, args) | _ => fail BadAccess end.

Definition MINUS : Z := 1.
Definition PLUS : Z := 2.
Definition SPACE : Z := 4.
Definition POUND : Z := 8.
Definition ZERO : Z := 16.
Definition GROUP : Z := 32.

Inductive int_type : Set := CHAR | SHORT | INT | INTMAX | LONG | LONGLONG | PTRDIFFT | SIZET.

(** [struct printf_conversion]. *)
Record conversion : Set := mk_conversion { flags : Z; width : Z; precision : Z; type : int_type }.

Definition has (c : conversion) (flag : Z) : bool := negb (Z.land (flags c) flag =? 0).

(** [struct integer_base]. *)
Record integer_base : Set := mk_base { base : Z; digits : list Z; x_char : Z; group : Z }.

Definition digits_lower : list Z := map Z.of_nat (seq 48 10 ++ seq 97 6).
Definition digits_upper : list Z := map Z.of_nat (seq 48 10 ++ seq 65 6).
Definition base_d : integer_base := mk_base 10 (take 10 digits_lower) 0 3.
Definition base_o : integer_base := mk_base 8 (take 8 digits_lower) 0 3.
Definition base_x : integer_base := mk_base 16 digits_lower 120 4.
Definition base_X : integer_base := mk_base 16 digits_upper 88 4.

(** ** Parsing *)

(** The character at the start of a format, 0 at its end. *)
Definition peek (format : list Z) : Z := match format with [] => 0 | c :: _ => c end.
Definition next (format : list Z) : M bytes (list Z) := match format with [] => fail BadAccess | _ :: f => ret f end.

Definition flag_of (c : Z) : option Z :=
  if c =? 45 then Some MINUS else if c =? 43 then Some PLUS else if c =? 32 then Some SPACE
  else if c =? 35 then Some POUND else if c =? 48 then Some ZERO else if c =? 39 then Some GROUP else None.

Fixpoint parse_flags (format : list Z) (flags : Z) : Z * list Z :=
  match format with
  | c :: f => match flag_of c with Some b => parse_flags f (Z.lor flags b) | None => (flags, format) end
  | [] => (flags, [])
  end.

Fixpoint parse_number (format : list Z) (n : Z) : Z * list Z :=
  match format with
  | c :: f => if isdigit c then parse_number f (i32 (n * 10 + c - 48)) else (n, format)
  | [] => (n, [])
  end.

Definition parse_type (format : list Z) : int_type * list Z :=
  match format with
  | c :: f =>
      if c =? 104 then if peek f =? 104 then (CHAR, drop 1 f) else (SHORT, f)
      else if c =? 106 then (INTMAX, f)
      else if c =? 108 then if peek f =? 108 then (LONGLONG, drop 1 f) else (LONG, f)
      else if c =? 116 then (PTRDIFFT, f)
      else if c =? 122 then (SIZET, f)
      else (INT, format)
  | [] => (INT, [])
  end.

(** A field width or a precision: [*] or a number. *)
Definition parse_count (format : list Z) (args : list arg) : M bytes (Z * list Z * list arg) :=
  if peek format =? 42 then '(v, args) ← arg32 args; ret (i32 v, drop 1 format, args)
  else let '(v, format) := parse_number format 0 in ret (v, format, args).

Definition parse_conversion (format : list Z) (args : list arg) : M bytes (conversion * list Z * list arg) :=
  let '(fl, format) := parse_flags format 0 in
  let fl := if negb (Z.land fl MINUS =? 0) then Z.land fl (Z.lnot ZERO) else fl in
  let fl := if negb (Z.land fl PLUS =? 0) then Z.land fl (Z.lnot SPACE) else fl in
  '(width, format, args) ← parse_count format args;
  let '(width, fl) := if width <? 0 then (i32 (- width), Z.lor fl MINUS) else (width, fl) in
  '(precision, format, args) ← (
    if peek format =? 46 then
      '(p, format, args) ← parse_count (drop 1 format) args;
      ret (if p <? 0 then -1 else p, format, args)
    else ret (-1, format, args));
  let fl := if 0 <=? precision then Z.land fl (Z.lnot ZERO) else fl in
  let '(ty, format) := parse_type format in
  ret (mk_conversion fl width precision ty, format, args).

(** ** Arguments *)

Definition signed_arg (ty : int_type) (args : list arg) : M bytes (Z * list arg) :=
  match ty with
  | CHAR => '(v, args) ← arg32 args; ret (i8 v, args)
  | SHORT => '(v, args) ← arg32 args; ret (swrap 16 v, args)
  | INT | LONG | PTRDIFFT => '(v, args) ← arg32 args; ret (i32 v, args)
  | INTMAX | LONGLONG => '(v, args) ← arg64 args; ret (i64 v, args)
  | SIZET => '(v, args) ← arg32 args;
             let value := u32 v in
             ret (if (2 ^ 32 - 1) / 2 <? value then value - (2 ^ 32 - 1) - 1 else value, args)
  end.

Definition unsigned_arg (ty : int_type) (args : list arg) : M bytes (Z * list arg) :=
  match ty with
  | CHAR => '(v, args) ← arg32 args; ret (u8 v, args)
  | SHORT => '(v, args) ← arg32 args; ret (u16 v, args)
  | INT | LONG | SIZET => '(v, args) ← arg32 args; ret (u32 v, args)
  | INTMAX | LONGLONG => '(v, args) ← arg64 args; ret (u64 v, args)
  | PTRDIFFT => '(v, args) ← arg32 args; ret (Z.land (u64 (i32 v)) (Z.lor (Z.shiftl (2 ^ 31 - 1) 1) 1), args)
  end.

Section Printf.
Context {X : Type} (output : Z -> X -> M bytes X).

(** ** Output *)

Fixpoint output_dup (ch : Z) (cnt : nat) (aux : X) : M bytes X :=
  match cnt with
  | O => ret aux
  | S n => aux ← output ch aux; output_dup ch n aux
  end.

Fixpoint output_all (cs : list Z) (aux : X) : M bytes X :=
  match cs with
  | [] => ret aux
  | ch :: cs => aux ← output ch aux; output_all cs aux
  end.

(** [*cp++ = ch] for [char buf[64]]; the list is the buffer, last character
    first. *)
Definition push (cp : list Z) (ch : Z) : M bytes (list Z) :=
  if Z.of_nat (length cp) <? 64 then ret (ch :: cp) else fail BadAccess.

Definition push_digits (value : Z) (b : integer_base) (c : conversion) : M bytes (list Z) :=
  iterate 65 (fun '(value, cp, digit_cnt) =>
    if negb (0 <? value) then ret (inr cp) else
    cp ← (if has c GROUP && (0 <? digit_cnt) && (digit_cnt mod group b =? 0) then push cp 44 else ret cp);
    ch ← of_option BadAccess (digits b !! Z.to_nat (value mod base b));
    cp ← push cp ch;
    ret (inl (value / base b, cp, digit_cnt + 1))) (value, [], 0).

Definition push_zeros (precision : Z) (cp : list Z) : M bytes (list Z) :=
  iterate 65 (fun cp =>
    if (Z.of_nat (length cp) <? precision) && (Z.of_nat (length cp) <? 63) then cp ← push cp 48; ret (inl cp)
    else ret (inr cp)) cp.

Definition format_integer (value : Z) (is_signed negative : bool) (b : integer_base) (c : conversion) (aux : X) : M bytes X :=
  let sign :=
    if is_signed then
      if has c PLUS then if negative then 45 else 43
      else if has c SPACE then if negative then 45 else 32
      else if negative then 45 else 0
    else 0 in
  let x := if has c POUND && negb (value =? 0) then x_char b else 0 in
  cp ← push_digits value b c;
  cp ← push_zeros (if precision c <? 0 then 1 else precision c) cp;
  cp ← (if has c POUND && (base b =? 8) && negb (match cp with ch :: _ => ch =? 48 | [] => false end) then push cp 48 else ret cp);
  let pad := i32 (width c - Z.of_nat (length cp) - (if negb (x =? 0) then 2 else 0) - (if negb (sign =? 0) then 1 else 0)) in
  let pad_cnt := Z.to_nat (if pad <? 0 then 0 else pad) in
  aux ← (if Z.land (flags c) (Z.lor MINUS ZERO) =? 0 then output_dup 32 pad_cnt aux else ret aux);
  aux ← (if negb (sign =? 0) then output sign aux else ret aux);
  aux ← (if negb (x =? 0) then aux ← output 48 aux; output x aux else ret aux);
  aux ← (if has c ZERO then output_dup 48 pad_cnt aux else ret aux);
  aux ← output_all cp aux;
  if has c MINUS then output_dup 32 pad_cnt aux else ret aux.

(** [char_at i] is the character [string[i]]. *)
Definition format_string (char_at : Z -> M bytes Z) (length : Z) (c : conversion) (aux : X) : M bytes X :=
  let pad := Z.to_nat (width c - length) in
  aux ← (if (length <? width c) && negb (has c MINUS) then output_dup 32 pad aux else ret aux);
  aux ← iterate (S (Z.to_nat length)) (fun '(i, aux) =>
    if i <? length then ch ← char_at i; aux ← output ch aux; ret (inl (i + 1, aux)) else ret (inr aux)) (0, aux);
  if (length <? width c) && has c MINUS then output_dup 32 pad aux else ret aux.

(** ** Conversions *)

Definition null_string : list Z := [40; 110; 117; 108; 108; 41].
Definition literal (cs : list Z) (i : Z) : M bytes Z := of_option BadAccess (cs !! Z.to_nat i).

(** The length that [%s] prints: strnlen (s, c.precision). *)
Definition string_length (s precision : Z) : M bytes Z :=
  if s =? NULL then ret (Z.min (Z.of_nat (length null_string)) (u32 precision)) else strnlen s (u32 precision).

(** [no_in_kernel] and [no_conversion] are "<<no %%%c in kernel>>" and
    "<<no %%%c conversion>>". *)
Definition no_in_kernel : list Z := [60; 60; 110; 111; 32; 37; 37; 37; 99; 32; 105; 110; 32; 107; 101; 114; 110; 101; 108; 62; 62].
Definition no_conversion : list Z := [60; 60; 110; 111; 32; 37; 37; 37; 99; 32; 99; 111; 110; 118; 101; 114; 115; 105; 111; 110; 62; 62].

(** The [switch] on the conversion character; [printf] is __printf(). *)
Definition convert (printf : list Z -> list arg -> X -> M bytes X) (ch : Z) (c : conversion) (args : list arg) (aux : X) : M bytes (list arg * X) :=
  if (ch =? 100) || (ch =? 105) then
    '(value, args) ← signed_arg (type c) args;
    aux ← format_integer (u64 (if value <? 0 then i64 (- value) else value)) true (value <? 0) base_d c aux;
    ret (args, aux)
  else if (ch =? 111) || (ch =? 117) || (ch =? 120) || (ch =? 88) then
    '(value, args) ← unsigned_arg (type c) args;
    let b := if ch =? 111 then base_o else if ch =? 117 then base_d else if ch =? 120 then base_x else base_X in
    aux ← format_integer value false false b c aux;
    ret (args, aux)
  else if ch =? 99 then
    '(v, args) ← arg32 args;
    aux ← format_string (fun _ => ret (u8 v)) 1 c aux;
    ret (args, aux)
  else if ch =? 115 then
    '(s, args) ← arg32 args;
    n ← string_length s (precision c);
    aux ← format_string (fun i => if s =? NULL then literal null_string i else load8 (s + i)) (i32 n) c aux;
    ret (args, aux)
  else if ch =? 112 then
    '(p, args) ← arg32 args;
    aux ← format_integer (u32 p) false false base_x (mk_conversion POUND (width c) (precision c) (type c)) aux;
    ret (args, aux)
  else if (ch =? 102) || (ch =? 101) || (ch =? 69) || (ch =? 103) || (ch =? 71) || (ch =? 110) then
    aux ← printf no_in_kernel [W32 ch] aux; ret (args, aux)
  else
    aux ← printf no_conversion [W32 ch] aux; ret (args, aux).

(** [depth] bounds the calls of __printf(), whose formats need none. *)
Fixpoint __vprintf (depth : nat) (format : list Z) (args : list arg) (aux : X) : M bytes X :=
  match depth with
  | O => fail OutOfFuel
  | S depth =>
      iterate (S (length format)) (fun '(format, args, aux) =>
        match format with
        | [] => ret (inr aux)
        | ch :: format =>
            if negb (ch =? 37) then aux ← output ch aux; ret (inl (format, args, aux))
            else if peek format =? 37 then aux ← output 37 aux; ret (inl (drop 1 format, args, aux))
            else
              '(c, format, args) ← parse_conversion format args;
              '(args, aux) ← convert (__vprintf depth) (peek format) c args aux;
              format ← next format;
              ret (inl (format, args, aux))
        end) (format, args, aux)
  end.
End Printf.

(** ** vsnprintf() *)

(** [struct vsnprintf_aux]. *)
Record vsnprintf_aux : Set := mk_aux { aux_p : Z; aux_length : Z; max_length : Z }.

Definition vsnprintf_helper (ch : Z) (aux : vsnprintf_aux) : M bytes vsnprintf_aux :=
  if aux_length aux <? max_length aux then
    store8 (aux_p aux) ch;; ret (mk_aux (aux_p aux + 1) (i32 (aux_length aux + 1)) (max_length aux))
  else ret (mk_aux (aux_p aux) (i32 (aux_length aux + 1)) (max_length aux)).

Definition vsnprintf (buffer buf_size : Z) (format : list Z) (args : list arg) : M bytes Z :=
  aux ← __vprintf vsnprintf_helper 2 format args (mk_aux buffer 0 (i32 (if 0 <? buf_size then buf_size - 1 else 0)));
  (if 0 <? buf_size then store8 (aux_p aux) 0 else ret tt);;
  ret (aux_length aux).

Definition snprintf (buffer buf_size : Z) (format : list Z) (args : list arg) : M bytes Z := vsnprintf buffer buf_size format args.
