(* ===== verification/StdioSpec.v ===== *)
(** * Formatted output: what a format means

    The text that a format and its arguments stand for, and then that the
    parser of directives reads what the format says. *)

From Stdlib Require Import ZArith Lia.
From stdpp Require Import base numbers gmap list.
From S2P Require Import Prelude Bytes StrLib CStdlib Stdio.

Open Scope Z_scope.

(** * The text of a format

    A format is a sequence of characters, of [%%] and of directives; [show]
    prints it.  [render] is the text that it stands for: fields, numerals,
    groups and strings, with flags as truth values. *)

(** ** Formats *)

(** A field width or a precision. *)
Inductive count : Set := Digits (ds : list Z) | Star.

Record directive : Set := mk_directive {
  d_flags : list Z; d_width : count; d_precision : option count; d_type : int_type; d_conv : Z }.

Inductive piece : Set := Char (c : Z) | Percent | Directive (d : directive).

Definition show_count (k : count) : list Z := match k with Digits ds => ds | Star => [42] end.

Definition show_type (ty : int_type) : list Z :=
  match ty with
  | CHAR => [104; 104] | SHORT => [104] | INT => [] | INTMAX => [106]
  | LONG => [108] | LONGLONG => [108; 108] | PTRDIFFT => [116] | SIZET => [122]
  end.

Definition show_precision (p : option count) : list Z := match p with None => [] | Some k => 46 :: show_count k end.

Definition show_directive (d : directive) : list Z :=
  d_flags d ++ show_count (d_width d) ++ show_precision (d_precision d) ++ show_type (d_type d) ++ [d_conv d].

Definition show_piece (x : piece) : list Z :=
  match x with Char c => [c] | Percent => [37; 37] | Directive d => 37 :: show_directive d end.

Definition show (ps : list piece) : list Z := concat (map show_piece ps).

Definition is_flag (c : Z) : bool := match flag_of c with Some _ => true | None => false end.

(** Characters that cannot be taken for part of what precedes them. *)
Definition conv_char (c : Z) : bool :=
  (0 <? c) && (c <? 256) && negb (is_flag c) && negb (isdigit c) &&
  negb (bool_decide (c ∈ [42; 46; 104; 106; 108; 116; 122; 37])).

Definition valid_count (k : count) : Prop :=
  match k with Digits ds => Forall (fun d => isdigit d = true) ds /\ decimal ds < 2 ^ 31 | Star => True end.

Definition valid_directive (d : directive) : Prop :=
  Forall (fun c => is_flag c = true) (d_flags d) /\
  valid_count (d_width d) /\ (match d_width d with Digits (c :: _) => c <> 48 | _ => True end) /\
  (match d_precision d with Some k => valid_count k | None => True end) /\
  conv_char (d_conv d) = true.

Definition valid_piece (x : piece) : Prop :=
  match x with Char c => 0 < c < 256 /\ c <> 37 | Percent => True | Directive d => valid_directive d end.

#[global] Instance valid_piece_dec x : Decision (valid_piece x).
Proof.
  destruct x as [c| |[fs w p ty cv]]; cbn; try apply _. unfold valid_directive; cbn.
  assert (forall k, Decision (valid_count k)) by (intros []; apply _).
  apply and_dec; [apply _|]. apply and_dec; [apply _|].
  apply and_dec; [destruct w as [[|]|]; apply _|]. apply and_dec; [destruct p; apply _|apply _].
Defined.

(** ** Text *)

(** How a directive lays out its argument. *)
Record style : Set := mk_style {
  left : bool; plus : bool; space : bool; alt : bool; zero : bool; grouped : bool; field : Z; digits_min : option Z }.

Definition spaces (n : Z) : list Z := replicate (Z.to_nat n) 32.
Definition zeroes (n : Z) : list Z := replicate (Z.to_nat n) 48.
Definition len (cs : list Z) : Z := Z.of_nat (length cs).

(** A field: [front] is a sign or a prefix, which zeroes follow and spaces
    precede. *)
Definition layout (st : style) (front body : list Z) : list Z :=
  let pad := field st - len (front ++ body) in
  if left st then front ++ body ++ spaces pad
  else if zero st then front ++ zeroes pad ++ body
  else spaces pad ++ front ++ body.

(** The digits of [n], most significant first; none for 0. *)
Fixpoint numeral_rec (fuel : nat) (b : integer_base) (n : Z) : list Z :=
  match fuel with
  | O => []
  | S f => if n =? 0 then [] else numeral_rec f b (n / base b) ++ [default 0 (digits b !! Z.to_nat (n mod base b))]
  end.
Definition numeral (b : integer_base) (n : Z) : list Z := numeral_rec 22 b n.

(** A comma after every [k] digits, counted from the last one. *)
Fixpoint commas (k : Z) (ds : list Z) : list Z :=
  match ds with
  | [] => []
  | d :: ds => d :: (if (0 <? len ds) && (len ds mod k =? 0) then [44] else []) ++ commas k ds
  end.

(** At least [digits_min] digits, 1 by default; no more than 63 zeroes and
    digits are printed. *)
Definition integer_body (st : style) (b : integer_base) (n : Z) : list Z :=
  let ds := if grouped st then commas (group b) (numeral b n) else numeral b n in
  let ds := zeroes (Z.min (default 1 (digits_min st)) 63 - len ds) ++ ds in
  if alt st && (base b =? 8) && negb (bool_decide (head ds = Some 48)) then 48 :: ds else ds.

Definition sign_of (st : style) (negative : bool) : list Z :=
  if negative then [45] else if plus st then [43] else if space st then [32] else [].

Definition prefix_of (st : style) (b : integer_base) (n : Z) : list Z :=
  if alt st && negb (n =? 0) && negb (x_char b =? 0) then [48; x_char b] else [].

Definition signed_text (st : style) (v : Z) : list Z :=
  layout st (sign_of st (v <? 0)) (integer_body st base_d (Z.abs v)).
Definition unsigned_text (st : style) (b : integer_base) (n : Z) : list Z :=
  layout st (prefix_of st b n) (integer_body st b n).
Definition string_text (st : style) (cs : list Z) : list Z :=
  layout (mk_style (left st) false false false false false (field st) None) [] cs.

(** ** Arguments *)

(** The width of an integer type, and the argument read at it. *)
Definition bits (ty : int_type) : Z :=
  match ty with CHAR => 8 | SHORT => 16 | INTMAX | LONGLONG => 64 | _ => 32 end.

Definition take_word (ty : int_type) (args : list arg) : option (Z * list arg) :=
  match args with
  | W32 v :: args => if bits ty =? 64 then None else Some (v, args)
  | W64 v :: args => if bits ty =? 64 then Some (v, args) else None
  | [] => None
  end.

Definition take_count (k : count) (args : list arg) : option (Z * list arg) :=
  match k with
  | Digits ds => Some (decimal ds, args)
  | Star => '(v, args) ← take_word INT args; Some (i32 v, args)
  end%stdpp.

(** A negative width stands for the flag [-]; a negative precision for none.
    The least integer has no absolute value, and zeroes do not go together
    with a negative width. *)
Definition style_of (d : directive) (args : list arg) : option (style * list arg) :=
  match take_count (d_width d) args with
  | None => None
  | Some (w, args) =>
      match (match d_precision d with None => Some (-1, args) | Some k => take_count k args end) with
      | None => None
      | Some (p, args) =>
          let flag c := bool_decide (c ∈ d_flags d) in
          let prec := if p <? 0 then None else Some p in
          let zero := flag 48 && negb (flag 45) && bool_decide (prec = None) in
          if (w =? - 2 ^ 31) || ((w <? 0) && zero) then None
          else Some (mk_style (flag 45 || (w <? 0)) (flag 43) (flag 32 && negb (flag 43)) (flag 35) zero (flag 39) (Z.abs w) prec, args)
      end
  end.

Definition base_of (ch : Z) : integer_base :=
  if ch =? 111 then base_o else if ch =? 117 then base_d else if ch =? 120 then base_x else base_X.

(** The text that stands for a conversion that there is not. *)
Definition refusal (ch : Z) : list Z :=
  [60; 60; 110; 111; 32; 37; ch] ++
  (if bool_decide (ch ∈ [102; 101; 69; 103; 71; 110]) then [32; 105; 110; 32; 107; 101; 114; 110; 101; 108; 62; 62]
   else [32; 99; 111; 110; 118; 101; 114; 115; 105; 111; 110; 62; 62]).

Section Render.
(** The strings in memory, by address. *)
Context (strs : gmap Z (list Z)).

Definition string_at (p : Z) : option (list Z) := if p =? NULL then Some null_string else strs !! p.

Definition render_conversion (st : style) (ty : int_type) (ch : Z) (args : list arg) : option (list Z * list arg) :=
  (if bool_decide (ch ∈ [100; 105]) then
     '(v, args) ← take_word ty args; Some (signed_text st (swrap (bits ty) v), args)
   else if bool_decide (ch ∈ [111; 117; 120; 88]) then
     '(v, args) ← take_word ty args; Some (unsigned_text st (base_of ch) (uwrap (bits ty) v), args)
   else if ch =? 99 then
     '(v, args) ← take_word INT args; Some (string_text st [u8 v], args)
   else if ch =? 115 then
     '(p, args) ← take_word INT args; cs ← string_at p;
     Some (string_text st (match digits_min st with Some n => take (Z.to_nat n) cs | None => cs end), args)
   else if ch =? 112 then
     '(p, args) ← take_word INT args;
     Some (unsigned_text (mk_style false false false true false false (field st) (digits_min st)) base_x (u32 p), args)
   else Some (refusal ch, args))%stdpp.

Definition render_directive (d : directive) (args : list arg) : option (list Z * list arg) :=
  ('(st, args) ← style_of d args; render_conversion st (d_type d) (d_conv d) args)%stdpp.

Fixpoint render (ps : list piece) (args : list arg) : option (list Z) :=
  match ps with
  | [] => Some []
  | Char c :: ps => cs ← render ps args; Some (c :: cs)
  | Percent :: ps => cs ← render ps args; Some (37 :: cs)
  | Directive d :: ps => '(ds, args) ← render_directive d args; cs ← render ps args; Some (ds ++ cs)
  end%stdpp.
End Render.

(** * Formatted output: parsing a directive

    parse_conversion() reads back what [show_directive] prints, and its flag
    bits are the truth values of the directive's style. *)

(** ** Flag bits *)

Definition bit (fl f : Z) : bool := negb (Z.land fl f =? 0).

Lemma bit_lor a b f : bit (Z.lor a b) f = bit a f || bit b f.
Proof.
  unfold bit. rewrite Z.land_lor_distr_l. pose proof (Z.lor_eq_0_iff (Z.land a f) (Z.land b f)).
  destruct (Z.eqb_spec (Z.lor (Z.land a f) (Z.land b f)) 0), (Z.eqb_spec (Z.land a f) 0), (Z.eqb_spec (Z.land b f) 0); tauto.
Qed.

Lemma bit_clear a g f : bit (Z.land a (Z.lnot g)) f = bit a (Z.land (Z.lnot g) f).
Proof. unfold bit. by rewrite Z.land_assoc. Qed.

Lemma bit_if (c : bool) x y f : bit (if c then x else y) f = if c then bit x f else bit y f.
Proof. by destruct c. Qed.

Lemma bit_none a : bit a 0 = false.
Proof. unfold bit. by rewrite Z.land_0_r. Qed.

(** The character of each flag. *)
Definition flag_chars : list (Z * Z) := [(45, MINUS); (43, PLUS); (32, SPACE); (35, POUND); (48, ZERO); (39, GROUP)].

Lemma flag_of_elem c f : flag_of c = Some f <-> (c, f) ∈ flag_chars.
Proof.
  unfold flag_of, flag_chars. rewrite !elem_of_cons, elem_of_nil. split.
  - intros H. repeat (case_match; [simplify_eq; rewrite Z.eqb_eq in *; subst; tauto|]). done.
  - intros H. destruct_or?; simplify_eq; done.
Qed.

Lemma flag_bit c f c' f' : (c, f) ∈ flag_chars -> (c', f') ∈ flag_chars -> bit f f' = (c =? c').
Proof.
  unfold flag_chars. rewrite !elem_of_cons, !elem_of_nil. intros H H'.
  destruct_or?; simplify_eq; done.
Qed.

Lemma parse_flags_show fs rest : Forall (fun c => is_flag c = true) fs -> is_flag (peek rest) = false ->
  forall acc, exists fl, parse_flags (fs ++ rest) acc = (fl, rest) /\
  forall c f, (c, f) ∈ flag_chars -> bit fl f = bit acc f || bool_decide (c ∈ fs).
Proof.
  intros Hfs Hr. induction Hfs as [|c0 fs Hc Hfs IH]; intros acc; cbn [app].
  - exists acc. split.
    + destruct rest as [|c rest]; cbn [parse_flags]; [done|]. unfold is_flag in Hr. cbn [peek] in Hr. by destruct (flag_of c).
    + intros c f _. rewrite bool_decide_eq_false_2 by apply not_elem_of_nil. by rewrite orb_false_r.
  - cbn [parse_flags]. unfold is_flag in Hc. destruct (flag_of c0) as [b|] eqn:E; [|done].
    destruct (IH (Z.lor acc b)) as (fl & E1 & H1). exists fl. split; [done|]. intros c f Hcf.
    rewrite (H1 c f Hcf), bit_lor, (flag_bit c0 b c f) by (done || by apply flag_of_elem).
    rewrite <- orb_assoc. f_equal. rewrite (bool_decide_ext (c ∈ c0 :: fs) (c0 = c \/ c ∈ fs)) by (rewrite elem_of_cons; firstorder congruence).
    rewrite bool_decide_or. f_equal. destruct (Z.eqb_spec c0 c); [by rewrite bool_decide_eq_true_2|by rewrite bool_decide_eq_false_2].
Qed.

(** ** Numbers *)

Lemma decimal_cons_pos ds d : Forall (fun d => isdigit d = true) (ds ++ [d]) ->
  0 <= decimal ds /\ decimal (ds ++ [d]) = decimal ds * 10 + (d - 48) /\ 0 <= d - 48 <= 9.
Proof.
  intros H. split; [|split].
  - apply (decimal_mono ds 0). by apply Forall_app in H as [H _].
  - apply decimal_snoc.
  - apply Forall_app in H as [_ [H _]%Forall_cons]. unfold isdigit in H. lia.
Qed.

Lemma parse_number_show ds rest : isdigit (peek rest) = false -> forall done,
  Forall (fun d => isdigit d = true) (done ++ ds) -> decimal (done ++ ds) < 2 ^ 31 ->
  parse_number (ds ++ rest) (decimal done) = (decimal (done ++ ds), rest).
Proof.
  intros Hr. induction ds as [|d ds IH]; intros dn Hd Hv; cbn [app].
  - rewrite app_nil_r. destruct rest as [|c rest]; cbn [parse_number]; [done|]. cbn [peek] in Hr. by rewrite Hr.
  - rewrite (cons_middle d dn ds), app_assoc in *. cbn [parse_number].
    assert (Hd1 := Hd). apply Forall_app in Hd1 as [Hd1 _]. destruct (decimal_cons_pos _ _ Hd1) as (H0 & E & H9).
    assert (Hle : decimal (dn ++ [d]) <= decimal ((dn ++ [d]) ++ ds)).
    { pose proof (decimal_mono _ (length (dn ++ [d])) Hd) as Hm. rewrite take_app_length in Hm. lia. }
    assert (isdigit d = true) as -> by (unfold isdigit; lia).
    rewrite swrap_small by (unfold in_s; lia). replace (decimal dn * 10 + d - 48) with (decimal (dn ++ [d])) by lia.
    apply (IH (dn ++ [d])); done.
Qed.

Lemma parse_type_show ty ch rest : conv_char ch = true -> parse_type (show_type ty ++ ch :: rest) = (ty, ch :: rest).
Proof.
  intros H. assert (Hn : ch <> 104 /\ ch <> 106 /\ ch <> 108 /\ ch <> 116 /\ ch <> 122).
  { unfold conv_char in H. rewrite !andb_true_iff, !negb_true_iff, bool_decide_eq_false in H. destruct H as [_ H]. set_solver. }
  destruct Hn as (H1 & H2 & H3 & H4 & H5). rewrite <- !Z.eqb_neq in *.
  destruct ty; cbn [show_type app parse_type peek Z.eqb Pos.eqb drop]; rewrite ?H1, ?H2, ?H3, ?H4, ?H5; done.
Qed.

Lemma parse_count_show k rest args v args' b : valid_count k -> isdigit (peek rest) = false -> peek rest <> 42 ->
  take_count k args = Some (v, args') ->
  parse_count (show_count k ++ rest) args b = Ok ((v, rest, args'), b).
Proof.
  intros Hk Hd Hs Ht. unfold parse_count. destruct k as [ds|]; cbn [show_count app take_count peek] in *.
  - injection Ht as <- <-. destruct Hk as [Hds Hv].
    assert (E : (peek (ds ++ rest) =? 42) = false).
    { apply Z.eqb_neq. destruct ds as [|d ds]; [done|]. apply Forall_cons in Hds as [H _]. cbn. unfold isdigit in H. lia. }
    rewrite E. change 0 with (decimal []) at 1. by rewrite parse_number_show.
  - destruct args as [|[w|w] args]; cbn in Ht; simplify_eq. done.
Qed.

(** ** Conversions *)

(** A conversion as the code has it and as the specification has it. *)
Record styled (c : conversion) (st : style) : Prop := {
  sty_left : has c MINUS = left st;
  sty_plus : has c PLUS = plus st;
  sty_space : has c SPACE = space st;
  sty_alt : has c POUND = alt st;
  sty_zero : has c ZERO = zero st;
  sty_group : has c GROUP = grouped st;
  sty_width : width c = field st;
  sty_precision : precision c = default (-1) (digits_min st);
  sty_field : 0 <= field st < 2 ^ 31;
  sty_digits : match digits_min st with Some p => 0 <= p < 2 ^ 31 | None => True end;
  sty_left_zero : left st && zero st = false;
}.

Lemma take_count_range k args v args' : valid_count k -> take_count k args = Some (v, args') -> - 2 ^ 31 <= v < 2 ^ 31.
Proof.
  intros Hk Ht. destruct k as [ds|]; cbn in *.
  - injection Ht as <- <-. destruct Hk as [Hd Hv]. pose proof (decimal_mono ds 0 Hd) as [H1 H2]. lia.
  - destruct args as [|[w|w] args]; cbn in Ht; simplify_eq. pose proof (swrap_range 32 w ltac:(lia)) as H. unfold in_s in H. lia.
Qed.

(** What follows the flags, the width and the precision. *)
Lemma conv_char_not ch : conv_char ch = true ->
  is_flag ch = false /\ isdigit ch = false /\ ch <> 42 /\ ch <> 46 /\ ch <> 37 /\ 0 < ch < 256.
Proof.
  unfold conv_char. rewrite !andb_true_iff, !negb_true_iff, bool_decide_eq_false. intros [[[[H1 H2] H3] H4] H5].
  split_and!; try done; try lia; set_solver.
Qed.

Lemma peek_type ty ch rest : conv_char ch = true ->
  let c := peek (show_type ty ++ ch :: rest) in is_flag c = false /\ isdigit c = false /\ c <> 42 /\ c <> 46.
Proof. intros H%conv_char_not. destruct ty; cbn [show_type app peek]; split_and!; done || tauto. Qed.

Lemma peek_precision p ty ch rest : conv_char ch = true ->
  let c := peek (show_precision p ++ show_type ty ++ ch :: rest) in is_flag c = false /\ isdigit c = false /\ c <> 42.
Proof. intros H. destruct p; cbn [show_precision app peek]; [done|]. destruct (peek_type ty ch rest H) as (? & ? & ? & _). done. Qed.

Lemma peek_width d rest : valid_directive d ->
  is_flag (peek (show_count (d_width d) ++ show_precision (d_precision d) ++ show_type (d_type d) ++ d_conv d :: rest)) = false.
Proof.
  intros (_ & Hw & H0 & _ & Hc). destruct (d_width d) as [[|c ds]|]; cbn; [by apply peek_precision| |done].
  destruct Hw as [[Hd _]%Forall_cons _]. unfold isdigit in Hd. unfold is_flag, flag_of.
  do 6 rewrite (proj2 (Z.eqb_neq c _)) by lia. done.
Qed.

(** The precision, when there is one. *)
Lemma parse_precision_show p rest args v args' b :
  match p with Some k => valid_count k | None => True end ->
  isdigit (peek rest) = false -> peek rest <> 42 -> peek rest <> 46 ->
  (match p with None => Some (-1, args) | Some k => take_count k args end) = Some (v, args') ->
  (if peek (show_precision p ++ rest) =? 46 then
     '(p, format, args) ← parse_count (drop 1 (show_precision p ++ rest)) args;
     ret (if p <? 0 then -1 else p, format, args)
   else ret (-1, show_precision p ++ rest, args)) b = Ok ((if v <? 0 then -1 else v, rest, args'), b).
Proof.
  intros Hp H1 H2 H3 Ht. destruct p as [k|]; cbn [show_precision app peek].
  - cbn [Z.eqb Pos.eqb drop]. rewrite drop_0. unfold bind. erewrite parse_count_show by done. done.
  - rewrite (proj2 (Z.eqb_neq _ _) H3). by simplify_eq.
Qed.

(** The bits that parse_conversion() leaves: [m], [n] and [k] tell whether a
    flag [-], a negative width and a precision were given. *)
Lemma flag_bits fl (n k : bool) f :
  let fl1 := if bit fl MINUS then Z.land fl (Z.lnot ZERO) else fl in
  let fl2 := if bit fl1 PLUS then Z.land fl1 (Z.lnot SPACE) else fl1 in
  let fl3 := if n then Z.lor fl2 MINUS else fl2 in
  let fl4 := if k then Z.land fl3 (Z.lnot ZERO) else fl3 in
  f ∈ map snd flag_chars ->
  bit fl4 f = if f =? MINUS then bit fl MINUS || n
              else if f =? SPACE then bit fl SPACE && negb (bit fl PLUS)
              else if f =? ZERO then bit fl ZERO && negb (bit fl MINUS) && negb k else bit fl f.
Proof.
  intros fl1 fl2 fl3 fl4 Hf. unfold fl4, fl3, fl2, fl1. repeat rewrite ?bit_if, ?bit_clear, ?bit_lor.
  cbn in Hf. rewrite !elem_of_cons, elem_of_nil in Hf. unfold MINUS, PLUS, SPACE, POUND, ZERO, GROUP in *.
  destruct_or?; subst f; try done; cbn [Z.eqb Pos.eqb].
  all: repeat match goal with |- context [Z.land (Z.lnot ?a) ?c] => let v := eval vm_compute in (Z.land (Z.lnot a) c) in change (Z.land (Z.lnot a) c) with v end.
  all: change (bit 1 1) with true; change (bit 1 2) with false; change (bit 1 4) with false;
    change (bit 1 8) with false; change (bit 1 16) with false; change (bit 1 32) with false.
  all: rewrite ?bit_none.
  all: destruct (bit fl 1), (bit fl 2), n, k; cbn [negb andb orb]; rewrite ?orb_true_r, ?orb_false_r, ?andb_false_r, ?andb_true_r; done.
Qed.

Lemma parse_conversion_show d rest args st args' b : valid_directive d -> style_of d args = Some (st, args') ->
  exists c, parse_conversion (show_directive d ++ rest) args b = Ok ((c, d_conv d :: rest, args'), b) /\ styled c st /\ type c = d_type d.
Proof.
  intros Hd Hst. pose proof Hd as (Hf & Hw & _ & Hp & Hc). unfold show_directive. rewrite <- !app_assoc. cbn [app].
  unfold style_of in Hst. destruct (take_count (d_width d) args) as [[w args1]|] eqn:Ew; [|done].
  destruct (match d_precision d with None => _ | Some k => _ end) as [[p args2]|] eqn:Ep; [|done].
  destruct (_ || _) eqn:Ebad in Hst; [done|]. injection Hst as <- <-. apply orb_false_iff in Ebad as [Hmin Hneg]. apply Z.eqb_neq in Hmin.
  destruct (parse_flags_show (d_flags d) _ Hf (peek_width d rest Hd) 0) as (fl & Efl & Hbits).
  unfold parse_conversion. rewrite Efl.
  destruct (peek_precision (d_precision d) (d_type d) (d_conv d) rest Hc) as (_ & P1 & P2).
  destruct (peek_type (d_type d) (d_conv d) rest Hc) as (_ & T1 & T2 & T3).
  change (negb (Z.land fl MINUS =? 0)) with (bit fl MINUS).
  set (fl1 := if bit fl MINUS then _ else _). change (negb (Z.land fl1 PLUS =? 0)) with (bit fl1 PLUS). set (fl2 := if bit fl1 PLUS then _ else _).
  unfold bind at 1. erewrite parse_count_show by done. cbv beta iota zeta.
  assert (Hif : (if w <? 0 then (i32 (- w), Z.lor fl2 MINUS) else (w, fl2)) = (Z.abs w, if w <? 0 then Z.lor fl2 MINUS else fl2)).
  { pose proof (take_count_range _ _ _ _ Hw Ew). destruct (Z.ltb_spec w 0); f_equal; [|lia].
    rewrite swrap_small; [lia|lia|unfold in_s; lia]. }
  rewrite Hif. cbv beta iota. unfold bind at 1. erewrite parse_precision_show by done. cbv beta iota.
  rewrite parse_type_show by done. eexists. split; [reflexivity|]. split; [|done].
  assert (Hk : (0 <=? (if p <? 0 then -1 else p)) = negb (p <? 0)) by (destruct (Z.ltb_spec p 0); lia).
  assert (Hb : forall c f, (c, f) ∈ flag_chars -> bit fl f = bool_decide (c ∈ d_flags d)) by (intros c f Hcf; by rewrite (Hbits c f Hcf)).
  assert (Hprec : bool_decide ((if p <? 0 then None else Some p) = None) = (p <? 0)) by (by destruct (p <? 0)).
  pose proof (take_count_range _ _ _ _ Hw Ew) as Hwr. rewrite Hprec in *.
  pose proof (fun f Hf => flag_bits fl (w <? 0) (negb (p <? 0)) f Hf) as HB. cbv zeta in HB. fold fl1 in HB. fold fl2 in HB. rewrite <- Hk in HB.
  split; unfold has; cbn [flags width precision left plus space alt zero grouped field digits_min].
  1-6: etrans; [apply HB; decide_closed|]; unfold MINUS, PLUS, SPACE, POUND, ZERO, GROUP; cbn [Z.eqb Pos.eqb];
    rewrite ?(Hb 45 1), ?(Hb 43 2), ?(Hb 32 4), ?(Hb 35 8), ?(Hb 48 16), ?(Hb 39 32) by decide_closed; rewrite ?Hk, ?negb_involutive; done.
  - done.
  - by destruct (p <? 0).
  - lia.
  - destruct (Z.ltb_spec p 0); [done|]. destruct (d_precision d) as [k|]; [|by simplify_eq; lia].
    pose proof (take_count_range _ _ _ _ Hp Ep). lia.
  - destruct (bool_decide (45 ∈ d_flags d)); cbn in *; [by rewrite andb_false_r|done].
Qed.
