(* ===== verification/StdioProps.v ===== *)
(** * Formatted output: correctness

    What the functions of lib/stdio.c pass to the output function, and then the
    theorems on snprintf(). *)

From Stdlib Require Import ZArith Lia.
From stdpp Require Import base numbers gmap list.
From S2P Require Import Prelude Bytes StrLib CStdlib Stdio StdioSpec.

Open Scope Z_scope.

(** * Formatted output: what the functions emit

    [emits m cs]: the code [m] passes the characters [cs], one by one and in
    order, to the output function.  The integer, string and directive
    conversions emit the text of the specification. *)

(** ** The buffer of digits *)

(** A base as format_integer() uses it. *)
Definition base_ok (b : integer_base) : Prop :=
  8 <= base b /\ Z.of_nat (length (digits b)) = base b /\ Forall (fun d => 0 < d < 256) (digits b) /\ 0 < group b /\
  0 <= x_char b < 256 /\ (base b = 8 -> x_char b = 0).

#[global] Instance base_ok_dec b : Decision (base_ok b).
Proof. unfold base_ok. apply _. Defined.

Lemma base_of_ok ch : base_ok (base_of ch).
Proof. unfold base_of. repeat case_match; decide_closed. Qed.

Lemma base_d_ok : base_ok base_d.
Proof. decide_closed. Qed.

Lemma commas_length k ds : (length ds <= length (commas k ds) <= 2 * length ds)%nat.
Proof. induction ds as [|d ds IH]; cbn [commas]; [done|]. cbn [length]. rewrite length_app. case_match; cbn [length]; lia. Qed.

(** The digits with or without commas. *)
Definition punctuated (g : bool) (b : integer_base) (ds : list Z) : list Z := if g then commas (group b) ds else ds.

Lemma punctuated_length g b ds : (length (punctuated g b ds) <= 2 * length ds)%nat.
Proof. destruct g; cbn; [apply commas_length|lia]. Qed.

Lemma wp_push cp ch s (Q : list Z -> bytes -> Prop) : (length cp < 64)%nat -> Q (ch :: cp) s -> wp (push cp ch) Q s.
Proof. intros Hl HQ. unfold push. rewrite (proj2 (Z.ltb_lt _ _)) by lia. exact HQ. Qed.

Lemma numeral_rec_length f b n : (length (numeral_rec f b n) <= f)%nat.
Proof. revert n. induction f as [|f IH]; intros n; cbn [numeral_rec]; [done|]. case_match; cbn; [lia|]. rewrite length_app. cbn. specialize (IH (n / base b)). lia. Qed.

Lemma wp_push_digits value b c s (Q : list Z -> bytes -> Prop) : base_ok b -> 0 <= value < 2 ^ 64 ->
  Q (punctuated (has c GROUP) b (numeral b value)) s -> wp (push_digits value b c) Q s.
Proof.
  intros (Hb & Hdig & Hpos & Hg & _) Hv HQ. unfold push_digits.
  eapply wp_iterate with (n := 22%nat) (I := fun n '(v, cp, cnt) s' => s' = s /\ exists ds,
    cp = punctuated (has c GROUP) b ds /\ cnt = len ds /\ (n + length ds = 22)%nat /\ 0 <= v < 8 ^ Z.of_nat n /\
    numeral b value = numeral_rec n b v ++ ds); [| |lia].
  2:{ split; [done|]. exists []. split_and!; [by destruct (has c GROUP)|done|done|lia| |by rewrite app_nil_r]. change (8 ^ Z.of_nat 22) with (2 ^ 66). lia. }
  intros n [[v cp] cnt] s' (-> & ds & -> & -> & Hn & Hvn & Hnum). destruct (Z.ltb_spec 0 v) as [H0|H0]; cbn [negb].
  2:{ apply wp_ret. replace v with 0 in Hnum by lia. replace (numeral_rec n b 0) with (@nil Z) in Hnum by (by destruct n). cbn in Hnum. by rewrite <- Hnum. }
  destruct n as [|n]; [cbn in Hvn; lia|]. cbn [numeral_rec] in Hnum. rewrite (proj2 (Z.eqb_neq _ _)) in Hnum by lia.
  pose proof (Z.mod_pos_bound v (base b) ltac:(lia)) as Hm.
  destruct (lookup_lt_is_Some_2 (digits b) (Z.to_nat (v mod base b))) as [d Ed]; [lia|]. rewrite Ed in Hnum. cbn [default] in Hnum.
  pose proof (punctuated_length (has c GROUP) b ds) as Hpl.
  apply wp_bind. eapply (wp_mono _ (fun cp s' => s' = s /\ d :: cp = punctuated (has c GROUP) b (d :: ds) /\ (length cp < 64)%nat)).
  { unfold punctuated in *. destruct (has c GROUP) eqn:Eg; cbn [andb commas]; [|apply wp_ret; split_and!; [done|done|lia]].
    destruct (_ && _); [apply wp_push; [lia|]|apply wp_ret]; split_and!; try done; cbn; lia. }
  intros cp s' (-> & Ecp & Hcl). rewrite Ed. apply wp_bind. apply wp_ret. apply wp_bind, wp_push; [done|]. apply wp_ret.
  exists n. split; [lia|]. split; [done|]. exists (d :: ds). split_and!; [done|unfold len; cbn; lia|cbn; lia| | |].
  - apply Z.div_pos; lia.
  - rewrite Nat2Z.inj_succ, Z.pow_succ_r in Hvn by lia. apply Z.div_lt_upper_bound; nia.
  - rewrite Hnum, <- app_assoc. done.
Qed.

Lemma wp_push_zeros p cp s (Q : list Z -> bytes -> Prop) : (length cp <= 63)%nat ->
  Q (zeroes (Z.min p 63 - len cp) ++ cp) s -> wp (push_zeros p cp) Q s.
Proof.
  intros Hl HQ. unfold push_zeros.
  eapply wp_iterate with (n := (63 - length cp)%nat) (I := fun n cp' s' => s' = s /\ (n = 63 - length cp' /\ length cp' <= 63)%nat /\
    zeroes (Z.min p 63 - len cp) ++ cp = zeroes (Z.min p 63 - len cp') ++ cp'); [| |lia].
  2:{ split_and!; done. }
  intros n cp' s' (-> & (-> & Hl') & E). destruct (_ && _) eqn:Ec.
  - apply wp_bind, wp_push; [lia|]. apply wp_ret. exists (63 - length (48%Z :: cp'))%nat. cbn [length].
    split; [lia|]. split_and!; [done|done|lia|]. rewrite E. unfold zeroes, len. cbn [length].
    replace (Z.to_nat (Z.min p 63 - Z.of_nat (length cp'))) with (S (Z.to_nat (Z.min p 63 - Z.of_nat (S (length cp'))))) by lia.
    rewrite replicate_S_end, <- app_assoc. done.
  - apply wp_ret. rewrite E in HQ. unfold zeroes, len in HQ. replace (Z.to_nat (Z.min p 63 - Z.of_nat (length cp'))) with 0%nat in HQ by lia. done.
Qed.

(** The three steps that fill the buffer; it never overflows. *)
Lemma wp_integer_body {A} (k : list Z -> M bytes A) c st b value s Q : styled c st -> base_ok b -> 0 <= value < 2 ^ 64 ->
  ((length (integer_body st b value) <= 64)%nat -> wp (k (integer_body st b value)) Q s) ->
  wp (cp ← push_digits value b c;
      cp ← push_zeros (if precision c <? 0 then 1 else precision c) cp;
      cp ← (if has c POUND && (base b =? 8) && negb (match cp with ch :: _ => ch =? 48 | [] => false end) then push cp 48 else ret cp);
      k cp) Q s.
Proof.
  intros Hst Hb Hv Hk. apply wp_bind, wp_push_digits; [done|done|]. rewrite (sty_group _ _ Hst).
  assert (Hl : (length (punctuated (grouped st) b (numeral b value)) <= 44)%nat).
  { pose proof (punctuated_length (grouped st) b (numeral b value)). pose proof (numeral_rec_length 22 b value). unfold numeral in *. lia. }
  assert (Hp : (if precision c <? 0 then 1 else precision c) = default 1 (digits_min st)).
  { rewrite (sty_precision _ _ Hst). pose proof (sty_digits _ _ Hst). destruct (digits_min st); cbn; [|done]. rewrite (proj2 (Z.ltb_ge _ _)) by lia. done. }
  apply wp_bind, wp_push_zeros; [lia|]. rewrite Hp. unfold integer_body in Hk. rewrite (sty_alt _ _ Hst).
  change (if grouped st then commas (group b) (numeral b value) else numeral b value) with (punctuated (grouped st) b (numeral b value)) in Hk.
  set (ds := zeroes _ ++ _) in *. assert (Hds : (length ds <= 63)%nat).
  { unfold ds, zeroes, len. rewrite length_app, length_replicate. lia. }
  assert (Hh : (match ds with ch :: _ => ch =? 48 | [] => false end) = bool_decide (head ds = Some 48)).
  { destruct ds as [|ch ds']; [done|]. cbn. destruct (Z.eqb_spec ch 48) as [->|Hne]; [done|]. rewrite bool_decide_eq_false_2; congruence. }
  rewrite Hh. apply wp_bind. destruct (_ && _); [apply wp_push; [lia|]; apply Hk; cbn; lia|apply wp_ret, Hk; lia].
Qed.

Definition is_char (c : Z) : Prop := 0 <= c < 256.

Lemma numeral_chars b f n : base_ok b -> Forall is_char (numeral_rec f b n).
Proof.
  intros (_ & _ & Hd & _). revert n. induction f as [|f IH]; intros n; cbn [numeral_rec]; [done|]. case_match; [done|].
  apply Forall_app. split; [done|]. apply Forall_singleton. destruct (digits b !! _) as [d|] eqn:E; cbn; [|done].
  rewrite Forall_lookup in Hd. specialize (Hd _ _ E). unfold is_char. lia.
Qed.

Lemma integer_body_chars st b n : base_ok b -> Forall is_char (integer_body st b n).
Proof.
  intros Hb. pose proof (numeral_chars b 22 n Hb) as Hn. unfold integer_body. change (numeral_rec 22 b n) with (numeral b n) in Hn.
  assert (Hc : forall ds, Forall is_char ds -> Forall is_char (commas (group b) ds)).
  { induction 1 as [|d ds Hd _ IH]; cbn [commas]; [done|]. constructor; [done|]. apply Forall_app. split; [|done].
    case_match; [by apply Forall_singleton|done]. }
  assert (Hz : forall z ds, Forall is_char ds -> Forall is_char (zeroes z ++ ds)).
  { intros z ds Hd. apply Forall_app. split; [by apply Forall_replicate|done]. }
  case_match; [constructor; [done|]|]; apply Hz; case_match; auto.
Qed.

(** ** What code emits *)

Section Emits.
Context {X : Type} (output : Z -> X -> M bytes X) (strs : gmap Z (list Z)).

(** [R rest aux b]: [rest] is still to be passed to the output function. *)
Context (R : list Z -> X -> bytes -> Prop).
Hypothesis R_output : forall ch rest aux b, 0 <= ch < 256 -> R (ch :: rest) aux b -> wp (output ch aux) (R rest) b.
Hypothesis R_strs : forall rest aux b p cs, R rest aux b -> strs !! p = Some cs -> cstr b p cs /\ len cs < 2 ^ 31.

Definition emits (m : X -> M bytes X) (cs : list Z) : Prop :=
  forall rest aux b, R (cs ++ rest) aux b -> wp (m aux) (R rest) b.

Lemma emits_ret : emits ret [].
Proof using. intros rest aux b H. exact H. Qed.

Lemma emits_bind m k cs ds : emits m cs -> emits k ds -> emits (fun aux => aux ← m aux; k aux) (cs ++ ds).
Proof using. intros Hm Hk rest aux b H. rewrite <- app_assoc in H. apply wp_bind. eapply wp_mono; [by apply Hm|]. intros aux' b' H'. by apply Hk. Qed.

Lemma emits_output ch : is_char ch -> emits (output ch) [ch].
Proof using R_output. intros Hc rest aux b H. by apply R_output. Qed.

Lemma emits_eq m cs ds : emits m cs -> cs = ds -> emits m ds.
Proof using. by intros H <-. Qed.

Lemma emits_if (c : bool) m cs : (c = true -> emits m cs) -> emits (fun aux => if c then m aux else ret aux) (if c then cs else []).
Proof using. intros H. destruct c; [by apply H|apply emits_ret]. Qed.

Lemma emits_dup ch n : is_char ch -> emits (output_dup output ch n) (replicate n ch).
Proof using R_output.
  intros Hc. induction n as [|n IH]; cbn; [apply emits_ret|]. apply (emits_bind _ _ [ch]); [by apply emits_output|done].
Qed.

Lemma emits_all cs : Forall is_char cs -> emits (output_all output cs) cs.
Proof using R_output.
  induction 1 as [|c cs Hc _ IH]; cbn; [apply emits_ret|]. apply (emits_bind _ _ [c]); [by apply emits_output|done].
Qed.

(** ** Integers *)

(** The sign of format_integer(), 0 for none. *)
Definition sign_char (c : conversion) (is_signed negative : bool) : Z :=
  if is_signed then
    if has c PLUS then if negative then 45 else 43
    else if has c SPACE then if negative then 45 else 32
    else if negative then 45 else 0
  else 0.

Lemma sign_char_of c st (sg neg : bool) : styled c st ->
  (if sg then sign_of st neg else []) = (if negb (sign_char c sg neg =? 0) then [sign_char c sg neg] else []) /\ is_char (sign_char c sg neg).
Proof using.
  intros Hst. unfold sign_char, sign_of, is_char. rewrite (sty_plus _ _ Hst), (sty_space _ _ Hst).
  destruct sg, neg, (plus st), (space st); cbn; split; done || lia.
Qed.

(** The output part of format_integer(). *)
Lemma emits_layout c st sign x body n : styled c st -> is_char sign -> is_char x -> Forall is_char body ->
  let front := (if negb (sign =? 0) then [sign] else []) ++ (if negb (x =? 0) then [48; x] else []) in
  n = Z.to_nat (field st - len (front ++ body)) ->
  emits (fun aux =>
    aux ← (if Z.land (flags c) (Z.lor MINUS ZERO) =? 0 then output_dup output 32 n aux else ret aux);
    aux ← (if negb (sign =? 0) then output sign aux else ret aux);
    aux ← (if negb (x =? 0) then aux ← output 48 aux; output x aux else ret aux);
    aux ← (if has c ZERO then output_dup output 48 n aux else ret aux);
    aux ← output_all output body aux;
    if has c MINUS then output_dup output 32 n aux else ret aux) (layout st front body).
Proof using R_output.
  intros Hst Hs Hx Hb front ->. unfold layout, spaces, zeroes. set (n := Z.to_nat _).
  assert (El : (Z.land (flags c) (Z.lor MINUS ZERO) =? 0) = negb (left st) && negb (zero st)).
  { rewrite <- (sty_left _ _ Hst), <- (sty_zero _ _ Hst). rewrite Z.land_comm. change (negb (has c MINUS) && negb (has c ZERO)) with (negb (bit (flags c) MINUS) && negb (bit (flags c) ZERO)).
    rewrite <- negb_orb. pose proof (bit_lor MINUS ZERO (flags c)) as E. unfold bit in *. rewrite !(Z.land_comm (flags c)). rewrite <- E. by rewrite negb_involutive. }
  rewrite El, (sty_left _ _ Hst), (sty_zero _ _ Hst). pose proof (sty_left_zero _ _ Hst) as Hlz.
  set (l := left st) in *. set (z := zero st) in *.
  assert (Esp : is_char 32) by done. assert (Ez : is_char 48) by done.
  pose proof (emits_if (negb l && negb z) _ _ (fun _ => emits_dup 32 n Esp)) as E1.
  pose proof (emits_if (negb (sign =? 0)) _ _ (fun _ => emits_output sign Hs)) as E2.
  pose proof (emits_if (negb (x =? 0)) _ _ (fun _ => emits_bind _ _ _ _ (emits_output 48 Ez) (emits_output x Hx))) as E3.
  pose proof (emits_if z _ _ (fun _ => emits_dup 48 n Ez)) as E4.
  pose proof (emits_if l _ _ (fun _ => emits_dup 32 n Esp)) as E6.
  pose proof (emits_bind _ _ _ _ E1 (emits_bind _ _ _ _ E2 (emits_bind _ _ _ _ E3 (emits_bind _ _ _ _ E4
    (emits_bind _ _ _ _ (emits_all body Hb) E6))))) as H.
  eapply emits_eq; [exact H|]. unfold front. clear - Hlz. rewrite <- !app_assoc.
  destruct l, z; cbn [negb andb app] in *; try done; by rewrite ?app_nil_r.
Qed.

Lemma emits_format_integer c st b value (sg neg : bool) : styled c st -> base_ok b -> 0 <= value < 2 ^ 64 ->
  emits (format_integer output value sg neg b c)
    (layout st ((if sg then sign_of st neg else []) ++ prefix_of st b value) (integer_body st b value)).
Proof using R_output.
  intros Hst Hb Hv rest aux s HR. unfold format_integer. change (if sg then _ else 0) with (sign_char c sg neg).
  destruct (sign_char_of c st sg neg Hst) as [Es Hsc]. rewrite Es in HR. set (sign := sign_char c sg neg) in *.
  apply (wp_integer_body _ c st); [done|done|done|]. intros Hlen. pose proof (integer_body_chars st b value Hb) as Hchars.
  set (body := integer_body st b value) in *. rewrite (sty_alt _ _ Hst).
  set (x := if alt st && negb (value =? 0) then x_char b else 0).
  assert (Hx : prefix_of st b value = if negb (x =? 0) then [48; x] else []) by (unfold prefix_of, x; by destruct (alt st && _)).
  assert (Hxc : is_char x) by (unfold x; destruct Hb as (_ & _ & _ & _ & Hb & _); unfold is_char; destruct (alt st && negb (value =? 0)); lia).
  rewrite Hx in HR. apply (emits_layout c st); [done|done|done|done| |exact HR].
  set (front := (if negb (sign =? 0) then [sign] else []) ++ (if negb (x =? 0) then [48; x] else [])).
  assert (Ef : len (front ++ body) = len body + (if negb (x =? 0) then 2 else 0) + (if negb (sign =? 0) then 1 else 0)).
  { unfold len, front. rewrite !length_app. destruct (x =? 0), (sign =? 0); cbn; lia. }
  pose proof (sty_field _ _ Hst) as Hfd. rewrite (sty_width _ _ Hst), swrap_small; [|lia|].
  - rewrite Ef. unfold len in *. destruct (Z.ltb_spec (field st - Z.of_nat (length body) - (if negb (x =? 0) then 2 else 0) - (if negb (sign =? 0) then 1 else 0)) 0); lia.
  - unfold in_s. destruct (negb (x =? 0)), (negb (sign =? 0)); lia.
Qed.

(** ** Strings *)

Lemma emits_chars (char_at : Z -> M bytes Z) cs : Forall is_char cs ->
  (forall rest aux b i ch, R rest aux b -> cs !! i = Some ch -> char_at (Z.of_nat i) b = Ok (ch, b)) ->
  emits (fun aux => iterate (S (Z.to_nat (len cs))) (fun '(i, aux) =>
    if i <? len cs then ch ← char_at i; aux ← output ch aux; ret (inl (i + 1, aux)) else ret (inr aux)) (0, aux)) cs.
Proof using R_output.
  intros Hcs Hat rest aux b HR.
  eapply wp_iterate with (n := length cs) (I := fun n '(i, aux) b => exists k, i = Z.of_nat k /\ (n + k = length cs)%nat /\ R (drop k cs ++ rest) aux b).
  - intros n [i aux1] b1 (k & -> & Hk & HR1). destruct (Z.ltb_spec (Z.of_nat k) (len cs)) as [Hlt|Hge]; unfold len in *.
    + destruct (lookup_lt_is_Some_2 cs k) as [ch Ech]; [lia|]. apply wp_bind. eapply wp_eq; [by eapply Hat|].
      rewrite (drop_S cs ch k Ech) in HR1.
      apply wp_bind. eapply wp_mono; [apply R_output; [|exact HR1]|].
      { rewrite Forall_lookup in Hcs. by eapply Hcs. }
      intros aux2 b2 HR2. apply wp_ret. exists (n - 1)%nat. split; [lia|]. exists (S k). split_and!; [lia|lia|done].
    + apply wp_ret. by rewrite drop_ge in HR1 by lia.
  - exists 0%nat. split_and!; [done|lia|done].
  - unfold len. lia.
Qed.

Lemma emits_format_string c st (char_at : Z -> M bytes Z) cs n : styled c st -> Forall is_char cs -> n = len cs ->
  (forall rest aux b i ch, R rest aux b -> cs !! i = Some ch -> char_at (Z.of_nat i) b = Ok (ch, b)) ->
  emits (format_string output char_at n c) (string_text st cs).
Proof using R_output.
  intros Hst Hcs -> Hat. unfold format_string, string_text, layout. cbn [left zero field app].
  rewrite (sty_left _ _ Hst), (sty_width _ _ Hst). assert (Esp : is_char 32) by done.
  pose proof (emits_bind _ _ _ _ (emits_if ((len cs <? field st) && negb (left st)) _ _ (fun _ => emits_dup 32 (Z.to_nat (field st - len cs)) Esp))
    (emits_bind _ _ _ _ (emits_chars char_at cs Hcs Hat) (emits_if ((len cs <? field st) && left st) _ _ (fun _ => emits_dup 32 (Z.to_nat (field st - len cs)) Esp)))) as H.
  eapply emits_eq; [exact H|]. unfold spaces. destruct (Z.ltb_spec (len cs) (field st)) as [Hlt|Hge]; cbn [andb].
  - destruct (left st); cbn [negb app]; by rewrite ?app_nil_r.
  - replace (Z.to_nat (field st - len cs)) with 0%nat by lia. cbn [replicate app]. rewrite app_nil_r. by destruct (left st); rewrite ?app_nil_r.
Qed.

Lemma strnlen_correct b p cs m : cstr b p cs -> 0 <= m -> strnlen p m b = Ok (Z.min (len cs) m, b).
Proof using.
  intros Hc Hm. cut (wp (strnlen p m) (fun v b' => v = Z.min (len cs) m /\ b' = b) b); [intros (v & b' & E & -> & ->)%wp_ok; done|].
  unfold strnlen. eapply (wp_walk b p cs (fun i => Z.of_nat i <= m)); [done|lia|]. intros i c Ec Hl Hz Hi.
  apply wp_bind. eapply wp_load8; [done|]. apply wp_ret. assert (Hil : (i <= length cs)%nat) by (apply lookup_lt_Some in Ec; rewrite length_app in Ec; cbn in Ec; lia).
  destruct (Z.eqb_spec c 0) as [E|E]; cbn [negb andb].
  - split; [|done]. unfold len. rewrite (proj1 Hz E) in *. lia.
  - destruct (Z.ltb_spec (Z.of_nat i) m); [split_and!; [done|done|done|lia]|]. split; [|done]. unfold len. lia.
Qed.
End Emits.

(** ** Arguments *)

Lemma swrap_uwrap v : swrap 32 v = if (2 ^ 32 - 1) / 2 <? u32 v then u32 v - (2 ^ 32 - 1) - 1 else u32 v.
Proof.
  unfold swrap, uwrap. change ((2 ^ 32 - 1) / 2) with 2147483647. change (2 ^ (32 - 1)) with 2147483648. change (2 ^ 32) with 4294967296.
  destruct (Z.ltb_spec 2147483647 (v mod 4294967296)); Z.to_euclidean_division_equations; lia.
Qed.

Lemma signed_arg_correct ty args v args' b : take_word ty args = Some (v, args') ->
  signed_arg ty args b = Ok ((swrap (bits ty) v, args'), b).
Proof.
  intros H. destruct args as [|[w|w] args]; cbn in H; [done| |]; destruct ty; cbn in H; simplify_eq; try done.
  change (bits SIZET) with 32. rewrite swrap_uwrap. done.
Qed.

Lemma unsigned_arg_correct ty args v args' b : take_word ty args = Some (v, args') ->
  unsigned_arg ty args b = Ok ((uwrap (bits ty) v, args'), b).
Proof.
  intros H. destruct args as [|[w|w] args]; cbn in H; [done| |]; destruct ty; cbn in H; simplify_eq; try done.
  unfold unsigned_arg, bind, arg32, ret. do 3 f_equal. change (Z.lor _ 1) with (Z.ones 32). rewrite Z.land_ones by lia.
  change (bits PTRDIFFT) with 32. unfold uwrap, swrap. change (2 ^ (32 - 1)) with 2147483648. change (2 ^ 64) with (4294967296 * 4294967296). change (2 ^ 32) with 4294967296.
  rewrite Z.rem_mul_r by lia. rewrite (Z.mul_comm 4294967296), Z.mod_add, Z.mod_mod by lia. Z.to_euclidean_division_equations; lia.
Qed.

Lemma arg32_correct args v args' b : take_word INT args = Some (v, args') -> arg32 args b = Ok ((v, args'), b).
Proof. intros H. destruct args as [|[w|w] args]; cbn in H; by simplify_eq. Qed.

Lemma bits_range ty : 8 <= bits ty <= 64.
Proof. destruct ty; cbn; lia. Qed.

(** The absolute value as format_integer() gets it. *)
Lemma magnitude ty w : let v := swrap (bits ty) w in
  u64 (if v <? 0 then i64 (- v) else v) = Z.abs v /\ 0 <= Z.abs v < 2 ^ 64.
Proof.
  intros v. pose proof (bits_range ty). pose proof (swrap_range (bits ty) w ltac:(lia)) as Hv. fold v in Hv. unfold in_s in Hv.
  assert (2 ^ (bits ty - 1) <= 2 ^ 63) by (apply Z.pow_le_mono_r; lia). split; [|lia].
  destruct (Z.ltb_spec v 0).
  - destruct (decide (v = - 2 ^ 63)) as [->|]; [done|]. rewrite swrap_small by (unfold in_s; lia). rewrite uwrap_small by (unfold in_u; lia). lia.
  - rewrite uwrap_small by (unfold in_u; lia). lia.
Qed.

(** ** Conversions *)

(** The conversion has no meaning of its own. *)
Definition refused (ch : Z) : bool := negb (bool_decide (ch ∈ [100; 105; 111; 117; 120; 88; 99; 115; 112])).
Definition refusal_format (ch : Z) : list Z := if bool_decide (ch ∈ [102; 101; 69; 103; 71; 110]) then no_in_kernel else no_conversion.

Lemma among2 ch a b : bool_decide (ch ∈ [a; b]) = (ch =? a) || (ch =? b).
Proof. apply eq_true_iff_eq. rewrite bool_decide_eq_true, orb_true_iff, !Z.eqb_eq, !elem_of_cons, elem_of_nil. tauto. Qed.

Lemma among4 ch a b c d : bool_decide (ch ∈ [a; b; c; d]) = (ch =? a) || (ch =? b) || (ch =? c) || (ch =? d).
Proof. apply eq_true_iff_eq. rewrite bool_decide_eq_true, !orb_true_iff, !Z.eqb_eq, !elem_of_cons, elem_of_nil. tauto. Qed.

Lemma among6 ch a b c d e f : bool_decide (ch ∈ [a; b; c; d; e; f]) =
  (ch =? a) || (ch =? b) || (ch =? c) || (ch =? d) || (ch =? e) || (ch =? f).
Proof. apply eq_true_iff_eq. rewrite bool_decide_eq_true, !orb_true_iff, !Z.eqb_eq, !elem_of_cons, elem_of_nil. tauto. Qed.

(** %p is %#x. *)
Lemma styled_pointer c st : styled c st ->
  styled (mk_conversion POUND (width c) (precision c) (type c)) (mk_style false false false true false false (field st) (digits_min st)).
Proof. intros []. by split. Qed.

Section Convert.
Context {X : Type} (output : Z -> X -> M bytes X) (strs : gmap Z (list Z)) (R : list Z -> X -> bytes -> Prop).
Hypothesis R_output : forall ch rest aux b, 0 <= ch < 256 -> R (ch :: rest) aux b -> wp (output ch aux) (R rest) b.
Hypothesis R_strs : forall rest aux b p cs, R rest aux b -> strs !! p = Some cs -> cstr b p cs /\ len cs < 2 ^ 31.

(** Code that emits text and returns the remaining arguments. *)
Lemma wp_emits {A} (m : X -> M bytes X) cs (a : A) rest aux b : emits R m cs -> R (cs ++ rest) aux b ->
  wp (aux ← m aux; ret (a, aux)) (fun '(a', aux') b' => a' = a /\ R rest aux' b') b.
Proof using. intros H HR. apply wp_bind. eapply wp_mono; [by apply H|]. intros aux' b' HR'. by apply wp_ret. Qed.

Lemma string_at_read p cs : string_at strs p = Some cs ->
  forall rest aux b, R rest aux b -> len cs < 2 ^ 31 /\ Forall is_char cs /\
    (forall m, 0 <= m -> (if p =? NULL then ret (Z.min (len null_string) m) else strnlen p m) b = Ok (Z.min (len cs) m, b)) /\
    forall i ch, cs !! i = Some ch -> (if p =? NULL then literal null_string (Z.of_nat i) else load8 (p + Z.of_nat i)) b = Ok (ch, b).
Proof using R_strs.
  unfold string_at. intros Hs rest aux b HR. destruct (p =? NULL).
  - injection Hs as <-. split_and!; [done|by repeat constructor|done|]. intros i ch Hi. unfold literal. rewrite Nat2Z.id, Hi. done.
  - destruct (R_strs _ _ _ _ _ HR Hs) as [Hc Hl]. split_and!; [done| | |].
    + destruct Hc as (_ & Hn & _). eapply Forall_impl; [exact Hn|]. unfold is_char. cbn. lia.
    + intros m Hm. by apply strnlen_correct.
    + intros i ch Hi. unfold load8, bind, get. erewrite cstr_lookup; [done|exact Hc|]. by apply lookup_app_l_Some.
Qed.

(** %s: the string is read while characters are emitted. *)
Lemma wp_convert_string c st p cs rest aux b (args : list arg) : styled c st -> string_at strs p = Some cs ->
  R (string_text st (match digits_min st with Some n => take (Z.to_nat n) cs | None => cs end) ++ rest) aux b ->
  wp (n ← string_length p (precision c);
      aux ← format_string output (fun i => if p =? NULL then literal null_string i else load8 (p + i)) (i32 n) c aux;
      ret (args, aux))
    (fun '(a, aux') b' => a = args /\ R rest aux' b') b.
Proof using R_output R_strs.
  intros Hst Hs HR. set (ts := match digits_min st with Some n => _ | None => _ end) in *.
  pose proof (sty_precision _ _ Hst) as Hp. pose proof (sty_digits _ _ Hst) as Hd.
  destruct (string_at_read p cs Hs _ aux b HR) as (Hl & Hch & Hn & _).
  assert (Hts : len ts = Z.min (len cs) (u32 (precision c)) /\ exists k, ts = take k cs).
  { rewrite Hp. unfold ts, len in *. destruct (digits_min st) as [n|]; cbn [default id].
    - rewrite uwrap_small by (unfold in_u; lia). rewrite length_take. split; [lia|by eexists].
    - split; [change (u32 (-1)) with (2 ^ 32 - 1); lia|]. exists (length cs). by rewrite take_ge. }
  destruct Hts as [Hts [k Ek]]. apply wp_bind. eapply wp_eq.
  { unfold string_length. rewrite <- Hn by exact (proj1 (uwrap_range 32 (precision c) ltac:(lia))). done. }
  rewrite <- Hts. eapply wp_emits; [|exact HR]. apply (emits_format_string _ _ R_output); [done| | |].
  - rewrite Ek. by apply Forall_take.
  - apply swrap_small; [lia|]. unfold in_s. pose proof (uwrap_range 32 (precision c) ltac:(lia)) as Hu. unfold in_u, len in *. lia.
  - intros rest' aux' b' i ch HR' Hi. apply (string_at_read p cs Hs rest' aux' b' HR'). rewrite Ek in Hi. by apply lookup_take_Some in Hi as [? _].
Qed.

Lemma wp_convert printf st c d args ds args' rest aux b : styled c st -> type c = d_type d ->
  render_conversion strs st (d_type d) (d_conv d) args = Some (ds, args') ->
  (refused (d_conv d) = true -> emits R (printf (refusal_format (d_conv d)) [W32 (d_conv d)]) (refusal (d_conv d))) ->
  R (ds ++ rest) aux b -> wp (convert output printf (d_conv d) c args aux) (fun '(a, aux') b' => a = args' /\ R rest aux' b') b.
Proof using R_output R_strs.
  intros Hst Hty Hr Href HR. unfold render_conversion in Hr. unfold convert. set (ch := d_conv d) in *. rewrite Hty.
  rewrite among2, among4 in Hr. destruct (_ || _) eqn:E1 in Hr |- *.
  { destruct (take_word _ args) as [[v a]|] eqn:Et; cbn in Hr; simplify_eq. apply wp_bind. eapply wp_eq; [by apply signed_arg_correct|].
    destruct (magnitude (d_type d) v) as [Em Hm]. rewrite Em. eapply wp_emits; [|exact HR]. eapply emits_eq.
    - by apply (emits_format_integer _ _ R_output c st); [|apply base_d_ok|].
    - unfold signed_text. f_equal. unfold prefix_of. by rewrite andb_false_r, app_nil_r. }
  destruct (_ || _) eqn:E2 in Hr |- *.
  { destruct (take_word _ args) as [[v a]|] eqn:Et; cbn in Hr; simplify_eq. apply wp_bind. eapply wp_eq; [by apply unsigned_arg_correct|].
    eapply wp_emits; [|exact HR]. apply (emits_format_integer _ _ R_output c st _ _ false false Hst (base_of_ok ch)).
    pose proof (bits_range (d_type d)). pose proof (uwrap_range (bits (d_type d)) v ltac:(lia)) as Hu. unfold in_u in Hu.
    assert (2 ^ bits (d_type d) <= 2 ^ 64) by (apply Z.pow_le_mono_r; lia). lia. }
  destruct (Z.eqb_spec ch 99).
  { destruct (take_word _ args) as [[v a]|] eqn:Et; cbn in Hr; simplify_eq. apply wp_bind. eapply wp_eq; [by apply arg32_correct|].
    assert (Hc8 : is_char (u8 v)) by apply (uwrap_range 8 v ltac:(lia)).
    eapply wp_emits; [|exact HR]. apply (emits_format_string _ _ R_output); [done|by apply Forall_singleton|done|].
    intros _ _ b' i x _ Hx. apply list_lookup_singleton_Some in Hx as [_ <-]. done. }
  destruct (Z.eqb_spec ch 115).
  { destruct (take_word _ args) as [[p a]|] eqn:Et; cbn in Hr; [|done]. destruct (string_at strs p) as [cs|] eqn:Es; cbn in Hr; simplify_eq.
    apply wp_bind. eapply wp_eq; [by apply arg32_correct|]. by eapply wp_convert_string. }
  destruct (Z.eqb_spec ch 112).
  { destruct (take_word _ args) as [[p a]|] eqn:Et; cbn in Hr; simplify_eq. apply wp_bind. eapply wp_eq; [by apply arg32_correct|].
    pose proof (uwrap_range 32 p ltac:(lia)) as Hu. unfold in_u in Hu.
    assert (Hx : base_ok base_x) by decide_closed. assert (Hp : 0 <= u32 p < 2 ^ 64) by lia. rewrite <- Hty.
    exact (wp_emits _ _ _ _ _ _ (emits_format_integer _ _ R_output _ _ _ _ false false (styled_pointer _ _ Hst) Hx Hp) HR). }
  simplify_eq. unfold refusal_format in Href. rewrite among6 in Href. rewrite orb_false_iff, !Z.eqb_neq in E1. rewrite !orb_false_iff, !Z.eqb_neq in E2.
  assert (Hrf : refused ch = true).
  { unfold refused. apply negb_true_iff, bool_decide_eq_false. rewrite !elem_of_cons, elem_of_nil. lia. }
  specialize (Href Hrf). destruct (_ || (ch =? 110)); by eapply wp_emits.
Qed.
End Convert.

(** * Formatted output: correctness of vsnprintf()

    __vprintf() emits the text that the format stands for; vsnprintf() stores
    as much of it as there is room for, and reports its whole length. *)

(** ** The loop over the format *)

(** The pieces of the messages for conversions that there are not. *)
Definition refusal_pieces (ch : Z) : list piece :=
  map Char [60; 60; 110; 111; 32] ++ [Percent; Directive (mk_directive [] (Digits []) None INT 99)] ++
  map Char (if bool_decide (ch ∈ [102; 101; 69; 103; 71; 110]) then [32; 105; 110; 32; 107; 101; 114; 110; 101; 108; 62; 62]
            else [32; 99; 111; 110; 118; 101; 114; 115; 105; 111; 110; 62; 62]).

Lemma peek_directive d rest : valid_directive d -> (peek (show_directive d ++ rest) =? 37) = false.
Proof.
  intros (Hf & Hw & _ & _ & Hc). apply Z.eqb_neq. unfold show_directive. destruct (d_flags d) as [|c fs]; cbn [app peek].
  - destruct (d_width d) as [[|c ds]|]; cbn [show_count app peek]; [| |done].
    + destruct (d_precision d); cbn [show_precision app peek]; [done|]. destruct (d_type d); cbn [show_type app peek]; try done.
      by apply conv_char_not in Hc as (_ & _ & _ & _ & ? & _).
    + destruct Hw as [[Hd _]%Forall_cons _]. unfold isdigit in Hd. lia.
  - apply Forall_cons in Hf as [Hc' _]. by intros ->.
Qed.

Lemma render_chars strs cs ps args : render strs (map Char cs ++ ps) args = (app cs) <$> render strs ps args.
Proof. induction cs as [|c cs IH]; cbn; [by destruct (render strs ps args)|]. rewrite IH. by destruct (render strs ps args). Qed.

Lemma render_char strs ch args :
  render_directive strs (mk_directive [] (Digits []) None INT 99) (W32 ch :: args) = Some ([u8 ch], args).
Proof. reflexivity. Qed.

Lemma render_refusal strs ch : 0 < ch < 256 -> render strs (refusal_pieces ch) [W32 ch] = Some (refusal ch).
Proof.
  intros Hc. assert (Hu : u8 ch = ch) by (apply uwrap_small; unfold in_u; lia). unfold refusal_pieces, refusal.
  rewrite render_chars. cbn [app render]. rewrite render_char, Hu. cbn [mbind option_bind]. rewrite <- (app_nil_r (map Char _)), render_chars. by case_match.
Qed.

Section Vprintf.
Context {X : Type} (output : Z -> X -> M bytes X) (strs : gmap Z (list Z)) (R : list Z -> X -> bytes -> Prop).
Hypothesis R_output : forall ch rest aux b, 0 <= ch < 256 -> R (ch :: rest) aux b -> wp (output ch aux) (R rest) b.
Hypothesis R_strs : forall rest aux b p cs, R rest aux b -> strs !! p = Some cs -> cstr b p cs /\ len cs < 2 ^ 31.

Lemma emits_pieces depth ps args cs : Forall valid_piece ps -> render strs ps args = Some cs ->
  (forall d, Directive d ∈ ps -> refused (d_conv d) = true ->
     emits R (__vprintf output depth (refusal_format (d_conv d)) [W32 (d_conv d)]) (refusal (d_conv d))) ->
  emits R (__vprintf output (S depth) (show ps) args) cs.
Proof using R_output R_strs.
  intros Hv Hr Href rest aux0 b0 HR0. cbn [__vprintf].
  eapply wp_iterate with (n := length (show ps)) (I := fun n '(format, args, aux) b => exists ps' cs',
    format = show ps' /\ (length format <= n)%nat /\ Forall valid_piece ps' /\ ps' ⊆ ps /\ render strs ps' args = Some cs' /\
    R (cs' ++ rest) aux b); [| |lia].
  2:{ exists ps, cs. split_and!; done. }
  clear Hv Hr HR0 aux0 b0 args. intros n [[format args] aux] b (ps' & cs' & -> & Hn & Hv & Hsub & Hr & HR).
  destruct ps' as [|x ps']; cbn [show map concat app].
  { apply wp_ret. cbn in Hr. by injection Hr as <-. }
  apply Forall_cons in Hv as [Hx Hv]. assert (Hsub' : ps' ⊆ ps) by set_solver.
  change (concat (map show_piece ps')) with (show ps'). change (show (x :: ps')) with (show_piece x ++ show ps') in Hn. rewrite length_app in Hn.
  destruct x as [c| |d]; cbn [show_piece app length] in *; cbn [render] in Hr.
  - destruct (render strs ps' args) as [cs2|] eqn:E2; cbn in Hr; simplify_eq. destruct Hx as [Hc Hne].
    rewrite (proj2 (Z.eqb_neq _ _) Hne). cbn [negb]. apply wp_bind. eapply wp_mono; [apply R_output; [lia|exact HR]|]. intros aux' b' HR'. apply wp_ret.
    exists (n - 1)%nat. split; [lia|]. exists ps', cs2. split_and!; try done; lia.
  - destruct (render strs ps' args) as [cs2|] eqn:E2; cbn in Hr; simplify_eq. cbn [peek Z.eqb Pos.eqb negb drop]. rewrite drop_0.
    apply wp_bind. eapply wp_mono; [apply R_output; [lia|exact HR]|]. intros aux' b' HR'. apply wp_ret.
    exists (n - 1)%nat. split; [lia|]. exists ps', cs2. split_and!; try done; lia.
  - unfold render_directive in Hr. destruct (style_of d args) as [[st args1]|] eqn:Est; cbn in Hr; [|done].
    destruct (render_conversion strs st (d_type d) (d_conv d) args1) as [[ds args2]|] eqn:Erc; cbn in Hr; [|done].
    destruct (render strs ps' args2) as [cs2|] eqn:E2; cbn in Hr; simplify_eq. cbn [Z.eqb Pos.eqb negb]. rewrite <- app_assoc in HR.
    rewrite peek_directive by done. destruct (parse_conversion_show d (show ps') args st args1 b Hx Est) as (c & Ec & Hst & Hty).
    apply wp_bind. eapply wp_eq; [exact Ec|]. cbn [peek]. apply wp_bind. eapply wp_mono.
    { eapply (wp_convert _ _ _ R_output R_strs); [done|done|done| |exact HR]. intros Hrf. apply Href; [set_solver|done]. }
    intros [a aux'] b' [-> HR']. apply wp_bind, wp_ret. apply wp_ret. exists (n - 1)%nat. split; [lia|].
    exists ps', cs2. split_and!; try done; lia.
Qed.

Lemma emits_refusal depth ch : 0 < ch < 256 -> emits R (__vprintf output (S depth) (refusal_format ch) [W32 ch]) (refusal ch).
Proof using R_output R_strs.
  intros Hc. assert (E : refusal_format ch = show (refusal_pieces ch)) by (unfold refusal_format, refusal_pieces; by case_match).
  rewrite E. apply emits_pieces.
  - unfold refusal_pieces. case_match; apply (bool_decide_unpack _); vm_compute; exact I.
  - by apply render_refusal.
  - intros d Hd Hrf. exfalso. assert (Hdc : d_conv d = 99); [|by rewrite Hdc in Hrf].
    unfold refusal_pieces in Hd. case_match; cbn in Hd; rewrite !elem_of_cons, elem_of_nil in Hd; destruct_or?; by simplify_eq.
Qed.

Lemma emits_vprintf ps args cs : Forall valid_piece ps -> render strs ps args = Some cs ->
  emits R (__vprintf output 2 (show ps) args) cs.
Proof using R_output R_strs.
  intros Hv Hr. apply emits_pieces; [done|done|]. intros d Hd Hrf. apply emits_refusal.
  rewrite Forall_forall in Hv. destruct (Hv _ Hd) as (_ & _ & _ & _ & Hc). by apply conv_char_not in Hc as (_ & _ & _ & _ & _ & ?).
Qed.
End Vprintf.

(** ** vsnprintf *)

(** The state of vsnprintf_helper() when [rest] of [text] is still to come. *)
Definition stored (b0 : bytes) (p m : Z) (text : list Z) (rest : list Z) (aux : vsnprintf_aux) (b : bytes) : Prop :=
  exists front, text = front ++ rest /\ b = write b0 p (take (Z.to_nat m) front) /\ aux = mk_aux (p + Z.min (len front) m) (len front) m.

Lemma stored_helper b0 p m text : 0 <= m < 2 ^ 31 -> mapped b0 p (Z.to_nat m) -> len text < 2 ^ 31 ->
  forall ch rest aux b, 0 <= ch < 256 -> stored b0 p m text (ch :: rest) aux b ->
  wp (vsnprintf_helper ch aux) (stored b0 p m text rest) b.
Proof.
  intros Hm Hmap Ht ch rest aux b Hc (front & -> & -> & ->). unfold vsnprintf_helper. cbn [aux_length max_length aux_p].
  unfold len in *. rewrite length_app in Ht. cbn [length] in Ht. rewrite swrap_small by (unfold in_s; lia).
  destruct (Z.ltb_spec (Z.of_nat (length front)) m) as [Hlt|Hge].
  - apply wp_bind, wp_store8.
    { rewrite lookup_write. rewrite take_ge by lia. rewrite decide_False by lia. apply Hmap. lia. }
    apply wp_ret. exists (front ++ [ch]). split_and!; [by rewrite <- app_assoc| |].
    + rewrite !take_ge by (rewrite ?length_app; cbn; lia). rewrite write_snoc, uwrap_small by (unfold in_u; lia). do 2 f_equal. lia.
    + unfold len. rewrite length_app. cbn. f_equal; lia.
  - apply wp_ret. exists (front ++ [ch]). split_and!; [by rewrite <- app_assoc| |].
    + by rewrite take_app_le by lia.
    + unfold len. rewrite length_app. cbn. f_equal; lia.
Qed.

(** The strings that the arguments point to, outside the buffer. *)
Definition strings_in (b : bytes) (strs : gmap Z (list Z)) (p n : Z) : Prop :=
  map_Forall (fun q cs => cstr b q cs /\ len cs < 2 ^ 31 /\ (q + len cs < p \/ p + n <= q)) strs.

Lemma wp_vsnprintf b strs p n ps args text (Q : Z -> bytes -> Prop) : Forall valid_piece ps -> render strs ps args = Some text ->
  len text < 2 ^ 31 -> 0 <= n <= 2 ^ 31 -> mapped b p (Z.to_nat n) -> strings_in b strs p n ->
  Q (len text) (if n =? 0 then b else write b p (take (Z.to_nat (n - 1)) text ++ [0])) ->
  wp (vsnprintf p n (show ps) args) Q b.
Proof.
  intros Hv Hr Ht Hn Hmap Hstr HQ. unfold vsnprintf. set (m := if 0 <? n then n - 1 else 0).
  assert (Hm : 0 <= m < 2 ^ 31 /\ m <= n /\ (n <> 0 -> m = n - 1)) by (unfold m; destruct (Z.ltb_spec 0 n); lia).
  destruct Hm as (Hm & Hmn & Hm1). rewrite swrap_small by (unfold in_s; lia).
  assert (Hmap' : mapped b p (Z.to_nat m)) by (intros i Hi; apply Hmap; lia).
  apply wp_bind. eapply wp_mono.
  { eapply (emits_vprintf vsnprintf_helper strs (stored b p m text) (stored_helper b p m text Hm Hmap' Ht)) with (rest := []); [|done|exact Hr|].
    - intros rest aux b' q cs (front & -> & -> & ->) Hq. destruct (Hstr q cs Hq) as (Hc & Hl & Hdis). split; [|done].
      eapply cstr_agree; [|exact Hc]. intros i Hi. rewrite lookup_write, decide_False; [done|]. rewrite length_take. unfold len in *. lia.
    - exists []. split_and!; [by rewrite app_nil_r|by rewrite take_nil|]. unfold len. cbn. f_equal; lia. }
  intros aux b' (front & Ef & -> & ->). rewrite app_nil_r in Ef. subst front. cbn [aux_p aux_length].
  destruct (Z.ltb_spec 0 n) as [H0|H0].
  - rewrite (proj2 (Z.eqb_neq n 0)) in HQ by lia. apply wp_bind, wp_store8.
    { rewrite lookup_write. unfold len. case_decide as Hd; [|apply Hmap; lia].
      rewrite length_take in Hd. lia. }
    apply wp_ret. rewrite Hm1 in * by lia. rewrite write_snoc in HQ. rewrite length_take in HQ. unfold len in *. change (u8 0) with 0.
    replace (p + Z.min (Z.of_nat (length text)) (n - 1)) with (p + Z.of_nat (Z.to_nat (n - 1) `min` length text)) by lia. exact HQ.
  - replace n with 0 in * by lia. unfold m. cbn. exact HQ.
Qed.


(** ** Numbers *)

Lemma numeral_decimal n : 0 <= n < 2 ^ 64 ->
  decimal (numeral base_d n) = n /\ Forall (fun d => isdigit d = true) (numeral base_d n).
Proof.
  intros Hn. unfold numeral. assert (H : forall f n, 0 <= n < 10 ^ Z.of_nat f ->
    decimal (numeral_rec f base_d n) = n /\ Forall (fun d => isdigit d = true) (numeral_rec f base_d n)).
  { clear n Hn. intros f. induction f as [|f IH]; intros n Hn; cbn [numeral_rec]; [cbn in *; split; [|done]; change (decimal []) with 0; lia|].
    destruct (Z.eqb_spec n 0) as [->|H0]; [done|]. rewrite Nat2Z.inj_succ, Z.pow_succ_r in Hn by lia. change (base base_d) with 10.
    pose proof (Z.mod_pos_bound n 10 ltac:(lia)) as Hm. pose proof (Z.div_mod n 10 ltac:(lia)) as Hdm.
    destruct (IH (n / 10)) as [IH1 IH2]; [split; [apply Z.div_pos; lia|apply Z.div_lt_upper_bound; lia]|].
    assert (Ed : digits base_d !! Z.to_nat (n mod 10) = Some (48 + n mod 10)).
    { assert (Hall : Forall (fun k => digits base_d !! k = Some (48 + Z.of_nat k)) (seq 0 10)) by decide_closed.
      rewrite Forall_forall in Hall. rewrite (Hall (Z.to_nat (n mod 10))) by (apply elem_of_seq; lia). f_equal. lia. }
    rewrite Ed, decimal_snoc, IH1. cbn [default id]. split; [lia|]. apply Forall_app. split; [done|]. apply Forall_singleton. unfold isdigit. lia. }
  apply H. change (Z.of_nat 22) with 22. lia.
Qed.

Lemma numeral_bound k : forall f n, 0 <= n < 10 ^ Z.of_nat k -> (length (numeral_rec f base_d n) <= k)%nat.
Proof.
  induction k as [|k IH]; intros f n Hn; (destruct f as [|f]; [cbn; lia|]); cbn [numeral_rec].
  - replace n with 0 by (cbn in Hn; lia). cbn. lia.
  - destruct (Z.eqb_spec n 0); [cbn; lia|]. rewrite length_app. cbn [length]. rewrite Nat2Z.inj_succ, Z.pow_succ_r in Hn by lia.
    change (base base_d) with 10. assert (Hq : 0 <= n / 10 < 10 ^ Z.of_nat k) by (split; [apply Z.div_pos; lia|apply Z.div_lt_upper_bound; lia]).
    specialize (IH f (n / 10) Hq). lia.
Qed.

(** The text of %d. *)
Definition decimal_text (v : Z) : list Z := (if v <? 0 then [45] else []) ++ (if v =? 0 then [48] else numeral base_d (Z.abs v)).

Definition percent_d : piece := Directive (mk_directive [] (Digits []) None INT 100).

Lemma render_decimal strs v : in_s 32 v -> render strs [percent_d] [W32 v] = Some (decimal_text v).
Proof.
  intros Hv. assert (E : render strs [percent_d] [W32 v] =
    Some (signed_text (mk_style false false false false false false 0 None) (swrap 32 v) ++ [])) by reflexivity.
  rewrite E, app_nil_r, swrap_small by (done || lia). f_equal. unfold signed_text, layout, sign_of, decimal_text.
  cbn [left zero plus space field]. set (body := integer_body _ base_d (Z.abs v)).
  assert (Hpad : spaces (0 - len ((if v <? 0 then [45] else []) ++ body)) = []).
  { unfold spaces, len. replace (Z.to_nat _) with 0%nat by lia. done. }
  rewrite Hpad. cbn [app]. f_equal. unfold body, integer_body. cbn [grouped alt digits_min default andb].
  destruct (Z.eqb_spec v 0) as [->|H0]; [done|]. unfold numeral. cbn [numeral_rec].
  rewrite (proj2 (Z.eqb_neq _ _)) by lia. unfold zeroes, len. rewrite length_app. cbn [length]. by replace (Z.to_nat _) with 0%nat by lia.
Qed.

Lemma decimal_text_digits v : in_s 32 v -> let ds := if v =? 0 then [48] else numeral base_d (Z.abs v) in
  decimal ds = Z.abs v /\ Forall (fun d => isdigit d = true) ds /\ (1 <= length ds <= 10)%nat.
Proof.
  intros Hv ds. unfold ds, in_s in *. destruct (Z.eqb_spec v 0) as [->|H0]; [split_and!; [done|by repeat constructor|cbn; lia..]|].
  destruct (numeral_decimal (Z.abs v)) as [Hd Hf]; [lia|]. split_and!; [done|done| |].
  - unfold numeral. cbn [numeral_rec]. rewrite (proj2 (Z.eqb_neq _ _)) by lia. rewrite length_app. cbn. lia.
  - apply numeral_bound. change (Z.of_nat 10) with 10. lia.
Qed.

Lemma leading_all f ds : Forall (fun d => f d = true) ds -> leading f ds = ds.
Proof. induction 1 as [|d ds Hd _ IH]; cbn [leading]; [done|]. by rewrite Hd, IH. Qed.

Lemma number_decimal v : in_s 32 v -> number (decimal_text v) = (v <? 0, if v =? 0 then [48] else numeral base_d (Z.abs v)).
Proof.
  intros Hv. destruct (decimal_text_digits v Hv) as (_ & Hf & Hl & _). unfold decimal_text, number.
  set (ds := if v =? 0 then _ else _) in *. destruct (v <? 0); cbn [app].
  - cbn. by rewrite leading_all.
  - destruct ds as [|d ds]; [cbn in Hl; lia|]. pose proof Hf as [Hd _]%Forall_cons.
    cbn [leading]. replace (isspace d) with false by (unfold isspace, isdigit in *; lia). cbn [length drop].
    unfold isdigit in Hd. rewrite !(proj2 (Z.eqb_neq d _)) by lia. f_equal. apply (leading_all isdigit (d :: ds)). exact Hf.
Qed.

Lemma decimal_text_chars v : in_s 32 v -> Forall (fun c => 0 < c < 256) (decimal_text v) /\ len (decimal_text v) <= 11.
Proof.
  intros Hv. destruct (decimal_text_digits v Hv) as (_ & Hf & Hl). unfold decimal_text, len. set (ds := if v =? 0 then _ else _) in *. split.
  - apply Forall_app. split; [destruct (v <? 0); repeat constructor|]. eapply Forall_impl; [exact Hf|]. intros d Hd. unfold isdigit in Hd. cbn in Hd. lia.
  - rewrite length_app. destruct (v <? 0); cbn; lia.
Qed.

(** What snprintf() prints for an int with %d, atoi() reads back, for
    every int and with the 12 characters that this takes. *)
Theorem snprintf_atoi_roundtrip b p n v : in_s 32 v -> 0 < p -> 12 <= n <= 2 ^ 31 -> mapped b p (Z.to_nat n) ->
  exists k b', snprintf p n (show [percent_d]) [W32 v] b = Ok (k, b') /\ atoi p b' = Ok (v, b').
Proof.
  intros Hv Hp Hn Hmap. destruct (decimal_text_chars v Hv) as [Hc Hl]. set (b' := write b p (decimal_text v ++ [0])).
  exists (len (decimal_text v)), b'. split.
  - cut (wp (snprintf p n (show [percent_d]) [W32 v]) (fun k t => k = len (decimal_text v) /\ t = b') b).
    { intros (k & t & E & -> & ->)%wp_ok. exact E. }
    apply (wp_vsnprintf b ∅ p n [percent_d] [W32 v] (decimal_text v)); [decide_closed|by apply render_decimal|lia|lia|done|apply map_Forall_empty|].
    rewrite (proj2 (Z.eqb_neq _ _)) by lia. split; [done|]. unfold len in Hl. by rewrite take_ge by lia.
  - assert (Hcs : cstr b' p (decimal_text v)) by (split_and!; [apply block_write|done|done]).
    pose proof (atoi_correct b' p _ Hcs) as Ha. rewrite number_decimal in Ha by done. destruct (decimal_text_digits v Hv) as (Hd & _ & _).
    rewrite Hd in Ha. unfold in_s in Hv. rewrite Ha; [|destruct (Z.ltb_spec v 0); lia]. f_equal. f_equal. destruct (Z.ltb_spec v 0); lia.
Qed.

(** ** Examples *)

(** A buffer of 24 bytes at 1000, and a string at 500. *)
Definition demo_memory : bytes := write (write ∅ 500 [104; 101; 108; 108; 111; 0]) 1000 (replicate 24 0).
Definition demo_strings : gmap Z (list Z) := {[ 500 := [104; 101; 108; 108; 111] ]}.

(** "%-5d|%#06x|%'lu|%.*s%%" *)
Definition demo_format : list piece :=
  [Directive (mk_directive [45] (Digits [53]) None INT 100); Char 124;
   Directive (mk_directive [35; 48] (Digits [54]) None INT 120); Char 124;
   Directive (mk_directive [39] (Digits []) None LONG 117); Char 124;
   Directive (mk_directive [] (Digits []) (Some Star) INT 115); Percent].

Lemma demo_mapped k : (k <= 24)%nat -> mapped demo_memory 1000 k.
Proof.
  intros Hk. pose proof (block_mapped _ _ _ (block_write (write ∅ 500 [104; 101; 108; 108; 111; 0]) 1000 (replicate 24 0))) as H.
  intros i Hi. apply H. rewrite length_replicate. lia.
Qed.

Lemma demo_strings_in : strings_in demo_memory demo_strings 1000 24.
Proof. apply map_Forall_singleton. split; [decide_closed|]. split; [done|]. left. done. Qed.


Lemma snprintf_atoi_roundtrip_witness :
  exists k b', snprintf 1000 12 (show [percent_d]) [W32 (- 2 ^ 31)] demo_memory = Ok (k, b') /\ atoi 1000 b' = Ok (- 2 ^ 31, b').
Proof. apply snprintf_atoi_roundtrip; [unfold in_s; lia|lia|lia|apply demo_mapped; lia]. Defined.

(** The flag [0] together with a negative width pads on both sides:
    "%0*d" with the width -5 prints "00007    ". *)
Lemma zeroes_and_spaces :
  snprintf 1000 24 [37; 48; 42; 100] [W32 (-5); W32 7] demo_memory =
  Ok (9, write demo_memory 1000 [48; 48; 48; 48; 55; 32; 32; 32; 32; 0]).
Proof. vm_compute. reflexivity. Qed.
