(* ===== verification/Hash.v ===== *)
(** * lib/kernel/hash.c: hash tables

    Arrays of lists, in which the buckets are, and then the functions. *)

From Stdlib Require Import ZArith Lia.
From stdpp Require Import base numbers gmap list.
From S2P Require Import Prelude DList Kernel Bytes.

Open Scope Z_scope.

(** * Arrays of lists

    Families of lists that share a memory, as lib/kernel/hash.c and
    threads/malloc.c have them: lists at the elements of an array. *)

(** ** Families of lists *)

Lemma elem_of_concat (x : Z) ls : x ∈ concat ls <-> exists l, x ∈ l /\ l ∈ ls.
Proof. rewrite list_elem_of_In, in_concat. setoid_rewrite list_elem_of_In. naive_solver. Qed.

Lemma elem_of_buckets (x : Z) ls : x ∈ concat ls <-> exists i l, ls !! i = Some l /\ x ∈ l.
Proof. rewrite elem_of_concat. setoid_rewrite list_elem_of_lookup at 2. naive_solver. Qed.

Lemma lists_ok_sub h L L' : L' ⊆ L -> lists_ok h L -> lists_ok h L'.
Proof. intros Hs [H1 H2]. split; intros *; [intros E|intros E1 E2]; eauto using lookup_weaken. Qed.

(** Memory at other addresses. *)
Lemma lists_ok_union h c L : lists_ok h L -> c ##ₘ h -> lists_ok (c ∪ h) L.
Proof.
  intros [H1 H2] Hd. split; [|done]. intros l xs E. eapply dll_agree; [by apply H1|]. intros a Ha.
  apply lookup_union_r. assert (Hin : a ∈ dom h) by (by eapply dll_dom; [apply H1|]). apply elem_of_dom in Hin as [e He].
  by apply (map_disjoint_Some_r _ _ _ e Hd).
Qed.

(** Another list, empty, at addresses that no list uses. *)
Lemma lists_ok_add h h' L l : lists_ok h L -> dll h' l [] -> frame (nodes l []) h h' ->
  (forall l2 xs2 a, L !! l2 = Some xs2 -> a ∈ nodes l2 xs2 -> a ∉ nodes l []) -> lists_ok h' (<[l := []]> L).
Proof.
  intros [Hd Hdj] Hl HF Hout. split.
  - intros l2 xs2. rewrite lookup_insert_Some. intros [[<- <-]|[Hne E2]]; [done|]. eapply dll_frame; [done| |by apply Hd].
    intros a Ha. by eapply Hout.
  - intros l1 l2 xs1 xs2 a. rewrite !lookup_insert_Some.
    intros [[<- <-]|[H1 E1]] [[<- <-]|[H2 E2]] Ha1 Ha2; [done| | |by eapply Hdj].
    + by destruct (Hout l2 xs2 a E2 Ha2).
    + by destruct (Hout l1 xs1 a E1 Ha1).
Qed.

Lemma wp_lists_push_front h L l xs e (Q : unit -> mem -> Prop) : lists_ok h L -> L !! l = Some xs -> e ∈ dom h -> e <> NULL ->
  unlinked e L -> (forall h', lists_ok h' (<[l := e :: xs]> L) -> dom h' = dom h -> Q tt h') -> wp (list_push_front l e) Q h.
Proof.
  intros HL El He Hnull Hun HQ. apply (wp_list_push_front h l xs e); [by apply HL|done|done|by apply Hun|].
  intros h' Hd' HF. apply HQ; [|apply HF]. eapply lists_ok_change; [done..|]. intros l2 xs2 a E2 Hne Ha Ha'.
  apply elem_of_nodes in Ha'. destruct Ha' as [->|[Ha'| ->]].
  - eapply (lists_other h L HL l xs l2 xs2); [done..|]. apply elem_of_nodes. auto.
  - apply elem_of_cons in Ha' as [->|Ha']; [by destruct (Hun _ _ E2)|]. eapply (lists_other h L HL l xs l2 xs2); [done..|]. by apply elem_nodes.
  - eapply (lists_other h L HL l xs l2 xs2); [done..|]. apply elem_of_nodes. auto.
Qed.

(** ** Arrays of lists *)

(** The lists at the addresses [f 0], [f 1], ... *)
Definition fam (f : nat -> Z) (bs : list (list Z)) : gmap Z (list Z) := list_to_map (imap (fun i xs => (f i, xs)) bs).

Section Fam.
Context (f : nat -> Z) `{!Inj (=) (=) f}.

Lemma fam_fst bs : NoDup (imap (fun i xs => (f i, xs)) bs : list (Z * list Z)).*1.
Proof using All.
  rewrite fmap_imap. apply NoDup_alt. intros i j x Hi Hj. rewrite list_lookup_imap in Hi, Hj.
  destruct (bs !! i), (bs !! j); try done. cbn in Hi, Hj. apply (inj f). congruence.
Qed.

Lemma lookup_fam bs l xs : fam f bs !! l = Some xs <-> exists i, l = f i /\ bs !! i = Some xs.
Proof using All.
  unfold fam. rewrite <- elem_of_list_to_map by apply fam_fst. rewrite elem_of_lookup_imap. split.
  - intros (i & y & [= -> ->] & E). eauto.
  - intros (i & -> & E). by exists i, xs.
Qed.

Lemma lookup_fam_at bs i : fam f bs !! f i = bs !! i.
Proof using All.
  apply option_eq. intros xs. rewrite lookup_fam. split; [|eauto]. intros (j & E & Hj). by apply (inj f) in E as ->.
Qed.

Lemma lookup_fam_None bs l : fam f bs !! l = None <-> forall i, (i < length bs)%nat -> l <> f i.
Proof using All.
  split.
  - intros E i Hi ->. rewrite lookup_fam_at in E. apply lookup_ge_None in E. lia.
  - intros Hn. destruct (fam f bs !! l) as [xs|] eqn:E; [|done]. apply lookup_fam in E as (i & -> & Hi).
    apply lookup_lt_Some in Hi. by destruct (Hn i).
Qed.

Lemma fam_insert bs i xs : (i < length bs)%nat -> <[f i := xs]> (fam f bs) = fam f (<[i := xs]> bs).
Proof using All.
  intros Hi. apply map_eq. intros l. apply option_eq. intros ys. rewrite lookup_fam, lookup_insert_Some, lookup_fam. split.
  - intros [[<- <-]|[Hne (j & -> & Hj)]].
    + exists i. split; [done|]. by apply list_lookup_insert_eq.
    + exists j. split; [done|]. rewrite list_lookup_insert_ne; [done|]. by intros ->.
  - intros (j & -> & Hj). destruct (decide (i = j)) as [->|Hne].
    + left. rewrite list_lookup_insert_eq in Hj by done. by injection Hj as ->.
    + right. rewrite list_lookup_insert_ne in Hj by done. split; [by intros ?%(inj f)|eauto].
Qed.

Lemma fam_snoc bs xs : fam f (bs ++ [xs]) = <[f (length bs) := xs]> (fam f bs).
Proof using All.
  apply map_eq. intros l. apply option_eq. intros ys. rewrite lookup_fam, lookup_insert_Some, lookup_fam. split.
  - intros (j & -> & Hj). apply lookup_app_Some in Hj as [Hj|[Hle Hj]].
    + right. split; [|eauto]. apply lookup_lt_Some in Hj. intros ?%(inj f). lia.
    + left. apply list_lookup_singleton_Some in Hj as [Hj ->]. split; [f_equal; lia|done].
  - intros [[<- <-]|[Hne (j & -> & Hj)]].
    + exists (length bs). split; [done|]. by rewrite lookup_app_r, Nat.sub_diag by lia.
    + exists j. split; [done|]. by apply lookup_app_l_Some.
Qed.
End Fam.

(** What was in one list only is in none once it is taken out. *)
Lemma removed_unlinked h L l xs1 x xs2 : lists_ok h L -> L !! l = Some (xs1 ++ x :: xs2) -> unlinked x (<[l := xs1 ++ xs2]> L).
Proof.
  intros HL El l2 ys E2 Hx. assert (Hin : x ∈ nodes l (xs1 ++ x :: xs2)) by (apply elem_nodes; set_solver).
  apply lookup_insert_Some in E2 as [[<- <-]|[Hne E2]]; [|by apply Hne, (lists_disj _ _ HL l l2 _ _ x El E2)].
  pose proof (dll_nodup _ _ _ (lists_dll _ _ HL _ _ El)) as Hn. apply nodup_insert in Hn as [Hn _]. done.
Qed.

(** Only list [i] of the array changes. *)
Lemma concat_split (bs : list (list Z)) i xs : bs !! i = Some xs ->
  exists rest, concat bs ≡ₚ xs ++ rest /\ forall ys, concat (<[i := ys]> bs) ≡ₚ ys ++ rest.
Proof.
  intros E. exists (concat (take i bs) ++ concat (drop (S i) bs)). pose proof (lookup_lt_Some _ _ _ E) as Hi. split.
  - rewrite <- (take_drop_middle bs i xs E) at 1. rewrite concat_app. cbn. apply Permutation_app_swap_app.
  - intros ys. rewrite insert_take_drop by done. rewrite concat_app. cbn. apply Permutation_app_swap_app.
Qed.

(** * lib/kernel/hash.c: hash tables

    A table is an array of lists, the buckets, in a memory of list elements.
    The functions that compute and compare hash values are the caller's: they
    are parameters, functions of the element.  The allocator is an interface;
    the array has 16 bytes for every [struct list]. *)

(** ** State *)

(** [struct hash] without the pointers to the caller's functions. *)
Record hash : Set := mk_hash { elem_cnt : Z; bucket_cnt : Z; buckets : Z }.

(** [struct hash_iterator]; [it_elem] is the element that it is at. *)
Record hash_iterator : Set := mk_iterator { it_bucket : Z; it_elem : Z }.

Record hstate : Set := mk_hstate { links : mem; calls : nat; table : hash }.
Definition set_links l s := mk_hstate l (calls s) (table s).
Definition set_calls n s := mk_hstate (links s) n (table s).
Definition set_table t s := mk_hstate (links s) (calls s) t.

(** The answer of malloc() to its [n]-th call, for the memory in use; and what
    the memory holds before it is used. *)
Class Blocks := {
  block_at : nat -> gset Z -> Z -> option Z;
  junk : Z -> list_elem;
  block_at_fresh : forall n live size p, block_at n live size = Some p ->
    0 < p /\ forall a, a ∈ live -> ~ (p <= a < p + size) }.

Definition bucket (p i : Z) : Z := p + 16 * i.

(** The heads and tails of [n] lists. *)
Definition cells (p : Z) (n : nat) : list Z := concat (map (fun i => [bucket p (Z.of_nat i); bucket p (Z.of_nat i) + 8]) (seq 0 n)).

Section Hash.
Context `{!Blocks} (hash_fn : Z -> Z) (less : Z -> Z -> bool).

Definition malloc_buckets (n : Z) : M hstate Z :=
  s ← get;
  modify (set_calls (S (calls s)));;
  match block_at (calls s) (dom (links s)) (u32 (16 * n)) with
  | None => ret NULL
  | Some p =>
      modify (fun s => set_links (list_to_map (map (fun a => (a, junk a)) (cells p (Z.to_nat n))) ∪ links s) s);;
      ret p
  end.

Definition free_buckets (p n : Z) : M hstate unit :=
  modify (fun s => set_links (filter (fun kv => kv.1 ∉ cells p (Z.to_nat n)) (links s)) s).

(** List operations. *)
Definition lst_op {A} (m : M mem A) : M hstate A := zoom links set_links m.
Definition hloop {A B} (body : A -> M hstate (A + B)) (a : A) : M hstate B :=
  s ← get; iterate (S (S (size (links s)))) body a.

(** ** Buckets and elements *)

Definition find_bucket (e : Z) : M hstate Z :=
  t ← gets table;
  ret (bucket (buckets t) (Z.land (hash_fn e) (u32 (bucket_cnt t - 1)))).

Definition find_elem (bucket e : Z) : M hstate Z :=
  i ← lst_op (list_begin bucket);
  hloop (fun i =>
    end_ ← lst_op (list_end bucket);
    if i =? end_ then ret (inr NULL)
    else if negb (less i e) && negb (less e i) then ret (inr i)
    else i ← lst_op (list_next i); ret (inl i)) i.

Definition insert_elem (bucket e : Z) : M hstate unit :=
  modify (fun s => set_table (mk_hash (u32 (elem_cnt (table s) + 1)) (bucket_cnt (table s)) (buckets (table s))) s);;
  lst_op (list_push_front bucket e).

Definition remove_elem (e : Z) : M hstate unit :=
  modify (fun s => set_table (mk_hash (u32 (elem_cnt (table s) - 1)) (bucket_cnt (table s)) (buckets (table s))) s);;
  lst_op (list_remove e);; ret tt.

(** ** Rehashing *)

Definition turn_off_least_1bit (x : Z) : Z := Z.land x (u32 (x - 1)).
Definition is_power_of_2 (x : Z) : bool := negb (x =? 0) && (turn_off_least_1bit x =? 0).
Definition BEST_ELEMS_PER_BUCKET : Z := 2.

(** Every round turns off one of 32 bits. *)
Definition ideal_bucket_cnt (elem_cnt : Z) : M hstate Z :=
  let n := elem_cnt / BEST_ELEMS_PER_BUCKET in
  let n := if n <? 4 then 4 else n in
  iterate 33 (fun n => ret (if is_power_of_2 n then inr n else inl (turn_off_least_1bit n))) n.

(** Moves the elements of an old bucket. *)
Definition move_bucket (old_bucket : Z) : M hstate unit :=
  elem ← lst_op (list_begin old_bucket);
  hloop (fun elem =>
    end_ ← lst_op (list_end old_bucket);
    if elem =? end_ then ret (inr tt) else
    new_bucket ← find_bucket elem;
    next ← lst_op (list_next elem);
    lst_op (list_remove elem);;
    lst_op (list_push_front new_bucket elem);;
    ret (inl next)) elem.

Definition rehash : M hstate unit :=
  t ← gets table;
  let old_buckets := buckets t in
  let old_bucket_cnt := bucket_cnt t in
  new_bucket_cnt ← ideal_bucket_cnt (elem_cnt t);
  if new_bucket_cnt =? old_bucket_cnt then ret tt else
  new_buckets ← malloc_buckets new_bucket_cnt;
  if new_buckets =? NULL then ret tt else
  for_from (Z.to_nat new_bucket_cnt) 0 (fun i => lst_op (list_init (bucket new_buckets i)));;
  modify (fun s => set_table (mk_hash (elem_cnt (table s)) new_bucket_cnt new_buckets) s);;
  for_from (Z.to_nat old_bucket_cnt) 0 (fun i => move_bucket (bucket old_buckets i));;
  free_buckets old_buckets old_bucket_cnt.

(** ** Life cycle *)

(** Empties a bucket; the result is the elements given to the destructor. *)
Definition drain (bucket : Z) : M hstate (list Z) :=
  hloop (fun acc =>
    empty ← lst_op (list_empty bucket);
    if negb empty then e ← lst_op (list_pop_front bucket); ret (inl (acc ++ [e])) else ret (inr acc)) [].

Fixpoint collect_from (n : nat) (i : Z) (body : Z -> M hstate (list Z)) : M hstate (list Z) :=
  match n with
  | O => ret []
  | S n => l ← body i; r ← collect_from n (i + 1) body; ret (l ++ r)
  end.

(** The result is the calls of DESTRUCTOR, in order. *)
Definition hash_clear (destructor : bool) : M hstate (list Z) :=
  t ← gets table;
  l ← collect_from (Z.to_nat (bucket_cnt t)) 0 (fun i =>
    let b := bucket (buckets t) i in
    l ← (if destructor then drain b else ret []);
    lst_op (list_init b);; ret l);
  modify (fun s => set_table (mk_hash 0 (bucket_cnt (table s)) (buckets (table s))) s);;
  ret l.

Definition hash_init : M hstate bool :=
  modify (set_table (mk_hash 0 4 NULL));;
  p ← malloc_buckets 4;
  modify (set_table (mk_hash 0 4 p));;
  if negb (p =? NULL) then hash_clear false;; ret true else ret false.

Definition hash_destroy (destructor : bool) : M hstate (list Z) :=
  l ← (if destructor then hash_clear true else ret []);
  t ← gets table;
  free_buckets (buckets t) (bucket_cnt t);; ret l.

(** ** Search, insertion, deletion *)

Definition hash_insert (new : Z) : M hstate Z :=
  b ← find_bucket new;
  old ← find_elem b new;
  (if old =? NULL then insert_elem b new else ret tt);;
  rehash;;
  ret old.

Definition hash_replace (new : Z) : M hstate Z :=
  b ← find_bucket new;
  old ← find_elem b new;
  (if negb (old =? NULL) then remove_elem old else ret tt);;
  insert_elem b new;;
  rehash;;
  ret old.

Definition hash_find (e : Z) : M hstate Z := b ← find_bucket e; find_elem b e.

Definition hash_delete (e : Z) : M hstate Z :=
  b ← find_bucket e;
  found ← find_elem b e;
  (if negb (found =? NULL) then remove_elem found;; rehash else ret tt);;
  ret found.

(** ** Iteration *)

(** The result is the calls of ACTION, in order. *)
Definition hash_apply : M hstate (list Z) :=
  t ← gets table;
  collect_from (Z.to_nat (bucket_cnt t)) 0 (fun i =>
    let b := bucket (buckets t) i in
    elem ← lst_op (list_begin b);
    hloop (fun '(elem, acc) =>
      end_ ← lst_op (list_end b);
      if elem =? end_ then ret (inr acc) else
      next ← lst_op (list_next elem);
      ret (inl (next, acc ++ [elem]))) (elem, [])).

Definition hash_first : M hstate hash_iterator :=
  t ← gets table;
  e ← lst_op (list_head (buckets t));
  ret (mk_iterator (buckets t) e).

Definition hash_next (i : hash_iterator) : M hstate hash_iterator :=
  t ← gets table;
  e ← lst_op (list_next (it_elem i));
  iterate (S (Z.to_nat (bucket_cnt t))) (fun '(b, e) =>
    end_ ← lst_op (list_end b);
    if negb (e =? end_) then ret (inr (mk_iterator b e)) else
    let b := b + 16 in
    if buckets t + 16 * bucket_cnt t <=? b then ret (inr (mk_iterator b NULL)) else
    e ← lst_op (list_begin b);
    ret (inl (b, e))) (it_bucket i, e).

Definition hash_cur (i : hash_iterator) : Z := it_elem i.
Definition hash_size : M hstate Z := t ← gets table; ret (elem_cnt t).
Definition hash_empty : M hstate bool := t ← gets table; ret (elem_cnt t =? 0).
End Hash.

(** ** Hash functions *)

Definition FNV_32_PRIME : Z := 16777619.
Definition FNV_32_BASIS : Z := 2166136261.

(** One round: [hash = (hash * FNV_32_PRIME) ^ c]. *)
Definition fnv (hash c : Z) : Z := Z.lxor (u32 (hash * FNV_32_PRIME)) c.

Definition hash_bytes (buf size : Z) : M bytes Z :=
  ASSERT (negb (buf =? NULL));;
  iterate (S (Z.to_nat size)) (fun '(i, hash) =>
    if i <? size then c ← load8 (buf + i); ret (inl (i + 1, fnv hash c)) else ret (inr hash)) (0, FNV_32_BASIS).

Definition hash_string (s : Z) : M bytes Z :=
  ASSERT (negb (s =? NULL));;
  sloop (fun '(i, hash) =>
    c ← load8 (s + i);
    if negb (c =? 0) then ret (inl (i + 1, fnv hash c)) else ret (inr hash)) (0, FNV_32_BASIS).

(** [i] is in a local variable, at address [p]. *)
Definition hash_int (p i : Z) : M bytes Z :=
  modify (fun b => write b p [u8 i; u8 (Z.shiftr (u32 i) 8); u8 (Z.shiftr (u32 i) 16); u8 (Z.shiftr (u32 i) 24)]);;
  hash_bytes p 4.
