(* ===== verification/HashSpec.v ===== *)
(** * Hash tables are sets

    A table holds a set of elements no two of which are equal in the caller's
    order.  [table_ok] relates the array of buckets to these elements; every
    operation keeps it, whether or not there is memory for another array, and
    does to the elements what its comment says. *)

From Stdlib Require Import ZArith Lia.
From stdpp Require Import base numbers gmap list.
From S2P Require Import Prelude DList Kernel Bytes Hash.

Open Scope Z_scope.

(** ** Arrays of buckets *)

#[global] Instance bucket_inj p : Inj (=) (=) (fun i => bucket p (Z.of_nat i)).
Proof. intros i j. unfold bucket. lia. Qed.

(** The lists of an array of buckets. *)
Definition bmap (p : Z) (bs : list (list Z)) : gmap Z (list Z) := fam (fun i => bucket p (Z.of_nat i)) bs.

Lemma lookup_bmap p bs l xs : bmap p bs !! l = Some xs <-> exists i, l = bucket p (Z.of_nat i) /\ bs !! i = Some xs.
Proof. apply (lookup_fam (fun i => bucket p (Z.of_nat i))). Qed.

Lemma lookup_bmap_bucket p bs i : bmap p bs !! bucket p (Z.of_nat i) = bs !! i.
Proof. apply (lookup_fam_at (fun i => bucket p (Z.of_nat i))). Qed.

Lemma lookup_bmap_None p bs l : bmap p bs !! l = None <-> forall i, (i < length bs)%nat -> l <> bucket p (Z.of_nat i).
Proof. apply (lookup_fam_None (fun i => bucket p (Z.of_nat i))). Qed.

Lemma bmap_insert p bs i xs G : (i < length bs)%nat -> <[bucket p (Z.of_nat i) := xs]> (bmap p bs ∪ G) = bmap p (<[i := xs]> bs) ∪ G.
Proof. intros Hi. rewrite insert_union_l. f_equal. by apply (fam_insert (fun i => bucket p (Z.of_nat i))). Qed.

Lemma bmap_snoc p bs xs : bmap p (bs ++ [xs]) = <[bucket p (Z.of_nat (length bs)) := xs]> (bmap p bs).
Proof. apply (fam_snoc (fun i => bucket p (Z.of_nat i))). Qed.

Lemma elem_of_cells p n a : a ∈ cells p n <-> exists i, (i < n)%nat /\ (a = bucket p (Z.of_nat i) \/ a = bucket p (Z.of_nat i) + 8).
Proof.
  unfold cells. rewrite list_elem_of_In, in_concat. split.
  - intros (l & (i & <- & Hi)%in_map_iff & Ha). apply in_seq in Hi. exists i. split; [lia|]. cbn in Ha. naive_solver.
  - intros (i & Hi & Ha). eexists. split; [apply in_map_iff; exists i; split; [done|]; apply in_seq; lia|]. cbn. naive_solver.
Qed.

(** ** Powers of two *)

Lemma land_double_l a b : Z.land (2 * a) (2 * b + 1) = 2 * Z.land a b.
Proof.
  apply Z.bits_inj'. intros [|p|p] Hn; [| |lia].
  - rewrite Z.land_spec, !Z.testbit_even_0. done.
  - replace (Z.pos p) with (Z.succ (Z.pos p - 1)) by lia.
    rewrite Z.land_spec, !Z.testbit_even_succ, Z.testbit_odd_succ, Z.land_spec by lia. done.
Qed.

Lemma land_double_r a b : Z.land (2 * a + 1) (2 * b) = 2 * Z.land a b.
Proof. rewrite Z.land_comm, land_double_l, Z.land_comm. done. Qed.

(** The lowest bit that is set. *)
Lemma lowest_bit n : 0 < n -> exists i q, 0 <= i /\ 0 <= q /\ n = 2 ^ i * (2 * q + 1).
Proof.
  intros Hn. assert (H0 : 0 <= n) by lia. revert Hn. pattern n. apply Z_lt_induction; [|exact H0]. clear n H0. intros n IH Hn.
  destruct (Z.Even_or_Odd n) as [[m ->]|[m ->]].
  - destruct (IH m) as (i & q & Hi & Hq & E); [lia|lia|]. exists (i + 1), q. rewrite Z.pow_add_r by lia. split_and!; lia.
  - exists 0, m. split_and!; lia.
Qed.

Lemma land_pred i q : 0 <= i -> 0 <= q -> Z.land (2 ^ i * (2 * q + 1)) (2 ^ i * (2 * q + 1) - 1) = 2 ^ (i + 1) * q.
Proof.
  intros Hi Hq. pattern i. apply natlike_ind; [| |exact Hi].
  - replace (2 ^ 0 * (2 * q + 1)) with (2 * q + 1) by lia. replace (2 * q + 1 - 1) with (2 * q) by lia.
    rewrite land_double_r, Z.land_diag. lia.
  - intros j Hj IH. replace (2 ^ Z.succ j * (2 * q + 1)) with (2 * (2 ^ j * (2 * q + 1))) by (rewrite Z.pow_succ_r by lia; lia).
    set (x := 2 ^ j * (2 * q + 1)) in *. replace (2 * x - 1) with (2 * (x - 1) + 1) by lia. rewrite land_double_l, IH.
    replace (Z.succ j + 1) with (Z.succ (j + 1)) by lia. rewrite (Z.pow_succ_r 2 (j + 1)) by lia. lia.
Qed.

Section Table.
Context `{!Blocks} (hash_fn : Z -> Z) (less : Z -> Z -> bool).

Definition equal (x y : Z) : bool := negb (less x y) && negb (less y x).

(** What the caller's functions promise: equal elements have equal hashes. *)
Record hashing : Prop := {
  hs_range : forall x, 0 <= hash_fn x < 2 ^ 32;
  hs_refl : forall x, less x x = false;
  hs_trans : forall x y z, equal x y = true -> equal y z = true -> equal x z = true;
  hs_hash : forall x y, equal x y = true -> hash_fn x = hash_fn y }.

Context (Hh : hashing).

Lemma equal_sym x y : equal x y = equal y x.
Proof using All. unfold equal. apply andb_comm. Qed.
Lemma equal_refl x : equal x x = true.
Proof using All. unfold equal. by rewrite (hs_refl Hh). Qed.

(** The number of the bucket of an element, of [n]. *)
Definition idx (n e : Z) : nat := Z.to_nat (Z.land (hash_fn e) (n - 1)).

Lemma idx_bound k e : 0 <= k -> 0 <= Z.land (hash_fn e) (2 ^ k - 1) < 2 ^ k.
Proof using All. intros Hk. replace (2 ^ k - 1) with (Z.ones k) by (rewrite Z.ones_equiv; lia). rewrite Z.land_ones by done. apply Z.mod_pos_bound. lia. Qed.

(** Every element is in its bucket. *)
Definition placed (n : Z) (bs : list (list Z)) : Prop := forall i xs x, bs !! i = Some xs -> x ∈ xs -> idx n x = i.

(** [G] are the other lists in memory. *)
Record table_ok (s : hstate) (G : gmap Z (list Z)) (bs : list (list Z)) : Prop := {
  tb_lists : lists_ok (links s) (bmap (buckets (table s)) bs ∪ G);
  tb_apart : forall i, (i < length bs)%nat -> G !! bucket (buckets (table s)) (Z.of_nat i) = None;
  tb_pow : exists k, 2 <= k <= 27 /\ bucket_cnt (table s) = 2 ^ k;
  tb_len : Z.of_nat (length bs) = bucket_cnt (table s);
  tb_place : placed (bucket_cnt (table s)) bs;
  tb_cnt : elem_cnt (table s) = Z.of_nat (length (concat bs));
  tb_max : elem_cnt (table s) < 2 ^ 28;
  tb_uniq : forall x y, x ∈ concat bs -> y ∈ concat bs -> equal x y = true -> x = y }.

(** ** Searching *)

Lemma wp_lst_op {A} (m : M mem A) s (Q : A -> hstate -> Prop) : wp m (fun a h => Q a (set_links h s)) (links s) -> wp (lst_op m) Q s.
Proof using All. apply wp_zoom. Qed.

Lemma wp_hloop {A B} (I : nat -> A -> hstate -> Prop) (body : A -> M hstate (A + B)) Q n a s :
  (forall n a s, I n a s -> wp (body a) (fun r s' =>
     match r with inl a' => exists n', (n' < n)%nat /\ I n' a' s' | inr b => Q b s' end) s) ->
  I n a s -> (n <= size (links s))%nat -> wp (hloop body a) Q s.
Proof using All. intros Hb HI Hn. unfold hloop. apply wp_bind. red; cbn -[iterate]. eapply wp_iterate; [exact Hb|exact HI|lia]. Qed.

Lemma wp_find_bucket s k e (Q : Z -> hstate -> Prop) : bucket_cnt (table s) = 2 ^ k -> 2 <= k <= 27 ->
  Q (bucket (buckets (table s)) (Z.of_nat (idx (2 ^ k) e))) s -> wp (find_bucket hash_fn e) Q s.
Proof using All.
  intros E Hk HQ. unfold find_bucket. apply wp_bind. red. cbn [gets]. apply wp_ret. rewrite E.
  assert (2 ^ k <= 2 ^ 27) by (apply Z.pow_le_mono_r; lia). assert (0 < 2 ^ k) by (apply Z.pow_pos_nonneg; lia).
  rewrite uwrap_small by (unfold in_u; lia). pose proof (idx_bound k e). unfold idx in HQ. rewrite Z2Nat.id in HQ by lia. done.
Qed.

Lemma set_links_id s : set_links (links s) s = s.
Proof using All. by destruct s. Qed.

Lemma wp_find_elem s L b xs e (Q : Z -> hstate -> Prop) : lists_ok (links s) L -> L !! b = Some xs ->
  (forall x, x ∈ xs -> equal x e = true -> x <> NULL -> Q x s) -> ((forall x, x ∈ xs -> equal x e = false) -> Q NULL s) ->
  wp (find_elem less b e) Q s.
Proof using All.
  intros HL Eb H1 H0. pose proof (lists_dll _ _ HL _ _ Eb) as Hd. pose proof (dll_fuel _ _ _ Hd) as Hf. unfold find_elem.
  apply wp_bind, wp_lst_op. eapply wp_list_begin; [done|]. rewrite set_links_id.
  eapply (wp_hloop (fun n i t => t = s /\ exists xs1 xs2, xs = xs1 ++ xs2 /\ i = first b xs2 /\ n = length xs2 /\
    forall x, x ∈ xs1 -> equal x e = false) _ _ (length xs)); [| |lia].
  2:{ split; [done|]. exists [], xs. split_and!; try done. by intros x ?%elem_of_nil. }
  intros n i t (-> & xs1 & xs2 & E & -> & -> & Hno). rewrite E in Hd.
  apply wp_bind, wp_lst_op. eapply wp_list_end; [done|]. rewrite set_links_id, (first_tail_eqb _ _ xs1 xs2 Hd).
  destruct xs2 as [|x xs2]; cbn [bool_decide first].
  - rewrite bool_decide_eq_true_2 by done. apply wp_ret, H0. intros x Hx. apply Hno. by rewrite E, app_nil_r in Hx.
  - rewrite bool_decide_eq_false_2 by done. change (negb (less x e) && negb (less e x)) with (equal x e).
    destruct (equal x e) eqn:Ee.
    + apply wp_ret, H1; [rewrite E; set_solver|done|]. eapply dll_not_null; [done|]. apply elem_nodes. set_solver.
    + apply wp_bind, wp_lst_op. eapply wp_list_next; [done|]. rewrite set_links_id. apply wp_ret.
      exists (length xs2). split; [cbn; lia|]. split; [done|]. exists (xs1 ++ [x]), xs2. split_and!; try done; [by rewrite <- app_assoc|].
      intros y [Hy|Hy]%elem_of_app; [by apply Hno|]. apply list_elem_of_singleton in Hy as ->. done.
Qed.

(** ** Rehashing *)

Lemma wp_ideal_bucket_cnt s n (Q : Z -> hstate -> Prop) : 0 <= n < 2 ^ 28 ->
  (forall k, 2 <= k <= 27 -> Q (2 ^ k) s) -> wp (ideal_bucket_cnt n) Q s.
Proof using All.
  intros Hn HQ. unfold ideal_bucket_cnt, BEST_ELEMS_PER_BUCKET. set (n0 := if n / 2 <? 4 then 4 else n / 2).
  assert (H0 : 4 <= n0 < 2 ^ 28) by (unfold n0; destruct (Z.ltb_spec (n / 2) 4); Z.div_mod_to_equations; lia).
  assert (Hl0 : 2 <= Z.log2 n0 <= 27).
  { split; [apply (Z.log2_le_mono 4); lia|]. apply Z.lt_succ_r. apply Z.log2_lt_pow2; lia. }
  unshelve eapply (wp_iterate (fun m x t => t = s /\ 0 < x < 2 ^ 28 /\ Z.log2 x = Z.log2 n0 /\ exists j y, 0 <= j /\ 0 < y /\
    x = 2 ^ j * y /\ m = Z.to_nat (28 - j)) _ _ _ _ 28%nat); [| |lia].
  2:{ split; [done|]. split; [lia|]. split; [done|]. exists 0, n0. split_and!; lia. }
  intros m x t (-> & Hx & Hlog & j & y & Hj & Hy & Exy & ->). destruct (lowest_bit x) as (i & q & Hi & Hq & E); [lia|].
  assert (Ht : turn_off_least_1bit x = 2 ^ (i + 1) * q).
  { unfold turn_off_least_1bit. rewrite uwrap_small by (unfold in_u; lia). rewrite E. by apply land_pred. }
  apply wp_ret. unfold is_power_of_2. rewrite (proj2 (Z.eqb_neq x 0)) by lia. cbn [negb andb]. rewrite Ht.
  assert (0 < 2 ^ (i + 1)) by (apply Z.pow_pos_nonneg; lia). assert (0 < 2 ^ i) by (apply Z.pow_pos_nonneg; lia).
  assert (Hpow : 2 ^ (i + 1) = 2 ^ i * 2) by (rewrite Z.pow_add_r by lia; lia).
  destruct (Z.eqb_spec (2 ^ (i + 1) * q) 0) as [Eq|Hq0].
  - assert (q = 0) as -> by nia. assert (Ex : x = 2 ^ i) by lia. rewrite Ex in Hlog |- *. rewrite Z.log2_pow2 in Hlog by done. apply HQ. lia.
  - assert (Hqp : 0 < q) by nia.
    assert (Hij : j <= i).
    { destruct (Z.le_gt_cases j i) as [|Hlt]; [done|]. exfalso. replace j with (i + 1 + (j - i - 1)) in Exy by lia.
      rewrite !Z.pow_add_r in Exy by lia. change (2 ^ 1) with 2 in Exy. set (z := 2 ^ (j - i - 1) * y).
      assert (Ez : 2 ^ i * (2 * q + 1) = 2 ^ i * (2 * z)) by (rewrite <- E, Exy; unfold z; lia).
      apply Z.mul_cancel_l in Ez; lia. }
    assert (Hi28 : i < 28).
    { destruct (Z.lt_ge_cases i 28) as [|Hge]; [done|]. pose proof (Z.pow_le_mono_r 2 28 i). nia. }
    assert (Elog : Z.log2 (2 ^ (i + 1) * q) = Z.log2 x).
    { rewrite E, Hpow. replace (2 ^ i * 2 * q) with (2 * q * 2 ^ i) by lia. rewrite Z.log2_mul_pow2 by lia.
      replace (2 ^ i * (2 * q + 1)) with ((2 * q + 1) * 2 ^ i) by lia. rewrite Z.log2_mul_pow2 by lia.
      by rewrite Z.log2_double, Z.log2_succ_double by lia. }
    exists (Z.to_nat (28 - (i + 1))). split; [lia|]. split; [done|]. split; [nia|]. split; [congruence|].
    exists (i + 1), q. split_and!; lia.
Qed.

(** A new array: its cells are in memory, and no list uses them. *)
Record new_array (s t : hstate) (L : gmap Z (list Z)) (p : Z) (n : nat) : Prop := {
  na_ptr : 0 < p;
  na_lists : lists_ok (links t) L;
  na_table : table t = table s;
  na_old : dom (links s) ⊆ dom (links t);
  na_cells : forall a, a ∈ cells p n -> a ∈ dom (links t) /\ a <> NULL;
  na_fresh : forall a, a ∈ dom (links s) -> a ∉ cells p n;
  na_out : forall l xs a, L !! l = Some xs -> a ∈ nodes l xs -> a ∉ cells p n }.

Lemma cells_range p n a : a ∈ cells p n -> p <= a < p + 16 * Z.of_nat n.
Proof using All. intros (i & Hi & [-> | ->])%elem_of_cells; unfold bucket; lia. Qed.

Lemma wp_malloc_buckets s L n (Q : Z -> hstate -> Prop) : lists_ok (links s) L -> 0 <= n <= 2 ^ 27 ->
  Q NULL (set_calls (S (calls s)) s) -> (forall p t, new_array s t L p (Z.to_nat n) -> Q p t) -> wp (malloc_buckets n) Q s.
Proof using All.
  intros HL Hn H0 H1. unfold malloc_buckets. apply wp_bind. red. cbn [get]. apply wp_bind. red. cbn [modify].
  rewrite uwrap_small by (unfold in_u; lia). destruct (block_at _ _ _) as [p|] eqn:E; [|by apply wp_ret].
  apply block_at_fresh in E as [Hp Hf]. apply wp_bind. red. cbn [modify]. apply wp_ret, H1.
  set (c := list_to_map _ : mem).
  assert (Hcd : forall a, a ∈ cells p (Z.to_nat n) <-> is_Some (c !! a)).
  { intros a. unfold c. rewrite <- elem_of_dom, dom_list_to_map_L, elem_of_list_to_set, <- list_fmap_compose.
    rewrite list_elem_of_fmap. cbn. naive_solver. }
  assert (Hdj : c ##ₘ links s).
  { apply map_disjoint_dom. intros a Ha Ha'. apply (Hf a Ha'). apply elem_of_dom, Hcd in Ha. apply cells_range in Ha. lia. }
  split; [done| |done| | | |].
  - by apply lists_ok_union.
  - cbn. rewrite dom_union. set_solver.
  - intros a Ha. split; [|apply cells_range in Ha; unfold NULL; lia]. cbn. rewrite dom_union. apply elem_of_union_l, elem_of_dom. by apply Hcd.
  - intros a Ha Hc. apply (Hf a Ha). apply cells_range in Hc. lia.
  - intros l xs a El Ha Hc. apply (Hf a); [by eapply dll_dom; [apply HL|]|]. apply cells_range in Hc. lia.
Qed.

Lemma wp_init_buckets t L p n (Q : unit -> hstate -> Prop) : lists_ok (links t) L ->
  (forall a, a ∈ cells p n -> a ∈ dom (links t) /\ a <> NULL) -> (forall l xs a, L !! l = Some xs -> a ∈ nodes l xs -> a ∉ cells p n) ->
  (forall u, lists_ok (links u) (bmap p (replicate n []) ∪ L) -> table u = table t -> dom (links u) = dom (links t) -> Q tt u) ->
  wp (for_from n 0 (fun i => lst_op (list_init (bucket p i)))) Q t.
Proof using All.
  intros HL Hcd Hout HQ.
  eapply wp_mono; [apply (wp_for_from (fun k u => exists j, k = Z.of_nat j /\ lists_ok (links u) (bmap p (replicate j []) ∪ L) /\
    table u = table t /\ dom (links u) = dom (links t)))|].
  - exists 0%nat. split; [done|]. cbn [replicate]. unfold bmap. cbn. by rewrite (left_id_L ∅ (∪)).
  - intros k u Hk (j & -> & Hl & Et & Ed). assert (Hj : (j < n)%nat) by lia.
    assert (Hc1 : bucket p (Z.of_nat j) ∈ cells p n) by (apply elem_of_cells; eauto).
    assert (Hc2 : bucket p (Z.of_nat j) + 8 ∈ cells p n) by (apply elem_of_cells; eauto).
    apply wp_lst_op. apply wp_list_init; [rewrite Ed; by apply Hcd|rewrite Ed; by apply Hcd|by apply Hcd|by apply Hcd|].
    intros h' Hd' HF. exists (S j). split; [lia|]. cbn [links set_links table]. split; [|split; [done|destruct HF as [E _]; by rewrite E, Ed]].
    rewrite replicate_S_end, bmap_snoc, length_replicate, <- insert_union_l. eapply lists_ok_add; [done..|].
    intros l2 xs2 a E2 Ha Ha'. unfold nodes, head, tail in Ha'. cbn in Ha'.
    assert (Hac : a = bucket p (Z.of_nat j) \/ a = bucket p (Z.of_nat j) + 8) by set_solver. clear Ha'.
    apply lookup_union_Some_raw in E2 as [E2|[_ E2]].
    + apply lookup_bmap in E2 as (i & -> & Hi). apply lookup_replicate in Hi as [-> Hi]. unfold nodes, head, tail in Ha. cbn in Ha.
      assert (a = bucket p (Z.of_nat i) \/ a = bucket p (Z.of_nat i) + 8) by set_solver. unfold bucket in *. lia.
    + eapply Hout; [exact E2|exact Ha|]. destruct Hac as [-> | ->]; done.
  - intros [] u (j & Hj & Hl & Et & Ed). replace j with n in Hl by lia. by apply HQ.
Qed.

(** ** Moving elements *)

(** Between the old array [op] and the new one [np]. *)
Record moving (u : hstate) (G : gmap Z (list Z)) (k np op : Z) (nbs obs : list (list Z)) : Prop := {
  mv_lists : lists_ok (links u) (bmap np nbs ∪ (bmap op obs ∪ G));
  mv_new : buckets (table u) = np /\ bucket_cnt (table u) = 2 ^ k /\ 2 <= k <= 27 /\ Z.of_nat (length nbs) = 2 ^ k;
  mv_apart : forall i j, (i < length nbs)%nat -> (j < length obs)%nat -> bucket np (Z.of_nat i) <> bucket op (Z.of_nat j);
  mv_place : placed (2 ^ k) nbs }.

Lemma mv_old u G k np op nbs obs i : moving u G k np op nbs obs -> (i < length obs)%nat ->
  (bmap np nbs ∪ (bmap op obs ∪ G)) !! bucket op (Z.of_nat i) = obs !! i /\ bmap np nbs !! bucket op (Z.of_nat i) = None.
Proof using All.
  intros Hm Hi. assert (E : bmap np nbs !! bucket op (Z.of_nat i) = None).
  { apply lookup_bmap_None. intros j Hj E. by destruct (mv_apart _ _ _ _ _ _ _ Hm j i Hj Hi). }
  split; [|done]. rewrite lookup_union_r by done. destruct (lookup_lt_is_Some_2 obs i Hi) as [xs Hx]. rewrite Hx.
  apply lookup_union_Some_l. by rewrite lookup_bmap_bucket.
Qed.

(** One element goes to the front of its new bucket. *)
Lemma wp_move_elem u G k np op nbs obs i x xs (Q : Z + unit -> hstate -> Prop) : moving u G k np op nbs obs -> obs !! i = Some (x :: xs) ->
  (forall v nbs', moving v G k np op nbs' (<[i := xs]> obs) -> concat nbs' ≡ₚ x :: concat nbs -> table v = table u ->
     dom (links v) = dom (links u) -> Q (inl (first (bucket op (Z.of_nat i)) xs)) v) ->
  wp (new_bucket ← find_bucket hash_fn x; next ← lst_op (list_next x); lst_op (list_remove x);;
      lst_op (list_push_front new_bucket x);; ret (inl next)) Q u.
Proof using All.
  intros Hm Hi HQ. pose proof (lookup_lt_Some _ _ _ Hi) as Hil. destruct (mv_old _ _ _ _ _ _ _ _ Hm Hil) as [El En].
  pose proof Hm as [HL (Enp & Ecnt & Hk & Hlen) Hap Hpl]. rewrite Hi in El. pose proof (lists_dll _ _ HL _ _ El) as Hd.
  set (F := bmap np nbs ∪ (bmap op obs ∪ G)) in *. set (old := bucket op (Z.of_nat i)) in *.
  apply wp_bind. eapply (wp_find_bucket u k); [done|done|]. rewrite Enp.
  apply wp_bind, wp_lst_op. eapply (wp_list_next _ _ [] x xs); [exact Hd|]. rewrite set_links_id.
  apply wp_bind, wp_lst_op. eapply (wp_lists_remove _ F HL old [] x xs); [done|]. intros h1 HL1 Ed1. cbn [app] in HL1.
  set (n := idx (2 ^ k) x). assert (Hn : (n < length nbs)%nat) by (unfold n, idx; pose proof (idx_bound k x ltac:(lia)); lia).
  destruct (lookup_lt_is_Some_2 nbs n Hn) as [ys Hy].
  assert (Eold : <[old := xs]> F = bmap np nbs ∪ (bmap op (<[i := xs]> obs) ∪ G)).
  { unfold F, old. rewrite insert_union_r by done. f_equal. by apply bmap_insert. }
  assert (Enew : (<[old := xs]> F) !! bucket np (Z.of_nat n) = Some ys).
  { rewrite Eold. apply lookup_union_Some_l. by rewrite lookup_bmap_bucket. }
  assert (Hxd : x ∈ dom (links u)) by (eapply dll_dom; [exact Hd|apply elem_nodes; left]).
  apply wp_bind, wp_lst_op. eapply (wp_lists_push_front _ _ _ ys x); [exact HL1|exact Enew|cbn; rewrite Ed1; done| | |].
  - eapply dll_not_null; [exact Hd|apply elem_nodes; left].
  - exact (removed_unlinked _ F old [] x xs HL El).
  - intros h2 HL2 Ed2. apply wp_ret. apply (HQ _ (<[n := x :: ys]> nbs)).
    + rewrite Eold, bmap_insert in HL2 by done. split; [exact HL2|by rewrite length_insert| |].
      * intros a b. rewrite !length_insert. apply Hap.
      * intros j zs z. destruct (decide (n = j)) as [<-|Hne].
        { rewrite list_lookup_insert_eq by done. intros [= <-] [->|Hz]%elem_of_cons; [done|by eapply Hpl]. }
        rewrite list_lookup_insert_ne by done. apply Hpl.
    + destruct (concat_split nbs n ys Hy) as (rest & E1 & E2). by rewrite E2, E1.
    + done.
    + cbn in Ed2 |- *. congruence.
Qed.

Lemma wp_move_bucket u G k np op nbs obs i xs (Q : unit -> hstate -> Prop) : moving u G k np op nbs obs -> obs !! i = Some xs ->
  (forall v nbs', moving v G k np op nbs' (<[i := []]> obs) -> concat nbs' ≡ₚ xs ++ concat nbs -> table v = table u ->
     dom (links v) = dom (links u) -> Q tt v) ->
  wp (move_bucket hash_fn (bucket op (Z.of_nat i))) Q u.
Proof using All.
  intros Hm Hi HQ. pose proof (lookup_lt_Some _ _ _ Hi) as Hil. destruct (mv_old _ _ _ _ _ _ _ _ Hm Hil) as [El _]. rewrite Hi in El.
  pose proof (lists_dll _ _ (mv_lists _ _ _ _ _ _ _ Hm) _ _ El) as Hd. set (old := bucket op (Z.of_nat i)) in *.
  pose proof (dll_fuel _ _ _ Hd) as Hf. unfold move_bucket. apply wp_bind, wp_lst_op. eapply wp_list_begin; [done|]. rewrite set_links_id.
  eapply (wp_hloop (fun n e v => exists zs nbs', n = length zs /\ e = first old zs /\ moving v G k np op nbs' (<[i := zs]> obs) /\
    concat nbs' ++ zs ≡ₚ xs ++ concat nbs /\ table v = table u /\ dom (links v) = dom (links u)) _ _ (length xs)); [| |lia].
  2:{ exists xs, nbs. split; [done|]. split; [done|]. split; [by rewrite list_insert_id|]. split; [|done]. apply Permutation_app_comm. }
  intros n e v (zs & nbs' & -> & -> & Hv & Hp & Et & Ed).
  assert (Hiv : (i < length (<[i := zs]> obs))%nat) by (by rewrite length_insert).
  destruct (mv_old _ _ _ _ _ _ _ _ Hv Hiv) as [Elv _]. rewrite list_lookup_insert_eq in Elv by done.
  pose proof (lists_dll _ _ (mv_lists _ _ _ _ _ _ _ Hv) _ _ Elv) as Hdv. fold old in Hdv.
  apply wp_bind, wp_lst_op. eapply wp_list_end; [exact Hdv|]. rewrite set_links_id, (first_tail_eqb _ _ [] zs Hdv).
  destruct zs as [|z zs]; cbn [first].
  - rewrite bool_decide_eq_true_2 by done. apply wp_ret. apply (HQ v nbs'); [done| |done|done]. by rewrite app_nil_r in Hp.
  - rewrite bool_decide_eq_false_2 by done. eapply (wp_move_elem v G k np op nbs' _ i z zs); [exact Hv|by apply list_lookup_insert_eq|].
    intros w nbs2 Hw Hpw Etw Edw. exists (length zs). split; [cbn; lia|]. exists zs, nbs2. split; [done|]. split; [done|].
    rewrite list_insert_insert_eq in Hw. split; [done|]. split; [|split; congruence]. rewrite Hpw, <- Hp. cbn. apply Permutation_middle.
Qed.

(** All old buckets, in order. *)
Lemma wp_move_buckets u G k np op nbs bs (Q : unit -> hstate -> Prop) : moving u G k np op nbs bs -> concat nbs = [] ->
  (forall v nbs', moving v G k np op nbs' (replicate (length bs) []) -> concat nbs' ≡ₚ concat bs -> table v = table u ->
     dom (links v) = dom (links u) -> Q tt v) ->
  wp (for_from (length bs) 0 (fun i => move_bucket hash_fn (bucket op i))) Q u.
Proof using All.
  intros Hm Hz HQ.
  eapply wp_mono; [apply (wp_for_from (fun j v => exists i nbs', j = Z.of_nat i /\ moving v G k np op nbs' (replicate i [] ++ drop i bs) /\
    concat nbs' ++ concat (drop i bs) ≡ₚ concat bs /\ table v = table u /\ dom (links v) = dom (links u)))|].
  - exists 0%nat, nbs. cbn [replicate]. rewrite drop_0, Hz. done.
  - intros j v Hj (i & nbs' & -> & Hv & Hp & Et & Ed). assert (Hi : (i < length bs)%nat) by lia.
    destruct (lookup_lt_is_Some_2 bs i Hi) as [xs Hx]. rewrite (drop_S _ _ _ Hx) in Hv, Hp.
    eapply wp_move_bucket; [exact Hv| |].
    { rewrite lookup_app_r by (rewrite length_replicate; lia). by rewrite length_replicate, Nat.sub_diag. }
    intros w nbs2 Hw Hpw Etw Edw. exists (S i), nbs2. split; [lia|]. split; [|split; [|split; congruence]].
    + rewrite insert_app_r_alt in Hw by (rewrite length_replicate; lia). rewrite length_replicate, Nat.sub_diag in Hw. cbn in Hw.
      rewrite replicate_S_end, <- app_assoc. exact Hw.
    + rewrite Hpw, <- Hp. cbn. rewrite <- app_assoc. apply Permutation_app_swap_app.
  - intros [] v (i & nbs' & Ei & Hv & Hp & Et & Ed). assert (i = length bs) as -> by lia. rewrite drop_all, app_nil_r in Hv, Hp.
    by apply (HQ v nbs').
Qed.

(** Memory that is in no list, where the caller may have an element. *)
Definition free_elem (s : hstate) (G : gmap Z (list Z)) (bs : list (list Z)) (e : Z) : Prop :=
  e ∈ dom (links s) /\ e <> NULL /\ unlinked e (bmap (buckets (table s)) bs ∪ G).

(** The old array is given back. *)
Lemma moved_lists v G k np op nbs n : moving v G k np op nbs (replicate n []) -> (forall i, (i < n)%nat -> G !! bucket op (Z.of_nat i) = None) ->
  lists_ok (filter (fun kv => kv.1 ∉ cells op n) (links v)) (bmap np nbs ∪ G).
Proof using All.
  intros Hm HG. pose proof (mv_lists _ _ _ _ _ _ _ Hm) as HL.
  assert (Hdj : bmap op (replicate n []) ##ₘ G).
  { apply map_disjoint_spec. intros l xs ys E1 E2. apply lookup_bmap in E1 as (i & -> & Hi). apply lookup_replicate in Hi as [_ Hi].
    by rewrite HG in E2. }
  assert (Hsub : bmap np nbs ∪ G ⊆ bmap np nbs ∪ (bmap op (replicate n []) ∪ G)).
  { apply map_union_mono_l. by apply map_union_subseteq_r. }
  apply lists_ok_filter; [by eapply lists_ok_sub|]. intros l xs a e El Ha Hc. cbn in Hc. apply elem_of_cells in Hc as (i & Hi & Hai).
  assert (Hil : (i < length (replicate n ([] : list Z)))%nat) by (by rewrite length_replicate).
  destruct (mv_old _ _ _ _ _ _ _ _ Hm Hil) as [Eo En]. rewrite lookup_replicate_2 in Eo by done.
  assert (Hn : a ∈ nodes (bucket op (Z.of_nat i)) []) by (apply elem_of_nodes; unfold head, tail; tauto).
  assert (l = bucket op (Z.of_nat i)) as ->.
  { eapply (lists_disj _ _ HL); [by eapply lookup_weaken|exact Eo|exact Ha|exact Hn]. }
  apply lookup_union_Some_raw in El as [El|[_ El]]; [congruence|]. by rewrite HG in El.
Qed.

Lemma moved_free s v G bs nbs np e : free_elem s G bs e -> (forall i, (i < length bs)%nat -> G !! bucket (buckets (table s)) (Z.of_nat i) = None) ->
  e ∈ dom (links v) -> buckets (table v) = np -> e ∉ cells np (length nbs) -> concat nbs ≡ₚ concat bs ->
  free_elem (set_links (filter (fun kv => kv.1 ∉ cells (buckets (table s)) (length bs)) (links v)) v) G nbs e.
Proof using All.
  intros (He & Hn & Hu) HG Hv Enp Hc Hp. split; [|split; [done|]].
  - cbn. apply elem_of_dom in Hv as [y Hy]. apply elem_of_dom. exists y. apply map_lookup_filter_Some. split; [done|]. cbn.
    intros (i & Hi & Hei)%elem_of_cells. destruct (lookup_lt_is_Some_2 bs i Hi) as [xs Hx].
    apply (Hu (bucket (buckets (table s)) (Z.of_nat i)) xs); [apply lookup_union_Some_l; by rewrite lookup_bmap_bucket|].
    apply elem_of_nodes. unfold head, tail. tauto.
  - cbn. rewrite Enp. intros l xs El Ha. apply lookup_union_Some_raw in El as [El|[_ El]].
    + apply lookup_bmap in El as (i & -> & Hi). pose proof (lookup_lt_Some _ _ _ Hi) as Hil.
      apply elem_of_nodes in Ha. unfold head, tail in Ha. destruct Ha as [Ha|[Ha|Ha]]; [apply Hc, elem_of_cells; eauto| |apply Hc, elem_of_cells; eauto].
      assert (Hin : e ∈ concat bs) by (rewrite <- Hp; apply elem_of_concat; eauto using list_elem_of_lookup_2).
      apply elem_of_concat in Hin as (ys & Hy & Hyb). apply list_elem_of_lookup in Hyb as [j Hj].
      apply (Hu (bucket (buckets (table s)) (Z.of_nat j)) ys); [|by apply elem_nodes].
      apply lookup_union_Some_l. by rewrite lookup_bmap_bucket.
    + apply (Hu l xs); [|done]. apply lookup_union_Some_raw. right. split; [|done]. apply lookup_bmap_None. intros i Hi ->. by rewrite HG in El.
Qed.

Lemma wp_rehash s G bs (Q : unit -> hstate -> Prop) : table_ok s G bs ->
  (forall t bs', table_ok t G bs' -> concat bs' ≡ₚ concat bs -> (forall e, free_elem s G bs e -> free_elem t G bs' e) -> Q tt t) ->
  wp (rehash hash_fn) Q s.
Proof using All.
  intros [HL Hap (k0 & Hk0 & Ek0) Hlen Hpl Hcnt Hmax Hu] HQ. unfold rehash. apply wp_bind. red. cbn [gets].
  apply wp_bind. apply wp_ideal_bucket_cnt; [lia|]. intros k Hk.
  destruct (Z.eqb_spec (2 ^ k) (bucket_cnt (table s))) as [E|Hne]; [apply wp_ret, (HQ s bs); [split; eauto|done|done]|].
  assert (Hk1 : 0 < 2 ^ k <= 2 ^ 27) by (split; [apply Z.pow_pos_nonneg; lia|apply Z.pow_le_mono_r; lia]).
  set (op := buckets (table s)) in *. apply wp_bind. apply (wp_malloc_buckets s (bmap op bs ∪ G)); [done|lia| |].
  { rewrite Z.eqb_refl. apply wp_ret, (HQ _ bs); [split; eauto|done|done]. }
  intros np t Hna. destruct Hna as [Hp HLt Et Hold Hcd Hfr Hout]. rewrite (proj2 (Z.eqb_neq np NULL)) by (unfold NULL; lia).
  apply wp_bind. eapply wp_init_buckets; [exact HLt|exact Hcd|exact Hout|]. intros u HLu Etu Edu. apply wp_bind. red. cbn [modify].
  assert (Hin : forall l xs i, (bmap op bs ∪ G) !! l = Some xs -> (i < Z.to_nat (2 ^ k))%nat -> bucket np (Z.of_nat i) <> l).
  { intros l xs i El Hi <-. apply (Hout _ _ (bucket np (Z.of_nat i)) El); [apply elem_of_nodes; by left|]. apply elem_of_cells. eauto. }
  set (u' := set_table _ u).
  assert (Hm : moving u' G k np op (replicate (Z.to_nat (2 ^ k)) []) bs).
  { split; [exact HLu|cbn; rewrite length_replicate; split_and!; lia| |].
    - rewrite length_replicate. intros i j Hi Hj. destruct (lookup_lt_is_Some_2 bs j Hj) as [xs Hx].
      apply (Hin _ xs); [|done]. apply lookup_union_Some_l. by rewrite lookup_bmap_bucket.
    - intros i xs x Hi. apply lookup_replicate in Hi as [-> _]. intros Hx%elem_of_nil. done. }
  apply wp_bind. replace (Z.to_nat (bucket_cnt (table s))) with (length bs) by lia.
  eapply wp_move_buckets; [exact Hm|clear; by induction (Z.to_nat (2 ^ k))|]. intros v nbs Hv Hpm Etv Edv. red. unfold free_buckets. cbn [modify].
  apply (HQ _ nbs); [|done|]; cycle 1.
  { intros e He. pose proof Hv as [_ (E1 & E2 & _ & E3) _ _]. replace (Z.to_nat (bucket_cnt (table s))) with (length bs) by lia.
    eapply (moved_free s); [exact He|exact Hap|rewrite Edv; cbn; rewrite Edu; apply Hold, He|exact E1| |by rewrite Hpm].
    replace (length nbs) with (Z.to_nat (2 ^ k)) by lia. apply Hfr, He. }
  pose proof Hv as [_ (E1 & E2 & _ & E3) _ Hplv].
  split; cbn [links set_links table]; rewrite ?E1, ?E2; try done.
  - replace (Z.to_nat (bucket_cnt (table s))) with (length bs) by lia. by apply (moved_lists v G k).
  - intros i Hi. destruct (G !! bucket np (Z.of_nat i)) as [xs|] eqn:EG; [|done].
    destruct (lookup_union_is_Some (bmap op bs) G (bucket np (Z.of_nat i))) as [_ [ys Hys]]; [right; eauto|].
    destruct (Hin _ ys i Hys); [lia|done].
  - exists k. lia.
  - rewrite Etv. cbn [u' set_table table elem_cnt]. rewrite Etu, Et, Hcnt. by rewrite Hpm.
  - rewrite Etv. cbn [u' set_table table elem_cnt]. by rewrite Etu, Et.
  - intros x y. rewrite Hpm. apply Hu.
Qed.
End Table.
