(* ===== verification/HashProps.v ===== *)
(** * Hash tables: correctness

    The effect of each function, and then the refinement of finite sets. *)

From Stdlib Require Import ZArith Lia.
From stdpp Require Import base numbers gmap list.
From S2P Require Import Prelude DList Kernel Bytes Hash HashSpec.

Open Scope Z_scope.

(** * Hash tables: the effect of the operations

    Finding the bucket of an element, inserting and removing, clearing,
    creating and destroying a table, and visiting its elements, by callback or
    with an iterator. *)

Section Operations.
Context `{!Blocks} (hash_fn : Z -> Z) (less : Z -> Z -> bool) (Hh : hashing hash_fn less).
Abbreviation table_ok := (table_ok hash_fn less).
Abbreviation equal := (equal less).
Abbreviation idx := (idx hash_fn).

(** ** The bucket of an element *)

Lemma tb_idx s G bs e : table_ok s G bs -> exists xs, bs !! idx (bucket_cnt (table s)) e = Some xs.
Proof using All.
  intros Ht. destruct (tb_pow _ _ _ _ _ Ht) as (k & Hk & Ek). pose proof (tb_len _ _ _ _ _ Ht) as Hl.
  apply lookup_lt_is_Some. rewrite Ek in *. unfold HashSpec.idx. pose proof (idx_bound hash_fn less Hh k e ltac:(lia)). lia.
Qed.

Lemma tb_list s G bs i xs : bs !! i = Some xs -> (bmap (buckets (table s)) bs ∪ G) !! bucket (buckets (table s)) (Z.of_nat i) = Some xs.
Proof using All. intros E. apply lookup_union_Some_l. by rewrite lookup_bmap_bucket. Qed.

(** An equal element is in the same bucket. *)
Lemma tb_equal s G bs e x : table_ok s G bs -> x ∈ concat bs -> equal x e = true ->
  exists xs, bs !! idx (bucket_cnt (table s)) e = Some xs /\ x ∈ xs.
Proof using All.
  intros Ht (i & xs & Hi & Hx)%elem_of_buckets He. pose proof (tb_place _ _ _ _ _ Ht i xs x Hi Hx) as E.
  exists xs. split; [|done]. rewrite <- Hi, <- E. f_equal. unfold HashSpec.idx. by rewrite (hs_hash _ _ Hh x e He).
Qed.

Lemma wp_hash_lookup {A} s G bs e (k : Z -> Z -> M hstate A) (Q : A -> hstate -> Prop) : table_ok s G bs ->
  (forall i xs, bs !! i = Some xs -> i = idx (bucket_cnt (table s)) e ->
     (forall x, x ∈ xs -> equal x e = true -> x <> NULL -> wp (k (bucket (buckets (table s)) (Z.of_nat i)) x) Q s) /\
     ((forall x, x ∈ concat bs -> equal x e = false) -> wp (k (bucket (buckets (table s)) (Z.of_nat i)) NULL) Q s)) ->
  wp (b ← find_bucket hash_fn e; r ← find_elem less b e; k b r) Q s.
Proof using All.
  intros Ht HQ. destruct (tb_pow _ _ _ _ _ Ht) as (p & Hp & Ep). destruct (tb_idx s G bs e Ht) as [xs Hx].
  destruct (HQ _ xs Hx eq_refl) as [H1 H2]. rewrite Ep in *.
  apply wp_bind. eapply (wp_find_bucket hash_fn less Hh); [done|done|]. apply wp_bind.
  eapply (wp_find_elem hash_fn less Hh); [apply Ht|by apply tb_list|exact H1|].
  intros Hn. apply H2. intros x Hin. destruct (equal x e) eqn:E; [|done].
  destruct (tb_equal _ _ _ _ _ Ht Hin E) as (ys & Hy & Hxy). rewrite Ep in Hy. rewrite Hx in Hy. injection Hy as <-.
  by rewrite Hn in E.
Qed.

(** ** Changing one bucket *)

(** The table with other elements in bucket [i]. *)
Lemma table_change s G bs i xs ys h c : table_ok s G bs -> bs !! i = Some xs ->
  lists_ok h (<[bucket (buckets (table s)) (Z.of_nat i) := ys]> (bmap (buckets (table s)) bs ∪ G)) ->
  c + Z.of_nat (length xs) = elem_cnt (table s) + Z.of_nat (length ys) -> c < 2 ^ 28 ->
  (forall y, y ∈ ys -> idx (bucket_cnt (table s)) y = i) ->
  (forall x y, x ∈ concat (<[i := ys]> bs) -> y ∈ concat (<[i := ys]> bs) -> equal x y = true -> x = y) ->
  table_ok (mk_hstate h (calls s) (mk_hash c (bucket_cnt (table s)) (buckets (table s)))) G (<[i := ys]> bs).
Proof using All.
  intros [HL Hap Hpow Hlen Hpl Hcnt Hmax Hu] Hi HLh Hc Hm Hys Huq. pose proof (lookup_lt_Some _ _ _ Hi) as Hil.
  rewrite bmap_insert in HLh by done. split; cbn; rewrite ?length_insert; try done.
  - intros j zs z. destruct (decide (i = j)) as [<-|Hne].
    + rewrite list_lookup_insert_eq by done. intros [= <-]. apply Hys.
    + rewrite list_lookup_insert_ne by done. apply Hpl.
  - destruct (concat_split bs i xs Hi) as (rest & E1 & E2). rewrite E2, length_app. rewrite E1, length_app in Hcnt. lia.
Qed.

Lemma wp_insert_elem s G bs i xs e (Q : unit -> hstate -> Prop) : table_ok s G bs -> free_elem s G bs e -> bs !! i = Some xs ->
  i = idx (bucket_cnt (table s)) e -> (forall x, x ∈ concat bs -> equal x e = false) -> elem_cnt (table s) + 1 < 2 ^ 28 ->
  (forall t bs', table_ok t G bs' -> concat bs' ≡ₚ e :: concat bs -> (forall x, x <> e -> free_elem s G bs x -> free_elem t G bs' x) ->
     Q tt t) ->
  wp (insert_elem (bucket (buckets (table s)) (Z.of_nat i)) e) Q s.
Proof using All.
  intros Ht (He & Hnull & Hun) Hi Ei Hne Hc HQ. unfold insert_elem. apply wp_bind. red. cbn [modify].
  pose proof (tb_cnt _ _ _ _ _ Ht) as Hcnt. rewrite uwrap_small by (unfold in_u; lia).
  apply (wp_lst_op hash_fn less Hh). eapply (wp_lists_push_front _ _ _ xs e); [apply Ht|by apply tb_list|done..|].
  intros h' HL' Ed. destruct (concat_split bs i xs Hi) as (rest & E1 & E2).
  assert (Ep : concat (<[i := e :: xs]> bs) ≡ₚ e :: concat bs) by (by rewrite E2, E1).
  apply (HQ _ (<[i := e :: xs]> bs)); [|done|].
  - apply (table_change s G bs i _ _ h' _ Ht Hi HL'); [cbn; lia|done| |].
    + intros y [->|Hy]%elem_of_cons; [done|]. by eapply (tb_place _ _ _ _ _ Ht).
    + intros x y. rewrite Ep, !elem_of_cons. intros [->|Hx] [->|Hy] E; [done| | |by eapply (tb_uniq _ _ _ _ _ Ht)].
      * rewrite (equal_sym hash_fn less Hh), Hne in E; done.
      * rewrite Hne in E; done.
  - intros x Hx (Hx1 & Hx2 & Hx3). split; [cbn; rewrite Ed; done|]. split; [done|]. cbn.
    rewrite <- bmap_insert by (by eapply lookup_lt_Some). intros l ys. rewrite lookup_insert_Some. intros [[<- <-]|[_ El]]; [|by apply Hx3].
    rewrite elem_of_nodes, elem_of_cons. pose proof (Hx3 _ _ (tb_list s G bs i xs Hi)) as Hn. rewrite elem_of_nodes in Hn. tauto.
Qed.

Lemma wp_remove_elem s G bs i xs x (Q : unit -> hstate -> Prop) : table_ok s G bs -> bs !! i = Some xs -> x ∈ xs ->
  (forall t bs' ys, table_ok t G bs' -> concat bs ≡ₚ x :: concat bs' -> free_elem t G bs' x ->
     (forall y, free_elem s G bs y -> free_elem t G bs' y) -> bs' !! i = Some ys -> bucket_cnt (table t) = bucket_cnt (table s) ->
     buckets (table t) = buckets (table s) -> Q tt t) ->
  wp (remove_elem x) Q s.
Proof using All.
  intros Ht Hi Hx HQ. apply list_elem_of_split in Hx as (xs1 & xs2 & ->). pose proof (tb_list s G bs i _ Hi) as El.
  pose proof (lists_dll _ _ (tb_lists _ _ _ _ _ Ht) _ _ El) as Hd. pose proof (lookup_lt_Some _ _ _ Hi) as Hil.
  destruct (concat_split bs i _ Hi) as (rest & E1 & E2). pose proof (tb_cnt _ _ _ _ _ Ht) as Hcnt. pose proof (tb_max _ _ _ _ _ Ht) as Hmax.
  assert (Ep : concat bs ≡ₚ x :: concat (<[i := xs1 ++ xs2]> bs)) by (rewrite E2, E1, <- !app_assoc; symmetry; apply Permutation_middle).
  unfold remove_elem. apply wp_bind. red. cbn [modify]. rewrite Ep in Hcnt. cbn in Hcnt. rewrite uwrap_small by (unfold in_u; lia).
  apply wp_bind, (wp_lst_op hash_fn less Hh). eapply (wp_lists_remove _ _ (tb_lists _ _ _ _ _ Ht) _ xs1 x xs2); [done|].
  intros h' HL' Ed. apply wp_ret.
  assert (Hfr : forall y, y ∈ dom (links s) -> y <> NULL -> unlinked y (<[bucket (buckets (table s)) (Z.of_nat i) := xs1 ++ xs2]> (bmap (buckets (table s)) bs ∪ G)) ->
    free_elem (mk_hstate h' (calls s) (mk_hash (elem_cnt (table s) - 1) (bucket_cnt (table s)) (buckets (table s)))) G (<[i := xs1 ++ xs2]> bs) y).
  { intros y Hy Hny Huy. split; [cbn; rewrite Ed; done|]. split; [done|]. cbn. by rewrite <- bmap_insert. }
  apply (HQ _ (<[i := xs1 ++ xs2]> bs) (xs1 ++ xs2)); [|done| | |by apply list_lookup_insert_eq|done|done].
  - apply (table_change s G bs i _ _ h' _ Ht Hi HL'); [rewrite !length_app; cbn; lia|lia| |].
    + intros y Hy. eapply (tb_place _ _ _ _ _ Ht); [exact Hi|]. set_solver.
    + intros a b Ha Hb. apply (tb_uniq _ _ _ _ _ Ht); rewrite Ep; by right.
  - apply Hfr; [eapply dll_dom; [exact Hd|apply elem_nodes; set_solver]|eapply dll_not_null; [exact Hd|apply elem_nodes; set_solver]|].
    eapply removed_unlinked; [apply Ht|done].
  - intros y (Hy1 & Hy2 & Hy3). apply Hfr; [done..|]. intros l zs. rewrite lookup_insert_Some. intros [[<- <-]|[_ Ez]]; [|by apply Hy3].
    pose proof (Hy3 _ _ El) as Hn. rewrite elem_of_nodes in *. set_solver.
Qed.

(** ** Clearing *)

Lemma wp_collect_from (P : Z -> list Z -> hstate -> Prop) body n : forall i acc s, P i acc s ->
  (forall j acc t, i <= j < i + Z.of_nat n -> P j acc t -> wp (body j) (fun l u => P (j + 1) (acc ++ l) u) t) ->
  wp (collect_from n i body) (fun r t => P (i + Z.of_nat n) (acc ++ r) t) s.
Proof using All.
  induction n as [|n IH]; intros i acc s HP Hb; cbn [collect_from].
  - apply wp_ret. rewrite app_nil_r. by replace (i + Z.of_nat 0) with i by lia.
  - apply wp_bind. eapply wp_mono; [apply Hb; [lia|exact HP]|]. intros l t Hl. cbn in Hl. apply wp_bind.
    eapply wp_mono; [apply (IH (i + 1) (acc ++ l) t Hl)|].
    + intros j a u Hj. apply Hb. lia.
    + intros r u Hr. apply wp_ret. rewrite app_assoc. by replace (i + Z.of_nat (S n)) with (i + 1 + Z.of_nat n) by lia.
Qed.

(** A loop that collects nothing. *)
Lemma wp_collect_none body n (Q : list Z -> hstate -> Prop) : forall i s, wp (for_from n i body) (fun _ t => Q [] t) s ->
  wp (collect_from n i (fun j => l ← ret []; body j;; ret l)) Q s.
Proof using All.
  induction n as [|n IH]; intros i s Hw; cbn [collect_from for_from] in *; [exact Hw|].
  apply wp_bind, wp_bind, wp_ret, wp_bind. apply wp_bind_iff in Hw. eapply wp_mono; [exact Hw|]. intros [] t Ht. cbn in Ht.
  apply wp_ret, wp_bind. apply IH. eapply wp_mono; [exact Ht|]. intros [] u Hu. by apply wp_ret.
Qed.

Lemma apart_cells s G bs l xs a : table_ok s G bs -> G !! l = Some xs -> a ∈ nodes l xs -> a ∉ cells (buckets (table s)) (length bs).
Proof using All.
  intros Ht El Ha (i & Hi & Hai)%elem_of_cells. destruct (lookup_lt_is_Some_2 bs i Hi) as [ys Hy].
  assert (El' : (bmap (buckets (table s)) bs ∪ G) !! l = Some xs).
  { apply lookup_union_Some_raw. right. split; [|done]. apply lookup_bmap_None. intros j Hj ->. by rewrite (tb_apart _ _ _ _ _ Ht) in El. }
  assert (l = bucket (buckets (table s)) (Z.of_nat i)) as ->.
  { eapply (lists_disj _ _ (tb_lists _ _ _ _ _ Ht)); [exact El'|by apply tb_list|exact Ha|]. apply elem_of_nodes. unfold head, tail. tauto. }
  by rewrite (tb_apart _ _ _ _ _ Ht) in El.
Qed.

Lemma tb_rest s G bs : table_ok s G bs -> G ⊆ bmap (buckets (table s)) bs ∪ G.
Proof using All.
  intros Ht. apply map_union_subseteq_r, map_disjoint_spec. intros l xs ys E1 E2. apply lookup_bmap in E1 as (i & -> & Hi).
  by rewrite (tb_apart _ _ _ _ _ Ht) in E2 by (by eapply lookup_lt_Some).
Qed.

(** A table with empty buckets. *)
Lemma table_empty u G p k : 2 <= k <= 27 -> lists_ok (links u) (bmap p (replicate (Z.to_nat (2 ^ k)) []) ∪ G) ->
  (forall i, (i < Z.to_nat (2 ^ k))%nat -> G !! bucket p (Z.of_nat i) = None) ->
  table_ok (set_table (mk_hash 0 (2 ^ k) p) u) G (replicate (Z.to_nat (2 ^ k)) []).
Proof using All.
  intros Hk HL Hap. assert (0 < 2 ^ k) by (apply Z.pow_pos_nonneg; lia).
  assert (E : forall n, concat (replicate n ([] : list Z)) = []) by (by induction n).
  split; cbn; rewrite ?length_replicate, ?E; try done; try lia.
  - exists k. lia.
  - intros i xs x Hi. apply lookup_replicate in Hi as [-> _]. intros Hx%elem_of_nil. done.
  - intros x y Hx%elem_of_nil. done.
Qed.

Lemma emptied_unlinked p n G x : x ∉ cells p n -> unlinked x G -> unlinked x (bmap p (replicate n []) ∪ G).
Proof using All.
  intros Hc Hu l xs El. apply lookup_union_Some_raw in El as [El|[_ El]]; [|by apply Hu].
  apply lookup_bmap in El as (i & -> & Hi). apply lookup_replicate in Hi as [-> Hi]. rewrite elem_of_nodes. unfold head, tail.
  intros Hn. apply Hc, elem_of_cells. set_solver.
Qed.

(** What was in the table is the caller's. *)
Lemma emptied_free s t G bs x : table_ok s G bs -> dom (links t) = dom (links s) -> buckets (table t) = buckets (table s) ->
  (x ∈ concat bs \/ free_elem s G bs x) -> free_elem t G (replicate (length bs) []) x.
Proof using All.
  intros Ht Ed Eb Hx. pose proof (tb_lists _ _ _ _ _ Ht) as HL. unfold free_elem. rewrite Ed, Eb.
  cut (x ∈ dom (links s) /\ x <> NULL /\ (x ∉ cells (buckets (table s)) (length bs)) /\ unlinked x G).
  { intros (? & ? & ? & ?). split_and!; auto using emptied_unlinked. }
  destruct Hx as [(i & xs & Hi & Hx)%elem_of_buckets|(Hx1 & Hx2 & Hx3)].
  - pose proof (tb_list s G bs i xs Hi) as El. pose proof (elem_nodes (bucket (buckets (table s)) (Z.of_nat i)) xs x Hx) as Hn.
    pose proof (lists_dll _ _ HL _ _ El) as Hd. split_and!; [by eapply dll_dom|by eapply dll_not_null| |].
    + intros (j & Hj & Hxj)%elem_of_cells. destruct (lookup_lt_is_Some_2 bs j Hj) as [ys Hy].
      assert (Eij : bucket (buckets (table s)) (Z.of_nat i) = bucket (buckets (table s)) (Z.of_nat j)).
      { eapply (lists_disj _ _ HL); [exact El|by apply tb_list|exact Hn|]. apply elem_of_nodes. unfold head, tail. tauto. }
      rewrite <- Eij in Hxj. apply list_elem_of_split in Hx as (xs1 & xs2 & ->). pose proof (dll_nodup _ _ _ Hd) as Hnd.
      apply nodup_insert in Hnd as [Hnd _]. apply Hnd, elem_of_nodes. unfold head, tail. tauto.
    + intros l ys El2 Ha. assert (El' := lookup_weaken _ _ _ _ El2 (tb_rest _ _ _ Ht)).
      assert (l = bucket (buckets (table s)) (Z.of_nat i)) as -> by (by eapply (lists_disj _ _ HL)).
      rewrite (tb_apart _ _ _ _ _ Ht) in El2; [done|by eapply lookup_lt_Some].
  - split_and!; [done..| |].
    + intros (j & Hj & Hxj)%elem_of_cells. destruct (lookup_lt_is_Some_2 bs j Hj) as [ys Hy].
      apply (Hx3 _ _ (tb_list s G bs j ys Hy)), elem_of_nodes. unfold head, tail. tauto.
    + intros l ys El2. apply Hx3. by eapply lookup_weaken; [|apply (tb_rest _ _ _ Ht)].
Qed.

(** [u] has the buckets [obs] of array [p]; other memory is as in [s]. *)
Record emptying (s u : hstate) (G : gmap Z (list Z)) (p : Z) (obs : list (list Z)) : Prop := {
  em_lists : lists_ok (links u) (bmap p obs ∪ G);
  em_table : table u = table s;
  em_dom : dom (links u) = dom (links s) }.

Lemma em_list s u G p obs j xs : emptying s u G p obs -> obs !! j = Some xs -> (bmap p obs ∪ G) !! bucket p (Z.of_nat j) = Some xs.
Proof using All. intros He Hj. apply lookup_union_Some_l. by rewrite lookup_bmap_bucket. Qed.

(** The elements leave a bucket in order. *)
Lemma wp_drain s u G p obs j xs (Q : list Z -> hstate -> Prop) : emptying s u G p obs -> obs !! j = Some xs ->
  (forall v, emptying s v G p (<[j := []]> obs) -> Q xs v) -> wp (drain (bucket p (Z.of_nat j))) Q u.
Proof using All.
  intros He Hj HQ. pose proof (em_list _ _ _ _ _ _ _ He Hj) as El. pose proof (lookup_lt_Some _ _ _ Hj) as Hjl.
  pose proof (dll_fuel _ _ _ (lists_dll _ _ (em_lists _ _ _ _ _ He) _ _ El)) as Hf. unfold drain.
  eapply ((wp_hloop hash_fn less Hh) (fun n acc v => exists zs, n = length zs /\ xs = acc ++ zs /\ emptying s v G p (<[j := zs]> obs)) _ _ (length xs)); [| |lia].
  2:{ exists xs. split; [done|]. split; [done|]. by rewrite list_insert_id. }
  intros n acc v (zs & -> & Exs & Hv). assert (Hz : <[j := zs]> obs !! j = Some zs) by (by apply list_lookup_insert_eq).
  pose proof (em_list _ _ _ _ _ _ _ Hv Hz) as Elv. pose proof Hv as [HLv Etv Edv].
  apply wp_bind, (wp_lst_op hash_fn less Hh). eapply (wp_lists_empty _ _ HLv); [exact Elv|]. rewrite (set_links_id hash_fn less Hh).
  destruct zs as [|z zs]; cbn [bool_decide negb].
  - rewrite bool_decide_eq_true_2 by done. apply wp_ret. rewrite app_nil_r in Exs. subst acc. by apply HQ.
  - rewrite bool_decide_eq_false_2 by done. apply wp_bind, (wp_lst_op hash_fn less Hh).
    eapply (wp_lists_pop_front _ _ HLv); [exact Elv|]. intros h' HL' Ed. apply wp_ret. exists (length zs). split; [cbn; lia|].
    exists zs. split; [done|]. split; [by rewrite <- app_assoc|].
    rewrite bmap_insert, list_insert_insert_eq in HL' by (by rewrite length_insert). split; [exact HL'|done|cbn; by rewrite Ed].
Qed.

(** list_init() on a bucket that is empty. *)
Lemma wp_reinit s u G p obs j (Q : unit -> hstate -> Prop) : emptying s u G p obs -> obs !! j = Some [] ->
  (forall v, emptying s v G p obs -> Q tt v) -> wp (lst_op (list_init (bucket p (Z.of_nat j)))) Q u.
Proof using All.
  intros He Hj HQ. pose proof (em_list _ _ _ _ _ _ _ He Hj) as El. destruct He as [HL Et Ed]. pose proof (lists_dll _ _ HL _ _ El) as Hd.
  apply (wp_lst_op hash_fn less Hh). assert (Hh' : forall a, a ∈ nodes (bucket p (Z.of_nat j)) [] -> a ∈ dom (links u) /\ a <> NULL).
  { intros a Ha. split; [by eapply dll_dom|by eapply dll_not_null]. }
  apply wp_list_init; [apply Hh', elem_of_nodes; tauto|apply Hh', elem_of_nodes; tauto|apply Hh', elem_of_nodes; tauto|apply Hh', elem_of_nodes; tauto|].
  intros h' Hd' HF. apply HQ. split; [|done|cbn; by rewrite (proj1 HF)].
  rewrite <- (insert_id _ _ _ El). eapply lists_ok_change; [exact HL|exact El|exact Hd'|exact HF|].
  intros l2 xs2 a E2 Hne Ha. by eapply (lists_other _ _ HL).
Qed.

Lemma table_cleared s t G bs : table_ok s G bs -> emptying s t G (buckets (table s)) (replicate (length bs) []) ->
  table_ok (set_table (mk_hash 0 (bucket_cnt (table t)) (buckets (table t))) t) G (replicate (length bs) []).
Proof using All.
  intros Ht [HL Et Ed]. pose proof Ht as [_ Hap (k & Hk & Ek) Hlen _ _ _ _]. rewrite Et, Ek.
  replace (length bs) with (Z.to_nat (2 ^ k)) in * by lia. by apply table_empty.
Qed.

Lemma wp_hash_clear s G bs d (Q : list Z -> hstate -> Prop) : table_ok s G bs ->
  (forall t, table_ok t G (replicate (length bs) []) -> dom (links t) = dom (links s) -> buckets (table t) = buckets (table s) ->
     Q (if d : bool then concat bs else []) t) -> wp (hash_clear d) Q s.
Proof using All.
  intros Ht HQ. unfold hash_clear. apply wp_bind. red. cbn [gets]. apply wp_bind. set (p := buckets (table s)).
  replace (Z.to_nat (bucket_cnt (table s))) with (length bs) by (pose proof (tb_len _ _ _ _ _ Ht); lia).
  cut (forall t, emptying s t G p (replicate (length bs) []) ->
    wp (modify (fun s => set_table (mk_hash 0 (bucket_cnt (table s)) (buckets (table s))) s);; ret (if d then concat bs else [])) Q t).
  2:{ intros t He. apply wp_bind. red. cbn [modify]. apply wp_ret, HQ; [by apply (table_cleared s)|apply He|cbn; by rewrite (em_table _ _ _ _ _ He)]. }
  intros Hk. destruct d; cbn zeta.
  - eapply wp_mono; [apply (wp_collect_from (fun j acc u => exists i, j = Z.of_nat i /\ acc = concat (take i bs) /\
      emptying s u G p (replicate i [] ++ drop i bs)) _ _ 0 [])|].
    + exists 0%nat. rewrite drop_0. split; [done|]. split; [done|]. split; [apply Ht|done|done].
    + intros j acc u Hj (i & -> & -> & He). assert (Hi : (i < length bs)%nat) by lia. destruct (lookup_lt_is_Some_2 bs i Hi) as [xs Hx].
      rewrite (drop_S _ _ _ Hx) in He. assert (E : forall zs ys, <[i := zs]> (replicate i [] ++ ys :: drop (S i) bs) = replicate i [] ++ zs :: drop (S i) bs).
      { intros zs ys. rewrite insert_app_r_alt by (rewrite length_replicate; lia). by rewrite length_replicate, Nat.sub_diag. }
      assert (El : forall ys, (replicate i [] ++ ys :: drop (S i) bs) !! i = Some ys).
      { intros ys. rewrite lookup_app_r by (rewrite length_replicate; lia). by rewrite length_replicate, Nat.sub_diag. }
      apply wp_bind. eapply (wp_drain s); [exact He|apply El|]. rewrite E. intros v Hv. apply wp_bind.
      eapply (wp_reinit s); [exact Hv|apply El|]. intros w Hw. apply wp_ret. exists (S i). split; [lia|].
      split; [rewrite (take_S_r _ _ _ Hx), concat_app; cbn; by rewrite app_nil_r|]. by rewrite replicate_S_end, <- app_assoc.
    + intros r t (i & Ei & Er & He). cbn [app] in Er. subst r. assert (i = length bs) as -> by lia. rewrite drop_all, app_nil_r in He. rewrite firstn_all.
      apply (Hk t He).
  - apply wp_collect_none. apply (wp_init_buckets hash_fn less Hh _ G); [eapply lists_ok_sub; [by apply (tb_rest _ _ _ Ht)|apply Ht]| | |].
    + intros a (i & Hi & Ha)%elem_of_cells. destruct (lookup_lt_is_Some_2 bs i Hi) as [xs Hx].
      pose proof (lists_dll _ _ (tb_lists _ _ _ _ _ Ht) _ _ (tb_list s G bs i xs Hx)) as Hd.
      assert (Hn : a ∈ nodes (bucket (buckets (table s)) (Z.of_nat i)) xs) by (apply elem_of_nodes; unfold head, tail; tauto).
      split; [by eapply dll_dom|by eapply dll_not_null].
    + intros l xs a. by apply apart_cells.
    + intros u HLu Etu Edu. apply Hk. by split.
Qed.

(** ** Creating and destroying *)

Lemma wp_hash_init s G (Q : bool -> hstate -> Prop) : lists_ok (links s) G ->
  (forall t, links t = links s -> Q false t) ->
  (forall t, table_ok t G (replicate 4 []) ->
     (forall e, e ∈ dom (links s) -> e <> NULL -> unlinked e G -> free_elem t G (replicate 4 []) e) -> Q true t) ->
  wp hash_init Q s.
Proof using All.
  intros HL H0 H1. unfold hash_init. apply wp_bind. red. cbn [modify]. apply wp_bind.
  apply (wp_malloc_buckets hash_fn less Hh _ G); [exact HL|lia| |].
  { apply wp_bind. red. cbn [modify]. rewrite Z.eqb_refl. cbn [negb]. apply wp_ret. by apply H0. }
  intros p t [Hp HLt Et Hold Hcd Hfr Hout]. apply wp_bind. red. cbn [modify]. rewrite (proj2 (Z.eqb_neq p NULL)) by (unfold NULL; lia). cbn [negb].
  apply wp_bind. unfold hash_clear. apply wp_bind. red. cbn [gets]. cbn [table set_table bucket_cnt buckets].
  apply wp_bind, wp_collect_none. change (Z.to_nat 4) with 4%nat in *.
  apply (wp_init_buckets hash_fn less Hh _ G); [exact HLt|exact Hcd|exact Hout|]. intros u HLu Etu Edu.
  apply wp_bind. red. cbn [modify]. apply wp_ret. rewrite Etu. cbn [table set_table bucket_cnt buckets]. apply wp_ret, H1.
  - apply (table_empty u G p 2); [lia|exact HLu|]. intros i Hi. destruct (G !! bucket p (Z.of_nat i)) as [xs|] eqn:EG; [|done].
    destruct (Hout _ _ (bucket p (Z.of_nat i)) EG); [apply elem_of_nodes; by left|]. apply elem_of_cells. eauto.
  - intros e He Hn Hu. split; [cbn; rewrite Edu; cbn; by apply Hold|]. split; [done|]. cbn [table set_table buckets].
    apply emptied_unlinked; [|done]. by apply Hfr.
Qed.

Lemma destroyed s G bs : table_ok s G bs -> let h := filter (fun kv => kv.1 ∉ cells (buckets (table s)) (Z.to_nat (bucket_cnt (table s)))) (links s) in
  lists_ok h G /\ forall e, (e ∈ concat bs \/ free_elem s G bs e) -> e ∈ dom h /\ e <> NULL /\ unlinked e G.
Proof using All.
  intros Ht. replace (Z.to_nat (bucket_cnt (table s))) with (length bs) by (pose proof (tb_len _ _ _ _ _ Ht); lia). intros h. split.
  - apply lists_ok_filter; [eapply lists_ok_sub; [by apply (tb_rest _ _ _ Ht)|apply Ht]|].
    intros l xs a e El Ha. by apply (apart_cells s G bs l xs).
  - intros e He. destruct (emptied_free s s G bs e Ht eq_refl eq_refl He) as (H1 & H2 & H3).
    assert (Hc : e ∉ cells (buckets (table s)) (length bs)).
    { intros (i & Hi & Hei)%elem_of_cells. eapply (H3 (bucket (buckets (table s)) (Z.of_nat i)) []); [|apply elem_of_nodes; unfold head, tail; tauto].
      apply lookup_union_Some_l. rewrite lookup_bmap_bucket. by apply lookup_replicate_2. }
    split_and!; [|done|].
    + apply elem_of_dom in H1 as [y Hy]. apply elem_of_dom. exists y. by apply map_lookup_filter_Some.
    + intros l xs El. apply H3. apply lookup_union_Some_raw. right. split; [|done]. apply lookup_bmap_None. rewrite length_replicate.
      intros i Hi ->. by rewrite (tb_apart _ _ _ _ _ Ht) in El.
Qed.

Lemma wp_hash_destroy s G bs d (Q : list Z -> hstate -> Prop) : table_ok s G bs ->
  (forall t, lists_ok (links t) G ->
     (forall e, (e ∈ concat bs \/ free_elem s G bs e) -> e ∈ dom (links t) /\ e <> NULL /\ unlinked e G) ->
     Q (if d : bool then concat bs else []) t) -> wp (hash_destroy d) Q s.
Proof using All.
  intros Ht HQ. unfold hash_destroy. apply wp_bind. destruct d.
  - apply (wp_hash_clear s G bs true); [done|]. intros t Htt Ed Eb. apply wp_bind. red. cbn [gets]. apply wp_bind. red. unfold free_buckets. cbn [modify].
    apply wp_ret. destruct (destroyed _ _ _ Htt) as [HL He]. apply HQ; [exact HL|]. intros e Hin. apply He. right. by apply (emptied_free s).
  - apply wp_ret, wp_bind. red. cbn [gets]. apply wp_bind. red. unfold free_buckets. cbn [modify].
    apply wp_ret. destruct (destroyed _ _ _ Ht) as [HL He]. by apply HQ.
Qed.

(** ** Visiting every element *)

Lemma tb_dll s G bs i xs : table_ok s G bs -> bs !! i = Some xs -> dll (links s) (bucket (buckets (table s)) (Z.of_nat i)) xs.
Proof using All. intros Ht Hi. apply (lists_dll _ _ (tb_lists _ _ _ _ _ Ht)). by apply tb_list. Qed.

Lemma wp_hash_apply s G bs (Q : list Z -> hstate -> Prop) : table_ok s G bs -> Q (concat bs) s -> wp hash_apply Q s.
Proof using All.
  intros Ht HQ. unfold hash_apply. apply wp_bind. red. cbn [gets].
  replace (Z.to_nat (bucket_cnt (table s))) with (length bs) by (pose proof (tb_len _ _ _ _ _ Ht); lia).
  eapply wp_mono; [apply (wp_collect_from (fun j acc u => u = s /\ acc = concat (take (Z.to_nat j) bs)) _ _ 0 [])|].
  - done.
  - intros j acc u Hj [-> ->]. set (i := Z.to_nat j). assert (Hi : (i < length bs)%nat) by lia.
    destruct (lookup_lt_is_Some_2 bs i Hi) as [xs Hx]. replace j with (Z.of_nat i) by lia. pose proof (tb_dll _ _ _ _ _ Ht Hx) as Hd.
    pose proof (dll_fuel _ _ _ Hd) as Hf. cbn zeta. apply wp_bind, (wp_lst_op hash_fn less Hh). eapply wp_list_begin; [exact Hd|].
    rewrite (set_links_id hash_fn less Hh). set (b := bucket _ _) in *.
    eapply ((wp_hloop hash_fn less Hh) (fun n '(e, l) v => v = s /\ exists zs, n = length zs /\ xs = l ++ zs /\ e = first b zs) _ _ (length xs)); [| |lia].
    2:{ split; [done|]. by exists xs. }
    intros n [e l] v [-> (zs & -> & -> & ->)]. apply wp_bind, (wp_lst_op hash_fn less Hh). eapply wp_list_end; [exact Hd|].
    rewrite (set_links_id hash_fn less Hh), (first_tail_eqb _ _ _ _ Hd). destruct zs as [|z zs].
    + rewrite bool_decide_eq_true_2 by done. apply wp_ret. split; [done|]. rewrite app_nil_r in Hx.
      replace (Z.to_nat (Z.of_nat i + 1)) with (S i) by lia. rewrite (take_S_r _ _ _ Hx), concat_app. cbn. by rewrite app_nil_r.
    + rewrite bool_decide_eq_false_2 by done. apply wp_bind, (wp_lst_op hash_fn less Hh). cbn [first]. eapply wp_list_next; [exact Hd|].
      rewrite (set_links_id hash_fn less Hh). apply wp_ret. exists (length zs). split; [cbn; lia|]. split; [done|]. exists zs. by rewrite <- app_assoc.
  - intros r t [-> Er]. cbn [app] in Er. rewrite Z.add_0_l, Nat2Z.id, firstn_all in Er. by subst r.
Qed.

(** No element is in the table twice. *)
Lemma nodup_concat (bs : list (list Z)) : (forall i xs, bs !! i = Some xs -> NoDup xs) ->
  (forall i j xs ys x, bs !! i = Some xs -> bs !! j = Some ys -> x ∈ xs -> x ∈ ys -> i = j) -> NoDup (concat bs).
Proof using All.
  induction bs as [|b bs IH]; intros H1 H2; [constructor|]. cbn. apply NoDup_app. split_and!.
  - by apply (H1 0%nat).
  - intros x Hx (j & ys & Hj & Hy)%elem_of_buckets. by specialize (H2 0%nat (S j) b ys x eq_refl Hj Hx Hy).
  - apply IH; [intros i; apply (H1 (S i))|]. intros i j xs ys x Hi Hj Hx Hy. by injection (H2 (S i) (S j) xs ys x Hi Hj Hx Hy).
Qed.

Lemma tb_nodup s G bs : table_ok s G bs -> NoDup (concat bs).
Proof using All.
  intros Ht. pose proof (tb_lists _ _ _ _ _ Ht) as HL. apply nodup_concat.
  - intros i xs Hi. eapply (lists_nodup _ _ HL). by apply tb_list.
  - intros i j xs ys x Hi Hj Hx Hy.
    pose proof (lists_elem_unique _ _ HL _ _ _ _ x (tb_list s G bs i xs Hi) (tb_list s G bs j ys Hj) Hx Hy) as E. unfold bucket in E. lia.
Qed.

Lemma tb_fuel s G bs : table_ok s G bs -> (length (concat bs) <= size (links s))%nat.
Proof using All.
  intros Ht. rewrite <- size_dom. rewrite <- (size_list_to_set (C := gset Z)) by (by eapply tb_nodup). apply subseteq_size.
  intros x Hx. rewrite elem_of_list_to_set in Hx. apply elem_of_buckets in Hx as (i & xs & Hi & Hx).
  eapply dll_dom; [by apply (tb_dll _ _ _ _ _ Ht Hi)|by apply elem_nodes].
Qed.

(** The iterator is where [rest] is still to come. *)
Definition at_pos (s : hstate) (bs : list (list Z)) (it : hash_iterator) (rest : list Z) : Prop :=
  exists i xs1 xs2, bs !! i = Some (xs1 ++ xs2) /\ it_bucket it = bucket (buckets (table s)) (Z.of_nat i) /\
    it_elem it = lst (it_bucket it) xs1 /\ rest = xs2 ++ concat (drop (S i) bs).

Lemma wp_hash_first s G bs (Q : hash_iterator -> hstate -> Prop) : table_ok s G bs ->
  (forall it, at_pos s bs it (concat bs) -> Q it s) -> wp hash_first Q s.
Proof using All.
  intros Ht HQ. unfold hash_first. apply wp_bind. red. cbn [gets].
  destruct bs as [|b bs]; [destruct (tb_pow _ _ _ _ _ Ht) as (k & Hk & Ek); pose proof (tb_len _ _ _ _ _ Ht) as Hl; cbn in Hl;
    assert (0 < 2 ^ k) by (apply Z.pow_pos_nonneg; lia); lia|].
  pose proof (tb_dll _ _ _ 0%nat b Ht eq_refl) as Hd. replace (bucket (buckets (table s)) (Z.of_nat 0)) with (buckets (table s)) in Hd by (unfold bucket; lia).
  apply wp_bind, (wp_lst_op hash_fn less Hh). unfold list_head. apply wp_bind, wp_assertb.
  { rewrite (proj2 (Z.eqb_neq _ NULL)); [done|]. eapply dll_not_null; [exact Hd|]. apply elem_of_nodes. by left. }
  apply wp_ret. rewrite (set_links_id hash_fn less Hh). apply wp_ret, HQ. exists 0%nat, [], b. cbn. rewrite drop_0.
  split_and!; [done|unfold bucket; lia|done|done].
Qed.

(** Moves past the ends of buckets. *)
Lemma wp_skip s G bs i ys zs (Q : hash_iterator -> hstate -> Prop) : table_ok s G bs -> bs !! i = Some (ys ++ zs) ->
  (zs ++ concat (drop (S i) bs) = [] -> forall b, Q (mk_iterator b NULL) s) ->
  (forall x rest it, zs ++ concat (drop (S i) bs) = x :: rest -> at_pos s bs it rest -> it_elem it = x -> x <> NULL -> Q it s) ->
  wp (iterate (S (Z.to_nat (bucket_cnt (table s)))) (fun '(b, e) =>
    end_ ← lst_op (list_end b);
    if negb (e =? end_) then ret (inr (mk_iterator b e)) else
    let b := b + 16 in
    if buckets (table s) + 16 * bucket_cnt (table s) <=? b then ret (inr (mk_iterator b NULL)) else
    e ← lst_op (list_begin b);
    ret (inl (b, e))) (bucket (buckets (table s)) (Z.of_nat i), first (bucket (buckets (table s)) (Z.of_nat i)) zs)) Q s.
Proof using All.
  intros Ht Hi H0 H1. pose proof (tb_len _ _ _ _ _ Ht) as Hlen. set (p := buckets (table s)) in *. set (all := zs ++ _) in *.
  eapply wp_iterate with (n := (length bs - i)%nat) (I := fun n '(b, e) t => t = s /\ exists j us vs, (j + n = length bs)%nat /\
    bs !! j = Some (us ++ vs) /\ b = bucket p (Z.of_nat j) /\ e = first b vs /\ all = vs ++ concat (drop (S j) bs)); [| |lia].
  2:{ split; [done|]. exists i, ys, zs. pose proof (lookup_lt_Some _ _ _ Hi). split_and!; done || lia. }
  intros n [b e] t [-> (j & us & vs & Hn & Hj & -> & -> & Ea)]. pose proof (tb_dll _ _ _ _ _ Ht Hj) as Hd. fold p in Hd.
  apply wp_bind, (wp_lst_op hash_fn less Hh). eapply wp_list_end; [exact Hd|].
  rewrite (set_links_id hash_fn less Hh), (first_tail_eqb _ _ _ _ Hd). destruct vs as [|v vs].
  - rewrite bool_decide_eq_true_2 by done. cbn [negb]. cbn zeta. pose proof (lookup_lt_Some _ _ _ Hj) as Hjl. rewrite app_nil_l in Ea.
    destruct (Z.leb_spec (p + 16 * bucket_cnt (table s)) (bucket p (Z.of_nat j) + 16)) as [Hle|Hlt].
    + apply wp_ret, H0. rewrite Ea, drop_ge; [done|]. unfold bucket in Hle. lia.
    + assert (Hjn : (S j < length bs)%nat) by (unfold bucket in Hlt; lia). destruct (lookup_lt_is_Some_2 bs (S j) Hjn) as [ws Hw].
      pose proof (tb_dll _ _ _ _ _ Ht Hw) as Hdw. fold p in Hdw. replace (bucket p (Z.of_nat j) + 16) with (bucket p (Z.of_nat (S j))) by (unfold bucket; lia).
      apply wp_bind, (wp_lst_op hash_fn less Hh). eapply wp_list_begin; [exact Hdw|]. rewrite (set_links_id hash_fn less Hh). apply wp_ret.
      exists (n - 1)%nat. split; [lia|]. split; [done|]. exists (S j), [], ws. split_and!; [lia|done..|]. by rewrite Ea, (drop_S _ _ _ Hw).
  - rewrite bool_decide_eq_false_2 by done. cbn [negb first]. apply wp_ret. apply (H1 v (vs ++ concat (drop (S j) bs))); [done| |done|].
    + exists j, (us ++ [v]), vs. rewrite <- app_assoc. split_and!; [done|done| |done]. unfold lst. by rewrite last_snoc.
    + eapply dll_not_null; [exact Hd|]. apply elem_nodes. set_solver.
Qed.

Lemma wp_hash_next s G bs it rest (Q : hash_iterator -> hstate -> Prop) : table_ok s G bs -> at_pos s bs it rest ->
  (rest = [] -> forall b, Q (mk_iterator b NULL) s) ->
  (forall x r it', rest = x :: r -> at_pos s bs it' r -> it_elem it' = x -> x <> NULL -> Q it' s) -> wp (hash_next it) Q s.
Proof using All.
  intros Ht (i & xs1 & xs2 & Hi & Eb & Ee & ->) H0 H1. unfold hash_next. apply wp_bind. red. cbn [gets]. rewrite Ee, Eb.
  pose proof (tb_dll _ _ _ _ _ Ht Hi) as Hd. apply wp_bind, (wp_lst_op hash_fn less Hh).
  assert (Hw : forall Q', Q' (first (bucket (buckets (table s)) (Z.of_nat i)) xs2) (links s) ->
    wp (list_next (lst (bucket (buckets (table s)) (Z.of_nat i)) xs1)) Q' (links s)).
  { intros Q' HQ'. destruct xs1 as [|y xs1 _] using rev_ind; [by eapply wp_list_next_head|]. unfold lst. rewrite last_snoc. cbn [default].
    rewrite <- app_assoc in Hd. eapply wp_list_next; [exact Hd|done]. }
  apply Hw. rewrite (set_links_id hash_fn less Hh). by eapply wp_skip.
Qed.
End Operations.

(** * Hash tables: refinement of finite sets

    [hcall] is the interface of lib/kernel/hash.h; [hspec] says what each call
    does to the set of elements in the table and to the elements that the
    caller has.  [hash_table_correct] shows that the table implements it. *)

(** ** The interface *)

Inductive hcall : Set :=
  | HInsert (new : Z) | HReplace (new : Z) | HFind (e : Z) | HDelete (e : Z)
  | HClear (destructor : bool) | HApply | HIterate | HSize | HEmpty.

Inductive hresult : Set := RElem (e : Z) | RList (l : list Z) | RNum (n : Z) | RBool (b : bool).

Section Refinement.
Context `{!Blocks} (hash_fn : Z -> Z) (less : Z -> Z -> bool).
Abbreviation equal := (equal less).

(** The loop that the header describes:
    [hash_first (&i, h); while (hash_next (&i)) ... hash_cur (&i) ...]. *)
Definition hash_iterate : M hstate (list Z) :=
  it ← hash_first;
  hloop (fun '(it, acc) =>
    it ← hash_next it;
    if it_elem it =? NULL then ret (inr acc) else ret (inl (it, acc ++ [hash_cur it]))) (it, []).

Definition hperform (c : hcall) : M hstate hresult :=
  match c with
  | HInsert e => r ← hash_insert hash_fn less e; ret (RElem r)
  | HReplace e => r ← hash_replace hash_fn less e; ret (RElem r)
  | HFind e => r ← hash_find hash_fn less e; ret (RElem r)
  | HDelete e => r ← hash_delete hash_fn less e; ret (RElem r)
  | HClear d => l ← hash_clear d; ret (RList l)
  | HApply => l ← hash_apply; ret (RList l)
  | HIterate => l ← hash_iterate; ret (RList l)
  | HSize => n ← hash_size; ret (RNum n)
  | HEmpty => b ← hash_empty; ret (RBool b)
  end.

(** [X] is in the table, [P] is the caller's. *)
Definition hvalid (X P : gset Z) (c : hcall) : Prop :=
  match c with
  | HInsert e | HReplace e => e ∈ P /\ Z.of_nat (size X) + 1 < 2 ^ 28
  | _ => True
  end.

Definition absent (X : gset Z) (e : Z) : Prop := forall x, x ∈ X -> equal x e = false.
Definition listing (X : gset Z) (l : list Z) : Prop := NoDup l /\ list_to_set l = X.

Inductive hspec (X P : gset Z) : hcall -> hresult -> gset Z -> gset Z -> Prop :=
  | SInsert e : absent X e -> hspec X P (HInsert e) (RElem NULL) ({[e]} ∪ X) (P ∖ {[e]})
  | SInsertOld e x : x ∈ X -> equal x e = true -> hspec X P (HInsert e) (RElem x) X P
  | SReplace e : absent X e -> hspec X P (HReplace e) (RElem NULL) ({[e]} ∪ X) (P ∖ {[e]})
  | SReplaceOld e x : x ∈ X -> equal x e = true -> hspec X P (HReplace e) (RElem x) ({[e]} ∪ X ∖ {[x]}) ({[x]} ∪ P ∖ {[e]})
  | SFind e x : x ∈ X -> equal x e = true -> hspec X P (HFind e) (RElem x) X P
  | SFindNone e : absent X e -> hspec X P (HFind e) (RElem NULL) X P
  | SDelete e x : x ∈ X -> equal x e = true -> hspec X P (HDelete e) (RElem x) (X ∖ {[x]}) ({[x]} ∪ P)
  | SDeleteNone e : absent X e -> hspec X P (HDelete e) (RElem NULL) X P
  | SClear l : listing X l -> hspec X P (HClear true) (RList l) ∅ (X ∪ P)
  | SClearAll : hspec X P (HClear false) (RList []) ∅ (X ∪ P)
  | SApply l : listing X l -> hspec X P HApply (RList l) X P
  | SIterate l : listing X l -> hspec X P HIterate (RList l) X P
  | SSize : hspec X P HSize (RNum (Z.of_nat (size X))) X P
  | SEmpty : hspec X P HEmpty (RBool (bool_decide (X = ∅))) X P.

(** The table of [s] holds the set [X]; [P] are other elements in memory; [G]
    are the other lists. *)
Definition table_rep (s : hstate) (G : gmap Z (list Z)) (X P : gset Z) : Prop :=
  exists bs, table_ok hash_fn less s G bs /\ list_to_set (concat bs) = X /\ forall e, e ∈ P -> free_elem s G bs e.

(** Elements of the caller when there is no table. *)
Definition owned (s : hstate) (G : gmap Z (list Z)) (P : gset Z) : Prop :=
  lists_ok (links s) G /\ forall e, e ∈ P -> e ∈ dom (links s) /\ e <> NULL /\ unlinked e G.

(** ** Simulation *)

Context (Hh : hashing hash_fn less).

Lemma in_table bs (X : gset Z) x : list_to_set (concat bs) = X -> x ∈ X <-> x ∈ concat bs.
Proof using All. intros <-. apply elem_of_list_to_set. Qed.

Lemma rep_listing s G bs X : table_ok hash_fn less s G bs -> list_to_set (concat bs) = X -> listing X (concat bs).
Proof using All. intros Ht E. split; [by eapply (tb_nodup hash_fn less Hh)|done]. Qed.

Lemma rep_size s G bs (X : gset Z) : table_ok hash_fn less s G bs -> list_to_set (concat bs) = X -> elem_cnt (table s) = Z.of_nat (size X).
Proof using All. intros Ht <-. rewrite size_list_to_set by (by eapply (tb_nodup hash_fn less Hh)). apply Ht. Qed.

Lemma rep_absent bs X e : list_to_set (concat bs) = X -> (forall x, x ∈ concat bs -> equal x e = false) -> absent X e.
Proof using All. intros E Hn x Hx. apply Hn. by apply (in_table bs X). Qed.

Lemma rep_bucket bs (X : gset Z) i xs x : list_to_set (concat bs) = X -> bs !! i = Some xs -> x ∈ xs -> x ∈ X.
Proof using All. intros E Hi Hx. apply (in_table bs X); [done|]. apply elem_of_buckets. eauto. Qed.

Lemma rep_removed s G bs bs' (X : gset Z) x : table_ok hash_fn less s G bs -> list_to_set (concat bs) = X -> concat bs ≡ₚ x :: concat bs' ->
  (x ∉ concat bs') /\ list_to_set (concat bs') = X ∖ {[x]}.
Proof using All.
  intros Ht EX Hp. pose proof (tb_nodup hash_fn less Hh _ _ _ Ht) as Hnd. rewrite Hp in Hnd. apply NoDup_cons in Hnd as [Hnx _].
  split; [done|]. apply set_eq. intros y. rewrite elem_of_list_to_set, elem_of_difference, (in_table bs X y EX), Hp, elem_of_cons, elem_of_singleton.
  split; [intros Hin; split; [by right|by intros ->]|tauto].
Qed.

(** Insertion into the bucket, then rehash(). *)
Lemma sim_insert s G bs X P i xs e r (Q : Z -> hstate -> Prop) : table_ok hash_fn less s G bs -> list_to_set (concat bs) = X ->
  (forall y, y ∈ P -> free_elem s G bs y) -> bs !! i = Some xs -> i = idx hash_fn (bucket_cnt (table s)) e ->
  (forall x, x ∈ concat bs -> equal x e = false) -> hvalid X P (HInsert e) ->
  (forall t, table_rep t G ({[e]} ∪ X) (P ∖ {[e]}) -> Q r t) ->
  wp (insert_elem (bucket (buckets (table s)) (Z.of_nat i)) e;; rehash hash_fn;; ret r) Q s.
Proof using All.
  intros Ht EX HP Hi Ei Hn [He Hc] HQ. apply wp_bind. eapply (wp_insert_elem hash_fn less Hh); [exact Ht|by apply HP|done..| |].
  { rewrite (rep_size _ _ _ _ Ht EX). exact Hc. }
  intros t bs' Ht' Hp Hf. apply wp_bind. eapply (wp_rehash hash_fn less Hh); [exact Ht'|]. intros u bs2 Hu Hp2 Hf2. apply wp_ret, HQ.
  exists bs2. split; [done|]. split; [|intros y Hy; apply Hf2, Hf; [|apply HP]; set_solver].
  apply set_eq. intros x. rewrite elem_of_list_to_set, Hp2, Hp, elem_of_cons. set_solver.
Qed.

Lemma sim_hash_insert s G X P e (Q : Z -> hstate -> Prop) : table_rep s G X P -> hvalid X P (HInsert e) ->
  (forall t r X' P', hspec X P (HInsert e) (RElem r) X' P' -> table_rep t G X' P' -> Q r t) -> wp (hash_insert hash_fn less e) Q s.
Proof using All.
  intros (bs & Ht & EX & HP) Hv HQ. unfold hash_insert. eapply (wp_hash_lookup hash_fn less Hh); [exact Ht|]. intros i xs Hi Ei. split.
  - intros x Hx Heq Hnull. rewrite (proj2 (Z.eqb_neq x NULL) Hnull). apply wp_bind, wp_ret, wp_bind.
    eapply (wp_rehash hash_fn less Hh); [exact Ht|]. intros u bs2 Hu Hp2 Hf2. apply wp_ret.
    eapply HQ; [eapply SInsertOld; [by eapply rep_bucket|done]|]. exists bs2. split; [done|]. split; [by rewrite Hp2|auto].
  - intros Hn. rewrite Z.eqb_refl. eapply sim_insert; [done..|]. intros t Hr. eapply HQ; [|exact Hr]. constructor. by eapply rep_absent.
Qed.

Lemma sim_hash_replace s G X P e (Q : Z -> hstate -> Prop) : table_rep s G X P -> hvalid X P (HReplace e) ->
  (forall t r X' P', hspec X P (HReplace e) (RElem r) X' P' -> table_rep t G X' P' -> Q r t) -> wp (hash_replace hash_fn less e) Q s.
Proof using All.
  intros (bs & Ht & EX & HP) Hv HQ. unfold hash_replace. eapply (wp_hash_lookup hash_fn less Hh); [exact Ht|]. intros i xs Hi Ei. split.
  - intros x Hx Heq Hnull. rewrite (proj2 (Z.eqb_neq x NULL) Hnull). cbn [negb]. apply wp_bind.
    pose proof (rep_bucket _ _ _ _ _ EX Hi Hx) as HxX.
    assert (Hxe : x <> e).
    { intros ->. apply (HP e (proj1 Hv)) with (1 := tb_list hash_fn less Hh s G bs i xs Hi). by apply elem_nodes. }
    eapply (wp_remove_elem hash_fn less Hh); [exact Ht|exact Hi|exact Hx|]. intros t bs' ys Ht' Hp Hfx Hf Hy Ec Eb. rewrite <- Eb.
    destruct (rep_removed _ _ _ _ _ _ Ht EX Hp) as [Hnx EX'].
    eapply (sim_insert t G bs' (X ∖ {[x]}) ({[x]} ∪ P)); [exact Ht'|exact EX'| |exact Hy|by rewrite Ec| | |].
    + intros y [->%elem_of_singleton|Hyp]%elem_of_union; [done|auto].
    + intros y Hyin. destruct (equal y e) eqn:E; [|done]. destruct Hnx. replace x with y; [done|].
      apply (tb_uniq _ _ _ _ _ Ht); [rewrite Hp; by right|apply (in_table bs X); done|].
      eapply (hs_trans _ _ Hh); [exact E|]. by rewrite (equal_sym hash_fn less Hh).
    + destruct Hv as [He Hc]. split; [set_solver|]. rewrite size_difference, size_singleton by set_solver. lia.
    + intros u Hr. eapply HQ; [by eapply SReplaceOld|]. destruct Hr as (b2 & H1 & H2 & H3). exists b2. split; [done|]. split; [done|].
      intros y Hyin. apply H3. set_solver.
  - intros Hn. cbn [Z.eqb negb]. rewrite Z.eqb_refl. cbn [negb]. apply wp_bind, wp_ret. eapply sim_insert; [done..|].
    intros t Hr. eapply HQ; [|exact Hr]. constructor. by eapply rep_absent.
Qed.

Lemma sim_hash_find s G X P e (Q : Z -> hstate -> Prop) : table_rep s G X P ->
  (forall r, hspec X P (HFind e) (RElem r) X P -> Q r s) -> wp (hash_find hash_fn less e) Q s.
Proof using All.
  intros (bs & Ht & EX & HP) HQ. unfold hash_find. destruct (tb_idx hash_fn less Hh s G bs e Ht) as [xs Hx].
  destruct (tb_pow _ _ _ _ _ Ht) as (k & Hk & Ek). apply wp_bind. eapply (wp_find_bucket hash_fn less Hh); [done|done|]. rewrite Ek in Hx.
  eapply (wp_find_elem hash_fn less Hh); [apply Ht|by apply (tb_list hash_fn less Hh)| |].
  - intros x Hin Heq _. apply HQ. constructor; [by eapply rep_bucket|done].
  - intros Hn. apply HQ, SFindNone. intros x HxX. destruct (equal x e) eqn:E; [|done]. apply (in_table bs X) in HxX; [|done].
    destruct (tb_equal hash_fn less Hh _ _ _ _ _ Ht HxX E) as (ys & Hy & Hxy). rewrite Ek in Hy. rewrite Hx in Hy. injection Hy as <-. by rewrite Hn in E.
Qed.

Lemma sim_hash_delete s G X P e (Q : Z -> hstate -> Prop) : table_rep s G X P ->
  (forall t r X' P', hspec X P (HDelete e) (RElem r) X' P' -> table_rep t G X' P' -> Q r t) -> wp (hash_delete hash_fn less e) Q s.
Proof using All.
  intros (bs & Ht & EX & HP) HQ. unfold hash_delete. eapply (wp_hash_lookup hash_fn less Hh); [exact Ht|]. intros i xs Hi Ei. split.
  - intros x Hx Heq Hnull. rewrite (proj2 (Z.eqb_neq x NULL) Hnull). cbn [negb]. apply wp_bind, wp_bind.
    eapply (wp_remove_elem hash_fn less Hh); [exact Ht|exact Hi|exact Hx|]. intros t bs' ys Ht' Hp Hfx Hf _ _ _.
    destruct (rep_removed _ _ _ _ _ _ Ht EX Hp) as [Hnx EX']. eapply (wp_rehash hash_fn less Hh); [exact Ht'|]. intros u bs2 Hu Hp2 Hf2.
    apply wp_ret. eapply HQ; [apply SDelete; [by eapply rep_bucket|done]|]. exists bs2. split; [done|]. split; [by rewrite Hp2|].
    intros y [->%elem_of_singleton|Hy]%elem_of_union; auto.
  - intros Hn. rewrite Z.eqb_refl. cbn [negb]. apply wp_bind, wp_ret, wp_ret. eapply HQ; [apply SDeleteNone; by eapply rep_absent|].
    by exists bs.
Qed.

Lemma sim_hash_clear s G X P d (Q : list Z -> hstate -> Prop) : table_rep s G X P ->
  (forall t l, hspec X P (HClear d) (RList l) ∅ (X ∪ P) -> table_rep t G ∅ (X ∪ P) -> Q l t) -> wp (hash_clear d) Q s.
Proof using All.
  intros (bs & Ht & EX & HP) HQ. apply (wp_hash_clear hash_fn less Hh s G bs); [done|]. intros t Ht' Ed Eb. apply HQ.
  - destruct d; constructor. by eapply rep_listing.
  - exists (replicate (length bs) []). split; [done|]. split.
    + assert (E : forall n, concat (replicate n ([] : list Z)) = []) by (by induction n). by rewrite E.
    + intros e He. apply (emptied_free hash_fn less Hh s); [done..|]. apply elem_of_union in He as [He|He]; [left; by apply (in_table bs X)|auto].
Qed.

Lemma wp_hash_iterate s G bs (Q : list Z -> hstate -> Prop) : table_ok hash_fn less s G bs -> Q (concat bs) s -> wp hash_iterate Q s.
Proof using All.
  intros Ht HQ. unfold hash_iterate. apply wp_bind. eapply (wp_hash_first hash_fn less Hh); [exact Ht|]. intros it Hit.
  pose proof (tb_fuel hash_fn less Hh _ _ _ Ht) as Hf.
  eapply ((wp_hloop hash_fn less Hh) (fun n '(it, acc) t => t = s /\ exists rest, n = length rest /\ at_pos s bs it rest /\ concat bs = acc ++ rest)
    _ _ (length (concat bs))); [| |lia].
  2:{ split; [done|]. by exists (concat bs). }
  intros n [i acc] t [-> (rest & -> & Hp & E)]. apply wp_bind. eapply (wp_hash_next hash_fn less Hh); [exact Ht|exact Hp| |].
  - intros -> b. cbn [it_elem]. rewrite Z.eqb_refl. apply wp_ret. rewrite app_nil_r in E. by rewrite <- E.
  - intros x r i' -> Hp' Ei Hn. rewrite Ei, (proj2 (Z.eqb_neq x NULL) Hn). apply wp_ret. exists (length r). split; [cbn; lia|]. split; [done|].
    exists r. unfold hash_cur. rewrite Ei, E, <- app_assoc. done.
Qed.

Lemma sim_hcall s G X P c : table_rep s G X P -> hvalid X P c ->
  wp (hperform c) (fun r t => exists X' P', hspec X P c r X' P' /\ table_rep t G X' P') s.
Proof using All.
  intros Hr Hv. pose proof Hr as (bs & Ht & EX & HP).
  destruct c; cbn [hperform]; apply wp_bind.
  - eapply sim_hash_insert; [done..|]. intros. apply wp_ret. eauto.
  - eapply sim_hash_replace; [done..|]. intros. apply wp_ret. eauto.
  - eapply sim_hash_find; [done..|]. intros. apply wp_ret. eauto.
  - eapply sim_hash_delete; [done..|]. intros. apply wp_ret. eauto.
  - eapply sim_hash_clear; [done..|]. intros. apply wp_ret. eauto.
  - eapply (wp_hash_apply hash_fn less Hh); [done|]. apply wp_ret. exists X, P. split; [constructor; by eapply rep_listing|done].
  - eapply wp_hash_iterate; [done|]. apply wp_ret. exists X, P. split; [constructor; by eapply rep_listing|done].
  - apply wp_bind. red. cbn [gets]. apply wp_ret, wp_ret. exists X, P. split; [|done]. rewrite (rep_size _ _ _ _ Ht EX). constructor.
  - apply wp_bind. red. cbn [gets]. apply wp_ret, wp_ret. exists X, P. split; [|done]. rewrite (rep_size _ _ _ _ Ht EX).
    replace (Z.of_nat (size X) =? 0) with (bool_decide (X = ∅)); [constructor|]. destruct (Z.eqb_spec (Z.of_nat (size X)) 0) as [E|E].
    + apply bool_decide_eq_true_2, leibniz_equiv, size_empty_inv. lia.
    + apply bool_decide_eq_false_2. intros ->. apply E. by rewrite size_empty.
Qed.
End Refinement.

(** C6: A hash table is a set of elements no two of which are equal in the
    caller's order.  hash_init() makes an empty table, or returns false when
    there is no memory; hash_insert(), hash_replace(), hash_find(),
    hash_delete(), hash_clear(), hash_apply(), hash_size(), hash_empty() and a
    loop over hash_first(), hash_next() and hash_cur() return what the set has,
    and change it, as [hspec] says, through every rehash() whether or not it
    gets memory for another array; hash_destroy() gives back the array and
    leaves the elements to the caller.  No list element outside the table
    changes hands, and every loop ends. *)
Theorem hash_table_correct `{!Blocks} (hash_fn : Z -> Z) (less : Z -> Z -> bool) : hashing hash_fn less ->
  (forall s G P, owned s G P -> wp hash_init (fun ok t => if ok then table_rep hash_fn less t G ∅ P else owned t G P) s) /\
  (forall s G X P c, table_rep hash_fn less s G X P -> hvalid X P c ->
     wp (hperform hash_fn less c) (fun r t => exists X' P', hspec less X P c r X' P' /\ table_rep hash_fn less t G X' P') s) /\
  (forall s G X P d, table_rep hash_fn less s G X P ->
     wp (hash_destroy d) (fun l t => (if d : bool then listing X l else l = []) /\ owned t G (X ∪ P)) s).
Proof.
  intros Hh. split_and!.
  - intros s G P [HL HP]. eapply (wp_hash_init hash_fn less Hh); [exact HL| |].
    + intros t E. split; rewrite E; done.
    + intros t Ht Hf. exists (replicate 4 []). split; [done|]. split; [done|]. intros e He. destruct (HP e He) as (? & ? & ?). by apply Hf.
  - intros. by apply sim_hcall.
  - intros s G X P d (bs & Ht & EX & HP). eapply (wp_hash_destroy hash_fn less Hh); [exact Ht|]. intros t HL Hf. split.
    + destruct d; [by eapply (rep_listing hash_fn less Hh)|done].
    + split; [done|]. intros e [He|He]%elem_of_union; apply Hf; [left; by apply (in_table hash_fn less Hh bs X)|auto].
Qed.

(** An allocator that has no memory for its third answer. *)
Definition top (live : gset Z) : Z := foldr Z.max 0 (elements live) + 1.

Lemma top_above live a : a ∈ live -> a < top live.
Proof.
  rewrite <- elem_of_elements. unfold top. induction (elements live) as [|x l IH]; [by intros ?%elem_of_nil|].
  intros [->|Ha]%elem_of_cons; cbn; [lia|]. specialize (IH Ha). lia.
Qed.

Lemma top_pos live : 0 < top live.
Proof. unfold top. induction (elements live) as [|x l IH]; cbn; lia. Qed.

Definition bump_at (n : nat) (live : gset Z) (size : Z) : option Z := if (n =? 2)%nat then None else Some (top live).

Lemma bump_fresh n live size p : bump_at n live size = Some p -> 0 < p /\ forall a, a ∈ live -> ~ (p <= a < p + size).
Proof.
  unfold bump_at. destruct (n =? 2)%nat; [done|]. intros [= <-]. split; [apply top_pos|].
  intros a Ha. pose proof (top_above live a Ha). lia.
Qed.

#[local] Instance bump : Blocks := {| block_at := bump_at; junk a := mk_elem a a; block_at_fresh := bump_fresh |}.

(** Elements at 16 and 32, whose hash is their address. *)
Definition two : hstate := mk_hstate {[16 := mk_elem 0 0; 32 := mk_elem 0 0]} 0 (mk_hash 0 0 0).

Lemma hashing_id : hashing u32 (fun x y => u32 x <? u32 y).
Proof.
  split; intros; unfold HashSpec.equal in *; try lia. pose proof (uwrap_range 32 x ltac:(lia)) as Hr. unfold in_u in Hr. lia.
Qed.

Lemma hash_table_correct_witness :
  owned two ∅ {[16; 32]} /\ wp hash_init (fun ok t => if ok then table_rep u32 (fun x y => u32 x <? u32 y) t ∅ ∅ {[16; 32]} else owned t ∅ {[16; 32]}) two.
Proof.
  assert (Ho : owned two ∅ {[16; 32]}).
  { split; [split; intros *; by rewrite lookup_empty|]. intros e He. assert (e = 16 \/ e = 32) as [-> | ->] by set_solver; cbn;
      (split_and!; [set_solver|done|]); intros l xs; by rewrite lookup_empty. }
  split; [exact Ho|]. exact (proj1 (hash_table_correct u32 (fun x y => u32 x <? u32 y) hashing_id) two ∅ _ Ho).
Defined.
