(* ===== verification/Malloc.v ===== *)
(** * threads/malloc.c: the block allocator

    A small block comes from an arena, a page divided into blocks of one size;
    the free blocks of each size are on a list that runs through the blocks
    themselves.  A larger block has pages of its own.  Memory is typed by its
    use: a block is either an element of a free list or the bytes of its user.
    Contents that the program has not written come from a parameter.  The calls
    are those of one thread at a time, which the locks of the descriptors and
    of the pools ensure; a lock is whether it is held. *)

From Stdlib Require Import ZArith Lia.
From stdpp Require Import base numbers gmap list.
From S2P Require Import Prelude DList Bitmap Vaddr Palloc Bytes StrLib.

Open Scope Z_scope.

(** ** Data *)

(** [struct desc]; its list is at [free_list]. *)
Record desc : Set := mk_desc { block_bytes : Z; blocks_per_arena : Z; held : bool }.

Definition ARENA_MAGIC : Z := 0x9a548eed.

(** [struct arena], at the start of a page; a descriptor is its index. *)
Record arena : Set := mk_arena { magic : Z; arena_desc : option nat; free_cnt : Z }.
Definition sizeof_arena : Z := 12.

Record mstate := mk_mstate { links : mem; data : bytes; arenas : gmap Z arena; descs : list desc; pages : pools }.
Definition set_links l s := mk_mstate l (data s) (arenas s) (descs s) (pages s).
Definition set_data d s := mk_mstate (links s) d (arenas s) (descs s) (pages s).
Definition set_arenas a s := mk_mstate (links s) (data s) a (descs s) (pages s).
Definition set_descs d s := mk_mstate (links s) (data s) (arenas s) d (pages s).
Definition set_pages p s := mk_mstate (links s) (data s) (arenas s) (descs s) p.

(** Where the linker puts [descs], and what memory holds before it is written. *)
Class Image := {
  descs_at : Z;
  junk_elem : Z -> list_elem;
  junk_byte : Z -> Z }.

Section Malloc.
Context `{!Image}.

(** [&descs[d].free_list]: a descriptor has 48 bytes, its list is at offset 8. *)
Definition free_list (d : nat) : Z := descs_at + 48 * Z.of_nat d + 8.

Definition lst_op {A} (m : M mem A) : M mstate A := zoom links set_links m.
Definition on_data {A} (m : M bytes A) : M mstate A := zoom data set_data m.
Definition on_pages {A} (m : M pools A) : M mstate A := zoom pages set_pages m.

Definition get_desc (d : nat) : M mstate desc := s ← get; of_option BadAccess (descs s !! d).
Definition get_arena (a : Z) : M mstate arena := s ← get; of_option BadAccess (arenas s !! a).
Definition set_arena (a : Z) (h : arena) : M mstate unit := modify (fun s => set_arenas (<[a := h]> (arenas s)) s).

Definition set_held (d : nat) (b : bool) : M mstate unit :=
  x ← get_desc d;
  modify (fun s => set_descs (<[d := mk_desc (block_bytes x) (blocks_per_arena x) b]> (descs s)) s).
Definition acquire_desc (d : nat) : M mstate unit := x ← get_desc d; ASSERT (negb (held x));; set_held d true.
Definition release_desc (d : nat) : M mstate unit := x ← get_desc d; ASSERT (held x);; set_held d false.

(** ** The use of memory *)

Fixpoint junk (p : Z) (n : nat) : list Z :=
  match n with
  | O => []
  | S n => u8 (junk_byte p) :: junk (p + 1) n
  end.

(** A block becomes a list element; bytes become the user's, and cease to be. *)
Definition as_elem (b : Z) : M mstate unit := modify (fun s => set_links (<[b := junk_elem b]> (links s)) s).
Definition as_bytes (p n : Z) : M mstate unit := modify (fun s => set_data (write (data s) p (junk p (Z.to_nat n))) s).
Definition no_elem (b : Z) : M mstate unit := modify (fun s => set_links (delete b (links s)) s).
Definition no_bytes (p n : Z) : M mstate unit :=
  modify (fun s => set_data (filter (fun kv => ~ (p <= kv.1 < p + n)) (data s)) s).

(** palloc_get_multiple (0, page_cnt), when its lock is free. *)
Definition get_pages (page_cnt : Z) : M mstate Z :=
  if page_cnt =? 0 then ret NULL else on_pages (on_pool 0 (pool_get page_cnt)).

(** ** Arenas and blocks *)

Definition block_to_arena (b : Z) : M mstate Z :=
  let a := pg_round_down b in
  ASSERT (negb (a =? NULL));;
  h ← get_arena a;
  ASSERT (magic h =? ARENA_MAGIC);;
  match arena_desc h with
  | Some d => x ← get_desc d; ASSERT (u32 (pg_ofs b - sizeof_arena) mod block_bytes x =? 0)
  | None => ASSERT (pg_ofs b =? sizeof_arena)
  end;;
  ret a.

Definition arena_to_block (a idx : Z) : M mstate Z :=
  ASSERT (negb (a =? NULL));;
  h ← get_arena a;
  ASSERT (magic h =? ARENA_MAGIC);;
  d ← of_option BadAccess (arena_desc h);
  x ← get_desc d;
  ASSERT (idx <? blocks_per_arena x);;
  ret (u32 (a + sizeof_arena + idx * block_bytes x)).

(** ** The interface *)

Definition malloc_init : M mstate unit :=
  iterate 32 (fun block_size =>
    if block_size <? PGSIZE / 2 then
      d ← gets (fun s => length (descs s));
      ASSERT (Z.of_nat (S d) <=? 10);;
      modify (fun s => set_descs (descs s ++ [mk_desc block_size ((PGSIZE - sizeof_arena) / block_size) false]) s);;
      lst_op (list_init (free_list d));;
      ret (inl (u32 (block_size * 2)))
    else ret (inr tt)) 16.

(** The smallest descriptor that satisfies the request. *)
Fixpoint find_desc (ds : list desc) (d : nat) (size : Z) : option nat :=
  match ds with
  | [] => None
  | x :: ds => if size <=? block_bytes x then Some d else find_desc ds (S d) size
  end.

(** A block with pages of its own. *)
Definition big_block (size : Z) : M mstate Z :=
  let page_cnt := DIV_ROUND_UP (u32 (size + sizeof_arena)) PGSIZE in
  a ← get_pages page_cnt;
  if a =? NULL then ret NULL else
  set_arena a (mk_arena ARENA_MAGIC None page_cnt);;
  as_bytes (a + sizeof_arena) (PGSIZE * page_cnt - sizeof_arena);;
  ret (u32 (a + sizeof_arena)).

(** Divides a page into blocks; false if there is no page. *)
Definition new_arena (d : nat) : M mstate bool :=
  a ← get_pages 1;
  if a =? NULL then ret false else
  x ← get_desc d;
  set_arena a (mk_arena ARENA_MAGIC (Some d) (blocks_per_arena x));;
  for_from (Z.to_nat (blocks_per_arena x)) 0 (fun i =>
    b ← arena_to_block a i;
    as_elem b;;
    lst_op (list_push_back (free_list d) b));;
  ret true.

Definition malloc (size : Z) : M mstate Z :=
  if size =? 0 then ret NULL else
  ds ← gets descs;
  match find_desc ds 0 size with
  | None => big_block size
  | Some d =>
      acquire_desc d;;
      empty ← lst_op (list_empty (free_list d));
      ok ← (if empty then new_arena d else ret true);
      if negb ok then release_desc d;; ret NULL else
      b ← lst_op (list_pop_front (free_list d));
      a ← block_to_arena b;
      h ← get_arena a;
      set_arena a (mk_arena (magic h) (arena_desc h) (u32 (free_cnt h - 1)));;
      x ← get_desc d;
      no_elem b;;
      as_bytes b (block_bytes x);;
      release_desc d;;
      ret b
  end.

Definition calloc (a b : Z) : M mstate Z :=
  let size := u32 (a * b) in
  if (size <? a) || (size <? b) then ret NULL else
  p ← malloc size;
  (if negb (p =? NULL) then on_data (memset p 0 size);; ret tt else ret tt);;
  ret p.

Definition block_size (block : Z) : M mstate Z :=
  a ← block_to_arena block;
  h ← get_arena a;
  match arena_desc h with
  | Some d => x ← get_desc d; ret (block_bytes x)
  | None => ret (u32 (PGSIZE * free_cnt h - pg_ofs block))
  end.

(** Gives back an arena that has no block in use. *)
Definition free_arena (a : Z) (d : nat) : M mstate unit :=
  x ← get_desc d;
  for_from (Z.to_nat (blocks_per_arena x)) 0 (fun i =>
    b ← arena_to_block a i;
    lst_op (list_remove b);;
    no_elem b);;
  on_pages (palloc_free_page a);;
  modify (fun s => set_arenas (delete a (arenas s)) s).

Definition free (p : Z) : M mstate unit :=
  if p =? NULL then ret tt else
  a ← block_to_arena p;
  h ← get_arena a;
  match arena_desc h with
  | Some d =>
      x ← get_desc d;
      on_data (memset p 0xcc (block_bytes x));;
      acquire_desc d;;
      no_bytes p (block_bytes x);;
      as_elem p;;
      lst_op (list_push_front (free_list d) p);;
      h ← get_arena a;
      let cnt := u32 (free_cnt h + 1) in
      set_arena a (mk_arena (magic h) (arena_desc h) cnt);;
      (if blocks_per_arena x <=? cnt then
         ASSERT (cnt =? blocks_per_arena x);;
         free_arena a d
       else ret tt);;
      release_desc d
  | None =>
      on_pages (palloc_free_multiple a (free_cnt h));;
      no_bytes p (PGSIZE * free_cnt h - sizeof_arena);;
      modify (fun s => set_arenas (delete a (arenas s)) s)
  end.

Definition realloc (old_block new_size : Z) : M mstate Z :=
  if new_size =? 0 then free old_block;; ret NULL else
  new_block ← malloc new_size;
  (if negb (old_block =? NULL) && negb (new_block =? NULL) then
     old_size ← block_size old_block;
     let min_size := if new_size <? old_size then new_size else old_size in
     on_data (memcpy new_block old_block min_size);;
     free old_block
   else ret tt);;
  ret new_block.
End Malloc.
