(* ===== verification/MallocInv.v ===== *)
(** * The invariant of the block allocator

    [minv s A fl ex]: [A] are the blocks that are in use, with their sizes;
    [fl] are the free lists.  Every block of an arena is free or in use, never
    both; no two blocks overlap; the pages of the arenas are in use.  Only the
    arena at [ex] may have no block in use. *)

From Stdlib Require Import ZArith Lia.
From stdpp Require Import base numbers gmap list.
From S2P Require Import Prelude DList Bitmap Vaddr Palloc Kernel Bytes StrLib Hash Malloc.

Open Scope Z_scope.

(** ** Geometry *)

Definition bsz (d : nat) : Z := 16 * 2 ^ Z.of_nat d.
Definition bpa (d : nat) : Z := 4084 / bsz d.

(** The descriptors that malloc_init() makes. *)
Definition std : list desc := map (fun d => mk_desc (bsz d) (bpa d) false) (seq 0 7).
Definition std_held (d : nat) : list desc := <[d := mk_desc (bsz d) (bpa d) true]> std.

Lemma geo d : (d < 7)%nat -> 16 <= bsz d <= 1024 /\ 3 <= bpa d <= 255 /\ bpa d * bsz d <= 4084.
Proof. intros Hd. do 7 (destruct d as [|d]; [by vm_compute|]). lia. Qed.

Lemma std_lookup d : (d < 7)%nat -> std !! d = Some (mk_desc (bsz d) (bpa d) false).
Proof. intros Hd. do 7 (destruct d as [|d]; [done|]). lia. Qed.

Definition blk (a : Z) (d : nat) (i : Z) : Z := a + 12 + i * bsz d.
Definition arena_of (x : Z) : Z := x / 4096 * 4096.

Lemma blk_range a d i : (d < 7)%nat -> 0 <= i < bpa d -> a + 12 <= blk a d i /\ blk a d i + bsz d <= a + 4096.
Proof. intros Hd Hi. destruct (geo d Hd) as (H1 & H2 & H3). unfold blk. nia. Qed.

Lemma blk_apart a d i j : (d < 7)%nat -> i < j -> blk a d i + bsz d <= blk a d j.
Proof. intros Hd Hi. destruct (geo d Hd) as (H1 & _). unfold blk. nia. Qed.

Lemma blk_inj a d i j : (d < 7)%nat -> blk a d i = blk a d j -> i = j.
Proof.
  intros Hd E. destruct (geo d Hd) as (H1 & _). destruct (Z.lt_trichotomy i j) as [Hl|[->|Hl]]; [|done|];
    apply (blk_apart a d _ _ Hd) in Hl; lia.
Qed.

Lemma arena_of_in a x : a mod 4096 = 0 -> a <= x < a + 4096 -> arena_of x = a.
Proof. intros Ha Hx. unfold arena_of. Z.to_euclidean_division_equations. lia. Qed.

Lemma arena_of_blk a d i : a mod 4096 = 0 -> (d < 7)%nat -> 0 <= i < bpa d -> arena_of (blk a d i) = a.
Proof.
  intros Ha Hd Hi. destruct (blk_range a d i Hd Hi). destruct (geo d Hd) as (H1 & _). apply arena_of_in; [done|lia].
Qed.

(** ** The invariant *)

Definition np (h : arena) : Z := match arena_desc h with Some _ => 1 | None => free_cnt h end.
Abbreviation kp s := (kernel_pool (pages s)).

(** The pages that are in use by others. *)
Class Others := others : Z -> Prop.

Section Invariant.
Context `{!Image, !Others}.

#[global] Instance free_list_inj : Inj (=) (=) free_list.
Proof. intros i j. unfold free_list. lia. Qed.

(** The free blocks of the arena at [a]. *)
Definition in_arena (a : Z) (xs : list Z) : list Z := filter (fun x => arena_of x = a) xs.

Record arena_ok (s : mstate) (A : gmap Z Z) (fl : list (list Z)) (ex a : Z) (h : arena) : Prop := {
  ar_magic : magic h = ARENA_MAGIC;
  ar_np : 1 <= np h;
  ar_pages : exists k, a = page (kp s) k /\ 0 <= k /\ k + np h <= bit_cnt (used_map (kp s)) /\
    forall j, k <= j < k + np h -> used (kp s) j = true;
  ar_small : forall d, arena_desc h = Some d -> (d < 7)%nat /\ exists xs, fl !! d = Some xs /\
    free_cnt h = Z.of_nat (length (in_arena a xs)) /\ (a <> ex -> free_cnt h < bpa d) /\
    forall i, 0 <= i < bpa d -> blk a d i ∈ xs \/ A !! blk a d i = Some (bsz d);
  ar_big : arena_desc h = None -> A !! (a + 12) = Some (4096 * free_cnt h - 12) }.

(** A block of the arena at [a], of [n] bytes. *)
Definition slot (a : Z) (h : arena) (p n : Z) : Prop :=
  match arena_desc h with
  | None => p = a + 12 /\ n = 4096 * free_cnt h - 12
  | Some d => n = bsz d /\ exists i, 0 <= i < bpa d /\ p = blk a d i
  end.

Definition free_in (fl : list (list Z)) (h : arena) (p : Z) : Prop :=
  exists d xs, arena_desc h = Some d /\ fl !! d = Some xs /\ p ∈ xs.

(** Page [j] of the pool belongs to an arena. *)
Definition covered (s : mstate) (j : Z) : Prop := exists a h, arenas s !! a = Some h /\ a <= page (kp s) j < a + 4096 * np h.

Record minv (s : mstate) (A : gmap Z Z) (fl : list (list Z)) (ex : Z) : Prop := {
  mi_len : length fl = 7%nat;
  mi_lists : lists_ok (links s) (fam free_list fl);
  mi_static : 0 < descs_at /\ descs_at + 480 <= base (kp s);
  mi_links : forall x, x ∈ dom (links s) -> x < base (kp s) \/ exists d xs, fl !! d = Some xs /\ x ∈ xs;
  mi_pools : pools_wf (pages s);
  mi_free : forall d xs x, fl !! d = Some xs -> x ∈ xs ->
    exists a h, arenas s !! a = Some h /\ arena_desc h = Some d /\ slot a h x (bsz d);
  mi_arena : forall a h, arenas s !! a = Some h -> arena_ok s A fl ex a h;
  mi_live : forall p n, A !! p = Some n -> exists a h, arenas s !! a = Some h /\ slot a h p n /\ ~ free_in fl h p;
  mi_data : forall x, is_Some (data s !! x) <-> exists p n, A !! p = Some n /\ p <= x < p + n;
  mi_bytes : forall x v, data s !! x = Some v -> in_u 8 v;
  mi_apart : forall a1 a2 h1 h2, arenas s !! a1 = Some h1 -> arenas s !! a2 = Some h2 -> a1 <> a2 ->
    a1 + 4096 * np h1 <= a2 \/ a2 + 4096 * np h2 <= a1;
  mi_used : forall j, 0 <= j < bit_cnt (used_map (kp s)) -> used (kp s) j = true <-> others j \/ covered s j;
  mi_mine : forall j, covered s j -> ~ others j }.

(** ** Consequences *)

Section Facts.
Context {s : mstate} {A : gmap Z Z} {fl : list (list Z)} {ex : Z} (I : minv s A fl ex).

Lemma arena_page a h : arenas s !! a = Some h ->
  a mod 4096 = 0 /\ base (kp s) <= a /\ 0 < a /\ a + 4096 * np h <= 2 ^ 32 /\ 1 <= np h.
Proof using All.
  intros Ha. destruct (mi_arena _ _ _ _ I a h Ha) as [_ Hn (k & -> & Hk & Hb & _) _ _]. destruct (mi_pools _ _ _ _ I) as (Hw & _).
  split; [by apply page_aligned|]. destruct Hw as [_ _ Hp Hf]. unfold page. lia.
Qed.

Lemma slot_range a h p n : arenas s !! a = Some h -> slot a h p n -> a + 12 <= p /\ p + n <= a + 4096 * np h /\ 0 < n.
Proof using All.
  intros Ha Hs. pose proof (mi_arena _ _ _ _ I a h Ha) as Ho. pose proof (ar_np _ _ _ _ _ _ Ho) as Hnp. unfold slot, np in *.
  destruct (arena_desc h) as [d|] eqn:Ed; [|lia].
  destruct (ar_small _ _ _ _ _ _ Ho d Ed) as (Hd & _). destruct Hs as (-> & i & Hi & ->). pose proof (blk_range a d i Hd Hi).
  destruct (geo d Hd). lia.
Qed.

(** Blocks do not overlap. *)
Lemma slots_apart a1 h1 p1 n1 a2 h2 p2 n2 : arenas s !! a1 = Some h1 -> slot a1 h1 p1 n1 -> arenas s !! a2 = Some h2 -> slot a2 h2 p2 n2 ->
  p1 <> p2 -> p1 + n1 <= p2 \/ p2 + n2 <= p1.
Proof using All.
  intros H1 S1 H2 S2 Hne. pose proof (slot_range _ _ _ _ H1 S1). pose proof (slot_range _ _ _ _ H2 S2).
  destruct (decide (a1 = a2)) as [<-|Ha]; [|pose proof (mi_apart _ _ _ _ I _ _ _ _ H1 H2 Ha); lia].
  rewrite H1 in H2. injection H2 as <-. unfold slot in S1, S2. destruct (arena_desc h1) as [d|] eqn:Ed; [|lia].
  destruct (ar_small _ _ _ _ _ _ (mi_arena _ _ _ _ I a1 h1 H1) d Ed) as (Hd & _). destruct S1 as (-> & i & Hi & ->), S2 as (-> & j & Hj & ->).
  destruct (Z.lt_trichotomy i j) as [Hl|[->|Hl]]; [left|done|right]; by apply blk_apart.
Qed.

(** The block determines the arena. *)
Lemma slot_arena a h p n : arenas s !! a = Some h -> slot a h p n -> arena_of p = a.
Proof using All.
  intros Ha Hs. destruct (arena_page a h Ha) as (Hal & _). unfold slot in Hs. destruct (arena_desc h) as [d|] eqn:Ed.
  - destruct (ar_small _ _ _ _ _ _ (mi_arena _ _ _ _ I a h Ha) d Ed) as (Hd & _). destruct Hs as (_ & i & Hi & ->). by apply arena_of_blk.
  - destruct Hs as [-> _]. apply arena_of_in; [done|lia].
Qed.

Lemma free_arena_of d xs x : fl !! d = Some xs -> x ∈ xs ->
  exists h, arenas s !! arena_of x = Some h /\ arena_desc h = Some d /\ slot (arena_of x) h x (bsz d).
Proof using All.
  intros Hx Hin. destruct (mi_free _ _ _ _ I d xs x Hx Hin) as (a & h & Ha & Hd & Hs). rewrite (slot_arena _ _ _ _ Ha Hs). eauto.
Qed.

Lemma live_arena p n : A !! p = Some n ->
  exists h, arenas s !! arena_of p = Some h /\ slot (arena_of p) h p n /\ ~ free_in fl h p.
Proof using All.
  intros Hp. destruct (mi_live _ _ _ _ I p n Hp) as (a & h & Ha & Hs & Hn). rewrite (slot_arena _ _ _ _ Ha Hs). eauto.
Qed.

Lemma free_not_live d xs x : fl !! d = Some xs -> x ∈ xs -> A !! x = None.
Proof using All.
  intros Hx Hin. destruct (A !! x) as [n|] eqn:E; [|done]. destruct (free_arena_of _ _ _ Hx Hin) as (h & Ha & Hd & _).
  destruct (live_arena _ _ E) as (h' & Ha' & _ & Hn). rewrite Ha in Ha'. injection Ha' as <-. destruct Hn. by exists d, xs.
Qed.

Lemma free_nodup d xs : fl !! d = Some xs -> NoDup xs.
Proof using All. intros Hx. apply (lists_nodup _ _ (mi_lists _ _ _ _ I) (free_list d)). by rewrite (lookup_fam_at free_list). Qed.

Lemma live_apart p1 n1 p2 n2 : A !! p1 = Some n1 -> A !! p2 = Some n2 -> p1 <> p2 -> p1 + n1 <= p2 \/ p2 + n2 <= p1.
Proof using All.
  intros H1 H2 Hne. destruct (live_arena _ _ H1) as (h1 & A1 & S1 & _). destruct (live_arena _ _ H2) as (h2 & A2 & S2 & _).
  exact (slots_apart _ _ _ _ _ _ _ _ A1 S1 A2 S2 Hne).
Qed.

(** At most as many blocks of an arena are free as it has. *)
Lemma in_arena_blocks a h d xs : arenas s !! a = Some h -> arena_desc h = Some d -> fl !! d = Some xs ->
  forall x, x ∈ in_arena a xs -> exists i, 0 <= i < bpa d /\ x = blk a d i.
Proof using All.
  intros Ha Hd Hx x [Ex Hin]%list_elem_of_filter. destruct (free_arena_of _ _ _ Hx Hin) as (h' & Ha' & Hd' & Hs).
  unfold slot in Hs. rewrite Hd', Ex in Hs. apply Hs.
Qed.

Lemma in_arena_perm a h d xs : arenas s !! a = Some h -> arena_desc h = Some d -> fl !! d = Some xs ->
  in_arena a xs ⊆+ map (fun i => blk a d (Z.of_nat i)) (seq 0 (Z.to_nat (bpa d))).
Proof using All.
  intros Ha Hd Hx. apply NoDup_submseteq.
  - apply NoDup_filter. by eapply free_nodup.
  - intros x Hin. destruct (in_arena_blocks _ _ _ _ Ha Hd Hx x Hin) as (i & Hi & ->). apply list_elem_of_fmap.
    exists (Z.to_nat i). split; [f_equal; lia|]. apply elem_of_seq. lia.
Qed.

Lemma in_arena_le a h d xs : arenas s !! a = Some h -> arena_desc h = Some d -> fl !! d = Some xs ->
  Z.of_nat (length (in_arena a xs)) <= bpa d.
Proof using All.
  intros Ha Hd Hx. pose proof (submseteq_length _ _ (in_arena_perm _ _ _ _ Ha Hd Hx)) as Hl. rewrite length_map, length_seq in Hl.
  destruct (ar_small _ _ _ _ _ _ (mi_arena _ _ _ _ I a h Ha) d Hd) as (Hd7 & _). destruct (geo d Hd7). lia.
Qed.
End Facts.

(** ** Changes *)

Lemma in_arena_cons a b xs : in_arena a (b :: xs) = if decide (arena_of b = a) then b :: in_arena a xs else in_arena a xs.
Proof using All. unfold in_arena. rewrite filter_cons. done. Qed.

(** The pool has the same pages, and those of the arena are still in use. *)
Definition pages_kept (s s' : mstate) (a : Z) (h : arena) : Prop :=
  base (kp s') = base (kp s) /\ bit_cnt (used_map (kp s')) = bit_cnt (used_map (kp s)) /\
  forall j, a <= page (kp s) j < a + 4096 * np h -> 0 <= j -> used (kp s) j = true -> used (kp s') j = true.

Lemma arena_ok_other s s' A A' fl fl' ex ex' a h : arena_ok s A fl ex a h -> a mod 4096 = 0 -> pages_kept s s' a h ->
  (forall d xs, arena_desc h = Some d -> fl !! d = Some xs -> exists xs', fl' !! d = Some xs' /\ in_arena a xs' = in_arena a xs) ->
  (forall p n, slot a h p n -> A !! p = Some n -> A' !! p = Some n) -> (a <> ex' -> a <> ex) -> arena_ok s' A' fl' ex' a h.
Proof using All.
  intros [Hm Hn (k & Ea & Hk & Hb & Hu) Hs Hbig] Hal (E1 & E2 & Hkept) Hfl HA Hex. split; [done|done| | |].
  - exists k. rewrite E2. split; [unfold page in *; lia|]. split; [done|]. split; [done|]. intros j Hj. apply Hkept; [unfold page in *; lia|lia|by apply Hu].
  - intros d Ed. destruct (Hs d Ed) as (Hd & xs & Hx & Hc & Hlt & Hblk). split; [done|]. destruct (Hfl d xs Ed Hx) as (xs' & Hx' & Ein).
    exists xs'. split; [done|]. split; [by rewrite Ein|]. split; [auto|]. intros i Hi. destruct (Hblk i Hi) as [Hin|Hl].
    + left. assert (Hia : blk a d i ∈ in_arena a xs) by (apply list_elem_of_filter; split; [by apply arena_of_blk|done]).
      rewrite <- Ein in Hia. by apply list_elem_of_filter in Hia as [_ ?].
    + right. apply HA; [|done]. unfold slot. rewrite Ed. eauto.
  - intros Ed. apply HA; [unfold slot; by rewrite Ed|auto].
Qed.

Lemma pages_kept_same s s' a h : pages s' = pages s -> pages_kept s s' a h.
Proof using All. intros E. unfold pages_kept. by rewrite E. Qed.

(** The locks do not matter. *)
Lemma minv_descs s A fl ex ds : minv s A fl ex -> minv (set_descs ds s) A fl ex.
Proof using All. intros []. split; try done. intros a h Ha. by destruct (mi_arena0 a h Ha). Qed.

(** Elements leave and enter the memory of list elements. *)
Lemma lists_ok_delete h L b : lists_ok h L -> unlinked b L -> lists_ok (delete b h) L.
Proof using All.
  intros [Hd Hj] Hu. split; [|done]. intros l xs El. eapply dll_agree; [by apply Hd|]. intros a Ha.
  apply lookup_delete_ne. intros ->. by eapply Hu.
Qed.

Lemma length_junk p n : length (junk p n) = n.
Proof using All. revert p. induction n as [|n IH]; intros p; cbn; [done|]. by rewrite IH. Qed.

Lemma junk_bytes p n : Forall (in_u 8) (junk p n).
Proof using All. revert p. induction n as [|n IH]; intros p; constructor; [apply uwrap_range; lia|done]. Qed.

(** A block has become the bytes of its user. *)
Lemma data_added b n (D : bytes) (A : gmap Z Z) x : 0 <= n -> A !! b = None -> (forall x, is_Some (D !! x) <-> exists p n, A !! p = Some n /\ p <= x < p + n) ->
  is_Some (write D b (junk b (Z.to_nat n)) !! x) <-> exists p m, <[b := n]> A !! p = Some m /\ p <= x < p + m.
Proof using All.
  intros Hn Hb HD. rewrite lookup_write, length_junk, Z2Nat.id by done. destruct (decide (b <= x < b + n)) as [Hx|Hx].
  - split; [|intros _; apply lookup_lt_is_Some; rewrite length_junk; lia]. intros _. exists b, n. by rewrite lookup_insert_eq.
  - rewrite HD. split.
    + intros (p & m & Hp & Hr). exists p, m. split; [|done]. rewrite lookup_insert_ne; [done|]. intros ->. congruence.
    + intros (p & m & Hp & Hr). apply lookup_insert_Some in Hp as [[<- <-]|[_ Hp]]; [lia|eauto].
Qed.

Lemma bytes_added b n (D : bytes) x v : (forall x v, D !! x = Some v -> in_u 8 v) -> write D b (junk b n) !! x = Some v -> in_u 8 v.
Proof using All.
  intros HD. rewrite lookup_write. destruct (decide _); [|apply HD]. intros Hv. pose proof (junk_bytes b n) as Hj. rewrite Forall_lookup in Hj. by eapply Hj.
Qed.

(** A block is given back. *)
Lemma data_removed b n (D : bytes) (A : gmap Z Z) x : A !! b = Some n -> (forall p m, A !! p = Some m -> p <> b -> p + m <= b \/ b + n <= p) ->
  (forall x, is_Some (D !! x) <-> exists p n, A !! p = Some n /\ p <= x < p + n) ->
  is_Some ((filter (fun kv => ~ (b <= kv.1 < b + n)) D : bytes) !! x) <-> exists p m, delete b A !! p = Some m /\ p <= x < p + m.
Proof using All.
  intros Hb Hap HD. destruct (HD x) as [H1 H2]. split.
  - intros [v Hv]. apply map_lookup_filter_Some in Hv as [Hv Hnx]. cbn in Hnx. destruct H1 as (p & m & Hp & Hr); [by exists v|].
    exists p, m. split; [|done]. rewrite lookup_delete_ne; [done|]. intros ->. rewrite Hb in Hp. injection Hp as ->. lia.
  - intros (p & m & Hp & Hr). apply lookup_delete_Some in Hp as [Hne Hp]. destruct H2 as [v Hv]; [eauto|]. exists v.
    apply map_lookup_filter_Some. split; [done|]. cbn. specialize (Hap p m Hp (not_eq_sym Hne)). lia.
Qed.

(** The number of free blocks of a small arena changes. *)
Definition same_shape (h h' : arena) : Prop := arena_desc h' = arena_desc h /\ (arena_desc h = None -> free_cnt h' = free_cnt h).

Lemma shape_np h h' : same_shape h h' -> np h' = np h.
Proof using All. intros [E1 E2]. unfold np. rewrite E1. destruct (arena_desc h); auto. Qed.

Lemma shape_slot a h h' p n : same_shape h h' -> slot a h' p n <-> slot a h p n.
Proof using All. intros [E1 E2]. unfold slot. rewrite E1. destruct (arena_desc h); [done|]. by rewrite E2. Qed.

Lemma shape_lookup (R : gmap Z arena) a h h' a2 h2' : R !! a = Some h -> same_shape h h' -> <[a := h']> R !! a2 = Some h2' ->
  exists h2, R !! a2 = Some h2 /\ same_shape h2 h2' /\ (a2 <> a -> h2' = h2).
Proof using All.
  intros Ha Hs. rewrite lookup_insert_Some. intros [[<- <-]|[Hne H2]]; [exists h; split_and!; done|]. by exists h2'.
Qed.

Lemma shape_lookup_old (R : gmap Z arena) a h h' a2 h2 : R !! a = Some h -> same_shape h h' -> R !! a2 = Some h2 ->
  exists h2', <[a := h']> R !! a2 = Some h2' /\ same_shape h2 h2'.
Proof using All.
  intros Ha Hs H2. destruct (decide (a = a2)) as [<-|Hne].
  - exists h'. rewrite lookup_insert_eq. split; [done|]. congruence.
  - exists h2. by rewrite lookup_insert_ne.
Qed.

Lemma shape_covered s s' a h h' : arenas s !! a = Some h -> same_shape h h' -> forall j, arenas s' = <[a := h']> (arenas s) -> pages s' = pages s ->
  covered s' j <-> covered s j.
Proof using All.
  intros Ha Hs j Ea Ep. unfold covered. rewrite Ea, Ep. split; intros (a2 & h2 & E2 & Hr).
  - destruct (shape_lookup _ _ _ _ _ _ Ha Hs E2) as (h2' & E2' & Hs2 & _). exists a2, h2'. by rewrite <- (shape_np _ _ Hs2).
  - destruct (shape_lookup_old _ _ _ _ _ _ Ha Hs E2) as (h2' & E2' & Hs2). exists a2, h2'. by rewrite (shape_np _ _ Hs2).
Qed.

(** Blocks of one small arena change from free to used or back. *)
Lemma minv_block s A fl ex a h d xs xs' c A' D' l' ds ex' : minv s A fl ex -> arenas s !! a = Some h -> arena_desc h = Some d -> fl !! d = Some xs ->
  lists_ok l' (fam free_list (<[d := xs']> fl)) ->
  (forall x, x ∈ dom l' -> (x ∈ dom (links s) /\ (x ∈ xs -> x ∈ xs')) \/ x ∈ xs') ->
  (forall x, x ∈ xs' -> x ∈ xs \/ slot a h x (bsz d)) -> (forall a2, a2 <> a -> in_arena a2 xs' = in_arena a2 xs) ->
  c = Z.of_nat (length (in_arena a xs')) -> (a <> ex' -> c < bpa d) -> (forall a2, 0 < a2 -> a2 <> a -> a2 <> ex' -> a2 <> ex) ->
  (forall i, 0 <= i < bpa d -> blk a d i ∈ xs' \/ A' !! blk a d i = Some (bsz d)) ->
  (forall p, arena_of p <> a -> A' !! p = A !! p) -> (forall p n, arena_of p = a -> A' !! p = Some n -> slot a h p n /\ p ∉ xs') ->
  (forall x, is_Some (D' !! x) <-> exists p n, A' !! p = Some n /\ p <= x < p + n) -> (forall x v, D' !! x = Some v -> in_u 8 v) ->
  minv (mk_mstate l' D' (<[a := mk_arena (magic h) (arena_desc h) c]> (arenas s)) ds (pages s)) A' (<[d := xs']> fl) ex'.
Proof using All.
  intros I Ha Hd Hx HL Hlinks Hxs Hin Hc Hlt Hex Hblk HA HAa HD HB. set (h' := mk_arena _ _ _).
  assert (Hsh : same_shape h h') by (split; [done|cbn; congruence]). pose proof (lookup_lt_Some _ _ _ Hx) as Hdl.
  destruct (ar_small _ _ _ _ _ _ (mi_arena _ _ _ _ I _ _ Ha) d Hd) as (Hd7 & _).
  split; cbn [links data arenas pages]; [|done|apply (mi_static _ _ _ _ I)| |apply (mi_pools _ _ _ _ I)| | | |done|done| | |].
  - by rewrite length_insert, (mi_len _ _ _ _ I).
  - intros x [[Hin1 Hin2]|Hin']%Hlinks; [|right; exists d, xs'; by rewrite list_lookup_insert_eq].
    destruct (mi_links _ _ _ _ I x Hin1) as [?|(d2 & xs2 & H2 & Hx2)]; [by left|]. right. destruct (decide (d = d2)) as [<-|Hne].
    + exists d, xs'. rewrite list_lookup_insert_eq by done. split; [done|]. apply Hin2. by simplify_eq.
    + exists d2, xs2. by rewrite list_lookup_insert_ne.
  - intros d2 xs2 x H2 Hx2. apply list_lookup_insert_Some in H2 as [(<- & <- & _)|[Hne H2]].
    + destruct (Hxs x Hx2) as [Hold|Hslot]; [|exists a, h'; rewrite lookup_insert_eq; split_and!; [done|done|by apply (shape_slot _ _ _ _ _ Hsh)]].
      destruct (mi_free _ _ _ _ I _ _ _ Hx Hold) as (a2 & h2 & E & D2 & S2). destruct (shape_lookup_old _ _ _ _ _ _ Ha Hsh E) as (h2' & E' & Hs2).
      exists a2, h2'. split_and!; [done|by rewrite (proj1 Hs2)|by apply (shape_slot _ _ _ _ _ Hs2)].
    + destruct (mi_free _ _ _ _ I _ _ _ H2 Hx2) as (a2 & h2 & E & D2 & S2). destruct (shape_lookup_old _ _ _ _ _ _ Ha Hsh E) as (h2' & E' & Hs2).
      exists a2, h2'. split_and!; [done|by rewrite (proj1 Hs2)|by apply (shape_slot _ _ _ _ _ Hs2)].
  - intros a2 h2 E2. apply lookup_insert_Some in E2 as [[<- <-]|[Hne E2]].
    + destruct (mi_arena _ _ _ _ I _ _ Ha) as [Hm Hn Hp _ _]. split; [done|by rewrite (shape_np _ _ Hsh)|by rewrite (shape_np _ _ Hsh)| |cbn; congruence].
      intros d' Ed'. cbn in Ed'. simplify_eq. split; [done|]. exists xs'. by rewrite list_lookup_insert_eq.
    + eapply arena_ok_other; [by apply (mi_arena _ _ _ _ I)|by apply (arena_page I _ _ E2)|by apply pages_kept_same| | |apply Hex; [by apply (arena_page I _ _ E2)|done]].
      * intros d2 xs2 D2 H2. destruct (decide (d = d2)) as [<-|Hnd2]; [|exists xs2; by rewrite list_lookup_insert_ne].
        exists xs'. rewrite list_lookup_insert_eq by done. simplify_eq. auto.
      * intros p n S2 HAp. rewrite HA; [done|]. by rewrite (slot_arena I _ _ _ _ E2 S2).
  - intros p n Hp. destruct (decide (arena_of p = a)) as [Ep|Ep].
    + destruct (HAa p n Ep Hp) as [Hs Hn]. exists a, h'. rewrite lookup_insert_eq. split_and!; [done|by apply (shape_slot _ _ _ _ _ Hsh)|].
      intros (d2 & ys & D2 & Hy & Hiny). cbn in D2. simplify_eq. rewrite list_lookup_insert_eq in Hy by done. by simplify_eq.
    + rewrite HA in Hp by done. destruct (live_arena I _ _ Hp) as (h2 & E2 & S2 & N2). exists (arena_of p), h2.
      rewrite lookup_insert_ne by done. split_and!; [done|done|]. intros (d2 & ys & D2 & Hy & Hiny). apply N2. exists d2.
      apply list_lookup_insert_Some in Hy as [(<- & <- & _)|[Hne Hy]]; [|by exists ys]. exists xs. split_and!; [done|done|].
      assert (Hi : p ∈ in_arena (arena_of p) xs') by (by apply list_elem_of_filter). rewrite Hin in Hi by done. by apply list_elem_of_filter in Hi as [_ ?].
  - intros a1 a2 h1' h2' E1' E2' Hne. destruct (shape_lookup _ _ _ _ _ _ Ha Hsh E1') as (h1 & E1 & Hs1 & _).
    destruct (shape_lookup _ _ _ _ _ _ Ha Hsh E2') as (h2 & E2 & Hs2 & _). rewrite (shape_np _ _ Hs1), (shape_np _ _ Hs2).
    by apply (mi_apart _ _ _ _ I).
  - intros j Hj. etransitivity; [by apply (mi_used _ _ _ _ I j)|]. apply or_iff_compat_l. symmetry. by apply (shape_covered s _ a h h').
  - intros j Hj. apply (mi_mine _ _ _ _ I). revert Hj. by apply (shape_covered s _ a h h').
Qed.

(** malloc() takes the first free block. *)
Lemma take_block s A fl ex d b xs h l' ds : minv s A fl ex -> fl !! d = Some (b :: xs) -> arenas s !! arena_of b = Some h ->
  ex = 0 \/ ex = arena_of b -> lists_ok l' (fam free_list (<[d := xs]> fl)) -> dom l' = dom (links s) ->
  minv (mk_mstate (delete b l') (write (data s) b (junk b (Z.to_nat (bsz d))))
    (<[arena_of b := mk_arena (magic h) (arena_desc h) (free_cnt h - 1)]> (arenas s)) ds (pages s)) (<[b := bsz d]> A) (<[d := xs]> fl) 0.
Proof using All.
  intros I Hx Ha Hex HL Hdom. destruct (free_arena_of I _ _ b Hx ltac:(left)) as (h0 & Ha0 & Hd & Hs). rewrite Ha in Ha0. injection Ha0 as <-.
  pose proof (free_nodup I _ _ Hx) as Hnd. apply NoDup_cons in Hnd as [Hnb Hnd]. pose proof (lookup_lt_Some _ _ _ Hx) as Hdl.
  pose proof (free_not_live I _ _ b Hx ltac:(left)) as HAb. pose proof (in_arena_le I _ _ _ _ Ha Hd Hx) as Hle.
  destruct (ar_small _ _ _ _ _ _ (mi_arena _ _ _ _ I _ _ Ha) d Hd) as (Hd7 & ys & Hy & Hc & _ & Hblk). rewrite Hx in Hy. injection Hy as <-.
  rewrite in_arena_cons, decide_True in Hc, Hle by done. cbn [length] in Hc, Hle.
  eapply (minv_block s A fl ex _ h d (b :: xs) xs); [done..| | | | |lia|lia| | | | | |].
  - apply lists_ok_delete; [done|]. rewrite <- (fam_insert free_list) by done. apply (removed_unlinked (links s) _ _ [] b xs (mi_lists _ _ _ _ I)).
    by rewrite (lookup_fam_at free_list).
  - intros x. rewrite dom_delete, Hdom, elem_of_difference, elem_of_singleton. intros [Hin Hnx]. left. split; [done|]. by intros [?|?]%elem_of_cons.
  - intros x Hin. left. by right.
  - intros a2 Hne. rewrite in_arena_cons, decide_False by done. done.
  - intros a2 Hp Hne. lia.
  - intros i Hi. destruct (Hblk i Hi) as [[E|Hin]%elem_of_cons|HA]; [right; rewrite E; apply lookup_insert_eq|by left|].
    right. rewrite lookup_insert_ne; [done|]. congruence.
  - intros p Hp. rewrite lookup_insert_ne; [done|]. by intros ->.
  - intros p n Ep. rewrite lookup_insert_Some. intros [[<- <-]|[Hne HA]]; [done|].
    destruct (live_arena I _ _ HA) as (h2 & E2 & S2 & N2). rewrite Ep, Ha in *. simplify_eq. split; [done|]. intros Hin. apply N2.
    exists d, (b :: xs). split_and!; [done|done|by right].
  - intros x. apply data_added; [destruct (geo d Hd7); lia|done|apply (mi_data _ _ _ _ I)].
  - intros x v. apply bytes_added, (mi_bytes _ _ _ _ I).
Qed.

(** free() puts a block in front of the free list. *)
Lemma put_block s A fl d b xs h l' D ds : minv s A fl 0 -> A !! b = Some (bsz d) -> arenas s !! arena_of b = Some h -> arena_desc h = Some d ->
  fl !! d = Some xs -> lists_ok l' (fam free_list (<[d := b :: xs]> fl)) -> dom l' = {[b]} ∪ dom (links s) ->
  (forall x, is_Some (D !! x) <-> is_Some (data s !! x)) -> (forall x v, D !! x = Some v -> in_u 8 v) ->
  minv (mk_mstate l' (filter (fun kv => ~ (b <= kv.1 < b + bsz d)) D)
    (<[arena_of b := mk_arena (magic h) (arena_desc h) (free_cnt h + 1)]> (arenas s)) ds (pages s)) (delete b A) (<[d := b :: xs]> fl) (arena_of b).
Proof using All.
  intros I HA Ha Hd Hx HL Hdom HD HB. destruct (live_arena I _ _ HA) as (h0 & Ha0 & Hs & Hn). rewrite Ha in Ha0. injection Ha0 as <-.
  destruct (ar_small _ _ _ _ _ _ (mi_arena _ _ _ _ I _ _ Ha) d Hd) as (Hd7 & ys & Hy & Hc & _ & Hblk). rewrite Hx in Hy. injection Hy as <-.
  eapply (minv_block s A fl 0 _ h d xs (b :: xs)); [done..| | | | |lia| | | | | |].
  - intros x. rewrite Hdom. intros [->%elem_of_singleton|Hin]%elem_of_union; [right; left|left; split; [done|by right]].
  - intros x [->|Hin]%elem_of_cons; [by right|by left].
  - intros a2 Hne. rewrite in_arena_cons, decide_False by done. done.
  - rewrite in_arena_cons, decide_True by done. cbn. lia.
  - intros a2 Hp Hne. lia.
  - intros i Hi. destruct (decide (blk (arena_of b) d i = b)) as [E|Hne]; [left; rewrite E; left|].
    destruct (Hblk i Hi) as [Hin|HAi]; [left; by right|right]. by rewrite lookup_delete_ne.
  - intros p Hp. rewrite lookup_delete_ne; [done|]. by intros ->.
  - intros p n Ep. rewrite lookup_delete_Some. intros [Hne HAp]. destruct (live_arena I _ _ HAp) as (h2 & E2 & S2 & N2). rewrite Ep, Ha in *.
    simplify_eq. split; [done|]. intros [->|Hin]%elem_of_cons; [done|]. apply N2. by exists d, xs.
  - intros x. apply data_removed; [done| |intros y; rewrite HD; apply (mi_data _ _ _ _ I)]. intros p m Hp Hne. eapply (live_apart I); done.
  - intros x v. rewrite map_lookup_filter_Some. intros [Hv _]. by eapply HB.
Qed.

(** ** Arenas come and go *)

Definition with_kernel (p : pool) (ps : pools) : pools := mk_pools p (user_pool ps).

Lemma with_kernel_wf ps p f : pools_wf ps -> pool_updated (kernel_pool ps) p f -> pools_wf (with_kernel p ps).
Proof using All.
  intros (Hk & Hu & Hd) Hup. pose proof (pool_updated_wf _ _ _ Hk Hup) as Hw. destruct Hup as (Eb & _ & Ec & _).
  split; [done|]. split; [done|]. cbn. by rewrite Eb, Ec.
Qed.

(** Pages that were not in use are apart from every arena. *)
Lemma fresh_apart s A fl ex k n a h : minv s A fl ex -> 0 <= k -> (forall j, k <= j < k + n -> used (kp s) j = false) -> 0 < n ->
  arenas s !! a = Some h -> page (kp s) k + 4096 * n <= a \/ a + 4096 * np h <= page (kp s) k.
Proof using All.
  intros I Hk Hu Hn Ha. destruct (mi_arena _ _ _ _ I a h Ha) as [_ Hnp (k2 & -> & Hk2 & Hb & Hu2) _ _].
  destruct (decide (k + n <= k2)) as [?|H1]; [left; unfold page; lia|]. destruct (decide (k2 + np h <= k)) as [?|H2]; [right; unfold page; lia|].
  exfalso. pose proof (Hu (Z.max k k2) ltac:(lia)). pose proof (Hu2 (Z.max k k2) ltac:(lia)). congruence.
Qed.

Lemma slot_bounds a h p n : (forall d, arena_desc h = Some d -> (d < 7)%nat) -> 1 <= np h -> slot a h p n -> a + 12 <= p /\ p + n <= a + 4096 * np h.
Proof using All.
  intros Hd Hnp Hs. unfold slot, np in *. destruct (arena_desc h) as [d|] eqn:Ed; [|lia]. destruct Hs as (-> & i & Hi & ->).
  pose proof (blk_range a d i (Hd d eq_refl) Hi). lia.
Qed.

Lemma minv_add s A fl ex k h p' fl' A' D' l' ds ex' : minv s A fl ex -> let a := page (kp s) k in
  0 <= k -> k + np h <= bit_cnt (used_map (kp s)) -> 1 <= np h -> (forall j, k <= j < k + np h -> used (kp s) j = false) ->
  pool_updated (kp s) p' (fun j => if in_range k (np h) j then true else used (kp s) j) ->
  (forall d, arena_desc h = Some d -> (d < 7)%nat) -> length fl' = 7%nat ->
  let s' := mk_mstate l' D' (<[a := h]> (arenas s)) ds (with_kernel p' (pages s)) in
  lists_ok l' (fam free_list fl') -> (forall x, x ∈ dom l' -> x ∈ dom (links s) \/ exists d xs, fl' !! d = Some xs /\ x ∈ xs) ->
  (forall d xs, fl !! d = Some xs -> exists xs', fl' !! d = Some xs' /\ (forall x, x ∈ xs -> x ∈ xs') /\
     (forall x, x ∈ xs' -> x ∈ xs \/ arena_desc h = Some d /\ slot a h x (bsz d)) /\ forall a2, a2 <> a -> in_arena a2 xs' = in_arena a2 xs) ->
  arena_ok s' A' fl' ex' a h -> (forall a2, 0 < a2 -> a2 <> a -> a2 <> ex' -> a2 <> ex) ->
  (forall p n, A !! p = Some n -> A' !! p = Some n) -> (forall p n, A' !! p = Some n -> A !! p = Some n \/ slot a h p n /\ ~ free_in fl' h p) ->
  (forall x, is_Some (D' !! x) <-> exists p n, A' !! p = Some n /\ p <= x < p + n) -> (forall x v, D' !! x = Some v -> in_u 8 v) ->
  minv s' A' fl' ex'.
Proof using All.
  intros I a Hk Hb Hnp Hfr Hup Hd7 Hlen s' HL Hlinks Hfl Hself Hex HA HA' HD HB.
  assert (Hapart : forall a2 h2, arenas s !! a2 = Some h2 -> a + 4096 * np h <= a2 \/ a2 + 4096 * np h2 <= a).
  { intros a2 h2 E2. apply (fresh_apart s A fl ex k (np h) a2 h2 I); [done|done|lia|done]. }
  assert (Hnew : arenas s !! a = None).
  { destruct (arenas s !! a) as [h2|] eqn:E2; [|done]. destruct (arena_page I _ _ E2) as (_ & _ & _ & _ & ?). specialize (Hapart _ _ E2). lia. }
  pose proof Hup as (Eb & _ & Ec & _ & Hbit).
  assert (Hold : forall d xs', fl' !! d = Some xs' -> exists xs, fl !! d = Some xs).
  { intros d xs' E. apply lookup_lt_is_Some. rewrite (mi_len _ _ _ _ I), <- Hlen. by eapply lookup_lt_Some. }
  assert (Hcov : forall j, covered s' j <-> (a <= page (kp s) j < a + 4096 * np h \/ covered s j)).
  { intros j. unfold covered. cbn [s' arenas pages with_kernel kernel_pool]. replace (page p' j) with (page (kp s) j) by (unfold page; by rewrite Eb). split.
    - intros (a2 & h2 & E2 & Hr). apply lookup_insert_Some in E2 as [[<- <-]|[_ E2]]; [by left|right; eauto].
    - intros [Hr|(a2 & h2 & E2 & Hr)]; [exists a, h; by rewrite lookup_insert_eq|]. exists a2, h2. rewrite lookup_insert_ne; [done|]. intros <-. congruence. }
  split; cbn [s' links data arenas pages]; [done|done|cbn; rewrite Eb; apply (mi_static _ _ _ _ I)| |by eapply with_kernel_wf; [apply (mi_pools _ _ _ _ I)|]| | | |done|done| | |].
  - intros x [Hx|Hx]%Hlinks; [|by right]. cbn. rewrite Eb. destruct (mi_links _ _ _ _ I x Hx) as [?|(d & xs & E & Hin)]; [by left|]. right.
    destruct (Hfl _ _ E) as (xs' & E' & H1 & _). exists d, xs'. auto.
  - intros d xs' x E' Hin. destruct (Hold _ _ E') as [xs E]. destruct (Hfl _ _ E) as (zs & Ez & _ & H2 & _). simplify_eq.
    destruct (H2 x Hin) as [Hx|[Hd Hs]]; [|exists a, h; by rewrite lookup_insert_eq].
    destruct (mi_free _ _ _ _ I _ _ _ E Hx) as (a2 & h2 & E2 & D2 & S2). exists a2, h2. rewrite lookup_insert_ne; [done|]. intros <-. congruence.
  - intros a2 h2 E2. apply lookup_insert_Some in E2 as [[<- <-]|[Hne E2]]; [exact Hself|].
    eapply arena_ok_other; [by apply (mi_arena _ _ _ _ I)|by apply (arena_page I _ _ E2)| | |eauto|apply Hex; [by apply (arena_page I _ _ E2)|done]].
    + split; [exact Eb|]. split; [exact Ec|]. intros j Hj Hj0 Hu. unfold used in *. cbn. rewrite Hbit by done. by destruct (in_range _ _ _).
    + intros d xs Ed Ex. destruct (Hfl _ _ Ex) as (xs' & E' & _ & _ & H3). exists xs'. auto.
  - intros p n [Hp|[Hs Hn]]%HA'; [|exists a, h; by rewrite lookup_insert_eq].
    destruct (mi_live _ _ _ _ I _ _ Hp) as (a2 & h2 & E2 & S2 & N2). exists a2, h2. rewrite lookup_insert_ne by (intros <-; congruence).
    split; [done|]. split; [done|]. intros (d & xs' & Ed & E' & Hin). destruct (Hold _ _ E') as [xs E]. destruct (Hfl _ _ E) as (zs & Ez & _ & H2 & _).
    simplify_eq. destruct (H2 p Hin) as [Hx|[Hdh Hs]]; [apply N2; by exists d, xs|].
    pose proof (slot_bounds _ _ _ _ Hd7 Hnp Hs). pose proof (slot_range I _ _ _ _ E2 S2). destruct (geo d (Hd7 d Hdh)). specialize (Hapart _ _ E2). lia.
  - intros a1 a2 h1 h2. rewrite !lookup_insert_Some. intros [[<- <-]|[N1 E1]] [[<- <-]|[N2 E2]] Hne; [done| | |by apply (mi_apart _ _ _ _ I)].
    + specialize (Hapart _ _ E2). lia.
    + specialize (Hapart _ _ E1). lia.
  - intros j Hj. rewrite Hcov. cbn in Hj |- *. rewrite Ec in Hj. unfold used. rewrite Hbit by lia. destruct (in_range k (np h) j) eqn:Er; unfold in_range in Er.
    + split; [|done]. right. left. unfold a, page. lia.
    + rewrite (mi_used _ _ _ _ I j Hj). split; [tauto|]. intros [?|[Hr|?]]; [tauto| |tauto]. unfold a, page in Hr. lia.
  - intros j [Hr|Hc]%Hcov; [|by apply (mi_mine _ _ _ _ I)]. assert (Hj : k <= j < k + np h) by (unfold a, page in Hr; lia).
    intros Ho. pose proof (Hfr j Hj) as Hf. rewrite (proj2 (mi_used _ _ _ _ I j ltac:(lia))) in Hf; [done|by left].
Qed.

Lemma minv_drop s A fl ex a h k p' fl' A' D' l' ds : minv s A fl ex -> arenas s !! a = Some h -> a = page (kp s) k -> ex = 0 \/ ex = a ->
  pool_updated (kp s) p' (fun j => if in_range k (np h) j then false else used (kp s) j) -> length fl' = 7%nat ->
  lists_ok l' (fam free_list fl') -> (forall x, x ∈ dom l' -> x ∈ dom (links s) /\ (arena_of x <> a \/ x < base (kp s))) ->
  (forall d xs, fl !! d = Some xs -> exists xs', fl' !! d = Some xs' /\ (forall x, x ∈ xs' <-> x ∈ xs /\ arena_of x <> a) /\
     forall a2, a2 <> a -> in_arena a2 xs' = in_arena a2 xs) ->
  (forall p n, A' !! p = Some n <-> A !! p = Some n /\ arena_of p <> a) ->
  (forall x, is_Some (D' !! x) <-> exists p n, A' !! p = Some n /\ p <= x < p + n) -> (forall x v, D' !! x = Some v -> in_u 8 v) ->
  minv (mk_mstate l' D' (delete a (arenas s)) ds (with_kernel p' (pages s))) A' fl' 0.
Proof using All.
  intros I Ha Ek Hex Hup Hlen HL Hlinks Hfl HA HD HB. pose proof Hup as (Eb & _ & Ec & _ & Hbit).
  assert (Hold : forall d xs', fl' !! d = Some xs' -> exists xs, fl !! d = Some xs).
  { intros d xs' E. apply lookup_lt_is_Some. rewrite (mi_len _ _ _ _ I), <- Hlen. by eapply lookup_lt_Some. }
  assert (Hcov : forall j, covered (mk_mstate l' D' (delete a (arenas s)) ds (with_kernel p' (pages s))) j <->
    covered s j /\ ~ (a <= page (kp s) j < a + 4096 * np h)).
  { intros j. unfold covered. cbn [arenas pages with_kernel kernel_pool]. replace (page p' j) with (page (kp s) j) by (unfold page; by rewrite Eb). split.
    - intros (a2 & h2 & E2 & Hr). apply lookup_delete_Some in E2 as [Hne E2]. split; [eauto|]. pose proof (mi_apart _ _ _ _ I _ _ _ _ Ha E2 Hne). lia.
    - intros [(a2 & h2 & E2 & Hr) Hn]. exists a2, h2. rewrite lookup_delete_ne; [done|]. intros <-. simplify_eq. done. }
  split; cbn [links data arenas pages]; [done|done|cbn; rewrite Eb; apply (mi_static _ _ _ _ I)| |by eapply with_kernel_wf; [apply (mi_pools _ _ _ _ I)|]| | | |done|done| | |].
  - intros x [Hx Hn]%Hlinks. cbn. rewrite Eb. destruct (mi_links _ _ _ _ I x Hx) as [?|(d & xs & E & Hin)]; [by left|].
    destruct Hn as [Hn|?]; [|by left]. right. destruct (Hfl _ _ E) as (xs' & E' & H1 & _). exists d, xs'. split; [done|]. by apply H1.
  - intros d xs' x E' Hin. destruct (Hold _ _ E') as [xs E]. destruct (Hfl _ _ E) as (zs & Ez & H1 & _). simplify_eq. destruct (proj1 (H1 x) Hin) as [Hx Hn].
    destruct (free_arena_of I _ _ _ E Hx) as (h2 & E2 & D2 & S2). exists (arena_of x), h2. by rewrite lookup_delete_ne.
  - intros a2 h2 E2. apply lookup_delete_Some in E2 as [Hne E2]. destruct (arena_page I _ _ E2) as (Hal & _ & Hpos & _).
    eapply arena_ok_other; [by apply (mi_arena _ _ _ _ I)|done| | | |lia].
    + split; [exact Eb|]. split; [exact Ec|]. intros j Hj Hj0 Hu. unfold used in *. cbn. rewrite Hbit by done.
      destruct (in_range k (np h) j) eqn:Er; [|done]. unfold in_range in Er. pose proof (mi_apart _ _ _ _ I _ _ _ _ Ha E2 Hne) as Hap. unfold page in *. lia.
    + intros d xs Ed Ex. destruct (Hfl _ _ Ex) as (xs' & E' & _ & H3). exists xs'. auto.
    + intros p n S2 Hp. apply HA. split; [done|]. by rewrite (slot_arena I _ _ _ _ E2 S2).
  - intros p n [Hp Hn]%HA. destruct (live_arena I _ _ Hp) as (h2 & E2 & S2 & N2). exists (arena_of p), h2. rewrite lookup_delete_ne by done.
    split; [done|]. split; [done|]. intros (d & xs' & Ed & E' & Hin). destruct (Hold _ _ E') as [xs E]. destruct (Hfl _ _ E) as (zs & Ez & H1 & _).
    simplify_eq. apply N2. exists d, xs. split; [done|]. split; [done|]. by apply H1.
  - intros a1 a2 h1 h2. rewrite !lookup_delete_Some. intros [N1 E1] [N2 E2]. by apply (mi_apart _ _ _ _ I).
  - intros j Hj. rewrite Hcov. cbn in Hj |- *. rewrite Ec in Hj. unfold used. rewrite Hbit by lia. destruct (in_range k (np h) j) eqn:Er; unfold in_range in Er.
    + assert (Hc : a <= page (kp s) j < a + 4096 * np h) by (rewrite Ek; unfold page; lia). split; [done|]. intros [Ho|[_ Hn]]; [|lia].
      by destruct (mi_mine _ _ _ _ I j); [exists a, h|].
    + rewrite (mi_used _ _ _ _ I j Hj). split; [|tauto]. intros [?|Hc]; [by left|right]. split; [done|]. rewrite Ek. unfold page. lia.
  - intros j [Hc _]%Hcov. by apply (mi_mine _ _ _ _ I).
Qed.

(** A page has been divided into blocks. *)
Definition blocks (a : Z) (d : nat) : list Z := map (fun i => blk a d (Z.of_nat i)) (seq 0 (Z.to_nat (bpa d))).

Lemma elem_of_blocks a d x : (d < 7)%nat -> x ∈ blocks a d <-> exists i, 0 <= i < bpa d /\ x = blk a d i.
Proof using All.
  intros Hd. destruct (geo d Hd). unfold blocks. rewrite list_elem_of_fmap. split.
  - intros (i & -> & Hi%elem_of_seq). exists (Z.of_nat i). split; [lia|done].
  - intros (i & Hi & ->). exists (Z.to_nat i). split; [f_equal; lia|]. apply elem_of_seq. lia.
Qed.

Lemma length_blocks a d : (d < 7)%nat -> Z.of_nat (length (blocks a d)) = bpa d.
Proof using All. intros Hd. destruct (geo d Hd). unfold blocks. rewrite length_map, length_seq. lia. Qed.

Lemma in_arena_blocks_all a d : (d < 7)%nat -> a mod 4096 = 0 -> in_arena a (blocks a d) = blocks a d.
Proof using All.
  intros Hd Ha. unfold in_arena. apply list_filter_all, Forall_forall. intros x (i & Hi & ->)%elem_of_blocks; [|done]. by apply arena_of_blk.
Qed.

Lemma in_arena_none a xs : (forall x, x ∈ xs -> arena_of x <> a) -> in_arena a xs = [].
Proof using All.
  induction xs as [|x xs IH]; intros Hn; [done|]. rewrite in_arena_cons, decide_False by (apply Hn; left). apply IH. intros y Hy. apply Hn. by right.
Qed.

Lemma add_small s A fl d k p' l' ds : minv s A fl 0 -> (d < 7)%nat -> fl !! d = Some [] -> let a := page (kp s) k in
  0 <= k -> k + 1 <= bit_cnt (used_map (kp s)) -> used (kp s) k = false ->
  pool_updated (kp s) p' (fun j => if in_range k 1 j then true else used (kp s) j) ->
  lists_ok l' (fam free_list (<[d := blocks a d]> fl)) -> (forall x, x ∈ dom l' -> x ∈ dom (links s) \/ x ∈ blocks a d) ->
  minv (mk_mstate l' (data s) (<[a := mk_arena ARENA_MAGIC (Some d) (bpa d)]> (arenas s)) ds (with_kernel p' (pages s))) A (<[d := blocks a d]> fl) a.
Proof using All.
  intros I Hd Hx a Hk Hb Hu Hup HL Hlinks. pose proof (lookup_lt_Some _ _ _ Hx) as Hdl. destruct (mi_pools _ _ _ _ I) as (Hw & _).
  assert (Hal : a mod 4096 = 0) by (by apply page_aligned). pose proof Hup as (Eb & _ & Ec & _ & Hbit).
  eapply (minv_add s A fl 0 k (mk_arena ARENA_MAGIC (Some d) (bpa d)) p'); [done|done|done|done| |done| |by rewrite length_insert, (mi_len _ _ _ _ I)|done| | | | |auto| |apply (mi_data _ _ _ _ I)|apply (mi_bytes _ _ _ _ I)].
  - intros j Hj. cbn in Hj. by replace j with k by lia.
  - intros d' [= <-]. done.
  - intros x [?|?]%Hlinks; [by left|right]. exists d, (blocks a d). by rewrite list_lookup_insert_eq.
  - intros d2 xs H2. destruct (decide (d = d2)) as [<-|Hne].
    + simplify_eq. exists (blocks a d). rewrite list_lookup_insert_eq by done. split; [done|]. split; [by intros x ?%elem_of_nil|]. split.
      * intros x (i & Hi & ->)%elem_of_blocks; [|done]. right. split; [done|]. split; [done|eauto].
      * intros a2 Hne. rewrite (in_arena_none a2 (blocks a d)); [done|]. intros x (i & Hi & ->)%elem_of_blocks; [|done]. by rewrite arena_of_blk.
    + exists xs. rewrite list_lookup_insert_ne by done. split; [done|]. split; [done|]. split; [by left|done].
  - split; cbn; [done|done| | |done].
    + exists k. rewrite Ec. split; [unfold page, a; by rewrite Eb|]. split; [done|]. split; [done|]. intros j Hj. unfold used. rewrite Hbit by lia.
      unfold in_range. by replace ((k <=? j) && (j <? k + 1)) with true by lia.
    + intros d' [= <-]. split; [done|]. exists (blocks a d). rewrite list_lookup_insert_eq by done. split; [done|].
      rewrite in_arena_blocks_all, length_blocks by done. split; [done|]. split; [lia|]. intros i Hi. left. apply elem_of_blocks; [done|]. eauto.
  - intros a2 Hp Hne. lia.
  - intros p n Hp. by left.
Qed.

Lemma fresh_arena s A fl ex k : minv s A fl ex -> 0 <= k -> used (kp s) k = false -> arenas s !! page (kp s) k = None.
Proof using All.
  intros I Hk Hu. destruct (arenas s !! page (kp s) k) as [h|] eqn:E; [|done]. destruct (arena_page I _ _ E) as (_ & _ & _ & _ & ?).
  destruct (fresh_apart s A fl ex k 1 (page (kp s) k) h I Hk); [|lia|exact E|lia|lia]. intros j Hj. by replace j with k by lia.
Qed.

Lemma add_big s A fl k n p' ds : minv s A fl 0 -> let a := page (kp s) k in
  0 <= k -> k + n <= bit_cnt (used_map (kp s)) -> 1 <= n -> (forall j, k <= j < k + n -> used (kp s) j = false) ->
  pool_updated (kp s) p' (fun j => if in_range k n j then true else used (kp s) j) ->
  minv (mk_mstate (links s) (write (data s) (a + 12) (junk (a + 12) (Z.to_nat (4096 * n - 12))))
    (<[a := mk_arena ARENA_MAGIC None n]> (arenas s)) ds (with_kernel p' (pages s))) (<[a + 12 := 4096 * n - 12]> A) fl 0 /\ A !! (a + 12) = None.
Proof using All.
  intros I a Hk Hb Hn Hu Hup. destruct (mi_pools _ _ _ _ I) as (Hw & _). assert (Hal : a mod 4096 = 0) by (by apply page_aligned).
  pose proof (fresh_arena s A fl 0 k I Hk (Hu k ltac:(lia))) as Hnew. pose proof Hup as (Eb & _ & Ec & _ & Hbit).
  assert (Hnone : A !! (a + 12) = None).
  { destruct (A !! (a + 12)) as [m|] eqn:E; [|done]. destruct (live_arena I _ _ E) as (h & Ha & _). rewrite (arena_of_in a) in Ha by (done || lia). fold a in Hnew. congruence. }
  split; [|done]. apply (minv_add s A fl 0 k (mk_arena ARENA_MAGIC None n) p'); try done.
  - apply (mi_len _ _ _ _ I).
  - apply (mi_lists _ _ _ _ I).
  - intros x Hx. by left.
  - intros d xs E. exists xs. split_and!; [done|done|by left|done].
  - split; cbn; [done|done| |done|intros _; apply lookup_insert_eq].
    exists k. rewrite Ec. split; [unfold page, a; by rewrite Eb|]. split; [done|]. split; [done|]. intros j Hj. unfold used. rewrite Hbit by lia.
    unfold in_range. by replace ((k <=? j) && (j <? k + n)) with true by lia.
  - intros p m Hp. rewrite lookup_insert_ne; [done|]. intros <-. congruence.
  - intros p m. rewrite lookup_insert_Some. intros [[<- <-]|[_ Hp]]; [right|by left]. split; [done|]. intros (d & xs & Hd & _). done.
  - intros x. apply data_added; [lia|done|apply (mi_data _ _ _ _ I)].
  - intros x v. apply bytes_added, (mi_bytes _ _ _ _ I).
Qed.

Lemma drop_big s A fl a h k p' ds : minv s A fl 0 -> arenas s !! a = Some h -> arena_desc h = None -> a = page (kp s) k ->
  pool_updated (kp s) p' (fun j => if in_range k (free_cnt h) j then false else used (kp s) j) ->
  minv (mk_mstate (links s) (filter (fun kv => ~ (a + 12 <= kv.1 < a + 12 + (4096 * free_cnt h - 12))) (data s)) (delete a (arenas s)) ds
    (with_kernel p' (pages s))) (delete (a + 12) A) fl 0.
Proof using All.
  intros I Ha Hd Ek Hup. pose proof (ar_big _ _ _ _ _ _ (mi_arena _ _ _ _ I _ _ Ha) Hd) as HA. destruct (arena_page I _ _ Ha) as (Hal & Hbase & _).
  assert (Hfree : forall d xs x, fl !! d = Some xs -> x ∈ xs -> arena_of x <> a).
  { intros d xs x E Hin Ex. destruct (free_arena_of I _ _ _ E Hin) as (h2 & E2 & D2 & _). rewrite Ex, Ha in E2. congruence. }
  apply (minv_drop s A fl 0 a h k p'); try done; [by left|unfold np; by rewrite Hd|apply (mi_len _ _ _ _ I)|apply (mi_lists _ _ _ _ I)| | | | |].
  - intros x Hx. split; [done|]. destruct (mi_links _ _ _ _ I x Hx) as [?|(d & xs & E & Hin)]; [by right|left; by eapply Hfree].
  - intros d xs E. exists xs. split; [done|]. split; [|done]. intros x. split; [|tauto]. intros Hin. split; [done|by eapply Hfree].
  - intros p n. rewrite lookup_delete_Some. split.
    + intros [Hne Hp]. split; [done|]. intros Ep. destruct (live_arena I _ _ Hp) as (h2 & E2 & S2 & _). rewrite Ep, Ha in *. simplify_eq.
      unfold slot in S2. rewrite Hd in S2. lia.
    + intros [Hp Hne]. split; [|done]. intros <-. apply Hne. apply arena_of_in; [done|lia].
  - intros x. apply data_removed; [done| |apply (mi_data _ _ _ _ I)]. intros p m Hp Hne. eapply (live_apart I); done.
  - intros x v. rewrite map_lookup_filter_Some. intros [Hv _]. by eapply (mi_bytes _ _ _ _ I).
Qed.

Definition out_arena (a : Z) (xs : list Z) : list Z := filter (fun x => arena_of x <> a) xs.

Lemma in_out_arena a a2 xs : a2 <> a -> in_arena a2 (out_arena a xs) = in_arena a2 xs.
Proof using All.
  intros Hne. unfold out_arena. induction xs as [|x xs IH]; [done|]. rewrite filter_cons. destruct (decide (arena_of x <> a)) as [H1|H1]; rewrite !in_arena_cons.
  - by rewrite IH.
  - rewrite decide_False; [done|]. intros E. apply H1. congruence.
Qed.

(** All blocks of the arena are free. *)
Lemma full_blocks s A fl ex a h d xs : minv s A fl ex -> arenas s !! a = Some h -> arena_desc h = Some d -> fl !! d = Some xs -> free_cnt h = bpa d ->
  (forall x, x ∈ blocks a d <-> x ∈ xs /\ arena_of x = a) /\ forall p n, A !! p = Some n -> arena_of p <> a.
Proof using All.
  intros I Ha Hd Hx Hc. destruct (ar_small _ _ _ _ _ _ (mi_arena _ _ _ _ I _ _ Ha) d Hd) as (Hd7 & ys & Hy & Hcnt & _ & _). simplify_eq.
  assert (Hp : in_arena a xs ≡ₚ blocks a d).
  { apply submseteq_length_Permutation; [by eapply (in_arena_perm I)|]. pose proof (length_blocks a d Hd7). lia. }
  assert (Hb : forall x, x ∈ blocks a d <-> x ∈ xs /\ arena_of x = a).
  { intros x. rewrite <- Hp. unfold in_arena. rewrite list_elem_of_filter. tauto. }
  split; [done|]. intros p n HA Ep. destruct (live_arena I _ _ HA) as (h2 & E2 & S2 & N2). rewrite Ep, Ha in *. simplify_eq. apply N2. exists d, xs.
  split_and!; [done|done|]. unfold slot in S2. rewrite Hd in S2. apply Hb, elem_of_blocks; [done|]. apply S2.
Qed.

Lemma drop_small s A fl ex a h d xs k p' l' ds : minv s A fl ex -> arenas s !! a = Some h -> arena_desc h = Some d -> fl !! d = Some xs -> free_cnt h = bpa d ->
  ex = 0 \/ ex = a -> a = page (kp s) k -> pool_updated (kp s) p' (fun j => if in_range k 1 j then false else used (kp s) j) ->
  lists_ok l' (fam free_list (<[d := out_arena a xs]> fl)) -> dom l' = dom (links s) ∖ list_to_set (blocks a d) ->
  minv (mk_mstate l' (data s) (delete a (arenas s)) ds (with_kernel p' (pages s))) A (<[d := out_arena a xs]> fl) 0.
Proof using All.
  intros I Ha Hd Hx Hc Hex Ek Hup HL Hdom. destruct (full_blocks _ _ _ _ _ _ _ _ I Ha Hd Hx Hc) as [Hb Hlive].
  pose proof (lookup_lt_Some _ _ _ Hx) as Hdl.
  assert (Hother : forall d2 xs2 x, fl !! d2 = Some xs2 -> x ∈ xs2 -> d2 <> d -> arena_of x <> a).
  { intros d2 xs2 x E Hin Hne Ex. destruct (free_arena_of I _ _ _ E Hin) as (h2 & E2 & D2 & _). rewrite Ex, Ha in E2. simplify_eq. }
  apply (minv_drop s A fl ex a h k p'); try done; [unfold np; by rewrite Hd|by rewrite length_insert, (mi_len _ _ _ _ I)| | | |apply (mi_data _ _ _ _ I)|apply (mi_bytes _ _ _ _ I)].
  - intros x. rewrite Hdom, elem_of_difference, elem_of_list_to_set. intros [Hin Hn]. split; [done|].
    destruct (mi_links _ _ _ _ I x Hin) as [?|(d2 & xs2 & E & Hin2)]; [by right|left]. destruct (decide (d2 = d)) as [->|Hne]; [|by eapply Hother].
    simplify_eq. intros Ex. apply Hn, Hb. done.
  - intros d2 xs2 E. destruct (decide (d = d2)) as [<-|Hne].
    + rewrite Hx in E. injection E as <-. exists (out_arena a xs). rewrite list_lookup_insert_eq by done. split; [done|]. split; [|intros; by apply in_out_arena].
      intros x. unfold out_arena. rewrite list_elem_of_filter. tauto.
    + exists xs2. rewrite list_lookup_insert_ne by done. split; [done|]. split; [|done]. intros x. split; [|tauto]. intros Hin. split; [done|by eapply Hother].
  - intros p n. split; [|tauto]. intros Hp. split; [done|by eapply Hlive].
Qed.
End Invariant.
