(* ===== verification/MallocProps.v ===== *)
(** * The block allocator: correctness

    The effect of each function, and then the theorems on malloc(), calloc(),
    realloc() and free(). *)

From Stdlib Require Import ZArith Lia.
From stdpp Require Import base numbers gmap list.
From S2P Require Import Prelude DList Bitmap Vaddr Palloc Kernel Bytes StrLib Hash Malloc MallocInv.

Open Scope Z_scope.

(** * The block allocator: the effect of its functions *)

Section Operations.
Context {image : Image} {oth : Others}.

(** ** Accesses *)

Lemma wp_get_desc s d x (Q : desc -> mstate -> Prop) : descs s !! d = Some x -> Q x s -> wp (get_desc d) Q s.
Proof using All. intros E HQ. unfold get_desc, wp, bind, get. by rewrite E. Qed.

Lemma wp_get_arena s a h (Q : arena -> mstate -> Prop) : arenas s !! a = Some h -> Q h s -> wp (get_arena a) Q s.
Proof using All. intros E HQ. unfold get_arena, wp, bind, get. by rewrite E. Qed.

Lemma wp_links_op {A} (m : M mem A) s (Q : A -> mstate -> Prop) : wp m (fun a h => Q a (set_links h s)) (links s) -> wp (lst_op m) Q s.
Proof using All. apply wp_zoom. Qed.

Lemma wp_on_data {A} (m : M bytes A) s (Q : A -> mstate -> Prop) : wp m (fun a h => Q a (set_data h s)) (data s) -> wp (on_data m) Q s.
Proof using All. apply wp_zoom. Qed.

(** The descriptors, some lock held or not. *)
Definition std_like (ds : list desc) : Prop := forall d, (d < 7)%nat -> exists b, ds !! d = Some (mk_desc (bsz d) (bpa d) b).

Lemma std_std : std_like std.
Proof using All. intros d Hd. exists false. by apply std_lookup. Qed.

Lemma std_held_like d : std_like (std_held d).
Proof using All.
  intros d2 Hd2. unfold std_held. destruct (decide (d = d2)) as [->|Hne].
  - exists true. rewrite list_lookup_insert_eq; [done|]. exact Hd2.
  - exists false. rewrite list_lookup_insert_ne by done. by apply std_lookup.
Qed.

Lemma std_held_lookup d : (d < 7)%nat -> std_held d !! d = Some (mk_desc (bsz d) (bpa d) true).
Proof using All. intros Hd. unfold std_held. by rewrite list_lookup_insert_eq. Qed.

Lemma wp_acquire_desc s d (Q : unit -> mstate -> Prop) : descs s = std -> (d < 7)%nat -> Q tt (set_descs (std_held d) s) -> wp (acquire_desc d) Q s.
Proof using All.
  intros Es Hd HQ. unfold acquire_desc. apply wp_bind. eapply wp_get_desc; [rewrite Es; by apply std_lookup|]. apply wp_bind, wp_assertb; [done|].
  unfold set_held. apply wp_bind. eapply wp_get_desc; [rewrite Es; by apply std_lookup|]. red. cbn [modify block_bytes Malloc.blocks_per_arena]. rewrite Es. exact HQ.
Qed.

Lemma wp_release_desc s d (Q : unit -> mstate -> Prop) : descs s = std_held d -> (d < 7)%nat -> Q tt (set_descs std s) -> wp (release_desc d) Q s.
Proof using All.
  intros Es Hd HQ. unfold release_desc. apply wp_bind. eapply wp_get_desc; [rewrite Es; by apply std_held_lookup|]. apply wp_bind, wp_assertb; [done|].
  unfold set_held. apply wp_bind. eapply wp_get_desc; [rewrite Es; by apply std_held_lookup|]. red. cbn [modify block_bytes Malloc.blocks_per_arena]. rewrite Es.
  replace (<[d := mk_desc (bsz d) (bpa d) false]> (std_held d)) with std; [exact HQ|]. unfold std_held.
  rewrite list_insert_insert_eq, list_insert_id; [done|by apply std_lookup].
Qed.

(** Pages from the kernel's pool. *)
Lemma wp_get_pages s n (Q : Z -> mstate -> Prop) : pools_wf (pages s) -> 0 < n -> Q NULL s ->
  (forall k p', 0 <= k -> k + n <= bit_cnt (used_map (kp s)) -> (forall j, k <= j < k + n -> used (kp s) j = false) ->
     pool_updated (kp s) p' (fun j => if in_range k n j then true else used (kp s) j) -> 0 < page (kp s) k ->
     Q (page (kp s) k) (set_pages (with_kernel p' (pages s)) s)) ->
  wp (get_pages n) Q s.
Proof using All.
  intros (Hw & _) Hn H0 H1. unfold get_pages. rewrite (proj2 (Z.eqb_neq n 0)) by lia. apply wp_zoom.
  change (on_pool 0 (pool_get n)) with (on_kernel (pool_get n)). apply wp_zoom.
  destruct (pool_get_ok _ n Hw Hn) as [(i & p' & E & Hi & Hb & Hu & Hup) | [E _]]; apply (wp_eq _ _ _ _ _ E).
  - apply H1; [done..|]. pose proof (page_range _ i Hw). lia.
  - replace (set_pages _ s) with s; [done|]. destruct s as [l d a ds [k u]]. done.
Qed.

Lemma wp_free_pages s a k n (Q : unit -> mstate -> Prop) : pools_wf (pages s) -> a = page (kp s) k -> 0 <= k -> 0 < n ->
  k + n <= bit_cnt (used_map (kp s)) -> (forall j, k <= j < k + n -> used (kp s) j = true) ->
  (forall p', pool_updated (kp s) p' (fun j => if in_range k n j then false else used (kp s) j) -> Q tt (set_pages (with_kernel p' (pages s)) s)) ->
  wp (on_pages (palloc_free_multiple a n)) Q s.
Proof using All.
  intros Hw -> Hk Hn Hb Hu HQ. apply wp_zoom. destruct (palloc_free_kernel _ k n Hw Hk Hn Hb Hu) as (p' & E & Hup).
  apply (wp_eq _ _ _ _ _ E). by apply HQ.
Qed.

(** ** Arenas and blocks *)

Lemma wp_block_to_arena s t A fl ex h b n (Q : Z -> mstate -> Prop) : minv s A fl ex -> arenas t = arenas s -> std_like (descs t) ->
  arenas s !! arena_of b = Some h -> slot (arena_of b) h b n -> Q (arena_of b) t -> wp (block_to_arena b) Q t.
Proof using All.
  intros I Et Hstd Ha Hs HQ. destruct (arena_page I _ _ Ha) as (Hal & _ & Hpos & Hmax & Hnp). pose proof (slot_range I _ _ _ _ Ha Hs) as (H1 & H2 & H3).
  pose proof (mi_arena _ _ _ _ I _ _ Ha) as Ho. unfold block_to_arena. rewrite pg_round_down_ok by (unfold in_u; lia). fold (arena_of b).
  apply wp_bind, wp_assertb; [rewrite (proj2 (Z.eqb_neq _ NULL)); [done|unfold NULL; lia]|]. apply wp_bind. eapply wp_get_arena; [rewrite Et; exact Ha|].
  apply wp_bind, wp_assertb; [rewrite (ar_magic _ _ _ _ _ _ Ho); done|]. rewrite pg_ofs_mod. apply wp_bind. unfold slot in Hs.
  destruct (arena_desc h) as [d|] eqn:Ed.
  - destruct (ar_small _ _ _ _ _ _ Ho d Ed) as (Hd & _). destruct (Hstd d Hd) as [bb Ex]. apply wp_bind. eapply wp_get_desc; [exact Ex|].
    cbn [block_bytes]. destruct Hs as (-> & i & Hi & Eb). pose proof (blk_range (arena_of b) d i Hd Hi). destruct (geo d Hd) as (G1 & G2 & G3).
    apply wp_assertb; [|by apply wp_ret]. replace (b mod 4096) with (b - arena_of b) by (unfold arena_of; Z.to_euclidean_division_equations; lia).
    rewrite uwrap_small by (unfold in_u, sizeof_arena; lia). replace (b - arena_of b - sizeof_arena) with (i * bsz d) by (rewrite Eb at 1; unfold blk, sizeof_arena; lia).
    rewrite Z.mod_mul by lia. done.
  - apply wp_assertb; [|by apply wp_ret]. replace (b mod 4096) with (b - arena_of b) by (unfold arena_of; Z.to_euclidean_division_equations; lia).
    destruct Hs as [Eb _]. unfold sizeof_arena. lia.
Qed.

Lemma wp_arena_to_block s a d c i (Q : Z -> mstate -> Prop) : arenas s !! a = Some (mk_arena ARENA_MAGIC (Some d) c) -> std_like (descs s) -> (d < 7)%nat ->
  0 <= i < bpa d -> 0 < a -> a + 4096 <= 2 ^ 32 -> Q (blk a d i) s -> wp (arena_to_block a i) Q s.
Proof using All.
  intros Ha Hstd Hd Hi Hpos Hmax HQ. destruct (Hstd d Hd) as [bb Ex]. pose proof (blk_range a d i Hd Hi). destruct (geo d Hd) as (G1 & G2 & G3).
  unfold arena_to_block. apply wp_bind, wp_assertb; [rewrite (proj2 (Z.eqb_neq _ NULL)); [done|unfold NULL; lia]|].
  apply wp_bind. eapply wp_get_arena; [exact Ha|]. apply wp_bind, wp_assertb; [done|]. apply wp_bind. red. cbn [arena_desc of_option ret].
  apply wp_bind. eapply wp_get_desc; [exact Ex|]. cbn [Malloc.blocks_per_arena block_bytes]. apply wp_bind, wp_assertb; [lia|]. apply wp_ret.
  change (a + sizeof_arena + i * bsz d) with (blk a d i). by rewrite uwrap_small by (unfold in_u; lia).
Qed.

(** ** Dividing a page *)

Definition first_blocks (a : Z) (d j : nat) : list Z := map (fun i => blk a d (Z.of_nat i)) (seq 0 j).

Lemma first_blocks_S a d j : first_blocks a d (S j) = first_blocks a d j ++ [blk a d (Z.of_nat j)].
Proof using All. unfold first_blocks. by rewrite seq_S, map_app. Qed.

Lemma elem_of_first a d j i : (d < 7)%nat -> blk a d (Z.of_nat i) ∈ first_blocks a d j -> (i < j)%nat.
Proof using All. intros Hd (k & E & Hk%elem_of_seq)%list_elem_of_fmap. apply blk_inj in E; [lia|done]. Qed.

Lemma lists_ok_dom h L e : lists_ok h L -> e ∉ dom h -> unlinked e L.
Proof using All. intros HL He l xs El Hin. apply He. eapply dll_dom; [by apply (lists_dll _ _ HL)|done]. Qed.

(** The loop that puts the blocks of a new arena on the free list. *)
Lemma wp_add_blocks s fl a d c (Q : unit -> mstate -> Prop) : (d < 7)%nat -> length fl = 7%nat -> fl !! d = Some [] ->
  arenas s !! a = Some (mk_arena ARENA_MAGIC (Some d) c) -> std_like (descs s) -> 0 < a -> a + 4096 <= 2 ^ 32 ->
  lists_ok (links s) (fam free_list fl) -> (forall i, 0 <= i < bpa d -> blk a d i ∉ dom (links s)) ->
  (forall l', lists_ok l' (fam free_list (<[d := blocks a d]> fl)) -> dom l' = dom (links s) ∪ list_to_set (blocks a d) -> Q tt (set_links l' s)) ->
  wp (for_from (Z.to_nat (bpa d)) 0 (fun i => b ← arena_to_block a i; as_elem b;; lst_op (list_push_back (free_list d) b))) Q s.
Proof using All.
  intros Hd Hlen Hx Ha Hstd Hpos Hmax HL Hfresh HQ. destruct (geo d Hd) as (G1 & G2 & G3). assert (Hdl : (d < length fl)%nat) by lia.
  eapply wp_mono; [apply (wp_for_from (fun i t => exists j l', i = Z.of_nat j /\ t = set_links l' s /\
    lists_ok l' (fam free_list (<[d := first_blocks a d j]> fl)) /\ dom l' = dom (links s) ∪ list_to_set (first_blocks a d j)))|].
  - exists 0%nat, (links s). split_and!; [done|by destruct s|cbn; by rewrite list_insert_id|cbn; set_solver].
  - intros i t Hi (j & l' & -> & -> & HLj & Hdom). apply wp_bind. eapply wp_arena_to_block; [exact Ha|exact Hstd|done|lia|done|done|].
    set (b := blk a d (Z.of_nat j)). assert (Hb : b ∉ dom l').
    { rewrite Hdom, not_elem_of_union, elem_of_list_to_set. split; [apply Hfresh; lia|]. intros Hin%elem_of_first; [lia|done]. }
    apply wp_bind. red. unfold as_elem. cbn [modify]. apply wp_links_op. cbn [links set_links].
    assert (HL1 : lists_ok (<[b := junk_elem b]> l') (fam free_list (<[d := first_blocks a d j]> fl))) by (by apply lists_ok_new).
    eapply (wp_lists_push_back _ _ HL1 (free_list d) (first_blocks a d j) b).
    + rewrite (lookup_fam_at free_list). by apply list_lookup_insert_eq.
    + rewrite dom_insert. set_solver.
    + pose proof (blk_range a d (Z.of_nat j) Hd ltac:(lia)). unfold b, NULL. lia.
    + exact (lists_ok_dom _ _ _ HLj Hb).
    + intros l2 HL2 Hd2. exists (S j), l2. split; [lia|]. split; [done|]. rewrite first_blocks_S. rewrite (fam_insert free_list), list_insert_insert_eq in HL2 by (by rewrite length_insert).
      split; [exact HL2|]. rewrite Hd2, dom_insert_L, Hdom. fold b. set_solver.
  - intros [] t (j & l' & Ej & -> & HLj & Hdom). replace j with (Z.to_nat (bpa d)) in * by lia. by apply HQ.
Qed.

Lemma wp_new_arena s A fl d (Q : bool -> mstate -> Prop) : minv s A fl 0 -> (d < 7)%nat -> fl !! d = Some [] -> descs s = std_held d -> Q false s ->
  (forall t a, minv t A (<[d := blocks a d]> fl) a -> 0 < a -> a mod 4096 = 0 -> data t = data s -> descs t = std_held d -> Q true t) ->
  wp (new_arena d) Q s.
Proof using All.
  intros I Hd Hx Es H0 H1. unfold new_arena. apply wp_bind. apply wp_get_pages; [apply (mi_pools _ _ _ _ I)|lia|by rewrite Z.eqb_refl; apply wp_ret|].
  intros k p' Hk Hb Hu Hup Hpos. set (a := page (kp s) k) in *. rewrite (proj2 (Z.eqb_neq a NULL)) by (unfold NULL; lia).
  destruct (mi_pools _ _ _ _ I) as (Hw & _). pose proof (page_range _ k Hw ltac:(lia)) as [_ Hmax]. fold a in Hmax.
  assert (Hal : a mod 4096 = 0) by (by apply page_aligned). pose proof (fresh_arena s A fl 0 k I Hk (Hu k ltac:(lia))) as Hnew. fold a in Hnew.
  apply wp_bind. eapply wp_get_desc; [cbn; rewrite Es; by apply std_held_lookup|]. cbn [Malloc.blocks_per_arena]. apply wp_bind. red. unfold set_arena. cbn [modify].
  apply wp_bind. eapply (wp_add_blocks _ fl a d (bpa d)); [done|apply (mi_len _ _ _ _ I)|done|cbn; apply lookup_insert_eq|cbn; rewrite Es; apply std_held_like|done|done|apply (mi_lists _ _ _ _ I)| |].
  - intros i Hi Hin. pose proof (blk_range a d i Hd Hi). destruct (mi_links _ _ _ _ I _ Hin) as [Hlt|(d2 & xs2 & E2 & Hin2)].
    + unfold a, page in *. lia.
    + destruct (free_arena_of I _ _ _ E2 Hin2) as (h2 & Ea & _). rewrite arena_of_blk in Ea by done. congruence.
  - intros l' HL' Hdom. apply wp_ret, (H1 _ a); [|done..|done]. apply (add_small s A fl d k p' l' (descs s)); try done.
    + by apply Hu; lia.
    + intros x. rewrite Hdom. set_solver.
Qed.

(** ** malloc() *)

Lemma find_desc_Some ds k size d : find_desc ds k size = Some d -> (k <= d)%nat /\ exists x, ds !! (d - k)%nat = Some x /\ size <= block_bytes x.
Proof using All.
  revert k. induction ds as [|x ds IH]; intros k; cbn [find_desc]; [done|]. destruct (Z.leb_spec size (block_bytes x)) as [Hle|Hlt].
  - intros [= <-]. split; [lia|]. exists x. by rewrite Nat.sub_diag.
  - intros E. destruct (IH _ E) as (Hk & y & Ey & Hy). split; [lia|]. exists y. split; [|done]. by replace (d - k)%nat with (S (d - S k)) by lia.
Qed.

Lemma find_desc_ok size d : find_desc std 0 size = Some d -> (d < 7)%nat /\ size <= bsz d.
Proof using All.
  intros (_ & x & Ex & Hx)%find_desc_Some. rewrite Nat.sub_0_r in Ex. assert (Hd : (d < 7)%nat) by (by apply lookup_lt_Some in Ex).
  split; [done|]. rewrite std_lookup in Ex by done. by injection Ex as <-.
Qed.

Definition rep (s : mstate) (A : gmap Z Z) : Prop := descs s = std /\ exists fl, minv s A fl 0.

(** The page count does not overflow. *)
Lemma page_cnt_ok size : 0 < size <= 2 ^ 32 - 4108 ->
  let n := DIV_ROUND_UP (u32 (size + sizeof_arena)) PGSIZE in 0 < n /\ size <= 4096 * n - 12.
Proof using All.
  intros Hs. unfold DIV_ROUND_UP, sizeof_arena. change PGSIZE with 4096. rewrite (uwrap_small 32 (size + 12)) by (unfold in_u; lia).
  rewrite uwrap_small by (unfold in_u; lia). cbn zeta. Z.to_euclidean_division_equations. lia.
Qed.

Lemma wp_big_block s A size (Q : Z -> mstate -> Prop) : rep s A -> 0 < size <= 2 ^ 32 - 4108 -> Q NULL s ->
  (forall t p n, rep t (<[p := n]> A) -> A !! p = None -> size <= n -> 0 < p -> data t = write (data s) p (junk p (Z.to_nat n)) -> Q p t) ->
  wp (big_block size) Q s.
Proof using All.
  intros (Es & fl & I) Hs H0 H1. destruct (page_cnt_ok size Hs) as [Hn Hle]. unfold big_block. set (n := DIV_ROUND_UP _ _) in *. cbn zeta.
  apply wp_bind. apply wp_get_pages; [apply (mi_pools _ _ _ _ I)|lia|by rewrite Z.eqb_refl; apply wp_ret|].
  intros k p' Hk Hb Hu Hup Hpos. destruct (add_big s A fl k n p' std I Hk Hb ltac:(lia) Hu Hup) as [I' Hnone]. set (a := page (kp s) k) in *.
  destruct (mi_pools _ _ _ _ I) as (Hw & _). pose proof (page_range _ k Hw ltac:(lia)) as [_ Hmax]. fold a in Hmax.
  rewrite (proj2 (Z.eqb_neq a NULL)) by (unfold NULL; lia). apply wp_bind. red. unfold set_arena. cbn [modify].
  apply wp_bind. red. unfold as_bytes. cbn [modify]. apply wp_ret. unfold sizeof_arena. rewrite uwrap_small by (unfold in_u; lia).
  change PGSIZE with 4096. apply (H1 _ _ (4096 * n - 12)); [|done|done|lia|done]. split; [exact Es|]. exists fl. rewrite <- Es in I'. exact I'.
Qed.

(** The head of the free list goes to the caller. *)
Lemma wp_take s A fl ex d b xs (Q : Z -> mstate -> Prop) : minv s A fl ex -> (d < 7)%nat -> fl !! d = Some (b :: xs) -> ex = 0 \/ ex = arena_of b ->
  descs s = std_held d ->
  (forall t, rep t (<[b := bsz d]> A) -> data t = write (data s) b (junk b (Z.to_nat (bsz d))) -> Q b t) ->
  wp (b ← lst_op (list_pop_front (free_list d));
      a ← block_to_arena b;
      h ← get_arena a;
      set_arena a (mk_arena (magic h) (arena_desc h) (u32 (free_cnt h - 1)));;
      x ← get_desc d;
      no_elem b;;
      as_bytes b (block_bytes x);;
      release_desc d;;
      ret b) Q s.
Proof using All.
  intros I Hd Hx Hex Es HQ. pose proof (lookup_lt_Some _ _ _ Hx) as Hdl. destruct (free_arena_of I _ _ b Hx ltac:(left)) as (h & Ha & Ed & Hs).
  apply wp_bind, wp_links_op. eapply (wp_lists_pop_front _ _ (mi_lists _ _ _ _ I)); [by rewrite (lookup_fam_at free_list)|]. intros l' HL Hdom.
  rewrite (fam_insert free_list) in HL by done. destruct (ar_small _ _ _ _ _ _ (mi_arena _ _ _ _ I _ _ Ha) d Ed) as (_ & ys & Hy & Hc & _). simplify_eq.
  rewrite in_arena_cons, decide_True in Hc by done. cbn [length] in Hc. pose proof (in_arena_le I _ _ _ _ Ha Ed Hx) as Hle.
  rewrite in_arena_cons, decide_True in Hle by done. cbn [length] in Hle. destruct (geo d Hd) as (G1 & G2 & G3).
  apply wp_bind. eapply (wp_block_to_arena s); [exact I|done|cbn; rewrite Es; apply std_held_like|exact Ha|exact Hs|].
  apply wp_bind. eapply wp_get_arena; [exact Ha|]. rewrite uwrap_small by (unfold in_u; lia). apply wp_bind. red. unfold set_arena. cbn [modify].
  apply wp_bind. eapply wp_get_desc; [cbn; rewrite Es; by apply std_held_lookup|]. apply wp_bind. red. unfold no_elem. cbn [modify].
  apply wp_bind. red. unfold as_bytes. cbn [modify]. apply wp_bind. eapply (wp_release_desc _ d); [exact Es|done|]. apply wp_ret, HQ; [|done].
  split; [done|]. eexists. exact (take_block s A fl ex d b xs h l' std I Hx Ha Hex HL Hdom).
Qed.

Lemma wp_heap_malloc s A size (Q : Z -> mstate -> Prop) : rep s A -> 0 <= size <= 2 ^ 32 - 4108 ->
  (forall t, rep t A -> data t = data s -> Q NULL t) ->
  (forall t p n, rep t (<[p := n]> A) -> A !! p = None -> 0 < size <= n -> 0 < p -> data t = write (data s) p (junk p (Z.to_nat n)) -> Q p t) ->
  wp (malloc size) Q s.
Proof using All.
  intros Hr Hs H0 H1. unfold malloc. destruct (Z.eqb_spec size 0) as [E|Hne]; [apply wp_ret; by apply H0|].
  apply wp_bind. red. cbn [gets]. pose proof Hr as (Es & fl & I). rewrite Es. destruct (find_desc std 0 size) as [d|] eqn:Ef; cycle 1.
  { eapply (wp_big_block _ A); [done|lia|by apply H0|]. intros t p n Hr' Hn Hle Hp Ed. apply (H1 t p n); [done|done|lia|done|done]. }
  destruct (find_desc_ok _ _ Ef) as [Hd Hle]. apply wp_bind, wp_acquire_desc; [done|done|].
  assert (Ih : minv (set_descs (std_held d) s) A fl 0) by (by apply minv_descs).
  destruct (lookup_lt_is_Some_2 fl d) as [xs Hx]; [by rewrite (mi_len _ _ _ _ I)|].
  apply wp_bind, wp_links_op. eapply (wp_lists_empty _ _ (mi_lists _ _ _ _ Ih)); [by rewrite (lookup_fam_at free_list)|].
  apply wp_bind. replace (set_links _ (set_descs _ s)) with (set_descs (std_held d) s) by done.
  assert (Hnew : forall t a b xs', minv t A (<[d := b :: xs']> fl) a -> a = 0 \/ a = arena_of b -> data t = data s -> descs t = std_held d ->
    wp (b ← lst_op (list_pop_front (free_list d)); a ← block_to_arena b; h ← get_arena a;
        set_arena a (mk_arena (magic h) (arena_desc h) (u32 (free_cnt h - 1)));; x ← get_desc d; no_elem b;; as_bytes b (block_bytes x);;
        release_desc d;; ret b) Q t).
  { intros t a b xs' It Ha Ed Ets. assert (Hb : <[d := b :: xs']> fl !! d = Some (b :: xs')) by (apply list_lookup_insert_eq; by rewrite (mi_len _ _ _ _ I)).
    eapply wp_take; [exact It|done|exact Hb|done|done|]. intros u Hru Edu. rewrite Ed in Edu.
    destruct (free_arena_of It _ _ b Hb ltac:(left)) as (h & Eh & _ & Hs2). pose proof (slot_range It _ _ _ _ Eh Hs2). destruct (arena_page It _ _ Eh) as (_ & _ & ? & _).
    apply (H1 u b (bsz d)); [done|by eapply (free_not_live It); [exact Hb|left]|lia|lia|done]. }
  destruct xs as [|b xs].
  - rewrite bool_decide_eq_true_2 by done. eapply (wp_new_arena _ A fl); [exact Ih|done|done|done| |].
    + cbn [negb]. apply wp_bind, wp_release_desc; [done|done|]. apply wp_ret, H0; [|done]. split; [done|]. exists fl. by apply (minv_descs (set_descs (std_held d) s)).
    + intros t a It Hpos Hal Ed Ets. cbn [negb]. destruct (geo d Hd) as (G1 & G2 & G3).
      assert (Eb : exists xs', blocks a d = blk a d 0 :: xs').
      { unfold blocks. destruct (Z.to_nat (bpa d)) as [|m] eqn:Em; [lia|]. cbn. eauto. }
      destruct Eb as [xs' Eb]. rewrite Eb in It. eapply Hnew; [exact It| |done|done]. right. by rewrite arena_of_blk by (done || lia).
  - rewrite bool_decide_eq_false_2 by done. apply wp_ret. cbn [negb]. eapply (Hnew _ 0 b xs); [|by left|done|done].
    by rewrite list_insert_id.
Qed.

(** ** free() *)

Lemma filter_remove (xs1 xs2 : list Z) b : NoDup (xs1 ++ b :: xs2) -> filter (fun x => x <> b) (xs1 ++ b :: xs2) = xs1 ++ xs2.
Proof using All.
  intros Hnd. apply NoDup_app in Hnd as (_ & Hd & Hnd). apply NoDup_cons in Hnd as [Hn _]. rewrite filter_app, filter_cons_False by tauto.
  f_equal; apply list_filter_all, Forall_forall; intros x Hx ->; [|done]. by apply (Hd b Hx); left.
Qed.

Lemma filter_ext_in (P R : Z -> Prop) `{!forall x, Decision (P x), !forall x, Decision (R x)} (l : list Z) :
  (forall x, x ∈ l -> P x <-> R x) -> filter P l = filter R l.
Proof using All.
  induction l as [|x l IH]; intros HPR; [done|]. rewrite !filter_cons, IH by (intros y Hy; apply HPR; by right).
  pose proof (HPR x ltac:(left)) as Hx. destruct (decide (P x)), (decide (R x)); tauto.
Qed.

(** The loop that takes the blocks of an arena off the free list. *)
Lemma wp_remove_blocks s fl a d c xs (Q : unit -> mstate -> Prop) : (d < 7)%nat -> length fl = 7%nat -> fl !! d = Some xs ->
  arenas s !! a = Some (mk_arena ARENA_MAGIC (Some d) c) -> std_like (descs s) -> 0 < a -> a + 4096 <= 2 ^ 32 ->
  lists_ok (links s) (fam free_list fl) -> NoDup xs -> (forall x, x ∈ blocks a d <-> x ∈ xs /\ arena_of x = a) ->
  (forall l', lists_ok l' (fam free_list (<[d := out_arena a xs]> fl)) -> dom l' = dom (links s) ∖ list_to_set (blocks a d) -> Q tt (set_links l' s)) ->
  wp (for_from (Z.to_nat (bpa d)) 0 (fun i => b ← arena_to_block a i; lst_op (list_remove b);; no_elem b)) Q s.
Proof using All.
  intros Hd Hlen Hx Ha Hstd Hpos Hmax HL Hnd Hall HQ. destruct (geo d Hd) as (G1 & G2 & G3). assert (Hdl : (d < length fl)%nat) by lia.
  eapply wp_mono; [apply (wp_for_from (fun i t => exists j l', i = Z.of_nat j /\ t = set_links l' s /\
    lists_ok l' (fam free_list (<[d := filter (fun x => x ∉ first_blocks a d j) xs]> fl)) /\ dom l' = dom (links s) ∖ list_to_set (first_blocks a d j)))|].
  - exists 0%nat, (links s). split_and!; [done|by destruct s| |cbn; set_solver]. cbn. rewrite list_filter_all by (apply Forall_forall; set_solver).
    by rewrite list_insert_id.
  - intros i t Hi (j & l' & -> & -> & HLj & Hdom). apply wp_bind. eapply wp_arena_to_block; [exact Ha|exact Hstd|done|lia|done|done|].
    set (b := blk a d (Z.of_nat j)). set (ys := filter _ xs) in HLj.
    assert (Hy : <[d := ys]> fl !! d = Some ys) by (by apply list_lookup_insert_eq).
    assert (Hb : b ∈ ys).
    { apply list_elem_of_filter. split; [intros Hin%elem_of_first; [lia|done]|]. apply Hall, elem_of_blocks; [done|]. exists (Z.of_nat j). split; [lia|done]. }
    apply list_elem_of_split in Hb as (xs1 & xs2 & Ey).
    apply wp_bind, wp_links_op. eapply (wp_lists_remove _ _ HLj (free_list d) xs1 b xs2); [by rewrite (lookup_fam_at free_list), Hy, Ey|].
    intros l2 HL2 Hd2. red. unfold no_elem. cbn [modify].
    assert (E2 : xs1 ++ xs2 = filter (fun x => x ∉ first_blocks a d (S j)) xs).
    { rewrite <- (filter_remove xs1 xs2 b) by (rewrite <- Ey; by apply NoDup_filter). rewrite <- Ey. unfold ys. rewrite list_filter_filter.
      apply filter_ext_in. intros x _. rewrite first_blocks_S. fold b. set_solver. }
    assert (Hun : unlinked b (<[free_list d := xs1 ++ xs2]> (fam free_list (<[d := ys]> fl)))).
    { eapply removed_unlinked; [exact HLj|]. by rewrite (lookup_fam_at free_list), Hy, Ey. }
    exists (S j), (delete b l2). split; [lia|]. split; [done|]. rewrite (fam_insert free_list), list_insert_insert_eq in HL2, Hun by (by rewrite length_insert).
    rewrite <- E2. split; [by apply lists_ok_delete|]. rewrite dom_delete_L, Hd2. cbn [links set_links]. rewrite Hdom, first_blocks_S. fold b. set_solver.
  - intros [] t (j & l' & Ej & -> & HLj & Hdom). replace j with (Z.to_nat (bpa d)) in * by lia. apply HQ; [|done].
    rewrite (filter_ext_in _ (fun x => arena_of x <> a)) in HLj; [exact HLj|]. intros x Hin. fold (blocks a d). change (first_blocks a d (Z.to_nat (bpa d))) with (blocks a d).
    rewrite Hall. tauto.
Qed.

Lemma minv_relax s A fl a h d : minv s A fl a -> arenas s !! a = Some h -> arena_desc h = Some d -> free_cnt h < bpa d -> minv s A fl 0.
Proof using All.
  intros I Ha Hd Hlt. pose proof I as []. split; try done. intros a2 h2 E2. destruct (mi_arena a2 h2 E2) as [Hm Hn Hp Hs Hb]. split; try done.
  intros d2 Ed2. destruct (Hs d2 Ed2) as (H7 & xs & Hx & Hc & Hl & Hblk). split; [done|]. exists xs. split_and!; try done.
  intros _. destruct (decide (a2 = a)) as [->|Hne]; [|auto]. by simplify_eq.
Qed.

Lemma wp_memset D p v n (Q : Z -> bytes -> Prop) : 0 < p -> mapped D p n -> Q p (write D p (replicate n (u8 v))) -> wp (memset p v (Z.of_nat n)) Q D.
Proof using All.
  intros Hp Hm HQ. unfold memset. apply wp_bind, block_args; [by left|]. apply wp_bind. rewrite Nat2Z.id.
  eapply wp_mono; [apply (wp_for_from (fun i D' => exists j, i = Z.of_nat j /\ D' = write D p (replicate j (u8 v))))|].
  - by exists 0%nat.
  - intros i D' Hi (j & -> & ->). apply wp_store8; [|exists (S j); split; [lia|]; by rewrite replicate_S_end, write_snoc, length_replicate].
    rewrite lookup_write, length_replicate. destruct (decide _); [lia|]. apply Hm. lia.
  - intros [] D' (j & Ej & ->). apply wp_ret. by replace j with n in * by lia.
Qed.

(** free_arena(), once every block is free. *)
Lemma wp_free_arena s A fl a h d (Q : unit -> mstate -> Prop) : minv s A fl a -> arenas s !! a = Some h -> arena_desc h = Some d -> free_cnt h = bpa d ->
  descs s = std_held d -> (forall t fl', minv t A fl' 0 -> data t = data s -> descs t = std_held d -> Q tt t) -> wp (free_arena a d) Q s.
Proof using All.
  intros I Ha Hd Hc Es HQ. pose proof (mi_arena _ _ _ _ I _ _ Ha) as [Hm _ (k & Ek & Hk & Hb & Hu) Hs _]. destruct (Hs d Hd) as (Hd7 & xs & Hx & _).
  destruct (arena_page I _ _ Ha) as (Hal & _ & Hpos & Hmax & _). destruct (full_blocks _ _ _ _ _ _ _ _ I Ha Hd Hx Hc) as [Hall Hlive].
  assert (Enp : np h = 1) by (unfold np; by rewrite Hd). rewrite Enp in *.
  assert (Eh : h = mk_arena ARENA_MAGIC (Some d) (free_cnt h)) by (destruct h; cbn in *; congruence).
  unfold free_arena. apply wp_bind. eapply wp_get_desc; [rewrite Es; by apply std_held_lookup|]. cbn [Malloc.blocks_per_arena]. apply wp_bind.
  eapply (wp_remove_blocks s fl a d (free_cnt h) xs); [done|apply (mi_len _ _ _ _ I)|done|by rewrite Ha, Eh at 1|rewrite Es; apply std_held_like|done|lia|apply (mi_lists _ _ _ _ I)|by eapply (free_nodup I)|done|].
  intros l' HL Hdom. apply wp_bind. eapply (wp_free_pages _ a k 1); [apply (mi_pools _ _ _ _ I)|done|done|lia|done|done|].
  intros p' Hup. red. cbn [modify]. apply (HQ _ (<[d := out_arena a xs]> fl)); [|done|done].
  by apply (drop_small s A fl a a h d xs k p' l' (descs s)); try done; right.
Qed.

(** The bytes of a block. *)
Lemma live_mapped s A fl ex p n : minv s A fl ex -> A !! p = Some n -> mapped (data s) p (Z.to_nat n) /\ 0 < n /\ 0 < p /\ base (kp s) <= p /\ p + n <= 2 ^ 32.
Proof using All.
  intros I Hp. destruct (live_arena I _ _ Hp) as (h & Ha & Hs & _). pose proof (slot_range I _ _ _ _ Ha Hs) as (? & ? & ?).
  destruct (arena_page I _ _ Ha) as (? & ? & ? & ? & ?). split; [|lia]. intros i Hi. apply (mi_data _ _ _ _ I). exists p, n. split; [done|lia].
Qed.

Lemma live_fresh_elem s A fl ex p n : minv s A fl ex -> A !! p = Some n -> p ∉ dom (links s).
Proof using All.
  intros I Hp Hin. destruct (live_mapped _ _ _ _ _ _ I Hp) as (_ & _ & _ & Hb & _).
  destruct (mi_links _ _ _ _ I _ Hin) as [?|(d & xs & E & Hx)]; [lia|]. rewrite (free_not_live I _ _ _ E Hx) in Hp. done.
Qed.

Lemma wp_free_small s A fl p d h x (Q : unit -> mstate -> Prop) : minv s A fl 0 -> descs s = std -> A !! p = Some (bsz d) -> arenas s !! arena_of p = Some h ->
  arena_desc h = Some d -> (d < 7)%nat -> x = mk_desc (bsz d) (bpa d) false ->
  (forall t, rep t (delete p A) -> (forall y, ~ (p <= y < p + bsz d) -> data t !! y = data s !! y) -> Q tt t) ->
  wp (on_data (memset p 0xcc (block_bytes x));;
      acquire_desc d;;
      no_bytes p (block_bytes x);;
      as_elem p;;
      lst_op (list_push_front (free_list d) p);;
      h ← get_arena (arena_of p);
      let cnt := u32 (free_cnt h + 1) in
      set_arena (arena_of p) (mk_arena (magic h) (arena_desc h) cnt);;
      (if blocks_per_arena x <=? cnt then ASSERT (cnt =? blocks_per_arena x);; free_arena (arena_of p) d else ret tt);;
      release_desc d) Q s.
Proof using All.
  intros I Es HA Ha Hd Hd7 -> HQ. destruct (live_mapped _ _ _ _ _ _ I HA) as (Hmap & Hn & Hp & Hbase & Hmax). pose proof (live_fresh_elem _ _ _ _ _ _ I HA) as Hfresh.
  destruct (ar_small _ _ _ _ _ _ (mi_arena _ _ _ _ I _ _ Ha) d Hd) as (_ & xs & Hx & Hc & _ & _). destruct (geo d Hd7) as (G1 & G2 & G3).
  pose proof (lookup_lt_Some _ _ _ Hx) as Hdl. cbn [block_bytes Malloc.blocks_per_arena].
  apply wp_bind, wp_on_data. replace (bsz d) with (Z.of_nat (Z.to_nat (bsz d))) at 1 by lia. apply wp_memset; [done|done|]. set (D := write _ _ _).
  apply wp_bind, wp_acquire_desc; [done|done|]. apply wp_bind. red. unfold no_bytes. cbn [modify]. apply wp_bind. red. unfold as_elem. cbn [modify].
  apply wp_bind, wp_links_op. cbn [links set_links set_data set_descs].
  assert (HL1 : lists_ok (<[p := junk_elem p]> (links s)) (fam free_list fl)) by (apply lists_ok_new; [apply (mi_lists _ _ _ _ I)|done]).
  eapply (wp_lists_push_front _ _ (free_list d) xs p); [exact HL1|by rewrite (lookup_fam_at free_list)|rewrite dom_insert; set_solver|unfold NULL; lia| |].
  { by eapply lists_ok_dom; [apply (mi_lists _ _ _ _ I)|]. }
  intros l' HL Hdom. rewrite (fam_insert free_list) in HL by done. rewrite dom_insert_L in Hdom.
  assert (HDm : forall y, is_Some (D !! y) <-> is_Some (data s !! y)).
  { intros y. unfold D. rewrite lookup_write, length_replicate. destruct (decide _) as [Hy|]; [|done]. split; [|intros _; apply lookup_lt_is_Some; rewrite length_replicate; lia].
    intros _. replace y with (p + (y - p)) by lia. apply Hmap. lia. }
  assert (HDb : forall y v, D !! y = Some v -> in_u 8 v).
  { intros y v. unfold D. rewrite lookup_write. destruct (decide _); [|apply (mi_bytes _ _ _ _ I)]. intros [-> _]%lookup_replicate. apply uwrap_range. lia. }
  pose proof (put_block s A fl d p xs h l' D (std_held d) I HA Ha Hd Hx HL Hdom HDm HDb) as I2.
  apply wp_bind. eapply wp_get_arena; [exact Ha|]. cbn zeta. rewrite uwrap_small by (unfold in_u; pose proof (in_arena_le I _ _ _ _ Ha Hd Hx); lia).
  apply wp_bind. red. unfold set_arena. cbn [modify]. set (u := set_arenas _ _).
  assert (Iu : minv u (delete p A) (<[d := p :: xs]> fl) (arena_of p)) by exact I2. clear I2.
  assert (Eu : arenas u !! arena_of p = Some (mk_arena (magic h) (arena_desc h) (free_cnt h + 1))) by (cbn; apply lookup_insert_eq).
  assert (Hdat : forall y, ~ (p <= y < p + bsz d) -> data u !! y = data s !! y).
  { intros y Hy. cbn. rewrite map_lookup_filter. unfold D. rewrite lookup_write, length_replicate, decide_False by lia.
    destruct (data s !! y) as [v|]; cbn; [|done]. by rewrite option_guard_True. }
  apply wp_bind. destruct (Z.leb_spec (bpa d) (free_cnt h + 1)) as [Hge|Hlt].
  - pose proof (in_arena_le Iu _ _ d (p :: xs) Eu Hd ltac:(by apply list_lookup_insert_eq)) as Hle. rewrite in_arena_cons, decide_True in Hle by done. cbn [length] in Hle.
    apply wp_bind, wp_assertb; [lia|]. eapply wp_free_arena; [exact Iu|exact Eu|exact Hd|cbn; lia|done|]. intros t fl' It Edt Ets.
    apply wp_release_desc; [done|done|]. apply HQ; [|by rewrite <- Edt in Hdat]. split; [done|]. exists fl'. by apply minv_descs.
  - apply wp_ret, wp_release_desc; [done|done|]. apply HQ; [|done]. split; [done|]. eexists. apply minv_descs. eapply minv_relax; [exact Iu|exact Eu|exact Hd|cbn; lia].
Qed.

Lemma wp_heap_free s A p n (Q : unit -> mstate -> Prop) : rep s A -> A !! p = Some n ->
  (forall t, rep t (delete p A) -> (forall y, ~ (p <= y < p + n) -> data t !! y = data s !! y) -> Q tt t) -> wp (free p) Q s.
Proof using All.
  intros (Es & fl & I) HA HQ. destruct (live_mapped _ _ _ _ _ _ I HA) as (_ & _ & Hp & _). destruct (live_arena I _ _ HA) as (h & Ha & Hs & _).
  unfold free. rewrite (proj2 (Z.eqb_neq p NULL)) by (unfold NULL; lia).
  apply wp_bind. eapply (wp_block_to_arena s); [exact I|done|rewrite Es; apply std_std|exact Ha|exact Hs|]. apply wp_bind. eapply wp_get_arena; [exact Ha|].
  pose proof (mi_arena _ _ _ _ I _ _ Ha) as Ho. pose proof Hs as Hs'. unfold slot in Hs'. destruct (arena_desc h) as [d|] eqn:Ed.
  - destruct (ar_small _ _ _ _ _ _ Ho d Ed) as (Hd7 & _). destruct Hs' as [-> _]. apply wp_bind. eapply wp_get_desc; [rewrite Es; by apply std_lookup|].
    by eapply wp_free_small.
  - destruct Hs' as [Ep ->]. destruct Ho as [_ Hnp (k & Ek & Hk & Hb & Hu) _ _]. assert (Enp : np h = free_cnt h) by (unfold np; by rewrite Ed). rewrite Enp in *.
    apply wp_bind. eapply (wp_free_pages _ _ k); [apply (mi_pools _ _ _ _ I)|done|done|lia|done|done|]. intros p' Hup.
    apply wp_bind. red. unfold no_bytes. cbn [modify]. red. cbn [modify]. change PGSIZE with 4096. unfold sizeof_arena. apply HQ.
    + split; [done|]. exists fl. pose proof (drop_big s A fl _ h k p' std I Ha Ed Ek Hup) as I'. rewrite <- Ep in I'. rewrite <- Es in I'. exact I'.
    + intros y Hy. cbn. rewrite map_lookup_filter. destruct (data s !! y) as [v|]; cbn; [|done]. by rewrite option_guard_True.
Qed.

Lemma wp_free_null s (Q : unit -> mstate -> Prop) : Q tt s -> wp (free NULL) Q s.
Proof using All. intros HQ. unfold free. rewrite Z.eqb_refl. by apply wp_ret. Qed.

Lemma wp_block_size s A p n (Q : Z -> mstate -> Prop) : rep s A -> A !! p = Some n -> Q n s -> wp (block_size p) Q s.
Proof using All.
  intros (Es & fl & I) HA HQ. destruct (live_arena I _ _ HA) as (h & Ha & Hs & _). unfold block_size. destruct (arena_page I _ _ Ha) as (Hal & _ & Hpos & Hmax & Hnp).
  apply wp_bind. eapply (wp_block_to_arena s); [exact I|done|rewrite Es; apply std_std|exact Ha|exact Hs|]. apply wp_bind. eapply wp_get_arena; [exact Ha|].
  pose proof (mi_arena _ _ _ _ I _ _ Ha) as Ho. unfold slot, np in *. destruct (arena_desc h) as [d|] eqn:Ed.
  - destruct (ar_small _ _ _ _ _ _ Ho d Ed) as (Hd7 & _). destruct Hs as [-> _]. apply wp_bind. eapply wp_get_desc; [rewrite Es; by apply std_lookup|]. by apply wp_ret.
  - destruct Hs as [Ep ->]. apply wp_ret. rewrite pg_ofs_mod. change PGSIZE with 4096. replace (p mod 4096) with 12 by (rewrite Ep; Z.to_euclidean_division_equations; lia).
    rewrite uwrap_small by (unfold in_u; lia). done.
Qed.
End Operations.

(** * The block allocator: correctness

    An abstract heap maps the blocks in use to their contents.  [mspec] says
    what each function does to it; [malloc_correct] shows that the allocator
    implements it and gives back every page that it no longer needs.
    [malloc_size_wraps] runs the requests whose size overflows. *)

(** ** Specification *)

Abbreviation heap := (gmap Z (list Z)).

(** Calls of the allocator, and a store by the user of a block. *)
Inductive mcall : Set :=
  | Malloc (size : Z) | Calloc (a b : Z) | Realloc (old_block new_size : Z) | Free (p : Z) | Poke (p : Z) (i : nat) (v : Z).

Definition len (bs : list Z) : Z := Z.of_nat (length bs).

(** A block apart from all others. *)
Definition fresh_block (H : heap) (p : Z) (bs : list Z) : Prop :=
  p <> NULL /\ H !! p = None /\ forall q cs, H !! q = Some cs -> p + len bs <= q \/ q + len cs <= p.

Definition usable (H : heap) (p : Z) : Prop := p = NULL \/ is_Some (H !! p).

Definition max_size : Z := 2 ^ 32 - 4108.

Definition mvalid (H : heap) (c : mcall) : Prop :=
  match c with
  | Malloc n => 0 <= n <= max_size
  | Calloc a b => 0 <= a < 2 ^ 32 /\ 0 <= b < 2 ^ 32 /\ a * b <= max_size
  | Realloc p n => usable H p /\ 0 <= n <= max_size
  | Free p => usable H p
  | Poke p i v => exists bs, H !! p = Some bs /\ (i < length bs)%nat
  end.

Inductive mspec (H : heap) : mcall -> Z -> heap -> Prop :=
  | MNull n : mspec H (Malloc n) NULL H
  | MBlock n p bs : 0 < n <= len bs -> fresh_block H p bs -> mspec H (Malloc n) p (<[p := bs]> H)
  | CNull a b : mspec H (Calloc a b) NULL H
  | CBlock a b p bs : 0 < a * b <= len bs -> fresh_block H p bs -> take (Z.to_nat (a * b)) bs = replicate (Z.to_nat (a * b)) 0 ->
      mspec H (Calloc a b) p (<[p := bs]> H)
  | RFree p : mspec H (Realloc p 0) NULL (delete p H)
  | RNull p n : 0 < n -> mspec H (Realloc p n) NULL H
  | RNew n q cs : 0 < n <= len cs -> fresh_block H q cs -> mspec H (Realloc NULL n) q (<[q := cs]> H)
  | RMove p bs n q cs : 0 < n <= len cs -> fresh_block H q cs -> H !! p = Some bs ->
      take (Nat.min (Z.to_nat n) (length bs)) cs = take (Nat.min (Z.to_nat n) (length bs)) bs ->
      mspec H (Realloc p n) q (delete p (<[q := cs]> H))
  | FFree p : mspec H (Free p) 0 (delete p H)
  | PPoke p i v bs : H !! p = Some bs -> mspec H (Poke p i v) 0 (<[p := <[i := u8 v]> bs]> H).

Section Correctness.
Context {image : Image} {oth : Others}.

Definition mperform (c : mcall) : M mstate Z :=
  match c with
  | Malloc n => malloc n
  | Calloc a b => calloc a b
  | Realloc p n => realloc p n
  | Free p => free p;; ret 0
  | Poke p i v => on_data (store8 (p + Z.of_nat i) v);; ret 0
  end.

(** The blocks in use and their contents. *)
Definition heap_rep (s : mstate) (H : heap) : Prop :=
  rep s (len <$> H) /\ forall p bs, H !! p = Some bs -> block (data s) p bs.

(** Before malloc_init(): memory for the lists of the descriptors, below the
    pages of the pools. *)
Record before_init (s : mstate) : Prop := {
  bi_descs : descs s = [];
  bi_arenas : arenas s = ∅;
  bi_data : data s = ∅;
  bi_cells : forall d, (d < 7)%nat -> free_list d ∈ dom (links s) /\ free_list d + 8 ∈ dom (links s);
  bi_links : forall x, x ∈ dom (links s) -> x < base (kp s);
  bi_static : 0 < descs_at /\ descs_at + 480 <= base (kp s);
  bi_pools : pools_wf (pages s);
  bi_others : forall j, 0 <= j < bit_cnt (used_map (kp s)) -> used (kp s) j = true <-> others j }.

(** ** Initialisation *)

Lemma wp_malloc_init s (Q : unit -> mstate -> Prop) : before_init s ->
  (forall t, heap_rep t ∅ -> Q tt t) -> wp malloc_init Q s.
Proof using All.
  intros B HQ. unfold malloc_init.
  eapply wp_iterate with (n := 7%nat) (I := fun n bs t => exists d l, (d + n = 7)%nat /\ bs = bsz d /\
    t = mk_mstate l ∅ ∅ (take d std) (pages s) /\ lists_ok l (fam free_list (replicate d [])) /\ dom l = dom (links s)); [| |lia].
  2:{ exists 0%nat, (links s). destruct B as [E1 E2 E3]. split_and!; [done|done|destruct s; cbn in *; congruence| |done].
      split; intros *; cbn; by rewrite lookup_empty. }
  intros n bs t (d & l & Hd & -> & -> & HL & Hdom). change (PGSIZE / 2) with 2048.
  destruct (decide (d = 7)%nat) as [->|Hne].
  - replace (bsz 7 <? 2048) with false by done. apply wp_ret, HQ. split; [|intros p bs; by rewrite lookup_empty].
    split; [done|]. exists (replicate 7 []). rewrite fmap_empty.
    split; cbn [links data arenas pages]; try done; [apply (bi_static _ B)|intros x Hx; left; apply (bi_links _ B); by rewrite <- Hdom|apply (bi_pools _ B)| | | |].
    + intros d xs x E Hx. apply lookup_replicate in E as [-> _]. by apply elem_of_nil in Hx.
    + intros x. rewrite lookup_empty. split; [by intros [? ?]|]. intros (p & m & E & _). by rewrite lookup_empty in E.
    + intros j Hj. rewrite (bi_others _ B j Hj). split; [by left|]. intros [?|(a & h & E & _)]; [done|cbn in E; by rewrite lookup_empty in E].
    + intros j (a & h & E & _). cbn in E; by rewrite lookup_empty in E.
  - assert (Hd7 : (d < 7)%nat) by lia. destruct (geo d Hd7) as (G1 & G2 & G3). rewrite (proj2 (Z.ltb_lt _ _)) by lia.
    apply wp_bind. red. cbn [gets]. assert (Hl : length (take d std) = d) by (rewrite length_take; change (length std) with 7%nat; lia).
    cbn [descs]. rewrite Hl. apply wp_bind, wp_assertb; [apply Z.leb_le; lia|].
    apply wp_bind. red. cbn [modify]. apply wp_bind, wp_links_op. destruct (bi_cells _ B d Hd7) as [C1 C2]. destruct (bi_static _ B) as [S1 S2].
    apply wp_list_init; [cbn; by rewrite Hdom|cbn; by rewrite Hdom|unfold head, free_list, NULL; lia|unfold tail, free_list, NULL; lia|].
    intros h' Hd' HF. apply wp_ret. exists (n - 1)%nat. split; [lia|]. exists (S d), h'. split; [lia|]. split; [|split; [|split]].
    + unfold bsz. rewrite Nat2Z.inj_succ, Z.pow_succ_r by lia. rewrite uwrap_small; [lia|]. unfold in_u, bsz in *. lia.
    + rewrite (take_S_r _ _ _ (std_lookup d Hd7)). unfold set_links, set_descs. cbn [data arenas descs pages]. done.
    + rewrite replicate_S_end, (fam_snoc free_list), length_replicate. eapply lists_ok_add; [exact HL|exact Hd'|exact HF|].
      intros l2 xs2 a E2 Ha Ha'. apply lookup_fam in E2 as (i & -> & Hi); [|apply _]. apply lookup_replicate in Hi as [-> Hi].
      unfold nodes, head, tail, free_list in *. cbn in Ha, Ha'. assert (a = descs_at + 48 * Z.of_nat i + 8 \/ a = descs_at + 48 * Z.of_nat i + 8 + 8) by set_solver.
      assert (a = descs_at + 48 * Z.of_nat d + 8 \/ a = descs_at + 48 * Z.of_nat d + 8 + 8) by set_solver. lia.
    + rewrite (proj1 HF). exact Hdom.
Qed.

(** ** Contents *)

Lemma heap_lookup s H p bs : heap_rep s H -> H !! p = Some bs -> (len <$> H) !! p = Some (len bs).
Proof using All. intros _ E. by rewrite lookup_fmap, E. Qed.

Lemma heap_apart s H p bs q cs : heap_rep s H -> H !! p = Some bs -> H !! q = Some cs -> p <> q -> p + len bs <= q \/ q + len cs <= p.
Proof using All.
  intros [(Es & fl & I) _] Hp Hq Hne. eapply (live_apart I); [by rewrite lookup_fmap, Hp|by rewrite lookup_fmap, Hq|done].
Qed.

Lemma heap_pos s H p bs : heap_rep s H -> H !! p = Some bs -> 0 < p /\ 0 < len bs /\ mapped (data s) p (length bs).
Proof using All.
  intros [(Es & fl & I) _] Hp. destruct (live_mapped _ _ _ _ p (len bs) I) as (Hm & Hn & H0 & _); [by rewrite lookup_fmap, Hp|].
  unfold len in *. rewrite Nat2Z.id in Hm. done.
Qed.

Lemma heap_bytes s H p bs : heap_rep s H -> H !! p = Some bs -> Forall (in_u 8) bs.
Proof using All.
  intros [(Es & fl & I) Hc] Hp. apply Forall_lookup. intros i x Hx. eapply (mi_bytes _ _ _ _ I). apply (proj1 (block_lookup _ _ _) (Hc p bs Hp) i x Hx).
Qed.

(** Other bytes for the same blocks. *)
Lemma minv_data s A fl ex D : minv s A fl ex -> (forall x, is_Some (D !! x) <-> is_Some (data s !! x)) -> (forall x v, D !! x = Some v -> in_u 8 v) ->
  minv (set_data D s) A fl ex.
Proof using All.
  intros [] HD HB. split; try done. { intros a h Ha. by destruct (mi_arena a h Ha). } intros x. cbn. rewrite HD. apply mi_data.
Qed.

(** A write inside a block. *)
Definition overwrite (k : nat) (ws bs : list Z) : list Z := take k bs ++ ws ++ drop (k + length ws) bs.

Lemma length_overwrite k ws bs : (k + length ws <= length bs)%nat -> length (overwrite k ws bs) = length bs.
Proof using All. intros Hl. unfold overwrite. rewrite !length_app, length_take, length_drop. lia. Qed.

Lemma heap_write s H p bs k ws : heap_rep s H -> H !! p = Some bs -> (k + length ws <= length bs)%nat -> Forall (in_u 8) ws ->
  heap_rep (set_data (write (data s) (p + Z.of_nat k) ws) s) (<[p := overwrite k ws bs]> H).
Proof using All.
  intros Hr Hp Hl Hws. destruct (heap_pos _ _ _ _ Hr Hp) as (H0 & Hn & Hm). pose proof Hr as [(Es & fl & I) Hc]. split.
  - rewrite fmap_insert. unfold len at 1. rewrite length_overwrite by done. rewrite insert_id by (by rewrite lookup_fmap, Hp).
    split; [done|]. exists fl. apply minv_data; [done| |].
    + intros x. rewrite lookup_write. destruct (decide _) as [Hx|]; [|done]. split; [|intros _; apply lookup_lt_is_Some; lia].
      intros _. replace x with (p + (x - p)) by lia. apply Hm. lia.
    + intros x v. rewrite lookup_write. destruct (decide _); [|apply (mi_bytes _ _ _ _ I)]. intros Hv. by eapply (Forall_lookup_1 _ _ _ _ Hws).
  - intros q cs. rewrite lookup_insert_Some. intros [[<- <-]|[Hne Hq]].
    + cbn. apply block_lookup. intros i x Hx. rewrite lookup_write. unfold overwrite in Hx. pose proof (proj1 (block_lookup _ _ _) (Hc p bs Hp)) as Hb.
      destruct (decide _) as [Hi|Hi].
      * rewrite lookup_app_r, lookup_app_l in Hx by (rewrite length_take; lia). rewrite length_take in Hx. rewrite <- Hx. f_equal. lia.
      * apply Hb. destruct (decide (i < k)%nat) as [Hik|Hik].
        -- rewrite lookup_app_l in Hx by (rewrite length_take; lia). by rewrite lookup_take_lt in Hx.
        -- rewrite lookup_app_r, lookup_app_r in Hx by (rewrite ?length_take; lia). rewrite length_take, lookup_drop in Hx. rewrite <- Hx. f_equal. lia.
    + eapply block_agree; [|by apply Hc]. intros i Hi. cbn. rewrite lookup_write, decide_False; [done|].
      pose proof (heap_apart _ _ _ _ _ _ Hr Hp Hq Hne). unfold len in *. lia.
Qed.

(** The block that malloc() returns. *)
Lemma sim_malloc s H n (Q : Z -> mstate -> Prop) : heap_rep s H -> 0 <= n <= max_size -> (forall t, heap_rep t H -> Q NULL t) ->
  (forall t p bs, heap_rep t (<[p := bs]> H) -> fresh_block H p bs -> 0 < n <= len bs -> Q p t) -> wp (malloc n) Q s.
Proof using All.
  intros [Hr Hc] Hn H0 H1. eapply wp_heap_malloc; [exact Hr|exact Hn| |].
  - intros t Ht Ed. apply H0. split; [done|]. by rewrite Ed.
  - intros t p m Ht Hnone Hm Hp Ed. set (bs := junk p (Z.to_nat m)) in *. assert (Hlen : len bs = m) by (unfold len, bs; rewrite length_junk; lia).
    assert (Hnp : H !! p = None) by (rewrite lookup_fmap, fmap_None in Hnone; done).
    assert (Hap : forall q cs, H !! q = Some cs -> p + len bs <= q \/ q + len cs <= p).
    { intros q cs Hq. destruct Ht as (_ & fl & I). rewrite Hlen. eapply (live_apart I); [by rewrite lookup_insert_eq| |congruence].
      rewrite lookup_insert_ne by congruence. by rewrite lookup_fmap, Hq. }
    apply (H1 t p bs); [|split_and!; [unfold NULL; lia|done|done]|by rewrite Hlen]. split; [by rewrite fmap_insert, Hlen|].
    intros q cs. rewrite Ed, lookup_insert_Some. intros [[<- <-]|[Hne Hq]]; [apply block_write|]. eapply block_agree; [|by apply Hc].
    intros i Hi. rewrite lookup_write, decide_False; [done|]. specialize (Hap q cs Hq). unfold len in *. lia.
Qed.

Lemma sim_free s H p (Q : unit -> mstate -> Prop) : heap_rep s H -> usable H p -> (forall t, heap_rep t (delete p H) -> Q tt t) -> wp (free p) Q s.
Proof using All.
  intros Hr Hp HQ. destruct Hp as [->|[bs Hp]].
  - apply wp_free_null, HQ. rewrite delete_id; [done|]. destruct (H !! NULL) as [bs|] eqn:E; [|done]. destruct (heap_pos _ _ _ _ Hr E). unfold NULL in *. lia.
  - eapply wp_heap_free; [apply Hr|by eapply heap_lookup|]. intros t Ht Hd. apply HQ. split; [by rewrite fmap_delete|].
    intros q cs Hq. apply lookup_delete_Some in Hq as [Hne Hq]. eapply block_agree; [|by apply (proj2 Hr)]. intros i Hi. apply Hd.
    pose proof (heap_apart _ _ _ _ _ _ Hr Hp Hq Hne). unfold len in *. lia.
Qed.

Lemma overwrite_front ws bs : take (length ws) (overwrite 0 ws bs) = ws.
Proof using All. unfold overwrite. rewrite take_0, app_nil_l. apply take_app_length. Qed.

Lemma fresh_len H p bs cs : fresh_block H p bs -> length cs = length bs -> fresh_block H p cs.
Proof using All. unfold fresh_block, len. by intros Hf ->. Qed.

Lemma sim_calloc s H a b (Q : Z -> mstate -> Prop) : heap_rep s H -> mvalid H (Calloc a b) ->
  (forall t r H', mspec H (Calloc a b) r H' -> heap_rep t H' -> Q r t) -> wp (calloc a b) Q s.
Proof using All.
  intros Hr (Ha & Hb & Hab) HQ. unfold max_size in Hab. unfold calloc. rewrite uwrap_small by (unfold in_u; nia).
  destruct ((a * b <? a) || (a * b <? b)); [apply wp_ret; eapply HQ; [constructor|done]|].
  apply wp_bind. eapply sim_malloc; [exact Hr|unfold max_size; nia| |].
  - intros t Ht. rewrite Z.eqb_refl. cbn [negb]. apply wp_bind, wp_ret, wp_ret. eapply HQ; [constructor|done].
  - intros t p bs Ht Hf Hn. pose proof Hf as (Hp & _). rewrite (proj2 (Z.eqb_neq p NULL) Hp). cbn [negb].
    assert (Hin : <[p := bs]> H !! p = Some bs) by apply lookup_insert_eq. destruct (heap_pos _ _ _ _ Ht Hin) as (H0 & _ & Hm).
    set (n := Z.to_nat (a * b)). assert (Hnl : (n <= length bs)%nat) by (unfold len in Hn; lia). replace (a * b) with (Z.of_nat n) by lia.
    apply wp_bind, wp_bind, wp_on_data, wp_memset; [done|intros i Hi; apply Hm; lia|]. apply wp_ret, wp_ret.
    pose proof (heap_write _ _ _ _ 0 (replicate n (u8 0)) Ht Hin ltac:(rewrite length_replicate; lia) ltac:(by apply Forall_replicate)) as Hw.
    rewrite insert_insert_eq in Hw. replace (p + Z.of_nat 0) with p in Hw by lia. eapply HQ; [|exact Hw].
    assert (Hl : length (overwrite 0 (replicate n (u8 0)) bs) = length bs) by (apply length_overwrite; rewrite length_replicate; lia).
    apply CBlock; [unfold len; rewrite Hl; unfold len in Hn; lia|by eapply fresh_len|].
    fold n. rewrite <- (length_replicate n (u8 0)) at 1. by rewrite overwrite_front.
Qed.

(** The copy and the release of the old block. *)
Lemma sim_move s H p bs q cs n (Q : Z -> mstate -> Prop) : heap_rep s (<[q := cs]> H) -> H !! p = Some bs -> fresh_block H q cs -> 0 < n <= len cs ->
  (forall t cs', heap_rep t (delete p (<[q := cs']> H)) -> length cs' = length cs ->
     take (Nat.min (Z.to_nat n) (length bs)) cs' = take (Nat.min (Z.to_nat n) (length bs)) bs -> Q q t) ->
  wp ((old_size ← block_size p;
       let min_size := if n <? old_size then n else old_size in
       on_data (memcpy q p min_size);;
       free p);; ret q) Q s.
Proof using All.
  intros Hr Hp Hf Hn HQ. assert (Hne : q <> p) by (intros ->; destruct Hf as (_ & E & _); congruence).
  assert (Hp' : <[q := cs]> H !! p = Some bs) by (by rewrite lookup_insert_ne). assert (Hq : <[q := cs]> H !! q = Some cs) by apply lookup_insert_eq.
  destruct (heap_pos _ _ _ _ Hr Hp') as (P0 & _ & _). destruct (heap_pos _ _ _ _ Hr Hq) as (Q0 & _ & Hm). pose proof (proj2 (proj2 Hf) _ _ Hp) as Hap.
  apply wp_bind, wp_bind. eapply wp_block_size; [apply Hr|by eapply heap_lookup|]. cbn zeta. set (m := Nat.min (Z.to_nat n) (length bs)).
  replace (if n <? len bs then n else len bs) with (Z.of_nat (length (take m bs))) by (rewrite length_take; unfold m, len in *; destruct (Z.ltb_spec n (Z.of_nat (length bs))); lia).
  assert (Hml : (length (take m bs) <= length cs)%nat) by (rewrite length_take; unfold m, len in *; lia).
  apply wp_bind, wp_on_data, wp_memcpy; [|apply Forall_take; by eapply heap_bytes|intros i Hi; apply Hm; lia|done|done| |].
  - pose proof (proj2 Hr p bs Hp') as Hb. rewrite <- (take_drop m bs) in Hb. by apply block_app in Hb as [? _].
  - unfold len in *. rewrite length_take. lia.
  - pose proof (heap_write _ _ _ _ 0 (take m bs) Hr Hq Hml ltac:(apply Forall_take; by eapply heap_bytes)) as Hw. replace (q + Z.of_nat 0) with q in Hw by lia.
    rewrite insert_insert_eq in Hw. eapply sim_free; [exact Hw|right; rewrite lookup_insert_ne by done; by eexists|]. intros t Ht. apply wp_ret.
    eapply HQ; [exact Ht|by apply length_overwrite|]. assert (Hlm : length (take m bs) = m) by (rewrite length_take; unfold m; lia).
    fold m. pose proof (overwrite_front (take m bs) cs) as E. by rewrite Hlm in E.
Qed.

Lemma sim_realloc s H p n (Q : Z -> mstate -> Prop) : heap_rep s H -> mvalid H (Realloc p n) ->
  (forall t r H', mspec H (Realloc p n) r H' -> heap_rep t H' -> Q r t) -> wp (realloc p n) Q s.
Proof using All.
  intros Hr (Hu & Hn) HQ. unfold realloc. destruct (Z.eqb_spec n 0) as [->|Hn0].
  { apply wp_bind. eapply sim_free; [done..|]. intros t Ht. apply wp_ret. eapply HQ; [constructor|done]. }
  apply wp_bind. eapply sim_malloc; [exact Hr|exact Hn| |].
  - intros t Ht. rewrite Z.eqb_refl, andb_false_r. apply wp_bind, wp_ret, wp_ret. eapply HQ; [constructor; lia|done].
  - intros t q cs Ht Hf Hl. pose proof Hf as (Hq0 & _). rewrite (proj2 (Z.eqb_neq q NULL) Hq0), andb_true_r. destruct Hu as [->|[bs Hp]].
    + rewrite Z.eqb_refl. apply wp_bind, wp_ret, wp_ret. eapply HQ; [by constructor|done].
    + destruct (heap_pos _ _ _ _ Hr Hp) as (P0 & _). rewrite (proj2 (Z.eqb_neq p NULL)) by (unfold NULL; lia). cbn [negb].
      eapply sim_move; [exact Ht|exact Hp|exact Hf|exact Hl|]. intros u cs' Hu' Hlen Htake. eapply HQ; [|exact Hu'].
      apply (RMove _ p bs); [unfold len in *; lia|by eapply fresh_len|done|done].
Qed.

Lemma sim_mcall s H c : heap_rep s H -> mvalid H c -> wp (mperform c) (fun r t => exists H', mspec H c r H' /\ heap_rep t H') s.
Proof using All.
  intros Hr Hv. destruct c as [n|a b|p n|p|p i v]; cbn [mperform].
  - eapply sim_malloc; [done|done| |].
    + intros t Ht. exists H. split; [constructor|done].
    + intros t p bs Ht Hf Hn. eexists. split; [by constructor|done].
  - eapply sim_calloc; [done|done|]. eauto.
  - eapply sim_realloc; [done|done|]. eauto.
  - apply wp_bind. eapply sim_free; [done|done|]. intros t Ht. apply wp_ret. eexists. split; [constructor|done].
  - destruct Hv as (bs & Hp & Hi). destruct (heap_pos _ _ _ _ Hr Hp) as (_ & _ & Hm). apply wp_bind, wp_on_data, wp_store8; [apply Hm; lia|]. apply wp_ret.
    exists (<[p := <[i := u8 v]> bs]> H). split; [by constructor|].
    pose proof (heap_write _ _ _ _ i [u8 v] Hr Hp ltac:(cbn; lia) ltac:(repeat constructor; apply uwrap_range; lia)) as Hw. unfold overwrite in Hw. cbn [length app] in Hw.
    rewrite insert_take_drop by done. by rewrite Nat.add_1_r in Hw.
Qed.

(** An arena has a block in use. *)
Lemma heap_reclaimed s j : heap_rep s ∅ -> 0 <= j < bit_cnt (used_map (kp s)) -> used (kp s) j = true <-> others j.
Proof using All.
  intros [(Es & fl & I) _] Hj. rewrite fmap_empty in I. rewrite (mi_used _ _ _ _ I j Hj). split; [|by left]. intros [?|(a & h & Ha & _)]; [done|]. exfalso.
  pose proof (mi_arena _ _ _ _ I _ _ Ha) as [_ _ _ Hs Hb]. destruct (arena_desc h) as [d|] eqn:Ed; [|by specialize (Hb eq_refl)].
  destruct (Hs d eq_refl) as (Hd7 & xs & Hx & Hc & Hlt & Hblk). destruct (arena_page I _ _ Ha) as (Hal & _ & Hpos & _). specialize (Hlt ltac:(lia)).
  assert (Hsub : blocks a d ⊆+ in_arena a xs).
  { apply NoDup_submseteq.
    - apply NoDup_fmap_2_strong; [|apply NoDup_seq]. intros x y _ _ E. apply blk_inj in E; [lia|done].
    - intros x (i & Hi & ->)%elem_of_blocks; [|done]. apply list_elem_of_filter. split; [by apply arena_of_blk|]. by destruct (Hblk i Hi). }
  apply submseteq_length in Hsub. pose proof (length_blocks a d Hd7). lia.
Qed.
End Correctness.


(** ** A machine *)

(** Descriptors at 0xc0020000; 40 pages for the kernel from 0xc0100000 on,
    the second of which is in use. *)
#[local] Instance image : Image := {| descs_at := 0xc0020000; junk_elem a := mk_elem a 0; junk_byte a := a |}.
#[local] Instance second_page : Others := fun j => j = 1.

Definition boot : mstate := mk_mstate
  (list_to_map (map (fun a => (a, mk_elem 0 0)) (concat (map (fun d => [free_list d; free_list d + 8]) (seq 0 7)))))
  ∅ ∅ [] (mk_pools (mk_pool 0xc0100000 (mk_bitmap 40 [2; 0])) (mk_pool 0xc0200000 (mk_bitmap 8 [0]))).

Lemma boot_before_init : before_init boot.
Proof.
  split; [done..| | |by vm_compute|decide_closed|].
  - intros d Hd. do 7 (destruct d as [|d]; [by split; decide_closed|]). lia.
  - intros x Hx. assert (Ha : set_Forall (fun x => x < 0xc0100000) (dom (links boot))) by decide_closed. by apply Ha.
  - intros j Hj. cbn in Hj. unfold others, second_page.
    assert (Hall : forall i : nat, (i < 40)%nat -> used (kp boot) (Z.of_nat i) = true <-> Z.of_nat i = 1).
    { intros i Hi. do 40 (destruct i as [|i]; [split; intros E; by vm_compute in E|]). lia. }
    specialize (Hall (Z.to_nat j) ltac:(lia)). by rewrite Z2Nat.id in Hall by lia.
Qed.


(** The result of a run. *)
Definition value {S A} (m : M S A) (s : S) : outcome A := match m s with Ok (a, _) => Ok a | Err e => Err e end.

(** The size computations of malloc() and calloc() overflow: malloc()
    answers a request for 2^32 - 1 bytes with a block of 4084 bytes, and
    calloc() does not notice that 65537 times 65537 does not fit into 32 bits
    and does what it does for a single object of 131073 bytes. *)
Theorem malloc_size_wraps :
  value (malloc_init;; p ← malloc (2 ^ 32 - 1); n ← block_size p; ret (p, n)) boot = Ok (0xc010000c, 4084) /\
  forall s, calloc 65537 65537 s = calloc 1 131073 s.
Proof. split; [vm_compute; reflexivity|]. intros s. unfold calloc. reflexivity. Qed.
