(* ===== verification/PageDir.v ===== *)
(** * userprog/pagedir.c: page directories

    The page pools as a set of pages, and then the functions. *)

From Stdlib Require Import ZArith Lia.
From stdpp Require Import base numbers list gmap.
From S2P Require Import Prelude Bitmap Vaddr Palloc.

Open Scope Z_scope.

(** * The page pools as a set of pages

    Single pages of threads/palloc.c: which addresses are pages of the pools,
    which of them are in use, and what allocating and freeing one page does to
    that set. *)

(** [p] is page [i] of the kernel pool, or of the user pool. *)
Definition page_at (ps : pools) (u : bool) (i p : Z) : Prop :=
  let pl := if u then user_pool ps else kernel_pool ps in
  0 <= i < bit_cnt (used_map pl) /\ p = page pl i.

Definition pool_page (ps : pools) (p : Z) : Prop := exists u i, page_at ps u i p.
Definition taken (ps : pools) (p : Z) : Prop :=
  exists u i, page_at ps u i p /\ used (if u then user_pool ps else kernel_pool ps) i = true.

(** Every page of the kernel pool, or of the user pool, is in use. *)
Definition pool_full (ps : pools) (u : bool) : Prop := forall i p, page_at ps u i p -> taken ps p.

Definition geometry (ps ps' : pools) : Prop :=
  base (kernel_pool ps') = base (kernel_pool ps) /\ bit_cnt (used_map (kernel_pool ps')) = bit_cnt (used_map (kernel_pool ps)) /\
  base (user_pool ps') = base (user_pool ps) /\ bit_cnt (used_map (user_pool ps')) = bit_cnt (used_map (user_pool ps)).

Lemma geometry_trans ps1 ps2 ps3 : geometry ps1 ps2 -> geometry ps2 ps3 -> geometry ps1 ps3.
Proof. unfold geometry. intros (? & ? & ? & ?) (? & ? & ? & ?). split_and!; congruence. Qed.

Lemma geometry_page_at ps ps' u i p : geometry ps ps' -> page_at ps' u i p <-> page_at ps u i p.
Proof. intros (E1 & E2 & E3 & E4). unfold page_at, page. destruct u; by rewrite ?E1, ?E2, ?E3, ?E4. Qed.

Lemma geometry_pool_page ps ps' p : geometry ps ps' -> pool_page ps' p <-> pool_page ps p.
Proof. intros H. unfold pool_page. by setoid_rewrite (geometry_page_at ps ps' _ _ _ H). Qed.

Lemma taken_pool_page ps p : taken ps p -> pool_page ps p.
Proof. intros (u & i & H & _). by exists u, i. Qed.

Lemma page_at_inj ps u1 i1 u2 i2 p : pools_wf ps -> page_at ps u1 i1 p -> page_at ps u2 i2 p -> u1 = u2 /\ i1 = i2.
Proof.
  intros ([_ _ Hk1 Hk2] & [_ _ Hu1 Hu2] & Hd) [H1 E1] [H2 E2]. unfold page in *. destruct u1, u2; split; done || lia.
Qed.

Lemma page_at_range ps u i p : pools_wf ps -> page_at ps u i p ->
  base (kernel_pool ps) <= p /\ p + 4096 <= base (user_pool ps) + 4096 * bit_cnt (used_map (user_pool ps)) /\ p + 4096 <= 2 ^ 32 /\ p mod 4096 = 0.
Proof.
  intros (Hk & Hu & Hd) [Hi ->]. pose proof Hk as [Hk0 _ Hk1 Hk2]. pose proof Hu as [Hu0 _ Hu1 Hu2].
  destruct (wf_cnt _ Hk0) as [H1 _], (wf_cnt _ Hu0) as [H2 _].
  split_and!; [unfold page; destruct u; lia..|]. destruct u; by apply page_aligned.
Qed.

Lemma pool_page_range ps p : pools_wf ps -> pool_page ps p ->
  0 < base (kernel_pool ps) <= p /\ p + 4096 <= 2 ^ 32 /\ p mod 4096 = 0.
Proof.
  intros Hw (u & i & H). pose proof (page_at_range _ _ _ _ Hw H). destruct Hw as ([_ _ ? _] & _). lia.
Qed.

(** One pool changes at one page. *)
Lemma set_page_used ps ps' u i p v : pools_wf ps -> page_at ps u i p -> geometry ps ps' ->
  (forall u' j, page_at ps u' j (page (if u' then user_pool ps else kernel_pool ps) j) ->
     used (if u' then user_pool ps' else kernel_pool ps') j =
     if bool_decide (u' = u /\ j = i) then v else used (if u' then user_pool ps else kernel_pool ps) j) ->
  forall q, taken ps' q <-> if v then taken ps q \/ q = p else taken ps q /\ q <> p.
Proof.
  intros Hw Hp Hg Hu q. unfold taken. setoid_rewrite (geometry_page_at ps ps' _ _ _ Hg).
  assert (Hrw : forall u' j, page_at ps u' j q -> used (if u' then user_pool ps' else kernel_pool ps') j =
    if bool_decide (u' = u /\ j = i) then v else used (if u' then user_pool ps else kernel_pool ps) j).
  { intros u' j Hj. apply Hu. pose proof Hj as [_ <-]. done. }
  split.
  - intros (u' & j & Hj & Hused). rewrite (Hrw _ _ Hj) in Hused. case_bool_decide as Hd.
    + subst v. destruct Hd as [-> ->]. right. destruct Hj as [_ ->], Hp as [_ ->]. done.
    + destruct v; [left|split]; [by exists u', j|by exists u', j|]. intros ->. apply Hd. by eapply page_at_inj.
  - destruct v.
    + intros [(u' & j & Hj & Hused)| ->].
      * exists u', j. split; [done|]. rewrite (Hrw _ _ Hj). by case_bool_decide.
      * exists u, i. split; [done|]. rewrite (Hrw _ _ Hp). by rewrite bool_decide_eq_true_2.
    + intros [(u' & j & Hj & Hused) Hne]. exists u', j. split; [done|]. rewrite (Hrw _ _ Hj).
      rewrite bool_decide_eq_false_2; [done|]. intros [-> ->]. apply Hne. destruct Hj as [_ ->], Hp as [_ ->]. done.
Qed.

(** ** Allocating and freeing a page *)

Definition update_pool (u : bool) (pl : pool) (ps : pools) : pools :=
  if u then mk_pools (kernel_pool ps) pl else mk_pools pl (user_pool ps).

Lemma update_pool_used ps (u : bool) pl' i (v : bool) : pools_wf ps ->
  pool_updated (if u then user_pool ps else kernel_pool ps) pl' (fun j => if in_range i 1 j then v else used (if u then user_pool ps else kernel_pool ps) j) ->
  let ps' := update_pool u pl' ps in
  pools_wf ps' /\ geometry ps ps' /\
  forall p, page_at ps u i p -> forall q, taken ps' q <-> if v then taken ps q \/ q = p else taken ps q /\ q <> p.
Proof.
  intros Hw Hu ps'. assert (Hg : geometry ps ps').
  { destruct Hu as (Eb & _ & Ec & _). unfold geometry, ps', update_pool. destruct u; cbn; done. }
  split; [|split; [done|]].
  - pose proof Hg as (E1 & E2 & E3 & E4). destruct Hw as (Hk & Huw & Hd).
    assert (Hpl : pool_wf pl') by (eapply pool_updated_wf; [|exact Hu]; by destruct u).
    unfold pools_wf. rewrite E1, E2, E3. destruct u; cbn; done.
  - intros p Hp. apply (set_page_used ps ps' u i p v Hw Hp Hg). intros u' j [Hj _].
    destruct Hu as (_ & _ & _ & _ & Hbit). unfold used in *.
    destruct (decide (u' = u)) as [->|Hne].
    + assert (E : bit (used_map (if u then user_pool ps' else kernel_pool ps')) j = bit (used_map pl') j) by (by destruct u).
      rewrite E, Hbit by lia. unfold in_range. destruct (decide (j = i)) as [->|Hji].
      * rewrite bool_decide_eq_true_2 by done. by rewrite (proj2 (Z.leb_le i i)), (proj2 (Z.ltb_lt i (i + 1))) by lia.
      * rewrite bool_decide_eq_false_2 by tauto. destruct (Z.leb_spec i j), (Z.ltb_spec j (i + 1)); done || lia.
    + rewrite bool_decide_eq_false_2 by tauto. by destruct u, u'.
Qed.

(** The pool of a set of flags. *)
Definition user_flag (flags : Z) : bool := negb (Z.land flags PAL_USER =? 0).

Lemma on_pool_update {A} flags (m : M pool A) ps a pl' :
  m (if user_flag flags then user_pool ps else kernel_pool ps) = Ok (a, pl') ->
  on_pool flags m ps = Ok (a, update_pool (user_flag flags) pl' ps).
Proof. unfold on_pool, user_flag, on_kernel, on_user, zoom. destruct (_ =? 0); cbn; by intros ->. Qed.

Lemma get_page_ok ps flags : pools_wf ps ->
  (exists p ps', on_pool flags (pool_get 1) ps = Ok (p, ps') /\ pools_wf ps' /\ geometry ps ps' /\
     (exists i, page_at ps (user_flag flags) i p) /\ ~ taken ps p /\ forall q, taken ps' q <-> taken ps q \/ q = p) \/
  (on_pool flags (pool_get 1) ps = Ok (NULL, ps) /\ pool_full ps (user_flag flags)).
Proof.
  intros Hw. set (u := user_flag flags). set (pl := if u then user_pool ps else kernel_pool ps).
  assert (Hpl : pool_wf pl) by (destruct Hw as (? & ? & _); unfold pl; by destruct u).
  destruct (pool_get_ok pl 1 Hpl ltac:(lia)) as [(i & pl' & E & Hi0 & Hi & Hfree & Hu)|[E Hnone]].
  - left. destruct (update_pool_used ps u pl' i true Hw Hu) as (Hw' & Hg & Ht).
    assert (Hp : page_at ps u i (page pl i)) by (split; [fold pl; lia|done]).
    exists (page pl i), (update_pool u pl' ps). split_and!; [by apply on_pool_update|done|done|by exists i| |by apply Ht].
    intros (u' & j & Hj & Hused). destruct (page_at_inj _ _ _ _ _ _ Hw Hj Hp) as [-> ->].
    change (if u then user_pool ps else kernel_pool ps) with pl in Hused. rewrite Hfree in Hused by lia. done.
  - right. split.
    + erewrite on_pool_update by exact E. unfold pl, update_pool. fold u. by destruct u, ps.
    + intros i p Hp. exists u, i. split; [done|]. destruct Hp as [Hi _]. apply not_false_is_true. intros Hf.
      apply (Hnone i); [lia|fold pl in Hi; lia|]. intros j Hj. replace j with i by lia. exact Hf.
Qed.

Lemma free_page_ok ps p : pools_wf ps -> taken ps p ->
  exists ps', palloc_free_page p ps = Ok (tt, ps') /\ pools_wf ps' /\ geometry ps ps' /\ forall q, taken ps' q <-> taken ps q /\ q <> p.
Proof.
  intros Hw (u & i & Hp & Hused). pose proof Hp as [Hi ->]. unfold palloc_free_page.
  assert (Hrange : forall j, i <= j < i + 1 -> used (if u then user_pool ps else kernel_pool ps) j = true) by (intros j Hj; by replace j with i by lia).
  assert (H : exists pl', palloc_free_multiple (page (if u then user_pool ps else kernel_pool ps) i) 1 ps = Ok (tt, update_pool u pl' ps) /\
    pool_updated (if u then user_pool ps else kernel_pool ps) pl' (fun j => if in_range i 1 j then false else used (if u then user_pool ps else kernel_pool ps) j)).
  { destruct u; [apply palloc_free_user|apply palloc_free_kernel]; done || lia. }
  destruct H as (pl' & E & Hu). destruct (update_pool_used ps u pl' i false Hw Hu) as (Hw' & Hg & Ht).
  exists (update_pool u pl' ps). split_and!; [done|done|done|]. intros q. by apply Ht.
Qed.

(** * userprog/pagedir.c: page directories

    A page directory and the page tables it points to are pages of 1024 words.
    The state is these pages, the page pools, the page directory base register
    CR3 and the translation lookaside buffer, which loading CR3 empties.  The
    calls are those of one thread at a time. *)

(** ** Data *)

Record pstate := mk_pstate {
  tables : gmap Z (list Z); page_pools : pools; base_page_dir : Z; cr3 : Z; tlb : gmap Z Z }.
Definition set_tables t s := mk_pstate t (page_pools s) (base_page_dir s) (cr3 s) (tlb s).
Definition set_page_pools p s := mk_pstate (tables s) p (base_page_dir s) (cr3 s) (tlb s).
Definition set_base_page_dir b s := mk_pstate (tables s) (page_pools s) b (cr3 s) (tlb s).
Definition set_cr3 c s := mk_pstate (tables s) (page_pools s) (base_page_dir s) c ∅.
Definition set_tlb t s := mk_pstate (tables s) (page_pools s) (base_page_dir s) (cr3 s) t.

(** The size of memory, the kernel's text, and what a page holds before it is
    written. *)
Class Machine := {
  ram_pages : Z;
  text_start : Z;
  text_end : Z;
  junk_page : Z -> list Z }.

Section PageDir.
Context `{!Machine}.

(** Words of pages. *)
Definition page_of (a : Z) : Z := a / 4096 * 4096.
Definition word_of (a : Z) : nat := Z.to_nat (a mod 4096 / 4).

Definition load_page (p : Z) : M pstate (list Z) := s ← get; of_option BadAccess (tables s !! p).
Definition load32 (a : Z) : M pstate Z := t ← load_page (page_of a); of_option BadAccess (t !! word_of a).
Definition store32 (a v : Z) : M pstate unit :=
  t ← load_page (page_of a);
  modify (fun s => set_tables (<[page_of a := <[word_of a := v]> t]> (tables s)) s).

(** palloc_get_page() when the lock of its pool is free, and palloc_free_page(). *)
Definition get_page (flags : Z) : M pstate Z :=
  p ← zoom page_pools set_page_pools (on_pool flags (pool_get 1));
  if p =? NULL then
    if negb (Z.land flags PAL_ASSERT =? 0) then fail AssertFail else ret NULL
  else
    modify (fun s => set_tables (<[p := if negb (Z.land flags PAL_ZERO =? 0) then replicate 1024 0 else junk_page p]> (tables s)) s);;
    ret p.
Definition free_page (p : Z) : M pstate unit :=
  zoom page_pools set_page_pools (palloc_free_page p);;
  modify (fun s => set_tables (delete p (tables s)) s).

(** ** Activation *)

Definition pagedir_activate (pd : Z) : M pstate unit :=
  b ← gets base_page_dir;
  p ← vtop (if pd =? NULL then b else pd);
  modify (set_cr3 p).

Definition active_pd : M pstate Z := p ← gets cr3; ptov p.

Definition invalidate_pagedir (pd : Z) : M pstate unit :=
  a ← active_pd;
  if a =? pd then pagedir_activate pd else ret tt.

(** ** Directories *)

(** memcpy (pd, base_page_dir, PGSIZE) copies a page. *)
Definition pagedir_create : M pstate Z :=
  pd ← get_page 0;
  (if negb (pd =? NULL) then
     b ← gets base_page_dir;
     t ← load_page b;
     modify (fun s => set_tables (<[pd := t]> (tables s)) s)
   else ret tt);;
  ret pd.

Definition pagedir_destroy (pd : Z) : M pstate unit :=
  if pd =? NULL then ret tt else
  b ← gets base_page_dir;
  ASSERT (negb (pd =? b));;
  for_from (Z.to_nat (pd_no PHYS_BASE)) 0 (fun i =>
    pde ← load32 (pd + 4 * i);
    if negb (Z.land pde PTE_P =? 0) then
      pt ← pde_get_pt pde;
      for_from (Z.to_nat (PGSIZE / 4)) 0 (fun j =>
        pte ← load32 (pt + 4 * j);
        if negb (Z.land pte PTE_P =? 0) then page ← pte_get_page pte; free_page page else ret tt);;
      free_page pt
    else ret tt);;
  free_page pd.

Definition lookup_page (pd vaddr : Z) (create : bool) : M pstate Z :=
  ASSERT (negb (pd =? NULL));;
  ASSERT (negb create || is_user_vaddr vaddr);;
  let pde := pd + 4 * pd_no vaddr in
  e ← load32 pde;
  present ← (
    if e =? 0 then
      if create then
        pt ← get_page PAL_ZERO;
        if pt =? NULL then ret false else
        x ← pde_create pt;
        store32 pde x;;
        ret true
      else ret false
    else ret true);
  if negb present then ret NULL else
  e ← load32 pde;
  pt ← pde_get_pt e;
  ret (pt + 4 * pt_no vaddr).

Definition pagedir_set_page (pd upage kpage : Z) (writable : bool) : M pstate bool :=
  ASSERT (pg_ofs upage =? 0);;
  ASSERT (pg_ofs kpage =? 0);;
  ASSERT (is_user_vaddr upage);;
  p ← vtop kpage;
  ASSERT (Z.shiftr p PTSHIFT <? ram_pages);;
  b ← gets base_page_dir;
  ASSERT (negb (pd =? b));;
  pte ← lookup_page pd upage true;
  if negb (pte =? NULL) then
    e ← load32 pte;
    ASSERT (Z.land e PTE_P =? 0);;
    x ← pte_create_user kpage writable;
    store32 pte x;;
    ret true
  else ret false.

Definition pagedir_get_page (pd uaddr : Z) : M pstate Z :=
  ASSERT (is_user_vaddr uaddr);;
  pte ← lookup_page pd uaddr false;
  if pte =? NULL then ret NULL else
  e ← load32 pte;
  if Z.land e PTE_P =? 0 then ret NULL else
  page ← pte_get_page e;
  ret (u32 (page + pg_ofs uaddr)).

Definition pagedir_clear_page (pd upage : Z) : M pstate unit :=
  ASSERT (pg_ofs upage =? 0);;
  ASSERT (is_user_vaddr upage);;
  pte ← lookup_page pd upage false;
  if pte =? NULL then ret tt else
  e ← load32 pte;
  if Z.land e PTE_P =? 0 then ret tt else
  store32 pte (Z.land e (u32 (Z.lnot PTE_P)));;
  invalidate_pagedir pd.

(** The accessed and dirty bits. *)
Definition is_bit (bit pd vpage : Z) : M pstate bool :=
  pte ← lookup_page pd vpage false;
  if pte =? NULL then ret false else
  e ← load32 pte;
  ret (negb (Z.land e bit =? 0)).

Definition set_bit (bit pd vpage : Z) (v : bool) : M pstate unit :=
  pte ← lookup_page pd vpage false;
  if pte =? NULL then ret tt else
  e ← load32 pte;
  if v then store32 pte (Z.lor e bit)
  else
    store32 pte (Z.land e (u32 (Z.lnot bit)));;
    invalidate_pagedir pd.

Definition pagedir_is_dirty (pd vpage : Z) : M pstate bool := is_bit PTE_D pd vpage.
Definition pagedir_set_dirty (pd vpage : Z) (dirty : bool) : M pstate unit := set_bit PTE_D pd vpage dirty.
Definition pagedir_is_accessed (pd vpage : Z) : M pstate bool := is_bit PTE_A pd vpage.
Definition pagedir_set_accessed (pd vpage : Z) (accessed : bool) : M pstate unit := set_bit PTE_A pd vpage accessed.

(** ** threads/init.c *)

(** The table that maps the page before is the one to use until a new one is
    needed. *)
Definition paging_init : M pstate unit :=
  pd ← get_page (Z.lor PAL_ASSERT PAL_ZERO);
  modify (set_base_page_dir pd);;
  iterate (S (Z.to_nat ram_pages)) (fun '(page, pt) =>
    if page <? ram_pages then
      vaddr ← ptov (u32 (page * PGSIZE));
      let pde := pd + 4 * pd_no vaddr in
      let in_kernel_text := (text_start <=? vaddr) && (vaddr <? text_end) in
      e ← load32 pde;
      pt ← (if e =? 0 then
              pt ← get_page (Z.lor PAL_ASSERT PAL_ZERO);
              x ← pde_create pt;
              store32 pde x;;
              ret pt
            else ret pt);
      x ← pte_create_kernel vaddr (negb in_kernel_text);
      store32 (pt + 4 * pt_no vaddr) x;;
      ret (inl (page + 1, pt))
    else ret (inr tt)) (0, NULL);;
  p ← vtop pd;
  modify (set_cr3 p).
End PageDir.
