(* ===== verification/PageDirSpec.v ===== *)
(** * Page directories: meaning and invariant

    What a page directory stands for, and then the invariant on the memory it
    is in. *)

From Stdlib Require Import ZArith Lia.
From stdpp Require Import base numbers gmap list.
From S2P Require Import Prelude Bitmap Vaddr Palloc PageDir.

Open Scope Z_scope.

(** * Page directories: what they stand for

    An address space maps the numbers of user pages to entries.  An entry is
    encoded in a word of a page table; the processor translates addresses with
    the tables and with the translations that it has cached. *)

(** ** Entries *)

Record entry : Set := mk_entry { frame : Z; present : bool; writable : bool; accessed : bool; dirty : bool }.

#[global] Instance entry_eq_dec : EqDecision entry.
Proof. solve_decision. Defined.

Definition with_present e b := mk_entry (frame e) b (writable e) (accessed e) (dirty e).
Definition with_accessed e b := mk_entry (frame e) (present e) (writable e) b (dirty e).
Definition with_dirty e b := mk_entry (frame e) (present e) (writable e) (accessed e) b.

Definition flag (b : bool) (v : Z) : Z := if b then v else 0.

(** The low bits of the word: entries are for user pages. *)
Definition enc_flags (e : entry) : Z :=
  flag (present e) 1 + flag (writable e) 2 + 4 + flag (accessed e) 32 + flag (dirty e) 64.
Definition enc (e : entry) : Z := (frame e - PHYS_BASE) + enc_flags e.
Definition enc_opt (o : option entry) : Z := match o with Some e => enc e | None => 0 end.

Definition frame_ok (f : Z) : Prop := f mod 4096 = 0 /\ PHYS_BASE <= f /\ f + 4096 <= 2 ^ 32.

(** ** Bits *)

Lemma lor_add a c : 0 <= c < 4096 -> 4096 * a + c = Z.lor (Z.shiftl a 12) c.
Proof.
  intros Hc. rewrite Z.shiftl_mul_pow2 by lia. change (2 ^ 12) with 4096. rewrite (Z.mul_comm a).
  rewrite <- Z.add_lor_land. assert (E : Z.land (4096 * a) c = 0); [|lia].
  apply Z.bits_inj'. intros k Hk. rewrite Z.bits_0, Z.land_spec. change 4096 with (2 ^ 12). rewrite Z.mul_comm, <- Z.shiftl_mul_pow2, Z.shiftl_spec by lia.
  destruct (Z.ltb_spec k 12); [by rewrite (Z.testbit_neg_r _ (k - 12)) by lia|].
  rewrite <- (Z.mod_small c (2 ^ 12)) by lia. rewrite Z.mod_pow2_bits_high by lia. apply andb_false_r.
Qed.

Lemma land_low a c m : 0 <= c < 4096 -> 0 <= m < 4096 -> Z.land (4096 * a + c) m = Z.land c m.
Proof.
  intros Hc Hm. rewrite lor_add, Z.land_lor_distr_l by done. pose proof (lor_add a m Hm) as E.
  assert (E0 : Z.land (Z.shiftl a 12) m = 0); [|by rewrite E0, Z.lor_0_l].
  pose proof (Z.add_lor_land (Z.shiftl a 12) m) as E1. rewrite <- E in E1. rewrite Z.shiftl_mul_pow2 in * by lia. change (2 ^ 12) with 4096 in *. lia.
Qed.

Lemma lor_low a c m : 0 <= c < 4096 -> 0 <= m < 4096 -> 0 <= Z.lor c m < 4096 -> Z.lor (4096 * a + c) m = 4096 * a + Z.lor c m.
Proof. intros Hc Hm Hl. rewrite (lor_add a c), (lor_add a (Z.lor c m)) by done. by rewrite Z.lor_assoc. Qed.

(** A mask that keeps the address and the flags [m]. *)
Lemma land_high a c m : 0 <= a < 2 ^ 20 -> 0 <= c < 4096 -> 0 <= m < 4096 ->
  Z.land (4096 * a + c) (4096 * (2 ^ 20 - 1) + m) = 4096 * a + Z.land c m.
Proof.
  intros Ha Hc Hm. assert (Hl : 0 <= Z.land c m < 4096).
  { split; [apply Z.land_nonneg; lia|]. change 4096 with (2 ^ 12). rewrite <- (Z.mod_small c (2 ^ 12)), <- Z.land_ones by lia.
    rewrite <- Z.land_assoc, (Z.land_comm _ m), Z.land_assoc, Z.land_ones by lia. apply Z.mod_pos_bound. lia. }
  rewrite (lor_add a c), (lor_add (2 ^ 20 - 1) m), (lor_add a (Z.land c m)) by done.
  rewrite Z.land_lor_distr_l, !Z.land_lor_distr_r. rewrite <- Z.shiftl_land.
  assert (E : forall x y, 0 <= y < 4096 -> Z.land (Z.shiftl x 12) y = 0).
  { intros x y Hy. rewrite <- (Z.add_0_r (Z.shiftl x 12)), Z.shiftl_mul_pow2, Z.mul_comm by lia. change (2 ^ 12) with 4096. by rewrite land_low. }
  rewrite (E a m Hm), (Z.land_comm c), (E _ c Hc), Z.lor_0_r, Z.lor_0_l. f_equal. f_equal.
  change (2 ^ 20 - 1) with (Z.ones 20). rewrite Z.land_ones by lia. apply Z.mod_small. done.
Qed.

(** ** Encoding *)

Lemma frame_split f : frame_ok f -> exists k, 0 <= k < 2 ^ 18 /\ f = PHYS_BASE + 4096 * k.
Proof.
  intros (Ha & Hlo & Hhi). unfold PHYS_BASE, LOADER_PHYS_BASE in *. exists ((f - 0xc0000000) / 4096).
  Z.to_euclidean_division_equations. lia.
Qed.

Lemma enc_split e : frame_ok (frame e) -> exists k, 0 <= k < 2 ^ 18 /\ frame e - PHYS_BASE = 4096 * k /\ enc e = 4096 * k + enc_flags e.
Proof. intros (k & Hk & E)%frame_split. exists k. unfold enc. lia. Qed.

Ltac enc_bits :=
  intros Hf; destruct (enc_split _ Hf) as (k & Hk & Ef & Ee); rewrite ?Ee;
  match goal with e : entry |- _ => destruct e as [? [] [] [] []] end;
  unfold enc, enc_flags in *; cbn [frame present writable accessed dirty with_present with_accessed with_dirty flag] in *.

Ltac eval_bits :=
  repeat match goal with
  | |- context [Z.lor ?c ?m] => let v := eval vm_compute in (Z.lor c m) in change (Z.lor c m) with v
  | |- context [Z.land ?c ?m] => let v := eval vm_compute in (Z.land c m) in change (Z.land c m) with v
  end.

Lemma enc_P e : frame_ok (frame e) -> (Z.land (enc e) PTE_P =? 0) = negb (present e).
Proof. enc_bits; by rewrite land_low. Qed.
Lemma enc_W e : frame_ok (frame e) -> (Z.land (enc e) PTE_W =? 0) = negb (writable e).
Proof. enc_bits; by rewrite land_low. Qed.
Lemma enc_U e : frame_ok (frame e) -> (Z.land (enc e) PTE_U =? 0) = false.
Proof. enc_bits; by rewrite land_low. Qed.
Lemma enc_A e : frame_ok (frame e) -> (Z.land (enc e) PTE_A =? 0) = negb (accessed e).
Proof. enc_bits; by rewrite land_low. Qed.
Lemma enc_D e : frame_ok (frame e) -> (Z.land (enc e) PTE_D =? 0) = negb (dirty e).
Proof. enc_bits; by rewrite land_low. Qed.

Lemma enc_addr e : frame_ok (frame e) -> Z.land (enc e) PTE_ADDR = frame e - PHYS_BASE.
Proof. enc_bits; change PTE_ADDR with (4096 * (2 ^ 20 - 1) + 0); rewrite land_high by lia; rewrite Z.land_0_r; lia. Qed.

Lemma enc_set_A e : frame_ok (frame e) -> Z.lor (enc e) PTE_A = enc (with_accessed e true).
Proof. enc_bits; rewrite lor_low by (split; [try done|]; done); eval_bits; lia. Qed.
Lemma enc_set_D e : frame_ok (frame e) -> Z.lor (enc e) PTE_D = enc (with_dirty e true).
Proof. enc_bits; rewrite lor_low by (split; [try done|]; done); eval_bits; lia. Qed.

Lemma enc_clear_P e : frame_ok (frame e) -> Z.land (enc e) (u32 (Z.lnot PTE_P)) = enc (with_present e false).
Proof. enc_bits; change (u32 (Z.lnot PTE_P)) with (4096 * (2 ^ 20 - 1) + 0xffe); rewrite land_high by lia; eval_bits; lia. Qed.
Lemma enc_clear_A e : frame_ok (frame e) -> Z.land (enc e) (u32 (Z.lnot PTE_A)) = enc (with_accessed e false).
Proof. enc_bits; change (u32 (Z.lnot PTE_A)) with (4096 * (2 ^ 20 - 1) + 0xfdf); rewrite land_high by lia; eval_bits; lia. Qed.
Lemma enc_clear_D e : frame_ok (frame e) -> Z.land (enc e) (u32 (Z.lnot PTE_D)) = enc (with_dirty e false).
Proof. enc_bits; change (u32 (Z.lnot PTE_D)) with (4096 * (2 ^ 20 - 1) + 0xfbf); rewrite land_high by lia; eval_bits; lia. Qed.

Lemma enc_pos e : frame_ok (frame e) -> 0 < enc e.
Proof. intros (k & Hk & Ef & Ee)%enc_split. rewrite Ee. unfold enc_flags, flag. repeat case_match; lia. Qed.

(** Physical addresses of kernel pages. *)
Lemma vtop_ok {S} f (s : S) : PHYS_BASE <= f < 2 ^ 32 -> vtop f s = Ok (f - PHYS_BASE, s).
Proof.
  intros Hf. unfold vtop, is_kernel_vaddr, bind, assertb. rewrite (proj2 (Z.leb_le _ _)) by lia. unfold ret.
  by rewrite uwrap_small by (unfold in_u, PHYS_BASE, LOADER_PHYS_BASE in *; lia).
Qed.

Lemma ptov_ok {S} f (s : S) : PHYS_BASE <= f < 2 ^ 32 -> ptov (f - PHYS_BASE) s = Ok (f, s).
Proof.
  intros Hf. unfold ptov, bind, assertb. rewrite (proj2 (Z.ltb_lt _ _)) by (unfold PHYS_BASE, LOADER_PHYS_BASE in *; lia). unfold ret.
  replace (f - PHYS_BASE + PHYS_BASE) with f by lia. by rewrite uwrap_small by (unfold in_u, PHYS_BASE, LOADER_PHYS_BASE in *; lia).
Qed.

Lemma frame_ok_range f : frame_ok f -> PHYS_BASE <= f < 2 ^ 32.
Proof. intros (_ & ? & ?). lia. Qed.

Lemma pte_get_page_ok {S} e (s : S) : frame_ok (frame e) -> pte_get_page (enc e) s = Ok (frame e, s).
Proof. intros Hf. unfold pte_get_page. rewrite enc_addr by done. by apply ptov_ok, frame_ok_range. Qed.

Lemma pte_create_user_ok {S} f w (s : S) : frame_ok f -> pte_create_user f w s = Ok (enc (mk_entry f true w false false), s).
Proof.
  intros Hf. unfold pte_create_user, pte_create_kernel. rewrite pg_ofs_mod. pose proof Hf as (-> & _). unfold bind. cbn [assertb Z.eqb ret].
  unfold ret at 1. rewrite vtop_ok by (by apply frame_ok_range). unfold ret. do 2 f_equal.
  destruct (frame_split f Hf) as (k & Hk & ->). replace (PHYS_BASE + 4096 * k - PHYS_BASE) with (4096 * k + 0) by lia. unfold enc. cbn [frame].
  destruct w; do 3 (rewrite lor_low; [|done|done|done]); cbn [enc_flags present writable accessed dirty flag]; eval_bits; unfold enc_flags; cbn [present writable accessed dirty flag]; lia.
Qed.

(** The entry of a directory for the page table at [pt]. *)
Definition pde_word (pt : Z) : Z := pt - PHYS_BASE + 7.

Lemma pde_create_ok {S} pt (s : S) : frame_ok pt -> pde_create pt s = Ok (pde_word pt, s).
Proof.
  intros Hf. unfold pde_create. rewrite pg_ofs_mod. pose proof Hf as (-> & _). unfold bind. cbn [assertb Z.eqb ret].
  unfold ret at 1. rewrite vtop_ok by (by apply frame_ok_range). unfold ret. do 2 f_equal.
  destruct (frame_split pt Hf) as (k & Hk & ->). unfold pde_word. replace (PHYS_BASE + 4096 * k - PHYS_BASE) with (4096 * k + 0) by lia.
  do 3 (rewrite lor_low; [|done|done|done]). eval_bits. lia.
Qed.

Lemma pde_word_bits pt : frame_ok pt -> 0 < pde_word pt /\ (Z.land (pde_word pt) PTE_P =? 0) = false /\ Z.land (pde_word pt) PTE_ADDR = pt - PHYS_BASE.
Proof.
  intros (k & Hk & ->)%frame_split. unfold pde_word. replace (PHYS_BASE + 4096 * k - PHYS_BASE) with (4096 * k) by lia.
  split_and!; [lia|by rewrite land_low|]. change PTE_ADDR with (4096 * (2 ^ 20 - 1) + 0). rewrite land_high by lia. rewrite Z.land_0_r. lia.
Qed.

Lemma pde_get_pt_ok {S} pt (s : S) : frame_ok pt -> pde_get_pt (pde_word pt) s = Ok (pt, s).
Proof.
  intros Hf. destruct (pde_word_bits pt Hf) as (_ & E1 & E2). unfold pde_get_pt, bind. rewrite E1, E2. cbn [negb assertb].
  by apply ptov_ok, frame_ok_range.
Qed.

(** ** The processor *)

(** The word of the page table for an address, and where it is. *)
Definition walk (vaddr : Z) : M pstate (option (Z * Z)) :=
  c ← gets cr3;
  e ← load32 (PHYS_BASE + c + 4 * pd_no vaddr);
  if Z.land e PTE_P =? 0 then ret None else
  let a := PHYS_BASE + Z.land e PTE_ADDR + 4 * pt_no vaddr in
  pte ← load32 a;
  ret (if Z.land pte PTE_P =? 0 then None else Some (a, pte)).

(** A user program may read, or write, through the entry. *)
Definition allows (pte : Z) (wr : bool) : bool :=
  negb (Z.land pte PTE_U =? 0) && (negb wr || negb (Z.land pte PTE_W =? 0)).

(** A translation that is not cached: the tables are walked, and the entry is
    marked and cached. *)
Definition fill (vaddr : Z) (wr : bool) : M pstate (option Z) :=
  r ← walk vaddr;
  match r with
  | Some (a, pte) =>
      if allows pte wr then
        let pte := if wr then Z.lor (Z.lor pte PTE_A) PTE_D else Z.lor pte PTE_A in
        store32 a pte;;
        modify (fun s => set_tlb (<[vaddr / 4096 := pte]> (tlb s)) s);;
        ret (Some (Z.land pte PTE_ADDR + vaddr mod 4096))
      else ret None
  | None => ret None
  end.

(** An access by a user program: the physical address, or a page fault.  A
    write through a cached entry that is not dirty goes to the tables. *)
Definition cpu_access (vaddr : Z) (wr : bool) : M pstate (option Z) :=
  t ← gets tlb;
  match t !! (vaddr / 4096) with
  | Some pte =>
      if negb (allows pte wr) then ret None
      else if wr && (Z.land pte PTE_D =? 0) then fill vaddr wr
      else ret (Some (Z.land pte PTE_ADDR + vaddr mod 4096))
  | None => fill vaddr wr
  end.

Lemma pd_no_div va : pd_no va = va / 4096 / 1024.
Proof. unfold pd_no. rewrite Z.shiftr_div_pow2 by done. rewrite Z.div_div by lia. done. Qed.

Lemma pt_no_mod va : in_u 32 va -> pt_no va = va / 4096 mod 1024.
Proof.
  intros Hv. unfold pt_no. change PTMASK with (Z.shiftl (Z.ones 10) 12). change PTSHIFT with 12.
  rewrite Z.shiftr_land, (Z.shiftr_shiftl_l (Z.ones 10)) by lia. change (12 - 12) with 0. rewrite Z.shiftl_0_r, Z.land_ones by lia.
  rewrite Z.shiftr_div_pow2 by lia. done.
Qed.

(** ** Words of pages *)

Lemma page_word p i : p mod 4096 = 0 -> 0 <= i < 1024 -> page_of (p + 4 * i) = p /\ word_of (p + 4 * i) = Z.to_nat i.
Proof. intros Hp Hi. unfold page_of, word_of. split; [|f_equal]; Z.to_euclidean_division_equations; lia. Qed.

Lemma load32_ok s p t i x : p mod 4096 = 0 -> tables s !! p = Some t -> 0 <= i < 1024 -> t !! Z.to_nat i = Some x ->
  load32 (p + 4 * i) s = Ok (x, s).
Proof.
  intros Hp Ht Hi Hx. destruct (page_word p i Hp Hi) as [E1 E2]. unfold load32, load_page, bind, get. rewrite E1, E2, Ht. cbn. by rewrite Hx.
Qed.

Lemma store32_ok s p t i v : p mod 4096 = 0 -> tables s !! p = Some t -> 0 <= i < 1024 ->
  store32 (p + 4 * i) v s = Ok (tt, set_tables (<[p := <[Z.to_nat i := v]> t]> (tables s)) s).
Proof.
  intros Hp Ht Hi. destruct (page_word p i Hp Hi) as [E1 E2]. unfold store32, load_page, bind, get. by rewrite E1, E2, Ht.
Qed.

(** * Page directories: the invariant

    Every page that belongs to an address space has one use, which [tag] names.
    The invariant ties the directories, tables and pools to the address spaces
    that they stand for, and the cached translations to the active one. *)

(** The use of a page: a directory, table [i] of a directory, the frame of page
    [v] of a directory, or a page that the program holds. *)
Inductive tag : Set := Dir | Table (pd i : Z) | Frame (pd v : Z) | Held.

#[global] Instance tag_eq_dec : EqDecision tag.
Proof. solve_decision. Defined.

(** The address spaces by directory, the pages that the program holds, and the
    active directory, null for the base page directory. *)
Record spaces := mk_spaces { dirs : gmap Z (gmap Z entry); held : gset Z; active : Z }.
Definition set_space pd sp S := mk_spaces (<[pd := sp]> (dirs S)) (held S) (active S).
Definition set_held_pages h S := mk_spaces (dirs S) h (active S).

Abbreviation user_pages := (768 * 1024).

Lemma frame_pos f : frame_ok f -> 0 < f < 2 ^ 32 /\ f <> NULL /\ f mod 4096 = 0.
Proof. unfold frame_ok, PHYS_BASE, LOADER_PHYS_BASE, NULL. lia. Qed.

Lemma user_index va : 0 <= va < PHYS_BASE ->
  let v := va / 4096 in 0 <= v < user_pages /\ 0 <= v / 1024 < 768 /\ 0 <= v mod 1024 < 1024 /\ v = 1024 * (v / 1024) + v mod 1024 /\ pt_no va = v mod 1024.
Proof.
  intros Hv. split_and!; [..|apply pt_no_mod; unfold in_u]; unfold PHYS_BASE, LOADER_PHYS_BASE in *; Z.to_euclidean_division_equations; lia.
Qed.

Section Inv.
Context {machine : Machine} (others : Z -> Prop).

(** Table [i] of an address space. *)
Definition table_ok (s : pstate) (pt : Z) (sp : gmap Z entry) (i : Z) : Prop :=
  exists t, tables s !! pt = Some t /\ length t = 1024%nat /\
  forall j, 0 <= j < 1024 -> t !! Z.to_nat j = Some (enc_opt (sp !! (1024 * i + j))).

(** What a directory has for table [i]. *)
Definition pde_ok (s : pstate) (O : gmap Z tag) (pd : Z) (d : list Z) (sp : gmap Z entry) (i : Z) : Prop :=
  (d !! Z.to_nat i = Some 0 /\ forall j, 0 <= j < 1024 -> sp !! (1024 * i + j) = None) \/
  (exists pt, d !! Z.to_nat i = Some (pde_word pt) /\ O !! pt = Some (Table pd i) /\ table_ok s pt sp i).

Definition dir_ok (s : pstate) (O : gmap Z tag) (pd : Z) (sp : gmap Z entry) : Prop :=
  exists d b, tables s !! pd = Some d /\ tables s !! base_page_dir s = Some b /\ length d = 1024%nat /\
  (forall i, 768 <= i < 1024 -> d !! Z.to_nat i = b !! Z.to_nat i) /\
  forall i, 0 <= i < 768 -> pde_ok s O pd d sp i.

(** The pages of the pools are memory that the kernel maps. *)
Definition memory_ok (ps : pools) : Prop :=
  pools_wf ps /\ forall p, pool_page ps p -> frame_ok p /\ (p - PHYS_BASE) / 4096 < ram_pages.

(** The base page directory maps no user pages. *)
Definition base_ok (s : pstate) : Prop :=
  others (base_page_dir s) /\ frame_ok (base_page_dir s) /\
  exists b, tables s !! base_page_dir s = Some b /\ length b = 1024%nat /\ forall i, 0 <= i < 768 -> b !! Z.to_nat i = Some 0.

Record pd_base (s : pstate) (O : gmap Z tag) (S : spaces) : Prop := {
  pb_memory : memory_ok (page_pools s);
  pb_base : base_ok s;
  pb_taken : forall p, taken (page_pools s) p <-> others p \/ is_Some (O !! p);
  pb_mine : forall p, is_Some (O !! p) -> ~ others p;
  pb_held : forall p, O !! p = Some Held <-> p ∈ held S;
  pb_dirs : forall p, O !! p = Some Dir <-> is_Some (dirs S !! p);
  pb_dir : forall pd sp, dirs S !! pd = Some sp -> dir_ok s O pd sp;
  pb_table : forall p pd i, O !! p = Some (Table pd i) -> 0 <= i < 768 /\ is_Some (dirs S !! pd) /\
    exists d, tables s !! pd = Some d /\ d !! Z.to_nat i = Some (pde_word p);
  pb_frame : forall p pd v, O !! p = Some (Frame pd v) <->
    exists sp e, dirs S !! pd = Some sp /\ sp !! v = Some e /\ present e = true /\ frame e = p;
  pb_entry : forall pd sp v e, dirs S !! pd = Some sp -> sp !! v = Some e -> 0 <= v < user_pages /\ frame_ok (frame e);
  pb_cr3 : cr3 s = (if active S =? NULL then base_page_dir s else active S) - PHYS_BASE;
  pb_active : active S = NULL \/ is_Some (dirs S !! active S) }.

(** Cached translations agree with the active address space. *)
Definition tlb_ok (s : pstate) (S : spaces) : Prop :=
  forall v w, tlb s !! v = Some w -> exists sp e d, dirs S !! active S = Some sp /\ sp !! v = Some e /\
    present e = true /\ accessed e = true /\ w = enc (mk_entry (frame e) true (writable e) true d) /\ (d = true -> dirty e = true).

Definition pd_inv (s : pstate) (O : gmap Z tag) (S : spaces) : Prop := pd_base s O S /\ tlb_ok s S.

(** After start-up: the base page directory maps no user page and is active, and
    the pages in use are those of others. *)
Record started (s : pstate) : Prop := {
  st_memory : memory_ok (page_pools s);
  st_base : base_ok s;
  st_taken : forall p, taken (page_pools s) p <-> others p;
  st_cr3 : cr3 s = base_page_dir s - PHYS_BASE;
  st_tlb : tlb s = ∅ }.

(** ** Consequences *)

Section Facts.
Context {s : pstate} {O : gmap Z tag} {S : spaces} (I : pd_base s O S).

Lemma owned_page p : is_Some (O !! p) -> frame_ok p /\ (p - PHYS_BASE) / 4096 < ram_pages /\ taken (page_pools s) p.
Proof using All.
  intros H. assert (Ht : taken (page_pools s) p) by (apply (pb_taken _ _ _ I); by right).
  destruct (pb_memory _ _ _ I) as [_ Hm]. destruct (Hm p) as [? ?]; [by apply taken_pool_page|]. done.
Qed.

Lemma dir_page pd sp : dirs S !! pd = Some sp -> frame_ok pd /\ O !! pd = Some Dir /\ pd <> base_page_dir s.
Proof using All.
  intros H. assert (Ho : O !! pd = Some Dir) by (apply (pb_dirs _ _ _ I); by eexists).
  split; [by apply owned_page; eexists|]. split; [done|]. intros ->.
  destruct (pb_base _ _ _ I) as [Hb _]. by apply (pb_mine _ _ _ I (base_page_dir s)); [eexists|].
Qed.
End Facts.

(** ** Finding an entry *)

Lemma lookup_present s O S pd sp d pt va create : pd_base s O S -> dirs S !! pd = Some sp -> 0 <= va < PHYS_BASE ->
  tables s !! pd = Some d -> d !! Z.to_nat (va / 4096 / 1024) = Some (pde_word pt) -> frame_ok pt ->
  lookup_page pd va create s = Ok (pt + 4 * (va / 4096 mod 1024), s).
Proof using All.
  intros I Hsp Hva Hd Hpde Hpt. destruct (dir_page I pd sp Hsp) as (Hf & _). destruct (frame_pos pd Hf) as (_ & Hn & Ha).
  destruct (user_index va Hva) as (_ & Hi & _ & _ & Ept). destruct (pde_word_bits pt Hpt) as (Hpos & _).
  unfold lookup_page. rewrite pd_no_div, Ept. unfold bind at 1. rewrite (proj2 (Z.eqb_neq _ _) Hn). cbn [negb assertb ret].
  unfold bind at 1. replace (is_user_vaddr va) with true by (unfold is_user_vaddr; symmetry; apply Z.ltb_lt; lia). rewrite orb_true_r. cbn [assertb ret].
  assert (El : load32 (pd + 4 * (va / 4096 / 1024)) s = Ok (pde_word pt, s)) by (eapply load32_ok; (done || lia)).
  unfold bind at 1. rewrite El. unfold bind at 1. rewrite (proj2 (Z.eqb_neq _ _)) by lia. unfold ret at 1. cbn [negb].
  unfold bind at 1. rewrite El. unfold bind at 1. rewrite pde_get_pt_ok by done. done.
Qed.
Lemma lookup_absent s O S pd sp d va : pd_base s O S -> dirs S !! pd = Some sp -> 0 <= va < PHYS_BASE ->
  tables s !! pd = Some d -> d !! Z.to_nat (va / 4096 / 1024) = Some 0 -> lookup_page pd va false s = Ok (NULL, s).
Proof using All.
  intros I Hsp Hva Hd Hpde. destruct (dir_page I pd sp Hsp) as (Hf & _). destruct (frame_pos pd Hf) as (_ & Hn & Ha).
  destruct (user_index va Hva) as (_ & Hi & _). unfold lookup_page. rewrite pd_no_div.
  unfold bind at 1. rewrite (proj2 (Z.eqb_neq _ _) Hn). cbn [negb assertb ret orb]. unfold bind at 1. cbn [assertb ret].
  unfold bind at 1. by erewrite load32_ok by (done || lia).
Qed.

(** The word for a page of an address space, when there is a table for it. *)
Definition entry_at (s : pstate) (O : gmap Z tag) (pd : Z) (sp : gmap Z entry) (va pt : Z) (t : list Z) : Prop :=
  let v := va / 4096 in
  O !! pt = Some (Table pd (v / 1024)) /\ frame_ok pt /\ tables s !! pt = Some t /\ length t = 1024%nat /\
  (forall j, 0 <= j < 1024 -> t !! Z.to_nat j = Some (enc_opt (sp !! (1024 * (v / 1024) + j)))) /\
  (forall create, lookup_page pd va create s = Ok (pt + 4 * (v mod 1024), s)) /\
  load32 (pt + 4 * (v mod 1024)) s = Ok (enc_opt (sp !! v), s).

Lemma find_entry s O S pd sp va : pd_base s O S -> dirs S !! pd = Some sp -> 0 <= va < PHYS_BASE ->
  (exists d, tables s !! pd = Some d /\ d !! Z.to_nat (va / 4096 / 1024) = Some 0 /\ sp !! (va / 4096) = None /\
     lookup_page pd va false s = Ok (NULL, s)) \/
  exists pt t, entry_at s O pd sp va pt t.
Proof using All.
  intros I Hsp Hva. destruct (user_index va Hva) as (_ & Hi & Hj & Ev & _).
  destruct (pb_dir _ _ _ I pd sp Hsp) as (d & b & Hd & _ & _ & _ & Hpde).
  destruct (Hpde (va / 4096 / 1024) Hi) as [[E0 Hnone]|(pt & Ept & HO & t & Ht & Hl & Hw)].
  - left. exists d. split_and!; [done|done| |by eapply lookup_absent]. rewrite Ev. by apply Hnone.
  - right. exists pt, t. destruct (owned_page I pt ltac:(by eexists)) as (Hf & _). destruct (frame_pos pt Hf) as (_ & _ & Ha).
    split_and!; [done|done|done|done|done|intros create; by eapply lookup_present|].
    eapply load32_ok; [done|done|done|]. rewrite Hw by done. by rewrite <- Ev.
Qed.

(** A directory entry is kept by changes elsewhere. *)
Lemma pde_ok_frame s s' (O O' : gmap Z tag) pd d sp sp' i : pde_ok s O pd d sp i ->
  (forall p, O !! p = Some (Table pd i) -> tables s' !! p = tables s !! p /\ O' !! p = Some (Table pd i)) ->
  (forall j, 0 <= j < 1024 -> sp' !! (1024 * i + j) = sp !! (1024 * i + j)) -> pde_ok s' O' pd d sp' i.
Proof using.
  intros [[E H]|(pt & E & HO & t & Ht & Hl & Hw)] Hk Hsp.
  - left. split; [done|]. intros j Hj. rewrite Hsp by done. by apply H.
  - right. destruct (Hk pt HO) as [Et HO']. exists pt. split_and!; [done|done|]. exists t. rewrite Et. split_and!; [done|done|].
    intros j Hj. rewrite Hw, Hsp by done. done.
Qed.

Lemma dir_ok_frame s s' (O O' : gmap Z tag) pd sp : dir_ok s O pd sp -> base_page_dir s' = base_page_dir s ->
  tables s' !! base_page_dir s = tables s !! base_page_dir s -> tables s' !! pd = tables s !! pd ->
  (forall p i, O !! p = Some (Table pd i) -> tables s' !! p = tables s !! p /\ O' !! p = Some (Table pd i)) ->
  dir_ok s' O' pd sp.
Proof using.
  intros (d & b & Hd & Hb & Hl & Hk & Hp) Eb Etb Etd Ht. exists d, b. rewrite Eb, Etb, Etd. split_and!; [done..|].
  intros i Hi. eapply pde_ok_frame; [by apply Hp|intros p; apply Ht|done].
Qed.

(** ** Changing an entry *)

(** No page changes hands but the frame of page [v]. *)
Definition retagged (O O' : gmap Z tag) (pd v : Z) (e : entry) (h : gset Z) : Prop :=
  (forall p, is_Some (O' !! p) <-> is_Some (O !! p)) /\
  (forall p t, t <> Held -> t <> Frame pd v -> O' !! p = Some t <-> O !! p = Some t) /\
  (forall p, O' !! p = Some (Frame pd v) <-> present e = true /\ frame e = p) /\
  (forall p, O' !! p = Some Held <-> p ∈ h).

Section Update.
Context {s : pstate} {O O' : gmap Z tag} {S : spaces} {pd va pt : Z} {sp : gmap Z entry} {t : list Z} {e : entry} {h : gset Z}.
Context (I : pd_base s O S) (Hsp : dirs S !! pd = Some sp) (Hva : 0 <= va < PHYS_BASE) (Hat : entry_at s O pd sp va pt t).
Context (He : frame_ok (frame e)) (Hre : retagged O O' pd (va / 4096) e h).

Let v := va / 4096.
Let s' := set_tables (<[pt := <[Z.to_nat (v mod 1024) := enc e]> t]> (tables s)) s.
Let S' := mk_spaces (<[pd := <[v := e]> sp]> (dirs S)) h (active S).

Lemma update_same p : p <> pt -> tables s' !! p = tables s !! p.
Proof using. intros Hp. cbn. by rewrite lookup_insert_ne. Qed.

Lemma update_dirs p : is_Some (dirs S' !! p) <-> is_Some (dirs S !! p).
Proof using Hsp.
  cbn. destruct (decide (p = pd)) as [->|]; [rewrite lookup_insert_eq|by rewrite lookup_insert_ne]. split; intros _; by eexists.
Qed.

Lemma update_not_dir p : is_Some (dirs S !! p) -> p <> pt.
Proof using I Hat. intros Hp%(pb_dirs _ _ _ I) ->. destruct Hat as (HO & _). congruence. Qed.

Lemma update_not_base : base_page_dir s <> pt.
Proof using I Hat.
  intros E. destruct (pb_base _ _ _ I) as [Hb _]. destruct Hat as (HO & _). apply (pb_mine _ _ _ I (base_page_dir s)); [|done]. rewrite E. by eexists.
Qed.

Lemma update_table d : tables s !! pd = Some d -> d !! Z.to_nat (v / 1024) = Some (pde_word pt).
Proof using I Hat.
  intros Hd. destruct Hat as (HO & _). destruct (pb_table _ _ _ I pt pd _ HO) as (_ & _ & d' & Hd' & E). rewrite Hd in Hd'. by injection Hd' as <-.
Qed.

(** The address space of the entry. *)
Lemma update_this_dir : dir_ok s' O' pd (<[v := e]> sp).
Proof using All.
  destruct (user_index va Hva) as (Hv & Hi & Hj & Ev & _). destruct (pb_dir _ _ _ I pd sp Hsp) as (d & b & Hd & Hb & Hld & Hk & Hp).
  pose proof (update_not_dir pd ltac:(by eexists)) as Hpne. pose proof (update_table d Hd) as Epd. destruct Hat as (HO & Hpt & Ht & Hl & Hw & _). destruct Hre as (_ & R2 & _).
  exists d, b. change (base_page_dir s') with (base_page_dir s). rewrite (update_same pd), (update_same (base_page_dir s)) by (done || apply update_not_base).
  split_and!; [done..|]. intros i Hir. destruct (decide (i = v / 1024)) as [->|Hni].
  - right. exists pt. split_and!; [done|by apply R2|]. exists (<[Z.to_nat (v mod 1024) := enc e]> t).
    split_and!; [cbn; by rewrite lookup_insert_eq|by rewrite length_insert|].
    intros j Hjr. destruct (decide (j = v mod 1024)) as [->|Hnj].
    + unfold v in *. rewrite <- Ev, lookup_insert_eq. apply list_lookup_insert_eq. lia.
    + rewrite list_lookup_insert_ne by (unfold v in *; lia). rewrite lookup_insert_ne by (unfold v in *; lia). by apply Hw.
  - eapply pde_ok_frame; [by apply Hp| |].
    + intros p HOp. split; [apply update_same; intros ->; unfold v in *; congruence|by apply R2].
    + intros j Hjr. apply lookup_insert_ne. unfold v in *. Z.to_euclidean_division_equations; lia.
Qed.

Lemma update_dir_ok pd' sp' : dirs S' !! pd' = Some sp' -> dir_ok s' O' pd' sp'.
Proof using All.
  intros Hsp'. cbn in Hsp'. destruct (decide (pd' = pd)) as [->|Hne].
  - rewrite lookup_insert_eq in Hsp'. injection Hsp' as <-. exact update_this_dir.
  - rewrite lookup_insert_ne in Hsp' by done. destruct Hat as (HO & _), Hre as (_ & R2 & _).
    eapply dir_ok_frame; [by apply (pb_dir _ _ _ I)|done|apply update_same, update_not_base|apply update_same, update_not_dir; by eexists|].
    intros p i HOp. split; [apply update_same; intros ->; congruence|by apply R2].
Qed.

Lemma update_frame p pd' v' : O' !! p = Some (Frame pd' v') <->
  exists sp e, dirs S' !! pd' = Some sp /\ sp !! v' = Some e /\ present e = true /\ frame e = p.
Proof using All.
  destruct Hre as (_ & R2 & R3 & _). destruct (decide (pd' = pd /\ v' = v)) as [[-> ->]|Hne].
  - unfold v at 1. rewrite R3. cbn. rewrite lookup_insert_eq. split.
    + intros [Hp Hf]. exists (<[v := e]> sp), e. by rewrite lookup_insert_eq.
    + intros (sp1 & e1 & [= <-] & E1 & ?). rewrite lookup_insert_eq in E1. by injection E1 as <-.
  - rewrite R2 by (done || (intros [= -> ->]; by apply Hne)). rewrite (pb_frame _ _ _ I). cbn. destruct (decide (pd' = pd)) as [->|Hnp]; [|by rewrite lookup_insert_ne by done].
    assert (Hvne : v <> v') by (intros ->; by apply Hne). rewrite lookup_insert_eq, Hsp. split; intros (sp1 & e1 & [= <-] & E1 & Hp1).
    + exists (<[v := e]> sp), e1. by rewrite lookup_insert_ne.
    + exists sp, e1. by rewrite lookup_insert_ne in E1.
Qed.

Lemma update_entry_ok pd' sp' v' e' : dirs S' !! pd' = Some sp' -> sp' !! v' = Some e' -> 0 <= v' < user_pages /\ frame_ok (frame e').
Proof using All.
  destruct (user_index va Hva) as (Hv & _). intros Hsp' He'. cbn in Hsp'. destruct (decide (pd' = pd)) as [->|Hnp].
  - rewrite lookup_insert_eq in Hsp'. injection Hsp' as <-. destruct (decide (v' = v)) as [->|Hnv].
    + rewrite lookup_insert_eq in He'. by injection He' as <-.
    + rewrite lookup_insert_ne in He' by done. by eapply (pb_entry _ _ _ I).
  - rewrite lookup_insert_ne in Hsp' by done. by eapply (pb_entry _ _ _ I).
Qed.

Lemma update_entry : pd_base s' O' S'.
Proof using All.
  pose proof Hre as (R1 & R2 & R3 & R4). split.
  - exact (pb_memory _ _ _ I).
  - destruct (pb_base _ _ _ I) as (Hb & Hbf & b & Eb & Hb'). split_and!; [done|done|]. exists b.
    change (base_page_dir s') with (base_page_dir s). by rewrite update_same by apply update_not_base.
  - intros p. rewrite R1. apply (pb_taken _ _ _ I).
  - intros p. rewrite R1. apply (pb_mine _ _ _ I).
  - exact R4.
  - intros p. rewrite R2, update_dirs by done. apply (pb_dirs _ _ _ I).
  - exact update_dir_ok.
  - intros p pd' i HOp. apply R2 in HOp; [|done|done]. destruct (pb_table _ _ _ I p pd' i HOp) as (Hir & Hs & d & Hd & E).
    split; [done|]. split; [by apply update_dirs|]. exists d. by rewrite update_same by (by apply update_not_dir).
  - exact update_frame.
  - exact update_entry_ok.
  - exact (pb_cr3 _ _ _ I).
  - destruct (pb_active _ _ _ I) as [?|Ha]; [by left|right]. by apply update_dirs.
Qed.
End Update.
End Inv.
