(* ===== verification/PageDirOps.v ===== *)
(** * Page directories: the operations

    Creating and walking a page directory under the invariant, and then
    mapping, translating and marking pages. *)

From Stdlib Require Import ZArith Lia.
From stdpp Require Import base numbers gmap list.
From S2P Require Import Prelude Bitmap Vaddr Palloc PageDir PageDirSpec.

Open Scope Z_scope.

(** * Page directories: the operations keep the invariant *)

(** The program's page [p] gets a use. *)
Lemma use_held (O : gmap Z tag) (h : gset Z) p tg : (forall q, O !! q = Some Held <-> q ∈ h) -> O !! p = Some Held -> tg <> Held ->
  (forall q, is_Some (<[p := tg]> O !! q) <-> is_Some (O !! q)) /\
  (forall q, <[p := tg]> O !! q = Some Held <-> q ∈ h ∖ {[p]}) /\
  (forall q t, t <> Held -> <[p := tg]> O !! q = Some t <-> O !! q = Some t \/ (q = p /\ t = tg)).
Proof.
  intros Hh Hp Hne. split_and!; intros q.
  - destruct (decide (q = p)) as [->|]; [rewrite lookup_insert_eq, Hp|by rewrite lookup_insert_ne]. split; intros _; by eexists.
  - destruct (decide (q = p)) as [->|]; [rewrite lookup_insert_eq; set_solver|]. rewrite lookup_insert_ne, Hh by done. set_solver.
  - intros t Ht. destruct (decide (q = p)) as [->|]; [rewrite lookup_insert_eq, Hp; naive_solver|]. rewrite lookup_insert_ne by done. naive_solver.
Qed.

Section Ops.
Context {machine : Machine} {others : Z -> Prop}.
Abbreviation pd_base := (pd_base others).
Abbreviation pd_inv := (pd_inv others).

(** ** Pages that the program holds *)

(** The invariant looks at pages only where their use says so. *)
Lemma retable s s' O O' S S' : pd_base s O S ->
  memory_ok (page_pools s') -> (forall p, taken (page_pools s') p <-> others p \/ is_Some (O' !! p)) ->
  (forall p, is_Some (O' !! p) -> ~ others p) -> (forall p, O' !! p = Some Held <-> p ∈ held S') ->
  (forall p t, t <> Held -> O' !! p = Some t <-> O !! p = Some t) -> dirs S' = dirs S -> active S' = active S ->
  base_page_dir s' = base_page_dir s -> cr3 s' = cr3 s ->
  (forall p, others p \/ (exists t, O !! p = Some t /\ t <> Held) -> tables s' !! p = tables s !! p) ->
  pd_base s' O' S'.
Proof.
  intros I Hm Ht Hmine Hh HO Ed Ea Eb Ec Htab.
  assert (Hdir : forall pd, is_Some (dirs S !! pd) -> tables s' !! pd = tables s !! pd).
  { intros pd Hpd. apply Htab. right. exists Dir. split; [|done]. by apply (pb_dirs _ _ _ _ I). }
  pose proof (pb_base _ _ _ _ I) as (Hb & Hbf & b & Etb & Hbl). assert (Htb : tables s' !! base_page_dir s = tables s !! base_page_dir s) by (apply Htab; by left).
  split; [done| |done|done|done| | | | | | |].
  - unfold base_ok. rewrite Eb. split_and!; [done|done|]. exists b. by rewrite Htb.
  - intros p. rewrite HO, Ed by done. apply (pb_dirs _ _ _ _ I).
  - intros pd sp Hsp. rewrite Ed in Hsp. eapply dir_ok_frame; [by apply (pb_dir _ _ _ _ I)|done|done|apply Hdir; by eexists|].
    intros p i HOp. split; [apply Htab; right; by exists (Table pd i)|by apply HO].
  - intros p pd i HOp. apply HO in HOp; [|done]. destruct (pb_table _ _ _ _ I p pd i HOp) as (? & ? & d & Hd & E). rewrite Ed.
    split; [done|]. split; [done|]. exists d. by rewrite Hdir.
  - intros p pd v. rewrite HO, Ed by done. apply (pb_frame _ _ _ _ I).
  - rewrite Ed. apply (pb_entry _ _ _ _ I).
  - rewrite Ec, Ea, Eb. apply (pb_cr3 _ _ _ _ I).
  - rewrite Ea, Ed. apply (pb_active _ _ _ _ I).
Qed.

Lemma tlb_ok_same s s' S S' : tlb_ok s S -> tlb s' = tlb s -> dirs S' = dirs S -> active S' = active S -> tlb_ok s' S'.
Proof. intros H Et Ed Ea v w. rewrite Et, Ed, Ea. apply H. Qed.

Lemma memory_ok_geometry ps ps' : memory_ok ps -> pools_wf ps' -> geometry ps ps' -> memory_ok ps'.
Proof. intros [_ H] Hw Hg. split; [done|]. intros p Hp. apply H. by apply (geometry_pool_page ps ps'). Qed.

(** What get_page() puts into a page. *)
Definition fresh_words (flags p : Z) : list Z := if negb (Z.land flags PAL_ZERO =? 0) then replicate 1024 0 else junk_page p.

Lemma wp_get_page_at s O S flags (Q : Z -> pstate -> Prop) : pd_inv s O S -> Z.land flags PAL_ASSERT = 0 ->
  (pool_full (page_pools s) (user_flag flags) -> Q NULL s) ->
  (forall i p s', O !! p = None -> ~ others p -> p <> NULL -> tables s' = <[p := fresh_words flags p]> (tables s) ->
     base_page_dir s' = base_page_dir s -> page_at (page_pools s') (user_flag flags) i p ->
     pd_inv s' (<[p := Held]> O) (set_held_pages ({[p]} ∪ held S) S) -> Q p s') ->
  wp (get_page flags) Q s.
Proof.
  intros [I Htlb] Hfl H1 H2. destruct (pb_memory _ _ _ _ I) as [Hw Hm]. unfold get_page. apply wp_bind, wp_zoom.
  destruct (get_page_ok (page_pools s) flags Hw) as [(p & ps' & E & Hw' & Hg & [i Hp] & Hnt & Ht)|[E Hfull]].
  - eapply wp_eq; [exact E|]. destruct (Hm p) as [Hf _]; [by exists (user_flag flags), i|]. destruct (frame_pos p Hf) as (_ & Hn & _).
    rewrite (proj2 (Z.eqb_neq _ _) Hn). apply wp_bind. red. cbn [modify]. apply wp_ret.
    assert (HOp : O !! p = None). { apply eq_None_not_Some. intros HO. apply Hnt, (pb_taken _ _ _ _ I). by right. }
    assert (Hno : ~ others p) by (intros Ho; apply Hnt, (pb_taken _ _ _ _ I); by left).
    apply (H2 i); [done|done|done|done|done|by apply (geometry_page_at (page_pools s) ps')|]. split; [|by eapply tlb_ok_same].
    eapply retable; [exact I| | | | | |done|done|done|done|].
    + by eapply memory_ok_geometry; [apply (pb_memory _ _ _ _ I)| |].
    + intros q. cbn. rewrite Ht, (pb_taken _ _ _ _ I q). destruct (decide (q = p)) as [->|Hne].
      * rewrite lookup_insert_eq. split; [intros _; right; by eexists|by right].
      * rewrite lookup_insert_ne by done. tauto.
    + intros q. destruct (decide (q = p)) as [->|Hne]; [done|]. rewrite lookup_insert_ne by done. apply (pb_mine _ _ _ _ I).
    + intros q. cbn. destruct (decide (q = p)) as [->|Hne]; [rewrite lookup_insert_eq; set_solver|]. rewrite lookup_insert_ne by done.
      rewrite (pb_held _ _ _ _ I). set_solver.
    + intros q t Ht'. destruct (decide (q = p)) as [->|Hne]; [rewrite lookup_insert_eq, HOp; split; congruence|by rewrite lookup_insert_ne].
    + intros q Hq. cbn. rewrite lookup_insert_ne; [done|]. intros ->. destruct Hq as [?|(t & E' & _)]; [done|congruence].
  - eapply wp_eq; [exact E|]. cbn [Z.eqb]. rewrite Hfl. cbn. apply wp_ret. destruct s. by apply H1.
Qed.

Lemma wp_get_page s O S flags (Q : Z -> pstate -> Prop) : pd_inv s O S -> Z.land flags PAL_ASSERT = 0 ->
  (pool_full (page_pools s) (user_flag flags) -> Q NULL s) ->
  (forall p s', O !! p = None -> ~ others p -> p <> NULL -> tables s' = <[p := fresh_words flags p]> (tables s) ->
     base_page_dir s' = base_page_dir s -> pd_inv s' (<[p := Held]> O) (set_held_pages ({[p]} ∪ held S) S) -> Q p s') ->
  wp (get_page flags) Q s.
Proof. intros HI Hf H1 H2. eapply wp_get_page_at; [exact HI|exact Hf|exact H1|]. intros i p s' H3 H4 H5 H6 H7 _ H8. by apply H2. Qed.

Lemma wp_free_page_any s p (Q : unit -> pstate -> Prop) : memory_ok (page_pools s) -> taken (page_pools s) p ->
  (forall ps', memory_ok ps' -> geometry (page_pools s) ps' -> (forall q, taken ps' q <-> taken (page_pools s) q /\ q <> p) ->
     Q tt (set_tables (delete p (tables s)) (set_page_pools ps' s))) ->
  wp (free_page p) Q s.
Proof.
  intros Hm Ht HQ. destruct (free_page_ok (page_pools s) p (proj1 Hm) Ht) as (ps' & E & Hw & Hg & Hq).
  unfold free_page. apply wp_bind, wp_zoom. eapply wp_eq; [exact E|]. red. cbn [modify]. apply HQ; [|done|done]. by eapply memory_ok_geometry.
Qed.

Lemma wp_free_held s O S p (Q : unit -> pstate -> Prop) : pd_inv s O S -> p ∈ held S ->
  (forall s', pd_inv s' (delete p O) (set_held_pages (held S ∖ {[p]}) S) -> geometry (page_pools s) (page_pools s') ->
     (forall q, taken (page_pools s') q <-> taken (page_pools s) q /\ q <> p) -> Q tt s') -> wp (free_page p) Q s.
Proof.
  intros [I Htlb] Hp HQ. assert (HOp : O !! p = Some Held) by (by apply (pb_held _ _ _ _ I)).
  assert (Hno : ~ others p) by (apply (pb_mine _ _ _ _ I); by eexists).
  apply wp_free_page_any; [apply (pb_memory _ _ _ _ I)|apply (pb_taken _ _ _ _ I); right; by eexists|].
  intros ps' Hm Hg Ht. apply HQ; [|done|done]. split; [|by eapply tlb_ok_same]. eapply retable; [exact I|done| | | | |done|done|done|done|].
  - intros q. cbn. rewrite Ht, (pb_taken _ _ _ _ I q). destruct (decide (q = p)) as [->|Hne].
    + rewrite lookup_delete_eq. split; [tauto|]. intros [?|[? ?]]; done.
    + rewrite lookup_delete_ne by done. tauto.
  - intros q Hq. apply (pb_mine _ _ _ _ I). destruct (decide (q = p)) as [->|Hne]; [by eexists|by rewrite lookup_delete_ne in Hq].
  - intros q. cbn. destruct (decide (q = p)) as [->|Hne]; [rewrite lookup_delete_eq; set_solver|]. rewrite lookup_delete_ne, (pb_held _ _ _ _ I) by done. set_solver.
  - intros q t Hne'. destruct (decide (q = p)) as [->|Hne]; [rewrite lookup_delete_eq, HOp; split; congruence|by rewrite lookup_delete_ne].
  - intros q Hq. cbn. rewrite lookup_delete_ne; [done|]. intros ->. destruct Hq as [?|(t & E & ?)]; [done|congruence].
Qed.

(** ** New tables and directories *)

Lemma make_table s O S pd sp d i p : pd_base s O S -> dirs S !! pd = Some sp -> tables s !! pd = Some d -> 0 <= i < 768 ->
  d !! Z.to_nat i = Some 0 -> O !! p = Some Held -> tables s !! p = Some (replicate 1024 0) ->
  pd_base (set_tables (<[pd := <[Z.to_nat i := pde_word p]> d]> (tables s)) s) (<[p := Table pd i]> O) (set_held_pages (held S ∖ {[p]}) S).
Proof.
  intros I Hsp Hd Hi E0 Hp Htp. destruct (use_held O (held S) p (Table pd i) (pb_held _ _ _ _ I) Hp) as (H1 & H2 & H3); [done|].
  set (O' := <[p := Table pd i]> O) in *. set (s' := set_tables _ s).
  destruct (dir_page _ I pd sp Hsp) as (Hfd & HOd & Hbd). destruct (owned_page _ I p) as (Hfp & _); [by eexists|].
  assert (Hsame : forall q, q <> pd -> tables s' !! q = tables s !! q) by (intros q Hq; cbn; by rewrite lookup_insert_ne).
  assert (Hnd : forall q pd' i', O !! q = Some (Table pd' i') -> tables s' !! q = tables s !! q /\ O' !! q = Some (Table pd' i')).
  { intros q pd' i' Hq. split; [apply Hsame; intros ->; congruence|apply H3; [done|by left]]. }
  destruct (pb_dir _ _ _ _ I pd sp Hsp) as (d0 & b & Hd0 & Hb & Hl & Hk & Hpde). rewrite Hd in Hd0. injection Hd0 as <-.
  destruct (pb_base _ _ _ _ I) as (Hbo & Hbf & b' & Eb & Hb').
  split; [apply (pb_memory _ _ _ _ I)| | | |done| | | | |apply (pb_entry _ _ _ _ I)|apply (pb_cr3 _ _ _ _ I)|apply (pb_active _ _ _ _ I)].
  - split_and!; [done|done|]. exists b'. change (base_page_dir s') with (base_page_dir s). by rewrite Hsame.
  - intros q. rewrite H1. apply (pb_taken _ _ _ _ I).
  - intros q. rewrite H1. apply (pb_mine _ _ _ _ I).
  - intros q. rewrite H3 by done. rewrite <- (pb_dirs _ _ _ _ I). split; [by intros [?|[_ [=]]]|by left].
  - intros pd' sp' Hsp'. cbn in Hsp'. destruct (decide (pd' = pd)) as [->|Hne].
    2:{ eapply dir_ok_frame; [by apply (pb_dir _ _ _ _ I)|done|by apply Hsame|by apply Hsame|]. intros q i'. apply Hnd. }
    rewrite Hsp in Hsp'. injection Hsp' as <-. exists (<[Z.to_nat i := pde_word p]> d), b. split_and!.
    + cbn. by rewrite lookup_insert_eq.
    + change (base_page_dir s') with (base_page_dir s). by rewrite Hsame.
    + by rewrite length_insert.
    + intros k Hkr. rewrite list_lookup_insert_ne by lia. by apply Hk.
    + intros k Hkr. destruct (decide (k = i)) as [->|Hki].
      * right. exists p. split_and!; [apply list_lookup_insert_eq; lia|apply H3; [done|by right]|]. exists (replicate 1024 0).
        split_and!; [rewrite Hsame; [done|intros ->; congruence]|done|]. intros j Hj. rewrite lookup_replicate_2 by lia.
        destruct (Hpde i Hi) as [[_ Hn]|(pt & E & HO & _)]; [by rewrite Hn|].
        rewrite E0 in E. injection E as E. destruct (owned_page _ I pt) as (Hfpt & _); [by eexists|]. destruct (pde_word_bits pt Hfpt). lia.
      * unfold pde_ok. rewrite list_lookup_insert_ne by lia. eapply pde_ok_frame; [by apply Hpde|intros q; apply Hnd|done].
  - intros q pd' i' Hq. apply H3 in Hq as [Hq|[-> [= -> ->]]]; [| |done].
    + destruct (pb_table _ _ _ _ I q pd' i' Hq) as (Hi' & Hs & d' & Hd' & E). split; [done|]. split; [done|]. destruct (decide (pd' = pd)) as [->|Hne].
      * rewrite Hd in Hd'. injection Hd' as <-. exists (<[Z.to_nat i := pde_word p]> d). split; [cbn; by rewrite lookup_insert_eq|].
        rewrite list_lookup_insert_ne; [done|]. intros Eii. assert (i' = i) as -> by lia. rewrite E0 in E. injection E as E.
        destruct (owned_page _ I q) as (Hfq & _); [by eexists|]. destruct (pde_word_bits q Hfq). lia.
      * exists d'. by rewrite Hsame.
    + split; [done|]. split; [by eexists|]. exists (<[Z.to_nat i := pde_word p]> d). split; [cbn; by rewrite lookup_insert_eq|]. apply list_lookup_insert_eq. lia.
  - intros q pd' v. rewrite H3 by done. rewrite <- (pb_frame _ _ _ _ I). split; [by intros [?|[_ [=]]]|by left].
Qed.
Lemma make_dir s O S p b : pd_base s O S -> O !! p = Some Held -> tables s !! base_page_dir s = Some b ->
  pd_base (set_tables (<[p := b]> (tables s)) s) (<[p := Dir]> O) (mk_spaces (<[p := ∅]> (dirs S)) (held S ∖ {[p]}) (active S)).
Proof.
  intros I Hp Hb. destruct (use_held O (held S) p Dir (pb_held _ _ _ _ I) Hp) as (H1 & H2 & H3); [done|].
  set (O' := <[p := Dir]> O) in *. set (s' := set_tables _ s).
  assert (Hnd : dirs S !! p = None). { apply eq_None_not_Some. intros H%(pb_dirs _ _ _ _ I). congruence. }
  destruct (pb_base _ _ _ _ I) as (Hbo & Hbf & b' & Eb & Hbl & Hb0). rewrite Hb in Eb. injection Eb as <-.
  assert (Hbp : base_page_dir s <> p) by (intros E; apply (pb_mine _ _ _ _ I p); [by eexists|by rewrite <- E]).
  assert (Hsame : forall q, q <> p -> tables s' !! q = tables s !! q) by (intros q Hq; cbn; by rewrite lookup_insert_ne).
  assert (Hold : forall pd sp, dirs S !! pd = Some sp -> pd <> p /\ <[p := ∅]> (dirs S) !! pd = Some sp).
  { intros pd sp Hsp. assert (pd <> p) by congruence. by rewrite lookup_insert_ne. }
  assert (Hnew : forall pd sp, <[p := ∅]> (dirs S) !! pd = Some sp -> (pd = p /\ sp = ∅) \/ (pd <> p /\ dirs S !! pd = Some sp)).
  { intros pd sp Hsp. destruct (decide (pd = p)) as [->|]; [left|right]; [rewrite lookup_insert_eq in Hsp; by simplify_eq|by rewrite lookup_insert_ne in Hsp]. }
  split; [apply (pb_memory _ _ _ _ I)| | | |done| | | | | |apply (pb_cr3 _ _ _ _ I)|].
  - split_and!; [done|done|]. exists b. change (base_page_dir s') with (base_page_dir s). by rewrite Hsame.
  - intros q. rewrite H1. apply (pb_taken _ _ _ _ I).
  - intros q. rewrite H1. apply (pb_mine _ _ _ _ I).
  - intros q. rewrite H3, (pb_dirs _ _ _ _ I) by done. cbn. destruct (decide (q = p)) as [->|Hq].
    + rewrite lookup_insert_eq. split; [by eexists|by right].
    + rewrite lookup_insert_ne by done. split; [intros [?|[? _]]; done|by left].
  - intros pd sp Hsp. cbn in Hsp. apply Hnew in Hsp as [[-> ->]|[Hpd Hsp]].
    + exists b, b. change (base_page_dir s') with (base_page_dir s). rewrite (Hsame (base_page_dir s)) by done. cbn. rewrite lookup_insert_eq.
      split_and!; [done..|]. intros k Hk. left. split; [by apply Hb0|]. intros j _. apply lookup_empty.
    + eapply dir_ok_frame; [by apply (pb_dir _ _ _ _ I)|done|by apply Hsame|by apply Hsame|].
      intros q k Hq. split; [apply Hsame; intros ->; congruence|apply H3; [done|by left]].
  - intros q pd k Hq. apply H3 in Hq as [Hq|[_ [=]]]; [|done]. destruct (pb_table _ _ _ _ I q pd k Hq) as (Hk & [sp Hsp] & d & Hd & E).
    destruct (Hold pd sp Hsp) as [Hne Hsp']. split; [done|]. split; [by eexists|]. exists d. by rewrite Hsame.
  - intros q pd v. rewrite H3 by done. rewrite (pb_frame _ _ _ _ I). cbn. split.
    + intros [(sp & e & Hsp & ?)|[_ [=]]]. exists sp, e. by rewrite (proj2 (Hold pd sp Hsp)).
    + intros (sp & e & Hsp & He & ?). left. apply Hnew in Hsp as [[-> ->]|[_ Hsp]]; [by rewrite lookup_empty in He|]. by exists sp, e.
  - intros pd sp v e Hsp He. cbn in Hsp. apply Hnew in Hsp as [[-> ->]|[_ Hsp]]; [by rewrite lookup_empty in He|]. by eapply (pb_entry _ _ _ _ I).
  - destruct (pb_active _ _ _ _ I) as [?|[sp Ha]]; [by left|right]. cbn. exists sp. by apply Hold.
Qed.

Lemma tlb_ok_new_dir s s' S p h : tlb_ok s S -> tlb s' = tlb s -> dirs S !! p = None -> tlb_ok s' (mk_spaces (<[p := ∅]> (dirs S)) h (active S)).
Proof.
  intros H Et Hp v w Hw. rewrite Et in Hw. destruct (H v w Hw) as (sp & e & d & Hsp & Hr). exists sp, e, d. cbn. split; [|done].
  rewrite lookup_insert_ne; [done|]. intros ->. congruence.
Qed.

(** ** Operations *)

Lemma wp_pagedir_create s O S (Q : Z -> pstate -> Prop) : pd_inv s O S ->
  (pool_full (page_pools s) false -> Q NULL s) ->
  (forall p s', O !! p = None -> p <> NULL -> pd_inv s' (<[p := Dir]> O) (mk_spaces (<[p := ∅]> (dirs S)) (held S) (active S)) -> Q p s') ->
  wp pagedir_create Q s.
Proof.
  intros HI H1 H2. unfold pagedir_create. apply wp_bind. eapply wp_get_page; [exact HI|done| |].
  - intros Hfull. cbn [Z.eqb negb]. apply wp_bind, wp_ret. apply wp_ret. by apply H1.
  - intros p s1 HO Hno Hn Et Eb HI1. rewrite (proj2 (Z.eqb_neq _ _) Hn). cbn [negb].
    destruct HI1 as [I1 T1]. destruct (pb_base _ _ _ _ I1) as (_ & _ & b & Hb & _).
    apply wp_bind. apply wp_bind. red. cbn [gets]. apply wp_bind. unfold load_page. apply wp_bind. red. cbn [get]. rewrite Hb. apply wp_ret. red. cbn [modify].
    apply wp_ret, (H2 p); [done|done|]. assert (HpO : <[p := Held]> O !! p = Some Held) by apply lookup_insert_eq.
    pose proof (make_dir s1 _ _ p b I1 HpO Hb) as I2. rewrite insert_insert_eq in I2.
    assert (Eh : held (set_held_pages ({[p]} ∪ held S) S) ∖ {[p]} = held S).
    { cbn. assert (p ∉ held S); [|set_solver]. intros Hh. apply (pb_held _ _ _ _ (proj1 HI)) in Hh. congruence. }
    rewrite Eh in I2. split; [exact I2|]. eapply tlb_ok_new_dir; [exact T1|done|]. cbn.
    apply eq_None_not_Some. intros H%(pb_dirs _ _ _ _ (proj1 HI)). congruence.
Qed.
Lemma entry_of_table s O S pd sp va pt d : pd_base s O S -> dirs S !! pd = Some sp -> 0 <= va < PHYS_BASE ->
  tables s !! pd = Some d -> d !! Z.to_nat (va / 4096 / 1024) = Some (pde_word pt) -> frame_ok pt -> exists t, entry_at s O pd sp va pt t.
Proof.
  intros I Hsp Hva Hd E Hf. destruct (find_entry _ s O S pd sp va I Hsp Hva) as [(d' & Hd' & E' & _)|(pt' & t & Hat)].
  - rewrite Hd in Hd'. injection Hd' as <-. rewrite E in E'. injection E' as E'. destruct (pde_word_bits pt Hf). lia.
  - exists t. assert (pt' = pt) as <-; [|done]. pose proof (update_table _ I Hat d Hd) as E'. rewrite E in E'. unfold pde_word in E'. injection E' as E'. lia.
Qed.

Lemma wp_lookup_create s O S pd sp va (Q : Z -> pstate -> Prop) : pd_inv s O S -> dirs S !! pd = Some sp -> 0 <= va < PHYS_BASE ->
  (sp !! (va / 4096) = None -> pool_full (page_pools s) false -> Q NULL s) ->
  (forall s' O' pt t, pd_inv s' O' S -> O ⊆ O' -> base_page_dir s' = base_page_dir s -> entry_at s' O' pd sp va pt t ->
     pt + 4 * (va / 4096 mod 1024) <> NULL -> Q (pt + 4 * (va / 4096 mod 1024)) s') ->
  wp (lookup_page pd va true) Q s.
Proof.
  intros HI Hsp Hva H1 H2. pose proof HI as [I T]. destruct (user_index va Hva) as (_ & Hi & Hj & Ev & Ept).
  assert (Hpos : forall pt, frame_ok pt -> pt + 4 * (va / 4096 mod 1024) <> NULL) by (intros pt (Hp & _)%frame_pos; unfold NULL; lia).
  destruct (find_entry _ s O S pd sp va I Hsp Hva) as [(d & Hd & E0 & Hnone & _)|(pt & t & Hat)].
  2:{ pose proof Hat as (_ & Hf & _ & _ & _ & El & _). eapply wp_eq; [apply El|]. apply (H2 s O pt t); try done. by apply Hpos. }
  destruct (dir_page _ I pd sp Hsp) as (Hf & HOd & _). destruct (frame_pos pd Hf) as (_ & Hn & Ha).
  unfold lookup_page. rewrite pd_no_div, Ept. apply wp_bind, wp_assertb; [by rewrite (proj2 (Z.eqb_neq _ _) Hn)|].
  apply wp_bind, wp_assertb; [apply Z.ltb_lt; lia|]. apply wp_bind. eapply wp_eq; [eapply load32_ok; (done || lia)|]. cbn [Z.eqb].
  apply wp_bind, wp_bind. eapply wp_get_page; [exact HI|done| |].
  { intros Hfull. cbn [Z.eqb]. apply wp_ret. cbn [negb]. apply wp_ret. by apply H1. }
  intros pt s1 HOp Hno Hnp Et Eb HI1. pose proof HI1 as [I1 T1]. assert (HOp1 : <[pt := Held]> O !! pt = Some Held) by apply lookup_insert_eq.
  rewrite (proj2 (Z.eqb_neq _ _) Hnp). destruct (owned_page _ I1 pt) as (Hfp & _); [by eexists|].
  assert (Hd1 : tables s1 !! pd = Some d) by (rewrite Et, lookup_insert_ne; [done|intros ->; congruence]).
  assert (Ht1 : tables s1 !! pt = Some (replicate 1024 0)) by (by rewrite Et, lookup_insert_eq).
  apply wp_bind. eapply wp_eq; [by apply pde_create_ok|]. apply wp_bind. eapply wp_eq; [by eapply store32_ok; (done || lia)|]. apply wp_ret. cbn [negb].
  pose proof (make_table s1 _ _ pd sp d (va / 4096 / 1024) pt I1 Hsp Hd1 Hi E0 HOp1 Ht1) as I2. rewrite insert_insert_eq in I2.
  set (s2 := set_tables _ s1) in *. assert (Eh : set_held_pages (held (set_held_pages ({[pt]} ∪ held S) S) ∖ {[pt]}) (set_held_pages ({[pt]} ∪ held S) S) = S).
  { destruct S as [ds h a]. unfold set_held_pages. cbn. f_equal. assert (pt ∉ h); [|set_solver]. intros Hh. apply (pb_held _ _ _ _ I) in Hh. congruence. }
  rewrite Eh in I2. assert (HI2 : pd_inv s2 (<[pt := Table pd (va / 4096 / 1024)]> O) S) by (split; [exact I2|by eapply tlb_ok_same]).
  assert (Hd2 : tables s2 !! pd = Some (<[Z.to_nat (va / 4096 / 1024) := pde_word pt]> d)) by (cbn; by rewrite lookup_insert_eq).
  assert (Ed : <[Z.to_nat (va / 4096 / 1024) := pde_word pt]> d !! Z.to_nat (va / 4096 / 1024) = Some (pde_word pt)).
  { apply list_lookup_insert_eq. by eapply lookup_lt_Some. }
  apply wp_bind. eapply wp_eq; [by eapply load32_ok; (done || lia)|]. apply wp_bind. eapply wp_eq; [by apply pde_get_pt_ok|]. apply wp_ret.
  destruct (entry_of_table s2 _ S pd sp va pt _ I2 Hsp Hva Hd2 Ed Hfp) as [t Hat].
  apply (H2 s2 _ pt t HI2); [by apply insert_subseteq|by rewrite <- Eb|done|by apply Hpos].
Qed.
End Ops.

(** * Page directories: mapping, translating and marking pages *)

Section Calls.
Context {machine : Machine} {others : Z -> Prop}.
Abbreviation pd_base := (pd_base others).
Abbreviation pd_inv := (pd_inv others).

Definition mapped_at (sp : gmap Z entry) (v : Z) : bool := match sp !! v with Some e => present e | None => false end.

Lemma no_frame s O S pd sp v p : pd_base s O S -> dirs S !! pd = Some sp -> mapped_at sp v = false -> O !! p <> Some (Frame pd v).
Proof.
  intros I Hsp Hm HO. apply (pb_frame _ _ _ _ I) in HO as (sp' & e & Hsp' & He & Hp & _). rewrite Hsp in Hsp'. injection Hsp' as <-.
  unfold mapped_at in Hm. rewrite He in Hm. congruence.
Qed.

(** A page of the program becomes the frame of page [v]. *)
Lemma retag_map s O S pd sp v kp w a d : pd_base s O S -> dirs S !! pd = Some sp -> mapped_at sp v = false -> kp ∈ held S ->
  retagged O (<[kp := Frame pd v]> O) pd v (mk_entry kp true w a d) (held S ∖ {[kp]}).
Proof.
  intros I Hsp Hm Hk. pose proof (proj2 (pb_held _ _ _ _ I kp) Hk) as HO.
  destruct (use_held O (held S) kp (Frame pd v) (pb_held _ _ _ _ I) HO) as (H1 & H2 & H3); [done|]. split_and!; [done| | |done].
  - intros p t Ht Hne. rewrite H3 by done. split; [by intros [?|[_ ?]]|by left].
  - intros p. rewrite H3 by done. cbn. split.
    + intros [H|[-> _]]; [|done]. by eapply no_frame in H.
    + intros [_ <-]. by right.
Qed.

(** The frame of page [v] goes back to the program. *)
Lemma retag_unmap s O S pd sp v e : pd_base s O S -> dirs S !! pd = Some sp -> sp !! v = Some e -> present e = true ->
  retagged O (<[frame e := Held]> O) pd v (with_present e false) ({[frame e]} ∪ held S).
Proof.
  intros I Hsp He Hp. assert (HO : O !! frame e = Some (Frame pd v)) by (apply (pb_frame _ _ _ _ I); by exists sp, e).
  split_and!; intros p; (destruct (decide (p = frame e)) as [->|Hne]; [rewrite lookup_insert_eq|rewrite lookup_insert_ne by done]).
  - rewrite HO. split; intros _; by eexists.
  - done.
  - intros t Ht Hne. rewrite HO. split; congruence.
  - done.
  - cbn. split; [done|by intros [? _]].
  - cbn. split; [|by intros [? _]]. intros H%(pb_frame _ _ _ _ I). destruct H as (sp' & e' & Hsp' & He' & _ & Hf). rewrite Hsp in Hsp'. injection Hsp' as <-.
    rewrite He in He'. injection He' as <-. congruence.
  - set_solver.
  - rewrite (pb_held _ _ _ _ I). set_solver.
Qed.

(** The bits of an entry change, but not its frame. *)
Lemma retag_bits s O S pd sp v e e' : pd_base s O S -> dirs S !! pd = Some sp -> sp !! v = Some e -> frame e' = frame e -> present e' = present e ->
  retagged O O pd v e' (held S).
Proof.
  intros I Hsp He Hf Hp. split_and!; [done|done| |apply (pb_held _ _ _ _ I)]. intros p. rewrite (pb_frame _ _ _ _ I), Hf, Hp. split.
  - intros (sp' & e1 & Hsp' & He' & ? & ?). rewrite Hsp in Hsp'. injection Hsp' as <-. rewrite He in He'. by injection He' as <-.
  - intros [? ?]. by exists sp, e.
Qed.

(** Cached translations survive changes of other pages and of other spaces. *)
Lemma tlb_ok_update s s' S pd sp v e h : tlb_ok s S -> tlb s' = tlb s -> dirs S !! pd = Some sp ->
  (forall w d e0, active S = pd -> tlb s !! v = Some w -> sp !! v = Some e0 -> present e0 = true -> accessed e0 = true ->
     w = enc (mk_entry (frame e0) true (writable e0) true d) -> (d = true -> dirty e0 = true) ->
     frame e = frame e0 /\ present e = true /\ writable e = writable e0 /\ accessed e = true /\ (dirty e0 = true -> dirty e = true)) ->
  tlb_ok s' (mk_spaces (<[pd := <[v := e]> sp]> (dirs S)) h (active S)).
Proof.
  intros H Et Hsp Hv v' w Hw. rewrite Et in Hw. destruct (H v' w Hw) as (sp1 & e1 & d & Hsp1 & He1 & Hp & Ha & Ew & Hd). cbn.
  destruct (decide (active S = pd)) as [Ea|Hne]; [|exists sp1, e1, d; by rewrite lookup_insert_ne].
  rewrite Ea in *. rewrite Hsp in Hsp1. injection Hsp1 as <-. rewrite lookup_insert_eq. destruct (decide (v' = v)) as [->|Hnv].
  - destruct (Hv w d e1 eq_refl Hw He1 Hp Ha Ew Hd) as (Ef & Ep & Ewr & Eac & Hdi). exists (<[v := e]> sp), e, d. rewrite lookup_insert_eq, Ef, Ewr. auto 10.
  - exists (<[v := e]> sp), e1, d. by rewrite lookup_insert_ne.
Qed.

(** ** Activation *)

Lemma tlb_ok_empty s S : tlb s = ∅ -> tlb_ok s S.
Proof. intros E v w. by rewrite E, lookup_empty. Qed.

(** Loading a directory changes nothing else. *)
Lemma pd_base_activate s O S a : pd_base s O S -> a = NULL \/ is_Some (dirs S !! a) ->
  pd_base (set_cr3 ((if a =? NULL then base_page_dir s else a) - PHYS_BASE) s) O (mk_spaces (dirs S) (held S) a).
Proof. intros [] Ha. by split. Qed.

Lemma base_frame s O S : pd_base s O S -> frame_ok (base_page_dir s).
Proof. intros I. by destruct (pb_base _ _ _ _ I) as (_ & ? & _). Qed.

Lemma wp_pagedir_activate s O S a (Q : unit -> pstate -> Prop) : pd_base s O S -> a = NULL \/ is_Some (dirs S !! a) ->
  (forall s', pd_inv s' O (mk_spaces (dirs S) (held S) a) -> Q tt s') -> wp (pagedir_activate a) Q s.
Proof.
  intros I Ha HQ. unfold pagedir_activate. apply wp_bind. red. cbn [gets]. apply wp_bind.
  assert (Hf : frame_ok (if a =? NULL then base_page_dir s else a)).
  { destruct (Z.eqb_spec a NULL) as [|Hn]; [by eapply base_frame|]. destruct Ha as [?|[sp Ha]]; [done|]. by apply (dir_page _ I a sp). }
  eapply wp_eq; [by apply vtop_ok, frame_ok_range|]. red. cbn [modify]. apply HQ. split; [by apply pd_base_activate|by apply tlb_ok_empty].
Qed.

Lemma wp_invalidate s O S pd (Q : unit -> pstate -> Prop) : pd_base s O S -> is_Some (dirs S !! pd) ->
  (active S <> pd -> tlb_ok s S) -> (forall s', pd_inv s' O S -> Q tt s') -> wp (invalidate_pagedir pd) Q s.
Proof.
  intros I [sp Hsp] Ht HQ. unfold invalidate_pagedir, active_pd. apply wp_bind. apply wp_bind. red. cbn [gets]. rewrite (pb_cr3 _ _ _ _ I).
  destruct (dir_page _ I pd sp Hsp) as (Hf & _ & Hb). destruct (frame_pos pd Hf) as (_ & Hn & _).
  assert (Hfa : frame_ok (if active S =? NULL then base_page_dir s else active S)).
  { destruct (Z.eqb_spec (active S) NULL); [by eapply base_frame|]. destruct (pb_active _ _ _ _ I) as [?|[sp' Ha]]; [done|]. by apply (dir_page _ I _ sp'). }
  eapply wp_eq; [by apply ptov_ok, frame_ok_range|]. destruct (Z.eqb_spec (if active S =? NULL then base_page_dir s else active S) pd) as [Ea|Hne].
  - assert (active S = pd) as Eap by (destruct (active S =? NULL); [by rewrite Ea in Hb|done]).
    eapply wp_pagedir_activate; [exact I|right; by eexists|]. intros s' HI'. apply HQ. rewrite <- Eap in HI'. by destruct S.
  - apply wp_ret, HQ. split; [exact I|]. apply Ht. intros Eap. apply Hne. rewrite Eap. by rewrite (proj2 (Z.eqb_neq _ _) Hn).
Qed.

(** ** Mapping *)

Lemma wp_pagedir_set_page s O S pd sp up kp w (Q : bool -> pstate -> Prop) : pd_inv s O S -> dirs S !! pd = Some sp ->
  up mod 4096 = 0 -> 0 <= up < PHYS_BASE -> kp ∈ held S -> mapped_at sp (up / 4096) = false ->
  (pool_full (page_pools s) false -> sp !! (up / 4096) = None -> Q false s) ->
  (forall s' O', pd_inv s' O' (mk_spaces (<[pd := <[up / 4096 := mk_entry kp true w false false]> sp]> (dirs S)) (held S ∖ {[kp]}) (active S)) -> Q true s') ->
  wp (pagedir_set_page pd up kp w) Q s.
Proof.
  intros HI Hsp Hup Hu Hk Hm H1 H2. pose proof HI as [I T]. pose proof (proj2 (pb_held _ _ _ _ I kp) Hk) as HOk.
  destruct (owned_page _ I kp) as (Hfk & Hram & _); [by eexists|]. destruct (dir_page _ I pd sp Hsp) as (_ & _ & Hb).
  unfold pagedir_set_page. rewrite !pg_ofs_mod. apply wp_bind, wp_assertb; [by rewrite Hup|]. apply wp_bind, wp_assertb; [destruct Hfk as (-> & _); done|].
  apply wp_bind, wp_assertb; [apply Z.ltb_lt; lia|]. apply wp_bind. eapply wp_eq; [by apply vtop_ok, frame_ok_range|].
  apply wp_bind, wp_assertb; [rewrite Z.shiftr_div_pow2 by done; apply Z.ltb_lt; exact Hram|]. apply wp_bind. red. cbn [gets].
  apply wp_bind, wp_assertb; [by rewrite (proj2 (Z.eqb_neq _ _) Hb)|]. apply wp_bind. eapply wp_lookup_create; [exact HI|exact Hsp|exact Hu| |].
  - intros Hnone Hfull. cbn [Z.eqb negb]. apply wp_ret. by apply H1.
  - intros s1 O1 pt t HI1 Hsub _ Hat Hne. pose proof HI1 as [I1 T1]. rewrite (proj2 (Z.eqb_neq _ _) Hne). cbn [negb].
    pose proof Hat as (_ & Hfp & Htp & _ & _ & _ & El). destruct (frame_pos pt Hfp) as (_ & _ & Ha).
    apply wp_bind. eapply wp_eq; [exact El|]. apply wp_bind, wp_assertb.
    { unfold mapped_at in Hm. destruct (sp !! (up / 4096)) as [e|] eqn:Ee; [|done]. cbn [enc_opt].
      rewrite enc_P by (by eapply (pb_entry _ _ _ _ I1)). by rewrite Hm. }
    apply wp_bind. eapply wp_eq; [by apply pte_create_user_ok|]. destruct (user_index up Hu) as (_ & _ & Hj & _).
    apply wp_bind. eapply wp_eq; [by eapply store32_ok|]. apply wp_ret. apply (H2 _ (<[kp := Frame pd (up / 4096)]> O1)). split.
    + eapply update_entry; [exact I1|exact Hsp|exact Hu|exact Hat|exact Hfk|by eapply retag_map].
    + eapply tlb_ok_update; [exact T1|done|exact Hsp|]. intros w' d e0 _ _ He0 Hp0 _ _ _. unfold mapped_at in Hm. rewrite He0 in Hm. congruence.
Qed.

Lemma wp_pagedir_get_page s O S pd sp va (Q : Z -> pstate -> Prop) : pd_base s O S -> dirs S !! pd = Some sp -> 0 <= va < PHYS_BASE ->
  Q (match sp !! (va / 4096) with Some e => if present e then frame e + va mod 4096 else NULL | None => NULL end) s ->
  wp (pagedir_get_page pd va) Q s.
Proof.
  intros I Hsp Hva HQ. unfold pagedir_get_page. apply wp_bind, wp_assertb; [apply Z.ltb_lt; lia|]. apply wp_bind.
  destruct (find_entry _ s O S pd sp va I Hsp Hva) as [(d & _ & _ & Hnone & E)|(pt & t & Hat)].
  - eapply wp_eq; [exact E|]. cbn [Z.eqb]. apply wp_ret. by rewrite Hnone in HQ.
  - pose proof Hat as (_ & Hfp & _ & _ & _ & El & Ew). eapply wp_eq; [apply El|]. destruct (frame_pos pt Hfp) as (Hpos & _).
    destruct (user_index va Hva) as (_ & _ & Hj & _). rewrite (proj2 (Z.eqb_neq _ _)) by (unfold NULL; lia).
    apply wp_bind. eapply wp_eq; [exact Ew|]. destruct (sp !! (va / 4096)) as [e|] eqn:Ee; cbn [enc_opt]; [|by apply wp_ret].
    destruct (pb_entry _ _ _ _ I pd sp _ e Hsp Ee) as [_ Hfe]. rewrite enc_P by done. destruct (present e); cbn [negb]; [|by apply wp_ret].
    apply wp_bind. eapply wp_eq; [by apply pte_get_page_ok|]. apply wp_ret. rewrite pg_ofs_mod. rewrite uwrap_small; [done|].
    destruct Hfe as (_ & Hlo & Hhi). unfold in_u, PHYS_BASE, LOADER_PHYS_BASE in *. pose proof (Z.mod_pos_bound va 4096). lia.
Qed.

(** The entry of a page that has a table. *)
Lemma wp_lookup_entry {A} s O S pd sp va (none : M pstate A) (k : Z -> M pstate A) (Q : A -> pstate -> Prop) :
  pd_base s O S -> dirs S !! pd = Some sp -> 0 <= va < PHYS_BASE ->
  (sp !! (va / 4096) = None -> wp none Q s) ->
  (forall pt t, entry_at s O pd sp va pt t -> pt mod 4096 = 0 -> 0 <= va / 4096 mod 1024 < 1024 -> wp (k (pt + 4 * (va / 4096 mod 1024))) Q s) ->
  wp (pte ← lookup_page pd va false; if pte =? NULL then none else k pte) Q s.
Proof.
  intros I Hsp Hva H1 H2. apply wp_bind. destruct (find_entry _ s O S pd sp va I Hsp Hva) as [(d & _ & _ & Hnone & E)|(pt & t & Hat)].
  - eapply wp_eq; [exact E|]. cbn [Z.eqb]. by apply H1.
  - pose proof Hat as (_ & Hfp & _ & _ & _ & El & _). eapply wp_eq; [apply El|]. destruct (frame_pos pt Hfp) as (Hpos & _ & Ha).
    destruct (user_index va Hva) as (_ & _ & Hj & _). rewrite (proj2 (Z.eqb_neq _ _)) by (unfold NULL; lia). by eapply H2.
Qed.

(** Storing an entry with other bits, and reloading the directory. *)
Lemma wp_store_entry s O S pd sp va pt t e e' O' h (Q : unit -> pstate -> Prop) : pd_inv s O S -> dirs S !! pd = Some sp -> 0 <= va < PHYS_BASE ->
  entry_at s O pd sp va pt t -> sp !! (va / 4096) = Some e -> frame e' = frame e -> retagged O O' pd (va / 4096) e' h ->
  (forall s', pd_inv s' O' (mk_spaces (<[pd := <[va / 4096 := e']> sp]> (dirs S)) h (active S)) -> Q tt s') ->
  wp (store32 (pt + 4 * (va / 4096 mod 1024)) (enc e');; invalidate_pagedir pd) Q s.
Proof.
  intros [I T] Hsp Hva Hat He Hf Hre HQ. pose proof Hat as (_ & Hfp & Ht & _). destruct (frame_pos pt Hfp) as (_ & _ & Ha).
  destruct (user_index va Hva) as (_ & _ & Hj & _). apply wp_bind. eapply wp_eq; [by eapply store32_ok|].
  assert (Hfe : frame_ok (frame e')) by (rewrite Hf; by eapply (pb_entry _ _ _ _ I)).
  eapply wp_invalidate; [by eapply update_entry|cbn; rewrite lookup_insert_eq; by eexists| |exact HQ].
  cbn. intros Hna. eapply tlb_ok_update; [exact T|done|exact Hsp|]. done.
Qed.

Lemma wp_pagedir_clear_page s O S pd sp va (Q : unit -> pstate -> Prop) : pd_inv s O S -> dirs S !! pd = Some sp ->
  va mod 4096 = 0 -> 0 <= va < PHYS_BASE ->
  (mapped_at sp (va / 4096) = false -> Q tt s) ->
  (forall e s' O', sp !! (va / 4096) = Some e -> present e = true ->
     pd_inv s' O' (mk_spaces (<[pd := <[va / 4096 := with_present e false]> sp]> (dirs S)) ({[frame e]} ∪ held S) (active S)) -> Q tt s') ->
  wp (pagedir_clear_page pd va) Q s.
Proof.
  intros HI Hsp Hal Hva H1 H2. pose proof HI as [I _]. unfold pagedir_clear_page. rewrite pg_ofs_mod.
  apply wp_bind, wp_assertb; [by rewrite Hal|]. apply wp_bind, wp_assertb; [apply Z.ltb_lt; lia|].
  eapply wp_lookup_entry; [exact I|exact Hsp|exact Hva| |].
  - intros Hn. apply wp_ret, H1. unfold mapped_at. by rewrite Hn.
  - intros pt t Hat Ha Hj. pose proof Hat as (_ & _ & _ & _ & _ & _ & Ew). apply wp_bind. eapply wp_eq; [exact Ew|].
    unfold mapped_at in H1. destruct (sp !! (va / 4096)) as [e|] eqn:Ee; cbn [enc_opt]; [|by apply wp_ret, H1].
    destruct (pb_entry _ _ _ _ I pd sp _ e Hsp Ee) as [_ Hfe]. rewrite enc_P by done. destruct (present e) eqn:Ep; cbn [negb]; [|by apply wp_ret, H1].
    rewrite enc_clear_P by done. eapply wp_store_entry; [exact HI|exact Hsp|exact Hva|exact Hat|exact Ee|done|by eapply retag_unmap|].
    intros s' HI'. by eapply H2.
Qed.

(** ** The accessed and dirty bits *)

Lemma wp_is_bit s O S pd sp va bit (f : entry -> bool) (Q : bool -> pstate -> Prop) : pd_base s O S -> dirs S !! pd = Some sp -> 0 <= va < PHYS_BASE ->
  (forall e, frame_ok (frame e) -> (Z.land (enc e) bit =? 0) = negb (f e)) ->
  Q (match sp !! (va / 4096) with Some e => f e | None => false end) s -> wp (is_bit bit pd va) Q s.
Proof.
  intros I Hsp Hva Hf HQ. unfold is_bit. eapply wp_lookup_entry; [exact I|exact Hsp|exact Hva| |].
  - intros Hn. apply wp_ret. by rewrite Hn in HQ.
  - intros pt t Hat Ha Hj. pose proof Hat as (_ & _ & _ & _ & _ & _ & Ew). apply wp_bind. eapply wp_eq; [exact Ew|]. apply wp_ret.
    destruct (sp !! (va / 4096)) as [e|] eqn:Ee; cbn [enc_opt]; [|by rewrite Z.land_0_l].
    rewrite Hf by (by eapply (pb_entry _ _ _ _ I)). by rewrite negb_involutive.
Qed.

(** [f] is what setting a bit, or clearing it, does to an entry. *)
Lemma wp_set_bit s O S pd sp va bit (b : bool) (f : entry -> entry) (Q : unit -> pstate -> Prop) : pd_inv s O S -> dirs S !! pd = Some sp -> 0 <= va < PHYS_BASE ->
  (forall e, frame_ok (frame e) -> (if b then Z.lor (enc e) bit else Z.land (enc e) (u32 (Z.lnot bit))) = enc (f e)) ->
  (forall e, frame (f e) = frame e /\ present (f e) = present e) ->
  (b = true -> forall e, writable (f e) = writable e /\ (accessed e = true -> accessed (f e) = true) /\ (dirty e = true -> dirty (f e) = true)) ->
  (b = true -> is_Some (sp !! (va / 4096))) ->
  (sp !! (va / 4096) = None -> forall s', pd_inv s' O S -> Q tt s') ->
  (forall e s', sp !! (va / 4096) = Some e -> pd_inv s' O (mk_spaces (<[pd := <[va / 4096 := f e]> sp]> (dirs S)) (held S) (active S)) -> Q tt s') ->
  wp (set_bit bit pd va b) Q s.
Proof.
  intros HI Hsp Hva Hf Hk Hm Hb H1 H2. pose proof HI as [I T]. unfold set_bit. eapply wp_lookup_entry; [exact I|exact Hsp|exact Hva| |].
  - intros Hn. apply wp_ret. by eapply H1.
  - intros pt t Hat Ha Hj. pose proof Hat as (_ & _ & Ht & Hl & Hw & _ & Ew). apply wp_bind. eapply wp_eq; [exact Ew|].
    destruct (sp !! (va / 4096)) as [e|] eqn:Ee; cbn [enc_opt].
    + destruct (pb_entry _ _ _ _ I pd sp _ e Hsp Ee) as [_ Hfe]. specialize (Hf e Hfe). destruct (Hk e) as [Hk1 Hk2].
      assert (Hre : retagged O O pd (va / 4096) (f e) (held S)) by (by eapply retag_bits). destruct b; rewrite Hf.
      * eapply wp_eq; [by eapply store32_ok|]. apply (H2 e); [done|]. split; [eapply update_entry; try done; by rewrite Hk1|].
        eapply tlb_ok_update; [exact T|done|exact Hsp|]. intros w d e0 _ _ He0 Hp0 Ha0 _ _. rewrite Ee in He0. injection He0 as <-.
        destruct (Hm eq_refl e) as (? & ? & ?). rewrite Hk1, Hk2. split_and!; auto.
      * eapply wp_store_entry; [exact HI|exact Hsp|exact Hva|exact Hat|exact Ee|done|exact Hre|]. intros s' HI'. by apply (H2 e).
    + destruct b; [destruct (Hb eq_refl); done|]. rewrite Z.land_0_l. apply wp_bind. eapply wp_eq; [by eapply store32_ok|].
      destruct (user_index va Hva) as (_ & _ & _ & Ev & _). rewrite list_insert_id by (rewrite Hw, <- Ev, Ee by done; done). rewrite insert_id by done.
      assert (Es : set_tables (tables s) s = s) by (by destruct s). rewrite Es. eapply wp_invalidate; [exact I|by eexists|done|]. by apply H1.
Qed.

(** ** The processor *)

(** What an access does to the entry. *)
Definition touched (e : entry) (wr : bool) : entry := mk_entry (frame e) (present e) (writable e) true (dirty e || wr).
Definition permits (e : entry) (wr : bool) : bool := present e && (negb wr || writable e).

(** The entry of the active address space for an address. *)
Definition active_entry (S : spaces) (va : Z) : option (gmap Z entry * entry) :=
  match dirs S !! active S with Some sp => match sp !! (va / 4096) with Some e => Some (sp, e) | None => None end | None => None end.

Lemma allows_enc e wr : frame_ok (frame e) -> allows (enc e) wr = negb wr || writable e.
Proof. intros Hf. unfold allows. rewrite enc_U, enc_W by done. by rewrite negb_involutive. Qed.

Lemma enc_touched e (wr : bool) : frame_ok (frame e) ->
  (if wr then Z.lor (Z.lor (enc e) PTE_A) PTE_D else Z.lor (enc e) PTE_A) = enc (touched e wr).
Proof.
  intros Hf. rewrite enc_set_A by done. destruct wr; [rewrite enc_set_D by done|]; f_equal; unfold touched, with_dirty, with_accessed; cbn; by rewrite ?orb_true_r, ?orb_false_r.
Qed.

Lemma wp_walk_tables s O S va (Q : option (Z * Z) -> pstate -> Prop) : pd_base s O S -> 0 <= va < PHYS_BASE ->
  match active_entry S va with
  | Some (sp, e) => if present e then forall pt t, dirs S !! active S = Some sp -> sp !! (va / 4096) = Some e -> entry_at s O (active S) sp va pt t ->
                       pt mod 4096 = 0 -> Q (Some (pt + 4 * (va / 4096 mod 1024), enc e)) s
                    else Q None s
  | None => Q None s
  end -> wp (walk va) Q s.
Proof.
  intros I Hva HQ. unfold walk. destruct (user_index va Hva) as (_ & Hi & Hj & _ & Ept). rewrite pd_no_div, Ept. apply wp_bind. red. cbn [gets].
  rewrite (pb_cr3 _ _ _ _ I). set (a := if active S =? NULL then base_page_dir s else active S).
  replace (PHYS_BASE + (a - PHYS_BASE)) with a by lia. unfold active_entry in HQ. apply wp_bind.
  assert (Hzero : forall d, frame_ok a -> tables s !! a = Some d -> d !! Z.to_nat (va / 4096 / 1024) = Some 0 ->
    match dirs S !! active S with Some sp => sp !! (va / 4096) = None | None => True end ->
    wp (load32 (a + 4 * (va / 4096 / 1024))) (fun e => wp (if Z.land e PTE_P =? 0 then ret None else
      pte ← load32 (PHYS_BASE + Z.land e PTE_ADDR + 4 * (va / 4096 mod 1024));
      ret (if Z.land pte PTE_P =? 0 then None else Some (PHYS_BASE + Z.land e PTE_ADDR + 4 * (va / 4096 mod 1024), pte))) Q) s).
  { intros d (_ & _ & Ha)%frame_pos Hd E Hn. eapply wp_eq; [by eapply load32_ok; (done || lia)|]. cbn. apply wp_ret.
    destruct (dirs S !! active S) as [sp|]; [by rewrite Hn in HQ|done]. }
  destruct (Z.eqb_spec (active S) NULL) as [Ea|Hne].
  - destruct (pb_base _ _ _ _ I) as (_ & Hbf & b & Hb & _ & Hb0). eapply Hzero; [done|done|by apply Hb0|].
    destruct (dirs S !! active S) as [sp|] eqn:E; [|done]. destruct (dir_page _ I _ _ E) as (Hf & _). rewrite Ea in Hf. by destruct (frame_pos _ Hf) as (_ & ? & _).
  - destruct (pb_active _ _ _ _ I) as [?|[sp Hsp]]; [done|]. destruct (dir_page _ I _ _ Hsp) as (Hf & _).
    destruct (find_entry _ s O S _ sp va I Hsp Hva) as [(d & Hd & E0 & Hn & _)|(pt & t & Hat)]; [by eapply Hzero; [..|rewrite Hsp]|].
    pose proof Hat as (_ & Hfp & _ & _ & _ & _ & Ew). destruct (pb_dir _ _ _ _ I _ _ Hsp) as (d & b & Hd & _). destruct (frame_pos _ Hf) as (_ & _ & Ha).
    pose proof (update_table _ I Hat d Hd) as Ed. eapply wp_eq; [eapply load32_ok; (done || lia)|].
    destruct (pde_word_bits pt Hfp) as (_ & -> & ->). replace (PHYS_BASE + (pt - PHYS_BASE)) with pt by lia. apply wp_bind. eapply wp_eq; [exact Ew|].
    rewrite Hsp in HQ. apply wp_ret. destruct (sp !! (va / 4096)) as [e|] eqn:Ee; cbn [enc_opt]; [|exact HQ].
    rewrite enc_P by (by eapply (pb_entry _ _ _ _ I)). destruct (present e); cbn [negb]; [|exact HQ]. eapply HQ; [done|done|exact Hat|]. by apply frame_pos.
Qed.

(** The spaces after an access. *)
Definition touch (S : spaces) (va : Z) (sp : gmap Z entry) (e : entry) (wr : bool) : spaces :=
  mk_spaces (<[active S := <[va / 4096 := touched e wr]> sp]> (dirs S)) (held S) (active S).

Definition access_post (s : pstate) (O : gmap Z tag) (S : spaces) (va : Z) (wr : bool) (Q : option Z -> pstate -> Prop) : Prop :=
  match active_entry S va with
  | Some (sp, e) =>
      if permits e wr then forall s', pd_inv s' O (touch S va sp e wr) -> Q (Some (frame e - PHYS_BASE + va mod 4096)) s'
      else Q None s
  | None => Q None s
  end.

Lemma active_entry_lookup S va sp e : active_entry S va = Some (sp, e) <-> dirs S !! active S = Some sp /\ sp !! (va / 4096) = Some e.
Proof.
  unfold active_entry. destruct (dirs S !! active S) as [sp'|]; [|split; [done|by intros [? _]]].
  destruct (sp' !! (va / 4096)) as [e'|] eqn:E; split; [by intros [= <- <-]|intros [[= <-] ?]; congruence|done|intros [[= <-] ?]; congruence].
Qed.

Lemma wp_tlb_fill s O S va wr (Q : option Z -> pstate -> Prop) : pd_inv s O S -> 0 <= va < PHYS_BASE -> access_post s O S va wr Q -> wp (fill va wr) Q s.
Proof.
  intros [I T] Hva HQ. unfold fill. apply wp_bind. eapply wp_walk_tables; [exact I|exact Hva|]. unfold access_post in HQ.
  destruct (active_entry S va) as [[sp e]|] eqn:Ea; [|by apply wp_ret]. unfold permits in HQ. destruct (present e) eqn:Ep; cbn [andb] in HQ; [|by apply wp_ret].
  intros pt t Hsp He Hat Hal. destruct (pb_entry _ _ _ _ I _ sp _ e Hsp He) as [_ Hfe]. rewrite allows_enc by done. destruct (negb wr || writable e) eqn:Ew; [|by apply wp_ret].
  rewrite enc_touched by done. pose proof Hat as (_ & _ & Ht & _). destruct (user_index va Hva) as (_ & _ & Hj & _).
  apply wp_bind. eapply wp_eq; [by eapply store32_ok|]. apply wp_bind. red. cbn [modify]. apply wp_ret.
  assert (Hft : frame_ok (frame (touched e wr))) by done. rewrite enc_addr by done. cbn [touched frame]. apply HQ.
  assert (I' : pd_base (set_tables (<[pt := <[Z.to_nat (va / 4096 mod 1024) := enc (touched e wr)]> t]> (tables s)) s) O (touch S va sp e wr)).
  { eapply update_entry; try done. by eapply retag_bits. }
  split; [by destruct I'; split|].
  assert (T' : tlb_ok (set_tables (<[pt := <[Z.to_nat (va / 4096 mod 1024) := enc (touched e wr)]> t]> (tables s)) s) (touch S va sp e wr)).
  { eapply tlb_ok_update; [exact T|done|exact Hsp|]. intros w d e0 _ _ He0 Hp0 _ _ _. rewrite He in He0. injection He0 as <-. cbn. split_and!; try done. by intros ->. }
  intros v w Hw. cbn in Hw. destruct (decide (v = va / 4096)) as [->|Hne]; [|rewrite lookup_insert_ne in Hw by done; by apply (T' v w)].
  rewrite lookup_insert_eq in Hw. injection Hw as <-. exists (<[va / 4096 := touched e wr]> sp), (touched e wr), (dirty e || wr). cbn. rewrite !lookup_insert_eq.
  split_and!; try done. unfold touched. by rewrite Ep.
Qed.

Lemma wp_cpu_access s O S va wr (Q : option Z -> pstate -> Prop) : pd_inv s O S -> 0 <= va < PHYS_BASE -> access_post s O S va wr Q -> wp (cpu_access va wr) Q s.
Proof.
  intros HI Hva HQ. unfold cpu_access. apply wp_bind. red. cbn [gets]. destruct (tlb s !! (va / 4096)) as [w|] eqn:Et; [|by eapply wp_tlb_fill].
  pose proof HI as [I T]. destruct (T _ _ Et) as (sp & e & d & Hsp & He & Hp & Ha & -> & Hd). destruct (pb_entry _ _ _ _ I _ sp _ e Hsp He) as [_ Hfe].
  rewrite allows_enc, enc_D, enc_addr by done. cbn [writable dirty frame].
  pose proof (proj2 (active_entry_lookup S va sp e) (conj Hsp He)) as Eae. pose proof HQ as HQ'. unfold access_post in HQ'. rewrite Eae in HQ'. unfold permits in HQ'. rewrite Hp in HQ'. cbn [andb] in HQ'.
  destruct (negb wr || writable e) eqn:Ew; cbn [negb]; [|by apply wp_ret]. destruct (wr && negb d) eqn:Ed; [by eapply wp_tlb_fill|].
  apply wp_ret, HQ'. assert (Es : touch S va sp e wr = S); [|by rewrite Es].
  assert (Ee : touched e wr = e).
  { destruct e as [f p w' a di]. unfold touched. cbn in *. subst a. f_equal. destruct wr; [|by rewrite orb_false_r]. cbn in Ed. rewrite orb_true_r. symmetry. apply Hd. by destruct d. }
  unfold touch. rewrite Ee, (insert_id sp), (insert_id (dirs S)) by done. by destruct S.
Qed.
End Calls.
