(* ===== verification/PageDirProps.v ===== *)
(** * Page directories: theorems

    Destroying a page directory, the kernel's own mapping that paging_init()
    makes, and then the theorems. *)

From Stdlib Require Import ZArith Lia.
From stdpp Require Import base numbers gmap list.
From S2P Require Import Prelude Bitmap Vaddr Palloc PageDir PageDirSpec PageDirOps.

Open Scope Z_scope.

(** * Page directories: destruction

    pagedir_destroy() frees the frames that the directory maps, its tables and
    the directory, and no other page. *)

(** What has been freed when the loops are at table [i] and entry [j]. *)
Definition gone (pd i j : Z) (t : tag) : Prop :=
  match t with
  | Table pd' k => pd' = pd /\ k < i
  | Frame pd' v => pd' = pd /\ v < 1024 * i + j
  | _ => False
  end.

#[global] Instance gone_dec pd i j t : Decision (gone pd i j t).
Proof. destruct t; cbn; apply _. Defined.

Section Destroy.
Context {machine : Machine} {others : Z -> Prop}.
Abbreviation pd_base := (pd_base others).
Abbreviation pd_inv := (pd_inv others).
Context {s0 : pstate} {O : gmap Z tag} {S : spaces} {pd : Z} {sp : gmap Z entry}.
Context (I : pd_base s0 O S) (Hsp : dirs S !! pd = Some sp).

Definition kept (i j p : Z) : Prop := others p \/ exists t, O !! p = Some t /\ ~ gone pd i j t.

Record freeing (i j : Z) (s : pstate) : Prop := {
  fr_memory : memory_ok (page_pools s);
  fr_taken : forall p, taken (page_pools s) p <-> kept i j p;
  fr_tables : forall p, kept i j p -> tables s !! p = tables s0 !! p;
  fr_same : base_page_dir s = base_page_dir s0 /\ cr3 s = cr3 s0 /\ tlb s = tlb s0 }.

(** Freeing the one page of a use. *)
Lemma wp_free_tag s i j i' j' f tg : freeing i j s -> O !! f = Some tg -> (forall q, O !! q = Some tg -> q = f) -> ~ gone pd i j tg ->
  (forall t, gone pd i' j' t <-> gone pd i j t \/ t = tg) -> wp (free_page f) (fun _ => freeing i' j') s.
Proof using All.
  intros F Hf Huniq Hng Hstep. pose proof (pb_mine _ _ _ _ I f ltac:(by eexists)) as Hno.
  assert (Hkept : forall q, kept i' j' q <-> kept i j q /\ q <> f).
  { intros q. split.
    - intros [Ho|(t & Ht & Hg)]; [split; [by left|by intros ->]|]. rewrite Hstep in Hg. split; [right; exists t; tauto|]. intros ->. apply Hg. right. congruence.
    - intros [[Ho|(t & Ht & Hg)] Hne]; [by left|]. right. exists t. split; [done|]. rewrite Hstep. intros [?| ->]; [done|]. by apply Hne, Huniq. }
  apply wp_free_page_any; [apply (fr_memory _ _ _ F)|apply (fr_taken _ _ _ F); right; by exists tg|].
  intros ps' Hm _ Ht. split; [done| | |apply (fr_same _ _ _ F)].
  - intros p. cbn. by rewrite Ht, (fr_taken _ _ _ F), Hkept.
  - intros p [Hp Hne]%Hkept. cbn. rewrite lookup_delete_ne by done. by apply (fr_tables _ _ _ F).
Qed.

Lemma freeing_skip s i j i' j' : freeing i j s -> (forall q t, O !! q = Some t -> gone pd i' j' t <-> gone pd i j t) -> freeing i' j' s.
Proof using All.
  intros F H. assert (Hkept : forall q, kept i' j' q <-> kept i j q).
  { intros q. unfold kept. split; (intros [?|(t & Ht & Hg)]; [by left|]); right; exists t; (split; [done|]); [by rewrite <- (H q t Ht)|by rewrite (H q t Ht)]. }
  destruct F as [F1 F2 F3 F4]. split; [done| | |done]; intros p.
  - rewrite F2, Hkept. done.
  - rewrite Hkept. apply F3.
Qed.

(** The frames of one table. *)
Lemma wp_free_frames s i pt t : freeing i 0 s -> 0 <= i < 768 -> O !! pt = Some (Table pd i) -> tables s0 !! pt = Some t ->
  (forall j, 0 <= j < 1024 -> t !! Z.to_nat j = Some (enc_opt (sp !! (1024 * i + j)))) -> pt mod 4096 = 0 ->
  wp (for_from 1024 0 (fun j =>
    pte ← load32 (pt + 4 * j);
    if negb (Z.land pte PTE_P =? 0) then page ← pte_get_page pte; free_page page else ret tt)) (fun _ => freeing i 1024) s.
Proof using All.
  intros F Hi HO Ht Hw Ha. apply (wp_for_from (freeing i)); [done|]. intros j s1 Hj F1. assert (Hj' : 0 <= j < 1024) by lia.
  assert (Hpt : tables s1 !! pt = Some t). { rewrite (fr_tables _ _ _ F1); [done|]. right. exists (Table pd i). split; [done|]. cbn. lia. }
  apply wp_bind. eapply wp_eq; [eapply load32_ok; [done|done|done|by apply Hw]|].
  assert (Hskip : mapped_at sp (1024 * i + j) = false -> freeing i (j + 1) s1).
  { intros Hm. eapply freeing_skip; [exact F1|]. intros q tg Hq. destruct tg as [| |pd' v|]; cbn; try tauto. split; [|lia].
    intros [-> Hv]. split; [done|]. assert (v <> 1024 * i + j); [|lia]. intros ->. by eapply no_frame in Hq. }
  unfold mapped_at in Hskip. destruct (sp !! (1024 * i + j)) as [e|] eqn:Ee; cbn [enc_opt].
  2:{ rewrite Z.land_0_l. cbn. apply wp_ret. by apply Hskip. }
  destruct (pb_entry _ _ _ _ I pd sp _ e Hsp Ee) as [_ Hfe]. rewrite enc_P, negb_involutive by done. destruct (present e) eqn:Ep; [|apply wp_ret; by apply Hskip].
  apply wp_bind. eapply wp_eq; [by apply pte_get_page_ok|]. assert (HOf : O !! frame e = Some (Frame pd (1024 * i + j))) by (apply (pb_frame _ _ _ _ I); by exists sp, e).
  eapply (wp_free_tag s1 i j i (j + 1)); [done|exact HOf| |cbn; lia|].
  - intros q Hq. apply (pb_frame _ _ _ _ I) in Hq as (sp' & e' & Hsp' & He' & _ & <-). rewrite Hsp in Hsp'. injection Hsp' as <-. congruence.
  - intros [|pd' k|pd' v|]; cbn; split; try (intros [?|?]; (done || tauto || lia)); try tauto; try (intros; left; lia).
    + intros [-> Hv]. destruct (decide (v = 1024 * i + j)) as [->|]; [by right|left; lia].
    + intros [?|[= -> ->]]; lia.
Qed.

(** One entry of the directory. *)
Lemma wp_free_table s i : freeing i 0 s -> 0 <= i < 768 ->
  wp (pde ← load32 (pd + 4 * i);
      if negb (Z.land pde PTE_P =? 0) then
        pt ← pde_get_pt pde;
        for_from (Z.to_nat (PGSIZE / 4)) 0 (fun j =>
          pte ← load32 (pt + 4 * j);
          if negb (Z.land pte PTE_P =? 0) then page ← pte_get_page pte; free_page page else ret tt);;
        free_page pt
      else ret tt) (fun _ => freeing (i + 1) 0) s.
Proof using All.
  intros F Hi. destruct (dir_page _ I pd sp Hsp) as (Hf & HOd & _). destruct (frame_pos pd Hf) as (_ & _ & Ha).
  destruct (pb_dir _ _ _ _ I pd sp Hsp) as (d & b & Hd & _ & _ & _ & Hpde).
  assert (Hds : tables s !! pd = Some d). { rewrite (fr_tables _ _ _ F); [done|]. right. exists Dir. split; [done|by intros []]. }
  apply wp_bind. destruct (Hpde i Hi) as [[E0 Hn]|(pt & E & HOp & t & Ht & _ & Hw)].
  - eapply wp_eq; [eapply load32_ok; (done || lia)|]. cbn. apply wp_ret. eapply freeing_skip; [exact F|].
    intros q [|pd' k|pd' v|] Hq; cbn; try tauto.
    + destruct (pb_table _ _ _ _ I q pd' k Hq) as (_ & _ & d' & Hd' & E'). split; [|lia]. intros [-> Hk]. split; [done|].
      assert (k <> i); [|lia]. intros ->. rewrite Hd in Hd'. injection Hd' as <-. rewrite E0 in E'. injection E' as E'.
      destruct (owned_page _ I q) as (Hfq & _); [by eexists|]. destruct (pde_word_bits q Hfq). lia.
    + split; [|lia]. intros [-> Hv]. split; [done|]. apply (pb_frame _ _ _ _ I) in Hq as (sp' & e & Hsp' & He & _). rewrite Hsp in Hsp'. injection Hsp' as <-.
      destruct (decide (v < 1024 * i + 0)); [done|]. exfalso. specialize (Hn (v - 1024 * i) ltac:(lia)). replace (1024 * i + (v - 1024 * i)) with v in Hn by lia. congruence.
  - eapply wp_eq; [eapply load32_ok; (done || lia)|]. destruct (owned_page _ I pt) as (Hfp & _); [by eexists|]. destruct (pde_word_bits pt Hfp) as (_ & -> & _). cbn [negb].
    apply wp_bind. eapply wp_eq; [by apply pde_get_pt_ok|]. destruct (frame_pos pt Hfp) as (_ & _ & Hap).
    apply wp_bind. eapply wp_mono; [by eapply wp_free_frames|]. intros [] s1 F1. eapply (wp_free_tag s1 i 1024 (i + 1) 0); [done|exact HOp| |cbn; lia|].
    + intros q Hq. destruct (pb_table _ _ _ _ I q pd i Hq) as (_ & _ & d' & Hd' & E'). rewrite Hd in Hd'. injection Hd' as <-. rewrite E in E'. unfold pde_word in E'. injection E' as E'. lia.
    + intros [|pd' k|pd' v|]; cbn; split; try (intros [?|?]; (done || tauto || lia)); try tauto; try (intros; left; lia).
      * intros [-> Hk]. destruct (decide (k = i)) as [->|]; [by right|left; lia].
      * intros [?|[= -> ->]]; lia.
Qed.

(** What remains of the uses. *)
Definition survivors : gmap Z tag := filter (fun kv => kv.1 <> pd /\ ~ gone pd 768 0 kv.2) O.

Lemma survivors_lookup p t : survivors !! p = Some t <-> O !! p = Some t /\ p <> pd /\ ~ gone pd 768 0 t.
Proof using. unfold survivors. rewrite map_lookup_filter_Some. done. Qed.

Lemma survivors_some p : is_Some (survivors !! p) <-> exists t, O !! p = Some t /\ p <> pd /\ ~ gone pd 768 0 t.
Proof using. split; [intros [t Ht]|intros [t Ht]]; exists t; by apply survivors_lookup. Qed.

(** Uses by other address spaces remain. *)
Lemma survivors_other p t : O !! p = Some t -> match t with Dir => p <> pd | Table pd' _ | Frame pd' _ => pd' <> pd | Held => True end -> survivors !! p = Some t.
Proof using All.
  intros Ht Hne. apply survivors_lookup. split; [done|]. destruct (dir_page _ I pd sp Hsp) as (_ & HOd & _).
  destruct t; cbn; (split; [try done; intros ->; congruence|tauto]).
Qed.

Lemma destroyed_base s : freeing 768 0 s -> active S <> pd ->
  forall ps', memory_ok ps' -> (forall q, taken ps' q <-> taken (page_pools s) q /\ q <> pd) ->
  pd_base (set_tables (delete pd (tables s)) (set_page_pools ps' s)) survivors (mk_spaces (delete pd (dirs S)) (held S) (active S)).
Proof using All.
  intros F Hact ps' Hm Ht. destruct (dir_page _ I pd sp Hsp) as (Hf & HOd & Hb). pose proof (fr_same _ _ _ F) as (Eb & Ec & _). set (s' := set_tables _ _).
  assert (Hno : ~ others pd) by (apply (pb_mine _ _ _ _ I); by eexists).
  assert (Htab : forall p, others p \/ is_Some (survivors !! p) -> tables s' !! p = tables s0 !! p).
  { intros p Hp. cbn. rewrite lookup_delete_ne; [apply (fr_tables _ _ _ F)|intros <-]; rewrite survivors_some in Hp.
    - destruct Hp as [?|(t & H1 & _ & H3)]; [by left|right; by exists t].
    - destruct Hp as [?|(t & _ & ? & _)]; done. }
  assert (Hdirs : forall q x, delete pd (dirs S) !! q = Some x <-> q <> pd /\ dirs S !! q = Some x).
  { intros q x. rewrite lookup_delete_Some. naive_solver. }
  assert (Hdtab : forall q x, dirs S !! q = Some x -> q <> pd -> tables s' !! q = tables s0 !! q).
  { intros q x Hq Hne. apply Htab. right. exists Dir. apply survivors_other; [|done]. apply (pb_dirs _ _ _ _ I). by eexists. }
  split; [done| | | | | | | | | | |].
  - destruct (pb_base _ _ _ _ I) as (H1 & H2 & b & H3 & H4). split_and!; cbn [s' set_tables set_page_pools base_page_dir]; rewrite ?Eb; [done|done|].
    exists b. rewrite Htab by (by left). done.
  - intros q. cbn. rewrite Ht, (fr_taken _ _ _ F), survivors_some. unfold kept. split.
    + intros [[?|(t & H1 & H2)] Hne]; [by left|right; by exists t].
    + intros [?|(t & H1 & H2 & H3)]; [split; [by left|by intros ->]|]. split; [right; by exists t|done].
  - intros q (t & H1 & _)%survivors_some. apply (pb_mine _ _ _ _ I). by eexists.
  - intros q. rewrite survivors_lookup. cbn. rewrite (pb_held _ _ _ _ I). split; [tauto|]. intros Hh. split_and!; [done| |tauto].
    intros ->. apply (pb_held _ _ _ _ I) in Hh. congruence.
  - intros q. rewrite survivors_lookup, (pb_dirs _ _ _ _ I). cbn. split.
    + intros ([x Hx] & Hne & _). exists x. by apply Hdirs.
    + intros [x [Hne Hx]%Hdirs]. split_and!; [by eexists|done|tauto].
  - intros q x Hq. cbn in Hq. apply Hdirs in Hq as [Hne Hq]. eapply dir_ok_frame; [by apply (pb_dir _ _ _ _ I)|done|apply Htab; left; apply (pb_base _ _ _ _ I)|by eapply Hdtab|].
    intros r k Hr. assert (Hs : survivors !! r = Some (Table q k)) by (by apply survivors_other). split; [apply Htab; right; by eexists|done].
  - intros q pd' k (Hq & Hne & Hg)%survivors_lookup. destruct (pb_table _ _ _ _ I q pd' k Hq) as (Hk & [x Hx] & d & Hd & E).
    assert (Hnp : pd' <> pd) by (intros ->; apply Hg; cbn; lia). split; [done|]. split; [exists x; cbn; by apply Hdirs|]. exists d. by rewrite (Hdtab pd' x).
  - intros q pd' v. rewrite survivors_lookup, (pb_frame _ _ _ _ I). cbn. split.
    + intros ((x & e & Hx & He & Hr) & Hne & Hg). exists x, e. split; [|done]. apply Hdirs. split; [|done]. intros ->. apply Hg.
      destruct (pb_entry _ _ _ _ I pd x v e Hx He). lia.
    + intros (x & e & [Hnp Hx]%Hdirs & He & Hp & Hfr). split; [by exists x, e|]. split; [|tauto]. intros ->.
      assert (HOf : O !! pd = Some (Frame pd' v)) by (apply (pb_frame _ _ _ _ I); by exists x, e). congruence.
  - intros q x v e Hq He. cbn in Hq. apply Hdirs in Hq as [_ Hq]. by eapply (pb_entry _ _ _ _ I).
  - cbn. rewrite Ec, Eb. apply (pb_cr3 _ _ _ _ I).
  - cbn. destruct (pb_active _ _ _ _ I) as [?|[x Hx]]; [by left|right]. exists x. by apply Hdirs.
Qed.

Lemma wp_pagedir_destroy (Q : unit -> pstate -> Prop) : tlb_ok s0 S -> active S <> pd ->
  (forall s', pd_inv s' survivors (mk_spaces (delete pd (dirs S)) (held S) (active S)) -> Q tt s') -> wp (pagedir_destroy pd) Q s0.
Proof using All.
  intros T Hact HQ. destruct (dir_page _ I pd sp Hsp) as (Hf & HOd & Hb). destruct (frame_pos pd Hf) as (_ & Hn & _).
  unfold pagedir_destroy. rewrite (proj2 (Z.eqb_neq _ _) Hn). apply wp_bind. red. cbn [gets].
  apply wp_bind, wp_assertb; [by rewrite (proj2 (Z.eqb_neq _ _) Hb)|]. apply wp_bind. eapply wp_mono.
  { apply (wp_for_from (fun i => freeing i 0)).
    - split; [apply (pb_memory _ _ _ _ I)| |done|done]. intros p. rewrite (pb_taken _ _ _ _ I). unfold kept. split; (intros [?|Hp]; [by left|right]).
      + destruct Hp as [t Ht]. exists t. split; [done|]. destruct t as [|pd' k|pd' v|]; cbn; try tauto.
        * destruct (pb_table _ _ _ _ I p pd' k Ht). lia.
        * apply (pb_frame _ _ _ _ I) in Ht as (x & e & Hx & He & _). destruct (pb_entry _ _ _ _ I pd' x v e Hx He). lia.
      + destruct Hp as (t & Ht & _). by eexists.
    - intros i s1 Hi F1. change (Z.of_nat (Z.to_nat (pd_no PHYS_BASE))) with 768 in Hi. apply wp_free_table; [done|lia]. }
  intros [] s1 F1. change (0 + Z.of_nat (Z.to_nat (pd_no PHYS_BASE))) with 768 in F1.
  apply wp_free_page_any; [apply (fr_memory _ _ _ F1)|apply (fr_taken _ _ _ F1); right; exists Dir; split; [done|by intros []]|].
  intros ps' Hm _ Ht. apply HQ. split; [by apply destroyed_base|]. pose proof (fr_same _ _ _ F1) as (_ & _ & Et).
  intros v w Hw. cbn in Hw. rewrite Et in Hw. destruct (T v w Hw) as (x & e & d & Hx & Hr). exists x, e, d. cbn. by rewrite lookup_delete_ne.
Qed.
End Destroy.

(** * Page directories: the kernel's mapping

    paging_init() of threads/init.c builds the base page directory, which maps
    all of memory for the kernel and nothing for user programs. *)

Lemma wp_bind_assoc {S A B C} (m : M S A) (f : A -> M S B) (g : B -> M S C) Q s :
  wp (bind (bind m f) g) Q s -> wp (bind m (fun a => bind (f a) g)) Q s.
Proof. unfold wp, bind. by destruct (m s) as [[]|]. Qed.

Section Init.
Context {machine : Machine}.

Definition in_text (n : Z) : bool := (text_start <=? PHYS_BASE + 4096 * n) && (PHYS_BASE + 4096 * n <? text_end).

(** The entry for page [n] of memory: for the kernel only, and only to be read
    if it holds the kernel's text. *)
Definition kernel_pte (n : Z) : Z := 4096 * n + (if in_text n then 1 else 3).

(** Word [j] of table [k] when the first [n] pages are mapped. *)
Definition kernel_word (n k j : Z) : Z := if 1024 * k + j <? n then kernel_pte (1024 * k + j) else 0.

Definition dir_word (L : list Z) (i : Z) : Z := if 768 <=? i then from_option pde_word 0 (L !! Z.to_nat (i - 768)) else 0.

(** [L] is the tables so far. *)
Record paging (n : Z) (s : pstate) (pd : Z) (L : list Z) : Prop := {
  pg_memory : memory_ok (page_pools s);
  pg_dir : exists d, tables s !! pd = Some d /\ length d = 1024%nat /\ forall i, 0 <= i < 1024 -> d !! Z.to_nat i = Some (dir_word L i);
  pg_cnt : n <= 1024 * Z.of_nat (length L);
  pg_nodup : NoDup (pd :: L);
  pg_taken : forall p, p ∈ pd :: L -> taken (page_pools s) p;
  pg_table : forall k pt, L !! k = Some pt -> exists t, tables s !! pt = Some t /\ length t = 1024%nat /\
    forall j, 0 <= j < 1024 -> t !! Z.to_nat j = Some (kernel_word n (Z.of_nat k) j) }.

(** At least [n] pages of the kernel pool are free. *)
Definition free_pages (ps : pools) (n : nat) : Prop :=
  exists F, length F = n /\ NoDup F /\ forall p, p ∈ F -> (exists i, page_at ps false i p) /\ ~ taken ps p.

Lemma free_pages_pos ps n : free_pages ps (S n) -> ~ forall i q, page_at ps false i q -> taken ps q.
Proof. intros ([|q F] & Hl & _ & HF) Hfull; [done|]. destruct (HF q) as [[i Hi] Hn]; [by left|]. by apply Hn, (Hfull i). Qed.

Lemma free_pages_take ps ps' n p : free_pages ps (S n) -> geometry ps ps' -> (forall q, taken ps' q <-> taken ps q \/ q = p) -> free_pages ps' n.
Proof.
  intros (F & Hl & Hnd & HF) Hg Ht. assert (H : exists F', length F' = n /\ NoDup F' /\ F' ⊆ F /\ p ∉ F').
  { destruct (decide (p ∈ F)) as [Hp|Hp].
    - apply elem_of_Permutation in Hp as [F' EF]. exists F'. rewrite EF in Hl, Hnd. apply NoDup_cons in Hnd as [Hp Hnd]. cbn in Hl.
      split_and!; [lia|done| |done]. intros q Hq. rewrite EF. by right.
    - destruct F as [|q F]; [done|]. exists F. apply NoDup_cons in Hnd as [_ Hnd]. cbn in Hl. split_and!; [lia|done| |]; set_solver. }
  destruct H as (F' & Hl' & Hnd' & Hsub & Hp). exists F'. split_and!; [done|done|]. intros q Hq. destruct (HF q (Hsub q Hq)) as [[i Hi] Hnt].
  split; [exists i; by apply (geometry_page_at ps ps')|]. rewrite Ht. intros [?| ->]; done.
Qed.

Lemma wp_get_kernel_page s n (Q : Z -> pstate -> Prop) : memory_ok (page_pools s) -> free_pages (page_pools s) (S n) ->
  (forall p ps', frame_ok p -> ~ taken (page_pools s) p -> memory_ok ps' -> (forall q, taken ps' q <-> taken (page_pools s) q \/ q = p) -> free_pages ps' n ->
     Q p (set_tables (<[p := replicate 1024 0]> (tables s)) (set_page_pools ps' s))) ->
  wp (get_page (Z.lor PAL_ASSERT PAL_ZERO)) Q s.
Proof.
  intros Hm Hfree HQ. unfold get_page. apply wp_bind, wp_zoom.
  destruct (get_page_ok (page_pools s) (Z.lor PAL_ASSERT PAL_ZERO) (proj1 Hm)) as [(p & ps' & E & Hw' & Hg & [i Hp] & Hnt & Ht)|[E Hfull]].
  - eapply wp_eq; [exact E|]. destruct (proj2 Hm p) as [Hf _]; [by exists false, i|]. destruct (frame_pos p Hf) as (_ & Hn & _).
    rewrite (proj2 (Z.eqb_neq _ _) Hn). apply wp_bind. red. cbn [modify]. apply wp_ret.
    apply HQ; [done|done|by eapply memory_ok_geometry|done|by eapply free_pages_take].
  - by apply free_pages_pos in Hfree.
Qed.

Lemma kernel_addr n : 0 <= n < 2 ^ 18 -> let va := PHYS_BASE + 4096 * n in
  u32 (n * PGSIZE) = 4096 * n /\ frame_ok va /\ pd_no va = 768 + n / 1024 /\ pt_no va = n mod 1024.
Proof.
  intros Hn va. assert (Hva : in_u 32 va) by (unfold va, in_u, PHYS_BASE, LOADER_PHYS_BASE; lia).
  change PGSIZE with 4096. split_and!.
  - rewrite uwrap_small by (unfold in_u; lia). lia.
  - unfold frame_ok, va, PHYS_BASE, LOADER_PHYS_BASE. split; [Z.to_euclidean_division_equations; lia|lia].
  - rewrite pd_no_div. unfold va, PHYS_BASE, LOADER_PHYS_BASE. Z.to_euclidean_division_equations. lia.
  - rewrite pt_no_mod by done. unfold va, PHYS_BASE, LOADER_PHYS_BASE. Z.to_euclidean_division_equations. lia.
Qed.

Lemma pte_create_kernel_ok (s : pstate) n : 0 <= n < 2 ^ 18 -> pte_create_kernel (PHYS_BASE + 4096 * n) (negb (in_text n)) s = Ok (kernel_pte n, s).
Proof.
  intros Hn. destruct (kernel_addr n Hn) as (_ & Hf & _). unfold pte_create_kernel. rewrite pg_ofs_mod. pose proof Hf as (-> & _). unfold bind. cbn [assertb Z.eqb ret].
  unfold ret at 1. rewrite vtop_ok by (by apply frame_ok_range). unfold ret. do 2 f_equal. replace (PHYS_BASE + 4096 * n - PHYS_BASE) with (4096 * n + 0) by lia.
  unfold kernel_pte. destruct (in_text n); cbn [negb]; do 2 (rewrite lor_low; [|done|done|done]); eval_bits; lia.
Qed.

(** The table for page [n]: the next one, when all tables are full. *)
Lemma wp_next_table s pd L n pt m (Q : Z -> pstate -> Prop) : paging n s pd L -> 0 <= n < 2 ^ 18 ->
  Z.of_nat (length L) = (n + 1023) / 1024 -> (n mod 1024 <> 0 -> L !! Z.to_nat (n / 1024) = Some pt) ->
  (Z.of_nat (length L) = n / 1024 -> free_pages (page_pools s) (S m)) ->
  (forall s' L' pt', paging n s' pd L' -> Z.of_nat (length L') = n / 1024 + 1 -> L' !! Z.to_nat (n / 1024) = Some pt' ->
     (forall q, taken (page_pools s) q -> taken (page_pools s') q) -> base_page_dir s' = base_page_dir s ->
     (Z.of_nat (length L) = n / 1024 -> free_pages (page_pools s') m) -> (n mod 1024 <> 0 -> page_pools s' = page_pools s) -> Q pt' s') ->
  wp (e ← load32 (pd + 4 * (768 + n / 1024));
      if e =? 0 then
        pt ← get_page (Z.lor PAL_ASSERT PAL_ZERO);
        x ← pde_create pt;
        store32 (pd + 4 * (768 + n / 1024)) x;;
        ret pt
      else ret pt) Q s.
Proof.
  intros P Hn Hl Hpt Hfree HQ. destruct (pg_dir _ _ _ _ P) as (d & Hd & Hdl & Hdw).
  destruct (proj2 (pg_memory _ _ _ _ P) pd) as [Hfd _]; [apply taken_pool_page, (pg_taken _ _ _ _ P); by left|]. destruct (frame_pos pd Hfd) as (_ & _ & Ha).
  assert (Hi : 768 <= 768 + n / 1024 < 1024) by (Z.to_euclidean_division_equations; lia).
  apply wp_bind. eapply wp_eq; [eapply load32_ok; [done|done|lia|apply Hdw; lia]|]. unfold dir_word. rewrite (proj2 (Z.leb_le _ _)) by lia.
  replace (768 + n / 1024 - 768) with (n / 1024) by lia. destruct (decide (n mod 1024 = 0)) as [H0|H0].
  - assert (Hl0 : Z.of_nat (length L) = n / 1024) by (Z.to_euclidean_division_equations; lia). rewrite (lookup_ge_None_2 L) by lia. cbn [from_option Z.eqb].
    apply wp_bind. eapply wp_get_kernel_page; [apply (pg_memory _ _ _ _ P)|by apply Hfree|]. intros p ps' Hf Hnt Hm Ht Hfr.
    apply wp_bind. eapply wp_eq; [by apply pde_create_ok|]. assert (Hnew : p ∉ pd :: L) by (intros Hp; by apply Hnt, (pg_taken _ _ _ _ P)).
    assert (Hpd : p <> pd) by set_solver. apply wp_bind. eapply wp_eq; [eapply store32_ok; [done|cbn; by rewrite lookup_insert_ne|lia]|].
    apply wp_ret, (HQ _ (L ++ [p])); [|rewrite length_app; cbn [length]; lia|rewrite lookup_app_r by lia; by replace (Z.to_nat (n / 1024) - length L)%nat with 0%nat by lia|intros q Hq; apply Ht; by left|done|done|done].
    split; cbn [page_pools set_tables set_page_pools tables].
    + done.
    + exists (<[Z.to_nat (768 + n / 1024) := pde_word p]> d). split_and!; [by rewrite lookup_insert_eq|by rewrite length_insert|].
      intros i Hir. unfold dir_word. destruct (decide (i = 768 + n / 1024)) as [->|Hne].
      * rewrite list_lookup_insert_eq by lia. rewrite (proj2 (Z.leb_le _ _)) by lia. rewrite lookup_app_r by lia.
        by replace (Z.to_nat (768 + n / 1024 - 768) - length L)%nat with 0%nat by lia.
      * rewrite list_lookup_insert_ne, Hdw by lia. unfold dir_word. destruct (Z.leb_spec 768 i); [|done]. do 2 f_equal.
        destruct (decide (Z.to_nat (i - 768) < length L)%nat); [by rewrite lookup_app_l|]. rewrite !lookup_ge_None_2; [done|rewrite length_app; cbn [length]; lia|lia].
    + rewrite length_app. pose proof (pg_cnt _ _ _ _ P). lia.
    + pose proof (pg_nodup _ _ _ _ P) as Hnd. rewrite app_comm_cons, NoDup_app. split_and!; [done| |apply NoDup_singleton]. intros q Hq ->%list_elem_of_singleton. done.
    + intros q Hq. apply Ht. rewrite app_comm_cons, elem_of_app, list_elem_of_singleton in Hq. destruct Hq as [Hq| ->]; [left; by apply (pg_taken _ _ _ _ P)|by right].
    + intros k q Hk. apply lookup_app_Some in Hk as [Hk|[Hk Hq]].
      * destruct (pg_table _ _ _ _ P k q Hk) as (t & Htq & Htl & Htw). exists t. pose proof (list_elem_of_lookup_2 _ _ _ Hk) as Hin.
        rewrite !lookup_insert_ne; [done|set_solver|]. intros <-. pose proof (pg_nodup _ _ _ _ P) as [Hnd _]%NoDup_cons. done.
      * apply list_lookup_singleton_Some in Hq as [Hk' <-]. exists (replicate 1024 0). rewrite lookup_insert_ne, lookup_insert_eq by done. split_and!; [done|done|].
        intros j Hj. rewrite lookup_replicate_2 by lia. unfold kernel_word. rewrite (proj2 (Z.ltb_ge _ _)); [done|]. Z.to_euclidean_division_equations; lia.
  - specialize (Hpt H0). rewrite Hpt. cbn [from_option]. destruct (proj2 (pg_memory _ _ _ _ P) pt) as [Hfp _].
    { apply taken_pool_page, (pg_taken _ _ _ _ P). right. by eapply list_elem_of_lookup_2. }
    destruct (pde_word_bits pt Hfp) as (Hpos & _). rewrite (proj2 (Z.eqb_neq _ _)) by lia. apply wp_ret, (HQ s L pt); try done.
    + Z.to_euclidean_division_equations; lia.
    + intros E. exfalso. Z.to_euclidean_division_equations; lia.
Qed.

(** Page [n] is mapped. *)
Lemma paging_store s pd L n pt t : paging n s pd L -> 0 <= n -> Z.of_nat (length L) = n / 1024 + 1 -> L !! Z.to_nat (n / 1024) = Some pt -> tables s !! pt = Some t ->
  paging (n + 1) (set_tables (<[pt := <[Z.to_nat (n mod 1024) := kernel_pte n]> t]> (tables s)) s) pd L.
Proof.
  intros P Hn Hl Hpt Ht. pose proof (pg_nodup _ _ _ _ P) as Hnd. apply NoDup_cons in Hnd as Hnd2. destruct Hnd2 as [Hpd Hnd'].
  pose proof (list_elem_of_lookup_2 _ _ _ Hpt) as Hin. destruct (pg_dir _ _ _ _ P) as (d & Hd & Hdl).
  destruct (pg_table _ _ _ _ P _ _ Hpt) as (t' & Ht' & Htl & Htw). rewrite Ht in Ht'. injection Ht' as <-. rewrite Z2Nat.id in Htw by (apply Z.div_pos; lia).
  split; cbn [page_pools set_tables tables]; [apply (pg_memory _ _ _ _ P)| | |done|apply (pg_taken _ _ _ _ P)|].
  - exists d. rewrite lookup_insert_ne by congruence. done.
  - Z.to_euclidean_division_equations; lia.
  - intros k q Hk. destruct (decide (q = pt)) as [->|Hne].
    + assert (k = Z.to_nat (n / 1024)) as -> by (by eapply NoDup_lookup). exists (<[Z.to_nat (n mod 1024) := kernel_pte n]> t).
      rewrite lookup_insert_eq, length_insert. split_and!; [done|done|]. intros j Hj. rewrite Z2Nat.id by (apply Z.div_pos; lia). pose proof (Z.mod_pos_bound n 1024 ltac:(lia)) as Hm.
      pose proof (Z.div_mod n 1024 ltac:(lia)) as Hdm. destruct (decide (j = n mod 1024)) as [->|Hj'].
      * rewrite list_lookup_insert_eq by lia. unfold kernel_word. rewrite (proj2 (Z.ltb_lt _ _)) by lia. by rewrite <- Hdm.
      * rewrite list_lookup_insert_ne, Htw by lia. unfold kernel_word. do 2 f_equal.
        destruct (Z.ltb_spec (1024 * (n / 1024) + j) n), (Z.ltb_spec (1024 * (n / 1024) + j) (n + 1)); done || lia.
    + destruct (pg_table _ _ _ _ P k q Hk) as (t' & Ht' & Htl' & Htw'). exists t'. rewrite lookup_insert_ne by done. split_and!; [done|done|].
      intros j Hj. rewrite Htw' by done. unfold kernel_word. assert (Z.of_nat k <> n / 1024).
      { intros E. apply Hne. rewrite <- E, Nat2Z.id in Hpt. congruence. }
      destruct (Z.ltb_spec (1024 * Z.of_nat k + j) n), (Z.ltb_spec (1024 * Z.of_nat k + j) (n + 1)); try done; Z.to_euclidean_division_equations; lia.
Qed.

(** The state of the loop before page [n]. *)
Definition init_loop (s0 : pstate) (pd : Z) (n pt : Z) (s : pstate) : Prop :=
  exists L m, paging n s pd L /\ 0 <= n <= ram_pages /\ Z.of_nat (length L) = (n + 1023) / 1024 /\ (n mod 1024 <> 0 -> L !! Z.to_nat (n / 1024) = Some pt) /\
  free_pages (page_pools s) m /\ Z.of_nat (m + length L) = (ram_pages + 1023) / 1024 /\
  base_page_dir s = pd /\ forall q, taken (page_pools s0) q -> taken (page_pools s) q.

Lemma wp_init_loop s0 pd s (Q : unit -> pstate -> Prop) : 0 <= ram_pages <= 2 ^ 18 -> init_loop s0 pd 0 NULL s ->
  (forall s' pt, init_loop s0 pd ram_pages pt s' -> Q tt s') ->
  wp (iterate (S (Z.to_nat ram_pages)) (fun '(page, pt) =>
    if page <? ram_pages then
      vaddr ← ptov (u32 (page * PGSIZE));
      let pde := pd + 4 * pd_no vaddr in
      let in_kernel_text := (text_start <=? vaddr) && (vaddr <? text_end) in
      e ← load32 pde;
      pt ← (if e =? 0 then
              pt ← get_page (Z.lor PAL_ASSERT PAL_ZERO);
              x ← pde_create pt;
              store32 pde x;;
              ret pt
            else ret pt);
      x ← pte_create_kernel vaddr (negb in_kernel_text);
      store32 (pt + 4 * pt_no vaddr) x;;
      ret (inl (page + 1, pt))
    else ret (inr tt)) (0, NULL)) Q s.
Proof.
  intros Hram Hs HQ. eapply wp_iterate with (n := Z.to_nat ram_pages) (I := fun k '(n, pt) s => init_loop s0 pd n pt s /\ Z.of_nat k = ram_pages - n); [| |lia].
  2:{ split; [done|lia]. }
  intros k [n pt] s1 [(L & m & P & Hn & Hl & Hpt & Hfr & Hm & Hb & Hmono) Hk]. destruct (Z.ltb_spec n ram_pages) as [Hlt|Hge].
  2:{ assert (n = ram_pages) as -> by lia. apply wp_ret, (HQ _ pt). by exists L, m. }
  destruct (kernel_addr n ltac:(lia)) as (-> & Hf & Epd & Ept). apply wp_bind. eapply wp_eq.
  { replace (4096 * n) with (PHYS_BASE + 4096 * n - PHYS_BASE) by lia. by apply ptov_ok, frame_ok_range. }
  cbv zeta. rewrite Epd, Ept. change (_ && _) with (in_text n). apply wp_bind_assoc, wp_bind.
  eapply (wp_next_table s1 pd L n pt (pred m)); [done|lia|done|done| |].
  { intros E. destruct m as [|m]; [|done]. exfalso. Z.to_euclidean_division_equations; lia. }
  intros s2 L2 pt2 P2 Hl2 Hpt2 Hmono2 Hb2 Hfr2 Hsame. apply wp_bind. eapply wp_eq; [apply pte_create_kernel_ok; lia|].
  destruct (pg_table _ _ _ _ P2 _ _ Hpt2) as (t & Ht & _). destruct (proj2 (pg_memory _ _ _ _ P2) pt2) as [Hfp _].
  { apply taken_pool_page, (pg_taken _ _ _ _ P2). right. by eapply list_elem_of_lookup_2. }
  destruct (frame_pos pt2 Hfp) as (_ & _ & Ha). apply wp_bind. eapply wp_eq; [eapply store32_ok; [done|done|apply Z.mod_pos_bound; lia]|].
  apply wp_ret. exists (pred k). split; [lia|]. split; [|lia].
  destruct (decide (n mod 1024 = 0)) as [H0|H0].
  - exists L2, (pred m). split_and!; cbn [page_pools set_tables base_page_dir]; [apply paging_store; (done || lia)|lia|lia| | | | | |].
    + Z.to_euclidean_division_equations; lia.
    + intros H1. replace ((n + 1) / 1024) with (n / 1024); [done|]. Z.to_euclidean_division_equations; lia.
    + apply Hfr2. Z.to_euclidean_division_equations; lia.
    + assert (Z.of_nat (length L) = n / 1024) by (Z.to_euclidean_division_equations; lia). assert (m <> 0%nat) by (intros ->; Z.to_euclidean_division_equations; lia). lia.
    + congruence.
    + intros q Hq. by apply Hmono2, Hmono.
  - exists L2, m. assert (Ell : length L2 = length L) by (Z.to_euclidean_division_equations; lia).
    split_and!; cbn [page_pools set_tables base_page_dir]; [apply paging_store; (done || lia)|lia|lia| | | |lia|congruence|intros q Hq; by apply Hmono2, Hmono].
    + Z.to_euclidean_division_equations; lia.
    + intros H1. replace ((n + 1) / 1024) with (n / 1024); [done|]. Z.to_euclidean_division_equations; lia.
    + by rewrite Hsame.
Qed.

Definition tables_needed : nat := Z.to_nat ((ram_pages + 1023) / 1024).

(** What the processor finds in the tables of the kernel. *)
Lemma kernel_walk s pd L n : paging ram_pages s pd L -> 0 <= n < 2 ^ 18 ->
  exists a, walk (PHYS_BASE + 4096 * n) (set_cr3 (pd - PHYS_BASE) s) =
    Ok (if n <? ram_pages then Some (a, kernel_pte n) else None, set_cr3 (pd - PHYS_BASE) s).
Proof.
  intros P Hn. destruct (kernel_addr n Hn) as (_ & _ & Epd & Ept). destruct (pg_dir _ _ _ _ P) as (d & Hd & _ & Hdw).
  destruct (proj2 (pg_memory _ _ _ _ P) pd) as [Hfd _]; [apply taken_pool_page, (pg_taken _ _ _ _ P); by left|]. destruct (frame_pos pd Hfd) as (_ & _ & Ha).
  assert (Hi : 768 <= 768 + n / 1024 < 1024) by (Z.to_euclidean_division_equations; lia).
  unfold walk. rewrite Epd, Ept. unfold bind at 1, gets. cbn [cr3 set_cr3]. replace (PHYS_BASE + (pd - PHYS_BASE)) with pd by lia.
  unfold bind at 1. erewrite load32_ok; [|done|done|lia|apply Hdw; lia]. unfold dir_word. rewrite (proj2 (Z.leb_le _ _)) by lia.
  replace (768 + n / 1024 - 768) with (n / 1024) by lia. destruct (L !! Z.to_nat (n / 1024)) as [pt|] eqn:El; cbn [from_option].
  - destruct (pg_table _ _ _ _ P _ _ El) as (t & Ht & _ & Htw). destruct (proj2 (pg_memory _ _ _ _ P) pt) as [Hfp _].
    { apply taken_pool_page, (pg_taken _ _ _ _ P). right. by eapply list_elem_of_lookup_2. }
    destruct (pde_word_bits pt Hfp) as (_ & -> & ->). destruct (frame_pos pt Hfp) as (_ & _ & Hap). replace (PHYS_BASE + (pt - PHYS_BASE)) with pt by lia.
    exists (pt + 4 * (n mod 1024)). pose proof (Z.mod_pos_bound n 1024 ltac:(lia)) as Hm. unfold bind at 1. erewrite load32_ok; [|done|exact Ht|lia|by apply Htw].
    unfold kernel_word. rewrite Z2Nat.id by (apply Z.div_pos; lia). rewrite <- Z.div_mod by lia. destruct (n <? ram_pages); [|done].
    assert (Hp : (Z.land (kernel_pte n) PTE_P =? 0) = false) by (unfold kernel_pte; destruct (in_text n); by rewrite land_low). by rewrite Hp.
  - exists 0. cbn. rewrite (proj2 (Z.ltb_ge _ _)); [done|]. apply lookup_ge_None in El. pose proof (pg_cnt _ _ _ _ P). Z.to_euclidean_division_equations; lia.
Qed.

Lemma wp_paging_init s (Q : unit -> pstate -> Prop) : memory_ok (page_pools s) -> 0 <= ram_pages <= 2 ^ 18 -> free_pages (page_pools s) (S tables_needed) ->
  (forall s' pd L, paging ram_pages s' pd L -> base_page_dir s' = pd -> (forall q, taken (page_pools s) q -> taken (page_pools s') q) ->
     Q tt (set_cr3 (pd - PHYS_BASE) s')) -> wp paging_init Q s.
Proof.
  intros Hm Hram Hfree HQ. unfold paging_init. apply wp_bind. eapply wp_get_kernel_page; [done|done|]. intros pd ps' Hf Hnt Hm' Ht Hfr.
  apply wp_bind. red. cbn [modify]. apply wp_bind. apply (wp_init_loop s pd); [done| |].
  - exists [], tables_needed. split; [|split_and!; [lia|lia|done|done|done| |done|intros q Hq; apply Ht; by left]].
    + split; cbn [page_pools set_base_page_dir set_tables set_page_pools tables]; [done| |done|apply NoDup_singleton| |].
      * exists (replicate 1024 0). rewrite lookup_insert_eq. split_and!; [done|done|]. intros i Hi. rewrite lookup_replicate_2 by lia. f_equal. unfold dir_word. rewrite lookup_nil. by case_match.
      * intros p ->%list_elem_of_singleton. apply Ht. by right.
      * intros k pt Hk. by rewrite lookup_nil in Hk.
    + unfold tables_needed. rewrite Nat.add_0_r, Z2Nat.id; [done|]. apply Z.div_pos; lia.
  - intros s1 pt (L & m & P & _ & _ & _ & _ & _ & Hb & Hmono).
    apply wp_bind. eapply wp_eq; [apply vtop_ok, frame_ok_range, Hf|]. red. cbn [modify]. by eapply HQ.
Qed.
Lemma paging_started s pd L : paging ram_pages s pd L -> base_page_dir s = pd -> started (taken (page_pools s)) (set_cr3 (pd - PHYS_BASE) s).
Proof.
  intros P Hb. assert (Ht : taken (page_pools s) pd) by (apply (pg_taken _ _ _ _ P); by left).
  split; cbn [page_pools set_cr3 base_page_dir cr3 tlb]; [apply (pg_memory _ _ _ _ P)| |done|by rewrite Hb|done].
  unfold base_ok. cbn. rewrite Hb. split_and!; [done|apply (pg_memory _ _ _ _ P); by apply taken_pool_page|].
  destruct (pg_dir _ _ _ _ P) as (d & Hd & Hl & Hdw). exists d. split_and!; [done|done|]. intros i Hi. rewrite Hdw by lia. unfold dir_word. by rewrite (proj2 (Z.leb_gt _ _)) by lia.
Qed.
End Init.

(** C29: paging_init() leaves a base page directory that maps every page of
    memory, at PHYS_BASE and above, to itself for the kernel, writable unless it
    holds the kernel's text; no other page is mapped, in particular none of a
    user program, and the directory is active.  One page for the directory and
    one for every 1024 pages of memory are enough. *)
Theorem paging_init_correct {machine : Machine} s : memory_ok (page_pools s) -> 0 <= ram_pages <= 2 ^ 18 ->
  free_pages (page_pools s) (S tables_needed) ->
  wp paging_init (fun _ s' => started (taken (page_pools s')) s' /\ (forall q, taken (page_pools s) q -> taken (page_pools s') q) /\
    forall n, 0 <= n < 2 ^ 18 -> exists a, walk (PHYS_BASE + 4096 * n) s' = Ok (if n <? ram_pages then Some (a, kernel_pte n) else None, s')) s.
Proof.
  intros Hm Hram Hfree. apply wp_paging_init; [done|done|done|]. intros s' pd L P Hb Hmono.
  split_and!; [by apply (paging_started s' pd L)|done|intros n Hn; by eapply kernel_walk].
Qed.

(** ** A machine *)

(** 64 pages of memory, of which 20 from 0xc0010000 on are for the kernel and 8
    from 0xc0030000 on for user programs. *)
#[local] Instance small_machine : Machine := {| ram_pages := 64; text_start := 0xc0008000; text_end := 0xc000a000; junk_page _ := replicate 1024 0 |}.

Definition small_pools : pools := mk_pools (mk_pool 0xc0010000 (mk_bitmap 20 [0])) (mk_pool 0xc0030000 (mk_bitmap 8 [0])).
Definition small_boot : pstate := mk_pstate ∅ small_pools 0 0 ∅.

Lemma small_memory : memory_ok small_pools.
Proof.
  split; [decide_closed|]. intros p (u & i & Hp). pose proof (page_at_range small_pools u i p ltac:(decide_closed) Hp) as (H1 & H2 & H3 & H4). cbn in H1, H2.
  unfold frame_ok, PHYS_BASE, LOADER_PHYS_BASE. split; [lia|]. change (@ram_pages small_machine) with 64. apply Z.div_lt_upper_bound; lia.
Qed.

Lemma small_free : free_pages small_pools 2.
Proof.
  exists [0xc0010000; 0xc0011000]. split_and!; [done|decide_closed|]. intros p Hp. split.
  - rewrite !elem_of_cons, elem_of_nil in Hp. destruct Hp as [->|[->|[]]]; [exists 0|exists 1]; by split.
  - intros (u & i & [Hi _] & Hu). unfold used, bit in Hu. destruct u; cbn in Hi, Hu.
    + rewrite Z.div_small in Hu by lia. cbn in Hu. by rewrite Z.testbit_0_l in Hu.
    + rewrite Z.div_small in Hu by lia. cbn in Hu. by rewrite Z.testbit_0_l in Hu.
Qed.

Lemma paging_init_correct_witness : exists s', paging_init small_boot = Ok (tt, s') /\ started (taken (page_pools s')) s' /\
  exists a, walk 0xc0009000 s' = Ok (Some (a, 0x9001), s').
Proof.
  pose proof (paging_init_correct small_boot small_memory ltac:(cbn; lia) small_free) as H. destruct (proj1 (wp_ok _ _ _) H) as ([] & s' & E & Hs & _ & Hw).
  exists s'. split; [exact E|]. split; [exact Hs|]. exact (Hw 9 ltac:(lia)).
Defined.

Lemma small_started : exists s others, started others s.
Proof.
  assert (H : wp paging_init (fun _ s' => exists others, started others s') small_boot); [|destruct (proj1 (wp_ok _ _ _) H) as (_ & s' & _ & o & Ho); by exists s', o].
  apply wp_paging_init; [exact small_memory|cbn; lia|exact small_free|]. intros s' pd L P Hb _. exists (taken (page_pools s')). by apply (paging_started s' pd L).
Qed.

(** * Page directories: correctness

    An abstract machine has address spaces, pages that the program holds and an
    active address space.  [pspec] says what each function of
    userprog/pagedir.c and each access by a user program does to it;
    [pagedir_correct] shows that the directories, the tables, the pools and the
    processor with its cached translations implement it. *)

(** ** Specification *)

(** Calls of the interface, palloc_get_page() and palloc_free_page() for the
    frames of user pages, and accesses by a user program. *)
Inductive pcall : Set :=
  | Create | Destroy (pd : Z)
  | GetFrame (flags : Z) | FreeFrame (p : Z)
  | SetPage (pd upage kpage : Z) (w : bool) | GetPage (pd uaddr : Z) | ClearPage (pd upage : Z)
  | IsDirty (pd vpage : Z) | SetDirty (pd vpage : Z) (b : bool)
  | IsAccessed (pd vpage : Z) | SetAccessed (pd vpage : Z) (b : bool)
  | Activate (pd : Z)
  | Access (uaddr : Z) (wr : bool).

Inductive presult : Set := RUnit | RPtr (p : Z) | RBool (b : bool) | RAddr (a : option Z).

Definition user_addr (va : Z) : Prop := 0 <= va < PHYS_BASE.
Definition user_page (va : Z) : Prop := user_addr va /\ va mod 4096 = 0.
Definition vpn (va : Z) : Z := va / 4096.

(** The entry of a page of an address space. *)
Definition entry_of (S : spaces) (pd va : Z) : option entry := (dirs S !! pd) ≫= (fun sp => sp !! vpn va).
Definition is_dir (S : spaces) (pd : Z) : Prop := is_Some (dirs S !! pd).
Definition set_entry (S : spaces) (pd va : Z) (e : entry) : spaces :=
  mk_spaces (alter (fun sp => <[vpn va := e]> sp) pd (dirs S)) (held S) (active S).

Definition pvalid (S : spaces) (c : pcall) : Prop :=
  match c with
  | Create => True
  | Destroy pd => pd = NULL \/ (is_dir S pd /\ active S <> pd)
  | GetFrame flags => Z.land flags PAL_ASSERT = 0
  | FreeFrame p => p ∈ held S
  | SetPage pd up kp _ => is_dir S pd /\ user_page up /\ kp ∈ held S /\ (forall e, entry_of S pd up = Some e -> present e = false)
  | GetPage pd va | IsDirty pd va | IsAccessed pd va => is_dir S pd /\ user_addr va
  | ClearPage pd up => is_dir S pd /\ user_page up
  | SetDirty pd va b | SetAccessed pd va b => is_dir S pd /\ user_addr va /\ (b = true -> is_Some (entry_of S pd va))
  | Activate pd => pd = NULL \/ is_dir S pd
  | Access va _ => user_addr va
  end.

(** A page that is not part of the system yet. *)
Definition new_page (S : spaces) (p : Z) : Prop :=
  p <> NULL /\ (p ∉ held S) /\ dirs S !! p = None /\ forall pd sp v e, dirs S !! pd = Some sp -> sp !! v = Some e -> present e = true -> frame e <> p.

Inductive pspec (S : spaces) : pcall -> presult -> spaces -> Prop :=
  | SCreateFull : pspec S Create (RPtr NULL) S
  | SCreate pd : new_page S pd -> pspec S Create (RPtr pd) (mk_spaces (<[pd := ∅]> (dirs S)) (held S) (active S))
  | SDestroyNull : pspec S (Destroy NULL) RUnit S
  | SDestroy pd : pspec S (Destroy pd) RUnit (mk_spaces (delete pd (dirs S)) (held S) (active S))
  | SGetFull flags : pspec S (GetFrame flags) (RPtr NULL) S
  | SGet flags p : new_page S p -> pspec S (GetFrame flags) (RPtr p) (mk_spaces (dirs S) ({[p]} ∪ held S) (active S))
  | SFree p : pspec S (FreeFrame p) RUnit (mk_spaces (dirs S) (held S ∖ {[p]}) (active S))
  | SSetFull pd up kp w : entry_of S pd up = None -> pspec S (SetPage pd up kp w) (RBool false) S
  | SSet pd up kp w : pspec S (SetPage pd up kp w) (RBool true) (set_held_pages (held S ∖ {[kp]}) (set_entry S pd up (mk_entry kp true w false false)))
  | SGetPage pd va e : entry_of S pd va = Some e -> present e = true -> pspec S (GetPage pd va) (RPtr (frame e + va mod 4096)) S
  | SGetNone pd va : (forall e, entry_of S pd va = Some e -> present e = false) -> pspec S (GetPage pd va) (RPtr NULL) S
  | SClear pd up e : entry_of S pd up = Some e -> present e = true ->
      pspec S (ClearPage pd up) RUnit (set_held_pages ({[frame e]} ∪ held S) (set_entry S pd up (with_present e false)))
  | SClearNone pd up : (forall e, entry_of S pd up = Some e -> present e = false) -> pspec S (ClearPage pd up) RUnit S
  | SIsDirty pd va : pspec S (IsDirty pd va) (RBool (from_option dirty false (entry_of S pd va))) S
  | SSetDirty pd va b e : entry_of S pd va = Some e -> pspec S (SetDirty pd va b) RUnit (set_entry S pd va (with_dirty e b))
  | SSetDirtyNone pd va b : entry_of S pd va = None -> pspec S (SetDirty pd va b) RUnit S
  | SIsAccessed pd va : pspec S (IsAccessed pd va) (RBool (from_option accessed false (entry_of S pd va))) S
  | SSetAccessed pd va b e : entry_of S pd va = Some e -> pspec S (SetAccessed pd va b) RUnit (set_entry S pd va (with_accessed e b))
  | SSetAccessedNone pd va b : entry_of S pd va = None -> pspec S (SetAccessed pd va b) RUnit S
  | SActivate pd : pspec S (Activate pd) RUnit (mk_spaces (dirs S) (held S) pd)
  | SAccess va wr e : entry_of S (active S) va = Some e -> permits e wr = true ->
      pspec S (Access va wr) (RAddr (Some (frame e - PHYS_BASE + va mod 4096))) (set_entry S (active S) va (touched e wr))
  | SFault va wr : (forall e, entry_of S (active S) va = Some e -> permits e wr = false) -> pspec S (Access va wr) (RAddr None) S.

Section Correctness.
Context {machine : Machine} {others : Z -> Prop}.

Definition pperform (c : pcall) : M pstate presult :=
  match c with
  | Create => p ← pagedir_create; ret (RPtr p)
  | Destroy pd => pagedir_destroy pd;; ret RUnit
  | GetFrame flags => p ← get_page flags; ret (RPtr p)
  | FreeFrame p => free_page p;; ret RUnit
  | SetPage pd up kp w => b ← pagedir_set_page pd up kp w; ret (RBool b)
  | GetPage pd va => p ← pagedir_get_page pd va; ret (RPtr p)
  | ClearPage pd up => pagedir_clear_page pd up;; ret RUnit
  | IsDirty pd va => b ← pagedir_is_dirty pd va; ret (RBool b)
  | SetDirty pd va b => pagedir_set_dirty pd va b;; ret RUnit
  | IsAccessed pd va => b ← pagedir_is_accessed pd va; ret (RBool b)
  | SetAccessed pd va b => pagedir_set_accessed pd va b;; ret RUnit
  | Activate pd => pagedir_activate pd;; ret RUnit
  | Access va wr => a ← cpu_access va wr; ret (RAddr a)
  end.

(** The spaces that a state stands for. *)
Definition spaces_rep (s : pstate) (S : spaces) : Prop := exists O, pd_inv others s O S.

Definition outcome_ok (S : spaces) (c : pcall) (r : presult) (s' : pstate) : Prop := exists S', pspec S c r S' /\ spaces_rep s' S'.

Lemma set_entry_eq S pd sp va e : dirs S !! pd = Some sp ->
  set_entry S pd va e = mk_spaces (<[pd := <[va / 4096 := e]> sp]> (dirs S)) (held S) (active S).
Proof. intros Hsp. unfold set_entry. f_equal. apply map_eq. intros q. destruct (decide (q = pd)) as [->|]; [by rewrite lookup_alter_eq, lookup_insert_eq, Hsp|by rewrite lookup_alter_ne, lookup_insert_ne]. Qed.

Lemma entry_of_eq S pd sp va : dirs S !! pd = Some sp -> entry_of S pd va = sp !! (va / 4096).
Proof. intros Hsp. unfold entry_of. by rewrite Hsp. Qed.

Lemma fresh_new s O S p : pd_inv others s O S -> O !! p = None -> p <> NULL -> new_page S p.
Proof.
  intros [I _] HO Hn. split_and!; [done| | |].
  - intros Hh%(pb_held _ _ _ _ I). congruence.
  - apply eq_None_not_Some. intros H%(pb_dirs _ _ _ _ I). congruence.
  - intros pd sp v e Hsp He Hp Hf. assert (H : O !! p = Some (Frame pd v)) by (apply (pb_frame _ _ _ _ I); by exists sp, e). congruence.
Qed.

(** ** Simulation *)

Lemma sim_pagedir_create s S : spaces_rep s S -> wp (pperform Create) (outcome_ok S Create) s.
Proof.
  intros [O HI]. apply wp_bind. eapply wp_pagedir_create; [exact HI| |].
  - intros _. apply wp_ret. exists S. split; [constructor|by exists O].
  - intros p s' HO Hn HI'. apply wp_ret. eexists. split; [apply SCreate; by eapply fresh_new|by eexists].
Qed.

Lemma sim_destroy s S pd : spaces_rep s S -> pvalid S (Destroy pd) -> wp (pperform (Destroy pd)) (outcome_ok S (Destroy pd)) s.
Proof.
  intros [O [I T]] [->|[[sp Hsp] Ha]]; apply wp_bind.
  - apply wp_ret. apply wp_ret. exists S. split; [constructor|by exists O].
  - eapply wp_pagedir_destroy; [exact I|exact Hsp|exact T|exact Ha|]. intros s' HI'. apply wp_ret. eexists. split; [apply SDestroy|by eexists].
Qed.

Lemma sim_frames s S c : (exists f, c = GetFrame f) \/ (exists p, c = FreeFrame p) -> spaces_rep s S -> pvalid S c -> wp (pperform c) (outcome_ok S c) s.
Proof.
  intros [[f ->]|[p ->]] [O HI] Hv; apply wp_bind.
  - eapply wp_get_page; [exact HI|exact Hv| |].
    + intros _. apply wp_ret. exists S. split; [constructor|by exists O].
    + intros p s' HO _ Hn _ _ HI'. apply wp_ret. eexists. split; [apply SGet; by eapply fresh_new|by eexists].
  - eapply wp_free_held; [exact HI|exact Hv|]. intros s' HI' _ _. apply wp_ret. eexists. split; [apply SFree|by eexists].
Qed.

Lemma sim_set_page s S pd up kp w : spaces_rep s S -> pvalid S (SetPage pd up kp w) -> wp (pperform (SetPage pd up kp w)) (outcome_ok S (SetPage pd up kp w)) s.
Proof.
  intros [O HI] ([sp Hsp] & [Hu Hal] & Hk & Hnp). rewrite (entry_of_eq _ _ sp) in Hnp by done. apply wp_bind. eapply wp_pagedir_set_page; [exact HI|exact Hsp|exact Hal|exact Hu|exact Hk| | |].
  - unfold mapped_at. destruct (sp !! (up / 4096)) as [e|]; [by apply Hnp|done].
  - intros _ Hn. apply wp_ret. exists S. split; [apply SSetFull; by rewrite (entry_of_eq _ _ sp)|by exists O].
  - intros s' O' HI'. apply wp_ret. eexists. split; [apply SSet|]. exists O'. by rewrite (set_entry_eq _ _ sp).
Qed.

Lemma sim_get_page s S pd va : spaces_rep s S -> pvalid S (GetPage pd va) -> wp (pperform (GetPage pd va)) (outcome_ok S (GetPage pd va)) s.
Proof.
  intros [O [I T]] ([sp Hsp] & Hu). apply wp_bind. eapply wp_pagedir_get_page; [exact I|exact Hsp|exact Hu|]. apply wp_ret. exists S. split; [|by exists O].
  pose proof (entry_of_eq S pd sp va Hsp) as Ee. destruct (sp !! (va / 4096)) as [e|]; [destruct (present e) eqn:Ep|].
  - by apply SGetPage.
  - apply SGetNone. intros e' He'. congruence.
  - apply SGetNone. intros e' He'. congruence.
Qed.

Lemma sim_clear s S pd up : spaces_rep s S -> pvalid S (ClearPage pd up) -> wp (pperform (ClearPage pd up)) (outcome_ok S (ClearPage pd up)) s.
Proof.
  intros [O HI] ([sp Hsp] & Hu & Hal). pose proof (entry_of_eq S pd sp up Hsp) as Ee. apply wp_bind. eapply wp_pagedir_clear_page; [exact HI|exact Hsp|exact Hal|exact Hu| |].
  - intros Hm. apply wp_ret. exists S. split; [|by exists O]. apply SClearNone. intros e He. unfold mapped_at in Hm. rewrite Ee in He. by rewrite He in Hm.
  - intros e s' O' He Hp HI'. apply wp_ret. eexists. split; [apply (SClear _ _ _ e); [by rewrite Ee|done]|]. exists O'. by rewrite (set_entry_eq _ _ sp).
Qed.

Lemma sim_is_bit s S pd va c bit (f : entry -> bool) : spaces_rep s S -> is_dir S pd -> user_addr va ->
  (forall e, frame_ok (frame e) -> (Z.land (enc e) bit =? 0) = negb (f e)) -> pspec S c (RBool (from_option f false (entry_of S pd va))) S ->
  wp (b ← is_bit bit pd va; ret (RBool b)) (outcome_ok S c) s.
Proof.
  intros [O [I T]] [sp Hsp] Hu Hf Hs. apply wp_bind. eapply wp_is_bit; [exact I|exact Hsp|exact Hu|exact Hf|]. apply wp_ret. exists S. split; [|by exists O].
  by rewrite (entry_of_eq _ _ sp) in Hs.
Qed.

Lemma sim_set_bit s S pd va b c bit (f : entry -> entry) : spaces_rep s S -> is_dir S pd -> user_addr va -> (b = true -> is_Some (entry_of S pd va)) ->
  (forall e, frame_ok (frame e) -> (if b then Z.lor (enc e) bit else Z.land (enc e) (u32 (Z.lnot bit))) = enc (f e)) ->
  (forall e, frame (f e) = frame e /\ present (f e) = present e) ->
  (b = true -> forall e, writable (f e) = writable e /\ (accessed e = true -> accessed (f e) = true) /\ (dirty e = true -> dirty (f e) = true)) ->
  (entry_of S pd va = None -> pspec S c RUnit S) -> (forall e, entry_of S pd va = Some e -> pspec S c RUnit (set_entry S pd va (f e))) ->
  wp (set_bit bit pd va b;; ret RUnit) (outcome_ok S c) s.
Proof.
  intros [O HI] [sp Hsp] Hu Hb Hf Hk Hm H1 H2. rewrite (entry_of_eq _ _ sp) in * by done. apply wp_bind.
  eapply wp_set_bit; [exact HI|exact Hsp|exact Hu|exact Hf|exact Hk|exact Hm|exact Hb| |].
  - intros Hn s' HI'. apply wp_ret. exists S. split; [by apply H1|by exists O].
  - intros e s' He HI'. apply wp_ret. eexists. split; [by apply (H2 e)|]. exists O. by rewrite (set_entry_eq _ _ sp).
Qed.

Lemma sim_access s S va wr : spaces_rep s S -> user_addr va -> wp (pperform (Access va wr)) (outcome_ok S (Access va wr)) s.
Proof.
  intros [O HI] Hu. apply wp_bind. eapply wp_cpu_access; [exact HI|exact Hu|]. unfold access_post.
  assert (Hfault : (forall e, entry_of S (active S) va = Some e -> permits e wr = false) -> outcome_ok S (Access va wr) (RAddr None) s).
  { intros H. exists S. split; [by apply SFault|by exists O]. }
  destruct (active_entry S va) as [[sp e]|] eqn:Ea.
  - apply active_entry_lookup in Ea as [Hsp He]. pose proof (entry_of_eq S _ sp va Hsp) as Ee. destruct (permits e wr) eqn:Ep.
    + intros s' HI'. apply wp_ret. eexists. split; [apply (SAccess _ _ _ e); [by rewrite Ee|done]|]. exists O. by rewrite (set_entry_eq _ _ sp).
    + apply wp_ret, Hfault. intros e' He'. congruence.
  - apply wp_ret, Hfault. intros e' He'. unfold active_entry in Ea. unfold entry_of, vpn in He'. destruct (dirs S !! active S) as [sp|]; [|done]. cbn in He'. by rewrite He' in Ea.
Qed.

Lemma sim_pcall s S c : spaces_rep s S -> pvalid S c -> wp (pperform c) (outcome_ok S c) s.
Proof.
  intros HR Hv. destruct c.
  - by apply sim_pagedir_create.
  - by apply sim_destroy.
  - apply sim_frames; eauto.
  - apply sim_frames; eauto.
  - by apply sim_set_page.
  - by apply sim_get_page.
  - by apply sim_clear.
  - destruct Hv as [Hd Hu]. apply (sim_is_bit s S pd vpage _ PTE_D dirty); try done; [apply enc_D|constructor].
  - destruct Hv as (Hd & Hu & Hb). eapply (sim_set_bit s S pd vpage b _ PTE_D (fun e => with_dirty e b)); [done|done|done|done|destruct b; [apply enc_set_D|apply enc_clear_D]|done|intros -> e; cbn; auto|..].
    + intros Hn. by constructor.
    + intros e He. by apply SSetDirty.
  - destruct Hv as [Hd Hu]. apply (sim_is_bit s S pd vpage _ PTE_A accessed); try done; [apply enc_A|constructor].
  - destruct Hv as (Hd & Hu & Hb). eapply (sim_set_bit s S pd vpage b _ PTE_A (fun e => with_accessed e b)); [done|done|done|done|destruct b; [apply enc_set_A|apply enc_clear_A]|done|intros -> e; cbn; auto|..].
    + intros Hn. by constructor.
    + intros e He. by apply SSetAccessed.
  - destruct HR as [O [I T]]. apply wp_bind. eapply wp_pagedir_activate; [exact I|exact Hv|]. intros s' HI'. apply wp_ret. eexists. split; [apply SActivate|by exists O].
  - by apply sim_access.
Qed.

(** ** The start *)

Definition no_spaces : spaces := mk_spaces ∅ ∅ NULL.

Lemma started_rep s : started others s -> spaces_rep s no_spaces.
Proof.
  intros [Hm Hb Ht Hc Htlb]. exists ∅. split; [|intros v w; by rewrite Htlb, lookup_empty].
  split; cbn; try done; intros *; rewrite ?lookup_empty; try done.
  - rewrite Ht. split; [by left|]. intros [?|[? ?]]; done.
  - split; [done|]. by intros (? & ? & ? & _).
  - by left.
Qed.

(** No page is lost. *)
Lemma spaces_reclaimed s S p : spaces_rep s S -> dirs S = ∅ -> held S = ∅ -> taken (page_pools s) p <-> others p.
Proof.
  intros [O [I _]] Hd Hh. rewrite (pb_taken _ _ _ _ I). split; [|by left]. intros [?|[t Ht]]; [done|]. exfalso. destruct t as [|pd i|pd v|].
  - apply (pb_dirs _ _ _ _ I) in Ht as [? H]. rewrite Hd in H. by rewrite lookup_empty in H.
  - destruct (pb_table _ _ _ _ I _ _ _ Ht) as (_ & [? H] & _). rewrite Hd in H. by rewrite lookup_empty in H.
  - apply (pb_frame _ _ _ _ I) in Ht as (? & ? & H & _). rewrite Hd in H. by rewrite lookup_empty in H.
  - apply (pb_held _ _ _ _ I) in Ht. rewrite Hh in Ht. set_solver.
Qed.
End Correctness.

(** C4: The functions of pagedir.c implement address spaces: creating,
    destroying, mapping, unmapping, translating and marking pages do to the
    address spaces what their comments say, also when memory is short, and fail
    no assertion.  An access by a user program, which the processor may
    translate with entries that it has cached, always sees the active address
    space: the cached entries that a change makes stale are flushed.  Destroying
    an address space frees its frames, tables and directory, so that no page is
    lost. *)
Theorem pagedir_correct {machine : Machine} {others : Z -> Prop} :
  (forall s, started others s -> spaces_rep (others := others) s no_spaces) /\
  (forall s S c, spaces_rep (others := others) s S -> pvalid S c ->
     wp (pperform c) (fun r s' => exists S', pspec S c r S' /\ spaces_rep (others := others) s' S') s) /\
  (forall s S p, spaces_rep (others := others) s S -> dirs S = ∅ -> held S = ∅ -> taken (page_pools s) p <-> others p).
Proof. split_and!; [apply started_rep|intros; by apply sim_pcall|apply spaces_reclaimed]. Qed.

(** On the machine of the example, paging_init() and then a first page
    directory. *)
Lemma pagedir_correct_witness : exists s others, started (machine := small_machine) others s /\
  spaces_rep (machine := small_machine) (others := others) s no_spaces /\
  wp (pperform (machine := small_machine) Create) (fun r s' => exists S', pspec no_spaces Create r S' /\ spaces_rep (machine := small_machine) (others := others) s' S') s.
Proof.
  destruct small_started as (s & others & Hs). exists s, others. destruct (@pagedir_correct small_machine others) as (H1 & H2 & _).
  split; [exact Hs|]. split; [exact (H1 s Hs)|]. exact (H2 s no_spaces Create (H1 s Hs) I).
Defined.
