(* ===== verification/Random.v ===== *)
(** * lib/random.c: the pseudo-random number generator

    The generator's state and the memory that it writes to.  The bytes that a
    sequence of requests yields are those of one request, and the table is a
    permutation at all times. *)

From Stdlib Require Import ZArith Lia.
From stdpp Require Import base numbers gmap list.
From S2P Require Import Prelude Bytes.

Open Scope Z_scope.

(** ** The code *)

Record rstate := mk_rstate { sbox : list Z; s_i : Z; s_j : Z; inited : bool; buffer : bytes }.
Definition set_sbox l r := mk_rstate l (s_i r) (s_j r) (inited r) (buffer r).
Definition set_index i j r := mk_rstate (sbox r) i j (inited r) (buffer r).
Definition set_inited b r := mk_rstate (sbox r) (s_i r) (s_j r) b (buffer r).
Definition set_buffer b r := mk_rstate (sbox r) (s_i r) (s_j r) (inited r) b.

(** [s[i]]; out of range is an error. *)
Definition sget (i : Z) : M rstate Z := l ← gets sbox; of_option BadAccess (l !! Z.to_nat i).
Definition sset (i v : Z) : M rstate unit := sget i;; modify (fun r => set_sbox (<[Z.to_nat i := v]> (sbox r)) r).

(** swap_byte (s + a, s + b). *)
Definition swap_byte (a b : Z) : M rstate unit :=
  t ← sget a;
  u ← sget b;
  sset a u;;
  sset b t.

(** Byte [k] of a little-endian word. *)
Definition seed_byte (seed k : Z) : Z := Z.land (Z.shiftr seed (8 * k)) 255.

Definition random_init (seed : Z) : M rstate unit :=
  for_from 256 0 (fun i => sset i (u8 i));;
  iterate 257 (fun '(i, j) =>
    if i <? 256 then
      x ← sget i;
      let j := u8 (j + x + seed_byte seed (i mod 4)) in
      swap_byte i j;;
      ret (inl (i + 1, j))
    else ret (inr tt)) (0, 0);;
  modify (fun r => set_inited true (set_index 0 0 r)).

(** One round of random_bytes(): the next byte. *)
Definition next_byte : M rstate Z :=
  i ← gets s_i;
  j ← gets s_j;
  let i := u8 (i + 1) in
  x ← sget i;
  let j := u8 (j + x) in
  modify (set_index i j);;
  swap_byte i j;;
  x ← sget i;
  y ← sget j;
  sget (u8 (x + y)).

Definition random_bytes (buf size : Z) : M rstate unit :=
  ok ← gets inited;
  (if negb ok then random_init 0 else ret tt);;
  for_from (Z.to_nat size) 0 (fun k =>
    x ← next_byte;
    zoom buffer set_buffer (store8 (buf + k) x)).

(** The word that the four bytes at [buf], its local variable, make up. *)
Definition random_ulong (buf : Z) : M rstate Z :=
  random_bytes buf 4;;
  zoom buffer set_buffer (
    a ← load8 buf;
    b ← load8 (buf + 1);
    c ← load8 (buf + 2);
    d ← load8 (buf + 3);
    ret (a + 256 * b + 65536 * c + 16777216 * d)).

(** ** The reference *)

(** RC4: a permutation as a function, and two indices. *)
Record rc4 := mk_rc4 { perm : Z -> Z; ri : Z; rj : Z }.
Definition swapped (f : Z -> Z) (a b : Z) : Z -> Z := fun x => if x =? a then f b else if x =? b then f a else f x.

Definition rc4_next (r : rc4) : Z * rc4 :=
  let i := (ri r + 1) mod 256 in
  let j := (rj r + perm r i) mod 256 in
  let f := swapped (perm r) i j in
  (f ((f i + f j) mod 256), mk_rc4 f i j).

Fixpoint rc4_bytes (n : nat) (r : rc4) : list Z * rc4 :=
  match n with
  | O => ([], r)
  | S n => let '(x, r) := rc4_next r in let '(xs, r) := rc4_bytes n r in (x :: xs, r)
  end.

(** Key scheduling with the four bytes of the seed. *)
Fixpoint rc4_schedule (n : nat) (seed : Z) (i : Z) (f : Z -> Z) (j : Z) : Z -> Z :=
  match n with
  | O => f
  | S n => let j := (j + f i + (seed / 256 ^ (i mod 4)) mod 256) mod 256 in rc4_schedule n seed (i + 1) (swapped f i j) j
  end.
Definition rc4_init (seed : Z) : rc4 := mk_rc4 (rc4_schedule 256 seed 0 (fun x => x) 0) 0 0.

(** ** Correctness *)

Definition byte (x : Z) : Prop := 0 <= x < 256.

(** A permutation of the bytes. *)
Definition is_perm (f : Z -> Z) : Prop :=
  (forall x, byte x -> byte (f x)) /\ forall x y, byte x -> byte y -> f x = f y -> x = y.

Definition table_is (l : list Z) (f : Z -> Z) : Prop :=
  length l = 256%nat /\ forall x, byte x -> l !! Z.to_nat x = Some (f x).

(** The state of the generator is that of the reference. *)
Record generator (r : rstate) (c : rc4) : Prop := {
  g_table : table_is (sbox r) (perm c);
  g_perm : is_perm (perm c);
  g_i : s_i r = ri c /\ byte (ri c);
  g_j : s_j r = rj c /\ byte (rj c) }.

Lemma u8_byte x : byte (u8 x).
Proof. apply (uwrap_range 8 x). lia. Qed.

Lemma swapped_is_perm f a b : is_perm f -> byte a -> byte b -> is_perm (swapped f a b).
Proof.
  intros [H1 H2] Ha Hb. split.
  - intros x Hx. unfold swapped. repeat case_match; auto.
  - intros x y Hx Hy. unfold swapped.
    destruct (Z.eqb_spec x a), (Z.eqb_spec y a), (Z.eqb_spec x b), (Z.eqb_spec y b); intros E; try apply H2 in E; try done; subst; lia || done.
Qed.

Lemma wp_sget r f x (Q : Z -> rstate -> Prop) : table_is (sbox r) f -> byte x -> Q (f x) r -> wp (sget x) Q r.
Proof. intros [_ Ht] Hx HQ. unfold sget. apply wp_bind. red. cbn [gets]. by rewrite Ht. Qed.

Lemma wp_sset r f x v (Q : unit -> rstate -> Prop) : table_is (sbox r) f -> byte x ->
  (forall l, table_is l (fun y => if y =? x then v else f y) -> Q tt (set_sbox l r)) -> wp (sset x v) Q r.
Proof.
  intros Ht Hx HQ. unfold sset. apply wp_bind. eapply wp_sget; [done|done|]. red. cbn [modify]. apply HQ. destruct Ht as [Hl Ht].
  unfold byte in *. split; [by rewrite length_insert|]. intros y Hy. unfold byte in Hy. destruct (Z.eqb_spec y x) as [->|Hne].
  - apply list_lookup_insert_eq. lia.
  - rewrite list_lookup_insert_ne by lia. by apply Ht.
Qed.

Lemma table_is_ext l f g : table_is l f -> (forall x, byte x -> f x = g x) -> table_is l g.
Proof. intros [Hl Ht] H. split; [done|]. intros x Hx. by rewrite Ht, H. Qed.

Lemma wp_swap_byte r f a b (Q : unit -> rstate -> Prop) : table_is (sbox r) f -> byte a -> byte b ->
  (forall l, table_is l (swapped f a b) -> Q tt (set_sbox l r)) -> wp (swap_byte a b) Q r.
Proof.
  intros Ht Ha Hb HQ. unfold swap_byte. apply wp_bind. eapply wp_sget; [done|done|]. apply wp_bind. eapply wp_sget; [done|done|].
  apply wp_bind. eapply wp_sset; [done|done|]. intros l Hl. eapply wp_sset; [exact Hl|done|]. intros l' Hl'. cbn in Hl'.
  apply (HQ l'). eapply table_is_ext; [exact Hl'|]. intros x Hx. cbn. unfold swapped. destruct (Z.eqb_spec x a), (Z.eqb_spec x b); congruence.
Qed.

(** ** Initialisation *)

Lemma seed_byte_div seed k : 0 <= k -> seed_byte seed k = (seed / 256 ^ k) mod 256.
Proof.
  intros Hk. unfold seed_byte. change 255 with (Z.ones 8). rewrite Z.land_ones, Z.shiftr_div_pow2 by lia. rewrite Z.pow_mul_r by lia. done.
Qed.

(** The table before the shuffle. *)
Lemma wp_identity r (Q : unit -> rstate -> Prop) : length (sbox r) = 256%nat ->
  (forall l, table_is l (fun x => x) -> Q tt (set_sbox l r)) -> wp (for_from 256 0 (fun i => sset i (u8 i))) Q r.
Proof.
  intros Hl HQ. eapply wp_mono.
  { apply (wp_for_from (fun i t => exists l, t = set_sbox l r /\ length l = 256%nat /\ forall x, 0 <= x < i -> l !! Z.to_nat x = Some x)).
    - exists (sbox r). split_and!; [by destruct r|done|lia].
    - intros i t Hi (l & -> & Hll & Hx). destruct (lookup_lt_is_Some_2 l (Z.to_nat i)) as [y Hy]; [lia|].
      unfold sset, sget. apply wp_bind. apply wp_bind. red. cbn [gets sbox set_sbox]. rewrite Hy. red. cbn [of_option ret]. red. cbn [modify].
      exists (<[Z.to_nat i := u8 i]> l). split_and!; [done|by rewrite length_insert|]. intros x Hxi. rewrite uwrap_small by (unfold in_u; lia).
      destruct (decide (x = i)) as [->|]; [apply list_lookup_insert_eq; lia|]. rewrite list_lookup_insert_ne by lia. apply Hx. lia. }
  intros [] t (l & -> & Hll & Hx). apply HQ. split; [done|]. intros x Hxb. apply Hx. unfold byte in Hxb. lia.
Qed.

Lemma rc4_schedule_S n seed i f j : rc4_schedule (S n) seed i f j =
  let j := (j + f i + (seed / 256 ^ (i mod 4)) mod 256) mod 256 in rc4_schedule n seed (i + 1) (swapped f i j) j.
Proof. reflexivity. Qed.

Lemma wp_shuffle r l0 seed F (Q : unit -> rstate -> Prop) : table_is l0 (fun x => x) -> F = rc4_schedule 256 seed 0 (fun x => x) 0 ->
  (forall l, table_is l F -> is_perm F -> Q tt (set_sbox l r)) ->
  wp (iterate 257 (fun '(i, j) =>
    if i <? 256 then
      x ← sget i;
      let j := u8 (j + x + seed_byte seed (i mod 4)) in
      swap_byte i j;;
      ret (inl (i + 1, j))
    else ret (inr tt)) (0, 0)) Q (set_sbox l0 r).
Proof.
  intros Hl0 HF HQ. eapply wp_iterate with (n := 256%nat) (I := fun n '(i, j) t => exists l f, t = set_sbox l r /\ table_is l f /\ is_perm f /\
    i = 256 - Z.of_nat n /\ (n <= 256)%nat /\ byte j /\ F = rc4_schedule n seed i f j); [| |lia].
  2:{ exists l0, (fun x => x). split_and!; [reflexivity|exact Hl0|split; auto|lia|lia|unfold byte; lia|exact HF]. }
  clear HF. intros n [i j] t (l & f & -> & Ht & Hp & Ei & Hn & Hj & Es). destruct (Z.ltb_spec i 256) as [Hi|Hi].
  - destruct n as [|n]; [lia|]. rewrite rc4_schedule_S in Es. cbv zeta in Es. assert (Hib : byte i) by (unfold byte; lia).
    apply wp_bind. eapply wp_sget; [exact Ht|exact Hib|]. cbv zeta. rewrite seed_byte_div by (apply Z.mod_pos_bound; lia).
    change (u8 (j + f i + (seed / 256 ^ (i mod 4)) mod 256)) with ((j + f i + (seed / 256 ^ (i mod 4)) mod 256) mod 256). set (j' := (j + f i + _) mod 256) in *.
    assert (Hj' : byte j') by (apply Z.mod_pos_bound; lia). apply wp_bind. eapply wp_swap_byte; [exact Ht|exact Hib|exact Hj'|]. intros l' Hl'. apply wp_ret.
    exists n. split; [lia|]. exists l', (swapped f i j'). split_and!; [reflexivity|exact Hl'|by apply swapped_is_perm|lia|lia|exact Hj'|exact Es].
  - apply wp_ret. assert (n = 0%nat) as -> by lia. change (rc4_schedule 0 seed i f j) with f in Es. subst F. by apply HQ.
Qed.

Lemma wp_random_init r seed (Q : unit -> rstate -> Prop) : length (sbox r) = 256%nat ->
  (forall t, generator t (rc4_init seed) -> inited t = true -> buffer t = buffer r -> Q tt t) -> wp (random_init seed) Q r.
Proof.
  intros Hl HQ. unfold random_init. apply wp_bind. apply wp_identity; [exact Hl|]. intros l0 Hl0. apply wp_bind.
  unfold rc4_init in HQ. remember (rc4_schedule 256 seed 0 (fun x => x) 0) as F eqn:HF. eapply wp_shuffle; [exact Hl0|exact HF|].
  intros l Ht Hp. red. cbn [modify]. apply HQ; [|reflexivity|reflexivity].
  split; cbn [sbox s_i s_j set_inited set_index set_sbox perm ri rj]; [exact Ht|exact Hp|split; [reflexivity|unfold byte; lia]..].
Qed.

(** ** Bytes *)

Lemma wp_next_byte r c (Q : Z -> rstate -> Prop) : generator r c ->
  (forall t, generator t (rc4_next c).2 -> inited t = inited r -> buffer t = buffer r -> Q (rc4_next c).1 t) -> wp next_byte Q r.
Proof.
  intros [Ht Hp [Ei Hi] [Ej Hj]] HQ. unfold next_byte. apply wp_bind. red. cbn [gets]. apply wp_bind. red. cbn [gets]. rewrite Ei, Ej.
  change (u8 (ri c + 1)) with ((ri c + 1) mod 256). set (i := (ri c + 1) mod 256). assert (Hib : byte i) by (apply Z.mod_pos_bound; lia).
  apply wp_bind. eapply wp_sget; [exact Ht|done|]. change (u8 (rj c + perm c i)) with ((rj c + perm c i) mod 256). set (j := (rj c + perm c i) mod 256).
  assert (Hjb : byte j) by (apply Z.mod_pos_bound; lia). apply wp_bind. red. cbn [modify]. apply wp_bind. eapply wp_swap_byte; [exact Ht|done|done|]. intros l Hl.
  apply wp_bind. eapply wp_sget; [exact Hl|done|]. apply wp_bind. eapply wp_sget; [exact Hl|done|].
  eapply wp_sget; [exact Hl|apply u8_byte|]. apply (HQ (set_sbox l (set_index i j r))); [|done|done].
  split; [exact Hl|by apply (swapped_is_perm (perm c) i j)|split; [done|exact Hib]|split; [done|exact Hjb]].
Qed.

Lemma rc4_bytes_S n c : rc4_bytes (S n) c = ((rc4_next c).1 :: (rc4_bytes n (rc4_next c).2).1, (rc4_bytes n (rc4_next c).2).2).
Proof. cbn [rc4_bytes]. destruct (rc4_next c) as [x c']. cbn [fst snd]. by destruct (rc4_bytes n c'). Qed.

Lemma rc4_next_byte c : is_perm (perm c) -> byte (rc4_next c).1.
Proof.
  intros Hp. unfold rc4_next. cbn [fst]. set (i := (ri c + 1) mod 256). set (j := (rj c + perm c i) mod 256).
  apply (swapped_is_perm (perm c) i j Hp); apply Z.mod_pos_bound; lia.
Qed.

Lemma wp_random_loop n : forall r c buf k (Q : unit -> rstate -> Prop), generator r c -> mapped (buffer r) (buf + k) n ->
  (forall t, generator t (rc4_bytes n c).2 -> inited t = inited r -> buffer t = write (buffer r) (buf + k) (rc4_bytes n c).1 -> Q tt t) ->
  wp (for_from n k (fun k => x ← next_byte; zoom buffer set_buffer (store8 (buf + k) x))) Q r.
Proof.
  induction n as [|n IH]; intros r c buf k Q G Hm HQ; cbn [for_from]; [by apply wp_ret, HQ|]. rewrite rc4_bytes_S in HQ. cbn [fst snd write] in HQ.
  apply wp_bind. apply wp_bind. eapply wp_next_byte; [exact G|]. intros t Gt Et Eb. apply wp_zoom, wp_store8.
  { rewrite Eb. rewrite <- (Z.add_0_r (buf + k)). apply Hm. lia. }
  apply (IH _ (rc4_next c).2).
  - destruct Gt. by split.
  - cbn [buffer set_buffer]. intros i Hi. rewrite Eb. replace (buf + (k + 1) + i) with (buf + k + (i + 1)) by lia. rewrite lookup_insert_ne by lia. apply Hm. lia.
  - intros t' Gt' Et' Eb'. apply HQ; [done|by rewrite Et'|]. rewrite Eb'. cbn [buffer set_buffer]. rewrite Eb, uwrap_small by (apply rc4_next_byte, G).
    replace (buf + (k + 1)) with (buf + k + 1) by lia. apply map_eq. intros a. rewrite lookup_write. destruct (decide (a = buf + k)) as [->|Hne].
    + rewrite decide_False by lia. by rewrite !lookup_insert_eq.
    + rewrite !lookup_insert_ne by done. by rewrite lookup_write.
Qed.

Lemma rc4_bytes_app n m c : rc4_bytes (n + m) c = ((rc4_bytes n c).1 ++ (rc4_bytes m (rc4_bytes n c).2).1, (rc4_bytes m (rc4_bytes n c).2).2).
Proof.
  revert c. induction n as [|n IH]; intros c; [cbn; by destruct (rc4_bytes m c)|]. cbn [Nat.add]. rewrite !rc4_bytes_S, IH. done.
Qed.

(** The generator, whether it has been seeded or not. *)
Definition seeded (r : rstate) (c : rc4) : Prop :=
  if inited r then generator r c else length (sbox r) = 256%nat /\ c = rc4_init 0.

(** random_init() seeds an RC4 generator, of which random_bytes() stores the
    next bytes in the buffer and nowhere else; without a seed it is seeded with
    0.  The table is a permutation of the bytes at all times, and two requests
    yield the bytes of one. *)
Theorem random_correct :
  (forall r seed, length (sbox r) = 256%nat ->
     wp (random_init seed) (fun _ t => seeded t (rc4_init seed) /\ inited t = true /\ buffer t = buffer r) r) /\
  (forall r c buf n, seeded r c -> mapped (buffer r) buf n ->
     wp (random_bytes buf (Z.of_nat n)) (fun _ t => seeded t (rc4_bytes n c).2 /\ is_perm (perm (rc4_bytes n c).2) /\
       buffer t = write (buffer r) buf (rc4_bytes n c).1) r) /\
  (forall n m c, (rc4_bytes (n + m) c).1 = (rc4_bytes n c).1 ++ (rc4_bytes m (rc4_bytes n c).2).1).
Proof.
  split_and!.
  - intros r seed Hl. apply wp_random_init; [done|]. intros t G Ei Eb. unfold seeded. by rewrite Ei.
  - intros r c buf n Hs Hm. unfold random_bytes. apply wp_bind. red. cbn [gets]. rewrite Nat2Z.id. rewrite <- (Z.add_0_r buf) in Hm.
    assert (Hloop : forall t, generator t c -> inited t = true -> buffer t = buffer r ->
      wp (for_from n 0 (fun k => x ← next_byte; zoom buffer set_buffer (store8 (buf + k) x)))
        (fun _ t => seeded t (rc4_bytes n c).2 /\ is_perm (perm (rc4_bytes n c).2) /\ buffer t = write (buffer r) buf (rc4_bytes n c).1) t).
    { intros t G Ei Eb. eapply wp_random_loop; [exact G|by rewrite Eb|]. intros t' G' Ei' Eb'. unfold seeded. rewrite Ei', Ei, Eb', Eb, Z.add_0_r.
      split_and!; [done|apply G'|done]. }
    unfold seeded in Hs. apply wp_bind. destruct (inited r) eqn:Er; cbn [negb].
    + apply wp_ret. by apply Hloop.
    + destruct Hs as [Hl ->]. apply wp_random_init; [exact Hl|]. intros t G Ei Eb. exact (Hloop t G Ei Eb).
  - intros n m c. by rewrite rc4_bytes_app.
Qed.

(** A generator that has not been seeded, and a buffer of 4 bytes. *)
Definition blank : rstate := mk_rstate (replicate 256 0) 0 0 false (write ∅ 1000 [0; 0; 0; 0]).

Lemma random_correct_witness : wp (random_bytes 1000 (Z.of_nat 4)) (fun _ t => buffer t = write (buffer blank) 1000 (rc4_bytes 4 (rc4_init 0)).1) blank.
Proof.
  destruct random_correct as (_ & H & _). eapply wp_mono; [apply (H blank (rc4_init 0) 1000 4%nat)|].
  - split; reflexivity.
  - apply (block_mapped _ _ [0; 0; 0; 0]), block_write.
  - intros [] t (_ & _ & E). exact E.
Defined.
