(* ===== verification/Gdt.v ===== *)
(** * userprog/gdt.c and userprog/tss.c: segments and the task-state segment

    The global descriptor table, the page that holds the task-state segment and
    the registers that refer to them.  [field] reads a descriptor the way the
    processor does. *)

From Stdlib Require Import ZArith Lia.
From stdpp Require Import base numbers gmap list.
From S2P Require Import Prelude Bitmap Vaddr Palloc PageDir PageDirSpec PageDirOps PageDirProps.

Open Scope Z_scope.

(** ** The code *)

(** threads/loader.h and userprog/gdt.h. *)
Definition SEL_NULL : Z := 0x00.
Definition SEL_KCSEG : Z := 0x08.
Definition SEL_KDSEG : Z := 0x10.
Definition SEL_UCSEG : Z := 0x1B.
Definition SEL_UDSEG : Z := 0x23.
Definition SEL_TSS : Z := 0x28.
Definition SEL_CNT : Z := 6.

Definition CLS_SYSTEM : Z := 0.
Definition CLS_CODE_DATA : Z := 1.
Definition GRAN_BYTE : Z := 0.
Definition GRAN_PAGE : Z := 1.

(** The table, the registers GDTR and TR, the pointer to the TSS and the words of
    its page, the running thread, and the other pages. *)
Record cpu := mk_cpu { gdt : list Z; gdtr : Z; tr : Z; tss : Z; tss_words : list Z; running : Z; vm : pstate }.
Definition set_gdt g s := mk_cpu g (gdtr s) (tr s) (tss s) (tss_words s) (running s) (vm s).
Definition set_gdtr g s := mk_cpu (gdt s) g (tr s) (tss s) (tss_words s) (running s) (vm s).
Definition set_tr t s := mk_cpu (gdt s) (gdtr s) t (tss s) (tss_words s) (running s) (vm s).
Definition set_tss p w s := mk_cpu (gdt s) (gdtr s) (tr s) p w (running s) (vm s).
Definition set_vm v s := mk_cpu (gdt s) (gdtr s) (tr s) (tss s) (tss_words s) (running s) v.

Definition make_seg_desc {S} (base limit class type dpl granularity : Z) : M S Z :=
  ASSERT (limit <=? 0xfffff);;
  ASSERT ((class =? CLS_SYSTEM) || (class =? CLS_CODE_DATA));;
  ASSERT ((0 <=? type) && (type <=? 15));;
  ASSERT ((0 <=? dpl) && (dpl <=? 3));;
  ASSERT ((granularity =? GRAN_BYTE) || (granularity =? GRAN_PAGE));;
  let e0 := Z.lor (Z.land limit 0xffff) (u32 (Z.shiftl base 16)) in
  let e1 := Z.lor (Z.lor (Z.lor (Z.lor (Z.lor (Z.lor (Z.lor (Z.lor
              (Z.land (Z.shiftr base 16) 0xff)
              (Z.shiftl type 8))
              (Z.shiftl class 12))
              (Z.shiftl dpl 13))
              (Z.shiftl 1 15))
              (Z.land limit 0xf0000))
              (Z.shiftl 1 22))
              (u32 (Z.shiftl granularity 23)))
              (Z.land base 0xff000000) in
  ret (Z.lor e0 (u64 (Z.shiftl e1 32))).

Definition make_code_desc {S} (dpl : Z) : M S Z := make_seg_desc 0 0xfffff CLS_CODE_DATA 10 dpl GRAN_PAGE.
Definition make_data_desc {S} (dpl : Z) : M S Z := make_seg_desc 0 0xfffff CLS_CODE_DATA 2 dpl GRAN_PAGE.
Definition make_tss_desc {S} (laddr : Z) : M S Z := make_seg_desc laddr 0x67 CLS_SYSTEM 9 0 GRAN_BYTE.
Definition make_gdtr_operand (limit base : Z) : Z := Z.lor limit (Z.shiftl base 16).

(** The members of struct tss that are used, by their offset. *)
Definition tss_esp0 : Z := 4.
Definition tss_ss0 : Z := 8.
Definition tss_bitmap : Z := 102.

(** Members of 32 and of 16 bits at an offset of the structure. *)
Definition tss_load32 (ofs : Z) : M cpu Z := w ← gets tss_words; of_option BadAccess (w !! Z.to_nat (ofs / 4)).
Definition tss_store32 (ofs v : Z) : M cpu unit :=
  tss_load32 ofs;;
  modify (fun s => set_tss (tss s) (<[Z.to_nat (ofs / 4) := v]> (tss_words s)) s).
Definition tss_store16 (ofs v : Z) : M cpu unit :=
  w ← tss_load32 ofs;
  tss_store32 ofs (if ofs mod 4 =? 0 then Z.lor (Z.land w 0xffff0000) v else Z.lor (Z.land w 0xffff) (Z.shiftl v 16)).

Section Segments.
Context {machine : Machine} (gdt_addr : Z).

Definition on_vm {A} (m : M pstate A) : M cpu A := zoom vm set_vm m.

Definition tss_get : M cpu Z :=
  t ← gets tss;
  ASSERT (negb (t =? NULL));;
  ret t.

Definition tss_update : M cpu unit :=
  t ← gets tss;
  ASSERT (negb (t =? NULL));;
  cur ← gets running;
  tss_store32 tss_esp0 (u32 (cur + PGSIZE)).

Definition tss_init : M cpu unit :=
  p ← on_vm (get_page (Z.lor PAL_ASSERT PAL_ZERO));
  modify (set_tss p (replicate 1024 0));;
  tss_store16 tss_ss0 SEL_KDSEG;;
  tss_store16 tss_bitmap 0xdfff;;
  tss_update.

(** gdt[i] = d; out of range is an error. *)
Definition gdt_store (sel d : Z) : M cpu unit :=
  g ← gets gdt;
  of_option BadAccess (g !! Z.to_nat (sel / 8));;
  modify (set_gdt (<[Z.to_nat (sel / 8) := d]> g)).

Definition gdt_init : M cpu unit :=
  gdt_store SEL_NULL 0;;
  d ← make_code_desc 0; gdt_store SEL_KCSEG d;;
  d ← make_data_desc 0; gdt_store SEL_KDSEG d;;
  d ← make_code_desc 3; gdt_store SEL_UCSEG d;;
  d ← make_data_desc 3; gdt_store SEL_UDSEG d;;
  t ← tss_get; d ← make_tss_desc t; gdt_store SEL_TSS d;;
  modify (set_gdtr (make_gdtr_operand (8 * SEL_CNT - 1) gdt_addr));;
  modify (set_tr SEL_TSS).
End Segments.

(** ** What the processor reads *)

(** [n] bits of [d] from bit [lo] on. *)
Definition field (d lo n : Z) : Z := d / 2 ^ lo mod 2 ^ n.

Record segment := mk_segment {
  seg_base : Z; seg_limit : Z; seg_class : Z; seg_type : Z; seg_dpl : Z; seg_present : Z; seg_32bit : Z; seg_gran : Z }.

Definition decode_desc (d : Z) : segment := mk_segment
  (field d 16 24 + 2 ^ 24 * field d 56 8) (field d 0 16 + 2 ^ 16 * field d 48 4)
  (field d 44 1) (field d 40 4) (field d 45 2) (field d 47 1) (field d 54 1) (field d 55 1).

(** The last byte of a segment. *)
Definition seg_last (g : segment) : Z :=
  seg_base g + if seg_gran g =? GRAN_PAGE then 4096 * seg_limit g + 4095 else seg_limit g.

(** ** Descriptors *)

Lemma lor_shift a b n : 0 <= n -> 0 <= a < 2 ^ n -> Z.lor a (Z.shiftl b n) = a + b * 2 ^ n.
Proof.
  intros Hn Ha. rewrite <- (Z.shiftl_mul_pow2 b n) by done.
  assert (E : Z.land a (Z.shiftl b n) = 0); [|pose proof (Z.add_lor_land a (Z.shiftl b n)); lia].
  apply Z.bits_inj'. intros k Hk. rewrite Z.bits_0, Z.land_spec. destruct (Z.lt_ge_cases k n) as [Hlt|Hge].
  - by rewrite Z.shiftl_spec_low, andb_false_r by lia.
  - rewrite <- (Z.mod_small a (2 ^ n)) by done. by rewrite Z.mod_pow2_bits_high by lia.
Qed.

Lemma field_part d lo n r v h : 0 <= lo -> 0 <= n -> d = r + 2 ^ lo * (v + 2 ^ n * h) -> 0 <= r < 2 ^ lo -> 0 <= v < 2 ^ n -> field d lo n = v.
Proof.
  intros Hlo Hn -> Hr Hv. unfold field. rewrite (Z.mul_comm (2 ^ lo)), Z.div_add, Z.div_small by lia. rewrite (Z.mul_comm (2 ^ n)), Z.add_0_l.
  rewrite Z.mod_add by lia. by apply Z.mod_small.
Qed.

Lemma land_top x n k : 0 <= n -> 0 <= k -> 0 <= x < 2 ^ (n + k) -> Z.land x (Z.shiftl (Z.ones k) n) = Z.shiftl (x / 2 ^ n) n.
Proof.
  intros Hn Hk Hx. rewrite <- Z.shiftr_div_pow2 by done. apply Z.bits_inj'. intros i Hi. rewrite Z.land_spec. destruct (Z.lt_ge_cases i n) as [Hlt|Hge].
  - by rewrite !Z.shiftl_spec_low, andb_false_r by lia.
  - rewrite !Z.shiftl_spec, Z.shiftr_spec by lia. replace (i - n + n) with i by lia. destruct (Z.lt_ge_cases (i - n) k) as [Hlt|Hge'].
    + by rewrite Z.ones_spec_low, andb_true_r by lia.
    + rewrite Z.ones_spec_high, andb_false_r by lia. rewrite <- (Z.mod_small x (2 ^ (n + k))) by done. by rewrite Z.mod_pow2_bits_high by lia.
Qed.

Lemma uwrap_shift w x n : 0 <= n <= w -> uwrap w (Z.shiftl x n) = Z.shiftl (x mod 2 ^ (w - n)) n.
Proof.
  intros Hn. unfold uwrap. rewrite !Z.shiftl_mul_pow2 by lia. replace w with (w - n + n) at 1 by lia.
  rewrite Z.pow_add_r by lia. rewrite Z.mul_mod_distr_r; [done|..]; apply Z.pow_nonzero; lia.
Qed.

(** The value of a descriptor. *)
Lemma seg_desc_value {S} base limit class type dpl gran (s : S) : in_u 32 base -> 0 <= limit <= 0xfffff -> 0 <= class <= 1 -> 0 <= type <= 15 -> 0 <= dpl <= 3 -> 0 <= gran <= 1 ->
  make_seg_desc base limit class type dpl gran s =
  Ok (limit mod 2 ^ 16 + base mod 2 ^ 16 * 2 ^ 16 + (base / 2 ^ 16 mod 2 ^ 8 + type * 2 ^ 8 + class * 2 ^ 12 + dpl * 2 ^ 13 + 1 * 2 ^ 15 +
      limit / 2 ^ 16 * 2 ^ 16 + 1 * 2 ^ 22 + gran * 2 ^ 23 + base / 2 ^ 24 * 2 ^ 24) * 2 ^ 32, s).
Proof.
  unfold in_u. intros Hb Hl Hc Ht Hd Hg.
  unfold make_seg_desc, bind. rewrite (proj2 (Z.leb_le limit 0xfffff)) by lia.
  replace ((class =? CLS_SYSTEM) || (class =? CLS_CODE_DATA)) with true by (unfold CLS_SYSTEM, CLS_CODE_DATA; lia).
  replace ((0 <=? type) && (type <=? 15)) with true by lia. replace ((0 <=? dpl) && (dpl <=? 3)) with true by lia.
  replace ((gran =? GRAN_BYTE) || (gran =? GRAN_PAGE)) with true by (unfold GRAN_BYTE, GRAN_PAGE; lia).
  cbn [assertb]. unfold ret. do 2 f_equal.
  assert (B0 : 0 <= limit mod 2 ^ 16 < 2 ^ 16) by (by apply Z.mod_pos_bound). assert (B1 : 0 <= base mod 2 ^ 16 < 2 ^ 16) by (by apply Z.mod_pos_bound).
  assert (B2 : 0 <= base / 2 ^ 16 mod 2 ^ 8 < 2 ^ 8) by (by apply Z.mod_pos_bound).
  assert (B3 : 0 <= limit / 2 ^ 16 < 2 ^ 4) by (Z.to_euclidean_division_equations; lia). assert (B4 : 0 <= base / 2 ^ 24 < 2 ^ 8) by (Z.to_euclidean_division_equations; lia).
  change 0xffff with (Z.ones 16). change 0xff with (Z.ones 8). rewrite !Z.land_ones, Z.shiftr_div_pow2 by lia.
  change 0xf0000 with (Z.shiftl (Z.ones 4) 16). change 0xff000000 with (Z.shiftl (Z.ones 8) 24). rewrite !land_top by lia.
  rewrite (uwrap_shift 32 base) by lia. rewrite (uwrap_shift 32 gran) by lia. rewrite (uwrap_shift 64) by lia.
  change (32 - 16) with 16. change (32 - 23) with 9. change (64 - 32) with 32. rewrite (Z.mod_small gran) by lia.
  generalize dependent (base / 2 ^ 16 mod 2 ^ 8). generalize dependent (base mod 2 ^ 16). generalize dependent (limit mod 2 ^ 16).
  generalize dependent (base / 2 ^ 24). generalize dependent (limit / 2 ^ 16). clear Hb Hl. intros l1 Hl1 b2 Hb2 l0 Hl0 b0 Hb0 b1 Hb1.
  rewrite (lor_shift _ _ 8), (lor_shift _ _ 12), (lor_shift _ _ 13), (lor_shift _ _ 15) by lia.
  rewrite (lor_shift _ l1 16), (lor_shift _ _ 22), (lor_shift _ _ 23), (lor_shift _ _ 24), (lor_shift _ b0 16) by lia.
  rewrite Z.mod_small by lia. by rewrite (lor_shift _ _ 32) by lia.
Qed.

Lemma seg_desc_decode {S} base limit class type dpl gran (s : S) : in_u 32 base -> 0 <= limit <= 0xfffff -> 0 <= class <= 1 -> 0 <= type <= 15 -> 0 <= dpl <= 3 -> 0 <= gran <= 1 ->
  exists d, make_seg_desc base limit class type dpl gran s = Ok (d, s) /\ in_u 64 d /\ decode_desc d = mk_segment base limit class type dpl 1 1 gran.
Proof.
  unfold in_u. intros Hb Hl Hc Ht Hd Hg. eexists. split; [by apply seg_desc_value|].
  assert (B0 : 0 <= limit mod 2 ^ 16 < 2 ^ 16) by (by apply Z.mod_pos_bound). assert (B1 : 0 <= base mod 2 ^ 16 < 2 ^ 16) by (by apply Z.mod_pos_bound).
  assert (B2 : 0 <= base / 2 ^ 16 mod 2 ^ 8 < 2 ^ 8) by (by apply Z.mod_pos_bound).
  assert (B3 : 0 <= limit / 2 ^ 16 < 2 ^ 4) by (Z.to_euclidean_division_equations; lia). assert (B4 : 0 <= base / 2 ^ 24 < 2 ^ 8) by (Z.to_euclidean_division_equations; lia).
  assert (El : limit = limit mod 2 ^ 16 + 2 ^ 16 * (limit / 2 ^ 16)) by (Z.to_euclidean_division_equations; lia).
  assert (Eb : base = base mod 2 ^ 16 + 2 ^ 16 * (base / 2 ^ 16 mod 2 ^ 8) + 2 ^ 24 * (base / 2 ^ 24)) by (Z.to_euclidean_division_equations; lia).
  revert El Eb B0 B1 B2 B3 B4. generalize (base / 2 ^ 16 mod 2 ^ 8) (base mod 2 ^ 16) (limit mod 2 ^ 16) (base / 2 ^ 24) (limit / 2 ^ 16). intros b1 b0 l0 b2 l1 El Eb B0 B1 B2 B3 B4.
  clear Hb Hl. subst limit base. match goal with |- _ /\ decode_desc ?x = _ => set (d := x) end.
  set (e7 := gran + 2 * b2). set (e6 := l1 + 2 ^ 6 * (1 + 2 * e7)). set (e5 := 1 + 2 * e6). set (e4 := class + 2 * (dpl + 2 ^ 2 * e5)).
  split; [lia|]. unfold decode_desc.
  rewrite (field_part d 16 24 l0 (b0 + 2 ^ 16 * b1) (type + 2 ^ 4 * e4)), (field_part d 56 8 (d - 2 ^ 56 * b2) b2 0), (field_part d 0 16 0 l0 (b0 + 2 ^ 16 * (b1 + 2 ^ 8 * (type + 2 ^ 4 * e4)))),
    (field_part d 48 4 (d - 2 ^ 48 * e6) l1 (2 ^ 2 * (1 + 2 * e7))), (field_part d 44 1 (d - 2 ^ 44 * e4) class (dpl + 2 ^ 2 * e5)),
    (field_part d 40 4 (d - 2 ^ 40 * (type + 2 ^ 4 * e4)) type e4), (field_part d 45 2 (d - 2 ^ 45 * (dpl + 2 ^ 2 * e5)) dpl e5),
    (field_part d 47 1 (d - 2 ^ 47 * e5) 1 e6), (field_part d 54 1 (d - 2 ^ 54 * (1 + 2 * e7)) 1 e7), (field_part d 55 1 (d - 2 ^ 55 * e7) gran b2) by lia.
  f_equal.
Qed.

(** An argument out of range fails an assertion. *)
Lemma seg_desc_refused {S} base limit class type dpl gran (s : S) :
  0xfffff < limit \/ class < 0 \/ 1 < class \/ type < 0 \/ 15 < type \/ dpl < 0 \/ 3 < dpl \/ gran < 0 \/ 1 < gran ->
  make_seg_desc base limit class type dpl gran s = Err AssertFail.
Proof.
  intros H. unfold make_seg_desc, bind, CLS_SYSTEM, CLS_CODE_DATA, GRAN_BYTE, GRAN_PAGE.
  destruct (limit <=? 0xfffff) eqn:E1; cbn [assertb]; [unfold ret at 1|done].
  destruct ((class =? 0) || (class =? 1)) eqn:E2; cbn [assertb]; [unfold ret at 1|done].
  destruct ((0 <=? type) && (type <=? 15)) eqn:E3; cbn [assertb]; [unfold ret at 1|done].
  destruct ((0 <=? dpl) && (dpl <=? 3)) eqn:E4; cbn [assertb]; [unfold ret at 1|done].
  destruct ((gran =? 0) || (gran =? 1)) eqn:E5; cbn [assertb]; [lia|done].
Qed.

Lemma gdtr_value limit base : in_u 16 limit -> make_gdtr_operand limit base = limit + base * 2 ^ 16.
Proof. intros H. by apply lor_shift. Qed.

(** ** Start-up *)

Section Start.
Context {machine : Machine}.

(** The task-state segment at [p]: the kernel's stack segment and stack pointer,
    no I/O permission bitmap, and zeroes. *)
Definition tss_page (esp0 : Z) : list Z :=
  <[1%nat := esp0]> (<[25%nat := 0xdfff * 2 ^ 16]> (<[2%nat := SEL_KDSEG]> (replicate 1024 0))).

Lemma started_with others s p ps' t : started others s -> ~ taken (page_pools s) p -> memory_ok ps' -> (forall q, taken ps' q <-> taken (page_pools s) q \/ q = p) ->
  started (fun q => others q \/ q = p) (set_tables (<[p := t]> (tables s)) (set_page_pools ps' s)).
Proof.
  intros [_ (Hb & Hbf & b & Eb & Hb') Ht Hc Htlb] Hnt Hm' Ht'. split; [done| | |done|done].
  - split_and!; [by left|done|]. exists b. cbn. rewrite lookup_insert_ne; [done|]. intros ->. by apply Hnt, Ht.
  - intros q. cbn. by rewrite Ht', Ht.
Qed.

Lemma wp_tss_store32 s ofs v (Q : unit -> cpu -> Prop) : (Z.to_nat (ofs / 4) < length (tss_words s))%nat ->
  Q tt (set_tss (tss s) (<[Z.to_nat (ofs / 4) := v]> (tss_words s)) s) -> wp (tss_store32 ofs v) Q s.
Proof.
  intros Hl HQ. unfold tss_store32, tss_load32. do 2 apply wp_bind. red. cbn [gets]. destruct (lookup_lt_is_Some_2 _ _ Hl) as [x ->]. exact HQ.
Qed.

Lemma wp_tss_update s (Q : unit -> cpu -> Prop) : tss s <> NULL -> length (tss_words s) = 1024%nat ->
  Q tt (set_tss (tss s) (<[1%nat := u32 (running s + PGSIZE)]> (tss_words s)) s) -> wp tss_update Q s.
Proof.
  intros Hn Hl HQ. unfold tss_update. apply wp_bind. red. cbn [gets]. apply wp_bind, wp_assertb; [by apply negb_true_iff, Z.eqb_neq|].
  apply wp_bind. red. cbn [gets]. apply wp_tss_store32; [rewrite Hl; apply Nat.ltb_lt; reflexivity|exact HQ].
Qed.

Lemma wp_tss_init others s (Q : unit -> cpu -> Prop) : started others (vm s) -> free_pages (page_pools (vm s)) 1 ->
  (forall p v, frame_ok p -> ~ others p -> started (fun q => others q \/ q = p) v ->
     Q tt (mk_cpu (gdt s) (gdtr s) (tr s) p (tss_page (u32 (running s + PGSIZE))) (running s) v)) -> wp tss_init Q s.
Proof.
  intros Hs Hf HQ. unfold tss_init. apply wp_bind, wp_zoom. eapply wp_get_kernel_page; [apply Hs|done|]. intros p ps' Hp Hnt Hm' Ht' _.
  destruct (frame_pos p Hp) as (_ & Hn & _). pose proof (started_with others _ p ps' (replicate 1024 0) Hs Hnt Hm' Ht') as H0.
  apply wp_bind. red. cbn [modify]. apply wp_bind. eapply wp_eq; [reflexivity|]. apply wp_bind. eapply wp_eq; [reflexivity|].
  apply wp_tss_update; [done|reflexivity|]. apply HQ; [done|by rewrite <- (st_taken _ _ Hs)|exact H0].
Qed.
End Start.

(** The segment that a selector stands for. *)
Definition segment_of (s : cpu) (sel : Z) : option segment := decode_desc <$> gdt s !! Z.to_nat (sel / 8).

(** Segments for kernel and user code and data that cover the whole address
    space, and the task-state segment. *)
Definition segments_ok (s : cpu) (gdt_addr : Z) : Prop :=
  gdt s !! 0%nat = Some 0 /\
  segment_of s SEL_KCSEG = Some (mk_segment 0 0xfffff CLS_CODE_DATA 10 0 1 1 GRAN_PAGE) /\
  segment_of s SEL_KDSEG = Some (mk_segment 0 0xfffff CLS_CODE_DATA 2 0 1 1 GRAN_PAGE) /\
  segment_of s SEL_UCSEG = Some (mk_segment 0 0xfffff CLS_CODE_DATA 10 3 1 1 GRAN_PAGE) /\
  segment_of s SEL_UDSEG = Some (mk_segment 0 0xfffff CLS_CODE_DATA 2 3 1 1 GRAN_PAGE) /\
  segment_of s SEL_TSS = Some (mk_segment (tss s) 0x67 CLS_SYSTEM 9 0 1 1 GRAN_BYTE) /\
  field (gdtr s) 0 16 = 8 * Z.of_nat (length (gdt s)) - 1 /\ field (gdtr s) 16 32 = gdt_addr /\ tr s = SEL_TSS.

Lemma wp_make_seg_desc {S} base limit class type dpl gran (Q : Z -> S -> Prop) s : in_u 32 base -> 0 <= limit <= 0xfffff -> 0 <= class <= 1 -> 0 <= type <= 15 -> 0 <= dpl <= 3 -> 0 <= gran <= 1 ->
  (forall d, decode_desc d = mk_segment base limit class type dpl 1 1 gran -> Q d s) -> wp (make_seg_desc base limit class type dpl gran) Q s.
Proof. intros H1 H2 H3 H4 H5 H6 HQ. destruct (seg_desc_decode base limit class type dpl gran s H1 H2 H3 H4 H5 H6) as (d & E & _ & Hd). eapply wp_eq; [exact E|by apply HQ]. Qed.

Lemma wp_gdt_store s sel d (Q : unit -> cpu -> Prop) : (Z.to_nat (sel / 8) < length (gdt s))%nat ->
  Q tt (set_gdt (<[Z.to_nat (sel / 8) := d]> (gdt s)) s) -> wp (gdt_store sel d) Q s.
Proof.
  intros Hl HQ. unfold gdt_store. apply wp_bind. red. cbn [gets]. apply wp_bind. destruct (lookup_lt_is_Some_2 _ _ Hl) as [x ->]. exact HQ.
Qed.

Lemma wp_gdt_init s gdt_addr (Q : unit -> cpu -> Prop) : length (gdt s) = 6%nat -> tss s <> NULL -> in_u 32 (tss s) -> in_u 32 gdt_addr ->
  (forall s', segments_ok s' gdt_addr -> tss s' = tss s -> tss_words s' = tss_words s -> vm s' = vm s -> running s' = running s -> Q tt s') -> wp (gdt_init gdt_addr) Q s.
Proof.
  intros Hl Hn Ht Ha HQ. destruct s as [g gr r t tw run v]. cbn in Hl, Hn, Ht. do 6 (destruct g as [|? g]; [done|]). destruct g; [|done].
  unfold gdt_init. apply wp_bind, wp_gdt_store; [apply Nat.ltb_lt; reflexivity|].
  apply wp_bind, wp_make_seg_desc; [done..|]. intros d1 E1. apply wp_bind, wp_gdt_store; [apply Nat.ltb_lt; reflexivity|].
  apply wp_bind, wp_make_seg_desc; [done..|]. intros d2 E2. apply wp_bind, wp_gdt_store; [apply Nat.ltb_lt; reflexivity|].
  apply wp_bind, wp_make_seg_desc; [done..|]. intros d3 E3. apply wp_bind, wp_gdt_store; [apply Nat.ltb_lt; reflexivity|].
  apply wp_bind, wp_make_seg_desc; [done..|]. intros d4 E4. apply wp_bind, wp_gdt_store; [apply Nat.ltb_lt; reflexivity|].
  apply wp_bind. unfold tss_get. apply wp_bind. red. cbn [gets]. apply wp_bind, wp_assertb; [by apply negb_true_iff, Z.eqb_neq|]. apply wp_ret.
  apply wp_bind, wp_make_seg_desc; [done..|]. intros d5 E5. apply wp_bind, wp_gdt_store; [apply Nat.ltb_lt; reflexivity|].
  apply wp_bind. red. cbn [modify]. red. cbn [modify]. apply HQ; [|done..].
  split_and!; [reflexivity|rewrite <- E1|rewrite <- E2|rewrite <- E3|rewrite <- E4|exact (f_equal Some E5)| | |reflexivity]; [reflexivity..| |].
  - apply (field_part _ 0 16 0 47 gdt_addr); [lia..| |lia|cbn; lia]. etransitivity; [apply gdtr_value; done|]. change (8 * SEL_CNT - 1) with 47. lia.
  - apply (field_part _ 16 32 47 gdt_addr 0); [lia..| |lia|done]. etransitivity; [apply gdtr_value; done|]. change (8 * SEL_CNT - 1) with 47. lia.
Qed.

(** C32: A segment descriptor made by make_seg_desc() is read by the processor as
    the base, limit, class, type, privilege level and granularity it was made
    from, and arguments out of range fail an assertion.  At start-up tss_init()
    and gdt_init() give the kernel and user programs code and data segments of
    4 GB, the user's at privilege level 3, load the table and the task-state
    segment, whose ring 0 stack is the top of the running thread's page, and
    take one page from the kernel pool for it. *)
Theorem segments_correct :
  (forall S base limit class type dpl gran (s : S), in_u 32 base -> 0 <= limit ->
     if decide (limit <= 0xfffff /\ 0 <= class <= 1 /\ 0 <= type <= 15 /\ 0 <= dpl <= 3 /\ 0 <= gran <= 1) then
       exists d, make_seg_desc base limit class type dpl gran s = Ok (d, s) /\ in_u 64 d /\ decode_desc d = mk_segment base limit class type dpl 1 1 gran
     else make_seg_desc base limit class type dpl gran s = Err AssertFail) /\
  (forall (machine : Machine) others s gdt_addr, started others (vm s) -> free_pages (page_pools (vm s)) 1 -> length (gdt s) = 6%nat -> in_u 32 gdt_addr ->
     exists s', (tss_init;; gdt_init gdt_addr) s = Ok (tt, s') /\ segments_ok s' gdt_addr /\ ~ others (tss s') /\
       started (fun q => others q \/ q = tss s') (vm s') /\ tss_words s' = tss_page (u32 (running s + PGSIZE))).
Proof.
  split.
  - intros S base limit class type dpl gran s Hb Hl. case_decide as H; [apply seg_desc_decode; lia || done|apply seg_desc_refused; lia].
  - intros machine others s gdt_addr Hs Hf Hl Ha.
    assert (H : wp (tss_init;; gdt_init gdt_addr) (fun _ s' => segments_ok s' gdt_addr /\ ~ others (tss s') /\
      started (fun q => others q \/ q = tss s') (vm s') /\ tss_words s' = tss_page (u32 (running s + PGSIZE))) s).
    { apply wp_bind. eapply wp_tss_init; [exact Hs|exact Hf|]. intros p v Hp Hno Hv. destruct (frame_pos p Hp) as (Hr & Hn & _).
      apply wp_gdt_init; [done|done|cbn; unfold in_u; lia|done|]. intros s' Hseg Et Ew Ev _. rewrite Et, Ew, Ev. done. }
    destruct (proj1 (wp_ok _ _ _) H) as ([] & s' & E & Hs'). by exists s'.
Qed.

(** The machine of the example, when its first page is the base page directory. *)
Definition small_base : Z := 0xc0010000.
Definition small_vm : pstate :=
  mk_pstate {[small_base := replicate 1024 0]} (mk_pools (mk_pool small_base (mk_bitmap 20 [1])) (mk_pool 0xc0030000 (mk_bitmap 8 [0])))
    small_base (small_base - PHYS_BASE) ∅.

Lemma small_vm_started : started (machine := small_machine) (taken (page_pools small_vm)) small_vm.
Proof.
  split; [| |done|done|done].
  - apply (memory_ok_geometry small_pools); [exact small_memory|decide_closed|done].
  - split_and!; [|decide_closed|].
    + exists false, 0. split; [split; [cbn; lia|done]|done].
    + exists (replicate 1024 0). split_and!; [apply lookup_insert_eq|done|]. intros i Hi. apply lookup_replicate_2. lia.
Qed.

Lemma small_vm_free : free_pages (page_pools small_vm) 1.
Proof.
  exists [0xc0011000]. split_and!; [done|apply NoDup_singleton|]. intros p ->%list_elem_of_singleton. split; [by exists 1|].
  intros (u & i & [Hi E] & Hu). assert (H : u = false /\ i = 1) by (unfold page in E; change PGSIZE with 4096 in E; destruct u; cbn in Hi, E; split; try done; unfold small_base in E; lia).
  destruct H as [-> ->]. vm_compute in Hu. congruence.
Qed.

(** On the machine of the example. *)
Lemma segments_correct_witness : exists s, started (machine := small_machine) (taken (page_pools small_vm)) (vm s) /\
  exists s', (tss_init (machine := small_machine);; gdt_init 0xc0020000) s = Ok (tt, s') /\ segments_ok s' 0xc0020000.
Proof.
  set (s := mk_cpu (replicate 6 0) 0 0 NULL [] 0xc000e000 small_vm). exists s. split; [exact small_vm_started|].
  destruct (proj2 segments_correct small_machine (taken (page_pools small_vm)) s 0xc0020000 small_vm_started small_vm_free eq_refl ltac:(split; vm_compute; congruence)) as (s' & E & H & _).
  exists s'. split; [exact E|exact H].
Defined.
