(* ===== verification/FileService.v ===== *)
(** * What a client of the file system relies on

    The part of filesys/filesys.h and filesys/file.h that reads files, as an
    interface: the operations on a state of type [F], and laws that say what
    they do to what the client sees, the contents of the files by name and the
    contents and the position of each open file.  The program loader of
    userprog/process.c is proved against it; FsService shows that the file
    system provides it. *)

From Stdlib Require Import ZArith Lia.
From stdpp Require Import base numbers gmap list.
From S2P Require Import Prelude.

Open Scope Z_scope.

Record file_view := mk_view { by_name : list Z -> option (list Z); opened : gmap Z (list Z * Z) }.
Definition set_opened o v := mk_view (by_name v) o.

(** The name of a file: characters without a null character. *)
Definition c_name (nm : list Z) : Prop := Forall (fun c => c <> 0) nm.

Class FileService (F : Type) := {
  svc_open : list Z -> M F Z;
  svc_read : Z -> Z -> M F (list Z);
  svc_seek : Z -> Z -> M F unit;
  svc_length : Z -> M F Z;
  svc_close : Z -> M F unit;
  svc_view : F -> file_view -> Prop;
  svc_open_ok f v nm : svc_view f v -> c_name nm ->
    wp (svc_open nm) (fun h f' => match by_name v nm with
      | Some cs => h <> NULL /\ opened v !! h = None /\ svc_view f' (set_opened (<[h := (cs, 0)]> (opened v)) v)
      | None => h = NULL /\ svc_view f' v end) f;
  svc_read_ok f v h cs n size : svc_view f v -> opened v !! h = Some (cs, n) -> 0 <= size < 2 ^ 31 ->
    wp (svc_read h size) (fun r f' => r = take (Z.to_nat size) (drop (Z.to_nat n) cs) /\
      svc_view f' (set_opened (<[h := (cs, n + Z.of_nat (length r))]> (opened v)) v)) f;
  svc_seek_ok f v h cs n n' : svc_view f v -> opened v !! h = Some (cs, n) -> 0 <= n' < 2 ^ 31 ->
    wp (svc_seek h n') (fun _ f' => svc_view f' (set_opened (<[h := (cs, n')]> (opened v)) v)) f;
  svc_length_ok f v h cs n : svc_view f v -> opened v !! h = Some (cs, n) ->
    wp (svc_length h) (fun r f' => r = Z.of_nat (length cs) /\ svc_view f' v) f;
  svc_close_ok f v h : svc_view f v -> is_Some (opened v !! h) ->
    wp (svc_close h) (fun _ f' => svc_view f' (set_opened (delete h (opened v)) v)) f;
  svc_small f v h cs n : svc_view f v -> opened v !! h = Some (cs, n) -> Z.of_nat (length cs) < 2 ^ 31 }.
