(* ===== verification/FsService.v ===== *)
(** * The file system provides its clients' interface

    The operations of filesys/ as an instance of [FileService], when memory does
    not run out. *)

From Stdlib Require Import ZArith Lia.
From stdpp Require Import base numbers gmap list.
From S2P Require Import Prelude Bitmap FsBase Inode Directory FsData FsInv FsWp FsHandle FsFile FsDir FsTop FsInit FsSim FileService.

Open Scope Z_scope.

(** What the client sees of an abstract file system. *)
Record seen (a : afs) (v : file_view) : Prop := {
  seen_name : forall nm, c_name nm -> by_name v nm = names a !! nm ≫= (fun k => files a !! k);
  seen_open : forall h, opened v !! h = handles a !! h ≫= (fun x => (fun cs => (cs, at_pos x)) <$> files a !! of_file x);
  seen_live : forall h x, handles a !! h = Some x -> is_Some (files a !! of_file x) }.

Lemma seen_handle a v h cs n : seen a v -> opened v !! h = Some (cs, n) ->
  exists x, handles a !! h = Some x /\ at_pos x = n /\ files a !! of_file x = Some cs.
Proof.
  intros [_ Ho _] H. rewrite Ho in H. destruct (handles a !! h) as [x|] eqn:E; [|done]. cbn in H.
  destruct (files a !! of_file x) as [cs'|] eqn:Ef; [|done]. cbn in H. injection H as <- <-. by exists x.
Qed.

(** Moving the position of an open file. *)
Lemma seen_moved a v h x cs n : seen a v -> handles a !! h = Some x -> files a !! of_file x = Some cs ->
  seen (with_handle h (moved n x) a) (set_opened (<[h := (cs, n)]> (opened v)) v).
Proof.
  intros [H1 H2 H3] Hx Hf. split; [exact H1| |].
  - intros h'. cbn. destruct (decide (h' = h)) as [->|Hne]; [rewrite !lookup_insert_eq; cbn; by rewrite Hf|by rewrite !lookup_insert_ne].
  - intros h' x'. cbn. destruct (decide (h' = h)) as [->|Hne]; [rewrite lookup_insert_eq; intros [= <-]; cbn; by eexists|rewrite lookup_insert_ne by done; apply H3].
Qed.

Lemma seen_opened a v h nm k cs : seen a v -> c_name nm -> names a !! nm = Some k -> files a !! k = Some cs -> handles a !! h = None ->
  opened v !! h = None /\ seen (with_handle h (mk_open k 0 false) a) (set_opened (<[h := (cs, 0)]> (opened v)) v).
Proof.
  intros [H1 H2 H3] Hn Hk Hf Hh. split; [by rewrite H2, Hh|]. split; [exact H1| |].
  - intros h'. cbn. destruct (decide (h' = h)) as [->|Hne]; [rewrite !lookup_insert_eq; cbn; by rewrite Hf|by rewrite !lookup_insert_ne].
  - intros h' x'. cbn. destruct (decide (h' = h)) as [->|Hne]; [rewrite lookup_insert_eq; intros [= <-]; cbn; by eexists|rewrite lookup_insert_ne by done; apply H3].
Qed.

(** The files that have a name or are open are kept by [collect]. *)
Lemma collect_kept k a k' : has_name k' a \/ is_open k' a -> files (collect k a) !! k' = files a !! k'.
Proof.
  intros H. unfold collect. case_decide as Hd; [done|]. cbn. apply lookup_delete_ne. intros ->. done.
Qed.

Lemma seen_closed a v h x : seen a v -> handles a !! h = Some x ->
  seen (collect (of_file x) (set_handles (delete h (handles a)) a)) (set_opened (delete h (opened v)) v).
Proof.
  intros [H1 H2 H3] Hx. set (a' := set_handles (delete h (handles a)) a).
  assert (Hopen : forall h' x', h' <> h -> handles a !! h' = Some x' -> files (collect (of_file x) a') !! of_file x' = files a !! of_file x').
  { intros h' x' Hne Hx'. rewrite collect_kept; [done|]. right. exists h', x'. split; [|done]. cbn. by rewrite lookup_delete_ne. }
  split.
  - intros nm Hnm. rewrite names_collect. cbn. rewrite H1 by done. destruct (names a !! nm) as [k|] eqn:E; [|done]. cbn. rewrite collect_kept; [done|]. left. by exists nm, k.
  - intros h'. rewrite handles_collect. cbn. destruct (decide (h' = h)) as [->|Hne]; [by rewrite !lookup_delete_eq|]. rewrite !lookup_delete_ne, H2 by done.
    destruct (handles a !! h') as [x'|] eqn:E; [|done]. cbn. by rewrite (Hopen h').
  - intros h' x'. rewrite handles_collect. cbn. destruct (decide (h' = h)) as [->|Hne]; [by rewrite lookup_delete_eq|]. rewrite lookup_delete_ne by done.
    intros E. rewrite (Hopen h') by done. by eapply H3.
Qed.

Section Service.
Context {mem : Memory} (Plenty : forall n live, is_Some (place n live)).

(** The contents of the local variable that dir_lookup() does not initialise. *)
Context (e : list Z) (He : length e = 20%nat).

Definition fs_view (s : fs) (v : file_view) : Prop := exists a, abs s a /\ seen a v.

(** A step of the simulation, for the operation inside of [perform]. *)
Lemma wp_call {A} s a (c : call) (m : M fs A) (f : A -> result) (Q : A -> fs -> Prop) : abs s a -> valid a c ->
  perform e c = (x ← m; ret (f x)) -> (forall x s' a', spec a c (f x) a' -> abs s' a' -> Q x s') -> wp m Q s.
Proof using He Plenty.
  intros Ha Hv E HQ. pose proof (sim_call Plenty s a e c He Ha Hv) as H. rewrite E in H. apply wp_bind_iff in H.
  eapply wp_mono; [exact H|]. intros x s' (a' & Hs & Ha'). by eapply HQ.
Qed.

Lemma fs_open_ok s v nm : fs_view s v -> c_name nm ->
  wp (filesys_open nm e) (fun h s' => match by_name v nm with
    | Some cs => h <> NULL /\ opened v !! h = None /\ fs_view s' (set_opened (<[h := (cs, 0)]> (opened v)) v)
    | None => h = NULL /\ fs_view s' v end) s.
Proof using He Plenty.
  intros (a & Ha & Hs) Hn. eapply (wp_call s a (Open nm) _ RPtr); [exact Ha|exact Hn|done|]. intros h s' a' Hspec Ha'. rewrite (seen_name _ _ Hs) by done.
  inversion Hspec as [| |? k ? Hk Hh Hnew| ? Hk| | | | | | | | | |]; subst.
  - destruct Ha as (I & dr & Hat). destruct (abs_name Hat _ _ Hk) as [H2 [d Hd]]. rewrite Hk. cbn.
    assert (Ef : files a !! k = Some (contents (disk s) d)) by (rewrite (ab_files _ _ _ _ Hat), decide_True, Hd by done; done). rewrite Ef.
    destruct (seen_opened a v h nm k _ Hs Hn Hk Ef Hnew) as [H1 H3]. split_and!; [unfold NULL; lia|done|]. by eexists.
  - rewrite Hk. cbn. split; [done|]. by eexists.
Qed.

Lemma fs_read_ok s v h cs n size : fs_view s v -> opened v !! h = Some (cs, n) -> 0 <= size < 2 ^ 31 ->
  wp (file_read h size) (fun r s' => r = take (Z.to_nat size) (drop (Z.to_nat n) cs) /\
    fs_view s' (set_opened (<[h := (cs, n + Z.of_nat (length r))]> (opened v)) v)) s.
Proof using He Plenty.
  intros (a & Ha & Hs) Ho Hsz. destruct (seen_handle _ _ _ _ _ Hs Ho) as (x & Hx & <- & Hf).
  eapply (wp_call s a (Read h size) _ RBytes); [exact Ha|split; [by eexists|done]|done|]. intros r s' a' Hspec Ha'.
  inversion Hspec as [| | | | | | |? ? x' cs' Hx' Hf'| | | | | |]; subst. assert (x' = x) as -> by congruence. assert (cs' = cs) as -> by congruence.
  split; [done|]. eexists. split; [exact Ha'|]. by apply seen_moved.
Qed.

Lemma fs_seek_ok s v h cs n n' : fs_view s v -> opened v !! h = Some (cs, n) -> 0 <= n' < 2 ^ 31 ->
  wp (file_seek h n') (fun _ s' => fs_view s' (set_opened (<[h := (cs, n')]> (opened v)) v)) s.
Proof using He Plenty.
  intros (a & Ha & Hs) Ho Hn. destruct (seen_handle _ _ _ _ _ Hs Ho) as (x & Hx & <- & Hf).
  eapply (wp_call s a (Seek h n') _ (fun _ => RUnit)); [exact Ha|split; [by eexists|done]|done|]. intros [] s' a' Hspec Ha'.
  inversion Hspec as [| | | | | | | | |? ? x' Hx'| | | |]; subst. assert (x' = x) as -> by congruence. eexists. split; [exact Ha'|]. by apply seen_moved.
Qed.

Lemma fs_length_ok s v h cs n : fs_view s v -> opened v !! h = Some (cs, n) ->
  wp (file_length h) (fun r s' => r = Z.of_nat (length cs) /\ fs_view s' v) s.
Proof using He Plenty.
  intros (a & Ha & Hs) Ho. destruct (seen_handle _ _ _ _ _ Hs Ho) as (x & Hx & <- & Hf).
  eapply (wp_call s a (Length h) _ RInt); [exact Ha|by eexists|done|]. intros r s' a' Hspec Ha'.
  inversion Hspec as [| | | | | | | | | | |? x' cs' Hx' Hf'| |]; subst. assert (x' = x) as -> by congruence. assert (cs' = cs) as -> by congruence.
  split; [done|]. by eexists.
Qed.

Lemma fs_close_ok s v h : fs_view s v -> is_Some (opened v !! h) -> wp (file_close h) (fun _ s' => fs_view s' (set_opened (delete h (opened v)) v)) s.
Proof using He Plenty.
  intros (a & Ha & Hs) [[cs n] Ho]. destruct (seen_handle _ _ _ _ _ Hs Ho) as (x & Hx & <- & Hf).
  eapply (wp_call s a (Close h) _ (fun _ => RUnit)); [exact Ha|by eexists|done|]. intros [] s' a' Hspec Ha'.
  inversion Hspec as [| | | | | |? x' Hx'| | | | | | |]; subst. assert (x' = x) as -> by congruence. eexists. split; [exact Ha'|]. by apply seen_closed.
Qed.

Lemma fs_small s v h cs n : fs_view s v -> opened v !! h = Some (cs, n) -> Z.of_nat (length cs) < 2 ^ 31.
Proof using He.
  intros (a & (I & dr & Ha) & Hs) Ho. destruct (seen_handle _ _ _ _ _ Hs Ho) as (x & Hx & _ & Hf).
  destruct (abs_handle Ha _ _ Hx) as (fl & i & _ & -> & HI & Hfl). cbn in Hf. rewrite Hfl in Hf. injection Hf as <-.
  destruct (inv_inode _ _ (fi_disk _ _ _ (ab_inv _ _ _ _ Ha)) _ _ HI) as (_ & [_ Hsz _] & _). rewrite length_contents. lia.
Qed.

#[export] Instance fs_service : FileService fs := {|
  svc_open nm := filesys_open nm e;
  svc_read := file_read;
  svc_seek := file_seek;
  svc_length := file_length;
  svc_close := file_close;
  svc_view := fs_view;
  svc_open_ok := fs_open_ok;
  svc_read_ok := fs_read_ok;
  svc_seek_ok := fs_seek_ok;
  svc_length_ok := fs_length_ok;
  svc_close_ok := fs_close_ok;
  svc_small := fs_small |}.
End Service.

(** A new file system. *)
Definition no_files : file_view := mk_view (fun _ => None) ∅.
Lemma seen_empty : seen empty_fs no_files.
Proof. split; [intros nm _|intros h|intros h x]; cbn; by rewrite !lookup_empty. Qed.
