(* ===== verification/Process.v ===== *)
(** * userprog/process.c: loading and ending programs

    A process has a page directory; the bytes of the pages that it maps are in
    [frames], apart from the words of directories and tables.  Files are read
    through the interface of FileService.  A [goto done] of load() is the value
    [None] or [false] of the part of the code that it leaves. *)

From Stdlib Require Import ZArith Lia.
From stdpp Require Import base numbers gmap list.
From S2P Require Import Prelude Bitmap Vaddr Palloc PageDir Gdt FileService.

Open Scope Z_scope.

(** ** Executables *)

(** Integers of 16 and 32 bits in a structure that has been read from a file. *)
Definition byte_of (l : list Z) (k : nat) : Z := default 0 (l !! k).
Definition half_of (l : list Z) (k : nat) : Z := u16 (byte_of l k + 2 ^ 8 * byte_of l (k + 1)).
Definition long_of (l : list Z) (k : nat) : Z := u32 (half_of l k + 2 ^ 16 * half_of l (k + 2)).

Record Elf32_Ehdr := mk_ehdr {
  e_ident : list Z; e_type : Z; e_machine : Z; e_version : Z; e_entry : Z; e_phoff : Z; e_shoff : Z; e_flags : Z;
  e_ehsize : Z; e_phentsize : Z; e_phnum : Z; e_shentsize : Z; e_shnum : Z; e_shstrndx : Z }.
Definition sizeof_ehdr : Z := 52.
Definition ehdr_of (l : list Z) : Elf32_Ehdr :=
  mk_ehdr (take 16 l) (half_of l 16) (half_of l 18) (long_of l 20) (long_of l 24) (long_of l 28) (long_of l 32) (long_of l 36)
    (half_of l 40) (half_of l 42) (half_of l 44) (half_of l 46) (half_of l 48) (half_of l 50).

Record Elf32_Phdr := mk_phdr {
  p_type : Z; p_offset : Z; p_vaddr : Z; p_paddr : Z; p_filesz : Z; p_memsz : Z; p_flags : Z; p_align : Z }.
Definition sizeof_phdr : Z := 32.
Definition phdr_of (l : list Z) : Elf32_Phdr :=
  mk_phdr (long_of l 0) (long_of l 4) (long_of l 8) (long_of l 12) (long_of l 16) (long_of l 20) (long_of l 24) (long_of l 28).

Definition PT_LOAD : Z := 1.
Definition PT_DYNAMIC : Z := 2.
Definition PT_INTERP : Z := 3.
Definition PT_SHLIB : Z := 5.
Definition PF_W : Z := 2.

(** The seven bytes that e_ident starts with. *)
Definition elf_magic : list Z := [0x7f; 69; 76; 70; 1; 1; 1].

(** ** The state *)

(** What printf() is called with. *)
Inductive message : Set := OpenFailed (name : list Z) | BadExecutable (name : list Z).

(** struct intr_frame of threads/interrupt.h, as far as start_process() sets it;
    the other members are zero. *)
Record intr_frame := mk_frame { if_gs : Z; if_fs : Z; if_es : Z; if_ds : Z; if_ss : Z; if_cs : Z; if_eflags : Z; if_eip : Z; if_esp : Z }.
Definition FLAG_MBS : Z := 0x2.
Definition FLAG_IF : Z := 0x200.

Record proc (F : Type) := mk_proc { hw : cpu; frames : gmap Z (list Z); fsys : F; pagedir : Z; console : list message }.
Arguments mk_proc {F} _ _ _ _ _.
Arguments hw {F} _.
Arguments frames {F} _.
Arguments fsys {F} _.
Arguments pagedir {F} _.
Arguments console {F} _.

(** A page of zeroes, and what a page holds before it is written. *)
Definition zero_frame : list Z := replicate (Z.to_nat PGSIZE) 0.
Class Frames := { junk_frame : Z -> list Z; junk_frame_size : forall p, length (junk_frame p) = Z.to_nat PGSIZE }.

Section Process.
Context {machine : Machine} {junk : Frames} {F : Type} {service : FileService F}.

Definition set_hw h (s : proc F) := mk_proc h (frames s) (fsys s) (pagedir s) (console s).
Definition set_frames m (s : proc F) := mk_proc (hw s) m (fsys s) (pagedir s) (console s).
Definition set_fsys (f : F) (s : proc F) := mk_proc (hw s) (frames s) f (pagedir s) (console s).
Definition set_pagedir p (s : proc F) := mk_proc (hw s) (frames s) (fsys s) p (console s).
Definition set_console c (s : proc F) := mk_proc (hw s) (frames s) (fsys s) (pagedir s) c.

Definition on_hw {A} (m : M cpu A) : M (proc F) A := zoom hw set_hw m.
Definition on_pages {A} (m : M pstate A) : M (proc F) A := on_hw (on_vm m).
Definition on_files {A} (m : M F A) : M (proc F) A := zoom fsys set_fsys m.
Definition printf (x : message) : M (proc F) unit := modify (fun s => set_console (console s ++ [x]) s).

(** palloc_get_page() for a page of bytes, and storing bytes in it. *)
Definition get_frame (flags : Z) : M (proc F) Z :=
  p ← on_pages (get_page flags);
  if p =? NULL then ret NULL else
  modify (fun s => set_frames (<[p := if negb (Z.land flags PAL_ZERO =? 0) then zero_frame else junk_frame p]> (frames s)) s);;
  ret p.
Definition store_bytes (p ofs : Z) (bs : list Z) : M (proc F) unit :=
  s ← get;
  l ← of_option BadAccess (frames s !! p);
  modify (set_frames (<[p := take (Z.to_nat ofs) l ++ bs ++ drop (Z.to_nat ofs + length bs) l]> (frames s))).

(** ** The code *)

Definition process_activate : M (proc F) unit :=
  pd ← gets pagedir;
  on_pages (pagedir_activate pd);;
  on_hw tss_update.

Definition process_exit : M (proc F) unit :=
  pd ← gets pagedir;
  if negb (pd =? NULL) then
    modify (set_pagedir NULL);;
    on_pages (pagedir_activate NULL);;
    on_pages (pagedir_destroy pd)
  else ret tt.

(** A timer interrupt: another thread runs, with its directory, and the scheduler
    comes back to this one, for which schedule_tail() calls process_activate(). *)
Definition preempted (other : option Z) : M (proc F) unit :=
  match other with
  | Some pd => on_pages (pagedir_activate pd);; process_activate
  | None => ret tt
  end.

(** process_exit() with interrupts between its statements. *)
Definition process_exit_preempted (intr : nat -> option Z) : M (proc F) unit :=
  pd ← gets pagedir;
  preempted (intr 0%nat);;
  if negb (pd =? NULL) then
    modify (set_pagedir NULL);;
    preempted (intr 1%nat);;
    on_pages (pagedir_activate NULL);;
    preempted (intr 2%nat);;
    on_pages (pagedir_destroy pd);;
    preempted (intr 3%nat)
  else ret tt.

Definition install_page (upage kpage : Z) (writable : bool) : M (proc F) bool :=
  pd ← gets pagedir;
  k ← on_pages (pagedir_get_page pd upage);
  if k =? NULL then on_pages (pagedir_set_page pd upage kpage writable) else ret false.

Definition setup_stack : M (proc F) (option Z) :=
  kpage ← get_frame (Z.lor PAL_USER PAL_ZERO);
  if negb (kpage =? NULL) then
    success ← install_page (PHYS_BASE - PGSIZE) kpage true;
    if success then ret (Some PHYS_BASE)
    else on_pages (free_page kpage);; ret None
  else ret None.

Definition validate_segment (phdr : Elf32_Phdr) (file : Z) : M (proc F) bool :=
  if negb (Z.land (p_offset phdr) PGMASK =? Z.land (p_vaddr phdr) PGMASK) then ret false else
  len ← on_files (svc_length file);
  if u32 len <? p_offset phdr then ret false else
  if p_memsz phdr <? p_filesz phdr then ret false else
  if p_memsz phdr =? 0 then ret false else
  if negb (is_user_vaddr (p_vaddr phdr)) then ret false else
  if negb (is_user_vaddr (u32 (p_vaddr phdr + p_memsz phdr))) then ret false else
  if u32 (p_vaddr phdr + p_memsz phdr) <? p_vaddr phdr then ret false else
  if p_vaddr phdr <? PGSIZE then ret false else
  ret true.

(** The loop ends after one round for every page. *)
Definition load_segment (file ofs upage read_bytes zero_bytes : Z) (writable : bool) : M (proc F) bool :=
  ASSERT (u32 (read_bytes + zero_bytes) mod PGSIZE =? 0);;
  ASSERT (pg_ofs upage =? 0);;
  ASSERT (Z.rem ofs PGSIZE =? 0);;
  on_files (svc_seek file ofs);;
  iterate (S (Z.to_nat ((read_bytes + zero_bytes) / PGSIZE))) (fun '(upage, read_bytes, zero_bytes) =>
    if (0 <? read_bytes) || (0 <? zero_bytes) then
      let page_read_bytes := if read_bytes <? PGSIZE then read_bytes else PGSIZE in
      let page_zero_bytes := PGSIZE - page_read_bytes in
      kpage ← get_frame PAL_USER;
      if kpage =? NULL then ret (inr false) else
      r ← on_files (svc_read file page_read_bytes);
      store_bytes kpage 0 r;;
      if negb (Z.of_nat (length r) =? page_read_bytes) then
        on_pages (free_page kpage);; ret (inr false)
      else
        store_bytes kpage page_read_bytes (replicate (Z.to_nat page_zero_bytes) 0);;
        ok ← install_page upage kpage writable;
        if negb ok then on_pages (free_page kpage);; ret (inr false)
        else ret (inl (u32 (upage + PGSIZE), u32 (read_bytes - page_read_bytes), u32 (zero_bytes - page_zero_bytes)))
    else ret (inr true)) (upage, read_bytes, zero_bytes).

(** The switch of load() on the type of a program header. *)
Definition load_phdr (file : Z) (phdr : Elf32_Phdr) : M (proc F) bool :=
  if (p_type phdr =? PT_DYNAMIC) || (p_type phdr =? PT_INTERP) || (p_type phdr =? PT_SHLIB) then ret false
  else if p_type phdr =? PT_LOAD then
    valid ← validate_segment phdr file;
    if valid then
      let writable := negb (Z.land (p_flags phdr) PF_W =? 0) in
      let file_page := Z.land (p_offset phdr) (u32 (Z.lnot PGMASK)) in
      let mem_page := Z.land (p_vaddr phdr) (u32 (Z.lnot PGMASK)) in
      let page_offset := Z.land (p_vaddr phdr) PGMASK in
      let '(read_bytes, zero_bytes) :=
        if 0 <? p_filesz phdr then
          let read_bytes := u32 (page_offset + p_filesz phdr) in
          (read_bytes, u32 (ROUND_UP (u32 (page_offset + p_memsz phdr)) PGSIZE - read_bytes))
        else (0, ROUND_UP (u32 (page_offset + p_memsz phdr)) PGSIZE) in
      load_segment file (i32 file_page) mem_page read_bytes zero_bytes writable
    else ret false
  else ret true.

(** The loop of load() over the program headers. *)
Definition load_phdrs (file : Z) (ehdr : Elf32_Ehdr) : M (proc F) bool :=
  iterate (S (Z.to_nat (e_phnum ehdr))) (fun '(i, file_ofs) =>
    if i <? e_phnum ehdr then
      len ← on_files (svc_length file);
      if (file_ofs <? 0) || (len <? file_ofs) then ret (inr false) else
      on_files (svc_seek file file_ofs);;
      l ← on_files (svc_read file sizeof_phdr);
      if negb (Z.of_nat (length l) =? sizeof_phdr) then ret (inr false) else
      ok ← load_phdr file (phdr_of l);
      if ok then ret (inl (i + 1, i32 (file_ofs + sizeof_phdr))) else ret (inr false)
    else ret (inr true)) (0, i32 (e_phoff ehdr)).

(** What load() checks of the header. *)
Definition bad_header (l : list Z) : bool :=
  let ehdr := ehdr_of l in
  negb (Z.of_nat (length l) =? sizeof_ehdr) || negb (bool_decide (take 7 (e_ident ehdr) = elf_magic)) ||
  negb (e_type ehdr =? 2) || negb (e_machine ehdr =? 3) || negb (e_version ehdr =? 1) ||
  negb (e_phentsize ehdr =? sizeof_phdr) || (1024 <? e_phnum ehdr).

Definition load_open (file : Z) (file_name : list Z) : M (proc F) (option (Z * Z)) :=
  l ← on_files (svc_read file sizeof_ehdr);
  if bad_header l then printf (BadExecutable file_name);; ret None else
  ok ← load_phdrs file (ehdr_of l);
  if negb ok then ret None else
  esp ← setup_stack;
  match esp with
  | Some esp => ret (Some (e_entry (ehdr_of l), esp))
  | None => ret None
  end.

(** [Some (eip, esp)] if load() is successful. *)
Definition load (file_name : list Z) : M (proc F) (option (Z * Z)) :=
  pd ← on_pages pagedir_create;
  modify (set_pagedir pd);;
  if pd =? NULL then ret None else
  process_activate;;
  file ← on_files (svc_open file_name);
  if file =? NULL then printf (OpenFailed file_name);; ret None else
  success ← load_open file file_name;
  on_files (svc_close file);;
  ret success.

(** Waiting for a child is not implemented. *)
Definition process_wait (child_tid : Z) : M (proc F) Z := ret (-1).

(** The string in a page. *)
Definition page_string (p : Z) : M (proc F) (list Z) :=
  s ← get;
  l ← of_option BadAccess (frames s !! p);
  of_option BadAccess (match list_find (fun c => c = 0) l with Some (k, _) => Some (take k l) | None => None end).

(** What the new thread does: it leaves for user mode with an interrupt frame,
    or ends with thread_exit(), which calls process_exit(). *)
Definition start_process (f_name : Z) : M (proc F) (option intr_frame) :=
  file_name ← page_string f_name;
  success ← load file_name;
  on_pages (free_page f_name);;
  match success with
  | None => process_exit;; ret None
  | Some (eip, esp) =>
      ret (Some (mk_frame SEL_UDSEG SEL_UDSEG SEL_UDSEG SEL_UDSEG SEL_UDSEG SEL_UCSEG (Z.lor FLAG_IF FLAG_MBS) eip esp))
  end.
End Process.
