(* ===== verification/ProcessOps.v ===== *)
(** * Loading a program: specification and operations

    What an ELF executable stands for, and then what the functions of the loader
    do. *)

From Stdlib Require Import ZArith Lia.
From stdpp Require Import base numbers gmap list.
From S2P Require Import Prelude Bitmap Vaddr Palloc PageDir PageDirSpec PageDirOps Gdt FileService Process.

Open Scope Z_scope.

(** * What an executable stands for

    The pages that a program starts with: an image maps the numbers of pages to
    their contents and to whether they can be written.  [elf_image] computes the
    image of an executable, or that it is not one that can be loaded. *)

Abbreviation image := (gmap Z (bool * list Z)).

(** [n] bytes of the file, then zeroes. *)
Definition page_bytes (cs : list Z) (ofs n : Z) : list Z :=
  take (Z.to_nat n) (drop (Z.to_nat ofs) cs) ++ replicate (Z.to_nat (4096 - n)) 0.

Definition add_page (v : Z) (w : bool) (bs : list Z) (img : image) : option image :=
  match img !! v with Some _ => None | None => Some (<[v := (w, bs)]> img) end.

(** [k] pages from page [v] on, with [rb] bytes of the file and then zeroes. *)
Fixpoint add_pages (cs : list Z) (k : nat) (v ofs rb : Z) (w : bool) (img : image) : option image :=
  match k with
  | O => Some img
  | S k =>
      let n := Z.min rb 4096 in
      if ofs + n <=? Z.of_nat (length cs) then
        add_page v w (page_bytes cs ofs n) img ≫= add_pages cs k (v + 1) (ofs + n) (rb - n) w
      else None
  end.

(** A segment that may be loaded. *)
Definition segment_valid (cs : list Z) (ph : Elf32_Phdr) : bool :=
  (p_offset ph mod 4096 =? p_vaddr ph mod 4096) && (p_offset ph <=? Z.of_nat (length cs)) && (p_filesz ph <=? p_memsz ph) &&
  (0 <? p_memsz ph) && (p_vaddr ph + p_memsz ph <? PHYS_BASE) && (4096 <=? p_vaddr ph).

Definition seg_writable (ph : Elf32_Phdr) : bool := negb (Z.land (p_flags ph) PF_W =? 0).

(** The pages of a segment and the bytes of the file in them. *)
Definition seg_pages (ph : Elf32_Phdr) : Z := (p_vaddr ph mod 4096 + p_memsz ph + 4095) / 4096.
Definition seg_read (ph : Elf32_Phdr) : Z := if 0 <? p_filesz ph then p_vaddr ph mod 4096 + p_filesz ph else 0.

Definition add_segment (cs : list Z) (ph : Elf32_Phdr) (img : image) : option image :=
  if (p_type ph =? PT_DYNAMIC) || (p_type ph =? PT_INTERP) || (p_type ph =? PT_SHLIB) then None
  else if p_type ph =? PT_LOAD then
    if segment_valid cs ph then
      add_pages cs (Z.to_nat (seg_pages ph)) (p_vaddr ph / 4096) (p_offset ph / 4096 * 4096) (seg_read ph) (seg_writable ph) img
    else None
  else Some img.

(** Program header [ofs] bytes into the file. *)
Definition phdr_at (cs : list Z) (ofs : Z) : Elf32_Phdr := phdr_of (take 32 (drop (Z.to_nat ofs) cs)).

Fixpoint add_segments (cs : list Z) (n : nat) (ofs : Z) (img : image) : option image :=
  match n with
  | O => Some img
  | S n =>
      if (0 <=? ofs) && (ofs + 32 <=? Z.of_nat (length cs)) then
        add_segment cs (phdr_at cs ofs) img ≫= add_segments cs n (ofs + 32)
      else None
  end.

Definition stack_page : Z := PHYS_BASE / 4096 - 1.

Definition header (cs : list Z) : Elf32_Ehdr := ehdr_of (take 52 cs).

Definition elf_image (cs : list Z) : option (Z * image) :=
  if bad_header (take 52 cs) then None else
  pair (e_entry (header cs)) <$>
    (add_segments cs (Z.to_nat (e_phnum (header cs))) (i32 (e_phoff (header cs))) ∅ ≫= add_page stack_page true zero_frame).

(** ** What the image holds *)

(** The byte of an image at a virtual address, and whether it can be written. *)
Definition byte_in (img : image) (va : Z) (w : bool) (b : Z) : Prop :=
  exists bs, img !! (va / 4096) = Some (w, bs) /\ bs !! Z.to_nat (va mod 4096) = Some b.

Lemma byte_in_subseteq img img' va w b : img ⊆ img' -> byte_in img va w b -> byte_in img' va w b.
Proof. intros H (bs & E & Hb). exists bs. split; [by eapply lookup_weaken|done]. Qed.

Lemma add_page_Some v w bs img img' : add_page v w bs img = Some img' -> img !! v = None /\ img' = <[v := (w, bs)]> img.
Proof. unfold add_page. destruct (img !! v); [done|]. by intros [= <-]. Qed.

Lemma page_bytes_lookup cs ofs n x : 0 <= ofs -> 0 <= n <= 4096 -> ofs + n <= Z.of_nat (length cs) -> 0 <= x < 4096 ->
  exists b, page_bytes cs ofs n !! Z.to_nat x = Some b /\ if x <? n then cs !! Z.to_nat (ofs + x) = Some b else b = 0.
Proof.
  intros Ho Hn Hl Hx. unfold page_bytes. assert (El : length (take (Z.to_nat n) (drop (Z.to_nat ofs) cs)) = Z.to_nat n) by (rewrite length_take, length_drop; lia).
  destruct (Z.ltb_spec x n) as [Hlt|Hge].
  - rewrite lookup_app_l by lia. rewrite lookup_take_lt, lookup_drop by lia. replace (Z.to_nat ofs + Z.to_nat x)%nat with (Z.to_nat (ofs + x)) by lia.
    destruct (lookup_lt_is_Some_2 cs (Z.to_nat (ofs + x))) as [b Hb]; [lia|]. by exists b.
  - exists 0. split; [|done]. rewrite lookup_app_r, El by lia. apply lookup_replicate_2. lia.
Qed.

Section Pages.
Context (cs : list Z) (w : bool).

Lemma add_pages_subseteq k : forall v ofs rb img img', add_pages cs k v ofs rb w img = Some img' -> img ⊆ img'.
Proof.
  induction k as [|k IH]; intros v ofs rb img img'; cbn [add_pages]; [by intros [= <-]|]. case_match; [|done].
  intros (img1 & E & H1)%bind_Some. apply add_page_Some in E as [En ->]. etransitivity; [by apply insert_subseteq|by eapply IH].
Qed.

Lemma add_pages_dom k : forall v ofs rb img img' u, add_pages cs k v ofs rb w img = Some img' -> is_Some (img' !! u) ->
  is_Some (img !! u) \/ v <= u < v + Z.of_nat k.
Proof.
  induction k as [|k IH]; intros v ofs rb img img' u; cbn [add_pages]; [intros [= <-]; by left|]. case_match; [|done].
  intros (img1 & E & H1)%bind_Some Hu. apply add_page_Some in E as [En ->]. destruct (IH _ _ _ _ _ u H1 Hu) as [H2|]; [|right; lia].
  destruct (decide (u = v)) as [->|Hne]; [right; lia|]. rewrite lookup_insert_ne in H2 by done. by left.
Qed.

Lemma add_pages_byte k : forall v ofs rb img img' x, add_pages cs k v ofs rb w img = Some img' -> 0 <= ofs -> 0 <= rb -> 0 <= x < 4096 * Z.of_nat k ->
  exists b, byte_in img' (4096 * v + x) w b /\ if x <? rb then cs !! Z.to_nat (ofs + x) = Some b else b = 0.
Proof.
  induction k as [|k IH]; intros v ofs rb img img' x; cbn [add_pages]; [lia|]. destruct (Z.leb_spec (ofs + Z.min rb 4096) (Z.of_nat (length cs))) as [Hl|]; [|done].
  intros (img1 & E & H1)%bind_Some Ho Hrb Hx. apply add_page_Some in E as [En ->]. destruct (decide (x < 4096)) as [Hlt|Hge].
  - destruct (page_bytes_lookup cs ofs (Z.min rb 4096) x) as (b & Hb & Hv); [lia..|]. exists b. split.
    + eapply byte_in_subseteq; [by eapply add_pages_subseteq|]. eexists. split.
      * replace ((4096 * v + x) / 4096) with v by (Z.to_euclidean_division_equations; lia). apply lookup_insert_eq.
      * by replace ((4096 * v + x) mod 4096) with x by (Z.to_euclidean_division_equations; lia).
    + by replace (x <? rb) with (x <? Z.min rb 4096) by lia.
  - destruct (IH _ _ _ _ _ (x - 4096) H1) as (b & Hb & Hv); [lia..|]. replace (4096 * (v + 1) + (x - 4096)) with (4096 * v + x) in Hb by lia.
    exists b. split; [done|]. destruct (Z.ltb_spec x rb).
    + replace (x - 4096 <? rb - Z.min rb 4096) with true in Hv by lia. by replace (ofs + Z.min rb 4096 + (x - 4096)) with (ofs + x) in Hv by lia.
    + by replace (x - 4096 <? rb - Z.min rb 4096) with false in Hv by lia.
Qed.
End Pages.

Lemma segment_valid_iff cs ph : segment_valid cs ph = true <->
  p_offset ph mod 4096 = p_vaddr ph mod 4096 /\ p_offset ph <= Z.of_nat (length cs) /\ p_filesz ph <= p_memsz ph /\
  0 < p_memsz ph /\ p_vaddr ph + p_memsz ph < PHYS_BASE /\ 4096 <= p_vaddr ph.
Proof. unfold segment_valid. rewrite !andb_true_iff, Z.eqb_eq, !Z.leb_le, !Z.ltb_lt. tauto. Qed.

(** Members of a program header are unsigned integers of 32 bits. *)
Lemma long_of_range l k : 0 <= long_of l k < 2 ^ 32.
Proof. by apply uwrap_range. Qed.

Definition phdr_ok (ph : Elf32_Phdr) : Prop :=
  in_u 32 (p_type ph) /\ in_u 32 (p_offset ph) /\ in_u 32 (p_vaddr ph) /\ in_u 32 (p_filesz ph) /\ in_u 32 (p_memsz ph) /\ in_u 32 (p_flags ph).
Lemma phdr_of_ok l : phdr_ok (phdr_of l).
Proof. split_and!; apply long_of_range. Qed.

(** The bytes of a segment: those of the file, and then zeroes. *)
Definition segment_in (cs : list Z) (ph : Elf32_Phdr) (img : image) : Prop :=
  segment_valid cs ph = true /\ forall j, 0 <= j < p_memsz ph ->
  exists b, byte_in img (p_vaddr ph + j) (seg_writable ph) b /\ if j <? p_filesz ph then cs !! Z.to_nat (p_offset ph + j) = Some b else b = 0.

Definition refused (ph : Elf32_Phdr) : Prop := p_type ph = PT_DYNAMIC \/ p_type ph = PT_INTERP \/ p_type ph = PT_SHLIB.

Lemma add_segment_ok cs ph img img' : phdr_ok ph -> add_segment cs ph img = Some img' ->
  ~ refused ph /\ img ⊆ img' /\ (p_type ph = PT_LOAD -> segment_in cs ph img') /\
  forall u, is_Some (img' !! u) -> is_Some (img !! u) \/ (p_type ph = PT_LOAD /\ p_vaddr ph / 4096 <= u <= (p_vaddr ph + p_memsz ph - 1) / 4096).
Proof.
  intros (_ & Ho & Hv & Hf & _ & _). unfold in_u in *. unfold add_segment, refused.
  destruct (Z.eqb_spec (p_type ph) PT_DYNAMIC), (Z.eqb_spec (p_type ph) PT_INTERP), (Z.eqb_spec (p_type ph) PT_SHLIB); cbn [orb]; try done.
  destruct (Z.eqb_spec (p_type ph) PT_LOAD) as [El|]; [|by intros [= <-]; split_and!; [tauto|done|done|auto]].
  destruct (segment_valid cs ph) eqn:Ev; [|done]. intros H. pose proof (proj1 (segment_valid_iff cs ph) Ev) as (H1 & H2 & H3 & H4 & H5 & H6).
  assert (Ek : 0 <= seg_pages ph) by (apply Z.div_pos; [|lia]; pose proof (Z.mod_pos_bound (p_vaddr ph) 4096); lia).
  split_and!; [tauto|by eapply add_pages_subseteq| |].
  - intros _. split; [done|]. intros j Hj.
    destruct (add_pages_byte cs _ _ _ _ _ _ _ (p_vaddr ph mod 4096 + j) H) as (b & Hb & Hbv).
    + apply Z.mul_nonneg_nonneg; [apply Z.div_pos; lia|lia].
    + unfold seg_read. case_match; [|done]. pose proof (Z.mod_pos_bound (p_vaddr ph) 4096). lia.
    + rewrite Z2Nat.id by done. unfold seg_pages. Z.to_euclidean_division_equations; lia.
    + exists b. split; [by replace (p_vaddr ph + j) with (4096 * (p_vaddr ph / 4096) + (p_vaddr ph mod 4096 + j)) by (Z.to_euclidean_division_equations; lia)|].
      unfold seg_read in Hbv. destruct (Z.ltb_spec 0 (p_filesz ph)) as [Hp|Hp].
      * replace (p_vaddr ph mod 4096 + j <? p_vaddr ph mod 4096 + p_filesz ph) with (j <? p_filesz ph) in Hbv by lia.
        by replace (p_offset ph / 4096 * 4096 + (p_vaddr ph mod 4096 + j)) with (p_offset ph + j) in Hbv by (rewrite <- H1; Z.to_euclidean_division_equations; lia).
      * replace (j <? p_filesz ph) with false by lia. replace (p_vaddr ph mod 4096 + j <? 0) with false in Hbv; [done|]. Z.to_euclidean_division_equations; lia.
  - intros u Hu. destruct (add_pages_dom _ _ _ _ _ _ _ _ u H Hu) as [?|Hr]; [by left|right]. split; [done|]. rewrite Z2Nat.id in Hr by done.
    unfold seg_pages in Hr. Z.to_euclidean_division_equations; lia.
Qed.

(** Program header [i] of an executable. *)
Definition elf_phdr (cs : list Z) (i : Z) : Elf32_Phdr := phdr_at cs (i32 (e_phoff (header cs)) + 32 * i).

Lemma segment_in_subseteq cs ph img img' : img ⊆ img' -> segment_in cs ph img -> segment_in cs ph img'.
Proof. intros Hs [Hv H]. split; [done|]. intros j Hj. destruct (H j Hj) as (b & Hb & ?). exists b. split; [by eapply byte_in_subseteq|done]. Qed.

Lemma add_segments_ok cs n : forall ofs img img', add_segments cs n ofs img = Some img' ->
  img ⊆ img' /\ (forall i, 0 <= i < Z.of_nat n -> let ph := phdr_at cs (ofs + 32 * i) in ~ refused ph /\ (p_type ph = PT_LOAD -> segment_in cs ph img')) /\
  forall u, is_Some (img' !! u) -> is_Some (img !! u) \/ exists i, 0 <= i < Z.of_nat n /\ let ph := phdr_at cs (ofs + 32 * i) in
    p_type ph = PT_LOAD /\ p_vaddr ph / 4096 <= u <= (p_vaddr ph + p_memsz ph - 1) / 4096.
Proof.
  induction n as [|n IH]; intros ofs img img'; cbn [add_segments]; [intros [= <-]; split_and!; [done|lia|by left]|]. case_match; [|done].
  intros (img1 & E & H1)%bind_Some. destruct (add_segment_ok _ _ _ _ (phdr_of_ok _) E) as (Hr & Hs & Hin & Hdom). destruct (IH _ _ _ H1) as (Hs1 & Hin1 & Hdom1).
  assert (Eo : forall i, ofs + 32 + 32 * (i - 1) = ofs + 32 * i) by lia. split_and!; [by etransitivity| |].
  - intros i Hi. destruct (decide (i = 0)) as [->|Hne].
    + rewrite Z.add_0_r. split; [done|]. intros Hl. eapply segment_in_subseteq; [exact Hs1|by apply Hin].
    + rewrite <- Eo. apply Hin1. lia.
  - intros u Hu. destruct (Hdom1 u Hu) as [H2|(i & Hi & Hr2)].
    + destruct (Hdom u H2) as [?|Hr2]; [by left|right]. exists 0. split; [lia|]. by rewrite Z.add_0_r.
    + right. exists (i + 1). split; [lia|]. rewrite <- Eo. by replace (i + 1 - 1) with i by lia.
Qed.

Lemma elf_image_ok cs entry img : elf_image cs = Some (entry, img) ->
  bad_header (take 52 cs) = false /\ entry = e_entry (header cs) /\ img !! stack_page = Some (true, zero_frame) /\
  (forall i, 0 <= i < e_phnum (header cs) -> ~ refused (elf_phdr cs i) /\ (p_type (elf_phdr cs i) = PT_LOAD -> segment_in cs (elf_phdr cs i) img)) /\
  forall u, is_Some (img !! u) -> u = stack_page \/ exists i, 0 <= i < e_phnum (header cs) /\ p_type (elf_phdr cs i) = PT_LOAD /\
    p_vaddr (elf_phdr cs i) / 4096 <= u <= (p_vaddr (elf_phdr cs i) + p_memsz (elf_phdr cs i) - 1) / 4096.
Proof.
  unfold elf_image. destruct (bad_header (take 52 cs)); [done|]. intros (img' & E & [= -> ->])%fmap_Some.
  apply bind_Some in E as (img1 & E & Hst). apply add_page_Some in Hst as [Hn ->]. destruct (add_segments_ok _ _ _ _ _ E) as (_ & Hin & Hdom).
  assert (Hph : 0 <= e_phnum (header cs)) by (by apply uwrap_range). rewrite Z2Nat.id in Hin, Hdom by done.
  assert (Hs : img1 ⊆ <[stack_page := (true, zero_frame)]> img1) by (by apply insert_subseteq).
  split_and!; [done|done|apply lookup_insert_eq| |].
  - intros i Hi. destruct (Hin i Hi) as [H1 H2]. split; [done|]. intros Hl. eapply segment_in_subseteq; [exact Hs|by apply H2].
  - intros u Hu. destruct (decide (u = stack_page)) as [->|Hne]; [by left|right]. rewrite lookup_insert_ne in Hu by done.
    destruct (Hdom u Hu) as [H|H]; [by rewrite lookup_empty in H; destruct H|exact H].
Qed.

(** * Loading a program: the operations

    [working] relates the state while a program is loaded to the image built so
    far; every step of the loader extends the image or leaves it alone. *)

(** An address space shows an image: it maps the pages of the image, to frames
    that hold their bytes, and no other page. *)
Definition shows (fr : gmap Z (list Z)) (sp : gmap Z entry) (img : image) : Prop :=
  forall v, match sp !! v, img !! v with
  | Some e, Some (w, bs) => e = mk_entry (frame e) true w false false /\ fr !! frame e = Some bs
  | None, None => True
  | _, _ => False
  end.

(** The pages that other programs use. *)
Definition page_in_use (D : gmap Z (gmap Z entry)) (H : gset Z) (p : Z) : Prop :=
  p ∈ H \/ exists pd sp v e, D !! pd = Some sp /\ sp !! v = Some e /\ present e = true /\ frame e = p.

Lemma shows_frame fr sp img v e : shows fr sp img -> sp !! v = Some e -> present e = true /\ exists w bs, img !! v = Some (w, bs) /\ fr !! frame e = Some bs.
Proof. intros H E. specialize (H v). rewrite E in H. destruct (img !! v) as [[w bs]|]; [|done]. destruct H as [Ee Hf]. split; [by rewrite Ee|eauto]. Qed.

Lemma shows_mapped fr sp img v : shows fr sp img -> mapped_at sp v = match img !! v with Some _ => true | None => false end.
Proof.
  intros H. specialize (H v). unfold mapped_at. destruct (sp !! v) as [e|], (img !! v) as [[w bs]|]; try done. destruct H as [-> _]. done.
Qed.

Lemma shows_store fr sp img p l : shows fr sp img -> (forall v e, sp !! v = Some e -> frame e <> p) -> shows (<[p := l]> fr) sp img.
Proof.
  intros H Hp v. specialize (H v). destruct (sp !! v) as [e|] eqn:E; [|done]. destruct (img !! v) as [[w bs]|]; [|done].
  rewrite lookup_insert_ne; [done|]. intros Ep. by apply (Hp v e).
Qed.

Lemma shows_add fr sp img v p w bs : shows fr sp img -> fr !! p = Some bs ->
  shows fr (<[v := mk_entry p true w false false]> sp) (<[v := (w, bs)]> img).
Proof.
  intros H Hp u. destruct (decide (u = v)) as [->|Hne]; [by rewrite !lookup_insert_eq|]. rewrite !lookup_insert_ne by done. apply H.
Qed.

Section Working.
Context {machine : Machine} {junk : Frames} {F : Type} {service : FileService F} {others : Z -> Prop}.
Abbreviation pd_inv := (pd_inv others).
Abbreviation pools_of s := (page_pools (vm (hw s))).

(** Where the loader started: the directory [pd] of the new program, the open
    executable [h] with its contents, and what is not the loader's. *)
Context (pd h : Z) (cs : list Z) (D0 : gmap Z (gmap Z entry)) (H0 : gset Z) (v0 : file_view) (hw0 : cpu) (fr0 : gmap Z (list Z)) (con0 : list message).
Context (Hpd : D0 !! pd = None).

Record working (s : proc F) (hl : gset Z) (img : image) (pos : Z) (O : gmap Z tag) (sp : gmap Z entry) : Prop := {
  wk_inv : pd_inv (vm (hw s)) O (mk_spaces (<[pd := sp]> D0) hl pd);
  wk_shows : shows (frames s) sp img;
  wk_file : svc_view (fsys s) (set_opened (<[h := (cs, pos)]> (opened v0)) v0);
  wk_dir : pagedir s = pd;
  wk_held : H0 ⊆ hl;
  wk_kept : forall p, page_in_use D0 H0 p -> frames s !! p = fr0 !! p;
  wk_hw : hw s = set_vm (vm (hw s)) hw0;
  wk_console : console s = con0 }.

(** Pages that are not this program's. *)
Lemma in_use_owned s hl img pos O sp p : working s hl img pos O sp -> page_in_use D0 H0 p ->
  (p ∈ H0 /\ O !! p = Some Held) \/ exists pd' v, O !! p = Some (Frame pd' v).
Proof using Hpd.
  intros W [Hp|(pd' & sp' & v & e & Hsp & He & Hpr & Hf)]; destruct (wk_inv _ _ _ _ _ _ W) as [I _].
  - left. split; [done|]. apply (pb_held _ _ _ _ I). cbn. by apply (wk_held _ _ _ _ _ _ W).
  - right. exists pd', v. apply (pb_frame _ _ _ _ I). exists sp', e. cbn. split; [|done]. rewrite lookup_insert_ne; [done|]. intros ->. congruence.
Qed.

Lemma frame_owned s hl img pos O sp v e : working s hl img pos O sp -> sp !! v = Some e -> O !! frame e = Some (Frame pd v).
Proof using.
  intros W He. destruct (wk_inv _ _ _ _ _ _ W) as [I _]. apply (pb_frame _ _ _ _ I). exists sp, e. cbn. rewrite lookup_insert_eq.
  destruct (shows_frame _ _ _ _ _ (wk_shows _ _ _ _ _ _ W) He) as [? _]. done.
Qed.

(** Changing a page that nobody has. *)
Lemma store_fresh s hl img pos O sp p l : working s hl img pos O sp -> (p ∉ H0) -> O !! p = None \/ O !! p = Some Held ->
  shows (<[p := l]> (frames s)) sp img /\ forall q, page_in_use D0 H0 q -> <[p := l]> (frames s) !! q = fr0 !! q.
Proof using Hpd.
  intros W Hp HO. split.
  - apply shows_store; [apply (wk_shows _ _ _ _ _ _ W)|]. intros v e He <-. pose proof (frame_owned _ _ _ _ _ _ _ _ W He). destruct HO; congruence.
  - intros q Hq. rewrite lookup_insert_ne; [by apply (wk_kept _ _ _ _ _ _ W)|]. intros ->.
    destruct (in_use_owned _ _ _ _ _ _ _ W Hq) as [[? _]|(pd' & v & E)]; [done|]. destruct HO; congruence.
Qed.

Lemma working_vm s hl img pos O sp v O' sp' hl' img' : working s hl img pos O sp -> pd_inv v O' (mk_spaces (<[pd := sp']> D0) hl' pd) ->
  H0 ⊆ hl' -> shows (frames s) sp' img' -> working (set_hw (set_vm v (hw s)) s) hl' img' pos O' sp'.
Proof using.
  intros [W1 W2 W3 W4 W5 W6 W7 W8] HI Hh Hs. split; try done. cbn. rewrite W7. done.
Qed.

(** ** Steps *)

Lemma wp_get_frame s img pos O sp flags (Q : Z -> proc F -> Prop) : working s H0 img pos O sp -> Z.land flags PAL_ASSERT = 0 -> user_flag flags = true ->
  (pool_full (pools_of s) true -> Q NULL s) ->
  (forall i p s' O', working s' ({[p]} ∪ H0) img pos O' sp -> (p ∉ H0) -> p <> NULL -> O' !! p = Some Held -> page_at (pools_of s') true i p ->
     frames s' !! p = Some (if negb (Z.land flags PAL_ZERO =? 0) then zero_frame else junk_frame p) -> Q p s') ->
  wp (get_frame flags) Q s.
Proof using Hpd.
  intros W Ha Hu H1 H2. unfold get_frame, on_pages, on_hw, on_vm. set (l := fun p => if negb (Z.land flags PAL_ZERO =? 0) then zero_frame else junk_frame p) in *.
  change (forall i p s' O', working s' ({[p]} ∪ H0) img pos O' sp -> (p ∉ H0) -> p <> NULL -> O' !! p = Some Held -> page_at (pools_of s') true i p ->
    frames s' !! p = Some (l p) -> Q p s') in H2.
  apply wp_bind, wp_zoom, wp_zoom.
  eapply wp_get_page_at; [apply (wk_inv _ _ _ _ _ _ W)|exact Ha| |]; rewrite Hu.
  - intros Hfull. cbn [Z.eqb]. apply wp_ret. destruct s as [[] ? ? ? ?]. by apply H1.
  - intros i p v HO Hno Hn _ _ Hat HI. rewrite (proj2 (Z.eqb_neq _ _) Hn). apply wp_bind. red. cbn [modify]. apply wp_ret.
    change (if negb (Z.land flags PAL_ZERO =? 0) then zero_frame else junk_frame p) with (l p). clearbody l.
    assert (Hp : p ∉ H0). { intros Hp. assert (O !! p = Some Held) by (apply (pb_held _ _ _ _ (proj1 (wk_inv _ _ _ _ _ _ W))); done). congruence. }
    destruct (store_fresh _ _ _ _ _ _ p (l p) W Hp ltac:(by left)) as [Hs Hk].
    apply (H2 i p _ (<[p := Held]> O)); [|done|done|apply lookup_insert_eq|exact Hat|apply lookup_insert_eq].
    destruct W as [W1 W2 W3 W4 W5 W6 W7 W8]. split; cbn [hw frames fsys pagedir console vm set_hw set_frames set_vm]; try done; [set_solver|by rewrite W7].
Qed.

Lemma wp_store_bytes s img pos O sp p l ofs bs (Q : unit -> proc F -> Prop) : working s ({[p]} ∪ H0) img pos O sp -> (p ∉ H0) -> O !! p = Some Held ->
  frames s !! p = Some l ->
  (forall s', working s' ({[p]} ∪ H0) img pos O sp -> hw s' = hw s -> frames s' !! p = Some (take (Z.to_nat ofs) l ++ bs ++ drop (Z.to_nat ofs + length bs) l) -> Q tt s') ->
  wp (store_bytes p ofs bs) Q s.
Proof using Hpd.
  intros W Hp HO Hl HQ. unfold store_bytes. apply wp_bind. red. cbn [get]. rewrite Hl. apply wp_bind, wp_ret. red. cbn [modify].
  destruct (store_fresh _ _ _ _ _ _ p (take (Z.to_nat ofs) l ++ bs ++ drop (Z.to_nat ofs + length bs) l) W Hp ltac:(by right)) as [Hs Hk].
  apply HQ; [|done|apply lookup_insert_eq]. destruct W as [W1 W2 W3 W4 W5 W6 W7 W8]. by split.
Qed.

Lemma wp_read_file s hl img pos O sp size (Q : list Z -> proc F -> Prop) : working s hl img pos O sp -> 0 <= size < 2 ^ 31 ->
  (forall s', let r := take (Z.to_nat size) (drop (Z.to_nat pos) cs) in working s' hl img (pos + Z.of_nat (length r)) O sp -> hw s' = hw s -> frames s' = frames s -> Q r s') ->
  wp (on_files (svc_read h size)) Q s.
Proof using.
  intros W Hs HQ. apply wp_zoom. eapply wp_mono; [eapply (svc_read_ok _ _ h cs pos size (wk_file _ _ _ _ _ _ W)); [apply lookup_insert_eq|done]|].
  intros r f [-> Hv]. apply HQ; [|done|done]. cbn [opened set_opened] in Hv. rewrite insert_insert_eq in Hv. destruct W as [W1 W2 W3 W4 W5 W6 W7 W8]. by split.
Qed.

Lemma wp_seek_file s hl img pos O sp n (Q : unit -> proc F -> Prop) : working s hl img pos O sp -> 0 <= n < 2 ^ 31 ->
  (forall s', working s' hl img n O sp -> hw s' = hw s -> Q tt s') -> wp (on_files (svc_seek h n)) Q s.
Proof using.
  intros W Hs HQ. apply wp_zoom. eapply wp_mono; [eapply (svc_seek_ok _ _ h cs pos n (wk_file _ _ _ _ _ _ W)); [apply lookup_insert_eq|done]|].
  intros [] f Hv. apply HQ; [|done]. cbn [opened set_opened] in Hv. rewrite insert_insert_eq in Hv. destruct W as [W1 W2 W3 W4 W5 W6 W7 W8]. by split.
Qed.

Lemma wp_length_file s hl img pos O sp (Q : Z -> proc F -> Prop) : working s hl img pos O sp ->
  (forall s', working s' hl img pos O sp -> hw s' = hw s -> Z.of_nat (length cs) < 2 ^ 31 -> Q (Z.of_nat (length cs)) s') -> wp (on_files (svc_length h)) Q s.
Proof using.
  intros W HQ. apply wp_zoom. eapply wp_mono; [eapply (svc_length_ok _ _ h cs pos (wk_file _ _ _ _ _ _ W)); apply lookup_insert_eq|].
  intros r f [-> Hv]. apply HQ; [|done|].
  - destruct W as [W1 W2 W3 W4 W5 W6 W7 W8]. by split.
  - eapply (svc_small _ _ h cs pos (wk_file _ _ _ _ _ _ W)), lookup_insert_eq.
Qed.

(** Giving a frame back; the kernel pool is not affected. *)
Lemma wp_free_frame s img pos O sp p i (Q : unit -> proc F -> Prop) : working s ({[p]} ∪ H0) img pos O sp -> (p ∉ H0) -> page_at (pools_of s) true i p ->
  (forall s' O', working s' H0 img pos O' sp -> (pool_full (pools_of s) false -> pool_full (pools_of s') false) -> Q tt s') ->
  wp (on_pages (free_page p)) Q s.
Proof using Hpd.
  intros W Hp Hat HQ. apply wp_zoom, wp_zoom. pose proof (wk_inv _ _ _ _ _ _ W) as HI. eapply wp_free_held; [exact HI|set_solver|].
  intros v HI' Hg Ht. apply (HQ _ (delete p O)).
  - eapply working_vm; [exact W| |done|apply (wk_shows _ _ _ _ _ _ W)]. unfold set_held_pages in HI'. cbn [dirs held active] in HI'.
    by replace (({[p]} ∪ H0) ∖ {[p]}) with H0 in HI' by set_solver.
  - intros Hfull j q Hq. apply (geometry_page_at (pools_of s)) in Hq; [|exact Hg]. apply Ht. split; [by apply (Hfull j)|]. intros ->.
    destruct (pb_memory _ _ _ _ (proj1 HI)) as [Hw _]. by destruct (page_at_inj _ _ _ _ _ _ Hw Hq Hat).
Qed.

Lemma wp_install_page s img pos O sp p up w bs (Q : bool -> proc F -> Prop) : working s ({[p]} ∪ H0) img pos O sp -> (p ∉ H0) ->
  up mod 4096 = 0 -> 0 <= up < PHYS_BASE -> frames s !! p = Some bs ->
  (is_Some (img !! (up / 4096)) -> Q false s) -> (pool_full (pools_of s) false -> Q false s) ->
  (forall s' O' sp', img !! (up / 4096) = None -> working s' H0 (<[up / 4096 := (w, bs)]> img) pos O' sp' -> Q true s') ->
  wp (install_page up p w) Q s.
Proof using Hpd.
  intros W Hp Hal Hup Hbs H1 H2 H3. unfold install_page. apply wp_bind. red. cbn [gets]. rewrite (wk_dir _ _ _ _ _ _ W).
  pose proof (wk_inv _ _ _ _ _ _ W) as HI. pose proof (shows_mapped _ _ _ (up / 4096) (wk_shows _ _ _ _ _ _ W)) as Em.
  assert (Hsp : dirs (mk_spaces (<[pd := sp]> D0) ({[p]} ∪ H0) pd) !! pd = Some sp) by apply lookup_insert_eq.
  apply wp_bind, wp_zoom, wp_zoom. eapply wp_pagedir_get_page; [apply HI|exact Hsp|exact Hup|].
  replace (set_hw (set_vm (vm (hw s)) (hw s)) s) with s by (by destruct s as [[] ? ? ? ?]).
  destruct (img !! (up / 4096)) as [[w' bs']|] eqn:Ei.
  - unfold mapped_at in Em. destruct (sp !! (up / 4096)) as [e|] eqn:Ee; [|done]. rewrite Em.
    destruct (pb_entry _ _ _ _ (proj1 HI) pd sp _ e Hsp Ee) as [_ Hf]. destruct (frame_pos _ Hf) as (Hpos & _). pose proof (Z.mod_pos_bound up 4096).
    rewrite (proj2 (Z.eqb_neq _ _)) by (unfold NULL; lia). apply wp_ret, H1. by eexists.
  - assert (E : match sp !! (up / 4096) with Some e => if present e then frame e + up mod 4096 else NULL | None => NULL end = NULL).
    { unfold mapped_at in Em. destruct (sp !! (up / 4096)) as [e|]; [|done]. by rewrite Em. }
    rewrite E. cbn [Z.eqb]. apply wp_zoom, wp_zoom. eapply wp_pagedir_set_page; [exact HI|exact Hsp|exact Hal|exact Hup|cbn; set_solver|exact Em| |].
    + intros Hfull _. replace (set_hw (set_vm (vm (hw s)) (hw s)) s) with s by (by destruct s as [[] ? ? ? ?]). by apply H2.
    + intros v O' HI'. cbn [dirs held active] in HI'. rewrite insert_insert_eq in HI'. replace (({[p]} ∪ H0) ∖ {[p]}) with H0 in HI' by set_solver.
      eapply H3; [done|]. eapply working_vm; [exact W|exact HI'|done|]. apply shows_add; [apply (wk_shows _ _ _ _ _ _ W)|exact Hbs].
Qed.

(** ** Segments *)

(** What a part of the loader may return: success, with the image that the
    executable asks for, or failure, because there is no such image or no page. *)
Definition outcome_of (r : option image) (b : bool) (s' : proc F) : Prop :=
  exists img' pos' O' sp', working s' H0 img' pos' O' sp' /\
  if b then r = Some img' else r = None \/ pool_full (pools_of s') false \/ pool_full (pools_of s') true.

(** The page that has been read. *)
Lemma filled_page ofs n l : 0 <= ofs -> 0 <= n <= 4096 -> ofs + n <= Z.of_nat (length cs) -> length l = Z.to_nat PGSIZE ->
  let r := take (Z.to_nat n) (drop (Z.to_nat ofs) cs) in
  let l1 := take (Z.to_nat 0) l ++ r ++ drop (Z.to_nat 0 + length r) l in
  let z := replicate (Z.to_nat (PGSIZE - n)) 0 in
  take (Z.to_nat n) l1 ++ z ++ drop (Z.to_nat n + length z) l1 = page_bytes cs ofs n.
Proof using.
  intros Ho Hn Hl El r l1 z. change PGSIZE with 4096 in *. assert (Er : length r = Z.to_nat n) by (unfold r; rewrite length_take, length_drop; lia).
  assert (E1 : l1 = r ++ drop (length r) l) by done. unfold z. rewrite length_replicate, E1, take_app_length' by done.
  rewrite drop_ge by (rewrite length_app, length_drop, Er; lia). by rewrite app_nil_r.
Qed.

(** One round of the loop of load_segment(). *)
Lemma wp_segment_page s img O sp v ofs rb zb k w : working s H0 img ofs O sp -> 0 <= v -> 4096 * (v + Z.of_nat (S k)) <= PHYS_BASE -> 0 <= ofs <= Z.of_nat (length cs) ->
  0 <= rb <= 4096 * Z.of_nat (S k) -> zb = 4096 * Z.of_nat (S k) - rb ->
  let page_read_bytes := if rb <? PGSIZE then rb else PGSIZE in
  let page_zero_bytes := PGSIZE - page_read_bytes in
  wp (kpage ← get_frame PAL_USER;
      if kpage =? NULL then ret (inr false) else
      r ← on_files (svc_read h page_read_bytes);
      store_bytes kpage 0 r;;
      if negb (Z.of_nat (length r) =? page_read_bytes) then on_pages (free_page kpage);; ret (inr false)
      else
        store_bytes kpage page_read_bytes (replicate (Z.to_nat page_zero_bytes) 0);;
        ok ← install_page (4096 * v) kpage w;
        if negb ok then on_pages (free_page kpage);; ret (inr false)
        else ret (inl (u32 (4096 * v + PGSIZE), u32 (rb - page_read_bytes), u32 (zb - page_zero_bytes))))
   (fun r s' => match r with
    | inl (up, rb', zb') => exists img' O' sp', let n := Z.min rb 4096 in working s' H0 img' (ofs + n) O' sp' /\ up = 4096 * (v + 1) /\ ofs + n <= Z.of_nat (length cs) /\
        rb' = rb - n /\ 0 <= rb' <= 4096 * Z.of_nat k /\ zb' = 4096 * Z.of_nat k - rb' /\ add_pages cs (S k) v ofs rb w img = add_pages cs k (v + 1) (ofs + n) (rb - n) w img'
    | inr b => outcome_of (add_pages cs (S k) v ofs rb w img) b s'
    end) s.
Proof using Hpd.
  intros W Hv Hend Hofs Hrb -> prb pzb. unfold PHYS_BASE, LOADER_PHYS_BASE in *. assert (En : prb = Z.min rb 4096) by (unfold prb; change PGSIZE with 4096; destruct (Z.ltb_spec rb 4096); lia).
  unfold pzb. clear pzb. clearbody prb. subst prb. set (n := Z.min rb 4096). apply wp_bind. eapply wp_get_frame; [exact W|done|done| |].
  { intros Hfull. cbn [Z.eqb]. apply wp_ret. exists img, ofs, O, sp. auto. }
  intros i p s1 O1 W1 Hp Hn HO1 Hat1 Hf1. cbn [negb Z.land PAL_USER PAL_ZERO Z.eqb] in Hf1. rewrite (proj2 (Z.eqb_neq _ _) Hn).
  apply wp_bind. eapply wp_read_file; [exact W1|lia|]. intros s2 r W2 E2 Ef2. rewrite <- Ef2 in Hf1.
  apply wp_bind. eapply wp_store_bytes; [exact W2|exact Hp|exact HO1|exact Hf1|]. intros s3 W3 E3 Hf3. rewrite <- E2, <- E3 in Hat1.
  assert (Er : Z.of_nat (length r) = Z.min n (Z.of_nat (length cs) - ofs)) by (unfold r; rewrite length_take, length_drop; lia).
  assert (Ea : add_pages cs (S k) v ofs rb w img = if ofs + n <=? Z.of_nat (length cs) then add_page v w (page_bytes cs ofs n) img ≫= add_pages cs k (v + 1) (ofs + n) (rb - n) w else None) by done.
  rewrite Ea. clear Ea. destruct (Z.eqb_spec (Z.of_nat (length r)) n) as [Hlen|Hlen]; cbn [negb].
  2:{ apply wp_bind. eapply wp_free_frame; [exact W3|exact Hp|exact Hat1|]. intros s4 O4 W4 _. apply wp_ret. eexists _, _, _, _. split; [exact W4|]. left.
      destruct (Z.leb_spec (ofs + n) (Z.of_nat (length cs))); [lia|done]. }
  assert (Hfit : ofs + n <= Z.of_nat (length cs)) by lia. rewrite (proj2 (Z.leb_le _ _) Hfit). rewrite Hlen in W3.
  apply wp_bind. eapply wp_store_bytes; [exact W3|exact Hp|exact HO1|exact Hf3|]. intros s4 W4 E4 Hf4. rewrite <- E4 in Hat1.
  unfold r in Hf4. rewrite filled_page in Hf4 by (apply junk_frame_size || lia).
  assert (Edv : 4096 * v / 4096 = v) by (Z.to_euclidean_division_equations; lia).
  apply wp_bind. eapply (wp_install_page s4 img); [exact W4|exact Hp|Z.to_euclidean_division_equations; lia|unfold PHYS_BASE, LOADER_PHYS_BASE; lia|exact Hf4|..]; try rewrite Edv.
  - intros [x Hx]. cbn [negb]. apply wp_bind. eapply wp_free_frame; [exact W4|exact Hp|exact Hat1|]. intros s5 O5 W5 _. apply wp_ret.
    eexists _, _, _, _. split; [exact W5|]. left. unfold add_page. by rewrite Hx.
  - intros Hfull. cbn [negb]. apply wp_bind. eapply wp_free_frame; [exact W4|exact Hp|exact Hat1|]. intros s5 O5 W5 Hk. apply wp_ret.
    eexists _, _, _, _. split; [exact W5|]. auto.
  - intros s5 O5 sp5 Hnone W5. cbn [negb]. apply wp_ret. exists (<[v := (w, page_bytes cs ofs n)]> img), O5, sp5. change PGSIZE with 4096.
    rewrite !uwrap_small by (unfold in_u; lia). split_and!; [exact W5|lia|done|lia|lia|lia|lia|]. unfold add_page. by rewrite Hnone.
Qed.

Lemma wp_load_segment s img pos O sp k v ofs rb w : working s H0 img pos O sp -> 0 <= v -> 4096 * (v + Z.of_nat k) <= PHYS_BASE ->
  0 <= ofs <= Z.of_nat (length cs) -> ofs < 2 ^ 31 -> ofs mod 4096 = 0 -> 0 <= rb <= 4096 * Z.of_nat k ->
  wp (load_segment h ofs (4096 * v) rb (4096 * Z.of_nat k - rb) w) (outcome_of (add_pages cs k v ofs rb w img)) s.
Proof using Hpd.
  intros W Hv Hend Hofs Hofs' Hal Hrb. unfold PHYS_BASE, LOADER_PHYS_BASE in Hend. unfold load_segment. change PGSIZE with 4096.
  replace (rb + (4096 * Z.of_nat k - rb)) with (4096 * Z.of_nat k) by lia. rewrite uwrap_small by (unfold in_u; lia).
  apply wp_bind, wp_assertb; [apply Z.eqb_eq; Z.to_euclidean_division_equations; lia|].
  apply wp_bind, wp_assertb; [rewrite pg_ofs_mod; apply Z.eqb_eq; Z.to_euclidean_division_equations; lia|].
  apply wp_bind, wp_assertb; [apply Z.eqb_eq; rewrite Z.rem_mod_nonneg by lia; done|].
  apply wp_bind. eapply wp_seek_file; [exact W|lia|]. intros s1 W1 _. clear W s pos.
  eapply wp_iterate with (n := k) (I := fun n '(up, rb', zb') t => exists img' O' sp' v' ofs', working t H0 img' ofs' O' sp' /\ up = 4096 * v' /\ 0 <= v' /\
    4096 * (v' + Z.of_nat n) <= PHYS_BASE /\ 0 <= ofs' <= Z.of_nat (length cs) /\ 0 <= rb' <= 4096 * Z.of_nat n /\ zb' = 4096 * Z.of_nat n - rb' /\
    add_pages cs k v ofs rb w img = add_pages cs n v' ofs' rb' w img').
  - intros n [[up rb'] zb'] t (img' & O' & sp' & v' & ofs' & Wt & -> & Hv' & Hend' & Ho' & Hrb' & -> & ->). destruct n as [|n].
    + replace rb' with 0 by lia. cbn. eexists _, _, _, _. by split.
    + assert (Eg : (0 <? rb') || (0 <? 4096 * Z.of_nat (S n) - rb') = true) by (apply orb_true_iff; rewrite !Z.ltb_lt; lia). rewrite Eg. eapply wp_mono; [by eapply wp_segment_page|].
      intros [[[up rb2] zb2]|b] s' H; [|exact H]. destruct H as (img2 & O2 & sp2 & W2 & -> & Hf & -> & Hr2 & -> & ->). exists n. split; [lia|].
      exists img2, O2, sp2, (v' + 1), (ofs' + Z.min rb' 4096). split_and!; [exact W2|done|lia|lia|lia|lia|lia|lia|done|done].
  - exists img, O, sp, v, ofs. split_and!; [exact W1|done|lia|unfold PHYS_BASE, LOADER_PHYS_BASE; lia|lia|lia|lia|lia|done|done].
  - replace (4096 * Z.of_nat k / 4096) with (Z.of_nat k) by (Z.to_euclidean_division_equations; lia). lia.
Qed.
End Working.
