(* ===== verification/ProcessProps.v ===== *)
(** * Loading and ending programs: theorems

    The executable as a whole, and then the theorems on starting and ending a
    program. *)

From Stdlib Require Import ZArith Lia.
From stdpp Require Import base numbers gmap list.
From S2P Require Import Prelude Bitmap Vaddr Palloc FsProps PageDir PageDirSpec PageDirOps PageDirProps Gdt FileService FsService Process ProcessOps.

Open Scope Z_scope.

(** * Loading a program: the executable

    Program headers, the stack, and load() as a whole. *)

Section Load.
Context {machine : Machine} {junk : Frames} {F : Type} {service : FileService F} {others : Z -> Prop}.
Abbreviation pools_of s := (page_pools (vm (hw s))).

Section Executable.
Context (pd h : Z) (cs : list Z) (D0 : gmap Z (gmap Z entry)) (H0 : gset Z) (v0 : file_view) (hw0 : cpu) (fr0 : gmap Z (list Z)) (con0 : list message).
Context (Hpd : D0 !! pd = None).
Abbreviation working := (working (others := others) pd h cs D0 H0 v0 hw0 fr0 con0).
Abbreviation outcome_of := (outcome_of (others := others) pd h cs D0 H0 v0 hw0 fr0 con0).

Lemma wp_validate_segment s hl img pos O sp ph (Q : bool -> proc F -> Prop) : working s hl img pos O sp -> phdr_ok ph ->
  (forall s', working s' hl img pos O sp -> Z.of_nat (length cs) < 2 ^ 31 -> Q (segment_valid cs ph) s') -> (forall s', working s' hl img pos O sp -> segment_valid cs ph = false -> Q false s') ->
  wp (validate_segment ph h) Q s.
Proof using.
  intros W (_ & Ho & Hv & Hf & Hm & _) HQ HF. unfold in_u in *. unfold validate_segment. change (Z.land (p_offset ph) PGMASK) with (pg_ofs (p_offset ph)).
  change (Z.land (p_vaddr ph) PGMASK) with (pg_ofs (p_vaddr ph)). rewrite !pg_ofs_mod.
  assert (Hno : forall s', working s' hl img pos O sp -> ~ segment_valid cs ph = true -> Q false s').
  { intros s' Ws' Hn. apply HF; [done|]. by destruct (segment_valid cs ph). }
  setoid_rewrite segment_valid_iff in Hno. unfold PHYS_BASE, LOADER_PHYS_BASE in Hno. destruct (Z.eqb_spec (p_offset ph mod 4096) (p_vaddr ph mod 4096)) as [E1|E1]; cbn [negb]; [|apply wp_ret, Hno; [done|tauto]].
  apply wp_bind. eapply wp_length_file; [exact W|]. intros s' Ws' _ Hl. rewrite (uwrap_small 32 (Z.of_nat _)) by (unfold in_u; lia).
  unfold is_user_vaddr in *. unfold PHYS_BASE, LOADER_PHYS_BASE in *. change PGSIZE with 4096.
  destruct (Z.ltb_spec (Z.of_nat (length cs)) (p_offset ph)); [apply wp_ret, Hno; [done|lia]|].
  destruct (Z.ltb_spec (p_memsz ph) (p_filesz ph)); [apply wp_ret, Hno; [done|lia]|].
  destruct (Z.eqb_spec (p_memsz ph) 0); [apply wp_ret, Hno; [done|lia]|].
  destruct (Z.ltb_spec (p_vaddr ph) 0xc0000000); cbn [negb]; [|apply wp_ret, Hno; [done|lia]].
  destruct (Z.ltb_spec (u32 (p_vaddr ph + p_memsz ph)) 0xc0000000) as [L1|L1]; cbn [negb].
  2:{ apply wp_ret, Hno; [done|]. intros Hx. rewrite uwrap_small in L1 by (unfold in_u; lia). lia. }
  destruct (Z.ltb_spec (u32 (p_vaddr ph + p_memsz ph)) (p_vaddr ph)) as [L2|L2].
  { apply wp_ret, Hno; [done|]. intros Hx. rewrite uwrap_small in L2 by (unfold in_u; lia). lia. }
  destruct (Z.ltb_spec (p_vaddr ph) 4096); [apply wp_ret, Hno; [done|lia]|]. apply wp_ret.
  assert (Hsum : p_vaddr ph + p_memsz ph < 2 ^ 32). { destruct (Z.lt_ge_cases (p_vaddr ph + p_memsz ph) (2 ^ 32)); [done|]. exfalso.
    assert (E : u32 (p_vaddr ph + p_memsz ph) = p_vaddr ph + p_memsz ph - 2 ^ 32) by (unfold uwrap; symmetry; apply (Z.mod_unique _ _ 1); lia). lia. }
  rewrite uwrap_small in L1 by (unfold in_u; lia). assert (Ev : segment_valid cs ph = true); [|rewrite <- Ev; by apply HQ].
  apply segment_valid_iff. unfold PHYS_BASE, LOADER_PHYS_BASE. split_and!; done || lia.
Qed.

Lemma wp_load_phdr s img pos O sp ph : working s H0 img pos O sp -> phdr_ok ph -> wp (load_phdr h ph) (outcome_of (add_segment cs ph img)) s.
Proof using Hpd.
  intros W Hph. unfold load_phdr, add_segment. destruct ((p_type ph =? PT_DYNAMIC) || (p_type ph =? PT_INTERP) || (p_type ph =? PT_SHLIB)).
  { apply wp_ret. exists img, pos, O, sp. auto. }
  destruct (p_type ph =? PT_LOAD); [|apply wp_ret; exists img, pos, O, sp; auto].
  apply wp_bind. eapply wp_validate_segment; [exact W|exact Hph| |].
  2:{ intros s' W' ->. apply wp_ret. exists img, pos, O, sp. auto. }
  intros s' W' Hlen. destruct (segment_valid cs ph) eqn:Ev; [|apply wp_ret; exists img, pos, O, sp; auto].
  apply segment_valid_iff in Ev as (E1 & H2 & H3 & H4 & H5 & H6). destruct Hph as (_ & Ho & Hv & Hf & Hm & _). pose proof Hv as Hv'. pose proof Ho as Ho'. unfold in_u in Ho, Hv, Hf, Hm.
  unfold PHYS_BASE, LOADER_PHYS_BASE in *. change (Z.land (p_vaddr ph) PGMASK) with (pg_ofs (p_vaddr ph)). rewrite pg_ofs_mod.
  pose proof (Z.mod_pos_bound (p_vaddr ph) 4096 ltac:(lia)) as Hmod. pose proof (Z.div_mod (p_vaddr ph) 4096 ltac:(lia)) as Hdm.
  rewrite (land_not_mask _ Ho'), (land_not_mask _ Hv'). assert (Hsz : p_vaddr ph mod 4096 + p_memsz ph <= 0xc0000000) by lia.
  assert (Hpg : 0 <= seg_pages ph /\ ROUND_UP (u32 (p_vaddr ph mod 4096 + p_memsz ph)) PGSIZE = 4096 * seg_pages ph /\ p_vaddr ph mod 4096 + p_memsz ph <= 4096 * seg_pages ph /\
    4096 * (p_vaddr ph / 4096 + seg_pages ph) <= 0xc0000000).
  { unfold ROUND_UP, seg_pages. change PGSIZE with 4096. rewrite !(uwrap_small 32 (p_vaddr ph mod 4096 + p_memsz ph)) by (unfold in_u; lia).
    rewrite (uwrap_small 32 (_ + 4096 - 1)) by (unfold in_u; lia). replace (p_vaddr ph mod 4096 + p_memsz ph + 4096 - 1) with (p_vaddr ph mod 4096 + p_memsz ph + 4095) by lia.
    rewrite uwrap_small by (unfold in_u; Z.to_euclidean_division_equations; lia). Z.to_euclidean_division_equations; lia. }
  destruct Hpg as (Hk0 & -> & Hk1 & Hk2).
  rewrite swrap_small by (unfold in_s; Z.to_euclidean_division_equations; lia). replace (p_vaddr ph / 4096 * 4096) with (4096 * (p_vaddr ph / 4096)) by lia.
  replace (if 0 <? p_filesz ph then _ else _) with (seg_read ph, 4096 * Z.of_nat (Z.to_nat (seg_pages ph)) - seg_read ph).
  2:{ rewrite Z2Nat.id by done. unfold seg_read. destruct (0 <? p_filesz ph); [|by rewrite Z.sub_0_r]. rewrite !uwrap_small by (unfold in_u; lia). done. }
  eapply wp_load_segment; [exact Hpd|exact W'|..]; unfold PHYS_BASE, LOADER_PHYS_BASE; rewrite ?Z2Nat.id by done.
  - apply Z.div_pos; lia.
  - done.
  - Z.to_euclidean_division_equations; lia.
  - Z.to_euclidean_division_equations; lia.
  - Z.to_euclidean_division_equations; lia.
  - unfold seg_read. destruct (0 <? p_filesz ph); lia.
Qed.

Lemma outcome_failed r s img pos O sp : working s H0 img pos O sp -> r = None -> outcome_of r false s.
Proof using. intros W ->. exists img, pos, O, sp. auto. Qed.

Lemma wp_load_phdrs s img pos O sp ehdr : working s H0 img pos O sp -> 0 <= e_phnum ehdr ->
  wp (load_phdrs h ehdr) (outcome_of (add_segments cs (Z.to_nat (e_phnum ehdr)) (i32 (e_phoff ehdr)) img)) s.
Proof using Hpd.
  intros W Hn. unfold load_phdrs.
  eapply wp_iterate with (n := Z.to_nat (e_phnum ehdr)) (I := fun n '(i, ofs) t => exists img' pos' O' sp', working t H0 img' pos' O' sp' /\ i = e_phnum ehdr - Z.of_nat n /\
    add_segments cs (Z.to_nat (e_phnum ehdr)) (i32 (e_phoff ehdr)) img = add_segments cs n ofs img').
  2:{ exists img, pos, O, sp. split_and!; [done|lia|done]. }
  2:{ lia. }
  intros n [i ofs] t (img' & pos' & O' & sp' & Wt & -> & ->). destruct n as [|n].
  { rewrite (proj2 (Z.ltb_ge _ _)) by lia. apply wp_ret. eexists _, _, _, _. split; [exact Wt|done]. }
  rewrite (proj2 (Z.ltb_lt _ _)) by lia. cbn [add_segments]. apply wp_bind. eapply wp_length_file; [exact Wt|]. intros t1 W1 _ Hlen.
  destruct ((ofs <? 0) || (Z.of_nat (length cs) <? ofs)) eqn:Eo.
  { apply wp_ret. eapply outcome_failed; [exact W1|]. by replace ((0 <=? ofs) && (ofs + 32 <=? Z.of_nat (length cs))) with false by lia. }
  apply wp_bind. eapply wp_seek_file; [exact W1|lia|]. intros t2 W2 _. apply wp_bind. eapply wp_read_file; [exact W2|done|]. intros t3 l W3 _ _.
  assert (El : Z.of_nat (length l) = Z.min 32 (Z.of_nat (length cs) - ofs)) by (unfold l; rewrite length_take, length_drop; change (Z.to_nat sizeof_phdr) with 32%nat; lia).
  change sizeof_phdr with 32. destruct (Z.eqb_spec (Z.of_nat (length l)) 32) as [E32|E32]; cbn [negb].
  2:{ apply wp_ret. eapply outcome_failed; [exact W3|]. by replace ((0 <=? ofs) && (ofs + 32 <=? Z.of_nat (length cs))) with false by lia. }
  replace ((0 <=? ofs) && (ofs + 32 <=? Z.of_nat (length cs))) with true by lia. apply wp_bind. eapply wp_mono; [eapply wp_load_phdr; [exact W3|apply phdr_of_ok]|].
  change (phdr_of l) with (phdr_at cs ofs). intros b t4 (img4 & pos4 & O4 & sp4 & W4 & Hb). destruct b.
  - apply wp_ret. exists n. split; [lia|]. exists img4, pos4, O4, sp4. rewrite Hb, swrap_small by (unfold in_s; lia). split_and!; [exact W4|lia|done].
  - apply wp_ret. exists img4, pos4, O4, sp4. split; [exact W4|]. destruct Hb as [->|Hb]; auto.
Qed.

Lemma wp_setup_stack s img pos O sp : working s H0 img pos O sp ->
  wp setup_stack (fun r s' => exists b : bool, r = (if b then Some PHYS_BASE else None) /\ outcome_of (add_page stack_page true zero_frame img) b s') s.
Proof using Hpd.
  intros W. unfold setup_stack. apply wp_bind. eapply wp_get_frame; [exact Hpd|exact W|done|done| |].
  { intros Hfull. cbn [Z.eqb negb]. apply wp_ret. exists false. split; [done|]. exists img, pos, O, sp. auto. }
  intros i p s1 O1 W1 Hp Hn HO1 Hat1 Hf1. change (negb (Z.land (Z.lor PAL_USER PAL_ZERO) PAL_ZERO =? 0)) with true in Hf1. cbn iota in Hf1.
  rewrite (proj2 (Z.eqb_neq _ _) Hn). cbn [negb]. change ((PHYS_BASE - PGSIZE)) with (4096 * stack_page).
  assert (E : 4096 * stack_page / 4096 = stack_page) by reflexivity.
  apply wp_bind. eapply wp_install_page; [exact Hpd|exact W1|exact Hp|done|done|exact Hf1|..]; try rewrite E.
  - intros [x Hx]. apply wp_bind. eapply wp_free_frame; [exact Hpd|exact W1|exact Hp|exact Hat1|]. intros s2 O2 W2 _. apply wp_ret. exists false. split; [done|].
    eapply outcome_failed; [exact W2|]. unfold add_page. by rewrite Hx.
  - intros Hfull. apply wp_bind. eapply wp_free_frame; [exact Hpd|exact W1|exact Hp|exact Hat1|]. intros s2 O2 W2 Hk. apply wp_ret. exists false. split; [done|].
    exists img, pos, O2, sp. auto.
  - intros s2 O2 sp2 Hnone W2. apply wp_ret. exists true. split; [done|]. eexists _, _, _, _. split; [exact W2|]. unfold add_page. by rewrite Hnone.
Qed.

(** The console after the header has been looked at. *)
Definition complaint (name : list Z) : list message := if bad_header (take 52 cs) then [BadExecutable name] else [].

Lemma wp_load_open s O sp name : working s H0 ∅ 0 O sp ->
  wp (load_open h name) (fun r s' => exists img pos' O' sp',
    ProcessOps.working (others := others) pd h cs D0 H0 v0 hw0 fr0 (con0 ++ complaint name) s' H0 img pos' O' sp' /\
    match r with
    | Some (eip, esp) => elf_image cs = Some (eip, img) /\ esp = PHYS_BASE
    | None => elf_image cs = None \/ pool_full (pools_of s') false \/ pool_full (pools_of s') true
    end) s.
Proof using Hpd.
  intros W. unfold load_open, complaint, elf_image. apply wp_bind. eapply wp_read_file; [exact W|done|]. intros s1 l W1 _ _. change l with (take 52 cs). clear W.
  destruct (bad_header (take 52 cs)).
  { apply wp_bind. red. cbn [modify printf]. apply wp_ret. exists ∅. destruct W1 as [W1 W2 W3 W4 W5 W6 W7 W8]. eexists _, O, sp. split; [|by left].
    split; try done. cbn. by rewrite W8. }
  rewrite app_nil_r. change (ehdr_of (take 52 cs)) with (header cs). apply wp_bind.
  eapply wp_mono; [eapply wp_load_phdrs; [exact W1|by apply uwrap_range]|]. intros b s2 (img2 & pos2 & O2 & sp2 & W2 & Hb). destruct b; cbn [negb].
  2:{ apply wp_ret. exists img2, pos2, O2, sp2. split; [exact W2|]. destruct Hb as [->|Hb]; auto. }
  rewrite Hb. cbn [mbind option_bind]. apply wp_bind. eapply wp_mono; [eapply wp_setup_stack; exact W2|].
  intros r s3 (b & -> & img3 & pos3 & O3 & sp3 & W3 & Hb3). destruct b; apply wp_ret; exists img3, pos3, O3, sp3; (split; [exact W3|]).
  - by rewrite Hb3.
  - destruct Hb3 as [->|Hb3]; auto.
Qed.
End Executable.
End Load.

(** * Programs: correctness of loading and ending

    load() gives the new program an address space that shows the image of its
    executable, or fails and says so; process_exit() gives everything back,
    however it is interrupted. *)

Section Props.
Context {machine : Machine} {junk : Frames} {F : Type} {service : FileService F} {others : Z -> Prop}.
Abbreviation pools_of s := (page_pools (vm (hw s))).

Definition tss_ready (c : cpu) : Prop := tss c <> NULL /\ length (tss_words c) = 1024%nat.

(** A state between calls: the address spaces [S], the files [v]. *)
Definition ready (s : proc F) (S : spaces) (v : file_view) : Prop :=
  (exists O, pd_inv others (vm (hw s)) O S) /\ svc_view (fsys s) v /\ tss_ready (hw s).

(** The stack for interrupts is that of the running thread. *)
Definition ring0_stack (c : cpu) : Prop := tss_words c !! 1%nat = Some (u32 (running c + PGSIZE)).

Lemma wp_process_activate s O S (Q : unit -> proc F -> Prop) : pd_inv others (vm (hw s)) O S -> tss_ready (hw s) ->
  pagedir s = NULL \/ is_Some (dirs S !! pagedir s) ->
  (forall c, pd_inv others (vm c) O (mk_spaces (dirs S) (held S) (pagedir s)) -> tss_ready c -> ring0_stack c -> Q tt (set_hw c s)) ->
  wp process_activate Q s.
Proof.
  intros HI [Hn Hl] Hpd HQ. unfold process_activate. apply wp_bind. red. cbn [gets]. apply wp_bind, wp_zoom, wp_zoom.
  eapply wp_pagedir_activate; [apply HI|exact Hpd|]. intros v HI'. apply wp_zoom. apply wp_tss_update; [done|done|]. cbn [hw set_hw set_vm tss tss_words running vm].
  apply (HQ (set_tss (tss (hw s)) (<[1%nat := u32 (running (hw s) + PGSIZE)]> (tss_words (hw s))) (set_vm v (hw s)))).
  - exact HI'.
  - split; [done|]. cbn. by rewrite length_insert.
  - unfold ring0_stack. cbn. rewrite list_lookup_insert_eq; [done|lia].
Qed.

(** ** Ending a program *)

Lemma process_exit_calm s : process_exit s = process_exit_preempted (F := F) (fun _ => None) s.
Proof.
  unfold process_exit, process_exit_preempted, preempted. unfold bind at 1 4. cbn [gets]. destruct (negb (pagedir s =? NULL)); [|done]. cbn [ret bind modify].
  unfold bind, ret, modify. destruct (on_pages (pagedir_activate NULL) _) as [[[] s1]|]; [|done]. by destruct (on_pages (pagedir_destroy _) s1) as [[[] s2]|].
Qed.

Lemma wp_process_exit_calm (Q : unit -> proc F -> Prop) s : wp (process_exit_preempted (fun _ => None)) Q s -> wp process_exit Q s.
Proof. unfold wp. by rewrite process_exit_calm. Qed.

(** Being switched away from and back to. *)
Lemma wp_preempted s O S other (Q : unit -> proc F -> Prop) : pd_inv others (vm (hw s)) O S -> tss_ready (hw s) ->
  pagedir s = NULL \/ is_Some (dirs S !! pagedir s) -> (forall pd, other = Some pd -> pd = NULL \/ is_Some (dirs S !! pd)) ->
  (forall c a, pd_inv others (vm c) O (mk_spaces (dirs S) (held S) a) -> tss_ready c -> a = active S \/ a = pagedir s -> Q tt (set_hw c s)) ->
  wp (preempted other) Q s.
Proof.
  intros HI Ht Hpd Ho HQ. destruct other as [pd|]; cbn [preempted].
  - apply wp_bind, wp_zoom, wp_zoom. eapply wp_pagedir_activate; [apply HI|by apply Ho|]. intros v HI'.
    eapply wp_process_activate; [exact HI'|exact Ht|exact Hpd|]. intros c HIc Htc _. by apply (HQ c (pagedir s)); [..|right].
  - apply wp_ret. replace s with (set_hw (hw s) s) by (by destruct s). apply (HQ (hw s) (active S)); [by destruct S|exact Ht|by left].
Qed.

(** The directories that other threads may have. *)
Definition their_dirs (S : spaces) (pd : Z) (intr : nat -> option Z) : Prop :=
  forall k pd', intr k = Some pd' -> pd' = NULL \/ (pd' <> pd /\ is_Some (dirs S !! pd')).

Lemma wp_process_exit s O S pd intr (Q : unit -> proc F -> Prop) : pd_inv others (vm (hw s)) O S -> tss_ready (hw s) -> pagedir s = pd ->
  pd <> NULL -> is_Some (dirs S !! pd) -> their_dirs S pd intr ->
  (forall c, (exists O', pd_inv others (vm c) O' (mk_spaces (delete pd (dirs S)) (held S) NULL)) -> tss_ready c -> Q tt (set_pagedir NULL (set_hw c s))) ->
  wp (process_exit_preempted intr) Q s.
Proof.
  intros HI Ht Epd Hn Hd Hin HQ. unfold process_exit_preempted. apply wp_bind. red. cbn [gets]. rewrite Epd.
  assert (Hmine : forall k pd', intr k = Some pd' -> pd' = NULL \/ is_Some (dirs S !! pd')) by (intros k pd' E; destruct (Hin k pd' E); tauto).
  apply wp_bind. eapply wp_preempted; [exact HI|exact Ht|by rewrite Epd; right|apply Hmine|]. intros c1 a1 HI1 Ht1 _.
  rewrite (proj2 (Z.eqb_neq _ _) Hn). cbn [negb]. apply wp_bind. red. cbn [modify].
  apply wp_bind. eapply wp_preempted; [exact HI1|exact Ht1|by left|apply Hmine|]. intros c2 a2 HI2 Ht2 _.
  apply wp_bind, wp_zoom, wp_zoom. eapply wp_pagedir_activate; [apply HI2|by left|]. intros v3 HI3. cbn [dirs held] in HI3.
  apply wp_bind. eapply (wp_preempted _ _ _ (intr 2%nat)); [exact HI3|exact Ht2|by left|apply Hmine|]. intros c4 a4 HI4 Ht4 Ha4.
  assert (a4 = NULL) as -> by (by destruct Ha4). cbn [dirs held] in HI4. destruct Hd as [sp Hsp].
  apply wp_bind, wp_zoom, wp_zoom. eapply wp_pagedir_destroy; [apply HI4|exact Hsp|apply HI4|done|]. intros v5 HI5. cbn [dirs held active] in HI5.
  eapply (wp_preempted _ _ _ (intr 3%nat)); [exact HI5|exact Ht4|by left| |].
  - intros pd' E. destruct (Hin _ pd' E) as [?|[Hne Hs]]; [by left|right]. cbn. by rewrite lookup_delete_ne.
  - intros c6 a6 HI6 Ht6 Ha6. assert (a6 = NULL) as -> by (by destruct Ha6). cbn [dirs held] in HI6. apply (HQ c6); [by eexists|done].
Qed.

(** ** Loading a program *)

(** The directory [pd] is new and its address space shows [img]; the pages of
    other programs and the files are as they were. *)
Record loaded (s s' : proc F) (S : spaces) (v : file_view) (pd : Z) (img : image) : Prop := {
  ld_new : dirs S !! pd = None /\ pd <> NULL /\ pagedir s' = pd;
  ld_space : exists sp, ready s' (mk_spaces (<[pd := sp]> (dirs S)) (held S) pd) v /\ shows (frames s') sp img;
  ld_kept : forall p, page_in_use (dirs S) (held S) p -> frames s' !! p = frames s !! p;
  ld_stack : ring0_stack (hw s') }.

(** No page is left in one of the pools. *)
Definition out_of_pages (s : proc F) : Prop := pool_full (pools_of s) false \/ pool_full (pools_of s) true.

(** What load() may return for the contents of the executable. *)
Definition load_result (cs : option (list Z)) (name : list Z) (r : option (Z * Z)) (s s' : proc F) (img : image) : Prop :=
  match cs with
  | None => r = None /\ console s' = console s ++ [OpenFailed name]
  | Some cs => console s' = console s ++ complaint cs name /\
      match r with
      | Some (eip, esp) => elf_image cs = Some (eip, img) /\ esp = PHYS_BASE
      | None => elf_image cs = None \/ out_of_pages s'
      end
  end.

Lemma shows_empty fr : shows fr ∅ ∅.
Proof. intros v. by rewrite !lookup_empty. Qed.

Lemma wp_load_program s S v name (Q : option (Z * Z) -> proc F -> Prop) : ready s S v -> c_name name ->
  (forall s', s' = set_pagedir NULL s -> pool_full (pools_of s') false -> Q None s') ->
  (forall r s' pd img, loaded s s' S v pd img -> load_result (by_name v name) name r s s' img -> Q r s') ->
  wp (load name) Q s.
Proof.
  intros ((O & HI) & Hv & Ht) Hname H1 H2. unfold load. apply wp_bind, wp_zoom, wp_zoom. eapply wp_pagedir_create; [exact HI| |].
  { intros Hfull. apply wp_bind. red. cbn [modify Z.eqb NULL]. apply wp_ret. apply H1; [|exact Hfull]. by destruct s as [[] ? ? ? ?]. }
  intros pd v1 HO Hn HI1. apply wp_bind. red. cbn [modify]. rewrite (proj2 (Z.eqb_neq _ _) Hn).
  assert (Hpd : dirs S !! pd = None). { apply eq_None_not_Some. intros H%(pb_dirs _ _ _ _ (proj1 HI)). congruence. }
  apply wp_bind. eapply wp_process_activate; [exact HI1|exact Ht|right; cbn; rewrite lookup_insert_eq; by eexists|]. cbn [dirs held pagedir set_pagedir]. intros c HIc Htc Hst.
  apply wp_bind, wp_zoom. eapply wp_mono; [by apply (svc_open_ok _ v name)|]. intros h f Ho. cbn [fsys set_hw set_pagedir] in Ho.
  set (s1 := set_fsys f (set_hw c (set_pagedir pd (set_hw (set_vm v1 (hw s)) s)))).
  destruct (by_name v name) as [cs|] eqn:Ecs.
  2:{ destruct Ho as [-> Hf]. cbn [Z.eqb NULL]. apply wp_bind. red. cbn [modify printf]. apply wp_ret. eapply (H2 None _ pd ∅); [|done].
      split; [done| |done|exact Hst]. exists ∅. split; [split_and!; [by eexists|exact Hf|exact Htc]|apply shows_empty]. }
  destruct Ho as (Hh & Hnew & Hf). rewrite (proj2 (Z.eqb_neq _ _) Hh).
  assert (W : working (others := others) pd h cs (dirs S) (held S) v c (frames s) (console s) s1 (held S) ∅ 0 (<[pd := Dir]> O) ∅).
  { split; [exact HIc|apply shows_empty|exact Hf|done|done|done|by destruct c|done]. }
  apply wp_bind. eapply wp_mono; [by eapply wp_load_open; [exact Hpd|exact W]|]. intros r s2 (img & pos & O2 & sp2 & W2 & Hr).
  apply wp_bind, wp_zoom. eapply wp_mono; [apply (svc_close_ok _ _ h (wk_file _ _ _ _ _ _ _ _ _ _ _ _ _ _ _ W2)); cbn; rewrite lookup_insert_eq; by eexists|].
  intros [] f3 Hf3. apply wp_ret. pose proof (wk_hw _ _ _ _ _ _ _ _ _ _ _ _ _ _ _ W2) as Ehw. eapply (H2 r _ pd img).
  - split; [split_and!; [done|done|apply (wk_dir _ _ _ _ _ _ _ _ _ _ _ _ _ _ _ W2)]| |apply (wk_kept _ _ _ _ _ _ _ _ _ _ _ _ _ _ _ W2)|].
    + exists sp2. split; [|apply (wk_shows _ _ _ _ _ _ _ _ _ _ _ _ _ _ _ W2)]. split_and!.
      * exists O2. apply (wk_inv _ _ _ _ _ _ _ _ _ _ _ _ _ _ _ W2).
      * cbn in Hf3 |- *. rewrite delete_insert_id in Hf3 by done. by destruct v.
      * cbn. rewrite Ehw. exact Htc.
    + cbn. unfold ring0_stack. rewrite Ehw. exact Hst.
  - split; [apply (wk_console _ _ _ _ _ _ _ _ _ _ _ _ _ _ _ W2)|]. exact Hr.
Qed.

(** ** Starting a program *)

Lemma page_string_ok s p name rest : frames s !! p = Some (name ++ 0 :: rest) -> c_name name -> page_string (F := F) p s = Ok (name, s).
Proof.
  intros Hp Hn. unfold page_string, bind. cbn [get]. rewrite Hp. cbn [of_option ret].
  assert (E : list_find (fun c => c = 0) (name ++ 0 :: rest) = Some (length name, 0)).
  { apply list_find_Some. split_and!; [apply list_lookup_middle; done|done|]. intros j y Hj Hlt. rewrite lookup_app_l in Hj by done. eapply (Forall_lookup_1 _ _ _ _ Hn Hj). }
  unfold ret. rewrite E. cbn. by rewrite take_app_length.
Qed.

(** The interrupt frame with which the program starts. *)
Definition user_frame (eip : Z) : intr_frame :=
  mk_frame SEL_UDSEG SEL_UDSEG SEL_UDSEG SEL_UDSEG SEL_UDSEG SEL_UCSEG 0x202 eip PHYS_BASE.

Lemma wp_free_held_page s S v p (Q : unit -> proc F -> Prop) : ready s S v -> p ∈ held S ->
  (forall c, ready (set_hw c s) (set_held_pages (held S ∖ {[p]}) S) v -> tss_words c = tss_words (hw s) -> running c = running (hw s) -> Q tt (set_hw c s)) ->
  wp (on_pages (free_page p)) Q s.
Proof.
  intros ((O & HI) & Hv & Ht) Hp HQ. apply wp_zoom, wp_zoom. eapply wp_free_held; [exact HI|exact Hp|]. intros w HI' _ _.
  apply (HQ (set_vm w (hw s))); [|done|done]. split_and!; [by eexists|exact Hv|exact Ht].
Qed.

(** What start_process() leaves: a program that runs, or nothing. *)
Definition started_or_gone (S : spaces) (v : file_view) (p : Z) (cs : option (list Z)) (r : option intr_frame) (s s' : proc F) : Prop :=
  match r with
  | Some fr => exists cs' eip img pd sp, cs = Some cs' /\ elf_image cs' = Some (eip, img) /\ fr = user_frame eip /\ pagedir s' = pd /\ dirs S !! pd = None /\
      ready s' (mk_spaces (<[pd := sp]> (dirs S)) (held S ∖ {[p]}) pd) v /\ shows (frames s') sp img /\ ring0_stack (hw s')
  | None => pagedir s' = NULL /\ (exists a, (a = NULL \/ a = active S) /\ ready s' (mk_spaces (dirs S) (held S ∖ {[p]}) a) v) /\
      (forall q, page_in_use (dirs S) (held S) q -> frames s' !! q = frames s !! q)
  end.

Lemma wp_start_process s S v p name rest : ready s S v -> p ∈ held S -> frames s !! p = Some (name ++ 0 :: rest) -> c_name name ->
  wp (start_process p) (fun r s' => started_or_gone S v p (by_name v name) r s s') s.
Proof.
  intros Hr Hp Hf Hn. unfold start_process. apply wp_bind. eapply wp_eq; [by eapply page_string_ok|]. apply wp_bind. eapply wp_load_program; [exact Hr|exact Hn| |].
  - intros s1 -> _. apply wp_bind. eapply (wp_free_held_page _ S v p); [exact Hr|exact Hp|]. intros c Hc _ _.
    apply wp_bind. apply wp_ret. apply wp_ret. split_and!; [done|exists (active S); split; [by right|exact Hc]|done].
  - intros r s1 pd img L Hres. destruct (ld_new _ _ _ _ _ _ L) as (Hnew & Hnn & Epd). destruct (ld_space _ _ _ _ _ _ L) as (sp & Hs1 & Hsh).
    apply wp_bind. eapply (wp_free_held_page _ _ v p); [exact Hs1|exact Hp|]. intros c Hc Ew Er. cbn [dirs held active set_held_pages] in Hc. destruct r as [[eip esp]|].
    + apply wp_ret. destruct (by_name v name) as [cs|]; cbn [load_result] in Hres; [|by destruct Hres]. destruct Hres as (_ & Hi & ->).
      exists cs, eip, img, pd, sp. split_and!; [done|done|done|exact Epd|done|exact Hc|exact Hsh|]. pose proof (ld_stack _ _ _ _ _ _ L) as Hst. unfold ring0_stack in *. cbn. by rewrite Ew, Er.
    + apply wp_bind, wp_process_exit_calm. destruct Hc as ((O & HI) & Hv & Ht).
      eapply (wp_process_exit (set_hw c s1) O _ pd (fun _ => None)); [exact HI|exact Ht|exact Epd|done|cbn; rewrite lookup_insert_eq; by eexists|by intros k pd'|].
      intros c2 HI2 Ht2. cbn [dirs held set_held_pages] in HI2. rewrite delete_insert_id in HI2 by done. apply wp_ret. split_and!; [done| |intros q Hq; by apply (ld_kept _ _ _ _ _ _ L)].
      exists NULL. split; [by left|]. split_and!; [exact HI2|exact Hv|exact Ht2].
Qed.
End Props.

(** C5: load() of a named file returns.  It succeeds only if the file is an
    executable that can be loaded, and then the new program's address space holds
    the bytes of every segment at its virtual addresses, zeroes where the segment
    is longer than its part of the file, a zeroed stack page and nothing else,
    each page writable as its segment asks; the entry point and the stack pointer
    are those of the executable.  It fails only if there is no such file, if the
    file cannot be loaded, or if a page pool is used up.  In every case the open
    file is closed again and pages and directories of others are not touched. *)
Theorem load_correct {machine : Machine} {junk : Frames} {F : Type} {service : FileService F} {others : Z -> Prop} (s : proc F) S v name :
  ready (others := others) s S v -> c_name name ->
  (exists r s', load name s = Ok (r, s') /\
     ((r = None /\ s' = set_pagedir NULL s /\ out_of_pages s') \/
      exists pd img, loaded (others := others) s s' S v pd img /\ load_result (by_name v name) name r s s' img)) /\
  (forall cs eip img, elf_image cs = Some (eip, img) ->
     bad_header (take 52 cs) = false /\ eip = e_entry (header cs) /\ img !! stack_page = Some (true, zero_frame) /\
     (forall i, 0 <= i < e_phnum (header cs) -> ~ refused (elf_phdr cs i) /\ (p_type (elf_phdr cs i) = PT_LOAD -> segment_in cs (elf_phdr cs i) img)) /\
     forall u, is_Some (img !! u) -> u = stack_page \/ exists i, 0 <= i < e_phnum (header cs) /\ p_type (elf_phdr cs i) = PT_LOAD /\
       p_vaddr (elf_phdr cs i) / 4096 <= u <= (p_vaddr (elf_phdr cs i) + p_memsz (elf_phdr cs i) - 1) / 4096).
Proof.
  intros Hr Hn. split; [|apply elf_image_ok].
  assert (H : wp (load name) (fun r s' => (r = None /\ s' = set_pagedir NULL s /\ out_of_pages s') \/
    exists pd img, loaded (others := others) s s' S v pd img /\ load_result (by_name v name) name r s s' img) s).
  { eapply wp_load_program; [exact Hr|exact Hn| |].
    - intros s' E Hfull. left. split_and!; [done|done|by left].
    - intros r s' pd img L Hres. right. by exists pd, img. }
  destruct (proj1 (wp_ok _ _ _) H) as (r & s' & E & Hp). by exists r, s'.
Qed.

(** C21: A thread that starts a program either leaves for user mode, with the
    user's segments, interrupts on, at the entry point of the executable and with
    its address space active, or ends, and then every page and directory it had
    is free again.  The page with the name of the program is freed in both
    cases. *)
Theorem start_process_correct {machine : Machine} {junk : Frames} {F : Type} {service : FileService F} {others : Z -> Prop} (s : proc F) S v p name rest :
  ready (others := others) s S v -> p ∈ held S -> frames s !! p = Some (name ++ 0 :: rest) -> c_name name ->
  exists r s', start_process p s = Ok (r, s') /\ started_or_gone (others := others) S v p (by_name v name) r s s'.
Proof.
  intros Hr Hp Hf Hn. destruct (proj1 (wp_ok _ _ _) (wp_start_process (others := others) s S v p name rest Hr Hp Hf Hn)) as (r & s' & E & H). by exists r, s'.
Qed.


(** ** A concrete machine *)

Definition zero_frames : Frames := {| junk_frame _ := zero_frame; junk_frame_size _ := length_replicate _ _ |}.

#[local] Existing Instance small_machine.
#[local] Existing Instance zero_frames.
#[local] Instance small_service : FileService _ := fs_service machine_plenty no_entry eq_refl.

Definition small_others : Z -> Prop := taken (page_pools small_vm).
Definition small_cpu (v : pstate) : cpu := mk_cpu (replicate 6 0) 0 0 0xc0012000 (replicate 1024 0) 0xc000e000 v.

(** Nothing is loaded, and the file system has just been formatted. *)
Lemma small_ready v S p fr : (exists O, pd_inv small_others v O S) -> exists f, ready (others := small_others) (mk_proc (small_cpu v) fr f p []) S no_files.
Proof.
  intros HI. destruct formatted_state as (f & _ & Ha). exists f. split_and!; [exact HI| |split; [done|reflexivity]].
  eexists. split; [exact Ha|]. exact seen_empty.
Qed.

(** One directory, and one page that the kernel holds. *)
Lemma small_dir : exists v pd, pd <> NULL /\ exists O, pd_inv small_others v O (mk_spaces {[pd := ∅]} ∅ NULL).
Proof.
  destruct (started_rep _ small_vm_started) as [O HI].
  assert (H : wp pagedir_create (fun pd v => pd <> NULL /\ exists O, pd_inv small_others v O (mk_spaces {[pd := ∅]} ∅ NULL)) small_vm); [|destruct (proj1 (wp_ok _ _ _) H) as (pd & v & _ & Hv); by exists v, pd].
  eapply wp_pagedir_create; [exact HI| |].
  - intros Hfull. by apply (free_pages_pos _ _ small_vm_free) in Hfull.
  - intros p v _ Hn HI'. split; [done|]. by eexists.
Qed.

Lemma small_page : exists v p, exists O, pd_inv small_others v O (mk_spaces ∅ {[p]} NULL).
Proof.
  destruct (started_rep _ small_vm_started) as [O HI].
  assert (H : wp (get_page 0) (fun p v => exists O, pd_inv small_others v O (mk_spaces ∅ {[p]} NULL)) small_vm); [|destruct (proj1 (wp_ok _ _ _) H) as (p & v & _ & Hv); by exists v, p].
  eapply wp_get_page; [exact HI|done| |].
  - intros Hfull. by apply (free_pages_pos _ _ small_vm_free) in Hfull.
  - intros p v _ _ Hn _ _ HI'. eexists. unfold set_held_pages in HI'. cbn in HI'. by rewrite (right_id_L ∅ (∪)) in HI'.
Qed.

(** An executable: one writable segment of 8 bytes of the file and 4 of zeroes at
    0x8048054. *)
Definition sample : list Z :=
  [0x7f; 69; 76; 70; 1; 1; 1; 0; 0; 0; 0; 0; 0; 0; 0; 0] ++ [2; 0; 3; 0; 1; 0; 0; 0] ++ [0x54; 0x80; 0x04; 0x08] ++ [52; 0; 0; 0] ++ [0; 0; 0; 0; 0; 0; 0; 0] ++
  [52; 0; 32; 0; 1; 0; 0; 0; 0; 0; 0; 0] ++
  [1; 0; 0; 0; 0x54; 0; 0; 0; 0x54; 0x80; 0x04; 0x08; 0; 0; 0; 0; 8; 0; 0; 0; 12; 0; 0; 0; 6; 0; 0; 0; 0; 0; 0; 0] ++ [184; 7; 0; 0; 0; 235; 254; 144].

Lemma load_correct_witness : exists (s : proc _) r s', load [97] s = Ok (r, s') /\
  exists eip img, elf_image sample = Some (eip, img) /\ eip = 0x8048054 /\ segment_in sample (elf_phdr sample 0) img.
Proof.
  destruct (small_ready small_vm no_spaces NULL ∅ (started_rep _ small_vm_started)) as [f Hr].
  destruct (load_correct _ no_spaces no_files [97] Hr ltac:(by repeat constructor)) as [(r & s' & E & _) Himg].
  eexists _, r, s'. split; [exact E|]. destruct (elf_image sample) as [[eip img]|] eqn:Ei; [|by vm_compute in Ei].
  exists eip, img. split; [done|]. destruct (Himg _ _ _ Ei) as (_ & -> & _ & Hseg & _). split; [reflexivity|].
  apply (proj2 (Hseg 0 ltac:(split; [reflexivity|vm_compute; reflexivity]))). reflexivity.
Defined.

Lemma start_process_correct_witness : exists (s : proc _) p r s', start_process p s = Ok (r, s') /\
  started_or_gone (others := small_others) (mk_spaces ∅ {[p]} NULL) no_files p None r s s'.
Proof.
  destruct small_page as (v & p & HI). destruct (small_ready v _ NULL {[p := [97; 0]]} HI) as [f Hr]. eexists _, p.
  exact (start_process_correct _ _ no_files p [97] [] Hr ltac:(cbn; set_solver) ltac:(apply lookup_insert_eq) ltac:(by repeat constructor)).
Defined.

