(* ===== verification/Idt.v ===== *)
(** * threads/interrupt.c, userprog/exception.c, userprog/syscall.c: interrupts

    The interrupt descriptor table and the table of handlers, the interrupt
    controllers, and the handlers for exceptions and system calls.  The stubs of
    threads/intr-stubs.S are addresses.  What is written to I/O ports is
    recorded in order; [pic_after] says what an 8259A makes of it. *)

From Stdlib Require Import ZArith Lia.
From stdpp Require Import base numbers list strings.
From S2P Require Import Prelude Gdt.

Open Scope Z_scope.

(** ** Data *)

(** The functions that are registered. *)
Inductive handler : Set :=
  | Timer | Keyboard | Serial | Disk | Kill | PageFault | Syscall.

#[global] Instance handler_eq_dec : EqDecision handler.
Proof. solve_decision. Defined.

Record itable := mk_itable { idt : list Z; intr_handlers : list (option handler); intr_names : list string; idtr : Z; ports : list (Z * Z) }.
Definition set_idt l s := mk_itable l (intr_handlers s) (intr_names s) (idtr s) (ports s).
Definition set_handlers l s := mk_itable (idt s) l (intr_names s) (idtr s) (ports s).
Definition set_names l s := mk_itable (idt s) (intr_handlers s) l (idtr s) (ports s).
Definition set_idtr x s := mk_itable (idt s) (intr_handlers s) (intr_names s) x (ports s).
Definition set_ports l s := mk_itable (idt s) (intr_handlers s) (intr_names s) (idtr s) l.

Definition INTR_CNT : Z := 256.

(** The addresses of the stubs and of the table. *)
Class Stubs := { intr_stubs : Z -> Z; idt_addr : Z }.

Section Code.
Context {stubs : Stubs}.

(** ** Gates *)

Definition make_gate {S} (function dpl type : Z) : M S Z :=
  ASSERT (negb (function =? NULL));;
  ASSERT ((0 <=? dpl) && (dpl <=? 3));;
  ASSERT ((0 <=? type) && (type <=? 15));;
  let e0 := Z.lor (Z.land function 0xffff) (Z.shiftl SEL_KCSEG 16) in
  let e1 := Z.lor (Z.lor (Z.lor (Z.lor
              (Z.land function 0xffff0000)
              (Z.shiftl 1 15))
              (Z.shiftl dpl 13))
              (Z.shiftl 0 12))
              (Z.shiftl type 8) in
  ret (Z.lor e0 (u64 (Z.shiftl e1 32))).

Definition make_intr_gate {S} (function dpl : Z) : M S Z := make_gate function dpl 14.
Definition make_trap_gate {S} (function dpl : Z) : M S Z := make_gate function dpl 15.
Definition make_idtr_operand (limit base : Z) : Z := Z.lor limit (Z.shiftl base 16).

(** ** Ports *)

Definition outb (port data : Z) : M itable unit := modify (fun s => set_ports (ports s ++ [(port, data)]) s).

Definition pic_init : M itable unit :=
  outb 0x21 0xff;;
  outb 0xa1 0xff;;
  outb 0x20 0x11;;
  outb 0x21 0x20;;
  outb 0x21 0x04;;
  outb 0x21 0x01;;
  outb 0xa0 0x11;;
  outb 0xa1 0x28;;
  outb 0xa1 0x02;;
  outb 0xa1 0x01;;
  outb 0x21 0x00;;
  outb 0xa1 0x00.

Definition pic_end_of_interrupt (irq : Z) : M itable unit :=
  ASSERT ((0x20 <=? irq) && (irq <? 0x30));;
  outb 0x20 0x20;;
  if 0x28 <=? irq then outb 0xa0 0x20 else ret tt.

(** ** The tables *)

Definition idt_store (i d : Z) : M itable unit :=
  l ← gets idt;
  of_option BadAccess (l !! Z.to_nat i);;
  modify (set_idt (<[Z.to_nat i := d]> l)).
Definition handler_store (i : Z) (h : handler) : M itable unit :=
  l ← gets intr_handlers;
  of_option BadAccess (l !! Z.to_nat i);;
  modify (set_handlers (<[Z.to_nat i := Some h]> l)).
Definition name_store (i : Z) (name : string) : M itable unit :=
  l ← gets intr_names;
  of_option BadAccess (l !! Z.to_nat i);;
  modify (set_names (<[Z.to_nat i := name]> l)).

Definition exception_names : list (Z * string) := [
  (0, "#DE Divide Error"); (1, "#DB Debug Exception"); (2, "NMI Interrupt"); (3, "#BP Breakpoint Exception"); (4, "#OF Overflow Exception");
  (5, "#BR BOUND Range Exceeded Exception"); (6, "#UD Invalid Opcode Exception"); (7, "#NM Device Not Available Exception");
  (8, "#DF Double Fault Exception"); (9, "Coprocessor Segment Overrun"); (10, "#TS Invalid TSS Exception"); (11, "#NP Segment Not Present");
  (12, "#SS Stack Fault Exception"); (13, "#GP General Protection Exception"); (14, "#PF Page-Fault Exception");
  (16, "#MF x87 FPU Floating-Point Error"); (17, "#AC Alignment Check Exception"); (18, "#MC Machine-Check Exception");
  (19, "#XF SIMD Floating-Point Exception")]%string.

(** [f] for every element of a list of constants. *)
Fixpoint each {S A} (f : A -> M S unit) (l : list A) : M S unit :=
  match l with [] => ret tt | x :: l => f x;; each f l end.

Definition intr_init : M itable unit :=
  pic_init;;
  for_from (Z.to_nat INTR_CNT) 0 (fun i => d ← make_intr_gate (intr_stubs i) 0; idt_store i d);;
  modify (set_idtr (make_idtr_operand (8 * INTR_CNT - 1) idt_addr));;
  for_from (Z.to_nat INTR_CNT) 0 (fun i => name_store i "unknown"%string);;
  each (fun '(i, n) => name_store i n) exception_names.

Definition intr_name (vec : Z) : M itable string := l ← gets intr_names; of_option BadAccess (l !! Z.to_nat vec).

(** [on] is whether the handler runs with interrupts on. *)
Definition register_handler (vec_no dpl : Z) (on : bool) (h : handler) (name : string) : M itable unit :=
  l ← gets intr_handlers;
  old ← of_option BadAccess (l !! Z.to_nat vec_no);
  ASSERT (bool_decide (old = None));;
  (if on then d ← make_trap_gate (intr_stubs vec_no) dpl; idt_store vec_no d
   else d ← make_intr_gate (intr_stubs vec_no) dpl; idt_store vec_no d);;
  handler_store vec_no h;;
  name_store vec_no name.

Definition intr_register_ext (vec_no : Z) (h : handler) (name : string) : M itable unit :=
  ASSERT ((0x20 <=? vec_no) && (vec_no <=? 0x2f));;
  register_handler vec_no 0 false h name.

Definition intr_register_int (vec_no dpl : Z) (on : bool) (h : handler) (name : string) : M itable unit :=
  ASSERT ((vec_no <? 0x20) || (0x2f <? vec_no));;
  register_handler vec_no dpl on h name.

(** ** exception.c and syscall.c *)

Definition exception_init : M itable unit :=
  intr_register_int 3 3 true Kill "#BP Breakpoint Exception"%string;;
  intr_register_int 4 3 true Kill "#OF Overflow Exception"%string;;
  intr_register_int 5 3 true Kill "#BR BOUND Range Exceeded Exception"%string;;
  intr_register_int 0 0 true Kill "#DE Divide Error"%string;;
  intr_register_int 1 0 true Kill "#DB Debug Exception"%string;;
  intr_register_int 6 0 true Kill "#UD Invalid Opcode Exception"%string;;
  intr_register_int 7 0 true Kill "#NM Device Not Available Exception"%string;;
  intr_register_int 11 0 true Kill "#NP Segment Not Present"%string;;
  intr_register_int 12 0 true Kill "#SS Stack Fault Exception"%string;;
  intr_register_int 13 0 true Kill "#GP General Protection Exception"%string;;
  intr_register_int 16 0 true Kill "#MF x87 FPU Floating-Point Error"%string;;
  intr_register_int 19 0 true Kill "#XF SIMD Floating-Point Exception"%string;;
  intr_register_int 14 0 false PageFault "#PF Page-Fault Exception"%string.

Definition syscall_init : M itable unit := intr_register_int 0x30 3 true Syscall "syscall"%string.

(** What the handlers for exceptions print, and the part of struct intr_frame that
    they look at. *)
Record iframe := mk_iframe { f_vec_no : Z; f_error_code : Z; f_cs : Z; f_eip : Z }.
Inductive report : Set :=
  | DyingDueTo (vec_no : Z) | DumpFrame (vec_no eip : Z) | UnknownSegment (vec_no cs : Z) | FaultAt (addr : Z) (not_present write user : bool) | SystemCall.

Record estate := mk_estate { page_fault_cnt : Z; reports : list report; interrupts_on : bool }.
Definition say (r : report) : M estate unit := modify (fun s => mk_estate (page_fault_cnt s) (reports s ++ [r]) (interrupts_on s)).

(** The handlers end with thread_exit(), or with a panic. *)
Inductive ending : Set := ThreadExit.

Definition kill (f : iframe) : M estate ending :=
  if f_cs f =? SEL_UCSEG then
    say (DyingDueTo (f_vec_no f));;
    say (DumpFrame (f_vec_no f) (f_eip f));;
    ret ThreadExit
  else if f_cs f =? SEL_KCSEG then
    say (DumpFrame (f_vec_no f) (f_eip f));;
    fail AssertFail
  else
    say (UnknownSegment (f_vec_no f) (f_cs f));;
    ret ThreadExit.

Definition PF_P : Z := 0x1.
Definition PF_W : Z := 0x2.
Definition PF_U : Z := 0x4.

(** [cr2] is the address that was accessed. *)
Definition page_fault (cr2 : Z) (f : iframe) : M estate ending :=
  modify (fun s => mk_estate (page_fault_cnt s) (reports s) true);;
  modify (fun s => mk_estate (i64 (page_fault_cnt s + 1)) (reports s) (interrupts_on s));;
  let not_present := Z.land (f_error_code f) PF_P =? 0 in
  let write := negb (Z.land (f_error_code f) PF_W =? 0) in
  let user := negb (Z.land (f_error_code f) PF_U =? 0) in
  say (FaultAt cr2 not_present write user);;
  kill f.

Definition syscall_handler (f : iframe) : M estate ending :=
  say SystemCall;;
  ret ThreadExit.

(** The calls of main() of threads/init.c that set up interrupts, and those of the
    devices that they make. *)
Definition init_interrupts : M itable unit :=
  intr_init;;
  intr_register_ext 0x20 Timer "8254 Timer"%string;;
  intr_register_ext 0x21 Keyboard "8042 Keyboard"%string;;
  exception_init;;
  syscall_init;;
  intr_register_ext (0x20 + 4) Serial "serial"%string.
End Code.

(** ** What the processor and the interrupt controllers make of it *)

Record gate := mk_gate { gate_offset : Z; gate_selector : Z; gate_type : Z; gate_system : Z; gate_dpl : Z; gate_present : Z }.
Definition decode_gate (d : Z) : gate :=
  mk_gate (field d 0 16 + 2 ^ 16 * field d 48 16) (field d 16 16) (field d 40 4) (field d 44 1) (field d 45 2) (field d 47 1).

(** An 8259A: how many initialisation words it still expects, the vector of its
    first line, the lines that are masked. *)
Record pic := mk_pic { expects : nat; first_vector : Z; mask : Z }.
Definition pic_write (command : Z) (w : Z * Z) (p : pic) : pic :=
  let '(port, data) := w in
  if port =? command then if Z.testbit data 4 then mk_pic 3 (first_vector p) 0 else p
  else if port =? command + 1 then
    match expects p with
    | 3%nat => mk_pic 2 (Z.land data 0xf8) (mask p)
    | S n => mk_pic n (first_vector p) (mask p)
    | O => mk_pic O (first_vector p) data
    end
  else p.
Definition pic_after (command : Z) (ws : list (Z * Z)) : pic := fold_left (fun p w => pic_write command w p) ws (mk_pic O 0 0).

Lemma gate_value {S} function dpl type (s : S) : in_u 32 function -> function <> NULL -> 0 <= dpl <= 3 -> 0 <= type <= 15 ->
  make_gate function dpl type s = Ok (function mod 2 ^ 16 + SEL_KCSEG * 2 ^ 16 + (type * 2 ^ 8 + dpl * 2 ^ 13 + 2 ^ 15 + function / 2 ^ 16 * 2 ^ 16) * 2 ^ 32, s).
Proof.
  unfold in_u. intros Hf Hn Hd Ht. unfold make_gate, bind. rewrite (proj2 (Z.eqb_neq _ _) Hn).
  replace ((0 <=? type) && (type <=? 15)) with true by lia. replace ((0 <=? dpl) && (dpl <=? 3)) with true by lia. cbn [negb assertb]. unfold ret. do 2 f_equal.
  change 0xffff with (Z.ones 16). rewrite Z.land_ones by lia. change 0xffff0000 with (Z.shiftl (Z.ones 16) 16). rewrite land_top by lia.
  assert (B0 : 0 <= function mod 2 ^ 16 < 2 ^ 16) by (by apply Z.mod_pos_bound). assert (B1 : 0 <= function / 2 ^ 16 < 2 ^ 16) by (Z.to_euclidean_division_equations; lia).
  rewrite lor_shift by lia. rewrite (uwrap_shift 64) by lia. change (64 - 32) with 32.
  generalize dependent (function / 2 ^ 16). generalize dependent (function mod 2 ^ 16). clear Hf. intros lo Hlo hi Hhi.
  rewrite Z.shiftl_0_l, Z.lor_0_r. rewrite (Z.lor_comm (Z.shiftl hi 16)), (lor_shift (Z.shiftl 1 15) hi 16) by (change (Z.shiftl 1 15) with (2 ^ 15); lia).
  change (Z.shiftl 1 15) with (2 ^ 15). replace (2 ^ 15 + hi * 2 ^ 16) with ((1 + 2 * hi) * 2 ^ 15) by lia. rewrite <- (Z.shiftl_mul_pow2 _ 15) by lia.
  rewrite (Z.lor_comm (Z.shiftl _ 15)), (lor_shift _ _ 15), (Z.shiftl_mul_pow2 dpl) by (rewrite ?Z.shiftl_mul_pow2 by lia; lia).
  replace (dpl * 2 ^ 13 + (1 + 2 * hi) * 2 ^ 15) with ((dpl + 4 * (1 + 2 * hi)) * 2 ^ 13) by lia. rewrite <- (Z.shiftl_mul_pow2 _ 13) by lia.
  rewrite (Z.lor_comm (Z.shiftl _ 13)), (lor_shift _ _ 13), (Z.shiftl_mul_pow2 type) by (rewrite ?Z.shiftl_mul_pow2 by lia; lia).
  rewrite Z.mod_small by lia. rewrite (lor_shift _ _ 32) by (unfold SEL_KCSEG; lia). f_equal. f_equal. lia.
Qed.

Lemma gate_decode {S} function dpl type (s : S) : in_u 32 function -> function <> NULL -> 0 <= dpl <= 3 -> 0 <= type <= 15 ->
  exists d, make_gate function dpl type s = Ok (d, s) /\ decode_gate d = mk_gate function SEL_KCSEG type 0 dpl 1.
Proof.
  intros Hf Hn Hd Ht. eexists. split; [by apply gate_value|]. unfold in_u in Hf.
  assert (B0 : 0 <= function mod 2 ^ 16 < 2 ^ 16) by (by apply Z.mod_pos_bound). assert (B1 : 0 <= function / 2 ^ 16 < 2 ^ 16) by (Z.to_euclidean_division_equations; lia).
  assert (Ef : function = function mod 2 ^ 16 + 2 ^ 16 * (function / 2 ^ 16)) by (Z.to_euclidean_division_equations; lia).
  revert Ef B0 B1. generalize (function mod 2 ^ 16) (function / 2 ^ 16). intros lo hi Ef B0 B1. clear Hf Hn. subst function. unfold SEL_KCSEG.
  match goal with |- decode_gate ?x = _ => set (d := x) end. set (e4 := dpl + 4 * (1 + 2 * hi)). unfold decode_gate.
  rewrite (field_part d 0 16 0 lo (8 + 2 ^ 16 * (2 ^ 8 * (type + 2 ^ 4 * (2 * e4))))), (field_part d 48 16 (d - 2 ^ 48 * hi) hi 0), (field_part d 16 16 lo 8 (2 ^ 8 * (type + 2 ^ 4 * (2 * e4)))),
    (field_part d 40 4 (d - 2 ^ 40 * (type + 2 ^ 4 * (2 * e4))) type (2 * e4)), (field_part d 44 1 (d - 2 ^ 44 * (2 * e4)) 0 e4),
    (field_part d 45 2 (d - 2 ^ 45 * e4) dpl (1 + 2 * hi)), (field_part d 47 1 (d - 2 ^ 47 * (1 + 2 * hi)) 1 hi) by lia.
  f_equal.
Qed.

(** ** The tables as functions *)

Definition upd {A} (f : Z -> A) (v : Z) (x : A) : Z -> A := fun u => if u =? v then x else f u.

Section Tables.
Context {stubs : Stubs} (Hstubs : forall v, in_u 32 (intr_stubs v) /\ intr_stubs v <> NULL).

Definition gate_for (v : Z) (g : Z * bool) : gate := mk_gate (intr_stubs v) SEL_KCSEG (if g.2 then 15 else 14) 0 g.1 1.

(** The privilege level and whether interrupts stay on, the handlers and names. *)
Record tables_are (s : itable) (g : Z -> Z * bool) (h : Z -> option handler) (nm : Z -> string) : Prop := {
  ta_gates : forall v, 0 <= v < 256 -> exists d, idt s !! Z.to_nat v = Some d /\ decode_gate d = gate_for v (g v);
  ta_handlers : forall v, 0 <= v < 256 -> intr_handlers s !! Z.to_nat v = Some (h v);
  ta_names : forall v, 0 <= v < 256 -> intr_names s !! Z.to_nat v = Some (nm v) }.

(** An element of a table that is replaced. *)
Lemma upd_lookup {A B} (R : Z -> A -> B -> Prop) (l : list A) (f : Z -> B) v x y : (forall u, 0 <= u < 256 -> exists z, l !! Z.to_nat u = Some z /\ R u z (f u)) ->
  0 <= v < 256 -> R v x y -> forall u, 0 <= u < 256 -> exists z, <[Z.to_nat v := x]> l !! Z.to_nat u = Some z /\ R u z (upd f v y u).
Proof.
  intros H Hv Hx u Hu. unfold upd. destruct (Z.eqb_spec u v) as [->|Hne].
  - exists x. split; [|done]. apply list_lookup_insert_eq. destruct (H v Hv) as (z & E & _). by eapply lookup_lt_Some.
  - rewrite list_lookup_insert_ne by lia. by apply H.
Qed.

Lemma wp_idt_store s i d (Q : unit -> itable -> Prop) : is_Some (idt s !! Z.to_nat i) -> Q tt (set_idt (<[Z.to_nat i := d]> (idt s)) s) -> wp (idt_store i d) Q s.
Proof. intros [x E] HQ. unfold idt_store. apply wp_bind. red. cbn [gets]. rewrite E. exact HQ. Qed.
Lemma wp_handler_store s i d (Q : unit -> itable -> Prop) : is_Some (intr_handlers s !! Z.to_nat i) -> Q tt (set_handlers (<[Z.to_nat i := Some d]> (intr_handlers s)) s) -> wp (handler_store i d) Q s.
Proof. intros [x E] HQ. unfold handler_store. apply wp_bind. red. cbn [gets]. rewrite E. exact HQ. Qed.
Lemma wp_name_store s i d (Q : unit -> itable -> Prop) : is_Some (intr_names s !! Z.to_nat i) -> Q tt (set_names (<[Z.to_nat i := d]> (intr_names s)) s) -> wp (name_store i d) Q s.
Proof. intros [x E] HQ. unfold name_store. apply wp_bind. red. cbn [gets]. rewrite E. exact HQ. Qed.

Lemma wp_make_gate {S} v dpl type (s : S) (Q : Z -> S -> Prop) : 0 <= dpl <= 3 -> 0 <= type <= 15 ->
  (forall d, decode_gate d = mk_gate (intr_stubs v) SEL_KCSEG type 0 dpl 1 -> Q d s) -> wp (make_gate (intr_stubs v) dpl type) Q s.
Proof using Hstubs. intros H1 H2 HQ. destruct (Hstubs v) as [Hr Hn]. destruct (gate_decode (intr_stubs v) dpl type s Hr Hn H1 H2) as (d & E & Hd). eapply wp_eq; [exact E|by apply HQ]. Qed.

Lemma wp_register_handler s g h nm v dpl on hd name (Q : unit -> itable -> Prop) : tables_are s g h nm -> 0 <= v < 256 -> h v = None -> 0 <= dpl <= 3 ->
  (forall s', tables_are s' (upd g v (dpl, on)) (upd h v (Some hd)) (upd nm v name) -> idtr s' = idtr s -> ports s' = ports s -> Q tt s') ->
  wp (register_handler v dpl on hd name) Q s.
Proof using Hstubs.
  intros [T1 T2 T3] Hv Hh Hd HQ. unfold register_handler. apply wp_bind. red. cbn [gets]. rewrite (T2 v Hv), Hh. apply wp_bind, wp_ret.
  apply wp_bind, wp_assertb; [done|]. destruct (T1 v Hv) as (d0 & E0 & _).
  assert (Hrest : forall d, decode_gate d = gate_for v (dpl, on) -> wp (handler_store v hd;; name_store v name) Q (set_idt (<[Z.to_nat v := d]> (idt s)) s)).
  { intros d Ed. apply wp_bind, wp_handler_store; [cbn; rewrite T2 by done; by eexists|]. apply wp_name_store; [cbn; rewrite T3 by done; by eexists|]. apply HQ; [|done|done]. split; cbn.
    - by apply (upd_lookup (fun u d g => decode_gate d = gate_for u g)).
    - intros u Hu. destruct (upd_lookup (fun _ a b => a = b) (intr_handlers s) h v (Some hd) (Some hd)) with (u := u) as (z & E & ->); try done. intros w Hw. eexists. split; [by apply T2|done].
    - intros u Hu. destruct (upd_lookup (fun _ a b => a = b) (intr_names s) nm v name name) with (u := u) as (z & E & ->); try done. intros w Hw. eexists. split; [by apply T3|done]. }
  apply wp_bind. destruct on; apply wp_bind; (apply wp_make_gate; [done|done|]); intros d Ed; (apply wp_idt_store; [by eexists|]); by apply Hrest.
Qed.

(** The tables before interrupts are set up. *)
Definition blank_tables (s : itable) : Prop :=
  length (idt s) = 256%nat /\ intr_handlers s = replicate 256 None /\ length (intr_names s) = 256%nat.

Lemma wp_init_gates s (Q : unit -> itable -> Prop) : length (idt s) = 256%nat ->
  (forall l, length l = 256%nat -> (forall v, 0 <= v < 256 -> exists d, l !! Z.to_nat v = Some d /\ decode_gate d = gate_for v (0, false)) -> Q tt (set_idt l s)) ->
  wp (for_from (Z.to_nat INTR_CNT) 0 (fun i => d ← make_intr_gate (intr_stubs i) 0; idt_store i d)) Q s.
Proof using Hstubs.
  intros Hl HQ. eapply wp_mono; [apply (wp_for_from (fun j t => exists l, t = set_idt l s /\ length l = 256%nat /\
    forall v, 0 <= v < j -> exists d, l !! Z.to_nat v = Some d /\ decode_gate d = gate_for v (0, false)))|].
  - exists (idt s). split_and!; [by destruct s|done|lia].
  - intros j t Hj (l & -> & Hll & Hd). change (Z.of_nat (Z.to_nat INTR_CNT)) with 256 in Hj. apply wp_bind. apply wp_make_gate; [done|done|]. intros d Ed.
    apply wp_idt_store; [apply lookup_lt_is_Some_2; cbn; lia|]. exists (<[Z.to_nat j := d]> l). split_and!; [done|by rewrite length_insert|].
    intros v Hv. destruct (decide (v = j)) as [->|Hne]; [exists d; split; [apply list_lookup_insert_eq; lia|done]|]. rewrite list_lookup_insert_ne by lia. apply Hd. lia.
  - intros [] t (l & -> & Hll & Hd). by apply HQ.
Qed.

Lemma wp_init_names s (Q : unit -> itable -> Prop) : length (intr_names s) = 256%nat ->
  (forall l, length l = 256%nat -> (forall v, 0 <= v < 256 -> l !! Z.to_nat v = Some "unknown"%string) -> Q tt (set_names l s)) ->
  wp (for_from (Z.to_nat INTR_CNT) 0 (fun i => name_store i "unknown"%string)) Q s.
Proof using.
  intros Hl HQ. eapply wp_mono; [apply (wp_for_from (fun j t => exists l, t = set_names l s /\ length l = 256%nat /\ forall v, 0 <= v < j -> l !! Z.to_nat v = Some "unknown"%string))|].
  - exists (intr_names s). split_and!; [by destruct s|done|lia].
  - intros j t Hj (l & -> & Hll & Hd). change (Z.of_nat (Z.to_nat INTR_CNT)) with 256 in Hj. apply wp_name_store; [apply lookup_lt_is_Some_2; cbn; lia|].
    exists (<[Z.to_nat j := "unknown"%string]> l). split_and!; [done|by rewrite length_insert|].
    intros v Hv. destruct (decide (v = j)) as [->|Hne]; [apply list_lookup_insert_eq; lia|]. rewrite list_lookup_insert_ne by lia. apply Hd. lia.
  - intros [] t (l & -> & Hll & Hd). by apply HQ.
Qed.

Definition names_after (l : list (Z * string)) (nm : Z -> string) : Z -> string := fold_left (fun f x => upd f x.1 x.2) l nm.

Lemma wp_each_name l : forall s g h nm (Q : unit -> itable -> Prop), tables_are s g h nm -> Forall (fun x => 0 <= x.1 < 256) l ->
  (forall s', tables_are s' g h (names_after l nm) -> idtr s' = idtr s -> ports s' = ports s -> Q tt s') -> wp (each (fun '(i, n) => name_store i n) l) Q s.
Proof using.
  induction l as [|[i n] l IH]; intros s g h nm Q [T1 T2 T3] Hl HQ; cbn [each]; [by apply wp_ret, HQ|]. inversion_clear Hl as [|? ? Hi Hl']. cbn in Hi.
  apply wp_bind, wp_name_store; [rewrite T3 by done; by eexists|]. apply (IH _ g h (upd nm i n)); [|done|intros s' Hs' E1 E2; by apply HQ].
  split; cbn; [done|done|]. intros u Hu. destruct (upd_lookup (fun _ a b => a = b) (intr_names s) nm i n n) with (u := u) as (z & E & ->); try done. intros w Hw. eexists. split; [by apply T3|done].
Qed.

Lemma wp_intr_init s (Q : unit -> itable -> Prop) : blank_tables s ->
  (forall s', tables_are s' (fun _ => (0, false)) (fun _ => None) (names_after exception_names (fun _ => "unknown"%string)) -> idtr s' = make_idtr_operand 2047 idt_addr ->
     (exists ws, ports s' = ports s ++ ws /\ forall p, fold_left (fun p w => pic_write 0x20 w p) ws p = mk_pic O 0x20 0 /\ fold_left (fun p w => pic_write 0xa0 w p) ws p = mk_pic O 0x28 0) -> Q tt s') ->
  wp intr_init Q s.
Proof using Hstubs.
  intros (H1 & H2 & H3) HQ. unfold intr_init. apply wp_bind. eapply wp_eq; [reflexivity|]. apply wp_bind. apply wp_init_gates; [done|]. intros l Hl Hd.
  apply wp_bind. red. cbn [modify]. apply wp_bind. apply wp_init_names; [done|]. intros ln Hln Hn.
  eapply (wp_each_name _ _ (fun _ => (0, false)) (fun _ => None) (fun _ => "unknown"%string)).
  - split; [exact Hd| |exact Hn]. intros v Hv. change (intr_handlers s !! Z.to_nat v = Some None). rewrite H2. apply lookup_replicate_2. lia.
  - decide_closed.
  - intros s' T E1 E2. apply HQ; [exact T|by rewrite E1|]. rewrite E2. eexists. split; [cbn; rewrite <- !(assoc_L (++)); reflexivity|].
    intros [e f m]. split; destruct e as [|[|[|[|e]]]]; reflexivity.
Qed.

Lemma wp_register_int s g h nm v dpl on hd name (Q : unit -> itable -> Prop) : tables_are s g h nm -> 0 <= v < 32 \/ 47 < v < 256 -> h v = None -> 0 <= dpl <= 3 ->
  (forall s', tables_are s' (upd g v (dpl, on)) (upd h v (Some hd)) (upd nm v name) -> idtr s' = idtr s -> ports s' = ports s -> Q tt s') ->
  wp (intr_register_int v dpl on hd name) Q s.
Proof using Hstubs.
  intros T Hv Hh Hd HQ. unfold intr_register_int. apply wp_bind, wp_assertb; [lia|]. eapply wp_register_handler; [exact T|lia|exact Hh|exact Hd|exact HQ].
Qed.
Lemma wp_register_ext s g h nm v hd name (Q : unit -> itable -> Prop) : tables_are s g h nm -> 32 <= v <= 47 -> h v = None ->
  (forall s', tables_are s' (upd g v (0, false)) (upd h v (Some hd)) (upd nm v name) -> idtr s' = idtr s -> ports s' = ports s -> Q tt s') ->
  wp (intr_register_ext v hd name) Q s.
Proof using Hstubs.
  intros T Hv Hh HQ. unfold intr_register_ext. apply wp_bind, wp_assertb; [lia|]. eapply wp_register_handler; [exact T|lia|exact Hh|lia|exact HQ].
Qed.
Lemma register_twice s g h nm v dpl on hd name : tables_are s g h nm -> 0 <= v < 256 -> is_Some (h v) -> register_handler v dpl on hd name s = Err AssertFail.
Proof using. intros [_ T2 _] Hv [x Hx]. unfold register_handler, bind. cbn [gets]. rewrite (T2 v Hv), Hx. done. Qed.

(** What is registered when start-up is done: the handler of a vector, the
    privilege level that may invoke it, and whether interrupts stay on. *)
Definition registrations : list (Z * (handler * (Z * bool))) := [
  (0x20, (Timer, (0, false))); (0x21, (Keyboard, (0, false))); (0x24, (Serial, (0, false)));
  (0x30, (Syscall, (3, true))); (3, (Kill, (3, true))); (4, (Kill, (3, true))); (5, (Kill, (3, true)));
  (0, (Kill, (0, true))); (1, (Kill, (0, true))); (6, (Kill, (0, true))); (7, (Kill, (0, true))); (11, (Kill, (0, true))); (12, (Kill, (0, true)));
  (13, (Kill, (0, true))); (16, (Kill, (0, true))); (19, (Kill, (0, true))); (14, (PageFault, (0, false)))].

Fixpoint assoc {A} (v : Z) (l : list (Z * A)) : option A :=
  match l with [] => None | (u, x) :: l => if v =? u then Some x else assoc v l end.

Definition handler_of (v : Z) : option handler := fst <$> assoc v registrations.
Definition gate_of (v : Z) : Z * bool := from_option snd (0, false) (assoc v registrations).

Lemma tables_are_ext s g h nm g' h' : tables_are s g h nm -> (forall v, g v = g' v) -> (forall v, h v = h' v) -> tables_are s g' h' nm.
Proof using.
  intros [T1 T2 T3] Hg Hh. split; [|intros v Hv; rewrite T2 by done; by rewrite Hh|done].
  intros v Hv. destruct (T1 v Hv) as (d & E & Hd). exists d. split; [done|]. by rewrite <- Hg.
Qed.

Ltac by_vector v :=
  repeat match goal with |- context [v =? ?k] => let E := fresh in destruct (Z.eqb_spec v k) as [E|E]; [first [done|subst v; reflexivity]|] end; reflexivity.

Lemma wp_init_interrupts s (Q : unit -> itable -> Prop) : blank_tables s ->
  (forall s' nm, tables_are s' gate_of handler_of nm -> idtr s' = make_idtr_operand 2047 idt_addr ->
     (exists ws, ports s' = ports s ++ ws /\ forall p, fold_left (fun p w => pic_write 0x20 w p) ws p = mk_pic O 0x20 0 /\ fold_left (fun p w => pic_write 0xa0 w p) ws p = mk_pic O 0x28 0) -> Q tt s') ->
  wp init_interrupts Q s.
Proof using Hstubs.
  intros Hs HQ. unfold init_interrupts, exception_init, syscall_init. apply wp_bind, wp_intr_init; [done|]. intros s0 T0 Ei Hp.
  assert (HQ0 : forall s' g h nm, tables_are s' g h nm -> idtr s' = idtr s0 -> ports s' = ports s0 -> (forall v, g v = gate_of v) -> (forall v, h v = handler_of v) -> Q tt s').
  { intros s' g h nm T E1 E2 Hg Hh. apply (HQ s' nm); [by eapply tables_are_ext|by rewrite E1|by rewrite E2]. }
  clear HQ Ei Hp Hs.
  do 2 (apply wp_bind; eapply wp_register_ext; [exact T0|done|reflexivity|]; clear T0; intros ? T0 ? ?). apply wp_bind.
  do 12 (apply wp_bind; eapply wp_register_int; [exact T0|by left|reflexivity|done|]; clear T0; intros ? T0 ? ?).
  eapply wp_register_int; [exact T0|by left|reflexivity|done|]. clear T0. intros ? T0 ? ?.
  apply wp_bind. eapply wp_register_int; [exact T0|by right|reflexivity|done|]. clear T0. intros ? T0 ? ?.
  eapply wp_register_ext; [exact T0|done|reflexivity|]. clear T0. intros ? T0 ? ?. eapply HQ0; [exact T0|congruence|congruence|..]; intros v;
    unfold upd, gate_of, handler_of; cbn [assoc registrations]; change (0x20 + 4) with 0x24; by_vector v.
Qed.
End Tables.

(** The vectors that a user program may invoke with the INT instruction. *)
Definition user_vector (v : Z) : Prop := v = 3 \/ v = 4 \/ v = 5 \/ v = 0x30.

Lemma user_gates v : (gate_of v).1 = 3 <-> user_vector v.
Proof.
  unfold user_vector. split; [|intros [->|[->|[->| ->]]]; reflexivity]. unfold gate_of. cbn [assoc registrations].
  repeat match goal with |- context [v =? ?k] => destruct (Z.eqb_spec v k); [first [tauto|done]|] end. done.
Qed.

(** C31: After start-up every vector of the interrupt descriptor table leads, in
    the kernel's code segment, to the stub of its number, with the handler that
    was registered for it; a second handler for a vector fails an assertion.  The
    processor turns interrupts off on the way to the handlers of devices and of
    page faults and leaves them on for the others; a user program can invoke just
    the breakpoint, overflow, bound and system call vectors.  The interrupt
    controllers deliver their lines to the vectors from 0x20 on, none masked,
    whatever state they were in.  An exception in a user program ends the thread;
    in the kernel's code it panics. *)
Theorem interrupts_correct {stubs : Stubs} s : (forall v, in_u 32 (intr_stubs v) /\ intr_stubs v <> NULL) -> in_u 32 idt_addr -> blank_tables s ->
  (exists s', init_interrupts s = Ok (tt, s') /\
     (forall v, 0 <= v < 256 -> intr_handlers s' !! Z.to_nat v = Some (handler_of v) /\
        exists d, idt s' !! Z.to_nat v = Some d /\ decode_gate d = mk_gate (intr_stubs v) SEL_KCSEG (if (gate_of v).2 then 15 else 14) 0 (gate_of v).1 1 /\
          (gate_dpl (decode_gate d) = 3 <-> user_vector v)) /\
     (forall v dpl on h name, 0 <= v < 256 -> is_Some (handler_of v) -> register_handler v dpl on h name s' = Err AssertFail) /\
     field (idtr s') 0 16 = 8 * 256 - 1 /\ field (idtr s') 16 32 = idt_addr /\
     exists ws, ports s' = ports s ++ ws /\ forall p, fold_left (fun p w => pic_write 0x20 w p) ws p = mk_pic O 0x20 0 /\ fold_left (fun p w => pic_write 0xa0 w p) ws p = mk_pic O 0x28 0) /\
  (forall f cr2 e, f_cs f = SEL_UCSEG \/ f_cs f = SEL_KCSEG ->
     match page_fault cr2 f e with
     | Ok (ThreadExit, e') => f_cs f = SEL_UCSEG /\ page_fault_cnt e' = i64 (page_fault_cnt e + 1)
     | Err x => f_cs f = SEL_KCSEG /\ x = AssertFail
     end).
Proof.
  intros Hst Ha Hs. split.
  - assert (H : wp init_interrupts (fun _ s' => exists nm, tables_are s' gate_of handler_of nm /\ idtr s' = make_idtr_operand 2047 idt_addr /\
      exists ws, ports s' = ports s ++ ws /\ forall p, fold_left (fun p w => pic_write 0x20 w p) ws p = mk_pic O 0x20 0 /\ fold_left (fun p w => pic_write 0xa0 w p) ws p = mk_pic O 0x28 0) s).
    { apply wp_init_interrupts; [done|done|]. intros s' nm T E Hp. by exists nm. }
    destruct (proj1 (wp_ok _ _ _) H) as ([] & s' & E & nm & T & Ei & Hp). exists s'. split; [exact E|]. split_and!; [| | | |exact Hp].
    + intros v Hv. split; [by apply (ta_handlers _ _ _ _ T)|]. destruct (ta_gates _ _ _ _ T v Hv) as (d & Ed & Hd). exists d. split_and!; [done|done|]. rewrite Hd. apply user_gates.
    + intros v dpl on h name Hv Hh. by eapply register_twice.
    + rewrite Ei. apply (field_part _ 0 16 0 2047 idt_addr); [lia..| |lia|lia]. etransitivity; [by apply lor_shift|lia].
    + rewrite Ei. unfold in_u in Ha. apply (field_part _ 16 32 2047 idt_addr 0); [lia..| |lia|lia]. etransitivity; [by apply lor_shift|lia].
  - intros f cr2 e [E|E]; unfold page_fault, kill, bind, modify, say, fail, ret; rewrite E; cbn; done.
Qed.

Definition example_stubs : Stubs := {| intr_stubs v := 0xc0100000 + 16 * (v mod 256); idt_addr := 0xc0200000 |}.

Lemma interrupts_correct_witness : exists s', init_interrupts (stubs := example_stubs) (mk_itable (replicate 256 0) (replicate 256 None) (replicate 256 EmptyString) 0 []) = Ok (tt, s') /\
  field (idtr s') 0 16 = 2047.
Proof.
  destruct (proj1 (interrupts_correct (stubs := example_stubs) (mk_itable (replicate 256 0) (replicate 256 None) (replicate 256 EmptyString) 0 [])
    ltac:(intros v; pose proof (Z.mod_pos_bound v 256 eq_refl); cbn; unfold in_u, NULL; lia) ltac:(split; vm_compute; congruence) ltac:(split_and!; reflexivity))) as (s' & E & _ & _ & H & _).
  exists s'. split; [exact E|exact H].
Defined.
