(* ===== verification/DevBase.v ===== *)
(** * The console devices: their state, and code that uses them

    The keyboard, the serial port and the display share the processor with the
    threads package, whose state is part of theirs here.  Code that may lose
    the processor is a [dcode], which is to the state with devices what [comp]
    is to the kernel's alone; [lift] embeds the functions of the threads
    package.  What is behind the I/O ports is hardware, of which only an
    interface is known. *)

From Stdlib Require Import ZArith Lia.
From stdpp Require Import base numbers gmap list relations.
From S2P Require Import Prelude DList Bitmap Vaddr Palloc Kernel Thread Synch Boot Bytes Gdt Idt.

Open Scope Z_scope.

(** ** Hardware *)

(** The instructions [in] and [out] on the hardware's state, for the ports of
    threads/io.h. *)
Class Ports (H : Type) := {
  port_inb : Z -> H -> Z * H;
  port_outb : Z -> Z -> H -> H;
  port_outw : Z -> Z -> H -> H }.

(** ** Data *)

(** [struct intq]; the lock is at [q_lock] in the kernel's memory. *)
Record intq := mk_intq { q_lock : Z; not_full : Z; not_empty : Z; buf : list Z; q_head : Z; q_tail : Z }.

Definition set_not_full v q := mk_intq (q_lock q) v (not_empty q) (buf q) (q_head q) (q_tail q).
Definition set_not_empty v q := mk_intq (q_lock q) (not_full q) v (buf q) (q_head q) (q_tail q).
Definition set_buf v q := mk_intq (q_lock q) (not_full q) (not_empty q) v (q_head q) (q_tail q).
Definition set_q_head v q := mk_intq (q_lock q) (not_full q) (not_empty q) (buf q) v (q_tail q).
Definition set_q_tail v q := mk_intq (q_lock q) (not_full q) (not_empty q) (buf q) (q_head q) v.

(** kbd.c's static variables. *)
Record kbd := mk_kbd { left_shift : bool; right_shift : bool; left_alt : bool; right_alt : bool;
  left_ctrl : bool; right_ctrl : bool; caps_lock : bool; key_cnt : Z }.

(** vga.c's. *)
Record vga := mk_vga { fb : Z; cx : Z; cy : Z; inited : bool }.

(** console.c's. *)
Record con := mk_con { use_console_lock : bool; console_lock_depth : Z; write_cnt : Z }.

Inductive serial_mode := UNINIT | POLL | QUEUE.
#[global] Instance serial_mode_eq_dec : EqDecision serial_mode.
Proof. solve_decision. Defined.

(** The two interrupt queues: serial.c's and input.c's. *)
Inductive qname := Txq | Buffer.
#[global] Instance qname_eq_dec : EqDecision qname.
Proof. solve_decision. Defined.

Record dev (H : Type) := mk_dev {
  kern : kstate;
  hw : H;
  vmem : bytes;                     (* video memory *)
  keys : kbd;
  display : vga;
  console : con;
  mode : serial_mode;
  txq : intq;
  buffer : intq;
  itab : itable }.                  (* interrupt.c's tables *)
Arguments mk_dev {H} _ _ _ _ _ _ _ _ _ _.
Arguments kern {H} _.
Arguments hw {H} _.
Arguments vmem {H} _.
Arguments keys {H} _.
Arguments display {H} _.
Arguments console {H} _.
Arguments mode {H} _.
Arguments txq {H} _.
Arguments buffer {H} _.
Arguments itab {H} _.

Section Setters.
Context {H : Type}.
Implicit Types s : dev H.
Definition set_kern v s := mk_dev v (hw s) (vmem s) (keys s) (display s) (console s) (mode s) (txq s) (buffer s) (itab s).
Definition set_hw (v : H) s := mk_dev (kern s) v (vmem s) (keys s) (display s) (console s) (mode s) (txq s) (buffer s) (itab s).
Definition set_vmem v s := mk_dev (kern s) (hw s) v (keys s) (display s) (console s) (mode s) (txq s) (buffer s) (itab s).
Definition set_keys v s := mk_dev (kern s) (hw s) (vmem s) v (display s) (console s) (mode s) (txq s) (buffer s) (itab s).
Definition set_display v s := mk_dev (kern s) (hw s) (vmem s) (keys s) v (console s) (mode s) (txq s) (buffer s) (itab s).
Definition set_console v s := mk_dev (kern s) (hw s) (vmem s) (keys s) (display s) v (mode s) (txq s) (buffer s) (itab s).
Definition set_mode v s := mk_dev (kern s) (hw s) (vmem s) (keys s) (display s) (console s) v (txq s) (buffer s) (itab s).
Definition set_txq v s := mk_dev (kern s) (hw s) (vmem s) (keys s) (display s) (console s) (mode s) v (buffer s) (itab s).
Definition set_buffer v s := mk_dev (kern s) (hw s) (vmem s) (keys s) (display s) (console s) (mode s) (txq s) v (itab s).

Definition set_itab v s := mk_dev (kern s) (hw s) (vmem s) (keys s) (display s) (console s) (mode s) (txq s) (buffer s) v.

Definition get_q (n : qname) s : intq := match n with Txq => txq s | Buffer => buffer s end.
Definition set_q (n : qname) (q : intq) s : dev H := match n with Txq => set_txq q s | Buffer => set_buffer q s end.

(** The kernel's functions, and the port instructions, on this state. *)
Definition on_kernel {A} (m : M kstate A) : M (dev H) A := zoom kern set_kern m.
Definition on_itable {A} (m : M itable A) : M (dev H) A := zoom itab set_itab m.
Definition on_video {A} (m : M bytes A) : M (dev H) A := zoom vmem set_vmem m.

Context `{Ports H}.
Definition inb (port : Z) : M (dev H) Z :=
  s ← get; let '(v, h) := port_inb port (hw s) in put (set_hw h s);; ret v.
Definition outb (port data : Z) : M (dev H) unit := modify (fun s => set_hw (port_outb port data (hw s)) s).
Definition outw (port data : Z) : M (dev H) unit := modify (fun s => set_hw (port_outw port data (hw s)) s).
End Setters.

(** ** Preemptible code *)

Inductive dcode (H : Type) (A : Type) : Type :=
  | DRet (a : A)
  | DPrim {X : Set} (m : M (dev H) X) (k : X -> dcode H A)
  | DWhile (test : M (dev H) bool) (body : dcode H unit) (k : dcode H A)
  | DSwitch (next : Z) (k : Z -> dcode H A).
Arguments DRet {H A} a.
Arguments DPrim {H A X} m k.
Arguments DWhile {H A} test body k.
Arguments DSwitch {H A} next k.

Fixpoint dbind {H A B} (c : dcode H A) (f : A -> dcode H B) : dcode H B :=
  match c with
  | DRet a => f a
  | DPrim m k => DPrim m (fun x => dbind (k x) f)
  | DWhile test body k => DWhile test body (dbind k f)
  | DSwitch next k => DSwitch next (fun prev => dbind (k prev) f)
  end.

Definition dprim {H} {X : Set} (m : M (dev H) X) : dcode H X := DPrim m DRet.

Declare Scope dcode_scope.
Delimit Scope dcode_scope with dcode.
Notation "x ⇐ c ; k" := (dbind c (fun x => k))
  (at level 20, c at level 100, k at level 200) : dcode_scope.
Notation "c ⨾ k" := (dbind c (fun _ => k))
  (at level 100, k at level 200, right associativity) : dcode_scope.
Open Scope dcode_scope.

(** Code of the threads package. *)
Fixpoint lift {H A} (c : comp A) : dcode H A :=
  match c with
  | Ret a => DRet a
  | Prim m k => DPrim (on_kernel m) (fun x => lift (k x))
  | While test body k => DWhile (on_kernel test) (lift body) (lift k)
  | Switch next k => DSwitch next (fun prev => lift (k prev))
  end.

(** ** Running to the end *)

(** From [s] the code comes to its end, with result [a] in state [s'], without
    a switch to another thread.  Code that runs with interrupts off is not
    interrupted on the way. *)
Inductive finishes {H} : forall A, dcode H A -> dev H -> A -> dev H -> Prop :=
  | finishes_ret A (a : A) s : finishes A (DRet a) s a s
  | finishes_prim A (X : Set) (m : M (dev H) X) k s x s' (a : A) s2 :
      m s = Ok (x, s') -> finishes A (k x) s' a s2 -> finishes A (DPrim m k) s a s2
  | finishes_leave A test body k s s' (a : A) s2 :
      test s = Ok (false, s') -> finishes A k s' a s2 -> finishes A (DWhile test body k) s a s2
  | finishes_round A test body k s s' s1 (a : A) s2 :
      test s = Ok (true, s') -> finishes unit body s' tt s1 ->
      finishes A (DWhile test body k) s1 a s2 -> finishes A (DWhile test body k) s a s2.
Arguments finishes {H A} _ _ _ _.

(** Total correctness: [c] comes to its end, and [Q] holds there. *)
Definition fin {H A} (c : dcode H A) (Q : A -> dev H -> Prop) (s : dev H) : Prop :=
  exists a s', finishes c s a s' /\ Q a s'.

Section Rules.
Context {H : Type}.
Implicit Types s : dev H.

Lemma finishes_bind A B (c : dcode H A) (f : A -> dcode H B) s a s' b s2 :
  finishes c s a s' -> finishes (f a) s' b s2 -> finishes (dbind c f) s b s2.
Proof. intros Hc Hf. induction Hc; cbn; eauto using @finishes. Qed.

Lemma fin_bind A B (c : dcode H A) (f : A -> dcode H B) Q s :
  fin c (fun a => fin (f a) Q) s -> fin (dbind c f) Q s.
Proof. intros (a & s' & Hc & b & s2 & Hf & HQ). exists b, s2. split; [by eapply finishes_bind|done]. Qed.

Lemma fin_ret A (a : A) (Q : A -> dev H -> Prop) s : Q a s -> fin (DRet a) Q s.
Proof. intros HQ. exists a, s. split; [constructor|done]. Qed.

Lemma fin_mono A (c : dcode H A) (P Q : A -> dev H -> Prop) s :
  fin c P s -> (forall a s', P a s' -> Q a s') -> fin c Q s.
Proof. intros (a & s' & Hc & HP) HQ. exists a, s'. auto. Qed.

Lemma fin_prim_k A (X : Set) (m : M (dev H) X) (k : X -> dcode H A) Q s :
  wp m (fun x => fin (k x) Q) s -> fin (DPrim m k) Q s.
Proof.
  intros Hm. apply wp_ok in Hm as (x & s' & E & a & s2 & Hk & HQ). exists a, s2.
  split; [by eapply finishes_prim|done].
Qed.

Lemma fin_prim (X : Set) (m : M (dev H) X) Q s : wp m Q s -> fin (dprim m) Q s.
Proof. intros Hm. apply fin_prim_k. eapply wp_mono; [exact Hm|]. intros x s'. apply fin_ret. Qed.

(** A loop, whose rounds are bounded by [n] in the invariant [I n]. *)
Lemma fin_while A (I : nat -> dev H -> Prop) test body (k : dcode H A) Q :
  (forall n s, I n s -> wp test (fun b s' =>
     if b : bool then fin body (fun _ s2 => exists n', (n' < n)%nat /\ I n' s2) s' else fin k Q s') s) ->
  forall n s, I n s -> fin (DWhile test body k) Q s.
Proof.
  intros Hr n. induction (lt_wf n) as [n _ IH]. intros s HI.
  apply (Hr n s), wp_ok in HI as ([] & s' & E & HI).
  - destruct HI as ([] & s1 & Hb & n' & Hlt & HI). destruct (IH n' Hlt s1 HI) as (a & s2 & Hk & HQ).
    exists a, s2. split; [by eapply finishes_round|done].
  - destruct HI as (a & s2 & Hk & HQ). exists a, s2. split; [by eapply finishes_leave|done].
Qed.

(** A loop that is not entered. *)
Lemma fin_while_skip A test body (k : dcode H A) Q s :
  wp test (fun b s' => b = false /\ fin k Q s') s -> fin (DWhile test body k) Q s.
Proof.
  intros Ht. apply wp_ok in Ht as (b & s' & E & -> & a & s2 & Hk & HQ).
  exists a, s2. split; [by eapply finishes_leave|done].
Qed.

Lemma wp_on_kernel {A} (m : M kstate A) (Q : A -> dev H -> Prop) s :
  wp m (fun a k => Q a (set_kern k s)) (kern s) -> wp (on_kernel m) Q s.
Proof. apply wp_zoom. Qed.
Context {ports : Ports H}.
Lemma wp_outb p v s (Q : unit -> dev H -> Prop) : Q tt (set_hw (port_outb p v (hw s)) s) -> wp (outb p v) Q s.
Proof. done. Qed.

Lemma wp_inb p s (Q : Z -> dev H -> Prop) :
  Q (port_inb p (hw s)).1 (set_hw (port_inb p (hw s)).2 s) -> wp (inb p) Q s.
Proof. intros HQ. unfold inb, wp, bind, get. by destruct (port_inb p (hw s)). Qed.
End Rules.
