(* ===== verification/PcHardware.v ===== *)
(** * What the console drivers rely on of the hardware

    The documented behaviour of the 16550A serial port, of the display's cursor
    registers and of the keyboard controller, as seen through the I/O ports;
    and a hardware that behaves like that.  Drivers are verified against the
    interface [PC]. *)

From Stdlib Require Import ZArith Lia.
From stdpp Require Import base numbers gmap list.
From S2P Require Import Prelude DevBase.

Open Scope Z_scope.

(** ** The serial port *)

(** [line] is what has been transmitted, [incoming] what has arrived or will
    arrive and has not been read.  [thre] and [dr] are the bits of the line
    status register as last read.  While [dlab] is set, the first two registers
    are those of the divisor. *)
Record uart := mk_uart { line : list Z; incoming : list Z; thre : bool; dr : bool; dlab : bool;
  divisor_low : Z; divisor_high : Z; ier : Z; mcr : Z }.

(** A byte is lost when the transmitter holds one already. *)
Definition uart_out (port v : Z) (u : uart) : uart :=
  if port =? 0x3f8 then
    if dlab u then mk_uart (line u) (incoming u) (thre u) (dr u) true v (divisor_high u) (ier u) (mcr u)
    else if thre u then mk_uart (line u ++ [v]) (incoming u) false (dr u) false (divisor_low u) (divisor_high u) (ier u) (mcr u)
    else u
  else if port =? 0x3f9 then
    if dlab u then mk_uart (line u) (incoming u) (thre u) (dr u) true (divisor_low u) v (ier u) (mcr u)
    else mk_uart (line u) (incoming u) (thre u) (dr u) false (divisor_low u) (divisor_high u) v (mcr u)
  else if port =? 0x3fb then
    mk_uart (line u) (incoming u) (thre u) (dr u) (Z.testbit v 7) (divisor_low u) (divisor_high u) (ier u) (mcr u)
  else if port =? 0x3fc then
    mk_uart (line u) (incoming u) (thre u) (dr u) (dlab u) (divisor_low u) (divisor_high u) (ier u) v
  else u.

(** Reading [v] from a port.  Data are reported only when there are some. *)
Definition uart_in (port : Z) (u : uart) (v : Z) (u' : uart) : Prop :=
  if (port =? 0x3f8) && negb (dlab u) && dr u then
    incoming u = v :: incoming u' /\
    u' = mk_uart (line u) (incoming u') (thre u) false (dlab u) (divisor_low u) (divisor_high u) (ier u) (mcr u)
  else if port =? 0x3fd then
    (Z.testbit v 0 = true -> incoming u <> []) /\
    u' = mk_uart (line u) (incoming u) (Z.testbit v 5) (Z.testbit v 0) (dlab u) (divisor_low u) (divisor_high u) (ier u) (mcr u)
  else u' = u.

(** ** The display's cursor *)

Record crtc := mk_crtc { index : Z; cursor : Z }.

Definition crtc_out (port v : Z) (c : crtc) : crtc :=
  if port =? 0x3d4 then mk_crtc v (cursor c)
  else if port =? 0x3d5 then
    if index c =? 0x0e then mk_crtc (index c) (v * 256 + cursor c mod 256)
    else if index c =? 0x0f then mk_crtc (index c) (cursor c / 256 * 256 + v)
    else c
  else c.

(** Two bytes go to two ports. *)
Definition crtc_outw (port v : Z) (c : crtc) : crtc := crtc_out (port + 1) (v / 256) (crtc_out port (v mod 256) c).

Definition crtc_in (c : crtc) : option Z :=
  if index c =? 0x0e then Some (cursor c / 256) else if index c =? 0x0f then Some (cursor c mod 256) else None.

(** ** The interface *)

(** [scan] is what the keyboard has sent and will send.  The transmitter gets
    ready after [patience] more looks at its status at most. *)
Class PC (H : Type) `{Ports H} := {
  chip : H -> uart;
  crt : H -> crtc;
  scan : H -> list Z;
  patience : H -> nat;
  cursor_u16 : forall h, in_u 16 (cursor (crt h));
  outb_chip : forall p v h, chip (port_outb p v h) = uart_out p v (chip h);
  outb_crt : forall p v h, in_u 8 v -> crt (port_outb p v h) = crtc_out p v (crt h);
  outb_scan : forall p v h, scan (port_outb p v h) = scan h;
  outw_chip : forall v h, chip (port_outw 0x3d4 v h) = chip h;
  outw_crt : forall v h, in_u 16 v -> crt (port_outw 0x3d4 v h) = crtc_outw 0x3d4 v (crt h);
  outw_scan : forall v h, scan (port_outw 0x3d4 v h) = scan h;
  inb_byte : forall p h, in_u 8 (port_inb p h).1;
  inb_chip : forall p h, uart_in p (chip h) (port_inb p h).1 (chip (port_inb p h).2);
  inb_patience : forall h, Z.testbit (port_inb 0x3fd h).1 5 = false ->
    (patience (port_inb 0x3fd h).2 < patience h)%nat;
  inb_crt : forall p h, crt (port_inb p h).2 = crt h;
  inb_cursor : forall h v, crtc_in (crt h) = Some v -> (port_inb 0x3d5 h).1 = v;
  inb_scan : forall p h, p <> 0x60 -> scan (port_inb p h).2 = scan h;
  inb_key : forall h c cs, scan h = c :: cs -> (port_inb 0x60 h).1 = c /\ scan (port_inb 0x60 h).2 = cs }.

(** ** A hardware with this behaviour *)

(** The transmitter takes two looks at its status to send a byte. *)
Record sim := mk_sim { sim_uart : uart; sim_crtc : crtc; sim_scan : list Z; sim_delay : nat }.

Definition bytes_of (l : list Z) : list Z := map u8 l.
Definition sim_chip (h : sim) : uart :=
  let u := sim_uart h in
  mk_uart (line u) (bytes_of (incoming u)) (thre u) (dr u && negb (bool_decide (incoming u = []))) (dlab u)
    (divisor_low u) (divisor_high u) (ier u) (mcr u).
Definition sim_crt (h : sim) : crtc := mk_crtc (index (sim_crtc h)) (u16 (cursor (sim_crtc h))).
Definition b2z (b : bool) : Z := if b then 1 else 0.

Definition sim_inb (p : Z) (h : sim) : Z * sim :=
  let u := sim_chip h in
  if p =? 0x3f8 then
    match incoming u with
    | v :: r => if negb (dlab u) && dr u
        then (v, mk_sim (mk_uart (line u) r (thre u) false (dlab u) (divisor_low u) (divisor_high u) (ier u) (mcr u))
                   (sim_crtc h) (sim_scan h) (sim_delay h))
        else (0, h)
    | [] => (0, h)
    end
  else if p =? 0x3fd then
    let t := bool_decide (sim_delay h = 0%nat) in
    let d := negb (bool_decide (incoming u = [])) in
    (b2z t * 32 + b2z d,
     mk_sim (mk_uart (line u) (incoming u) t d (dlab u) (divisor_low u) (divisor_high u) (ier u) (mcr u))
       (sim_crtc h) (sim_scan h) (pred (sim_delay h)))
  else if p =? 0x3d5 then (default 0 (crtc_in (sim_crt h)), h)
  else if p =? 0x60 then
    match sim_scan h with
    | c :: cs => (u8 c, mk_sim (sim_uart h) (sim_crtc h) cs (sim_delay h))
    | [] => (0, h)
    end
  else (0, h).

Definition sim_outb (p v : Z) (h : sim) : sim :=
  mk_sim (uart_out p v (sim_chip h)) (crtc_out p v (sim_crt h)) (sim_scan h)
    (if p =? 0x3f8 then 2 else sim_delay h).
Definition sim_outw (p v : Z) (h : sim) : sim :=
  mk_sim (sim_uart h) (crtc_outw p v (sim_crt h)) (sim_scan h) (sim_delay h).

#[global] Instance sim_ports : Ports sim := { port_inb := sim_inb; port_outb := sim_outb; port_outw := sim_outw }.

Lemma bytes_of_idem l : bytes_of (bytes_of l) = bytes_of l.
Proof.
  unfold bytes_of. rewrite map_map. apply map_ext. intros x. apply uwrap_small, uwrap_range. lia.
Qed.

Lemma bytes_of_nil l : bool_decide (bytes_of l = []) = bool_decide (l = []).
Proof. by destruct l. Qed.

(** What the views keep is kept by looking twice. *)
Lemma sim_chip_id h : forall c s d, sim_chip (mk_sim (sim_chip h) c s d) = sim_chip h.
Proof.
  intros c s d. unfold sim_chip. cbn [sim_uart line incoming thre dr dlab divisor_low divisor_high ier mcr].
  rewrite bytes_of_idem, bytes_of_nil. f_equal. by destruct (dr _), (bool_decide _).
Qed.

Lemma sim_chip_out p v h c s d : sim_chip (mk_sim (uart_out p v (sim_chip h)) c s d) = uart_out p v (sim_chip h).
Proof.
  assert (E : forall u, incoming u = incoming (sim_chip h) -> dr u = dr (sim_chip h) ->
    sim_chip (mk_sim u c s d) = u).
  { intros u Ei Ed. unfold sim_chip. cbn [sim_uart]. rewrite Ei, Ed. unfold sim_chip. cbn [incoming dr].
    rewrite bytes_of_idem, bytes_of_nil. destruct u. cbn in *. subst. f_equal.
    by destruct (dr (sim_uart h)), (bool_decide (incoming (sim_uart h) = [])). }
  apply E; unfold uart_out; repeat (case_match; try done).
Qed.

Lemma crtc_out_u16 p v c : in_u 8 v -> in_u 16 (cursor c) -> in_u 16 (cursor (crtc_out p v c)).
Proof.
  unfold in_u, crtc_out. intros Hv Hc. repeat case_match; cbn; try done; Z.to_euclidean_division_equations; lia.
Qed.

Lemma crtc_outw_u16 p v c : in_u 16 v -> in_u 16 (cursor c) -> in_u 16 (cursor (crtc_outw p v c)).
Proof.
  intros Hv Hc. apply crtc_out_u16; [|apply crtc_out_u16; [|done]]; unfold in_u in *;
    Z.to_euclidean_division_equations; lia.
Qed.

Lemma sim_crt_id u c s d : in_u 16 (cursor c) -> sim_crt (mk_sim u c s d) = c.
Proof. intros Hc. unfold sim_crt. cbn. rewrite uwrap_small by done. by destruct c. Qed.

Lemma sim_cursor h : in_u 16 (cursor (sim_crt h)).
Proof. apply uwrap_range. lia. Qed.

Lemma sim_inb_byte p h : in_u 8 (sim_inb p h).1.
Proof.
  assert (H0 : in_u 8 0) by (unfold in_u; lia). unfold sim_inb.
  destruct (p =? 0x3f8).
  { cbn [sim_chip incoming]. unfold bytes_of. destruct (incoming (sim_uart h)) as [|v r]; cbn [map]; [done|].
    case_match; cbn; [apply uwrap_range; lia|done]. }
  destruct (p =? 0x3fd); [unfold in_u, b2z; cbn; repeat case_match; lia|].
  destruct (p =? 0x3d5).
  { cbn [fst]. pose proof (sim_cursor h) as Hc. unfold crtc_in, in_u in *.
    destruct (index (sim_crt h) =? 0x0e), (index (sim_crt h) =? 0x0f); cbn [default id]; try lia; Z.to_euclidean_division_equations; lia. }
  destruct (p =? 0x60); [|done]. destruct (sim_scan h); cbn; [done|apply uwrap_range; lia].
Qed.

Lemma sim_inb_chip p h : uart_in p (sim_chip h) (sim_inb p h).1 (sim_chip (sim_inb p h).2).
Proof.
  unfold uart_in, sim_inb. destruct (Z.eqb_spec p 0x3f8) as [->|]; [|destruct (Z.eqb_spec p 0x3fd) as [->|]]; cbn [andb].
  - destruct (negb (dlab (sim_chip h)) && dr (sim_chip h)) eqn:E.
    + destruct (incoming (sim_chip h)) as [|v r] eqn:Ei.
      { apply andb_prop in E as [_ E]. unfold sim_chip in Ei, E. cbn in *.
        destruct (incoming (sim_uart h)); [|done]. by rewrite andb_false_r in E. }
      cbn [fst snd]. assert (Er : bytes_of r = r).
      { pose proof (bytes_of_idem (incoming (sim_uart h))) as Hb. cbn in Ei. rewrite Ei in Hb. by injection Hb. }
      unfold sim_chip; cbn -[bytes_of]. by rewrite Er.
    + change (0x3f8 =? 0x3fd) with false. cbn [andb]. by destruct (incoming (sim_chip h)).
  - cbn [fst snd]. set (t := bool_decide (sim_delay h = 0%nat)).
    set (d := negb (bool_decide (incoming (sim_chip h) = []))).
    assert (Hb : Z.testbit (b2z t * 32 + b2z d) 0 = d /\ Z.testbit (b2z t * 32 + b2z d) 5 = t) by by destruct t, d.
    destruct Hb as [-> ->]. split.
    { unfold d. by destruct (bool_decide_reflect (incoming (sim_chip h) = [])). }
    unfold sim_chip at 1. cbn [sim_uart line incoming thre dr dlab divisor_low divisor_high ier mcr].
    f_equal.
    + cbn. apply bytes_of_idem.
    + unfold d. cbn [sim_chip incoming]. by rewrite !bytes_of_nil, andb_diag.
  - repeat (case_match; try done).
Qed.

#[global, refine] Instance sim_pc : PC sim := {
  chip := sim_chip; crt := sim_crt; scan := fun h => bytes_of (sim_scan h); patience := sim_delay }.
Proof.
  - apply sim_cursor.
  - intros. apply sim_chip_out.
  - intros p v h Hv. apply sim_crt_id, crtc_out_u16; [done|apply sim_cursor].
  - done.
  - done.
  - intros v h Hv. apply sim_crt_id, crtc_outw_u16; [done|apply sim_cursor].
  - done.
  - apply sim_inb_byte.
  - apply sim_inb_chip.
  - intros h. cbn. destruct (sim_delay h); cbn; [|lia]. by destruct (negb _).
  - intros p h. cbn. unfold sim_inb. by repeat (case_match; try done).
  - intros h v E. cbn. by rewrite E.
  - intros p h Hp. cbn. unfold sim_inb. destruct (Z.eqb_spec p 0x60); [done|]. by repeat (case_match; try done).
  - intros h c cs. cbn. destruct (sim_scan h) as [|c' cs']; [done|]. by intros [= <- <-].
Defined.
