(* ===== verification/Serial.v ===== *)
(** * devices/intq.c, devices/input.c, devices/serial.c

    Interrupt queues, and the two that there are: the keys that have been
    typed, and the bytes to be transmitted by the serial port. *)

From Stdlib Require Import ZArith Lia.
From stdpp Require Import base numbers gmap list strings.
From S2P Require Import Prelude DList Kernel Thread Synch Boot Bytes Gdt Idt DevBase.

Open Scope Z_scope.

Section Code.
Context {image : Image} {stubs : Stubs} {H : Type} {ports : Ports H}.

(** [intr_get_level () == INTR_OFF], asserted. *)
Definition assert_off : M (dev H) unit :=
  level ← on_kernel intr_get_level;
  ASSERT (bool_decide (level = INTR_OFF)).
Definition assert_no_context : M (dev H) unit :=
  c ← on_kernel intr_context; ASSERT (negb c).

(** ** intq.c *)

Definition INTQ_BUFSIZE : Z := 64.

Definition next (pos : Z) : Z := (pos + 1) mod INTQ_BUFSIZE.

Definition upd_q (n : qname) (f : intq -> intq) : M (dev H) unit := modify (fun s => set_q n (f (get_q n s)) s).

Definition intq_init (n : qname) : M (dev H) unit :=
  q ← gets (get_q n);
  on_kernel (lock_init (q_lock q));;
  upd_q n (fun q => set_not_full NULL (set_not_empty NULL q));;
  upd_q n (fun q => set_q_head 0 (set_q_tail 0 q)).

Definition intq_empty (n : qname) : M (dev H) bool :=
  assert_off;;
  q ← gets (get_q n);
  ret (q_head q =? q_tail q).

Definition intq_full (n : qname) : M (dev H) bool :=
  assert_off;;
  q ← gets (get_q n);
  ret (next (q_head q) =? q_tail q).

(** Which of the two members of the queue [waiter] points to. *)
Inductive waiter := NotEmpty | NotFull.
Definition get_waiter (w : waiter) (q : intq) : Z := match w with NotEmpty => not_empty q | NotFull => not_full q end.
Definition set_waiter (w : waiter) (t : Z) (q : intq) : intq :=
  match w with NotEmpty => set_not_empty t q | NotFull => set_not_full t q end.

(** wait() and signal() of intq.c. *)
Definition intq_wait (n : qname) (w : waiter) : dcode H unit :=
  dprim (assert_no_context;;
         assert_off;;
         c ← (match w with NotEmpty => intq_empty n | NotFull => intq_full n end);
         ASSERT c;;
         t ← on_kernel thread_current;
         upd_q n (set_waiter w t)) ⨾
  lift thread_block.

Definition intq_signal (n : qname) (w : waiter) : M (dev H) unit :=
  assert_off;;
  c ← (match w with NotEmpty => intq_empty n | NotFull => intq_full n end);
  ASSERT (negb c);;
  q ← gets (get_q n);
  if negb (get_waiter w q =? NULL) then
    on_kernel (thread_unblock (get_waiter w q));;
    upd_q n (set_waiter w NULL)
  else ret tt.

(** The body of the loops in which a thread sleeps. *)
Definition intq_sleep (n : qname) (w : waiter) : dcode H unit :=
  q ⇐ dprim (assert_no_context;; s ← get; ret (q_lock (get_q n s)));
  lift (lock_acquire q) ⨾
  intq_wait n w ⨾
  lift (lock_release q).

Definition intq_getc (n : qname) : dcode H Z :=
  dprim assert_off ⨾
  DWhile (intq_empty n) (intq_sleep n NotEmpty)
  (dprim (q ← gets (get_q n);
          byte ← of_option BadAccess (buf q !! Z.to_nat (q_tail q));
          upd_q n (set_q_tail (next (q_tail q)));;
          intq_signal n NotFull;;
          ret byte)).

Definition intq_putc (n : qname) (byte : Z) : dcode H unit :=
  dprim assert_off ⨾
  DWhile (intq_full n) (intq_sleep n NotFull)
  (dprim (q ← gets (get_q n);
          of_option BadAccess (buf q !! Z.to_nat (q_head q));;
          upd_q n (set_buf (<[Z.to_nat (q_head q) := byte]> (buf q)));;
          upd_q n (set_q_head (next (q_head q)));;
          intq_signal n NotEmpty)).

(** ** serial.c: registers *)

Definition IO_BASE : Z := 0x3f8.
Definition RBR_REG : Z := IO_BASE + 0.
Definition THR_REG : Z := IO_BASE + 0.
Definition IER_REG : Z := IO_BASE + 1.
Definition LS_REG : Z := IO_BASE + 0.
Definition MS_REG : Z := IO_BASE + 1.
Definition IIR_REG : Z := IO_BASE + 2.
Definition FCR_REG : Z := IO_BASE + 2.
Definition LCR_REG : Z := IO_BASE + 3.
Definition MCR_REG : Z := IO_BASE + 4.
Definition LSR_REG : Z := IO_BASE + 5.
Definition IER_RECV : Z := 0x01.
Definition IER_XMIT : Z := 0x02.
Definition LCR_N81 : Z := 0x03.
Definition LCR_DLAB : Z := 0x80.
Definition MCR_OUT2 : Z := 0x08.
Definition LSR_DR : Z := 0x01.
Definition LSR_THRE : Z := 0x20.

(** ** input.c, and serial_notify(), which it calls *)

Definition input_init : M (dev H) unit := intq_init Buffer.

Definition input_full : M (dev H) bool := assert_off;; intq_full Buffer.

Definition write_ier : M (dev H) unit :=
  assert_off;;
  e ← intq_empty Txq;
  let ier := if negb e then Z.lor 0 IER_XMIT else 0 in
  f ← input_full;
  let ier := if negb f then Z.lor ier IER_RECV else ier in
  outb IER_REG ier.

Definition serial_notify : M (dev H) unit :=
  assert_off;;
  m ← gets mode;
  if bool_decide (m = QUEUE) then write_ier else ret tt.

Definition input_putc (key : Z) : dcode H unit :=
  dprim (assert_off;; f ← intq_full Buffer; ASSERT (negb f)) ⨾
  intq_putc Buffer key ⨾
  dprim serial_notify.

Definition input_getc : dcode H Z :=
  old_level ⇐ dprim (on_kernel intr_disable);
  key ⇐ intq_getc Buffer;
  dprim serial_notify ⨾
  dprim (on_kernel (intr_set_level old_level)) ⨾
  DRet key.

(** ** serial.c *)

Definition set_serial (bps : Z) : M (dev H) unit :=
  let base_rate := 1843200 / 16 in
  let divisor := u16 (base_rate / bps) in
  ASSERT ((300 <=? bps) && (bps <=? 115200));;
  outb LCR_REG (Z.lor LCR_N81 LCR_DLAB);;
  outb LS_REG (Z.land divisor 0xff);;
  outb MS_REG (Z.shiftr divisor 8);;
  outb LCR_REG LCR_N81.

Definition init_poll : M (dev H) unit :=
  m ← gets mode;
  ASSERT (bool_decide (m = UNINIT));;
  outb IER_REG 0;;
  outb FCR_REG 0;;
  set_serial 115200;;
  outb MCR_REG MCR_OUT2;;
  intq_init Txq;;
  modify (set_mode POLL).

Definition serial_init_queue : dcode H unit :=
  dprim (m ← gets mode; if bool_decide (m = UNINIT) then init_poll else ret tt) ⨾
  dprim (m ← gets mode; ASSERT (bool_decide (m = POLL))) ⨾
  dprim (on_itable (intr_register_ext (0x20 + 4) Serial "serial"%string)) ⨾
  dprim (modify (set_mode QUEUE)) ⨾
  old_level ⇐ dprim (on_kernel intr_disable);
  dprim write_ier ⨾
  dprim (on_kernel (intr_set_level old_level);; ret tt).

Definition putc_poll (byte : Z) : dcode H unit :=
  dprim assert_off ⨾
  DWhile (v ← inb LSR_REG; ret (Z.land v LSR_THRE =? 0)) (DRet tt)
  (dprim (outb THR_REG byte)).

Definition serial_putc (byte : Z) : dcode H unit :=
  old_level ⇐ dprim (on_kernel intr_disable);
  m ⇐ dprim (gets mode);
  (if negb (bool_decide (m = QUEUE)) then
     dprim (if bool_decide (m = UNINIT) then init_poll else ret tt) ⨾
     putc_poll byte
   else
     full ⇐ dprim (if bool_decide (old_level = INTR_OFF) then intq_full Txq else ret false);
     (if full : bool then b ⇐ intq_getc Txq; putc_poll b else DRet tt) ⨾
     intq_putc Txq byte ⨾
     dprim write_ier) ⨾
  dprim (on_kernel (intr_set_level old_level);; ret tt).

Definition serial_flush : dcode H unit :=
  old_level ⇐ dprim (on_kernel intr_disable);
  DWhile (e ← intq_empty Txq; ret (negb e)) (b ⇐ intq_getc Txq; putc_poll b)
  (dprim (on_kernel (intr_set_level old_level);; ret tt)).

Definition serial_interrupt : dcode H unit :=
  dprim (inb IIR_REG) ⨾
  DWhile (f ← input_full; if negb f then v ← inb LSR_REG; ret (negb (Z.land v LSR_DR =? 0)) else ret false)
    (v ⇐ dprim (inb RBR_REG); input_putc v)
  (DWhile (e ← intq_empty Txq; if negb e then v ← inb LSR_REG; ret (negb (Z.land v LSR_THRE =? 0)) else ret false)
    (b ⇐ intq_getc Txq; dprim (outb THR_REG b))
  (dprim write_ier)).
End Code.
