(* ===== verification/SerialOps.v ===== *)
(** * Interrupt queues and the serial port

    Interrupt queues as bounded queues, and then what the functions of
    devices/serial.c do. *)

From Stdlib Require Import ZArith Lia.
From stdpp Require Import base numbers gmap list strings.
From S2P Require Import Prelude DList Bitmap Palloc Kernel Thread Synch Boot KInv KSched Bytes Gdt Idt DevBase PcHardware Serial.

Open Scope Z_scope.

(** * Interrupt queues as bounded queues

    The bytes in a circular buffer as a list, the threads that wait for a
    queue, and what intq_getc() and intq_putc() do when they need not sleep. *)

(** ** The bytes in a queue *)

Definition queue_ok (q : intq) : Prop :=
  length (buf q) = 64%nat /\ 0 <= q_head q < 64 /\ 0 <= q_tail q < 64.

Definition fill (q : intq) : Z := (q_head q - q_tail q) mod 64.
Definition cell (q : intq) (i : nat) : Z := default 0 (buf q !! Z.to_nat ((q_tail q + Z.of_nat i) mod 64)).
Definition contents (q : intq) : list Z := map (cell q) (seq 0 (Z.to_nat (fill q))).

Lemma fill_range q : 0 <= fill q < 64.
Proof. apply Z.mod_pos_bound. lia. Qed.

Lemma length_queued q : Z.of_nat (length (contents q)) = fill q.
Proof. unfold contents. rewrite length_map, length_seq. pose proof (fill_range q). lia. Qed.

Lemma contents_waiter q w t : contents (set_waiter w t q) = contents q.
Proof. by destruct w. Qed.

Lemma empty_contents q : queue_ok q -> (q_head q =? q_tail q) = bool_decide (contents q = []).
Proof.
  intros (_ & Hh & Ht). pose proof (length_queued q) as Hl. unfold fill in Hl.
  destruct (Z.eqb_spec (q_head q) (q_tail q)) as [E|E]; symmetry.
  - apply bool_decide_eq_true. rewrite E, Z.sub_diag in Hl. destruct (contents q); [done|].
    cbn [length] in Hl. rewrite Z.mod_0_l in Hl by lia. lia.
  - apply bool_decide_eq_false. intros E2. rewrite E2 in Hl. cbn in Hl.
    Z.to_euclidean_division_equations; lia.
Qed.

Lemma full_contents q : queue_ok q -> (next (q_head q) =? q_tail q) = bool_decide (length (contents q) = 63%nat).
Proof.
  intros (_ & Hh & Ht). pose proof (length_queued q) as Hl. unfold fill in Hl. unfold next, INTQ_BUFSIZE.
  destruct (Z.eqb_spec ((q_head q + 1) mod 64) (q_tail q)) as [E|E]; symmetry.
  - apply bool_decide_eq_true. Z.to_euclidean_division_equations; lia.
  - apply bool_decide_eq_false. intros E2. rewrite E2 in Hl. Z.to_euclidean_division_equations; lia.
Qed.

Lemma contents_length q : (length (contents q) <= 63)%nat.
Proof. pose proof (length_queued q). pose proof (fill_range q). lia. Qed.

(** Adding a byte at the head. *)
Lemma contents_push q b : queue_ok q -> (length (contents q) < 63)%nat ->
  let q' := set_q_head (next (q_head q)) (set_buf (<[Z.to_nat (q_head q) := b]> (buf q)) q) in
  queue_ok q' /\ contents q' = contents q ++ [b].
Proof.
  intros (Hb & Hh & Ht) Hn q'. pose proof (length_queued q) as Hl.
  assert (Hf : fill q' = fill q + 1).
  { unfold fill in *. cbn [q' set_q_head set_buf q_head q_tail]. unfold next, INTQ_BUFSIZE.
    Z.to_euclidean_division_equations; lia. }
  split.
  { split_and!; cbn; [by rewrite length_insert|..]; unfold next, INTQ_BUFSIZE;
      Z.to_euclidean_division_equations; lia. }
  unfold contents. rewrite Hf, Z2Nat.inj_add, seq_app, map_app by (pose proof (fill_range q); lia). f_equal.
  - apply map_ext_in. intros i Hi%in_seq. unfold cell. cbn [q' set_q_head set_buf q_tail buf].
    rewrite list_lookup_insert_ne; [done|]. unfold fill in *.
    intros E%Z2Nat.inj; [|lia|apply Z.mod_pos_bound; lia].
    Z.to_euclidean_division_equations; lia.
  - change (Z.to_nat 1) with 1%nat. cbn [seq map]. f_equal. unfold cell. cbn [q' set_q_head set_buf q_tail buf].
    replace ((q_tail q + Z.of_nat (0 + Z.to_nat (fill q))) mod 64) with (q_head q).
    + rewrite list_lookup_insert_eq by lia. done.
    + unfold fill. Z.to_euclidean_division_equations; lia.
Qed.

(** Taking the byte at the tail. *)
Lemma contents_pop q : queue_ok q -> contents q <> [] ->
  exists b bs, contents q = b :: bs /\ buf q !! Z.to_nat (q_tail q) = Some b /\
    queue_ok (set_q_tail (next (q_tail q)) q) /\ contents (set_q_tail (next (q_tail q)) q) = bs.
Proof.
  intros (Hb & Hh & Ht) Hn. pose proof (length_queued q) as Hl.
  assert (0 < fill q) by (destruct (contents q); [done|cbn in Hl; lia]).
  assert (Hf : fill (set_q_tail (next (q_tail q)) q) = fill q - 1).
  { unfold fill in *. cbn [set_q_tail q_head q_tail]. unfold next, INTQ_BUFSIZE.
    Z.to_euclidean_division_equations; lia. }
  destruct (lookup_lt_is_Some_2 (buf q) (Z.to_nat (q_tail q))) as [b E]; [lia|].
  exists b, (contents (set_q_tail (next (q_tail q)) q)). split_and!; [|done| |done].
  - unfold contents. rewrite Hf. replace (Z.to_nat (fill q)) with (S (Z.to_nat (fill q - 1))) by lia.
    cbn [seq map]. f_equal.
    + unfold cell. replace ((q_tail q + Z.of_nat 0) mod 64) with (q_tail q); [by rewrite E|].
      Z.to_euclidean_division_equations; lia.
    + rewrite <- seq_shift, map_map. apply map_ext_in. intros i Hi%in_seq. unfold cell.
      cbn [set_q_tail q_tail buf]. do 3 f_equal. unfold next, INTQ_BUFSIZE.
      Z.to_euclidean_division_equations; lia.
  - split_and!; cbn; try done; unfold next, INTQ_BUFSIZE; Z.to_euclidean_division_equations; lia.
Qed.

(** ** Threads that wait *)

Section Ops.
Context {image : Image} {stubs : Stubs} {H : Type} {ports : Ports H}.
Implicit Types s : dev H.

Definition slot (t : Z) : list Z := if t =? NULL then [] else [t].
Definition waiting s : list Z :=
  slot (not_full (txq s)) ++ slot (not_empty (txq s)) ++ slot (not_full (buffer s)) ++ slot (not_empty (buffer s)).

(** These threads are blocked, and can be made ready. *)
Definition parked (k : kstate) (W : list Z) : Prop :=
  NoDup W /\ exists L rl, lists_ok (lmem k) L /\ L !! ready_list = Some rl /\
    forall t, t ∈ W -> exists th, threads k !! t = Some th /\ 0 < t /\ magic th = THREAD_MAGIC /\
      status th = THREAD_BLOCKED /\ elem_of_thread t ∈ dom (lmem k) /\ unlinked (elem_of_thread t) L.

Definition dev_ok s : Prop :=
  intr (kern s) = INTR_OFF /\ queue_ok (txq s) /\ queue_ok (buffer s) /\ parked (kern s) (waiting s).

Lemma dev_ok_queue s n : dev_ok s -> queue_ok (get_q n s).
Proof. intros (_ & ? & ? & _). by destruct n. Qed.

(** [t], if it is a thread, has been made ready; nothing else of the kernel
    has changed but the list elements. *)
Definition wakes (t : Z) (k k' : kstate) : Prop :=
  if t =? NULL then k' = k else
  exists th h, threads k !! t = Some th /\
    k' = set_threads (<[t := with_status THREAD_READY th]> (threads k)) (set_lmem h k).

Lemma wakes_intr t k k' : wakes t k k' -> intr k' = intr k /\ in_external_intr k' = in_external_intr k.
Proof. unfold wakes. destruct (t =? NULL); [by intros ->|]. by intros (th & h & _ & ->). Qed.

Lemma parked_perm k W W' : W ≡ₚ W' -> parked k W -> parked k W'.
Proof.
  intros HP (Hd & L & rl & HL & Hr & Ht). split; [by rewrite <- HP|]. exists L, rl. split_and!; try done.
  intros t Hin. apply Ht. by rewrite HP.
Qed.

Lemma parked_wake k t W : parked k (slot t ++ W) -> intr k = INTR_OFF -> t <> NULL ->
  wp (thread_unblock t) (fun _ k' => wakes t k k' /\ parked k' W) k.
Proof.
  unfold slot, wakes. intros (Hd & L & rl & HL & Hr & Ht) Hi Hn.
  rewrite (proj2 (Z.eqb_neq t NULL) Hn) in *. cbn [app] in *. apply NoDup_cons in Hd as [Hnt Hd].
  destruct (Ht t) as (th & E & H0 & Hm & Hs & Hdom & Hu); [by left|].
  eapply wp_thread_unblock; try done; [by rewrite Hi|]. intros h Hh Hdh.
  split; [by exists th, h|]. split; [done|].
  exists (<[ready_list := rl ++ [elem_of_thread t]]> L), (rl ++ [elem_of_thread t]). cbn.
  split_and!; [done|by rewrite lookup_insert_eq|]. intros t' Hin.
  assert (t' <> t) by (intros ->; done).
  destruct (Ht t') as (th' & E' & H0' & Hm' & Hs' & Hdom' & Hu'); [by right|].
  exists th'. rewrite lookup_insert_ne, Hdh by done. split_and!; try done.
  intros l xs. rewrite lookup_insert_Some. intros [[<- <-]|[Hl El]]; [|by eapply Hu'].
  pose proof (Hu' _ _ Hr) as Hx. contradict Hx. apply elem_of_nodes in Hx. apply elem_of_nodes.
  destruct Hx as [Hx|[Hx|Hx]]; [by left| |by right; right]. right. left.
  apply elem_of_app in Hx as [Hx|Hx%list_elem_of_singleton]; [done|]. unfold elem_of_thread in Hx. lia.
Qed.

(** The waiting threads of all members but one. *)
Definition others (n : qname) (w : waiter) s : list Z :=
  match n, w with
  | Txq, NotFull => slot (not_empty (txq s)) ++ slot (not_full (buffer s)) ++ slot (not_empty (buffer s))
  | Txq, NotEmpty => slot (not_full (txq s)) ++ slot (not_full (buffer s)) ++ slot (not_empty (buffer s))
  | Buffer, NotFull => slot (not_full (txq s)) ++ slot (not_empty (txq s)) ++ slot (not_empty (buffer s))
  | Buffer, NotEmpty => slot (not_full (txq s)) ++ slot (not_empty (txq s)) ++ slot (not_full (buffer s))
  end.

Lemma waiting_split n w s : waiting s ≡ₚ slot (get_waiter w (get_q n s)) ++ others n w s.
Proof. destruct n, w; unfold waiting; cbn; solve_Permutation. Qed.

Lemma waiting_cleared n w s k : waiting (set_q n (set_waiter w NULL (get_q n s)) (set_kern k s)) = others n w s.
Proof. destruct n, w; unfold waiting; cbn; by rewrite ?app_nil_r. Qed.

(** ** Operations that do not sleep *)

Lemma wp_assert_off s (Q : unit -> dev H -> Prop) : intr (kern s) = INTR_OFF -> Q tt s -> wp assert_off Q s.
Proof. intros Hi HQ. unfold wp, assert_off, on_kernel, bind, zoom. cbn. rewrite Hi. by destruct s. Qed.

Lemma wp_intq_empty n s (Q : bool -> dev H -> Prop) : dev_ok s ->
  Q (bool_decide (contents (get_q n s) = [])) s -> wp (intq_empty n) Q s.
Proof.
  intros Hok HQ. apply wp_bind, wp_assert_off; [apply Hok|]. apply wp_bind. red. cbn [gets].
  apply wp_ret. by rewrite empty_contents by by apply dev_ok_queue.
Qed.

Lemma wp_intq_full n s (Q : bool -> dev H -> Prop) : dev_ok s ->
  Q (bool_decide (length (contents (get_q n s)) = 63%nat)) s -> wp (intq_full n) Q s.
Proof.
  intros Hok HQ. apply wp_bind, wp_assert_off; [apply Hok|]. apply wp_bind. red. cbn [gets].
  apply wp_ret. by rewrite full_contents by by apply dev_ok_queue.
Qed.

(** A queue is replaced by one with the same waiting threads. *)
Lemma dev_ok_set_q n q s : dev_ok s -> queue_ok q ->
  not_full q = not_full (get_q n s) -> not_empty q = not_empty (get_q n s) -> dev_ok (set_q n q s).
Proof.
  intros (Hi & Ht & Hb & Hp) Hq Ef Ee. destruct n; cbn in *; split_and!; try done;
    unfold waiting in *; cbn; by rewrite Ef, Ee.
Qed.

(** signal() ends with the member cleared, and the thread awake. *)
Definition signalled (n : qname) (w : waiter) s s' : Prop :=
  wakes (get_waiter w (get_q n s)) (kern s) (kern s') /\
  s' = set_q n (set_waiter w NULL (get_q n s)) (set_kern (kern s') s).

Lemma wp_intq_signal n w s : dev_ok s ->
  match w with NotEmpty => contents (get_q n s) <> [] | NotFull => (length (contents (get_q n s)) < 63)%nat end ->
  wp (intq_signal n w) (fun _ s' => dev_ok s' /\ signalled n w s s') s.
Proof.
  intros Hok Hc. apply wp_bind, wp_assert_off; [apply Hok|]. apply wp_bind.
  assert (Hcond : forall Q : bool -> dev H -> Prop, Q false s ->
    wp (match w with NotEmpty => intq_empty n | NotFull => intq_full n end) Q s).
  { intros Q HQ. destruct w; [apply wp_intq_empty|apply wp_intq_full]; try done;
      rewrite bool_decide_eq_false_2; by try lia. }
  apply Hcond. apply wp_bind, wp_assertb; [done|]. apply wp_bind. red. cbn [gets].
  pose proof Hok as (Hi & Ht & Hb & Hp). pose proof (waiting_split n w s) as Hw.
  pose proof (waiting_cleared n w s) as Hcl.
  unfold signalled, wakes. destruct (Z.eqb_spec (get_waiter w (get_q n s)) NULL) as [E|E]; cbn [negb].
  - apply wp_ret. split; [done|]. split; [done|]. destruct n, w, s as [? ? ? ? ? ? ? [] [] ?]; cbn in *; by subst.
  - apply wp_bind, wp_on_kernel. eapply wp_mono; [by eapply parked_wake; [eapply parked_perm; [exact Hw|]|..]|].
    intros [] k' [Hwk Hpk]. pose proof (wakes_intr _ _ _ Hwk) as [Hi' _]. red. cbn [upd_q modify].
    unfold wakes in Hwk. rewrite (proj2 (Z.eqb_neq _ NULL) E) in Hwk. rewrite <- (Hcl k') in Hpk.
    split; [|split; [|by destruct n]].
    + split_and!; [|by destruct n, w..|].
      * destruct n; cbn; by rewrite Hi'.
      * by destruct n.
    + by destruct n.
Qed.

(** Queue [n] has changed, so that it holds [bs]; the thread that waited for
    condition [w] is awake.  Nothing else has changed. *)
Definition other (w : waiter) : waiter := match w with NotEmpty => NotFull | NotFull => NotEmpty end.
Record moved (n : qname) (w : waiter) (bs : list Z) s s' : Prop := {
  mv_ok : dev_ok s';
  mv_contents : contents (get_q n s') = bs;
  mv_wakes : wakes (get_waiter w (get_q n s)) (kern s) (kern s');
  mv_cleared : get_waiter w (get_q n s') = NULL;
  mv_other : get_waiter (other w) (get_q n s') = get_waiter (other w) (get_q n s);
  mv_lock : q_lock (get_q n s') = q_lock (get_q n s);
  mv_frame : s' = set_q n (get_q n s') (set_kern (kern s') s) }.

Lemma signalled_moved n w q s s' : dev_ok s' -> signalled n w (set_q n q s) s' ->
  not_full q = not_full (get_q n s) -> not_empty q = not_empty (get_q n s) -> q_lock q = q_lock (get_q n s) ->
  moved n w (contents q) s s'.
Proof.
  intros Hok [Hw E] Ef Ee El. split; try done; rewrite E.
  - destruct n; cbn; apply contents_waiter.
  - destruct n, w; cbn in *; congruence.
  - by destruct n, w.
  - by destruct n, w.
  - by destruct n, w.
  - by destruct n.
Qed.

Lemma fin_intq_putc n b s : dev_ok s -> (length (contents (get_q n s)) < 63)%nat ->
  fin (intq_putc n b) (fun _ s' => moved n NotEmpty (contents (get_q n s) ++ [b]) s s') s.
Proof.
  intros Hok Hn. pose proof (dev_ok_queue s n Hok) as Hq.
  apply fin_prim_k, wp_assert_off; [apply Hok|]. cbn [dbind]. apply fin_while_skip, wp_intq_full; [done|].
  split; [apply bool_decide_eq_false; lia|]. apply fin_prim.
  apply wp_bind. red. cbn [gets]. destruct (contents_push (get_q n s) b Hq Hn) as [Hq' Hc].
  destruct (lookup_lt_is_Some_2 (buf (get_q n s)) (Z.to_nat (q_head (get_q n s)))) as [x E]; [destruct Hq; lia|].
  apply wp_bind. rewrite E. apply wp_ret. apply wp_bind. red. cbn [upd_q modify].
  apply wp_bind. red. cbn [upd_q modify].
  match goal with |- wp _ _ ?t => replace t with (set_q n (set_q_head (next (q_head (get_q n s)))
    (set_buf (<[Z.to_nat (q_head (get_q n s)):=b]> (buf (get_q n s))) (get_q n s))) s) by by destruct n end.
  eapply wp_mono; [apply wp_intq_signal|].
  - by apply dev_ok_set_q.
  - destruct n; cbn [get_q set_q txq buffer set_txq set_buffer] in *; rewrite Hc; by destruct (contents _).
  - intros [] s' [Hok' Hs]. rewrite <- Hc. by apply signalled_moved.
Qed.

Lemma fin_intq_getc n s b bs : dev_ok s -> contents (get_q n s) = b :: bs ->
  fin (intq_getc n) (fun r s' => r = b /\ moved n NotFull bs s s') s.
Proof.
  intros Hok Hn. pose proof (dev_ok_queue s n Hok) as Hq.
  apply fin_prim_k, wp_assert_off; [apply Hok|]. cbn [dbind]. apply fin_while_skip, wp_intq_empty; [done|].
  split; [apply bool_decide_eq_false; by rewrite Hn|]. apply fin_prim.
  apply wp_bind. red. cbn [gets]. destruct (contents_pop (get_q n s) Hq) as (b' & bs' & E & Eb & Hq' & Hc); [by rewrite Hn|].
  rewrite Hn in E. injection E as <- <-.
  apply wp_bind. rewrite Eb. apply wp_ret. apply wp_bind. red. cbn [upd_q modify]. apply wp_bind.
  eapply wp_mono; [apply wp_intq_signal|].
  - by apply dev_ok_set_q.
  - pose proof (contents_length (get_q n s)) as Hl. rewrite Hn in Hl. cbn in Hl.
    destruct n; cbn [get_q set_q txq buffer set_txq set_buffer] in *; rewrite Hc; lia.
  - intros [] s' [Hok' Hs]. apply wp_ret. split; [done|]. rewrite <- Hc. by apply signalled_moved.
Qed.
End Ops.

(** * The serial port: what its functions do

    Every function that may be called without sleeping, on a hardware with the
    documented behaviour. *)

Lemma thre_bit v : (Z.land v LSR_THRE =? 0) = negb (Z.testbit v 5).
Proof. by apply (land_pow2 v 5). Qed.
Lemma dr_bit v : (Z.land v LSR_DR =? 0) = negb (Z.testbit v 0).
Proof. by apply (land_pow2 v 0). Qed.

Section Ops.
Context {image : Image} {stubs : Stubs} {H : Type} {ports : Ports H} {pc : PC H}.
Implicit Types s : dev H.
Implicit Types h : H.

(** ** The status of the line *)

Definition with_status_bits (t d : bool) (u : uart) : uart :=
  mk_uart (line u) (incoming u) t d (dlab u) (divisor_low u) (divisor_high u) (ier u) (mcr u).
Definition with_line (l : list Z) (u : uart) : uart :=
  mk_uart l (incoming u) false (dr u) (dlab u) (divisor_low u) (divisor_high u) (ier u) (mcr u).
Definition with_incoming (l : list Z) (u : uart) : uart :=
  mk_uart (line u) l (thre u) false (dlab u) (divisor_low u) (divisor_high u) (ier u) (mcr u).
Definition with_ier (v : Z) (u : uart) : uart :=
  mk_uart (line u) (incoming u) (thre u) (dr u) (dlab u) (divisor_low u) (divisor_high u) v (mcr u).

(** Only the serial port has been touched. *)
Definition others_kept h h' : Prop := crt h' = crt h /\ scan h' = scan h.
#[global] Instance others_kept_po : PreOrder others_kept.
Proof. split; [done|]. intros x y z [E1 E2] [E3 E4]. split; congruence. Qed.

Lemma outb_kept p v h : in_u 8 v -> 0x3f8 <= p < 0x400 -> others_kept h (port_outb p v h).
Proof.
  intros Hv Hp. split; [|apply outb_scan]. rewrite outb_crt by done. unfold crtc_out.
  destruct (Z.eqb_spec p 0x3d4); [lia|]. destruct (Z.eqb_spec p 0x3d5); [lia|]. done.
Qed.

Lemma inb_kept p h : p <> 0x60 -> others_kept h (port_inb p h).2.
Proof. intros Hp. split; [apply inb_crt|by apply inb_scan]. Qed.

Lemma wp_line_status s (Q : Z -> dev H -> Prop) :
  (forall v h, in_u 8 v -> others_kept (hw s) h ->
     chip h = with_status_bits (Z.testbit v 5) (Z.testbit v 0) (chip (hw s)) ->
     (Z.testbit v 0 = true -> incoming (chip (hw s)) <> []) ->
     (Z.testbit v 5 = false -> (patience h < patience (hw s))%nat) -> Q v (set_hw h s)) ->
  wp (inb LSR_REG) Q s.
Proof.
  intros HQ. apply wp_inb. pose proof (inb_chip LSR_REG (hw s)) as Hc. unfold uart_in in Hc. cbn in Hc.
  destruct Hc as [Hi Hc]. apply HQ; try done.
  - apply inb_byte.
  - by apply inb_kept.
  - apply inb_patience.
Qed.

(** ** Transmitting by polling *)

Lemma fin_putc_poll b s : intr (kern s) = INTR_OFF -> dlab (chip (hw s)) = false -> in_u 8 b ->
  fin (putc_poll b) (fun _ s' => exists h d, s' = set_hw h s /\ others_kept (hw s) h /\
    chip h = with_status_bits false d (with_line (line (chip (hw s)) ++ [b]) (chip (hw s)))) s.
Proof.
  intros Hi Hd Hb. apply fin_prim_k, wp_assert_off; [done|]. cbn [dbind].
  apply (fin_while _ (fun n t => exists h a d, patience h = n /\ t = set_hw h s /\ others_kept (hw s) h /\
    chip h = with_status_bits a d (chip (hw s)))) with (n := patience (hw s)).
  - intros n t (h & a & d & <- & -> & Hk & Hc). apply wp_bind, wp_line_status. cbn [hw set_hw].
    intros v h' Hv Hk' Hc' _ Hp. apply wp_ret. rewrite thre_bit.
    rewrite Hc in Hc'. destruct (Z.testbit v 5); cbn [negb].
    + apply fin_prim, wp_outb. cbn [hw set_hw]. eexists _, (Z.testbit v 0). split; [done|].
      split; [etrans; [exact Hk|]; etrans; [exact Hk'|]; apply outb_kept; [done|unfold THR_REG, IO_BASE; lia]|].
      rewrite outb_chip, Hc'. unfold uart_out. change (THR_REG =? 0x3f8) with true.
      unfold with_status_bits, with_line. cbn [dlab thre]. by rewrite Hd.
    + apply fin_ret. exists (patience h'). split; [by apply Hp|].
      exists h', false, (Z.testbit v 0). split_and!; try done. by etrans.
  - exists (hw s), (thre (chip (hw s))), (dr (chip (hw s))). split_and!; [done|by destruct s|done|].
    by destruct (chip (hw s)).
Qed.

(** ** What is kept *)

Definition calm (k : kstate) : kstate := set_intr INTR_OFF k.
Definition only_wakes : relation kstate := rtc (fun k k' => exists t, wakes t (calm k) (calm k')).

Lemma only_wakes_intr k v : only_wakes k (set_intr v k).
Proof. apply rtc_once. by exists NULL. Qed.

(** Apart from the two queues and the serial port's data and interrupt enable
    register, the state is the same, but for threads that have been woken. *)
Record kept s s' : Prop := {
  kp_kern : only_wakes (kern s) (kern s');
  kp_intr : intr (kern s') = intr (kern s);
  kp_context : in_external_intr (kern s') = in_external_intr (kern s);
  kp_hw : others_kept (hw s) (hw s');
  kp_dlab : dlab (chip (hw s')) = dlab (chip (hw s));
  kp_vmem : vmem s' = vmem s;
  kp_keys : keys s' = keys s;
  kp_display : display s' = display s;
  kp_console : console s' = console s;
  kp_mode : mode s' = mode s;
  kp_itab : itab s' = itab s }.

#[global] Instance kept_po : PreOrder kept.
Proof.
  split; [intros s; by split|]. intros x y z A B. destruct A, B.
  split; try congruence; unfold only_wakes in *; by etrans.
Qed.

Lemma kept_hw s h : others_kept (hw s) h -> dlab (chip h) = dlab (chip (hw s)) -> kept s (set_hw h s).
Proof. intros Hk Hd. by split. Qed.

Lemma wakes_calm t k k' : wakes t k k' -> wakes t (calm k) (calm k').
Proof.
  unfold wakes. destruct (t =? NULL); [by intros ->|]. intros (th & h & E & ->). exists th, h. split; [exact E|done].
Qed.

Lemma moved_kept n w bs s s' : moved n w bs s s' -> kept s s'.
Proof.
  intros Hm. pose proof (wakes_intr _ _ _ (mv_wakes _ _ _ _ _ Hm)) as [Hi Hx].
  assert (Hw : only_wakes (kern s) (kern s')).
  { apply rtc_once. exists (get_waiter w (get_q n s)). apply wakes_calm, (mv_wakes _ _ _ _ _ Hm). }
  rewrite (mv_frame _ _ _ _ _ Hm). destruct n; by split.
Qed.

(** The other queue, and the serial port. *)
Lemma moved_hw n w bs s s' : moved n w bs s s' -> hw s' = hw s.
Proof. intros Hm. rewrite (mv_frame _ _ _ _ _ Hm). by destruct n. Qed.
Lemma moved_txq w bs s s' : moved Buffer w bs s s' -> txq s' = txq s.
Proof. intros Hm. by rewrite (mv_frame _ _ _ _ _ Hm). Qed.
Lemma moved_buffer w bs s s' : moved Txq w bs s s' -> buffer s' = buffer s.
Proof. intros Hm. by rewrite (mv_frame _ _ _ _ _ Hm). Qed.

(** ** The interrupt enable register *)

(** Interrupts are wanted when there is something to transmit, and when there
    is room for what is received. *)
Definition wanted s : Z :=
  Z.lor (if bool_decide (contents (txq s) = []) then 0 else 2)
        (if bool_decide (length (contents (buffer s)) = 63%nat) then 0 else 1).

Lemma wp_input_full s (Q : bool -> dev H -> Prop) : dev_ok s ->
  Q (bool_decide (length (contents (buffer s)) = 63%nat)) s -> wp input_full Q s.
Proof. intros Hok HQ. apply wp_bind, wp_assert_off; [apply Hok|]. by apply wp_intq_full. Qed.

Lemma wp_write_ier s : dev_ok s -> dlab (chip (hw s)) = false ->
  wp write_ier (fun _ s' => exists h, s' = set_hw h s /\ others_kept (hw s) h /\
    chip h = with_ier (wanted s) (chip (hw s))) s.
Proof.
  intros Hok Hd. apply wp_bind, wp_assert_off; [apply Hok|]. apply wp_bind, wp_intq_empty; [done|].
  apply wp_bind, wp_input_full; [done|]. cbn [get_q]. apply wp_outb.
  match goal with |- context [port_outb IER_REG ?v _] => replace v with (wanted s) end.
  - eexists. split; [done|]. split.
    + apply outb_kept; [|unfold IER_REG, IO_BASE; lia]. unfold wanted.
      by destruct (bool_decide (contents (txq s) = [])), (bool_decide (length (contents (buffer s)) = 63%nat)).
    + rewrite outb_chip. unfold uart_out, with_ier. change (IER_REG =? 0x3f8) with false.
      change (IER_REG =? 0x3f9) with true. cbn iota. by rewrite Hd.
  - unfold wanted. by destruct (bool_decide (contents (txq s) = [])), (bool_decide (length (contents (buffer s)) = 63%nat)).
Qed.

Lemma wp_serial_notify s : dev_ok s -> dlab (chip (hw s)) = false ->
  wp serial_notify (fun _ s' => exists h, s' = set_hw h s /\ others_kept (hw s) h /\
    chip h = (if bool_decide (mode s = QUEUE) then with_ier (wanted s) (chip (hw s)) else chip (hw s))) s.
Proof.
  intros Hok Hd. apply wp_bind, wp_assert_off; [apply Hok|]. apply wp_bind. red. cbn [gets].
  destruct (bool_decide_reflect (mode s = QUEUE)); [by apply wp_write_ier|].
  apply wp_ret. exists (hw s). split_and!; [by destruct s|done|done].
Qed.

(** ** Keys *)

Lemma fin_input_putc b s : dev_ok s -> dlab (chip (hw s)) = false -> (length (contents (buffer s)) < 63)%nat ->
  fin (input_putc b) (fun _ s' => dev_ok s' /\ kept s s' /\
    contents (buffer s') = contents (buffer s) ++ [b] /\ contents (txq s') = contents (txq s) /\
    line (chip (hw s')) = line (chip (hw s)) /\ incoming (chip (hw s')) = incoming (chip (hw s)) /\
    (mode s = QUEUE -> ier (chip (hw s')) = wanted s')) s.
Proof.
  intros Hok Hd Hn. apply fin_prim_k. apply wp_bind, wp_assert_off; [apply Hok|].
  apply wp_bind, wp_intq_full; [done|]. cbn [get_q].
  apply wp_assertb; [by rewrite bool_decide_eq_false_2 by lia|]. cbn [dbind].
  apply fin_bind. eapply fin_mono; [by apply (fin_intq_putc Buffer)|]. intros [] s1 Hm. cbn [get_q] in Hm.
  pose proof (moved_kept _ _ _ _ _ Hm) as Hk. pose proof (moved_hw _ _ _ _ _ Hm) as Eh.
  pose proof (moved_txq _ _ _ _ Hm) as Et. pose proof (mv_contents _ _ _ _ _ Hm) as Ec. cbn [get_q] in Ec.
  pose proof (mv_ok _ _ _ _ _ Hm) as Hok1.
  apply fin_prim. eapply wp_mono; [apply wp_serial_notify; [done|by rewrite Eh]|].
  intros [] s2 (h & -> & Hk2 & Hc). cbn [hw set_hw buffer txq]. rewrite Eh in *.
  assert (Hd2 : dlab (chip h) = dlab (chip (hw s))) by (rewrite Hc; by destruct (bool_decide _)).
  split_and!; try done.
  - etrans; [exact Hk|]. apply kept_hw; by rewrite Eh.
  - by rewrite Et.
  - rewrite Hc. by destruct (bool_decide _).
  - rewrite Hc. by destruct (bool_decide _).
  - intros Em. rewrite Hc. rewrite (kp_mode _ _ Hk), Em. by rewrite bool_decide_eq_true_2.
Qed.

(** ** Transmitting from the queue *)

(** One byte, from the queue to the line. *)
Lemma fin_transmit b bs s : dev_ok s -> dlab (chip (hw s)) = false -> Forall (in_u 8) (contents (txq s)) ->
  contents (txq s) = b :: bs ->
  fin (b ⇐ intq_getc Txq; putc_poll b) (fun _ s' => dev_ok s' /\ kept s s' /\
    contents (txq s') = bs /\ buffer s' = buffer s /\
    line (chip (hw s')) = line (chip (hw s)) ++ [b] /\ incoming (chip (hw s')) = incoming (chip (hw s))) s.
Proof.
  intros Hok Hd Hb E. apply fin_bind. eapply fin_mono; [by apply (fin_intq_getc Txq)|]. intros r s1 [-> Hm].
  pose proof (moved_kept _ _ _ _ _ Hm) as Hk. pose proof (moved_hw _ _ _ _ _ Hm) as Eh.
  pose proof (mv_ok _ _ _ _ _ Hm) as Hok1. rewrite E in Hb. apply Forall_cons in Hb as [Hb _].
  eapply fin_mono; [apply fin_putc_poll; [apply Hok1|by rewrite Eh|done]|].
  intros [] s2 (h & d & -> & Hk2 & Hc). cbn [hw set_hw buffer txq]. rewrite Eh in *.
  split_and!; try done; try (by rewrite Hc).
  - etrans; [exact Hk|]. apply kept_hw; rewrite ?Eh; [done|]. by rewrite Hc.
  - exact (mv_contents _ _ _ _ _ Hm).
  - exact (moved_buffer _ _ _ _ Hm).
Qed.

(** intr_disable() and intr_set_level() around the work. *)
Definition ready s : Prop :=
  (intr (kern s) = INTR_ON -> in_external_intr (kern s) = false) /\ dev_ok (set_kern (calm (kern s)) s).

Lemma fin_disable A (k : intr_level -> dcode H A) Q s :
  fin (k (intr (kern s))) Q (set_kern (calm (kern s)) s) -> fin (dbind (dprim (on_kernel intr_disable)) k) Q s.
Proof. intros Hk. apply fin_prim_k, wp_on_kernel. exact Hk. Qed.

(** Restoring the level that was found. *)
Lemma fin_restore s s' (Q : unit -> dev H -> Prop) :
  (intr (kern s) = INTR_ON -> in_external_intr (kern s) = false) -> kept (set_kern (calm (kern s)) s) s' ->
  (kept s (set_kern (set_intr (intr (kern s)) (kern s')) s') ->
   Q tt (set_kern (set_intr (intr (kern s)) (kern s')) s')) ->
  fin (dprim (on_kernel (intr_set_level (intr (kern s)));; ret tt)) Q s'.
Proof.
  intros Hx Hk HQ. apply fin_prim, wp_bind, wp_on_kernel, wp_intr_set_level.
  - intros E. rewrite (kp_context _ _ Hk). by apply Hx.
  - apply wp_ret, HQ. destruct Hk as [Kk _ Kc Kh Kd Kv Kkeys Kdisp Kcon Km Ki]. split; try done.
    cbn in *. etrans; [apply (only_wakes_intr _ INTR_OFF)|]. etrans; [exact Kk|]. apply only_wakes_intr.
Qed.

Lemma ready_back s' lvl : dev_ok s' -> (lvl = INTR_ON -> in_external_intr (kern s') = false) ->
  ready (set_kern (set_intr lvl (kern s')) s').
Proof. intros (Hi & Ht & Hb & Hp) Hx. split; [exact Hx|]. by split_and!. Qed.

Lemma fin_serial_flush s : ready s -> dlab (chip (hw s)) = false -> Forall (in_u 8) (contents (txq s)) ->
  fin serial_flush (fun _ s' => ready s' /\ kept s s' /\ contents (txq s') = [] /\ buffer s' = buffer s /\
    line (chip (hw s')) = line (chip (hw s)) ++ contents (txq s) /\
    incoming (chip (hw s')) = incoming (chip (hw s))) s.
Proof.
  intros Hr Hd Hb. apply fin_disable. set (s0 := set_kern (calm (kern s)) s).
  apply (fin_while _ (fun n t => n = length (contents (txq t)) /\ dev_ok t /\ kept s0 t /\ buffer t = buffer s /\
    Forall (in_u 8) (contents (txq t)) /\ incoming (chip (hw t)) = incoming (chip (hw s)) /\
    line (chip (hw t)) ++ contents (txq t) = line (chip (hw s)) ++ contents (txq s))) with (n := length (contents (txq s0))).
  - intros n t (-> & Hok & Hk & Eb & Hf & Ei & El). apply wp_bind, wp_intq_empty; [done|]. cbn [get_q]. apply wp_ret.
    assert (Hdt : dlab (chip (hw t)) = false) by by rewrite (kp_dlab _ _ Hk).
    destruct (contents (txq t)) as [|b bs] eqn:E; cbn [bool_decide negb decide].
    + change (negb (bool_decide (@nil Z = []))) with false. apply fin_restore; [apply Hr|done|]. intros Hk'.
      rewrite app_nil_r in El. split_and!; try done.
      apply ready_back; [done|]. rewrite (kp_context _ _ Hk). apply Hr.
    + rewrite bool_decide_eq_false_2 by done. cbn [negb].
      eapply fin_mono; [apply (fin_transmit b bs); [done|done|by rewrite E|done]|].
      intros [] t' (Hok' & Hk' & Ec & Eb' & El' & Ei'). exists (length bs). split; [cbn; lia|].
      apply Forall_cons in Hf as [_ Hf]. split_and!; try done; try congruence; try (by rewrite Ec).
      * by etrans.
      * by rewrite Ec, El', <- app_assoc.
  - split_and!; try done. apply Hr.
Qed.

(** ** The interrupt handler *)

(** Reading a byte that has been reported. *)
Lemma wp_receive s (Q : Z -> dev H -> Prop) : dlab (chip (hw s)) = false -> dr (chip (hw s)) = true ->
  (forall v h r, incoming (chip (hw s)) = v :: r -> others_kept (hw s) h ->
     chip h = with_incoming r (chip (hw s)) -> Q v (set_hw h s)) ->
  wp (inb RBR_REG) Q s.
Proof.
  intros Hd Hdr HQ. apply wp_inb. pose proof (inb_chip RBR_REG (hw s)) as Hc. unfold uart_in in Hc.
  rewrite Hd, Hdr in Hc. cbn in Hc. destruct Hc as [Hi Hc].
  eapply HQ; [exact Hi|by apply inb_kept|]. unfold with_incoming. by rewrite Hd.
Qed.

Definition received s s' (r : list Z) : Prop :=
  contents (buffer s') = contents (buffer s) ++ r /\ incoming (chip (hw s)) = r ++ incoming (chip (hw s')).
Definition transmitted s s' (t : list Z) : Prop :=
  contents (txq s) = t ++ contents (txq s') /\ line (chip (hw s')) = line (chip (hw s)) ++ t.

Lemma fin_receive_loop s (k : dcode H unit) (Q : unit -> dev H -> Prop) : dev_ok s -> dlab (chip (hw s)) = false ->
  (forall s' r, dev_ok s' -> kept s s' -> received s s' r -> contents (txq s') = contents (txq s) ->
     line (chip (hw s')) = line (chip (hw s)) -> fin k Q s') ->
  fin (DWhile (f ← input_full; if negb f then v ← inb LSR_REG; ret (negb (Z.land v LSR_DR =? 0)) else ret false)
    (v ⇐ dprim (inb RBR_REG); input_putc v) k) Q s.
Proof.
  intros Hok Hd HQ.
  apply (fin_while _ (fun n t => n = (63 - length (contents (buffer t)))%nat /\ dev_ok t /\ kept s t /\
    contents (txq t) = contents (txq s) /\ line (chip (hw t)) = line (chip (hw s)) /\ exists r, received s t r))
    with (n := (63 - length (contents (buffer s)))%nat).
  2:{ split_and!; try done. exists []. by split; [rewrite app_nil_r|]. }
  intros n t (-> & Hokt & Hk & Et & El & r & Hr). apply wp_bind, wp_input_full; [done|].
  pose proof (contents_length (buffer t)) as Hle.
  destruct (bool_decide_reflect (length (contents (buffer t)) = 63%nat)) as [Hfull|Hfull]; cbn [negb].
  { apply wp_ret. by apply (HQ t r). }
  apply wp_bind, wp_line_status. intros v h Hv Hkh Hc Hdata _. apply wp_ret. rewrite dr_bit, negb_involutive.
  assert (Hdt : dlab (chip h) = false) by (rewrite Hc; cbn; by rewrite (kp_dlab _ _ Hk)).
  assert (Hkt : kept s (set_hw h t)) by (etrans; [exact Hk|]; apply kept_hw; [done|by rewrite Hc]).
  destruct Hr as [Hr1 Hr2]. destruct (Z.testbit v 0) eqn:Eb.
  2:{ apply (HQ _ r); try done; cbn [hw set_hw txq]; [|by rewrite Hc]. split; [done|]. cbn [hw set_hw]. by rewrite Hc. }
  apply fin_bind, fin_prim, wp_receive; [done|cbn [hw set_hw]; by rewrite Hc|].
  cbn [hw set_hw]. intros x h2 rest Ei Hk2 Hc2.
  assert (Hd2 : dlab (chip h2) = false) by by rewrite Hc2.
  eapply fin_mono; [apply fin_input_putc; [done|done|cbn; lia]|].
  cbn [hw set_hw buffer txq]. intros [] t2 (Hok2 & Hk3 & Eb2 & Et2 & El2 & Ei2 & _).
  exists (63 - length (contents (buffer t2)))%nat. rewrite Eb2, length_app. cbn [length].
  split; [lia|]. split_and!; try done.
  - etrans; [exact Hkt|]. etrans; [|exact Hk3]. apply (kept_hw (set_hw h t)); [done|by rewrite Hc2].
  - congruence.
  - rewrite El2, Hc2. cbn. by rewrite Hc.
  - exists (r ++ [x]). split; [by rewrite Eb2, Hr1, app_assoc|]. rewrite Ei2, Hc2. cbn. rewrite Hr2, <- app_assoc. f_equal.
    cbn. rewrite Hc in Ei. exact Ei.
Qed.

Lemma fin_transmit_loop s (k : dcode H unit) (Q : unit -> dev H -> Prop) : dev_ok s -> dlab (chip (hw s)) = false ->
  Forall (in_u 8) (contents (txq s)) ->
  (forall s' t, dev_ok s' -> kept s s' -> transmitted s s' t -> contents (buffer s') = contents (buffer s) ->
     incoming (chip (hw s')) = incoming (chip (hw s)) -> fin k Q s') ->
  fin (DWhile (e ← intq_empty Txq; if negb e then v ← inb LSR_REG; ret (negb (Z.land v LSR_THRE =? 0)) else ret false)
    (b ⇐ intq_getc Txq; dprim (outb THR_REG b)) k) Q s.
Proof.
  intros Hok Hd Hf HQ.
  apply (fin_while _ (fun n t => n = length (contents (txq t)) /\ dev_ok t /\ kept s t /\
    contents (buffer t) = contents (buffer s) /\ incoming (chip (hw t)) = incoming (chip (hw s)) /\
    Forall (in_u 8) (contents (txq t)) /\ exists r, transmitted s t r)) with (n := length (contents (txq s))).
  2:{ split_and!; try done. exists []. by split; [|rewrite app_nil_r]. }
  intros n t (-> & Hokt & Hk & Eb & Ei & Hft & r & Hr). apply wp_bind, wp_intq_empty; [done|]. cbn [get_q].
  destruct (contents (txq t)) as [|b bs] eqn:E.
  { change (negb (bool_decide (@nil Z = []))) with false. apply wp_ret. by apply (HQ t r). }
  rewrite bool_decide_eq_false_2 by done. cbn [negb].
  apply wp_bind, wp_line_status. intros v h Hv Hkh Hc _ _. apply wp_ret. rewrite thre_bit, negb_involutive.
  assert (Hdt : dlab (chip h) = false) by (rewrite Hc; cbn; by rewrite (kp_dlab _ _ Hk)).
  assert (Hkt : kept s (set_hw h t)) by (etrans; [exact Hk|]; apply kept_hw; [done|by rewrite Hc]).
  destruct Hr as [Hr1 Hr2]. destruct (Z.testbit v 5) eqn:E5.
  2:{ apply (HQ _ r); try done; cbn [hw set_hw txq]; [|by rewrite Hc]. split; [done|]. cbn [hw set_hw]. by rewrite Hc. }
  apply fin_bind. eapply fin_mono; [by apply (fin_intq_getc Txq (set_hw h t))|]. intros x t1 [-> Hm].
  pose proof (moved_kept _ _ _ _ _ Hm) as Hkm. pose proof (moved_hw _ _ _ _ _ Hm) as Eh. cbn [hw set_hw] in Eh.
  pose proof (moved_buffer _ _ _ _ Hm) as Ebm. pose proof (mv_contents _ _ _ _ _ Hm) as Ec. cbn [get_q buffer set_hw] in *.
  apply Forall_cons in Hft as [Hb Hft].
  assert (Ech : chip (port_outb THR_REG b (hw t1)) = with_line (line (chip (hw t)) ++ [b]) (chip h)).
  { rewrite outb_chip, Eh. unfold uart_out. change (THR_REG =? 0x3f8) with true. cbn iota. unfold with_line.
    rewrite Hdt. replace (thre (chip h)) with true by by rewrite Hc. by rewrite Hc. }
  apply fin_prim, wp_outb. exists (length bs). split; [cbn; lia|].
  cbn [txq buffer hw set_hw]. rewrite Ech, Ebm, Ec. split_and!; try done.
  - exact (mv_ok _ _ _ _ _ Hm).
  - etrans; [exact Hkt|]. etrans; [exact Hkm|]. apply kept_hw.
    + apply outb_kept; [done|unfold THR_REG, IO_BASE; lia].
    + by rewrite Ech, Eh.
  - cbn. rewrite <- Ei, Hc. done.
  - exists (r ++ [b]). unfold transmitted. cbn [txq hw set_hw]. rewrite Ech, Ec. cbn. split.
    + by rewrite Hr1, E, <- app_assoc.
    + by rewrite Hr2, app_assoc.
Qed.

Lemma fin_serial_interrupt s : dev_ok s -> dlab (chip (hw s)) = false -> Forall (in_u 8) (contents (txq s)) ->
  fin serial_interrupt (fun _ s' => dev_ok s' /\ kept s s' /\ ier (chip (hw s')) = wanted s' /\
    (exists r, received s s' r) /\ exists t, transmitted s s' t) s.
Proof.
  intros Hok Hd Hf. apply fin_prim_k, wp_inb. cbn [dbind].
  set (h0 := (port_inb IIR_REG (hw s)).2).
  assert (Ec0 : chip h0 = chip (hw s)) by (exact (inb_chip IIR_REG (hw s))).
  assert (Hk0 : kept s (set_hw h0 s)) by (apply kept_hw; [by apply inb_kept|by rewrite Ec0]).
  apply fin_receive_loop; [done|cbn; by rewrite Ec0|].
  intros s1 r Hok1 Hk1 [Hr1 Hr2] Et1 El1. cbn [hw set_hw txq buffer] in *. rewrite Ec0 in *.
  assert (Hd1 : dlab (chip (hw s1)) = false) by (rewrite (kp_dlab _ _ Hk1); cbn; by rewrite Ec0).
  apply fin_transmit_loop; [done|done|by rewrite Et1|].
  intros s2 t Hok2 Hk2 [Ht1 Ht2] Eb2 Ei2.
  apply fin_prim. eapply wp_mono; [apply wp_write_ier; [done|by rewrite (kp_dlab _ _ Hk2)]|].
  intros [] s3 (h & -> & Hkh & Hc). split_and!; [done|..].
  - etrans; [exact Hk0|]. etrans; [exact Hk1|]. etrans; [exact Hk2|]. apply kept_hw; [done|by rewrite Hc].
  - cbn [hw set_hw]. by rewrite Hc.
  - exists r. split; cbn [hw set_hw buffer]; [by rewrite Eb2|]. rewrite Hc. cbn. by rewrite Ei2.
  - exists t. split; cbn [hw set_hw txq]; [by rewrite <- Et1|]. rewrite Hc. cbn. by rewrite Ht2, El1.
Qed.

(** ** serial_putc() *)

(** With interrupts off, room is made by transmitting the oldest byte. *)
Lemma fin_make_room lvl s : dev_ok s -> dlab (chip (hw s)) = false -> Forall (in_u 8) (contents (txq s)) ->
  (lvl = INTR_ON -> (length (contents (txq s)) < 63)%nat) ->
  fin (full ⇐ dprim (if bool_decide (lvl = INTR_OFF) then intq_full Txq else ret false);
       if full : bool then b ⇐ intq_getc Txq; putc_poll b else DRet tt)
    (fun _ s' => dev_ok s' /\ kept s s' /\ (length (contents (txq s')) < 63)%nat /\ buffer s' = buffer s /\
       incoming (chip (hw s')) = incoming (chip (hw s)) /\ exists t, transmitted s s' t) s.
Proof.
  intros Hok Hd Hf Hroom. pose proof (contents_length (txq s)) as Hle.
  assert (Hnone : (length (contents (txq s)) < 63)%nat -> fin (DRet tt) (fun _ s' => dev_ok s' /\ kept s s' /\
    (length (contents (txq s')) < 63)%nat /\ buffer s' = buffer s /\
    incoming (chip (hw s')) = incoming (chip (hw s)) /\ exists t, transmitted s s' t) s).
  { intros Hn. apply fin_ret. split_and!; try done. exists []. split; [done|by rewrite app_nil_r]. }
  apply fin_prim_k. destruct (bool_decide_reflect (lvl = INTR_OFF)) as [->|Hl]; cbn [dbind].
  2:{ apply wp_ret, Hnone, Hroom. by destruct lvl. }
  apply wp_intq_full; [done|]. cbn [get_q].
  destruct (bool_decide_reflect (length (contents (txq s)) = 63%nat)) as [El|El]; [|apply Hnone; lia].
  destruct (contents (txq s)) as [|x xs] eqn:E; [done|]. cbn in El.
  eapply fin_mono; [by apply (fin_transmit x xs); [| |rewrite E|]|].
  intros [] s1 (Hok1 & Hk1 & Ec1 & Eb1 & El1 & Ei1). split_and!; try done; [rewrite Ec1; lia|].
  exists [x]. split; [by rewrite Ec1, E|done].
Qed.

(** In queued mode a byte goes to the queue; with interrupts off, an older one
    makes room for it. *)
Lemma fin_serial_putc_queue b s : ready s -> dlab (chip (hw s)) = false -> Forall (in_u 8) (contents (txq s)) ->
  mode s = QUEUE -> (intr (kern s) = INTR_ON -> (length (contents (txq s)) < 63)%nat) ->
  fin (serial_putc b) (fun _ s' => ready s' /\ kept s s' /\ ier (chip (hw s')) = wanted s' /\ buffer s' = buffer s /\
    incoming (chip (hw s')) = incoming (chip (hw s)) /\
    exists t, contents (txq s) ++ [b] = t ++ contents (txq s') /\ line (chip (hw s')) = line (chip (hw s)) ++ t) s.
Proof.
  intros Hr Hd Hf Em Hroom. apply fin_disable. set (s0 := set_kern (calm (kern s)) s).
  apply fin_prim_k. red. cbn [gets]. cbn [dbind]. change (mode s0) with (mode s). rewrite Em. cbn [bool_decide].
  rewrite (bool_decide_eq_true_2 (QUEUE = QUEUE)) by done. cbn [negb].
  assert (Hok0 : dev_ok s0) by apply Hr.
  apply fin_bind.
  match goal with |- fin (dbind ?m ?f) ?Q s0 => change (fin (dbind (dbind m (fun full : bool =>
    if full then b ⇐ intq_getc Txq; putc_poll b else DRet tt)) (fun _ => intq_putc Txq b ⨾ dprim write_ier)) Q s0) end.
  apply fin_bind. eapply fin_mono; [apply fin_make_room; [done|exact Hd|exact Hf|exact Hroom]|].
  intros [] s1 (Hok1 & Hk1 & Hn1 & Eb1 & Ei1 & t & Ht1 & Ht2).
  apply fin_bind. eapply fin_mono; [by apply (fin_intq_putc Txq b)|]. intros [] s2 Hm.
  pose proof (moved_kept _ _ _ _ _ Hm) as Hk2. pose proof (moved_hw _ _ _ _ _ Hm) as Eh.
  pose proof (moved_buffer _ _ _ _ Hm) as Eb2. pose proof (mv_contents _ _ _ _ _ Hm) as Ec2. cbn [get_q] in Ec2.
  pose proof (mv_ok _ _ _ _ _ Hm) as Hok2.
  apply fin_prim. eapply wp_mono; [apply wp_write_ier; [done|rewrite Eh, (kp_dlab _ _ Hk1); exact Hd]|].
  intros [] s3 (h & -> & Hkh & Hc).
  assert (Hk3 : kept s0 (set_hw h s2)).
  { etrans; [exact Hk1|]. etrans; [exact Hk2|]. apply kept_hw; [done|by rewrite Hc]. }
  apply fin_restore; [apply Hr|exact Hk3|]. intros Hkept. cbn [hw set_hw set_kern kern txq buffer]. split_and!; try done.
  - apply (ready_back (set_hw h s2)); [done|]. rewrite (kp_context _ _ Hk3). apply Hr.
  - by rewrite Hc.
  - by rewrite Eb2.
  - rewrite Hc. cbn. by rewrite Eh.
  - exists t. rewrite Ec2, app_assoc, <- Ht1. split; [done|]. rewrite Hc. cbn. rewrite Eh. exact Ht2.
Qed.

(** Before the queue is in use. *)
Lemma fin_serial_putc_poll b s : (intr (kern s) = INTR_ON -> in_external_intr (kern s) = false) ->
  mode s = POLL -> dlab (chip (hw s)) = false -> in_u 8 b ->
  fin (serial_putc b) (fun _ s' => kept s s' /\ kern s' = kern s /\ txq s' = txq s /\ buffer s' = buffer s /\
    incoming (chip (hw s')) = incoming (chip (hw s)) /\ line (chip (hw s')) = line (chip (hw s)) ++ [b]) s.
Proof.
  intros Hx Em Hd Hb. apply fin_disable. apply fin_prim_k. red. cbn [gets dbind]. cbn [mode set_kern]. rewrite Em.
  change (negb (bool_decide (POLL = QUEUE))) with true. change (bool_decide (POLL = UNINIT)) with false. cbn iota.
  apply fin_bind, fin_prim_k, wp_ret. cbn [dbind].
  eapply fin_mono; [by apply fin_putc_poll|]. intros [] s1 (h & d & -> & Hk & Hc). cbn [hw set_kern] in *.
  apply fin_restore; [done|apply kept_hw; [done|by rewrite Hc]|]. intros Hkept.
  cbn [hw set_hw set_kern kern txq buffer]. rewrite Hc. split_and!; try done. by destruct (kern s).
Qed.

Lemma wp_lock_init l k : 0 < l -> head (l + 8) ∈ dom (lmem k) -> tail (l + 8) ∈ dom (lmem k) ->
  wp (lock_init l) (fun _ k' => intr k' = intr k /\ in_external_intr k' = in_external_intr k) k.
Proof.
  intros Hl Hh Ht. unfold lock_init. apply wp_bind, wp_assertb.
  { unfold NULL. apply negb_true_iff, Z.eqb_neq. lia. }
  apply wp_bind. red. cbn [modify]. unfold sema_init. apply wp_bind, wp_assertb.
  { unfold NULL, lock_semaphore. apply negb_true_iff, Z.eqb_neq. lia. }
  apply wp_bind. red. cbn [modify]. apply wp_zoom. cbn [lmem set_semas set_locks].
  unfold waiters, lock_semaphore. replace (l + 4 + 4) with (l + 8) by lia.
  apply wp_list_init; try done; unfold head, tail, NULL; lia.
Qed.

(** The port as init_poll() leaves it: 115200 bits per second, no interrupts. *)
Definition configured (u : uart) : uart :=
  mk_uart (line u) (incoming u) (thre u) (dr u) false 1 0 0 8.

Lemma wp_init_poll s : mode s = UNINIT -> dlab (chip (hw s)) = false ->
  0 < q_lock (txq s) -> head (q_lock (txq s) + 8) ∈ dom (lmem (kern s)) ->
  tail (q_lock (txq s) + 8) ∈ dom (lmem (kern s)) ->
  wp init_poll (fun _ s' => exists k h q, s' = set_mode POLL (set_txq q (set_kern k (set_hw h s))) /\
    intr k = intr (kern s) /\ in_external_intr k = in_external_intr (kern s) /\
    others_kept (hw s) h /\ chip h = configured (chip (hw s)) /\ contents q = []) s.
Proof.
  intros Em Hd Hl Hh Ht. unfold init_poll. apply wp_bind. red. cbn [gets]. rewrite Em.
  apply wp_bind, wp_assertb; [done|]. apply wp_bind, wp_outb. apply wp_bind, wp_outb.
  apply wp_bind. unfold set_serial. apply wp_bind, wp_assertb; [done|].
  do 3 (apply wp_bind, wp_outb). apply wp_outb. apply wp_bind, wp_outb. cbn [hw set_hw].
  match goal with |- wp _ _ (set_hw ?x _) => set (h := x) end.
  assert (Hk : others_kept (hw s) h).
  { subst h. repeat (etrans; [|apply outb_kept; [vm_compute; split; congruence|vm_compute; split; congruence]]). done. }
  assert (Hc : chip h = configured (chip (hw s))).
  { subst h. rewrite !outb_chip. destruct (chip (hw s)). cbn in Hd. subst. reflexivity. }
  apply wp_bind. unfold intq_init. apply wp_bind. red. cbn [gets get_q]. apply wp_bind, wp_on_kernel.
  eapply wp_mono; [by apply wp_lock_init|]. intros [] k [Hi Hx].
  apply wp_bind. red. cbn [upd_q modify]. red. cbn [upd_q modify].
  exists k, h. eexists. by split_and!.
Qed.

Lemma fin_serial_putc_first b s : (intr (kern s) = INTR_ON -> in_external_intr (kern s) = false) ->
  mode s = UNINIT -> dlab (chip (hw s)) = false -> in_u 8 b ->
  0 < q_lock (txq s) -> head (q_lock (txq s) + 8) ∈ dom (lmem (kern s)) ->
  tail (q_lock (txq s) + 8) ∈ dom (lmem (kern s)) ->
  fin (serial_putc b) (fun _ s' => mode s' = POLL /\ contents (txq s') = [] /\
    intr (kern s') = intr (kern s) /\
    exists t d, chip (hw s') = with_status_bits t d (with_line (line (chip (hw s)) ++ [b]) (configured (chip (hw s))))) s.
Proof.
  intros Hx Em Hd Hb Hl Hh Ht. apply fin_disable. set (s0 := set_kern (calm (kern s)) s).
  apply fin_prim_k. red. cbn [gets dbind]. change (mode s0) with (mode s). rewrite Em.
  change (negb (bool_decide (UNINIT = QUEUE))) with true. change (bool_decide (UNINIT = UNINIT)) with true. cbn iota.
  apply fin_bind, fin_prim_k. eapply wp_mono; [by apply (wp_init_poll s0)|].
  intros [] s1 (k & h & q & -> & Hi & Hxk & Hkh & Hc & Hq). cbn [dbind].
  eapply fin_mono; [apply fin_putc_poll; [done|cbn; by rewrite Hc|done]|].
  intros [] s2 (h2 & d & -> & _ & Hc2). apply fin_prim, wp_bind, wp_on_kernel, wp_intr_set_level.
  { cbn. rewrite Hxk. exact Hx. }
  apply wp_ret. split_and!; try done. exists false, d. cbn [hw set_kern set_hw] in *. rewrite Hc2. cbn. by rewrite Hc.
Qed.
(** What has been given to the serial port and what has come from it. *)
Definition out_stream s : list Z := line (chip (hw s)) ++ contents (txq s).
Definition in_stream s : list Z := contents (buffer s) ++ incoming (chip (hw s)).

End Ops.
