(* ===== verification/Kbd.v ===== *)
(** * devices/kbd.c: the keyboard

    The driver, and then from key strokes to characters. *)

From Stdlib Require Import ZArith Lia.
From stdpp Require Import base numbers gmap list strings.
From S2P Require Import Prelude DList Kernel Thread Synch Boot KSched Bytes StrLib CStdlib Gdt Idt DevBase PcHardware Serial SerialOps.

Open Scope Z_scope.

(** * The code *)

Definition DATA_REG : Z := 0x60.

(** [struct keymap]: the first scancode, and the characters from there. *)
Definition keymap : Set := Z * list Z.

Definition ascii_codes (s : string) : list Z := map (fun a => Z.of_N (Ascii.N_of_ascii a)) (String.list_ascii_of_string s).

Definition invariant_keymap : list keymap := [
  (0x01, [27]);
  (0x0e, [8]);
  (0x0f, 9 :: ascii_codes "QWERTYUIOP");
  (0x1c, [13]);
  (0x1e, ascii_codes "ASDFGHJKL");
  (0x2c, ascii_codes "ZXCVBNM");
  (0x37, ascii_codes "*");
  (0x39, ascii_codes " ")].

Definition unshifted_keymap : list keymap := [
  (0x02, ascii_codes "1234567890-=");
  (0x1a, ascii_codes "[]");
  (0x27, ascii_codes ";'`");
  (0x2b, [92]);
  (0x33, ascii_codes ",./")].

(** Of the characters of these tables, the double quote is 34 and the
    backslash 92. *)
Definition shifted_keymap : list keymap := [
  (0x02, ascii_codes "!@#$%^&*()_+");
  (0x1a, ascii_codes "{}");
  (0x27, ascii_codes ":" ++ [34] ++ ascii_codes "~");
  (0x2b, ascii_codes "|");
  (0x33, ascii_codes "<>?")].

Fixpoint map_key (k : list keymap) (scancode : Z) : option Z :=
  match k with
  | [] => None
  | (first_scancode, chars) :: k =>
      if (first_scancode <=? scancode) && (scancode <? first_scancode + Z.of_nat (length chars))
      then chars !! Z.to_nat (scancode - first_scancode)
      else map_key k scancode
  end.

(** The variables that [shift_keys] points to. *)
Inductive shift_var := LeftShift | RightShift | LeftAlt | RightAlt | LeftCtrl | RightCtrl.

Definition shift_keys : list (Z * shift_var) :=
  [(0x2a, LeftShift); (0x36, RightShift); (0x38, LeftAlt); (0xe038, RightAlt); (0x1d, LeftCtrl); (0xe01d, RightCtrl)].

Definition set_shift (v : shift_var) (b : bool) (k : kbd) : kbd :=
  match v with
  | LeftShift => mk_kbd b (right_shift k) (left_alt k) (right_alt k) (left_ctrl k) (right_ctrl k) (caps_lock k) (key_cnt k)
  | RightShift => mk_kbd (left_shift k) b (left_alt k) (right_alt k) (left_ctrl k) (right_ctrl k) (caps_lock k) (key_cnt k)
  | LeftAlt => mk_kbd (left_shift k) (right_shift k) b (right_alt k) (left_ctrl k) (right_ctrl k) (caps_lock k) (key_cnt k)
  | RightAlt => mk_kbd (left_shift k) (right_shift k) (left_alt k) b (left_ctrl k) (right_ctrl k) (caps_lock k) (key_cnt k)
  | LeftCtrl => mk_kbd (left_shift k) (right_shift k) (left_alt k) (right_alt k) b (right_ctrl k) (caps_lock k) (key_cnt k)
  | RightCtrl => mk_kbd (left_shift k) (right_shift k) (left_alt k) (right_alt k) (left_ctrl k) b (caps_lock k) (key_cnt k)
  end.
Definition set_caps_lock (b : bool) (k : kbd) : kbd :=
  mk_kbd (left_shift k) (right_shift k) (left_alt k) (right_alt k) (left_ctrl k) (right_ctrl k) b (key_cnt k).
Definition set_key_cnt (n : Z) (k : kbd) : kbd :=
  mk_kbd (left_shift k) (right_shift k) (left_alt k) (right_alt k) (left_ctrl k) (right_ctrl k) (caps_lock k) n.

(** The scan of [shift_keys]. *)
Fixpoint find_shift (l : list (Z * shift_var)) (code : Z) : option shift_var :=
  match l with
  | [] => None
  | (scancode, state_var) :: l => if scancode =? code then Some state_var else find_shift l code
  end.

Section Code.
Context {image : Image} {stubs : Stubs} {H : Type} {ports : Ports H}.

Definition upd_keys (f : kbd -> kbd) : M (dev H) unit := modify (fun s => set_keys (f (keys s)) s).

Definition kbd_init : M (dev H) unit := on_itable (intr_register_ext 0x21 Keyboard "8042 Keyboard"%string).

(** The scancode, with the second byte if there is a prefix. *)
Definition read_scancode : M (dev H) Z :=
  code ← inb DATA_REG;
  if code =? 0xe0 then b ← inb DATA_REG; ret (Z.lor (Z.shiftl code 8) b) else ret code.

(** The character of a key, with Ctrl, Shift, Caps Lock and Alt applied. *)
Definition modified (shift alt ctrl caps : bool) (c : Z) : Z :=
  let c := if ctrl && (0x40 <=? c) && (c <? 0x60) then u8 (c - 0x40)
           else if eqb shift caps then u8 (tolower c) else c in
  if alt then u8 (c + 0x80) else c.

Definition keyboard_interrupt : dcode H unit :=
  k ⇐ dprim (gets keys);
  let shift := left_shift k || right_shift k in
  let alt := left_alt k || right_alt k in
  let ctrl := left_ctrl k || right_ctrl k in
  code ⇐ dprim read_scancode;
  let release := negb (Z.land code 0x80 =? 0) in
  let code := Z.land code (u32 (Z.lnot 0x80)) in
  if code =? 0x3a then
    dprim (if negb release then upd_keys (fun k => set_caps_lock (negb (caps_lock k)) k) else ret tt)
  else
    let c := match map_key invariant_keymap code with
             | Some c => Some c
             | None => if negb shift then map_key unshifted_keymap code else map_key shifted_keymap code
             end in
    match c with
    | Some c =>
        if negb release then
          let c := modified shift alt ctrl (caps_lock k) c in
          full ⇐ dprim input_full;
          if negb full then
            dprim (upd_keys (fun k => set_key_cnt (i64 (key_cnt k + 1)) k)) ⨾
            input_putc c
          else DRet tt
        else DRet tt
    | None =>
        dprim (match find_shift shift_keys code with
               | Some state_var => upd_keys (set_shift state_var (negb release))
               | None => ret tt
               end)
    end.
End Code.

(** * The keyboard: from keys to characters

    The layout of a US keyboard, the scancodes that are sent when somebody
    types a text on it, and the proof that the handler puts that text into the
    input buffer. *)

(** ** The layout *)

(** Scancode, character without Shift, character with Shift. *)
Definition row (first : Z) (plain shifted : list Z) : list (Z * Z * Z) :=
  imap (fun i p => (first + Z.of_nat i, p.1, p.2)) (zip plain shifted).

Definition us_layout : list (Z * Z * Z) :=
  row 0x01 [27] [27] ++
  row 0x02 (ascii_codes "1234567890-=") (ascii_codes "!@#$%^&*()_+") ++
  row 0x0e [8; 9] [8; 9] ++
  row 0x10 (ascii_codes "qwertyuiop[]") (ascii_codes "QWERTYUIOP{}") ++
  row 0x1c [13] [13] ++
  row 0x1e (ascii_codes "asdfghjkl;'`") (ascii_codes "ASDFGHJKL:" ++ [34] ++ ascii_codes "~") ++
  row 0x2b [92] (ascii_codes "|") ++
  row 0x2c (ascii_codes "zxcvbnm,./") (ascii_codes "ZXCVBNM<>?") ++
  row 0x37 (ascii_codes "*") (ascii_codes "*") ++
  row 0x39 (ascii_codes " ") (ascii_codes " ").

(** A character to be typed, with Alt or with Ctrl held down. *)
Record key : Set := mk_key { alt : bool; ctrl : bool; char : Z }.

(** The byte that stands for it: Ctrl makes control characters of the codes
    from 0x40 to 0x5f, Alt sets the top bit. *)
Definition byte_of (k : key) : Z :=
  (if ctrl k then char k - 0x40 else char k) + (if alt k then 128 else 0).

(** Which key to press, and whether with Shift, while Caps Lock is [caps].
    Ctrl with a letter needs no Shift. *)
Definition find_key (c : Z) : option (Z * bool) :=
  match filter (fun e : Z * Z * Z => e.1.2 = c) us_layout with
  | e :: _ => Some (e.1.1, false)
  | [] => match filter (fun e : Z * Z * Z => e.2 = c) us_layout with
          | e :: _ => Some (e.1.1, true)
          | [] => None
          end
  end.

Definition press_of (caps : bool) (k : key) : option (Z * bool) :=
  match find_key (char k) with
  | Some (code, shifted) =>
      if ctrl k then
        if (0x40 <=? char k) && (char k <? 0x60) then Some (code, if isalpha (char k) then false else shifted) else None
      else Some (code, if isalpha (char k) then xorb shifted caps else shifted)
  | None => None
  end.

(** Pressing and releasing a key around others. *)
Definition holding (b : bool) (code : Z) (inner : list Z) : list Z :=
  if b then [code] ++ inner ++ [code + 0x80] else inner.

Definition strokes (caps : bool) (k : key) : option (list Z) :=
  match press_of caps k with
  | Some (code, shift) =>
      Some (holding (alt k) 0x38 (holding (ctrl k) 0x1d (holding shift 0x2a [code; code + 0x80])))
  | None => None
  end.

Fixpoint typed (caps : bool) (ks : list key) : option (list Z) :=
  match ks with
  | [] => Some []
  | k :: ks => match strokes caps k, typed caps ks with
               | Some l, Some l' => Some (l ++ l')
               | _, _ => None
               end
  end.

(** ** One scancode *)

(** What a scancode without prefix does to the modifier keys, and the
    character it stands for. *)
Definition key_step (k : kbd) (code : Z) : kbd * option Z :=
  let shift := left_shift k || right_shift k in
  let release := negb (Z.land code 0x80 =? 0) in
  let code := Z.land code (u32 (Z.lnot 0x80)) in
  if code =? 0x3a then (if negb release then set_caps_lock (negb (caps_lock k)) k else k, None)
  else
    match (match map_key invariant_keymap code with
           | Some c => Some c
           | None => if negb shift then map_key unshifted_keymap code else map_key shifted_keymap code
           end) with
    | Some c => (k, if negb release then Some (modified shift (left_alt k || right_alt k)
                      (left_ctrl k || right_ctrl k) (caps_lock k) c) else None)
    | None => (match find_shift shift_keys code with Some v => set_shift v (negb release) k | None => k end, None)
    end.

Fixpoint key_steps (k : kbd) (codes : list Z) : kbd * list Z :=
  match codes with
  | [] => (k, [])
  | c :: cs => let '(k', o) := key_step k c in
               let '(k2, l) := key_steps k' cs in (k2, option_list o ++ l)
  end.

(** ** Typing a key, computed *)

(** No modifier key is held down. *)
Definition released (caps : bool) (n : Z) : kbd := mk_kbd false false false false false false caps n.

#[global] Instance kbd_eq_dec : EqDecision kbd.
Proof. solve_decision. Defined.

Definition stroke_ok (caps : bool) (k : key) : bool :=
  match strokes caps k with
  | Some l => bool_decide (key_steps (released caps 0) l = (released caps 0, [byte_of k])) &&
              bool_decide (Forall (fun c => 0 <= c < 256 /\ c <> 0xe0) l)
  | None => true
  end.

Lemma strokes_checked : forallb (fun a => forallb (fun ct => forallb (fun caps =>
  forallb (fun c => stroke_ok caps (mk_key a ct (Z.of_nat c))) (seq 0 128)) [false; true]) [false; true]) [false; true] = true.
Proof. vm_compute. reflexivity. Qed.

Lemma layout_ascii : Forall (fun e : Z * Z * Z => 0 <= e.1.2 < 128 /\ 0 <= e.2 < 128) us_layout.
Proof. decide_closed. Qed.

Lemma find_key_ascii c p : find_key c = Some p -> 0 <= c < 128.
Proof.
  unfold find_key. pose proof layout_ascii as Hl. rewrite Forall_forall in Hl.
  destruct (filter _ us_layout) as [|e l] eqn:E.
  - clear E. destruct (filter _ us_layout) as [|e l] eqn:E; [done|]. intros _.
    assert (Hin : e ∈ filter (fun e : Z * Z * Z => e.2 = c) us_layout) by (rewrite E; by left).
    apply list_elem_of_filter in Hin as [<- Hin]. by apply Hl.
  - intros _. assert (Hin : e ∈ filter (fun e : Z * Z * Z => e.1.2 = c) us_layout) by (rewrite E; by left).
    apply list_elem_of_filter in Hin as [<- Hin]. by apply Hl.
Qed.

Lemma strokes_ok caps k l : strokes caps k = Some l ->
  key_steps (released caps 0) l = (released caps 0, [byte_of k]) /\ Forall (fun c => 0 <= c < 256 /\ c <> 0xe0) l.
Proof.
  intros E. assert (Hc : 0 <= char k < 128).
  { unfold strokes, press_of in E. destruct (find_key (char k)) as [p|] eqn:Ef; [|done]. by eapply find_key_ascii. }
  pose proof strokes_checked as Hall. rewrite forallb_forall in Hall.
  assert (Hin : forall b : bool, In b [false; true]) by (intros []; cbn; auto).
  specialize (Hall (alt k) (Hin _)). rewrite forallb_forall in Hall.
  specialize (Hall (ctrl k) (Hin _)). rewrite forallb_forall in Hall.
  specialize (Hall caps (Hin _)). rewrite forallb_forall in Hall.
  specialize (Hall (Z.to_nat (char k))). rewrite in_seq in Hall. specialize (Hall ltac:(lia)).
  rewrite Z2Nat.id in Hall by lia. unfold stroke_ok in Hall.
  replace (mk_key (alt k) (ctrl k) (char k)) with k in Hall by by destruct k.
  rewrite E in Hall. apply andb_prop in Hall as [H1 H2].
  split; [exact (bool_decide_eq_true_1 _ H1)|exact (bool_decide_eq_true_1 _ H2)].
Qed.

(** The count of keys plays no part. *)
Lemma key_step_cnt k n c : key_step (set_key_cnt n k) c = (set_key_cnt n (key_step k c).1, (key_step k c).2).
Proof.
  unfold key_step. cbn [left_shift right_shift left_alt right_alt left_ctrl right_ctrl caps_lock set_key_cnt].
  destruct (Z.land c (u32 (Z.lnot 0x80)) =? 0x3a); [by destruct (negb _)|].
  destruct (match map_key invariant_keymap _ with Some _ => _ | None => _ end); [done|].
  destruct (find_shift _ _) as [v|]; [by destruct v|done].
Qed.

Lemma key_steps_cnt cs : forall k n, key_steps (set_key_cnt n k) cs = (set_key_cnt n (key_steps k cs).1, (key_steps k cs).2).
Proof.
  induction cs as [|c cs IH]; intros k n; cbn [key_steps]; [done|]. rewrite key_step_cnt.
  destruct (key_step k c) as [k' o]. cbn [fst snd]. rewrite IH. by destruct (key_steps k' cs).
Qed.

Lemma key_steps_app l1 l2 : forall k, key_steps k (l1 ++ l2) =
  ((key_steps (key_steps k l1).1 l2).1, (key_steps k l1).2 ++ (key_steps (key_steps k l1).1 l2).2).
Proof.
  induction l1 as [|c l1 IH]; intros k; cbn [key_steps app fst snd]; [by destruct (key_steps k l2)|].
  destruct (key_step k c) as [k' o]. rewrite IH. destruct (key_steps k' l1) as [k1 o1]. cbn [fst snd].
  by rewrite app_assoc.
Qed.

(** A text, key by key. *)
Lemma typed_ok caps ks : forall l, typed caps ks = Some l ->
  key_steps (released caps 0) l = (released caps 0, map byte_of ks) /\ Forall (fun c => 0 <= c < 256 /\ c <> 0xe0) l.
Proof.
  induction ks as [|k ks IH]; intros l; cbn [typed map]; [by intros [= <-]|].
  destruct (strokes caps k) as [l1|] eqn:E1; [|done]. destruct (typed caps ks) as [l2|]; [|done]. intros [= <-].
  destruct (strokes_ok caps k l1 E1) as [S1 F1]. destruct (IH l2 eq_refl) as [S2 F2].
  rewrite key_steps_app, S1. cbn [fst snd]. rewrite S2. split; [done|by apply Forall_app].
Qed.

Lemma printable_checked : forallb (fun caps => forallb (fun c =>
  match strokes caps (mk_key false false (Z.of_nat c)) with Some _ => true | None => false end) (seq 32 95)) [false; true] = true.
Proof. vm_compute. reflexivity. Qed.

Lemma printable_typed caps c : 32 <= c < 127 -> is_Some (typed caps [mk_key false false c]).
Proof.
  intros Hc. pose proof printable_checked as Hall. rewrite forallb_forall in Hall.
  specialize (Hall caps). rewrite forallb_forall in Hall. specialize (Hall ltac:(destruct caps; cbn; auto) (Z.to_nat c)).
  rewrite in_seq, Z2Nat.id in Hall by lia. specialize (Hall ltac:(lia)). cbn [typed].
  destruct (strokes _ _); [eauto|done].
Qed.

(** ** The handler *)

Section Handler.
Context {image : Image} {stubs : Stubs} {H : Type} {ports : Ports H} {pc : PC H}.
Implicit Types s : dev H.

(** The handler runs, once for each of [n] interrupts. *)
Fixpoint times (n : nat) (c : dcode H unit) : dcode H unit :=
  match n with O => DRet tt | S n => c ⨾ times n c end.

(** The display and the console, and the serial port's data. *)
Definition elsewhere s s' : Prop :=
  vmem s' = vmem s /\ display s' = display s /\ console s' = console s /\ mode s' = mode s /\ itab s' = itab s /\
  contents (txq s') = contents (txq s) /\ line (chip (hw s')) = line (chip (hw s)) /\
  incoming (chip (hw s')) = incoming (chip (hw s)) /\ only_wakes (kern s) (kern s').
#[global] Instance elsewhere_po : PreOrder elsewhere.
Proof.
  split; [intros s; by split_and!|]. intros x y z (A1 & A2 & A3 & A4 & A5 & A6 & A7 & A8 & A9) (B1 & B2 & B3 & B4 & B5 & B6 & B7 & B8 & B9).
  split_and!; try congruence. unfold only_wakes in *. by etrans.
Qed.

Definition kbd_ok s : Prop := dev_ok s /\ dlab (chip (hw s)) = false.

(** After a scancode: a character that finds no room is dropped. *)
Definition after_code s (k : kbd) (o : option Z) s' : Prop :=
  kbd_ok s' /\ elsewhere s s' /\
  if bool_decide (length (contents (buffer s)) = 63%nat)
  then keys s' = k /\ contents (buffer s') = contents (buffer s)
  else keys s' = match o with Some _ => set_key_cnt (i64 (key_cnt k + 1)) k | None => k end /\
       contents (buffer s') = contents (buffer s) ++ option_list o.

Lemma after_none s s1 k : kbd_ok s1 -> elsewhere s s1 -> buffer s1 = buffer s -> after_code s k None (set_keys k s1).
Proof.
  intros Hok He Eb. split; [exact Hok|]. split; [exact He|]. cbn. rewrite Eb, app_nil_r. by destruct (bool_decide _).
Qed.

Lemma after_same s h : kbd_ok (set_hw h s) -> elsewhere s (set_hw h s) -> after_code s (keys s) None (set_hw h s).
Proof. intros Hok He. replace (set_hw h s) with (set_keys (keys s) (set_hw h s)) by by destruct s. by apply after_none. Qed.

Lemma wp_upd_keys s f (Q : unit -> dev H -> Prop) : Q tt (set_keys (f (keys s)) s) -> wp (upd_keys f) Q s.
Proof. done. Qed.

Lemma wp_read_scancode s c cs (Q : Z -> dev H -> Prop) : scan (hw s) = c :: cs -> c <> 0xe0 ->
  (forall h, scan h = cs -> crt h = crt (hw s) -> chip h = chip (hw s) -> Q c (set_hw h s)) -> wp read_scancode Q s.
Proof.
  intros Es Hc HQ. apply wp_bind, wp_inb. change DATA_REG with 0x60. destruct (inb_key (hw s) c cs Es) as [-> Es'].
  rewrite (proj2 (Z.eqb_neq c 0xe0) Hc). apply wp_ret. apply HQ; [done|apply inb_crt|].
  exact (inb_chip 0x60 (hw s)).
Qed.

Lemma fin_keyboard s c cs : kbd_ok s -> scan (hw s) = c :: cs -> c <> 0xe0 ->
  fin keyboard_interrupt (fun _ s' => scan (hw s') = cs /\
    after_code s (key_step (keys s) c).1 (key_step (keys s) c).2 s') s.
Proof.
  intros Hok Es Hc. apply fin_prim_k. red. cbn [gets]. cbn [dbind].
  apply fin_prim_k. eapply wp_read_scancode; [done..|]. intros h Eh Ehc Ech. cbn [dbind].
  assert (Hok1 : kbd_ok (set_hw h s)) by (split; [apply Hok|cbn; rewrite Ech; apply Hok]).
  assert (He1 : elsewhere s (set_hw h s)) by (split_and!; try done; cbn; by rewrite Ech).
  unfold key_step. set (code := Z.land c (u32 (Z.lnot 0x80))).
  destruct (code =? 0x3a).
  { apply fin_prim. destruct (negb (negb (Z.land c 0x80 =? 0))); cbn [fst snd].
    - apply wp_upd_keys. split; [done|]. by apply after_none.
    - apply wp_ret. split; [done|]. by apply after_same. }
  destruct (match map_key invariant_keymap code with Some _ => _ | None => _ end) as [ch|]; cbn [fst snd].
  2:{ apply fin_prim. destruct (find_shift shift_keys code) as [v|].
      - apply wp_upd_keys. split; [done|]. by apply after_none.
      - apply wp_ret. split; [done|]. by apply after_same. }
  destruct (negb (negb (Z.land c 0x80 =? 0))); cbn [fst snd].
  2:{ apply fin_ret. split; [done|]. by apply after_same. }
  set (m := modified _ _ _ _ _). apply fin_prim_k, wp_input_full; [apply Hok1|]. cbn [dbind buffer set_hw].
  unfold after_code. destruct (bool_decide_reflect (length (contents (buffer s)) = 63%nat)) as [Hf|Hf]; cbn [negb].
  { apply fin_ret. by split_and!. }
  apply fin_prim_k, wp_upd_keys. cbn [dbind]. pose proof (contents_length (buffer s)).
  eapply fin_mono; [apply fin_input_putc; [apply Hok1|apply Hok1|cbn; lia]|].
  cbn [hw set_hw set_keys buffer txq keys mode]. intros [] s' (Hok2 & Hk & Eb & Et & El & Ei & _).
  destruct (kp_hw _ _ Hk) as [Ec2 Es2]. cbn in Ec2, Es2. split; [by rewrite Es2|].
  split; [split; [done|rewrite (kp_dlab _ _ Hk); apply Hok1]|]. split; [|by rewrite (kp_keys _ _ Hk)].
  etrans; [exact He1|]. destruct Hk. by split_and!.
Qed.

Lemma key_step_keeps k c : key_cnt (key_step k c).1 = key_cnt k.
Proof.
  unfold key_step. destruct (_ =? 0x3a); [by destruct (negb _)|].
  destruct (match map_key invariant_keymap _ with Some _ => _ | None => _ end); [done|].
  destruct (find_shift _ _) as [v|]; [by destruct v|done].
Qed.

Lemma set_key_cnt_cnt n m k : set_key_cnt n (set_key_cnt m k) = set_key_cnt n k.
Proof. done. Qed.

(** A sequence of scancodes whose characters all find room. *)
Lemma fin_keyboard_times l : forall s rest, kbd_ok s -> scan (hw s) = l ++ rest -> in_s 64 (key_cnt (keys s)) ->
  Forall (fun c => 0 <= c < 256 /\ c <> 0xe0) l ->
  (length (contents (buffer s)) + length (key_steps (keys s) l).2 <= 63)%nat ->
  fin (times (length l) keyboard_interrupt) (fun _ s' => kbd_ok s' /\ elsewhere s s' /\ scan (hw s') = rest /\
    contents (buffer s') = contents (buffer s) ++ (key_steps (keys s) l).2 /\
    keys s' = set_key_cnt (i64 (key_cnt (keys s) + Z.of_nat (length (key_steps (keys s) l).2))) (key_steps (keys s) l).1) s.
Proof.
  induction l as [|c l IH]; intros s rest Hok Es Hcnt Hl Hroom; cbn [times length key_steps fst snd].
  { apply fin_ret. rewrite Z.add_0_r, swrap_small, app_nil_r by (done || lia). split_and!; try done. by destruct (keys s). }
  apply Forall_cons in Hl as [[_ Hc] Hl]. apply fin_bind.
  eapply fin_mono; [by eapply fin_keyboard|]. intros [] s1 (Es1 & Hok1 & He1 & Hb).
  cbn [key_steps] in Hroom. pose proof (key_step_keeps (keys s) c) as Hkeep.
  destruct (key_step (keys s) c) as [k' o]. cbn [fst snd] in *.
  destruct (key_steps k' l) as [k2 out] eqn:E2. cbn [fst snd] in *. rewrite length_app in Hroom.
  assert (Ek : keys s1 = set_key_cnt (i64 (key_cnt k' + Z.of_nat (length (option_list o)))) k' /\
    contents (buffer s1) = contents (buffer s) ++ option_list o).
  { destruct (bool_decide_reflect (length (contents (buffer s)) = 63%nat)) as [Hf|Hf]; destruct Hb as [-> ->].
    - assert (option_list o = []) as -> by (destruct (option_list o); [done|cbn in Hroom; lia]).
      cbn. rewrite Hkeep, Z.add_0_r, swrap_small, app_nil_r, <- Hkeep by (done || lia). by destruct k'.
    - destruct o; cbn; [done|]. rewrite Hkeep, Z.add_0_r, swrap_small, <- Hkeep by (done || lia). by destruct k'. }
  destruct Ek as [Ek Eb].
  eapply fin_mono; [apply (IH s1 rest)|]; try done.
  - rewrite Ek. cbn. apply swrap_range. lia.
  - rewrite Ek, key_steps_cnt, E2, Eb, length_app. cbn. lia.
  - intros [] s2 (Hok2 & He2 & Es2 & Eb2 & Ek2). rewrite Ek, key_steps_cnt, E2 in Eb2, Ek2. cbn [fst snd key_cnt set_key_cnt] in *.
    split_and!; try done; [by etrans|by rewrite Eb2, Eb, app_assoc|].
    rewrite Ek2, set_key_cnt_cnt, i64_succ, Hkeep, length_app. f_equal. f_equal. lia.
Qed.
End Handler.
