(* ===== verification/DevMachine.v ===== *)
(** * Input, the serial port, and the machine with devices

    Theorems on the console's input and the serial port, and then runs of
    threads with interrupts of the devices between them. *)

From Stdlib Require Import ZArith Lia.
From stdpp Require Import base numbers gmap list strings relations.
From S2P Require Import Prelude DList Bitmap Palloc Kernel Thread Synch Boot KInv KSched KMain KProps Bytes StrLib CStdlib Gdt Idt DevBase PcHardware Serial SerialOps Kbd.

Open Scope Z_scope.

(** * Properties of the console's input and of the serial port *)

Section Props.
Context {image : Image} {stubs : Stubs} {H : Type} {ports : Ports H} {pc : PC H}.
Implicit Types s : dev H.

(** C25: An interrupt queue is a first-in first-out queue of at most 63 bytes,
    also where its indices wrap around.  With room, intq_putc() appends the byte
    and makes the thread that waited for the queue not to be empty ready; with a
    byte there, intq_getc() takes the oldest and makes the thread that waited
    for room ready.  Nothing else changes, and the other queue does not. *)
Theorem intq_fifo n s : dev_ok s ->
  (length (contents (get_q n s)) <= 63)%nat /\
  (forall b, (length (contents (get_q n s)) < 63)%nat ->
     fin (intq_putc n b) (fun _ s' => moved n NotEmpty (contents (get_q n s) ++ [b]) s s') s) /\
  (forall b bs, contents (get_q n s) = b :: bs ->
     fin (intq_getc n) (fun r s' => r = b /\ moved n NotFull bs s s') s).
Proof.
  intros Hok. split; [apply contents_length|]. split.
  - intros b. by apply fin_intq_putc.
  - intros b bs. by apply fin_intq_getc.
Qed.

(** C16: The serial port loses, repeats and reorders nothing.  In queued mode
    serial_putc(), which need not sleep if there is room or if interrupts are
    off, appends its byte to the bytes transmitted and queued; the interrupt
    handler, which always returns, only moves bytes from the queue to the line
    and from the line to the input buffer.  Both leave exactly those interrupts
    enabled that are needed: the transmitter's while bytes are queued, the
    receiver's while there is room for a byte. *)
Theorem serial_lossless s : ready s -> dlab (chip (hw s)) = false -> Forall (in_u 8) (contents (txq s)) -> mode s = QUEUE ->
  (forall b, (intr (kern s) = INTR_ON -> (length (contents (txq s)) < 63)%nat) ->
     fin (serial_putc b) (fun _ s' => ready s' /\ kept s s' /\ ier (chip (hw s')) = wanted s' /\
       out_stream s' = out_stream s ++ [b] /\ in_stream s' = in_stream s) s) /\
  (intr (kern s) = INTR_OFF ->
     fin serial_interrupt (fun _ s' => dev_ok s' /\ kept s s' /\ ier (chip (hw s')) = wanted s' /\
       out_stream s' = out_stream s /\ in_stream s' = in_stream s /\
       prefix (line (chip (hw s))) (line (chip (hw s')))) s).
Proof.
  intros Hr Hd Hf Hm. unfold out_stream, in_stream. split.
  - intros b Hroom. eapply fin_mono; [by apply fin_serial_putc_queue|].
    intros [] s' (Hr' & Hk & Hi & Eb & Ei & t & Et & El). split_and!; try done.
    + by rewrite El, <- !app_assoc, Et.
    + by rewrite Eb, Ei.
  - intros Hi. assert (Hok : dev_ok s) by (destruct Hr as [_ (_ & ?)]; by split).
    eapply fin_mono; [by apply fin_serial_interrupt|].
    intros [] s' (Hok' & Hk & Hier & (r & Hr1 & Hr2) & t & Ht1 & Ht2). split_and!; try done.
    + by rewrite Ht1, Ht2, <- app_assoc.
    + by rewrite Hr1, Hr2, <- app_assoc.
    + rewrite Ht2. by exists t.
Qed.

(** C37: serial_flush() terminates, however long the transmitter takes for
    each byte, and has then transmitted all that was queued, in order. *)
Theorem serial_flush_terminates s :
  ready s -> dlab (chip (hw s)) = false -> Forall (in_u 8) (contents (txq s)) ->
  exists s', finishes serial_flush s tt s' /\ ready s' /\ kept s s' /\ contents (txq s') = [] /\
    line (chip (hw s')) = line (chip (hw s)) ++ contents (txq s) /\ in_stream s' = in_stream s.
Proof.
  intros Hr Hd Hf. destruct (fin_serial_flush s Hr Hd Hf) as ([] & s' & Hfin & Hr' & Hk & Et & Eb & El & Ei).
  exists s'. split_and!; try done. unfold in_stream. by rewrite Eb, Ei.
Qed.

(** C24: Typing a text on the keyboard puts it into the input buffer.  Whatever
    the state of Caps Lock, if [codes] is what a US keyboard sends when the keys
    of the characters [ks] are pressed and released in turn, with Shift, Ctrl
    and Alt held down as needed, and the buffer has room, then the interrupts
    for [codes] append exactly the bytes of [ks], count the keys, and leave all
    modifier keys released.  Every printable character can be typed. *)
Theorem keyboard_types_text caps ks codes s rest n :
  typed caps ks = Some codes -> kbd_ok s -> keys s = released caps n -> in_s 64 n ->
  scan (hw s) = codes ++ rest -> (length (contents (buffer s)) + length ks <= 63)%nat ->
  fin (times (length codes) keyboard_interrupt) (fun _ s' =>
    contents (buffer s') = contents (buffer s) ++ map byte_of ks /\ scan (hw s') = rest /\
    keys s' = released caps (i64 (n + Z.of_nat (length ks))) /\ kbd_ok s' /\ elsewhere s s') s /\
  forall c, 32 <= c < 127 -> is_Some (typed caps [mk_key false false c]).
Proof.
  intros Ht Hok Ek Hn Es Hroom. split.
  - destruct (typed_ok caps ks codes Ht) as [Hs Hf].
    assert (Hs' : key_steps (keys s) codes = (released caps n, map byte_of ks)).
    { rewrite Ek. change (released caps n) with (set_key_cnt n (released caps 0)). by rewrite key_steps_cnt, Hs. }
    eapply fin_mono; [eapply fin_keyboard_times; try done|].
    + by rewrite Ek.
    + rewrite Hs'. cbn [snd]. by rewrite length_map.
    + intros [] s' (Hok' & He & Es' & Eb & Ek'). rewrite Hs' in *. cbn [fst snd] in *.
      rewrite length_map in Ek'.
      split_and!; try done. rewrite Ek', Ek. done.
  - intros c Hc. apply printable_typed. lia.
Qed.
End Props.

(** ** A desk *)

(** A thread waits for a key. *)
Definition reader : Z := 0xc0023000.
Definition reader_thread : thread := mk_thread 3 THREAD_BLOCKED [114] 0xc0023f00 31 0 THREAD_MAGIC ∅.

Definition desk_kernel (lvl : intr_level) : kstate := mk_kstate
  (list_to_map [(head ready_list, mk_elem NULL (tail ready_list)); (tail ready_list, mk_elem (head ready_list) NULL);
                (elem_of_thread reader, mk_elem NULL NULL)])
  {[ reader := reader_thread ]} ∅ ∅ 0xc000e000 lvl false false 0 0 1 0 0 0 0
  (mk_pools (mk_pool 0 (mk_bitmap 0 [])) (mk_pool 0 (mk_bitmap 0 []))).

(** The queue to the serial port is full, and wraps around. *)
Definition desk (lvl : intr_level) (codes : list Z) : dev sim := mk_dev (desk_kernel lvl)
  (mk_sim (mk_uart [] [97; 98] true false false 1 0 0 8) (mk_crtc 0 0) codes 5) ∅
  (released true 0) (mk_vga 0 0 0 false) (mk_con false 0 0) QUEUE
  (mk_intq 0xc0020100 NULL NULL (map Z.of_nat (seq 32 64)) 9 10)
  (mk_intq 0xc0020140 NULL reader (replicate 64 0) 62 62)
  (mk_itable [] [] [] 0 []).

Lemma desk_parked lvl codes : parked (desk_kernel lvl) (waiting (desk lvl codes)).
Proof.
  split; [decide_closed|]. exists {[ ready_list := [] ]}, []. split; [|split; [apply lookup_singleton_eq|]].
  - split.
    + intros l xs [<- <-]%lookup_singleton_Some. split; decide_closed.
    + intros l1 l2 xs1 xs2 a [<- <-]%lookup_singleton_Some [<- <-]%lookup_singleton_Some. done.
  - intros t Ht. assert (t = reader) as -> by (change (waiting (desk lvl codes)) with [reader] in Ht; by apply list_elem_of_singleton in Ht).
    exists reader_thread. split; [apply lookup_singleton_eq|]. split; [done|]. split; [done|]. split; [done|]. split; [decide_closed|].
    intros l xs [<- <-]%lookup_singleton_Some. decide_closed.
Qed.

Lemma desk_ready lvl codes : ready (desk lvl codes).
Proof. split; [done|]. split; [done|]. split; [by vm_compute|]. split; [by vm_compute|]. apply desk_parked. Qed.

Lemma desk_bytes lvl codes : Forall (in_u 8) (contents (txq (desk lvl codes))).
Proof. change (Forall (in_u 8) (contents (txq (desk INTR_OFF [])))). unfold in_u. decide_closed. Qed.

Lemma intq_fifo_witness : exists s', finishes (intq_putc Buffer 65) (desk INTR_OFF []) tt s' /\
  contents (buffer s') = [65] /\ status <$> threads (kern s') !! reader = Some THREAD_READY.
Proof.
  destruct (intq_fifo Buffer (desk INTR_OFF [])) as (_ & Hput & _).
  - exact (proj2 (desk_ready INTR_OFF [])).
  - destruct (Hput 65) as ([] & s' & Hf & Hm); [vm_compute; lia|]. exists s'. split; [exact Hf|].
    split; [exact (mv_contents _ _ _ _ _ Hm)|].
    destruct (mv_wakes _ _ _ _ _ Hm) as (th & h & E & ->). cbn. by rewrite lookup_insert_eq.
Defined.

Lemma serial_lossless_witness : exists s', finishes (serial_putc 10) (desk INTR_OFF []) tt s' /\
  out_stream s' = map Z.of_nat (seq 42 54 ++ seq 32 9) ++ [10].
Proof.
  destruct (serial_lossless (pc := sim_pc) (desk INTR_OFF []) (desk_ready INTR_OFF []) eq_refl (desk_bytes INTR_OFF []) eq_refl) as [Hput _].
  destruct (Hput 10) as ([] & s' & Hf & _ & _ & _ & Ho & _); [done|]. exists s'. split; [exact Hf|].
  rewrite Ho. vm_compute. reflexivity.
Defined.

Lemma serial_flush_terminates_witness : exists s', finishes serial_flush (desk INTR_ON []) tt s' /\
  line (chip (hw s')) = map Z.of_nat (seq 42 54 ++ seq 32 9).
Proof.
  destruct (serial_flush_terminates (pc := sim_pc) (desk INTR_ON []) (desk_ready INTR_ON []) eq_refl (desk_bytes INTR_ON []))
    as (s' & Hf & _ & _ & _ & El & _).
  exists s'. split; [exact Hf|]. rewrite El. vm_compute. reflexivity.
Defined.

(** "Hi!", Ctrl+C and Alt+x, while Caps Lock is on. *)
Definition hi : list key :=
  [mk_key false false 72; mk_key false false 105; mk_key false false 33; mk_key false true 67; mk_key true false 120].
Definition hi_codes : list Z :=
  [0x23; 0xa3;  0x2a; 0x17; 0x97; 0xaa;  0x2a; 0x02; 0x82; 0xaa;  0x1d; 0x2e; 0xae; 0x9d;  0x38; 0x2a; 0x2d; 0xad; 0xaa; 0xb8].

Lemma keyboard_types_text_witness : exists s', finishes (times 20 keyboard_interrupt) (desk INTR_OFF hi_codes) tt s' /\
  contents (buffer s') = [72; 105; 33; 3; 248] /\ keys s' = released true 5.
Proof.
  destruct (keyboard_types_text true hi hi_codes (desk INTR_OFF hi_codes) [] 0) as [Hty _].
  - vm_compute. reflexivity.
  - split; [exact (proj2 (desk_ready INTR_OFF hi_codes))|done].
  - done.
  - unfold in_s. lia.
  - vm_compute. reflexivity.
  - vm_compute. lia.
  - destruct Hty as ([] & s' & Hf & Eb & _ & Ek & _). exists s'. split; [exact Hf|].
    split; [rewrite Eb; vm_compute; reflexivity|rewrite Ek; vm_compute; reflexivity].
Defined.

(** * The machine with devices

    The machine of the threads package, extended by the devices: threads whose
    code uses them, and the interrupts of the keyboard and of the serial port.
    A run of it shows that two threads that wait for keys can fail. *)

(** The functions that threads run. *)
Class DProgram (H : Type) := { dfunc : Z -> Z -> dcode H unit }.

Section Machine.
Context {image : Image} {H : Type} {ports : Ports H} {program : DProgram H}.

Definition dkernel_thread (function aux : Z) : dcode H unit :=
  dprim (on_kernel (ASSERT (negb (function =? NULL)))) ⨾
  dprim (on_kernel (intr_enable;; ret tt)) ⨾
  (if function =? idle_function then lift (idle aux) else dfunc function aux) ⨾
  lift thread_exit.

(** intr_handler(), with the handlers that are registered. *)
Definition dhandlers (garbage vec_no : Z) : option (dcode H unit) :=
  if vec_no =? 0x20 then Some (dprim (on_kernel (timer_interrupt garbage)))
  else if vec_no =? 0x21 then Some keyboard_interrupt
  else if vec_no =? 0x24 then Some serial_interrupt
  else None.

Definition dintr_handler (handlers : Z -> option (dcode H unit)) (vec_no : Z) : dcode H unit :=
  let external := (0x20 <=? vec_no) && (vec_no <? 0x30) in
  dprim (on_kernel (
    if external then
      level ← intr_get_level;
      ASSERT (bool_decide (level = INTR_OFF));;
      c ← intr_context; ASSERT (negb c);;
      modify (set_in_external_intr true);;
      modify (set_yield_on_return false)
    else ret tt)) ⨾
  match handlers vec_no with
  | Some handler => handler
  | None => if (vec_no =? 0x27) || (vec_no =? 0x2f) then DRet tt
            else dprim (fail AssertFail)
  end ⨾
  if external then
    yield ⇐ dprim (on_kernel (
      level ← intr_get_level;
      ASSERT (bool_decide (level = INTR_OFF));;
      c ← intr_context; ASSERT c;;
      modify (set_in_external_intr false);;
      Boot.pic_end_of_interrupt vec_no;;
      gets yield_on_return));
    if yield : bool then lift thread_yield else DRet tt
  else DRet tt.

Definition dvectors : list Z := [0x20; 0x21; 0x24; 0x27; 0x2f].

(** ** Steps *)

Record dmachine := mk_dmachine {
  ds : dev H;
  drun : dcode H unit;
  dsuspended : gmap Z (Z -> dcode H unit) }.

Definition dresume (s : kstate) (susp : gmap Z (Z -> dcode H unit)) (next : Z) : option (Z -> dcode H unit) :=
  match threads s !! next with
  | None => None
  | Some th =>
    match frames th !! stack th with
    | Some (switch_threads_frame switch_entry) =>
        match frames th !! (stack th + 28), frames th !! (stack th + 32) with
        | Some (switch_entry_frame kernel_thread_entry), Some (kernel_thread_frame _ f aux) =>
            Some (fun prev => dprim (on_kernel (schedule_tail prev)) ⨾ dkernel_thread f aux)
        | _, _ => None
        end
    | Some (switch_threads_frame in_schedule) => susp !! next
    | _ => None
    end
  end.

Inductive dstep : dmachine -> dmachine -> Prop :=
  | dstep_prim (X : Set) (m : M (dev H) X) k s s' x susp :
      m s = Ok (x, s') ->
      dstep (mk_dmachine s (DPrim m k) susp) (mk_dmachine s' (k x) susp)
  | dstep_while test body k s s' b susp :
      test s = Ok (b, s') ->
      dstep (mk_dmachine s (DWhile test body k) susp)
        (mk_dmachine s' (if b then body ⨾ DWhile test body k else k) susp)
  | dstep_switch next k s k1 sp susp k' :
      save_context sp (kern s) = Some k1 ->
      dresume k1 (<[cur (kern s) := k]> susp) next = Some k' ->
      dstep (mk_dmachine s (DSwitch next k) susp)
        (mk_dmachine (set_kern (set_cur next k1) s) (k' (cur (kern s))) (<[cur (kern s) := k]> susp))
  | dstep_interrupt vec garbage s c susp :
      intr (kern s) = INTR_ON -> vec ∈ dvectors ->
      dstep (mk_dmachine s c susp)
        (mk_dmachine (set_kern (set_intr INTR_OFF (kern s)) s)
           (dintr_handler (dhandlers garbage) vec ⨾ dprim (on_kernel (modify (set_intr INTR_ON))) ⨾ c) susp).

(** An assertion of the running code fires. *)
Definition asserts (m : dmachine) : Prop :=
  match drun m with
  | DPrim p _ => p (ds m) = Err AssertFail
  | DWhile test _ _ => test (ds m) = Err AssertFail
  | _ => False
  end.

(** ** Executing it *)

Definition dadvance (sp : Z) (m : dmachine) : option dmachine :=
  let s := ds m in
  match drun m with
  | DRet _ => None
  | DPrim p k =>
      match p s with Ok (x, s') => Some (mk_dmachine s' (k x) (dsuspended m)) | Err _ => None end
  | DWhile test body k =>
      match test s with
      | Ok (b, s') => Some (mk_dmachine s' (if b : bool then body ⨾ DWhile test body k else k) (dsuspended m))
      | Err _ => None
      end
  | DSwitch next k =>
      match save_context sp (kern s) with
      | Some k1 =>
          match dresume k1 (<[cur (kern s) := k]> (dsuspended m)) next with
          | Some k' => Some (mk_dmachine (set_kern (set_cur next k1) s) (k' (cur (kern s))) (<[cur (kern s) := k]> (dsuspended m)))
          | None => None
          end
      | None => None
      end
  end.

Definition dinterrupt (vec garbage : Z) (m : dmachine) : option dmachine :=
  if bool_decide (intr (kern (ds m)) = INTR_ON) && bool_decide (vec ∈ dvectors) then
    Some (mk_dmachine (set_kern (set_intr INTR_OFF (kern (ds m))) (ds m))
      (dintr_handler (dhandlers garbage) vec ⨾ dprim (on_kernel (modify (set_intr INTR_ON))) ⨾ drun m) (dsuspended m))
  else None.

Fixpoint dadvance_n (n : nat) (m : dmachine) : option dmachine :=
  match n with
  | O => Some m
  | S n => match dadvance (cur (kern (ds m)) + 3840) m with Some m' => dadvance_n n m' | None => None end
  end.

Fixpoint dplay (es : list event) (m : dmachine) : option dmachine :=
  match es with
  | [] => Some m
  | Steps n :: es => match dadvance_n n m with Some m' => dplay es m' | None => None end
  | Irq vec garbage :: es => match dinterrupt vec garbage m with Some m' => dplay es m' | None => None end
  end.

Lemma dadvance_step sp m m' : dadvance sp m = Some m' -> dstep m m'.
Proof.
  destruct m as [s c susp]. unfold dadvance. cbn [drun ds dsuspended].
  destruct c as [a|X p k|test body k|next k]; [done|..].
  - destruct (p s) as [[x s']|e] eqn:E; [|done]. intros [= <-]. by apply dstep_prim.
  - destruct (test s) as [[b s']|e] eqn:E; [|done]. intros [= <-]. by apply dstep_while.
  - destruct (save_context sp _) as [s1|] eqn:E; [|done].
    destruct (dresume s1 _ next) as [k'|] eqn:E2; [|done]. intros [= <-]. by eapply dstep_switch.
Qed.

Lemma dinterrupt_step vec garbage m m' : dinterrupt vec garbage m = Some m' -> dstep m m'.
Proof.
  destruct m as [s c susp]. unfold dinterrupt. cbn [drun ds dsuspended].
  destruct (bool_decide_reflect (intr (kern s) = INTR_ON)); [|done].
  destruct (bool_decide_reflect (vec ∈ dvectors)); [|done]. intros [= <-]. by apply dstep_interrupt.
Qed.

Lemma dadvance_n_steps n m m' : dadvance_n n m = Some m' -> rtc dstep m m'.
Proof.
  revert m. induction n as [|n IH]; intros m; cbn; [by intros [= ->]|].
  destruct (dadvance _ m) as [m1|] eqn:E; [|done]. intros E1.
  eapply rtc_l; [by eapply dadvance_step|by apply IH].
Qed.

Lemma dplay_steps es m m' : dplay es m = Some m' -> rtc dstep m m'.
Proof.
  revert m. induction es as [|[n|vec garbage] es IH]; intros m; cbn; [by intros [= ->]|..].
  - destruct (dadvance_n n m) as [m1|] eqn:E; [|done]. intros E1.
    etrans; [by eapply dadvance_n_steps|by apply IH].
  - destruct (dinterrupt vec garbage m) as [m1|] eqn:E; [|done]. intros E1.
    eapply rtc_l; [by eapply dinterrupt_step|by apply IH].
Qed.

(** The machine a run ends in, known to be reached by evaluation. *)
Definition dplayed (es : list event) (m : dmachine) : dmachine := default m (dplay es m).

Lemma dplayed_steps es m : match dplay es m with Some _ => true | None => false end = true ->
  rtc dstep m (dplayed es m).
Proof. unfold dplayed. destruct (dplay es m) eqn:E; [|done]. intros _. by apply (dplay_steps es). Qed.
End Machine.
Arguments dmachine H : clear implicits.

(** ** Two readers *)

(** The threads read a key each. *)
#[global] Instance readers : DProgram sim := {| dfunc := fun _ _ => input_getc ⨾ DRet tt |}.

Definition buffer_lock : Z := 0xc0020140.

Definition loaded : kstate :=
  let l := waiters (lock_semaphore buffer_lock) in
  set_lmem (<[head l := mk_elem NULL NULL]> (<[tail l := mk_elem NULL NULL]> (lmem Demo.loaded))) Demo.loaded.

(** The keys A and B are going to be pressed. *)
Definition two_readers : dmachine sim := mk_dmachine
  (mk_dev loaded (mk_sim (mk_uart [] [] true false false 1 0 0 8) (mk_crtc 0 0) [0x1e; 0x30] 0) ∅
     (mk_kbd false false false false false false false 0) (mk_vga 0 0 0 false) (mk_con false 0 0) POLL
     (mk_intq 0 NULL NULL (replicate 64 0) 0 0) (mk_intq buffer_lock NULL NULL (replicate 64 0) 0 0)
     (mk_itable [] [] [] 0 []))
  (lift (start_kernel 48 0xc0020400 1000 (fun _ => replicate 1024 0)
     (sema_init Demo.done 0;; lock_init Demo.lock) 0xc000ef00) ⨾
   dprim input_init ⨾
   lift (thread_create [97] 31 Demo.worker_function 0) ⨾
   lift (thread_create [98] 31 Demo.worker_function 0) ⨾
   DWhile (ret true) (lift thread_yield) (DRet tt)) ∅.

(** Both threads wait; two keys are pressed before the first gets to run. *)
Definition two_keys : list event := [Steps 300; Irq 0x21 0; Steps 12; Irq 0x21 0; Steps 36].
Definition second_reader : dmachine sim := dplayed two_keys two_readers.

Lemma second_reader_reached : rtc dstep two_readers second_reader.
Proof. apply dplayed_steps. vm_compute. reflexivity. Qed.

Definition asserting (m : dmachine sim) : bool :=
  match drun m with DPrim p _ => match p (ds m) with Err AssertFail => true | _ => false end | _ => false end.

Lemma asserting_asserts m : asserting m = true -> asserts m.
Proof.
  unfold asserting, asserts. destruct (drun m); try done. destruct (m0 (ds m)) as [|[]]; done.
Qed.

(** C38: Two threads that wait in input_getc() can bring the kernel down.  The
    second waits for the queue's lock, inside the loop of intq_getc(), while
    the first waits for a key.  When two keys arrive before the first thread
    runs, it takes one of them and releases the lock; the second goes on to
    wait(), which asserts that the queue is empty, with a key in it. *)
Theorem intq_wait_race : exists m, rtc dstep two_readers m /\ asserts m /\
  cur (kern (ds m)) = 0xc0024000 /\ intr (kern (ds m)) = INTR_OFF /\ in_external_intr (kern (ds m)) = false /\
  contents (buffer (ds m)) = [98].
Proof.
  exists second_reader. split; [exact second_reader_reached|].
  split; [apply asserting_asserts; vm_compute; reflexivity|].
  split_and!; vm_compute; reflexivity.
Qed.
