(* ===== verification/Vga.v ===== *)
(** * devices/vga.c: the text display

    The driver, and then the display as a window on an endless sheet of paper. *)

From Stdlib Require Import ZArith Lia.
From stdpp Require Import base numbers gmap list strings.
From S2P Require Import Prelude DList Vaddr Kernel Thread Synch Boot KSched Bytes StrLib StrSpec Gdt Idt DevBase PcHardware.

Open Scope Z_scope.

(** * The code

    Video memory is memory of bytes; the hardware's cursor is behind I/O ports.
    All of vga_putc() runs with interrupts off. *)

Definition COL_CNT : Z := 80.
Definition ROW_CNT : Z := 25.
Definition GRAY_ON_BLACK : Z := 0x07.

Definition set_fb v d := mk_vga v (cx d) (cy d) (inited d).
Definition set_cx v d := mk_vga (fb d) v (cy d) (inited d).
Definition set_cy v d := mk_vga (fb d) (cx d) v (inited d).
Definition set_inited v d := mk_vga (fb d) (cx d) (cy d) v.

Section Code.
Context {H : Type} {ports : Ports H}.

Definition upd_display (f : vga -> vga) : M (dev H) unit := modify (fun s => set_display (f (display s)) s).

(** [fb[y][x][i] = v]. *)
Definition fb_store (y x i v : Z) : M (dev H) unit :=
  d ← gets display;
  on_video (store8 (fb d + (y * COL_CNT + x) * 2 + i) v).

Definition find_cursor : M (dev H) (Z * Z) :=
  outb 0x3d4 0x0e;;
  b ← inb 0x3d5;
  let cp := u16 (Z.shiftl b 8) in
  outb 0x3d4 0x0f;;
  b ← inb 0x3d5;
  let cp := Z.lor cp b in
  ret (cp mod COL_CNT, cp / COL_CNT).

Definition move_cursor : M (dev H) unit :=
  d ← gets display;
  let cp := u16 (cx d + COL_CNT * cy d) in
  outw 0x3d4 (u16 (Z.lor 0x0e (Z.land cp 0xff00)));;
  outw 0x3d4 (u16 (Z.lor 0x0f (Z.shiftl cp 8))).

Definition clear_row (y : Z) : M (dev H) unit :=
  for_from (Z.to_nat COL_CNT) 0 (fun x =>
    fb_store y x 0 32;;
    fb_store y x 1 GRAY_ON_BLACK).

Definition cls : M (dev H) unit :=
  for_from (Z.to_nat ROW_CNT) 0 clear_row;;
  upd_display (fun d => set_cx 0 (set_cy 0 d));;
  move_cursor.

Definition newline : M (dev H) unit :=
  upd_display (set_cx 0);;
  upd_display (fun d => set_cy (u32 (cy d + 1)) d);;
  d ← gets display;
  if ROW_CNT <=? cy d then
    upd_display (set_cy (ROW_CNT - 1));;
    on_video (memmove (fb d) (fb d + COL_CNT * 2) (COL_CNT * 2 * (ROW_CNT - 1)));;
    clear_row (ROW_CNT - 1)
  else ret tt.

Definition init : M (dev H) unit :=
  d ← gets display;
  if negb (inited d) then
    p ← ptov 0xb8000;
    upd_display (set_fb p);;
    '(x, y) ← find_cursor;
    upd_display (fun d => set_cy y (set_cx x d));;
    upd_display (set_inited true)
  else ret tt.

(** The switch of vga_putc(). *)
Definition put_char (c : Z) : M (dev H) unit :=
  d ← gets display;
  if c =? 10 then newline
  else if c =? 12 then cls
  else if c =? 8 then
    if 0 <? cx d then upd_display (set_cx (cx d - 1)) else ret tt
  else if c =? 13 then upd_display (set_cx 0)
  else if c =? 9 then
    upd_display (set_cx (ROUND_UP (u32 (cx d + 1)) 8));;
    d ← gets display;
    if COL_CNT <=? cx d then newline else ret tt
  else
    fb_store (cy d) (cx d) 0 c;;
    fb_store (cy d) (cx d) 1 GRAY_ON_BLACK;;
    upd_display (fun d => set_cx (u32 (cx d + 1)) d);;
    d ← gets display;
    if COL_CNT <=? cx d then newline else ret tt.

Definition vga_putc (c : Z) : M (dev H) unit :=
  old_level ← on_kernel intr_disable;
  init;;
  put_char c;;
  move_cursor;;
  on_kernel (intr_set_level old_level);;
  ret tt.
End Code.

(** * The display as a window on paper

    A terminal that prints on paper without end is what the display pretends to
    be; the screen shows the last 25 rows of it. *)

(** ** Paper *)

(** A cell holds a character and its colours; the sheet is a row of 80 cells
    after another, and [pos] the cell that is printed next. *)
Abbreviation cell := (Z * Z)%type.
Record paper := mk_paper { sheet : list cell; pos : nat }.

Definition blank : cell := (32, 7).

(** The cells of the screen: 25 rows. *)
Definition screen : nat := Z.to_nat 2000.
Lemma screen_eq : Z.of_nat screen = 2000.
Proof. done. Qed.
#[global] Opaque screen.

(** There is always a row to print on. *)
Definition feed (p : paper) : paper :=
  if bool_decide (pos p = length (sheet p)) then mk_paper (sheet p ++ replicate 80 blank) (pos p) else p.

Definition print (c : Z) (p : paper) : paper :=
  let start := (pos p - pos p mod 80)%nat in
  if c =? 10 then feed (mk_paper (sheet p) (start + 80))
  else if c =? 12 then mk_paper (sheet p ++ replicate screen blank) (length (sheet p))
  else if c =? 8 then if bool_decide (pos p mod 80 = 0)%nat then p else mk_paper (sheet p) (pos p - 1)
  else if c =? 13 then mk_paper (sheet p) start
  else if c =? 9 then feed (mk_paper (sheet p) (start + (pos p mod 80 / 8 + 1) * 8))
  else feed (mk_paper (<[pos p := (c, 7)]> (sheet p)) (pos p + 1)).

(** ** The screen *)

Definition FB : Z := 0xc00b8000.

Definition cells_at (b : bytes) (l : list cell) : Prop := forall k c a, l !! k = Some (c, a) ->
  b !! (FB + 2 * Z.of_nat k) = Some c /\ b !! (FB + 2 * Z.of_nat k + 1) = Some a.

Definition top (p : paper) : nat := length (sheet p) - screen.

Record paper_ok (p : paper) : Prop := {
  po_rows : (length (sheet p) mod 80 = 0)%nat;
  po_long : (screen <= length (sheet p))%nat;
  po_pos : (top p <= pos p < length (sheet p))%nat;
  po_bytes : Forall (fun x : cell => in_u 8 x.1 /\ in_u 8 x.2) (sheet p) }.

(** The cell of the screen that is printed next. *)
Definition spot (p : paper) : Z := Z.of_nat (pos p - top p).

Section Shows.
Context {H : Type} {ports : Ports H} {pc : PC H}.
Implicit Types s : dev H.

(** The variables of vga.c and video memory agree with the paper. *)
Definition draws s (p : paper) : Prop :=
  cells_at (vmem s) (drop (top p) (sheet p)) /\
  fb (display s) = FB /\ cx (display s) = spot p mod 80 /\ cy (display s) = spot p / 80 /\ inited (display s) = true.

(** What is seen on the screen; before its first use the driver takes the
    place of the cursor from the hardware. *)
Definition shows s (p : paper) : Prop :=
  paper_ok p /\ cells_at (vmem s) (drop (top p) (sheet p)) /\ cursor (crt (hw s)) = spot p /\
  (inited (display s) = true -> draws s p).

(** Only the display has changed. *)
Definition drawn s s' : Prop :=
  (forall a, ~ FB <= a < FB + 4000 -> vmem s' !! a = vmem s !! a) /\
  s' = set_vmem (vmem s') (set_display (display s') s).

#[global] Instance drawn_po : PreOrder drawn.
Proof.
  split; [intros s; split; [done|by destruct s]|].
  intros x y z [A1 A2] [B1 B2]. split; [intros a Ha; by rewrite B1, A1|]. rewrite B2, A2. done.
Qed.
End Shows.

(** ** Cells *)

Lemma cells_set b l k c a : cells_at b l -> (k < length l)%nat ->
  cells_at (<[FB + 2 * Z.of_nat k + 1 := a]> (<[FB + 2 * Z.of_nat k := c]> b)) (<[k := (c, a)]> l).
Proof.
  intros Hb Hk j c' a'. rewrite list_lookup_insert_Some. intros [(-> & [= -> ->] & _)|[Hne E]].
  - rewrite lookup_insert_ne by lia. by rewrite !lookup_insert_eq.
  - rewrite !lookup_insert_ne by lia. by apply Hb.
Qed.

(** The bytes of some cells. *)
Definition bytes_of_cells (l : list cell) : list Z := concat (map (fun x : cell => [x.1; x.2]) l).

Lemma block_cells b l j : cells_at b l -> block b (FB + 2 * Z.of_nat j) (bytes_of_cells (drop j l)).
Proof.
  remember (drop j l) as r eqn:E. revert j E. induction r as [|[c a] r IH]; intros j E Hb; cbn; [done|].
  pose proof (lookup_drop l j 0) as El. rewrite <- E, Nat.add_0_r in El. cbn in El. symmetry in El.
  destruct (Hb j c a El) as [-> ->]. split; [done|]. split; [done|].
  replace (FB + 2 * Z.of_nat j + 1 + 1) with (FB + 2 * Z.of_nat (S j)) by lia. apply IH; [|done].
  apply (f_equal (drop 1)) in E. rewrite drop_drop, (Nat.add_comm _ 1) in E. exact E.
Qed.

Lemma length_bytes_of_cells l : length (bytes_of_cells l) = (2 * length l)%nat.
Proof. unfold bytes_of_cells. induction l; cbn; lia. Qed.

Lemma bytes_of_cells_u8 l : Forall (fun x : cell => in_u 8 x.1 /\ in_u 8 x.2) l -> Forall (in_u 8) (bytes_of_cells l).
Proof. unfold bytes_of_cells. induction 1 as [|x l [H1 H2] _ IH]; cbn; [done|]. constructor; [done|]. by constructor. Qed.

Lemma bytes_of_cells_lookup l k c a : l !! k = Some (c, a) ->
  bytes_of_cells l !! (2 * k)%nat = Some c /\ bytes_of_cells l !! (2 * k + 1)%nat = Some a.
Proof.
  revert k. induction l as [|x l IH]; intros [|k]; cbn [lookup list_lookup]; try done.
  - intros [= ->]. done.
  - intros E. destruct (IH k E) as [H1 H2]. unfold bytes_of_cells in *. cbn [map concat app].
    replace (2 * S k)%nat with (S (S (2 * k))) by lia. by replace (S (S (2 * k)) + 1)%nat with (S (S (2 * k + 1))) by lia.
Qed.

(** Writing cells from the start of the screen. *)
Lemma cells_write b l r : cells_at b l -> (length r <= length l)%nat ->
  cells_at (write b FB (bytes_of_cells r)) (r ++ drop (length r) l).
Proof.
  intros Hb Hl k c a E. rewrite !lookup_write, length_bytes_of_cells. destruct (decide (k < length r)%nat) as [Hk|Hk].
  - rewrite lookup_app_l in E by done. destruct (bytes_of_cells_lookup r k c a E) as [H1 H2].
    rewrite !decide_True by lia.
    replace (Z.to_nat (FB + 2 * Z.of_nat k - FB)) with (2 * k)%nat by lia.
    by replace (Z.to_nat (FB + 2 * Z.of_nat k + 1 - FB)) with (2 * k + 1)%nat by lia.
  - apply Nat.nlt_ge in Hk. rewrite lookup_app_r in E by done. rewrite lookup_drop in E. replace (length r + (k - length r))%nat with k in E by lia.
    rewrite !decide_False by lia. by apply Hb.
Qed.

Lemma cells_written b r : cells_at (write b FB (bytes_of_cells r)) r.
Proof.
  intros k c a E. pose proof (lookup_lt_Some _ _ _ E). destruct (bytes_of_cells_lookup r k c a E) as [H1 H2].
  rewrite !lookup_write, length_bytes_of_cells, !decide_True by lia.
  replace (Z.to_nat (FB + 2 * Z.of_nat k - FB)) with (2 * k)%nat by lia.
  by replace (Z.to_nat (FB + 2 * Z.of_nat k + 1 - FB)) with (2 * k + 1)%nat by lia.
Qed.

(** Cells from [lo] on, [n] of them, replaced by blanks. *)
Definition blanked (lo n : nat) (l : list cell) : list cell :=
  imap (fun k x => if decide (lo <= k < lo + n)%nat then blank else x) l.

Lemma length_blanked lo n l : length (blanked lo n l) = length l.
Proof. apply length_imap. Qed.

Lemma lookup_blanked lo n l k : blanked lo n l !! k =
  (fun x => if decide (lo <= k < lo + n)%nat then blank else x) <$> l !! k.
Proof. unfold blanked. by rewrite list_lookup_imap. Qed.

Lemma blanked_0 lo l : blanked lo 0 l = l.
Proof.
  apply list_eq. intros k. rewrite lookup_blanked. destruct (l !! k); cbn; [|done].
  by rewrite decide_False by lia.
Qed.

Lemma blanked_S lo n l : (lo + n < length l)%nat -> <[(lo + n)%nat := blank]> (blanked lo n l) = blanked lo (S n) l.
Proof.
  intros Hl. apply list_eq. intros k. destruct (decide (k = lo + n)%nat) as [->|Hne].
  - rewrite list_lookup_insert_eq by by rewrite length_blanked. rewrite lookup_blanked.
    destruct (lookup_lt_is_Some_2 l (lo + n)) as [x ->]; [done|]. cbn. by rewrite decide_True by lia.
  - rewrite list_lookup_insert_ne, !lookup_blanked by done. destruct (l !! k); cbn; [|done]. f_equal.
    repeat case_decide; done || lia.
Qed.

Lemma blanked_add lo n m l : blanked (lo + n) m (blanked lo n l) = blanked lo (n + m) l.
Proof.
  apply list_eq. intros k. rewrite !lookup_blanked. destruct (l !! k); cbn; [|done]. f_equal.
  repeat case_decide; done || lia.
Qed.
