(* ===== verification/VgaProps.v ===== *)
(** * The text display: correctness

    What the functions of devices/vga.c do, and then that the display shows the
    last rows of the paper. *)

From Stdlib Require Import ZArith Lia.
From stdpp Require Import base numbers gmap list strings.
From S2P Require Import Prelude DList Bitmap Vaddr Palloc Kernel Thread Synch Boot KSched Bytes StrLib StrSpec Gdt Idt DevBase PcHardware Vga.

Open Scope Z_scope.

(** * The display: what the functions of vga.c do *)

Section Ops.
Context {H : Type} {ports : Ports H} {pc : PC H}.
Implicit Types s : dev H.

(** ** Cells on the screen *)

Lemma wp_fb_store s y x i v (Q : unit -> dev H -> Prop) : fb (display s) = FB ->
  is_Some (vmem s !! (FB + (y * COL_CNT + x) * 2 + i)) ->
  Q tt (set_vmem (<[FB + (y * COL_CNT + x) * 2 + i := u8 v]> (vmem s)) s) -> wp (fb_store y x i v) Q s.
Proof.
  intros Ef Hm HQ. unfold fb_store. apply wp_bind. red. cbn [gets]. rewrite Ef.
  apply wp_zoom, wp_store8; [done|]. exact HQ.
Qed.

Lemma drawn_vmem s v : (forall a, ~ FB <= a < FB + 4000 -> v !! a = vmem s !! a) -> drawn s (set_vmem v s).
Proof. intros Hv. split; [done|]. by destruct s. Qed.

Lemma drawn_display s d : drawn s (set_display d s).
Proof. split; [done|]. by destruct s. Qed.

Lemma wp_put_cell s l y x c (k : M (dev H) unit) (Q : unit -> dev H -> Prop) : fb (display s) = FB -> cells_at (vmem s) l -> length l = screen ->
  0 <= y < 25 -> 0 <= x < 80 -> in_u 8 c ->
  (forall s', drawn s s' -> display s' = display s ->
     cells_at (vmem s') (<[Z.to_nat (y * 80 + x) := (c, 7)]> l) -> wp k Q s') ->
  wp (fb_store y x 0 c;; fb_store y x 1 GRAY_ON_BLACK;; k) Q s.
Proof.
  intros Ef Hl Hn Hy Hx Hc HQ. pose proof screen_eq. set (j := Z.to_nat (y * 80 + x)).
  destruct (lookup_lt_is_Some_2 l j) as [[c0 a0] E]; [lia|]. destruct (Hl j c0 a0 E) as [E1 E2].
  assert (A : FB + (y * COL_CNT + x) * 2 = FB + 2 * Z.of_nat j) by (unfold COL_CNT; lia).
  apply wp_bind, wp_fb_store; [done|rewrite Z.add_0_r, A; eauto|].
  apply wp_bind, wp_fb_store; [done|cbn [vmem set_vmem]; rewrite Z.add_0_r, A, lookup_insert_ne by lia; eauto|].
  rewrite Z.add_0_r, A. cbn [vmem set_vmem].
  rewrite (uwrap_small 8 c) by done. rewrite (uwrap_small 8 GRAY_ON_BLACK) by (unfold in_u, GRAY_ON_BLACK; lia).
  apply HQ; [|done|by apply cells_set; [|lia]].
  change (set_vmem ?v (set_vmem _ s)) with (set_vmem v s). apply drawn_vmem. intros a Ha.
  rewrite !lookup_insert_ne by lia. done.
Qed.

Lemma wp_clear_row s l y : fb (display s) = FB -> cells_at (vmem s) l -> length l = screen -> 0 <= y < 25 ->
  wp (clear_row y) (fun _ s' => drawn s s' /\ display s' = display s /\
    cells_at (vmem s') (blanked (Z.to_nat (y * 80)) 80 l)) s.
Proof.
  intros Ef Hl Hn Hy. pose proof screen_eq. eapply wp_mono; [apply (wp_for_from (fun x t => drawn s t /\ display t = display s /\
    cells_at (vmem t) (blanked (Z.to_nat (y * 80)) (Z.to_nat x) l)))|].
  - split_and!; try done. by rewrite blanked_0.
  - intros x t Hx (Hd & Et & Hc). change (Z.of_nat (Z.to_nat COL_CNT)) with 80 in Hx.
    match goal with |- wp (bind ?a (fun _ => ?b)) ?Q t => assert (Hw : wp (a;; b;; ret tt) Q t) end.
    { apply (wp_put_cell t (blanked (Z.to_nat (y * 80)) (Z.to_nat x) l)); try lia; try done.
      - by rewrite Et.
      - by rewrite length_blanked.
      - intros t' Hd' Et' Hc'. apply wp_ret. split; [by etrans|]. split; [by rewrite Et'|].
        replace (Z.to_nat (x + 1)) with (S (Z.to_nat x)) by lia. rewrite <- blanked_S by lia.
        by replace (Z.to_nat (y * 80) + Z.to_nat x)%nat with (Z.to_nat (y * 80 + x)) by lia. }
    apply wp_bind_iff in Hw. apply wp_bind. eapply wp_mono; [exact Hw|]. intros [] t1 Hw1.
    apply wp_bind_iff in Hw1. eapply wp_mono; [exact Hw1|]. intros [] t2. by unfold wp, ret.
  - intros [] t. cbn beta. intros (? & ? & Hc). split_and!; try done.
Qed.

(** ** A new line *)

(** The paper as the variables of vga.c show it: cell [n] of the screen is
    next. *)
Definition placed s (n : Z) : Prop :=
  fb (display s) = FB /\ cx (display s) = n mod 80 /\ cy (display s) = n / 80 /\ inited (display s) = true.

(** Scrolling: the rows move up by one, and the last is blank. *)
Lemma scroll_cells l : length l = screen ->
  blanked (screen - 80) 80 (drop 80 l ++ drop (screen - 80) l) = drop 80 l ++ replicate 80 blank.
Proof.
  intros Hl. pose proof screen_eq. apply list_eq. intros k. rewrite lookup_blanked. destruct (decide (k < screen - 80)%nat) as [Hk|Hk].
  - rewrite !lookup_app_l by (rewrite length_drop; lia). destruct (drop 80 l !! k); cbn [fmap option_fmap option_map]; [|done].
    by rewrite decide_False by lia.
  - rewrite !lookup_app_r by (rewrite length_drop; lia). rewrite length_drop, Hl, lookup_drop.
    destruct (decide (k < screen)%nat).
    + destruct (lookup_lt_is_Some_2 l (screen - 80 + (k - (screen - 80)))) as [x ->]; [lia|]. cbn [fmap option_fmap option_map].
      rewrite decide_True by lia. symmetry. apply lookup_replicate_2. lia.
    + rewrite !lookup_ge_None_2 by (rewrite ?length_replicate; lia). done.
Qed.

Lemma wp_scroll s l : fb (display s) = FB -> cells_at (vmem s) l -> length l = screen ->
  Forall (fun x : cell => in_u 8 x.1 /\ in_u 8 x.2) l ->
  wp (on_video (memmove FB (FB + COL_CNT * 2) (COL_CNT * 2 * (ROW_CNT - 1)));; clear_row (ROW_CNT - 1))
    (fun _ s' => drawn s s' /\ display s' = display s /\ cells_at (vmem s') (drop 80 l ++ replicate 80 blank)) s.
Proof.
  intros Ef Hl Hn Hb. pose proof screen_eq. pose proof (block_cells (vmem s) l 80 Hl) as Hblock.
  change (FB + 2 * Z.of_nat 80) with (FB + COL_CNT * 2) in Hblock.
  assert (Hlen : length (bytes_of_cells (drop 80 l)) = (2 * (screen - 80))%nat) by (rewrite length_bytes_of_cells, length_drop; lia).
  apply wp_bind, wp_zoom. change (COL_CNT * 2 * (ROW_CNT - 1)) with 3840.
  replace 3840 with (Z.of_nat (length (bytes_of_cells (drop 80 l)))) by lia.
  eapply wp_mono; [apply wp_memmove; [done|by apply bytes_of_cells_u8, Forall_drop| |unfold FB; lia|unfold FB, COL_CNT; lia]|].
  { intros i Hi. rewrite Hlen in Hi. pose proof (block_cells (vmem s) l 0 Hl) as Hb0. rewrite Z.mul_0_r, Z.add_0_r in Hb0.
    apply (block_mapped _ _ _ Hb0). rewrite length_bytes_of_cells, drop_0. lia. }
  intros r b [_ ->]. pose proof (cells_write _ _ (drop 80 l) Hl ltac:(rewrite length_drop; lia)) as Hw.
  rewrite length_drop, Hn in Hw.
  set (s1 := set_vmem _ s).
  assert (Hd1 : drawn s s1).
  { apply drawn_vmem. intros a Ha. rewrite lookup_write, Hlen, decide_False by lia. done. }
  eapply wp_mono; [apply (wp_clear_row s1 _ (ROW_CNT - 1) Ef Hw); [rewrite length_app, !length_drop; lia|unfold ROW_CNT; lia]|].
  intros [] s2 (Hd2 & Ed & Hc). split; [by etrans|]. split; [done|].
  replace (Z.to_nat ((ROW_CNT - 1) * 80)) with (screen - 80)%nat in Hc by (unfold ROW_CNT; lia). by rewrite scroll_cells in Hc.
Qed.

(** newline(), from row [y] of the screen. *)
Lemma wp_newline s sh y : let tp := (length sh - screen)%nat in
  fb (display s) = FB -> inited (display s) = true -> cy (display s) = y -> 0 <= y < 25 -> (screen <= length sh)%nat ->
  cells_at (vmem s) (drop tp sh) -> Forall (fun x : cell => in_u 8 x.1 /\ in_u 8 x.2) sh ->
  wp newline (fun _ s' => drawn s s' /\ draws s' (feed (mk_paper sh (tp + Z.to_nat ((y + 1) * 80))))) s.
Proof.
  intros tp Ef Ei Ey Hy Hlen Hc Hb. pose proof screen_eq. unfold newline. apply wp_bind. red. cbn [upd_display modify].
  apply wp_bind. red. cbn [upd_display modify]. apply wp_bind. red. cbn [gets].
  cbn [display set_display cy set_cy set_cx]. rewrite Ey, uwrap_small by (unfold in_u; lia).
  assert (Hl : length (drop tp sh) = screen) by (rewrite length_drop; lia).
  unfold feed, ROW_CNT. cbn [pos sheet]. destruct (Z.leb_spec 25 (y + 1)) as [Hs|Hs].
  - assert (y = 24) as -> by lia. rewrite bool_decide_eq_true_2 by lia.
    apply wp_bind. red. cbn [upd_display modify fb display set_display set_cy set_cx]. rewrite Ef.
    match goal with |- wp _ _ ?t => eapply wp_mono; [apply (wp_scroll t (drop tp sh)); [done|done|done|by apply Forall_drop]|] end.
    intros [] s' (Hd & Ed & Hc'). split.
    { etrans; [|exact Hd]. by repeat (etrans; [|apply drawn_display]). }
    unfold draws, spot, top. cbn [sheet pos]. rewrite Ed, length_app, length_replicate.
    replace (length sh + 80 - screen)%nat with (tp + 80)%nat by lia.
    rewrite drop_app_le, <- drop_drop by lia. split; [done|].
    cbn [display set_display fb cx cy inited set_cx set_cy].
    replace (tp + Z.to_nat ((24 + 1) * 80) - (tp + 80))%nat with (screen - 80)%nat by lia.
    replace (Z.of_nat (screen - 80)) with 1920 by lia. by split_and!.
  - rewrite bool_decide_eq_false_2 by lia. apply wp_ret. split.
    { by repeat (etrans; [|apply drawn_display]). }
    split; [done|]. unfold spot, top. cbn [sheet pos display set_display fb cx cy inited set_cx set_cy].
    replace (Z.of_nat (tp + Z.to_nat ((y + 1) * 80) - (length sh - screen))) with ((y + 1) * 80) by lia.
    split_and!; try done; Z.to_euclidean_division_equations; lia.
Qed.

(** ** The cursor *)

Lemma cursor_words cp : in_u 16 cp ->
  u16 (Z.lor 0x0e (Z.land cp 0xff00)) = 0x0e + cp / 256 * 256 /\
  u16 (Z.lor 0x0f (Z.shiftl cp 8)) = 0x0f + cp mod 256 * 256.
Proof.
  unfold in_u. intros Hc. change 0xff00 with (Z.shiftl (Z.ones 8) 8). rewrite land_top by lia.
  rewrite !lor_shift by lia. change (2 ^ 8) with 256. unfold uwrap. change (2 ^ 16) with 65536.
  split; Z.to_euclidean_division_equations; lia.
Qed.

(** Only the display's cursor has moved. *)
Definition cursor_moved s s' (n : Z) : Prop := exists h, s' = set_hw h s /\ chip h = chip (hw s) /\
  scan h = scan (hw s) /\ cursor (crt h) = n.

Lemma wp_move_cursor s n : cx (display s) = n mod 80 -> cy (display s) = n / 80 -> 0 <= n < 2000 ->
  wp move_cursor (fun _ s' => cursor_moved s s' n) s.
Proof.
  intros Ex Ey Hn. unfold move_cursor. apply wp_bind. red. cbn [gets]. rewrite Ex, Ey. unfold COL_CNT.
  replace (n mod 80 + 80 * (n / 80)) with n by (Z.to_euclidean_division_equations; lia).
  rewrite (uwrap_small 16 n) by (unfold in_u; lia). destruct (cursor_words n) as [-> ->]; [unfold in_u; lia|].
  apply wp_bind. red. cbn [outw modify]. red. cbn [outw modify]. eexists. split; [done|]. cbn [hw set_hw].
  rewrite !outw_chip, !outw_scan. split_and!; [done|done|].
  rewrite outw_crt by (unfold in_u; Z.to_euclidean_division_equations; lia).
  rewrite outw_crt by (unfold in_u; Z.to_euclidean_division_equations; lia).
  unfold crtc_outw. change (0x3d4 + 1) with 0x3d5.
  replace ((0x0e + n / 256 * 256) mod 256) with 0x0e by (Z.to_euclidean_division_equations; lia).
  replace ((0x0e + n / 256 * 256) / 256) with (n / 256) by (Z.to_euclidean_division_equations; lia).
  replace ((0x0f + n mod 256 * 256) mod 256) with 0x0f by (Z.to_euclidean_division_equations; lia).
  replace ((0x0f + n mod 256 * 256) / 256) with (n mod 256) by (Z.to_euclidean_division_equations; lia).
  unfold crtc_out. cbn [Z.eqb Pos.eqb index cursor]. Z.to_euclidean_division_equations; lia.
Qed.

Lemma wp_find_cursor s : wp find_cursor (fun r s' => r = (cursor (crt (hw s)) mod 80, cursor (crt (hw s)) / 80) /\
  cursor_moved s s' (cursor (crt (hw s)))) s.
Proof.
  pose proof (cursor_u16 (hw s)) as Hu. set (n := cursor (crt (hw s))) in *. unfold find_cursor.
  apply wp_bind, wp_outb. apply wp_bind, wp_inb. apply wp_bind, wp_outb. apply wp_bind, wp_inb. cbn [hw set_hw].
  set (h1 := port_outb 0x3d4 0x0e (hw s)). set (h2 := (port_inb 0x3d5 h1).2). set (h3 := port_outb 0x3d4 0x0f h2).
  assert (C1 : crt h1 = mk_crtc 0x0e n) by (unfold h1; by rewrite outb_crt by (unfold in_u; lia)).
  assert (C2 : crt h2 = mk_crtc 0x0e n) by (unfold h2; by rewrite inb_crt).
  assert (C3 : crt h3 = mk_crtc 0x0f n) by (unfold h3; by rewrite outb_crt, C2 by (unfold in_u; lia)).
  rewrite (inb_cursor h1 (n / 256)), (inb_cursor h3 (n mod 256)) by (rewrite ?C1, ?C3; done).
  apply wp_ret. unfold in_u in Hu. unfold cursor_moved. split.
  - rewrite Z.lor_comm, (uwrap_shift 16 _ 8), lor_shift by (lia || (Z.to_euclidean_division_equations; lia)).
    change (2 ^ (16 - 8)) with 256. change (2 ^ 8) with 256. unfold COL_CNT.
    replace (n mod 256 + (n / 256) mod 256 * 256) with n; [done|]. Z.to_euclidean_division_equations; lia.
  - eexists. split; [done|]. cbn [hw set_hw]. rewrite inb_crt, inb_scan by done. split_and!.
    + pose proof (inb_chip 0x3d5 h3) as A. cbn in A. rewrite A. unfold h3. rewrite outb_chip.
      pose proof (inb_chip 0x3d5 h1) as B. cbn in B. unfold h2. rewrite B. unfold h1. by rewrite outb_chip.
    + unfold h3. rewrite outb_scan. unfold h2. rewrite inb_scan by done. unfold h1. by rewrite outb_scan.
    + by rewrite C3.
Qed.

(** ** Clearing the screen *)

Lemma wp_clear_all s l : fb (display s) = FB -> cells_at (vmem s) l -> length l = screen ->
  wp (for_from (Z.to_nat ROW_CNT) 0 clear_row) (fun _ s' => drawn s s' /\ display s' = display s /\
    cells_at (vmem s') (replicate screen blank)) s.
Proof.
  intros Ef Hl Hn. pose proof screen_eq as Hscr. eapply wp_mono; [apply (wp_for_from (fun y t => drawn s t /\
    display t = display s /\ cells_at (vmem t) (blanked 0 (Z.to_nat (y * 80)) l)))|].
  - split_and!; try done. by rewrite blanked_0.
  - intros y t Hy (Hd & Et & Hc). change (Z.of_nat (Z.to_nat ROW_CNT)) with 25 in Hy.
    eapply wp_mono; [apply (wp_clear_row t (blanked 0 (Z.to_nat (y * 80)) l) y); [by rewrite Et|exact Hc|by rewrite length_blanked|lia]|].
    intros [] t' (Hd' & Et' & Hc'). split; [by etrans|]. split; [by rewrite Et'|].
    replace (Z.to_nat (y * 80)) with (0 + Z.to_nat (y * 80))%nat in Hc' at 1 by lia.
    rewrite blanked_add in Hc'. by replace (Z.to_nat ((y + 1) * 80)) with (Z.to_nat (y * 80) + 80)%nat by lia.
  - intros [] t (Hd & Et & Hc). split_and!; try done.
    replace (replicate screen blank) with (blanked 0 (Z.to_nat ((0 + Z.of_nat (Z.to_nat ROW_CNT)) * 80)) l); [done|].
    apply list_eq. intros k. rewrite lookup_blanked. change (Z.to_nat ((0 + Z.of_nat (Z.to_nat ROW_CNT)) * 80)) with (Z.to_nat 2000).
    destruct (decide (k < screen)%nat).
    + destruct (lookup_lt_is_Some_2 l k) as [x ->]; [lia|]. cbn [fmap option_fmap option_map].
      rewrite decide_True by lia. symmetry. by apply lookup_replicate_2.
    + rewrite !lookup_ge_None_2 by (rewrite ?length_replicate; lia). done.
Qed.

(** The display and its cursor have changed, and nothing else. *)
Definition painted s s' : Prop :=
  exists h, drawn (set_hw h s) s' /\ chip h = chip (hw s) /\ scan h = scan (hw s).

#[global] Instance painted_po : PreOrder painted.
Proof.
  split.
  - intros s. exists (hw s). split_and!; [by destruct s|done|done].
  - intros x y z (h1 & [A1 A2] & A3 & A4) (h2 & [B1 B2] & B3 & B4). exists h2. rewrite A2 in B3, B4. cbn in *.
    split_and!; [|by rewrite B3|by rewrite B4]. split; [intros a Ha; by rewrite B1, A1|]. rewrite B2, A2. done.
Qed.

Lemma drawn_painted s s' : drawn s s' -> painted s s'.
Proof. intros Hd. exists (hw s). split_and!; [by destruct s|done|done]. Qed.

Lemma cursor_painted s s' n : cursor_moved s s' n -> painted s s'.
Proof. intros (h & -> & ? & ? & _). exists h. by split_and!. Qed.
End Ops.

(** * The display shows the last rows of the paper *)

(** ** Paper *)

Abbreviation byte_cell := (fun x : cell => in_u 8 x.1 /\ in_u 8 x.2).

(** Where things are, in rows. *)
Lemma paper_places p : paper_ok p -> exists t y x, top p = (80 * t)%nat /\ length (sheet p) = (80 * t + screen)%nat /\
  pos p = (80 * t + (80 * y + x))%nat /\ spot p = 80 * Z.of_nat y + Z.of_nat x /\
  (y < 25)%nat /\ (x < 80)%nat /\ (pos p mod 80 = x)%nat /\ spot p mod 80 = Z.of_nat x /\ spot p / 80 = Z.of_nat y.
Proof.
  intros [Hr Hl Hp _]. pose proof screen_eq as Hs. unfold spot.
  pose proof (Nat.div_mod_eq (length (sheet p)) 80) as HL. rewrite Hr in HL.
  pose proof (Nat.div_mod_eq (pos p - top p) 80) as Ho. pose proof (Nat.mod_upper_bound (pos p - top p) 80 ltac:(lia)) as Hx.
  set (y := ((pos p - top p) / 80)%nat) in *. set (x := ((pos p - top p) mod 80)%nat) in *. unfold top in *.
  exists (length (sheet p) / 80 - 25)%nat, y, x. split_and!; try lia.
  - symmetry. apply (Nat.mod_unique _ _ (length (sheet p) / 80 - 25 + y)); lia.
  - symmetry. apply (Z.mod_unique _ _ (Z.of_nat y)); lia.
  - symmetry. apply (Z.div_unique _ _ _ (Z.of_nat x)); lia.
Qed.

Lemma paper_ok_intro sh n t : length sh = (80 * t + screen)%nat -> Forall byte_cell sh ->
  (80 * t <= n < length sh)%nat -> paper_ok (mk_paper sh n).
Proof.
  intros Hl Hb Hn. pose proof screen_eq. split; cbn [sheet pos]; try done; try lia.
  - rewrite Hl. symmetry. apply (Nat.mod_unique _ _ (t + 25)); lia.
  - unfold top. cbn [sheet]. lia.
Qed.

Lemma feed_ok sh n t : length sh = (80 * t + screen)%nat -> Forall byte_cell sh -> (80 * t <= n <= length sh)%nat ->
  paper_ok (feed (mk_paper sh n)).
Proof.
  intros Hl Hb Hn. pose proof screen_eq. unfold feed. cbn [sheet pos].
  destruct (bool_decide_reflect (n = length sh)) as [E|E]; [|apply (paper_ok_intro _ _ t); (done || lia)].
  apply (paper_ok_intro _ _ (t + 1)); rewrite ?length_app, ?length_replicate; try lia.
  apply Forall_app. split; [done|]. apply Forall_replicate. unfold in_u. cbn. lia.
Qed.

Lemma print_ok c p : paper_ok p -> in_u 8 c -> paper_ok (print c p).
Proof.
  intros Hp Hc. destruct (paper_places p Hp) as (t & y & x & Ht & Hl & Hpos & _ & Hy & Hx & Hm & _).
  pose proof screen_eq. pose proof (po_bytes _ Hp) as Hb. unfold print. rewrite Hm.
  assert (x / 8 <= 9)%nat by (pose proof (Nat.div_mod_eq x 8); lia).
  destruct (c =? 10); [apply (feed_ok _ _ t); (done || lia)|].
  destruct (c =? 12).
  { apply (paper_ok_intro _ _ (t + 25)); rewrite ?length_app, ?length_replicate; try lia.
    apply Forall_app. split; [done|]. apply Forall_replicate. unfold in_u. cbn. lia. }
  destruct (c =? 8); [destruct (bool_decide_reflect (x = 0)%nat); [done|apply (paper_ok_intro _ _ t); (done || lia)]|].
  destruct (c =? 13); [apply (paper_ok_intro _ _ t); (done || lia)|].
  destruct (c =? 9); [apply (feed_ok _ _ t); (done || lia)|].
  apply (feed_ok _ _ t); rewrite ?length_insert; try lia.
  apply Forall_insert; [done|]. unfold in_u in *. cbn. lia.
Qed.

Section Props.
Context {H : Type} {ports : Ports H} {pc : PC H}.
Implicit Types s : dev H.

(** A move within the row. *)
Lemma draws_move s p t y n x : draws s p -> top p = (80 * t)%nat -> spot p / 80 = Z.of_nat y -> (x < 80)%nat ->
  n = (80 * t + (80 * y + x))%nat -> draws (set_display (set_cx (Z.of_nat x) (display s)) s) (mk_paper (sheet p) n).
Proof.
  intros (Hc & Ef & _ & Ey & Ei) Ht Hy Hx ->. unfold draws, spot. change (top (mk_paper (sheet p) ?n)) with (top p).
  cbn [pos sheet display set_display vmem fb cx cy inited set_cx]. rewrite Ht, Ey, Hy.
  replace (80 * t + (80 * y + x) - 80 * t)%nat with (80 * y + x)%nat by lia. rewrite Ht in Hc. split_and!; try done.
  - apply (Z.mod_unique _ _ (Z.of_nat y)); lia.
  - apply (Z.div_unique _ _ _ (Z.of_nat x)); lia.
Qed.

(** To column [x] of the row, or to the next row if there is none. *)
Lemma wp_advance s p t y x : draws s p -> paper_ok p -> top p = (80 * t)%nat -> spot p / 80 = Z.of_nat y ->
  (y < 25)%nat -> (x <= 80)%nat -> length (sheet p) = (80 * t + screen)%nat ->
  wp (d ← gets display; if COL_CNT <=? cx d then newline else ret tt)
    (fun _ s' => drawn (set_display (set_cx (Z.of_nat x) (display s)) s) s' /\
       draws s' (feed (mk_paper (sheet p) (80 * t + (80 * y + x)))))
    (set_display (set_cx (Z.of_nat x) (display s)) s).
Proof.
  intros Hd Hp Ht Hy Hy25 Hx Hl. pose proof screen_eq. set (s1 := set_display _ s).
  apply wp_bind. red. cbn [gets]. change (cx (display s1)) with (Z.of_nat x). unfold COL_CNT.
  destruct (Z.leb_spec 80 (Z.of_nat x)) as [Hge|Hlt].
  - assert (x = 80%nat) as -> by lia. pose proof Hd as (Hc & Ef & _ & Ey & Ei).
    eapply wp_mono; [apply (wp_newline s1 (sheet p) (Z.of_nat y)); try done|].
    + cbn. by rewrite Ey.
    + lia.
    + lia.
    + apply Hp.
    + intros [] s' [Hd' Hdr]. split; [done|].
      replace (length (sheet p) - screen + Z.to_nat ((Z.of_nat y + 1) * 80))%nat with (80 * t + (80 * y + 80))%nat in Hdr by lia.
      exact Hdr.
  - apply wp_ret. split; [done|]. unfold feed. cbn [pos sheet]. rewrite bool_decide_eq_false_2 by lia.
    eapply draws_move; try done. lia.
Qed.

(** ** The cases of the switch *)

Section Case.
Variables (s : dev H) (p : paper) (t y x : nat).
Hypotheses (Hd : draws s p) (Hp : paper_ok p) (Ht : top p = (80 * t)%nat) (Hl : length (sheet p) = (80 * t + screen)%nat)
  (Hpos : pos p = (80 * t + (80 * y + x))%nat) (Hy : (y < 25)%nat) (Hx : (x < 80)%nat)
  (Hsx : spot p mod 80 = Z.of_nat x) (Hsy : spot p / 80 = Z.of_nat y).

Lemma case_newline : wp newline (fun _ s' => painted s s' /\ draws s' (feed (mk_paper (sheet p) (pos p - x + 80)))) s.
Proof using Hd Hp Ht Hl Hpos Hy Hx Hsx Hsy.
  pose proof Hd as (Hcells & Ef & _ & Ey & Ei).
  eapply wp_mono; [apply (wp_newline s (sheet p) (Z.of_nat y)); try done; [by rewrite Ey|lia|apply Hp|apply Hp]|].
  intros [] s' [Hd' Hdr]. split; [by apply drawn_painted|]. pose proof screen_eq.
  replace (pos p - x + 80)%nat with (length (sheet p) - screen + Z.to_nat ((Z.of_nat y + 1) * 80))%nat by lia. exact Hdr.
Qed.

Lemma case_cls : wp cls (fun _ s' => painted s s' /\
  draws s' (mk_paper (sheet p ++ replicate screen blank) (length (sheet p)))) s.
Proof using Hd Hp Ht Hl Hpos Hy Hx Hsx Hsy.
  pose proof Hd as (Hcells & Ef & _ & _ & Ei). pose proof screen_eq.
  assert (Hlen : length (drop (top p) (sheet p)) = screen) by (rewrite length_drop; lia).
  unfold cls. apply wp_bind. eapply wp_mono; [by apply (wp_clear_all s _ Ef Hcells)|].
  intros [] s1 (Hd1 & Ed & Hc1). apply wp_bind. red. cbn [upd_display modify].
  eapply wp_mono; [apply (wp_move_cursor _ 0); try done|]. intros [] s2 Hm2. split.
  - etrans; [by apply drawn_painted|]. etrans; [apply drawn_painted, drawn_display|]. by eapply cursor_painted.
  - destruct Hm2 as (h & -> & _). unfold draws, spot, top. cbn [sheet pos]. rewrite length_app, length_replicate.
    replace (length (sheet p) + screen - screen)%nat with (length (sheet p)) by lia.
    rewrite drop_app_length, Nat.sub_diag. cbn [hw set_hw vmem set_display display fb cx cy inited set_cx set_cy]. rewrite Ed.
    by split_and!.
Qed.

Lemma case_tab : wp (upd_display (set_cx (ROUND_UP (u32 (Z.of_nat x + 1)) 8));;
    d ← gets display; if COL_CNT <=? cx d then newline else ret tt)
  (fun _ s' => painted s s' /\ draws s' (feed (mk_paper (sheet p) (pos p - x + (x / 8 + 1) * 8)))) s.
Proof using Hd Hp Ht Hl Hpos Hy Hx Hsx Hsy.
  apply wp_bind. red. cbn [upd_display modify].
  pose proof (Nat.div_mod_eq x 8) as Hdx. pose proof (Nat.mod_upper_bound x 8 ltac:(lia)).
  replace (ROUND_UP (u32 (Z.of_nat x + 1)) 8) with (Z.of_nat ((x / 8 + 1) * 8)).
  - eapply wp_mono; [eapply (wp_advance s p t y); try done; lia|]. intros [] s' [Hd' Hdr].
    split; [etrans; [apply drawn_painted, drawn_display|by apply drawn_painted]|].
    by replace (pos p - x + (x / 8 + 1) * 8)%nat with (80 * t + (80 * y + (x / 8 + 1) * 8))%nat by lia.
  - unfold ROUND_UP, uwrap. change (2 ^ 32) with 4294967296.
    assert (Z.of_nat x = 8 * Z.of_nat (x / 8) + Z.of_nat (x mod 8)) by lia. set (q := (x / 8)%nat) in *.
    set (r := (x mod 8)%nat) in *. clearbody q r. Z.to_euclidean_division_equations; lia.
Qed.

Lemma case_plain c : in_u 8 c ->
  wp (fb_store (Z.of_nat y) (Z.of_nat x) 0 c;; fb_store (Z.of_nat y) (Z.of_nat x) 1 GRAY_ON_BLACK;;
      upd_display (fun d => set_cx (u32 (cx d + 1)) d);;
      d ← gets display; if COL_CNT <=? cx d then newline else ret tt)
  (fun _ s' => painted s s' /\ draws s' (feed (mk_paper (<[pos p := (c, 7)]> (sheet p)) (pos p + 1)))) s.
Proof using Hd Hp Ht Hl Hpos Hy Hx Hsx Hsy.
  intros Hc. pose proof Hd as (Hcells & Ef & Ex & _). pose proof screen_eq.
  assert (Hlen : length (drop (top p) (sheet p)) = screen) by (rewrite length_drop; lia).
  apply (wp_put_cell s (drop (top p) (sheet p))); try done; try lia. intros s1 Hd1 Ed1 Hc1.
  apply wp_bind. red. cbn [upd_display modify]. rewrite Ed1, Ex, Hsx. rewrite uwrap_small by (unfold in_u; lia).
  replace (Z.of_nat x + 1) with (Z.of_nat (x + 1)) by lia.
  set (p1 := mk_paper (<[pos p := (c, 7)]> (sheet p)) (pos p)).
  assert (Htp : top p1 = top p) by (unfold top, p1; cbn [sheet]; by rewrite length_insert).
  assert (Hspot : spot p1 = spot p) by (unfold spot; by rewrite Htp).
  assert (Hp1 : paper_ok p1).
  { apply (paper_ok_intro _ _ t); rewrite ?length_insert; [done| |lia]. apply Forall_insert; [apply Hp|].
    unfold in_u in *. cbn. lia. }
  assert (Hdr1 : draws s1 p1).
  { unfold draws. rewrite Htp, Hspot, Ed1. split; [|exact (proj2 Hd)]. cbn [sheet p1]. rewrite drop_insert_ge by lia.
    by replace (pos p - top p)%nat with (Z.to_nat (Z.of_nat y * 80 + Z.of_nat x)) by lia. }
  rewrite <- Ed1. eapply wp_mono; [apply (wp_advance s1 p1 t y); [done|done|by rewrite Htp|by rewrite Hspot|done|lia|]|].
  - unfold p1. cbn [sheet]. by rewrite length_insert.
  - intros [] s' [Hd' Hdr]. split.
    + etrans; [by apply drawn_painted|]. etrans; [apply drawn_painted, drawn_display|by apply drawn_painted].
    + by replace (pos p + 1)%nat with (80 * t + (80 * y + (x + 1)))%nat by lia.
Qed.
End Case.

Lemma wp_put_char s p c : draws s p -> paper_ok p -> in_u 8 c ->
  wp (put_char c) (fun _ s' => painted s s' /\ draws s' (print c p)) s.
Proof.
  intros Hd Hp Hc. destruct (paper_places p Hp) as (t & y & x & Ht & Hl & Hpos & _ & Hy & Hx & Hm & Hsx & Hsy).
  pose proof Hd as (_ & _ & Ex & Ey & _). rewrite Hsx in Ex. rewrite Hsy in Ey.
  unfold put_char, print. rewrite Hm. apply wp_bind. red. cbn [gets]. rewrite Ex, Ey.
  destruct (c =? 10); [by apply (case_newline s p t y x)|].
  destruct (c =? 12); [by apply (case_cls s p t y x)|].
  destruct (c =? 8).
  { destruct (bool_decide_reflect (x = 0)%nat) as [->|Hne]; [apply wp_ret; by split|].
    rewrite (proj2 (Z.ltb_lt 0 (Z.of_nat x))) by lia. red. cbn [upd_display modify].
    split; [apply drawn_painted, drawn_display|]. replace (Z.of_nat x - 1) with (Z.of_nat (x - 1)) by lia.
    eapply draws_move; try done; lia. }
  destruct (c =? 13).
  { red. cbn [upd_display modify]. split; [apply drawn_painted, drawn_display|].
    apply (draws_move s p t y _ 0); try done; lia. }
  destruct (c =? 9); [by apply (case_tab s p t y x)|by apply (case_plain s p t y x)].
Qed.

(** ** vga_putc() *)

Lemma wp_init s p : shows s p -> wp init (fun _ s' => painted s s' /\ draws s' p) s.
Proof.
  intros (Hp & Hc & Hcur & Hi). unfold init. apply wp_bind. red. cbn [gets].
  destruct (inited (display s)) eqn:E; cbn [negb]; [apply wp_ret; split; [done|by apply Hi]|].
  apply wp_bind. red.
  change (ptov 0xb8000 s) with (@Ok (Z * dev H) (FB, s)). cbn iota beta.
  apply wp_bind. red. cbn [upd_display modify]. apply wp_bind.
  eapply wp_mono; [apply wp_find_cursor|]. intros r s1 [-> Hm]. cbn [hw set_display] in *. rewrite Hcur in *.
  apply wp_bind. red. cbn [upd_display modify]. red. cbn [upd_display modify]. split.
  - etrans; [apply drawn_painted, drawn_display|]. etrans; [by eapply cursor_painted|].
    etrans; apply drawn_painted, drawn_display.
  - destruct Hm as (h & -> & _). by split_and!.
Qed.

Lemma set_intr_same k : set_intr (intr k) (set_intr INTR_OFF k) = k.
Proof. by destruct k. Qed.

Lemma wp_vga_putc s p c : (intr (kern s) = INTR_ON -> in_external_intr (kern s) = false) -> shows s p -> in_u 8 c ->
  wp (vga_putc c) (fun _ s' => painted s s' /\ shows s' (print c p)) s.
Proof.
  intros Hx Hs Hc. pose proof (proj1 Hs) as Hp. unfold vga_putc. apply wp_bind, wp_on_kernel. red. cbn [intr_disable bind intr_get_level gets modify ret].
  set (s0 := set_kern (set_intr INTR_OFF (kern s)) s). apply wp_bind.
  eapply wp_mono; [apply (wp_init s0 p Hs)|]. intros [] s1 [Hp1 Hd1].
  apply wp_bind. eapply wp_mono; [by apply (wp_put_char s1 p c)|]. intros [] s2 [Hp2 Hd2].
  pose proof (print_ok c p Hp Hc) as Hok. destruct (paper_places _ Hok) as (t & y & x & _ & _ & _ & Hspot & Hy & Hx80 & _).
  pose proof Hd2 as (Hcells & _ & Ex & Ey & _). apply wp_bind.
  eapply wp_mono; [apply (wp_move_cursor s2 (spot (print c p)) Ex Ey); lia|]. intros [] s3 Hm.
  assert (Hp3 : painted s0 s3) by (etrans; [exact Hp1|]; etrans; [exact Hp2|]; by eapply cursor_painted).
  assert (Ek : kern s3 = set_intr INTR_OFF (kern s)) by (destruct Hp3 as (h & [_ ->] & _); done).
  apply wp_bind, wp_on_kernel. rewrite Ek. apply wp_intr_set_level; [exact Hx|]. apply wp_ret. rewrite set_intr_same. split.
  - destruct Hp3 as (h & [Hv E] & Hch & Hsc). exists h. split_and!; try done. split; [done|]. rewrite E. by destruct s.
  - destruct Hm as (h & -> & _ & _ & Hcur). by split_and!.
Qed.

(** Printing a text. *)
Fixpoint vga_puts (cs : list Z) : M (dev H) unit :=
  match cs with [] => ret tt | c :: cs => vga_putc c;; vga_puts cs end.

(** C15: The display is a window on the last 25 rows of an endless sheet of
    paper.  Whatever text is printed, with newlines, form feeds, backspaces,
    carriage returns and tabs, video memory then holds the rows that a printer
    would have last on its paper, in gray on black, and the hardware's cursor is
    where the next character goes; scrolling loses only the row that leaves the
    screen at the top.  This holds from the first character on, which the driver
    puts where the cursor was found.  The level of interrupts is restored, and
    nothing outside the screen is written. *)
Theorem vga_refines_paper cs s p : (intr (kern s) = INTR_ON -> in_external_intr (kern s) = false) ->
  shows s p -> Forall (in_u 8) cs ->
  exists s', vga_puts cs s = Ok (tt, s') /\ shows s' (foldl (fun p c => print c p) p cs) /\
    kern s' = kern s /\ chip (hw s') = chip (hw s) /\ scan (hw s') = scan (hw s) /\
    forall a, ~ FB <= a < FB + 4000 -> vmem s' !! a = vmem s !! a.
Proof.
  intros Hx Hs Hcs. assert (Hw : wp (vga_puts cs) (fun _ s' => painted s s' /\ shows s' (foldl (fun p c => print c p) p cs)) s).
  { revert s p Hx Hs. induction Hcs as [|c cs Hc _ IH]; intros s p Hx Hs; cbn [vga_puts foldl]; [by apply wp_ret|].
    apply wp_bind. eapply wp_mono; [by apply (wp_vga_putc s p c)|]. intros [] s1 [Hp1 Hs1].
    assert (Ek : kern s1 = kern s) by (destruct Hp1 as (h & [_ ->] & _); done).
    eapply wp_mono; [apply (IH s1 (print c p)); [by rewrite Ek|done]|]. intros [] s2 [Hp2 Hs2]. split; [by etrans|done]. }
  destruct (proj1 (wp_ok _ _ _) Hw) as ([] & s' & E & (h & [Hv Es] & Hch & Hsc) & Hs'). exists s'.
  split; [done|]. split; [done|]. rewrite Es. by split_and!.
Qed.
End Props.

(** A blank screen, with the cursor at the start of its last row. *)
Definition blank_paper : paper := mk_paper (replicate screen blank) (Z.to_nat 1920).

Definition blank_screen : dev sim := mk_dev
  (mk_kstate ∅ ∅ ∅ ∅ 0 INTR_ON false false 0 0 1 0 0 0 0 (mk_pools (mk_pool 0 (mk_bitmap 0 [])) (mk_pool 0 (mk_bitmap 0 []))))
  (mk_sim (mk_uart [] [] true false false 1 0 0 8) (mk_crtc 0 1920) [] 0)
  (write ∅ FB (bytes_of_cells (replicate screen blank)))
  (mk_kbd false false false false false false false 0) (mk_vga 0 0 0 false) (mk_con false 0 0) POLL
  (mk_intq 0 NULL NULL [] 0 0) (mk_intq 0 NULL NULL [] 0 0) (mk_itable [] [] [] 0 []).

Lemma blank_shown : shows blank_screen blank_paper.
Proof.
  pose proof screen_eq. split_and!.
  - apply (paper_ok_intro _ _ 0); rewrite ?length_replicate; try lia. apply Forall_replicate. unfold in_u. cbn. lia.
  - unfold blank_paper, top. cbn [sheet]. rewrite length_replicate, Nat.sub_diag. apply cells_written.
  - unfold spot, top, blank_paper. cbn [sheet pos]. rewrite length_replicate, Nat.sub_diag. reflexivity.
  - done.
Qed.

(** "A" and a newline scroll the screen: the letter is in the row above. *)
Lemma vga_refines_paper_witness : exists s', vga_puts [65; 10] blank_screen = Ok (tt, s') /\
  vmem s' !! (FB + 2 * 1840) = Some 65 /\ cursor (crt (hw s')) = 1920.
Proof.
  destruct (vga_refines_paper (pc := sim_pc) [65; 10] blank_screen blank_paper) as (s' & E & (_ & Hc & Hcur & _) & _).
  - done.
  - exact blank_shown.
  - repeat constructor; lia.
  - exists s'. split; [exact E|]. split; [|rewrite Hcur; vm_compute; reflexivity].
    assert (El : drop (top (foldl (fun p c => print c p) blank_paper [65; 10])) (sheet (foldl (fun p c => print c p) blank_paper [65; 10]))
      !! Z.to_nat 1840 = Some (65, 7)) by (vm_compute; reflexivity).
    destruct (Hc _ _ _ El) as [A _]. exact A.
Defined.
