(* ===== verification/Console.v ===== *)
(** * lib/kernel/console.c: the console

    The functions, and then what is printed. *)

From Stdlib Require Import ZArith Lia.
From stdpp Require Import base numbers gmap list strings.
From S2P Require Import Prelude DList Bitmap Vaddr Palloc Kernel Thread Synch Boot KInv KSched KSynch KProps Bytes StrLib Gdt Idt DevBase PcHardware Serial SerialOps Kbd DevMachine Vga VgaProps.

Open Scope Z_scope.

(** * The code

    Output that goes to both the serial port and the display, under a lock that
    its holder may take again.  Strings are lists of characters. *)

(** Where the lock is. *)
Class ConsoleImage := { console_lock : Z }.

Definition set_use_console_lock v c := mk_con v (console_lock_depth c) (write_cnt c).
Definition set_console_lock_depth v c := mk_con (use_console_lock c) v (write_cnt c).
Definition set_write_cnt v c := mk_con (use_console_lock c) (console_lock_depth c) v.

Section Code.
Context {image : Image} {stubs : Stubs} {cimage : ConsoleImage} {H : Type} {ports : Ports H}.

Definition upd_console (f : con -> con) : M (dev H) unit := modify (fun s => set_console (f (console s)) s).

Definition console_init : M (dev H) unit :=
  on_kernel (lock_init console_lock);;
  upd_console (set_use_console_lock true).

Definition console_panic : M (dev H) unit := upd_console (set_use_console_lock false).

(** [!intr_context () && use_console_lock]. *)
Definition locking : M (dev H) bool :=
  c ← on_kernel intr_context;
  if negb c then s ← get; ret (use_console_lock (console s)) else ret false.

Definition acquire_console : dcode H unit :=
  b ⇐ dprim locking;
  if b : bool then
    held ⇐ dprim (on_kernel (lock_held_by_current_thread console_lock));
    if held : bool
    then dprim (upd_console (fun c => set_console_lock_depth (i32 (console_lock_depth c + 1)) c))
    else lift (lock_acquire console_lock)
  else DRet tt.

Definition release_console : dcode H unit :=
  b ⇐ dprim locking;
  if b : bool then
    depth ⇐ dprim (s ← get; ret (console_lock_depth (console s)));
    if 0 <? depth
    then dprim (upd_console (fun c => set_console_lock_depth (i32 (console_lock_depth c - 1)) c))
    else lift (lock_release console_lock)
  else DRet tt.

Definition console_locked_by_current_thread : M (dev H) bool :=
  c ← on_kernel intr_context;
  s ← get;
  if c || negb (use_console_lock (console s)) then ret true
  else on_kernel (lock_held_by_current_thread console_lock).

Definition putchar_have_lock (c : Z) : dcode H unit :=
  dprim (b ← console_locked_by_current_thread; ASSERT b) ⨾
  dprim (upd_console (fun c => set_write_cnt (i64 (write_cnt c + 1)) c)) ⨾
  serial_putc c ⨾
  dprim (vga_putc c).

(** The loops of puts() and putbuf(). *)
Fixpoint put_all (cs : list Z) : dcode H unit :=
  match cs with [] => DRet tt | c :: cs => putchar_have_lock c ⨾ put_all cs end.

Definition puts (s : list Z) : dcode H Z :=
  acquire_console ⨾
  put_all s ⨾
  putchar_have_lock 10 ⨾
  release_console ⨾
  DRet 0.

Definition putbuf (buffer : list Z) : dcode H unit :=
  acquire_console ⨾
  put_all buffer ⨾
  release_console.

Definition putchar (c : Z) : dcode H Z :=
  acquire_console ⨾
  putchar_have_lock (u8 c) ⨾
  release_console ⨾
  DRet c.
End Code.

(** * What is printed on the console *)

Section Lock.
Context {image : Image} {H : Type} {ports : Ports H}.
Implicit Types s : dev H.

(** A thread runs. *)
Definition running (k : kstate) : Prop :=
  in_external_intr k = false /\ 0 < cur k /\ exists th, threads k !! cur k = Some th /\
    magic th = THREAD_MAGIC /\ status th = THREAD_RUNNING.

(** Lock [l] is free, and when its thread has taken it. *)
Definition free_lock (l : Z) (k : kstate) : Prop :=
  0 < l /\ locks k !! l = Some NULL /\ semas k !! lock_semaphore l = Some 1 /\ dll (lmem k) (waiters (lock_semaphore l)) [].
Definition taken (l : Z) (k : kstate) : kstate :=
  set_locks (<[l := cur k]> (locks k)) (set_semas (<[lock_semaphore l := 0]> (semas k)) k).

Lemma wp_current k (Q : Z -> kstate -> Prop) : running k -> Q (cur k) k -> wp thread_current Q k.
Proof. intros (_ & Hc & th & E & Hm & Hs) HQ. by eapply wp_thread_current. Qed.

Lemma wp_held l h k (Q : bool -> kstate -> Prop) : running k -> 0 < l -> locks k !! l = Some h -> Q (h =? cur k) k ->
  wp (lock_held_by_current_thread l) Q k.
Proof.
  intros Hr Hl E HQ. unfold lock_held_by_current_thread. apply wp_bind, wp_assertb.
  { apply negb_true_iff, Z.eqb_neq. unfold NULL. lia. }
  apply wp_bind. eapply wp_get_holder; [done|]. apply wp_bind, wp_current; [done|]. by apply wp_ret.
Qed.

Lemma fin_acquire l s : running (kern s) -> free_lock l (kern s) ->
  fin (lift (lock_acquire l)) (fun _ s' => s' = set_kern (taken l (kern s)) s) s.
Proof.
  intros Hr (Hl & Eh & Ev & _). pose proof Hr as (Hx & Hc & _). set (k := kern s) in *.
  assert (Hnz : forall z, 0 < z -> negb (z =? NULL) = true) by (intros z Hz; apply negb_true_iff, Z.eqb_neq; unfold NULL; lia).
  apply fin_prim_k, wp_on_kernel. apply wp_bind, wp_assertb; [by apply Hnz|]. apply wp_bind. red. cbn [intr_context gets].
  fold k. rewrite Hx. apply wp_bind, wp_assertb; [done|]. apply wp_bind. eapply wp_held; [done..|].
  apply wp_assertb; [apply negb_true_iff, Z.eqb_neq; unfold NULL; fold k; lia|]. cbn [dbind cbind lift sema_down prim].
  apply fin_prim_k, wp_on_kernel. cbn [kern set_kern]. apply wp_bind, wp_assertb; [apply Hnz; unfold lock_semaphore; lia|].
  apply wp_bind. red. cbn [intr_context gets]. fold k. rewrite Hx. apply wp_bind, wp_assertb; [done|].
  red. cbn [intr_disable bind intr_get_level gets modify ret]. cbn [dbind cbind lift].
  apply fin_while_skip, wp_on_kernel. cbn [kern set_kern]. apply wp_bind. eapply wp_get_value; [exact Ev|]. apply wp_ret.
  split; [done|]. apply fin_prim_k, wp_on_kernel. cbn [kern set_kern]. apply wp_bind. eapply wp_get_value; [exact Ev|].
  apply wp_bind. eapply wp_set_value; [exact Ev|]. apply wp_bind, wp_intr_set_level; [intros _; exact Hx|]. apply wp_ret.
  cbn [dbind cbind lift]. apply fin_prim_k, wp_on_kernel. cbn [kern set_kern].
  apply wp_bind, wp_current; [done|]. eapply wp_set_holder; [exact Eh|]. apply fin_ret. subst k. by destruct s as [[] ? ? ? ? ? ? ? ? ?].
Qed.

(** Releasing it gives the state before. *)
Lemma fin_release l s k : kern s = taken l k -> running k -> free_lock l k ->
  fin (lift (lock_release l)) (fun _ s' => s' = set_kern k s) s.
Proof.
  intros Ek Hr (Hl & Eh & Ev & Hw). pose proof Hr as (Hx & Hc & _).
  assert (Hnz : forall z, 0 < z -> negb (z =? NULL) = true) by (intros z Hz; apply negb_true_iff, Z.eqb_neq; unfold NULL; lia).
  assert (Hr' : running (taken l k)) by exact Hr.
  apply fin_prim_k, wp_on_kernel. rewrite Ek. apply wp_bind, wp_assertb; [by apply Hnz|].
  apply wp_bind. eapply wp_held; [done..|cbn; by rewrite lookup_insert_eq|]. apply wp_assertb; [by apply Z.eqb_eq|].
  cbn [dbind cbind lift]. apply fin_prim_k, wp_on_kernel. cbn [kern set_kern].
  eapply wp_set_holder; [cbn; by rewrite lookup_insert_eq|]. cbn [dbind cbind lift].
  apply fin_prim_k, wp_on_kernel. cbn [kern set_kern]. unfold sema_up.
  apply wp_bind, wp_assertb; [apply Hnz; unfold lock_semaphore; lia|]. apply wp_bind. red.
  cbn [intr_disable bind intr_get_level gets modify ret]. apply wp_bind, wp_on_lists.
  eapply wp_list_empty; [exact Hw|]. cbn [bool_decide negb]. rewrite bool_decide_eq_true_2 by done. cbn [negb].
  apply wp_bind, wp_ret. apply wp_bind. eapply wp_get_value; [cbn; by rewrite lookup_insert_eq|].
  apply wp_bind. eapply wp_set_value; [cbn; by rewrite lookup_insert_eq|]. apply wp_bind, wp_intr_set_level.
  { intros E. exact Hx. }
  apply wp_ret, fin_ret. change (u32 (0 + 1)) with 1. destruct k as [lm th se lo]. cbn in *. unfold set_kern. cbn.
  rewrite !insert_insert_eq, (insert_id se), (insert_id lo) by done. done.
Qed.
End Lock.

Section Console.
Context {image : Image} {cimage : ConsoleImage} {H : Type} {ports : Ports H} {pc : PC H}.
Implicit Types s : dev H.

(** ** One character *)

(** The console lock is not used: in an interrupt handler, early during boot,
    or in a panic. *)
Definition unlocked s : Prop := in_external_intr (kern s) = true \/ use_console_lock (console s) = false.

Definition have_lock s : Prop :=
  unlocked s \/ 0 < console_lock /\ running (kern s) /\ locks (kern s) !! console_lock = Some (cur (kern s)).

(** The devices accept a character at once: the serial port is polled, or
    interrupts are off. *)
Definition accepts s : Prop :=
  dlab (chip (hw s)) = false /\ (intr (kern s) = INTR_ON -> in_external_intr (kern s) = false) /\
  (mode s = POLL /\ contents (txq s) = [] \/
   mode s = QUEUE /\ intr (kern s) = INTR_OFF /\ dev_ok s /\ Forall (in_u 8) (contents (txq s))).

(** After the text [cs]. *)
Record printed (cs : list Z) (p : paper) s s' : Prop := {
  pr_accepts : accepts s';
  pr_shows : shows s' (foldl (fun p c => print c p) p cs);
  pr_out : out_stream s' = out_stream s ++ cs;
  pr_in : in_stream s' = in_stream s;
  pr_console : console s' = set_write_cnt (i64 (write_cnt (console s) + Z.of_nat (length cs))) (console s);
  pr_mode : mode s' = mode s;
  pr_kern : only_wakes (kern s) (kern s') /\ intr (kern s') = intr (kern s) /\
    in_external_intr (kern s') = in_external_intr (kern s);
  pr_poll : mode s = POLL -> kern s' = kern s }.

Lemma shows_kept s s' p : kept s s' -> shows s p -> shows s' p.
Proof.
  intros Hk. destruct (kp_hw _ _ Hk) as [Ec _]. unfold shows, draws.
  by rewrite (kp_vmem _ _ Hk), (kp_display _ _ Hk), Ec.
Qed.

Lemma wp_locked s (Q : unit -> dev H -> Prop) : have_lock s -> Q tt s ->
  wp (b ← console_locked_by_current_thread; ASSERT b) Q s.
Proof.
  intros Hl HQ. apply wp_bind, wp_bind, wp_on_kernel. red. cbn [intr_context gets].
  replace (set_kern (kern s) s) with s by by destruct s. apply wp_bind. red. cbn [get].
  destruct (in_external_intr (kern s) || negb (use_console_lock (console s))) eqn:E.
  { apply wp_ret. by apply wp_assertb. }
  apply orb_false_elim in E as [E1 E2%negb_false_iff].
  destruct Hl as [[?|?]|(H0 & Hr & El)]; [congruence..|]. apply wp_on_kernel. eapply wp_held; [done..|].
  replace (set_kern (kern s) s) with s by by destruct s. apply wp_assertb; [by apply Z.eqb_eq|done].
Qed.

Lemma accepts_painted s s' : painted s s' -> accepts s -> accepts s'.
Proof. intros (h & [_ ->] & Ec & _) Ha. unfold accepts in *. cbn. by rewrite Ec. Qed.

(** The serial port's part. *)
Lemma fin_serial_accepts c s : accepts s -> in_u 8 c ->
  fin (serial_putc c) (fun _ s' => accepts s' /\ kept s s' /\ out_stream s' = out_stream s ++ [c] /\
    in_stream s' = in_stream s /\ (mode s = POLL -> kern s' = kern s)) s.
Proof.
  intros (Hd & Hx & [[Em Et]|(Em & Hi & Hok & Hb)]) Hc; unfold out_stream, in_stream.
  - eapply fin_mono; [by apply fin_serial_putc_poll|]. intros [] s' (Hk & Ek & Et' & Eb & Ei & El).
    rewrite Et', Et, El, Eb, Ei, !app_nil_r. split_and!; try done.
    unfold accepts. rewrite (kp_dlab _ _ Hk), (kp_intr _ _ Hk), (kp_context _ _ Hk), (kp_mode _ _ Hk), Et'.
    split_and!; [done|done|by left].
  - eapply fin_mono; [apply fin_serial_putc_queue; try done; [|by rewrite Hi]|].
    { split; [done|]. destruct Hok as (_ & ?). by split. }
    intros [] s' (Hr & Hk & _ & Eb & Ei & t & Et & El). split_and!; try done; try congruence.
    + split; [by rewrite (kp_dlab _ _ Hk)|]. rewrite (kp_intr _ _ Hk), (kp_context _ _ Hk), (kp_mode _ _ Hk).
      split; [done|]. right. split_and!; try done.
      * destruct Hr as [_ (_ & ?)]. by split; [rewrite (kp_intr _ _ Hk)|].
      * assert (Hb' : Forall (in_u 8) (contents (txq s) ++ [c])) by (apply Forall_app; split; [done|by constructor]).
        rewrite Et in Hb'. by apply Forall_app in Hb' as [_ ?].
    + by rewrite El, <- !app_assoc, Et.
Qed.

Lemma fin_putchar_have_lock c s p : accepts s -> shows s p -> have_lock s -> in_u 8 c ->
  fin (putchar_have_lock c) (fun _ s' => printed [c] p s s') s.
Proof.
  intros Ha Hs Hl Hc. apply fin_prim_k, wp_locked; [done|]. cbn [dbind]. apply fin_prim_k. red. cbn [upd_console modify].
  cbn [dbind]. set (s0 := set_console _ s). apply fin_bind. eapply fin_mono; [by apply (fin_serial_accepts c s0)|].
  intros [] s1 (Ha1 & Hk & Eo & Ei & Ek). apply fin_prim.
  eapply wp_mono; [apply (wp_vga_putc s1 p c); [apply Ha1|by apply (shows_kept s0)|done]|].
  intros [] s2 [Hp Hs2]. pose proof (accepts_painted _ _ Hp Ha1) as Ha2. destruct Hp as (h & [_ E] & Ec & _).
  destruct Hk as [Kk Ki Kc _ _ _ _ _ Kcon Km _]. rewrite E in Hs2, Ha2 |- *.
  split; cbn [kern console mode hw set_vmem set_display set_hw]; try done.
  - change (out_stream s) with (out_stream s0). rewrite <- Eo. unfold out_stream. cbn. by rewrite Ec.
  - change (in_stream s) with (in_stream s0). rewrite <- Ei. unfold in_stream. cbn. by rewrite Ec.
Qed.

(** ** A text *)

Lemma have_lock_printed cs p s s' : printed cs p s s' -> (mode s = QUEUE -> unlocked s) -> accepts s ->
  have_lock s -> have_lock s' /\ (mode s' = QUEUE -> unlocked s').
Proof.
  intros Hpr Hq Ha Hl. destruct (pr_kern _ _ _ _ Hpr) as (_ & _ & Ex).
  assert (Hu : unlocked s -> unlocked s') by (unfold unlocked; by rewrite Ex, (pr_console _ _ _ _ Hpr)).
  split; [|rewrite (pr_mode _ _ _ _ Hpr); auto].
  destruct Ha as (_ & _ & [[Em _]|[Em _]]); [|left; auto].
  destruct Hl as [Hl|Hl]; [left; auto|right]. by rewrite (pr_poll _ _ _ _ Hpr Em).
Qed.

Lemma printed_nil p s : accepts s -> shows s p -> in_s 64 (write_cnt (console s)) -> printed [] p s s.
Proof.
  intros Ha Hs Hw. split; try done; rewrite ?app_nil_r; try done. cbn. rewrite Z.add_0_r, swrap_small by (done || lia).
  by destruct (console s).
Qed.

Lemma printed_app cs1 cs2 p s1 s2 s3 : printed cs1 p s1 s2 ->
  printed cs2 (foldl (fun p c => print c p) p cs1) s2 s3 -> printed (cs1 ++ cs2) p s1 s3.
Proof.
  intros [A1 A2 A3 A4 A5 A6 (A7 & A8 & A9) A10] [B1 B2 B3 B4 B5 B6 (B7 & B8 & B9) B10]. split; try congruence; try done.
  - by rewrite foldl_app.
  - by rewrite B3, A3, app_assoc.
  - rewrite B5, A5. cbn. unfold set_write_cnt. cbn. f_equal. rewrite i64_succ, length_app. f_equal. lia.
  - split_and!; [|congruence..]. unfold only_wakes in *. by etrans.
  - intros Em. rewrite B10, A10 by congruence. done.
Qed.

Lemma fin_put_all cs : forall s p, accepts s -> shows s p -> have_lock s -> (mode s = QUEUE -> unlocked s) ->
  Forall (in_u 8) cs -> in_s 64 (write_cnt (console s)) -> fin (put_all cs) (fun _ s' => printed cs p s s') s.
Proof.
  induction cs as [|c cs IH]; intros s p Ha Hs Hl Hq Hcs Hw; cbn [put_all]; [apply fin_ret; by apply printed_nil|].
  apply Forall_cons in Hcs as [Hc Hcs]. apply fin_bind. eapply fin_mono; [by apply (fin_putchar_have_lock c s p)|].
  intros [] s1 Hpr. destruct (have_lock_printed _ _ _ _ Hpr Hq Ha Hl) as [Hl1 Hq1].
  eapply fin_mono; [apply (IH s1 (print c p)); try done; [apply Hpr|apply (pr_shows _ _ _ _ Hpr)|]|].
  - rewrite (pr_console _ _ _ _ Hpr). cbn. apply swrap_range. lia.
  - intros [] s2 Hpr2. exact (printed_app [c] cs p s s1 s2 Hpr Hpr2).
Qed.

(** ** The lock around it *)

Lemma wp_locking s (Q : bool -> dev H -> Prop) :
  Q (negb (in_external_intr (kern s)) && use_console_lock (console s)) s -> wp locking Q s.
Proof.
  intros HQ. apply wp_bind, wp_on_kernel. red. cbn [intr_context gets].
  replace (set_kern (kern s) s) with s by by destruct s. by destruct (in_external_intr (kern s)).
Qed.

(** The lock is not used, or free, or this thread has it. *)
Definition lockable s : Prop :=
  unlocked s \/
  mode s = POLL /\ running (kern s) /\ use_console_lock (console s) = true /\ 0 < console_lock /\
  (free_lock console_lock (kern s) /\ console_lock_depth (console s) = 0 \/
   locks (kern s) !! console_lock = Some (cur (kern s)) /\ 0 <= console_lock_depth (console s) < 2 ^ 31 - 1).

(** What is printed does not depend on who holds the lock and how often. *)
Lemma printed_under cs p s s1 k d : mode s = POLL -> intr k = intr (kern s) ->
  in_external_intr k = in_external_intr (kern s) -> accepts s ->
  printed cs p (set_console (set_console_lock_depth d (console s)) (set_kern k s)) s1 ->
  printed cs p s (set_console (set_console_lock_depth (console_lock_depth (console s)) (console s1)) (set_kern (kern s) s1)).
Proof.
  intros Em Hi Hx Ha [A1 A2 A3 A4 A5 A6 _ A8]. cbn in *. specialize (A8 Em).
  destruct A1 as (Hd & _ & [[Em1 Ht]|[Em1 _]]); [|congruence].
  split; try done; cbn; [|by rewrite A5].
  split; [done|]. split; [apply Ha|]. by left.
Qed.

(** After acquire_console() in state [s]: characters can be printed, and then
    release_console() leaves the lock as it was in [s]. *)
Definition opened s p t : Prop :=
  accepts t /\ shows t p /\ have_lock t /\ (mode t = QUEUE -> unlocked t) /\
  write_cnt (console t) = write_cnt (console s) /\
  forall cs t', printed cs p t t' -> fin release_console (fun _ s' => printed cs p s s') t'.

Section Acquire.
Variables (s : dev H) (p : paper).
Hypotheses (Ha : accepts s) (Hs : shows s p).

Lemma fin_acquire_unlocked : unlocked s -> fin acquire_console (fun _ t => opened s p t) s.
Proof using Ha Hs.
  intros Hu. apply fin_prim_k, wp_locking. cbn [dbind].
  assert (E : negb (in_external_intr (kern s)) && use_console_lock (console s) = false).
  { destruct Hu as [->| ->]; [done|apply andb_false_r]. }
  rewrite E. apply fin_ret. split_and!; try done; [by left|]. intros cs s1 Hpr.
  apply fin_prim_k, wp_locking. destruct (pr_kern _ _ _ _ Hpr) as (_ & _ & Ex).
  rewrite Ex, (pr_console _ _ _ _ Hpr). cbn [use_console_lock set_write_cnt dbind]. rewrite E. by apply fin_ret.
Qed.

Hypotheses (Em : mode s = POLL) (Hr : running (kern s)) (Eu : use_console_lock (console s) = true) (H0 : 0 < console_lock).

(** release_console(), when what was printed left the lock in use. *)
Lemma fin_release_console s1 (Q : unit -> dev H -> Prop) : in_external_intr (kern s1) = false ->
  use_console_lock (console s1) = true ->
  fin (if 0 <? console_lock_depth (console s1)
       then dprim (upd_console (fun c => set_console_lock_depth (i32 (console_lock_depth c - 1)) c))
       else lift (lock_release console_lock)) Q s1 -> fin release_console Q s1.
Proof using Type.
  intros Ex Eu1 HQ. apply fin_prim_k, wp_locking. rewrite Ex, Eu1. cbn [negb andb dbind].
  apply fin_prim_k. exact HQ.
Qed.

Lemma fin_acquire_free : free_lock console_lock (kern s) -> console_lock_depth (console s) = 0 ->
  fin acquire_console (fun _ t => opened s p t) s.
Proof using Ha Hs Em Hr Eu H0.
  intros Hf Ed. pose proof Hr as (Hx & Hcur & _). pose proof Hf as (_ & Eh & _).
  apply fin_prim_k, wp_locking. rewrite Hx, Eu. cbn [negb andb dbind].
  apply fin_prim_k, wp_on_kernel. eapply wp_held; [done..|].
  rewrite (proj2 (Z.eqb_neq NULL (cur (kern s)))) by (unfold NULL; lia). cbn [dbind].
  replace (set_kern (kern s) s) with s by by destruct s. eapply fin_mono; [by apply fin_acquire|]. intros [] s0 ->.
  split_and!; try done; [right; split; [done|]; split; [exact Hr|cbn; by rewrite lookup_insert_eq]|cbn; congruence|].
  intros cs s1 Hpr. pose proof (pr_poll _ _ _ _ Hpr Em) as Ek. pose proof (pr_console _ _ _ _ Hpr) as Ec. cbn in Ek, Ec.
  apply fin_release_console; [by rewrite Ek|by rewrite Ec|]. rewrite Ec. cbn [console_lock_depth set_write_cnt]. rewrite Ed.
  eapply fin_mono; [by apply (fin_release console_lock s1 (kern s))|]. intros [] s2 ->.
  pose proof (printed_under cs p s s1 (taken console_lock (kern s)) (console_lock_depth (console s)) Em eq_refl eq_refl Ha) as Hu.
  replace (set_console (set_console_lock_depth (console_lock_depth (console s)) (console s)) (set_kern (taken console_lock (kern s)) s))
    with (set_kern (taken console_lock (kern s)) s) in Hu by (destruct s as [? ? ? ? ? [] ? ? ? ?]; done).
  specialize (Hu Hpr). rewrite Ec in Hu. replace (set_kern (kern s) s1) with (set_console (console s1) (set_kern (kern s) s1)) by by destruct s1.
  rewrite Ec. exact Hu.
Qed.

Lemma fin_acquire_held : locks (kern s) !! console_lock = Some (cur (kern s)) -> 0 <= console_lock_depth (console s) < 2 ^ 31 - 1 ->
  fin acquire_console (fun _ t => opened s p t) s.
Proof using Ha Hs Em Hr Eu H0.
  intros Eh Hd. pose proof Hr as (Hx & Hcur & _).
  apply fin_prim_k, wp_locking. rewrite Hx, Eu. cbn [negb andb dbind].
  apply fin_prim_k, wp_on_kernel. eapply wp_held; [done..|]. rewrite Z.eqb_refl. cbn [dbind].
  replace (set_kern (kern s) s) with s by by destruct s. apply fin_prim. red. cbn [upd_console modify].
  rewrite swrap_small by (unfold in_s; lia). set (s0 := set_console _ s).
  split_and!; try done; [by right|cbn; congruence|].
  intros cs s1 Hpr. pose proof (pr_poll _ _ _ _ Hpr Em) as Ek. pose proof (pr_console _ _ _ _ Hpr) as Ec. cbn in Ek, Ec.
  apply fin_release_console; [by rewrite Ek|by rewrite Ec|]. rewrite Ec. cbn [console_lock_depth set_write_cnt set_console_lock_depth].
  rewrite (proj2 (Z.ltb_lt 0 (console_lock_depth (console s) + 1))) by lia.
  apply fin_prim. red. cbn [upd_console modify]. rewrite Ec. cbn [console_lock_depth set_write_cnt set_console_lock_depth].
  replace (i32 (console_lock_depth (console s) + 1 - 1)) with (console_lock_depth (console s)) by (rewrite swrap_small; unfold in_s; lia).
  pose proof (printed_under cs p s s1 (kern s) (console_lock_depth (console s) + 1) Em eq_refl eq_refl Ha) as Hu.
  replace (set_kern (kern s) s) with s in Hu by by destruct s. specialize (Hu Hpr).
  rewrite Ec, <- Ek in Hu. replace (set_kern (kern s1) s1) with s1 in Hu by by destruct s1. exact Hu.
Qed.
End Acquire.

Lemma fin_acquire_console s p : accepts s -> shows s p -> lockable s -> fin acquire_console (fun _ t => opened s p t) s.
Proof.
  intros Ha Hs [Hu|(Em & Hr & Eu & H0 & [[Hf Ed]|[Eh Hd]])].
  - by apply fin_acquire_unlocked.
  - by apply fin_acquire_free.
  - by apply fin_acquire_held.
Qed.

End Console.

(** A panic while the queue to the serial port is full. *)
#[global] Instance demo_console : ConsoleImage := {| console_lock := 0xc0020180 |}.

Definition panicking : dev sim :=
  set_vmem (vmem blank_screen)
  (set_hw (mk_sim (mk_uart [] [] true false false 1 0 0 8) (mk_crtc 0 1920) [] 5) (desk INTR_OFF [])).

