(* ===== verification/AtaHardware.v ===== *)
(** * ATA channels

    What the disk driver relies on of the hardware, and then a hardware that
    behaves so. *)

From Stdlib Require Import ZArith Lia.
From stdpp Require Import base numbers gmap list.
From S2P Require Import Prelude.

Open Scope Z_scope.

(** * What the disk driver relies on of the hardware

    An ATA channel with up to two drives, as seen through its registers: the
    part of the protocol for programmed input and output that the driver uses.
    Drivers are verified against the interface [ATA]. *)

(** A drive holds sectors of 256 words, and identifies itself by 256 words. *)
Record drive := mk_drive { sectors : gmap Z (list Z); ident : list Z }.

(** What the channel is doing: nothing, handing out the rest of a sector, or
    taking in the words of a sector that is to be written. *)
Inductive phase := Idle | Reading (ws : list Z) | Writing (slave : bool) (lba : Z) (ws : list Z).

(** The registers, the two drives, and whether an interrupt is asked for. *)
Record ata := mk_ata { r_error : Z; r_nsect : Z; r_lbal : Z; r_lbam : Z; r_lbah : Z; r_device : Z; ph : phase; intrq : bool;
  master : option drive; slave : option drive }.

Definition set_ph p a := mk_ata (r_error a) (r_nsect a) (r_lbal a) (r_lbam a) (r_lbah a) (r_device a) p (intrq a) (master a) (slave a).
Definition set_error e a := mk_ata e (r_nsect a) (r_lbal a) (r_lbam a) (r_lbah a) (r_device a) (ph a) (intrq a) (master a) (slave a).
Definition set_intrq b a := mk_ata (r_error a) (r_nsect a) (r_lbal a) (r_lbam a) (r_lbah a) (r_device a) (ph a) b (master a) (slave a).
Definition drive_of (b : bool) (a : ata) : option drive := if b then slave a else master a.
Definition set_drive (b : bool) (d : drive) (a : ata) : ata :=
  if b then mk_ata (r_error a) (r_nsect a) (r_lbal a) (r_lbam a) (r_lbah a) (r_device a) (ph a) (intrq a) (master a) (Some d)
  else mk_ata (r_error a) (r_nsect a) (r_lbal a) (r_lbam a) (r_lbah a) (r_device a) (ph a) (intrq a) (Some d) (slave a).

(** The drive and the sector that the registers select. *)
Definition selected (a : ata) : bool := Z.testbit (r_device a) 4.
Definition lba (a : ata) : Z := r_lbal a + 2 ^ 8 * r_lbam a + 2 ^ 16 * r_lbah a + 2 ^ 24 * (r_device a mod 16).

(** Data are ready to be transferred. *)
Definition drq (a : ata) : bool := match ph a with Idle => false | _ => true end.

(** A command, which clears the error.  Reading answers with an interrupt; writing asks for data first. *)
Definition command (v : Z) (a : ata) : ata :=
  let a := set_error 0 a in
  match drive_of (selected a) a with
  | None => a
  | Some d =>
      if v =? 0xec then set_intrq true (set_ph (Reading (ident d)) a)
      else if v =? 0x20 then
        match sectors d !! lba a with Some ws => set_intrq true (set_ph (Reading ws) a) | None => a end
      else if v =? 0x30 then
        match sectors d !! lba a with Some _ => set_ph (Writing (selected a) (lba a) []) a | None => a end
      else a
  end.

(** A soft reset leaves the signature of a disk in the registers. *)
Definition reset (a : ata) : ata := mk_ata 1 1 1 0 0 0 Idle false (master a) (slave a).

(** Writing register [r], an offset from the base of the channel. *)
Definition ata_out (r v : Z) (a : ata) : ata :=
  if r =? 2 then mk_ata (r_error a) v (r_lbal a) (r_lbam a) (r_lbah a) (r_device a) (ph a) (intrq a) (master a) (slave a)
  else if r =? 3 then mk_ata (r_error a) (r_nsect a) v (r_lbam a) (r_lbah a) (r_device a) (ph a) (intrq a) (master a) (slave a)
  else if r =? 4 then mk_ata (r_error a) (r_nsect a) (r_lbal a) v (r_lbah a) (r_device a) (ph a) (intrq a) (master a) (slave a)
  else if r =? 5 then mk_ata (r_error a) (r_nsect a) (r_lbal a) (r_lbam a) v (r_device a) (ph a) (intrq a) (master a) (slave a)
  else if r =? 6 then mk_ata (r_error a) (r_nsect a) (r_lbal a) (r_lbam a) (r_lbah a) v (ph a) (intrq a) (master a) (slave a)
  else if r =? 7 then command v a
  else if r =? 0x206 then if Z.testbit v 2 then reset a else a
  else a.

(** A word from the data register. *)
Definition ata_take (a : ata) : option (Z * ata) :=
  match ph a with
  | Reading (w :: ws) => Some (w, set_ph (match ws with [] => Idle | _ => Reading ws end) a)
  | _ => None
  end.

(** A word to the data register: the last one completes the sector. *)
Definition ata_put (v : Z) (a : ata) : ata :=
  match ph a with
  | Writing b n ws =>
      let ws' := ws ++ [v] in
      if decide (length ws' = Z.to_nat 256) then
        match drive_of b a with
        | Some d => set_intrq true (set_ph Idle (set_drive b (mk_drive (<[n := ws']> (sectors d)) (ident d)) a))
        | None => a
        end
      else set_ph (Writing b n ws') a
  | _ => a
  end.

(** ** The interface *)

(** The instructions on a hardware with several channels, by base port. *)
Class AtaPorts (H : Type) := {
  io_inb : Z -> H -> Z * H;
  io_outb : Z -> Z -> H -> H;
  io_inw : Z -> H -> Z * H;
  io_outw : Z -> Z -> H -> H;
  until_irq : Z -> H -> H }.        (* time passes until the channel interrupts *)

Definition bases : list Z := [0x1f0; 0x170].

(** The registers of the command block, and the control register. *)
Definition offsets : list Z := [1; 2; 3; 4; 5; 6; 7; 0x206].

(** A channel with no drive at all floats: what is read from it is only known
    not to be the status of a drive that is ready. *)
Definition populated (a : ata) : Prop := is_Some (master a) \/ is_Some (slave a).

(** [settle b h] bounds how often the status will still show the channel busy;
    a command, or the last word of a sector, may make it busy, for less than
    the 30 seconds that the standard allows. *)
Class ATA (H : Type) `{AtaPorts H} := {
  chan : Z -> H -> ata;
  settle : Z -> H -> nat;
  max_settle : nat;
  max_settle_ok : (max_settle < Z.to_nat 3000)%nat;
  outb_chan : forall b r v h, b ∈ bases -> r ∈ offsets -> in_u 8 v ->
    chan b (io_outb (b + r) v h) = ata_out r v (chan b h) /\
    (settle b (io_outb (b + r) v h) <= (if decide (r = 7 \/ r = 0x206)%Z then max_settle else settle b h))%nat;
  inb_status : forall b r h, b ∈ bases -> r = 7 \/ r = 0x206 ->
    let v := (io_inb (b + r) h).1 in
    let h' := (io_inb (b + r) h).2 in
    chan b h' = (if r =? 7 then set_intrq false (chan b h) else chan b h) /\
    (populated (chan b h) ->
      (if Z.testbit v 7 then (settle b h' < settle b h)%nat
       else settle b h' = 0%nat /\ Z.testbit v 3 = drq (chan b h) /\
         Z.testbit v 6 = bool_decide (is_Some (drive_of (selected (chan b h)) (chan b h)))) /\
      (settle b h = 0%nat -> Z.testbit v 7 = false)) /\
    (~ populated (chan b h) -> Z.testbit v 7 = true \/ Z.testbit v 6 = false);
  inb_register : forall b r h, b ∈ bases -> r ∈ [1; 2; 3; 4; 5] ->
    chan b (io_inb (b + r) h).2 = chan b h /\ settle b (io_inb (b + r) h).2 = settle b h /\
    (settle b h = 0%nat -> is_Some (drive_of (selected (chan b h)) (chan b h)) -> (io_inb (b + r) h).1 =
       (if r =? 1 then r_error (chan b h) else if r =? 2 then r_nsect (chan b h) else if r =? 3 then r_lbal (chan b h)
        else if r =? 4 then r_lbam (chan b h) else r_lbah (chan b h)));
  inw_data : forall b h w a, b ∈ bases -> settle b h = 0%nat -> ata_take (chan b h) = Some (w, a) ->
    (io_inw b h).1 = w /\ chan b (io_inw b h).2 = a /\ settle b (io_inw b h).2 = 0%nat;
  outw_data : forall b v h, b ∈ bases -> settle b h = 0%nat -> in_u 16 v ->
    chan b (io_outw b v h) = ata_put v (chan b h) /\
    (drq (ata_put v (chan b h)) = true -> settle b (io_outw b v h) = 0%nat);
  until_chan : forall b h, b ∈ bases -> intrq (chan b h) = true ->
    chan b (until_irq b h) = chan b h /\ settle b (until_irq b h) = 0%nat;
  (* the channels do not influence each other *)
  other_chan : forall b b' h, b ∈ bases -> b' ∈ bases -> b' <> b ->
    (forall r v, r ∈ offsets -> chan b' (io_outb (b + r) v h) = chan b' h /\ settle b' (io_outb (b + r) v h) = settle b' h) /\
    (forall r, r ∈ offsets -> chan b' (io_inb (b + r) h).2 = chan b' h /\ settle b' (io_inb (b + r) h).2 = settle b' h) /\
    chan b' (io_inw b h).2 = chan b' h /\ settle b' (io_inw b h).2 = settle b' h /\
    (forall v, chan b' (io_outw b v h) = chan b' h /\ settle b' (io_outw b v h) = settle b' h) /\
    chan b' (until_irq b h) = chan b' h /\ settle b' (until_irq b h) = settle b' h }.

(** * A PC's disk hardware

    Two channels at the standard ports, each of which is busy for two readings
    of its status after a command.  It satisfies the interface [ATA]. *)

Record sim := mk_sim { first : ata * nat; second : ata * nat }.

(** The channel at a base, and the base and the register of a port. *)
Definition side (b : Z) (h : sim) : ata * nat := if b =? 0x1f0 then first h else second h.
Definition set_side (b : Z) (x : ata * nat) (h : sim) : sim :=
  if b =? 0x1f0 then mk_sim x (second h) else mk_sim (first h) x.
Definition base_of (port : Z) : Z :=
  if (0x1f0 <=? port) && (port <=? 0x1f7) || (port =? 0x3f6) then 0x1f0 else 0x170.
Definition reg_of (port : Z) : Z := port - base_of port.

Definition status (a : ata) : Z :=
  (if drq a then 8 else 0) + (match drive_of (selected a) a with Some _ => 64 | None => 0 end).

Definition sim_in (r : Z) (x : ata * nat) : Z * (ata * nat) :=
  let '(a, n) := x in
  if (r =? 7) || (r =? 0x206) then
    let a' := if r =? 7 then set_intrq false a else a in
    match master a, slave a with
    | None, None => (0xff, (a', n))
    | _, _ => match n with O => (status a, (a', O)) | S n => (0x80, (a', n)) end
    end
  else (if r =? 1 then r_error a else if r =? 2 then r_nsect a else if r =? 3 then r_lbal a
        else if r =? 4 then r_lbam a else r_lbah a, x).

Definition sim_out (r v : Z) (x : ata * nat) : ata * nat :=
  (ata_out r v x.1, if decide (r = 7 \/ r = 0x206) then 2%nat else x.2).

#[global] Instance sim_ports : AtaPorts sim := {
  io_inb p h := let '(v, x) := sim_in (reg_of p) (side (base_of p) h) in (v, set_side (base_of p) x h);
  io_outb p v h := set_side (base_of p) (sim_out (reg_of p) v (side (base_of p) h)) h;
  io_inw b h := match ata_take (side b h).1 with
    | Some (w, a) => (w, set_side b (a, (side b h).2) h)
    | None => (0, h)
    end;
  io_outw b v h := let a := ata_put v (side b h).1 in set_side b (a, if drq a then (side b h).2 else 2%nat) h;
  until_irq b h := set_side b ((side b h).1, 0%nat) h }.

Lemma side_set b x h : side b (set_side b x h) = x.
Proof. unfold side, set_side. by destruct (b =? 0x1f0). Qed.
Lemma side_other b b' x h : b ∈ bases -> b' ∈ bases -> b' <> b -> side b' (set_side b x h) = side b' h.
Proof. unfold bases. intros Hb Hb' Hn. set_unfold. by destruct Hb as [->|[->|[]]], Hb' as [->|[->|[]]]. Qed.
Lemma port_of b r : b ∈ bases -> r ∈ offsets -> base_of (b + r) = b /\ reg_of (b + r) = r.
Proof.
  unfold bases, offsets. intros Hb Hr. set_unfold. destruct Hb as [->|[->|[]]]; repeat (destruct Hr as [->|Hr]; [done|]); done.
Qed.

Lemma sim_status r a n : r = 7 \/ r = 0x206 ->
  let v := (sim_in r (a, n)).1 in
  let x := (sim_in r (a, n)).2 in
  x.1 = (if r =? 7 then set_intrq false a else a) /\
  (populated a -> (if Z.testbit v 7 then (x.2 < n)%nat
      else x.2 = 0%nat /\ Z.testbit v 3 = drq a /\ Z.testbit v 6 = bool_decide (is_Some (drive_of (selected a) a))) /\
    (n = 0%nat -> Z.testbit v 7 = false)) /\
  (~ populated a -> Z.testbit v 7 = true \/ Z.testbit v 6 = false).
Proof.
  intros Hr. assert (Er : (r =? 7) || (r =? 0x206) = true) by (destruct Hr as [-> | ->]; done).
  unfold sim_in. rewrite Er. unfold populated.
  assert (Hs : Z.testbit (status a) 7 = false /\ Z.testbit (status a) 3 = drq a /\
    Z.testbit (status a) 6 = bool_decide (is_Some (drive_of (selected a) a))).
  { unfold status. destruct (drq a), (drive_of (selected a) a) eqn:E; split_and!; try done;
      by rewrite ?bool_decide_eq_true_2, ?bool_decide_eq_false_2 by (by eauto || by intros [? ?]). }
  destruct Hs as (H7 & H3 & H6).
  assert (Hlive : forall x : Z * (ata * nat), x = (match n with O => (status a, ((if r =? 7 then set_intrq false a else a), O))
      | S n => (0x80, ((if r =? 7 then set_intrq false a else a), n)) end) ->
    x.2.1 = (if r =? 7 then set_intrq false a else a) /\
    (if Z.testbit x.1 7 then (x.2.2 < n)%nat
      else x.2.2 = 0%nat /\ Z.testbit x.1 3 = drq a /\ Z.testbit x.1 6 = bool_decide (is_Some (drive_of (selected a) a))) /\
    (n = 0%nat -> Z.testbit x.1 7 = false)).
  { intros x ->. destruct n; cbn [fst snd]; [rewrite H7; by split_and!|split_and!; [done|cbn; lia|done]]. }
  destruct (master a), (slave a); cbv zeta; try (destruct (Hlive _ eq_refl) as (L1 & L2 & L3); split_and!; [done|done|]; intros []; first [by left; eexists|by right; eexists]).
  split_and!; [done|by intros [[? ?]|[? ?]]|by left].
Qed.

#[global, refine] Instance sim_ata : ATA sim := {
  chan b h := (side b h).1;
  settle b h := (side b h).2;
  max_settle := 2 }.
Proof.
  - lia.
  - intros b r v h Hb Hr _. destruct (port_of b r Hb Hr) as [E1 E2]. cbn. rewrite E1, E2, side_set. cbn. split; [done|].
    by destruct (decide _).
  - intros b r h Hb Hr. assert (Ho : r ∈ offsets) by (unfold offsets; destruct Hr as [-> | ->]; set_solver).
    destruct (port_of b r Hb Ho) as [E1 E2]. cbn. rewrite E1, E2. destruct (side b h) as [a n] eqn:E.
    pose proof (sim_status r a n Hr) as Hs. destruct (sim_in r (a, n)) as [v x]. cbn [fst snd] in *. by rewrite side_set.
  - intros b r h Hb Hr. assert (Ho : r ∈ offsets) by (unfold offsets; set_solver).
    destruct (port_of b r Hb Ho) as [E1 E2]. cbn. rewrite E1, E2. destruct (side b h) as [a n] eqn:E.
    assert (Er : (r =? 7) || (r =? 0x206) = false) by (set_unfold; lia).
    unfold sim_in. rewrite Er. cbn [fst snd]. rewrite side_set. cbn [fst snd]. by split_and!.
  - intros b h w a Hb Hz E. cbn in *. rewrite E. cbn. rewrite side_set. done.
  - intros b v h Hb Hz _. cbn in *. rewrite side_set. cbn. split; [done|]. by intros ->.
  - intros b h Hb _. cbn. by rewrite side_set.
  - intros b b' h Hb Hb' Hne. cbn. split_and!.
    + intros r v Hr. destruct (port_of b r Hb Hr) as [-> ->]. by rewrite side_other.
    + intros r Hr. destruct (port_of b r Hb Hr) as [-> ->]. destruct (sim_in _ _). cbn. by rewrite side_other.
    + destruct (ata_take _) as [[w a]|]; [|done]. cbn. by rewrite side_other.
    + destruct (ata_take _) as [[w a]|]; [|done]. cbn. by rewrite side_other.
    + intros v. by rewrite side_other.
    + by rewrite side_other.
    + by rewrite side_other.
Defined.
