(* ===== verification/Disk.v ===== *)
(** * devices/disk.c: the ATA driver

    The driver as the thread sees it that holds the channel's lock.  A thread
    that waits for the completion of a command sleeps until the channel's
    interrupt comes; the handler runs then.  Messages are recorded by what they
    say, and sleeping by its length in nanoseconds. *)

From Stdlib Require Import ZArith Lia.
From stdpp Require Import base numbers gmap list strings.
From S2P Require Import Prelude CStdlib Idt AtaHardware.

Open Scope Z_scope.

(** ** Registers *)

Definition STA_BSY : Z := 0x80.
Definition STA_DRDY : Z := 0x40.
Definition STA_DRQ : Z := 0x08.
Definition CTL_SRST : Z := 0x04.
Definition DEV_MBS : Z := 0xa0.
Definition DEV_LBA : Z := 0x40.
Definition DEV_DEV : Z := 0x10.
Definition CMD_IDENTIFY_DEVICE : Z := 0xec.
Definition CMD_READ_SECTOR_RETRY : Z := 0x20.
Definition CMD_WRITE_SECTOR_RETRY : Z := 0x30.

(** ** Data *)

(** [struct disk], [struct channel]; a disk is known by the numbers of its
    channel and of itself. *)
Record disk := mk_disk { dev_no : Z; is_ata : bool; capacity : Z; read_cnt : Z; write_cnt : Z }.
Record channel := mk_channel { reg_base : Z; irq : Z; locked : bool; expecting_interrupt : bool;
  completion_wait : Z; devices : list disk }.
Record disk_id := mk_id { chan_no : Z; unit_no : Z }.

#[global] Instance disk_id_eq_dec : EqDecision disk_id.
Proof. solve_decision. Defined.

Definition reg_data c := reg_base c + 0.
Definition reg_error c := reg_base c + 1.
Definition reg_nsect c := reg_base c + 2.
Definition reg_lbal c := reg_base c + 3.
Definition reg_lbam c := reg_base c + 4.
Definition reg_lbah c := reg_base c + 5.
Definition reg_device c := reg_base c + 6.
Definition reg_status c := reg_base c + 7.
Definition reg_command c := reg_status c.
Definition reg_ctl c := reg_base c + 0x206.
Definition reg_alt_status c := reg_ctl c.

Definition set_is_ata v d := mk_disk (dev_no d) v (capacity d) (read_cnt d) (write_cnt d).
Definition set_capacity v d := mk_disk (dev_no d) (is_ata d) v (read_cnt d) (write_cnt d).
Definition set_read_cnt v d := mk_disk (dev_no d) (is_ata d) (capacity d) v (write_cnt d).
Definition set_write_cnt v d := mk_disk (dev_no d) (is_ata d) (capacity d) (read_cnt d) v.
Definition set_locked v c := mk_channel (reg_base c) (irq c) v (expecting_interrupt c) (completion_wait c) (devices c).
Definition set_expecting v c := mk_channel (reg_base c) (irq c) (locked c) v (completion_wait c) (devices c).
Definition set_completion v c := mk_channel (reg_base c) (irq c) (locked c) (expecting_interrupt c) v (devices c).
Definition set_devices v c := mk_channel (reg_base c) (irq c) (locked c) (expecting_interrupt c) (completion_wait c) v.

(** The messages.  A size is told in a unit. *)
Inductive unit_name := GB | MB | KB | Byte.
Inductive message := IdleTimeout | BusyWaiting | BusyOk | BusyFailed | Unexpected
  | Detected (sectors size : Z) (u : unit_name) (model serial : list Z)
  | Statistics (chan_no dev_no reads writes : Z).

(** [level_on]: interrupts are on. *)
Record dstate (H : Type) := mk_dstate { channels : list channel; ahw : H; level_on : bool; slept : Z;
  messages : list message; irqs : itable }.
Arguments mk_dstate {H} _ _ _ _ _ _.
Arguments channels {H} _.
Arguments ahw {H} _.
Arguments level_on {H} _.
Arguments slept {H} _.
Arguments messages {H} _.
Arguments irqs {H} _.

Section Code.
Context {stubs : Stubs} {H : Type} {aports : AtaPorts H} {ata_hw : ATA H}.
Abbreviation D := (dstate H).

Definition set_channels v (s : D) : D := mk_dstate v (ahw s) (level_on s) (slept s) (messages s) (irqs s).
Definition set_ahw v (s : D) : D := mk_dstate (channels s) v (level_on s) (slept s) (messages s) (irqs s).
Definition set_slept v (s : D) : D := mk_dstate (channels s) (ahw s) (level_on s) v (messages s) (irqs s).
Definition set_messages v (s : D) : D := mk_dstate (channels s) (ahw s) (level_on s) (slept s) v (irqs s).
Definition set_irqs v (s : D) : D := mk_dstate (channels s) (ahw s) (level_on s) (slept s) (messages s) v.

(** Ports, time and messages. *)
Definition inb (port : Z) : M D Z := s ← get; let '(v, h) := io_inb port (ahw s) in put (set_ahw h s);; ret v.
Definition outb (port v : Z) : M D unit := modify (fun s => set_ahw (io_outb port (u8 v) (ahw s)) s).
Definition inw (port : Z) : M D Z := s ← get; let '(v, h) := io_inw port (ahw s) in put (set_ahw h s);; ret v.
Definition outw (port v : Z) : M D unit := modify (fun s => set_ahw (io_outw port v (ahw s)) s).
Definition timer_nsleep (n : Z) : M D unit := modify (fun s => set_slept (slept s + n) s).
Definition timer_usleep (n : Z) : M D unit := timer_nsleep (1000 * n).
Definition timer_msleep (n : Z) : M D unit := timer_nsleep (1000000 * n).
Definition printf (x : message) : M D unit := modify (fun s => set_messages (messages s ++ [x]) s).

(** Accesses to the channels and disks. *)
Definition get_channel (n : Z) : M D channel := s ← get; of_option BadAccess (channels s !! Z.to_nat n).
Definition upd_channel (n : Z) (f : channel -> channel) : M D unit :=
  c ← get_channel n; modify (fun s => set_channels (<[Z.to_nat n := f c]> (channels s)) s).
Definition get_disk (d : disk_id) : M D disk :=
  c ← get_channel (chan_no d); of_option BadAccess (devices c !! Z.to_nat (unit_no d)).
Definition upd_disk (d : disk_id) (f : disk -> disk) : M D unit :=
  x ← get_disk d; upd_channel (chan_no d) (fun c => set_devices (<[Z.to_nat (unit_no d) := f x]> (devices c)) c).

(** ** Low-level primitives *)

Definition wait_until_idle (d : disk_id) : M D unit :=
  r ← find_from (Z.to_nat 1000) 0 (fun i =>
    c ← get_channel (chan_no d);
    v ← inb (reg_status c);
    if Z.land v (Z.lor STA_BSY STA_DRQ) =? 0 then ret (Some tt)
    else timer_usleep 10;; ret None);
  match r with Some _ => ret tt | None => printf IdleTimeout end.

Definition wait_while_busy (d : disk_id) : M D bool :=
  c ← get_channel (chan_no d);
  r ← find_from (Z.to_nat 3000) 0 (fun i =>
    (if i =? 700 then printf BusyWaiting else ret tt);;
    v ← inb (reg_alt_status c);
    if Z.land v STA_BSY =? 0 then
      (if 700 <=? i then printf BusyOk else ret tt);;
      v ← inb (reg_alt_status c);
      ret (Some (negb (Z.land v STA_DRQ =? 0)))
    else timer_msleep 10;; ret None);
  match r with Some b => ret b | None => printf BusyFailed;; ret false end.

Definition select_device (d : disk_id) : M D unit :=
  c ← get_channel (chan_no d);
  x ← get_disk d;
  let dev := if dev_no x =? 1 then Z.lor DEV_MBS DEV_DEV else DEV_MBS in
  outb (reg_device c) dev;;
  inb (reg_alt_status c);;
  timer_nsleep 400.

Definition select_device_wait (d : disk_id) : M D unit :=
  wait_until_idle d;;
  select_device d;;
  wait_until_idle d.

Definition select_sector (d : disk_id) (sec_no : Z) : M D unit :=
  c ← get_channel (chan_no d);
  x ← get_disk d;
  ASSERT (sec_no <? capacity x);;
  ASSERT (sec_no <? Z.shiftl 1 28);;
  select_device_wait d;;
  outb (reg_nsect c) 1;;
  outb (reg_lbal c) sec_no;;
  outb (reg_lbam c) (Z.shiftr sec_no 8);;
  outb (reg_lbah c) (Z.shiftr sec_no 16);;
  outb (reg_device c)
    (Z.lor (Z.lor (Z.lor DEV_MBS DEV_LBA) (if dev_no x =? 1 then DEV_DEV else 0)) (Z.shiftr sec_no 24)).

Definition issue_pio_command (n command : Z) : M D unit :=
  s ← get;
  ASSERT (level_on s);;
  upd_channel n (set_expecting true);;
  c ← get_channel n;
  outb (reg_command c) command.

(** [cnt] words, as the bytes they are in memory. *)
Fixpoint insw (cnt : nat) (port : Z) : M D (list Z) :=
  match cnt with
  | O => ret []
  | S cnt => w ← inw port; l ← insw cnt port; ret (w mod 256 :: w / 256 :: l)
  end.
Fixpoint outsw (port : Z) (l : list Z) : M D unit :=
  match l with
  | b0 :: b1 :: l => outw port (b0 + 256 * b1);; outsw port l
  | _ => ret tt
  end.

Definition input_sector (n : Z) : M D (list Z) := c ← get_channel n; insw (Z.to_nat 256) (reg_data c).
Definition output_sector (n : Z) (sector : list Z) : M D unit := c ← get_channel n; outsw (reg_data c) sector.

(** ** Interrupts *)

Definition completion_up (n : Z) : M D unit := upd_channel n (fun c => set_completion (u32 (completion_wait c + 1)) c).

(** The loop over the channels. *)
Fixpoint handle_channels (vec_no : Z) (cs : list channel) (n : Z) : M D unit :=
  match cs with
  | [] => fail AssertFail
  | c :: cs =>
      if vec_no =? irq c then
        if expecting_interrupt c then inb (reg_status c);; completion_up n
        else printf Unexpected
      else handle_channels vec_no cs (n + 1)
  end.
Definition interrupt_handler (vec_no : Z) : M D unit := s ← get; handle_channels vec_no (channels s) 0.

(** sema_down() on the semaphore: when the value is zero, the thread sleeps until the channel
    interrupts; if it never does, the call does not return. *)
Definition completion_down (n : Z) : M D unit :=
  c ← get_channel n;
  (if completion_wait c =? 0 then
     s ← get;
     if intrq (chan (reg_base c) (ahw s)) then
       put (set_ahw (until_irq (reg_base c) (ahw s)) s);;
       interrupt_handler (irq c)
     else fail OutOfFuel
   else ret tt);;
  c ← get_channel n;
  ASSERT (0 <? completion_wait c);;
  upd_channel n (fun c => set_completion (u32 (completion_wait c - 1)) c).

(** The lock, when no other thread has it. *)
Definition channel_acquire (n : Z) : M D unit :=
  c ← get_channel n; ASSERT (negb (locked c));; upd_channel n (set_locked true).
Definition channel_release (n : Z) : M D unit :=
  c ← get_channel n; ASSERT (locked c);; upd_channel n (set_locked false).

(** ** Reading and writing *)

Definition disk_read (d : disk_id) (sec_no : Z) : M D (list Z) :=
  channel_acquire (chan_no d);;
  select_sector d sec_no;;
  issue_pio_command (chan_no d) CMD_READ_SECTOR_RETRY;;
  completion_down (chan_no d);;
  b ← wait_while_busy d;
  ASSERT b;;
  buffer ← input_sector (chan_no d);
  upd_disk d (fun x => set_read_cnt (i64 (read_cnt x + 1)) x);;
  channel_release (chan_no d);;
  ret buffer.

Definition disk_write (d : disk_id) (sec_no : Z) (buffer : list Z) : M D unit :=
  channel_acquire (chan_no d);;
  select_sector d sec_no;;
  issue_pio_command (chan_no d) CMD_WRITE_SECTOR_RETRY;;
  b ← wait_while_busy d;
  ASSERT b;;
  output_sector (chan_no d) buffer;;
  completion_down (chan_no d);;
  upd_disk d (fun x => set_write_cnt (i64 (write_cnt x + 1)) x);;
  channel_release (chan_no d).

(** ** Detection and identification *)

(** Whether a device keeps what is written to its registers. *)
Definition detect (d : disk_id) : M D bool :=
  c ← get_channel (chan_no d);
  select_device d;;
  outb (reg_nsect c) 0x55;;
  outb (reg_lbal c) 0xaa;;
  outb (reg_nsect c) 0xaa;;
  outb (reg_lbal c) 0x55;;
  outb (reg_nsect c) 0x55;;
  outb (reg_lbal c) 0xaa;;
  v ← inb (reg_nsect c);
  if v =? 0x55 then w ← inb (reg_lbal c); ret (w =? 0xaa) else ret false.

Definition reset_channel (n : Z) : M D unit :=
  c ← get_channel n;
  present0 ← detect (mk_id n 0);
  present1 ← detect (mk_id n 1);
  outb (reg_ctl c) 0;;
  timer_usleep 10;;
  outb (reg_ctl c) CTL_SRST;;
  timer_usleep 10;;
  outb (reg_ctl c) 0;;
  timer_msleep 150;;
  (if present0 : bool then
     select_device (mk_id n 0);;
     wait_while_busy (mk_id n 0);;
     ret tt
   else ret tt);;
  (if present1 : bool then
     select_device (mk_id n 1);;
     find_from (Z.to_nat 3000) 0 (fun i =>
       v ← inb (reg_nsect c);
       b ← (if v =? 1 then w ← inb (reg_lbal c); ret (w =? 1) else ret false);
       if b : bool then ret (Some tt) else timer_msleep 10;; ret None);;
     wait_while_busy (mk_id n 1);;
     ret tt
   else ret tt).

Definition check_device_type (d : disk_id) : M D bool :=
  c ← get_channel (chan_no d);
  x ← get_disk d;
  select_device d;;
  error ← inb (reg_error c);
  lbam ← inb (reg_lbam c);
  lbah ← inb (reg_lbah c);
  status ← inb (reg_status c);
  if (negb (error =? 1) && (negb (error =? 0x81) || (dev_no x =? 1)))
     || (Z.land status STA_DRDY =? 0) || negb (Z.land status STA_BSY =? 0) then
    upd_disk d (set_is_ata false);;
    ret (negb (error =? 0x81))
  else
    upd_disk d (set_is_ata ((lbam =? 0) && (lbah =? 0) || (lbam =? 0x3c) && (lbah =? 0xc3)));;
    ret true.

(** The first loop of print_ata_string(). *)
Fixpoint ata_length (string : list Z) (size : nat) : M D nat :=
  match size with
  | O => ret O
  | S k =>
      c ← of_option BadAccess (string !! Z.to_nat (Z.lxor (Z.of_nat k) 1));
      if negb (c =? 0) && negb (isspace c) then ret size else ata_length string k
  end.

(** The text that is printed. *)
Definition print_ata_string (string : list Z) (size : nat) : M D (list Z) :=
  size ← ata_length string size;
  of_option BadAccess (mapM (fun i => string !! Z.to_nat (Z.lxor (Z.of_nat i) 1)) (seq 0 size)).

Definition disk_size_text (capacity : Z) : Z * unit_name :=
  if 1024 / 512 * 1024 * 1024 <? capacity then (capacity / (1024 / 512 * 1024 * 1024), GB)
  else if 1024 / 512 * 1024 <? capacity then (capacity / (1024 / 512 * 1024), MB)
  else if 1024 / 512 <? capacity then (capacity / (1024 / 512), KB)
  else (u32 (capacity * 512), Byte).

(** [id[i]] of the bytes read. *)
Definition id_word (id : list Z) (i : nat) : M D Z :=
  b0 ← of_option BadAccess (id !! (2 * i)%nat);
  b1 ← of_option BadAccess (id !! (2 * i + 1)%nat);
  ret (b0 + 256 * b1).

Definition identify_ata_device (d : disk_id) : M D unit :=
  x ← get_disk d;
  ASSERT (is_ata x);;
  select_device_wait d;;
  issue_pio_command (chan_no d) CMD_IDENTIFY_DEVICE;;
  completion_down (chan_no d);;
  b ← wait_while_busy d;
  if negb b then upd_disk d (set_is_ata false) else
  id ← input_sector (chan_no d);
  lo ← id_word id 60;
  hi ← id_word id 61;
  let cap := Z.lor lo (u32 (Z.shiftl hi 16)) in
  upd_disk d (set_capacity cap);;
  model ← print_ata_string (drop (2 * 27) id) 40;
  serial ← print_ata_string (drop (2 * 10) id) 20;
  printf (Detected cap (disk_size_text cap).1 (disk_size_text cap).2 model serial).

(** ** Setting up *)

Definition init_channel (chan_no : Z) : M D unit :=
  (if chan_no =? 0 then upd_channel 0 (fun _ => mk_channel 0x1f0 (14 + 0x20) false false 0 [mk_disk 0 false 0 0 0; mk_disk 1 false 0 0 0])
   else if chan_no =? 1 then upd_channel 1 (fun _ => mk_channel 0x170 (15 + 0x20) false false 0 [mk_disk 0 false 0 0 0; mk_disk 1 false 0 0 0])
   else fail AssertFail);;
  c ← get_channel chan_no;
  zoom irqs set_irqs (intr_register_ext (irq c) Idt.Disk (if chan_no =? 0 then "hd0" else "hd1"));;
  reset_channel chan_no;;
  b ← check_device_type (mk_id chan_no 0);
  (if b : bool then check_device_type (mk_id chan_no 1);; ret tt else ret tt);;
  for_from 2 0 (fun dev_no =>
    x ← get_disk (mk_id chan_no dev_no);
    if is_ata x then identify_ata_device (mk_id chan_no dev_no) else ret tt).

Definition disk_init : M D unit := for_from 2 0 init_channel.

Definition disk_get (chan_no dev_no : Z) : M D (option disk_id) :=
  ASSERT ((dev_no =? 0) || (dev_no =? 1));;
  if chan_no <? 2 then
    (if chan_no <? 0 then fail BadAccess else ret tt);;
    x ← get_disk (mk_id chan_no dev_no);
    ret (if is_ata x then Some (mk_id chan_no dev_no) else None)
  else ret None.

Definition disk_size (d : option disk_id) : M D Z :=
  match d with Some d => x ← get_disk d; ret (capacity x) | None => fail AssertFail end.

Definition disk_print_stats : M D unit :=
  for_from 2 0 (fun chan_no => for_from 2 0 (fun dev_no =>
    r ← disk_get chan_no dev_no;
    match r with
    | Some d => x ← get_disk d; if is_ata x then printf (Statistics chan_no dev_no (read_cnt x) (write_cnt x)) else ret tt
    | None => ret tt
    end)).
End Code.
