(* ===== verification/DiskSpec.v ===== *)
(** * The disk driver: reading and writing

    What the primitives of devices/disk.c do, and then reading and writing of
    sectors. *)

From Stdlib Require Import ZArith Lia.
From stdpp Require Import base numbers gmap list strings.
From S2P Require Import Prelude Gdt Idt AtaHardware Disk.

Open Scope Z_scope.

(** * The disk driver: what its primitives do *)

(** ** Searching *)

(** The first round already leaves the loop. *)
Lemma wp_find_now {S R} (body : Z -> M S (option R)) n i s (Q : option R -> S -> Prop) : (0 < n)%nat ->
  wp (body i) (fun r s' => exists x, r = Some x /\ Q (Some x) s') s -> wp (find_from n i body) Q s.
Proof.
  intros Hn Hb. destruct n as [|n]; [lia|]. cbn [find_from]. apply wp_bind.
  eapply wp_mono; [exact Hb|]. intros r s' (x & -> & HQ). by apply wp_ret.
Qed.

(** A measure says in how many rounds the loop is left at the latest. *)
Lemma wp_find_within {S R} (I : nat -> S -> Prop) (body : Z -> M S (option R)) (Q : option R -> S -> Prop) :
  (forall i m s, I m s -> wp (body i) (fun r s' =>
     match r with Some x => Q (Some x) s' | None => exists m', (m' < m)%nat /\ I m' s' end) s) ->
  forall n i m s, I m s -> (m < n)%nat -> wp (find_from n i body) Q s.
Proof.
  intros Hb n. induction n as [|n IH]; intros i m s HI Hm; [lia|]. cbn [find_from]. apply wp_bind.
  eapply wp_mono; [exact (Hb i m s HI)|]. intros [x|] s'; [by intros HQ; apply wp_ret|].
  intros (m' & Hlt & HI'). apply (IH _ m'); [done|lia].
Qed.

(** ** One channel *)

Section Ops.
Context {stubs : Stubs} {H : Type} {aports : AtaPorts H} {ata_hw : ATA H}.
Abbreviation D := (dstate H).
Implicit Types s : dstate H.

(** Only channel [b] of the hardware has changed, time has passed and
    messages may have been written. *)
Record only (b : Z) s s' : Prop := {
  on_channels : channels s' = channels s;
  on_level : level_on s' = level_on s;
  on_irqs : irqs s' = irqs s;
  on_slept : slept s <= slept s';
  on_other : forall b', b' ∈ bases -> b' <> b ->
    chan b' (ahw s') = chan b' (ahw s) /\ settle b' (ahw s') = settle b' (ahw s) }.

#[global] Instance only_po b : PreOrder (only b).
Proof.
  split; [intros s; by split|]. intros x y z A B. destruct A as [A1 A2 A3 A4 A5], B as [B1 B2 B3 B4 B5].
  split; try congruence; [lia|]. intros b' Hb Hn. destruct (A5 b' Hb Hn) as [<- <-]. by apply B5.
Qed.

(** The state of channel [b]. *)
Definition at_chan (b : Z) s : ata := chan b (ahw s).
Definition busy (b : Z) s : nat := settle b (ahw s).

Lemma only_ahw b s h : (forall b', b' ∈ bases -> b' <> b -> chan b' h = chan b' (ahw s) /\ settle b' h = settle b' (ahw s)) ->
  only b s (set_ahw h s).
Proof. intros Hh. by split. Qed.

Lemma only_slept b s n : 0 <= n -> only b s (set_slept (slept s + n) s).
Proof. intros Hn. split; try done. cbn. lia. Qed.

Lemma only_messages b s l : only b s (set_messages l s).
Proof. by split. Qed.

Lemma wp_out b r v s : b ∈ bases -> r ∈ offsets ->
  wp (outb (b + r) v) (fun _ s' => only b s s' /\ at_chan b s' = ata_out r (u8 v) (at_chan b s) /\
    (busy b s' <= (if decide (r = 7 \/ r = 0x206)%Z then max_settle else busy b s))%nat) s.
Proof.
  intros Hb Hr. red. cbn [outb modify]. destruct (outb_chan b r (u8 v) (ahw s) Hb Hr) as [Hc Hs]; [apply uwrap_range; lia|].
  split; [|by split]. apply only_ahw. intros b' Hb' Hn. by apply (other_chan b b' (ahw s) Hb Hb' Hn).
Qed.

Lemma wp_in p s (Q : Z -> D -> Prop) : Q (io_inb p (ahw s)).1 (set_ahw (io_inb p (ahw s)).2 s) -> wp (inb p) Q s.
Proof. intros HQ. unfold inb, wp, bind, get. by destruct (io_inb p (ahw s)). Qed.

(** What the status register shows when there is a drive. *)
Definition shows (b : Z) s (v : Z) s' : Prop :=
  (if Z.testbit v 7 then (busy b s' < busy b s)%nat
   else busy b s' = 0%nat /\ Z.testbit v 3 = drq (at_chan b s) /\
     Z.testbit v 6 = bool_decide (is_Some (drive_of (selected (at_chan b s)) (at_chan b s)))) /\
  (busy b s = 0%nat -> Z.testbit v 7 = false).

Lemma wp_any_status b r s : b ∈ bases -> r = 7 \/ r = 0x206 ->
  wp (inb (b + r)) (fun v s' => only b s s' /\
    at_chan b s' = (if r =? 7 then set_intrq false (at_chan b s) else at_chan b s) /\
    (populated (at_chan b s) -> shows b s v s') /\
    (~ populated (at_chan b s) -> Z.testbit v 7 = true \/ Z.testbit v 6 = false)) s.
Proof.
  intros Hb Hr. apply wp_in. split; [|exact (inb_status b r (ahw s) Hb Hr)].
  apply only_ahw. intros b' Hb' Hn. apply (other_chan b b' (ahw s) Hb Hb' Hn).
  destruct Hr as [-> | ->]; unfold offsets; set_solver.
Qed.

Lemma wp_status b r s : b ∈ bases -> r = 7 \/ r = 0x206 -> populated (at_chan b s) ->
  wp (inb (b + r)) (fun v s' => only b s s' /\
    at_chan b s' = (if r =? 7 then set_intrq false (at_chan b s) else at_chan b s) /\ shows b s v s') s.
Proof.
  intros Hb Hr Hp. eapply wp_mono; [by apply wp_any_status|]. intros v s' (H1 & H2 & H3 & _). split_and!; [done..|by apply H3].
Qed.

Lemma wp_register b r s : b ∈ bases -> r ∈ [1; 2; 3; 4; 5] ->
  wp (inb (b + r)) (fun v s' => only b s s' /\ at_chan b s' = at_chan b s /\ busy b s' = busy b s /\
    (busy b s = 0%nat -> is_Some (drive_of (selected (at_chan b s)) (at_chan b s)) -> v =
       (if r =? 1 then r_error (at_chan b s) else if r =? 2 then r_nsect (at_chan b s)
        else if r =? 3 then r_lbal (at_chan b s) else if r =? 4 then r_lbam (at_chan b s) else r_lbah (at_chan b s)))) s.
Proof.
  intros Hb Hr. apply wp_in. split; [|exact (inb_register b r (ahw s) Hb Hr)].
  apply only_ahw. intros b' Hb' Hn. apply (other_chan b b' (ahw s) Hb Hb' Hn). unfold offsets. set_solver.
Qed.

(** ** Waiting *)

(** The driver's record of channel [n] is [c], a channel of the hardware. *)
Definition on_base s (n : Z) (c : channel) : Prop :=
  channels s !! Z.to_nat n = Some c /\ reg_base c ∈ bases.

Lemma on_base_only b s s' n c : only b s s' -> on_base s n c -> on_base s' n c.
Proof. intros Ho [E Hb]. split; [by rewrite (on_channels _ _ _ Ho)|done]. Qed.

Lemma wp_get_channel s n c (Q : channel -> D -> Prop) : channels s !! Z.to_nat n = Some c -> Q c s -> wp (get_channel n) Q s.
Proof. intros E HQ. unfold get_channel, wp, bind, get. by rewrite E. Qed.

Lemma bsy_bit v : (Z.land v STA_BSY =? 0) = negb (Z.testbit v 7).
Proof. by apply (land_pow2 v 7). Qed.
Lemma drq_bit v : (Z.land v STA_DRQ =? 0) = negb (Z.testbit v 3).
Proof. by apply (land_pow2 v 3). Qed.
Lemma drdy_bit v : (Z.land v STA_DRDY =? 0) = negb (Z.testbit v 6).
Proof. by apply (land_pow2 v 6). Qed.
Lemma idle_bits v : (Z.land v (Z.lor STA_BSY STA_DRQ) =? 0) = negb (Z.testbit v 7) && negb (Z.testbit v 3).
Proof.
  rewrite Z.land_lor_distr_r, <- bsy_bit, <- drq_bit.
  destruct (Z.eqb_spec (Z.land v STA_BSY) 0) as [->|N]; cbn [andb]; [by rewrite Z.lor_0_l|].
  apply Z.eqb_neq. intros E. by apply Z.lor_eq_0_iff in E as [? _].
Qed.

Lemma wp_wait_until_idle s d c : on_base s (chan_no d) c -> populated (at_chan (reg_base c) s) -> busy (reg_base c) s = 0%nat -> ph (at_chan (reg_base c) s) = Idle ->
  wp (wait_until_idle d) (fun _ s' => only (reg_base c) s s' /\ messages s' = messages s /\ slept s' = slept s /\
    busy (reg_base c) s' = 0%nat /\ at_chan (reg_base c) s' = set_intrq false (at_chan (reg_base c) s)) s.
Proof.
  intros [Ec Hb] Hpop Hbusy Hid. unfold wait_until_idle. apply wp_bind. apply wp_find_now; [lia|].
  apply wp_bind. eapply wp_get_channel; [done|]. apply wp_bind.
  pose proof (wp_status (reg_base c) 7 s Hb (or_introl eq_refl) Hpop) as Hw. apply wp_in. unfold wp, inb, bind, get, put, ret in Hw.
  unfold reg_status. destruct (io_inb (reg_base c + 7) (ahw s)) as [v h]. cbn [fst snd]. cbn iota in Hw.
  destruct Hw as (Ho & Hc & Hst & H7). specialize (H7 Hbusy). rewrite H7 in Hst. destruct Hst as (Hz & H3 & _).
  rewrite idle_bits, H7, H3. unfold drq. rewrite Hid. cbn [negb andb]. apply wp_ret. exists tt. split; [done|].
  apply wp_ret. by split_and!.
Qed.

(** The channel has settled, and [r] says whether data are to be transferred. *)
Definition settled (b : Z) s (r : bool) s' : Prop :=
  only b s s' /\ r = drq (at_chan b s) /\ busy b s' = 0%nat /\ at_chan b s' = at_chan b s.

Section Waiting.
Variables (s : D) (c : channel) (i : Z).
Abbreviation b := (reg_base c).
Hypothesis Hb : b ∈ bases.
Hypothesis Hpop : populated (at_chan b s).

(** The state in the loop: nothing but time has passed. *)
Definition waited t : Prop := only b s t /\ at_chan b t = at_chan b s.

Lemma wp_drq t (Q : option bool -> D -> Prop) : waited t -> busy b t = 0%nat ->
  (forall r s', settled b s r s' -> Q (Some r) s') ->
  wp (v ← inb (reg_alt_status c); ret (Some (negb (Z.land v STA_DRQ =? 0)))) Q t.
Proof using Hb Hpop.
  intros [Ho Ha] Hz HQ. apply wp_bind. eapply wp_mono; [by apply (wp_status b 0x206); [|right|rewrite Ha]|].
  intros v t' (Ho' & Ha' & Hst & H7). rewrite (H7 Hz) in Hst. destruct Hst as (Hz' & Hq & _).
  apply wp_ret. rewrite drq_bit, negb_involutive, Hq. apply HQ. split_and!; try done; [by etrans|by rewrite Ha|by rewrite Ha'].
Qed.

Lemma wp_busy_round t (Q : option bool -> D -> Prop) : waited t ->
  (forall r s', settled b s r s' -> Q (Some r) s') ->
  (forall s', waited s' -> (busy b s' < busy b t)%nat -> Q None s') ->
  wp (v ← inb (reg_alt_status c);
      if Z.land v STA_BSY =? 0 then
        (if 700 <=? i then printf BusyOk else ret tt);;
        v ← inb (reg_alt_status c);
        ret (Some (negb (Z.land v STA_DRQ =? 0)))
      else timer_msleep 10;; ret None) Q t.
Proof using Hb Hpop.
  intros [Ho Ha] HS HN. apply wp_bind. eapply wp_mono; [by apply (wp_status b 0x206); [|right|rewrite Ha]|].
  intros v t1 (Ho1 & Ha1 & Hst & _). change (0x206 =? 7) with false in Ha1. cbn iota in Ha1. rewrite bsy_bit.
  assert (Hw1 : waited t1) by (split; [by etrans|by rewrite Ha1]).
  destruct (Z.testbit v 7); cbn [negb].
  - apply wp_bind. red. cbn [timer_msleep timer_nsleep modify]. apply wp_ret. apply HN; [|done].
    split; [|apply Hw1]. etrans; [apply Hw1|]. apply only_slept. lia.
  - destruct Hst as (Hz & _). apply wp_bind. destruct (700 <=? i); [|apply wp_ret; by apply wp_drq].
    red. cbn [printf modify]. apply wp_drq; [|done..]. split; [|apply Hw1]. etrans; [apply Hw1|apply only_messages].
Qed.
End Waiting.

(** Within the time that the hardware may take, the channel is seen not to be
    busy. *)
Lemma wp_wait_while_busy s d c : on_base s (chan_no d) c -> populated (at_chan (reg_base c) s) -> (busy (reg_base c) s <= max_settle)%nat ->
  wp (wait_while_busy d) (fun r s' => settled (reg_base c) s r s') s.
Proof.
  intros [Ec Hb] Hpop Hbusy. unfold wait_while_busy. apply wp_bind. eapply wp_get_channel; [done|]. apply wp_bind.
  apply (wp_find_within (fun m t => m = busy (reg_base c) t /\ waited s c t)) with (m := busy (reg_base c) s);
    [|by split_and!|pose proof max_settle_ok; lia].
  intros i m t (-> & Ho & Ha). apply wp_bind.
  assert (Hm : wp (if i =? 700 then printf BusyWaiting else ret tt)
    (fun _ t' => waited s c t' /\ busy (reg_base c) t' = busy (reg_base c) t) t).
  { destruct (i =? 700); [red; cbn [printf modify]|by apply wp_ret].
    split; [|done]. split; [|done]. etrans; [exact Ho|apply only_messages]. }
  eapply wp_mono; [exact Hm|]. intros [] t' [Hw E]. apply (wp_busy_round s c i Hb Hpop t' _ Hw).
  - intros r s' Hs. by apply wp_ret.
  - intros s' Hw' Hlt. exists (busy (reg_base c) s'). split; [by rewrite <- E|done].
Qed.

(** ** Selecting *)

(** The channel is not busy, nothing is being transferred, and the drives hold
    what they held. *)
Definition quiet (b : Z) s s' : Prop :=
  only b s s' /\ busy b s' = 0%nat /\ ph (at_chan b s') = Idle /\ intrq (at_chan b s') = false /\
  master (at_chan b s') = master (at_chan b s) /\ slave (at_chan b s') = slave (at_chan b s).

Lemma wp_get_disk s d c x (Q : disk -> D -> Prop) : channels s !! Z.to_nat (chan_no d) = Some c ->
  devices c !! Z.to_nat (unit_no d) = Some x -> Q x s -> wp (get_disk d) Q s.
Proof. intros Ec Ex HQ. apply wp_bind. eapply wp_get_channel; [done|]. by rewrite Ex. Qed.

(** Writing a register that is no command. *)
Lemma wp_set_register b r v s : b ∈ bases -> r ∈ [2; 3; 4; 5; 6] ->
  wp (outb (b + r) v) (fun _ s' => only b s s' /\ (busy b s' <= busy b s)%nat /\ at_chan b s' = ata_out r (u8 v) (at_chan b s)) s.
Proof.
  intros Hb Hr. eapply wp_mono; [apply wp_out; [done|unfold offsets; set_solver]|].
  intros [] s' (Ho & Ha & Hle). split_and!; try done.
  rewrite decide_False in Hle by (intros E; destruct E as [-> | ->]; set_solver). lia.
Qed.

Lemma wp_select_device s d c x : on_base s (chan_no d) c -> devices c !! Z.to_nat (unit_no d) = Some x ->
  wp (select_device d) (fun _ s' => only (reg_base c) s s' /\
    at_chan (reg_base c) s' = ata_out 6 (if dev_no x =? 1 then 0xb0 else 0xa0) (at_chan (reg_base c) s) /\
    (populated (at_chan (reg_base c) s) -> (busy (reg_base c) s' <= busy (reg_base c) s)%nat)) s.
Proof.
  intros [Ec Hb] Ex. unfold select_device. apply wp_bind. eapply wp_get_channel; [done|].
  apply wp_bind. eapply wp_get_disk; [done..|]. apply wp_bind.
  eapply wp_mono; [apply (wp_set_register (reg_base c) 6); [done|set_solver]|]. intros [] s1 (Ho1 & Hz1 & Ha1).
  apply wp_bind. eapply wp_mono; [by apply (wp_any_status (reg_base c) 0x206); [|right]|].
  intros v s2 (Ho2 & Ha2 & Hst & _). red. cbn [timer_nsleep modify]. split; [|split].
  - etrans; [exact Ho1|]. etrans; [exact Ho2|]. apply only_slept. lia.
  - change (at_chan (reg_base c) s2 = ata_out 6 (if dev_no x =? 1 then 0xb0 else 0xa0) (at_chan (reg_base c) s)).
    rewrite Ha2, Ha1. by destruct (dev_no x =? 1).
  - intros Hp. change (busy (reg_base c) s2 <= busy (reg_base c) s)%nat.
    rewrite Ha1 in Hst. destruct (Hst Hp) as [Hs _]. destruct (Z.testbit v 7); [lia|]. destruct Hs as [-> _]. lia.
Qed.

Lemma wp_select_device_wait s d c x : on_base s (chan_no d) c -> devices c !! Z.to_nat (unit_no d) = Some x ->
  populated (at_chan (reg_base c) s) -> busy (reg_base c) s = 0%nat -> ph (at_chan (reg_base c) s) = Idle ->
  wp (select_device_wait d) (fun _ s' => quiet (reg_base c) s s' /\
    r_device (at_chan (reg_base c) s') = (if dev_no x =? 1 then 0xb0 else 0xa0)) s.
Proof.
  intros Hon Ex Hp Hz Hid. unfold select_device_wait. apply wp_bind.
  eapply wp_mono; [by apply (wp_wait_until_idle s d c)|]. intros [] s1 (Ho1 & _ & _ & Hz1 & Ha1).
  apply wp_bind. eapply wp_mono; [eapply (wp_select_device s1 d c); [by eapply on_base_only|done]|].
  intros [] s2 (Ho2 & Ha2 & Hz2). rewrite Ha1 in Ha2, Hz2. specialize (Hz2 Hp).
  eapply wp_mono; [eapply (wp_wait_until_idle s2 d c); [|by rewrite Ha2|lia|by rewrite Ha2]|].
  { eapply on_base_only; [exact Ho2|]. by eapply on_base_only. }
  intros [] s3 (Ho3 & _ & _ & Hz3 & Ha3). rewrite Ha2 in Ha3. unfold quiet. rewrite Ha3. split_and!; try done.
  etrans; [exact Ho1|]. by etrans.
Qed.

(** The bytes of a sector number, put together again. *)
Lemma lba_bytes sec u : 0 <= sec < 2 ^ 28 ->
  let dev := u8 (Z.lor (Z.lor (Z.lor DEV_MBS DEV_LBA) (if u : bool then DEV_DEV else 0)) (Z.shiftr sec 24)) in
  u8 sec + 2 ^ 8 * u8 (Z.shiftr sec 8) + 2 ^ 16 * u8 (Z.shiftr sec 16) + 2 ^ 24 * (dev mod 16) = sec /\
  Z.testbit dev 4 = u.
Proof.
  intros Hs dev. rewrite !Z.shiftr_div_pow2 by lia.
  assert (Hd : dev = (if u then 0xf0 else 0xe0) + sec / 2 ^ 24).
  { unfold dev. rewrite Z.shiftr_div_pow2 by lia. set (q := sec / 2 ^ 24).
    assert (Hq : 0 <= q < 16) by (unfold q; Z.to_euclidean_division_equations; lia).
    rewrite Z.lor_comm. replace (Z.lor (Z.lor DEV_MBS DEV_LBA) (if u then DEV_DEV else 0)) with (Z.shiftl (if u then 15 else 14) 4) by by destruct u.
    rewrite (lor_shift q _ 4) by lia. rewrite uwrap_small by (unfold in_u; destruct u; lia). destruct u; lia. }
  assert (Hq : 0 <= sec / 2 ^ 24 < 16) by (Z.to_euclidean_division_equations; lia). rewrite Hd. split.
  - replace (((if u then 0xf0 else 0xe0) + sec / 2 ^ 24) mod 16) with (sec / 2 ^ 24).
    + unfold uwrap. Z.to_euclidean_division_equations; lia.
    + destruct u; Z.to_euclidean_division_equations; lia.
  - assert (Hcase : sec / 2 ^ 24 ∈ (map Z.of_nat (seq 0 16))).
    { apply list_elem_of_fmap. exists (Z.to_nat (sec / 2 ^ 24)). split; [lia|]. apply elem_of_seq. lia. }
    revert Hcase. generalize (sec / 2 ^ 24). intros q Hcase. destruct u; cbn in Hcase; set_unfold in Hcase;
      repeat (destruct Hcase as [->|Hcase]; [done|]); done.
Qed.

(** Selecting a sector that the disk has. *)
Lemma wp_select_sector s d c x sec : on_base s (chan_no d) c -> devices c !! Z.to_nat (unit_no d) = Some x ->
  populated (at_chan (reg_base c) s) -> busy (reg_base c) s = 0%nat -> ph (at_chan (reg_base c) s) = Idle -> 0 <= sec < capacity x -> sec < 2 ^ 28 ->
  wp (select_sector d sec) (fun _ s' => quiet (reg_base c) s s' /\
    lba (at_chan (reg_base c) s') = sec /\ selected (at_chan (reg_base c) s') = (dev_no x =? 1)) s.
Proof.
  intros [Ec Hb] Ex Hp Hz Hid Hsec H28. unfold select_sector. apply wp_bind. eapply wp_get_channel; [done|].
  apply wp_bind. eapply wp_get_disk; [done..|].
  apply wp_bind, wp_assertb; [apply Z.ltb_lt; lia|]. apply wp_bind, wp_assertb; [by apply Z.ltb_lt|].
  apply wp_bind. eapply wp_mono; [eapply (wp_select_device_wait s d c); done|].
  intros [] s0 [(Ho0 & Hz0 & Hid0 & Hi0 & Hm0 & Hs0) _].
  apply wp_bind. eapply wp_mono; [apply (wp_set_register (reg_base c) 2); [done|set_solver]|]. intros [] s1 (Ho1 & Hz1 & Ha1).
  apply wp_bind. eapply wp_mono; [apply (wp_set_register (reg_base c) 3); [done|set_solver]|]. intros [] s2 (Ho2 & Hz2 & Ha2).
  apply wp_bind. eapply wp_mono; [apply (wp_set_register (reg_base c) 4); [done|set_solver]|]. intros [] s3 (Ho3 & Hz3 & Ha3).
  apply wp_bind. eapply wp_mono; [apply (wp_set_register (reg_base c) 5); [done|set_solver]|]. intros [] s4 (Ho4 & Hz4 & Ha4).
  eapply wp_mono; [apply (wp_set_register (reg_base c) 6); [done|set_solver]|]. intros [] s5 (Ho5 & Hz5 & Ha5).
  rewrite Ha4, Ha3, Ha2, Ha1 in Ha5. unfold quiet. rewrite Ha5.
  destruct (lba_bytes sec (dev_no x =? 1)) as [Hl Hu]; [lia|]. split; [split_and!; try done; [|lia]|by split].
  etrans; [exact Ho0|]. etrans; [exact Ho1|]. etrans; [exact Ho2|]. etrans; [exact Ho3|]. by etrans.
Qed.

(** ** Commands *)

(** The driver's record of channel [n] becomes [c]. *)
Definition with_channel (n : Z) (c : channel) s : D := set_channels (<[Z.to_nat n := c]> (channels s)) s.

Lemma wp_upd_channel s n c f (Q : unit -> D -> Prop) : channels s !! Z.to_nat n = Some c ->
  Q tt (with_channel n (f c) s) -> wp (upd_channel n f) Q s.
Proof. intros E HQ. unfold upd_channel. apply wp_bind. by eapply wp_get_channel. Qed.

Lemma lookup_with_channel s n c c' : channels s !! Z.to_nat n = Some c -> channels (with_channel n c' s) !! Z.to_nat n = Some c'.
Proof. intros E. cbn. apply list_lookup_insert_eq. by eapply lookup_lt_Some. Qed.

Lemma with_channel_twice s n c c' : with_channel n c' (with_channel n c s) = with_channel n c' s.
Proof. unfold with_channel, set_channels. cbn. by rewrite list_insert_insert_eq. Qed.

Lemma with_channel_id s n c : channels s !! Z.to_nat n = Some c -> with_channel n c s = s.
Proof. intros E. unfold with_channel, set_channels. rewrite list_insert_id by done. by destruct s. Qed.

Lemma wp_issue_pio_command s n c v : on_base s n c -> level_on s = true -> in_u 8 v ->
  wp (issue_pio_command n v) (fun _ s' => only (reg_base c) (with_channel n (set_expecting true c) s) s' /\
    (busy (reg_base c) s' <= max_settle)%nat /\ at_chan (reg_base c) s' = command v (at_chan (reg_base c) s)) s.
Proof.
  intros [Ec Hb] Hl Hv. unfold issue_pio_command. apply wp_bind. red. cbn [get]. apply wp_bind, wp_assertb; [done|].
  apply wp_bind. eapply wp_upd_channel; [done|]. apply wp_bind. eapply wp_get_channel; [by eapply lookup_with_channel|].
  eapply wp_mono; [apply (wp_out (reg_base c) 7); [done|unfold offsets; set_solver]|].
  intros [] s' (Ho & Ha & Hle). split_and!; [done|by rewrite decide_True in Hle by lia|].
  rewrite Ha, uwrap_small by done. done.
Qed.

(** ** Transfers *)

(** The bytes of a word, the first one first; and back. *)
Definition bytes_of (ws : list Z) : list Z := ws ≫= (fun w => [w mod 256; w / 256]).
Fixpoint words_of (l : list Z) : list Z :=
  match l with b0 :: b1 :: l => (b0 + 256 * b1) :: words_of l | _ => [] end.

Lemma words_of_bytes ws : Forall (in_u 16) ws -> words_of (bytes_of ws) = ws.
Proof.
  induction 1 as [|w ws Hw _ IH]; [done|]. cbn [bytes_of mbind list_bind app words_of].
  change (ws ≫= (fun w => [w mod 256; w / 256])) with (bytes_of ws). rewrite IH. f_equal. pose proof (Z.div_mod w 256). lia.
Qed.

Lemma even_ind (P : list Z -> Prop) : P [] -> (forall b0 b1 l, P l -> P (b0 :: b1 :: l)) ->
  forall n l, length l = (2 * n)%nat -> P l.
Proof.
  intros H0 H2 n. induction n as [|n IH]; intros l Hl; [by destruct l|].
  destruct l as [|b0 [|b1 l]]; cbn in Hl; [lia..|]. apply H2, IH. lia.
Qed.

Lemma bytes_of_words n l : length l = (2 * n)%nat -> Forall (in_u 8) l -> bytes_of (words_of l) = l.
Proof.
  revert n l. apply (even_ind (fun l => Forall (in_u 8) l -> bytes_of (words_of l) = l)); [done|].
  intros b0 b1 l IH Hl. inversion_clear Hl as [|?? H0 Hl']. inversion_clear Hl' as [|?? H1 Hl].
  cbn [words_of bytes_of mbind list_bind app]. change (words_of l ≫= (fun w => [w mod 256; w / 256])) with (bytes_of (words_of l)).
  rewrite IH by done. unfold in_u in *. f_equal; [|f_equal]; Z.to_euclidean_division_equations; lia.
Qed.

Lemma length_words_of n l : length l = (2 * n)%nat -> length (words_of l) = n.
Proof. revert l. induction n as [|n IH]; intros [|b0 [|b1 l]]; cbn; try lia. intros Hl. rewrite IH by lia. done. Qed.

Lemma words_in n l : length l = (2 * n)%nat -> Forall (in_u 8) l -> Forall (in_u 16) (words_of l).
Proof.
  revert n l. apply (even_ind (fun l => Forall (in_u 8) l -> Forall (in_u 16) (words_of l))); [done|].
  intros b0 b1 l IH Hl. inversion_clear Hl as [|?? H0 Hl']. inversion_clear Hl' as [|?? H1 Hl].
  constructor; [unfold in_u in *; lia|by apply IH].
Qed.

Lemma length_bytes_of ws : length (bytes_of ws) = (2 * length ws)%nat.
Proof. induction ws as [|w ws IH]; [done|]. change (bytes_of (w :: ws)) with (w mod 256 :: w / 256 :: bytes_of ws). cbn [length]. lia. Qed.

(** What is left to hand out. *)
Definition still (ws : list Z) : phase := match ws with [] => Idle | _ => Reading ws end.

Lemma wp_insw b ws s : b ∈ bases -> busy b s = 0%nat -> ph (at_chan b s) = still ws ->
  wp (insw (length ws) b) (fun l s' => l = bytes_of ws /\ only b s s' /\ busy b s' = 0%nat /\
    at_chan b s' = set_ph Idle (at_chan b s)) s.
Proof.
  intros Hb. revert s. induction ws as [|w ws IH]; intros s Hz Hp; cbn [insw length].
  { apply wp_ret. split_and!; try done. change (still []) with Idle in Hp. rewrite <- Hp. by destruct (at_chan b s). }
  apply wp_bind. destruct (inw_data b (ahw s) w (set_ph (still ws) (at_chan b s)) Hb Hz) as (Hw & Hc & Hz').
  { unfold ata_take. change (chan b (ahw s)) with (at_chan b s). by rewrite Hp. }
  unfold inw, wp, bind, get. destruct (io_inw b (ahw s)) as [v h] eqn:E. cbn [fst snd] in Hw, Hc, Hz'. subst v.
  change (wp (l ← insw (length ws) b; ret (w mod 256 :: w / 256 :: l)) (fun l s' => l = bytes_of (w :: ws) /\ only b s s' /\
    busy b s' = 0%nat /\ at_chan b s' = set_ph Idle (at_chan b s)) (set_ahw h s)).
  apply wp_bind. eapply wp_mono; [apply IH; [done|by unfold at_chan; cbn; rewrite Hc]|].
  intros l s' (-> & Ho & Hz2 & Ha). apply wp_ret. split_and!; try done.
  - etrans; [|exact Ho]. apply only_ahw. intros b' Hb' Hn.
    destruct (other_chan b b' (ahw s) Hb Hb' Hn) as (_ & _ & H1 & H2 & _). rewrite E in H1, H2. done.
  - rewrite Ha. unfold at_chan at 1. cbn. by rewrite Hc.
Qed.

Section Writing.
Variables (b : Z) (u : bool) (n : Z) (d : drive) (a0 : ata).
Hypothesis Hb : b ∈ bases.
Hypothesis Hd : drive_of u a0 = Some d.

(** The state when [ws] have been taken in. *)
Definition written (ws : list Z) : ata :=
  if decide (length ws = Z.to_nat 256)
  then set_intrq true (set_ph Idle (set_drive u (mk_drive (<[n := ws]> (sectors d)) (ident d)) a0))
  else set_ph (Writing u n ws) a0.

Lemma put_written v ws : (length ws < Z.to_nat 256)%nat -> ata_put v (written ws) = written (ws ++ [v]).
Proof using Hd.
  intros Hl. unfold ata_put, written. rewrite (decide_False (P := length ws = _)) by lia. cbn.
  change (drive_of u (set_ph (Writing u n ws) a0)) with (drive_of u a0). rewrite Hd.
  destruct (decide (length (ws ++ [v]) = Z.to_nat 256)); [|done]. unfold set_drive. by destruct u.
Qed.

Lemma wp_outsw k : forall l ws s, length l = (2 * k)%nat -> Forall (in_u 8) l -> (length ws + k = Z.to_nat 256)%nat ->
  (drq (at_chan b s) = true -> busy b s = 0%nat) -> at_chan b s = written ws ->
  wp (outsw b l) (fun _ s' => only b s s' /\ at_chan b s' = written (ws ++ words_of l)) s.
Proof using Hb Hd.
  induction k as [|k IH]; intros l ws s Hk HF Hl Hz Ha.
  { destruct l; [|cbn in Hk; lia]. apply wp_ret. by rewrite app_nil_r. }
  destruct l as [|b0 [|b1 l]]; [cbn in Hk; lia..|]. cbn [outsw words_of] in *.
  inversion_clear HF as [|?? H0 HF']. inversion_clear HF' as [|?? H1 HF]. cbn [length] in Hk.
  assert (Hq : drq (at_chan b s) = true) by (rewrite Ha; unfold written; by rewrite decide_False by lia).
  apply wp_bind. red. cbn [outw modify].
  destruct (outw_data b (b0 + 256 * b1) (ahw s) Hb (Hz Hq)) as [Hc Hz']; [unfold in_u in *; lia|].
  change (chan b (ahw s)) with (at_chan b s) in Hc, Hz'. rewrite Ha, put_written in Hc, Hz' by lia.
  eapply wp_mono; [apply (IH l (ws ++ [b0 + 256 * b1])); [lia|done|rewrite length_app; cbn; lia| |exact Hc]|].
  { unfold at_chan at 1. cbn. rewrite Hc. exact Hz'. }
  intros [] s' [Ho Ha']. rewrite <- app_assoc in Ha'. split; [|done]. etrans; [|exact Ho].
  apply only_ahw. intros b' Hb' Hne. destruct (other_chan b b' (ahw s) Hb Hb' Hne) as (_ & _ & _ & _ & Ho' & _). apply Ho'.
Qed.
End Writing.

(** ** Completion *)

(** The channels are where disk_init() puts them. *)
Definition wired (cs : list channel) : Prop :=
  exists c0 c1, cs = [c0; c1] /\ reg_base c0 = 0x1f0 /\ irq c0 = 46 /\ reg_base c1 = 0x170 /\ irq c1 = 47.

Lemma wired_base cs n c : wired cs -> cs !! n = Some c -> reg_base c ∈ bases.
Proof.
  intros (c0 & c1 & -> & E0 & _ & E1 & _) E. unfold bases.
  destruct n as [|[|n]]; cbn in E; simplify_eq; rewrite ?E0, ?E1; set_solver.
Qed.

Lemma wired_on_base s n c : wired (channels s) -> channels s !! Z.to_nat n = Some c -> on_base s n c.
Proof. intros Hw E. split; [done|]. by eapply wired_base. Qed.

Lemma wired_insert cs n c c' : wired cs -> cs !! n = Some c -> reg_base c' = reg_base c -> irq c' = irq c -> wired (<[n := c']> cs).
Proof.
  intros (c0 & c1 & -> & H0 & H1 & H2 & H3) E Eb Ei. destruct n as [|[|n]]; cbn in E; simplify_eq.
  - exists c', c1. split_and!; [done|congruence..].
  - exists c0, c'. split_and!; [done|congruence..].
Qed.

(** Channel [n] is [c], and the first one with its interrupt. *)
Definition first_irq (cs : list channel) (n : nat) (c : channel) : Prop :=
  cs !! n = Some c /\ forall m c', (m < n)%nat -> cs !! m = Some c' -> irq c' <> irq c.

Lemma wired_first cs n c : wired cs -> cs !! n = Some c -> first_irq cs n c.
Proof.
  intros (c0 & c1 & -> & _ & H0 & _ & H1) E. split; [done|]. intros m c' Hm E'.
  destruct n as [|[|n]], m as [|[|m]]; cbn in *; simplify_eq; lia.
Qed.

(** The handler finds the channel that interrupted. *)
Lemma handler_finds cs : forall n c k s, first_irq cs n c ->
  handle_channels (irq c) cs k s = (if expecting_interrupt c then inb (reg_status c);; completion_up (k + Z.of_nat n) else printf Unexpected) s.
Proof.
  induction cs as [|c0 cs IH]; intros n c k s [E Hf]; [done|]. destruct n as [|n]; cbn [handle_channels].
  - injection E as ->. by rewrite Z.eqb_refl, Z.add_0_r.
  - pose proof (Hf 0%nat c0 ltac:(lia) eq_refl) as Hne. destruct (Z.eqb_spec (irq c) (irq c0)); [done|].
    replace (k + Z.of_nat (S n)) with (k + 1 + Z.of_nat n) by lia. apply IH. split; [done|]. intros m c' Hm. apply (Hf (S m)). lia.
Qed.

Lemma completion_back c : completion_wait c = 0 -> set_completion 0 c = c.
Proof. destruct c. cbn. by intros ->. Qed.

(** A thread that waits for an interrupt the channel asks for goes on, and the
    semaphore is as before. *)
Lemma wp_completion_down s n c : first_irq (channels s) (Z.to_nat n) c -> reg_base c ∈ bases -> 0 <= n -> expecting_interrupt c = true ->
  completion_wait c = 0 -> populated (at_chan (reg_base c) s) -> intrq (at_chan (reg_base c) s) = true ->
  wp (completion_down n) (fun _ s' => only (reg_base c) s s' /\ busy (reg_base c) s' = 0%nat /\
    at_chan (reg_base c) s' = set_intrq false (at_chan (reg_base c) s)) s.
Proof.
  intros Hf Hb Hn Hx Hc Hp Hi. pose proof Hf as [Ec _]. unfold completion_down.
  apply wp_bind. eapply wp_get_channel; [done|]. rewrite Hc. cbn [Z.eqb]. apply wp_bind, wp_bind. red. cbn [get].
  unfold at_chan in Hi. rewrite Hi. apply wp_bind. red. cbn [put]. set (s1 := set_ahw _ s).
  destruct (until_chan (reg_base c) (ahw s) Hb Hi) as [Hc1 Hz1].
  assert (Ho1 : only (reg_base c) s s1).
  { apply only_ahw. intros b' Hb' Hne. destruct (other_chan _ b' (ahw s) Hb Hb' Hne) as (_ & _ & _ & _ & _ & Ho). exact Ho. }
  unfold interrupt_handler. apply wp_bind. red. cbn [get]. red.
  rewrite (handler_finds _ (Z.to_nat n) c 0 s1), Hx by done. replace (0 + Z.of_nat (Z.to_nat n)) with n by lia. apply wp_bind.
  eapply wp_mono; [apply (wp_status (reg_base c) 7); [done|by left|by unfold s1, at_chan; cbn; rewrite Hc1]|]. intros v s2 (Ho2 & Ha2 & Hst & H7).
  rewrite (H7 Hz1) in Hst. destruct Hst as (Hz2 & _).
  assert (Ec2 : channels s2 !! Z.to_nat n = Some c) by (rewrite (on_channels _ _ _ Ho2); exact Ec).
  eapply wp_upd_channel; [done|]. apply wp_bind. eapply wp_get_channel; [by eapply lookup_with_channel|].
  rewrite Hc. apply wp_bind, wp_assertb; [done|]. eapply wp_upd_channel; [by eapply lookup_with_channel|].
  rewrite with_channel_twice, with_channel_id; [|rewrite Ec2; f_equal; symmetry; exact (completion_back c Hc)].
  split_and!; [by etrans|done|]. rewrite Ha2. cbn. unfold at_chan. cbn. by rewrite Hc1.
Qed.
End Ops.

(** * The disk driver: reading, writing

    The driver's invariant, and what disk_read() and disk_write() do to the
    drives. *)

Section Spec.
Context {stubs : Stubs} {H : Type} {aports : AtaPorts H} {ata_hw : ATA H}.
Abbreviation D := (dstate H).
Implicit Types s : dstate H.

(** ** The invariant *)

(** The drive has the sectors it says it has. *)
Definition holds (dr : drive) (cap : Z) : Prop := forall sec, 0 <= sec < cap ->
  exists ws, sectors dr !! sec = Some ws /\ length ws = Z.to_nat 256 /\ Forall (in_u 16) ws.

(** A disk that was found is a drive at rest. *)
Definition disk_ready s (c : channel) (k : nat) (x : disk) : Prop :=
  dev_no x = Z.of_nat k /\
  (is_ata x = true -> busy (reg_base c) s = 0%nat /\ ph (at_chan (reg_base c) s) = Idle /\
     exists dr, drive_of (dev_no x =? 1) (at_chan (reg_base c) s) = Some dr /\ holds dr (capacity x)).

Definition channel_ready s (c : channel) : Prop :=
  locked c = false /\ completion_wait c = 0 /\
  forall k x, devices c !! k = Some x -> (k < 2)%nat /\ disk_ready s c k x.

Definition disks_ready s : Prop := wired (channels s) /\ level_on s = true /\
  forall n c, channels s !! n = Some c -> channel_ready s c.

(** The disk [d], and what its drive holds. *)
Definition disk_of s (d : disk_id) : option disk :=
  channels s !! Z.to_nat (chan_no d) ≫= fun c => devices c !! Z.to_nat (unit_no d).
Definition contents s (d : disk_id) : option (gmap Z (list Z)) :=
  channels s !! Z.to_nat (chan_no d) ≫= fun c =>
  drive_of (unit_no d =? 1) (at_chan (reg_base c) s) ≫= fun dr => Some (bytes_of <$> sectors dr).

Lemma only_with_channel b n c s s' : only b s s' -> only b (with_channel n c s) (with_channel n c s').
Proof. intros Ho. destruct Ho as [A1 A2 A3 A4 A5]. split; try done. cbn. by rewrite A1. Qed.

(** What the commands do to a channel that has the drive and the sector. *)
Lemma command_read a dr ws : drive_of (selected a) a = Some dr -> sectors dr !! lba a = Some ws ->
  command CMD_READ_SECTOR_RETRY a = set_intrq true (set_ph (Reading ws) (set_error 0 a)).
Proof.
  intros Hd Hs. unfold command. cbv zeta. change (drive_of (selected (set_error 0 a)) (set_error 0 a)) with (drive_of (selected a) a).
  rewrite Hd. change (lba (set_error 0 a)) with (lba a). by rewrite Hs.
Qed.

Lemma command_write a dr ws : drive_of (selected a) a = Some dr -> sectors dr !! lba a = Some ws ->
  command CMD_WRITE_SECTOR_RETRY a = set_ph (Writing (selected a) (lba a) []) (set_error 0 a).
Proof.
  intros Hd Hs. unfold command. cbv zeta. change (drive_of (selected (set_error 0 a)) (set_error 0 a)) with (drive_of (selected a) a).
  rewrite Hd. change (lba (set_error 0 a)) with (lba a). by rewrite Hs.
Qed.

(** Two steps and what follows them. *)
Lemma wp_then {S A} (m1 m2 : M S unit) (k : M S A) (Q : A -> S -> Prop) (s : S) :
  wp (m1;; m2) (fun _ => wp k Q) s -> wp (m1;; m2;; k) Q s.
Proof. unfold wp, bind. destruct (m1 s) as [[[] s1]|]; [|done]. by destruct (m2 s1) as [[[] s2]|]. Qed.

(** ** One operation *)

Section Operation.
Variables (s : D) (d : disk_id) (c : channel) (x : disk) (dr : drive) (sec : Z).
Abbreviation b := (reg_base c).
Abbreviation n := (chan_no d).
Hypothesis Hw : wired (channels s).
Hypothesis Hc : channels s !! Z.to_nat n = Some c.
Hypothesis Hn : 0 <= n.
Hypothesis Hx : devices c !! Z.to_nat (unit_no d) = Some x.
Hypothesis Hlk : locked c = false.
Hypothesis Hcw : completion_wait c = 0.
Hypothesis Hlv : level_on s = true.
Hypothesis Hbz : busy b s = 0%nat.
Hypothesis Hid : ph (at_chan b s) = Idle.
Hypothesis Hdr : drive_of (dev_no x =? 1) (at_chan b s) = Some dr.
Hypothesis Hsec : 0 <= sec < capacity x.
Hypothesis H28 : sec < 2 ^ 28.

Lemma drive_populated (u : bool) a : is_Some (drive_of u a) -> populated a.
Proof. destruct u; [by right|by left]. Qed.

(** The driver's record of the channel while a command is carried out. *)
Definition engaged : channel := set_expecting true (set_locked true c).

(** Where a command was issued for the sector: [a] is the channel before. *)
Definition issued (v : Z) (t : D) : Prop := exists a,
  only b (with_channel n engaged s) t /\ (busy b t <= max_settle)%nat /\ at_chan b t = command v a /\
  ph a = Idle /\ intrq a = false /\ lba a = sec /\ selected a = (dev_no x =? 1) /\
  master a = master (at_chan b s) /\ slave a = slave (at_chan b s).

Lemma issued_engaged v t : issued v t -> wired (channels t) /\ channels t !! Z.to_nat n = Some engaged /\ level_on t = true.
Proof using Hw Hc Hlv.
  intros (a & Ho & _). rewrite (on_channels _ _ _ Ho), (on_level _ _ _ Ho). split_and!; [|by eapply lookup_with_channel|done].
  by eapply wired_insert.
Qed.

(** From the lock to the command. *)
Lemma wp_start v {A} (k : M D A) (Q : A -> D -> Prop) : in_u 8 v -> (forall t, issued v t -> wp k Q t) ->
  wp (channel_acquire n;; select_sector d sec;; issue_pio_command n v;; k) Q s.
Proof using Hw Hc Hx Hlk Hlv Hbz Hid Hdr Hsec H28.
  intros Hv HQ. pose proof (wired_base _ _ _ Hw Hc) as Hb.
  assert (Hp : populated (at_chan b s)) by by eapply drive_populated.
  apply wp_bind. unfold channel_acquire. apply wp_bind. eapply wp_get_channel; [done|]. rewrite Hlk. apply wp_bind, wp_assertb; [done|].
  eapply wp_upd_channel; [done|]. set (s1 := with_channel n (set_locked true c) s).
  assert (E1 : channels s1 !! Z.to_nat n = Some (set_locked true c)) by by eapply lookup_with_channel.
  apply wp_bind. eapply wp_mono; [apply (wp_select_sector s1 d (set_locked true c) x sec); done|].
  intros [] s2 ((Ho2 & Hz2 & Hi2 & Hq2 & Hm2 & Hs2) & Hl2 & Hu2). cbn in Ho2, Hz2, Hi2, Hq2, Hm2, Hs2, Hl2, Hu2.
  apply wp_bind. eapply wp_mono; [apply (wp_issue_pio_command s2 n (set_locked true c) v)|].
  - split; [by rewrite (on_channels _ _ _ Ho2)|done].
  - by rewrite (on_level _ _ _ Ho2).
  - done.
  - intros [] t (Ho & Hz & Ha). apply HQ. exists (at_chan b s2). split_and!; try done.
    etrans; [|exact Ho]. pose proof (only_with_channel _ n engaged _ _ Ho2) as Hoo. unfold s1 in Hoo.
    by rewrite with_channel_twice in Hoo.
Qed.

(** The record of the channel when the command is done. *)
Definition released (f : disk -> disk) : channel :=
  set_locked false (set_devices (<[Z.to_nat (unit_no d) := f x]> (devices c)) engaged).

Lemma wp_finish f t (Q : unit -> D -> Prop) : only b (with_channel n engaged s) t ->
  (forall t', only b (with_channel n (released f) s) t' -> ahw t' = ahw t -> Q tt t') ->
  wp (upd_disk d f;; channel_release n) Q t.
Proof using Hc Hx.
  intros Ho HQ. assert (E : channels t !! Z.to_nat n = Some engaged).
  { rewrite (on_channels _ _ _ Ho). by eapply lookup_with_channel. }
  apply wp_bind. unfold upd_disk. apply wp_bind. eapply wp_get_disk; [done..|]. eapply wp_upd_channel; [done|].
  unfold channel_release. apply wp_bind. eapply wp_get_channel; [by eapply lookup_with_channel|].
  apply wp_bind, wp_assertb; [done|]. eapply wp_upd_channel; [by eapply lookup_with_channel|].
  rewrite with_channel_twice. apply HQ; [|done].
  pose proof (only_with_channel _ n (released f) _ _ Ho) as Hoo. by rewrite with_channel_twice in Hoo.
Qed.

(** disk_read(): the words of the sector, as bytes; the drives are as before. *)
Lemma wp_read_sector ws : sectors dr !! sec = Some ws -> length ws = Z.to_nat 256 ->
  wp (disk_read d sec) (fun l t => l = bytes_of ws /\
    only b (with_channel n (released (fun x => set_read_cnt (i64 (read_cnt x + 1)) x)) s) t /\
    busy b t = 0%nat /\ ph (at_chan b t) = Idle /\
    master (at_chan b t) = master (at_chan b s) /\ slave (at_chan b t) = slave (at_chan b s)) s.
Proof using Hw Hc Hn Hx Hlk Hcw Hlv Hbz Hid Hdr Hsec H28.
  intros Hws Hlen. pose proof (wired_base _ _ _ Hw Hc) as Hb. unfold disk_read. apply wp_start; [done|].
  intros t1 Hi. destruct (issued_engaged _ _ Hi) as (Hw1 & E1 & Hl1). destruct Hi as (a & Ho1 & Hz1 & Ha1 & Hp & Hq & Hlba & Hu & Hm & Hs).
  assert (Hda : drive_of (selected a) a = Some dr).
  { rewrite Hu. unfold drive_of in *. destruct (dev_no x =? 1); [by rewrite Hs|by rewrite Hm]. }
  rewrite (command_read a dr ws) in Ha1 by (by rewrite ?Hlba).
  assert (Hpa : populated a) by (eapply drive_populated; by rewrite Hda).
  apply wp_bind. eapply wp_mono; [apply (wp_completion_down t1 n engaged); [by apply wired_first|done..| |]; change (reg_base engaged) with b; by rewrite Ha1|].
  intros [] t2 (Ho2 & Hz2 & Ha2). change (reg_base engaged) with b in Ho2, Hz2, Ha2. rewrite Ha1 in Ha2.
  assert (E2 : on_base t2 n engaged) by (split; [by rewrite (on_channels _ _ _ Ho2)|done]).
  apply wp_bind. eapply wp_mono; [apply (wp_wait_while_busy t2 d engaged); [done|change (reg_base engaged) with b; by rewrite Ha2|change (reg_base engaged) with b; lia]|].
  intros r t3 (Ho3 & -> & Hz3 & Ha3). change (reg_base engaged) with b in Ho3, Hz3, Ha3 |- *. rewrite Ha2 in Ha3 |- *. apply wp_bind, wp_assertb; [done|].
  apply wp_bind. unfold input_sector. apply wp_bind. eapply wp_get_channel; [rewrite (on_channels _ _ _ Ho3); apply E2|].
  unfold reg_data. rewrite Z.add_0_r, <- Hlen. eapply wp_mono; [apply (wp_insw b ws); [done|done|]|].
  { rewrite Ha3. by destruct ws; [cbn in Hlen; lia|]. }
  intros l t4 (-> & Ho4 & Hz4 & Ha4).
  assert (Ho : only b (with_channel n engaged s) t4) by (etrans; [exact Ho1|]; etrans; [exact Ho2|]; by etrans).
  apply wp_then, wp_finish; [done|]. intros t5 Ho5 Eh. apply wp_ret. split; [done|]. split; [done|].
  unfold at_chan, busy in *. rewrite Eh, Ha4, Ha3. by split_and!.
Qed.

(** disk_write(): the sector of the drive holds the bytes. *)
Lemma wp_write_sector ws0 l : sectors dr !! sec = Some ws0 -> length l = Z.to_nat 512 -> Forall (in_u 8) l ->
  wp (disk_write d sec l) (fun _ t =>
    only b (with_channel n (released (fun x => set_write_cnt (i64 (write_cnt x + 1)) x)) s) t /\
    busy b t = 0%nat /\ ph (at_chan b t) = Idle /\ (forall u, drive_of u (at_chan b t) =
      if bool_decide (u = (dev_no x =? 1)) then Some (mk_drive (<[sec := words_of l]> (sectors dr)) (ident dr))
      else drive_of u (at_chan b s))) s.
Proof using Hw Hc Hn Hx Hlk Hcw Hlv Hbz Hid Hdr Hsec H28.
  intros Hws Hlen Hl8. pose proof (wired_base _ _ _ Hw Hc) as Hb. unfold disk_write. apply wp_start; [done|].
  intros t1 Hi. destruct (issued_engaged _ _ Hi) as (Hw1 & E1 & Hl1). destruct Hi as (a & Ho1 & Hz1 & Ha1 & Hp & Hq & Hlba & Hu & Hm & Hs).
  assert (Hda : drive_of (selected a) a = Some dr).
  { rewrite Hu. unfold drive_of in *. destruct (dev_no x =? 1); [by rewrite Hs|by rewrite Hm]. }
  rewrite (command_write a dr ws0) in Ha1 by (by rewrite ?Hlba).
  assert (Hpa : populated a) by (eapply drive_populated; by rewrite Hda).
  apply wp_bind. eapply wp_mono; [apply (wp_wait_while_busy t1 d engaged); [by split|change (reg_base engaged) with b; by rewrite Ha1|done]|].
  intros r t2 (Ho2 & -> & Hz2 & Ha2). change (reg_base engaged) with b in Ho2, Hz2, Ha2 |- *. rewrite Ha1 in Ha2 |- *.
  apply wp_bind, wp_assertb; [done|].
  apply wp_bind. unfold output_sector. apply wp_bind. eapply wp_get_channel; [by rewrite (on_channels _ _ _ Ho2)|].
  unfold reg_data. rewrite Z.add_0_r. change (reg_base engaged) with b.
  set (a0 := set_error 0 a). assert (Hd0 : drive_of (selected a) a0 = Some dr) by done.
  eapply wp_mono; [apply (wp_outsw b (selected a) sec dr a0 Hb Hd0 (Z.to_nat 256) l []); [lia|done|done|done|]|].
  { rewrite Ha2, Hlba. unfold written. by rewrite decide_False by (cbn; lia). }
  intros [] t3 (Ho3 & Ha3). cbn [app] in Ha3. unfold written in Ha3. rewrite decide_True in Ha3 by (apply length_words_of; lia).
  set (dr' := mk_drive _ _) in *.
  assert (Hd3 : forall u, drive_of u (at_chan b t3) = if bool_decide (u = (dev_no x =? 1)) then Some dr' else drive_of u (at_chan b s)).
  { intros u. rewrite Ha3, Hu. unfold drive_of, set_drive, a0. destruct (dev_no x =? 1), u; cbn; done. }
  apply wp_bind. eapply wp_mono; [apply (wp_completion_down t3 n engaged); try done|].
  - rewrite (on_channels _ _ _ Ho3), (on_channels _ _ _ Ho2). by apply wired_first.
  - eapply (drive_populated (dev_no x =? 1)). change (reg_base engaged) with b. rewrite Hd3, bool_decide_eq_true_2 by done. done.
  - change (reg_base engaged) with b. by rewrite Ha3.
  - intros [] t4 (Ho4 & Hz4 & Ha4). change (reg_base engaged) with b in Ho4, Hz4, Ha4.
    apply wp_finish; [etrans; [exact Ho1|]; etrans; [exact Ho2|]; by etrans|]. intros t5 Ho5 Eh. split; [done|].
    unfold at_chan, busy in *. rewrite Eh, Ha4. split_and!; [done|by rewrite Ha3; unfold set_drive; destruct (selected a)|exact Hd3].
Qed.
End Operation.

(** ** All disks *)

Definition valid_id (d : disk_id) : Prop := (chan_no d = 0 \/ chan_no d = 1) /\ (unit_no d = 0 \/ unit_no d = 1).

(** The static data of a disk. *)
Definition same_disk (x y : disk) : Prop := dev_no y = dev_no x /\ is_ata y = is_ata x /\ capacity y = capacity x.

Section Whole.
Variables (s t : D) (d : disk_id) (c : channel) (x : disk) (f : disk -> disk).
Abbreviation b := (reg_base c).
Hypothesis Hr : disks_ready s.
Hypothesis Hd : valid_id d.
Hypothesis Hc : channels s !! Z.to_nat (chan_no d) = Some c.
Hypothesis Hx : devices c !! Z.to_nat (unit_no d) = Some x.
Hypothesis Hf : same_disk x (f x).
Hypothesis Ho : only b (with_channel (chan_no d) (released d c x f) s) t.

Lemma channels_after m c' : channels t !! m = Some c' ->
  m = Z.to_nat (chan_no d) /\ c' = released d c x f \/ m <> Z.to_nat (chan_no d) /\ channels s !! m = Some c'.
Proof using Hc Ho.
  rewrite (on_channels _ _ _ Ho). cbn. destruct (decide (m = Z.to_nat (chan_no d))) as [->|Hne].
  - rewrite list_lookup_insert_eq by (by eapply lookup_lt_Some). intros [= <-]. by left.
  - rewrite list_lookup_insert_ne by done. by right.
Qed.

(** The other channel is as it was. *)
Lemma other_after m c' : channels s !! m = Some c' -> m <> Z.to_nat (chan_no d) ->
  at_chan (reg_base c') t = at_chan (reg_base c') s /\ busy (reg_base c') t = busy (reg_base c') s.
Proof using Hr Hc Ho.
  intros E Hne. destruct Hr as (Hw & _). apply (on_other _ _ _ Ho); [by eapply wired_base|].
  destruct Hw as (c0 & c1 & Ecs & H0 & _ & H1 & _). rewrite Ecs in E, Hc.
  destruct m as [|[|m]], (Z.to_nat (chan_no d)) as [|[|k]]; cbn in *; simplify_eq; rewrite ?H0, ?H1; done.
Qed.

Lemma ready_after : busy b t = 0%nat -> ph (at_chan b t) = Idle ->
  (forall u dr cap, drive_of u (at_chan b s) = Some dr -> holds dr cap -> exists dr', drive_of u (at_chan b t) = Some dr' /\ holds dr' cap) ->
  disks_ready t.
Proof using Hr Hc Hx Hf Ho.
  intros Hz Hi Hdr. pose proof Hr as (Hw & Hl & Hall). split_and!.
  - rewrite (on_channels _ _ _ Ho). by eapply wired_insert.
  - by rewrite (on_level _ _ _ Ho).
  - intros m c' Em. destruct (channels_after m c' Em) as [[-> ->]|[Hne Es]].
    + destruct (Hall _ _ Hc) as (_ & Hcw & Hdev). split_and!; [done|done|]. intros k y Ey. cbn in Ey.
      assert (Hy : exists y0, devices c !! k = Some y0 /\ same_disk y0 y).
      { destruct (decide (k = Z.to_nat (unit_no d))) as [->|Hk].
        - rewrite list_lookup_insert_eq in Ey by (by eapply lookup_lt_Some). injection Ey as <-. by exists x.
        - rewrite list_lookup_insert_ne in Ey by done. by exists y. }
      destruct Hy as (y0 & Ey0 & Hs1 & Hs2 & Hs3). destruct (Hdev k y0 Ey0) as (Hk & Hdn & Hata).
      split; [done|]. split; [by rewrite Hs1|]. rewrite Hs1, Hs2, Hs3. intros Ha. destruct (Hata Ha) as (_ & _ & dr & E1 & E2).
      split_and!; [done|done|]. by eapply Hdr.
    + destruct (other_after m c' Es Hne) as [Ea Eb]. destruct (Hall _ _ Es) as (H1 & H2 & H3). split_and!; [done..|].
      intros k y Ey. destruct (H3 k y Ey) as (Hk & Hy). split; [done|]. unfold disk_ready. by rewrite Ea, Eb.
Qed.

Lemma disk_of_after d' : valid_id d' -> disk_of t d' = if bool_decide (d' = d) then Some (f x) else disk_of s d'.
Proof using Hd Hc Hx Ho.
  intros Hd'. unfold disk_of. rewrite (on_channels _ _ _ Ho). cbn.
  destruct d as [n u], d' as [n' u'], Hd as [Hn Hu], Hd' as [Hn' Hu']. cbn [chan_no unit_no] in *.
  destruct (decide (n' = n)) as [->|Hne].
  - rewrite list_lookup_insert_eq by (by eapply lookup_lt_Some). rewrite Hc. cbn. destruct (decide (u' = u)) as [->|Hue].
    + rewrite list_lookup_insert_eq, bool_decide_eq_true_2 by (done || by eapply lookup_lt_Some). done.
    + rewrite list_lookup_insert_ne by lia. rewrite bool_decide_eq_false_2 by congruence. done.
  - rewrite list_lookup_insert_ne by lia. by rewrite bool_decide_eq_false_2 by congruence.
Qed.

Lemma contents_after d' : valid_id d' -> contents t d' =
  if decide (chan_no d' = chan_no d) then drive_of (unit_no d' =? 1) (at_chan b t) ≫= fun dr => Some (bytes_of <$> sectors dr)
  else contents s d'.
Proof using Hr Hd Hc Ho.
  intros Hd'. unfold contents. rewrite (on_channels _ _ _ Ho). cbn. destruct (decide (chan_no d' = chan_no d)) as [E|E].
  - rewrite E. rewrite list_lookup_insert_eq by (by eapply lookup_lt_Some). done.
  - destruct Hd as [Hn _], Hd' as [Hn' _]. rewrite list_lookup_insert_ne by lia.
    destruct (channels s !! Z.to_nat (chan_no d')) as [c'|] eqn:Ec'; [|done]. cbn.
    destruct (other_after _ c' Ec') as [-> _]; [lia|done].
Qed.
End Whole.
End Spec.
