(* ===== verification/DiskInit.v ===== *)
(** * The disk driver: finding the disks

    Resetting a channel, telling disks from other devices, and reading their
    identity. *)

From Stdlib Require Import ZArith Lia.
From stdpp Require Import base numbers gmap list strings.
From S2P Require Import Prelude CStdlib Gdt Idt AtaHardware Disk DiskSpec.

Open Scope Z_scope.

(** A loop that may end in either way keeps what its body keeps. *)
Lemma wp_find_keeps {S R} (I : S -> Prop) (body : Z -> M S (option R)) n :
  (forall i s, I s -> wp (body i) (fun _ => I) s) -> forall i s, I s -> wp (find_from n i body) (fun _ => I) s.
Proof.
  intros Hb. induction n as [|n IH]; intros i s HI; cbn [find_from]; [by apply wp_ret|]. apply wp_bind.
  eapply wp_mono; [by apply Hb|]. intros [x|] t Ht; [by apply wp_ret|by apply IH].
Qed.

Section Init.
Context {stubs : Stubs} {H : Type} {aports : AtaPorts H} {ata_hw : ATA H}.
Abbreviation D := (dstate H).
Implicit Types s t : dstate H.

(** ** What polling leaves alone *)

(** All but the registers for the sector, and the interrupt. *)
Definition alike (a a' : ata) : Prop := r_error a' = r_error a /\ r_lbam a' = r_lbam a /\ r_lbah a' = r_lbah a /\
  ph a' = ph a /\ master a' = master a /\ slave a' = slave a.

Record steady (b : Z) s t : Prop := {
  sd_only : only b s t;
  sd_alike : alike (at_chan b s) (at_chan b t);
  sd_busy : populated (at_chan b s) -> (busy b t <= busy b s)%nat }.

#[global] Instance steady_po b : PreOrder (steady b).
Proof.
  split; [intros s; by split|]. intros s t u [A1 A2 A3] [B1 B2 B3]. split; [by etrans| |].
  - destruct A2 as (?&?&?&?&?&?), B2 as (?&?&?&?&?&?). split_and!; congruence.
  - intros Hp. assert (Hp' : populated (at_chan b t)).
    { destruct A2 as (_&_&_&_&Em&Es). unfold populated. by rewrite Em, Es. }
    specialize (A3 Hp). specialize (B3 Hp'). lia.
Qed.

Lemma steady_populated b s t : steady b s t -> populated (at_chan b s) <-> populated (at_chan b t).
Proof. intros [_ (_&_&_&_&Em&Es) _]. unfold populated. by rewrite Em, Es. Qed.

Lemma steady_on_base b s t n c : steady b s t -> on_base s n c -> on_base t n c.
Proof. intros [Ho _ _]. by eapply on_base_only. Qed.

Lemma steady_out b r v s : b ∈ bases -> r ∈ [2; 3; 6] ->
  wp (outb (b + r) v) (fun _ t => steady b s t /\ at_chan b t = ata_out r (u8 v) (at_chan b s)) s.
Proof.
  intros Hb Hr. eapply wp_mono; [apply wp_set_register; [done|set_solver]|]. intros [] t (Ho & Hz & Ha). split; [|done].
  split; [done| |done]. rewrite Ha. set_unfold. by destruct Hr as [->|[->|[->|[]]]].
Qed.

Lemma steady_status b r s : b ∈ bases -> r = 7 \/ r = 0x206 -> wp (inb (b + r)) (fun _ => steady b s) s.
Proof.
  intros Hb Hr. eapply wp_mono; [by apply wp_any_status|]. intros v t (Ho & Ha & Hs & _). split; [done| |].
  - rewrite Ha. by destruct (r =? 7).
  - intros Hp. destruct (Hs Hp) as [Hb' _]. destruct (Z.testbit v 7); [lia|]. destruct Hb' as [-> _]. lia.
Qed.

Lemma steady_in b r s : b ∈ bases -> r ∈ [1; 2; 3; 4; 5] -> wp (inb (b + r)) (fun _ => steady b s) s.
Proof.
  intros Hb Hr. eapply wp_mono; [by apply wp_register|]. intros v t (Ho & Ha & Hz & _). split; [done|by rewrite Ha|intros _; lia].
Qed.

Lemma steady_slept b s n : 0 <= n -> steady b s (set_slept (slept s + n) s).
Proof. intros Hn. split; [by apply only_slept|done|done]. Qed.

Lemma steady_messages b s l : steady b s (set_messages l s).
Proof. split; [apply only_messages|done|done]. Qed.

Lemma steady_maybe b s t (q : bool) m : steady b s t -> wp (if q then printf m else ret tt) (fun _ => steady b s) t.
Proof. intros Ht. destruct q; [red; cbn [printf modify]; etrans; [exact Ht|apply steady_messages]|by apply wp_ret]. Qed.

Lemma steady_select s d c x : on_base s (chan_no d) c -> devices c !! Z.to_nat (unit_no d) = Some x ->
  wp (select_device d) (fun _ t => steady (reg_base c) s t /\
    at_chan (reg_base c) t = ata_out 6 (if dev_no x =? 1 then 0xb0 else 0xa0) (at_chan (reg_base c) s)) s.
Proof.
  intros Hon Ex. eapply wp_mono; [by apply wp_select_device|]. intros [] t (Ho & Ha & Hz). split; [|done].
  split; [done|by rewrite Ha|done].
Qed.

Lemma steady_wait s d c : on_base s (chan_no d) c -> wp (wait_while_busy d) (fun _ => steady (reg_base c) s) s.
Proof.
  intros [Ec Hb]. unfold wait_while_busy. apply wp_bind. eapply wp_get_channel; [done|]. apply wp_bind.
  eapply wp_mono; [apply (wp_find_keeps (steady (reg_base c) s)); [|done]|].
  - intros i t Ht. apply wp_bind. eapply wp_mono; [by apply steady_maybe|]. intros [] t1 H1. apply wp_bind.
    eapply wp_mono; [by apply (steady_status (reg_base c) 0x206); [|right]|]. intros v t2 H2.
    assert (H12 : steady (reg_base c) s t2) by by etrans. destruct (_ =? 0).
    + apply wp_bind. eapply wp_mono; [by apply steady_maybe|]. intros [] t3 H3. apply wp_bind.
      eapply wp_mono; [by apply (steady_status (reg_base c) 0x206); [|right]|]. intros w t4 H4. apply wp_ret. by etrans.
    + apply wp_bind. red. cbn [timer_msleep timer_nsleep modify]. apply wp_ret. etrans; [exact H12|]. apply steady_slept. lia.
  - intros [r|] t Ht; [by apply wp_ret|]. apply wp_bind. red. cbn [printf modify]. apply wp_ret.
    etrans; [exact Ht|apply steady_messages].
Qed.

(** ** Resetting *)

(** A drive that is there, on a channel that is not busy, is detected. *)
Lemma wp_detect s d c x : on_base s (chan_no d) c -> devices c !! Z.to_nat (unit_no d) = Some x ->
  wp (detect d) (fun r t => steady (reg_base c) s t /\
    (busy (reg_base c) s = 0%nat -> is_Some (drive_of (dev_no x =? 1) (at_chan (reg_base c) s)) -> r = true)) s.
Proof.
  intros Hon Ex. pose proof Hon as [Ec Hb]. unfold detect. apply wp_bind. eapply wp_get_channel; [done|]. apply wp_bind.
  eapply wp_mono; [by apply steady_select|]. intros [] s1 [Hs1 Ha1].
  apply wp_bind. eapply wp_mono; [apply (steady_out (reg_base c) 2); [done|set_solver]|]. intros [] s2 [Hs2 Ha2].
  apply wp_bind. eapply wp_mono; [apply (steady_out (reg_base c) 3); [done|set_solver]|]. intros [] s3 [Hs3 Ha3].
  apply wp_bind. eapply wp_mono; [apply (steady_out (reg_base c) 2); [done|set_solver]|]. intros [] s4 [Hs4 Ha4].
  apply wp_bind. eapply wp_mono; [apply (steady_out (reg_base c) 3); [done|set_solver]|]. intros [] s5 [Hs5 Ha5].
  apply wp_bind. eapply wp_mono; [apply (steady_out (reg_base c) 2); [done|set_solver]|]. intros [] s6 [Hs6 Ha6].
  apply wp_bind. eapply wp_mono; [apply (steady_out (reg_base c) 3); [done|set_solver]|]. intros [] s7 [Hs7 Ha7].
  rewrite Ha6, Ha5, Ha4, Ha3, Ha2, Ha1 in Ha7. cbn in Ha7.
  assert (H17 : steady (reg_base c) s s7) by (etrans; [exact Hs1|]; etrans; [exact Hs2|]; etrans; [exact Hs3|]; etrans; [exact Hs4|]; etrans; [exact Hs5|]; by etrans).
  assert (Hz : busy (reg_base c) s = 0%nat -> is_Some (drive_of (dev_no x =? 1) (at_chan (reg_base c) s)) ->
    busy (reg_base c) s7 = 0%nat /\ is_Some (drive_of (selected (at_chan (reg_base c) s7)) (at_chan (reg_base c) s7))).
  { intros Hz Hd. pose proof (sd_busy _ _ _ H17 (drive_populated _ _ Hd)). split; [lia|]. rewrite Ha7. by destruct (dev_no x =? 1). }
  apply wp_bind. eapply wp_mono; [apply (wp_register (reg_base c) 2); [done|set_solver]|]. intros v s8 (Ho8 & Ha8 & Hz8 & Hv8).
  assert (H18 : steady (reg_base c) s s8) by (etrans; [exact H17|]; split; [done|by rewrite Ha8|intros _; lia]).
  destruct (v =? 0x55) eqn:Ev.
  - apply wp_bind. eapply wp_mono; [apply (wp_register (reg_base c) 3); [done|set_solver]|]. intros w s9 (Ho9 & Ha9 & Hz9 & Hv9).
    apply wp_ret. split; [etrans; [exact H18|]; split; [done|by rewrite Ha9|intros _; lia]|].
    intros H0 Hd. destruct (Hz H0 Hd) as [Hz7 Hd7]. rewrite Ha8, Hz8 in Hv9. rewrite (Hv9 Hz7 Hd7), Ha7. done.
  - apply wp_ret. split; [done|]. intros H0 Hd. destruct (Hz H0 Hd) as [Hz7 Hd7]. rewrite (Hv8 Hz7 Hd7), Ha7 in Ev. done.
Qed.

(** The reset itself. *)
Lemma wp_ctl b v s : b ∈ bases ->
  wp (outb (b + 0x206) v) (fun _ t => only b s t /\ at_chan b t = ata_out 0x206 (u8 v) (at_chan b s) /\ (busy b t <= max_settle)%nat) s.
Proof.
  intros Hb. eapply wp_mono; [apply wp_out; [done|unfold offsets; set_solver]|]. intros [] t (Ho & Ha & Hz).
  rewrite decide_True in Hz by lia. by split_and!.
Qed.

Lemma wp_soft_reset {A} s c (k : M D A) (Q : A -> D -> Prop) : reg_base c ∈ bases ->
  (forall t, only (reg_base c) s t -> at_chan (reg_base c) t = reset (at_chan (reg_base c) s) ->
     (busy (reg_base c) t <= max_settle)%nat -> wp k Q t) ->
  wp (outb (reg_ctl c) 0;; timer_usleep 10;; outb (reg_ctl c) CTL_SRST;; timer_usleep 10;; outb (reg_ctl c) 0;; timer_msleep 150;; k) Q s.
Proof.
  intros Hb HQ. apply wp_bind. eapply wp_mono; [by apply wp_ctl|]. intros [] s1 (Ho1 & Ha1 & Hz1).
  apply wp_bind. red. cbn [timer_usleep timer_nsleep modify].
  apply wp_bind. eapply wp_mono; [by apply wp_ctl|]. intros [] s2 (Ho2 & Ha2 & Hz2).
  apply wp_bind. red. cbn [timer_usleep timer_nsleep modify].
  apply wp_bind. eapply wp_mono; [by apply wp_ctl|]. intros [] s3 (Ho3 & Ha3 & Hz3).
  apply wp_bind. red. cbn [timer_msleep timer_nsleep modify]. apply HQ; [| |done].
  - etrans; [exact Ho1|]. etrans; [apply (only_slept _ s1 10000); lia|]. etrans; [exact Ho2|].
    etrans; [apply (only_slept _ s2 10000); lia|]. etrans; [exact Ho3|]. apply only_slept. lia.
  - change (at_chan (reg_base c) s3 = reset (at_chan (reg_base c) s)). rewrite Ha3.
    change (at_chan (reg_base c) (set_slept (slept s2 + 1000 * 10) s2)) with (at_chan (reg_base c) s2). rewrite Ha2.
    change (at_chan (reg_base c) (set_slept (slept s1 + 1000 * 10) s1)) with (at_chan (reg_base c) s1). rewrite Ha1. done.
Qed.

(** The two devices of a channel. *)
Definition two_disks (c : channel) (x0 x1 : disk) : Prop := devices c = [x0; x1] /\ dev_no x0 = 0 /\ dev_no x1 = 1.

(** A channel after a reset: at rest, if it has a first drive. *)
Definition was_reset (b : Z) s t : Prop := only b s t /\ alike (reset (at_chan b s)) (at_chan b t) /\
  (is_Some (master (at_chan b s)) -> busy b s = 0%nat -> busy b t = 0%nat).

Lemma wp_wait_first (present : bool) s n c x0 x1 : on_base s n c -> two_disks c x0 x1 -> (busy (reg_base c) s <= max_settle)%nat ->
  wp (if present then select_device (mk_id n 0);; wait_while_busy (mk_id n 0);; ret tt else ret tt) (fun _ t =>
    steady (reg_base c) s t /\ (present = true -> populated (at_chan (reg_base c) s) -> busy (reg_base c) t = 0%nat)) s.
Proof.
  intros Hon (Ed & E0 & E1) Hz. destruct present; [|by apply wp_ret]. apply wp_bind.
  eapply wp_mono; [apply (steady_select s (mk_id n 0) c x0); [done|by rewrite Ed]|]. intros [] s1 [Hs1 Ha1].
  pose proof (steady_on_base _ _ _ _ _ Hs1 Hon) as Hon1. apply wp_bind.
  destruct (decide (is_Some (master (at_chan (reg_base c) s)) \/ is_Some (slave (at_chan (reg_base c) s)))) as [Hp|Hp].
  - pose proof (sd_busy _ _ _ Hs1 Hp) as Hle.
    eapply wp_mono; [apply (wp_wait_while_busy s1 (mk_id n 0) c); [done|by apply (steady_populated _ _ _ Hs1)|lia]|].
    intros r s2 (Ho2 & _ & Hz2 & Ha2). apply wp_ret. split; [|done]. etrans; [exact Hs1|].
    split; [done|by rewrite Ha2|intros _; lia].
  - eapply wp_mono; [by apply (steady_wait s1 (mk_id n 0) c)|]. intros r s2 Hs2. apply wp_ret. split; [by etrans|done].
Qed.

Lemma wp_wait_second (present : bool) s n c x0 x1 : on_base s n c -> two_disks c x0 x1 ->
  wp (if present then
        select_device (mk_id n 1);;
        find_from (Z.to_nat 3000) 0 (fun i =>
          v ← inb (reg_nsect c);
          b ← (if v =? 1 then w ← inb (reg_lbal c); ret (w =? 1) else ret false);
          if b : bool then ret (Some tt) else timer_msleep 10;; ret None);;
        wait_while_busy (mk_id n 1);;
        ret tt
      else ret tt) (fun _ => steady (reg_base c) s) s.
Proof.
  intros Hon (Ed & E0 & E1). pose proof Hon as [Ec Hb]. destruct present; [|by apply wp_ret]. apply wp_bind.
  eapply wp_mono; [apply (steady_select s (mk_id n 1) c x1); [done|by rewrite Ed]|]. intros [] s1 [Hs1 _]. apply wp_bind.
  eapply wp_mono; [apply (wp_find_keeps (steady (reg_base c) s)); [|exact Hs1]|].
  - intros i t Ht. apply wp_bind. eapply wp_mono; [apply (steady_in (reg_base c) 2); [done|set_solver]|]. intros v t1 H1.
    assert (Ht1 : steady (reg_base c) s t1) by by etrans. apply wp_bind.
    assert (Hin : wp (if v =? 1 then w ← inb (reg_lbal c); ret (w =? 1) else ret false) (fun _ => steady (reg_base c) s) t1).
    { destruct (v =? 1); [|by apply wp_ret]. apply wp_bind. eapply wp_mono; [apply (steady_in (reg_base c) 3); [done|set_solver]|].
      intros w t2 H2. apply wp_ret. by etrans. }
    eapply wp_mono; [exact Hin|]. intros [] t2 H2; [by apply wp_ret|]. apply wp_bind. red. cbn [timer_msleep timer_nsleep modify].
    apply wp_ret. etrans; [exact H2|]. apply steady_slept. lia.
  - intros o s2 Hs2. apply wp_bind. eapply wp_mono; [apply (steady_wait s2 (mk_id n 1) c); exact (steady_on_base _ _ _ _ _ Hs2 Hon)|].
    intros r s3 Hs3. apply wp_ret. etrans; [exact Hs2|exact Hs3].
Qed.

Lemma wp_reset_channel s n c x0 x1 : on_base s n c -> two_disks c x0 x1 ->
  wp (reset_channel n) (fun _ => was_reset (reg_base c) s) s.
Proof.
  intros Hon Htd. pose proof Hon as [Ec Hb]. pose proof Htd as (Ed & E0 & E1). unfold reset_channel. apply wp_bind. eapply wp_get_channel; [done|].
  apply wp_bind. eapply wp_mono; [apply (wp_detect s (mk_id n 0) c x0); [done|by rewrite Ed]|]. intros p0 s1 [Hs1 Hp0].
  apply wp_bind. eapply wp_mono; [apply (wp_detect s1 (mk_id n 1) c x1); [by eapply steady_on_base|by rewrite Ed]|]. intros p1 s2 [Hs2 _].
  assert (H12 : steady (reg_base c) s s2) by by etrans. apply wp_soft_reset; [done|]. intros s3 Ho3 Ha3 Hz3.
  assert (Hon3 : on_base s3 n c) by (eapply on_base_only; [exact Ho3|]; by eapply steady_on_base).
  apply wp_bind. eapply wp_mono; [by eapply wp_wait_first|]. intros [] s4 [Hs4 Hz4].
  eapply wp_mono; [eapply wp_wait_second; [by eapply steady_on_base|done]|]. intros [] s5 Hs5. unfold was_reset. split_and!.
  - etrans; [apply (sd_only _ _ _ H12)|]. etrans; [exact Ho3|]. etrans; [apply (sd_only _ _ _ Hs4)|apply (sd_only _ _ _ Hs5)].
  - pose proof (sd_alike _ _ _ H12) as (_&_&_&_&M1&S1). pose proof (sd_alike _ _ _ Hs4) as A4. pose proof (sd_alike _ _ _ Hs5) as A5.
    rewrite Ha3 in A4. destruct A4 as (?&?&?&?&?&?), A5 as (?&?&?&?&?&?). cbn in *. unfold alike. cbn. split_and!; congruence.
  - intros Hm Hz. rewrite E0 in Hp0. specialize (Hp0 Hz Hm). subst p0.
    assert (Hp3 : populated (at_chan (reg_base c) s3)).
    { rewrite Ha3. apply (steady_populated _ _ _ H12). by left. }
    specialize (Hz4 eq_refl Hp3). assert (Hp4 : populated (at_chan (reg_base c) s4)) by by apply (steady_populated _ _ _ Hs4).
    pose proof (sd_busy _ _ _ Hs5 Hp4). lia.
Qed.

(** ** Telling disks *)

(** A disk's record is changed. *)
Definition with_disk (u : Z) (y : disk) (c : channel) : channel := set_devices (<[Z.to_nat u := y]> (devices c)) c.

Lemma wp_upd_disk s d c x f (Q : unit -> D -> Prop) : channels s !! Z.to_nat (chan_no d) = Some c ->
  devices c !! Z.to_nat (unit_no d) = Some x -> Q tt (with_channel (chan_no d) (with_disk (unit_no d) (f x) c) s) -> wp (upd_disk d f) Q s.
Proof. intros Ec Ex HQ. unfold upd_disk. apply wp_bind. eapply wp_get_disk; [done..|]. by eapply wp_upd_channel. Qed.

(** The signature that a reset leaves. *)
Definition signed (a : ata) : Prop := r_error a = 1 /\ r_lbam a = 0 /\ r_lbah a = 0.

Definition there (x : disk) (a : ata) : bool := bool_decide (is_Some (drive_of (dev_no x =? 1) a)).

(** A register of the drive, or anything where there is no drive. *)
Lemma steady_register s s0 b r : b ∈ bases -> r ∈ [1; 4; 5] -> steady b s0 s ->
  busy b s = 0%nat \/ ~ is_Some (drive_of (selected (at_chan b s)) (at_chan b s)) ->
  wp (inb (b + r)) (fun v t => steady b s0 t /\ at_chan b t = at_chan b s /\ busy b t = busy b s /\
    (is_Some (drive_of (selected (at_chan b s)) (at_chan b s)) -> signed (at_chan b s) -> v = if r =? 1 then 1 else 0)) s.
Proof.
  intros Hb Hr Hs Hz. eapply wp_mono; [apply (wp_register b r); [done|set_solver]|]. intros v t (Ho & Ha & Hbz & Hv).
  split_and!; [|done|done|].
  - etrans; [exact Hs|]. split; [done|by rewrite Ha|intros _; lia].
  - intros Hd (H1 & H4 & H5). destruct Hz as [Hz|Hz]; [|done]. rewrite (Hv Hz Hd). set_unfold.
    by destruct Hr as [->|[->|[->|[]]]].
Qed.

(** The condition that check_device_type() tests. *)
Lemma type_verdict x a e v : (is_Some (drive_of (dev_no x =? 1) a) -> e = 1) ->
  (populated a -> Z.testbit v 7 = false /\ Z.testbit v 6 = there x a) -> (~ populated a -> Z.testbit v 7 = true \/ Z.testbit v 6 = false) ->
  (negb (e =? 1) && (negb (e =? 0x81) || (dev_no x =? 1))) || (Z.land v STA_DRDY =? 0) || negb (Z.land v STA_BSY =? 0) = negb (there x a).
Proof.
  intros He Hl Hd. rewrite drdy_bit, bsy_bit, negb_involutive. destruct (decide (is_Some (drive_of (dev_no x =? 1) a))) as [Hs|Hs].
  - rewrite (He Hs). destruct (Hl (drive_populated _ _ Hs)) as [-> ->]. unfold there. by rewrite bool_decide_eq_true_2.
  - assert (Et : there x a = false) by by apply bool_decide_eq_false_2. rewrite Et in *.
    destruct (decide (is_Some (master a) \/ is_Some (slave a))) as [Hp|Hp].
    + destruct (Hl Hp) as [-> ->]. by rewrite orb_true_r.
    + destruct (Hd Hp) as [-> | ->]; by rewrite ?orb_true_r.
Qed.

Lemma wp_check_device_type s d c x : on_base s (chan_no d) c -> devices c !! Z.to_nat (unit_no d) = Some x ->
  signed (at_chan (reg_base c) s) -> (populated (at_chan (reg_base c) s) -> busy (reg_base c) s = 0%nat) ->
  wp (check_device_type d) (fun r t => exists t0, steady (reg_base c) s t0 /\
    t = with_channel (chan_no d) (with_disk (unit_no d) (set_is_ata (there x (at_chan (reg_base c) s)) x) c) t0 /\
    (there x (at_chan (reg_base c) s) = true -> r = true)) s.
Proof.
  intros Hon Ex Hsg Hz. pose proof Hon as [Ec Hb]. unfold check_device_type. apply wp_bind. eapply wp_get_channel; [done|].
  apply wp_bind. eapply wp_get_disk; [done..|]. apply wp_bind.
  eapply wp_mono; [by apply steady_select|]. intros [] s1 [Hs1 Ha1].
  set (b := reg_base c) in *. set (a := at_chan b s) in *.
  assert (Hsel : drive_of (selected (at_chan b s1)) (at_chan b s1) = drive_of (dev_no x =? 1) a) by (rewrite Ha1; by destruct (dev_no x =? 1)).
  assert (Hz1 : populated a -> busy b s1 = 0%nat) by (intros Hp; pose proof (sd_busy _ _ _ Hs1 Hp); specialize (Hz Hp); lia).
  assert (Hor : busy b s1 = 0%nat \/ ~ is_Some (drive_of (selected (at_chan b s1)) (at_chan b s1))).
  { rewrite Hsel. destruct (decide (is_Some (drive_of (dev_no x =? 1) a))) as [Hd|Hd]; [left|by right]. by eapply Hz1, drive_populated. }
  assert (Hsg1 : signed (at_chan b s1)) by (rewrite Ha1; exact Hsg).
  apply wp_bind. eapply wp_mono; [apply (steady_register s1 s b 1); [done|set_solver|done|done]|]. intros e s2 (Hs2 & Ha2 & Hz2 & He).
  apply wp_bind. eapply wp_mono; [apply (steady_register s2 s b 4); [done|set_solver|done|by rewrite Ha2, Hz2]|]. intros m s3 (Hs3 & Ha3 & Hz3 & Hm).
  rewrite Ha2 in Ha3, Hm. rewrite Hz2 in Hz3.
  apply wp_bind. eapply wp_mono; [apply (steady_register s3 s b 5); [done|set_solver|done|by rewrite Ha3, Hz3]|]. intros h s4 (Hs4 & Ha4 & Hz4 & Hh).
  rewrite Ha3 in Ha4, Hh. rewrite Hz3 in Hz4. rewrite Hsel in He, Hm, Hh.
  apply wp_bind. eapply wp_mono; [by apply (wp_any_status b 7); [|left]|]. intros v s5 (Ho5 & Ha5 & Hp5 & Hn5).
  assert (Hs5 : steady b s s5).
  { etrans; [exact Hs4|]. split; [done|by rewrite Ha5|]. intros Hp. destruct (Hp5 Hp) as [Hsh _]. destruct (Z.testbit v 7); [lia|]. destruct Hsh as [-> _]. lia. }
  assert (Ec5 : channels s5 !! Z.to_nat (chan_no d) = Some c) by (rewrite (on_channels _ _ _ (sd_only _ _ _ Hs5)); done).
  assert (Hpop : populated (at_chan b s4) <-> populated a) by (rewrite <- (steady_populated _ _ _ Hs4); done).
  assert (Hcond : (negb (e =? 1) && (negb (e =? 0x81) || (dev_no x =? 1))) || (Z.land v STA_DRDY =? 0) || negb (Z.land v STA_BSY =? 0) = negb (there x a)).
  { apply type_verdict; [by intros Hd; apply He| |by intros Hnp; apply Hn5; rewrite Hpop]. intros Hp.
    destruct (Hp5 (proj2 Hpop Hp)) as [Hsh H7]. rewrite Hz4 in H7. rewrite (H7 (Hz1 Hp)) in Hsh. destruct Hsh as (_ & _ & H6).
    rewrite Ha4, Hsel in H6. split; [by apply H7, Hz1|done]. }
  rewrite Hcond. destruct (there x a) eqn:Eth; cbn [negb].
  - apply bool_decide_eq_true in Eth. rewrite (Hm Eth Hsg1), (Hh Eth Hsg1). apply wp_bind. eapply wp_upd_disk; [done..|]. apply wp_ret. by exists s5.
  - apply wp_bind. eapply wp_upd_disk; [done..|]. apply wp_ret. by exists s5.
Qed.

(** ** Identity *)

(** The capacity that a drive tells, and a drive that tells the truth. *)
Definition told (dr : drive) (i : nat) : Z := default 0 (ident dr !! i).
Definition cap_of (dr : drive) : Z := told dr 60 + 2 ^ 16 * told dr 61.
Definition honest (dr : drive) : Prop :=
  length (ident dr) = Z.to_nat 256 /\ Forall (in_u 16) (ident dr) /\ holds dr (cap_of dr).

Lemma told_lookup dr i : honest dr -> (i < Z.to_nat 256)%nat -> ident dr !! i = Some (told dr i) /\ in_u 16 (told dr i).
Proof.
  intros (Hl & Hw & _) Hi. destruct (lookup_lt_is_Some_2 (ident dr) i) as [w E]; [lia|].
  unfold told. rewrite E. split; [done|]. by eapply (Forall_lookup_1 _ _ _ _ Hw).
Qed.

Lemma bytes_lookup ws : forall i w, ws !! i = Some w ->
  bytes_of ws !! (2 * i)%nat = Some (w mod 256) /\ bytes_of ws !! (2 * i + 1)%nat = Some (w / 256).
Proof.
  induction ws as [|v ws IH]; intros i w E; [done|]. change (bytes_of (v :: ws)) with (v mod 256 :: v / 256 :: bytes_of ws).
  destruct i as [|i]; [by injection E as ->|]. destruct (IH i w E) as [H0 H1].
  replace (2 * S i)%nat with (S (S (2 * i))) by lia. done.
Qed.

Lemma wp_id_word ws i w s (Q : Z -> D -> Prop) : ws !! i = Some w -> in_u 16 w -> Q w s -> wp (id_word (bytes_of ws) i) Q s.
Proof.
  intros E Hw HQ. destruct (bytes_lookup ws i w E) as [H0 H1]. unfold id_word. apply wp_bind. rewrite H0. apply wp_ret.
  apply wp_bind. rewrite H1. apply wp_ret, wp_ret. replace (w mod 256 + 256 * (w / 256)) with w; [done|].
  pose proof (Z.div_mod w 256). lia.
Qed.

(** Swapping the bytes of a word stays within the text. *)
Lemma swap_within k n : (k < 2 * n)%nat -> (Z.to_nat (Z.lxor (Z.of_nat k) 1) < 2 * n)%nat.
Proof.
  intros Hk. assert (E : Z.lxor (Z.of_nat k) 1 / 2 = Z.of_nat k / 2).
  { change 2 with (2 ^ 1). rewrite <- (Z.shiftr_div_pow2 (Z.lxor _ _) 1), <- (Z.shiftr_div_pow2 (Z.of_nat k) 1), Z.shiftr_lxor by lia. apply Z.lxor_0_r. }
  assert (0 <= Z.lxor (Z.of_nat k) 1) by (apply Z.lxor_nonneg; lia).
  revert E. Z.to_euclidean_division_equations; lia.
Qed.

Lemma wp_print_ata_string string n s : (2 * n <= length string)%nat ->
  wp (print_ata_string string (2 * n)) (fun l t => t = s /\ (length l <= 2 * n)%nat) s.
Proof.
  intros Hl.
  assert (Hlk : forall k, (k < 2 * n)%nat -> is_Some (string !! Z.to_nat (Z.lxor (Z.of_nat k) 1))).
  { intros k Hk. apply lookup_lt_is_Some_2. pose proof (swap_within k n Hk). lia. }
  assert (Hlen : forall size, (size <= 2 * n)%nat -> wp (ata_length string size) (fun m t => t = s /\ (m <= size)%nat) s).
  { induction size as [|k IH]; intros Hs; cbn [ata_length]; [by apply wp_ret|]. apply wp_bind. destruct (Hlk k) as [c E]; [lia|]. rewrite E.
    apply wp_ret. destruct (_ && _); [by apply wp_ret|]. eapply wp_mono; [apply IH; lia|]. intros m t [-> Hm]. split; [done|lia]. }
  unfold print_ata_string. apply wp_bind. eapply wp_mono; [by apply Hlen|]. intros m t [-> Hm].
  destruct (mapM _ (seq 0 m)) as [l|] eqn:E.
  - apply wp_ret. split; [done|]. apply length_mapM in E. rewrite length_seq in E. lia.
  - exfalso. apply mapM_None_1, Exists_exists in E as (i & Hi & Ei). apply elem_of_seq in Hi. destruct (Hlk i) as [c Ec]; [lia|]. by rewrite Ec in Ei.
Qed.

Lemma command_identify a dr : drive_of (selected a) a = Some dr ->
  command CMD_IDENTIFY_DEVICE a = set_intrq true (set_ph (Reading (ident dr)) (set_error 0 a)).
Proof.
  intros Hd. unfold command. cbv zeta. change (drive_of (selected (set_error 0 a)) (set_error 0 a)) with (drive_of (selected a) a).
  by rewrite Hd.
Qed.

Lemma first_irq_insert cs n c c' : first_irq cs n c -> irq c' = irq c -> first_irq (<[n := c']> cs) n c'.
Proof.
  intros [E Hf] Ei. split; [apply list_lookup_insert_eq; by eapply lookup_lt_Some|].
  intros m y Hm Ey. rewrite list_lookup_insert_ne in Ey by lia. rewrite Ei. by apply (Hf m).
Qed.

(** At rest, with the drives of [s]. *)
Definition resting (b : Z) s t : Prop := busy b t = 0%nat /\ ph (at_chan b t) = Idle /\
  master (at_chan b t) = master (at_chan b s) /\ slave (at_chan b t) = slave (at_chan b s).

(** Up to the answer to the command. *)
Lemma wp_ask {A} s d c x dr (k : M D A) (Q : A -> D -> Prop) : first_irq (channels s) (Z.to_nat (chan_no d)) c -> reg_base c ∈ bases ->
  0 <= chan_no d -> devices c !! Z.to_nat (unit_no d) = Some x -> completion_wait c = 0 -> level_on s = true ->
  busy (reg_base c) s = 0%nat -> ph (at_chan (reg_base c) s) = Idle ->
  drive_of (dev_no x =? 1) (at_chan (reg_base c) s) = Some dr ->
  (forall t, only (reg_base c) (with_channel (chan_no d) (set_expecting true c) s) t -> busy (reg_base c) t = 0%nat ->
     ph (at_chan (reg_base c) t) = Reading (ident dr) -> master (at_chan (reg_base c) t) = master (at_chan (reg_base c) s) ->
     slave (at_chan (reg_base c) t) = slave (at_chan (reg_base c) s) -> wp k Q t) ->
  wp (select_device_wait d;; issue_pio_command (chan_no d) CMD_IDENTIFY_DEVICE;; completion_down (chan_no d);; k) Q s.
Proof.
  intros Hf Hb Hn Ex Hcw Hl Hz Hi Hd HQ. set (b := reg_base c) in *. pose proof Hf as [Ec _].
  assert (Hp : populated (at_chan b s)) by by eapply drive_populated.
  apply wp_bind. eapply wp_mono; [by eapply (wp_select_device_wait s d c)|]. intros [] s1 ((Ho1 & Hz1 & Hi1 & Hq1 & Hm1 & Hs1) & Hdev).
  assert (Hd1 : drive_of (selected (at_chan b s1)) (at_chan b s1) = Some dr).
  { rewrite <- Hd. unfold selected. fold b in Hdev, Hm1, Hs1. rewrite Hdev. destruct (dev_no x =? 1); cbn; done. }
  apply wp_bind. eapply wp_mono; [apply (wp_issue_pio_command s1 (chan_no d) c); [|by rewrite (on_level _ _ _ Ho1)|done]|].
  { split; [by rewrite (on_channels _ _ _ Ho1)|done]. }
  intros [] s2 (Ho2 & Hz2 & Ha2). rewrite (command_identify _ dr) in Ha2 by done. fold b in Ho2, Hz2, Ha2.
  assert (Ho : only b (with_channel (chan_no d) (set_expecting true c) s) s2) by (etrans; [by apply only_with_channel|exact Ho2]).
  assert (Hf2 : first_irq (channels s2) (Z.to_nat (chan_no d)) (set_expecting true c)).
  { rewrite (on_channels _ _ _ Ho). by eapply first_irq_insert. }
  apply wp_bind. eapply wp_mono; [apply (wp_completion_down s2 (chan_no d) (set_expecting true c) Hf2); try done|].
  - change (reg_base (set_expecting true c)) with b. rewrite Ha2. by eapply drive_populated.
  - change (reg_base (set_expecting true c)) with b. by rewrite Ha2.
  - intros [] s3 (Ho3 & Hz3 & Ha3). change (reg_base (set_expecting true c)) with b in Ho3, Hz3, Ha3. rewrite Ha2 in Ha3.
    apply HQ; rewrite ?Ha3; try done. by etrans.
Qed.

Lemma wp_identify s d c x dr : first_irq (channels s) (Z.to_nat (chan_no d)) c -> reg_base c ∈ bases ->
  0 <= chan_no d -> devices c !! Z.to_nat (unit_no d) = Some x -> is_ata x = true -> completion_wait c = 0 -> level_on s = true ->
  busy (reg_base c) s = 0%nat -> ph (at_chan (reg_base c) s) = Idle ->
  drive_of (dev_no x =? 1) (at_chan (reg_base c) s) = Some dr -> honest dr ->
  wp (identify_ata_device d) (fun _ t => resting (reg_base c) s t /\
    only (reg_base c) (with_channel (chan_no d) (with_disk (unit_no d) (set_capacity (cap_of dr) x) (set_expecting true c)) s) t) s.
Proof.
  intros Hf Hb Hn Ex Ha Hcw Hl Hz Hi Hd Hh. set (b := reg_base c) in *. pose proof Hf as [Ec _]. pose proof Hh as (Hlen & _ & _).
  unfold identify_ata_device. apply wp_bind. eapply wp_get_disk; [done..|]. apply wp_bind, wp_assertb; [done|].
  eapply wp_ask; try done. intros t1 Ho1 Hz1 Hi1 Hm1 Hs1. fold b in Ho1, Hz1, Hi1, Hm1, Hs1.
  assert (Ec1 : channels t1 !! Z.to_nat (chan_no d) = Some (set_expecting true c)).
  { rewrite (on_channels _ _ _ Ho1). by eapply lookup_with_channel. }
  assert (Hp1 : populated (at_chan b t1)).
  { unfold populated. rewrite Hm1, Hs1. by eapply drive_populated. }
  apply wp_bind. eapply wp_mono; [apply (wp_wait_while_busy t1 d (set_expecting true c)); [by split|done|change (busy b t1 <= max_settle)%nat; lia]|].
  intros r t2 (Ho2 & -> & Hz2 & Ha2). change (reg_base (set_expecting true c)) with b in *. unfold drq. rewrite Hi1. cbn [negb].
  assert (Ec2 : channels t2 !! Z.to_nat (chan_no d) = Some (set_expecting true c)) by by rewrite (on_channels _ _ _ Ho2).
  apply wp_bind. unfold input_sector. apply wp_bind. eapply wp_get_channel; [done|].
  unfold reg_data. rewrite Z.add_0_r, <- Hlen. change (reg_base (set_expecting true c)) with b.
  eapply wp_mono; [apply (wp_insw b (ident dr)); [done|done|]|].
  { rewrite Ha2, Hi1. by destruct (ident dr); [cbn in Hlen; lia|]. }
  intros l t3 (-> & Ho3 & Hz3 & Ha3).
  destruct (told_lookup dr 60 Hh) as [E60 R60]; [lia|]. destruct (told_lookup dr 61 Hh) as [E61 R61]; [lia|].
  apply wp_bind. eapply wp_id_word; [done..|]. apply wp_bind. eapply wp_id_word; [done..|].
  assert (Ecap : Z.lor (told dr 60) (u32 (Z.shiftl (told dr 61) 16)) = cap_of dr).
  { rewrite Z.shiftl_mul_pow2 by lia. rewrite uwrap_small by (unfold in_u in *; lia). rewrite <- Z.shiftl_mul_pow2 by lia.
    rewrite lor_shift by (unfold in_u in *; lia). unfold cap_of. lia. }
  rewrite Ecap. apply wp_bind. eapply wp_upd_disk; [by rewrite (on_channels _ _ _ Ho3)|done|].
  apply wp_bind. eapply wp_mono; [apply (wp_print_ata_string _ 20); rewrite length_drop, length_bytes_of; lia|]. intros m t4 [-> _].
  apply wp_bind. eapply wp_mono; [apply (wp_print_ata_string _ 10); rewrite length_drop, length_bytes_of; lia|]. intros n t5 [-> _].
  red. cbn [printf modify]. split.
  - split; [exact Hz3|]. unfold at_chan in *. cbn. rewrite Ha3, Ha2. by split_and!.
  - etrans; [|apply only_messages]. pose proof (only_with_channel b (chan_no d) (with_disk (unit_no d) (set_capacity (cap_of dr) x) (set_expecting true c)) _ t3
      (PreOrder_Transitive _ _ _ Ho1 (PreOrder_Transitive _ _ _ Ho2 Ho3))) as Hoo. by rewrite with_channel_twice in Hoo.
Qed.

(** ** A channel *)

(** What is known of the drives when the machine starts. *)
Definition sane (a : ata) : Prop :=
  (is_Some (slave a) -> is_Some (master a)) /\ forall u dr, drive_of u a = Some dr -> honest dr.

(** The record of device [u]: before, when its type is known, in the end. *)
Definition blank_disk (u : Z) : disk := mk_disk u false 0 0 0.
Definition typed_disk (a : ata) (u : Z) : disk := set_is_ata (bool_decide (is_Some (drive_of (u =? 1) a))) (blank_disk u).
Definition boot_disk (a : ata) (u : Z) : disk :=
  match drive_of (u =? 1) a with Some dr => set_capacity (cap_of dr) (typed_disk a u) | None => typed_disk a u end.

Section Channel.
Variables (s : D) (n b ir : Z).
Abbreviation a := (at_chan b s).
Hypothesis Hn : 0 <= n.
Hypothesis Hb : b ∈ bases.
Hypothesis Hl : level_on s = true.
Hypothesis Hs : sane a.
Hypothesis Hlen : (Z.to_nat n < length (channels s))%nat.
Hypothesis Hirq : forall m c', (m < Z.to_nat n)%nat -> channels s !! m = Some c' -> irq c' <> ir.

Definition the_channel (e : bool) (y0 y1 : disk) : channel := mk_channel b ir false e 0 [y0; y1].

(** How far it is. *)
Definition progress (y0 y1 : disk) (t : D) : Prop := exists e,
  only b (with_channel n (the_channel e y0 y1) s) t /\
  master (at_chan b t) = master a /\ slave (at_chan b t) = slave a /\
  (populated a -> busy b t = 0%nat /\ ph (at_chan b t) = Idle).

Lemma populated_master : populated a -> is_Some (master a).
Proof using Hs. destruct Hs as [Hm _]. intros [?|?]; [done|by apply Hm]. Qed.

Lemma progress_lookup e y0 y1 t : only b (with_channel n (the_channel e y0 y1) s) t ->
  channels t !! Z.to_nat n = Some (the_channel e y0 y1) /\ first_irq (channels t) (Z.to_nat n) (the_channel e y0 y1) /\ level_on t = true.
Proof using Hlen Hirq Hl.
  intros Ho. rewrite (on_channels _ _ _ Ho), (on_level _ _ _ Ho). cbn.
  assert (E : <[Z.to_nat n := the_channel e y0 y1]> (channels s) !! Z.to_nat n = Some (the_channel e y0 y1)) by by apply list_lookup_insert_eq.
  split_and!; [done| |done]. split; [done|]. intros m c' Hm E'. rewrite list_lookup_insert_ne in E' by lia. by apply (Hirq m).
Qed.

(** The type of one device. *)
Lemma wp_type u y0 y1 t : u = 0 \/ u = 1 -> (u = 0 -> y0 = blank_disk 0) -> (u = 1 -> y1 = blank_disk 1) ->
  progress y0 y1 t -> signed (at_chan b t) ->
  wp (check_device_type (mk_id n u)) (fun r t' =>
    progress (if u =? 0 then typed_disk a 0 else y0) (if u =? 0 then y1 else typed_disk a 1) t' /\ signed (at_chan b t') /\
    (is_Some (drive_of (u =? 1) a) -> r = true)) t.
Proof using Hlen Hirq Hl Hb.
  intros Hu E0 E1 (e & Ho & Hm & Hsl & Hrest) Hsg. destruct (progress_lookup _ _ _ _ Ho) as (Ec & _ & _).
  assert (Hpop : populated (at_chan b t) <-> populated a) by (unfold populated; by rewrite Hm, Hsl).
  assert (Hdr : forall v, drive_of v (at_chan b t) = drive_of v a) by (by intros []).
  eapply wp_mono; [apply (wp_check_device_type t (mk_id n u) (the_channel e y0 y1) (blank_disk u))|].
  - by split.
  - destruct Hu as [-> | ->]; cbn; [by rewrite E0|by rewrite E1].
  - done.
  - intros Hp. by apply Hrest, Hpop.
  - intros r t' (t0 & Hst & -> & Hr). change (reg_base (the_channel e y0 y1)) with b in *. cbn [chan_no unit_no] in *.
    unfold there in Hr |- *. cbn [dev_no blank_disk] in Hr |- *. rewrite Hdr in Hr |- *. pose proof (sd_alike _ _ _ Hst) as (A1 & A2 & A3 & A4 & A5 & A6). split_and!.
    + exists e. split.
      * pose proof (only_with_channel b n (the_channel e (if u =? 0 then typed_disk a 0 else y0) (if u =? 0 then y1 else typed_disk a 1)) _ _
          (PreOrder_Transitive _ _ _ Ho (sd_only _ _ _ Hst))) as Hoo. rewrite with_channel_twice in Hoo.
        replace (with_disk _ _ _) with (the_channel e (if u =? 0 then typed_disk a 0 else y0) (if u =? 0 then y1 else typed_disk a 1)); [done|].
        by destruct Hu as [-> | ->].
      * split_and!; [by rewrite <- Hm, <- A5|by rewrite <- Hsl, <- A6|]. intros Hp. destruct (Hrest Hp) as [Hz Hi].
        split; [|by rewrite <- Hi, <- A4]. pose proof (sd_busy _ _ _ Hst (proj2 Hpop Hp)) as Hle. change (busy b t0 = 0%nat). lia.
    + destruct Hsg as (S1 & S2 & S3). repeat split; cbn; [by rewrite <- S1, <- A1|by rewrite <- S2, <- A2|by rewrite <- S3, <- A3].
    + intros Hd. apply Hr. by rewrite bool_decide_eq_true_2.
Qed.

(** The identity of one device. *)
Lemma wp_identity_of u y0 y1 t : u = 0 \/ u = 1 -> (u = 0 -> y0 = typed_disk a 0) -> (u = 1 -> y1 = typed_disk a 1) -> progress y0 y1 t ->
  wp (x ← get_disk (mk_id n u); if is_ata x then identify_ata_device (mk_id n u) else ret tt) (fun _ =>
    progress (if u =? 0 then boot_disk a 0 else y0) (if u =? 0 then y1 else boot_disk a 1)) t.
Proof using Hlen Hirq Hl Hb Hn Hs.
  intros Hu E0 E1 Hpr. pose proof Hpr as (e & Ho & Hm & Hsl & Hrest). destruct (progress_lookup _ _ _ _ Ho) as (Ec & Hf & Hlt).
  assert (Ex : devices (the_channel e y0 y1) !! Z.to_nat u = Some (typed_disk a u)) by (destruct Hu as [-> | ->]; cbn; [by rewrite E0|by rewrite E1]).
  assert (Hdr : forall v, drive_of v (at_chan b t) = drive_of v a) by (by intros []).
  apply wp_bind. eapply wp_get_disk; [done..|]. cbn [typed_disk set_is_ata is_ata].
  destruct (drive_of (u =? 1) a) as [dr|] eqn:Ed.
  - rewrite bool_decide_eq_true_2 by done. assert (Hp : populated a) by (eapply drive_populated; by rewrite Ed). destruct (Hrest Hp) as [Hz Hi].
    eapply wp_mono; [eapply (wp_identify t (mk_id n u) (the_channel e y0 y1) (typed_disk a u) dr); try done|].
    + cbn. by rewrite Ed, bool_decide_eq_true_2.
    + rewrite <- Ed. cbn. apply Hdr.
    + destruct Hs as [_ Hh]. by eapply Hh.
    + intros [] t' ((Hz' & Hi' & Hm' & Hsl') & Ho'). change (reg_base (the_channel e y0 y1)) with b in *. cbn [chan_no unit_no] in *.
      exists true. split; [|by rewrite Hm', Hsl']. etrans; [|exact Ho'].
      pose proof (only_with_channel b n (the_channel true (if u =? 0 then boot_disk a 0 else y0) (if u =? 0 then y1 else boot_disk a 1)) _ _ Ho) as Hoo.
      rewrite with_channel_twice in Hoo.
      replace (with_disk _ _ _) with (the_channel true (if u =? 0 then boot_disk a 0 else y0) (if u =? 0 then y1 else boot_disk a 1)); [done|].
      unfold boot_disk. destruct Hu as [-> | ->]; cbn [Z.eqb] in *; change (1 =? 1) with true in *; change (0 =? 1) with false in *; by rewrite Ed.
  - rewrite bool_decide_eq_false_2 by (by intros [? ?]). apply wp_ret. unfold boot_disk.
    destruct Hu as [-> | ->]; change (1 =? 1) with true in *; change (0 =? 1) with false in *; rewrite Ed; cbn [Z.eqb]; [by rewrite <- E0|by rewrite <- E1].
Qed.

(** All the work on the hardware. *)
Lemma wp_scan_channel : channels s !! Z.to_nat n = Some (the_channel false (blank_disk 0) (blank_disk 1)) ->
  (is_Some (master a) -> busy b s = 0%nat) ->
  wp (reset_channel n;;
      r ← check_device_type (mk_id n 0);
      (if r : bool then check_device_type (mk_id n 1);; ret tt else ret tt);;
      for_from 2 0 (fun dev_no =>
        x ← get_disk (mk_id n dev_no);
        if is_ata x then identify_ata_device (mk_id n dev_no) else ret tt))
    (fun _ => progress (boot_disk a 0) (boot_disk a 1)) s.
Proof using Hlen Hirq Hl Hb Hn Hs.
  intros Ec Hbz. apply wp_bind. eapply wp_mono; [eapply (wp_reset_channel s n); [by split|by split_and!]|].
  intros [] s1 (Ho1 & (A1 & A2 & A3 & A4 & A5 & A6) & Hz1). change (reg_base (the_channel _ _ _)) with b in *.
  assert (Hp1 : progress (blank_disk 0) (blank_disk 1) s1).
  { exists false. rewrite with_channel_id by done. split_and!; [done|done|done|]. intros Hp. pose proof (populated_master Hp) as Hm. split; [by apply Hz1, Hbz|done]. }
  apply wp_bind. eapply wp_mono; [apply (wp_type 0 (blank_disk 0) (blank_disk 1)); [by left|done|done|done|by split_and!]|].
  intros r s2 (Hp2 & Hsg2 & Hr). cbn [Z.eqb] in Hp2.
  assert (Hp3 : wp (if r then check_device_type (mk_id n 1);; ret tt else ret tt) (fun _ => progress (typed_disk a 0) (typed_disk a 1)) s2).
  { destruct r.
    - apply wp_bind. eapply wp_mono; [apply (wp_type 1 (typed_disk a 0) (blank_disk 1)); [by right|done|done|done|done]|].
      intros r s3 (Hp3 & _ & _). by apply wp_ret.
    - apply wp_ret. replace (typed_disk a 1) with (blank_disk 1); [done|]. unfold typed_disk.
      rewrite bool_decide_eq_false_2; [done|]. intros Hsl. destruct Hs as [Hm _]. by specialize (Hr (Hm Hsl)). }
  apply wp_bind. eapply wp_mono; [exact Hp3|]. intros [] s3 Hp3'. cbn [for_from].
  apply wp_bind. eapply wp_mono; [apply (wp_identity_of 0 (typed_disk a 0) (typed_disk a 1)); [by left|done|done|done]|]. intros [] s4 Hp4.
  apply wp_bind. eapply wp_mono; [apply (wp_identity_of 1 (boot_disk a 0) (typed_disk a 1)); [by right|done|done|done]|]. intros [] s5 Hp5.
  by apply wp_ret.
Qed.
End Channel.
End Init.
