(* ===== verification/DiskProps.v ===== *)
(** * The disk driver: theorems

    The refinement of the disk that the file system uses, and then the start of
    the driver. *)

From Stdlib Require Import ZArith Lia.
From stdpp Require Import base numbers gmap list strings.
From S2P Require Import Prelude FsBase Gdt Idt AtaHardware Disk DiskSpec DiskInit.

Open Scope Z_scope.

(** * The disk driver: properties

    The driver carries out what the file system's model of the disk says. *)

Section Props.
Context {stubs : Stubs} {H : Type} {aports : AtaPorts H} {ata_hw : ATA H}.
Abbreviation D := (dstate H).
Implicit Types s t : dstate H.

Lemma disk_of_inv s d x : disk_of s d = Some x ->
  exists c, channels s !! Z.to_nat (chan_no d) = Some c /\ devices c !! Z.to_nat (unit_no d) = Some x.
Proof. unfold disk_of. destruct (channels s !! Z.to_nat (chan_no d)) as [c|]; [|done]. by exists c. Qed.

(** Reading a sector of a disk that was found. *)
Lemma read_ready s d x sec : disks_ready s -> valid_id d -> disk_of s d = Some x -> Disk.is_ata x = true ->
  0 <= sec < Disk.capacity x -> sec < 2 ^ 28 ->
  wp (Disk.disk_read d sec) (fun l t => disks_ready t /\ (exists m, contents s d = Some m /\ m !! sec = Some l) /\
    (forall d', valid_id d' -> contents t d' = contents s d') /\
    (forall d', valid_id d' -> disk_of t d' = if bool_decide (d' = d) then Some (set_read_cnt (i64 (read_cnt x + 1)) x) else disk_of s d')) s.
Proof.
  intros Hr Hv Hd Ha Hsec H28. destruct (disk_of_inv s d x Hd) as (c & Ec & Ex). pose proof Hr as (Hw & Hl & Hall).
  destruct (Hall _ _ Ec) as (Hlk & Hcw & Hdev). destruct (Hdev _ _ Ex) as (Hk & Hdn & Hata).
  destruct (Hata Ha) as (Hz & Hi & dr & Edr & Hh). destruct (Hh sec Hsec) as (ws & Ews & Hlen & Hfw).
  assert (Hu : dev_no x = unit_no d) by (destruct Hv as [_ ?]; lia).
  eapply wp_mono; [apply (wp_read_sector s d c x dr sec Hw Ec ltac:(destruct Hv; lia) Ex Hlk Hcw Hl Hz Hi Edr Hsec H28 ws Ews Hlen)|].
  intros l t (-> & Ho & Hz' & Hi' & Hm & Hs).
  assert (Hsame : forall u, drive_of u (at_chan (reg_base c) t) = drive_of u (at_chan (reg_base c) s)) by (by intros []).
  split_and!.
  - eapply (ready_after s t d c x _ Hr Ec Ex); [|exact Ho|done|done|]; [done|]. intros u y cap Ey Hy. rewrite Hsame. by exists y.
  - exists (bytes_of <$> sectors dr). unfold contents. rewrite Ec. cbn. rewrite <- Hu, Edr. cbn. by rewrite lookup_fmap, Ews.
  - intros d' Hd'. rewrite (contents_after s t d c x _ Hr Hv Ec Ho) by done. destruct (decide (chan_no d' = chan_no d)) as [E|E]; [|done].
    unfold contents. rewrite E, Ec. cbn. by rewrite Hsame.
  - intros d' Hd'. by rewrite (disk_of_after s t d c x _ Hv Ec Ex Ho).
Qed.

(** Writing one. *)
Lemma write_ready s d x sec l : disks_ready s -> valid_id d -> disk_of s d = Some x -> Disk.is_ata x = true ->
  0 <= sec < Disk.capacity x -> sec < 2 ^ 28 -> length l = Z.to_nat 512 -> Forall (in_u 8) l ->
  wp (Disk.disk_write d sec l) (fun _ t => disks_ready t /\
    (forall d', valid_id d' -> contents t d' = if bool_decide (d' = d) then <[sec := l]> <$> contents s d else contents s d') /\
    (forall d', valid_id d' -> disk_of t d' = if bool_decide (d' = d) then Some (set_write_cnt (i64 (write_cnt x + 1)) x) else disk_of s d')) s.
Proof.
  intros Hr Hv Hd Ha Hsec H28 Hlen Hl8. destruct (disk_of_inv s d x Hd) as (c & Ec & Ex). pose proof Hr as (Hw & Hl & Hall).
  destruct (Hall _ _ Ec) as (Hlk & Hcw & Hdev). destruct (Hdev _ _ Ex) as (Hk & Hdn & Hata).
  destruct (Hata Ha) as (Hz & Hi & dr & Edr & Hh). destruct (Hh sec Hsec) as (ws & Ews & _).
  assert (Hu : dev_no x = unit_no d) by (destruct Hv as [_ ?]; lia).
  eapply wp_mono; [apply (wp_write_sector s d c x dr sec Hw Ec ltac:(destruct Hv; lia) Ex Hlk Hcw Hl Hz Hi Edr Hsec H28 ws l Ews Hlen Hl8)|].
  intros [] t (Ho & Hz' & Hi' & Hdrv). split_and!.
  - eapply (ready_after s t d c x _ Hr Ec Ex); [|exact Ho|done|done|]; [done|]. intros u y cap Ey Hy. rewrite Hdrv.
    case_bool_decide as E; [|by exists y]. subst u. rewrite Edr in Ey. injection Ey as <-. eexists. split; [done|].
    intros k Hk'. destruct (decide (k = sec)) as [->|Hne]; [|cbn; rewrite lookup_insert_ne by done; by apply Hy].
    exists (words_of l). cbn. rewrite lookup_insert_eq. split_and!; [done|apply length_words_of; lia|].
    apply (words_in (Z.to_nat 256)); [lia|done].
  - intros d' Hd'. rewrite (contents_after s t d c x _ Hr Hv Ec Ho) by done. unfold contents. rewrite Ec. cbn.
    destruct (decide (chan_no d' = chan_no d)) as [E|E]; [|by rewrite bool_decide_eq_false_2 by congruence].
    rewrite E, Ec, Hdrv, Hu. cbn. destruct (decide (unit_no d' = unit_no d)) as [E'|E'].
    + rewrite E', bool_decide_eq_true_2, (bool_decide_eq_true_2 (d' = d)) by (done || destruct d, d'; cbn in *; congruence).
      rewrite <- Hu, Edr. cbn. f_equal. rewrite fmap_insert. f_equal. by apply (bytes_of_words (Z.to_nat 256)); [lia|].
    + rewrite (bool_decide_eq_false_2 (d' = d)) by congruence. rewrite bool_decide_eq_false_2; [done|].
      destruct Hv as [_ [Hu1|Hu1]], Hd' as [_ [Hu2|Hu2]]; rewrite Hu1, Hu2 in *; done.
  - intros d' Hd'. by rewrite (disk_of_after s t d c x _ Hv Ec Ex Ho).
Qed.

(** ** Refinement *)

(** Disk [d] is the one that the file system's state [k] speaks of. *)
Definition on_disk (d : disk_id) (k : fs) s : Prop := disks_ready s /\ valid_id d /\
  (exists x, disk_of s d = Some x /\ Disk.is_ata x = true /\ Disk.capacity x = FsBase.capacity k) /\
  (exists m, contents s d = Some m /\ forall sec, 0 <= sec < FsBase.capacity k -> FsBase.disk k !! sec = m !! sec).

(** The other disks are as they were. *)
Definition others_kept (d : disk_id) s t : Prop := forall d', valid_id d' -> d' <> d ->
  contents t d' = contents s d' /\ disk_of t d' = disk_of s d'.

(** Runs of the parts of a sequence. *)
Lemma bind_ok {S A B} (m : M S A) (k : A -> M S B) (s : S) a (s' : S) r : m s = Ok (a, s') -> k a s' = r -> bind m k s = r.
Proof. unfold bind. by intros ->. Qed.
Lemma bind_err {S A B} (m : M S A) (k : A -> M S B) (s : S) e : m s = Err e -> bind m k s = Err e.
Proof. unfold bind. by intros ->. Qed.

(** A sector that does not exist is refused. *)
Lemma outside_refused {A} s d x sec (k : M D A) : disks_ready s -> disk_of s d = Some x ->
  (sec <? Disk.capacity x) && (sec <? 2 ^ 28) = false ->
  (channel_acquire (chan_no d);; select_sector d sec;; k) s = Err AssertFail.
Proof.
  intros Hr Hd Hsec. destruct (disk_of_inv s d x Hd) as (c & Ec & Ex). pose proof Hr as (_ & _ & Hall).
  destruct (Hall _ _ Ec) as (Hlk & _ & _).
  assert (Eg : forall t c', channels t !! Z.to_nat (chan_no d) = Some c' -> get_channel (chan_no d) t = Ok (c', t)).
  { intros t c' E. unfold get_channel, bind, get. by rewrite E. }
  set (s1 := with_channel (chan_no d) (set_locked true c) s).
  assert (E1 : channels s1 !! Z.to_nat (chan_no d) = Some (set_locked true c)) by (by eapply lookup_with_channel).
  eapply (bind_ok _ _ s tt s1).
  { eapply bind_ok; [by apply Eg|]. eapply bind_ok; [by rewrite Hlk|]. by eapply bind_ok; [apply Eg|]. }
  apply bind_err. eapply bind_ok; [by apply Eg|]. eapply bind_ok; [eapply bind_ok; [by apply Eg|]; cbn; by rewrite Ex|].
  destruct (sec <? Disk.capacity x); [|by apply bind_err].
  eapply bind_ok; [done|]. apply bind_err. change (Z.shiftl 1 28) with (2 ^ 28). cbn in Hsec. by rewrite Hsec.
Qed.

(** The driver does what an operation on the file system's disk does, errors
    included. *)
Definition agrees {A} (m : M D A) (r : outcome (A * fs)) (R : fs -> D -> D -> Prop) s : Prop :=
  match r with
  | Ok (v, k') => wp m (fun v' t => v' = v /\ R k' s t) s
  | Err e => m s = Err e
  end.

Lemma agrees_run {A} (m : M D A) r v k' R s : r = Ok (v, k') -> agrees m r R s -> exists t, m s = Ok (v, t) /\ R k' s t.
Proof. intros ->. unfold agrees, wp. destruct (m s) as [[v' t]|]; [|done]. intros [-> HR]. by exists t. Qed.

Lemma read_agrees d k s sec : on_disk d k s -> 0 <= sec ->
  agrees (Disk.disk_read d sec) (FsBase.disk_read sec k) (fun k' s t => on_disk d k' t /\ others_kept d s t) s.
Proof.
  intros (Hr & Hv & (x & Ex & Ha & Hcap) & m & Em & Hm) H0.
  destruct ((sec <? FsBase.capacity k) && (sec <? 2 ^ 28)) eqn:Er.
  - apply andb_true_iff in Er as [H1 H2]. assert (H1' := H1). assert (H2' := H2). apply Z.ltb_lt in H1', H2'.
    pose proof (read_ready s d x sec Hr Hv Ex Ha ltac:(lia) H2') as Hw.
    unfold FsBase.disk_read, bind, get. unfold assertb. rewrite H1. cbn. rewrite H2. cbn. rewrite Hm by lia.
    unfold wp in Hw. destruct (Disk.disk_read d sec s) as [[l t]|] eqn:E; [|done].
    destruct Hw as (Hr' & (m' & Em' & El) & Hc & Hd). rewrite Em in Em'. injection Em' as <-. rewrite El. cbn.
    unfold wp. rewrite E. split; [done|]. split.
    + split_and!; [done|done| |].
      * exists (set_read_cnt (i64 (read_cnt x + 1)) x). rewrite Hd, bool_decide_eq_true_2 by done. by split_and!.
      * exists m. by rewrite Hc.
    + intros d' Hd' Hne. rewrite Hc, Hd, bool_decide_eq_false_2 by done. done.
  - assert (E : FsBase.disk_read sec k = Err AssertFail).
    { unfold FsBase.disk_read, bind, get, assertb. destruct (sec <? FsBase.capacity k); [|done]. cbn in *. by rewrite Er. }
    rewrite E. unfold agrees, Disk.disk_read. apply (outside_refused s d x); [done|done|by rewrite Hcap].
Qed.

Lemma write_agrees d k s sec l : on_disk d k s -> 0 <= sec -> length l = Z.to_nat 512 -> Forall (in_u 8) l ->
  agrees (Disk.disk_write d sec l) (FsBase.disk_write sec l k) (fun k' s t => on_disk d k' t /\ others_kept d s t) s.
Proof.
  intros (Hr & Hv & (x & Ex & Ha & Hcap) & m & Em & Hm) H0 Hl Hl8.
  destruct ((sec <? FsBase.capacity k) && (sec <? 2 ^ 28)) eqn:Er.
  - apply andb_true_iff in Er as [H1 H2]. assert (H1' := H1). assert (H2' := H2). apply Z.ltb_lt in H1', H2'.
    unfold FsBase.disk_write, bind, get. unfold assertb. rewrite H1. cbn. rewrite H2. cbn.
    eapply wp_mono; [apply (write_ready s d x sec l Hr Hv Ex Ha ltac:(lia) H2' Hl Hl8)|]. intros [] t (Hr' & Hc & Hd).
    split; [done|]. split.
    + split_and!; [done|done| |].
      * exists (set_write_cnt (i64 (write_cnt x + 1)) x). rewrite Hd, bool_decide_eq_true_2 by done. by split_and!.
      * exists (<[sec := l]> m). rewrite Hc, bool_decide_eq_true_2, Em by done. split; [done|]. intros j Hj. cbn.
        destruct (decide (j = sec)) as [->|Hne]; [by rewrite !lookup_insert_eq|]. rewrite !lookup_insert_ne by done. by apply Hm.
    + intros d' Hd' Hne. rewrite Hc, Hd, !bool_decide_eq_false_2 by done. done.
  - assert (E : FsBase.disk_write sec l k = Err AssertFail).
    { unfold FsBase.disk_write, bind, get, assertb. destruct (sec <? FsBase.capacity k); [|done]. cbn in *. by rewrite Er. }
    rewrite E. unfold agrees, Disk.disk_write. apply (outside_refused s d x); [done|done|by rewrite Hcap].
Qed.

End Props.

(** ** An example *)

(** A PC with a boot disk and a file system disk of two sectors each. *)
Definition small_drive (w : Z) : drive :=
  mk_drive {[ 0 := replicate (Z.to_nat 256) 0; 1 := replicate (Z.to_nat 256) w ]} (<[60%nat := 2]> (replicate (Z.to_nat 256) 0)).
Definition example_hw : sim :=
  mk_sim (mk_ata 0 0 0 0 0 0 Idle false (Some (small_drive 0x1234)) (Some (small_drive 0x5678)), 0%nat)
         (mk_ata 0 0 0 0 0 0 Idle false None None, 0%nat).

Lemma small_drive_holds w : in_u 16 w -> holds (small_drive w) 2.
Proof.
  intros Hw sec Hs. assert (sec = 0 \/ sec = 1) as [-> | ->] by lia.
  - eexists. split; [apply lookup_insert_eq|]. split; [apply length_replicate|]. by apply Forall_replicate.
  - eexists. split; [cbn; rewrite lookup_insert_ne by done; apply lookup_singleton_eq|]. split; [apply length_replicate|]. by apply Forall_replicate.
Qed.

Definition example_disks : dstate sim :=
  mk_dstate [mk_channel 0x1f0 46 false true 0 [mk_disk 0 true 2 0 0; mk_disk 1 true 2 0 0];
             mk_channel 0x170 47 false false 0 [mk_disk 0 false 0 0 0; mk_disk 1 false 0 0 0]]
    example_hw true 0 [] (mk_itable [] [] [] 0 []).
Definition hd01 : disk_id := mk_id 0 1.

Lemma example_ready : disks_ready example_disks.
Proof.
  split_and!; [by eexists _, _|done|]. intros n c E. destruct n as [|[|n]]; cbn in E; simplify_eq; split_and!; try done;
    intros k x Ex; destruct k as [|[|k]]; cbn in Ex; simplify_eq; (split; [lia|]); split_and!; try done; intros _; split_and!; try done;
    eexists; (split; [done|]); by apply small_drive_holds.
Qed.

Definition example_fs : fs := mk_fs true 2 (bytes_of <$> sectors (small_drive 0x5678)) ∅ O [] (Bitmap.mk_bitmap 0 []) 0.

Lemma example_on_disk : on_disk hd01 example_fs example_disks.
Proof.
  split_and!; [apply example_ready|split; [by left|by right]|by eexists|]. eexists. split; [done|]. done.
Qed.

Lemma example_write : FsBase.disk_write 1 (replicate (Z.to_nat 512) 7) example_fs =
  Ok (tt, FsBase.set_disk (<[1 := replicate (Z.to_nat 512) 7]> (FsBase.disk example_fs)) example_fs).
Proof. reflexivity. Qed.


(** * The disk driver: starting up

    disk_init() finds the drives that are there, and leaves the driver as
    disk_read() and disk_write() need it. *)

Section Boot.
Context {stubs : Stubs} (Hstubs : forall v, in_u 32 (intr_stubs v) /\ intr_stubs v <> NULL).
Context {H : Type} {aports : AtaPorts H} {ata_hw : ATA H}.
Abbreviation D := (dstate H).
Implicit Types s t : dstate H.

(** The ports and the interrupt of a channel. *)
Definition base_no (n : Z) : Z := if n =? 0 then 0x1f0 else 0x170.
Definition irq_no (n : Z) : Z := if n =? 0 then 46 else 47.

Lemma base_no_in n : base_no n ∈ bases.
Proof. unfold base_no, bases. destruct (n =? 0); set_solver. Qed.

(** A channel has been set up: its drives are known, and it is at rest. *)
Definition set_up (n : Z) s t : Prop := exists e,
  channels t = <[Z.to_nat n := the_channel (base_no n) (irq_no n) e (boot_disk (at_chan (base_no n) s) 0) (boot_disk (at_chan (base_no n) s) 1)]> (channels s) /\
  level_on t = level_on s /\
  (forall b', b' ∈ bases -> b' <> base_no n -> chan b' (ahw t) = chan b' (ahw s) /\ settle b' (ahw t) = settle b' (ahw s)) /\
  master (at_chan (base_no n) t) = master (at_chan (base_no n) s) /\ slave (at_chan (base_no n) t) = slave (at_chan (base_no n) s) /\
  (populated (at_chan (base_no n) s) -> busy (base_no n) t = 0%nat /\ ph (at_chan (base_no n) t) = Idle).

Lemma wp_init_channel n s g h nm : n = 0 \/ n = 1 -> length (channels s) = 2%nat -> level_on s = true ->
  sane (at_chan (base_no n) s) -> (is_Some (master (at_chan (base_no n) s)) -> busy (base_no n) s = 0%nat) ->
  (forall m c', (m < Z.to_nat n)%nat -> channels s !! m = Some c' -> irq c' <> irq_no n) ->
  tables_are (irqs s) g h nm -> h (irq_no n) = None ->
  wp (init_channel n) (fun _ t => set_up n s t /\ exists g' nm', tables_are (irqs t) g' (upd h (irq_no n) (Some Idt.Disk)) nm') s.
Proof using Hstubs.
  intros Hn Hlen Hl Hs Hz Hirq Ht Hh. set (b := base_no n) in *. set (ir := irq_no n) in *.
  assert (Hch : exists c, channels s !! Z.to_nat n = Some c) by (apply lookup_lt_is_Some_2; rewrite Hlen; lia). destruct Hch as [c Ec].
  set (c1 := the_channel b ir false (blank_disk 0) (blank_disk 1)). set (s1 := with_channel n c1 s).
  assert (E1 : channels s1 !! Z.to_nat n = Some c1) by by eapply lookup_with_channel.
  unfold init_channel. apply wp_bind.
  assert (Hw : wp (if n =? 0 then upd_channel 0 (fun _ => mk_channel 0x1f0 (14 + 0x20) false false 0 [mk_disk 0 false 0 0 0; mk_disk 1 false 0 0 0])
     else if n =? 1 then upd_channel 1 (fun _ => mk_channel 0x170 (15 + 0x20) false false 0 [mk_disk 0 false 0 0 0; mk_disk 1 false 0 0 0])
     else fail AssertFail) (fun _ t => t = s1) s) by (destruct Hn as [-> | ->]; cbn [Z.eqb]; by eapply wp_upd_channel).
  eapply wp_mono; [exact Hw|]. intros [] t ->. apply wp_bind. eapply wp_get_channel; [done|]. apply wp_bind. apply wp_zoom.
  change (irq c1) with ir. eapply (wp_register_ext Hstubs); [exact Ht|unfold ir, irq_no; destruct (n =? 0); lia|done|].
  intros i Hti _ _. set (s2 := set_irqs i s1).
  eapply wp_mono; [apply (wp_scan_channel s2 n b ir)|].
  - lia.
  - apply base_no_in.
  - done.
  - done.
  - cbn. rewrite length_insert, Hlen. lia.
  - intros m c' Hm E. cbn in E. rewrite list_lookup_insert_ne in E by lia. by eapply Hirq.
  - done.
  - done.
  - intros [] t (e & Ho & Hm & Hsl & Hrest). split.
    + exists e. split_and!; [|by rewrite (on_level _ _ _ Ho)|exact (on_other _ _ _ Ho)|done|done|done].
      rewrite (on_channels _ _ _ Ho). cbn. by rewrite list_insert_insert_eq.
    + rewrite (on_irqs _ _ _ Ho). by eexists _, _.
Qed.

(** Both have been set up. *)
Definition boot_channel s (n : Z) (e : bool) : channel :=
  the_channel (base_no n) (irq_no n) e (boot_disk (at_chan (base_no n) s) 0) (boot_disk (at_chan (base_no n) s) 1).

Definition booted s t : Prop := (exists e0 e1, channels t = [boot_channel s 0 e0; boot_channel s 1 e1]) /\ level_on t = true /\
  forall n, n = 0 \/ n = 1 -> master (at_chan (base_no n) t) = master (at_chan (base_no n) s) /\
    slave (at_chan (base_no n) t) = slave (at_chan (base_no n) s) /\
    (populated (at_chan (base_no n) s) -> busy (base_no n) t = 0%nat /\ ph (at_chan (base_no n) t) = Idle).

Lemma set_up_booted s t1 t : length (channels s) = 2%nat -> level_on s = true -> set_up 0 s t1 -> set_up 1 t1 t -> booted s t.
Proof.
  intros Hlen Hl (e0 & C0 & L0 & O0 & M0 & S0 & R0) (e1 & C1 & L1 & O1 & M1 & S1 & R1).
  destruct (O0 0x170) as [A0 B0]; [unfold bases; set_solver|done|]. destruct (O1 0x1f0) as [A1 B1]; [unfold bases; set_solver|done|].
  assert (E170 : at_chan (base_no 1) t1 = at_chan (base_no 1) s) by exact A0.
  assert (E1f0 : at_chan (base_no 0) t = at_chan (base_no 0) t1) by exact A1.
  rewrite E170 in C1, M1, S1, R1. split_and!.
  - exists e0, e1. rewrite C1, C0. destruct (channels s) as [|c0 [|c1 [|]]]; try done.
  - by rewrite L1, L0.
  - intros n [-> | ->]; rewrite ?E1f0; split_and!; try done. intros Hp. change (busy (base_no 0) t = busy (base_no 0) t1) in B1. rewrite B1. by apply R0.
Qed.

Lemma boot_disk_no a u : dev_no (boot_disk a u) = u.
Proof. unfold boot_disk. by destruct (drive_of (u =? 1) a). Qed.

Lemma boot_disk_found a u dr : drive_of (u =? 1) a = Some dr -> is_ata (boot_disk a u) = true /\ capacity (boot_disk a u) = cap_of dr.
Proof. intros E. unfold boot_disk, typed_disk. rewrite E. by rewrite bool_decide_eq_true_2. Qed.

Lemma boot_disk_ata a u : is_ata (boot_disk a u) = bool_decide (is_Some (drive_of (u =? 1) a)).
Proof. unfold boot_disk, typed_disk. by destruct (drive_of (u =? 1) a). Qed.

Section Booted.
Variables (s t : D).
Hypothesis Hbt : booted s t.
Hypothesis Hsane : forall n, n = 0 \/ n = 1 -> sane (at_chan (base_no n) s).

Lemma booted_lookup n : n = 0 \/ n = 1 -> exists e, channels t !! Z.to_nat n = Some (boot_channel s n e).
Proof using Hbt. destruct Hbt as ((e0 & e1 & E) & _). rewrite E. intros [-> | ->]; eexists; done. Qed.

Lemma booted_drive n v : n = 0 \/ n = 1 -> drive_of v (at_chan (base_no n) t) = drive_of v (at_chan (base_no n) s).
Proof using Hbt. intros Hn. destruct Hbt as (_ & _ & Hk). destruct (Hk n Hn) as (Hm & Hs & _). by destruct v. Qed.

Lemma booted_disk d : valid_id d -> disk_of t d = Some (boot_disk (at_chan (base_no (chan_no d)) s) (unit_no d)).
Proof using Hbt.
  intros [Hn Hu]. destruct (booted_lookup _ Hn) as [e E]. unfold disk_of. rewrite E. cbn. by destruct Hu as [-> | ->].
Qed.

Lemma booted_contents d : valid_id d ->
  contents t d = (fun dr => bytes_of <$> sectors dr) <$> drive_of (unit_no d =? 1) (at_chan (base_no (chan_no d)) s).
Proof using Hbt.
  intros [Hn Hu]. destruct (booted_lookup _ Hn) as [e E]. unfold contents. rewrite E. cbn. rewrite booted_drive by done.
  by destruct (drive_of _ _).
Qed.

Lemma booted_ready : disks_ready t.
Proof using Hbt Hsane.
  pose proof Hbt as ((e0 & e1 & E) & Hl & Hk). split_and!; [|done|].
  - rewrite E. by exists (boot_channel s 0 e0), (boot_channel s 1 e1).
  - intros m c Ec. assert (Hc : exists n e, (n = 0 \/ n = 1) /\ c = boot_channel s n e).
    { rewrite E in Ec. destruct m as [|[|m]]; cbn in Ec; simplify_eq; eauto. }
    destruct Hc as (n & e & Hn & ->). split_and!; [done|done|]. intros k x Ex.
    assert (Hx : (k < 2)%nat /\ x = boot_disk (at_chan (base_no n) s) (Z.of_nat k)).
    { destruct k as [|[|k]]; cbn in Ex; simplify_eq; (split; [lia|done]). }
    destruct Hx as [Hk2 ->]. split; [done|]. split; [apply boot_disk_no|]. rewrite boot_disk_ata, boot_disk_no, bool_decide_eq_true.
    intros [dr Ed]. destruct (Hk n Hn) as (Hm & Hs & Hr). change (reg_base (boot_channel s n e)) with (base_no n).
    destruct Hr as [Hz Hi]; [by eapply drive_populated|]. split_and!; [done|done|]. exists dr. rewrite booted_drive by done. split; [done|].
    rewrite (proj2 (boot_disk_found _ _ dr Ed)). by destruct (proj2 (Hsane n Hn) _ _ Ed) as (_ & _ & Hh).
Qed.

Lemma booted_get d : valid_id d -> disk_get (chan_no d) (unit_no d) t =
  Ok (if decide (is_Some (drive_of (unit_no d =? 1) (at_chan (base_no (chan_no d)) s))) then Some d else None, t).
Proof using Hbt.
  intros Hv. pose proof (booted_disk d Hv) as Hd. destruct (disk_of_inv t d _ Hd) as (c & Ec & Ex). destruct Hv as [Hn Hu]. unfold disk_get.
  eapply bind_ok; [by destruct Hu as [-> | ->]|]. replace (chan_no d <? 2) with true by lia. replace (chan_no d <? 0) with false by lia.
  eapply bind_ok; [done|]. eapply bind_ok; [eapply bind_ok; [unfold get_channel; eapply bind_ok; [done|]; cbn [chan_no]; rewrite Ec; done|]; cbn [unit_no]; rewrite Ex; done|].
  unfold ret. rewrite boot_disk_ata. destruct d. cbn. by repeat case_decide || case_bool_decide.
Qed.
End Booted.

Lemma wp_disk_init s g h nm : length (channels s) = 2%nat -> level_on s = true ->
  (forall n, n = 0 \/ n = 1 -> sane (at_chan (base_no n) s) /\ (is_Some (master (at_chan (base_no n) s)) -> busy (base_no n) s = 0%nat)) ->
  tables_are (irqs s) g h nm -> h 46 = None -> h 47 = None ->
  wp disk_init (fun _ t => booted s t /\ intr_handlers (irqs t) !! Z.to_nat 46 = Some (Some Idt.Disk) /\
    intr_handlers (irqs t) !! Z.to_nat 47 = Some (Some Idt.Disk)) s.
Proof using Hstubs.
  intros Hlen Hl Hs Ht H46 H47. unfold disk_init. cbn [for_from]. destruct (Hs 0) as [Hs0 Hz0]; [by left|].
  apply wp_bind. eapply wp_mono; [eapply (wp_init_channel 0); [by left|done|done|done|done| |exact Ht|done]|].
  { intros m c' Hm. change (Z.to_nat 0) with 0%nat in Hm. lia. }
  intros [] t1 (Hu0 & g1 & nm1 & Ht1). pose proof Hu0 as (e0 & C0 & L0 & O0 & _).
  destruct (O0 0x170) as [A0 B0]; [unfold bases; set_solver|done|].
  assert (E170 : at_chan (base_no 1) t1 = at_chan (base_no 1) s) by exact A0.
  assert (B170 : busy (base_no 1) t1 = busy (base_no 1) s) by exact B0.
  destruct (Hs 1) as [Hs1 Hz1]; [by right|].
  apply wp_bind. eapply wp_mono; [eapply (wp_init_channel (0 + 1) t1); [by right| | | | | |exact Ht1|done]|].
  - by rewrite C0, length_insert.
  - by rewrite L0.
  - change (0 + 1) with 1. by rewrite E170.
  - change (0 + 1) with 1. by rewrite E170, B170.
  - intros m c' Hm E. rewrite C0 in E. destruct m as [|m]; [|change (Z.to_nat (0 + 1)) with 1%nat in Hm; lia].
    destruct (channels s); [done|]. injection E as <-. done.
  - intros [] t (Hu1 & g2 & nm2 & Ht2). apply wp_ret. split; [by eapply set_up_booted|].
    rewrite !(ta_handlers _ _ _ _ Ht2) by lia. done.
Qed.
End Boot.

(** C22: Whatever state the firmware left the disk hardware in, as long as it is
    at rest, disk_init() finds exactly the drives that are there: disk_get()
    returns the disks with a drive, each with the capacity that the drive tells;
    both interrupts have their handler.  From then on every disk found behaves
    as the file system expects a disk to, holding what the drive held. *)
Theorem disk_init_correct {stubs : Stubs} {H : Type} {aports : AtaPorts H} {ata_hw : ATA H} (s : dstate H) g h nm :
  (forall v, in_u 32 (intr_stubs v) /\ intr_stubs v <> NULL) -> length (channels s) = 2%nat -> level_on s = true ->
  (forall n, n = 0 \/ n = 1 -> sane (at_chan (base_no n) s) /\ (is_Some (master (at_chan (base_no n) s)) -> busy (base_no n) s = 0%nat)) ->
  tables_are (irqs s) g h nm -> h 46 = None -> h 47 = None ->
  wp disk_init (fun _ t =>
    intr_handlers (irqs t) !! Z.to_nat 46 = Some (Some Idt.Disk) /\ intr_handlers (irqs t) !! Z.to_nat 47 = Some (Some Idt.Disk) /\
    forall d, valid_id d -> match drive_of (unit_no d =? 1) (at_chan (base_no (chan_no d)) s) with
      | Some dr => disk_get (chan_no d) (unit_no d) t = Ok (Some d, t) /\ disk_size (Some d) t = Ok (cap_of dr, t) /\
          forall k, FsBase.capacity k = cap_of dr -> FsBase.disk k = bytes_of <$> sectors dr -> on_disk d k t
      | None => disk_get (chan_no d) (unit_no d) t = Ok (None, t)
      end) s.
Proof.
  intros Hst Hlen Hl Hs Ht H46 H47. eapply wp_mono; [by eapply wp_disk_init|]. intros [] t (Hb & Hh0 & Hh1). split_and!; [done|done|].
  intros d Hd. pose proof (booted_get s t Hb d Hd) as Hg. pose proof (booted_disk s t Hb d Hd) as Hx. pose proof (booted_contents s t Hb d Hd) as Hc.
  destruct (drive_of _ _) as [dr|] eqn:Ed.
  - rewrite decide_True in Hg by done. destruct (boot_disk_found _ _ dr Ed) as [Ha Hcap]. split_and!; [done| |].
    + destruct (disk_of_inv t d _ Hx) as (c & Ec & Ex). unfold disk_size, get_disk.
      eapply bind_ok; [eapply bind_ok; [unfold get_channel; eapply bind_ok; [done|]; rewrite Ec; done|]; rewrite Ex; done|]. unfold ret. by rewrite Hcap.
    + intros k Ek Em. split_and!; [eapply booted_ready; [done|]; intros n Hn; by apply Hs|done| |].
      * eexists. split; [exact Hx|]. by rewrite Hcap.
      * eexists. split; [exact Hc|]. by rewrite Em.
  - by rewrite decide_False in Hg by (by intros [? ?]).
Qed.

(** The example machine when it starts, with the vectors in table [i]. *)
Definition example_start (i : itable) : dstate sim :=
  mk_dstate (replicate 2 (mk_channel 0 0 false false 0 [])) example_hw true 0 [] i.

Lemma small_drive_honest w : in_u 16 w -> honest (small_drive w).
Proof.
  intros Hw. split_and!; [by cbn; rewrite length_insert, length_replicate| |].
  - apply Forall_insert; [|done]. by apply Forall_replicate.
  - by apply small_drive_holds.
Qed.

Lemma example_start_sane i n : n = 0 \/ n = 1 ->
  sane (at_chan (base_no n) (example_start i)) /\ (is_Some (master (at_chan (base_no n) (example_start i))) -> busy (base_no n) (example_start i) = 0%nat).
Proof.
  intros [-> | ->]; (split; [|done]); (split; [done|]); intros [] dr E; cbn in E; simplify_eq; by apply small_drive_honest.
Qed.

Lemma example_stubs_ok v : in_u 32 (intr_stubs (Stubs := example_stubs) v) /\ intr_stubs (Stubs := example_stubs) v <> NULL.
Proof. pose proof (Z.mod_pos_bound v 256 eq_refl). cbn. unfold in_u, NULL. lia. Qed.

Lemma example_tables : exists i g nm, tables_are (stubs := example_stubs) i g handler_of nm.
Proof.
  assert (Hw : wp (init_interrupts (stubs := example_stubs)) (fun _ i => exists g nm, tables_are (stubs := example_stubs) i g handler_of nm)
    (mk_itable (replicate 256 0) (replicate 256 None) (replicate 256 EmptyString) 0 [])).
  { apply (wp_init_interrupts example_stubs_ok); [by split_and!|]. intros i nm T _ _. by exists gate_of, nm. }
  destruct (proj1 (wp_ok _ _ _) Hw) as ([] & i & _ & Hi). by exists i.
Qed.

Lemma disk_init_correct_witness : exists i t, disk_init (stubs := example_stubs) (example_start i) = Ok (tt, t) /\
  disk_get 0 1 t = Ok (Some hd01, t) /\ disk_get 1 0 t = Ok (None, t) /\ on_disk hd01 example_fs t.
Proof.
  destruct example_tables as (i & g & nm & T). exists i.
  pose proof (disk_init_correct (stubs := example_stubs) (example_start i) g handler_of nm example_stubs_ok eq_refl eq_refl
    (example_start_sane i) T eq_refl eq_refl) as Hw.
  destruct (proj1 (wp_ok _ _ _) Hw) as ([] & t & E & _ & _ & Hd). exists t. split; [exact E|].
  pose proof (Hd hd01 ltac:(split; [by left|by right])) as H1. pose proof (Hd (mk_id 1 0) ltac:(split; [by right|by left])) as H2.
  cbn -[small_drive] in H1, H2. destruct H1 as (G1 & _ & O1). split_and!; [exact G1|exact H2|]. apply O1; reflexivity.
Defined.
