(* ===== verification/TimerCal.v ===== *)
(** * devices/timer.c: calibration and brief delays

    How many rounds of an empty loop the processor does in a timer tick is
    measured by timer_calibrate(), for delays of less than a tick.  The
    processor and the timer are known by how they keep time. *)

From Stdlib Require Import ZArith Lia.
From stdpp Require Import base numbers gmap list.
From S2P Require Import Prelude Gdt.

Open Scope Z_scope.

(** A round of the loop, the tick counter that the timer's interrupt handler
    advances, and how many rounds have been done since the last tick: a tick
    comes after every [lap] of them. *)
Class Clock (H : Type) := {
  spin : H -> H;
  ticks : H -> Z;
  since : H -> Z;
  lap : Z;
  lap_pos : 0 < lap;
  since_range : forall h, 0 <= since h <= lap;
  spin_ticks : forall h, ticks (spin h) = if since h <? lap then ticks h else ticks h + 1;
  spin_since : forall h, since (spin h) = if since h <? lap then since h + 1 else 0 }.

Definition TIMER_FREQ : Z := 100.

(** [sleeps] are the arguments of timer_sleep(), [reported] is what
    timer_calibrate() prints. *)
Record tstate (H : Type) := mk_tstate { clk : H; loops_per_tick : Z; intr_on : bool; sleeps : list Z; reported : list Z }.
Arguments mk_tstate {H} _ _ _ _ _.
Arguments clk {H} _.
Arguments loops_per_tick {H} _.
Arguments intr_on {H} _.
Arguments sleeps {H} _.
Arguments reported {H} _.

Section Code.
Context {H : Type} {clock : Clock H}.
Abbreviation T := (tstate H).

Definition set_clk v (s : T) : T := mk_tstate v (loops_per_tick s) (intr_on s) (sleeps s) (reported s).
Definition set_loops v (s : T) : T := mk_tstate (clk s) v (intr_on s) (sleeps s) (reported s).

Definition barrier : M T unit := modify (fun s => set_clk (spin (clk s)) s).
Definition sleep_ticks (n : Z) : M T unit := modify (fun s => mk_tstate (clk s) (loops_per_tick s) (intr_on s) (sleeps s ++ [n]) (reported s)).
Definition report (n : Z) : M T unit := modify (fun s => mk_tstate (clk s) (loops_per_tick s) (intr_on s) (sleeps s) (reported s ++ [n])).

Definition busy_wait (loops : Z) : M T unit := for_from (Z.to_nat loops) 0 (fun _ => barrier).

(** The loop that waits for a tick needs at most one more round than there are
    in a tick. *)
Definition too_many_loops (loops : Z) : M T bool :=
  start ← gets (fun s => ticks (clk s));
  iterate (Z.to_nat (lap + 3)) (fun _ =>
    now ← gets (fun s => ticks (clk s));
    if now =? start then barrier;; ret (inl tt) else ret (inr tt)) tt;;
  start ← gets (fun s => ticks (clk s));
  busy_wait loops;;
  now ← gets (fun s => ticks (clk s));
  ret (negb (start =? now)).

(** The loops end after at most 32 rounds, one for each bit. *)
Definition timer_calibrate : M T unit :=
  s ← get;
  ASSERT (intr_on s);;
  modify (set_loops (u32 (Z.shiftl 1 10)));;
  iterate 33 (fun _ =>
    l ← gets loops_per_tick;
    b ← too_many_loops (u32 (Z.shiftl l 1));
    if b : bool then ret (inr tt)
    else
      modify (set_loops (u32 (Z.shiftl l 1)));;
      l ← gets loops_per_tick;
      ASSERT (negb (l =? 0));;
      ret (inl tt)) tt;;
  high_bit ← gets loops_per_tick;
  iterate 33 (fun test_bit =>
    if test_bit =? Z.shiftr high_bit 10 then ret (inr tt)
    else
      b ← too_many_loops (Z.lor high_bit test_bit);
      (if b : bool then ret tt
       else l ← gets loops_per_tick; modify (set_loops (Z.lor l test_bit)));;
      ret (inl (Z.shiftr test_bit 1))) (Z.shiftr high_bit 1);;
  l ← gets loops_per_tick;
  report (u64 (l * TIMER_FREQ)).

Definition real_time_sleep (num denom : Z) : M T unit :=
  let n := Z.quot (i64 (num * TIMER_FREQ)) denom in
  s ← get;
  ASSERT (intr_on s);;
  if 0 <? n then sleep_ticks n
  else
    ASSERT (Z.rem denom 1000 =? 0);;
    l ← gets loops_per_tick;
    busy_wait (Z.quot (i64 (Z.quot (i64 (l * num)) 1000 * TIMER_FREQ)) (Z.quot denom 1000)).

Definition timer_msleep (ms : Z) : M T unit := real_time_sleep ms 1000.
Definition timer_usleep (us : Z) : M T unit := real_time_sleep us (1000 * 1000).
Definition timer_nsleep (ns : Z) : M T unit := real_time_sleep ns (1000 * 1000 * 1000).
End Code.

(** ** Keeping time *)

Section Time.
Context {H : Type} {clock : Clock H}.
Abbreviation T := (tstate H).
Implicit Types (h : H) (s t : tstate H).

Definition spins (n : nat) h : H := Nat.iter n spin h.

Lemma spins_S n h : spins (S n) h = spin (spins n h).
Proof. done. Qed.

Lemma spins_within n h : since h + Z.of_nat n <= lap -> ticks (spins n h) = ticks h /\ since (spins n h) = since h + Z.of_nat n.
Proof.
  induction n as [|n IH]; intros Hn; [split; [done|cbn; lia]|]. rewrite spins_S.
  destruct IH as [E1 E2]; [lia|]. rewrite spin_ticks, spin_since, E1, E2.
  replace (since h + Z.of_nat n <? lap) with true by lia. split; [done|lia].
Qed.

Lemma ticks_mono n h : ticks h <= ticks (spins n h).
Proof.
  induction n as [|n IH]; [done|]. rewrite spins_S. rewrite spin_ticks.
  destruct (_ <? _); lia.
Qed.

Lemma spins_add n m h : spins (n + m) h = spins n (spins m h).
Proof. apply Nat.iter_add. Qed.

(** From just after a tick, the counter has moved exactly if more rounds were
    done than there are in a tick. *)
Lemma spins_change n h : since h = 0 -> (ticks h =? ticks (spins n h)) = (Z.of_nat n <=? lap).
Proof.
  intros H0. pose proof lap_pos as Hl. destruct (Z.leb_spec (Z.of_nat n) lap) as [Hn|Hn].
  - destruct (spins_within n h) as [-> _]; [lia|]. apply Z.eqb_refl.
  - apply Z.eqb_neq. set (k := Z.to_nat lap). replace n with ((n - S k) + (1 + k))%nat by lia. rewrite !spins_add.
    destruct (spins_within k h) as [E1 E2]; [lia|]. pose proof (ticks_mono (n - S k) (spins 1 (spins k h))) as Hm.
    change (spins 1 (spins k h)) with (spin (spins k h)) in Hm |- *. rewrite spin_ticks, E1, E2 in Hm.
    replace (since h + Z.of_nat k <? lap) with false in Hm by lia. lia.
Qed.

Lemma wp_busy_wait loops s (Q : unit -> T -> Prop) : Q tt (set_clk (spins (Z.to_nat loops) (clk s)) s) -> wp (busy_wait loops) Q s.
Proof.
  unfold busy_wait. generalize (Z.to_nat loops) as n, 0 as i. intros n i HQ. revert i s HQ.
  induction n as [|n IH]; intros i s HQ; cbn [for_from]; [apply wp_ret; by destruct s|].
  apply wp_bind. red. cbn [barrier modify]. apply IH. cbn [clk set_clk].
  replace (set_clk (spins n (spin (clk s))) (set_clk (spin (clk s)) s)) with (set_clk (spins (S n) (clk s)) s); [done|].
  unfold set_clk. cbn [clk loops_per_tick intr_on sleeps reported]. f_equal. apply Nat.iter_succ_r.
Qed.

(** Waiting for a tick. *)
Lemma wp_next_tick s : wp (iterate (Z.to_nat (lap + 3)) (fun _ =>
    now ← gets (fun s => ticks (clk s));
    if now =? ticks (clk s) then barrier;; ret (inl tt) else ret (inr tt)) tt)
  (fun _ t => exists h, since h = 0 /\ t = set_clk h s) s.
Proof.
  pose proof lap_pos as Hl.
  apply (wp_iterate (fun n (_ : unit) t => exists h, t = set_clk h s /\
    (ticks h = ticks (clk s) /\ Z.of_nat n = lap + 2 - since h \/ ticks h <> ticks (clk s) /\ since h = 0 /\ n = O))) with (n := Z.to_nat (lap + 2 - since (clk s))).
  - intros n [] t (h & -> & Hh). apply wp_bind. red. cbn [gets clk set_clk]. pose proof (since_range h) as Hr.
    destruct (Z.eqb_spec (ticks h) (ticks (clk s))) as [E|E].
    + destruct Hh as [[_ Hn]|[Hne _]]; [|done]. apply wp_bind. red. cbn [barrier modify]. apply wp_ret. cbn [clk set_clk].
      pose proof (spin_ticks h) as Et. pose proof (spin_since h) as Es. destruct (since h <? lap) eqn:Ec.
      * exists (Nat.pred n). split; [lia|]. exists (spin h). split; [done|]. left. split; [congruence|]. rewrite Es. lia.
      * exists O. split; [lia|]. exists (spin h). split; [done|]. right. split_and!; [rewrite Et; lia|done|done].
    + destruct Hh as [[? _]|[_ [H0 _]]]; [done|]. apply wp_ret. by exists h.
  - exists (clk s). pose proof (since_range (clk s)). split; [by destruct s|]. left. split; [done|lia].
  - pose proof (since_range (clk s)). lia.
Qed.

Lemma wp_too_many_loops n s : 0 <= n -> wp (too_many_loops n) (fun r t => r = (lap <? n) /\ exists h, t = set_clk h s) s.
Proof.
  intros Hn. unfold too_many_loops. apply wp_bind. red. cbn [gets]. apply wp_bind. eapply wp_mono; [apply wp_next_tick|].
  intros [] t (h & H0 & ->). apply wp_bind. red. cbn [gets]. apply wp_bind, wp_busy_wait. apply wp_bind. red. cbn [gets].
  apply wp_ret. cbn [clk set_clk]. rewrite spins_change by done. split; [|by eexists].
  rewrite Z2Nat.id by done. by rewrite Z.ltb_antisym.
Qed.

(** ** Calibration *)

(** What the second loop has made of [2 ^ k] when bit [j] is next: the first bit
    that fits, if any, and all bits after it. *)
Definition refined (k j r : Z) : Prop :=
  r = 2 ^ k /\ lap < 2 ^ k + 2 ^ (j + 1) \/
  exists m, j < m < k /\ r = 2 ^ k + 2 ^ (m + 1) - 2 ^ (j + 1) /\ 2 ^ k + 2 ^ m <= lap < 2 ^ k + 2 ^ (m + 1).

Lemma lor_bit x j : 0 <= j -> x mod 2 ^ (j + 1) = 0 -> Z.lor x (2 ^ j) = x + 2 ^ j.
Proof.
  intros Hj Hx. assert (Hp : 2 ^ (j + 1) = 2 * 2 ^ j) by (rewrite Z.pow_add_r by lia; lia). pose proof (Z.pow_pos_nonneg 2 j).
  rewrite Z.lor_comm. rewrite (Z.div_mod x (2 ^ (j + 1))) at 1 by lia. rewrite Hx, Z.add_0_r, Z.mul_comm, <- Z.shiftl_mul_pow2 by lia.
  rewrite lor_shift by lia. pose proof (Z.div_mod x (2 ^ (j + 1))). lia.
Qed.

Lemma pow_multiple a j : 0 <= j <= a -> 2 ^ a mod 2 ^ j = 0.
Proof. intros Ha. replace a with (a - j + j) by lia. rewrite Z.pow_add_r by lia. apply Z.mod_mul. pose proof (Z.pow_pos_nonneg 2 j). lia. Qed.

Lemma refined_multiple k j r : 0 <= j < k -> refined k j r -> r mod 2 ^ (j + 1) = 0.
Proof.
  intros Hj [[-> _]|(m & Hm & -> & _)]; [apply pow_multiple; lia|].
  rewrite Zminus_mod, Z.add_mod by (pose proof (Z.pow_pos_nonneg 2 (j + 1)); lia).
  rewrite !pow_multiple by lia. by rewrite Z.mod_0_l by (pose proof (Z.pow_pos_nonneg 2 (j + 1)); lia).
Qed.

Lemma refined_step k j r : 0 <= j < k -> refined k j r -> refined k (j - 1) (if lap <? 2 ^ k + 2 ^ j then r else r + 2 ^ j).
Proof.
  intros Hj Hr. replace (j - 1 + 1) with j by lia. unfold refined. replace (j - 1 + 1) with j by lia.
  assert (Hp : 2 ^ (j + 1) = 2 * 2 ^ j) by (rewrite Z.pow_add_r by lia; lia).
  destruct Hr as [[-> Hl]|(m & Hm & -> & Hl)].
  - destruct (Z.ltb_spec lap (2 ^ k + 2 ^ j)); [by left|]. right. exists j. rewrite Hp in *. split_and!; lia.
  - right. exists m. assert (2 ^ j <= 2 ^ m) by (apply Z.pow_le_mono_r; lia).
    destruct (Z.ltb_spec lap (2 ^ k + 2 ^ j)); [lia|]. rewrite Hp. split_and!; lia.
Qed.

(** The first loop finds the highest bit. *)
Lemma wp_highest s : 2 ^ 10 <= lap < 2 ^ 31 -> loops_per_tick s = 2 ^ 10 ->
  wp (iterate 33 (fun _ =>
      l ← gets loops_per_tick;
      b ← too_many_loops (u32 (Z.shiftl l 1));
      if b : bool then ret (inr tt)
      else
        modify (set_loops (u32 (Z.shiftl l 1)));;
        l ← gets loops_per_tick;
        ASSERT (negb (l =? 0));;
        ret (inl tt)) tt)
    (fun _ t => exists k h, 10 <= k <= 30 /\ 2 ^ k <= lap < 2 ^ (k + 1) /\ t = set_loops (2 ^ k) (set_clk h s)) s.
Proof.
  intros Hl Hs. apply (wp_iterate (fun n (_ : unit) t => exists k h, 10 <= k <= 30 /\ n = Z.to_nat (30 - k) /\ 2 ^ k <= lap /\ t = set_loops (2 ^ k) (set_clk h s)))
    with (n := Z.to_nat (30 - 10)); [|exists 10, (clk s); split_and!; [lia|lia|done|lia|rewrite <- Hs; by destruct s]|lia].
  intros n [] t (k & h & Hk & -> & Hle & ->). apply wp_bind. red. cbn [gets loops_per_tick set_loops].
  assert (Hp : 2 ^ (k + 1) = 2 * 2 ^ k) by (rewrite Z.pow_add_r by lia; lia).
  assert (Hlt : 2 ^ (k + 1) <= 2 ^ 31) by (apply Z.pow_le_mono_r; lia). pose proof (Z.pow_pos_nonneg 2 k).
  assert (Eu : u32 (Z.shiftl (2 ^ k) 1) = 2 ^ (k + 1)).
  { rewrite Z.shiftl_mul_pow2 by lia. rewrite uwrap_small; [lia|]. unfold in_u. lia. }
  rewrite Eu. apply wp_bind. eapply wp_mono; [apply wp_too_many_loops; lia|]. intros r t (-> & h' & ->).
  destruct (Z.ltb_spec lap (2 ^ (k + 1))) as [Hb|Hb].
  - apply wp_ret. exists k, h'. split_and!; [lia..|done].
  - assert (k <> 30) by (intros ->; lia).
    apply wp_bind. red. cbn [modify]. apply wp_bind. red. cbn [gets loops_per_tick set_loops]. apply wp_bind, wp_assertb; [lia|]. apply wp_ret.
    exists (Z.to_nat (30 - (k + 1))). split; [lia|]. exists (k + 1), h'. split_and!; [lia..|done].
Qed.

(** The second loop refines it. *)
Lemma wp_refine s k : 10 <= k <= 30 -> 2 ^ k <= lap < 2 ^ (k + 1) -> loops_per_tick s = 2 ^ k ->
  wp (iterate 33 (fun test_bit =>
      if test_bit =? Z.shiftr (2 ^ k) 10 then ret (inr tt)
      else
        b ← too_many_loops (Z.lor (2 ^ k) test_bit);
        (if b : bool then ret tt
         else l ← gets loops_per_tick; modify (set_loops (Z.lor l test_bit)));;
        ret (inl (Z.shiftr test_bit 1))) (Z.shiftr (2 ^ k) 1))
    (fun _ t => exists r h, refined k (k - 10) r /\ t = set_loops r (set_clk h s)) s.
Proof.
  intros Hk Hl Hs. assert (Esh : forall j i, 0 <= i <= j -> Z.shiftr (2 ^ j) i = 2 ^ (j - i)).
  { intros j i Hi. rewrite Z.shiftr_div_pow2 by lia. replace j with (j - i + i) at 1 by lia. rewrite Z.pow_add_r by lia.
    apply Z.div_mul. pose proof (Z.pow_pos_nonneg 2 i). lia. }
  rewrite !Esh by lia.
  apply (wp_iterate (fun n x t => exists j r h, k - 10 <= j < k /\ n = Z.to_nat (j - (k - 10)) /\ x = 2 ^ j /\ refined k j r /\ t = set_loops r (set_clk h s)))
    with (n := 9%nat); [|exists (k - 1), (2 ^ k), (clk s); split_and!; [lia|lia|lia|done|left; split; [done|]; replace (k - 1 + 1) with k by lia; rewrite Z.pow_add_r in Hl by lia; lia|rewrite <- Hs; by destruct s]|lia].
  intros n x t (j & r & h & Hj & -> & -> & Hr & ->). destruct (Z.eqb_spec (2 ^ j) (2 ^ (k - 10))) as [E|E].
  { apply Z.pow_inj_r in E; [|lia..]. subst j. apply wp_ret. by exists r, h. }
  assert (Hj' : k - 10 < j) by (destruct (decide (j = k - 10)); [congruence|lia]).
  pose proof (Z.pow_pos_nonneg 2 j). pose proof (Z.pow_pos_nonneg 2 k). rewrite (lor_bit (2 ^ k) j) by first [lia|apply pow_multiple; lia].
  apply wp_bind. eapply wp_mono; [apply wp_too_many_loops; lia|]. intros b t (-> & h' & ->).
  pose proof (refined_step k j r ltac:(lia) Hr) as Hstep. rewrite Esh by lia. apply wp_bind.
  assert (Hset : wp (if lap <? 2 ^ k + 2 ^ j then ret tt else l ← gets loops_per_tick; modify (set_loops (Z.lor l (2 ^ j))))
    (fun _ t => t = set_loops (if lap <? 2 ^ k + 2 ^ j then r else r + 2 ^ j) (set_clk h' s)) (set_clk h' (set_loops r (set_clk h s)))).
  { destruct (lap <? 2 ^ k + 2 ^ j); [by apply wp_ret|]. apply wp_bind. red. cbn [gets loops_per_tick set_loops set_clk].
    assert (Hmul : r mod 2 ^ (j + 1) = 0) by (apply (refined_multiple k); [lia|exact Hr]). rewrite (lor_bit r j) by first [lia|exact Hmul]. done. }
  eapply wp_mono; [exact Hset|]. intros [] t ->. apply wp_ret. exists (Z.to_nat (j - 1 - (k - 10))). split; [lia|].
  eexists (j - 1), _, h'. split_and!; [lia|lia|done|done|exact Hstep|done].
Qed.

Lemma wp_calibrate s : intr_on s = true -> 2 ^ 10 <= lap < 2 ^ 31 ->
  wp timer_calibrate (fun _ t => intr_on t = true /\
    exists k, 10 <= k <= 30 /\ 2 ^ k <= lap < 2 ^ (k + 1) /\ refined k (k - 10) (loops_per_tick t)) s.
Proof.
  intros Hi Hl. unfold timer_calibrate. apply wp_bind. red. cbn [get]. apply wp_bind, wp_assertb; [done|].
  apply wp_bind. red. cbn [modify]. apply wp_bind. eapply wp_mono; [by apply wp_highest|].
  intros [] t (k & h & Hk & Hb & ->). apply wp_bind. red. cbn [gets loops_per_tick set_loops].
  apply wp_bind. eapply wp_mono; [by apply (wp_refine _ k)|]. intros [] t (r & h' & Hr & ->).
  apply wp_bind. red. cbn. split; [done|]. by exists k.
Qed.

Lemma refined_bounds k r : 10 <= k <= 30 -> 2 ^ k <= lap < 2 ^ (k + 1) -> refined k (k - 10) r ->
  512 * (lap - r) < lap /\ 3 * r < 4 * lap /\ 0 < r < 2 ^ 32.
Proof.
  intros Hk Hl Hr. unfold refined in Hr. replace (k - 10 + 1) with (k - 9) in Hr by lia.
  assert (Hp9 : 2 ^ k = 512 * 2 ^ (k - 9)) by (change 512 with (2 ^ 9); rewrite <- Z.pow_add_r by lia; f_equal; lia).
  assert (Hp30 : 2 ^ k <= 2 ^ 30) by (apply Z.pow_le_mono_r; lia). pose proof (Z.pow_pos_nonneg 2 (k - 9)).
  destruct Hr as [[-> Hr]|(m & Hm & -> & Hr)]; [lia|].
  assert (Hpm : 2 ^ (m + 1) = 2 * 2 ^ m) by (rewrite Z.pow_add_r by lia; lia).
  assert (Hmk : 2 ^ (m + 1) <= 2 ^ k) by (apply Z.pow_le_mono_r; lia).
  assert (Hm9 : 2 ^ (k - 9) <= 2 ^ m) by (apply Z.pow_le_mono_r; lia). lia.
Qed.

(** ** Delays *)

(** The scales of timer_msleep(), timer_usleep() and timer_nsleep(). *)
Definition scales : list Z := [1000; 1000 * 1000; 1000 * 1000 * 1000].

(** The rounds of a delay that is shorter than a tick. *)
Definition rounds (r num denom : Z) : Z := r * num / 1000 * 100 / (denom / 1000).

Lemma rounds_bounds r num denom : 0 <= r -> 0 <= num -> denom ∈ scales ->
  denom * rounds r num denom <= r * num * 100 < denom * (rounds r num denom + 101).
Proof.
  intros Hr Hn Hd. unfold rounds. assert (H0 : 0 <= r * num) by nia. generalize dependent (r * num). intros x H0.
  unfold scales in Hd. set_unfold. destruct Hd as [->|[->|[->|[]]]];
    [change (1000 / 1000) with 1|change (1000 * 1000 / 1000) with 1000|change (1000 * 1000 * 1000 / 1000) with 1000000];
    Z.to_euclidean_division_equations; lia.
Qed.

Lemma rounds_nonneg r num denom : 0 <= r -> 0 <= num -> denom ∈ scales -> 0 <= rounds r num denom.
Proof.
  intros Hr Hn Hd. unfold rounds, scales in *. assert (0 <= r * num / 1000) by (apply Z.div_pos; nia).
  set_unfold. destruct Hd as [->|[->|[->|[]]]]; (apply Z.div_pos; [lia|done]).
Qed.

Lemma wp_real_time_sleep s num denom : intr_on s = true -> 0 < loops_per_tick s < 2 ^ 32 -> denom ∈ scales -> 0 <= num -> num * 100 < 2 ^ 63 ->
  wp (real_time_sleep num denom) (fun _ t =>
    if num * 100 <? denom then t = set_clk (spins (Z.to_nat (rounds (loops_per_tick s) num denom)) (clk s)) s
    else clk t = clk s /\ sleeps t = sleeps s ++ [num * 100 / denom]) s.
Proof.
  intros Hi Hl Hd Hn Hov. assert (Hdp : 1000 <= denom <= 1000000000) by (unfold scales in Hd; set_unfold; lia). unfold real_time_sleep, TIMER_FREQ. cbv zeta.
  rewrite (swrap_small 64 (num * 100)) by first [lia|unfold in_s; lia]. rewrite Z.quot_div_nonneg by lia.
  apply wp_bind. red. cbn [get]. apply wp_bind, wp_assertb; [done|]. destruct (Z.ltb_spec (num * 100) denom) as [Hlt|Hge].
  - replace (0 <? num * 100 / denom) with false by (rewrite Z.div_small by lia; done).
    apply wp_bind, wp_assertb; [unfold scales in Hd; set_unfold; by destruct Hd as [->|[->|[->|[]]]]|].
    apply wp_bind. red. cbn [gets]. apply wp_busy_wait. f_equal. f_equal. unfold rounds.
    assert (H0 : 0 <= loops_per_tick s * num < 2 ^ 32 * 10000000) by nia.
    rewrite (swrap_small 64 (loops_per_tick s * num)) by first [lia|unfold in_s; lia]. rewrite (Z.quot_div_nonneg _ 1000) by lia.
    assert (H1 : 0 <= loops_per_tick s * num / 1000 < 2 ^ 32 * 10000) by (Z.to_euclidean_division_equations; lia).
    rewrite (swrap_small 64 (_ * 100)) by first [lia|unfold in_s; lia]. rewrite (Z.quot_div_nonneg denom) by lia. rewrite Z.quot_div_nonneg; [done|lia|].
    Z.to_euclidean_division_equations; lia.
  - assert (Hq : 0 < num * 100 / denom) by (apply Z.div_str_pos; lia). replace (0 <? num * 100 / denom) with true by lia.
    red. cbn. done.
Qed.
End Time.

(** ** Properties *)


(** C39: timer_calibrate() tests every further bit together with the highest one
    alone, not with the bits already found.  On a processor whose number of
    rounds in a tick is one and a half times a power of two, it therefore takes
    all the bits, and finds a number of rounds that last longer than a tick. *)
Theorem calibration_overshoots {H : Type} {clock : Clock H} (s : tstate H) k : intr_on s = true -> 10 <= k <= 29 -> lap = 2 ^ k + 2 ^ (k - 1) ->
  wp timer_calibrate (fun _ t => loops_per_tick t = 2 ^ (k + 1) - 2 ^ (k - 9) /\ lap < loops_per_tick t) s.
Proof.
  intros Hi Hk Hl. assert (Hp : 2 ^ k = 2 * 2 ^ (k - 1)) by (rewrite <- Z.pow_succ_r by lia; f_equal; lia).
  assert (Hp1 : 2 ^ (k + 1) = 2 * 2 ^ k) by (rewrite Z.pow_add_r by lia; lia).
  assert (Hp9 : 2 ^ k = 512 * 2 ^ (k - 9)) by (change 512 with (2 ^ 9); rewrite <- Z.pow_add_r by lia; f_equal; lia).
  assert (2 ^ 10 <= 2 ^ k <= 2 ^ 29) by (split; apply Z.pow_le_mono_r; lia). pose proof (Z.pow_pos_nonneg 2 (k - 9)).
  eapply wp_mono; [apply wp_calibrate; [done|lia]|]. intros [] t (_ & k' & Hk' & Hlap & Hr).
  assert (k' = k) as ->.
  { destruct (Z.lt_trichotomy k' k) as [Hc|[Hc|Hc]]; [|done|].
    - assert (2 ^ (k' + 1) <= 2 ^ k) by (apply Z.pow_le_mono_r; lia). lia.
    - assert (2 ^ (k + 1) <= 2 ^ k') by (apply Z.pow_le_mono_r; lia). lia. }
  destruct Hr as [[_ Hr]|(m & Hm & -> & Hr)].
  - assert (2 ^ (k - 10 + 1) <= 2 ^ (k - 1)) by (apply Z.pow_le_mono_r; lia). lia.
  - replace (k - 10 + 1) with (k - 9) by lia.
    assert (m = k - 1) as ->; [|replace (k - 1 + 1) with k by lia; lia].
    destruct (decide (m = k - 1)); [done|]. assert (2 ^ (m + 1) <= 2 ^ (k - 1)) by (apply Z.pow_le_mono_r; lia). lia.
Qed.

(** A clock with [n] rounds in a tick. *)
#[refine] Definition ideal_clock (n : Z) (Hn : 0 < n) : Clock (Z * Z) := {|
  spin h := if Z.max 0 (Z.min n h.2) <? n then (h.1, Z.max 0 (Z.min n h.2) + 1) else (h.1 + 1, 0);
  ticks h := h.1;
  since h := Z.max 0 (Z.min n h.2);
  lap := n |}.
Proof.
  - exact Hn.
  - intros h. lia.
  - intros h. by destruct (_ <? n).
  - intros h. destruct (Z.ltb_spec (Z.max 0 (Z.min n h.2)) n); cbn; lia.
Defined.

Definition example_timer : tstate (Z * Z) := mk_tstate (7, 3) 0 true [] [].


Lemma calibration_overshoots_witness :
  wp (timer_calibrate (clock := ideal_clock 1536 eq_refl)) (fun _ t => loops_per_tick t = 2046) example_timer.
Proof.
  eapply wp_mono; [apply (calibration_overshoots (clock := ideal_clock 1536 eq_refl) example_timer 10); [reflexivity|lia|reflexivity]|].
  intros [] t [H1 _]. exact H1.
Defined.
