(* ===== verification/Fsutil.v ===== *)
(** * filesys/fsutil.c: the actions on files

    The functions, and then the round trip of a file through them. *)

From Stdlib Require Import ZArith Lia.
From stdpp Require Import base numbers gmap list.
From S2P Require Import Prelude Bitmap FsBase Inode Directory FsData FsInv FsWp FsHandle FsFile FsDir FsTop FsInit FsSim FsProps FileService FsService.

Open Scope Z_scope.

(** * The code

    Copying files between the file system and the scratch disk, showing and
    deleting them.  The scratch disk is the disk hd1:0, if there is one, as
    sectors; output is recorded by what it says.  The buffer is a block of its
    own, whose contents are a local variable. *)

Record scratch := mk_scratch { s_capacity : Z; s_sectors : gmap Z (list Z) }.

(** What is printed; [Dump] is a call of hex_dump(). *)
Inductive line :=
  | Listing | Name (nm : list Z) | EndOfListing | Printing (nm : list Z) | Dump (ofs : Z) (bytes : list Z)
  | Deleting (nm : list Z) | Putting (nm : list Z) | Getting (nm : list Z).

(** [put_sector] and [get_sector] are the static variables; [has_memory]:
    malloc() and palloc_get_page() have a block. *)
Record ustate := mk_ustate { ufs : fs; hd10 : option scratch; put_sector : Z; get_sector : Z; printed : list line; has_memory : bool }.

Definition set_ufs v u := mk_ustate v (hd10 u) (put_sector u) (get_sector u) (printed u) (has_memory u).
Definition set_hd10 v u := mk_ustate (ufs u) v (put_sector u) (get_sector u) (printed u) (has_memory u).
Definition set_put_sector v u := mk_ustate (ufs u) (hd10 u) v (get_sector u) (printed u) (has_memory u).
Definition set_get_sector v u := mk_ustate (ufs u) (hd10 u) (put_sector u) v (printed u) (has_memory u).
Definition set_printed v u := mk_ustate (ufs u) (hd10 u) (put_sector u) (get_sector u) v (has_memory u).

Section Code.
Context `{!Memory}.

(** What the local variables hold that directory.c does not initialise. *)
Variable (e : list Z).

Definition on_fs {A} (m : M fs A) : M ustate A := zoom ufs set_ufs m.
Definition say (x : line) : M ustate unit := modify (fun u => set_printed (printed u ++ [x]) u).
Definition panic_unless (b : bool) : M ustate unit := assertb b.
Definition get_buffer : M ustate unit := b ← gets has_memory; panic_unless b.

(** The scratch disk: disk_get (1, 0), disk_read(), disk_write(), disk_size(). *)
Definition get_scratch : M ustate scratch := d ← gets hd10; of_option AssertFail d.
Definition scratch_read (sec : Z) : M ustate (list Z) :=
  d ← get_scratch; ASSERT (sec <? s_capacity d);; ASSERT (sec <? 2 ^ 28);; of_option BadAccess (s_sectors d !! sec).
Definition scratch_write (sec : Z) (buf : list Z) : M ustate unit :=
  d ← get_scratch; ASSERT (sec <? s_capacity d);; ASSERT (sec <? 2 ^ 28);;
  modify (set_hd10 (Some (mk_scratch (s_capacity d) (<[sec := buf]> (s_sectors d))))).

(** [sector++] as an argument. *)
Definition next_put : M ustate Z := n ← gets put_sector; modify (set_put_sector (u32 (n + 1)));; ret n.
Definition next_get : M ustate Z := n ← gets get_sector; modify (set_get_sector (u32 (n + 1)));; ret n.

(** There are at most as many names as the directory has room for. *)
Definition fsutil_ls : M ustate unit :=
  say Listing;;
  dir ← on_fs dir_open_root;
  panic_unless (negb (dir =? NULL));;
  u ← get;
  iterate (Z.to_nat (512 * capacity (ufs u))) (fun _ =>
    r ← on_fs (dir_readdir dir e);
    match r with Some nm => say (Name nm);; ret (inl tt) | None => ret (inr tt) end) tt;;
  say EndOfListing.

(** A file has less than 2^31 bytes, read 2^12 at a time. *)
Definition fsutil_cat (file_name : list Z) : M ustate unit :=
  say (Printing file_name);;
  file ← on_fs (filesys_open file_name e);
  panic_unless (negb (file =? NULL));;
  get_buffer;;
  iterate (Z.to_nat (2 ^ 19 + 2)) (fun _ =>
    pos ← on_fs (file_tell file);
    l ← on_fs (file_read file 4096);
    if Z.of_nat (length l) =? 0 then ret (inr tt)
    else say (Dump pos l);; ret (inl tt)) tt;;
  on_fs (file_close file).

Definition fsutil_rm (file_name : list Z) : M ustate unit :=
  say (Deleting file_name);;
  b ← on_fs (filesys_remove file_name e);
  panic_unless b.

Definition chunk_size (size : Z) : Z := if DISK_SECTOR_SIZE <? size then DISK_SECTOR_SIZE else size.

Definition fsutil_put (file_name : list Z) : M ustate unit :=
  say (Putting file_name);;
  get_buffer;;
  get_scratch;;
  sec ← next_put;
  buffer ← scratch_read sec;
  panic_unless (bool_decide (take 4 buffer = [80; 85; 84; 0]));;
  let size := i32 (word (drop 4 buffer)) in
  panic_unless (negb (size <? 0));;
  b ← on_fs (filesys_create file_name size e);
  panic_unless b;;
  dst ← on_fs (filesys_open file_name e);
  panic_unless (negb (dst =? NULL));;
  iterate (Z.to_nat (size + 1)) (fun size =>
    if 0 <? size then
      sec ← next_put;
      buffer ← scratch_read sec;
      n ← on_fs (file_write dst (take (Z.to_nat (chunk_size size)) buffer) (chunk_size size));
      panic_unless (n =? chunk_size size);;
      ret (inl (size - chunk_size size))
    else ret (inr tt)) size;;
  on_fs (file_close dst).

Definition fsutil_get (file_name : list Z) : M ustate unit :=
  say (Getting file_name);;
  get_buffer;;
  src ← on_fs (filesys_open file_name e);
  panic_unless (negb (src =? NULL));;
  size ← on_fs (file_length src);
  get_scratch;;
  sec ← next_get;
  scratch_write sec ([71; 69; 84; 0] ++ le32 size ++ replicate 504 0);;
  iterate (Z.to_nat (size + 1)) (fun size =>
    if 0 <? size then
      d ← get_scratch;
      sec ← gets get_sector;
      panic_unless (negb (s_capacity d <=? sec));;
      l ← on_fs (file_read src (chunk_size size));
      panic_unless (Z.of_nat (length l) =? chunk_size size);;
      sec ← next_get;
      scratch_write sec (l ++ replicate (Z.to_nat (DISK_SECTOR_SIZE - chunk_size size)) 0);;
      ret (inl (size - chunk_size size))
    else ret (inr tt)) size;;
  on_fs (file_close src).
End Code.

(** * fsutil.c: properties

    Copying a file in and out again gives the same bytes. *)

(** ** The scratch disk *)

Abbreviation size_of l := (Z.of_nat (length l)).

(** The sectors that [n] bytes take. *)
Definition sectors_for (n : Z) : Z := (n + 511) / 512.

(** The bytes [l] are in the sectors from [n] on, the last one filled up. *)
Definition holds_data (m : gmap Z (list Z)) (n : Z) (l : list Z) : Prop := forall i, 0 <= i -> 512 * i < size_of l ->
  exists bs, m !! (n + i) = Some bs /\ length bs = Z.to_nat 512 /\
    take (Z.to_nat (chunk_size (size_of l - 512 * i))) bs = take (Z.to_nat 512) (drop (Z.to_nat (512 * i)) l).

(** A file on the scratch disk: a sector with a tag and the size, and the data. *)
Definition archived (tag : list Z) (m : gmap Z (list Z)) (n : Z) (l : list Z) : Prop :=
  (exists hd, m !! n = Some hd /\ length hd = Z.to_nat 512 /\ take 4 hd = tag /\ word (drop 4 hd) = size_of l) /\ holds_data m (n + 1) l.

Definition PUT : list Z := [80; 85; 84; 0].
Definition GET : list Z := [71; 69; 84; 0].

Lemma chunk_part (l : list Z) i : 0 <= i -> 512 * i < size_of l ->
  let c := chunk_size (size_of l - 512 * i) in 0 < c <= 512 /\ size_of (take (Z.to_nat 512) (drop (Z.to_nat (512 * i)) l)) = c /\
    512 * i + c = Z.min (size_of l) (512 * (i + 1)) /\ size_of l - 512 * i - c = Z.max 0 (size_of l - 512 * (i + 1)).
Proof.
  intros Hi Hl c. rewrite length_take, length_drop. unfold c, chunk_size, DISK_SECTOR_SIZE. destruct (Z.ltb_spec 512 (size_of l - 512 * i)); lia.
Qed.

(** One more chunk. *)
Lemma take_chunk (l : list Z) i : 0 <= i -> 512 * i < size_of l ->
  take (Z.to_nat (512 * i)) l ++ take (Z.to_nat 512) (drop (Z.to_nat (512 * i)) l) = take (Z.to_nat (Z.min (size_of l) (512 * (i + 1)))) l.
Proof.
  intros Hi Hl. rewrite take_take_drop. destruct (Z.min_spec (size_of l) (512 * (i + 1))) as [[H E]|[H E]]; rewrite E.
  - rewrite !take_ge by lia. done.
  - f_equal. lia.
Qed.

(** ** Steps *)

Lemma wp_say x u (Q : unit -> ustate -> Prop) : Q tt (set_printed (printed u ++ [x]) u) -> wp (say x) Q u.
Proof. done. Qed.

Lemma wp_get_scratch u d (Q : scratch -> ustate -> Prop) : hd10 u = Some d -> Q d u -> wp get_scratch Q u.
Proof. intros E HQ. apply wp_bind. red. cbn [gets]. by rewrite E. Qed.

Lemma wp_scratch_read u d sec bs (Q : list Z -> ustate -> Prop) : hd10 u = Some d -> sec < s_capacity d -> sec < 2 ^ 28 ->
  s_sectors d !! sec = Some bs -> Q bs u -> wp (scratch_read sec) Q u.
Proof.
  intros E H1 H2 Hb HQ. apply wp_bind. eapply wp_get_scratch; [done|]. apply wp_bind, wp_assertb; [lia|]. apply wp_bind, wp_assertb; [lia|].
  by rewrite Hb.
Qed.

Lemma wp_scratch_write u d sec bs (Q : unit -> ustate -> Prop) : hd10 u = Some d -> sec < s_capacity d -> sec < 2 ^ 28 ->
  Q tt (set_hd10 (Some (mk_scratch (s_capacity d) (<[sec := bs]> (s_sectors d)))) u) -> wp (scratch_write sec bs) Q u.
Proof.
  intros E H1 H2 HQ. apply wp_bind. eapply wp_get_scratch; [done|]. apply wp_bind, wp_assertb; [lia|]. apply wp_bind, wp_assertb; [lia|]. done.
Qed.

(** The pages of a file, as they are shown. *)
Definition page_of (l : list Z) (i : Z) : list Z := take (Z.to_nat 4096) (drop (Z.to_nat (4096 * i)) l).
Definition pages_for (n : Z) : Z := (n + 4095) / 4096.
Definition shown (l : list Z) (n : Z) : list line := (fun i => Dump (4096 * i) (page_of l i)) <$> seqZ 0 n.

Lemma shown_step l i : 0 <= i -> shown l (i + 1) = shown l i ++ [Dump (4096 * i) (page_of l i)].
Proof. intros Hi. unfold shown. rewrite seqZ_app by lia. rewrite fmap_app. done. Qed.

Lemma page_size (l : list Z) i : 0 <= i -> 4096 * i <= size_of l ->
  size_of (page_of l i) = Z.min 4096 (size_of l - 4096 * i) /\ 4096 * i + size_of (page_of l i) = Z.min (size_of l) (4096 * (i + 1)).
Proof. intros Hi Hlt. unfold page_of. rewrite length_take, length_drop. lia. Qed.

Section Copy.
Context {mem : Memory} (Plenty : forall n live, is_Some (place n live)) (e : list Z) (He : length e = 20%nat).

(** A call of the file system. *)
Lemma wp_file_call {A} u a (c : call) (m : M fs A) (f : A -> result) (Q : A -> ustate -> Prop) : abs (ufs u) a -> valid a c ->
  perform e c = (x ← m; ret (f x)) -> (forall x s' a', spec a c (f x) a' -> abs s' a' -> Q x (set_ufs s' u)) -> wp (on_fs m) Q u.
Proof using He Plenty. intros Ha Hv E HQ. apply wp_zoom. by eapply (wp_call Plenty e He). Qed.

(** ** Copying in *)

Section In.
Variables (a1 : afs) (h k : Z) (l : list Z) (sc : scratch) (n : Z).
Hypothesis Hfresh : forall h' x, handles a1 !! h' = Some x -> of_file x <> k.
Hypothesis Hl : size_of l < 2 ^ 31.
Hypothesis Hdata : holds_data (s_sectors sc) n l.
Hypothesis Hn : 0 <= n.
Hypothesis Hcap : n + sectors_for (size_of l) <= s_capacity sc /\ n + sectors_for (size_of l) <= 2 ^ 28.

(** The file after [w] bytes. *)
Definition copied (w : Z) : afs :=
  with_handle h (mk_open k w false) (set_files (<[k := splice (replicate (length l) 0) 0 (take (Z.to_nat w) l)]> (files a1)) a1).

Lemma copied_write i r a' : 0 <= i -> 512 * i < size_of l ->
  let part := take (Z.to_nat 512) (drop (Z.to_nat (512 * i)) l) in
  spec (copied (512 * i)) (Write h part) r a' -> r = RInt (size_of part) /\ a' = copied (512 * i + size_of part).
Proof using Hfresh He.
  intros Hi Hlt part Hs. inversion Hs as [| | | | | | | |? ? x cs Hx Hf| | | | |]; subst. cbn in Hx. rewrite lookup_insert_eq in Hx. injection Hx as <-.
  cbn in Hf. rewrite lookup_insert_eq in Hf. injection Hf as <-. cbn [of_file at_pos moved denying] in *.
  assert (Hpl : (Z.to_nat (512 * i) + length part <= length l)%nat) by (unfold part; rewrite length_take, length_drop; lia).
  assert (Hlen : length (take (Z.to_nat (512 * i)) l) = Z.to_nat (512 * i)) by (rewrite length_take; lia).
  assert (Hm : m = length part).
  { unfold m, write_size. rewrite decide_False.
    - rewrite length_splice by (rewrite length_replicate, Hlen; lia). rewrite length_replicate. cbn [at_pos]. lia.
    - intros (h' & x & Hx & Ek & Hd). cbn in Hx. destruct (decide (h' = h)) as [->|Hne].
      + rewrite lookup_insert_eq in Hx. injection Hx as <-. done.
      + rewrite lookup_insert_ne in Hx by done. by apply (Hfresh h' x). }
  rewrite Hm. split; [done|]. unfold copied, with_handle, set_files, set_handles. cbn. f_equal; [|by rewrite insert_insert_eq].
  rewrite insert_insert_eq. f_equal. rewrite firstn_all. rewrite <- Hlen at 2. rewrite (splice_splice _ 0) by (rewrite length_replicate, Hlen; lia).
  f_equal. unfold part. rewrite take_chunk by done. f_equal. pose proof (chunk_part l i Hi Hlt) as (_ & Hc & Hmin & _). unfold part. lia.
Qed.

Lemma sectors_within i : 0 <= i -> 512 * i < size_of l -> n + i < s_capacity sc /\ n + i < 2 ^ 28.
Proof using Hcap Hl Hn He. intros Hi Hlt. unfold sectors_for in Hcap. revert Hcap. Z.to_euclidean_division_equations; lia. Qed.

(** The loop of fsutil_put(). *)
Lemma wp_put_loop u : hd10 u = Some sc -> put_sector u = n -> abs (ufs u) (copied 0) ->
  wp (iterate (Z.to_nat (size_of l + 1)) (fun size =>
      if 0 <? size then
        sec ← next_put;
        buffer ← scratch_read sec;
        x ← on_fs (file_write h (take (Z.to_nat (chunk_size size)) buffer) (chunk_size size));
        panic_unless (x =? chunk_size size);;
        ret (inl (size - chunk_size size))
      else ret (inr tt)) (size_of l))
    (fun _ t => exists s', abs s' (copied (size_of l)) /\ t = set_ufs s' (set_put_sector (n + sectors_for (size_of l)) u)) u.
Proof using Hfresh Hl Hdata Hn Hcap He Plenty.
  intros Hsc Hput Hab.
  apply (wp_iterate (fun m size t => exists i s', 0 <= i <= sectors_for (size_of l) /\ size = Z.max 0 (size_of l - 512 * i) /\ m = Z.to_nat size /\
      abs s' (copied (Z.min (size_of l) (512 * i))) /\ t = set_ufs s' (set_put_sector (n + i) u))) with (n := length l); [|exists 0, (ufs u); split_and!|lia].
  2-3: unfold sectors_for; Z.to_euclidean_division_equations; lia.
  2: lia. 2: lia. 2: by rewrite Z.min_r by lia. 2: destruct u; cbn in *; subst; unfold set_ufs, set_put_sector; cbn; f_equal; lia.
  intros m size t (i & s' & Hi & -> & -> & Ha & ->). destruct (Z.ltb_spec 0 (Z.max 0 (size_of l - 512 * i))) as [Hpos|Hz].
  - assert (Hlt : 512 * i < size_of l) by lia. destruct (sectors_within i ltac:(lia) Hlt) as [Hc1 Hc2].
    destruct (Hdata i ltac:(lia) Hlt) as (bs & Eb & Hb & Hpart). pose proof (chunk_part l i ltac:(lia) Hlt) as (Hc & Hcl & Hmin & Hmax).
    rewrite Z.max_r by lia. rewrite Z.min_r in Ha by lia. set (part := take (Z.to_nat 512) (drop (Z.to_nat (512 * i)) l)) in *. rewrite <- Hcl in Hc, Hmin, Hmax |- *.
    apply wp_bind. unfold next_put. apply wp_bind. red. cbn [gets put_sector set_put_sector set_ufs]. apply wp_bind. red. cbn [modify]. apply wp_ret.
    apply wp_bind. eapply wp_scratch_read; [exact Hsc|done|done|exact Eb|]. rewrite <- Hcl in Hpart. rewrite Hpart.
    apply wp_bind. eapply (wp_file_call _ (copied (512 * i)) (Write h part) _ RInt); [done| |done|].
    + split; [cbn; rewrite lookup_insert_eq; done|lia].
    + intros x s2 a' Hspec Ha'. destruct (copied_write i _ _ ltac:(lia) Hlt Hspec) as [[= ->] ->].
      apply wp_bind, wp_assertb; [apply Z.eqb_refl|]. apply wp_ret. fold part in Ha'. rewrite Hmin in Ha'.
      exists (Z.to_nat (size_of l - 512 * i - size_of part)). split; [lia|]. exists (i + 1), s2. split_and!; [lia| |lia|done|done|].
      * unfold sectors_for in *. Z.to_euclidean_division_equations; lia.
      * unfold set_ufs, set_put_sector. cbn. f_equal. rewrite uwrap_small by (unfold in_u; lia). lia.
  - apply wp_ret. exists s'. rewrite Z.min_l in Ha by lia. split; [done|]. f_equal. f_equal.
    unfold sectors_for in *. Z.to_euclidean_division_equations; lia.
Qed.
End In.

(** A new file [nm] with the bytes [l]. *)
Definition with_file (nm : list Z) (k : Z) (l : list Z) (a : afs) : afs :=
  set_names (<[nm := k]> (names a)) (set_files (<[k := l]> (files a)) a).

(** Closing the handle leaves the file, which has a name. *)
Lemma closed_copy a nm h k l a' : spec (copied (with_file nm k (replicate (length l) 0) a) h k l (size_of l)) (Close h) RUnit a' ->
  handles a !! h = None -> a' = with_file nm k l a.
Proof using He.
  intros Hs Hh. inversion Hs as [| | | | | |? x Hx| | | | | | |]; subst. cbn in Hx. rewrite lookup_insert_eq in Hx. injection Hx as <-. cbn [of_file].
  unfold collect. rewrite decide_True.
  - unfold copied, with_handle, with_file, set_handles, set_names, set_files. cbn. f_equal.
    + rewrite insert_insert_eq. f_equal. unfold splice. rewrite Nat2Z.id, firstn_all, Nat.add_0_l, drop_ge by (rewrite length_replicate; lia).
      cbn. by rewrite app_nil_r.
    + by rewrite delete_insert_id.
  - left. exists nm, k. split; [|done]. cbn. apply lookup_insert_eq.
Qed.

Lemma wp_create u a nm size : abs (ufs u) a -> zero_free nm -> 0 <= size < 2 ^ 31 -> (exists s1, filesys_create nm size e (ufs u) = Ok (true, s1)) ->
  wp (on_fs (filesys_create nm size e)) (fun b t => b = true /\ exists k s', (files a !! k = None /\ names a !! nm = None) /\
    abs s' (with_file nm k (replicate (Z.to_nat size) 0) a) /\ t = set_ufs s' u) u.
Proof using He Plenty.
  intros Ha Hz Hs [s1 Ec]. apply wp_zoom. pose proof (wp_call Plenty e He (ufs u) a (Create nm size) _ RBool (fun b s' => b = true ->
    exists k, (files a !! k = None /\ names a !! nm = None) /\ abs s' (with_file nm k (replicate (Z.to_nat size) 0) a)) Ha ltac:(by split) eq_refl) as Hcr.
  unfold wp in *. rewrite Ec in *. split; [done|]. destruct Hcr as (k & Hk & Hab); [|done|by exists k, s1].
  intros b s' a' Hspec Ha' ->. inversion Hspec; subst. by eexists.
Qed.

Lemma put_ok u a sc nm l : abs (ufs u) a -> has_memory u = true -> hd10 u = Some sc -> zero_free nm -> size_of l < 2 ^ 31 ->
  0 <= put_sector u -> put_sector u + 1 + sectors_for (size_of l) <= Z.min (s_capacity sc) (2 ^ 28) ->
  archived PUT (s_sectors sc) (put_sector u) l ->
  (exists s1, filesys_create nm (size_of l) e (ufs u) = Ok (true, s1)) ->
  wp (fsutil_put e nm) (fun _ t => exists k s', (files a !! k = None /\ names a !! nm = None) /\ abs s' (with_file nm k l a) /\
    t = set_ufs s' (set_put_sector (put_sector u + 1 + sectors_for (size_of l)) (set_printed (printed u ++ [Putting nm]) u))) u.
Proof using He Plenty.
  intros Ha Hm Hsc Hz Hl H0 Hcap [(hd & Eh & Hhl & Htag & Hword) Hdata] (s1 & Ec). set (n := put_sector u) in *.
  assert (Hsf : 0 <= sectors_for (size_of l)) by (unfold sectors_for; apply Z.div_pos; lia).
  unfold fsutil_put. apply wp_bind, wp_say. apply wp_bind. apply wp_bind. red. cbn [gets has_memory set_printed]. apply wp_assertb; [done|].
  apply wp_bind. eapply wp_get_scratch; [exact Hsc|]. apply wp_bind. unfold next_put. apply wp_bind. red. cbn [gets put_sector set_printed].
  apply wp_bind. red. cbn [modify]. apply wp_ret. fold n. apply wp_bind. eapply wp_scratch_read; [exact Hsc|lia|lia|exact Eh|].
  apply wp_bind, wp_assertb; [by apply bool_decide_eq_true|]. cbv zeta. rewrite Hword, swrap_small by first [lia|unfold in_s; lia].
  apply wp_bind, wp_assertb; [apply negb_true_iff, Z.ltb_ge; lia|].
  apply wp_bind. eapply wp_mono; [apply (wp_create _ a); [exact Ha|done|lia|by exists s1]|]. intros b u1 (-> & k & s2 & [Hk Hnn] & Ha1 & ->).
  rewrite Nat2Z.id in Ha1. set (a1 := with_file nm k (replicate (length l) 0) a) in *.
  apply wp_bind, wp_assertb; [done|]. apply wp_bind.
  eapply (wp_file_call _ a1 (Open nm) _ RPtr); [exact Ha1|exact Hz|done|]. intros h s3 a2 Hspec Ha2.
  inversion Hspec as [| |? k' ? Hk' Hh0 Hh| ? Hno| | | | | | | | | |]; subst; [|cbn in Hno; by rewrite lookup_insert_eq in Hno].
  cbn in Hk'. rewrite lookup_insert_eq in Hk'. injection Hk' as <-. change (handles a !! h = None) in Hh.
  apply wp_bind, wp_assertb; [apply negb_true_iff, Z.eqb_neq; unfold NULL; lia|].
  apply wp_bind. eapply wp_mono; [apply (wp_put_loop a1 h k l sc (n + 1))|].
  - intros h' x Hx E. destruct Ha as (I & dr & Hat). destruct (abs_handle Hat h' x Hx) as (fl & ii & _ & -> & _ & Hf). cbn in E. congruence.
  - done.
  - done.
  - lia.
  - lia.
  - exact Hsc.
  - cbn. rewrite uwrap_small by (unfold in_u; lia). done.
  - cbn [ufs set_ufs]. replace (copied a1 h k l 0) with (with_handle h (mk_open k 0 false) a1); [done|]. unfold copied. cbn [take]. f_equal.
    rewrite splice_nil. unfold set_files. cbn. by rewrite insert_insert_eq.
  - intros [] t (s4 & Ha3 & ->). eapply (wp_file_call _ _ (Close h) _ (fun _ => RUnit)); [exact Ha3|cbn; rewrite lookup_insert_eq; done|done|].
    intros [] s5 a4 Hspec4 Ha4. rewrite (closed_copy _ _ _ _ _ _ Hspec4 Hh) in Ha4. by exists k, s5.
Qed.

(** ** Copying out *)

Section Out.
Variables (a1 : afs) (h k : Z) (l : list Z) (sc : scratch) (n : Z).
Hypothesis Hf : files a1 !! k = Some l.
Hypothesis Hl : size_of l < 2 ^ 31.
Hypothesis Hn : 0 <= n.
Hypothesis Hcap : n + sectors_for (size_of l) <= s_capacity sc /\ n + sectors_for (size_of l) <= 2 ^ 28.

(** The file system when [w] bytes have been read, and the scratch disk with
    [i] sectors written. *)
Definition read_upto (w : Z) : afs := with_handle h (mk_open k w false) a1.
Definition last_sector (i : Z) : list Z :=
  take (Z.to_nat 512) (drop (Z.to_nat (512 * i)) l) ++ replicate (Z.to_nat (512 - chunk_size (size_of l - 512 * i))) 0.
Definition written_upto (i : Z) (d : scratch) : Prop := s_capacity d = s_capacity sc /\
  (forall j, 0 <= j < i -> s_sectors d !! (n + j) = Some (last_sector j)) /\
  (forall sec, ~ n <= sec < n + i -> s_sectors d !! sec = s_sectors sc !! sec).

Lemma written_upto_step i d : 0 <= i -> written_upto i d -> written_upto (i + 1) (mk_scratch (s_capacity d) (<[n + i := last_sector i]> (s_sectors d))).
Proof using He.
  intros Hi (H1 & H2 & H3). split_and!; [done| |].
  - intros j Hj. cbn. destruct (decide (j = i)) as [->|Hne]; [apply lookup_insert_eq|]. rewrite lookup_insert_ne by lia. apply H2. lia.
  - intros sec Hs. cbn. rewrite lookup_insert_ne by lia. apply H3. lia.
Qed.

Lemma read_chunk i r a' : 0 <= i -> 512 * i < size_of l -> spec (read_upto (512 * i)) (Read h (chunk_size (size_of l - 512 * i))) r a' ->
  let part := take (Z.to_nat 512) (drop (Z.to_nat (512 * i)) l) in r = RBytes part /\ a' = read_upto (512 * i + size_of part).
Proof using Hf He.
  intros Hi Hlt Hs part. pose proof (chunk_part l i Hi Hlt) as (Hc & Hcl & _). inversion Hs as [| | | | | | |? ? x cs Hx Hcs| | | | | |]; subst.
  cbn in Hx. rewrite lookup_insert_eq in Hx. injection Hx as <-. cbn in Hcs. rewrite Hf in Hcs. injection Hcs as <-. cbn [at_pos] in *.
  assert (Er : r0 = part).
  { unfold r0, part. rewrite length_take, length_drop in Hcl. destruct (decide (512 <= size_of l - 512 * i)) as [Hd|Hd]; [f_equal; lia|].
    rewrite !take_ge; [done|rewrite length_drop; lia|rewrite length_drop; lia]. }
  rewrite Er. split; [done|]. unfold read_upto, with_handle, set_handles. cbn. by rewrite insert_insert_eq.
Qed.

(** The loop of fsutil_get(). *)
Lemma wp_get_loop u : (exists d, hd10 u = Some d /\ written_upto 0 d) -> get_sector u = n -> abs (ufs u) (read_upto 0) ->
  wp (iterate (Z.to_nat (size_of l + 1)) (fun size =>
    if 0 <? size then
      d ← get_scratch;
      sec ← gets get_sector;
      panic_unless (negb (s_capacity d <=? sec));;
      x ← on_fs (file_read h (chunk_size size));
      panic_unless (size_of x =? chunk_size size);;
      sec ← next_get;
      scratch_write sec (x ++ replicate (Z.to_nat (DISK_SECTOR_SIZE - chunk_size size)) 0);;
      ret (inl (size - chunk_size size))
    else ret (inr tt)) (size_of l))
    (fun _ t => exists s' d, abs s' (read_upto (size_of l)) /\ written_upto (sectors_for (size_of l)) d /\
      t = set_ufs s' (set_hd10 (Some d) (set_get_sector (n + sectors_for (size_of l)) u))) u.
Proof using Hf Hl Hn Hcap He Plenty.
  intros (d0 & Ed0 & Hw0) Hget Hab.
  apply (wp_iterate (fun m size t => exists i s' d, 0 <= i <= sectors_for (size_of l) /\ size = Z.max 0 (size_of l - 512 * i) /\ m = Z.to_nat size /\
      abs s' (read_upto (Z.min (size_of l) (512 * i))) /\ written_upto i d /\ t = set_ufs s' (set_hd10 (Some d) (set_get_sector (n + i) u)))) with (n := length l);
    [|exists 0, (ufs u), d0; split_and!|lia].
  2-3: unfold sectors_for; Z.to_euclidean_division_equations; lia.
  2: lia. 2: lia. 2: by rewrite Z.min_r by lia. 2: done. 2: destruct u; cbn in *; subst; unfold set_ufs, set_hd10, set_get_sector; cbn; f_equal; lia.
  intros m size t (i & s' & d & Hi & -> & -> & Ha & Hw & ->). destruct (Z.ltb_spec 0 (Z.max 0 (size_of l - 512 * i))) as [Hpos|Hz].
  - assert (Hlt : 512 * i < size_of l) by lia. destruct (sectors_within l sc n Hl Hn Hcap i ltac:(lia) Hlt) as [Hc1 Hc2].
    pose proof (chunk_part l i ltac:(lia) Hlt) as (Hc & Hcl & Hmin & Hmax). pose proof Hw as (Ecap & _).
    rewrite Z.max_r by lia. rewrite Z.min_r in Ha by lia.
    apply wp_bind. eapply wp_get_scratch; [done|]. apply wp_bind. red. cbn [gets get_sector set_get_sector set_hd10 set_ufs].
    apply wp_bind, wp_assertb; [apply negb_true_iff, Z.leb_gt; lia|].
    apply wp_bind. eapply (wp_file_call _ _ (Read h (chunk_size (size_of l - 512 * i))) _ RBytes); [exact Ha| |done|].
    { split; [cbn; rewrite lookup_insert_eq; done|lia]. }
    intros x s2 a' Hspec Ha'. destruct (read_chunk i _ _ ltac:(lia) Hlt Hspec) as [[= ->] ->].
    apply wp_bind, wp_assertb; [by apply Z.eqb_eq|]. apply wp_bind. unfold next_get. apply wp_bind. red. cbn [gets get_sector set_get_sector set_hd10 set_ufs].
    apply wp_bind. red. cbn [modify]. apply wp_ret. apply wp_bind. eapply wp_scratch_write; [done|lia|done|]. apply wp_ret.
    exists (Z.to_nat (size_of l - 512 * i - chunk_size (size_of l - 512 * i))). split; [lia|]. eexists (i + 1), s2, _.
    rewrite Hcl, Hmin in Ha'. split_and!; [lia| |lia|done|exact Ha'|by apply (written_upto_step i); [lia|]|].
    + unfold sectors_for in *. Z.to_euclidean_division_equations; lia.
    + unfold set_ufs, set_hd10, set_get_sector. cbn. f_equal. rewrite uwrap_small by (unfold in_u; lia). lia.
  - apply wp_ret. exists s', d. rewrite Z.min_l in Ha by lia.
    assert (i = sectors_for (size_of l)) as -> by (unfold sectors_for in *; Z.to_euclidean_division_equations; lia). done.
Qed.
End Out.

(** The sectors written hold the file. *)
Lemma written_data l sc n d : written_upto l sc n (sectors_for (size_of l)) d -> holds_data (s_sectors d) n l.
Proof using He.
  intros (_ & H2 & _) i Hi Hlt. pose proof (chunk_part l i Hi Hlt) as (Hc & Hcl & _). eexists. split; [apply H2|].
  - unfold sectors_for. Z.to_euclidean_division_equations; lia.
  - unfold last_sector. split; [rewrite length_app, length_replicate; lia|].
    rewrite take_app_le by lia. apply take_ge. lia.
Qed.

(** The handle is closed, and the file still has its name. *)
Lemma closed_reader a nm h k w a' : spec (read_upto a h k w) (Close h) RUnit a' -> names a !! nm = Some k -> handles a !! h = None -> a' = a.
Proof using.
  intros Hs Hn Hh. inversion Hs as [| | | | | |? x Hx| | | | | | |]; subst. cbn in Hx. rewrite lookup_insert_eq in Hx. injection Hx as <-. cbn [of_file].
  unfold collect. rewrite decide_True by (left; by exists nm, k). unfold read_upto, with_handle, set_handles. cbn. rewrite delete_insert_id by done. by destruct a.
Qed.

Lemma get_ok u a sc nm k l : abs (ufs u) a -> has_memory u = true -> hd10 u = Some sc -> zero_free nm -> size_of l < 2 ^ 31 ->
  names a !! nm = Some k -> files a !! k = Some l ->
  0 <= get_sector u -> get_sector u + 1 + sectors_for (size_of l) <= Z.min (s_capacity sc) (2 ^ 28) ->
  wp (fsutil_get e nm) (fun _ t => exists s' d, abs s' a /\ archived GET (s_sectors d) (get_sector u) l /\ s_capacity d = s_capacity sc /\
    (forall sec, ~ get_sector u <= sec <= get_sector u + sectors_for (size_of l) -> s_sectors d !! sec = s_sectors sc !! sec) /\
    t = set_ufs s' (set_hd10 (Some d) (set_get_sector (get_sector u + 1 + sectors_for (size_of l)) (set_printed (printed u ++ [Getting nm]) u)))) u.
Proof using He Plenty.
  intros Ha Hm Hsc Hz Hl Hk Hf H0 Hcap. set (n := get_sector u) in *.
  assert (Hsf : 0 <= sectors_for (size_of l)) by (unfold sectors_for; apply Z.div_pos; lia).
  unfold fsutil_get. apply wp_bind, wp_say. apply wp_bind. apply wp_bind. red. cbn [gets has_memory set_printed]. apply wp_assertb; [done|].
  apply wp_bind. eapply (wp_file_call _ a (Open nm) _ RPtr); [exact Ha|exact Hz|done|]. intros h s1 a1 Hspec Ha1.
  inversion Hspec as [| |? k' ? Hk' Hh0 Hh| ? Hno| | | | | | | | | |]; subst; [|congruence]. assert (k' = k) as -> by congruence.
  apply wp_bind, wp_assertb; [apply negb_true_iff, Z.eqb_neq; unfold NULL; lia|]. apply wp_bind.
  eapply (wp_file_call _ _ (Length h) _ RInt); [exact Ha1|cbn; by rewrite lookup_insert_eq|done|]. intros x s2 a2 Hspec2 Ha2.
  inversion Hspec2 as [| | | | | | | | | | |? y cs Hy Hcs| |]; subst. cbn in Hy. rewrite lookup_insert_eq in Hy. injection Hy as <-. cbn in Hcs.
  rewrite Hf in Hcs. injection Hcs as <-. apply wp_bind. eapply wp_get_scratch; [exact Hsc|].
  apply wp_bind. unfold next_get. apply wp_bind. red. cbn [gets get_sector set_get_sector set_printed set_ufs]. fold n. apply wp_bind. red. cbn [modify]. apply wp_ret.
  apply wp_bind. eapply wp_scratch_write; [exact Hsc|lia|lia|]. set (hd := [71; 69; 84; 0] ++ _). set (sc1 := mk_scratch _ _).
  apply wp_bind. eapply wp_mono; [apply (wp_get_loop a h k l sc1 (n + 1))|].
  - done.
  - done.
  - lia.
  - cbn. lia.
  - exists sc1. split; [done|]. split_and!; [done|intros j Hj; lia|done].
  - cbn. by rewrite uwrap_small by (unfold in_u; lia).
  - exact Ha2.
  - intros [] t (s3 & d & Ha3 & Hw & ->). eapply (wp_file_call _ _ (Close h) _ (fun _ => RUnit)); [exact Ha3|cbn; by rewrite lookup_insert_eq|done|].
    intros [] s4 a4 Hspec4 Ha4. rewrite (closed_reader _ nm _ _ _ _ Hspec4 Hk Hh) in Ha4. exists s4, d. pose proof Hw as (W1 & _ & W3). split_and!; [done| |done| |done].
    + split; [|by eapply written_data]. exists hd. rewrite W3 by lia. cbn. rewrite lookup_insert_eq. split_and!; [done|done|done|].
      change (word (le32 (size_of l) ++ replicate 504 0) = size_of l). rewrite word_le32. apply uwrap_small. unfold in_u. lia.
    + intros sec Hs. rewrite W3 by lia. cbn. by rewrite lookup_insert_ne by lia.
Qed.

(** ** Showing and deleting *)

(** A round of fsutil_cat(), at page [i]. *)
Lemma wp_cat_round a h k l i u (Q : unit + unit -> ustate -> Prop) : files a !! k = Some l -> 0 <= i <= pages_for (size_of l) ->
  abs (ufs u) (read_upto a h k (Z.min (size_of l) (4096 * i))) ->
  (i = pages_for (size_of l) -> forall s' w, abs s' (read_upto a h k w) -> Q (inr tt) (set_ufs s' u)) ->
  (i < pages_for (size_of l) -> forall s', abs s' (read_upto a h k (Z.min (size_of l) (4096 * (i + 1)))) ->
    Q (inl tt) (set_printed (printed u ++ [Dump (4096 * i) (page_of l i)]) (set_ufs s' u))) ->
  wp (pos ← on_fs (file_tell h);
      x ← on_fs (file_read h 4096);
      if size_of x =? 0 then ret (inr tt) else say (Dump pos x);; ret (inl tt)) Q u.
Proof using He Plenty.
  intros Hf Hi Ha HE HN. apply wp_bind. eapply (wp_file_call _ _ (Tell h) _ RInt); [exact Ha|cbn; by rewrite lookup_insert_eq|done|].
  intros x s2 a2 Hs2 Ha2. inversion Hs2 as [| | | | | | | | | |? y Hy| | |]; subst. cbn in Hy. rewrite lookup_insert_eq in Hy. injection Hy as <-. cbn [at_pos].
  apply wp_bind. eapply (wp_file_call _ _ (Read h 4096) _ RBytes); [exact Ha2|split; [cbn; by rewrite lookup_insert_eq|lia]|done|]. intros q s3 a3 Hs3 Ha3.
  inversion Hs3 as [| | | | | | |? ? y cs Hy Hcs| | | | | |]; subst. cbn in Hy. rewrite lookup_insert_eq in Hy. injection Hy as <-.
  cbn in Hcs. rewrite Hf in Hcs. injection Hcs as <-. cbn [at_pos] in *. fold r in Ha3, Hs3 |- *.
  assert (Ea3 : abs s3 (read_upto a h k (Z.min (size_of l) (4096 * i) + size_of r))).
  { unfold read_upto, with_handle, set_handles in *. cbn in Ha3. by rewrite insert_insert_eq in Ha3. }
  destruct (decide (i = pages_for (size_of l))) as [->|Hne].
  - assert (Er : r = []). { unfold r. rewrite Z.min_l by (unfold pages_for; Z.to_euclidean_division_equations; lia). rewrite Nat2Z.id, drop_all. done. }
    rewrite Er. apply wp_ret. by eapply HE.
  - assert (Hlt : 4096 * i < size_of l) by (unfold pages_for in *; Z.to_euclidean_division_equations; lia).
    destruct (page_size l i ltac:(lia) ltac:(lia)) as [Hp1 Hp2]. assert (Er : r = page_of l i) by (unfold r, page_of; by rewrite Z.min_r by lia).
    rewrite Er in Ea3 |- *. replace (size_of (page_of l i) =? 0) with false by lia. apply wp_bind, wp_say. apply wp_ret. rewrite Z.min_r by lia.
    apply HN; [lia|]. rewrite <- Hp2. by rewrite Z.min_r in Ea3 by lia.
Qed.

Lemma cat_ok u a nm k l : abs (ufs u) a -> has_memory u = true -> zero_free nm -> size_of l < 2 ^ 31 -> names a !! nm = Some k -> files a !! k = Some l ->
  wp (fsutil_cat e nm) (fun _ t => exists s', abs s' a /\
    t = set_ufs s' (set_printed (printed u ++ Printing nm :: shown l (pages_for (size_of l))) u)) u.
Proof using He Plenty.
  intros Ha Hm Hz Hl Hk Hf. unfold fsutil_cat. apply wp_bind, wp_say. apply wp_bind.
  eapply (wp_file_call _ a (Open nm) _ RPtr); [exact Ha|exact Hz|done|]. intros h s1 a1 Hspec Ha1.
  inversion Hspec as [| |? k' ? Hk' Hh0 Hh| ? Hno| | | | | | | | | |]; subst; [|congruence]. assert (k' = k) as -> by congruence.
  apply wp_bind, wp_assertb; [apply negb_true_iff, Z.eqb_neq; unfold NULL; lia|].
  apply wp_bind. apply wp_bind. red. cbn [gets has_memory set_printed set_ufs]. apply wp_assertb; [done|]. apply wp_bind.
  assert (Hpf : 0 <= pages_for (size_of l) <= 2 ^ 19) by (unfold pages_for; Z.to_euclidean_division_equations; lia).
  eapply wp_mono; [apply (wp_iterate (fun m (_ : unit) t => exists i s', 0 <= i <= pages_for (size_of l) /\ m = Z.to_nat (pages_for (size_of l) - i) /\
      abs s' (read_upto a h k (Z.min (size_of l) (4096 * i))) /\ t = set_ufs s' (set_printed (printed u ++ Printing nm :: shown l i) u))
      _ (fun _ t => exists s' w, abs s' (read_upto a h k w) /\ t = set_ufs s' (set_printed (printed u ++ Printing nm :: shown l (pages_for (size_of l))) u)))
    with (n := Z.to_nat (pages_for (size_of l)))|].
  - intros m [] t (i & s' & Hi & -> & Hai & ->). eapply (wp_cat_round a h k l i); [done|done|exact Hai| |].
    + intros -> s2 w Ha2. by exists s2, w.
    + intros Hlt s2 Ha2. exists (Z.to_nat (pages_for (size_of l) - (i + 1))). split; [lia|]. exists (i + 1), s2. split_and!; [lia|lia|done|done|].
      unfold set_ufs, set_printed. cbn. rewrite shown_step by lia. by rewrite app_comm_cons, app_assoc.
  - exists 0, s1. split_and!; [lia|lia|lia|by rewrite Z.min_r by lia|done].
  - lia.
  - intros [] t (s2 & w & Ha2 & ->). eapply (wp_file_call _ _ (Close h) _ (fun _ => RUnit)); [exact Ha2|cbn; by rewrite lookup_insert_eq|done|].
    intros [] s4 a4 Hspec4 Ha4. rewrite (closed_reader _ nm _ _ _ _ Hspec4 Hk Hh) in Ha4. by exists s4.
Qed.

(** Deleting a new file leaves what there was before. *)
Lemma rm_ok u a nm k l : abs (ufs u) (with_file nm k l a) -> zero_free nm -> files a !! k = None -> names a !! nm = None ->
  ~ has_name k a -> ~ is_open k a ->
  wp (fsutil_rm e nm) (fun _ t => exists s', abs s' a /\ t = set_ufs s' (set_printed (printed u ++ [Deleting nm]) u)) u.
Proof using He Plenty.
  intros Ha Hz Hk Hn Hnn Hno. unfold fsutil_rm. apply wp_bind, wp_say. apply wp_bind.
  eapply (wp_file_call _ _ (Remove nm) _ RBool); [exact Ha|exact Hz|done|]. intros b s1 a1 Hspec Ha1.
  inversion Hspec as [| | | |? k' Hk'|? Hk'| | | | | | | |]; subst; cbn in Hk'; rewrite lookup_insert_eq in Hk'; [|done]. injection Hk' as <-.
  apply wp_assertb; [done|]. exists s1. split; [|done].
  assert (E : set_names (delete nm (names (with_file nm k l a))) (with_file nm k l a) = set_files (<[k := l]> (files a)) a).
  { unfold with_file, set_names, set_files. cbn. by rewrite delete_insert_id. }
  rewrite E in Ha1. unfold collect in Ha1. rewrite decide_False in Ha1 by (by intros [?|?]).
  unfold set_files in Ha1. cbn in Ha1. rewrite delete_insert_id in Ha1 by done. by destruct a.
Qed.

Lemma not_used s a k : abs s a -> files a !! k = None -> ~ has_name k a /\ ~ is_open k a.
Proof using.
  intros (I & dr & Hat) Hk. split.
  - intros (nm & k' & Hn & ->). destruct (abs_name Hat nm k Hn) as [H2 [d Hd]]. rewrite (ab_files _ _ _ _ Hat), decide_True, Hd in Hk by done. done.
  - intros (h & x & Hx & <-). destruct (abs_handle Hat h x Hx) as (fl & i & _ & -> & _ & Hf). cbn in Hk. congruence.
Qed.
End Copy.

(** C27: fsutil_put() copies a file from the scratch disk into the file system,
    fsutil_cat() shows it page by page, fsutil_get() copies it back, and
    fsutil_rm() deletes it: what was shown, and what is then on the scratch
    disk, is the same bytes; the other sectors of the scratch disk and all other
    files, names and open files are as they were.  The one thing that may
    prevent it is that filesys_create() finds no place for the file. *)
Theorem fsutil_roundtrip {mem : Memory} (Plenty : forall n live, is_Some (place n live)) e u a sc nm l : length e = 20%nat ->
  abs (ufs u) a -> has_memory u = true -> hd10 u = Some sc -> zero_free nm -> size_of l < 2 ^ 31 ->
  0 <= put_sector u -> put_sector u + 1 + sectors_for (size_of l) <= Z.min (s_capacity sc) (2 ^ 28) ->
  0 <= get_sector u -> get_sector u + 1 + sectors_for (size_of l) <= Z.min (s_capacity sc) (2 ^ 28) ->
  archived PUT (s_sectors sc) (put_sector u) l -> (exists s1, filesys_create nm (size_of l) e (ufs u) = Ok (true, s1)) ->
  wp (fsutil_put e nm;; fsutil_cat e nm;; fsutil_get e nm;; fsutil_rm e nm) (fun _ t => abs (ufs t) a /\
    printed t = printed u ++ [Putting nm; Printing nm] ++ shown l (pages_for (size_of l)) ++ [Getting nm; Deleting nm] /\
    exists d, hd10 t = Some d /\ archived GET (s_sectors d) (get_sector u) l /\
      forall sec, ~ get_sector u <= sec <= get_sector u + sectors_for (size_of l) -> s_sectors d !! sec = s_sectors sc !! sec) u.
Proof.
  intros He Ha Hm Hsc Hz Hl Hp0 Hp Hg0 Hg Hdata Hcr. apply wp_bind. eapply wp_mono; [by eapply (put_ok Plenty e He u a sc nm l)|].
  intros [] t (k & s1 & [Hk Hnn] & Ha1 & ->). destruct (not_used _ _ _ Ha Hk) as [Hnn' Hno].
  assert (En : names (with_file nm k l a) !! nm = Some k) by apply lookup_insert_eq.
  assert (Ef : files (with_file nm k l a) !! k = Some l) by apply lookup_insert_eq.
  apply wp_bind. eapply wp_mono; [by eapply (cat_ok Plenty e He _ (with_file nm k l a) nm k l)|]. intros [] t (s2 & Ha2 & ->).
  apply wp_bind. eapply wp_mono; [by eapply (get_ok Plenty e He _ (with_file nm k l a) sc nm k l)|]. intros [] t (s3 & d & Ha3 & Harc & _ & Hoth & ->).
  eapply wp_mono; [by eapply (rm_ok Plenty e He _ a nm k l)|]. intros [] t (s4 & Ha4 & ->). split_and!; [done| |by exists d].
  cbn. by rewrite <- !app_assoc.
Qed.

(** A new file system, and a scratch disk with a file of three bytes. *)
Definition small_archive : scratch :=
  mk_scratch 2 {[ 0 := PUT ++ le32 3 ++ replicate 504 0; 1 := [1; 2; 3] ++ replicate 509 0 ]}.
Definition with_archive (s : fs) : ustate := mk_ustate s (Some small_archive) 0 0 [] true.

Lemma small_archive_holds : archived PUT (s_sectors small_archive) 0 [1; 2; 3].
Proof.
  split.
  - exists (PUT ++ le32 3 ++ replicate 504 0). split_and!; [apply lookup_insert_eq|by vm_compute|by vm_compute|by vm_compute].
  - intros i Hi Hlt. cbn in Hlt. assert (i = 0) as -> by lia. exists ([1; 2; 3] ++ replicate 509 0).
    split_and!; [cbn; rewrite lookup_insert_ne by done; apply lookup_singleton_eq|by vm_compute|by vm_compute].
Qed.

Lemma small_create : exists s, @filesys_init (machine []) true blank = Ok (tt, s) /\ abs s empty_fs /\
  exists s1, @filesys_create (machine []) [97] 3 no_entry s = Ok (true, s1).
Proof.
  destruct formatted_state as (s & E & Ha). exists s. split_and!; [done|done|].
  assert (C : match @filesys_init (machine []) true blank with Ok (_, s) => match @filesys_create (machine []) [97] 3 no_entry s with
    | Ok (b, _) => b | Err _ => false end | Err _ => false end = true) by (vm_compute; reflexivity).
  rewrite E in C. destruct (@filesys_create (machine []) [97] 3 no_entry s) as [[b s1]|]; [|done]. exists s1. by rewrite C.
Qed.

Lemma fsutil_roundtrip_witness : exists s t,
  (@fsutil_put (machine []) no_entry [97];; @fsutil_cat (machine []) no_entry [97];; @fsutil_get (machine []) no_entry [97];; @fsutil_rm (machine []) no_entry [97])
    (with_archive s) = Ok (tt, t) /\
  printed t = [Putting [97]; Printing [97]; Dump 0 [1; 2; 3]; Getting [97]; Deleting [97]].
Proof.
  destruct small_create as (s & _ & Ha & Hc). exists s.
  pose proof (@fsutil_roundtrip (machine []) machine_plenty no_entry (with_archive s) empty_fs small_archive [97] [1; 2; 3] eq_refl Ha eq_refl eq_refl
    ltac:(by repeat constructor) ltac:(by vm_compute) ltac:(by vm_compute) ltac:(by vm_compute) ltac:(by vm_compute) ltac:(by vm_compute) small_archive_holds Hc) as Hw.
  destruct (proj1 (wp_ok _ _ _) Hw) as ([] & t & E & _ & Hp & _). exists t. split; [exact E|]. rewrite Hp. reflexivity.
Defined.
