(* ===== verification/CmdLine.v ===== *)
(** * threads/init.c: the kernel command line

    The functions, and then that the command line means what it says. *)

From Stdlib Require Import ZArith Lia.
From stdpp Require Import base numbers gmap list.
From S2P Require Import Prelude Bytes StrLib StrSpec CStdlib Stdio StdioSpec StdioProps.

Open Scope Z_scope.

(** * The code

    Breaking the command line that the loader left in memory into words, parsing
    the options, and running the actions.  The string functions are those of
    lib/string.c and lib/stdlib.c, on the byte memory; the string literals are
    strings somewhere in it.  Calls of other components are recorded. *)

(** ** threads/loader.h *)

Definition LOADER_END : Z := 0x7e00.
Definition LOADER_SIG_LEN : Z := 2.
Definition LOADER_ARGS_LEN : Z := 128.
Definition LOADER_ARG_CNT_LEN : Z := 4.
Definition LOADER_SIG : Z := LOADER_END - LOADER_SIG_LEN.
Definition LOADER_ARGS : Z := LOADER_SIG - LOADER_ARGS_LEN.
Definition LOADER_ARG_CNT : Z := LOADER_ARGS - LOADER_ARG_CNT_LEN.

(** ptov(). *)
Definition at_phys (a : Z) : Z := 0xc0000000 + a.

(** ** State *)

(** The functions that an action may run. *)
Inductive action_function := RunTask | Ls | Cat | Rm | Put | Get.

(** The static variables and those that the options set; [seeds] are the
    arguments of random_init(), [words_printed] the words of the line that is
    printed and whether they are quoted, [ran] the actions run, with the
    addresses of their arguments. *)
Record istate := mk_istate { imem : bytes; argv : list Z; power_off_when_done : bool; format_filesys : bool; thread_mlfqs : bool;
  user_page_limit : Z; seeds : list Z; words_printed : list (bool * Z); ran : list (action_function * list Z) }.

Definition set_imem v s := mk_istate v (argv s) (power_off_when_done s) (format_filesys s) (thread_mlfqs s) (user_page_limit s) (seeds s) (words_printed s) (ran s).
Definition set_argv v s := mk_istate (imem s) v (power_off_when_done s) (format_filesys s) (thread_mlfqs s) (user_page_limit s) (seeds s) (words_printed s) (ran s).
Definition set_power_off v s := mk_istate (imem s) (argv s) v (format_filesys s) (thread_mlfqs s) (user_page_limit s) (seeds s) (words_printed s) (ran s).
Definition set_format v s := mk_istate (imem s) (argv s) (power_off_when_done s) v (thread_mlfqs s) (user_page_limit s) (seeds s) (words_printed s) (ran s).
Definition set_mlfqs v s := mk_istate (imem s) (argv s) (power_off_when_done s) (format_filesys s) v (user_page_limit s) (seeds s) (words_printed s) (ran s).
Definition set_limit v s := mk_istate (imem s) (argv s) (power_off_when_done s) (format_filesys s) (thread_mlfqs s) v (seeds s) (words_printed s) (ran s).
Definition set_seeds v s := mk_istate (imem s) (argv s) (power_off_when_done s) (format_filesys s) (thread_mlfqs s) (user_page_limit s) v (words_printed s) (ran s).
Definition set_words v s := mk_istate (imem s) (argv s) (power_off_when_done s) (format_filesys s) (thread_mlfqs s) (user_page_limit s) (seeds s) v (ran s).
Definition set_ran v s := mk_istate (imem s) (argv s) (power_off_when_done s) (format_filesys s) (thread_mlfqs s) (user_page_limit s) (seeds s) (words_printed s) v.

(** Where the compiler put the string literals. *)
Class Literals := { lit : list Z -> Z }.

(** "=", the empty string, the options and the actions. *)
Definition s_eq : list Z := [61].
Definition s_h : list Z := [45; 104].
Definition s_q : list Z := [45; 113].
Definition s_f : list Z := [45; 102].
Definition s_rs : list Z := [45; 114; 115].
Definition s_mlfqs : list Z := [45; 109; 108; 102; 113; 115].
Definition s_ul : list Z := [45; 117; 108].

(** [actions]: name, number of words, function. *)
Definition actions : list (list Z * Z * action_function) :=
  [ ([114; 117; 110], 2, RunTask); ([108; 115], 1, Ls); ([99; 97; 116], 2, Cat);
    ([114; 109], 2, Rm); ([112; 117; 116], 2, Put); ([103; 101; 116], 2, Get) ].

Section Code.
Context {literals : Literals}.

Definition on_mem {A} (m : M bytes A) : M istate A := zoom imem set_imem m.

Definition load32 (p : Z) : M bytes Z :=
  a ← load8 p; b ← load8 (p + 1); c ← load8 (p + 2); d ← load8 (p + 3);
  ret (a + 2 ^ 8 * b + 2 ^ 16 * c + 2 ^ 24 * d).

(** The array [argv], and a pointer into it as an index. *)
Definition get_arg (i : Z) : M istate Z := l ← gets argv; of_option BadAccess (if i <? 0 then None else l !! Z.to_nat i).
Definition set_arg (i p : Z) : M istate unit :=
  get_arg i;; modify (fun s => set_argv (<[Z.to_nat i := p]> (argv s)) s).

Definition read_command_line : M istate Z :=
  n ← on_mem (load32 (at_phys LOADER_ARG_CNT));
  let argc := i32 n in
  let p := at_phys LOADER_ARGS in
  let last := p + LOADER_ARGS_LEN in
  iterate (Z.to_nat (argc + 1)) (fun '(i, p) =>
    if i <? argc then
      ASSERT (negb (last <=? p));;
      set_arg i p;;
      n ← on_mem (strnlen p (last - p));
      ret (inl (i + 1, p + n + 1))
    else ret (inr tt)) (0, p);;
  set_arg argc NULL;;
  for_from (Z.to_nat argc) 0 (fun i =>
    p ← get_arg i;
    q ← on_mem (strchr p 32);
    modify (fun s => set_words (words_printed s ++ [(negb (q =? NULL), p)]) s));;
  ret 0.

Definition same_as (name : Z) (s : list Z) : M istate bool := r ← on_mem (strcmp name (lit s)); ret (r =? 0).

(** One option; [false]: usage() has powered the machine off. *)
Definition parse_option (name value : Z) : M istate bool :=
  h ← same_as name s_h; if h : bool then ret false else
  q ← same_as name s_q; if q : bool then modify (set_power_off true);; ret true else
  f ← same_as name s_f; if f : bool then modify (set_format true);; ret true else
  r ← same_as name s_rs;
  if r : bool then n ← on_mem (atoi value); modify (fun s => set_seeds (seeds s ++ [u32 n]) s);; ret true else
  m ← same_as name s_mlfqs; if m : bool then modify (set_mlfqs true);; ret true else
  u ← same_as name s_ul;
  if u : bool then n ← on_mem (atoi value); modify (set_limit (u32 n));; ret true else
  fail AssertFail.

(** [save] is what the variable held that strtok_r() does not read. *)
Definition parse_options (save i : Z) : M istate (option Z) :=
  iterate 66 (fun i =>
    p ← get_arg i;
    if p =? NULL then ret (inr (Some i)) else
    c ← on_mem (load8 p);
    if negb (c =? 45) then ret (inr (Some i)) else
    t ← on_mem (strtok_r p (lit s_eq) save);
    v ← on_mem (strtok_r NULL (lit []) t.2);
    b ← parse_option t.1 v.1;
    ret (if b : bool then inl (i + 1) else inr None)) i.

(** The loop that finds the action. *)
Fixpoint find_action (p : Z) (l : list (list Z * Z * action_function)) : M istate (Z * action_function) :=
  match l with
  | [] => fail AssertFail
  | (name, argc, f) :: l => b ← same_as p name; if b : bool then ret (argc, f) else find_action p l
  end.

(** The arguments, which must be there. *)
Fixpoint get_args (i : Z) (n : nat) : M istate (list Z) :=
  match n with
  | O => ret []
  | S n => p ← get_arg i; ASSERT (negb (p =? NULL));; l ← get_args (i + 1) n; ret (p :: l)
  end.

Definition run_actions (i : Z) : M istate unit :=
  iterate 66 (fun i =>
    p ← get_arg i;
    if p =? NULL then ret (inr tt) else
    a ← find_action p actions;
    l ← get_args (i + 1) (Z.to_nat (a.1 - 1));
    modify (fun s => set_ran (ran s ++ [(a.2, l)]) s);;
    ret (inl (i + a.1))) i.

(** The part of main() that deals with the command line. *)
Definition run_command_line (save : Z) : M istate (option unit) :=
  i ← read_command_line;
  j ← parse_options save i;
  match j with Some j => run_actions j;; ret (Some tt) | None => ret None end.
End Code.

(** * The kernel command line: properties

    What is written on the command line is what the kernel does. *)

(** ** Words in memory *)

Definition word_ok (w : list Z) : Prop := Forall (fun c => 0 < c < 256) w.

(** The words one after the other, each with its terminator, and where they
    start. *)
Definition line_of (ws : list (list Z)) : list Z := mjoin ((fun w => w ++ [0]) <$> ws).
Fixpoint starts (p : Z) (ws : list (list Z)) : list Z :=
  match ws with [] => [] | w :: ws => p :: starts (p + Z.of_nat (length w) + 1) ws end.
Definition words_at (b : bytes) (p : Z) (ws : list (list Z)) : Prop := Forall2 (cstr b) (starts p ws) ws.

Lemma length_starts p ws : length (starts p ws) = length ws.
Proof. revert p. induction ws as [|w ws IH]; intros p; cbn; [done|by rewrite IH]. Qed.

Lemma starts_app p vs ws : starts p (vs ++ ws) = starts p vs ++ starts (p + Z.of_nat (length (line_of vs))) ws.
Proof.
  revert p. induction vs as [|v vs IH]; intros p; [cbn; by rewrite Z.add_0_r|]. cbn [app starts]. rewrite IH. do 2 f_equal.
  change (line_of (v :: vs)) with ((v ++ [0]) ++ line_of vs). rewrite !length_app. cbn [length]. f_equal. lia.
Qed.

Lemma words_at_line b p ws : 0 < p -> Forall word_ok ws -> block b p (line_of ws) -> words_at b p ws.
Proof.
  intros Hp Hw. revert p Hp. induction Hw as [|w ws Hw _ IH]; intros p Hp Hb; [constructor|].
  change (line_of (w :: ws)) with ((w ++ [0]) ++ line_of ws) in Hb. apply block_app in Hb as [H1 H2]. constructor; [by split_and!|].
  apply IH; [lia|]. rewrite length_app in H2. cbn [length] in H2. by replace (p + Z.of_nat (length w) + 1) with (p + Z.of_nat (length w + 1)) by lia.
Qed.

Lemma words_at_agree b b' p ws : (forall a, p <= a -> b' !! a = b !! a) -> words_at b p ws -> words_at b' p ws.
Proof.
  revert p. induction ws as [|w ws IH]; intros p Ha Hw; [constructor|]. inversion_clear Hw as [|???? H1 H2]. constructor.
  - eapply cstr_agree; [|exact H1]. intros i Hr. apply Ha. lia.
  - apply IH; [|exact H2]. intros a Hr. apply Ha. lia.
Qed.

(** ** Tokens *)

Lemma index_first (f : Z -> bool) c l : f c = true -> index f (c :: l) = Some 0%nat.
Proof. intros E. cbn. by rewrite E. Qed.

Lemma index_after (f : Z -> bool) n c l : Forall (fun x => f x = false) n -> f c = true -> index f (n ++ c :: l) = Some (length n).
Proof. intros Hn Hc. induction Hn as [|x n Hx _ IH]; cbn; [by rewrite Hc|]. by rewrite Hx, IH. Qed.

(** A call of strtok_r() at a string that does not start with a delimiter: the
    token ends at the first delimiter, or at the end of the string. *)
Lemma wp_strtok_first b s0 save s d ds n c r (Q : Z * Z -> bytes -> Prop) : s = (if s0 =? NULL then save else s0) ->
  n <> [] -> Forall (fun x => is_delim ds x = false) n -> is_delim ds c = true ->
  cstr b s (if c =? 0 then n else n ++ c :: r) -> cstr b d ds ->
  Q (s, if c =? 0 then s + Z.of_nat (length n) else s + Z.of_nat (length n) + 1) (if c =? 0 then b else <[s + Z.of_nat (length n) := 0]> b) ->
  wp (strtok_r s0 d save) Q b.
Proof.
  intros Es Hn Hf Hc Hs Hd HQ. set (w := if c =? 0 then n else n ++ c :: r) in *. unfold strtok_r. rewrite <- Es.
  apply wp_bind, wp_assertb; [apply nonnull, Hd|]. apply wp_bind, wp_assertb; [apply nonnull, Hs|].
  assert (Ei : index (fun x => negb (is_delim ds x)) w = Some 0%nat).
  { destruct n as [|x n]; [done|]. inversion_clear Hf as [|?? Hx _]. unfold w. destruct (c =? 0); apply index_first; by rewrite Hx. }
  apply wp_bind. apply (wp_strtok_skip b s w d ds); [done..|]. rewrite Ei. cbn [fst snd negb]. rewrite Z.add_0_r.
  apply wp_bind. apply (wp_strtok_end b s w d ds); [done..|]. intros k Hk.
  assert (Ek : k = length n /\ (w ++ [0]) !! length n = Some c).
  { unfold w in *. destruct (Z.eqb_spec c 0) as [->|Hne].
    - rewrite index_after in Hk by done. injection Hk as <-. split; [done|]. by rewrite list_lookup_middle.
    - rewrite <- app_assoc in Hk. cbn [app] in Hk. rewrite index_after in Hk by done. injection Hk as <-. split; [done|].
      rewrite <- app_assoc. cbn [app]. by rewrite list_lookup_middle. }
  destruct Ek as [-> Ec]. pose proof (proj1 (block_lookup _ _ _) (proj1 Hs) _ _ Ec) as Hl.
  apply wp_bind. eapply wp_load8; [exact Hl|]. destruct (c =? 0); cbn [negb]; [by apply wp_ret|].
  apply wp_bind. apply wp_store8; [by eexists|]. by apply wp_ret.
Qed.

(** A call at the end of a string finds nothing. *)
Lemma wp_strtok_none b s0 save s d ds (Q : Z * Z -> bytes -> Prop) : s = (if s0 =? NULL then save else s0) ->
  cstr b s [] -> cstr b d ds -> Q (NULL, s) b -> wp (strtok_r s0 d save) Q b.
Proof.
  intros Es Hs Hd HQ. unfold strtok_r. rewrite <- Es.
  apply wp_bind, wp_assertb; [apply nonnull, Hd|]. apply wp_bind, wp_assertb; [apply nonnull, Hs|].
  apply wp_bind. apply (wp_strtok_skip b s [] d ds); [done..|]. cbn. apply wp_ret. by rewrite Z.add_0_r.
Qed.

(** ** The literals, and comparing with them *)

Definition args_start : Z := at_phys LOADER_ARGS.
Definition args_end : Z := args_start + LOADER_ARGS_LEN.
Definition all_literals : list (list Z) := s_eq :: [] :: s_h :: s_q :: s_f :: s_rs :: s_mlfqs :: s_ul :: ((fun a => a.1.1) <$> actions).

Section Proofs.
Context {literals : Literals}.

(** The literals are strings outside the arguments. *)
Definition lits_ok (b : bytes) : Prop :=
  forall l, l ∈ all_literals -> cstr b (lit l) l /\ (lit l + Z.of_nat (length l) < args_start \/ args_end <= lit l).

Lemma lits_agree b b' : (forall a, a < args_start \/ args_end <= a -> b' !! a = b !! a) -> lits_ok b -> lits_ok b'.
Proof using.
  intros Ha Hl l Hin. destruct (Hl l Hin) as [Hc Ho]. split; [|done]. eapply cstr_agree; [|exact Hc]. intros a Hr. apply Ha. lia.
Qed.

Lemma wp_on_mem {A} (m : M bytes A) (Q : A -> istate -> Prop) s : wp m (fun a b => Q a (set_imem b s)) (imem s) -> wp (on_mem m) Q s.
Proof using. apply (wp_zoom imem set_imem m Q s). Qed.

Lemma set_imem_id s : set_imem (imem s) s = s.
Proof using. by destruct s. Qed.

Lemma wp_same_as s name w l (Q : bool -> istate -> Prop) : lits_ok (imem s) -> l ∈ all_literals -> cstr (imem s) name w ->
  Q (bool_decide (w = l)) s -> wp (same_as name l) Q s.
Proof using.
  intros Hl Hin Hw HQ. unfold same_as. apply wp_bind, wp_on_mem. eapply wp_strcmp; [exact Hw|by apply Hl|]. rewrite set_imem_id.
  apply wp_ret. replace (lex w l =? 0) with (bool_decide (w = l)); [done|]. pose proof (lex_zero w l).
  destruct (Z.eqb_spec (lex w l) 0); [by rewrite bool_decide_true by tauto|by rewrite bool_decide_false by tauto].
Qed.

(** ** Options *)

Inductive opt := PowerOff | Format | Seed (v : Z) | Mlfqs | Limit (v : Z).

Definition opt_name (o : opt) : list Z :=
  match o with PowerOff => s_q | Format => s_f | Seed _ => s_rs | Mlfqs => s_mlfqs | Limit _ => s_ul end.
Definition opt_value (o : opt) : option Z := match o with Seed v | Limit v => Some v | _ => None end.
Definition opt_ok (o : opt) : Prop := match opt_value o with Some v => in_s 32 v | None => True end.
Definition opt_word (o : opt) : list Z := opt_name o ++ match opt_value o with Some v => 61 :: decimal_text v | None => [] end.

(** What the options set. *)
Record options := mk_options { o_power_off : bool; o_format : bool; o_mlfqs : bool; o_limit : Z; o_seeds : list Z }.
Definition options_of (s : istate) : options :=
  mk_options (power_off_when_done s) (format_filesys s) (thread_mlfqs s) (user_page_limit s) (seeds s).
Definition apply_opt (x : options) (o : opt) : options :=
  match o with
  | PowerOff => mk_options true (o_format x) (o_mlfqs x) (o_limit x) (o_seeds x)
  | Format => mk_options (o_power_off x) true (o_mlfqs x) (o_limit x) (o_seeds x)
  | Mlfqs => mk_options (o_power_off x) (o_format x) true (o_limit x) (o_seeds x)
  | Limit v => mk_options (o_power_off x) (o_format x) (o_mlfqs x) (u32 v) (o_seeds x)
  | Seed v => mk_options (o_power_off x) (o_format x) (o_mlfqs x) (o_limit x) (o_seeds x ++ [u32 v])
  end.

Definition others_same (s t : istate) : Prop := argv t = argv s /\ words_printed t = words_printed s /\ ran t = ran s.

Lemma atoi_decimal b p v : in_s 32 v -> cstr b p (decimal_text v) -> atoi p b = Ok (v, b).
Proof using.
  intros Hv Hc. pose proof (atoi_correct b p _ Hc) as Ha. rewrite number_decimal in Ha by done.
  destruct (decimal_text_digits v Hv) as (Hd & _ & _). rewrite Hd in Ha. unfold in_s in Hv.
  rewrite Ha; [|destruct (Z.ltb_spec v 0); lia]. f_equal. f_equal. destruct (Z.ltb_spec v 0); lia.
Qed.

Ltac compare_with := apply wp_bind; eapply wp_same_as; [done|decide_closed|done|];
  first [rewrite bool_decide_true by done | rewrite bool_decide_false by done].

Lemma wp_parse_option s o name value (Q : bool -> istate -> Prop) : lits_ok (imem s) -> opt_ok o -> cstr (imem s) name (opt_name o) ->
  match opt_value o with Some v => cstr (imem s) value (decimal_text v) | None => True end ->
  (forall t, imem t = imem s -> others_same s t -> options_of t = apply_opt (options_of s) o -> Q true t) ->
  wp (parse_option name value) Q s.
Proof using.
  intros Hl Hok Hn Hv HQ. unfold parse_option, opt_ok in *. destruct o as [| |v| |v]; cbn [opt_name opt_value] in *; repeat compare_with.
  all: try (apply wp_bind, wp_on_mem, wp_ok; eexists v, _; split; [by apply atoi_decimal|]; rewrite set_imem_id).
  all: apply wp_bind; red; cbn [modify]; apply HQ; done.
Qed.

(** Cutting a string in two. *)
Lemma cstr_cut b p n c r : cstr b p (n ++ c :: r) ->
  let b' := <[p + Z.of_nat (length n) := 0]> b in cstr b' p n /\ cstr b' (p + Z.of_nat (length n) + 1) r.
Proof using.
  intros (Hb & Hn & Hp) b'. rewrite <- app_assoc in Hb. cbn [app] in Hb. apply block_app in Hb as [H1 [H2 H3]].
  apply Forall_app in Hn as [Hn1 [_ Hn2]%Forall_cons]. split; (split_and!; [|done|lia]).
  - apply block_app. split; [|split; [by apply lookup_insert_eq|done]].
    eapply block_agree; [|exact H1]. intros i Hi. apply lookup_insert_ne. lia.
  - eapply block_agree; [|exact H3]. intros i Hi. apply lookup_insert_ne. lia.
Qed.

Lemma cstr_end b p n : cstr b p n -> cstr b (p + Z.of_nat (length n)) [].
Proof using. intros (Hb & Hn & Hp). apply block_app in Hb as [_ Hb]. split_and!; [done|constructor|lia]. Qed.

Lemma get_arg_at s i p (Q : Z -> istate -> Prop) : 0 <= i -> argv s !! Z.to_nat i = Some p -> Q p s -> wp (get_arg i) Q s.
Proof using.
  intros Hi E HQ. unfold get_arg. apply wp_bind. red. cbn [gets]. rewrite (proj2 (Z.ltb_ge _ _)) by lia. by rewrite E.
Qed.

Definition option_body (save i : Z) : M istate (Z + option Z) :=
  p ← get_arg i;
  if p =? NULL then ret (inr (Some i)) else
  c ← on_mem (load8 p);
  if negb (c =? 45) then ret (inr (Some i)) else
  t ← on_mem (strtok_r p (lit s_eq) save);
  v ← on_mem (strtok_r NULL (lit []) t.2);
  b ← parse_option t.1 v.1;
  ret (if b : bool then inl (i + 1) else inr None).

Lemma opt_name_delims o : opt_name o <> [] /\ Forall (fun x => is_delim s_eq x = false) (opt_name o).
Proof using. destruct o; (split; [done|decide_closed]). Qed.

Lemma wp_option_body save s i p o (Q : Z + option Z -> istate -> Prop) : 0 <= i -> argv s !! Z.to_nat i = Some p ->
  lits_ok (imem s) -> opt_ok o -> cstr (imem s) p (opt_word o) -> args_start <= p -> p + Z.of_nat (length (opt_word o)) < args_end ->
  (forall t, others_same s t -> options_of t = apply_opt (options_of s) o -> lits_ok (imem t) ->
     (forall a, p + Z.of_nat (length (opt_word o)) < a -> imem t !! a = imem s !! a) -> Q (inl (i + 1)) t) ->
  wp (option_body save i) Q s.
Proof using.
  intros Hi Ei Hl Hok Hc Hlo Hhi HQ. destruct (opt_name_delims o) as [Hne Hds]. unfold option_body.
  apply wp_bind. eapply get_arg_at; [done..|]. assert (Ep : (p =? NULL) = false) by (apply negb_true_iff, nonnull, Hc). rewrite Ep.
  apply wp_bind, wp_on_mem. assert (E45 : (opt_word o ++ [0]) !! 0%nat = Some 45) by (by destruct o).
  eapply wp_load8; [pose proof (proj1 (block_lookup _ _ _) (proj1 Hc) _ _ E45) as Hx; by rewrite Z.add_0_r in Hx|].
  rewrite set_imem_id. change (45 =? 45) with true. cbn [negb]. unfold opt_word in *.
  destruct (Hl s_eq) as [Heq _]; [decide_closed|].
  destruct (opt_value o) as [v|] eqn:Ev.
  - assert (Hv : in_s 32 v) by (unfold opt_ok in Hok; by rewrite Ev in Hok). destruct (cstr_cut _ _ _ _ _ Hc) as [H1 H2].
    set (b' := <[_ := 0]> _) in *. rewrite length_app in *. cbn [length] in *.
    assert (Hl' : lits_ok b') by (eapply lits_agree; [|exact Hl]; intros a Ha; apply lookup_insert_ne; lia).
    apply wp_bind, wp_on_mem. eapply (wp_strtok_first _ _ _ p _ s_eq (opt_name o) 61); [by rewrite Ep|done|done|done|exact Hc|exact Heq|].
    change (61 =? 0) with false. cbn iota. apply wp_bind, wp_on_mem. destruct (Hl' []) as [He _]; [decide_closed|].
    eapply (wp_strtok_first _ _ _ (p + Z.of_nat (length (opt_name o)) + 1) _ [] (decimal_text v) 0 []); [done| | |done|exact H2|exact He|].
    { destruct (decimal_text_digits v Hv) as (_ & _ & Hn & _). unfold decimal_text. intros E%(f_equal length). rewrite length_app in E. cbn in *. lia. }
    { eapply Forall_impl; [apply (decimal_text_chars v Hv)|]. intros x Hx. unfold is_delim. apply bool_decide_eq_false.
      cbn [app]. rewrite list_elem_of_singleton. cbn in Hx. lia. }
    change (0 =? 0) with true. cbn iota. apply wp_bind. eapply (wp_parse_option _ o); [exact Hl'|done|exact H1|by rewrite Ev|].
    intros t Hm Ho Hopt. apply wp_ret. apply HQ; [exact Ho|exact Hopt|by rewrite Hm|]. intros a Ha. rewrite Hm. apply lookup_insert_ne. lia.
  - rewrite app_nil_r in *.
    apply wp_bind, wp_on_mem. eapply (wp_strtok_first _ _ _ p _ s_eq (opt_name o) 0 []); [by rewrite Ep|done|done|done|exact Hc|exact Heq|].
    change (0 =? 0) with true. cbn iota. rewrite set_imem_id. apply wp_bind, wp_on_mem. destruct (Hl []) as [He _]; [decide_closed|].
    eapply wp_strtok_none; [done|by apply cstr_end|exact He|]. rewrite set_imem_id.
    apply wp_bind. eapply (wp_parse_option _ o); [exact Hl|done|exact Hc|by rewrite Ev|].
    intros t Hm Ho Hopt. apply wp_ret. apply HQ; [done|done|by rewrite Hm|]. intros a Ha. by rewrite Hm.
Qed.

(** From index [i] on, [argv] holds the addresses of the words, and then a null
    pointer. *)
Definition args_at (s : istate) (i p : Z) (ws : list (list Z)) : Prop :=
  forall k q, (starts p ws ++ [NULL]) !! k = Some q -> argv s !! (Z.to_nat i + k)%nat = Some q.

Lemma args_at_cons s i p w ws : 0 <= i -> args_at s i p (w :: ws) ->
  argv s !! Z.to_nat i = Some p /\ args_at s (i + 1) (p + Z.of_nat (length w) + 1) ws.
Proof using.
  intros Hi H. split; [rewrite <- (H 0%nat p) by done; f_equal; lia|]. intros k q E. rewrite <- (H (S k) q) by done. f_equal. lia.
Qed.

Lemma args_at_nil s i p : args_at s i p [] -> argv s !! Z.to_nat i = Some NULL.
Proof using. intros H. rewrite <- (H 0%nat NULL) by done. f_equal. lia. Qed.

Lemma length_line_cons w ws : Z.of_nat (length (line_of (w :: ws))) = Z.of_nat (length w) + 1 + Z.of_nat (length (line_of ws)).
Proof using. change (line_of (w :: ws)) with ((w ++ [0]) ++ line_of ws). rewrite !length_app. cbn [length]. lia. Qed.

Definition not_an_option (ws : list (list Z)) : Prop := match ws with w :: _ => head w <> Some 45 | [] => True end.

Lemma wp_parse_stop save s i p ws (Q : Z + option Z -> istate -> Prop) : 0 <= i -> args_at s i p ws -> words_at (imem s) p ws ->
  not_an_option ws -> Q (inr (Some i)) s -> wp (option_body save i) Q s.
Proof using.
  intros Hi Ha Hw Hn HQ. unfold option_body. apply wp_bind. destruct ws as [|w ws].
  - eapply get_arg_at; [done|by eapply args_at_nil|]. by apply wp_ret.
  - apply args_at_cons in Ha as [Ha _]; [|done]. eapply get_arg_at; [done..|]. inversion_clear Hw as [|???? Hc _].
    assert (Ep : (p =? NULL) = false) by (apply negb_true_iff, nonnull, Hc). rewrite Ep.
    destruct (lookup_lt_is_Some_2 (w ++ [0]) 0) as [c Ec]; [rewrite length_app; cbn; lia|].
    apply wp_bind, wp_on_mem. eapply wp_load8; [pose proof (proj1 (block_lookup _ _ _) (proj1 Hc) _ _ Ec) as Hx; by rewrite Z.add_0_r in Hx|].
    rewrite set_imem_id. replace (c =? 45) with false; [by apply wp_ret|]. symmetry. apply Z.eqb_neq. intros ->. destruct w; cbn in *; congruence.
Qed.

Lemma wp_parse_loop save os : forall fuel i p ws s, (length os < fuel)%nat -> 0 <= i -> Forall opt_ok os -> not_an_option ws ->
  let all := (opt_word <$> os) ++ ws in args_at s i p all -> words_at (imem s) p all -> lits_ok (imem s) ->
  args_start <= p -> p + Z.of_nat (length (line_of all)) <= args_end ->
  wp (iterate fuel (option_body save) i) (fun r t => let j := i + Z.of_nat (length os) in
    let q := p + Z.of_nat (length (line_of (opt_word <$> os))) in
    r = Some j /\ others_same s t /\ options_of t = fold_left apply_opt os (options_of s) /\
    lits_ok (imem t) /\ args_at t j q ws /\ words_at (imem t) q ws) s.
Proof using.
  induction os as [|o os IH]; intros [|fuel] i p ws s Hf Hi Hok Hn all Ha Hw Hl Hlo Hhi; try (cbn in Hf; lia); cbn [iterate].
  - apply wp_bind. eapply wp_parse_stop; [done..|]. apply wp_ret. cbn. rewrite !Z.add_0_r. done.
  - cbn [length] in Hf. unfold all in *. cbn [fmap list_fmap app] in *. apply args_at_cons in Ha as [Ha Ha']; [|done]. inversion_clear Hw as [|???? Hc Hw'].
    apply Forall_cons in Hok as [Ho Hok]. rewrite length_line_cons in Hhi.
    apply wp_bind. eapply wp_option_body; [done..|lia|]. intros t Hs Hopt Hl' Hag. pose proof Hs as (Es1 & Es2 & Es3).
    eapply wp_mono; [apply (IH fuel (i + 1) (p + Z.of_nat (length (opt_word o)) + 1) ws t)|]; [lia|lia|done|done| | |done|lia|lia|].
    + intros k q E. rewrite Es1. by apply Ha'.
    + eapply words_at_agree; [|exact Hw']. intros a Hr. apply Hag. lia.
    + cbn zeta. intros r u (-> & (Eu1 & Eu2 & Eu3) & Eu & Hl'' & Ha'' & Hw''). rewrite length_line_cons. cbn [length fold_left].
      replace (i + 1 + Z.of_nat (length os)) with (i + Z.of_nat (S (length os))) in * by lia.
      replace (p + Z.of_nat (length (opt_word o)) + 1 + Z.of_nat (length (line_of (opt_word <$> os))))
        with (p + (Z.of_nat (length (opt_word o)) + 1 + Z.of_nat (length (line_of (opt_word <$> os))))) in * by lia.
      rewrite <- Hopt. split_and!; try done. split_and!; congruence.
Qed.

(** ** Actions *)

Definition act_name (f : action_function) : list Z :=
  match f with RunTask => [114; 117; 110] | Ls => [108; 115] | Cat => [99; 97; 116] | Rm => [114; 109] | Put => [112; 117; 116] | Get => [103; 101; 116] end.
Record act := mk_act { a_fun : action_function; a_args : list (list Z) }.
Definition act_ok (a : act) : Prop := length (a_args a) = match a_fun a with Ls => 0%nat | _ => 1%nat end /\ Forall word_ok (a_args a).
Definition act_words (a : act) : list (list Z) := act_name (a_fun a) :: a_args a.

(** The calls, with the addresses of the arguments. *)
Fixpoint act_calls (p : Z) (l : list act) : list (action_function * list Z) :=
  match l with
  | [] => []
  | a :: l => (a_fun a, starts (p + Z.of_nat (length (act_name (a_fun a))) + 1) (a_args a)) :: act_calls (p + Z.of_nat (length (line_of (act_words a)))) l
  end.

Lemma wp_find_action s p f (Q : Z * action_function -> istate -> Prop) : lits_ok (imem s) -> cstr (imem s) p (act_name f) ->
  Q (match f with Ls => 1 | _ => 2 end, f) s -> wp (find_action p actions) Q s.
Proof using. intros Hl Hc HQ. unfold actions. destruct f; cbn [find_action act_name] in *; repeat compare_with; by apply wp_ret. Qed.

Lemma args_at_app s i p vs ws : 0 <= i -> args_at s i p (vs ++ ws) ->
  (forall k q, starts p vs !! k = Some q -> argv s !! (Z.to_nat i + k)%nat = Some q) /\
  args_at s (i + Z.of_nat (length vs)) (p + Z.of_nat (length (line_of vs))) ws.
Proof using.
  intros Hi H. unfold args_at in H. rewrite starts_app, <- app_assoc in H. split; intros k q E.
  - apply H. by apply lookup_app_l_Some.
  - rewrite <- (H (length vs + k)%nat q); [f_equal; lia|]. rewrite <- (length_starts p vs), lookup_app_r by lia.
    by replace (length (starts p vs) + k - length (starts p vs))%nat with k by lia.
Qed.

Lemma wp_get_args s ws : forall i p (Q : list Z -> istate -> Prop), 0 <= i -> words_at (imem s) p ws ->
  (forall k q, starts p ws !! k = Some q -> argv s !! (Z.to_nat i + k)%nat = Some q) -> Q (starts p ws) s -> wp (get_args i (length ws)) Q s.
Proof using.
  induction ws as [|w ws IH]; intros i p Q Hi Hw Ha HQ; cbn [get_args length]; [by apply wp_ret|]. inversion_clear Hw as [|???? Hc Hw'].
  apply wp_bind. apply (get_arg_at s i p); [done|rewrite <- (Ha 0%nat p) by done; f_equal; lia|].
  apply wp_bind, wp_assertb; [apply nonnull, Hc|]. apply wp_bind. apply (IH _ (p + Z.of_nat (length w) + 1)); [lia|done| |by apply wp_ret].
  intros k q E. rewrite <- (Ha (S k) q) by done. f_equal. lia.
Qed.

Definition action_body (i : Z) : M istate (Z + unit) :=
  p ← get_arg i;
  if p =? NULL then ret (inr tt) else
  a ← find_action p actions;
  l ← get_args (i + 1) (Z.to_nat (a.1 - 1));
  modify (fun s => set_ran (ran s ++ [(a.2, l)]) s);;
  ret (inl (i + a.1)).

Lemma words_at_app b p vs ws : words_at b p (vs ++ ws) <-> words_at b p vs /\ words_at b (p + Z.of_nat (length (line_of vs))) ws.
Proof using.
  unfold words_at. rewrite starts_app. split; [|intros [? ?]; by apply Forall2_app].
  intros H. apply Forall2_app_inv in H; [done|]. by rewrite length_starts.
Qed.

Lemma wp_action_loop l : forall fuel i p s, (length l < fuel)%nat -> 0 <= i -> Forall act_ok l ->
  let ws := l ≫= act_words in args_at s i p ws -> words_at (imem s) p ws -> lits_ok (imem s) ->
  wp (iterate fuel action_body i) (fun _ t => t = set_ran (ran s ++ act_calls p l) s) s.
Proof using.
  induction l as [|a l IH]; intros [|fuel] i p s Hf Hi Hok ws Ha Hw Hl; try (cbn in Hf; lia); cbn [iterate]; apply wp_bind; unfold action_body at 1.
  - apply wp_bind. eapply get_arg_at; [done|by eapply args_at_nil|]. apply wp_ret, wp_ret. cbn. rewrite app_nil_r. by destruct s.
  - cbn [length] in Hf. apply Forall_cons in Hok as [[Hlen Hargs] Hok]. unfold ws in *. cbn [mbind list_bind] in Ha, Hw.
    pose proof Ha as [Ha1 Ha2]%args_at_app; [|done]. apply words_at_app in Hw as [Hw1 Hw2]. inversion Hw1 as [|???? Hc Hwa]; subst.
    cbn [act_words starts length] in Ha1, Ha2.
    apply wp_bind. apply (get_arg_at s i p); [done|rewrite <- (Ha1 0%nat p) by done; f_equal; lia|].
    rewrite (proj1 (negb_true_iff _) (nonnull p (proj2 (proj2 Hc)))).
    apply wp_bind. eapply wp_find_action; [done..|]. cbn [fst snd]. set (n := match a_fun a with Ls => 1 | _ => 2 end).
    assert (En : n = 1 + Z.of_nat (length (a_args a))) by (unfold n; rewrite Hlen; by destruct (a_fun a)).
    replace (Z.to_nat (n - 1)) with (length (a_args a)) by lia.
    apply wp_bind. eapply wp_get_args; [lia|exact Hwa| |].
    { intros k q E. rewrite <- (Ha1 (S k) q) by done. f_equal. lia. }
    apply wp_bind. red. cbn [modify]. apply wp_ret. replace (i + n) with (i + Z.of_nat (S (length (a_args a)))) by lia.
    eapply wp_mono; [eapply (IH fuel); [lia|lia|done|exact Ha2|exact Hw2|exact Hl]|]. cbn beta. intros _ t ->. unfold set_ran. cbn. by rewrite <- app_assoc.
Qed.

(** ** Reading the words *)

Lemma wp_set_arg s i p (Q : unit -> istate -> Prop) : 0 <= i < Z.of_nat (length (argv s)) ->
  Q tt (set_argv (<[Z.to_nat i := p]> (argv s)) s) -> wp (set_arg i p) Q s.
Proof using.
  intros Hi HQ. unfold set_arg. destruct (lookup_lt_is_Some_2 (argv s) (Z.to_nat i)) as [x E]; [lia|].
  apply wp_bind. eapply get_arg_at; [lia|done|exact HQ].
Qed.

Definition word_body (argc last : Z) : Z * Z -> M istate (Z * Z + unit) := fun '(i, p) =>
  if i <? argc then
    ASSERT (negb (last <=? p));;
    set_arg i p;;
    n ← on_mem (strnlen p (last - p));
    ret (inl (i + 1, p + n + 1))
  else ret (inr tt).

Lemma wp_read_loop ws : forall fuel i p s, (length ws < fuel)%nat -> 0 <= i -> i + Z.of_nat (length ws) < Z.of_nat (length (argv s)) ->
  words_at (imem s) p ws -> p + Z.of_nat (length (line_of ws)) <= args_end ->
  wp (iterate fuel (word_body (i + Z.of_nat (length ws)) args_end) (i, p)) (fun _ t => exists l, t = set_argv l s /\ length l = length (argv s) /\
    (forall k, (k < Z.to_nat i)%nat -> l !! k = argv s !! k) /\ forall k q, starts p ws !! k = Some q -> l !! (Z.to_nat i + k)%nat = Some q) s.
Proof using.
  induction ws as [|w ws IH]; intros [|fuel] i p s Hf Hi Hn Hw He; try (cbn in Hf; lia); cbn [iterate]; apply wp_bind; unfold word_body at 1; cbn [length] in *.
  - rewrite (proj2 (Z.ltb_ge _ _)) by lia. apply wp_ret, wp_ret. exists (argv s). split_and!; [by destruct s|done|done|]. intros k q E. by destruct k.
  - rewrite length_line_cons in He. inversion_clear Hw as [|???? Hc Hw']. rewrite (proj2 (Z.ltb_lt _ _)) by lia.
    apply wp_bind, wp_assertb; [apply negb_true_iff, Z.leb_gt; lia|]. apply wp_bind, wp_set_arg; [lia|].
    apply wp_bind, wp_on_mem, wp_ok. eexists _, _. split; [apply (strnlen_correct _ p w); [exact Hc|lia]|]. rewrite set_imem_id.
    replace (Z.min _ _) with (Z.of_nat (length w)) by (unfold len; lia). apply wp_ret.
    replace (i + Z.of_nat (S (length ws))) with (i + 1 + Z.of_nat (length ws)) by lia.
    eapply wp_mono; [apply IH; [lia|lia|cbn; rewrite length_insert; lia|exact Hw'|lia]|]. cbn beta. intros _ t (l & -> & El & Hlt & Hst).
    cbn [argv set_argv] in *. rewrite length_insert in El. exists l. split_and!; [by destruct s|done| |].
    + intros k Hk. rewrite Hlt by lia. apply list_lookup_insert_ne. lia.
    + intros [|k] q E; cbn [lookup list_lookup starts] in E.
      * injection E as <-. rewrite Nat.add_0_r, Hlt by lia. apply list_lookup_insert_eq. lia.
      * rewrite <- (Hst k q E). f_equal. lia.
Qed.

(** The line that is printed: a word with a space in it is quoted. *)
Definition printed (p : Z) (ws : list (list Z)) : list (bool * Z) := zip ((fun w => bool_decide (32 ∈ w)) <$> ws) (starts p ws).

(** What the loader leaves: the number of words, and the words. *)
Definition loaded (b : bytes) (ws : list (list Z)) : Prop :=
  block b (at_phys LOADER_ARG_CNT) [Z.of_nat (length ws); 0; 0; 0] /\ block b args_start (line_of ws).

Lemma wp_print_loop s p ws : words_at (imem s) p ws -> args_at s 0 p ws ->
  wp (for_from (length ws) 0 (fun i => p ← get_arg i; q ← on_mem (strchr p 32);
        modify (fun s => set_words (words_printed s ++ [(negb (q =? NULL), p)]) s)))
     (fun _ t => t = set_words (words_printed s ++ printed p ws) s) s.
Proof using.
  intros Hw Ha. assert (Elen : length (printed p ws) = length ws) by (unfold printed; rewrite length_zip, length_fmap, length_starts; lia).
  eapply wp_mono; [apply (wp_for_from (fun i t => t = set_words (words_printed s ++ take (Z.to_nat i) (printed p ws)) s))|].
  - rewrite app_nil_r. by destruct s.
  - intros j t Hj ->. destruct (lookup_lt_is_Some_2 ws (Z.to_nat j)) as [w Ew]; [lia|].
    destruct (lookup_lt_is_Some_2 (starts p ws) (Z.to_nat j)) as [q Eq]; [rewrite length_starts; lia|].
    pose proof (Forall2_lookup_lr _ _ _ _ _ _ Hw Eq Ew) as Hc.
    apply wp_bind. apply (get_arg_at _ j q); [lia|apply (Ha (Z.to_nat j)); by apply lookup_app_l_Some|].
    apply wp_bind, wp_on_mem. eapply wp_strchr_among; [exact Hc|unfold in_u; lia|done|]. intros r Hr. rewrite set_imem_id. red. cbn [modify].
    rewrite Hr, negb_involutive. replace (Z.to_nat (j + 1)) with (S (Z.to_nat j)) by lia.
    assert (Er : printed p ws !! Z.to_nat j = Some (among w 32, q)) by (unfold printed; apply lookup_zip_Some; split; [by rewrite list_lookup_fmap, Ew|done]).
    rewrite (take_S_r _ _ _ Er). unfold set_words. cbn. by rewrite app_assoc.
  - cbn beta. intros _ t ->. by rewrite take_ge by lia.
Qed.

Lemma wp_read_command_line s ws : Forall word_ok ws -> (length ws <= 64)%nat -> (length (line_of ws) <= 128)%nat -> length (argv s) = 65%nat ->
  loaded (imem s) ws ->
  wp read_command_line (fun i t => i = 0 /\ exists l, t = set_argv l (set_words (words_printed s ++ printed args_start ws) s) /\
    args_at t 0 args_start ws /\ words_at (imem s) args_start ws) s.
Proof using.
  intros Hok Hn Hlen Hargv [Hcnt Hline]. unfold read_command_line. apply wp_bind, wp_on_mem. destruct Hcnt as (H0 & H1 & H2 & H3 & _).
  unfold load32. do 4 (apply wp_bind; eapply wp_load8; [first [exact H0|exact H1|exact H2|exact H3]|]). apply wp_ret. rewrite set_imem_id.
  cbv zeta. replace (i32 _) with (0 + Z.of_nat (length ws)) by (rewrite swrap_small by (unfold in_s; lia); lia).
  assert (Hw : words_at (imem s) args_start ws) by (by apply words_at_line).
  apply wp_bind. eapply wp_mono; [apply (wp_read_loop ws _ 0 args_start s); [lia|lia|lia|exact Hw|unfold args_end, LOADER_ARGS_LEN; lia]|].
  cbn beta. intros _ t (l & -> & El & _ & Hst). apply wp_bind, wp_set_arg; [cbn; lia|]. cbn [argv set_argv]. rewrite Z.add_0_l, !Nat2Z.id.
  set (u := set_argv _ _). assert (Ha : args_at u 0 args_start ws).
  { intros k q E. cbn [u argv set_argv]. apply lookup_app_Some in E as [E|[Hk E]].
    - rewrite list_lookup_insert_ne; [by apply Hst|]. apply lookup_lt_Some in E. rewrite length_starts in E. lia.
    - rewrite length_starts in *. destruct (k - length ws)%nat as [|j] eqn:Ek; [|by destruct j]. injection E as <-.
      replace (Z.to_nat 0 + k)%nat with (length ws) by lia. apply list_lookup_insert_eq. lia. }
  apply wp_bind. eapply wp_mono; [apply (wp_print_loop u args_start ws); [exact Hw|exact Ha]|]. cbn beta. intros _ t ->. apply wp_ret.
  split; [done|]. by eexists.
Qed.

Lemma act_calls_cstr b l : forall p, words_at b p (l ≫= act_words) ->
  Forall2 (fun a c => c.1 = a_fun a /\ Forall2 (cstr b) c.2 (a_args a)) l (act_calls p l).
Proof using.
  induction l as [|a l IH]; intros p Hw; [constructor|]. cbn [mbind list_bind] in Hw. apply words_at_app in Hw as [Hw1 Hw2].
  inversion Hw1; subst. constructor; [by split|by apply IH].
Qed.

Lemma command_words_ok os l : Forall opt_ok os -> Forall act_ok l -> Forall word_ok ((opt_word <$> os) ++ (l ≫= act_words)).
Proof using.
  intros Ho Ha. apply Forall_app. split.
  - apply Forall_fmap. eapply Forall_impl; [exact Ho|]. intros o Hok. unfold opt_ok, word_ok, opt_word in *. cbn. apply Forall_app.
    split; [destruct o; decide_closed|]. destruct (opt_value o) as [v|]; constructor; [lia|]. by apply decimal_text_chars.
  - apply Forall_bind. eapply Forall_impl; [exact Ha|]. intros a [_ Hok]. constructor; [|done]. unfold word_ok. destruct (a_fun a); decide_closed.
Qed.

Lemma actions_not_options l : not_an_option (l ≫= act_words).
Proof using. destruct l as [|a l]; [done|]. cbn. by destruct (a_fun a). Qed.

(** C28: the command line means what it says.  For every list of options and
    every list of actions, written as words, a kernel whose loader left these
    words in memory sets exactly these options, the numbers being those
    written, and runs exactly these actions, in order, each with its argument;
    no assertion fails.  The line that is printed quotes the words that have
    a space in them. *)
Theorem command_line_correct os l save s : Forall opt_ok os -> Forall act_ok l ->
  let ws := (opt_word <$> os) ++ (l ≫= act_words) in
  (length ws <= 64)%nat -> (length (line_of ws) <= 128)%nat -> length (argv s) = 65%nat -> loaded (imem s) ws -> lits_ok (imem s) ->
  exists t, run_command_line save s = Ok (Some tt, t) /\ options_of t = fold_left apply_opt os (options_of s) /\
    words_printed t = words_printed s ++ printed args_start ws /\
    exists calls, ran t = ran s ++ calls /\ Forall2 (fun a c => c.1 = a_fun a /\ Forall2 (cstr (imem t)) c.2 (a_args a)) l calls.
Proof using.
  intros Ho Ha ws Hn Hlen Hargv Hload Hl.
  assert (Hos : (length os + length l <= 64)%nat).
  { unfold ws in Hn. rewrite length_app, length_fmap in Hn. enough (length l <= length (l ≫= act_words))%nat by lia.
    clear. induction l as [|a l IH]; cbn; [lia|]. rewrite length_app. lia. }
  enough (wp (run_command_line save) (fun r t => r = Some tt /\ options_of t = fold_left apply_opt os (options_of s) /\
    words_printed t = words_printed s ++ printed args_start ws /\
    exists calls, ran t = ran s ++ calls /\ Forall2 (fun a c => c.1 = a_fun a /\ Forall2 (cstr (imem t)) c.2 (a_args a)) l calls) s)
    as (r & t & E & -> & H)%wp_ok by eauto.
  unfold run_command_line. apply wp_bind. eapply wp_mono; [apply (wp_read_command_line s ws); [by apply command_words_ok|done..]|].
  cbn beta. intros i t (-> & args & -> & Hargs & Hw). set (t := set_argv _ _) in *.
  apply wp_bind. unfold parse_options. fold (option_body save).
  eapply wp_mono; [apply (wp_parse_loop save os 66 0 args_start (l ≫= act_words) t)|];
    [lia|lia|done|apply actions_not_options|exact Hargs|exact Hw|exact Hl|lia|fold ws; unfold args_end, LOADER_ARGS_LEN; lia|].
  cbn beta zeta. intros j u (-> & (Eu1 & Eu2 & Eu3) & Eopt & Hlu & Hau & Hwu). apply wp_bind. unfold run_actions. fold action_body.
  eapply wp_mono; [eapply (wp_action_loop l 66); [lia|lia|done|exact Hau|exact Hwu|exact Hlu]|]. cbn beta. intros _ v ->. apply wp_ret.
  split_and!; [done|exact Eopt|exact Eu2|]. eexists. split; [cbn [ran set_ran]; by rewrite Eu3|]. by apply act_calls_cstr.
Qed.
End Proofs.

(** ** Examples *)

(** The literals from 0x1000 on, 16 bytes each. *)
Definition demo_lit (l : list Z) : Z := 0x1000 + 16 * Z.of_nat (default 0%nat (fst <$> list_find (fun x => x = l) all_literals)).
Definition demo_literals : Literals := {| lit := demo_lit |}.
Definition demo_line (ws : list (list Z)) : istate :=
  mk_istate (write (write (foldr (fun l b => write b (demo_lit l) (l ++ [0])) ∅ all_literals)
      (at_phys LOADER_ARG_CNT) [Z.of_nat (length ws); 0; 0; 0]) args_start (line_of ws))
    (replicate 65 NULL) false false false 0xffffffff [] [] [].

(** -q -rs=-5 -ul=64 put 'a b' ls run x. *)
Definition demo_opts : list opt := [PowerOff; Seed (-5); Limit 64].
Definition demo_acts : list act := [mk_act Put [[97; 32; 98]]; mk_act Ls []; mk_act RunTask [[120]]].
Definition demo_words : list (list Z) := (opt_word <$> demo_opts) ++ (demo_acts ≫= act_words).

Lemma demo_lits_ok ws : ws = demo_words -> lits_ok (literals := demo_literals) (imem (demo_line ws)).
Proof.
  intros ->. assert (H : Forall (fun l => cstr (imem (demo_line demo_words)) (demo_lit l) l /\
    (demo_lit l + Z.of_nat (length l) < args_start \/ args_end <= demo_lit l)) all_literals) by decide_closed.
  intros l Hl. by apply (proj1 (Forall_forall _ _) H).
Qed.

Lemma command_line_correct_witness : exists t, run_command_line (literals := demo_literals) 0 (demo_line demo_words) = Ok (Some tt, t) /\
  options_of t = mk_options true false false 64 [2 ^ 32 - 5] /\ words_printed t = printed args_start demo_words /\
  exists calls, ran t = calls /\ Forall2 (fun a c => c.1 = a_fun a /\ Forall2 (cstr (imem t)) c.2 (a_args a)) demo_acts calls.
Proof.
  apply (command_line_correct (literals := demo_literals) demo_opts demo_acts 0 (demo_line demo_words)).
  - repeat constructor; unfold opt_ok, in_s; cbn; lia.
  - repeat constructor; unfold word_ok; decide_closed.
  - decide_closed.
  - decide_closed.
  - reflexivity.
  - unfold loaded. decide_closed.
  - by apply demo_lits_ok.
Defined.

(** [argv] has 65 entries because the 128 bytes were taken to hold at most 64
    words; an empty word takes one byte, and 65 of them write past its end. *)
Lemma empty_words_overflow_argv : let ws := replicate 65 [] in (length (line_of ws) <= 128)%nat /\ loaded (imem (demo_line ws)) ws /\
  read_command_line (demo_line ws) = Err BadAccess.
Proof. split_and!; [decide_closed|unfold loaded; decide_closed|vm_compute; reflexivity]. Qed.
