(* ===== verification/Syscalls.v ===== *)
(** * System calls and output of user programs

    lib/user/syscall.c and lib/user/console.c, and then what they ask of the
    kernel. *)

From Stdlib Require Import ZArith Lia.
From stdpp Require Import base numbers gmap list.
From S2P Require Import Prelude Bytes StrLib CStdlib Stdio StdioSpec StdioProps.

Open Scope Z_scope.

(** * The code

    A user program's memory and stack pointer; a system call pushes its
    arguments and its number and executes int $0x30.  What the kernel does then
    is a parameter; the state keeps what it saw: the stack pointer and memory
    at each call. *)

(** ** lib/syscall-nr.h *)

Inductive syscall_number := SYS_HALT | SYS_EXIT | SYS_EXEC | SYS_WAIT | SYS_CREATE | SYS_REMOVE | SYS_OPEN | SYS_FILESIZE | SYS_READ
  | SYS_WRITE | SYS_SEEK | SYS_TELL | SYS_CLOSE | SYS_MMAP | SYS_MUNMAP | SYS_CHDIR | SYS_MKDIR | SYS_READDIR | SYS_ISDIR | SYS_INUMBER.

Definition number_of (n : syscall_number) : Z :=
  match n with
  | SYS_HALT => 0 | SYS_EXIT => 1 | SYS_EXEC => 2 | SYS_WAIT => 3 | SYS_CREATE => 4 | SYS_REMOVE => 5 | SYS_OPEN => 6 | SYS_FILESIZE => 7
  | SYS_READ => 8 | SYS_WRITE => 9 | SYS_SEEK => 10 | SYS_TELL => 11 | SYS_CLOSE => 12 | SYS_MMAP => 13 | SYS_MUNMAP => 14
  | SYS_CHDIR => 15 | SYS_MKDIR => 16 | SYS_READDIR => 17 | SYS_ISDIR => 18 | SYS_INUMBER => 19
  end.

Definition STDOUT_FILENO : Z := 1.

(** ** The machine that a user program sees *)

Record user := mk_user { umem : bytes; esp : Z; traps : list (Z * bytes) }.
Definition set_umem v u := mk_user v (esp u) (traps u).
Definition set_esp v u := mk_user (umem u) v (traps u).

(** What interrupt 0x30 does, given the stack pointer and memory: the value in
    EAX, and memory. *)
Class UserKernel := { int_0x30 : Z -> bytes -> Z * bytes }.

Section Code.
Context {kernel : UserKernel}.

Definition on_umem {A} (m : M bytes A) : M user A := zoom umem set_umem m.

Definition push8s (p : Z) (v : Z) : M bytes unit :=
  store8 p v;; store8 (p + 1) (Z.shiftr v 8);; store8 (p + 2) (Z.shiftr v 16);; store8 (p + 3) (Z.shiftr v 24).

Definition pushl (v : Z) : M user unit :=
  u ← get;
  let p := esp u - 4 in
  on_umem (push8s p v);; modify (set_esp p).

(** int $0x30. *)
Definition trap : M user Z := fun u =>
  let '(eax, b) := int_0x30 (esp u) (umem u) in
  Ok (i32 eax, mk_user b (esp u) (traps u ++ [(esp u, umem u)])).

Definition pop (n : Z) : M user unit := modify (fun u => set_esp (esp u + n) u).

Definition syscall0 (n : syscall_number) : M user Z :=
  pushl (number_of n);; r ← trap; pop 4;; ret r.
Definition syscall1 (n : syscall_number) (arg0 : Z) : M user Z :=
  pushl arg0;; pushl (number_of n);; r ← trap; pop 8;; ret r.
Definition syscall2 (n : syscall_number) (arg0 arg1 : Z) : M user Z :=
  pushl arg1;; pushl arg0;; pushl (number_of n);; r ← trap; pop 12;; ret r.
Definition syscall3 (n : syscall_number) (arg0 arg1 arg2 : Z) : M user Z :=
  pushl arg2;; pushl arg1;; pushl arg0;; pushl (number_of n);; r ← trap; pop 16;; ret r.

(** A value of type bool that is returned as an int. *)
Definition to_bool (m : M user Z) : M user bool := r ← m; ret (negb (r =? 0)).

Definition halt : M user unit := syscall0 SYS_HALT;; fail AssertFail.
Definition exit (status : Z) : M user unit := syscall1 SYS_EXIT status;; fail AssertFail.
Definition exec (file : Z) : M user Z := syscall1 SYS_EXEC file.
Definition wait (pid : Z) : M user Z := syscall1 SYS_WAIT pid.
Definition create (file initial_size : Z) : M user bool := to_bool (syscall2 SYS_CREATE file initial_size).
Definition remove (file : Z) : M user bool := to_bool (syscall1 SYS_REMOVE file).
Definition open (file : Z) : M user Z := syscall1 SYS_OPEN file.
Definition filesize (fd : Z) : M user Z := syscall1 SYS_FILESIZE fd.
Definition read (fd buffer size : Z) : M user Z := syscall3 SYS_READ fd buffer size.
Definition write (fd buffer size : Z) : M user Z := syscall3 SYS_WRITE fd buffer size.
Definition seek (fd position : Z) : M user unit := syscall2 SYS_SEEK fd position;; ret tt.
Definition tell (fd : Z) : M user Z := r ← syscall1 SYS_TELL fd; ret (u32 r).
Definition close (fd : Z) : M user unit := syscall1 SYS_CLOSE fd;; ret tt.
Definition mmap (fd addr : Z) : M user Z := syscall2 SYS_MMAP fd addr.
Definition munmap (mapid : Z) : M user unit := syscall1 SYS_MUNMAP mapid;; ret tt.
Definition chdir (dir : Z) : M user bool := to_bool (syscall1 SYS_CHDIR dir).
Definition mkdir (dir : Z) : M user bool := to_bool (syscall1 SYS_MKDIR dir).
Definition readdir (fd name : Z) : M user bool := to_bool (syscall2 SYS_READDIR fd name).
Definition isdir (fd : Z) : M user bool := to_bool (syscall1 SYS_ISDIR fd).
Definition inumber (fd : Z) : M user Z := syscall1 SYS_INUMBER fd.

(** ** Output *)

(** [struct vhprintf_aux]; its buffer is in memory at [buf]. *)
Record vhprintf_aux := mk_vhprintf_aux { buf : Z; buf_p : Z; char_cnt : Z; handle : Z }.
Definition set_buf_p v a := mk_vhprintf_aux (buf a) v (char_cnt a) (handle a).

Definition flush (aux : vhprintf_aux) : M user vhprintf_aux :=
  (if buf aux <? buf_p aux then write (handle aux) (buf aux) (buf_p aux - buf aux);; ret tt else ret tt);;
  ret (set_buf_p (buf aux) aux).

Definition add_char (c : Z) (aux : vhprintf_aux) : M user vhprintf_aux :=
  on_umem (store8 (buf_p aux) c);;
  let aux := set_buf_p (buf_p aux + 1) aux in
  aux ← (if buf aux + 64 <=? buf_p aux then flush aux else ret aux);
  ret (mk_vhprintf_aux (buf aux) (buf_p aux) (i32 (char_cnt aux + 1)) (handle aux)).

(** An output function of a user program as one of __vprintf(), which works on
    memory: the rest of the state goes with its auxiliary data. *)
Definition as_output {A} (f : Z -> A -> M user A) (c : Z) (x : A * (Z * list (Z * bytes))) : M bytes (A * (Z * list (Z * bytes))) := fun b =>
  match f c x.1 (mk_user b x.2.1 x.2.2) with
  | Ok (a, u) => Ok ((a, (esp u, traps u)), umem u)
  | Err e => Err e
  end.

Definition user_vprintf {A} (f : Z -> A -> M user A) (format : list Z) (args : list arg) (a : A) : M user A := fun u =>
  match __vprintf (as_output f) 2 format args (a, (esp u, traps u)) (umem u) with
  | Ok (x, b) => Ok (x.1, mk_user b x.2.1 x.2.2)
  | Err e => Err e
  end.

(** [aux_buf] is where the buffer of the local variable is. *)
Definition vhprintf (aux_buf : Z) (hd : Z) (format : list Z) (args : list arg) : M user Z :=
  aux ← user_vprintf add_char format args (mk_vhprintf_aux aux_buf aux_buf 0 hd);
  aux ← flush aux;
  ret (char_cnt aux).

Definition hprintf (aux_buf : Z) (hd : Z) (format : list Z) (args : list arg) : M user Z := vhprintf aux_buf hd format args.
Definition vprintf (aux_buf : Z) (format : list Z) (args : list arg) : M user Z := vhprintf aux_buf STDOUT_FILENO format args.

(** [c2] is where the local variable is. *)
Definition putchar (c2 c : Z) : M user Z :=
  on_umem (store8 c2 c);;
  write STDOUT_FILENO c2 1;;
  ret c.

Definition puts (c2 s : Z) : M user Z :=
  n ← on_umem (strlen s);
  write STDOUT_FILENO s n;;
  putchar c2 10;;
  ret 0.
End Code.

(** * System calls and output of user programs: properties *)

(** ** Words on the stack *)

Definition bytes_of (v : Z) : list Z := [u8 v; u8 (Z.shiftr v 8); u8 (Z.shiftr v 16); u8 (Z.shiftr v 24)].
Definition stack_words (l : list Z) : list Z := l ≫= bytes_of.

Lemma length_stack_words l : Z.of_nat (length (stack_words l)) = 4 * Z.of_nat (length l).
Proof. induction l as [|v l IH]; [done|]. change (stack_words (v :: l)) with (bytes_of v ++ stack_words l). rewrite length_app. cbn [bytes_of length]. lia. Qed.

(** Replacing the state of a goal by an equal one. *)
Ltac eqsubst H := match type of H with ?Q ?r ?s => match goal with |- ?Q ?r ?t => replace t with s; [exact H|] end end.

Section Proofs.
Context {kernel : UserKernel}.

Lemma wp_on_umem {A} (m : M bytes A) (Q : A -> user -> Prop) u : wp m (fun a b => Q a (set_umem b u)) (umem u) -> wp (on_umem m) Q u.
Proof using. apply (wp_zoom umem set_umem m Q u). Qed.

Lemma wp_push8s b p v (Q : unit -> bytes -> Prop) : mapped b p 4 -> Q tt (Bytes.write b p (bytes_of v)) -> wp (push8s p v) Q b.
Proof using.
  intros Hm HQ. unfold push8s.
  assert (Hi : forall i, 0 <= i < 4 -> is_Some (b !! (p + i))) by (intros i Hi; apply Hm; lia).
  apply wp_bind, wp_store8; [rewrite <- (Z.add_0_r p); apply Hi; lia|].
  do 2 (apply wp_bind, wp_store8; [rewrite !lookup_insert_ne by lia; apply Hi; lia|]). apply wp_store8; [rewrite !lookup_insert_ne by lia; apply Hi; lia|].
  eqsubst HQ. apply map_eq. intros a. cbn [bytes_of Bytes.write umem]. rewrite !lookup_insert. repeat case_decide; first [done|lia].
Qed.

Lemma wp_pushl u v (Q : unit -> user -> Prop) : mapped (umem u) (esp u - 4) 4 ->
  Q tt (mk_user (Bytes.write (umem u) (esp u - 4) (bytes_of v)) (esp u - 4) (traps u)) -> wp (pushl v) Q u.
Proof using.
  intros Hm HQ. unfold pushl. apply wp_bind. red. cbn [get]. apply wp_bind, wp_on_umem, wp_push8s; [done|]. exact HQ.
Qed.

Lemma mapped_part b p n q m : mapped b p n -> p <= q -> q + Z.of_nat m <= p + Z.of_nat n -> mapped b q m.
Proof using. intros H H1 H2 i Hi. replace (q + i) with (p + (q + i - p)) by lia. apply H. lia. Qed.

(** The arguments and the number pushed, last one first. *)
Fixpoint pushes (l : list Z) : M user unit := match l with [] => ret tt | v :: l => pushes l;; pushl v end.

Lemma wp_pushes l : forall u (Q : unit -> user -> Prop), mapped (umem u) (esp u - 4 * Z.of_nat (length l)) (4 * length l) ->
  Q tt (mk_user (Bytes.write (umem u) (esp u - 4 * Z.of_nat (length l)) (stack_words l)) (esp u - 4 * Z.of_nat (length l)) (traps u)) ->
  wp (pushes l) Q u.
Proof using.
  induction l as [|v l IH]; intros u Q Hm HQ; cbn [pushes].
  - apply wp_ret. cbn in HQ. rewrite Z.sub_0_r in HQ. by destruct u.
  - cbn [length] in Hm. apply wp_bind. apply IH; [eapply mapped_part; [exact Hm|lia|lia]|]. apply wp_pushl; cbn [umem esp traps].
    + apply mapped_write. eapply mapped_part; [exact Hm|lia|lia].
    + change (stack_words (v :: l)) with (bytes_of v ++ stack_words l) in HQ. rewrite write_app in HQ. cbn [length bytes_of] in HQ.
      replace (esp u - 4 * Z.of_nat (length l) - 4) with (esp u - 4 * Z.of_nat (S (length l))) by lia.
      replace (esp u - 4 * Z.of_nat (S (length l)) + Z.of_nat 4) with (esp u - 4 * Z.of_nat (length l)) in HQ by lia. exact HQ.
Qed.

(** A system call with the words [l], number first: the kernel sees them on
    top of the stack, and the stack pointer is as before in the end. *)
Definition request (l : list Z) : M user Z := pushes l;; r ← trap; pop (4 * Z.of_nat (length l));; ret r.

Lemma wp_request l u (Q : Z -> user -> Prop) : let sp := esp u - 4 * Z.of_nat (length l) in
  let b := Bytes.write (umem u) sp (stack_words l) in mapped (umem u) sp (4 * length l) ->
  Q (i32 (int_0x30 sp b).1) (mk_user (int_0x30 sp b).2 (esp u) (traps u ++ [(sp, b)])) -> wp (request l) Q u.
Proof using.
  intros sp b Hm HQ. unfold request. apply wp_bind. apply wp_pushes; [exact Hm|]. fold sp b.
  apply wp_bind. red. unfold trap. cbn [esp umem traps]. destruct (int_0x30 sp b) as [eax b']. cbn [fst snd] in HQ.
  apply wp_bind. red. unfold pop. cbn [modify]. unfold set_esp. cbn [esp umem traps].
  replace (sp + 4 * Z.of_nat (length l)) with (esp u) by (unfold sp; lia). exact HQ.
Qed.

Ltac by_pushes := unfold syscall0, syscall1, syscall2, syscall3, request; cbn [pushes]; unfold bind, ret;
  repeat match goal with |- context [pushl ?v ?w] => destruct (pushl v w) as [[[] ?]|]; [|done] end; done.

Lemma syscall0_request n u : syscall0 n u = request [number_of n] u.
Proof using. by_pushes. Qed.
Lemma syscall1_request n a u : syscall1 n a u = request [number_of n; a] u.
Proof using. by_pushes. Qed.
Lemma syscall2_request n a b u : syscall2 n a b u = request [number_of n; a; b] u.
Proof using. by_pushes. Qed.
Lemma syscall3_request n a b c u : syscall3 n a b c u = request [number_of n; a; b; c] u.
Proof using. by_pushes. Qed.

(** [m] asks the kernel for what [l] says, and returns what [f] makes of the
    answer. *)
Definition asks {A} (m : M user A) (l : list Z) (f : Z -> A) : Prop := forall u, mapped (umem u) (esp u - 16) 16 ->
  let sp := esp u - 4 * Z.of_nat (length l) in let b := Bytes.write (umem u) sp (stack_words l) in
  m u = Ok (f (i32 (int_0x30 sp b).1), mk_user (int_0x30 sp b).2 (esp u) (traps u ++ [(sp, b)])).

Lemma request_asks l : (length l <= 4)%nat -> asks (request l) l id.
Proof using.
  intros Hl u Hm sp b. set (R r t := r = i32 (int_0x30 sp b).1 /\ t = mk_user (int_0x30 sp b).2 (esp u) (traps u ++ [(sp, b)])).
  cut (wp (request l) R u); [intros (r & t & E & -> & ->)%wp_ok; exact E|].
  apply wp_request; [eapply mapped_part; [exact Hm|lia|lia]|by split].
Qed.

Lemma asks_map {A B} (m : M user A) (g : A -> B) l f : asks m l f -> asks (x ← m; ret (g x)) l (fun r => g (f r)).
Proof using. intros H u Hm. unfold bind. by rewrite (H u Hm). Qed.

Lemma asks_eq {A} (m m' : M user A) l f : (forall u, m u = m' u) -> asks m' l f -> asks m l f.
Proof using. intros E H u Hm. rewrite E. by apply H. Qed.

Lemma asks1 n a : asks (syscall1 n a) [number_of n; a] id.
Proof using. eapply asks_eq; [apply syscall1_request|]. apply request_asks. cbn. lia. Qed.
Lemma asks2 n a b : asks (syscall2 n a b) [number_of n; a; b] id.
Proof using. eapply asks_eq; [apply syscall2_request|]. apply request_asks. cbn. lia. Qed.
Lemma asks3 n a b c : asks (syscall3 n a b c) [number_of n; a; b; c] id.
Proof using. eapply asks_eq; [apply syscall3_request|]. apply request_asks. cbn. lia. Qed.

(** The system calls of a user program ask the kernel for what their names
    say: the number and the arguments are on top of the stack in order when
    the kernel is entered, and the stack pointer is restored. *)
Theorem syscall_stubs_correct f n fd p c : let bool_of r := negb (r =? 0) in
  (asks (exec f) [2; f] id /\ asks (wait p) [3; p] id /\ asks (create f n) [4; f; n] bool_of /\ asks (remove f) [5; f] bool_of) /\
  (asks (open f) [6; f] id /\ asks (filesize fd) [7; fd] id /\ asks (read fd p n) [8; fd; p; n] id /\ asks (write fd p n) [9; fd; p; n] id) /\
  (asks (seek fd n) [10; fd; n] (fun _ => tt) /\ asks (tell fd) [11; fd] u32 /\ asks (close fd) [12; fd] (fun _ => tt) /\
   asks (mmap fd p) [13; fd; p] id /\ asks (munmap c) [14; c] (fun _ => tt)) /\
  (asks (chdir f) [15; f] bool_of /\ asks (mkdir f) [16; f] bool_of /\ asks (readdir fd p) [17; fd; p] bool_of /\
   asks (isdir fd) [18; fd] bool_of /\ asks (inumber fd) [19; fd] id).
Proof using.
  intros bool_of. split_and!.
  - exact (asks1 SYS_EXEC f).
  - exact (asks1 SYS_WAIT p).
  - exact (asks_map _ bool_of _ _ (asks2 SYS_CREATE f n)).
  - exact (asks_map _ bool_of _ _ (asks1 SYS_REMOVE f)).
  - exact (asks1 SYS_OPEN f).
  - exact (asks1 SYS_FILESIZE fd).
  - exact (asks3 SYS_READ fd p n).
  - exact (asks3 SYS_WRITE fd p n).
  - exact (asks_map _ (fun _ => tt) _ _ (asks2 SYS_SEEK fd n)).
  - exact (asks_map _ u32 _ _ (asks1 SYS_TELL fd)).
  - exact (asks_map _ (fun _ => tt) _ _ (asks1 SYS_CLOSE fd)).
  - exact (asks2 SYS_MMAP fd p).
  - exact (asks_map _ (fun _ => tt) _ _ (asks1 SYS_MUNMAP c)).
  - exact (asks_map _ bool_of _ _ (asks1 SYS_CHDIR f)).
  - exact (asks_map _ bool_of _ _ (asks1 SYS_MKDIR f)).
  - exact (asks_map _ bool_of _ _ (asks2 SYS_READDIR fd p)).
  - exact (asks_map _ bool_of _ _ (asks1 SYS_ISDIR fd)).
  - exact (asks1 SYS_INUMBER fd).
Qed.

(** ** Output *)

(** At [t] the kernel was asked to write [cs] to [h]. *)
Definition sent (h : Z) (t : Z * bytes) (cs : list Z) : Prop :=
  exists p, block t.2 t.1 (stack_words [number_of SYS_WRITE; h; p; len cs]) /\ block t.2 p cs.

(** Writing does not change the program's memory. *)
Definition writes_only_read : Prop := forall h sp b cs, sent h (sp, b) cs -> (int_0x30 sp b).2 = b.

Section Output.
Hypothesis kernel_ok : writes_only_read.

Lemma wp_write u h p cs (Q : Z -> user -> Prop) : mapped (umem u) (esp u - 16) 16 -> block (umem u) p cs ->
  p + len cs <= esp u - 16 \/ esp u <= p ->
  (forall r b, (forall a, ~ esp u - 16 <= a < esp u -> b !! a = umem u !! a) -> mapped b (esp u - 16) 16 -> sent h (esp u - 16, b) cs ->
     Q r (mk_user b (esp u) (traps u ++ [(esp u - 16, b)]))) ->
  wp (write h p (len cs)) Q u.
Proof using kernel_ok.
  intros Hm Hb Hd HQ. set (b := Bytes.write (umem u) (esp u - 16) (stack_words [number_of SYS_WRITE; h; p; len cs])).
  assert (Hout : forall a, ~ esp u - 16 <= a < esp u -> b !! a = umem u !! a).
  { intros a Ha. unfold b. rewrite lookup_write, decide_False; [done|]. rewrite length_stack_words. cbn. lia. }
  assert (Hs : sent h (esp u - 16, b) cs).
  { exists p. split; [apply block_write|]. eapply block_agree; [|exact Hb]. intros i Hi. apply Hout. unfold len in Hd. lia. }
  apply wp_ok. eexists _, _. split; [apply (asks3 SYS_WRITE h p (len cs)); exact Hm|].
  change (esp u - 4 * Z.of_nat (length [number_of SYS_WRITE; h; p; len cs])) with (esp u - 16). fold b. rewrite (kernel_ok h _ _ cs) by exact Hs.
  apply HQ; [done|by apply mapped_write|done].
Qed.

(** The memory [b0], stack pointer [sp] and system calls [ts0] at the start, and
    the buffer [bf] above the stack pointer. *)
Context (b0 : bytes) (sp bf h : Z) (ts0 : list (Z * bytes)).
Hypothesis above : sp <= bf.

(** What has gone out, in chunks, and what is in the buffer. *)
Record out (chunks : list (list Z)) (pending : list Z) (u : user) : Prop := {
  out_esp : esp u = sp;
  out_traps : exists new, traps u = ts0 ++ new /\ Forall2 (sent h) new chunks;
  out_sizes : Forall (fun c => 0 < len c <= 64) chunks;
  out_pending : block (umem u) bf pending;
  out_same : forall a, ~ sp - 16 <= a < sp -> ~ bf <= a < bf + 64 -> umem u !! a = b0 !! a;
  out_stack : mapped (umem u) (sp - 16) 16;
  out_buffer : mapped (umem u) bf 64 }.

Lemma out_keep chunks pending u : out chunks pending u -> out chunks [] u.
Proof using. intros []. by split. Qed.

Lemma wp_flush chunks pending cnt u : out chunks pending u -> len pending <= 64 ->
  wp (flush (mk_vhprintf_aux bf (bf + len pending) cnt h)) (fun a u' => a = mk_vhprintf_aux bf bf cnt h /\
    exists chunks', mjoin chunks' = mjoin chunks ++ pending /\ out chunks' [] u') u.
Proof using above kernel_ok.
  intros Ho Hl. pose proof Ho as []. unfold flush. cbn [buf buf_p handle]. apply wp_bind. destruct pending as [|c cs].
  - rewrite (proj2 (Z.ltb_ge _ _)) by (unfold len; cbn; lia). apply wp_ret, wp_ret. split; [done|]. exists chunks. by rewrite app_nil_r.
  - set (pending := c :: cs) in *. assert (Hp : 0 < len pending) by (unfold len, pending; cbn; lia).
    rewrite (proj2 (Z.ltb_lt _ _)) by lia. replace (bf + len pending - bf) with (len pending) by lia.
    apply wp_bind, wp_write; [by rewrite out_esp0|done|lia|]. intros r b Hag Hm Hs. rewrite out_esp0 in *. apply wp_ret, wp_ret. split; [done|].
    destruct out_traps0 as (new & Et & Hf). exists (chunks ++ [pending]). split.
    { rewrite join_app. cbn. by rewrite app_nil_r. }
    split; cbn [umem esp traps]; [done| | |done| |done|].
    + exists (new ++ [(sp - 16, b)]). rewrite Et, app_assoc. split; [done|]. apply Forall2_app; [done|]. by constructor.
    + apply Forall_app. split; [done|]. constructor; [lia|done].
    + intros a H1 H2. rewrite Hag by done. by apply out_same0.
    + intros i Hi. rewrite Hag by lia. by apply out_buffer0.
Qed.

Lemma wp_add_char chunks pending c u : let n := len (mjoin chunks ++ pending) in out chunks pending u -> len pending < 64 -> 0 <= c < 256 ->
  n + 1 < 2 ^ 31 ->
  wp (add_char c (mk_vhprintf_aux bf (bf + len pending) n h)) (fun a u' => exists chunks' pending',
    mjoin chunks' ++ pending' = mjoin chunks ++ pending ++ [c] /\ len pending' < 64 /\
    a = mk_vhprintf_aux bf (bf + len pending') (n + 1) h /\ out chunks' pending' u') u.
Proof using above kernel_ok.
  intros n Ho Hl Hc Hn. pose proof Ho as []. unfold add_char. cbn [buf_p]. unfold len in Hl.
  apply wp_bind, wp_on_umem, wp_store8; [apply out_buffer0; unfold len; lia|]. rewrite uwrap_small by (unfold in_u; lia).
  set (u1 := set_umem _ u). assert (H1 : out chunks (pending ++ [c]) u1).
  { split; cbn [u1 umem esp traps set_umem]; [done|done|done| | | |].
    - apply block_app. split; [|split; [by apply lookup_insert_eq|done]]. eapply block_agree; [|exact out_pending0].
      intros i Hi. apply lookup_insert_ne. unfold len. lia.
    - intros a H1 H2. rewrite lookup_insert_ne by (unfold len; lia). by apply out_same0.
    - intros i Hi. rewrite lookup_insert_ne by (unfold len; lia). by apply out_stack0.
    - intros i Hi. rewrite lookup_insert. case_decide; [by eexists|by apply out_buffer0]. }
  assert (El : len (pending ++ [c]) = len pending + 1) by (unfold len; rewrite length_app; cbn; lia).
  unfold set_buf_p. cbn [buf buf_p char_cnt handle]. replace (bf + len pending + 1) with (bf + len (pending ++ [c])) by lia.
  assert (Ew : i32 (n + 1) = n + 1) by (apply swrap_small; unfold in_s, n, len in *; lia). apply wp_bind.
  destruct (Z.leb_spec (bf + 64) (bf + len (pending ++ [c]))) as [Hf|Hf].
  - eapply wp_mono; [apply (wp_flush chunks (pending ++ [c])); [done|unfold len in *; lia]|]. cbn beta. intros a u' (-> & chunks' & Ej & Ho').
    apply wp_ret. exists chunks', []. cbn [buf buf_p handle char_cnt]. rewrite Ew, app_nil_r, Ej. split_and!; [done|done|f_equal; unfold len; cbn; lia|done].
  - apply wp_ret. exists chunks, (pending ++ [c]). cbn [buf buf_p handle char_cnt]. rewrite Ew. split_and!; [done|lia|done|done].
Qed.

(** [rest] of [text] is still to come. *)
Definition printing (text rest : list Z) (x : vhprintf_aux * (Z * list (Z * bytes))) (b : bytes) : Prop :=
  exists chunks pending, text = mjoin chunks ++ pending ++ rest /\ len pending < 64 /\
    x.1 = mk_vhprintf_aux bf (bf + len pending) (len (mjoin chunks ++ pending)) h /\ out chunks pending (mk_user b x.2.1 x.2.2).

Lemma printing_output text : len text < 2 ^ 31 -> forall c rest x b, 0 <= c < 256 -> printing text (c :: rest) x b ->
  wp (as_output add_char c x) (printing text rest) b.
Proof using above kernel_ok.
  intros Ht c rest [a [e ts]] b Hc (chunks & pending & Et & Hl & Ea & Ho). cbn [fst snd] in *. subst a.
  unfold as_output, wp. cbn [fst snd].
  assert (Hn : len (mjoin chunks ++ pending) + 1 < 2 ^ 31) by (rewrite Et in Ht; unfold len in *; rewrite !length_app in *; cbn [length] in *; lia).
  pose proof (wp_add_char chunks pending c _ Ho Hl Hc Hn) as (a & u & -> & chunks' & pending' & Ej & Hl' & -> & Ho')%wp_ok.
  exists chunks', pending'. cbn [fst snd]. split_and!; [|done| |by destruct u].
  - rewrite (app_assoc (mjoin chunks')), Ej, <- !app_assoc. exact Et.
  - rewrite Ej. f_equal. unfold len. rewrite !length_app. cbn. lia.
Qed.
End Output.

Lemma wp_vhprintf u bf h strs ps args text : writes_only_read -> Forall valid_piece ps -> render strs ps args = Some text -> len text < 2 ^ 31 ->
  esp u <= bf -> mapped (umem u) (esp u - 16) 16 -> mapped (umem u) bf 64 -> strings_in (umem u) strs (esp u - 16) (bf + 64 - (esp u - 16)) ->
  wp (vhprintf bf h (show ps) args) (fun r u' => r = len text /\
    exists chunks, mjoin chunks = text /\ out (umem u) (esp u) bf h (traps u) chunks [] u') u.
Proof using.
  intros Hk Hv Hr Ht Hab Hst Hbf Hstr. unfold vhprintf. apply wp_bind.
  assert (H0 : printing (umem u) (esp u) bf h (traps u) text (text ++ []) (mk_vhprintf_aux bf bf 0 h, (esp u, traps u)) (umem u)).
  { exists [], []. rewrite app_nil_r. split_and!; [done|done|unfold len; cbn; f_equal; lia|].
    split; cbn; [done|exists []; by rewrite app_nil_r|done|done|done|done|done]. }
  unfold user_vprintf, wp at 1.
  pose proof (emits_vprintf (as_output add_char) strs (printing (umem u) (esp u) bf h (traps u) text)
    (printing_output Hk (umem u) (esp u) bf h (traps u) Hab text Ht)) as He.
  destruct (proj1 (wp_ok _ _ _) (He ltac:(
    intros rest x b q cs (chunks & pending & _ & _ & _ & [_ _ _ _ Hs _ _]) Hq; destruct (Hstr q cs Hq) as (Hc & Hl & Hdis); split; [|done];
    eapply cstr_agree; [|exact Hc]; intros i Hi; apply Hs; unfold len in *; lia) ps args text Hv Hr [] _ _ H0))
    as ([a [e ts]] & b & -> & chunks & pending & Et & Hl & Ea & Ho).
  cbn [fst snd] in *. subst a. rewrite app_nil_r in Et. fold (wp (S := user) (A := Z)). apply wp_bind.
  eapply wp_mono; [apply (wp_flush Hk (umem u) (esp u) bf h (traps u) Hab chunks pending); [done|lia]|]. cbn beta.
  intros a u' (-> & chunks' & Ej & Ho'). apply wp_ret. cbn [char_cnt]. split; [by rewrite Et|]. exists chunks'. by rewrite Ej.
Qed.

End Proofs.

(** ** Example *)

(** A kernel that leaves memory alone; a stack at 1000 with the buffer there,
    and a string at 500. *)
Definition quiet_kernel : UserKernel := {| int_0x30 := fun _ b => (0, b) |}.
Definition demo_user : user := mk_user (Bytes.write (Bytes.write ∅ 500 [104; 101; 108; 108; 111; 0]) 984 (replicate 80 0)) 1000 [].

Lemma demo_user_mapped p n : 984 <= p -> p + Z.of_nat n <= 1064 -> mapped (umem demo_user) p n.
Proof.
  intros H1 H2. pose proof (block_mapped _ _ _ (block_write (Bytes.write ∅ 500 [104; 101; 108; 108; 111; 0]) 984 (replicate 80 0))) as H.
  rewrite length_replicate in H. by eapply (mapped_part _ 984 80); [exact H|lia|lia].
Qed.

